(* ===== verification/_CoqProject ===== *)
-Q . S2P
Prelude.v
LinkedList.v
Containers.v
MinHeap.v
BST.v
MemTree.v
PageAlloc.v
KernelHeap.v
KString.v
Scheduler.v
FileTable.v
Signals.v
Bytes.v
Ata.v
Fat.v
SharedPtr.v
Vfs.v
VfsFat.v
Net.v
Tcp.v
Dhcp.v
Dns.v
NetStack.v
Slab.v
Fb.v
Printf.v
Http.v
Keyboard.v
Elf.v
ElfLoader.v
ShParser.v
ShTree.v
ShLexer.v
ShRedir.v
Syscalls.v
ShExec.v
