(* ===== verification/Prelude.v ===== *)
(** * A verification library for BrebOS

    BrebOS is a small operating system for 32-bit x86, written in C++.  Its kernel keeps the memory of the machine in page
    tables with reference-counted frames, serves [malloc] from a binary search tree of address ranges and small objects from slabs,
    loads ELF programs, runs up to 32 processes in a round-robin scheduler, gives every process a table of file descriptors on a
    system-wide table of open files and POSIX-like signals, keeps files on a FAT32 volume behind a virtual file system with a cache of
    directory entries, speaks Ethernet, ARP, IPv4, ICMP, UDP, TCP, DHCP, DNS and HTTP, and has a screen with escape sequences and a
    keyboard.  Its shell is a program with a lexer and a recursive descent parser.  Paths below are relative to [src/src/kernel],
    except [libc] and [programs], which are beside it.

    ** Files, and the code they model

    - [Prelude]: outcomes of kernel code, machine integers, tactics and list lemmas.  [Bytes]: words as bytes.
    - [LinkedList]: [utils/list.hxx], with nodes in a heap, so that pointer surgery and deleted nodes are visible.
    - [Containers]: [utils/queue.hxx], [Stack.hxx] and [circular_buffer.hxx], on arrays with 32-bit indices.
    - [MinHeap]: [utils/min_heap.hxx].  [BST]: [utils/BST.hxx], trees with paths for the node pointers.
    - [MemTree]: [core/Memtree.cpp], the allocator on top of [BST].  The page level is a type class: [PageOps] has the operations it
      calls and [PageLaws] what it relies on.
    - [PageAlloc]: [core/RawMemory.cpp], the page part of [core/memory.cpp], and [Process::update_pte].  Page tables and frame arrays
      are finite maps; page faults, copy on write and lazily zeroed pages are executable.  Its instances discharge the interface of
      [MemTree].
    - [KernelHeap]: [malloc], [calloc], [free], [realloc], [mmap], [mprotect] and their relatives of [core/memory.cpp].
    - [Slab]: [core/SlabAllocator.hxx], objects of one size in pages.  [SharedPtr]: [utils/shared_pointer.hxx].
    - [KString]: [libc/kstring.cpp] on a byte-addressed memory.  [Printf]: the formatted output of [core/fb.cpp].
    - [Scheduler]: [processes/scheduler.cpp] and the parts of [process.cpp] it uses; the queues are [Containers.Queue], the sleepers
      a [MinHeap].
    - [Signals]: the signal functions of [process.cpp] and [Scheduler::signal_handling].
    - [Elf], [ElfLoader]: [processes/ELF.cpp], [ELFLoader.cpp] and [ELFTools.hxx]: checking a program, looking symbols up, building a
      process with its pages, stacks and arguments.  The kernel's pages come from [mmap] of [KernelHeap].
    - [FileTable]: the descriptor tables of [process.cpp] and [VFS.cpp] and the files, terminals and pipes of [FileInterface.cpp].
    - [Ata], [Fat]: [file_management/ATA.cpp] and [FAT.cpp].  The driver is an instance of the class [BlockDevice] the volume is on.
    - [Vfs], [VfsFat]: path lookup and the cache of directory entries ([VFS.cpp], [dentry.cpp]) over the class [FileSystem], and the FAT
      volume as an instance of it.
    - [Net], [Tcp], [Dhcp], [Dns], [NetStack], [Http]: [network/], from checksums and headers over sockets to a download.
    - [Fb], [Keyboard]: the text screen ([core/fb.cpp]) with its escape sequences, and the keyboard ([core/keyboard.cpp]).
    - [ShParser], [ShTree], [ShLexer]: [programs/42sh], the reading of lines, the lexer, the parser and the loop of [main].  The parser
      is written over the class [Lexer]; the lexer with two tokens of lookahead and a list of tokens are its two implementations.
    - [ShRedir], [ShExec]: its redirections ([execution/exec_redir.cpp]), on the descriptor tables of [FileTable], and the execution of
      control structures, variables and builtins ([exec_switch.cpp] and its neighbours, [list_var.cpp], [builtins/]).
    - [Syscalls]: the dispatcher of system calls ([core/syscalls.cpp]) and the side of the C library with its inline assembly
      ([mlibc-config/sysdeps/brebos], [libk/ksyscalls.cpp]), over the class [Kernel]; [FileTable] is an instance of its part [FdCalls].

    ** What is shown

    - Each theorem is stated for the code as it is; its comment names the cases it leaves out, and where the code goes wrong in such a
      case another theorem says how.
    - Containers: sequences of list and queue operations do what the same operations do on a sequence of elements, up to two calls of the
      list that depart from their documentation ([list_refines], [queue_refines]); the heap sorts ([heap_drains_sorted]); the tree is a multiset ([bst_multiset]).
    - Allocation: up to 4294963200 bytes, where sizes begin to wrap around ([allocate_wraps]), [allocate] returns fresh disjoint ranges and [free] removes exactly the given one ([allocate_ok], [free_ok]), for any
      page level with the laws, hence for the kernel's ([kernel_malloc_ok]); objects of a slab are distinct ([slab_objects_distinct]); the
      counters of shared pointers are right after every sequence of operations ([shared_ptr_ok]).
    - Pages: no frame is mapped twice over all sequences of kernel operations ([kernel_frames_distinct], by induction on the step
      relation [kernel_step]); first fit; the copy-on-write fault ([cow_fault_ok]).
    - Processes: round robin with termination ([get_next_process_round_robin]), sleepers, reaping of children; among programs without dynamic
      linking exactly those that should be are accepted ([is_valid_ok]), and a process is built as the ABI says ([process_is_built]); both ways to
      look a symbol up agree ([hash_lookup_agrees]); signals that [sigaction] installed a handler for are delivered and
      returned from, and the other cases are characterised ([signal_delivery_ok], [signal_handler_faults]).
    - Files: the invariant of both descriptor tables ([fd_calls_keep_inv]), from [pipe] ([pipe_ok]) to
      the end of a process ([exit_closes_descriptors]); what is written to a FAT file
      is read back and other files keep their contents ([write_then_load], [resize_ok], [load_file_ok]); a path leads to what the
      file systems say, whatever the cache holds ([browse_to_ok], [lookup_ignores_cache]).
    - Network: checksums of received segments, the opening handshake, what a connection can do over sequences of segments and
      calls, a second resolution of its name apart ([segment_arrives], [handshake_completes], [connection_is_safe]); names are encoded within their buffer and decoded back
      ([encoded_name_fits], [parse_encoded_name]); an address is configured ([dhcp_ack_configures]); a file is downloaded and
      saved ([download_saved]).
    - Output and input: formatted output is the rendering of its pieces and arrives on the screen ([kvprintf_renders],
      [printf_on_screen]); a key reaches the process that reads the terminal ([key_reaches_reader]).
    - Shell: a script is read as the programs it consists of, from its bytes to the trees that are executed ([script_is_read]); the
      parser ends on every input ([parser_terminates]) and its trees have pointers of the right types ([parsed_tree_typed]); an output
      redirection gives every descriptor back ([output_redirection_restores]); control structures with [break], [continue] and [exit] are
      executed as the usual big-step semantics says, outside of the places where the shell departs from it ([exec_implements_semantics]).
    - System calls: every call of the C library reaches the operation of the kernel that it is for and gets its answer,
      the error of [execve] and one status of [waitpid] apart ([libc_reaches_kernel]), down to the descriptor tables ([descriptor_calls_reach_tables]).
    - Theorems about branches in which the code does not do what it means to are stated for the code as it is, for instance
      [realloc_swallows_used], [exec_switch_reads_deleted], [full_page_panics], [pointer_loop_never_ends], [unterminated_quote_hangs],
      [duplicating_redirection_closes_both], [exit_in_while_hangs], [waited_status_is_pid].

    ** Conventions, bounds and fuel

    A machine word is a [Z] whose wrap-around is written out with [u32] and its relatives.  A call returns a [res]: a value, a stop
    in [irrecoverable_error] ([Panic]), an access the language does not define ([Fault]), or lack of fuel.  Counted loops are [for_from]
    and its relatives.  Loops that are not structural take the fuel that bounds them: the number of nodes of a list or tree, the
    entries left in a table (at most 2^20 pages, 100 open files, 20 descriptors), the length of a memory for the string loops, two rounds
    per entry of the 32-place ready queue, the clusters of a chain, three rounds of folding a checksum, the years since 1970 and the
    months of a year, the labels of a name, the ports that are drawn, 64 digits and 400 scalings of a number, the length of a format, the entries
    of the dynamic table and the chains of a hash table of a program, the nesting of interpreters, and the tokens of a shell program for the depth
    and the loops of its parser; the theorems that speak of a result show that the fuel is enough.

    ** What is not modelled

    The network card and the PCI bus, the interrupt and segment tables, timers and the switch of stacks, which are hardware
    accesses; the calls of the C library that are stubs; booting; TLB
    and page directory maintenance; the copy of an address space by [fork]; the expansion of words, pipelines, subshells and
    function definitions of the shell, and the other user programs.  Numbers that belong to the libc headers ([errno], flags, signal actions) are names or variables. *)

From stdpp Require Import base tactics numbers list gmap strings.
Open Scope Z_scope.

(** ** Outcomes of kernel code

    Kernel code returns normally, stops in [irrecoverable_error], or does
    something the language gives no meaning to (a null or dangling pointer
    dereference, an array access out of range).  Loops that are not structural
    carry a fuel argument and answer [NoFuel] when it runs out; every theorem
    that speaks of a result shows that this does not happen. *)

Inductive res (A : Type) : Type :=
| Ok (a : A)
| Panic
| Fault
| NoFuel.
Arguments Ok {A} a.
Arguments Panic {A}.
Arguments Fault {A}.
Arguments NoFuel {A}.

#[export] Instance res_ret : MRet res := @Ok.
#[export] Instance res_bind : MBind res := fun A B f m =>
  match m with
  | Ok a => f a
  | Panic => Panic
  | Fault => Fault
  | NoFuel => NoFuel
  end.
#[export] Instance res_fmap : FMap res := fun A B f m =>
  match m with
  | Ok a => Ok (f a)
  | Panic => Panic
  | Fault => Fault
  | NoFuel => NoFuel
  end.

#[export] Instance res_eq_dec {A} `{EqDecision A} : EqDecision (res A).
Proof. solve_decision. Defined.

(** A read that must succeed: [None] is an access the language does not define. *)
Definition deref {A} (o : option A) : res A :=
  match o with Some a => Ok a | None => Fault end.

(** [if (!c) irrecoverable_error(...)]. *)
Definition ensure (c : bool) : res unit := if c then Ok tt else Panic.

(** ** Machine integers, kept as [Z] with their wrap-around *)

Definition u8 (x : Z) : Z := x mod 256.
Definition u16 (x : Z) : Z := x mod 65536.
Definition u32 (x : Z) : Z := x mod 4294967296.

Declare Scope word_scope.
Delimit Scope word_scope with word.
Notation "x +u y" := (u32 (x + y)) (at level 50, left associativity) : word_scope.
Notation "x -u y" := (u32 (x - y)) (at level 50, left associativity) : word_scope.
Notation "x *u y" := (u32 (x * y)) (at level 40, left associativity) : word_scope.
Open Scope word_scope.

(** The value [(uint)-1]. *)
Definition UINT_MAX : Z := 4294967295.

Definition is_u8 (x : Z) : Prop := 0 <= x < 256.
Definition is_u16 (x : Z) : Prop := 0 <= x < 65536.
Definition is_u32 (x : Z) : Prop := 0 <= x < 4294967296.

(** A C condition on an integer. *)
Definition truthy (x : Z) : bool := negb (x =? 0).

Create HintDb brebos discriminated.
Create Rewrite HintDb word.

Lemma u8_range x : is_u8 (u8 x).
Proof. apply Z.mod_pos_bound; lia. Qed.

Lemma u16_range x : is_u16 (u16 x).
Proof. apply Z.mod_pos_bound; lia. Qed.

Lemma u32_range x : is_u32 (u32 x).
Proof. apply Z.mod_pos_bound; lia. Qed.

Lemma u8_id x : is_u8 x -> u8 x = x.
Proof. apply Z.mod_small. Qed.

Lemma u16_id x : is_u16 x -> u16 x = x.
Proof. apply Z.mod_small. Qed.

Lemma u32_id x : is_u32 x -> u32 x = x.
Proof. apply Z.mod_small. Qed.

#[export] Hint Resolve u8_range u16_range u32_range : brebos.
#[export] Hint Rewrite u8_id u16_id u32_id using (unfold is_u8, is_u16, is_u32 in *; lia) : word.

(** ** Tactics *)

(** Split every boolean test of the goal or of the hypotheses into its cases,
    with the arithmetic reading of the test in the context. *)
Ltac bool_to_prop :=
  repeat match goal with
  | H : context [Z.eqb ?a ?b] |- _ => destruct (Z.eqb_spec a b)
  | |- context [Z.eqb ?a ?b] => destruct (Z.eqb_spec a b)
  | H : context [Z.leb ?a ?b] |- _ => destruct (Z.leb_spec a b)
  | |- context [Z.leb ?a ?b] => destruct (Z.leb_spec a b)
  | H : context [Z.ltb ?a ?b] |- _ => destruct (Z.ltb_spec a b)
  | |- context [Z.ltb ?a ?b] => destruct (Z.ltb_spec a b)
  end.

(** Remove the wrap-around of every word operation whose result is in range. *)
Ltac words := unfold is_u8, is_u16, is_u32 in *; cbv beta in *; autorewrite with word in *.

(** Run the monadic code of the goal one bind further. *)
Ltac run := cbn [mbind res_bind mret res_ret deref ensure fmap res_fmap].
Ltac run_in H := cbn [mbind res_bind mret res_ret deref ensure fmap res_fmap] in H.

(** ** Counted loops: [for (i = 0; i < n; i++)] with a body that may fail *)

Section loops.
Context {S : Type}.

Fixpoint for_from (n i : nat) (body : nat -> S -> res S) (s : S) : res S :=
  match n with
  | O => Ok s
  | Datatypes.S n => s ← body i s; for_from n (Datatypes.S i) body s
  end.

Definition for_loop (n : nat) (body : nat -> S -> res S) (s : S) : res S := for_from n 0 body s.

(** The rule of a loop with an invariant: it ends, and the invariant holds at the end. *)
Lemma for_loop_inv (P : nat -> S -> Prop) n body s :
  P O s -> (forall i s, (i < n)%nat -> P i s -> exists s', body i s = Ok s' /\ P (Datatypes.S i) s') ->
  exists s', for_loop n body s = Ok s' /\ P n s'.
Proof.
  intros H0 Hb. unfold for_loop. assert (forall m i s, (i + m = n)%nat -> P i s -> exists s', for_from m i body s = Ok s' /\ P n s') as Hgo.
  { induction m as [|m IH]; intros i t Hi Ht; cbn [for_from]; [exists t; by replace n with i by lia|].
    destruct (Hb i t ltac:(lia) Ht) as (t' & -> & Ht'). run. apply IH; [lia|done]. }
  by apply Hgo.
Qed.

(** A loop whose rounds each establish a property that later rounds keep. *)
Lemma for_loop_cover (I : S -> Prop) (R : S -> S -> Prop) (Q : nat -> S -> Prop) `{!PreOrder R} n body s :
  I s -> (forall i s, (i < n)%nat -> I s -> exists s', body i s = Ok s' /\ I s' /\ R s s' /\ Q i s') ->
  (forall i s s', R s s' -> Q i s -> Q i s') ->
  exists s', for_loop n body s = Ok s' /\ I s' /\ R s s' /\ forall i, (i < n)%nat -> Q i s'.
Proof.
  intros HI Hb Hm. apply (for_loop_inv (fun k t => I t /\ R s t /\ forall i, (i < k)%nat -> Q i t)).
  - split; [done|]. split; [done|]. lia.
  - intros i t Hi (Ht & Hr & Hq). destruct (Hb i t Hi Ht) as (t' & E & Ht' & Hr' & Hq'). exists t'. split; [done|]. split; [done|].
    split; [by etrans|]. intros j Hj. destruct (decide (j = i)) as [->|]; [done|]. eapply Hm; [done|]. apply Hq. lia.
Qed.

End loops.

(** ** Lemmas on lists shared by the components *)

Section lists.
Context {A : Type}.
Implicit Types l : list A.

Lemma insert_app_cons l1 x y l2 : <[length l1 := y]> (l1 ++ x :: l2) = l1 ++ y :: l2.
Proof. rewrite insert_app_r_alt by lia. by rewrite Nat.sub_diag. Qed.

Lemma lookup_app_cons l1 x l2 : (l1 ++ x :: l2) !! length l1 = Some x.
Proof. by apply list_lookup_middle. Qed.

End lists.
