(* ===== verification/LinkedList.v ===== *)
(** * The kernel's singly linked list ([kernel/utils/list.h], [list.hxx])

    The list is modelled at the level of its nodes: a heap of nodes, a [head]
    pointer and the cached size [s].  Every operation is the pointer program of
    the source, with [new] and [delete] acting on the heap, so that a null
    dereference, a dangling pointer, a leak or an overwritten neighbour would be
    visible.  [refines] shows that each operation implements its specification
    on plain sequences and touches nothing but the nodes of the list. *)

From stdpp Require Import base tactics numbers list gmap.
From S2P Require Import Prelude.
Open Scope Z_scope.

Module LinkedList.

(** ** Data *)

Definition loc := positive.
(** [Node*]; [None] is [nullptr]. *)
Definition ptr := option loc.

Record Node (E : Type) := mkNode { value : E; next : ptr }.
Arguments mkNode {E} value next.
Arguments value {E} n.
Arguments next {E} n.

(** The members of [class list]. *)
Record lst := mkList { head : ptr; s : Z }.

Section ops.
Context {E : Type} `{EqDecision E}.

Abbreviation heap := (gmap loc (Node E)).

(** [*p]: reading through a null or dangling pointer has no meaning. *)
Definition load (h : heap) (p : ptr) : res (Node E) :=
  match p with
  | None => Fault
  | Some l => deref (h !! l)
  end.

(** [p->next = q]. *)
Definition set_next (h : heap) (p q : ptr) : res heap :=
  match p with
  | None => Fault
  | Some l =>
      n ← deref (h !! l);
      Ok (<[l := mkNode (value n) q]> h)
  end.

(** [delete p]. *)
Definition free_node (h : heap) (p : ptr) : res heap :=
  match p with
  | None => Ok h
  | Some l => _ ← deref (h !! l); Ok (delete l h)
  end.

(** [new Node(e)]: a fresh cell whose [next] is [nullptr]. *)
Definition new_node (h : heap) (e : E) : heap * ptr :=
  let l := fresh (dom h : gset loc) in
  (<[l := mkNode e None]> h, Some l).

(** Loops follow [next] pointers: a chain without repetition has at most as many
    nodes as the heap. *)
Definition enough (h : heap) : nat := S (size h).

(** The [do tmp = current; current = current->next; while (current)] loop of [add]. *)
Fixpoint last_node (fuel : nat) (h : heap) (current : ptr) : res ptr :=
  match fuel with
  | O => NoFuel
  | S fuel =>
      n ← load h current;
      match next n with
      | None => Ok current
      | Some _ => last_node fuel h (next n)
      end
  end.

(** [list::add] on a node. *)
Definition add_node (h : heap) (L : lst) (newNode : ptr) : res (heap * lst) :=
  match head L with
  | None => Ok (h, mkList newNode (s L + 1))
  | Some _ =>
      tmp ← last_node (enough h) h (head L);
      h ← set_next h tmp newNode;
      Ok (h, mkList (head L) (s L + 1))
  end.

(** [list::list()]. *)
Definition empty_list : lst := mkList None 0.

(** [list::addFirst]. *)
Definition addFirst (h : heap) (L : lst) (e : E) : res (heap * lst) :=
  let '(h, newNode) := new_node h e in
  match head L with
  | None => Ok (h, mkList newNode (s L + 1))
  | Some _ =>
      h ← set_next h newNode (head L);
      Ok (h, mkList newNode (s L + 1))
  end.

(** [list::add(const E&)]. *)
Definition add (h : heap) (L : lst) (e : E) : res (heap * lst) :=
  let '(h, newNode) := new_node h e in
  add_node h L newNode.

(** The search loop of [remove]: the predecessor and the node found, if any. *)
Fixpoint find_loop (fuel : nat) (h : heap) (prev current : ptr) (e : E) : res (option (ptr * ptr)) :=
  match fuel with
  | O => NoFuel
  | S fuel =>
      n ← load h current;
      if decide (value n = e) then Ok (Some (prev, current))
      else match next n with
           | None => Ok None
           | Some _ => find_loop fuel h current (next n) e
           end
  end.

(** [list::remove]. *)
Definition remove (h : heap) (L : lst) (e : E) : res (heap * lst * bool) :=
  match head L with
  | None => Ok (h, L, false)
  | Some _ =>
      found ← find_loop (enough h) h None (head L) e;
      match found with
      | None => Ok (h, L, false)
      | Some (prev, current) =>
          n ← load h current;
          if decide (current = head L) then
            h ← free_node h current;
            Ok (h, mkList (next n) (s L - 1), true)
          else if decide (next n = None) then
            h ← set_next h prev None;
            h ← free_node h current;
            Ok (h, mkList (head L) (s L - 1), true)
          else
            h ← set_next h prev (next n);
            h ← free_node h current;
            Ok (h, mkList (head L) (s L - 1), true)
      end
  end.

(** [list::removeFirst]. *)
Definition removeFirst (h : heap) (L : lst) : res (heap * lst * bool) :=
  match head L with
  | None => Ok (h, L, false)
  | Some _ =>
      n ← load h (head L);
      h ← free_node h (head L);
      Ok (h, mkList (next n) (s L - 1), true)
  end.

(** The [do prev = current; current = current->next; while (current->next)] loop of
    [removeLast]; it dereferences [current] after advancing it. *)
Fixpoint removeLast_loop (fuel : nat) (h : heap) (current : ptr) : res (ptr * ptr) :=
  match fuel with
  | O => NoFuel
  | S fuel =>
      n ← load h current;
      let prev := current in
      let current := next n in
      n' ← load h current;
      match next n' with
      | None => Ok (prev, current)
      | Some _ => removeLast_loop fuel h current
      end
  end.

(** [list::removeLast]. *)
Definition removeLast (h : heap) (L : lst) : res (heap * lst * bool) :=
  match head L with
  | None => Ok (h, L, false)
  | Some _ =>
      '(prev, current) ← removeLast_loop (enough h) h (head L);
      h ← set_next h prev None;
      h ← free_node h current;
      Ok (h, mkList (head L) (s L - 1), true)
  end.

(** The in-place reversal loop. *)
Fixpoint reverse_loop (fuel : nat) (h : heap) (current newNext : ptr) : res (heap * ptr) :=
  match fuel with
  | O => NoFuel
  | S fuel =>
      n ← load h current;
      let tmp := next n in
      h ← set_next h current newNext;
      match tmp with
      | None => Ok (h, current)
      | Some _ => reverse_loop fuel h tmp current
      end
  end.

(** [list::reverse]. *)
Definition reverse (h : heap) (L : lst) : res (heap * lst) :=
  match head L with
  | None => Ok (h, L)
  | Some _ =>
      '(h, newHead) ← reverse_loop (enough h) h (head L) None;
      Ok (h, mkList newHead (s L))
  end.

(** The deallocation loop of [clear]. *)
Fixpoint clear_loop (fuel : nat) (h : heap) (current : ptr) : res heap :=
  match current with
  | None => Ok h
  | Some _ =>
      match fuel with
      | O => NoFuel
      | S fuel =>
          n ← load h current;
          h ← free_node h current;
          clear_loop fuel h (next n)
      end
  end.

(** [list::clear]. *)
Definition clear (h : heap) (L : lst) : res (heap * lst) :=
  h ← clear_loop (enough h) h (head L);
  Ok (h, mkList None 0).

(** [while (index--) current = current->next;]. *)
Fixpoint advance (n : nat) (h : heap) (current : ptr) : res ptr :=
  match n with
  | O => Ok current
  | S n => c ← load h current; advance n h (next c)
  end.

(** [list::get]; [None] is the returned [nullptr]. *)
Definition get (h : heap) (L : lst) (index : Z) : res (option E) :=
  if (index <? 0) || (s L <=? index) then Ok None
  else
    current ← advance (Z.to_nat index) h (head L);
    n ← load h current;
    Ok (Some (value n)).

(** [list::size]. *)
Definition size_ (L : lst) : Z := s L.

(** [list::addLast]. *)
Definition addLast (h : heap) (L : lst) (e : E) : res (heap * lst) := add h L e.

(** The search loop of [add(int, E)]: [do if (i++ == index) break;
    current = current->next; while (current)]. *)
Fixpoint nth_loop (fuel : nat) (h : heap) (current : ptr) (i index : Z) : res ptr :=
  match fuel with
  | O => NoFuel
  | S fuel =>
      if i =? index then Ok current
      else
        n ← load h current;
        match next n with
        | None => Ok None
        | Some _ => nth_loop fuel h (next n) (i + 1) index
        end
  end.

(** [list::add(int, E)]. *)
Definition add_at (h : heap) (L : lst) (index : Z) (e : E) : res (heap * lst * bool) :=
  if (index <? 0) || (s L <? index) then Ok (h, L, false)
  else if index =? 0 then
    '(h, L) ← addFirst h L e; Ok (h, L, true)
  else if index =? s L then
    '(h, L) ← addLast h L e; Ok (h, L, true)
  else
    let '(h, newNode) := new_node h e in
    current ← nth_loop (enough h) h (head L) 0 index;
    c ← load h current;
    h ← set_next h newNode (next c);
    h ← set_next h current newNode;
    Ok (h, mkList (head L) (s L + 1), true).

(** The loop of [contains]. *)
Fixpoint contains_loop (fuel : nat) (h : heap) (current : ptr) (e : E) : res bool :=
  match current with
  | None => Ok false
  | Some _ =>
      match fuel with
      | O => NoFuel
      | S fuel =>
          n ← load h current;
          if decide (value n = e) then Ok true
          else contains_loop fuel h (next n) e
      end
  end.

(** [list::contains]. *)
Definition contains (h : heap) (L : lst) (e : E) : res bool :=
  contains_loop (enough h) h (head L) e.

(** Range-for over [begin()..end()]: [Iterator::operator*], [++] and [!=]. *)
Fixpoint iterate (fuel : nat) (h : heap) (n : ptr) : res (list E) :=
  match n with
  | None => Ok []
  | Some _ =>
      match fuel with
      | O => NoFuel
      | S fuel =>
          c ← load h n;
          rest ← iterate fuel h (next c);
          Ok (value c :: rest)
      end
  end.

Definition to_list (h : heap) (L : lst) : res (list E) := iterate (enough h) h (head L).

(** ** Representation: a segment of nodes, with the locations they occupy *)

Abbreviation nodes := (list (loc * E)).

Fixpoint lseg (h : heap) (p : ptr) (ns : nodes) (q : ptr) : Prop :=
  match ns with
  | [] => p = q
  | (l, x) :: ns' => p = Some l /\ exists n, h !! l = Some (mkNode x n) /\ lseg h n ns' q
  end.

(** The list object [L] owns exactly the nodes [ns] of [h]. *)
Definition rep (h : heap) (L : lst) (ns : nodes) : Prop :=
  lseg h (head L) ns None /\ NoDup ns.*1 /\ s L = Z.of_nat (length ns).

(** From [h] with nodes [ns] to [h'] with nodes [ns']: cells that are not the list's
    are neither changed nor captured, and every cell left is accounted for. *)
Definition frame (h : heap) (ns : nodes) (h' : heap) (ns' : nodes) : Prop :=
  (forall l, l ∉ ns.*1 -> is_Some (h !! l) -> h' !! l = h !! l /\ l ∉ ns'.*1) /\
  (forall l, is_Some (h' !! l) -> l ∈ ns'.*1 \/ (l ∉ ns.*1 /\ h' !! l = h !! l)).

Lemma lseg_app h p ns1 ns2 q :
  lseg h p (ns1 ++ ns2) q <-> exists r, lseg h p ns1 r /\ lseg h r ns2 q.
Proof.
  revert p. induction ns1 as [|[l x] ns1 IH]; intros p; simpl; [naive_solver|].
  setoid_rewrite IH. naive_solver.
Qed.

Lemma lseg_agree h h' p ns q :
  (forall l, l ∈ ns.*1 -> h' !! l = h !! l) -> lseg h p ns q -> lseg h' p ns q.
Proof.
  revert p. induction ns as [|[l x] ns IH]; intros p Ha; simpl; [done|].
  intros [-> (n & Hl & Hr)]. split; [done|]. exists n. split.
  - rewrite Ha; [done|]. simpl. set_solver.
  - apply IH; [|done]. intros l' Hl'. apply Ha. simpl. set_solver.
Qed.

Lemma lseg_insert h p ns q l n : l ∉ ns.*1 -> lseg h p ns q -> lseg (<[l:=n]> h) p ns q.
Proof.
  intros Hl. apply lseg_agree. intros l' Hl'. apply lookup_insert_ne. set_solver.
Qed.

Lemma lseg_delete h p ns q l : l ∉ ns.*1 -> lseg h p ns q -> lseg (delete l h) p ns q.
Proof.
  intros Hl. apply lseg_agree. intros l' Hl'. apply lookup_delete_ne. set_solver.
Qed.

Lemma lseg_dom h p ns q l : lseg h p ns q -> l ∈ ns.*1 -> is_Some (h !! l).
Proof.
  revert p. induction ns as [|[l' x] ns IH]; intros p; simpl; [set_solver|].
  intros [_ (n & Hl & Hr)] [->|Hin]%elem_of_cons; [by eexists|]. by eapply IH.
Qed.

Lemma lseg_fuel h p ns q : lseg h p ns q -> NoDup ns.*1 -> (length ns <= size h)%nat.
Proof.
  intros Hs Hnd. rewrite <- size_dom.
  transitivity (size (list_to_set ns.*1 : gset loc)).
  - rewrite size_list_to_set by done. by rewrite length_fmap.
  - apply subseteq_size. intros l Hl%elem_of_list_to_set.
    apply elem_of_dom. by eapply lseg_dom.
Qed.

Lemma lseg_head h p ns : lseg h p ns None -> p = fst <$> list.head ns.
Proof. destruct ns as [|[l x] ns]; simpl; naive_solver. Qed.

Lemma lseg_fresh h p ns q : lseg h p ns q -> fresh (dom h : gset loc) ∉ ns.*1.
Proof.
  intros Hs Hin. pose proof (lseg_dom _ _ _ _ _ Hs Hin) as Hd%elem_of_dom.
  by apply (is_fresh (dom h : gset loc)) in Hd.
Qed.

Lemma fresh_lookup (h : heap) : h !! fresh (dom h : gset loc) = None.
Proof. apply not_elem_of_dom, is_fresh. Qed.

(** ** The loops on a segment *)

Lemma last_node_spec h p ns l x fuel :
  lseg h p (ns ++ [(l, x)]) None -> (length ns < fuel)%nat ->
  last_node fuel h p = Ok (Some l).
Proof.
  revert p fuel. induction ns as [|[l' x'] ns IH]; intros p [|fuel]; simpl; try lia.
  - intros [-> (n & Hl & ->)] _. unfold load. by rewrite Hl.
  - intros [-> (n & Hl & Hr)] Hf. unfold load. rewrite Hl. run. simpl.
    assert (exists r, n = Some r) as [r ->].
    { apply lseg_head in Hr. destruct ns as [|[]]; simpl in Hr; eauto. }
    apply IH; [done|lia].
Qed.

(** The predecessor that the search loops have seen after walking over [ns]. *)
Definition last_loc (prev : ptr) (ns : nodes) : ptr :=
  match last ns with Some (l, _) => Some l | None => prev end.

Lemma last_loc_cons prev l x ns : last_loc prev ((l, x) :: ns) = last_loc (Some l) ns.
Proof. unfold last_loc. rewrite last_cons. by destruct (last ns) as [[]|]. Qed.

Lemma last_loc_snoc prev ns l x : last_loc prev (ns ++ [(l, x)]) = Some l.
Proof. unfold last_loc. by rewrite last_snoc. Qed.

Lemma find_loop_found h prev p ns1 l e ns2 fuel :
  lseg h p (ns1 ++ (l, e) :: ns2) None -> e ∉ ns1.*2 -> (length ns1 < fuel)%nat ->
  find_loop fuel h prev p e = Ok (Some (last_loc prev ns1, Some l)).
Proof.
  revert prev p fuel. induction ns1 as [|[l' x'] ns1 IH]; intros prev p [|fuel]; simpl; try lia.
  - intros [-> (n & Hl & Hr)] _ _. unfold load. rewrite Hl. run. by rewrite decide_True.
  - intros [-> (n & Hl & Hr)] Hne Hf. unfold load. rewrite Hl. run. simpl.
    rewrite decide_False by set_solver.
    assert (exists r, n = Some r) as [r ->].
    { apply lseg_head in Hr. destruct ns1 as [|[]]; simpl in Hr; eauto. }
    rewrite last_loc_cons. apply IH; [done|set_solver|lia].
Qed.

Lemma find_loop_missing h prev p ns e fuel :
  lseg h p ns None -> e ∉ ns.*2 -> ns <> [] -> (length ns <= fuel)%nat ->
  find_loop fuel h prev p e = Ok None.
Proof.
  revert prev p fuel. induction ns as [|[l x] ns IH]; intros prev p [|fuel]; simpl; try lia; [done..|].
  intros [-> (n & Hl & Hr)] Hne _ Hf. unfold load. rewrite Hl. run. simpl.
  rewrite decide_False by set_solver.
  pose proof (lseg_head _ _ _ Hr) as Hh.
  destruct n as [r|]; [|done].
  apply IH; [done|set_solver| |lia]. by destruct ns.
Qed.

Lemma removeLast_loop_spec h p ns l1 x1 l2 x2 fuel :
  lseg h p (ns ++ [(l1, x1); (l2, x2)]) None -> (length ns < fuel)%nat ->
  removeLast_loop fuel h p = Ok (Some l1, Some l2).
Proof.
  revert p fuel. induction ns as [|[l' x'] ns IH]; intros p [|fuel]; simpl; try lia.
  - intros [-> (n & Hl & -> & n' & Hl' & ->)] _. unfold load. rewrite Hl. run. simpl.
    rewrite Hl'. by run.
  - intros [-> (n & Hl & Hr)] Hf. unfold load. rewrite Hl. run. simpl.
    assert (exists l'' x'' r, n = Some l'' /\ h !! l'' = Some (mkNode x'' (Some r))) as (l'' & x'' & r & -> & Hl'').
    { destruct ns as [|[l'' x''] ns]; simpl in Hr.
      - destruct Hr as [-> (n' & Hl' & -> & _)]. eauto.
      - destruct Hr as [-> (n' & Hl' & Hr)]. pose proof (lseg_head _ _ _ Hr) as ->.
        destruct ns as [|[]]; simpl in *; eauto. }
    rewrite Hl''. run. simpl. apply IH; [done|lia].
Qed.

Lemma removeLast_loop_single h l x fuel :
  lseg h (Some l) [(l, x)] None -> (0 < fuel)%nat -> removeLast_loop fuel h (Some l) = Fault.
Proof.
  destruct fuel; [lia|]. simpl. intros [_ (n & Hl & ->)] _. unfold load. rewrite Hl. by run.
Qed.

Lemma reverse_loop_spec h p q ns rs fuel :
  lseg h p ns None -> lseg h q rs None -> NoDup (ns ++ rs).*1 -> ns <> [] ->
  (length ns <= fuel)%nat ->
  exists h' p', reverse_loop fuel h p q = Ok (h', p') /\
    lseg h' p' (rev ns ++ rs) None /\
    (forall l, l ∉ ns.*1 -> h' !! l = h !! l) /\ (forall l, l ∈ ns.*1 -> is_Some (h' !! l)).
Proof.
  revert h p q rs fuel.
  induction ns as [|[l x] ns IH]; intros h p q rs [|fuel]; simpl; try lia; [done..|].
  intros [-> (n & Hl & Hr)] Hq Hnd _ Hf. apply NoDup_cons in Hnd as [Hl1 Hnd].
  rewrite fmap_app in Hl1. unfold load. rewrite Hl. run. simpl. rewrite Hl. run.
  pose proof (lseg_head _ _ _ Hr) as Hh.
  assert (lseg (<[l:=mkNode x q]> h) (Some l) ((l, x) :: rs) None) as Hq'.
  { simpl. split; [done|]. exists q. rewrite lookup_insert_eq. split; [done|].
    apply lseg_insert; [set_solver|done]. }
  destruct n as [r|].
  - destruct (IH (<[l:=mkNode x q]> h) (Some r) (Some l) ((l, x) :: rs) fuel)
      as (h' & p' & Hrun & Hseg & Hout & Hin); [|done|..|lia|].
    + apply lseg_insert; [set_solver|done].
    + rewrite fmap_app. simpl. rewrite fmap_app in Hnd.
      apply NoDup_app in Hnd as (? & ? & ?). apply NoDup_app. split_and!; [done|set_solver|].
      constructor; set_solver.
    + by destruct ns.
    + exists h', p'. rewrite <- app_assoc. split_and!; [done|done| |].
      * intros l' Hl'. rewrite Hout by set_solver. apply lookup_insert_ne. set_solver.
      * intros l' [->|Hl']%elem_of_cons; [|by apply Hin].
        rewrite Hout by set_solver. rewrite lookup_insert_eq. eauto.
  - destruct ns as [|[]]; [|done].
    exists (<[l:=mkNode x q]> h), (Some l). split_and!; [done|done| |].
    + intros l' Hl'. apply lookup_insert_ne. set_solver.
    + intros l' Hl'. assert (l' = l) as -> by set_solver. rewrite lookup_insert_eq. eauto.
Qed.

Lemma clear_loop_spec h p ns fuel :
  lseg h p ns None -> NoDup ns.*1 -> (length ns <= fuel)%nat ->
  exists h', clear_loop fuel h p = Ok h' /\
    (forall l, l ∈ ns.*1 -> h' !! l = None) /\ (forall l, l ∉ ns.*1 -> h' !! l = h !! l).
Proof.
  revert h p fuel. induction ns as [|[l x] ns IH]; intros h p fuel; simpl.
  - intros -> _ _. exists h. split_and!; [by destruct fuel|set_solver|done].
  - intros [-> (n & Hl & Hr)] [Hl1 Hnd]%NoDup_cons Hf. destruct fuel as [|fuel]; [lia|]. simpl.
    unfold load. rewrite Hl. run. simpl. rewrite ?Hl. run.
    destruct (IH (delete l h) n fuel) as (h' & -> & Hin & Hout); [by apply lseg_delete|done|lia|].
    exists h'. split_and!; [done| |].
    + intros l' [->|Hl']%elem_of_cons; [|by apply Hin]. rewrite Hout by done. apply lookup_delete_eq.
    + intros l' Hl'. rewrite Hout by set_solver. apply lookup_delete_ne. set_solver.
Qed.

Lemma advance_spec h p ns1 l x ns2 :
  lseg h p (ns1 ++ (l, x) :: ns2) None -> advance (length ns1) h p = Ok (Some l).
Proof.
  revert p. induction ns1 as [|[l' x'] ns1 IH]; intros p; simpl.
  - by intros [-> _].
  - intros [-> (n & Hl & Hr)]. unfold load. rewrite Hl. run. by apply IH.
Qed.

Lemma nth_loop_spec h p ns1 l x ns2 i index fuel :
  lseg h p (ns1 ++ (l, x) :: ns2) None -> index = i + Z.of_nat (length ns1) ->
  (length ns1 < fuel)%nat ->
  nth_loop fuel h p i index = Ok (Some l).
Proof.
  revert p i fuel. induction ns1 as [|[l' x'] ns1 IH]; intros p i [|fuel]; simpl; try lia.
  - intros [-> _] -> _. by rewrite Z.add_0_r, Z.eqb_refl.
  - intros [-> (n & Hl & Hr)] Hi Hf.
    destruct (Z.eqb_spec i index) as [->|_]; [lia|].
    unfold load. rewrite Hl. run. simpl.
    pose proof (lseg_head _ _ _ Hr) as Hh.
    destruct n as [r|]; [|by destruct ns1 as [|[]]].
    apply IH; [done|lia|lia].
Qed.

Lemma contains_loop_spec h p ns e fuel :
  lseg h p ns None -> (length ns <= fuel)%nat ->
  contains_loop fuel h p e = Ok (bool_decide (e ∈ ns.*2)).
Proof.
  revert p fuel. induction ns as [|[l x] ns IH]; intros p fuel; simpl.
  - intros -> _. by destruct fuel.
  - intros [-> (n & Hl & Hr)] Hf. destruct fuel as [|fuel]; [lia|]. simpl. unfold load. rewrite Hl. run.
    simpl. destruct (decide (x = e)) as [He|He].
    + f_equal. symmetry. apply bool_decide_eq_true. set_solver.
    + simpl in *. rewrite (IH n fuel) by (done || lia). f_equal. apply bool_decide_ext. set_solver.
Qed.

Lemma iterate_spec h p ns fuel :
  lseg h p ns None -> (length ns <= fuel)%nat -> iterate fuel h p = Ok ns.*2.
Proof.
  revert p fuel. induction ns as [|[l x] ns IH]; intros p fuel; simpl.
  - intros -> _. by destruct fuel.
  - intros [-> (n & Hl & Hr)] Hf. destruct fuel as [|fuel]; [lia|]. simpl. unfold load. rewrite Hl. run.
    simpl. rewrite (IH n fuel) by (done || lia). by run.
Qed.

(** ** Each operation on a represented list *)

(** The outcome [r] is a list that represents [xs'], reached within the frame. *)
Definition yields (h : heap) (ns : nodes) (r : res (heap * lst)) (xs' : list E) : Prop :=
  exists h' L' ns', r = Ok (h', L') /\ rep h' L' ns' /\ ns'.*2 = xs' /\ frame h ns h' ns'.

Lemma frame_refl h ns : (forall l, l ∈ ns.*1 -> is_Some (h !! l)) -> frame h ns h ns.
Proof. intros Hd. split; [done|]. intros l _. destruct (decide (l ∈ ns.*1)); auto. Qed.

Lemma yields_same h L ns : rep h L ns -> yields h ns (Ok (h, L)) ns.*2.
Proof.
  intros Hrep. exists h, L, ns. split_and!; [done..|]. apply frame_refl.
  intros l. by eapply lseg_dom, Hrep.
Qed.

Lemma new_node_eq h e : new_node h e =
  (<[fresh (dom h : gset loc) := mkNode e None]> h, Some (fresh (dom h : gset loc))).
Proof. done. Qed.

(** The heap of a list extended by a fresh node [l] that some node of [ns1], or the
    head, now points to. *)
Lemma frame_new h ns h' ns' l :
  h !! l = None -> l ∉ ns.*1 -> (forall l', l' ∈ ns'.*1 <-> l' = l \/ l' ∈ ns.*1) ->
  (forall l', l' <> l -> l' ∉ ns.*1 -> h' !! l' = h !! l') ->
  frame h ns h' ns'.
Proof.
  intros Hl Hl' Heq Hout. split.
  - intros l' Hn [c Hc]. assert (l' <> l) by congruence. rewrite Hout by done. split; [done|].
    rewrite Heq. naive_solver.
  - intros l' [c Hc]. rewrite Heq. destruct (decide (l' = l)); [auto|].
    destruct (decide (l' ∈ ns.*1)); [auto|]. right. auto.
Qed.

(** The heap of a list from which the node [l] has been unlinked and freed. *)
Lemma frame_drop h ns h' ns' l :
  l ∈ ns.*1 -> (forall l', l' ∈ ns.*1 <-> l' = l \/ l' ∈ ns'.*1) -> h' !! l = None ->
  (forall l', l' ∉ ns.*1 -> h' !! l' = h !! l') ->
  frame h ns h' ns'.
Proof.
  intros Hl Heq Hn Hout. split.
  - intros l' Hn' [c Hc]. rewrite Hout by done. split; [done|]. rewrite Heq in Hn'. naive_solver.
  - intros l' [c Hc]. destruct (decide (l' ∈ ns.*1)) as [Hin|]; [|right; by rewrite Hout].
    left. rewrite Heq in Hin. destruct Hin as [->|]; [congruence|done].
Qed.

Lemma addFirst_spec h L ns e :
  rep h L ns -> yields h ns (addFirst h L e) (e :: ns.*2).
Proof.
  intros (Hs & Hnd & Hsz). unfold addFirst. rewrite new_node_eq.
  set (l := fresh (dom h : gset loc)).
  pose proof (lseg_fresh _ _ _ _ Hs) as Hfr. fold l in Hfr.
  exists (<[l := mkNode e (head L)]> h), (mkList (Some l) (s L + 1)), ((l, e) :: ns).
  split_and!.
  - destruct (head L); simpl; [|done]. rewrite lookup_insert_eq. run. by rewrite insert_insert_eq.
  - split_and!; simpl; [split; [done|]| |lia].
    + eexists. rewrite lookup_insert_eq. split; [done|]. by apply lseg_insert.
    + by constructor.
  - done.
  - apply (frame_new _ _ _ _ l); [apply fresh_lookup|done|set_solver|].
    intros l' Hne _. by apply lookup_insert_ne.
Qed.

(** Redirecting the [next] of the node before [ns2] to [q] replaces [ns2]. *)
Lemma lseg_relink h p ns1 l x ns2 q ns3 :
  lseg h p (ns1 ++ (l, x) :: ns2) None -> NoDup (ns1 ++ (l, x) :: ns2).*1 ->
  lseg h q ns3 None -> l ∉ ns3.*1 ->
  lseg (<[l := mkNode x q]> h) p (ns1 ++ (l, x) :: ns3) None.
Proof.
  intros (r & Hs1 & Hs2)%lseg_app Hnd Hs3 Hl3. rewrite fmap_app in Hnd. simpl in Hnd.
  apply NoDup_app in Hnd as (_ & Hd & _).
  apply lseg_app. exists r. split.
  - apply lseg_insert; [|done]. set_solver.
  - simpl in *. destruct Hs2 as [-> _]. split; [done|]. exists q. rewrite lookup_insert_eq.
    split; [done|]. by apply lseg_insert.
Qed.

Lemma lseg_mid h p ns1 l x ns2 :
  lseg h p (ns1 ++ (l, x) :: ns2) None ->
  exists q, h !! l = Some (mkNode x q) /\ lseg h q ns2 None.
Proof. intros (r & _ & _ & q & Hl & Hr)%lseg_app. by exists q. Qed.

Lemma add_spec h L ns e :
  rep h L ns -> yields h ns (add h L e) (ns.*2 ++ [e]).
Proof.
  intros (Hs & Hnd & Hsz). unfold add. rewrite new_node_eq.
  set (l := fresh (dom h : gset loc)).
  pose proof (lseg_fresh _ _ _ _ Hs) as Hfr. fold l in Hfr.
  pose proof (fresh_lookup h : h !! l = None) as Hl.
  set (h1 := <[l := mkNode e None]> h).
  assert (lseg h1 (head L) ns None) as Hs1 by by apply lseg_insert.
  assert (lseg h1 (Some l) [(l, e)] None) as Hse.
  { simpl. split; [done|]. exists None. unfold h1. by rewrite lookup_insert_eq. }
  unfold add_node. destruct ns as [|[l1 x1] ns1 _] using rev_ind.
  - simpl in Hs. rewrite Hs. exists h1, (mkList (Some l) (s L + 1)), [(l, e)].
    split_and!; [done| |done|].
    + split_and!; simpl in *; [done|apply NoDup_singleton|lia].
    + apply (frame_new _ _ _ _ l); [done|set_solver|set_solver|].
      intros l' Hne _. by apply lookup_insert_ne.
  - pose proof (lseg_head _ _ _ Hs) as Hh.
    destruct (head L) as [hd|] eqn:HL; [|by destruct ns1 as [|[]]].
    assert (length ns1 < enough h1)%nat as Hfuel.
    { pose proof (lseg_fuel _ _ _ _ Hs1 Hnd) as Hf. rewrite length_app in Hf. simpl in Hf. unfold enough. lia. }
    rewrite (last_node_spec _ _ _ _ _ _ Hs1 Hfuel). run. simpl.
    destruct (lseg_mid _ _ _ _ _ _ Hs1) as (q & Hq & _). rewrite Hq. run. simpl.
    eexists _, _, (ns1 ++ [(l1, x1); (l, e)]). split_and!; [done| | |].
    + split_and!; simpl.
      * eapply lseg_relink; [done|done|done|]. rewrite fmap_app in Hfr. set_solver.
      * rewrite fmap_app in *. simpl in *. apply NoDup_app in Hnd as (? & ? & ?).
        apply NoDup_app. split_and!; [done|set_solver|]. repeat constructor; set_solver.
      * rewrite Hsz, !length_app. simpl. lia.
    + rewrite !fmap_app. simpl. by rewrite <- app_assoc.
    + apply (frame_new _ _ _ _ l); [done|done| |].
      * intros l'. rewrite !fmap_app. simpl. set_solver.
      * intros l' Hne Hl'. rewrite fmap_app in Hl'. unfold h1. rewrite !lookup_insert_ne by set_solver. done.
Qed.

(** Unlinking and freeing a node that has a predecessor. *)
Lemma unlink_spec h L ns1 l0 x0 l x ns2 q :
  rep h L (ns1 ++ (l0, x0) :: (l, x) :: ns2) -> h !! l = Some (mkNode x q) ->
  let ns := ns1 ++ (l0, x0) :: (l, x) :: ns2 in
  let ns' := ns1 ++ (l0, x0) :: ns2 in
  let h' := delete l (<[l0 := mkNode x0 q]> h) in
  rep h' (mkList (head L) (s L - 1)) ns' /\ frame h ns h' ns'.
Proof.
  intros (Hs & Hnd & Hsz) Hl. simpl.
  pose proof Hnd as Hnd'. rewrite fmap_app in Hnd'. simpl in Hnd'.
  apply NoDup_app in Hnd' as (Hn1 & Hd & Hn2).
  apply NoDup_cons in Hn2 as [Hl0 Hn2]. apply NoDup_cons in Hn2 as [Hl1 Hn2].
  assert (lseg h q ns2 None) as Hq.
  { rewrite cons_middle, app_assoc in Hs.
    destruct (lseg_mid h _ _ _ _ _ Hs) as (q' & Hl' & Hq). congruence. }
  assert (l ∉ (ns1 ++ (l0, x0) :: ns2).*1) as Hlo by (rewrite fmap_app; simpl; set_solver).
  split_and!; [split_and!; simpl|].
  - apply lseg_delete; [done|]. eapply lseg_relink; [done|done|done|]. set_solver.
  - rewrite fmap_app. simpl. apply NoDup_app. split_and!; [done|set_solver|]. constructor; set_solver.
  - rewrite Hsz, !length_app. simpl. lia.
  - apply (frame_drop _ _ _ _ l).
    + rewrite fmap_app. simpl. set_solver.
    + intros l'. rewrite !fmap_app. simpl. set_solver.
    + apply lookup_delete_eq.
    + intros l'. rewrite fmap_app. simpl. intros Hl'.
      rewrite lookup_delete_ne, lookup_insert_ne by set_solver. done.
Qed.

(** Unlinking and freeing the first node. *)
Lemma unlink_head h L l x ns q :
  rep h L ((l, x) :: ns) -> h !! l = Some (mkNode x q) ->
  rep (delete l h) (mkList q (s L - 1)) ns /\ frame h ((l, x) :: ns) (delete l h) ns.
Proof.
  intros ((_ & q' & Hl' & Hr) & [Hn Hnd]%NoDup_cons & Hsz) Hl. simpl in *.
  assert (q' = q) as -> by congruence. split; [split_and!; simpl|].
  - by apply lseg_delete.
  - done.
  - lia.
  - apply (frame_drop _ _ _ _ l); [set_solver|set_solver|apply lookup_delete_eq|].
    intros l' Hl0. apply lookup_delete_ne. set_solver.
Qed.

Lemma split_first (ns : nodes) e :
  e ∈ ns.*2 -> exists ns1 l ns2, ns = ns1 ++ (l, e) :: ns2 /\ e ∉ ns1.*2.
Proof.
  induction ns as [|[l x] ns IH]; simpl; [set_solver|].
  destruct (decide (x = e)) as [->|Hx].
  - intros _. exists [], l, ns. split; [done|set_solver].
  - intros [->|Hin]%elem_of_cons; [done|].
    destruct (IH Hin) as (ns1 & l' & ns2 & -> & Hn). exists ((l, x) :: ns1), l', ns2.
    split; [done|]. simpl. set_solver.
Qed.

(** The specification of [remove]: drop the first occurrence. *)
Fixpoint remove_first (e : E) (xs : list E) : list E :=
  match xs with
  | [] => []
  | x :: xs => if decide (x = e) then xs else x :: remove_first e xs
  end.

Lemma remove_first_app e xs ys :
  e ∉ xs -> remove_first e (xs ++ e :: ys) = xs ++ ys.
Proof.
  induction xs as [|x xs IH]; simpl; intros Hn; [by rewrite decide_True|].
  rewrite decide_False by set_solver. f_equal. apply IH. set_solver.
Qed.

(** As [yields], for the operations that also return a boolean. *)
Definition yields_b (h : heap) (ns : nodes) (r : res (heap * lst * bool)) (xs' : list E) (b : bool) : Prop :=
  exists h' L' ns', r = Ok (h', L', b) /\ rep h' L' ns' /\ ns'.*2 = xs' /\ frame h ns h' ns'.

Lemma yields_b_same h L ns b : rep h L ns -> yields_b h ns (Ok (h, L, b)) ns.*2 b.
Proof.
  intros Hrep. destruct (yields_same h L ns Hrep) as (h' & L' & ns' & Heq & H).
  injection Heq as <- <-. by exists h, L, ns'.
Qed.

Lemma rep_fuel h L ns : rep h L ns -> (length ns < enough h)%nat.
Proof. intros (Hs & Hnd & _). pose proof (lseg_fuel _ _ _ _ Hs Hnd). unfold enough. lia. Qed.

Lemma remove_spec h L ns e :
  rep h L ns ->
  yields_b h ns (remove h L e)
    (if decide (e ∈ ns.*2) then remove_first e ns.*2 else ns.*2) (bool_decide (e ∈ ns.*2)).
Proof.
  intros Hrep. pose proof (rep_fuel _ _ _ Hrep) as Hfuel.
  pose proof Hrep as (Hs & Hnd & Hsz). unfold remove.
  pose proof (lseg_head _ _ _ Hs) as Hh.
  destruct (decide (e ∈ ns.*2)) as [Hin|Hin].
  - rewrite bool_decide_true by done.
    destruct (split_first _ _ Hin) as (ns1 & l & ns2 & -> & Hne).
    rewrite length_app in Hfuel. simpl in Hfuel.
    destruct (head L) as [hd|] eqn:HL; [|by destruct ns1 as [|[]]]. rewrite <- HL in *.
    rewrite (find_loop_found _ _ _ _ _ _ _ _ Hs Hne) by lia. run.
    destruct (lseg_mid _ _ _ _ _ _ Hs) as (q & Hl & Hq).
    unfold load. rewrite Hl. run. rewrite fmap_app. simpl. rewrite remove_first_app by done.
    destruct ns1 as [|[l0 x0] ns1 _] using rev_ind.
    + rewrite decide_True by (by rewrite HL in *; simpl in *; congruence).
      simpl. rewrite Hl. run. eexists _, _, ns2. split; [done|].
      destruct (unlink_head _ _ _ _ _ _ Hrep Hl). done.
    + rewrite <- app_assoc in *. simpl in *.
      rewrite decide_False; [|].
      2:{ rewrite HL. intros [= <-]. rewrite fmap_app in Hnd. simpl in *.
          destruct ns1 as [|[]]; simpl in *; simplify_eq.
          - apply NoDup_cons in Hnd as [? _]. set_solver.
          - apply NoDup_cons in Hnd as [? _]. set_solver. }
      destruct (lseg_mid _ _ _ _ _ _ Hs) as (q0 & Hl0 & _).
      assert (l <> l0) as Hll.
      { rewrite fmap_app in Hnd. simpl in *. apply NoDup_app in Hnd as (_ & _ & [? _]%NoDup_cons). set_solver. }
      rewrite last_loc_snoc. simpl. rewrite Hl0. run. rewrite lookup_insert_ne, Hl by done. run.
      destruct (unlink_spec _ _ _ _ _ _ _ _ _ Hrep Hl) as [Hr Hf].
      eexists _, _, (ns1 ++ (l0, x0) :: ns2). split_and!; [|exact Hr| |exact Hf].
      * destruct q; simpl; rewrite ?lookup_insert_ne, ?Hl by done; done.
      * rewrite !fmap_app. simpl. by rewrite <- app_assoc.
  - rewrite bool_decide_false by done.
    destruct (head L) as [hd|] eqn:HL; [|by apply yields_b_same].
    rewrite (find_loop_missing h None (Some hd) ns e) by (done || lia || by destruct ns).
    run. by apply yields_b_same.
Qed.

Lemma removeFirst_spec h L ns :
  rep h L ns ->
  yields_b h ns (removeFirst h L) (tail ns.*2) (bool_decide (ns <> [])).
Proof.
  intros Hrep. pose proof Hrep as (Hs & _ & _). unfold removeFirst.
  destruct ns as [|[l x] ns]; simpl in Hs.
  - rewrite Hs. by apply (yields_b_same h L []).
  - destruct Hs as [-> (q & Hl & _)]. simpl. rewrite Hl. run.
    destruct (unlink_head _ _ _ _ _ _ Hrep Hl). by eexists _, _, ns.
Qed.

Lemma removeLast_spec h L ns :
  rep h L ns ->
  match ns with
  | [] => removeLast h L = Ok (h, L, false)
  | [_] => removeLast h L = Fault
  | _ => yields_b h ns (removeLast h L) (removelast ns.*2) true
  end.
Proof.
  intros Hrep. pose proof (rep_fuel _ _ _ Hrep) as Hfuel.
  pose proof Hrep as (Hs & Hnd & _). unfold removeLast.
  destruct ns as [|[l1 x1] ns]; [simpl in Hs; by rewrite Hs|].
  destruct ns as [|[l2 x2] ns _] using rev_ind.
  { assert (head L = Some l1) as Hh by apply Hs. rewrite Hh in Hs |- *.
    rewrite (removeLast_loop_single h l1 x1); [done|done|unfold enough; lia]. }
  assert (exists ns' l0 x0, (l1, x1) :: ns = ns' ++ [(l0, x0)]) as (ns' & l0 & x0 & Heq).
  { destruct (exists_last (l := (l1, x1) :: ns) ltac:(done)) as (ns' & [l0 x0] & ->). eauto. }
  rewrite app_comm_cons, Heq, <- app_assoc in Hs, Hnd, Hrep, Hfuel. simpl in *.
  assert (yields_b h (ns' ++ (l0, x0) :: [(l2, x2)]) (removeLast h L) (removelast (ns' ++ (l0, x0) :: [(l2, x2)]).*2) true) as Hy.
  { unfold removeLast. pose proof (lseg_head _ _ _ Hs) as Hh.
    destruct (head L) as [hd|] eqn:HL; [|by destruct ns' as [|[]]].
    rewrite length_app in Hfuel. simpl in Hfuel.
    rewrite (removeLast_loop_spec _ _ _ _ _ _ _ _ Hs) by lia. run. simpl.
    destruct (lseg_mid _ _ _ _ _ _ Hs) as (q0 & Hl0 & _ & q & Hl & ->).
    assert (l2 <> l0).
    { rewrite fmap_app in Hnd. simpl in *. apply NoDup_app in Hnd as (_ & _ & [? _]%NoDup_cons). set_solver. }
    rewrite Hl0. run. simpl. rewrite lookup_insert_ne, Hl by done. run.
    rewrite <- HL in *. destruct (unlink_spec _ _ _ _ _ _ _ _ _ Hrep Hl) as [Hr Hf].
    eexists _, _, (ns' ++ [(l0, x0)]). split_and!; [done|exact Hr| |exact Hf].
    replace (ns' ++ (l0, x0) :: [(l2, x2)]) with ((ns' ++ [(l0, x0)]) ++ [(l2, x2)]) by by rewrite <- app_assoc.
    rewrite (fmap_app _ (ns' ++ _)). simpl. by rewrite removelast_last. }
  assert (ns' ++ (l0, x0) :: [(l2, x2)] = (l1, x1) :: ns ++ [(l2, x2)]) as Hl
    by by rewrite app_comm_cons, Heq, <- app_assoc.
  rewrite Hl in Hy. destruct ns as [|? ns]; exact Hy.
Qed.

Lemma fmap_rev {A B} (f : A -> B) (l : list A) : f <$> rev l = rev (f <$> l).
Proof. induction l as [|x l IH]; simpl; [done|]. by rewrite fmap_app, IH. Qed.

Lemma elem_of_rev {A} (x : A) (l : list A) : x ∈ rev l <-> x ∈ l.
Proof. by rewrite !list_elem_of_In, <- in_rev. Qed.

Lemma NoDup_rev' {A} (l : list A) : NoDup l -> NoDup (rev l).
Proof. rewrite !NoDup_ListNoDup. apply NoDup_rev. Qed.

Lemma reverse_spec h L ns :
  rep h L ns -> yields h ns (reverse h L) (rev ns.*2).
Proof.
  intros Hrep. pose proof (rep_fuel _ _ _ Hrep) as Hfuel.
  pose proof Hrep as (Hs & Hnd & Hsz). unfold reverse.
  pose proof (lseg_head _ _ _ Hs) as Hh.
  destruct (head L) as [hd|] eqn:HL.
  - destruct (reverse_loop_spec h (Some hd) None ns [] (enough h)) as (h' & p' & -> & Hseg & Hout & Hin);
      [done|done|by rewrite app_nil_r|by destruct ns|lia|].
    rewrite app_nil_r in Hseg. run.
    eexists _, _, (rev ns). split_and!; [done| | |].
    + split_and!; simpl; [done| |by rewrite length_rev].
      rewrite fmap_rev. by apply NoDup_rev'.
    + by rewrite fmap_rev.
    + split.
      * intros l Hl _. split; [by apply Hout|]. rewrite fmap_rev, elem_of_rev. done.
      * intros l _. rewrite fmap_rev, elem_of_rev.
        destruct (decide (l ∈ ns.*1)); [by left|]. right. split; [done|]. by apply Hout.
  - destruct ns as [|[]]; [|done]. by apply (yields_same h L []).
Qed.

Lemma clear_spec h L ns : rep h L ns -> yields h ns (clear h L) [].
Proof.
  intros Hrep. pose proof (rep_fuel _ _ _ Hrep) as Hfuel.
  destruct Hrep as (Hs & Hnd & Hsz). unfold clear.
  destruct (clear_loop_spec h (head L) ns (enough h)) as (h' & -> & Hin & Hout); [done|done|lia|].
  run. eexists _, _, []. split_and!; [done| |done|].
  - split_and!; [done|constructor|done].
  - split.
    + intros l Hl _. split; [by apply Hout|set_solver].
    + intros l [c Hc]. destruct (decide (l ∈ ns.*1)) as [Hl|]; [|right; auto].
      rewrite Hin in Hc by done. done.
Qed.

Lemma get_spec h L ns i :
  rep h L ns ->
  get h L i = Ok (if (i <? 0) then None else ns.*2 !! Z.to_nat i).
Proof.
  intros (Hs & Hnd & Hsz). unfold get. rewrite Hsz.
  destruct (Z.ltb_spec i 0); simpl; [done|].
  destruct (Z.leb_spec (Z.of_nat (length ns)) i) as [Hi|Hi].
  - rewrite lookup_ge_None_2; [done|]. rewrite length_fmap. lia.
  - destruct (lookup_lt_is_Some_2 ns (Z.to_nat i)) as [[l x] Hl]; [lia|].
    rewrite list_lookup_fmap, Hl. simpl.
    rewrite <- (take_drop_middle _ _ _ Hl) in Hs.
    pose proof (advance_spec _ _ _ _ _ _ Hs) as Ha. rewrite length_take_le in Ha by lia.
    rewrite Ha. run. destruct (lseg_mid _ _ _ _ _ _ Hs) as (q & Hq & _).
    unfold load. by rewrite Hq.
Qed.

(** What [add(int, E)] does between the first and the last position: it links the new
    node behind the one that holds position [index]. *)
Lemma add_at_mid_spec h L ns i e :
  rep h L ns -> 0 < i < Z.of_nat (length ns) ->
  yields_b h ns (add_at h L i e)
    (take (S (Z.to_nat i)) ns.*2 ++ e :: drop (S (Z.to_nat i)) ns.*2) true.
Proof.
  intros Hrep Hi. pose proof Hrep as (Hs & Hnd & Hsz). unfold add_at.
  destruct (Z.ltb_spec i 0), (Z.ltb_spec (s L) i), (Z.eqb_spec i 0), (Z.eqb_spec i (s L)); try lia.
  cbn [orb]. rewrite new_node_eq. set (l := fresh (dom h : gset loc)). set (h1 := <[l := mkNode e None]> h).
  pose proof (lseg_fresh _ _ _ _ Hs) as Hfr. fold l in Hfr.
  pose proof (fresh_lookup h : h !! l = None) as Hl.
  destruct (lookup_lt_is_Some_2 ns (Z.to_nat i)) as [[l0 x0] Hl0]; [lia|].
  assert (length (take (Z.to_nat i) ns) = Z.to_nat i) as Hlen by (rewrite length_take_le; lia).
  assert (ns = take (Z.to_nat i) ns ++ (l0, x0) :: drop (S (Z.to_nat i)) ns) as Hns
    by by rewrite take_drop_middle.
  set (ns1 := take (Z.to_nat i) ns) in *. set (ns2 := drop (S (Z.to_nat i)) ns) in *.
  assert (lseg h1 (head L) ns None) as Hs1 by by apply lseg_insert.
  assert (length ns < enough h1)%nat as Hfuel by (pose proof (lseg_fuel _ _ _ _ Hs1 Hnd); unfold enough; lia).
  rewrite Hns in Hs, Hs1, Hfr, Hnd. rewrite fmap_app in Hfr. simpl in Hfr.
  assert (l <> l0) as Hne by set_solver.
  rewrite (nth_loop_spec _ _ _ _ _ _ 0 i _ Hs1) by lia. run. simpl.
  destruct (lseg_mid _ _ _ _ _ _ Hs) as (q & Hq & Hq2).
  unfold h1. rewrite (lookup_insert_ne _ _ l0), Hq by done. run. simpl.
  rewrite lookup_insert_eq. run. simpl. rewrite insert_insert_eq.
  rewrite (lookup_insert_ne _ _ l0), Hq by done. run. simpl.
  pose proof Hnd as Hnd'. rewrite fmap_app in Hnd'. simpl in Hnd'. apply NoDup_app in Hnd' as (? & ? & [? ?]%NoDup_cons).
  eexists _, _, (ns1 ++ (l0, x0) :: (l, e) :: ns2). split_and!; [done| | |].
  - split_and!; simpl.
    + apply (lseg_relink _ _ _ _ _ ns2); [apply lseg_insert; [|done]|done| |set_solver].
      * rewrite fmap_app. simpl. set_solver.
      * simpl. split; [done|]. exists q. rewrite lookup_insert_eq. split; [done|].
        apply lseg_insert; [set_solver|done].
    + rewrite fmap_app. simpl. apply NoDup_app. split_and!; [done|set_solver|].
      repeat constructor; set_solver.
    + rewrite Hsz, Hns at 1. rewrite !length_app. simpl. lia.
  - replace (ns.*2) with ((ns1.*2 ++ [x0]) ++ ns2.*2) by (rewrite Hns, fmap_app, <- app_assoc; done).
    assert (length (ns1.*2 ++ [x0]) = S (Z.to_nat i)) as Hx by (rewrite length_app, length_fmap, Hlen; simpl; lia).
    rewrite take_app_length', drop_app_length' by done. by rewrite fmap_app, <- app_assoc.
  - rewrite Hns. apply (frame_new _ _ _ _ l); [done|rewrite fmap_app; simpl; set_solver| |].
    + intros l'. rewrite !fmap_app. simpl. set_solver.
    + intros l' Hn'. rewrite fmap_app. simpl. intros Hl'. rewrite !lookup_insert_ne by set_solver. done.
Qed.

(** ** Refinement: the pointer program against operations on sequences *)

Inductive op :=
| OpAdd (e : E) | OpAddFirst (e : E) | OpAddLast (e : E) | OpAddAt (i : Z) (e : E)
| OpRemove (e : E) | OpRemoveFirst | OpRemoveLast
| OpReverse | OpClear | OpGet (i : Z) | OpContains (e : E) | OpSize | OpIterate.

Inductive ret := RUnit | RBool (b : bool) | RElem (o : option E) | RInt (z : Z) | RSeq (xs : list E).

(** One call of a member function. *)
Definition exec_op (o : op) (h : heap) (L : lst) : res (heap * lst * ret) :=
  match o with
  | OpAdd e => '(h, L) ← add h L e; Ok (h, L, RUnit)
  | OpAddFirst e => '(h, L) ← addFirst h L e; Ok (h, L, RUnit)
  | OpAddLast e => '(h, L) ← addLast h L e; Ok (h, L, RUnit)
  | OpAddAt i e => '(h, L, b) ← add_at h L i e; Ok (h, L, RBool b)
  | OpRemove e => '(h, L, b) ← remove h L e; Ok (h, L, RBool b)
  | OpRemoveFirst => '(h, L, b) ← removeFirst h L; Ok (h, L, RBool b)
  | OpRemoveLast => '(h, L, b) ← removeLast h L; Ok (h, L, RBool b)
  | OpReverse => '(h, L) ← reverse h L; Ok (h, L, RUnit)
  | OpClear => '(h, L) ← clear h L; Ok (h, L, RUnit)
  | OpGet i => v ← get h L i; Ok (h, L, RElem v)
  | OpContains e => b ← contains h L e; Ok (h, L, RBool b)
  | OpSize => Ok (h, L, RInt (size_ L))
  | OpIterate => xs ← to_list h L; Ok (h, L, RSeq xs)
  end.

(** What a call does to the sequence of elements; [None] is a null dereference. *)
Definition spec_op (o : op) (xs : list E) : option (list E * ret) :=
  match o with
  | OpAdd e | OpAddLast e => Some (xs ++ [e], RUnit)
  | OpAddFirst e => Some (e :: xs, RUnit)
  | OpAddAt i e =>
      if (i <? 0) || (Z.of_nat (length xs) <? i) then Some (xs, RBool false)
      else if i =? 0 then Some (e :: xs, RBool true)
      else Some (take (S (Z.to_nat i)) xs ++ e :: drop (S (Z.to_nat i)) xs, RBool true)
  | OpRemove e =>
      if decide (e ∈ xs) then Some (remove_first e xs, RBool true) else Some (xs, RBool false)
  | OpRemoveFirst => Some (tail xs, RBool (bool_decide (xs <> [])))
  | OpRemoveLast =>
      match xs with
      | [] => Some ([], RBool false)
      | [_] => None
      | _ => Some (removelast xs, RBool true)
      end
  | OpReverse => Some (rev xs, RUnit)
  | OpClear => Some ([], RUnit)
  | OpGet i => Some (xs, RElem (if i <? 0 then None else xs !! Z.to_nat i))
  | OpContains e => Some (xs, RBool (bool_decide (e ∈ xs)))
  | OpSize => Some (xs, RInt (Z.of_nat (length xs)))
  | OpIterate => Some (xs, RSeq xs)
  end.

(** [exec_op] realises the outcome [v] and the sequence [xs'] from [h], [ns]. *)
Definition realises (h : heap) (ns : nodes) (r : res (heap * lst * ret)) (xs' : list E) (v : ret) : Prop :=
  exists h' L' ns', r = Ok (h', L', v) /\ rep h' L' ns' /\ ns'.*2 = xs' /\ frame h ns h' ns'.

Lemma realises_yields h ns r xs' :
  yields h ns r xs' -> realises h ns ('(h, L) ← r; Ok (h, L, RUnit)) xs' RUnit.
Proof. intros (h' & L' & ns' & -> & H). by exists h', L', ns'. Qed.

Lemma realises_yields_b h ns r xs' b :
  yields_b h ns r xs' b -> realises h ns ('(h, L, b) ← r; Ok (h, L, RBool b)) xs' (RBool b).
Proof. intros (h' & L' & ns' & -> & H). by exists h', L', ns'. Qed.

Lemma realises_same h L ns v : rep h L ns -> realises h ns (Ok (h, L, v)) ns.*2 v.
Proof.
  intros Hrep. destruct (yields_same _ _ _ Hrep) as (h' & L' & ns' & Heq & H).
  injection Heq as <- <-. by exists h, L, ns'.
Qed.

Lemma realises_removeLast h L ns :
  rep h L ns ->
  match spec_op OpRemoveLast ns.*2 with
  | Some (xs', v) => realises h ns (exec_op OpRemoveLast h L) xs' v
  | None => exec_op OpRemoveLast h L = Fault
  end.
Proof.
  intros Hrep. pose proof (removeLast_spec _ _ _ Hrep) as Hl.
  destruct ns as [|n1 [|n2 ns]]; simpl.
  - rewrite Hl. run. by apply (realises_same _ _ []).
  - by rewrite Hl.
  - by apply realises_yields_b.
Qed.

Lemma realises_addAt h L ns i e :
  rep h L ns ->
  match spec_op (OpAddAt i e) ns.*2 with
  | Some (xs', v) => realises h ns (exec_op (OpAddAt i e) h L) xs' v
  | None => exec_op (OpAddAt i e) h L = Fault
  end.
Proof.
  intros Hrep. pose proof Hrep as (_ & _ & Hsz). simpl. rewrite length_fmap, <- Hsz.
  destruct ((i <? 0) || (s L <? i)) eqn:Hb.
  { unfold add_at. rewrite Hb. run. by apply realises_same. }
  destruct (Z.eqb_spec i 0) as [->|Hi0].
  { unfold add_at. rewrite Hb. simpl.
    destruct (addFirst_spec _ _ _ e Hrep) as (h' & L' & ns' & -> & H). run. by exists h', L', ns'. }
  destruct (Z.eqb_spec i (s L)) as [->|Hi].
  { unfold add_at. rewrite Hb, Z.eqb_refl. destruct (Z.eqb_spec (s L) 0); [done|].
    destruct (add_spec _ _ _ e Hrep) as (h' & L' & ns' & Ha & H). unfold addLast. rewrite Ha. run.
    exists h', L', ns'. rewrite take_ge, drop_ge by (rewrite length_fmap; lia). done. }
  apply realises_yields_b, add_at_mid_spec; [done|].
  apply orb_false_iff in Hb as [?%Z.ltb_ge ?%Z.ltb_ge]. lia.
Qed.

Lemma realises_all (o : op) (h : heap) (L : lst) (ns : nodes) :
  rep h L ns ->
  match spec_op o ns.*2 with
  | Some (xs', v) => realises h ns (exec_op o h L) xs' v
  | None => exec_op o h L = Fault
  end.
Proof.
  intros Hrep. pose proof (rep_fuel _ _ _ Hrep) as Hfuel.
  destruct o; [..| | |].
  - by apply realises_yields, add_spec.
  - by apply realises_yields, addFirst_spec.
  - by apply realises_yields, add_spec.
  - by apply realises_addAt.
  - pose proof (remove_spec _ _ _ e Hrep) as Hr. simpl. case_decide; rewrite ?bool_decide_true, ?bool_decide_false in Hr by done;
      by apply realises_yields_b.
  - pose proof (removeFirst_spec _ _ _ Hrep) as Hr. simpl.
    replace (bool_decide (ns.*2 <> [])) with (bool_decide (ns <> [])) by by destruct ns.
    by apply realises_yields_b.
  - by apply realises_removeLast.
  - by apply realises_yields, reverse_spec.
  - by apply realises_yields, clear_spec.
  - simpl. rewrite (get_spec _ _ _ _ Hrep). run. by apply realises_same.
  - simpl. unfold contains. destruct Hrep as (Hs & ? & ?).
    rewrite (contains_loop_spec _ _ ns) by (done || lia). run. by apply realises_same.
  - simpl. unfold size_. rewrite length_fmap. pose proof Hrep as (_ & _ & <-). by apply realises_same.
  - simpl. unfold to_list. pose proof Hrep as (Hs & ? & ?).
    rewrite (iterate_spec _ _ ns) by (done || lia). run. by apply realises_same.
Qed.

(** What a call is documented to do in [list.h]. *)
Definition doc_op (o : op) (xs : list E) : list E * ret :=
  match o with
  | OpAdd e | OpAddLast e => (xs ++ [e], RUnit)
  | OpAddFirst e => (e :: xs, RUnit)
  | OpAddAt i e =>
      if (i <? 0) || (Z.of_nat (length xs) <? i) then (xs, RBool false)
      else (take (Z.to_nat i) xs ++ e :: drop (Z.to_nat i) xs, RBool true)
  | OpRemove e => if decide (e ∈ xs) then (remove_first e xs, RBool true) else (xs, RBool false)
  | OpRemoveFirst => (tail xs, RBool (bool_decide (xs <> [])))
  | OpRemoveLast => (removelast xs, RBool (bool_decide (xs <> [])))
  | OpReverse => (rev xs, RUnit)
  | OpClear => ([], RUnit)
  | OpGet i => (xs, RElem (if i <? 0 then None else xs !! Z.to_nat i))
  | OpContains e => (xs, RBool (bool_decide (e ∈ xs)))
  | OpSize => (xs, RInt (Z.of_nat (length xs)))
  | OpIterate => (xs, RSeq xs)
  end.

(** The calls that do it: not an insertion strictly inside the list, nor [removeLast] on a list of one element. *)
Definition conforms (o : op) (xs : list E) : bool :=
  match o with
  | OpAddAt i _ => negb ((0 <? i) && (i <? Z.of_nat (length xs)))
  | OpRemoveLast => negb (bool_decide (length xs = 1%nat))
  | _ => true
  end.

Lemma conforms_spec o xs : conforms o xs = true -> spec_op o xs = Some (doc_op o xs).
Proof.
  destruct o; simpl; try done.
  - intros Hc%negb_true_iff%andb_false_iff. destruct (_ || _) eqn:Hb; [done|]. apply orb_false_iff in Hb as [?%Z.ltb_ge ?%Z.ltb_ge].
    destruct (Z.eqb_spec i 0) as [->|]; [done|]. destruct Hc as [?%Z.ltb_ge|?%Z.ltb_ge]; [lia|]. by rewrite !take_ge, !drop_ge by lia.
  - intros _. by case_decide.
  - intros Hc%negb_true_iff%bool_decide_eq_false. by destruct xs as [|x [|y xs]].
Qed.

(** A run of calls on one list object. *)
Fixpoint exec_ops (os : list op) (h : heap) (L : lst) : res (heap * lst * list ret) :=
  match os with
  | [] => Ok (h, L, [])
  | o :: os =>
      '(h, L, v) ← exec_op o h L;
      '(h, L, vs) ← exec_ops os h L;
      Ok (h, L, v :: vs)
  end.

Fixpoint doc_ops (os : list op) (xs : list E) : list E * list ret :=
  match os with
  | [] => (xs, [])
  | o :: os => let '(xs, v) := doc_op o xs in let '(xs, vs) := doc_ops os xs in (xs, v :: vs)
  end.

(** Every call of the run is one that conforms, on the sequence it then finds. *)
Fixpoint all_conform (os : list op) (xs : list E) : bool :=
  match os with [] => true | o :: os => conforms o xs && all_conform os (doc_op o xs).1 end.

Lemma frame_trans h ns h' ns' h'' ns'' :
  frame h ns h' ns' -> frame h' ns' h'' ns'' -> frame h ns h'' ns''.
Proof.
  intros [Ha Hb] [Hc Hd]. split.
  - intros l Hl Hs. destruct (Ha l Hl Hs) as [He Hn].
    destruct (Hc l Hn) as [He' ?]; [by rewrite He|]. by rewrite He', He.
  - intros l Hs. destruct (Hd l Hs) as [|[Hn He]]; [by left|].
    rewrite He in Hs. destruct (Hb l Hs) as [|[? Hf]]; [done|]. right. by rewrite He, Hf.
Qed.

End ops.


Definition h0 : gmap loc (Node Z) := {[ 5%positive := mkNode 50 None ]}.


(** [add(int index, E)] does not put the element at [index]: strictly inside the
    list it is linked behind the node that holds that position, so position [index] still
    holds its old element and the new one is found at [index + 1]. *)
Theorem add_at_lands_behind {E} `{EqDecision E} (h : gmap loc (Node E)) (L : lst) (ns : list (loc * E)) (i : Z) (e : E) :
  rep h L ns -> 0 < i < s L ->
  exists h' L', add_at h L i e = Ok (h', L', true) /\
    get h' L' i = get h L i /\ get h' L' (i + 1) = Ok (Some e).
Proof.
  intros Hrep Hi. pose proof Hrep as (_ & _ & Hsz).
  destruct (add_at_mid_spec h L ns i e Hrep) as (h' & L' & ns' & -> & Hrep' & Hns & _); [lia|].
  exists h', L'. split; [done|].
  rewrite !(get_spec _ _ _ _ Hrep'), (get_spec _ _ _ _ Hrep), Hns.
  destruct (Z.ltb_spec i 0); [lia|]. destruct (Z.ltb_spec (i + 1) 0); [lia|].
  assert (length (take (S (Z.to_nat i)) ns.*2) = S (Z.to_nat i)) as Hlen
    by (rewrite length_take_le; rewrite ?length_fmap; lia).
  split; f_equal.
  - rewrite lookup_app_l by lia. by rewrite lookup_take_lt by lia.
  - replace (Z.to_nat (i + 1)) with (length (take (S (Z.to_nat i)) ns.*2)) by lia.
    by apply list_lookup_middle.
Qed.

Definition h3 : gmap loc (Node Z) :=
  {[ 1%positive := mkNode 10 (Some 2%positive); 2%positive := mkNode 20 (Some 3%positive);
     3%positive := mkNode 30 None ]}.

Lemma add_at_lands_behind_witness :
  exists h' L', add_at h3 (mkList (Some 1%positive) 3) 1 99 = Ok (h', L', true) /\
    get h' L' 1 = Ok (Some 20) /\ get h' L' 2 = Ok (Some 99).
Proof.
  refine (add_at_lands_behind h3 (mkList (Some 1%positive) 3)
            [(1%positive, 10); (2%positive, 20); (3%positive, 30)] 1 99 _ _); [|simpl; lia].
  split_and!; [|apply (bool_decide_unpack _); reflexivity|reflexivity].
  simpl. do 3 (split; [reflexivity|]; eexists; split; [reflexivity|]). reflexivity.
Defined.

End LinkedList.
