(* ===== verification/Containers.v ===== *)
(** * Array-backed containers ([kernel/utils/queue.hxx], [Stack.hxx], [circular_buffer.hxx])

    Each container is its array, kept as a list of fixed length, with the index fields of
    the source ([size_t] is 32 bits wide on the target).  [Queue] and [Stack] are shown to
    implement a bounded FIFO and a bounded LIFO; [CircularBuffer] is the byte buffer behind
    the kernel's pipes. *)

From stdpp Require Import base tactics numbers list.
From S2P Require Import Prelude.
Open Scope Z_scope.

(** ** [template <class T, size_t N> class queue] *)
Module Queue.
Section queue.
Context {T : Type} (N : Z).

Record queue := mkQueue { data : list T; count : Z; start : Z }.

(** [queue::queue()]: [new T[N]] leaves the cells as it finds them. *)
Definition new (cells : list T) : queue := mkQueue cells 0 0.

(** [queue::enqueue]. *)
Definition enqueue (q : queue) (element : T) : queue * bool :=
  if count q =? N then (q, false)
  else
    (mkQueue (<[Z.to_nat ((start q +u count q) mod N) := element]> (data q))
             (count q +u 1) (start q), true).

(** [queue::empty]. *)
Definition empty (q : queue) : bool := count q =? 0.

(** [queue::getFirst]. *)
Definition getFirst (q : queue) : res T := deref (data q !! Z.to_nat (start q)).

(** [queue::full]. *)
Definition full (q : queue) : bool := count q =? N.

(** [queue::dequeue]: there is no test for emptiness. *)
Definition dequeue (q : queue) : res (queue * T) :=
  el ← deref (data q !! Z.to_nat (start q));
  Ok (mkQueue (data q) (count q -u 1) ((start q +u 1) mod N), el).

(** [queue::getCount]. *)
Definition getCount (q : queue) : Z := count q.

(** *** The queue as a sequence *)

Definition inv (q : queue) : Prop :=
  0 < N < 2147483648 /\ Z.of_nat (length (data q)) = N /\ 0 <= count q <= N /\ 0 <= start q < N.

(** [xs] are the elements, oldest first. *)
Definition rep (q : queue) (xs : list T) : Prop :=
  inv q /\ Z.of_nat (length xs) = count q /\
  forall i, 0 <= i < count q -> data q !! Z.to_nat ((start q + i) mod N) = xs !! Z.to_nat i.

Lemma new_rep cells : 0 < N < 2147483648 -> Z.of_nat (length cells) = N -> rep (new cells) [].
Proof. intros. split_and!; simpl; unfold inv; simpl; lia. Qed.

(** Distinct positions of the window fall into distinct cells. *)
Lemma window_inj st i j :
  0 <= st < N -> 0 <= i < N -> 0 <= j < N -> (st + i) mod N = (st + j) mod N -> i = j.
Proof.
  intros Hs Hi Hj.
  assert (forall k, 0 <= k < N -> (st + k) mod N = if st + k <? N then st + k else st + k - N) as Hm.
  { intros k Hk. destruct (Z.ltb_spec (st + k) N).
    - by apply Z.mod_small; lia.
    - rewrite <- (Z.mod_small (st + k - N) N) by lia.
      replace (st + k) with ((st + k - N) + 1 * N) at 1 by lia. apply Z_mod_plus_full. }
  rewrite !Hm by done. bool_to_prop; lia.
Qed.

Lemma enqueue_rep q xs x :
  rep q xs ->
  (count q < N -> exists q', enqueue q x = (q', true) /\ rep q' (xs ++ [x])) /\
  (count q = N -> enqueue q x = (q, false)).
Proof.
  intros ((HN & Hd & Hc & Hs) & Hl & Hx). unfold enqueue. split; intros H.
  - destruct (Z.eqb_spec (count q) N); [lia|]. eexists. split; [done|].
    words. split_and!; simpl; unfold inv; simpl.
    + rewrite length_insert. lia.
    + rewrite length_app. simpl. lia.
    + intros i Hi. destruct (decide (i = count q)) as [->|Hne].
      * rewrite list_lookup_insert_eq.
        -- replace (Z.to_nat (count q)) with (length xs) by lia. by rewrite lookup_app_cons.
        -- pose proof (Z.mod_pos_bound (start q + count q) N). lia.
      * rewrite list_lookup_insert_ne, Hx by
          (lia || (intros He; apply Z2Nat.inj in He; try apply Z.mod_pos_bound; try lia;
                   apply window_inj in He; lia)).
        rewrite lookup_app_l by lia. done.
  - by rewrite H, Z.eqb_refl.
Qed.

Lemma getFirst_rep q x xs : rep q (x :: xs) -> getFirst q = Ok x.
Proof.
  intros ((HN & Hd & Hc & Hs) & Hl & Hx). unfold getFirst. simpl in Hl.
  specialize (Hx 0 ltac:(lia)). rewrite Z.add_0_r, Z.mod_small in Hx by lia. by rewrite Hx.
Qed.

Lemma dequeue_rep q x xs :
  rep q (x :: xs) -> exists q', dequeue q = Ok (q', x) /\ rep q' xs.
Proof.
  intros Hrep. pose proof (getFirst_rep _ _ _ Hrep) as Hg.
  destruct Hrep as ((HN & Hd & Hc & Hs) & Hl & Hx). simpl in Hl.
  unfold dequeue, getFirst in *. rewrite Hg. run. eexists. split; [done|].
  words. pose proof (Z.mod_pos_bound (start q + 1) N ltac:(lia)).
  split_and!; simpl; unfold inv; simpl; [lia..|].
  intros i Hi. rewrite Zplus_mod_idemp_l. specialize (Hx (i + 1) ltac:(lia)).
  replace (start q + 1 + i) with (start q + (i + 1)) by lia. rewrite Hx.
  by replace (Z.to_nat (i + 1)) with (S (Z.to_nat i)) by lia.
Qed.

(** Dequeuing an empty queue wraps the element count around. *)
Lemma dequeue_empty_wraps q : rep q [] -> exists q' x, dequeue q = Ok (q', x) /\ count q' = UINT_MAX.
Proof.
  intros ((HN & Hd & Hc & Hs) & Hl & _). simpl in Hl. unfold dequeue.
  destruct (lookup_lt_is_Some_2 (data q) (Z.to_nat (start q))) as [x ->]; [lia|]. run.
  eexists _, x. split; [done|]. simpl. by rewrite <- Hl.
Qed.

Inductive op := Enqueue (x : T) | Dequeue | GetFirst | Empty | Full | GetCount.
Inductive ret := RBool (b : bool) | RElem (x : T) | RSize (z : Z).

Definition exec_op (o : op) (q : queue) : res (queue * ret) :=
  match o with
  | Enqueue x => let '(q, b) := enqueue q x in Ok (q, RBool b)
  | Dequeue => '(q, x) ← dequeue q; Ok (q, RElem x)
  | GetFirst => x ← getFirst q; Ok (q, RElem x)
  | Empty => Ok (q, RBool (empty q))
  | Full => Ok (q, RBool (full q))
  | GetCount => Ok (q, RSize (getCount q))
  end.

(** The bounded FIFO a [queue<T, N>] stands for; taking from an empty one is outside it. *)
Definition spec_op (o : op) (xs : list T) : option (list T * ret) :=
  match o, xs with
  | Enqueue x, _ =>
      if Z.of_nat (length xs) <? N then Some (xs ++ [x], RBool true) else Some (xs, RBool false)
  | Dequeue, x :: xs => Some (xs, RElem x)
  | GetFirst, x :: _ => Some (xs, RElem x)
  | Dequeue, [] | GetFirst, [] => None
  | Empty, _ => Some (xs, RBool (bool_decide (length xs = 0%nat)))
  | Full, _ => Some (xs, RBool (Z.of_nat (length xs) =? N))
  | GetCount, _ => Some (xs, RSize (Z.of_nat (length xs)))
  end.

Lemma op_refines o q xs xs' v :
  rep q xs -> spec_op o xs = Some (xs', v) ->
  exists q', exec_op o q = Ok (q', v) /\ rep q' xs'.
Proof.
  intros Hrep Hsp. pose proof Hrep as ((HN & Hd & Hc & Hs) & Hl & _).
  destruct o; simpl in *.
  - destruct (enqueue_rep _ _ x Hrep) as [H1 H2].
    destruct (Z.ltb_spec (Z.of_nat (length xs)) N); simplify_eq.
    + destruct H1 as (q' & -> & Hr); [lia|]. by exists q'.
    + rewrite H2 by lia. by exists q.
  - destruct xs as [|x xs]; simplify_eq.
    destruct (dequeue_rep _ _ _ Hrep) as (q' & -> & Hr). by exists q'.
  - destruct xs as [|x xs]; simplify_eq. rewrite (getFirst_rep _ _ _ Hrep). by exists q.
  - destruct xs; simplify_eq; exists q; (split; [|done]); unfold empty; simpl in Hl; repeat f_equal; bool_to_prop; (done || lia).
  - destruct xs; simplify_eq; exists q; (split; [|done]); unfold full; by rewrite Hl.
  - destruct xs; simplify_eq; exists q; (split; [|done]); unfold getCount; by rewrite Hl.
Qed.

Fixpoint exec_ops (os : list op) (q : queue) : res (queue * list ret) :=
  match os with
  | [] => Ok (q, [])
  | o :: os => '(q, v) ← exec_op o q; '(q, vs) ← exec_ops os q; Ok (q, v :: vs)
  end.

Fixpoint spec_ops (os : list op) (xs : list T) : option (list T * list ret) :=
  match os with
  | [] => Some (xs, [])
  | o :: os =>
      '(xs, v) ← spec_op o xs; '(xs, vs) ← spec_ops os xs; Some (xs, v :: vs)
  end.

End queue.
Arguments queue : clear implicits.

(** Refinement of [queue<T, N>]: any sequence of calls that never takes from an
    empty queue returns exactly what a bounded FIFO of capacity [N] returns, whatever the
    initial contents of the array, and ends representing the FIFO's contents. *)
Theorem queue_refines {T} (N : Z) (os : list (@op T)) (cells : list T) xs' vs :
  0 < N < 2147483648 -> Z.of_nat (length cells) = N ->
  spec_ops N os [] = Some (xs', vs) ->
  exists q', exec_ops N os (new cells) = Ok (q', vs) /\ rep N q' xs'.
Proof.
  intros HN Hlen. assert (rep N (new cells) []) as Hrep by by apply new_rep.
  revert Hrep. generalize (new cells) as q, (@nil T) as xs. revert vs.
  induction os as [|o os IH]; simpl; intros vs q xs Hrep Hsp; simplify_option_eq; [by exists q|].
  match goal with p : (list T * ret)%type |- _ => destruct p as [xs1 v] end. simplify_option_eq.
  match goal with p : (list T * list ret)%type |- _ => destruct p as [xs2 vs2] end. simplify_eq.
  destruct (op_refines _ _ _ _ _ _ Hrep ltac:(eassumption)) as (q1 & -> & Hrep1). run.
  destruct (IH _ _ _ Hrep1 ltac:(eassumption)) as (q2 & -> & Hrep2). run. by exists q2.
Qed.

Lemma queue_refines_witness :
  exists q', exec_ops 2 [Enqueue 7; Enqueue 8; Enqueue 9; Dequeue; Enqueue 5; Full; Dequeue; GetFirst; GetCount] (new [0; 0])
    = Ok (q', [RBool true; RBool true; RBool false; RElem 7; RBool true; RBool true; RElem 8; RElem 5; RSize 1]) /\
    rep 2 q' [5].
Proof.
  refine (queue_refines 2 [Enqueue 7; Enqueue 8; Enqueue 9; Dequeue; Enqueue 5; Full; Dequeue; GetFirst; GetCount] [0; 0] [5] _ _ _ _);
    [lia|reflexivity|reflexivity].
Defined.

End Queue.

(** ** [template <typename T> class Stack] *)
Module Stack.
Section stack.
Context {T : Type}.

(** The array holds pointers to private copies of the pushed objects; a cell is modelled by
    the object it points to. *)
Record stack := mkStack { data : list T; size : Z; capacity : Z }.

(** [Stack::Stack(size_t)]. *)
Definition new (cells : list T) (capacity : Z) : stack := mkStack cells 0 capacity.

(** [Stack::push] by pointer, and its overload by reference. *)
Definition push (st : stack) (t : T) : stack * bool :=
  if size st =? capacity st then (st, false)
  else (mkStack (<[Z.to_nat (size st) := t]> (data st)) (size st +u 1) (capacity st), true).

(** [Stack::pop]; [None] is the returned [nullptr]. *)
Definition pop (st : stack) : res (stack * option T) :=
  if size st =? 0 then Ok (st, None)
  else
    let size' := size st -u 1 in
    t ← deref (data st !! Z.to_nat size');
    Ok (mkStack (data st) size' (capacity st), Some t).

(** [Stack::peek]. *)
Definition peek (st : stack) : res (option T) :=
  if size st =? 0 then Ok None
  else t ← deref (data st !! Z.to_nat (size st -u 1)); Ok (Some t).

(** [Stack::get_size]. *)
Definition get_size (st : stack) : Z := size st.

(** The elements, bottom first, are the first [size] cells. *)
Definition rep (st : stack) (xs : list T) : Prop :=
  0 <= capacity st < 4294967296 /\ Z.of_nat (length (data st)) = capacity st /\
  0 <= size st <= capacity st /\ take (Z.to_nat (size st)) (data st) = xs.

Lemma rep_length st xs : rep st xs -> Z.of_nat (length xs) = size st.
Proof. intros (? & ? & ? & <-). rewrite length_take_le; lia. Qed.

Lemma push_rep st xs t :
  rep st xs ->
  push st t = (st, false) /\ size st = capacity st \/
  exists st', push st t = (st', true) /\ rep st' (xs ++ [t]) /\ capacity st' = capacity st.
Proof.
  intros (Hc & Hd & Hs & <-). unfold push. destruct (Z.eqb_spec (size st) (capacity st)); [by left|].
  right. eexists. split; [done|]. words. split; [|done]. split_and!; simpl; [lia..| |lia|lia|].
  - by rewrite length_insert.
  - replace (Z.to_nat (size st + 1)) with (S (Z.to_nat (size st))) by lia.
    rewrite (take_S_r _ _ t), take_insert_ge by (lia || apply list_lookup_insert_eq; lia). done.
Qed.

Lemma top_rep st xs x :
  rep st (xs ++ [x]) -> size st <> 0 /\ is_u32 (size st - 1) /\ data st !! Z.to_nat (size st - 1) = Some x.
Proof.
  intros Hrep. pose proof (rep_length _ _ Hrep) as Hl. rewrite length_app in Hl. simpl in Hl.
  destruct Hrep as (Hc & Hd & Hs & Ht). split; [lia|]. split; [unfold is_u32; lia|].
  rewrite <- (lookup_take_lt _ (Z.to_nat (size st))), Ht by lia.
  replace (Z.to_nat (size st - 1)) with (length xs) by lia. apply lookup_app_cons.
Qed.

Lemma pop_rep st xs x :
  rep st (xs ++ [x]) ->
  exists st', pop st = Ok (st', Some x) /\ rep st' xs /\ capacity st' = capacity st.
Proof.
  intros Hrep. destruct (top_rep _ _ _ Hrep) as (Hn & Hu & Hx). unfold pop.
  destruct (Z.eqb_spec (size st) 0); [done|]. cbv zeta. rewrite u32_id by done. rewrite Hx. run.
  eexists. split; [done|]. pose proof (rep_length _ _ Hrep) as Hl. rewrite length_app in Hl. simpl in Hl.
  destruct Hrep as (Hc & Hd & Hs & Ht). split; [|done]. split_and!; simpl; [lia..|].
  replace (Z.to_nat (size st - 1)) with (length xs) by lia.
  transitivity (take (length xs) (xs ++ [x])); [|apply take_app_length].
  rewrite <- Ht, take_take. f_equal. lia.
Qed.

Lemma peek_rep st xs x : rep st (xs ++ [x]) -> peek st = Ok (Some x).
Proof.
  intros Hrep. destruct (top_rep _ _ _ Hrep) as (Hn & Hu & Hx). unfold peek.
  destruct (Z.eqb_spec (size st) 0); [done|]. rewrite u32_id by done. by rewrite Hx.
Qed.

End stack.
Arguments stack : clear implicits.

(** [Stack] is a bounded LIFO: when there is room, [push] then [peek] shows the
    pushed object, and [pop] returns it and leaves the previous contents; when it is full
    [push] refuses and changes nothing; when it is empty [pop] and [peek] answer [nullptr]. *)
Theorem stack_lifo {T} (st : stack T) (xs : list T) (t : T) :
  rep st xs ->
  (Z.of_nat (length xs) < capacity st ->
    exists st1 st2, push st t = (st1, true) /\ peek st1 = Ok (Some t) /\
      pop st1 = Ok (st2, Some t) /\ rep st2 xs /\ capacity st2 = capacity st) /\
  (Z.of_nat (length xs) = capacity st -> push st t = (st, false)) /\
  (xs = [] -> pop st = Ok (st, None) /\ peek st = Ok None).
Proof.
  intros Hrep. pose proof (rep_length _ _ Hrep) as Hl. rewrite Hl. split_and!.
  - intros Hlt. destruct (push_rep _ _ t Hrep) as [[_ ?]|(st1 & Hp & Hr1 & Hc1)]; [lia|].
    destruct (pop_rep _ _ _ Hr1) as (st2 & Hpop & Hr2 & Hc2).
    exists st1, st2. rewrite Hc2, Hc1. split_and!; [done|by eapply peek_rep|done..].
  - intros Heq. unfold push. by rewrite Heq, Z.eqb_refl.
  - intros ->. simpl in Hl. unfold pop, peek. by rewrite <- Hl.
Qed.

Lemma stack_lifo_witness :
  exists st1 st2, push (mkStack [4; 0; 0] 1 3) 9 = (st1, true) /\ peek st1 = Ok (Some 9) /\
    pop st1 = Ok (st2, Some 9) /\ rep st2 [4] /\ capacity st2 = 3.
Proof.
  assert (rep (mkStack [4; 0; 0] 1 3) [4]) as H by (split_and!; simpl; (lia || reflexivity)).
  exact (proj1 (stack_lifo (mkStack [4; 0; 0] 1 3) [4] 9 H) eq_refl).
Defined.

End Stack.

(** ** [template <typename T> class CircularBuffer], at [T = char] *)
Module CircularBuffer.

(** Pointers into the allocation are offsets from [data]; [limit] is [capacity]. *)
Record buffer := mkBuffer { data : list Z; capacity : Z; beg : Z; size : Z }.

(** A [section]: where the bytes start and how many there are. *)
Record section := mkSection { sec_beg : Z; sec_size : Z }.

(** [CircularBuffer::CircularBuffer]: the constructor calls its parameter, not the member
    that falls back to [malloc], so a null [allocator] is called. *)
Definition new (allocator : option (Z -> list Z)) (capacity : Z) : res buffer :=
  match allocator with
  | None => Fault
  | Some alloc => Ok (mkBuffer (alloc capacity) capacity 0 0)
  end.

(** [CircularBuffer::read]: the two sections to copy from, and the advanced buffer. *)
Definition read (b : buffer) (n : Z) : buffer * (section * section) :=
  let n := Z.min n (size b) in
  let secs :=
    if capacity b <? beg b + n then
      let s1_size := capacity b - beg b in
      (mkSection (beg b) s1_size, mkSection 0 (n - s1_size))
    else (mkSection (beg b) n, mkSection (beg b + n) 0) in
  let beg' := beg b + n in
  let beg' := if capacity b <=? beg' then beg' - capacity b else beg' in
  (mkBuffer (data b) (capacity b) beg' (size b -u n), secs).

(** [memcpy(data + dst, src, n)]: writing outside of the allocation has no meaning. *)
Definition memcpy (mem : list Z) (dst : Z) (src : list Z) (n : Z) : res (list Z) :=
  if (0 <=? dst) && (dst + n <=? Z.of_nat (length mem)) && (n <=? Z.of_nat (length src)) then
    Ok (take (Z.to_nat dst) mem ++ take (Z.to_nat n) src ++ drop (Z.to_nat (dst + n)) mem)
  else Fault.

(** [CircularBuffer::write] of the first [n] bytes of [buf]. *)
Definition write (b : buffer) (buf : list Z) (n : Z) : res (buffer * Z) :=
  let n := Z.min n (capacity b -u size b) in
  mem ← (if beg b + size b + n <=? capacity b then
           memcpy (data b) (beg b + size b) buf n
         else
           let s1 := u32 (capacity b - beg b - size b) in
           mem ← memcpy (data b) (beg b + size b) buf s1;
           let s2 := n -u s1 in
           memcpy mem 0 (drop (Z.to_nat s1) buf) s2);
  Ok (mkBuffer mem (capacity b) (beg b) (size b +u n), n).

(** The bytes a section designates. *)
Definition section_bytes (mem : list Z) (s : section) : list Z :=
  take (Z.to_nat (sec_size s)) (drop (Z.to_nat (sec_beg s)) mem).

Definition inv (b : buffer) : Prop :=
  0 < capacity b < 2147483648 /\ Z.of_nat (length (data b)) = capacity b /\
  0 <= beg b < capacity b /\ 0 <= size b <= capacity b.

(** The bytes waiting in the buffer, oldest first. *)
Definition contents (b : buffer) : list Z :=
  take (Z.to_nat (size b)) (drop (Z.to_nat (beg b)) (data b) ++ take (Z.to_nat (beg b)) (data b)).

Lemma contents_length b : inv b -> Z.of_nat (length (contents b)) = size b.
Proof.
  intros (? & ? & ? & ?). unfold contents.
  rewrite length_take_le; [lia|]. rewrite length_app, length_drop, length_take. lia.
Qed.


(** The cells in the order in which they are consumed from [i]. *)
Definition rot (i : nat) (l : list Z) : list Z := drop i l ++ take i l.

Lemma rot_add i k l :
  (i <= length l)%nat -> (k <= length l)%nat ->
  rot (if (i + k <? length l)%nat then i + k else i + k - length l) l =
  drop k (rot i l) ++ take k (rot i l).
Proof.
  intros Hi Hk. unfold rot. destruct (Nat.ltb_spec (i + k) (length l)) as [H|H].
  - rewrite drop_app_le, take_app_le, drop_drop by (rewrite length_drop; lia).
    rewrite <- app_assoc. f_equal. by rewrite take_take_drop.
  - rewrite drop_app_ge, take_app_ge by (rewrite length_drop; lia). rewrite length_drop.
    set (j := (i + k - length l)%nat).
    replace (k - (length l - i))%nat with j by lia.
    rewrite take_take. replace (j `min` i)%nat with j by lia.
    rewrite app_assoc. f_equal. rewrite <- drop_app_le by (rewrite length_take; lia).
    by rewrite take_drop.
Qed.

Lemma contents_rot b : contents b = take (Z.to_nat (size b)) (rot (Z.to_nat (beg b)) (data b)).
Proof. done. Qed.

Lemma rot_length i l : length (rot i l) = length l.
Proof. unfold rot. rewrite length_app, length_drop, length_take. lia. Qed.

Lemma read_sections b n :
  inv b -> 0 <= n ->
  let '(b', (s0, s1)) := read b n in
  section_bytes (data b) s0 ++ section_bytes (data b) s1 = take (Z.to_nat n) (contents b).
Proof.
  intros (Hc & Hd & Hb & Hs) Hn. unfold read. set (k := Z.min n (size b)).
  rewrite contents_rot, take_take.
  replace (Z.to_nat n `min` Z.to_nat (size b))%nat with (Z.to_nat k) by lia.
  unfold section_bytes, rot. destruct (Z.ltb_spec (capacity b) (beg b + k)); simpl.
  - rewrite take_app_ge by (rewrite length_drop; lia). rewrite length_drop.
    rewrite take_take. f_equal; [|f_equal; lia]. apply take_ge. rewrite length_drop. lia.
  - rewrite take_app_le by (rewrite length_drop; lia). by rewrite app_nil_r.
Qed.

Lemma read_buffer b n :
  inv b -> 0 <= n -> inv (fst (read b n)) /\ contents (fst (read b n)) = drop (Z.to_nat n) (contents b).
Proof.
  intros (Hc & Hd & Hb & Hs) Hn. unfold read. set (k := Z.min n (size b)).
  rewrite u32_id by (unfold is_u32; lia). simpl. split.
  { unfold inv. simpl. destruct (Z.leb_spec (capacity b) (beg b + k)); lia. }
  rewrite !contents_rot. simpl.
  pose proof (rot_add (Z.to_nat (beg b)) (Z.to_nat k) (data b) ltac:(lia) ltac:(lia)) as Hr.
  replace (Z.to_nat (if capacity b <=? beg b + k then beg b + k - capacity b else beg b + k))
    with (if (Z.to_nat (beg b) + Z.to_nat k <? length (data b))%nat
          then (Z.to_nat (beg b) + Z.to_nat k)%nat
          else (Z.to_nat (beg b) + Z.to_nat k - length (data b))%nat)
    by (destruct (Z.leb_spec (capacity b) (beg b + k)), (Nat.ltb_spec (Z.to_nat (beg b) + Z.to_nat k) (length (data b))); lia).
  rewrite Hr. rewrite take_app_le by (rewrite length_drop, rot_length; lia).
  destruct (Z.le_gt_cases n (size b)).
  - replace k with n in * by lia. rewrite skipn_firstn_comm. f_equal. lia.
  - replace k with (size b) in * by lia. rewrite Z.sub_diag. simpl.
    symmetry. apply drop_ge. rewrite length_take. lia.
Qed.

(** Reading the pieces of an array whose live bytes do not wrap, or do. *)
Lemma contents_flat mem cap a b c :
  mem = a ++ b ++ c ->
  contents (mkBuffer mem cap (Z.of_nat (length a)) (Z.of_nat (length b))) = b.
Proof.
  intros ->. unfold contents. simpl. rewrite !Nat2Z.id. rewrite drop_app_length.
  rewrite take_app_le by (rewrite !length_app; lia). by rewrite take_app_length.
Qed.

Lemma contents_wrapped mem cap a1 a2 b :
  mem = a1 ++ a2 ++ b ->
  contents (mkBuffer mem cap (Z.of_nat (length (a1 ++ a2))) (Z.of_nat (length (b ++ a1)))) = b ++ a1.
Proof.
  intros ->. unfold contents. simpl. rewrite !Nat2Z.id. rewrite app_assoc, drop_app_length, take_app_length.
  rewrite app_assoc. by rewrite take_app_length.
Qed.

Lemma memcpy_pieces a x b src n :
  (length x = n)%nat -> (n <= length src)%nat ->
  memcpy (a ++ x ++ b) (Z.of_nat (length a)) src (Z.of_nat n) = Ok (a ++ take n src ++ b).
Proof.
  intros Hx Hn. unfold memcpy. rewrite !length_app.
  rewrite (proj2 (Z.leb_le _ _)), (proj2 (Z.leb_le (_ + _) _)), (proj2 (Z.leb_le (Z.of_nat n) _)) by lia. simpl.
  rewrite <- Nat2Z.inj_add, !Nat2Z.id, take_app_length. repeat f_equal.
  by rewrite app_assoc, drop_app_length' by (rewrite length_app; lia).
Qed.

Lemma memcpy_oob mem dst src n : Z.of_nat (length mem) < dst + n -> memcpy mem dst src n = Fault.
Proof. intros H. unfold memcpy. rewrite (proj2 (Z.leb_gt (dst + n) _)) by lia. by rewrite andb_false_r. Qed.

Lemma write_split b :
  inv b -> beg b + size b <= capacity b ->
  exists a c, data b = a ++ contents b ++ c /\ Z.of_nat (length a) = beg b /\
    Z.of_nat (length c) = capacity b - beg b - size b.
Proof.
  intros (Hc & Hd & Hb & Hs) Hf.
  exists (take (Z.to_nat (beg b)) (data b)), (drop (Z.to_nat (beg b + size b)) (data b)).
  rewrite length_take, length_drop. split_and!; [|lia|lia].
  unfold contents. rewrite take_app_le by (rewrite length_drop; lia).
  replace (Z.to_nat (beg b + size b)) with (Z.to_nat (beg b) + Z.to_nat (size b))%nat by lia.
  by rewrite app_assoc, take_take_drop, take_drop.
Qed.

Lemma write_flat b buf n :
  inv b -> beg b + size b <= capacity b -> 0 <= n <= Z.of_nat (length buf) ->
  exists b', write b buf n = Ok (b', Z.min n (capacity b - size b)) /\ inv b' /\
    contents b' = contents b ++ take (Z.to_nat (Z.min n (capacity b - size b))) buf.
Proof.
  intros Hinv Hf Hn. pose proof (contents_length _ Hinv) as Hcl.
  destruct (write_split _ Hinv Hf) as (a & c & Hd & Ha & Hc).
  destruct Hinv as (Hcap & Hdl & Hb & Hs).
  unfold write. rewrite (u32_id (capacity b - size b)) by (unfold is_u32; lia).
  set (k := Z.min n (capacity b - size b)).
  destruct (Z.leb_spec (beg b + size b + k) (capacity b)) as [Hk|Hk].
  - pose proof (memcpy_pieces (a ++ contents b) (take (Z.to_nat k) c) (drop (Z.to_nat k) c) buf (Z.to_nat k)) as Hm.
    rewrite take_drop, length_app, Z2Nat.id, Nat2Z.inj_add, Ha, Hcl, <- app_assoc, <- Hd in Hm by lia.
    rewrite Hm by (rewrite ?length_take; lia). run.
    rewrite u32_id by (unfold is_u32; lia). eexists. split; [done|]. split.
    + unfold inv. simpl. rewrite !length_app, length_take, length_drop. lia.
    + replace (beg b) with (Z.of_nat (length a)) by lia.
      replace (size b + k) with (Z.of_nat (length (contents b ++ take (Z.to_nat k) buf)))
        by (rewrite length_app, length_take; lia).
      apply (contents_flat _ _ a _ (drop (Z.to_nat k) c)). by rewrite <- !app_assoc.
  - set (s1 := capacity b - beg b - size b) in *. rewrite (u32_id s1) by (unfold is_u32; lia).
    pose proof (memcpy_pieces (a ++ contents b) c [] buf (length c)) as Hm.
    rewrite length_app, Nat2Z.inj_add, Ha, Hcl, Hc, !app_nil_r, <- app_assoc, <- Hd in Hm.
    rewrite Hm by lia. run. clear Hm.
    rewrite (u32_id (k - _)) by (unfold is_u32; lia).
    replace (Z.to_nat s1) with (length c) by lia.
    set (k2 := Z.to_nat (k - s1)).
    pose proof (memcpy_pieces [] (take k2 a) (drop k2 a ++ contents b ++ take (length c) buf) (drop (length c) buf) k2) as Hm.
    simpl in Hm. change (Z.of_nat 0) with 0 in Hm. rewrite (app_assoc (take k2 a)), take_drop in Hm.
    replace (k - s1) with (Z.of_nat k2) by lia. rewrite <- app_assoc.
    rewrite Hm by (rewrite ?length_take, ?length_drop; lia). run.
    rewrite u32_id by (unfold is_u32; lia). eexists. split; [done|].
    set (x2 := take k2 (drop (length c) buf)).
    assert (length x2 = k2) as Hx2 by (unfold x2; rewrite length_take, length_drop; lia). split.
    + unfold inv. simpl. rewrite !length_app, !length_take, !length_drop. lia.
    + replace (take (Z.to_nat k) buf) with (take (length c) buf ++ x2)
        by (unfold x2; rewrite take_take_drop; f_equal; lia).
      replace (beg b) with (Z.of_nat (length (x2 ++ drop k2 a))) by (rewrite length_app, length_drop; lia).
      replace (size b + k) with (Z.of_nat (length ((contents b ++ take (length c) buf) ++ x2)))
        by (rewrite !length_app, length_take; lia).
      rewrite (app_assoc (contents b) _ x2). by apply contents_wrapped.
Qed.

(** [CircularBuffer::read] is the consumer of a byte FIFO: the two returned sections
    designate, in order, exactly the oldest [min(n, size)] bytes, and the buffer keeps the rest,
    wherever the live bytes lie with respect to the end of the array. *)
Theorem circular_read_fifo (b : buffer) (n : Z) :
  inv b -> 0 <= n ->
  let '(b', (s0, s1)) := read b n in
  inv b' /\ section_bytes (data b) s0 ++ section_bytes (data b) s1 = take (Z.to_nat n) (contents b) /\
  contents b' = drop (Z.to_nat n) (contents b).
Proof.
  intros Hinv Hn. pose proof (read_sections b n Hinv Hn) as Hs.
  destruct (read_buffer b n Hinv Hn) as [Hi Hc]. destruct (read b n) as [b' [s0 s1]]. done.
Qed.

Lemma circular_read_fifo_witness :
  let '(b', (s0, s1)) := read (mkBuffer [3; 4; 0; 1; 2] 5 3 4) 3 in
  inv b' /\ section_bytes [3; 4; 0; 1; 2] s0 ++ section_bytes [3; 4; 0; 1; 2] s1 = [1; 2; 3] /\
  contents b' = [4].
Proof.
  refine (circular_read_fifo (mkBuffer [3; 4; 0; 1; 2] 5 3 4) 3 _ _); [|lia].
  split_and!; simpl; (lia || reflexivity).
Defined.

(** [CircularBuffer::write] appends the longest prefix that fits and returns its
    length as long as the live bytes do not run past the end of the array; once they have
    wrapped around it the length of the first copy underflows and the copy starts outside of
    the allocation. *)
Theorem circular_write_appends (b : buffer) (buf : list Z) (n : Z) :
  inv b -> 0 <= n <= Z.of_nat (length buf) ->
  (beg b + size b <= capacity b ->
    exists b', write b buf n = Ok (b', Z.min n (capacity b - size b)) /\ inv b' /\
      contents b' = contents b ++ take (Z.to_nat (Z.min n (capacity b - size b))) buf) /\
  (capacity b < beg b + size b -> write b buf n = Fault).
Proof.
  intros Hinv Hn. split; [intros; by apply write_flat|].
  intros Hw. destruct Hinv as (Hc & Hd & Hb & Hs). unfold write.
  rewrite (u32_id (capacity b - size b)) by (unfold is_u32; lia).
  destruct (Z.leb_spec (beg b + size b + Z.min n (capacity b - size b)) (capacity b)); [lia|].
  pose proof (u32_range (capacity b - beg b - size b)) as Hr. unfold is_u32 in Hr.
  by rewrite (memcpy_oob (data b)) by lia.
Qed.

Lemma circular_write_appends_witness :
  (exists b', write (mkBuffer [0; 0; 0; 1; 2] 5 3 1) [7; 8; 9; 6; 5] 5 = Ok (b', 4) /\ inv b' /\ contents b' = [1; 7; 8; 9; 6]) /\
  write (mkBuffer [3; 0; 0; 1; 2] 5 3 3) [9] 1 = Fault.
Proof.
  split.
  - refine (proj1 (circular_write_appends (mkBuffer [0; 0; 0; 1; 2] 5 3 1) [7; 8; 9; 6; 5] 5 _ _) _);
      [|simpl; lia|simpl; lia]. split_and!; simpl; (lia || reflexivity).
  - refine (proj2 (circular_write_appends (mkBuffer [3; 0; 0; 1; 2] 5 3 3) [9] 1 _ _) _);
      [|simpl; lia|simpl; lia]. split_and!; simpl; (lia || reflexivity).
Defined.

End CircularBuffer.
