(* ===== verification/MinHeap.v ===== *)
(** * The binary min-heap of sleeping processes ([kernel/utils/min_heap.h], [min_heap.hxx])

    The heap is its array [elements] and the number [count] of live cells; elements are
    compared through their key, as [Scheduler::asleep_process] is through [end_tick].
    The theorems show that both operations terminate, keep the heap order, and that
    [delete_min] hands the elements out in order. *)

From stdpp Require Import base tactics numbers list sorting.
From S2P Require Import Prelude.
Open Scope Z_scope.

(** Parents and children are related by division: let [lia] see it. *)
Ltac Zify.zify_post_hook ::= Z.to_euclidean_division_equations.

Module MinHeap.
Section heap.
Context {T : Type} (key : T -> Z).

Record heap := mkHeap { elements : list T; count : Z; capacity : Z }.

(** [#define ERR_EL (uint)-1]. *)
Definition ERR_EL : Z := UINT_MAX.

(** [MinHeap::parent]. *)
Definition parent (i : Z) : Z := (i -u 1) / 2.

(** [MinHeap::left]. *)
Definition left (count i : Z) : Z :=
  let l := u32 (2 * i + 1) in if l <? count then l else ERR_EL.

(** [MinHeap::right]. *)
Definition right (count i : Z) : Z :=
  let r := u32 (2 * i + 2) in if r <? count then r else ERR_EL.

Definition at_ (el : list T) (i : Z) : res T := deref (el !! Z.to_nat i).

(** [T tmp = elements[i]; elements[i] = elements[m]; elements[m] = tmp;] *)
Definition swap (el : list T) (i m : Z) : res (list T) :=
  a ← at_ el i;
  b ← at_ el m;
  Ok (<[Z.to_nat m := a]> (<[Z.to_nat i := b]> el)).

(** [c != ERR_EL && elements[c] < elements[i] ? c : i]. *)
Definition smaller (el : list T) (c i : Z) : res Z :=
  if c =? ERR_EL then Ok i
  else
    a ← at_ el c;
    b ← at_ el i;
    Ok (if key a <? key b then c else i).

(** [MinHeap::min_heapify]. *)
Fixpoint min_heapify (fuel : nat) (count : Z) (el : list T) (i : Z) : res (list T) :=
  match fuel with
  | O => NoFuel
  | S fuel =>
      let l := left count i in
      let r := right count i in
      m ← smaller el l i;
      m ← smaller el r m;
      if m =? i then Ok el
      else
        el ← swap el i m;
        min_heapify fuel count el m
  end.

(** The loop of [insert]. *)
Fixpoint sift_up (fuel : nat) (el : list T) (cur p : Z) : res (list T) :=
  match fuel with
  | O => NoFuel
  | S fuel =>
      if cur =? 0 then Ok el
      else
        a ← at_ el p;
        b ← at_ el cur;
        if key b <? key a then
          el ← swap el cur p;
          sift_up fuel el p (parent p)
        else Ok el
  end.

(** A path from a leaf to the root, or back, visits each index at most once. *)
Definition enough (count : Z) : nat := S (Z.to_nat count).

(** [MinHeap::MinHeap]. *)
Definition new (cells : list T) (capacity : Z) : heap := mkHeap cells 0 capacity.

(** [MinHeap::insert]. *)
Definition insert (H : heap) (x : T) : res heap :=
  if count H =? capacity H then Panic
  else
    let el := <[Z.to_nat (count H) := x]> (elements H) in
    let count' := count H +u 1 in
    let cur := count' -u 1 in
    el ← sift_up (enough count') el cur (parent cur);
    Ok (mkHeap el count' (capacity H)).

(** [MinHeap::min]. *)
Definition min (H : heap) : res T :=
  if count H =? 0 then Panic else at_ (elements H) 0.

(** [MinHeap::delete_min]. *)
Definition delete_min (H : heap) : res (heap * T) :=
  if count H =? 0 then Panic
  else
    min ← at_ (elements H) 0;
    let count' := count H -u 1 in
    last ← at_ (elements H) count';
    let el := <[0%nat := last]> (elements H) in
    el ← min_heapify (enough count') count' el 0;
    Ok (mkHeap el count' (capacity H), min).

(** [MinHeap::empty]. *)
Definition empty (H : heap) : bool := count H =? 0.

(** [MinHeap::contains]. *)
Definition contains `{EqDecision T} (H : heap) (elem : T) : bool :=
  existsb (fun x => bool_decide (x = elem)) (take (Z.to_nat (count H)) (elements H)).

(** ** Heap order through the keys of the array *)

Definition K (el : list T) (i : Z) : Z :=
  match el !! Z.to_nat i with Some x => key x | None => 0 end.

Definition in_bounds (el : list T) (n : Z) : Prop := 0 <= n <= Z.of_nat (length el) /\ n < 2147483648.

Definition ordered (el : list T) (n : Z) : Prop :=
  forall i, 0 < i < n -> K el ((i - 1) / 2) <= K el i.

(** Ordered, except possibly between [c] and its parent. *)
Definition ordered_up (el : list T) (n c : Z) : Prop :=
  (forall i, 0 < i < n -> i <> c -> K el ((i - 1) / 2) <= K el i) /\
  (forall i, 0 < i < n -> (i - 1) / 2 = c -> 0 < c -> K el ((c - 1) / 2) <= K el i).

(** Ordered, except possibly between [c] and its children. *)
Definition ordered_down (el : list T) (n c : Z) : Prop :=
  (forall i, 0 < i < n -> (i - 1) / 2 <> c -> K el ((i - 1) / 2) <= K el i) /\
  (forall i, 0 < i < n -> (i - 1) / 2 = c -> 0 < c -> K el ((c - 1) / 2) <= K el i).

(** The live elements, in array order. *)
Definition live (el : list T) (n : Z) : list T := take (Z.to_nat n) el.

Lemma at_live el n i : in_bounds el n -> 0 <= i < n -> exists x, at_ el i = Ok x /\ el !! Z.to_nat i = Some x /\ K el i = key x.
Proof.
  intros [Hn _] Hi. destruct (lookup_lt_is_Some_2 el (Z.to_nat i)) as [x Hx]; [lia|].
  exists x. unfold at_, K. by rewrite Hx.
Qed.

Lemma insert_perm (l : list T) (i : nat) x y :
  l !! i = Some x -> y :: l ≡ₚ x :: <[i := y]> l.
Proof.
  intros Hi. pose proof (lookup_lt_Some _ _ _ Hi) as Hl.
  rewrite (insert_take_drop l i y) by done. rewrite <- (take_drop_middle l i x Hi) at 1.
  rewrite <- !Permutation_middle. apply Permutation_swap.
Qed.

Lemma swap_perm (l : list T) (i j : nat) x y :
  l !! i = Some x -> l !! j = Some y -> <[j := x]> (<[i := y]> l) ≡ₚ l.
Proof.
  intros Hi Hj. destruct (decide (i = j)) as [->|Hne].
  - simplify_eq. by rewrite list_insert_insert_eq, list_insert_id.
  - apply (Permutation_cons_inv (a := y)). symmetry.
    rewrite (insert_perm l i x y Hi).
    by rewrite (insert_perm (<[i := y]> l) j y x) by by rewrite list_lookup_insert_ne.
Qed.

(** One exchange inside the live part: what it does to the keys, and that it only permutes. *)
Lemma swap_spec el n i m :
  in_bounds el n -> 0 <= i < n -> 0 <= m < n ->
  exists el', swap el i m = Ok el' /\ length el' = length el /\ live el' n ≡ₚ live el n /\
    K el' i = K el m /\ K el' m = K el i /\
    (forall j, 0 <= j -> j <> i -> j <> m -> K el' j = K el j).
Proof.
  intros Hb Hi Hm. destruct (at_live el n i Hb Hi) as (a & Ha & Hla & HKa).
  destruct (at_live el n m Hb Hm) as (b & Hb' & Hlb & HKb). destruct Hb as [Hn Hn'].
  unfold swap. rewrite Ha, Hb'. run. eexists. split; [done|].
  rewrite !length_insert. split; [done|]. split; [|split_and!].
  - unfold live. rewrite !take_insert_lt by lia. apply swap_perm; by rewrite lookup_take_lt by lia.
  - unfold K. destruct (decide (i = m)) as [->|Hne].
    + rewrite list_lookup_insert_eq by (rewrite length_insert; lia). by rewrite Hla.
    + rewrite list_lookup_insert_ne, list_lookup_insert_eq by lia. by rewrite Hlb.
  - unfold K. rewrite list_lookup_insert_eq by (rewrite length_insert; lia). by rewrite Hla.
  - intros j Hj Hji Hjm. unfold K. by rewrite !list_lookup_insert_ne by lia.
Qed.

Lemma parent_spec i : 0 < i < 2147483648 -> parent i = (i - 1) / 2.
Proof. intros. unfold parent. by rewrite u32_id by (unfold is_u32; lia). Qed.

Lemma sift_up_spec fuel el n cur :
  in_bounds el n -> 0 <= cur < n -> ordered_up el n cur -> (Z.to_nat cur < fuel)%nat ->
  exists el', sift_up fuel el cur (parent cur) = Ok el' /\ length el' = length el /\
    live el' n ≡ₚ live el n /\ ordered el' n.
Proof.
  revert el cur. induction fuel as [|fuel IH]; intros el cur Hb Hc [Ho1 Ho2] Hf; [lia|]. simpl.
  destruct (Z.eqb_spec cur 0) as [->|Hc0].
  { exists el. split_and!; [done..|]. intros i Hi. apply Ho1; lia. }
  rewrite parent_spec by (destruct Hb; lia). set (p := (cur - 1) / 2).
  assert (0 <= p < cur) as Hp by (unfold p; lia).
  destruct (at_live el n p Hb ltac:(lia)) as (a & -> & _ & HKa).
  destruct (at_live el n cur Hb Hc) as (b & -> & _ & HKb). run. rewrite <- HKa, <- HKb.
  destruct (Z.ltb_spec (K el cur) (K el p)) as [Hlt|Hge].
  - destruct (swap_spec el n cur p Hb Hc ltac:(lia)) as (el1 & -> & Hl1 & Hp1 & Hk1 & Hk2 & Hk3). run.
    destruct (IH el1 p) as (el2 & -> & Hl2 & Hp2 & Ho).
    + unfold in_bounds in *. by rewrite Hl1.
    + lia.
    + split.
      * intros i Hi Hne. destruct (decide (i = cur)) as [->|Hic]; [fold p; lia|].
        rewrite (Hk3 i) by lia. pose proof (Ho1 i Hi Hic) as Hi1.
        destruct (decide ((i - 1) / 2 = cur)) as [Hpc|Hpc].
        { rewrite Hpc, Hk1. apply (Ho2 i Hi Hpc). lia. }
        destruct (decide ((i - 1) / 2 = p)) as [Hpp|Hpp]; [rewrite Hpp in *; lia|].
        rewrite Hk3 by lia. done.
      * intros i Hi Hpi Hp0. rewrite (Hk3 ((p - 1) / 2)) by lia.
        assert (K el ((p - 1) / 2) <= K el p) by (apply Ho1; lia).
        destruct (decide (i = cur)) as [->|Hic]; [lia|].
        rewrite (Hk3 i) by lia. pose proof (Ho1 i Hi Hic) as Hi1. rewrite Hpi in Hi1. lia.
    + lia.
    + exists el2. split_and!; [done|congruence|by rewrite Hp2|done].
  - exists el. split_and!; [done..|]. intros i Hi. destruct (decide (i = cur)) as [->|]; [done|]. by apply Ho1.
Qed.

(** The index of the smallest of [i] and its live children. *)
Lemma smallest_spec el n i :
  in_bounds el n -> 0 <= i < n ->
  exists m, (m ← smaller el (left n i) i; smaller el (right n i) m) = Ok m /\ 0 <= m < n /\
    (m = i \/ (m - 1) / 2 = i /\ i < m) /\ K el m <= K el i /\
    (forall j, 0 < j < n -> (j - 1) / 2 = i -> K el m <= K el j) /\
    (m <> i -> K el m < K el i).
Proof.
  intros Hb Hi. assert (n < 2147483648) as Hn by apply Hb.
  unfold left, right. rewrite !u32_id by (unfold is_u32; lia).
  assert (forall m, 0 <= m < n -> forall c, 0 <= c < n ->
    smaller el c m = Ok (if K el c <? K el m then c else m)) as Hsm.
  { intros m Hm c Hc. unfold smaller, ERR_EL, UINT_MAX. destruct (Z.eqb_spec c 4294967295); [lia|].
    destruct (at_live el n c Hb Hc) as (a & -> & _ & ->). destruct (at_live el n m Hb Hm) as (b & -> & _ & ->). done. }
  assert (forall m, smaller el ERR_EL m = Ok m) as Herr by done.
  assert (forall j, 0 < j < n -> (j - 1) / 2 = i -> j = 2 * i + 1 \/ j = 2 * i + 2) as Hch by (intros; lia).
  destruct (Z.ltb_spec (2 * i + 1) n) as [Hl|Hl].
  - rewrite Hsm by lia. run.
    destruct (Z.ltb_spec (2 * i + 2) n) as [Hr|Hr].
    + rewrite Hsm by (bool_to_prop; lia). eexists. split; [done|].
      destruct (Z.ltb_spec (K el (2 * i + 1)) (K el i)); bool_to_prop;
        (split_and!; [lia|lia|lia|lia| |lia]; intros j Hj Hpj; destruct (Hch j Hj Hpj) as [-> | ->]; lia).
    + rewrite Herr. eexists. split; [done|]. bool_to_prop;
        (split_and!; [lia|lia|lia|lia| |lia]; intros j Hj Hpj; destruct (Hch j Hj Hpj) as [-> | ->]; lia).
  - rewrite Herr. run. destruct (Z.ltb_spec (2 * i + 2) n); [lia|]. rewrite Herr.
    exists i. split_and!; [done|lia|lia|by left|lia| |done]. intros j Hj Hpj. destruct (Hch j Hj Hpj); lia.
Qed.

Lemma min_heapify_spec fuel el n i :
  in_bounds el n -> 0 <= i < n -> ordered_down el n i -> (Z.to_nat (n - i) <= fuel)%nat ->
  exists el', min_heapify fuel n el i = Ok el' /\ length el' = length el /\
    live el' n ≡ₚ live el n /\ ordered el' n.
Proof.
  revert el i. induction fuel as [|fuel IH]; intros el i Hb Hi [Ho1 Ho2] Hf; [lia|]. simpl.
  destruct (smallest_spec el n i Hb Hi) as (m & Hm & Hmn & Hmi & Hmk & Hmc & Hms).
  destruct (smaller el (left n i) i) as [m1| | |]; try done. run. run_in Hm. rewrite Hm. run.
  destruct (Z.eqb_spec m i) as [->|Hne].
  - exists el. split_and!; [done..|]. intros j Hj.
    destruct (decide ((j - 1) / 2 = i)) as [He|]; [rewrite He; by apply Hmc|by apply Ho1].
  - destruct Hmi as [?|[Hpm Him]]; [done|].
    destruct (swap_spec el n i m Hb Hi Hmn) as (el1 & -> & Hl1 & Hp1 & Hk1 & Hk2 & Hk3). run.
    destruct (IH el1 m) as (el2 & -> & Hl2 & Hp2 & Ho).
    + unfold in_bounds in *. by rewrite Hl1.
    + lia.
    + split.
      * intros j Hj Hpj. destruct (decide (j = m)) as [->|Hjm]; [rewrite Hpm; lia|].
        destruct (decide ((j - 1) / 2 = i)) as [He|He].
        { rewrite He, Hk1, (Hk3 j) by lia. by apply Hmc. }
        rewrite (Hk3 ((j - 1) / 2)) by lia.
        destruct (decide (j = i)) as [->|Hji]; [|rewrite (Hk3 j) by lia; by apply Ho1].
        rewrite Hk1. apply Ho2; lia.
      * intros j Hj Hpj Hm0. rewrite Hpm, Hk1, (Hk3 j) by lia.
        specialize (Ho1 j Hj). rewrite Hpj in Ho1. apply Ho1. lia.
    + lia.
    + exists el2. split_and!; [done|congruence|by rewrite Hp2|done].
Qed.

Lemma root_minimal el n i : ordered el n -> 0 <= i < n -> K el 0 <= K el i.
Proof.
  intros Ho. induction i as [i IH] using (well_founded_induction (Z.lt_wf 0)). intros Hi.
  destruct (decide (i = 0)) as [->|Hne]; [done|].
  transitivity (K el ((i - 1) / 2)); [apply IH; lia|apply Ho; lia].
Qed.

(** ** The heap as a priority queue *)

Definition inv (H : heap) : Prop :=
  Z.of_nat (length (elements H)) = capacity H /\ 0 <= count H <= capacity H /\
  capacity H < 2147483648 /\ ordered (elements H) (count H).

(** The elements in the heap, in no particular order. *)
Definition contents (H : heap) : list T := live (elements H) (count H).

Lemma insert_ordered_up el n x :
  in_bounds el (n + 1) -> 0 <= n -> ordered el n -> ordered_up (<[Z.to_nat n := x]> el) (n + 1) n.
Proof.
  intros Hb Hn Ho.
  assert (forall i, 0 <= i -> i <> n -> K (<[Z.to_nat n := x]> el) i = K el i) as Hk.
  { intros i Hi Hne. unfold K. by rewrite list_lookup_insert_ne by lia. }
  split; intros i Hi; [intros Hne|intros Hp H0; lia]. rewrite !Hk by lia. apply Ho. lia.
Qed.

Lemma insert_spec H x :
  inv H -> count H < capacity H ->
  exists H', insert H x = Ok H' /\ inv H' /\ contents H' ≡ₚ x :: contents H /\
    count H' = count H + 1 /\ capacity H' = capacity H.
Proof.
  intros (Hl & Hc & Hcap & Ho) Hlt. unfold insert.
  destruct (Z.eqb_spec (count H) (capacity H)); [lia|].
  rewrite (u32_id (count H + 1)), u32_id by (unfold is_u32; rewrite ?u32_id by (unfold is_u32; lia); lia).
  replace (count H + 1 - 1) with (count H) by lia.
  set (el := <[Z.to_nat (count H) := x]> (elements H)).
  assert (length el = length (elements H)) as Hel by (unfold el; by rewrite length_insert).
  destruct (sift_up_spec (enough (count H + 1)) el (count H + 1) (count H))
    as (el' & -> & Hl' & Hp & Ho'); [split; lia|lia| |unfold enough; lia|].
  { apply insert_ordered_up; [split; lia|lia|done]. }
  run. eexists. split; [done|]. unfold inv. split_and!; simpl; [|lia|lia|lia|done| |done|done].
  - congruence.
  - unfold contents. simpl. rewrite Hp. unfold live, el.
    replace (Z.to_nat (count H + 1)) with (S (Z.to_nat (count H))) by lia.
    rewrite (take_S_r _ _ x), take_insert_ge by (lia || apply list_lookup_insert_eq; lia).
    by rewrite Permutation_app_comm.
Qed.

Lemma min_spec H :
  inv H -> 0 < count H ->
  exists x, min H = Ok x /\ x ∈ contents H /\ Forall (fun y => key x <= key y) (contents H).
Proof.
  intros (Hl & Hc & Hcap & Ho) Hpos. unfold min. destruct (Z.eqb_spec (count H) 0); [lia|].
  destruct (at_live (elements H) (count H) 0) as (x & -> & Hx & HK); [split; lia|lia|].
  exists x. split; [done|]. unfold contents, live. split.
  - apply list_elem_of_lookup. exists 0%nat. rewrite lookup_take_lt by lia. by apply Hx.
  - apply Forall_lookup. intros i y Hy. apply lookup_take_Some in Hy as [Hy Hi].
    pose proof (root_minimal (elements H) (count H) (Z.of_nat i) Ho ltac:(lia)) as Hr.
    unfold K in *. rewrite Nat2Z.id, Hy in Hr. by rewrite HK in Hr.
Qed.

Lemma delete_ordered_down el n y :
  in_bounds el (n + 1) -> 0 < n -> ordered el (n + 1) -> ordered_down (<[0%nat := y]> el) n 0.
Proof.
  intros Hb Hn Ho.
  assert (forall i, 0 < i -> K (<[0%nat := y]> el) i = K el i) as Hk.
  { intros i Hi. unfold K. by rewrite list_lookup_insert_ne by lia. }
  split; intros i Hi; [|intros; lia]. intros Hp. rewrite !Hk by lia. apply Ho. lia.
Qed.

Lemma delete_min_spec H :
  inv H -> 0 < count H ->
  exists H' x, delete_min H = Ok (H', x) /\ inv H' /\ contents H ≡ₚ x :: contents H' /\
    Forall (fun y => key x <= key y) (contents H) /\
    count H' = count H - 1 /\ capacity H' = capacity H.
Proof.
  intros Hinv Hpos. destruct (min_spec H Hinv Hpos) as (x & Hmin & _ & Hle).
  destruct Hinv as (Hl & Hc & Hcap & Ho). unfold delete_min, min in *.
  destruct (Z.eqb_spec (count H) 0) as [|Hne]; [lia|]. rewrite Hmin. run.
  rewrite !u32_id by (unfold is_u32; lia). set (n := count H - 1).
  destruct (at_live (elements H) (count H) n) as (y & -> & Hy & _); [split; lia|lia|]. run.
  unfold at_ in Hmin. destruct (elements H !! Z.to_nat 0) as [x'|] eqn:Hx; [|done].
  injection Hmin as ->. simpl in Hx.
  set (el := <[0%nat := y]> (elements H)).
  assert (length el = length (elements H)) as Hel by (unfold el; by rewrite length_insert).
  assert (contents H ≡ₚ x :: live el n) as Hperm.
  { unfold contents, live, el. replace (Z.to_nat (count H)) with (S (Z.to_nat n)) by lia.
    rewrite (take_S_r _ _ y) by done. rewrite Permutation_app_comm. simpl.
    destruct (decide (n = 0)) as [Hn0|Hn0].
    - rewrite Hn0 in *. simpl in *. assert (x = y) as -> by congruence. done.
    - rewrite take_insert_lt by lia. apply insert_perm. by rewrite lookup_take_lt by lia. }
  assert (exists el', min_heapify (enough n) n el 0 = Ok el' /\ length el' = length el /\
    live el' n ≡ₚ live el n /\ ordered el' n) as (el' & -> & Hl' & Hp & Ho').
  { destruct (decide (n = 0)) as [Hn0|Hn0].
    - exists el. rewrite Hn0. split_and!; [|done|done|intros i; lia]. done.
    - apply min_heapify_spec; [split; lia|lia| |unfold enough; lia].
      apply delete_ordered_down; [split; lia|lia|]. by replace (n + 1) with (count H) by lia. }
  run. eexists _, x. split; [done|]. unfold inv. split_and!; simpl; [congruence|lia|lia|lia|done| |done|done|done].
  unfold contents at 2. simpl. by rewrite Hp.
Qed.

(** [while (!empty()) delete_min();], the order in which sleeping processes wake up. *)
Fixpoint drain (fuel : nat) (H : heap) : res (list T) :=
  if empty H then Ok []
  else
    match fuel with
    | O => NoFuel
    | S fuel => '(H, x) ← delete_min H; rest ← drain fuel H; Ok (x :: rest)
    end.

Lemma drain_spec fuel H :
  inv H -> (Z.to_nat (count H) <= fuel)%nat ->
  exists xs, drain fuel H = Ok xs /\ xs ≡ₚ contents H /\ StronglySorted (fun a b => key a <= key b) xs.
Proof.
  revert H. induction fuel as [|fuel IH]; intros H Hinv Hf; simpl; unfold empty.
  - destruct (Z.eqb_spec (count H) 0) as [H0|]; [|destruct Hinv; lia].
    exists []. unfold contents, live. rewrite H0. split_and!; [done..|constructor].
  - destruct (Z.eqb_spec (count H) 0) as [H0|].
    { exists []. unfold contents, live. rewrite H0. split_and!; [done..|constructor]. }
    destruct (delete_min_spec H) as (H' & x & -> & Hinv' & Hp & Hle & Hc & _); [done|destruct Hinv; lia|]. run.
    destruct (IH H' Hinv') as (xs & -> & Hxs & Hs); [lia|]. run.
    exists (x :: xs). split_and!; [done|by rewrite Hp, Hxs|].
    constructor; [done|]. rewrite Hp in Hle. inversion Hle; subst. by rewrite Hxs.
Qed.

(** A run of insertions. *)
Fixpoint insert_all (H : heap) (xs : list T) : res heap :=
  match xs with [] => Ok H | x :: xs => H ← insert H x; insert_all H xs end.

Lemma insert_all_spec xs H :
  inv H -> count H + Z.of_nat (length xs) <= capacity H ->
  exists H', insert_all H xs = Ok H' /\ inv H' /\ contents H' ≡ₚ xs ++ contents H /\
    count H' = count H + Z.of_nat (length xs) /\ capacity H' = capacity H.
Proof.
  revert H. induction xs as [|x xs IH]; intros H Hinv Hc; simpl in *.
  - exists H. split_and!; try done. lia.
  - destruct (insert_spec H x) as (H1 & -> & Hi1 & Hp1 & Hc1 & Hk1); [done|lia|]. run.
    destruct (IH H1) as (H2 & -> & Hi2 & Hp2 & Hc2 & Hk2); [done|lia|].
    exists H2. split_and!; [done|done| |lia|lia].
    rewrite Hp2, Hp1. apply Permutation_sym, Permutation_middle.
Qed.

End heap.
Arguments heap : clear implicits.

(** [MinHeap::insert] on a heap with room terminates, keeps the array heap-ordered,
    and adds exactly the new element; on a full heap it stops in [irrecoverable_error]. *)
Theorem heap_insert_ok {T} (key : T -> Z) (H : heap T) (x : T) :
  inv key H ->
  (count H < capacity H ->
    exists H', insert key H x = Ok H' /\ inv key H' /\ contents H' ≡ₚ x :: contents H) /\
  (count H = capacity H -> insert key H x = Panic).
Proof.
  intros Hinv. split.
  - intros Hlt. destruct (insert_spec key H x Hinv Hlt) as (H' & ? & ? & ? & _). by exists H'.
  - intros Heq. unfold insert. by rewrite Heq, Z.eqb_refl.
Qed.

Definition sample : heap Z := mkHeap [1; 4; 3; 0] 3 4.

Lemma sample_inv : inv id sample.
Proof.
  unfold inv. split_and!; simpl; try lia. intros i Hi. assert (i = 1 \/ i = 2) as [-> | ->] by lia; vm_compute; discriminate.
Qed.

Lemma heap_insert_ok_witness :
  exists H', insert id sample 2 = Ok H' /\ inv id H' /\ contents H' ≡ₚ [2; 1; 4; 3].
Proof. exact (proj1 (heap_insert_ok id sample 2 sample_inv) eq_refl). Defined.

(** [MinHeap::delete_min] on a non-empty heap terminates, returns an element whose
    key is minimal, removes exactly that element and keeps the order; on an empty heap it
    stops in [irrecoverable_error]. *)
Theorem heap_delete_min_ok {T} (key : T -> Z) (H : heap T) :
  inv key H ->
  (0 < count H ->
    exists H' x, delete_min key H = Ok (H', x) /\ inv key H' /\ contents H ≡ₚ x :: contents H' /\
      Forall (fun y => key x <= key y) (contents H)) /\
  (count H = 0 -> delete_min key H = Panic).
Proof.
  intros Hinv. split.
  - intros Hlt. destruct (delete_min_spec key H Hinv Hlt) as (H' & x & ? & ? & ? & ? & _). by exists H', x.
  - intros Heq. unfold delete_min. by rewrite Heq.
Qed.

Lemma heap_delete_min_ok_witness :
  exists H' x, delete_min id sample = Ok (H', x) /\ inv id H' /\ [1; 4; 3] ≡ₚ x :: contents H' /\
    Forall (fun y => x <= y) [1; 4; 3].
Proof. exact (proj1 (heap_delete_min_ok id sample sample_inv) eq_refl). Defined.

(** Claim C16.  Draining the heap sorts: inserting any elements that fit and then taking the
    minimum until the heap is empty terminates and yields a permutation of them in ascending
    order of key. *)
Theorem heap_drains_sorted {T} (key : T -> Z) (cells xs : list T) (cap : Z) :
  Z.of_nat (length cells) = cap -> cap < 2147483648 -> Z.of_nat (length xs) <= cap ->
  exists H ys, insert_all key (new cells cap) xs = Ok H /\ drain key (length xs) H = Ok ys /\
    ys ≡ₚ xs /\ StronglySorted (fun a b => key a <= key b) ys.
Proof.
  intros Hl Hc Hx.
  assert (inv key (new cells cap)) as Hinv by (unfold inv; split_and!; simpl; try lia; intros i; simpl; lia).
  destruct (insert_all_spec key xs _ Hinv) as (H & Hins & Hi & Hp & Hn & _); [simpl; lia|].
  simpl in Hn, Hp. unfold contents in Hp at 2. simpl in Hp.
  destruct (drain_spec key (length xs) H Hi) as (ys & Hdr & Hy & Hs); [lia|].
  exists H, ys. split_and!; [done|done| |done]. rewrite Hy, Hp. unfold live. simpl. by rewrite app_nil_r.
Qed.

Lemma heap_drains_sorted_witness :
  exists H ys, insert_all id (new [0; 0; 0; 0] 4) [5; 2; 9; 2] = Ok H /\ drain id 4 H = Ok ys /\
    ys ≡ₚ [5; 2; 9; 2] /\ StronglySorted (fun a b => a <= b) ys.
Proof. refine (heap_drains_sorted id [0; 0; 0; 0] [5; 2; 9; 2] 4 _ _ _); simpl; (lia || reflexivity). Defined.

End MinHeap.
