(* ===== verification/BST.v ===== *)
(** * The kernel's binary search tree ([kernel/utils/BST.h], [BST.hxx])

    A tree owns its nodes and no pointer of the source outlives the call that computed it,
    so the tree is an inductive type and a [Node*] is the path from the root to the node;
    the [Node**] that [find_node] returns is the link at the end of the same path.  The
    in-order sequence of the elements is the abstraction every operation is related to. *)

From stdpp Require Import base tactics numbers list sets sorting.
From S2P Require Import Prelude.
Open Scope Z_scope.

Module BST.

(** [struct Node]; [Leaf] is a null link. *)
Inductive tree (T : Type) : Type :=
| Leaf
| Node (left : tree T) (data : T) (right : tree T).
Arguments Leaf {T}.
Arguments Node {T} left data right.

#[export] Instance tree_eq_dec {T} `{EqDecision T} : EqDecision (tree T).
Proof. solve_decision. Defined.

(** A node pointer: the links to follow from the root. *)
Inductive dir := L | R.
Definition path := list dir.

Section tree.
Context {T : Type}.

Fixpoint subtree (t : tree T) (p : path) {struct p} : tree T :=
  match p, t with
  | [], _ => t
  | _, Leaf => Leaf
  | L :: p, Node l _ _ => subtree l p
  | R :: p, Node _ _ r => subtree r p
  end.

(** Store through the link at [p]. *)
Fixpoint put (t : tree T) (p : path) (s : tree T) {struct p} : tree T :=
  match p, t with
  | [], _ => s
  | _, Leaf => Leaf
  | L :: p, Node l d r => Node (put l p s) d r
  | R :: p, Node l d r => Node l d (put r p s)
  end.

Fixpoint inorder (t : tree T) : list T :=
  match t with Leaf => [] | Node l d r => inorder l ++ d :: inorder r end.

Fixpoint nodes (t : tree T) : nat :=
  match t with Leaf => 0%nat | Node l _ r => S (nodes l + nodes r)%nat end.

Section ops.
Context (compare_func : T -> T -> Z).

(** [BST::add_node]. *)
Fixpoint add_node (t : tree T) (x : T) : tree T :=
  match t with
  | Leaf => Node Leaf x Leaf
  | Node l d r =>
      if 0 <=? compare_func d x then Node (add_node l x) d r else Node l d (add_node r x)
  end.

(** [BST::add]. *)
Definition add (t : tree T) (elem : T) : tree T := add_node t elem.

(** [BST::find_node]: the link to the first node met that compares equal. *)
Fixpoint find_node (t : tree T) (elem : T) : option path :=
  match t with
  | Leaf => None
  | Node l d r =>
      let cmp := compare_func d elem in
      if cmp =? 0 then Some []
      else if 0 <? cmp then cons L <$> find_node l elem
      else cons R <$> find_node r elem
  end.

(** [BST::find]. *)
Definition find (t : tree T) (elem : T) : option T :=
  match find_node t elem with
  | Some p => match subtree t p with Node _ d _ => Some d | Leaf => None end
  | None => None
  end.

(** The walk to the leftmost node of [extract_replacement]: its element, and the tree
    with that node replaced by its right child. *)
Fixpoint extract_min (l : tree T) (d : T) (r : tree T) : T * tree T :=
  match l with
  | Leaf => (d, r)
  | Node ll ld lr => let '(m, l') := extract_min ll ld lr in (m, Node l' d r)
  end.

(** [BST::extract_replacement], given the right child of the node. *)
Definition extract_replacement (right : tree T) : option (T * tree T) :=
  match right with Leaf => None | Node l d r => Some (extract_min l d r) end.

(** [BST::remove], the case where the root matches. *)
Definition remove_root (l r : tree T) : tree T :=
  match extract_replacement r with
  | Some (m, r') => Node l m r'
  | None => match l with Node _ _ _ => l | Leaf => Leaf end
  end.

(** [BST::remove], a match below the root. *)
Definition remove_match (l r : tree T) : tree T :=
  match l with
  | Node _ _ _ =>
      match extract_replacement r with
      | Some (m, r') => Node l m r'
      | None => l
      end
  | Leaf => match r with Node _ _ _ => r | Leaf => Leaf end
  end.

(** The descent of [BST::remove]. *)
Fixpoint remove_loop (t : tree T) (elem : T) : tree T * bool :=
  match t with
  | Leaf => (Leaf, false)
  | Node l d r =>
      let cmp := compare_func d elem in
      if cmp =? 0 then (remove_match l r, true)
      else if 0 <? cmp then let '(l', b) := remove_loop l elem in (Node l' d r, b)
      else let '(r', b) := remove_loop r elem in (Node l d r', b)
  end.

(** [BST::remove]. *)
Definition remove (t : tree T) (elem : T) : tree T * bool :=
  match t with
  | Leaf => (Leaf, false)
  | Node l d r =>
      let prev_cmp := compare_func d elem in
      if prev_cmp =? 0 then (remove_root l r, true)
      else if 0 <? prev_cmp then let '(l', b) := remove_loop l elem in (Node l' d r, b)
      else let '(r', b) := remove_loop r elem in (Node l d r', b)
  end.

(** [BST::destroy_node]: the nodes in the order in which they are deleted. *)
Fixpoint destroy_node (t : tree T) : list T :=
  match t with Leaf => [] | Node l d r => destroy_node l ++ [d] ++ destroy_node r end.

(** [BST::ensure_validity_aux]. *)
Fixpoint ensure_validity_aux (t : tree T) : res unit :=
  match t with
  | Leaf => Ok tt
  | Node l d r =>
      _ ← (match l with
           | Leaf => Ok tt
           | Node _ ld _ =>
               if compare_func d ld <? 0 then Panic else ensure_validity_aux l
           end);
      match r with
      | Leaf => Ok tt
      | Node _ rd _ =>
          if 0 <? compare_func d rd then
            if 0 <? compare_func d rd then Panic else ensure_validity_aux r
          else Ok tt
      end
  end.

(** [BST::ensure_validity]. *)
Definition ensure_validity (t : tree T) : res unit := ensure_validity_aux t.

End ops.

(** ** Paths *)

Lemma put_inorder t p :
  (exists d l r, subtree t p = Node l d r) ->
  exists A B, inorder t = A ++ inorder (subtree t p) ++ B /\
    forall s, inorder (put t p s) = A ++ inorder s ++ B.
Proof.
  revert t. induction p as [|[] p IH]; intros t (d & l & r & Hs).
  - exists [], []. simpl. split; [by rewrite app_nil_r|]. intros s. by rewrite app_nil_r.
  - destruct t as [|tl td tr]; [done|]. simpl in *.
    destruct (IH tl) as (A & B & Heq & Hput); [eauto|].
    exists A, (B ++ td :: inorder tr). split; [|intros s]; simpl.
    + by rewrite Heq, <- !app_assoc.
    + by rewrite Hput, <- !app_assoc.
  - destruct t as [|tl td tr]; [done|]. simpl in *.
    destruct (IH tr) as (A & B & Heq & Hput); [eauto|].
    exists (inorder tl ++ td :: A), B. split; [|intros s]; simpl.
    + by rewrite Heq, <- !app_assoc.
    + by rewrite Hput, <- !app_assoc.
Qed.

Lemma put_subtree t p s : (exists d l r, subtree t p = Node l d r) -> subtree (put t p s) p = s.
Proof.
  revert t. induction p as [|[] p IH]; intros t (d & l & r & Hs); [done|..];
    destruct t as [|tl td tr]; try done; simpl in *; apply IH; eauto.
Qed.

Lemma put_put t p s s' : put (put t p s) p s' = put t p s'.
Proof.
  revert t. induction p as [|[] p IH]; intros t; [done|..]; destruct t; simpl; by rewrite ?IH.
Qed.

(** ** Removal and the in-order sequence *)

Lemma extract_min_inorder l d r :
  let '(m, t') := extract_min l d r in m :: inorder t' = inorder (Node l d r).
Proof.
  revert d r. induction l as [|ll IHl ld lr _]; intros d r; simpl; [done|].
  specialize (IHl ld lr). destruct (extract_min ll ld lr) as [m l'] eqn:He. simpl in *.
  by rewrite <- IHl.
Qed.

Lemma extract_replacement_inorder r m r' :
  extract_replacement r = Some (m, r') -> inorder r = m :: inorder r'.
Proof.
  destruct r as [|l d r]; simpl; [done|]. intros [= He].
  pose proof (extract_min_inorder l d r) as H. by rewrite He in H.
Qed.

Lemma extract_replacement_None r : extract_replacement r = None -> r = Leaf.
Proof. by destruct r. Qed.

Lemma remove_root_inorder l r : inorder (remove_root l r) = inorder l ++ inorder r.
Proof.
  unfold remove_root. destruct (extract_replacement r) as [[m r']|] eqn:He.
  - apply extract_replacement_inorder in He. simpl. by rewrite He.
  - apply extract_replacement_None in He as ->. simpl. rewrite app_nil_r. by destruct l.
Qed.

Lemma remove_match_inorder l r : inorder (remove_match l r) = inorder l ++ inorder r.
Proof.
  unfold remove_match. destruct l; [by destruct r|].
  destruct (extract_replacement r) as [[m r']|] eqn:He.
  - apply extract_replacement_inorder in He. simpl. by rewrite He.
  - apply extract_replacement_None in He as ->. by rewrite app_nil_r.
Qed.

Lemma destroy_inorder t : destroy_node t = inorder t.
Proof. induction t as [|l IHl d r IHr]; simpl; [done|]. by rewrite IHl, IHr. Qed.

(** ** Search order *)

Section ordered.
Context (key : T -> Z).

Abbreviation le_key := (fun a b => key a <= key b).

Definition bst (t : tree T) : Prop := StronglySorted le_key (inorder t).

Lemma sorted_app (l1 l2 : list T) :
  StronglySorted le_key (l1 ++ l2) <->
  StronglySorted le_key l1 /\ StronglySorted le_key l2 /\ (forall a b, a ∈ l1 -> b ∈ l2 -> key a <= key b).
Proof.
  induction l1 as [|x l1 IH]; simpl.
  - split; [intros H; split_and!; [constructor|done|set_solver]|by intros (_ & ? & _)].
  - split.
    + inversion_clear 1 as [|? ? Hs Hf]. apply IH in Hs as (Hs1 & Hs2 & Hx).
      rewrite Forall_app in Hf. destruct Hf as [Hf1 Hf2]. split_and!; [by constructor|done|].
      intros a b [->|Ha]%elem_of_cons Hb; [|by apply Hx]. rewrite Forall_forall in Hf2. auto.
    + intros (Hs1 & Hs2 & Hx). inversion_clear Hs1 as [|? ? Hs Hf]. constructor.
      * apply IH. split_and!; [done..|]. intros a b Ha Hb. apply Hx; set_solver.
      * apply Forall_app. split; [done|]. apply Forall_forall. intros b Hb. apply Hx; set_solver.
Qed.

Lemma sorted_cons x l :
  StronglySorted le_key (x :: l) <-> StronglySorted le_key l /\ (forall b, b ∈ l -> key x <= key b).
Proof.
  split.
  - inversion_clear 1 as [|? ? Hs Hf]. rewrite Forall_forall in Hf. auto.
  - intros [Hs Hf]. constructor; [done|]. by apply Forall_forall.
Qed.

Lemma bst_node l d r :
  bst (Node l d r) <->
  bst l /\ bst r /\ (forall a, a ∈ inorder l -> key a <= key d) /\
  (forall b, b ∈ inorder r -> key d <= key b) /\
  (forall a b, a ∈ inorder l -> b ∈ inorder r -> key a <= key b).
Proof.
  unfold bst. simpl. rewrite sorted_app, sorted_cons. split.
  - intros (Hl & [Hr Hd] & Hx). split_and!; [done..| |done|]; intros; apply Hx; set_solver.
  - intros (Hl & Hr & H1 & H2 & H3). split_and!; [done..|].
    intros a b Ha [->|Hb]%elem_of_cons; auto.
Qed.

Lemma sorted_drop_mid A d B : StronglySorted le_key (A ++ d :: B) -> StronglySorted le_key (A ++ B).
Proof.
  rewrite !sorted_app, sorted_cons. intros (? & [? ?] & Hx). split_and!; [done..|].
  intros a b Ha Hb. apply Hx; set_solver.
Qed.

(** Where a key splits a sequence is determined by the elements. *)
Lemma split_unique (A B A' B' : list T) k :
  A ++ B = A' ++ B' ->
  (forall a, a ∈ A -> key a < k) -> (forall b, b ∈ B -> k <= key b) ->
  (forall a, a ∈ A' -> key a < k) -> (forall b, b ∈ B' -> k <= key b) ->
  A = A' /\ B = B'.
Proof.
  revert A'. induction A as [|a A IH]; intros [|a' A'] Heq HA HB HA' HB'; simpl in *; simplify_eq; [done|..].
  - exfalso. specialize (HA' a' ltac:(set_solver)). specialize (HB a' ltac:(set_solver)). lia.
  - exfalso. specialize (HA a ltac:(set_solver)). specialize (HB' a ltac:(set_solver)). lia.
  - destruct (IH A') as [-> ->]; try done; intros; set_solver.
Qed.

Context (compare_func : T -> T -> Z).
Context (compare_eq : forall a b, compare_func a b = 0 <-> key a = key b).
Context (compare_gt : forall a b, 0 < compare_func a b <-> key b < key a).

(** [add_node] puts the element before every element whose key is not smaller. *)
Lemma add_inorder t x :
  bst t ->
  exists A B, inorder t = A ++ B /\ inorder (add_node compare_func t x) = A ++ x :: B /\
    (forall a, a ∈ A -> key a < key x) /\ (forall b, b ∈ B -> key x <= key b).
Proof.
  induction t as [|l IHl d r IHr]; intros Hb; simpl.
  { exists [], []. split_and!; [done..|set_solver|set_solver]. }
  apply bst_node in Hb as (Hl & Hr & H1 & H2 & _).
  pose proof (compare_eq d x) as Heq. pose proof (compare_gt d x) as Hgt.
  destruct (Z.leb_spec 0 (compare_func d x)).
  - assert (key x <= key d) by lia.
    destruct (IHl Hl) as (A & B & HAB & Hadd & HA & HB).
    exists A, (B ++ d :: inorder r). simpl. rewrite HAB, Hadd, <- !app_assoc. split_and!; [done..|].
    intros b [Hb|[->|Hb]%elem_of_cons]%elem_of_app; [by apply HB|done|]. specialize (H2 b Hb). lia.
  - assert (key d < key x) by lia.
    destruct (IHr Hr) as (A & B & HAB & Hadd & HA & HB).
    exists (inorder l ++ d :: A), B. simpl. rewrite HAB, Hadd, <- !app_assoc. split_and!; [done..| |done].
    intros a [Ha|[->|Ha]%elem_of_cons]%elem_of_app; [|done|by apply HA]. specialize (H1 a Ha). lia.
Qed.

Lemma add_at t x A B :
  bst t -> inorder t = A ++ B ->
  (forall a, a ∈ A -> key a < key x) -> (forall b, b ∈ B -> key x <= key b) ->
  inorder (add_node compare_func t x) = A ++ x :: B.
Proof.
  intros Hb Heq HA HB. destruct (add_inorder t x Hb) as (A' & B' & Heq' & -> & HA' & HB').
  rewrite Heq in Heq'. destruct (split_unique _ _ _ _ (key x) Heq') as [-> ->]; done.
Qed.

Lemma find_node_Some t x p :
  find_node compare_func t x = Some p -> exists d l r, subtree t p = Node l d r /\ key d = key x.
Proof.
  revert p. induction t as [|l IHl d r IHr]; intros p; simpl; [done|].
  pose proof (compare_eq d x) as Heq.
  destruct (Z.eqb_spec (compare_func d x) 0).
  - intros [= <-]. simpl. exists d, l, r. tauto.
  - destruct (0 <? compare_func d x).
    + destruct (find_node compare_func l x) as [q|]; [|done]. intros [= <-]. by apply IHl.
    + destruct (find_node compare_func r x) as [q|]; [|done]. intros [= <-]. by apply IHr.
Qed.

Lemma find_node_None t x :
  bst t -> find_node compare_func t x = None -> forall d, d ∈ inorder t -> key d <> key x.
Proof.
  induction t as [|l IHl d r IHr]; intros Hb; simpl; [set_solver|].
  apply bst_node in Hb as (Hl & Hr & H1 & H2 & _).
  pose proof (compare_eq d x) as Heq. pose proof (compare_gt d x) as Hgt.
  destruct (Z.eqb_spec (compare_func d x) 0); [done|].
  destruct (Z.ltb_spec 0 (compare_func d x)).
  - destruct (find_node compare_func l x) as [q|]; [done|].
    intros _ d' [Hd|[->|Hd]%elem_of_cons]%elem_of_app; [by apply IHl|lia|]. specialize (H2 d' Hd). lia.
  - destruct (find_node compare_func r x) as [q|]; [done|].
    intros _ d' [Hd|[->|Hd]%elem_of_cons]%elem_of_app; [|lia|by apply IHr]. specialize (H1 d' Hd). lia.
Qed.

Lemma remove_loop_spec t x :
  bst t ->
  match remove_loop compare_func t x with
  | (t', true) => exists A d B, inorder t = A ++ d :: B /\ inorder t' = A ++ B /\ key d = key x
  | (t', false) => t' = t /\ forall d, d ∈ inorder t -> key d <> key x
  end.
Proof.
  induction t as [|l IHl d r IHr]; intros Hb; simpl; [split; [done|set_solver]|].
  apply bst_node in Hb as (Hl & Hr & H1 & H2 & _).
  pose proof (compare_eq d x) as Heq. pose proof (compare_gt d x) as Hgt.
  destruct (Z.eqb_spec (compare_func d x) 0).
  { exists (inorder l), d, (inorder r). rewrite remove_match_inorder. tauto. }
  destruct (Z.ltb_spec 0 (compare_func d x)).
  - specialize (IHl Hl). destruct (remove_loop compare_func l x) as [l' []].
    + destruct IHl as (A & d' & B & Hi & Hi' & Hk). exists A, d', (B ++ d :: inorder r). simpl.
      rewrite Hi, Hi', <- !app_assoc. done.
    + destruct IHl as [-> Hn]. split; [done|].
      intros d' [Hd|[->|Hd]%elem_of_cons]%elem_of_app; [by apply Hn|lia|]. specialize (H2 d' Hd). lia.
  - specialize (IHr Hr). destruct (remove_loop compare_func r x) as [r' []].
    + destruct IHr as (A & d' & B & Hi & Hi' & Hk). exists (inorder l ++ d :: A), d', B. simpl.
      rewrite Hi, Hi', <- !app_assoc. done.
    + destruct IHr as [-> Hn]. split; [done|].
      intros d' [Hd|[->|Hd]%elem_of_cons]%elem_of_app; [|lia|by apply Hn]. specialize (H1 d' Hd). lia.
Qed.

(** Below the root, [remove] is [remove_loop]; at the root both delete the same element. *)
Lemma bst_remove_spec t x :
  bst t ->
  match remove compare_func t x with
  | (t', true) => exists A d B, inorder t = A ++ d :: B /\ inorder t' = A ++ B /\ key d = key x
  | (t', false) => t' = t /\ forall d, d ∈ inorder t -> key d <> key x
  end.
Proof.
  intros Hb. pose proof (remove_loop_spec t x Hb) as Hloop.
  destruct t as [|l d r]; [split; [done|set_solver]|]. simpl in *.
  destruct (Z.eqb_spec (compare_func d x) 0); [|done].
  pose proof (compare_eq d x) as Heq. exists (inorder l), d, (inorder r).
  rewrite remove_root_inorder. tauto.
Qed.

Lemma add_bst t x : bst t -> bst (add_node compare_func t x).
Proof.
  intros Hb. destruct (add_inorder t x Hb) as (A & B & Heq & Hadd & HA & HB). unfold bst in *.
  rewrite Hadd. rewrite Heq in Hb. apply sorted_app in Hb as (HsA & HsB & Hx).
  apply sorted_app. split_and!; [done|by apply sorted_cons|].
  intros a b Ha [->|Hb]%elem_of_cons; [|by apply Hx]. specialize (HA a Ha). lia.
Qed.

End ordered.
End tree.

(** The search tree implements a sorted multiset: on a tree in search order, [add]
    inserts the element, [remove] deletes one element equal under the comparison and reports
    whether there was one, [find] succeeds exactly when one is present, and every operation
    keeps the search order. *)
Theorem bst_multiset {T} (cmp : T -> T -> Z) (key : T -> Z) (t : tree T) (x : T) :
  (forall a b, cmp a b = 0 <-> key a = key b) -> (forall a b, 0 < cmp a b <-> key b < key a) ->
  bst key t ->
  (bst key (add cmp t x) /\ inorder (add cmp t x) ≡ₚ x :: inorder t) /\
  (match remove cmp t x with
   | (t', true) => bst key t' /\ exists d, key d = key x /\ inorder t ≡ₚ d :: inorder t'
   | (t', false) => t' = t /\ Forall (fun d => key d <> key x) (inorder t)
   end) /\
  (match find cmp t x with
   | Some d => key d = key x /\ d ∈ inorder t
   | None => Forall (fun d => key d <> key x) (inorder t)
   end).
Proof.
  intros Heq Hgt Hb. split_and!.
  - by eapply add_bst.
  - destruct (add_inorder key cmp Heq Hgt t x Hb) as (A & B & -> & Hadd & _). unfold add. rewrite Hadd.
    symmetry. apply Permutation_middle.
  - pose proof (bst_remove_spec key cmp Heq Hgt t x Hb) as Hr. destruct (remove cmp t x) as [t' []].
    + destruct Hr as (A & d & B & Hi & Hi' & Hk). unfold bst in *. rewrite Hi in Hb. rewrite Hi, Hi'. split.
      * by eapply sorted_drop_mid.
      * exists d. split; [done|]. symmetry. apply Permutation_middle.
    + destruct Hr as [-> Hn]. split; [done|]. by apply Forall_forall.
  - unfold find. destruct (find_node cmp t x) as [p|] eqn:Hf.
    + destruct (find_node_Some key cmp Heq t x p Hf) as (d & l & r & Hs & Hk). rewrite Hs. split; [done|].
      destruct (put_inorder t p) as (A & B & Hi & _); [eauto|]. rewrite Hi, Hs. simpl. set_solver.
    + apply Forall_forall. by eapply find_node_None.
Qed.

Definition zcmp (a b : Z) : Z := if a =? b then 0 else if b <? a then 1 else -1.

Lemma zcmp_eq a b : zcmp a b = 0 <-> a = b.
Proof. unfold zcmp. bool_to_prop; lia. Qed.

Lemma zcmp_gt a b : 0 < zcmp a b <-> b < a.
Proof. unfold zcmp. bool_to_prop; lia. Qed.

Definition sample : tree Z := Node (Node Leaf 2 (Node Leaf 3 Leaf)) 5 (Node (Node Leaf 6 Leaf) 8 Leaf).

Lemma sample_bst : bst (fun z => z) sample.
Proof. unfold bst. simpl. repeat constructor; lia. Qed.

Lemma bst_multiset_witness :
  (bst (fun z => z) (add zcmp sample 4) /\ inorder (add zcmp sample 4) ≡ₚ 4 :: inorder sample) /\
  (bst (fun z => z) (fst (remove zcmp sample 5)) /\ snd (remove zcmp sample 5) = true).
Proof.
  split.
  - exact (proj1 (bst_multiset zcmp (fun z => z) sample 4 zcmp_eq zcmp_gt sample_bst)).
  - split; [|reflexivity].
    exact (proj1 (proj1 (proj2 (bst_multiset zcmp (fun z => z) sample 5 zcmp_eq zcmp_gt sample_bst)))).
Defined.

(** [ensure_validity] never looks below a right child: it recurses there only when
    the right child is already out of order, in which case it stops.  So it accepts every
    search tree, and it also accepts trees that are not. *)
Theorem ensure_validity_blind :
  (forall {T} (cmp : T -> T -> Z) (key : T -> Z) (t : tree T),
     (forall a b, 0 < cmp a b <-> key b < key a) -> (forall a b, cmp a b < 0 <-> key a < key b) ->
     bst key t -> ensure_validity cmp t = Ok tt) /\
  (forall r : tree Z, ensure_validity zcmp (Node Leaf 0 (Node r 0 Leaf)) = Ok tt) /\
  (exists t : tree Z, ensure_validity zcmp t = Ok tt /\ ~ bst (fun z => z) t).
Proof.
  split_and!.
  - intros T cmp key t Hgt Hlt. unfold ensure_validity. induction t as [|l IHl d r IHr]; intros Hb; [done|].
    apply bst_node in Hb as (Hl & Hr & H1 & H2 & _). cbn [ensure_validity_aux].
    assert ((match l with Leaf => Ok tt | Node _ ld _ => if cmp d ld <? 0 then Panic else ensure_validity_aux cmp l end) = Ok tt) as ->.
    { destruct l as [|ll ld lr]; [done|]. destruct (Z.ltb_spec (cmp d ld) 0) as [Hc|_]; [|by apply IHl].
      apply Hlt in Hc. specialize (H1 ld). simpl in H1. specialize (H1 ltac:(set_solver)). lia. }
    run. destruct r as [|rl rd rr]; [done|]. destruct (Z.ltb_spec 0 (cmp d rd)) as [Hc|_]; [|done].
    apply Hgt in Hc. specialize (H2 rd). simpl in H2. specialize (H2 ltac:(set_solver)). lia.
  - done.
  - exists (Node Leaf 0 (Node (Node Leaf (-5) Leaf) 0 Leaf)). split; [done|]. unfold bst. simpl.
    inversion_clear 1 as [|? ? _ Hf]. inversion_clear Hf. lia.
Qed.

End BST.
