(* ===== verification/MemTree.v ===== *)
(** * The heap allocator of a process ([kernel/core/Memtree.h], [Memtree.cpp])

    A [MemTree] is a search tree of address ranges ([allocation]s), used or free, ordered by
    start address.  Pages come from [sbrk] and go back through [free_page]: the allocator is
    written against the interface [PageOps], which [PageAlloc] implements.  The theorems show
    that the ranges stay pairwise disjoint, that an allocation is a range that overlaps no
    used range and changes no other, and that freeing releases exactly the given range. *)

From stdpp Require Import base tactics numbers list sets sorting.
From S2P Require Import Prelude BST.
Import BST.
Open Scope Z_scope.

Module MemTree.

(** ** Constants ([kernel/core/MemoryDefines.h]) *)

Definition PAGE_SIZE : Z := 4096.
Definition PAGE_PRESENT : Z := 1.
Definition PAGE_WRITE : Z := 2.
Definition PAGE_USER : Z := 4.
Definition PAGE_LAZY_ZERO : Z := 512.
Definition DEFAULT_K_POLICY : Z := Z.lor PAGE_WRITE PAGE_PRESENT.
Definition DEFAULT_U_POLICY : Z := Z.lor (Z.lor PAGE_WRITE PAGE_PRESENT) PAGE_USER.
Definition ADDR_PAGE (addr : Z) : Z := Z.shiftr addr 12.

(** ** Data ([kernel/core/RawMemory.h]) *)

Record page_info := mkInfo { flags : Z; policy : Z }.
Record hint_info := mkHint { hint : Z; is_mandatory : bool }.
Record allocation := mkAlloc { start : Z; end_ : Z; info : page_info; used : bool }.

#[export] Instance page_info_eq_dec : EqDecision page_info.
Proof. solve_decision. Defined.
#[export] Instance allocation_eq_dec : EqDecision allocation.
Proof. solve_decision. Defined.

Definition DEFAULT_HINT_INFO : hint_info := mkHint 0 false.

(** [allocation::is_similar_and_contiguous], asked of [a] with the argument [other]. *)
Definition is_similar_and_contiguous (a other : allocation) : bool :=
  ((start a =? end_ other) || (end_ a =? start other)) &&
  bool_decide (info a = info other) && Bool.eqb (used a) (used other).

(** ** The page interface *)

(** What the allocator calls: [sbrk] ([0] is the null pointer), [free_page(address, process)]
    and the copy of a moved block. *)
Class PageOps (P : Type) := {
  sbrk : P -> Z -> page_info -> hint_info -> res (P * Z);
  free_page : P -> Z -> res P;
  copy : P -> Z -> Z -> Z -> res P
}.

Abbreviation atree := (tree allocation).

(** The comparison the constructor passes to [BST]. *)
Definition compare_func (a b : allocation) : Z :=
  if start a =? start b then 0 else if start b <? start a then 1 else -1.

(** [MemTree::node_size]. *)
Definition node_size (d : allocation) : Z := end_ d -u start d.

(** [MemTree::find_free_block]. *)
Fixpoint find_free_block (current : atree) (size : Z) (h : hint_info) : option path :=
  match current with
  | Leaf => None
  | Node l d r =>
      if negb (used d) && (size <=? node_size d) &&
         ((hint h =? start d) || ((hint h <? start d) && negb (is_mandatory h)))
      then Some []
      else
        match (if hint h <? start d then find_free_block l size h else None) with
        | Some p => Some (L :: p)
        | None => cons R <$> find_free_block r size h
        end
  end.

(** [MemTree::shrink_block]. *)
Definition shrink_block (d : allocation) (size : Z) : allocation :=
  mkAlloc (start d) (end_ d -u size) (info d) (used d).

(** [MemTree::remove_node]: what the link to the node holds afterwards. *)
Definition remove_node (node : atree) : atree :=
  match node with
  | Leaf => Leaf
  | Node l _ r =>
      match l with
      | Node _ _ _ =>
          match extract_replacement r with
          | Some (successor, r') => Node l successor r'
          | None => l
          end
      | Leaf => r
      end
  end.

(** [MemTree::merge_node_with_free_successor]: the node with the leftmost node of its right
    subtree absorbed, or [None]. *)
Definition merge_node_with_free_successor (node : atree) : option atree :=
  match node with
  | Leaf => None
  | Node l d r =>
      match extract_replacement r with
      | None => None
      | Some (cur, r') =>
          if is_similar_and_contiguous cur d then
            Some (Node l (mkAlloc (start d) (end_ d +u node_size cur) (info d) (used d)) r')
          else None
      end
  end.

(** The walk to the rightmost node: its element, and the tree with that node replaced by its
    left child. *)
Fixpoint extract_max (l : atree) (d : allocation) (r : atree) : allocation * atree :=
  match r with
  | Leaf => (d, l)
  | Node rl rd rr => let '(m, r') := extract_max rl rd rr in (m, Node l d r')
  end.

Definition extract_predecessor (left : atree) : option (allocation * atree) :=
  match left with Leaf => None | Node l d r => Some (extract_max l d r) end.

(** [MemTree::merge_node_with_free_predecessor]. *)
Definition merge_node_with_free_predecessor (node : atree) : option atree :=
  match node with
  | Leaf => None
  | Node l d r =>
      match extract_predecessor l with
      | None => None
      | Some (cur, l') =>
          if is_similar_and_contiguous cur d then
            Some (Node l' (mkAlloc (start cur) (end_ d) (info d) (used d)) r)
          else None
      end
  end.

(** [while (f(node)) {}]; each round removes a node. *)
Fixpoint merge_loop (f : atree -> option atree) (fuel : nat) (node : atree) : atree :=
  match fuel with
  | O => node
  | S fuel => match f node with Some node' => merge_loop f fuel node' | None => node end
  end.

(** [MemTree::merge_free_node]. *)
Definition merge_free_node (node : atree) : atree :=
  let node := merge_loop merge_node_with_free_predecessor (nodes node) node in
  merge_loop merge_node_with_free_successor (nodes node) node.

(** Where [add_node] puts the new node. *)
Fixpoint add_path (t : atree) (x : allocation) : path :=
  match t with
  | Leaf => []
  | Node l d r => if 0 <=? compare_func d x then L :: add_path l x else R :: add_path r x
  end.

(** The element at a node pointer. *)
Definition node_at (t : atree) (p : path) : res allocation :=
  match subtree t p with Node _ d _ => Ok d | Leaf => Fault end.

(** Overwrite the element at a node pointer. *)
Definition set_at (t : atree) (p : path) (d : allocation) : atree :=
  match subtree t p with Node l _ r => put t p (Node l d r) | Leaf => t end.

Definition N_FREE_PAGES_THRESHOLD : Z := 2.

Inductive FreeState := FREE_OK | DOUBLE_FREE | NOT_FOUND.
Inductive ReallocState := REALLOC_OK | NOMEM | FAILED.

#[export] Instance FreeState_eq_dec : EqDecision FreeState.
Proof. solve_decision. Defined.

Definition page_up (a : Z) : Z := Z.ldiff (a +u (PAGE_SIZE - 1)) (PAGE_SIZE - 1).
Definition page_down (a : Z) : Z := Z.ldiff a (PAGE_SIZE - 1).

(** The addresses [free_node] hands to [free_page], in order. *)
Definition freed_arguments (aligned_start num_pages : Z) : list Z :=
  map (fun i => ADDR_PAGE (aligned_start +u Z.of_nat i)) (seq 0 (Z.to_nat num_pages)).

(** The tree part of [free_node] once it gives pages back: the block [d] at [p] loses the pages
    from [aligned_start] to [aligned_end]. *)
Definition cut_pages (t : atree) (p : path) (d : allocation) (aligned_start aligned_end num_pages : Z) : atree :=
  let ns := node_size d in
  if u32 (num_pages * PAGE_SIZE) =? ns then put t p (remove_node (subtree t p))
  else
    let part2_size := end_ d -u aligned_end in
    let t := if truthy part2_size
             then add_node compare_func t (mkAlloc aligned_end (end_ d) (info d) (used d)) else t in
    let part1_size := aligned_start -u start d in
    if truthy part1_size then set_at t p (shrink_block d (ns -u part1_size))
    else put t p (remove_node (subtree t p)).

Section ops.
Context {P : Type} `{PageOps P}.
(** [DEFAULT_K_FLAGS] and [DEFAULT_U_FLAGS], [MAP_ANONYMOUS | MAP_PRIVATE] of the libc headers. *)
Context (DEFAULT_FLAGS : Z).

Definition DEFAULT_K_PAGE_INFO : page_info := mkInfo DEFAULT_FLAGS DEFAULT_K_POLICY.
Definition DEFAULT_U_PAGE_INFO : page_info := mkInfo DEFAULT_FLAGS DEFAULT_U_POLICY.

Record memtree := mkTree { root : atree; pages : P }.

(** [for (...) free_page(...)]. *)
Fixpoint free_pages (p : P) (addresses : list Z) : res P :=
  match addresses with
  | [] => Ok p
  | a :: rest => p ← free_page p a; free_pages p rest
  end.

(** [MemTree::node_physical_alloc]: the new node's pointer, or [None] when out of memory. *)
Definition node_physical_alloc (m : memtree) (size : Z) (pi : page_info) (hi : hint_info)
  : res (memtree * option path) :=
  let num_pages_base := ADDR_PAGE (u32 (size + PAGE_SIZE - 1)) in
  let num_pages := Z.max 2 num_pages_base in
  '(pg, start_addr) ← sbrk (pages m) num_pages pi hi;
  if start_addr =? 0 then Ok (mkTree (root m) pg, None)
  else
    let node := mkAlloc start_addr (start_addr +u u32 (num_pages * PAGE_SIZE)) pi false in
    Ok (mkTree (add_node compare_func (root m) node) pg, Some (add_path (root m) node)).

(** [MemTree::find_allocation_node]. *)
Definition find_allocation_node (m : memtree) (address : Z) : option path :=
  find_node compare_func (root m) (mkAlloc address 0 DEFAULT_K_PAGE_INFO false).

(** [MemTree::free_node]; the node pointer and the link to it are the same path, so the test
    [*node_ptr != node] cannot succeed. *)
Definition free_node (m : memtree) (p : path) : res memtree :=
  d ← node_at (root m) p;
  let t := set_at (root m) p (mkAlloc (start d) (end_ d) (info d) false) in
  let t := put t p (merge_free_node (subtree t p)) in
  d ← node_at t p;
  let ns := node_size d in
  let aligned_start := page_up (start d) in
  let aligned_end := page_down (end_ d) in
  let num_pages := if PAGE_SIZE <? ns then ADDR_PAGE (aligned_end -u aligned_start) else 0 in
  if N_FREE_PAGES_THRESHOLD <=? num_pages then
    let t := cut_pages t p d aligned_start aligned_end num_pages in
    pg ← free_pages (pages m) (freed_arguments aligned_start num_pages);
    Ok (mkTree t pg)
  else Ok (mkTree t (pages m)).

Definition policy_valid (policy : Z) : bool :=
  let present := truthy (Z.land policy PAGE_PRESENT) in
  let lazy := truthy (Z.land policy PAGE_LAZY_ZERO) in
  negb ((present && lazy) || negb (truthy (Z.land policy (Z.lor PAGE_PRESENT PAGE_LAZY_ZERO)))).

(** The second half of [allocate]: cut the block [d] at [p] to [size] bytes, give the rest back
    as a free block, and mark it used. *)
Definition take_block (t : atree) (p : path) (d : allocation) (size : Z) (pi : page_info) : atree :=
  let ns := node_size d in
  let shrink := ns -u size in
  let d := if truthy shrink then shrink_block d shrink else d in
  let t := set_at t p d in
  let t := if truthy shrink
           then add_node compare_func t (mkAlloc (end_ d) (end_ d +u shrink) pi false) else t in
  set_at t p (mkAlloc (start d) (end_ d) (info d) true).

(** [MemTree::allocate]; [0] is the null pointer. *)
Definition allocate (m : memtree) (size : Z) (pi : page_info) (hi : hint_info) : res (memtree * Z) :=
  _ ← ensure (policy_valid (policy pi));
  '(m, node) ← (match find_free_block (root m) size hi with
                | Some p => Ok (m, Some p)
                | None => node_physical_alloc m size pi hi
                end);
  match node with
  | None => Ok (m, 0)
  | Some p =>
      d ← node_at (root m) p;
      Ok (mkTree (take_block (root m) p d size pi) (pages m), start d)
  end.

(** [MemTree::find_allocation]. *)
Definition find_allocation (m : memtree) (address : Z) : option allocation :=
  match find_allocation_node m address with
  | Some p => match subtree (root m) p with Node _ d _ => Some d | Leaf => None end
  | None => None
  end.

(** [MemTree::free]. *)
Definition free (m : memtree) (address : Z) : res (memtree * FreeState) :=
  if address =? 0 then Ok (m, FREE_OK)
  else
    match find_allocation_node m address with
    | None => Ok (m, NOT_FOUND)
    | Some p =>
        cur ← node_at (root m) p;
        if used cur then m ← free_node m p; Ok (m, FREE_OK)
        else Ok (m, DOUBLE_FREE)
    end.

(** The block at [p] cut to [size] bytes, the rest given back as a free block. *)
Definition realloc_shrink (m : memtree) (p : path) (d : allocation) (size : Z) : memtree :=
  let shrink := node_size d -u size in
  let d' := shrink_block d shrink in
  let t := set_at (root m) p d' in
  let t := add_node compare_func t (mkAlloc (end_ d') (end_ d' +u shrink) (info d') false) in
  mkTree t (pages m).

(** [MemTree::realloc]: the outcome and, when the source writes it, the new address.  A size
    of 0 goes through [Process::free], which for the kernel treats a failure as irrecoverable
    and for another process only signals it. *)
Definition realloc (m : memtree) (address size : Z) (is_kernel : bool)
  : res (memtree * ReallocState * option Z) :=
  if address =? 0 then
    let pi := if is_kernel then DEFAULT_K_PAGE_INFO else DEFAULT_U_PAGE_INFO in
    '(m, alloc) ← allocate m size pi DEFAULT_HINT_INFO;
    if alloc =? 0 then Ok (m, NOMEM, None) else Ok (m, REALLOC_OK, Some alloc)
  else if size =? 0 then
    '(m, st) ← free m address;
    _ ← ensure (negb is_kernel || bool_decide (st = FREE_OK));
    Ok (m, REALLOC_OK, None)
  else
    match find_allocation_node m address with
    | None => Ok (m, FAILED, None)
    | Some p =>
        d ← node_at (root m) p;
        let base_node_size := node_size d in
        if size <=? base_node_size then Ok (realloc_shrink m p d size, REALLOC_OK, Some address)
        else if base_node_size =? size then Ok (m, REALLOC_OK, Some address)
        else
          let t := match merge_node_with_free_successor (subtree (root m) p) with
                   | Some node => put (root m) p node
                   | None => root m
                   end in
          let m := mkTree t (pages m) in
          d ← node_at (root m) p;
          let new_node_size := node_size d in
          if size <=? new_node_size then Ok (realloc_shrink m p d size, REALLOC_OK, Some address)
          else
            '(m, new_buffer) ← allocate m size (info d) DEFAULT_HINT_INFO;
            if new_buffer =? 0 then Ok (m, NOMEM, None)
            else
              pg ← copy (pages m) new_buffer address base_node_size;
              m ← free_node (mkTree (root m) pg) p;
              Ok (m, REALLOC_OK, Some new_buffer)
    end.

(** [do_overlap]. *)
Definition do_overlap (a b : allocation) : bool :=
  (((start b <=? start a) && (start a <? end_ b)) || ((start b <? end_ a) && (end_ a <=? end_ b))) &&
  negb ((start a =? start b) && (end_ a =? end_ b)).

(** [MemTree::ensure_validity_aux_aux]. *)
Fixpoint ensure_validity_aux_aux (node : allocation) (t : atree) : res unit :=
  match t with
  | Leaf => Ok tt
  | Node l d r =>
      if do_overlap node d then Panic
      else _ ← ensure_validity_aux_aux node l; ensure_validity_aux_aux node r
  end.

(** [MemTree::ensure_validity_aux]. *)
Fixpoint ensure_validity_aux (node root : atree) : res unit :=
  match node with
  | Leaf => Ok tt
  | Node l d r =>
      _ ← ensure_validity_aux_aux d root;
      _ ← ensure_validity_aux l root;
      ensure_validity_aux r root
  end.

(** [MemTree::ensure_validity]. *)
Definition ensure_validity (m : memtree) : res unit :=
  _ ← BST.ensure_validity compare_func (root m);
  ensure_validity_aux (root m) (root m).

(** [get_lowest_alloc] followed by [remove_node] on it: the lowest node has no left child. *)
Definition pop_lowest (t : atree) : option (allocation * atree) := extract_replacement t.

(** The inner loop of [free_all]: extend the region while the next block is contiguous. *)
Fixpoint region_loop (fuel : nat) (t : atree) (region_end : Z) : res (atree * Z) :=
  match pop_lowest t with
  | None => Ok (t, region_end)
  | Some (d, t') =>
      if start d =? region_end then
        match fuel with
        | O => NoFuel
        | S fuel => region_loop fuel t' (end_ d)
        end
      else Ok (t, region_end)
  end.

(** [MemTree::free_all].  The first comparison reads [lowest_alloc->data.end] after the node was
    deleted: [stale] is what the memory of a deleted node then holds there. *)
Fixpoint free_all_loop (stale : allocation -> Z) (fuel : nat) (m : memtree) : res memtree :=
  match pop_lowest (root m) with
  | None => Ok m
  | Some (lowest, t) =>
      match fuel with
      | O => NoFuel
      | S fuel =>
          let region_start := start lowest in
          '(t, region_end) ← (match pop_lowest t with
                              | Some (next_lowest, t') =>
                                  if start next_lowest =? stale lowest then region_loop (nodes t') t' (end_ next_lowest)
                                  else Ok (t, end_ lowest)
                              | None => Ok (t, end_ lowest)
                              end);
          let region_size := region_end -u region_start in
          _ ← ensure (Z.land region_size (PAGE_SIZE - 1) =? 0);
          let num_pages := region_size / PAGE_SIZE in
          pg ← free_pages (pages m)
                 (map (fun i => region_start +u u32 (Z.shiftl (Z.of_nat i) 12)) (seq 0 (Z.to_nat num_pages)));
          free_all_loop stale fuel (mkTree t pg)
      end
  end.

Definition free_all (stale : allocation -> Z) (m : memtree) : res memtree := free_all_loop stale (nodes (root m)) m.

(** [MemTree::register_external_allocation]. *)
Definition register_external_allocation (m : memtree) (a : allocation) : res memtree :=
  _ ← ensure_validity_aux_aux a (root m);
  Ok (mkTree (add_node compare_func (root m) a) (pages m)).

End ops.
Arguments memtree : clear implicits.

(** ** Disjoint ranges in address order *)

Definition alloc_ok (d : allocation) : Prop := 0 < start d < end_ d /\ end_ d < 4294967296.
Definition before (a b : allocation) : Prop := end_ a <= start b.

Definition chain (l : list allocation) : Prop := Forall alloc_ok l /\ StronglySorted before l.

(** The invariant of the tree: ranges are non-empty, pairwise disjoint, in search order. *)
Definition wf (t : atree) : Prop := chain (inorder t).

(** Byte [a] belongs to one of the ranges. *)
Definition covered (l : list allocation) (a : Z) : Prop := exists d, d ∈ l /\ start d <= a < end_ d.

(** The ranges in use, in address order. *)
Definition used_blocks (l : list allocation) : list allocation := filter (fun d => used d = true) l.

Lemma chain_nil : chain [].
Proof. split; constructor. Qed.

Lemma chain_app l1 l2 :
  chain (l1 ++ l2) <-> chain l1 /\ chain l2 /\ (forall a b, a ∈ l1 -> b ∈ l2 -> before a b).
Proof.
  unfold chain. rewrite Forall_app. induction l1 as [|x l1 IH]; simpl.
  - split; [intros [[_ ?] ?]; split_and!; [constructor|constructor|done|done|set_solver]|].
    by intros (_ & [? ?] & _).
  - split.
    + intros [[H1 H2] Hs]. inversion_clear Hs as [|? ? Hs' Hf]. inversion_clear H1 as [|? ? Hx H1'].
      destruct IH as [IH _]. destruct IH as ([? ?] & [? ?] & Hb); [done|].
      rewrite Forall_app in Hf. destruct Hf as [Hf1 Hf2]. rewrite Forall_forall in Hf2.
      split_and!; [by constructor|by constructor|done|done|].
      intros a b [->|Ha]%elem_of_cons Hb'; auto.
    + intros ([H1 Hs1] & [H2 Hs2] & Hb). inversion_clear H1 as [|? ? Hx H1']. inversion_clear Hs1 as [|? ? Hs' Hf].
      destruct IH as [_ IH]. destruct IH as [[? ?] ?]; [split_and!; [done..|intros; apply Hb; set_solver]|].
      split; [split; [by constructor|done]|]. constructor; [done|]. apply Forall_app. split; [done|].
      apply Forall_forall. intros b Hb'. apply Hb; set_solver.
Qed.

Lemma chain_cons x l : chain (x :: l) <-> alloc_ok x /\ chain l /\ (forall b, b ∈ l -> before x b).
Proof.
  pose proof (chain_app [x] l) as Hc. simpl in Hc. rewrite Hc. split.
  - intros ([Hx _] & Hl & Hb). inversion_clear Hx. split_and!; [done..|]. intros; apply Hb; set_solver.
  - intros (Hx & Hl & Hb). split_and!; [split; [by constructor|by repeat constructor]|done|].
    intros a b ->%list_elem_of_singleton. auto.
Qed.

Lemma chain_ok l d : chain l -> d ∈ l -> alloc_ok d.
Proof. intros [Hf _]. rewrite Forall_forall in Hf. auto. Qed.

(** A block in the middle of a chain, seen from both sides. *)
Lemma chain_mid A d B :
  chain (A ++ d :: B) <->
  chain A /\ chain B /\ alloc_ok d /\ (forall a, a ∈ A -> before a d) /\
  (forall b, b ∈ B -> before d b) /\ (forall a b, a ∈ A -> b ∈ B -> before a b).
Proof.
  rewrite chain_app, chain_cons. split.
  - intros (HA & (Hd & HB & Hb) & Hx). split_and!; [done..| |done|]; intros; apply Hx; set_solver.
  - intros (HA & HB & Hd & H1 & H2 & H3). split_and!; [done..|].
    intros a b Ha [->|Hb]%elem_of_cons; auto.
Qed.

Lemma chain_bst t : wf t -> bst start t.
Proof.
  unfold wf, bst. generalize (inorder t) as l. intros l. induction l as [|d l IH]; [constructor|].
  intros (Hd & Hl & Hb)%chain_cons. constructor; [by apply IH|]. apply Forall_forall.
  intros b Hb'. specialize (Hb b Hb'). unfold before, alloc_ok in *. lia.
Qed.

(** Start addresses are distinct, so a block occurs at one place only. *)
Lemma chain_mid_unique A d B A' B' :
  chain (A ++ d :: B) -> A ++ d :: B = A' ++ d :: B' -> A = A' /\ B = B'.
Proof.
  intros Hc Heq. pose proof Hc as Hc'. rewrite Heq in Hc'.
  apply chain_mid in Hc as (HA & _ & Hd & H1 & H2 & _). apply chain_mid in Hc' as (HA' & _ & _ & H1' & H2' & _).
  assert (forall X, chain X -> (forall a, a ∈ X -> before a d) -> forall a, a ∈ X ++ [d] -> start a < end_ d) as Hlt.
  { intros X HX Hb a [Ha|Ha]%elem_of_app; [|apply list_elem_of_singleton in Ha as ->; apply Hd].
    specialize (Hb a Ha). pose proof (chain_ok X a HX Ha). unfold before, alloc_ok in *. lia. }
  assert ((A ++ [d]) ++ B = (A' ++ [d]) ++ B') as Heq' by by rewrite <- !app_assoc.
  destruct (split_unique start _ _ _ _ (end_ d) Heq' (Hlt A HA H1) H2 (Hlt A' HA' H1') H2') as [Ha ->].
  by apply app_inj_2 in Ha as [-> _].
Qed.

(** ** Node pointers *)

Lemma compare_eq a b : compare_func a b = 0 <-> start a = start b.
Proof. unfold compare_func. bool_to_prop; lia. Qed.

Lemma compare_gt a b : 0 < compare_func a b <-> start b < start a.
Proof. unfold compare_func. bool_to_prop; lia. Qed.

Lemma set_at_inorder (t : atree) p l d r :
  subtree t p = Node l d r ->
  exists A B, inorder t = A ++ d :: B /\ (forall d', inorder (set_at t p d') = A ++ d' :: B) /\
    inorder (put t p (remove_node (subtree t p))) = A ++ B.
Proof.
  intros Hs. destruct (put_inorder t p) as (A & B & Hi & Hput); [eauto|].
  exists (A ++ inorder l), (inorder r ++ B). rewrite Hi, Hs. simpl. unfold set_at. rewrite Hs.
  split_and!.
  - by rewrite <- !app_assoc.
  - intros d'. rewrite Hput. simpl. by rewrite <- !app_assoc.
  - rewrite Hput. fold (remove_node (Node l d r)).
    assert (inorder (remove_node (Node l d r)) = inorder l ++ inorder r) as ->.
    { pose proof (remove_match_inorder l r) as Hm. unfold remove_match in Hm. unfold remove_node.
      destruct l; [by destruct r|done]. }
    by rewrite <- !app_assoc.
Qed.

Lemma set_at_subtree (t : atree) p l d r d' :
  subtree t p = Node l d r -> subtree (set_at t p d') p = Node l d' r.
Proof. intros Hs. unfold set_at. rewrite Hs. rewrite put_subtree; eauto. Qed.

(** Adding a node never moves another one. *)
Lemma add_subtree (t : atree) x p l d r :
  subtree t p = Node l d r -> exists l' r', subtree (add_node compare_func t x) p = Node l' d r'.
Proof.
  revert t. induction p as [|[] p IH]; intros [|tl td tr] Hs; simpl in *; try done.
  - simplify_eq. destruct (0 <=? compare_func d x); eauto.
  - destruct (0 <=? compare_func td x); eauto.
  - destruct (0 <=? compare_func td x); eauto.
Qed.

Lemma set_add_comm (t : atree) x p l d r d' :
  subtree t p = Node l d r -> start d' = start d ->
  set_at (add_node compare_func t x) p d' = add_node compare_func (set_at t p d') x.
Proof.
  unfold set_at. revert t. induction p as [|[] p IH]; intros [|tl td tr] Hs Hd; simpl in *; try done.
  - simplify_eq. simpl. unfold compare_func. rewrite Hd.
    destruct (0 <=? (if start d =? start x then 0 else if start x <? start d then 1 else -1)); done.
  - destruct (0 <=? compare_func td x) eqn:Hc; simpl.
    + specialize (IH tl Hs Hd). destruct (add_subtree tl x p _ _ _ Hs) as (l' & r' & Hs').
      rewrite Hs, Hs' in *. simpl. rewrite Hc. by rewrite IH.
    + rewrite Hs. simpl. by rewrite Hc.
  - destruct (0 <=? compare_func td x) eqn:Hc; simpl.
    + rewrite Hs. simpl. by rewrite Hc.
    + specialize (IH tr Hs Hd). destruct (add_subtree tr x p _ _ _ Hs) as (l' & r' & Hs').
      rewrite Hs, Hs' in *. simpl. rewrite Hc. by rewrite IH.
Qed.

Lemma add_path_subtree t x : subtree (add_node compare_func t x) (add_path t x) = Node Leaf x Leaf.
Proof. induction t as [|l IHl d r IHr]; simpl; [done|]. by destruct (0 <=? compare_func d x). Qed.

Lemma find_free_block_spec t size h p :
  find_free_block t size h = Some p ->
  exists l d r, subtree t p = Node l d r /\ used d = false /\ size <= node_size d /\
    (hint h = start d \/ hint h < start d /\ is_mandatory h = false).
Proof.
  revert p. induction t as [|l IHl d r IHr]; intros p; simpl; [done|].
  destruct (negb (used d) && (size <=? node_size d) && _) eqn:Hc.
  - intros [= <-]. exists l, d, r. destruct (used d); [done|]. simpl in Hc.
    apply andb_true_iff in Hc as [Hn Hh]. apply Z.leb_le in Hn.
    apply orb_true_iff in Hh as [Hh%Z.eqb_eq|[Hh%Z.ltb_lt Hm%negb_true_iff]%andb_true_iff];
      split_and!; auto.
  - destruct (if hint h <? start d then find_free_block l size h else None) as [q|] eqn:Hl.
    + intros [= <-]. destruct (hint h <? start d); [|done]. by apply IHl.
    + destruct (find_free_block r size h) as [q|]; [|done]. intros [= <-]. by apply IHr.
Qed.

Lemma node_size_eq d : alloc_ok d -> node_size d = end_ d - start d.
Proof. intros [? ?]. unfold node_size. apply u32_id. unfold is_u32. lia. Qed.

(** ** Cutting a block *)

(** [d] replaced by its first [size] bytes, marked [b], and what is left of it as a free block. *)
Lemma cut_chain A d B size pi b :
  chain (A ++ d :: B) -> 0 < size < end_ d - start d ->
  let d1 := mkAlloc (start d) (start d + size) (info d) b in
  let d2 := mkAlloc (start d + size) (end_ d) pi false in
  chain (A ++ d1 :: d2 :: B) /\
  (forall a, covered (A ++ d1 :: d2 :: B) a <-> covered (A ++ d :: B) a).
Proof.
  intros (HA & HB & Hd & H1 & H2 & H3)%chain_mid Hs d1 d2. split.
  - apply chain_mid. rewrite chain_cons. unfold alloc_ok, before in *. simpl. split_and!; try done; try lia.
    + intros c [->|Hc]%elem_of_cons; simpl; [lia|]. specialize (H2 c Hc). lia.
    + intros a c Ha [->|Hc]%elem_of_cons; [|by apply H3]. specialize (H1 a Ha). simpl. lia.
  - intros a. unfold covered. split; intros (c & Hc & Ha).
    + apply elem_of_app in Hc as [Hc|[->|[->|Hc]%elem_of_cons]%elem_of_cons];
        [exists c; set_solver| | |exists c; set_solver]; exists d; (split; [set_solver|]); simpl in Ha; lia.
    + apply elem_of_app in Hc as [Hc|[->|Hc]%elem_of_cons]; [exists c; set_solver| |exists c; set_solver].
      destruct (decide (a < start d + size)).
      * exists d1. split; [set_solver|]. simpl. lia.
      * exists d2. split; [set_solver|]. simpl. lia.
Qed.

(** Inserting the free remainder right behind the block it was cut from. *)
Lemma add_remainder t A d1 B x :
  wf t -> inorder t = A ++ d1 :: B -> end_ d1 <= start x ->
  (forall b, b ∈ B -> start x <= start b) ->
  inorder (add_node compare_func t x) = A ++ d1 :: x :: B.
Proof.
  intros Hwf Hi Hx HB. pose proof Hwf as Hc. unfold wf in Hc. rewrite Hi in Hc.
  apply chain_mid in Hc as (HA & _ & Hd & H1 & _ & _).
  replace (A ++ d1 :: x :: B) with ((A ++ [d1]) ++ x :: B) by by rewrite <- app_assoc.
  apply (add_at start compare_func compare_eq compare_gt).
  - by apply chain_bst.
  - by rewrite <- app_assoc.
  - intros a [Ha|Ha]%elem_of_app.
    + specialize (H1 a Ha). pose proof (chain_ok _ _ HA Ha). unfold before, alloc_ok in *. lia.
    + apply list_elem_of_singleton in Ha as ->. unfold alloc_ok in *. lia.
  - done.
Qed.

Lemma truthy_false x : truthy x = false <-> x = 0.
Proof. unfold truthy. destruct (Z.eqb_spec x 0); naive_solver. Qed.

Lemma chain_replace A d B d' :
  chain (A ++ d :: B) -> start d' = start d -> end_ d' = end_ d ->
  chain (A ++ d' :: B) /\ (forall a, covered (A ++ d' :: B) a <-> covered (A ++ d :: B) a).
Proof.
  intros (HA & HB & Hd & H1 & H2 & H3)%chain_mid Hs He. split.
  - apply chain_mid. unfold alloc_ok, before in *. rewrite Hs, He. done.
  - intros a. unfold covered. setoid_rewrite elem_of_app. setoid_rewrite elem_of_cons.
    split; intros (c & [Hc|[->|Hc]] & Ha); [by exists c; auto|exists d; rewrite <- Hs, <- He; auto|by exists c; auto|
      by exists c; auto|exists d'; rewrite Hs, He; auto|by exists c; auto].
Qed.

(** [allocate] on a free block [d] of the tree: the block is cut in place. *)
Lemma take_block_spec t p l d r size pi A B :
  wf t -> subtree t p = Node l d r -> inorder t = A ++ d :: B ->
  0 < size <= node_size d ->
  exists d1 rest, inorder (take_block t p d size pi) = A ++ d1 :: rest ++ B /\
    chain (A ++ d1 :: rest ++ B) /\ (forall a, covered (A ++ d1 :: rest ++ B) a <-> covered (inorder t) a) /\
    start d1 = start d /\ end_ d1 = start d + size /\ used d1 = true /\ Forall (fun x => used x = false) rest /\
    Forall (fun x => start d + size <= start x /\ end_ x <= end_ d) rest.
Proof.
  intros Hwf Hs Hi Hsz. pose proof Hwf as Hc. unfold wf in Hc. rewrite Hi in Hc.
  pose proof Hc as (_ & _ & Hd & _ & H2 & _)%chain_mid.
  rewrite (node_size_eq d Hd) in Hsz. unfold take_block. rewrite (node_size_eq d Hd).
  destruct (set_at_inorder t p l d r Hs) as (A' & B' & Hi' & Hset & _).
  rewrite Hi in Hi'. destruct (chain_mid_unique _ _ _ _ _ Hc Hi') as [<- <-].
  assert (u32 (end_ d - start d - size) = end_ d - start d - size) as ->.
  { apply u32_id. unfold is_u32, alloc_ok in *. lia. }
  destruct (truthy (end_ d - start d - size)) eqn:Ht.
  - unfold shrink_block. simpl.
    assert (u32 (end_ d - (end_ d - start d - size)) = start d + size) as ->.
    { rewrite u32_id; [lia|]. unfold is_u32, alloc_ok in *. lia. }
    assert (u32 (start d + size + (end_ d - start d - size)) = end_ d) as ->.
    { rewrite u32_id; [lia|]. unfold is_u32, alloc_ok in *. lia. }
    assert (end_ d - start d - size <> 0) as Hne by (intros E; apply truthy_false in E; congruence).
    set (d0 := mkAlloc (start d) (start d + size) (info d) (used d)).
    set (d1 := mkAlloc (start d) (start d + size) (info d) true).
    set (x := mkAlloc (start d + size) (end_ d) pi false).
    rewrite (set_add_comm _ x p _ d0 r d1 (set_at_subtree t p l d r d0 Hs)) by done.
    assert (set_at (set_at t p d0) p d1 = set_at t p d1) as ->.
    { unfold set_at at 1. rewrite (set_at_subtree t p l d r d0 Hs). unfold set_at. rewrite Hs. by rewrite put_put. }
    destruct (cut_chain A d B size pi true Hc ltac:(lia)) as [Hc1 Hcov1]. fold d1 x in Hc1, Hcov1.
    exists d1, [x]. simpl. rewrite Hi. split_and!; [|done|done|done|done|done|by repeat constructor|by repeat constructor].
    apply add_remainder; [|apply Hset|done|].
    + unfold wf. rewrite Hset. apply chain_mid in Hc1 as (?&(?&?&?)%chain_cons&?&?&Hb&Hab).
      apply chain_mid. split_and!; [done..| |]; intros; [apply Hb|apply Hab]; set_solver.
    + intros b Hb. specialize (H2 b Hb). unfold before in H2. simpl. lia.
  - apply truthy_false in Ht.
    assert (set_at (set_at t p d) p (mkAlloc (start d) (end_ d) (info d) true) = set_at t p (mkAlloc (start d) (end_ d) (info d) true)) as ->.
    { unfold set_at at 1. rewrite (set_at_subtree t p l d r d Hs). unfold set_at. rewrite Hs. by rewrite put_put. }
    destruct (chain_replace A d B (mkAlloc (start d) (end_ d) (info d) true) Hc) as [Hc1 Hcov]; [done..|].
    exists (mkAlloc (start d) (end_ d) (info d) true), []. rewrite Hset, Hi. simpl. split_and!; [done|done|done|done|lia|done|constructor|constructor].
Qed.

(** ** What the page interface promises *)

(** [mapped p i]: page number [i] is in use; [sbrk] hands out pages that were not.  [page_inv] is
    what the implementation needs of its own state. *)
Class PageLaws (P : Type) `{PageOps P} := {
  page_inv : P -> Prop;
  mapped : P -> Z -> Prop;
  sbrk_fresh : forall p n pi hi p' a,
    page_inv p -> 0 < n <= 1048576 -> policy_valid (policy pi) = true -> is_u32 (hint hi) ->
    sbrk p n pi hi = Ok (p', a) -> a <> 0 ->
    page_inv p' /\ 0 < a /\ a mod PAGE_SIZE = 0 /\ a + n * PAGE_SIZE <= 4294967296 /\
    (forall i, a / PAGE_SIZE <= i < a / PAGE_SIZE + n -> ~ mapped p i) /\
    (forall i, mapped p' i <-> mapped p i \/ a / PAGE_SIZE <= i < a / PAGE_SIZE + n);
  sbrk_null : forall p n pi hi p',
    page_inv p -> 0 < n <= 1048576 -> policy_valid (policy pi) = true -> is_u32 (hint hi) ->
    sbrk p n pi hi = Ok (p', 0) -> page_inv p' /\ forall i, mapped p i -> mapped p' i
}.

(** Every byte of the tree lies on a mapped page, and so does the last page of the address
    space, which keeps the end of a block representable. *)
Definition owned {P} `{PageLaws P} (m : memtree P) : Prop :=
  page_inv (pages m) /\
  (forall a, covered (inorder (root m)) a -> mapped (pages m) (a / PAGE_SIZE)) /\ mapped (pages m) 1048575.

Lemma used_blocks_app l1 l2 : used_blocks (l1 ++ l2) = used_blocks l1 ++ used_blocks l2.
Proof. apply filter_app. Qed.

Lemma used_blocks_free l : Forall (fun x => used x = false) l -> used_blocks l = [].
Proof.
  induction 1 as [|x l Hx Hl IH]; [done|]. unfold used_blocks. rewrite filter_cons_False; [done|]. congruence.
Qed.

Lemma used_blocks_cons_free d l : used d = false -> used_blocks (d :: l) = used_blocks l.
Proof. intros Hd. unfold used_blocks. rewrite filter_cons_False; [done|]. congruence. Qed.

Lemma used_blocks_cons_used d l : used d = true -> used_blocks (d :: l) = d :: used_blocks l.
Proof. intros Hd. unfold used_blocks. by rewrite filter_cons_True. Qed.

(** A block that overlaps no block of the tree has its place between two of them. *)
Lemma add_disjoint t x :
  wf t -> alloc_ok x -> (forall d, d ∈ inorder t -> end_ d <= start x \/ end_ x <= start d) ->
  exists A B, inorder t = A ++ B /\ inorder (add_node compare_func t x) = A ++ x :: B /\ chain (A ++ x :: B).
Proof.
  intros Hwf Hx Hdis.
  destruct (add_inorder start compare_func compare_eq compare_gt t x (chain_bst t Hwf)) as (A & B & Hi & Hadd & HA & HB).
  exists A, B. split_and!; [done..|]. unfold wf in Hwf. rewrite Hi in Hwf, Hdis.
  apply chain_app in Hwf as (HcA & HcB & Hx').
  apply chain_mid. split_and!; [done..| | |done].
  - intros a Ha. specialize (HA a Ha). destruct (Hdis a ltac:(set_solver)); [done|].
    pose proof (chain_ok _ _ HcA Ha). unfold before, alloc_ok in *. lia.
  - intros b Hb. specialize (HB b Hb). destruct (Hdis b ltac:(set_solver)); [|done].
    pose proof (chain_ok _ _ HcB Hb). unfold before, alloc_ok in *. lia.
Qed.

(** ** Allocation *)

(** The number of pages [node_physical_alloc] asks for. *)
Definition pages_for (size : Z) : Z := Z.max 2 (ADDR_PAGE (u32 (size + PAGE_SIZE - 1))).

Lemma pages_for_spec size :
  0 < size <= 4294963200 -> 0 < pages_for size <= 1048576 /\ size <= pages_for size * PAGE_SIZE.
Proof.
  intros Hs. unfold pages_for, ADDR_PAGE, PAGE_SIZE. rewrite u32_id by (unfold is_u32; lia).
  rewrite Z.shiftr_div_pow2 by lia. change (2 ^ 12) with 4096.
  pose proof (Z.div_mod (size + 4096 - 1) 4096 ltac:(lia)). pose proof (Z.mod_pos_bound (size + 4096 - 1) 4096 ltac:(lia)).
  lia.
Qed.

Lemma covered_app l1 l2 a : covered (l1 ++ l2) a <-> covered l1 a \/ covered l2 a.
Proof. unfold covered. setoid_rewrite elem_of_app. naive_solver. Qed.

Lemma covered_cons d l a : covered (d :: l) a <-> start d <= a < end_ d \/ covered l a.
Proof. unfold covered. setoid_rewrite elem_of_cons. naive_solver. Qed.

Section allocation.
Context {P : Type} `{PageLaws P}.

(** Blocks fresh from [sbrk] lie outside every block of the tree. *)
Lemma fresh_disjoint (m : memtree P) n pi hi p' a :
  owned m -> 0 < n <= 1048576 -> wf (root m) -> policy_valid (policy pi) = true -> is_u32 (hint hi) ->
  sbrk (pages m) n pi hi = Ok (p', a) -> a <> 0 ->
  page_inv p' /\ 0 < a /\ a mod PAGE_SIZE = 0 /\ a + n * PAGE_SIZE < 4294967296 /\
  (forall d, d ∈ inorder (root m) -> end_ d <= a \/ a + n * PAGE_SIZE <= start d) /\
  (forall i, a / PAGE_SIZE <= i < a / PAGE_SIZE + n -> mapped p' i) /\ (forall i, mapped (pages m) i -> mapped p' i).
Proof.
  intros (Hinv & Hown & Hlast) Hn Hwf Hpol Hh Hsb Ha.
  destruct (sbrk_fresh _ _ _ _ _ _ Hinv Hn Hpol Hh Hsb Ha) as (Hinv' & Hpos & Hal & Hend & Hfree & Hmap).
  unfold PAGE_SIZE in *.
  assert (a = 4096 * (a / 4096)) as Hdiv by (rewrite (Z.div_mod a 4096) at 1; lia).
  assert (forall x, a <= x < a + n * 4096 -> ~ mapped (pages m) (x / 4096)) as Hx.
  { intros x Hx. apply Hfree. pose proof (Z.div_mod x 4096 ltac:(lia)). pose proof (Z.mod_pos_bound x 4096 ltac:(lia)). lia. }
  split_and!; [done|done|done| | |intros; apply Hmap; auto|intros; apply Hmap; auto].
  - destruct (decide (a + n * 4096 = 4294967296)) as [E|]; [|lia].
    exfalso. apply (Hx 4294967295); [lia|]. by change (4294967295 / 4096) with 1048575.
  - intros d Hd. pose proof (chain_ok _ _ Hwf Hd) as Hok. unfold alloc_ok in Hok.
    destruct (decide (end_ d <= a)); [by left|]. destruct (decide (a + n * 4096 <= start d)); [by right|].
    exfalso. apply (Hx (Z.max a (start d))); [lia|]. apply Hown. exists d. split; [done|lia].
Qed.

Lemma used_blocks_mid A d rest B :
  used d = true -> Forall (fun x => used x = false) rest ->
  used_blocks (A ++ d :: rest ++ B) = used_blocks A ++ d :: used_blocks B.
Proof. intros Hd Hr. by rewrite used_blocks_app, used_blocks_cons_used, used_blocks_app, (used_blocks_free rest). Qed.

(** [take_block] on a free block: one more used block, in its place. *)
Lemma take_block_used t p l d r size pi :
  wf t -> subtree t p = Node l d r -> used d = false -> 0 < size <= node_size d ->
  let t' := take_block t p d size pi in
  wf t' /\ (forall a, covered (inorder t') a <-> covered (inorder t) a) /\
  exists A d1 B, used_blocks (inorder t) = A ++ B /\ used_blocks (inorder t') = A ++ d1 :: B /\
    start d1 = start d /\ end_ d1 = start d + size /\ used d1 = true.
Proof.
  intros Hwf Hs Hu Hsz t'. destruct (set_at_inorder t p l d r Hs) as (A & B & Hi & _).
  destruct (take_block_spec t p l d r size pi A B Hwf Hs Hi Hsz) as (d1 & rest & Ht & Hc & Hcov & H1 & H2 & H3 & H4 & _).
  fold t' in Ht. unfold wf. rewrite Ht. split_and!; [done|done|].
  exists (used_blocks A), d1, (used_blocks B). rewrite Hi, used_blocks_mid, used_blocks_app by done.
  by rewrite used_blocks_cons_free.
Qed.

(** What an allocation of [size] bytes at [a] does to the ranges in use: [a] is the start of a new
    one, [size] bytes long, and every other keeps its place and its extent. *)
Definition one_more (t t' : atree) (a size : Z) : Prop :=
  exists A d B, used_blocks (inorder t) = A ++ B /\ used_blocks (inorder t') = A ++ d :: B /\
    start d = a /\ end_ d = a + size /\ used d = true.

Lemma allocate_spec (m : memtree P) size pi hi :
  wf (root m) -> owned m -> 0 < size <= 4294963200 -> is_u32 (hint hi) ->
  (find_free_block (root m) size hi = None -> exists r, sbrk (pages m) (pages_for size) pi hi = Ok r) ->
  if policy_valid (policy pi) then
    exists m' a, allocate m size pi hi = Ok (m', a) /\ wf (root m') /\ owned m' /\
      ((a = 0 /\ root m' = root m) \/ (a <> 0 /\ one_more (root m) (root m') a size))
  else allocate m size pi hi = Panic.
Proof.
  intros Hwf Hown Hsz Hhint Hsb. unfold allocate. destruct (policy_valid (policy pi)) eqn:Hpol; [|done]. run.
  destruct (find_free_block (root m) size hi) as [p|] eqn:Hf.
  - apply find_free_block_spec in Hf as (l & d & r & Hs & Hu & Hle & _). run.
    unfold node_at. rewrite Hs. run. eexists _, _. split; [done|]. simpl.
    destruct (take_block_used _ p l d r size pi Hwf Hs Hu ltac:(lia)) as (Hwf' & Hcov & A & d1 & B & Hb).
    split_and!; [done| |].
    + destruct Hown as (? & ? & ?). split_and!; [done| |done]. simpl. intros a Ha. apply Hcov in Ha. auto.
    + right. split; [|by exists A, d1, B].
      destruct (set_at_inorder _ p l d r Hs) as (A' & B' & Hi & _).
      pose proof (chain_ok _ d Hwf ltac:(rewrite Hi; set_solver)) as Hok. unfold alloc_ok in Hok. lia.
  - destruct (Hsb eq_refl) as [[p' a] Hr]. unfold node_physical_alloc. fold (pages_for size). rewrite Hr. run.
    destruct (pages_for_spec size Hsz) as [Hn Hfit].
    destruct (Z.eqb_spec a 0) as [->|Ha].
    + eexists _, _. split; [done|]. simpl. split_and!; [done| |by left].
      destruct Hown as (Hinv & ? & ?). destruct (sbrk_null _ _ _ _ _ Hinv Hn Hpol Hhint Hr). split_and!; simpl; auto.
    + destruct (fresh_disjoint m _ pi hi p' a Hown Hn Hwf Hpol Hhint Hr Ha) as (Hinv' & Hpos & Hal & Hend & Hdis & Hnew & Hold).
      unfold PAGE_SIZE in *.
      rewrite (u32_id (pages_for size * 4096)), (u32_id (a + pages_for size * 4096)) by (unfold is_u32; lia).
      set (x := mkAlloc a (a + pages_for size * 4096) pi false). run. simpl.
      unfold node_at. rewrite add_path_subtree. run. eexists _, _. split; [done|]. simpl.
      assert (alloc_ok x) as Hx by (unfold alloc_ok; simpl; lia).
      destruct (add_disjoint (root m) x Hwf Hx Hdis) as (A & B & Hi & Hadd & Hc).
      destruct (take_block_used (add_node compare_func (root m) x) (add_path (root m) x) Leaf x Leaf size pi)
        as (Hwf' & Hcov & A' & d1 & B' & Hb & Hb' & Hd1);
        [unfold wf; by rewrite Hadd|apply add_path_subtree|done|rewrite node_size_eq by done; simpl; lia|].
      split_and!; [done| |].
      * destruct Hown as (_ & Ho & Hl). split_and!; simpl; [done| |auto]. intros b Hb1. apply Hcov in Hb1.
        rewrite Hadd, covered_app, covered_cons in Hb1. simpl in Hb1.
        assert (covered (inorder (root m)) b \/ a <= b < a + pages_for size * 4096) as [|Hin]
          by (rewrite Hi, covered_app; tauto); [auto|].
        apply Hnew. pose proof (Z.div_mod b 4096 ltac:(lia)). pose proof (Z.mod_pos_bound b 4096 ltac:(lia)).
        pose proof (Z.div_mod a 4096 ltac:(lia)). pose proof (Z.mod_pos_bound a 4096 ltac:(lia)).
        unfold PAGE_SIZE in *. lia.
      * right. split; [done|]. exists A', d1, B'. split_and!; [|done|apply Hd1..].
        rewrite <- Hb, Hadd, used_blocks_app, used_blocks_cons_free by done. by rewrite Hi, used_blocks_app.
Qed.

(** Claim C1. [MemTree::allocate] of 1 to 4294963200 bytes (whole pages for more do not fit in 32 bits, see [allocate_wraps]), on a
    tree of disjoint ranges that lie on mapped pages: an invalid policy stops the kernel; otherwise, when a free block is
    found or [sbrk] returns, the call returns.  A null result leaves the tree as it was; any other
    result is the start of a new used range of exactly [size] bytes, disjoint from every used range
    (the ranges of the tree stay pairwise disjoint), and no other used range changes. *)
Theorem allocate_ok (m : memtree P) size pi hi :
  wf (root m) -> owned m -> 0 < size <= 4294963200 -> is_u32 (hint hi) ->
  (find_free_block (root m) size hi = None -> exists r, sbrk (pages m) (pages_for size) pi hi = Ok r) ->
  if policy_valid (policy pi) then
    exists m' a, allocate m size pi hi = Ok (m', a) /\ wf (root m') /\ owned m' /\
      ((a = 0 /\ root m' = root m) \/ (a <> 0 /\ one_more (root m) (root m') a size))
  else allocate m size pi hi = Panic.
Proof. apply allocate_spec. Qed.

End allocation.

(** ** Merging free blocks *)

(** The blocks of [l'] cover the bytes [l] covers, and the blocks in use are the same. *)
Definition same_ranges (l l' : list allocation) : Prop :=
  chain l' /\ (forall a, covered l' a <-> covered l a) /\ used_blocks l' = used_blocks l.

Lemma same_ranges_refl l : chain l -> same_ranges l l.
Proof. done. Qed.

Lemma same_ranges_trans l1 l2 l3 : same_ranges l1 l2 -> same_ranges l2 l3 -> same_ranges l1 l3.
Proof.
  intros (_ & Hc & Hu) (? & Hc' & Hu'). split_and!; [done| |congruence]. intros a. by rewrite Hc', Hc.
Qed.

(** Two neighbouring free blocks replaced by their union. *)
Lemma merge_pair A a b B :
  chain (A ++ a :: b :: B) -> end_ a = start b -> used a = false -> used b = false ->
  forall d, start d = start a -> end_ d = end_ b -> used d = false ->
  same_ranges (A ++ a :: b :: B) (A ++ d :: B).
Proof.
  intros (HA & (Hb & HB & H2b)%chain_cons & Ha & H1 & H2 & H3)%chain_mid Hab Hua Hub d Hs He Hud.
  split_and!.
  - apply chain_mid. unfold alloc_ok, before in *. rewrite Hs, He. split_and!; try done; try lia.
    intros x y Hx Hy. apply H3; set_solver.
  - intros x. rewrite !covered_app, !covered_cons, Hs, He. unfold alloc_ok in *.
    assert (start a <= x < end_ b <-> start a <= x < end_ a \/ start b <= x < end_ b) by lia. tauto.
  - rewrite !used_blocks_app, !used_blocks_cons_free by done. done.
Qed.

Lemma similar_spec a b : is_similar_and_contiguous a b = true ->
  (start a = end_ b \/ end_ a = start b) /\ info a = info b /\ used a = used b.
Proof.
  unfold is_similar_and_contiguous. intros [[Hc Hi]%andb_true_iff Hu]%andb_true_iff.
  apply bool_decide_eq_true in Hi. apply Bool.eqb_prop in Hu. apply orb_true_iff in Hc.
  rewrite !Z.eqb_eq in Hc. auto.
Qed.

Lemma extract_predecessor_inorder l m l' :
  extract_predecessor l = Some (m, l') -> inorder l = inorder l' ++ [m].
Proof.
  destruct l as [|ll d r]; simpl; [done|]. intros [= He].
  revert ll d m l' He. induction r as [|rl _ rd rr IH]; intros ll d m l' He; simpl in *; [by simplify_eq|].
  destruct (extract_max rl rd rr) as [m' r'] eqn:He'. simplify_eq. simpl.
  rewrite (IH _ _ _ _ He'). by rewrite <- app_assoc.
Qed.

(** The root of a subtree is a free block. *)
Definition free_root (t : atree) : Prop := exists l d r, t = Node l d r /\ used d = false.

Lemma merge_successor_step t t' :
  wf t -> free_root t -> merge_node_with_free_successor t = Some t' ->
  free_root t' /\ same_ranges (inorder t) (inorder t') /\ length (inorder t) = S (length (inorder t')).
Proof.
  intros Hwf (l & d & r & -> & Hu). simpl. unfold wf in Hwf. simpl in Hwf.
  destruct (extract_replacement r) as [[cur r']|] eqn:He; [|done].
  apply extract_replacement_inorder in He. rewrite He in *.
  destruct (is_similar_and_contiguous cur d) eqn:Hs; [|done]. intros [= <-].
  apply similar_spec in Hs as (Hc & Hi & Hu').
  pose proof Hwf as (_ & (Hcur & _)%chain_cons & Hd & _ & H2 & _)%chain_mid.
  specialize (H2 cur ltac:(set_solver)). unfold before in H2.
  assert (end_ d = start cur) as Hdc by (unfold alloc_ok in *; lia).
  split_and!; [by eexists _, _, _| |simpl; rewrite !length_app; simpl; lia].
  apply merge_pair; [done|done|done|congruence|done| |done].
  rewrite (node_size_eq cur Hcur). simpl. rewrite u32_id; unfold is_u32, alloc_ok in *; lia.
Qed.

Lemma merge_predecessor_step t t' :
  wf t -> free_root t -> merge_node_with_free_predecessor t = Some t' ->
  free_root t' /\ same_ranges (inorder t) (inorder t') /\ length (inorder t) = S (length (inorder t')).
Proof.
  intros Hwf (l & d & r & -> & Hu). simpl. unfold wf in Hwf. simpl in Hwf.
  destruct (extract_predecessor l) as [[cur l']|] eqn:He; [|done].
  apply extract_predecessor_inorder in He. rewrite He, <- app_assoc in *. simpl in *.
  destruct (is_similar_and_contiguous cur d) eqn:Hs; [|done]. intros [= <-].
  apply similar_spec in Hs as (Hc & Hi & Hu').
  pose proof Hwf as (_ & (Hd & _)%chain_cons & Hcur & _ & H2 & _)%chain_mid.
  specialize (H2 d ltac:(set_solver)). unfold before in H2.
  assert (end_ cur = start d) as Hdc by (unfold alloc_ok in *; lia).
  split_and!; [by eexists _, _, _| |simpl; rewrite !length_app; simpl; lia].
  apply merge_pair; simpl; try done. congruence.
Qed.

(** Enough fuel runs a merging loop to its end. *)
Lemma merge_loop_spec f :
  (forall t t', wf t -> free_root t -> f t = Some t' ->
    free_root t' /\ same_ranges (inorder t) (inorder t') /\ length (inorder t) = S (length (inorder t'))) ->
  forall fuel t, (length (inorder t) <= fuel)%nat -> wf t -> free_root t ->
  let t' := merge_loop f fuel t in
  f t' = None /\ free_root t' /\ same_ranges (inorder t) (inorder t').
Proof.
  intros Hf. induction fuel as [|fuel IH]; intros t Hlen Hwf Hfr; simpl.
  { destruct Hfr as (l & d & r & -> & _). simpl in Hlen. rewrite length_app in Hlen. simpl in Hlen. lia. }
  destruct (f t) as [t1|] eqn:Ht; [|by split_and!].
  destruct (Hf t t1 Hwf Hfr Ht) as (Hfr1 & Hs1 & Hl1).
  destruct (IH t1 ltac:(lia)) as (? & ? & ?); [apply Hs1|done|].
  split_and!; [done..|]. by eapply same_ranges_trans.
Qed.

Lemma nodes_length (t : atree) : nodes t = length (inorder t).
Proof. induction t as [|l IHl d r IHr]; simpl; [done|]. rewrite length_app, IHl, IHr. simpl. lia. Qed.

(** [merge_free_node] runs both loops to their end: the block takes in the free blocks next to
    it in its subtree, and nothing else changes. *)
Lemma merge_free_node_spec t :
  wf t -> free_root t ->
  merge_node_with_free_successor (merge_free_node t) = None /\
  free_root (merge_free_node t) /\ same_ranges (inorder t) (inorder (merge_free_node t)).
Proof.
  intros Hwf Hfr. unfold merge_free_node.
  destruct (merge_loop_spec _ merge_predecessor_step (nodes t) t) as (_ & Hfr1 & Hs1); [rewrite nodes_length; lia|done|done|].
  destruct (merge_loop_spec _ merge_successor_step (nodes (merge_loop merge_node_with_free_predecessor (nodes t) t))
              (merge_loop merge_node_with_free_predecessor (nodes t) t)) as (? & Hfr2 & Hs2);
    [rewrite <- nodes_length; lia|apply Hs1|done|].
  split_and!; [done..|]. by eapply same_ranges_trans.
Qed.

(** Blocks that cover the same bytes can stand in for each other inside a chain. *)
Lemma same_ranges_context A X X' B :
  chain (A ++ X ++ B) -> same_ranges X X' -> same_ranges (A ++ X ++ B) (A ++ X' ++ B).
Proof.
  intros (HA & (HX & HB & HXB)%chain_app & HAX)%chain_app (HX' & Hcov & Hu).
  assert (forall x, x ∈ X' -> exists y, y ∈ X /\ start y <= start x) as Hlo.
  { intros x Hx. pose proof (chain_ok _ _ HX' Hx) as Hok. unfold alloc_ok in Hok.
    assert (covered X (start x)) as (y & Hy & ?); [|exists y; split; [done|lia]].
    apply Hcov. exists x. split; [done|lia]. }
  assert (forall x, x ∈ X' -> exists y, y ∈ X /\ end_ x <= end_ y) as Hhi.
  { intros x Hx. pose proof (chain_ok _ _ HX' Hx) as Hok. unfold alloc_ok in Hok.
    assert (covered X (end_ x - 1)) as (y & Hy & ?); [|exists y; split; [done|lia]].
    apply Hcov. exists x. split; [done|lia]. }
  unfold before in *. split_and!.
  - apply chain_app. split_and!; [done| |].
    + apply chain_app. split_and!; [done..|]. intros x b Hx Hb. destruct (Hhi x Hx) as (y & Hy & ?).
      specialize (HXB y b Hy Hb). unfold before in *. lia.
    + intros a x Ha [Hx|Hx]%elem_of_app; [|apply HAX; set_solver]. destruct (Hlo x Hx) as (y & Hy & ?).
      specialize (HAX a y Ha ltac:(set_solver)). unfold before in *. lia.
  - intros a. by rewrite !covered_app, Hcov.
  - by rewrite !used_blocks_app, Hu.
Qed.

(** ** Giving pages back *)

Lemma page_down_eq a : page_down a = a / 4096 * 4096.
Proof.
  unfold page_down, PAGE_SIZE. change (4096 - 1) with (Z.ones 12). rewrite Z.ldiff_ones_r by lia.
  rewrite Z.shiftl_mul_pow2, Z.shiftr_div_pow2 by lia. done.
Qed.

Lemma page_down_spec a : a - 4096 < page_down a <= a /\ page_down a mod 4096 = 0.
Proof.
  rewrite page_down_eq, Z.mod_mul by lia. split; [|done].
  pose proof (Z.div_mod a 4096 ltac:(lia)). pose proof (Z.mod_pos_bound a 4096 ltac:(lia)). lia.
Qed.

Lemma page_up_spec a : 0 <= a < 4294963201 -> a <= page_up a < a + 4096 /\ page_up a mod 4096 = 0.
Proof.
  intros Ha. unfold page_up, PAGE_SIZE. rewrite u32_id by (unfold is_u32; lia).
  pose proof (page_down_spec (a + (4096 - 1))) as Hd. unfold page_down, PAGE_SIZE in Hd. lia.
Qed.

(** The whole pages inside a block of more than a page. *)
Lemma inner_pages d :
  alloc_ok d -> PAGE_SIZE < node_size d ->
  let s := page_up (start d) in let e := page_down (end_ d) in
  start d <= s <= e /\ e <= end_ d /\ u32 (ADDR_PAGE (e -u s) * PAGE_SIZE) = e - s /\
  ADDR_PAGE (e -u s) = (e - s) / 4096 /\ s mod 4096 = 0 /\ e mod 4096 = 0.
Proof.
  intros Hd Hs s e. rewrite (node_size_eq d Hd) in Hs. unfold PAGE_SIZE, alloc_ok in *.
  pose proof (page_up_spec (start d) ltac:(lia)) as [Hup Hum]. pose proof (page_down_spec (end_ d)) as [Hdn Hdm].
  fold s in Hup, Hum. fold e in Hdn, Hdm.
  pose proof (Z.div_mod s 4096 ltac:(lia)). pose proof (Z.div_mod e 4096 ltac:(lia)).
  assert (s <= e) by lia. unfold ADDR_PAGE. rewrite (u32_id (e - s)) by (unfold is_u32; lia).
  rewrite Z.shiftr_div_pow2 by lia. change (2 ^ 12) with 4096.
  assert ((e - s) / 4096 * 4096 = e - s) as ->.
  { replace (e - s) with ((e / 4096 - s / 4096) * 4096) by lia. by rewrite Z.div_mul by lia. }
  rewrite u32_id by (unfold is_u32; lia). split_and!; try done; lia.
Qed.

Lemma mid_unique {T} (A B A' B' : list T) d :
  d ∉ A -> d ∉ B -> A ++ d :: B = A' ++ d :: B' -> A = A' /\ B = B'.
Proof.
  revert A'. induction A as [|a A IH]; intros [|a' A'] HA HB Heq; simpl in *; simplify_eq; [done|..].
  - exfalso. apply HB. set_solver.
  - exfalso. apply HA. set_solver.
  - destruct (IH A') as [-> ->]; [set_solver|done|done|done].
Qed.

(** What is left of a block that loses the bytes from [s] to [e]. *)
Definition pieces (d : allocation) (s e : Z) : list allocation :=
  (if start d =? s then [] else [mkAlloc (start d) s (info d) (used d)]) ++
  (if e =? end_ d then [] else [mkAlloc e (end_ d) (info d) (used d)]).

Lemma pieces_covered d s e a :
  start d <= s -> s <= e -> e <= end_ d ->
  covered (pieces d s e) a <-> start d <= a < end_ d /\ ~ (s <= a < e).
Proof.
  intros H1 H2 H3. unfold pieces, covered. split.
  - intros (x & Hx & Ha). apply elem_of_app in Hx as [Hx|Hx]; bool_to_prop;
      try (by apply elem_of_nil in Hx); apply list_elem_of_singleton in Hx as ->; simpl in Ha; lia.
  - intros [Ha Hn]. destruct (decide (a < s)).
    + exists (mkAlloc (start d) s (info d) (used d)). split; [|simpl; lia]. apply elem_of_app. left.
      destruct (Z.eqb_spec (start d) s); [lia|set_solver].
    + exists (mkAlloc e (end_ d) (info d) (used d)). split; [|simpl; lia]. apply elem_of_app. right.
      destruct (Z.eqb_spec e (end_ d)); [lia|set_solver].
Qed.

Lemma pieces_chain d s e : alloc_ok d -> start d <= s -> s <= e -> e <= end_ d -> chain (pieces d s e).
Proof.
  intros Hd H1 H2 H3. unfold pieces, alloc_ok in *. apply chain_app. split_and!.
  - destruct (Z.eqb_spec (start d) s); [apply chain_nil|]. apply chain_cons. unfold alloc_ok. simpl.
    split_and!; [lia..|apply chain_nil|set_solver].
  - destruct (Z.eqb_spec e (end_ d)); [apply chain_nil|]. apply chain_cons. unfold alloc_ok. simpl.
    split_and!; [lia..|apply chain_nil|set_solver].
  - intros a b Ha Hb. unfold before. bool_to_prop; try (by apply elem_of_nil in Ha); try (by apply elem_of_nil in Hb).
    apply list_elem_of_singleton in Ha as ->. apply list_elem_of_singleton in Hb as ->. simpl. lia.
Qed.

(** [cut_pages] replaces the block by its pieces. *)
Lemma cut_pages_inorder t p l d r A B :
  wf t -> subtree t p = Node l d r -> inorder t = A ++ d :: B -> PAGE_SIZE < node_size d ->
  let s := page_up (start d) in let e := page_down (end_ d) in
  s < e -> inorder (cut_pages t p d s e (ADDR_PAGE (e -u s))) = A ++ pieces d s e ++ B.
Proof.
  intros Hwf Hs Hi Hsz s e Hse. pose proof Hwf as Hc. unfold wf in Hc. rewrite Hi in Hc.
  pose proof Hc as (HA & HB & Hd & H1 & H2 & _)%chain_mid.
  destruct (inner_pages d Hd Hsz) as (Hse1 & He1 & Hn & _). fold s e in Hse1, He1, Hn.
  pose proof (node_size_eq d Hd) as Hns. unfold alloc_ok in Hd.
  destruct (set_at_inorder t p l d r Hs) as (A' & B' & Hi' & _ & Hrem).
  rewrite Hi in Hi'. destruct (chain_mid_unique _ _ _ _ _ Hc Hi') as [<- <-].
  unfold cut_pages. rewrite Hn, Hns. unfold pieces.
  destruct (Z.eqb_spec (e - s) (end_ d - start d)) as [Eall|Nall].
  { rewrite Hrem. assert (start d = s) as <- by lia. assert (e = end_ d) as -> by lia. by rewrite !Z.eqb_refl. }
  rewrite (u32_id (end_ d - e)), (u32_id (s - start d)) by (unfold is_u32; lia).
  set (x := mkAlloc e (end_ d) (info d) (used d)).
  set (t1 := if truthy (end_ d - e) then add_node compare_func t x else t).
  assert (inorder t1 = A ++ d :: (if e =? end_ d then [] else [x]) ++ B) as Hi1.
  { unfold t1, truthy. destruct (Z.eqb_spec (end_ d - e) 0), (Z.eqb_spec e (end_ d)); simpl; try lia; [done|].
    replace (A ++ d :: x :: B) with ((A ++ [d]) ++ x :: B) by by rewrite <- app_assoc.
    apply (add_at start compare_func compare_eq compare_gt); [by apply chain_bst|by rewrite <- app_assoc| |].
    - intros a [Ha|Ha]%elem_of_app; [|apply list_elem_of_singleton in Ha as ->; simpl; lia].
      specialize (H1 a Ha). pose proof (chain_ok _ _ HA Ha). unfold before, alloc_ok in *. simpl. lia.
    - intros b Hb. specialize (H2 b Hb). unfold before in *. simpl. lia. }
  assert (exists l1 r1, subtree t1 p = Node l1 d r1) as (l1 & r1 & Hs1).
  { unfold t1. destruct (truthy _); [by eapply add_subtree|eauto]. }
  destruct (set_at_inorder t1 p l1 d r1 Hs1) as (A1 & B1 & Hi1' & Hset1 & Hrem1).
  rewrite Hi1 in Hi1'. apply mid_unique in Hi1' as [<- <-].
  - unfold truthy. destruct (Z.eqb_spec (s - start d) 0), (Z.eqb_spec (start d) s); simpl; try lia.
    + by rewrite Hrem1.
    + rewrite Hset1. unfold shrink_block.
      rewrite (u32_id (end_ d - start d - (s - start d))) by (unfold is_u32; lia).
      rewrite (u32_id (end_ d - (end_ d - start d - (s - start d)))) by (unfold is_u32; lia).
      by replace (end_ d - (end_ d - start d - (s - start d))) with s by lia.
  - intros Ha. specialize (H1 d Ha). unfold before in H1. lia.
  - intros [Ha|Ha]%elem_of_app; [|specialize (H2 d Ha); unfold before in H2; lia].
    destruct (Z.eqb_spec e (end_ d)); [by apply elem_of_nil in Ha|].
    apply list_elem_of_singleton in Ha. unfold x in Ha. destruct d. simpl in *. simplify_eq. lia.
Qed.

(** What freeing the block [d], between [A] and [B], comes to: the tree [t'], and the pages from
    [s] to [e] that leave it: none or at least two, whole, and without a byte of a used block. *)
Definition released (A B : list allocation) (d : allocation) (t' : atree) (s e : Z) : Prop :=
  wf t' /\ used_blocks (inorder t') = used_blocks A ++ used_blocks B /\
  s mod PAGE_SIZE = 0 /\ e mod PAGE_SIZE = 0 /\ (s = e \/ s + N_FREE_PAGES_THRESHOLD * PAGE_SIZE <= e) /\
  (forall a, covered (inorder t') a <-> covered (A ++ d :: B) a /\ ~ (s <= a < e)) /\
  (forall a u, s <= a < e -> u ∈ used_blocks A ++ used_blocks B -> ~ (start u <= a < end_ u)).

Lemma free_chain_used A d B u a :
  chain (A ++ d :: B) -> used d = false -> start d <= a < end_ d ->
  u ∈ used_blocks (A ++ d :: B) -> ~ (start u <= a < end_ u).
Proof.
  intros (_ & _ & Hd & H1 & H2 & _)%chain_mid Hu Ha. rewrite used_blocks_app, used_blocks_cons_free by done.
  unfold used_blocks. intros [[_ Hin]%list_elem_of_filter|[_ Hin]%list_elem_of_filter]%elem_of_app ?.
  - specialize (H1 u Hin). unfold before in *. lia.
  - specialize (H2 u Hin). unfold before in *. lia.
Qed.

Section freeing.
Context {P : Type} `{PageOps P}.

(** The tree once the block at [p] is marked free and merged with its neighbours. *)
Lemma mark_and_merge t p l d r A B :
  wf t -> subtree t p = Node l d r -> inorder t = A ++ d :: B ->
  let t1 := set_at t p (mkAlloc (start d) (end_ d) (info d) false) in
  let t2 := put t1 p (merge_free_node (subtree t1 p)) in
  wf t2 /\ used_blocks (inorder t2) = used_blocks A ++ used_blocks B /\
  (forall a, covered (inorder t2) a <-> covered (A ++ d :: B) a) /\
  exists l2 d2 r2, subtree t2 p = Node l2 d2 r2 /\ used d2 = false.
Proof.
  intros Hwf Hs Hi t1 t2. unfold wf in Hwf. rewrite Hi in Hwf.
  set (d0 := mkAlloc (start d) (end_ d) (info d) false).
  destruct (set_at_inorder t p l d r Hs) as (A' & B' & Hi' & Hset & _).
  rewrite Hi in Hi'. destruct (chain_mid_unique _ _ _ _ _ Hwf Hi') as [<- <-].
  destruct (chain_replace A d B d0 Hwf) as [Hc0 Hcov0]; [done..|].
  assert (subtree t1 p = Node l d0 r) as Hs1 by by apply (set_at_subtree t p l d r d0).
  assert (exists x y z, subtree t1 p = Node y x z) as Hex by eauto.
  destruct (put_inorder t1 p Hex) as (A2 & B2 & Hi2 & Hput).
  assert (inorder t1 = A ++ d0 :: B) as Hi1 by apply Hset. rewrite <- Hi1, Hi2 in Hc0.
  destruct (merge_free_node_spec (subtree t1 p)) as (_ & (l2 & d2 & r2 & Hm & Hu2) & Hsame).
  { apply chain_app in Hc0 as (_ & (? & _)%chain_app & _). done. }
  { rewrite Hs1. by eexists _, _, _. }
  pose proof (same_ranges_context _ _ _ _ Hc0 Hsame) as (Hc2 & Hcov2 & Hub2).
  assert (inorder t2 = A2 ++ inorder (merge_free_node (subtree t1 p)) ++ B2) as Hi2' by apply Hput.
  rewrite <- Hi2' in Hc2, Hub2. setoid_rewrite <- Hi2' in Hcov2.
  split_and!; [done| | |].
  - rewrite Hub2, <- Hi2, Hi1, used_blocks_app. by rewrite used_blocks_cons_free.
  - intros a. by rewrite Hcov2, <- Hi2, Hi1, Hcov0.
  - exists l2, d2, r2. unfold t2. by rewrite put_subtree.
Qed.

Lemma free_node_spec (m : memtree P) p l d r A B :
  wf (root m) -> subtree (root m) p = Node l d r -> inorder (root m) = A ++ d :: B ->
  exists t' s e, released A B d t' s e /\
    free_node m p = (pg ← free_pages (pages m) (freed_arguments s ((e - s) / PAGE_SIZE)); Ok (mkTree t' pg)).
Proof.
  intros Hwf Hs Hi. unfold free_node, node_at. rewrite Hs. run.
  destruct (mark_and_merge _ p l d r A B Hwf Hs Hi) as (Hwf2 & Hub & Hcov & l2 & d2 & r2 & Hs2 & Hu2).
  set (t2 := put _ p _) in *. rewrite Hs2. run. set (sd := page_up (start d2)). set (ed := page_down (end_ d2)).
  destruct (set_at_inorder t2 p l2 d2 r2 Hs2) as (A2 & B2 & Hi2 & _).
  pose proof (chain_ok _ d2 Hwf2 ltac:(rewrite Hi2; set_solver)) as Hd2.
  destruct (Z.leb_spec N_FREE_PAGES_THRESHOLD (if PAGE_SIZE <? node_size d2 then ADDR_PAGE (ed -u sd) else 0)) as [Hn|Hn].
  - destruct (Z.ltb_spec PAGE_SIZE (node_size d2)) as [Hsz|]; [|unfold N_FREE_PAGES_THRESHOLD in Hn; lia].
    destruct (inner_pages d2 Hd2 Hsz) as ([Hse1 Hse2] & He & _ & Hnum & Hal & Hale). fold sd ed in Hse1, Hse2, He, Hnum, Hal, Hale.
    assert (sd < ed) as Hlt.
    { destruct (decide (sd = ed)) as [E|]; [|lia]. rewrite Hnum, E, Z.sub_diag in Hn. done. }
    pose proof (cut_pages_inorder t2 p l2 d2 r2 A2 B2 Hwf2 Hs2 Hi2 Hsz Hlt) as Hcut. fold sd ed in Hcut.
    pose proof Hwf2 as Hc2. unfold wf in Hc2. rewrite Hi2 in Hc2.
    eexists (cut_pages t2 p d2 sd ed (ADDR_PAGE (ed -u sd))), sd, ed.
    split; [|by rewrite Hnum]. unfold released, wf. rewrite Hcut.
    pose proof (fun a => pieces_covered d2 sd ed a Hse1 Hse2 He) as Hpc.
    assert (forall a, covered (A2 ++ d2 :: B2) a /\ ~ (sd <= a < ed) <-> covered (A2 ++ pieces d2 sd ed ++ B2) a) as Hcv.
    { intros a. rewrite !covered_app, covered_cons, Hpc. split; [tauto|]. intros [HA|[Hx|HB]]; [|tauto|].
      - split; [tauto|]. apply chain_mid in Hc2 as (_ & _ & _ & H1 & _). destruct HA as (x & Hx & ?).
        specialize (H1 x Hx). unfold before in H1. lia.
      - split; [tauto|]. apply chain_mid in Hc2 as (_ & _ & _ & _ & H2 & _). destruct HB as (x & Hx & ?).
        specialize (H2 x Hx). unfold before in H2. lia. }
    split_and!; [| |done|done| | |].
    + pose proof Hc2 as (HA & HB & _ & H1 & H2 & H3)%chain_mid.
      assert (forall x, x ∈ pieces d2 sd ed -> start d2 <= start x /\ end_ x <= end_ d2) as Hin.
      { intros x. unfold pieces. intros [Hx|Hx]%elem_of_app; bool_to_prop; try (by apply elem_of_nil in Hx);
          apply list_elem_of_singleton in Hx as ->; simpl; lia. }
      apply chain_app. split_and!; [done| |].
      * apply chain_app. split_and!; [by apply pieces_chain|done|]. intros x b Hx Hb.
        specialize (H2 b Hb). destruct (Hin x Hx). unfold before in *. lia.
      * intros a x Ha [Hx|Hx]%elem_of_app; [|by apply H3]. specialize (H1 a Ha). destruct (Hin x Hx). unfold before in *. lia.
    + rewrite <- Hub, Hi2, !used_blocks_app, used_blocks_cons_free by done. f_equal.
      rewrite used_blocks_free; [done|]. unfold pieces. rewrite Forall_app.
      split; bool_to_prop; repeat constructor; done.
    + right. rewrite Hnum in Hn. unfold N_FREE_PAGES_THRESHOLD, PAGE_SIZE in *.
      pose proof (Z.mul_div_le (ed - sd) 4096 ltac:(lia)). lia.
    + intros a. rewrite <- Hcv, <- Hi2. by rewrite Hcov.
    + intros a u Ha Hu'. rewrite <- Hub, Hi2 in Hu'. eapply free_chain_used; [done|done| |done]. lia.
  - exists t2, 0, 0. split; [|done]. unfold released. split_and!; [done..|by left| |lia].
    intros a. rewrite Hcov. split; [intros; split; [done|lia]|tauto].
Qed.

End freeing.

Section freeing_theorem.
Context {P : Type} `{PageOps P} (DEFAULT_FLAGS : Z).

(** Claim C2. [MemTree::free] on a tree of disjoint ranges.  The null pointer is ignored; an address where
    no range starts is [NOT_FOUND] and a range that is already free is [DOUBLE_FREE], both with the
    tree unchanged.  Freeing a used range removes exactly that range from the ranges in use; the
    ranges stay disjoint; and the bytes that leave the tree are none or at least two whole pages, from a page
    boundary to a page boundary, that hold no byte of a range still in use.  The page interface then gets the calls of
    [freed_arguments] (page numbers where it expects addresses, see [freed_arguments_are_page_numbers]), and the call
    returns when they do. *)
Theorem free_ok (m : memtree P) address :
  wf (root m) ->
  (address = 0 /\ free DEFAULT_FLAGS m address = Ok (m, FREE_OK)) \/
  (address <> 0 /\ (forall d, d ∈ inorder (root m) -> start d <> address) /\
   free DEFAULT_FLAGS m address = Ok (m, NOT_FOUND)) \/
  (address <> 0 /\ exists A d B, inorder (root m) = A ++ d :: B /\ start d = address /\
   ((used d = false /\ free DEFAULT_FLAGS m address = Ok (m, DOUBLE_FREE)) \/
    (used d = true /\ exists t' s e, released A B d t' s e /\
     free DEFAULT_FLAGS m address =
       (pg ← free_pages (pages m) (freed_arguments s ((e - s) / PAGE_SIZE)); Ok (mkTree t' pg, FREE_OK))))).
Proof.
  intros Hwf. unfold free. destruct (Z.eqb_spec address 0); [by left|right].
  unfold find_allocation_node. set (x := mkAlloc address 0 _ false).
  destruct (find_node compare_func (root m) x) as [p|] eqn:Hf.
  - right. split; [done|].
    destruct (find_node_Some start compare_func compare_eq _ _ _ Hf) as (d & l & r & Hs & Hk).
    destruct (set_at_inorder _ p l d r Hs) as (A & B & Hi & _). exists A, d, B. split_and!; [done..|].
    unfold node_at. rewrite Hs. run. destruct (used d) eqn:Hu; [right|by left]. split; [done|].
    destruct (free_node_spec m p l d r A B Hwf Hs Hi) as (t' & s & e & Hr & ->). exists t', s, e. split; [done|].
    by destruct (free_pages _ _).
  - left. split_and!; [done| |done]. intros d Hd.
    apply (find_node_None start compare_func compare_eq compare_gt (root m) x (chain_bst _ Hwf) Hf d Hd).
Qed.

End freeing_theorem.

(** ** Resizing in place *)

Section resizing.
Context {P : Type} `{PageOps P} (DEFAULT_FLAGS : Z).

Lemma realloc_shrink_spec (m : memtree P) p l d r size A B :
  wf (root m) -> subtree (root m) p = Node l d r -> inorder (root m) = A ++ d :: B ->
  0 < size < node_size d ->
  let d1 := mkAlloc (start d) (start d + size) (info d) (used d) in
  let x := mkAlloc (start d + size) (end_ d) (info d) false in
  inorder (root (realloc_shrink m p d size)) = A ++ d1 :: x :: B /\ pages (realloc_shrink m p d size) = pages m /\
  wf (root (realloc_shrink m p d size)) /\
  (forall a, covered (A ++ d1 :: x :: B) a <-> covered (inorder (root m)) a).
Proof.
  intros Hwf Hs Hi Hsz d1 x. pose proof Hwf as Hc. unfold wf in Hc. rewrite Hi in Hc.
  pose proof Hc as (_ & _ & Hd & _ & H2 & _)%chain_mid. rewrite (node_size_eq d Hd) in Hsz.
  destruct (set_at_inorder _ p l d r Hs) as (A' & B' & Hi' & Hset & _).
  rewrite Hi in Hi'. destruct (chain_mid_unique _ _ _ _ _ Hc Hi') as [<- <-].
  destruct (cut_chain A d B size (info d) (used d) Hc Hsz) as [Hc1 Hcov1]. fold d1 x in Hc1, Hcov1.
  assert (inorder (root (realloc_shrink m p d size)) = A ++ d1 :: x :: B) as Hin.
  { unfold realloc_shrink, shrink_block. rewrite (node_size_eq d Hd). simpl. unfold alloc_ok in Hd.
    rewrite (u32_id (end_ d - start d - size)) by (unfold is_u32; lia).
    rewrite (u32_id (end_ d - (end_ d - start d - size))) by (unfold is_u32; lia).
    replace (end_ d - (end_ d - start d - size)) with (start d + size) by lia.
    rewrite (u32_id (start d + size + (end_ d - start d - size))) by (unfold is_u32; lia).
    replace (start d + size + (end_ d - start d - size)) with (end_ d) by lia. fold d1 x.
    apply add_remainder; [|apply Hset|done|].
    - unfold wf. rewrite Hset. apply chain_mid in Hc1 as (?&(?&?&?)%chain_cons&?&?&Hb&Hab).
      apply chain_mid. split_and!; [done..| |]; intros; [apply Hb|apply Hab]; set_solver.
    - intros b Hb. specialize (H2 b Hb). unfold before in H2. simpl. lia. }
  split_and!; [done|done|unfold wf; by rewrite Hin|]. intros a. by rewrite Hcov1, Hi.
Qed.

(** A block found by its start address. *)
Lemma find_allocation_node_Some (m : memtree P) A d B :
  wf (root m) -> inorder (root m) = A ++ d :: B ->
  exists p l r, find_allocation_node DEFAULT_FLAGS m (start d) = Some p /\ subtree (root m) p = Node l d r.
Proof.
  intros Hwf Hi. unfold find_allocation_node. set (x := mkAlloc (start d) 0 _ false).
  destruct (find_node compare_func (root m) x) as [p|] eqn:Hf.
  - destruct (find_node_Some start compare_func compare_eq _ _ _ Hf) as (d' & l & r & Hs & Hk). simpl in Hk.
    exists p, l, r. split; [done|]. rewrite Hs. f_equal.
    destruct (set_at_inorder _ p l d' r Hs) as (A' & B' & Hi' & _).
    assert (d' ∈ A ++ d :: B) as [Ha|[->|Hb]%elem_of_cons]%elem_of_app by (rewrite <- Hi, Hi'; set_solver); [|done|];
      unfold wf in Hwf; rewrite Hi in Hwf; apply chain_mid in Hwf as (HA & HB & Hd & H1 & H2 & _).
    + specialize (H1 d' Ha). pose proof (chain_ok _ _ HA Ha). unfold before, alloc_ok in *. lia.
    + specialize (H2 d' Hb). unfold before, alloc_ok in *. lia.
  - exfalso. apply (find_node_None start compare_func compare_eq compare_gt (root m) x (chain_bst _ Hwf) Hf d);
      [rewrite Hi; set_solver|done].
Qed.

(** [MemTree::realloc] to a strictly smaller size: the block keeps its address, loses its tail to a
    free block, and nothing else changes. *)
Theorem realloc_shrinks (m : memtree P) A d B size k :
  wf (root m) -> inorder (root m) = A ++ d :: B -> used d = true -> 0 < size < node_size d ->
  exists m', realloc DEFAULT_FLAGS m (start d) size k = Ok (m', REALLOC_OK, Some (start d)) /\
    wf (root m') /\ pages m' = pages m /\
    (forall a, covered (inorder (root m')) a <-> covered (inorder (root m)) a) /\
    used_blocks (inorder (root m')) =
      used_blocks A ++ mkAlloc (start d) (start d + size) (info d) true :: used_blocks B.
Proof.
  intros Hwf Hi Hu Hsz. destruct (find_allocation_node_Some m A d B Hwf Hi) as (p & l & r & Hf & Hs).
  pose proof (chain_ok _ d Hwf ltac:(rewrite Hi; set_solver)) as [Hd _].
  destruct (realloc_shrink_spec m p l d r size A B Hwf Hs Hi Hsz) as (Hin & Hpg & Hwf' & Hcov).
  exists (realloc_shrink m p d size). unfold realloc, node_at. rewrite Hf, Hs.
  rewrite (proj2 (Z.eqb_neq (start d) 0)), (proj2 (Z.eqb_neq size 0)) by lia. run.
  rewrite (proj2 (Z.leb_le size (node_size d))) by lia. split_and!; [done..|by setoid_rewrite Hin|].
  rewrite Hin, used_blocks_app, used_blocks_cons_used by done. by rewrite used_blocks_cons_free, Hu.
Qed.

(** Growing a block takes in the next block of its right subtree when both are in use (the test
    compares the two [used] flags and the block being resized is in use): the caller of that
    next block loses it, although [realloc] reports success. *)
Theorem realloc_swallows_used (m : memtree P) p l d r c r' size k A B :
  wf (root m) -> inorder (root m) = A ++ d :: c :: B ->
  find_allocation_node DEFAULT_FLAGS m (start d) = Some p -> subtree (root m) p = Node l d r ->
  extract_replacement r = Some (c, r') ->
  used d = true -> used c = true -> info c = info d -> start c = end_ d ->
  node_size d < size < node_size d + node_size c ->
  exists m', realloc DEFAULT_FLAGS m (start d) size k = Ok (m', REALLOC_OK, Some (start d)) /\
    used_blocks (inorder (root m')) =
      used_blocks A ++ mkAlloc (start d) (start d + size) (info d) true :: used_blocks B /\
    free DEFAULT_FLAGS m' (start c) = Ok (m', NOT_FOUND).
Proof.
  intros Hwf Hi Hf Hs He Hud Huc Hinf Hcd Hsz.
  pose proof Hwf as Hc. unfold wf in Hc. rewrite Hi in Hc.
  pose proof Hc as (HA & (Hcok & HB & HcB)%chain_cons & Hd & H1 & H2 & H3)%chain_mid.
  pose proof (node_size_eq d Hd) as Hnd. pose proof (node_size_eq c Hcok) as Hnc. unfold alloc_ok in Hd, Hcok.
  set (dm := mkAlloc (start d) (end_ c) (info d) (used d)).
  assert (merge_node_with_free_successor (Node l d r) = Some (Node l dm r')) as Hm.
  { simpl. rewrite He. unfold is_similar_and_contiguous. rewrite Hcd, Z.eqb_refl, Huc, Hud. simpl.
    rewrite bool_decide_true by done. simpl. rewrite Hnc, u32_id by (unfold is_u32; lia).
    unfold dm. rewrite <- Hcd, Hud. do 3 f_equal. lia. }
  destruct (put_inorder (root m) p ltac:(eauto)) as (A0 & B0 & Hi0 & Hput). rewrite Hs in Hi0. simpl in Hi0.
  rewrite (extract_replacement_inorder _ _ _ He), Hi in Hi0.
  assert (A = A0 ++ inorder l /\ c :: B = c :: inorder r' ++ B0) as [-> HB0].
  { eapply chain_mid_unique; [done|]. rewrite Hi0. by rewrite <- !app_assoc. }
  injection HB0 as ->. set (t1 := put (root m) p (Node l dm r')).
  assert (inorder t1 = (A0 ++ inorder l) ++ dm :: inorder r' ++ B0) as Hi1
    by (unfold t1; rewrite Hput; simpl; by rewrite <- !app_assoc).
  assert (wf t1) as Hwf1.
  { unfold wf. rewrite Hi1. apply chain_mid. unfold alloc_ok, before in *. simpl. split_and!; try done; try lia.
    intros a b Ha Hb. apply H3; set_solver. }
  assert (subtree t1 p = Node l dm r') as Hs1 by (unfold t1; rewrite put_subtree; eauto).
  assert (node_size dm = end_ c - start d) as Hndm by (rewrite node_size_eq; [done|unfold alloc_ok; simpl; lia]).
  destruct (realloc_shrink_spec (mkTree t1 (pages m)) p l dm r' size (A0 ++ inorder l) (inorder r' ++ B0) Hwf1 Hs1 Hi1
              ltac:(lia)) as (Hin & _ & Hwf' & _).
  exists (realloc_shrink (mkTree t1 (pages m)) p dm size). split_and!.
  - unfold realloc, node_at. rewrite (proj2 (Z.eqb_neq (start d) 0)), (proj2 (Z.eqb_neq size 0)) by lia.
    rewrite Hf, Hs. run. rewrite (proj2 (Z.leb_gt size (node_size d))), (proj2 (Z.eqb_neq (node_size d) size)) by lia.
    rewrite Hm. fold t1. simpl. rewrite Hs1. run. by rewrite (proj2 (Z.leb_le size (node_size dm))) by lia.
  - rewrite Hin. simpl. rewrite used_blocks_app, used_blocks_cons_used by done. by rewrite used_blocks_cons_free, Hud.
  - set (m' := realloc_shrink _ _ _ _) in *. unfold free. rewrite (proj2 (Z.eqb_neq (start c) 0)) by lia.
    destruct (find_allocation_node DEFAULT_FLAGS m' (start c)) as [q|] eqn:Hq; [exfalso|done].
    destruct (find_node_Some start compare_func compare_eq _ _ _ Hq) as (d' & l' & r1 & Hs' & Hk). simpl in Hk.
    destruct (set_at_inorder _ q l' d' r1 Hs') as (A' & B' & Hi' & _).
    assert (d' ∈ inorder (root m')) as Hd' by (rewrite Hi'; set_solver). rewrite Hin in Hd'. simpl in Hd'.
    apply elem_of_app in Hd' as [Ha|[->|[->|Hb]%elem_of_cons]%elem_of_cons]; simpl in Hk; try lia.
    + specialize (H1 d' Ha). pose proof (chain_ok _ _ HA Ha). unfold before, alloc_ok in *. lia.
    + specialize (HcB d' Hb). unfold before in HcB. lia.
Qed.

Lemma add_node_elem (t : atree) x : x ∈ inorder (add_node compare_func t x).
Proof. induction t as [|l IHl d r IHr]; simpl; [set_solver|]. destruct (0 <=? compare_func d x); simpl; set_solver. Qed.

(** Resizing a block to the size it has: the test [size <= base_node_size] comes before the test for
    equality, so the branch that would leave the block alone is dead, and an empty free block
    enters the tree right behind it; the invariant is lost. *)
Theorem realloc_same_size (m : memtree P) A d B k :
  wf (root m) -> inorder (root m) = A ++ d :: B ->
  exists m', realloc DEFAULT_FLAGS m (start d) (node_size d) k = Ok (m', REALLOC_OK, Some (start d)) /\
    mkAlloc (end_ d) (end_ d) (info d) false ∈ inorder (root m') /\ ~ wf (root m').
Proof.
  intros Hwf Hi. destruct (find_allocation_node_Some m A d B Hwf Hi) as (p & l & r & Hf & Hs).
  pose proof (chain_ok _ d Hwf ltac:(rewrite Hi; set_solver)) as Hd.
  pose proof (node_size_eq d Hd) as Hn. unfold alloc_ok in Hd.
  exists (realloc_shrink m p d (node_size d)).
  assert (mkAlloc (end_ d) (end_ d) (info d) false ∈ inorder (root (realloc_shrink m p d (node_size d)))) as Hin.
  { unfold realloc_shrink, shrink_block. rewrite Z.sub_diag. change (u32 0) with 0. rewrite !Z.sub_0_r. simpl.
    rewrite Z.add_0_r, !(u32_id (end_ d)) by (unfold is_u32; lia). apply add_node_elem. }
  split_and!; [|done|].
  - unfold realloc, node_at. rewrite (proj2 (Z.eqb_neq (start d) 0)), (proj2 (Z.eqb_neq (node_size d) 0)) by lia.
    rewrite Hf, Hs. run. by rewrite Z.leb_refl.
  - intros Hbad. pose proof (chain_ok _ _ Hbad Hin) as Hx. unfold alloc_ok in Hx. simpl in Hx. lia.
Qed.

End resizing.

(** ** Tearing a process down *)

(** The maximal runs of contiguous blocks, as start and end addresses. *)
Fixpoint regions_from (s e : Z) (l : list allocation) : list (Z * Z) :=
  match l with
  | [] => [(s, e)]
  | d :: l => if start d =? e then regions_from s (end_ d) l else (s, e) :: regions_from (start d) (end_ d) l
  end.

Definition regions (l : list allocation) : list (Z * Z) :=
  match l with [] => [] | d :: l => regions_from (start d) (end_ d) l end.

Section teardown.
Context {P : Type} `{PageOps P}.

(** Every page of a list of regions given back, from the lowest up. *)
Fixpoint free_regions (p : P) (l : list (Z * Z)) : res P :=
  match l with
  | [] => Ok p
  | (s, e) :: l =>
      _ ← ensure (Z.land (e -u s) (PAGE_SIZE - 1) =? 0);
      p ← free_pages p (map (fun i => s +u u32 (Z.shiftl (Z.of_nat i) 12)) (seq 0 (Z.to_nat ((e -u s) / PAGE_SIZE))));
      free_regions p l
  end.

Lemma region_loop_spec fuel t e s :
  (length (inorder t) <= fuel)%nat ->
  exists t' e', region_loop fuel t e = Ok (t', e') /\
    regions_from s e (inorder t) = (s, e') :: regions (inorder t') /\
    (length (inorder t') <= length (inorder t))%nat.
Proof.
  revert t e. induction fuel as [|fuel IH]; intros t e Hl.
  - destruct t as [|l d r]; simpl in Hl; [|rewrite length_app in Hl; simpl in Hl; lia].
    exists Leaf, e. done.
  - simpl. unfold pop_lowest. destruct (extract_replacement t) as [[d t']|] eqn:He.
    + apply extract_replacement_inorder in He. rewrite He in *. simpl in *.
      destruct (Z.eqb_spec (start d) e) as [_|].
      * destruct (IH t' (end_ d) ltac:(lia)) as (t2 & e2 & -> & Hr & Hle). exists t2, e2. split_and!; [done..|lia].
      * exists t, e. rewrite He. simpl. split_and!; [done..|lia].
    + apply extract_replacement_None in He as ->. exists Leaf, e. done.
Qed.

(** The first comparison, on a deleted node that is still intact, is a round of the loop. *)
Lemma first_region t stale_end :
  match pop_lowest t with
  | Some (d, t') => if start d =? stale_end then region_loop (nodes t') t' (end_ d) else Ok (t, stale_end)
  | None => Ok (t, stale_end)
  end = region_loop (nodes t) t stale_end.
Proof.
  destruct (nodes t) as [|n] eqn:Hn; unfold region_loop at 2; fold region_loop; unfold pop_lowest;
    (destruct (extract_replacement t) as [[d t']|] eqn:He; [|done]); apply extract_replacement_inorder in He;
    pose proof (nodes_length t) as Hl; rewrite He, Hn in Hl; simpl in Hl; [done|].
  injection Hl as ->. by rewrite nodes_length.
Qed.

Lemma free_all_loop_spec stale fuel (m : memtree P) :
  (forall d, stale d = end_ d) -> (length (inorder (root m)) <= fuel)%nat ->
  free_all_loop stale fuel m = (p ← free_regions (pages m) (regions (inorder (root m))); Ok (mkTree Leaf p)).
Proof.
  intros Hst. revert m. induction fuel as [|fuel IH]; intros [t pg] Hl; simpl in *.
  - destruct t as [|l d r]; simpl in Hl; [done|rewrite length_app in Hl; simpl in Hl; lia].
  - unfold pop_lowest at 1. destruct (extract_replacement t) as [[d t']|] eqn:He.
    + apply extract_replacement_inorder in He. rewrite He in *. simpl in *. rewrite Hst, first_region.
      destruct (region_loop_spec (nodes t') t' (end_ d) (start d)) as (t2 & e2 & -> & -> & Hle); [by rewrite nodes_length|].
      run. simpl. destruct (Z.land (e2 -u start d) (PAGE_SIZE - 1) =? 0); run; [|done].
      destruct (free_pages pg _) as [pg'| | |]; run; [|done..]. apply IH. simpl. lia.
    + apply extract_replacement_None in He as ->. done.
Qed.

(** [MemTree::free_all] terminates; if the memory of a deleted node keeps its contents for a moment, it
    empties the tree and gives back, in address order, every page of every maximal run of contiguous
    blocks, and stops the kernel at the first run whose length is not a whole number of pages. *)
Theorem free_all_ok stale (m : memtree P) :
  (forall d, stale d = end_ d) ->
  free_all stale m = (p ← free_regions (pages m) (regions (inorder (root m))); Ok (mkTree Leaf p)).
Proof. intros Hst. apply free_all_loop_spec; [done|]. by rewrite nodes_length. Qed.

End teardown.

(** ** The validity check *)

Lemma validity_aux_aux a (t : atree) :
  ensure_validity_aux_aux a t = if forallb (fun d => negb (do_overlap a d)) (inorder t) then Ok tt else Panic.
Proof.
  induction t as [|l IHl d r IHr]; simpl; [done|]. rewrite forallb_app. simpl. rewrite IHl, IHr.
  destruct (do_overlap a d); simpl; [by rewrite andb_false_r|].
  destruct (forallb _ (inorder l)); run; [by destruct (forallb _ (inorder r))|done].
Qed.

Lemma validity_aux (t root : atree) :
  ensure_validity_aux t root =
  if forallb (fun a => forallb (fun d => negb (do_overlap a d)) (inorder root)) (inorder t) then Ok tt else Panic.
Proof.
  induction t as [|l IHl d r IHr]; simpl; [done|]. rewrite forallb_app. simpl. rewrite validity_aux_aux, IHl, IHr.
  destruct (forallb _ (inorder root)); simpl; run; [|by rewrite andb_false_r].
  destruct (forallb _ (inorder l)); run; [by destruct (forallb _ (inorder r))|done].
Qed.

(** Two different ranges of a tree that passes the check share no byte; the check looks at each
    pair in both directions. *)
Lemma no_overlap_disjoint a b :
  start a < end_ a -> start b < end_ b -> do_overlap a b = false -> do_overlap b a = false ->
  (start a = start b /\ end_ a = end_ b) \/ end_ a <= start b \/ end_ b <= start a.
Proof. unfold do_overlap. bool_to_prop; simpl; intros; try done; lia. Qed.

Lemma wf_no_overlap (t : atree) a b : wf t -> a ∈ inorder t -> b ∈ inorder t -> do_overlap a b = false.
Proof.
  intros Hwf Ha Hb. pose proof (chain_ok _ _ Hwf Ha) as Hoa. pose proof (chain_ok _ _ Hwf Hb) as Hob.
  apply list_elem_of_split in Ha as (A & B & Hi). rewrite Hi in Hb. unfold wf in Hwf. rewrite Hi in Hwf.
  apply chain_mid in Hwf as (_ & _ & _ & H1 & H2 & _). unfold alloc_ok, before, do_overlap in *.
  apply elem_of_app in Hb as [Hb|[->|Hb]%elem_of_cons].
  - specialize (H1 b Hb). bool_to_prop; simpl; lia || done.
  - rewrite !Z.eqb_refl. by rewrite andb_false_r.
  - specialize (H2 b Hb). bool_to_prop; simpl; lia || done.
Qed.

Lemma wf_bst_validity (t : atree) : wf t -> BST.ensure_validity compare_func t = Ok tt.
Proof.
  intros Hwf%chain_bst. unfold BST.ensure_validity. induction t as [|l IHl d r IHr]; [done|].
  apply (bst_node start) in Hwf as (Hl & Hr & H1 & H2 & _). simpl.
  assert (match l with Leaf => Ok tt | Node _ ld _ => if compare_func d ld <? 0 then Panic else BST.ensure_validity_aux compare_func l end = Ok tt) as ->.
  { destruct l as [|ll ld lr]; [done|]. destruct (Z.ltb_spec (compare_func d ld) 0) as [Hlt|]; [|by apply IHl].
    specialize (H1 ld ltac:(set_solver)). pose proof (compare_eq d ld). pose proof (compare_gt d ld). lia. }
  run. destruct r as [|rl rd rr]; [done|]. destruct (Z.ltb_spec 0 (compare_func d rd)) as [Hlt|]; [|done].
  apply compare_gt in Hlt. specialize (H2 rd ltac:(set_solver)). lia.
Qed.

(** [MemTree::ensure_validity] never stops the kernel on a tree that satisfies the invariant, and
    a tree of non-empty ranges that passes it has no two ranges that share a byte without being
    equal. *)
Theorem ensure_validity_ok {P} (m : memtree P) :
  (wf (root m) -> ensure_validity m = Ok tt) /\
  (ensure_validity m = Ok tt -> (forall d, d ∈ inorder (root m) -> start d < end_ d) ->
   forall a b, a ∈ inorder (root m) -> b ∈ inorder (root m) ->
   (start a = start b /\ end_ a = end_ b) \/ end_ a <= start b \/ end_ b <= start a).
Proof.
  unfold ensure_validity. split.
  - intros Hwf. rewrite (wf_bst_validity _ Hwf). run. rewrite validity_aux.
    rewrite (proj2 (forallb_forall _ _)); [done|]. intros a Ha. apply forallb_forall. intros b Hb.
    apply negb_true_iff. by apply (wf_no_overlap (root m)); [|apply list_elem_of_In..].
  - destruct (BST.ensure_validity compare_func (root m)) as [[]| | |]; run; [|done..]. rewrite validity_aux.
    destruct (forallb _ (inorder (root m))) eqn:Hall; [|done]. intros _ Hne a b Ha Hb.
    rewrite forallb_forall in Hall.
    assert (forall x y, x ∈ inorder (root m) -> y ∈ inorder (root m) -> do_overlap x y = false) as Hov.
    { intros x y Hx Hy. apply list_elem_of_In in Hx, Hy. specialize (Hall x Hx). rewrite forallb_forall in Hall.
      by apply negb_true_iff, Hall. }
    apply no_overlap_disjoint; auto.
Qed.

(** [register_external_allocation] only asks whether an end of the new range falls inside a
    registered one, so a range around a registered range, or equal to it, is accepted; any
    other overlap with the only registered range stops the kernel. *)
Theorem register_accepts_enclosing {P} (pg : P) d x :
  start d < end_ d -> start x < end_ x ->
  let m := mkTree (Node Leaf d Leaf) pg in
  (register_external_allocation m x = Panic \/
   register_external_allocation m x = Ok (mkTree (add_node compare_func (root m) x) pg)) /\
  (register_external_allocation m x <> Panic <->
   end_ x <= start d \/ end_ d <= start x \/ (start x < start d /\ end_ d < end_ x) \/
   (start x = start d /\ end_ x = end_ d)).
Proof.
  intros Hd Hx m. unfold register_external_allocation. rewrite validity_aux_aux. simpl.
  destruct (do_overlap x d) eqn:Ho; simpl; run; (split; [auto|]); unfold do_overlap in Ho;
    (split; [intros; first [done|bool_to_prop; simpl in *; try done; lia] |
             intros; first [done|bool_to_prop; simpl in *; try done; lia]]).
Qed.

(** ** The pages [free_node] asks for *)

(** The addresses [free_node] passes to [free_page] are page numbers ([ADDR_PAGE] of the page's
    address, and the counter is added before the shift): for the run of pages at [s], up to 4096
    of them, every call gets the page number of the first page of the run, so no call but
    possibly one about page 0 names a page of the run. *)
Theorem freed_arguments_are_page_numbers s n :
  0 <= s -> s mod PAGE_SIZE = 0 -> 0 <= n <= 4096 -> s + n * PAGE_SIZE <= 4294967296 ->
  freed_arguments s n = replicate (Z.to_nat n) (s / PAGE_SIZE) /\
  (forall a, a ∈ freed_arguments s n -> s <= a < s + n * PAGE_SIZE -> s = 0).
Proof.
  unfold PAGE_SIZE. intros Hs Hm Hn Hend.
  assert (freed_arguments s n = replicate (Z.to_nat n) (s / 4096)) as Heq.
  { unfold freed_arguments. rewrite <- (length_seq (Z.to_nat n) 0) at 2. rewrite <- const_fmap with (l := seq 0 (Z.to_nat n)) (f := fun _ => s / 4096) by done.
    apply list_fmap_ext. intros k i Hi. apply lookup_seq in Hi as [-> Hlt]. simpl.
    unfold ADDR_PAGE. rewrite u32_id by (unfold is_u32; lia). rewrite Z.shiftr_div_pow2 by lia. change (2 ^ 12) with 4096.
    pose proof (Z.div_mod s 4096 ltac:(lia)) as Hd. rewrite Hm in Hd.
    replace (s + Z.of_nat k) with (Z.of_nat k + s / 4096 * 4096) by lia. rewrite Z.div_add by lia.
    rewrite Z.div_small by lia. lia. }
  split; [done|]. intros a Ha Hin. rewrite Heq in Ha. apply elem_of_replicate in Ha as [-> _].
  pose proof (Z.div_mod s 4096 ltac:(lia)). lia.
Qed.

Lemma freed_arguments_witness : freed_arguments 3223322624 2 = [786944; 786944] /\ 786944 <> 3223322624.
Proof.
  destruct (freed_arguments_are_page_numbers 3223322624 2) as [H _]; [lia|done|lia|unfold PAGE_SIZE; lia|].
  split; [rewrite H; reflexivity|lia].
Defined.

(** ** A page supply that counts upwards *)

Module Counter.

#[export] Instance counter_ops : PageOps nat := {
  sbrk p n pi hi := if Z.of_nat p + n <=? 1048575 then Ok ((p + Z.to_nat n)%nat, Z.of_nat p * PAGE_SIZE) else Ok (p, 0);
  free_page p a := Ok p;
  copy p dst src n := Ok p
}.

#[export] Instance counter_laws : PageLaws nat.
Proof.
  refine {| page_inv p := True; mapped p i := i < Z.of_nat p \/ i = 1048575 |}; unfold sbrk, counter_ops, PAGE_SIZE.
  - intros p n pi hi p' a _ Hn _ _. destruct (Z.leb_spec (Z.of_nat p + n) 1048575); intros [= <- <-] Ha; [|done].
    rewrite Z.mod_mul, Z.div_mul by lia. split_and!; [done|lia|done|lia| |]; intros i; lia.
  - intros p n pi hi p' _ Hn _ _. destruct (Z.leb_spec (Z.of_nat p + n) 1048575); intros Heq; (split; [done|]); intros i; simplify_eq; lia.
Defined.

Definition KP : page_info := mkInfo 34 DEFAULT_K_POLICY.

(** Two blocks of 100 bytes on a heap that starts at page 16. *)
Definition heap0 : memtree nat := mkTree Leaf 16%nat.
Definition heap2 : memtree nat :=
  mkTree (Node Leaf (mkAlloc 65536 65636 KP true)
           (Node Leaf (mkAlloc 65636 65736 KP true) (Node Leaf (mkAlloc 65736 73728 KP false) Leaf))) 18%nat.

Lemma heap2_allocated :
  ('(m, a) ← allocate heap0 100 KP DEFAULT_HINT_INFO; '(m, b) ← allocate m 100 KP DEFAULT_HINT_INFO; Ok (m, a, b))
  = Ok (heap2, 65536, 65636).
Proof. reflexivity. Qed.

Lemma heap2_wf : wf (root heap2).
Proof.
  unfold wf. simpl. rewrite !chain_cons. unfold alloc_ok, before. simpl.
  split_and!; try lia; [apply chain_nil|set_solver|..]; intros b Hb;
    repeat (apply elem_of_cons in Hb as [->|Hb]; [simpl; lia|]); by apply elem_of_nil in Hb.
Qed.

Lemma heap2_owned : owned heap2.
Proof.
  split_and!; simpl; [done| |by right]. intros a (d & Hd & Ha). left. unfold PAGE_SIZE.
  apply Z.div_lt_upper_bound; [lia|].
  repeat (apply elem_of_cons in Hd as [->|Hd]; [simpl in Ha; lia|]). by apply elem_of_nil in Hd.
Qed.

End Counter.
Import Counter.

Lemma allocate_ok_witness :
  exists m', allocate heap2 5000 KP DEFAULT_HINT_INFO = Ok (m', 65736) /\ one_more (root heap2) (root m') 65736 5000.
Proof.
  destruct (allocate_ok heap2 5000 KP DEFAULT_HINT_INFO) as (m' & a & He & _ & _ & Hc);
    [apply heap2_wf|apply heap2_owned|lia|split; simpl; lia|eauto|].
  exists m'. vm_compute in He. injection He as <- <-. split; [reflexivity|].
  destruct Hc as [[? _]|[_ Hc]]; [done|exact Hc].
Defined.

(** A size that wraps when it is rounded up to pages: the call returns the start of two pages, and
    the tree gets a range that ends before it starts. *)
Theorem allocate_wraps :
  exists m', allocate heap0 4294967295 KP DEFAULT_HINT_INFO = Ok (m', 65536) /\
    mkAlloc 65536 65535 KP true ∈ inorder (root m') /\ ~ wf (root m').
Proof.
  eexists. split; [vm_compute; reflexivity|]. cbn [root inorder app]. split; [set_solver|].
  intros Hwf.
  apply (chain_ok _ (mkAlloc 65536 65535 KP true)) in Hwf; [|cbn [inorder app]; set_solver]. unfold alloc_ok in Hwf. simpl in Hwf. lia.
Qed.

Lemma free_ok_witness :
  (exists t', free 34 heap2 65536 = Ok (mkTree t' 18%nat, FREE_OK) /\
    used_blocks (inorder t') = [mkAlloc 65636 65736 KP true]) /\
  free 34 heap2 65736 = Ok (heap2, DOUBLE_FREE) /\ free 34 heap2 5 = Ok (heap2, NOT_FOUND).
Proof.
  split_and!; [|reflexivity|reflexivity].
  destruct (free_ok 34 heap2 65536 heap2_wf) as [[? _]|[(_ & Hn & _)|(_ & A & d & B & Hi & Hs & Hc)]]; [done| |].
  { exfalso. apply (Hn (mkAlloc 65536 65636 KP true)); [simpl; set_solver|done]. }
  assert (A = [] /\ d = mkAlloc 65536 65636 KP true /\ B = [mkAlloc 65636 65736 KP true; mkAlloc 65736 73728 KP false]) as (-> & -> & ->).
  { simpl in Hi. destruct A as [|a [|a' [|a'' [|a3 A]]]]; simpl in Hi; simplify_eq; simpl in Hs; done. }
  destruct Hc as [[? _]|[_ (t' & s & e & (_ & Hu & _) & Hf)]]; [done|].
  exists t'. rewrite Hu, Hf. split; [|reflexivity]. simpl. clear Hf.
  induction (freed_arguments s ((e - s) / PAGE_SIZE)) as [|x l IH]; [done|exact IH].
Defined.

Lemma realloc_shrinks_witness :
  exists m', realloc 34 heap2 65536 60 true = Ok (m', REALLOC_OK, Some 65536) /\
    used_blocks (inorder (root m')) = [mkAlloc 65536 65596 KP true; mkAlloc 65636 65736 KP true].
Proof.
  destruct (realloc_shrinks 34 heap2 [] (mkAlloc 65536 65636 KP true)
    [mkAlloc 65636 65736 KP true; mkAlloc 65736 73728 KP false] 60 true heap2_wf) as (m' & Hr & _ & _ & _ & Hu);
    [reflexivity|reflexivity|split; reflexivity|].
  exists m'. split; [exact Hr|exact Hu].
Defined.

Lemma realloc_swallows_used_witness :
  exists m', realloc 34 heap2 65536 150 true = Ok (m', REALLOC_OK, Some 65536) /\
    free 34 m' 65636 = Ok (m', NOT_FOUND).
Proof.
  destruct (realloc_swallows_used 34 heap2 [] Leaf (mkAlloc 65536 65636 KP true)
    (Node Leaf (mkAlloc 65636 65736 KP true) (Node Leaf (mkAlloc 65736 73728 KP false) Leaf))
    (mkAlloc 65636 65736 KP true) (Node Leaf (mkAlloc 65736 73728 KP false) Leaf) 150 true
    [] [mkAlloc 65736 73728 KP false] heap2_wf) as (m' & Hr & _ & Hf);
    [reflexivity..|split; reflexivity|].
  exists m'. split; [exact Hr|exact Hf].
Defined.

Lemma ensure_validity_ok_witness :
  ensure_validity heap2 = Ok tt /\ (forall a b, a ∈ inorder (root heap2) -> b ∈ inorder (root heap2) ->
   (start a = start b /\ end_ a = end_ b) \/ end_ a <= start b \/ end_ b <= start a).
Proof.
  destruct (ensure_validity_ok heap2) as [H1 H2]. split; [apply H1, heap2_wf|].
  apply H2; [reflexivity|]. intros d Hd. apply (chain_ok _ _ heap2_wf Hd).
Defined.

Lemma register_accepts_enclosing_witness :
  register_external_allocation (mkTree (Node Leaf (mkAlloc 8192 12288 KP true) Leaf) 16%nat) (mkAlloc 4096 16384 KP true) <> Panic.
Proof.
  destruct (register_accepts_enclosing 16%nat (mkAlloc 8192 12288 KP true) (mkAlloc 4096 16384 KP true)) as [_ H];
    [simpl; lia|simpl; lia|].
  apply H. simpl. lia.
Defined.

Lemma realloc_same_size_witness :
  exists m', realloc 34 heap2 65536 100 true = Ok (m', REALLOC_OK, Some 65536) /\ ~ wf (root m').
Proof.
  destruct (realloc_same_size 34 heap2 [] (mkAlloc 65536 65636 KP true)
    [mkAlloc 65636 65736 KP true; mkAlloc 65736 73728 KP false] true heap2_wf) as (m' & Hr & _ & Hn); [reflexivity|].
  exists m'. split; [exact Hr|exact Hn].
Defined.

End MemTree.
