(* ===== verification/PageAlloc.v ===== *)
(** * Pages and frames ([kernel/core/RawMemory.cpp], [memory.cpp], [Process::update_pte])

    The kernel's page tables, the frame bookkeeping ([frame_to_page], [frame_rc]) and the page
    tables of one process.  [sbrk] and [free_page] are what the heap allocator of [MemTree] is
    written against; the kernel's side of them is shown to keep the promises [PageLaws] states,
    and never to map one frame at two pages.  The page directory and the TLB, which only the
    processor reads, are not part of the state. *)

From stdpp Require Import base tactics numbers list gmap sets.
From S2P Require Import Prelude BST MemTree.
Import MemTree.
Open Scope Z_scope.

Module PageAlloc.

(** ** Constants ([MemoryDefines.h]) *)

Definition PAGE_COW : Z := 256.
Definition PAGE_SHRO : Z := 1024.
Definition PDT_ENTRIES : Z := 1024.
Definition PT_ENTRIES : Z := 1024.
Definition KERNEL_VIRTUAL_BASE : Z := 3221225472.
Definition N_PAGES : Z := PDT_ENTRIES * PT_ENTRIES.

Definition FRAME_ID_ADDR (i : Z) : Z := u32 (Z.shiftl i 12).

(** ** State *)

(** An array of page tables of 1024 entries each; entries not listed are 0. *)
Record page_table := mkPT { entries : gmap Z Z; tables : Z }.

(** [PTE(page_tables, i)], read. *)
Definition PTE (pt : page_table) (i : Z) : res Z :=
  if (0 <=? i) && (Z.shiftr i 10 <? tables pt) then Ok (default 0 (entries pt !! i)) else Fault.

(** [PTE(page_tables, i) = v]. *)
Definition set_PTE (pt : page_table) (i v : Z) : res page_table :=
  if (0 <=? i) && (Z.shiftr i 10 <? tables pt) then Ok (mkPT (<[i := v]> (entries pt)) (tables pt)) else Fault.

(** The bits of an entry [PTE_USED] tests. *)
Definition used_entry (v : Z) : bool := truthy (Z.land v (Z.lor PAGE_PRESENT PAGE_LAZY_ZERO)).

Definition PTE_USED (pt : page_table) (i : Z) : res bool := used_entry <$> PTE pt i.

(** The globals of [RawMemory.cpp]; [frame_to_page] is [UINT_MAX] and [frame_rc] 0 where not
    listed.  [frame_data] is what the frames hold. *)
Record mem := mkMem {
  page_tables : page_table;
  frame_to_page : gmap Z Z;
  frame_rc : gmap Z Z;
  lowest_free_pe_user : Z;
  lowest_free_pe : Z;
  lowest_free_frame : Z;
  frame_data : gmap Z (list Z)
}.

Definition set_page_tables (m : mem) (pt : page_table) : mem :=
  mkMem pt (frame_to_page m) (frame_rc m) (lowest_free_pe_user m) (lowest_free_pe m) (lowest_free_frame m) (frame_data m).
Definition set_frame_to_page (m : mem) (f page : Z) : mem :=
  mkMem (page_tables m) (<[f := page]> (frame_to_page m)) (frame_rc m) (lowest_free_pe_user m) (lowest_free_pe m) (lowest_free_frame m) (frame_data m).
Definition set_frame_rc (m : mem) (f n : Z) : mem :=
  mkMem (page_tables m) (frame_to_page m) (<[f := n]> (frame_rc m)) (lowest_free_pe_user m) (lowest_free_pe m) (lowest_free_frame m) (frame_data m).
Definition set_lowest_free_frame (m : mem) (f : Z) : mem :=
  mkMem (page_tables m) (frame_to_page m) (frame_rc m) (lowest_free_pe_user m) (lowest_free_pe m) f (frame_data m).
Definition set_lowest_free_pe (m : mem) (p : Z) : mem :=
  mkMem (page_tables m) (frame_to_page m) (frame_rc m) (lowest_free_pe_user m) p (lowest_free_frame m) (frame_data m).
Definition set_lowest_free_pe_user (m : mem) (p : Z) : mem :=
  mkMem (page_tables m) (frame_to_page m) (frame_rc m) p (lowest_free_pe m) (lowest_free_frame m) (frame_data m).
Definition set_frame_data (m : mem) (f : Z) (d : list Z) : mem :=
  mkMem (page_tables m) (frame_to_page m) (frame_rc m) (lowest_free_pe_user m) (lowest_free_pe m) (lowest_free_frame m) (<[f := d]> (frame_data m)).

(** An index into the arrays of frames. *)
Definition frame_index (f : Z) : res Z := if (0 <=? f) && (f <? N_PAGES) then Ok f else Fault.

Definition page_of_frame (m : mem) (f : Z) : Z := default UINT_MAX (frame_to_page m !! f).
Definition rc (m : mem) (f : Z) : Z := default 0 (frame_rc m !! f).

(** [FRAME_USED(i)]. *)
Definition FRAME_USED (m : mem) (i : Z) : res bool :=
  i ← frame_index i; Ok (negb (page_of_frame m i =? UINT_MAX)).

(** [MARK_FRAME_USED(frame_id, page_id)]. *)
Definition MARK_FRAME_USED (m : mem) (frame_id page_id : Z) : res mem :=
  frame_id ← frame_index frame_id;
  let m := set_frame_to_page m frame_id page_id in
  if truthy (rc m frame_id) then Panic else Ok (set_frame_rc m frame_id (rc m frame_id +u 1)).

(** [MARK_FRAME_FREE(i)]. *)
Definition MARK_FRAME_FREE (m : mem) (i : Z) : res mem :=
  i ← frame_index i;
  let m := set_frame_to_page m i UINT_MAX in
  if 1 <? rc m i then Panic
  else
    let m := set_frame_rc m i 0 in
    Ok (set_lowest_free_frame m (Z.min (lowest_free_frame m) i)).

(** [PHYS_ADDR(page_tables, virt_addr) >> 12]. *)
Definition frame_of (entry : Z) : Z := Z.shiftr (Z.ldiff entry 1023) 12.

(** ** [RawMemory.cpp] *)

(** [while (i < limit && used(i)) i++]. *)
Fixpoint skip_used (used : Z -> res bool) (fuel : nat) (i limit : Z) : res Z :=
  if limit <=? i then Ok i
  else
    u ← used i;
    if negb u then Ok i
    else match fuel with O => NoFuel | S fuel => skip_used used fuel (i + 1) limit end.

(** [get_free_frame]. *)
Definition get_free_frame (m : mem) : res (mem * Z) :=
  f ← skip_used (FRAME_USED m) (S (size (frame_to_page m))) (lowest_free_frame m) N_PAGES;
  Ok (set_lowest_free_frame m f, f).

(** [get_free_pe]. *)
Definition get_free_pe (m : mem) : res (mem * Z) :=
  p ← skip_used (PTE_USED (page_tables m)) (S (size (entries (page_tables m)))) (lowest_free_pe m) N_PAGES;
  Ok (set_lowest_free_pe m p, p).

(** [get_free_pe_user] ([memory.cpp]). *)
Definition get_free_pe_user (m : mem) : res (mem * Z) :=
  p ← skip_used (PTE_USED (page_tables m)) (S (size (entries (page_tables m)))) (lowest_free_pe_user m) N_PAGES;
  Ok (set_lowest_free_pe_user m p, p).

(** [free_page(page_id)]. *)
Definition free_page_id (m : mem) (page_id : Z) : res mem :=
  entry ← PTE (page_tables m) page_id;
  let frame_id := frame_of entry in
  let lazy := truthy (Z.land entry PAGE_LAZY_ZERO) in
  _ ← ensure (negb (negb lazy && (frame_id =? 0)));
  pt ← set_PTE (page_tables m) page_id 0;
  let m := set_page_tables m pt in
  if negb lazy then MARK_FRAME_FREE m frame_id else Ok m.

(** [allocate_page(frame_id, page_id, policy)]. *)
Definition allocate_page_frame (m : mem) (frame_id page_id policy : Z) : res mem :=
  pt ← set_PTE (page_tables m) page_id (Z.lor (FRAME_ID_ADDR frame_id) policy);
  let m := set_page_tables m pt in
  if truthy (Z.land policy PAGE_PRESENT) then MARK_FRAME_USED m frame_id page_id else Ok m.

(** [allocate_page(page_id, policy)]. *)
Definition allocate_page (m : mem) (page_id policy : Z) : res mem :=
  '(m, f) ← get_free_frame m;
  allocate_page_frame m f page_id policy.

(** [for (; !PTE_USED(pt, pte) && pte != target; pte++) {}]: where the walk stops. *)
Fixpoint run_free (fuel : nat) (pt : page_table) (pte target : Z) : res Z :=
  u ← PTE_USED pt pte;
  if u || (pte =? target) then Ok pte
  else match fuel with O => NoFuel | S fuel => run_free fuel pt (pte + 1) target end.

(** The [while (true)] of [get_contiguous_pages]. *)
Fixpoint contiguous_loop (fuel : nat) (pt : page_table) (n b : Z) : res Z :=
  if N_PAGES <? b +u n then Ok UINT_MAX
  else
    pte ← run_free (Z.to_nat n) pt b (b +u n);
    if pte =? b +u n then Ok b
    else match fuel with O => NoFuel | S fuel => contiguous_loop fuel pt n (pte + 1) end.

(** [get_contiguous_pages]. *)
Definition get_contiguous_pages (n : Z) (hi : hint_info) (pt : page_table) (lowest_free_page_entry : Z) : res Z :=
  if is_mandatory hi then
    _ ← ensure (Z.land (hint hi) (PAGE_SIZE - 1) =? 0);
    let b := ADDR_PAGE (hint hi) in
    if N_PAGES <? b +u n then Ok UINT_MAX
    else
      pte ← run_free (Z.to_nat n) pt b (b +u n);
      Ok (if pte =? b +u n then b else UINT_MAX)
  else contiguous_loop (S (size (entries pt))) pt n (Z.max lowest_free_page_entry (ADDR_PAGE (hint hi))).

(** ** Processes and [memory.cpp] *)

(** What the memory code reads and writes of a [Process]: for the kernel process the page
    tables and the lowest free entry are the globals. *)
Record proc := mkProc { is_kernel : bool; p_tables : page_table; p_lowest : Z }.

Definition tables_of (m : mem) (p : proc) : page_table := if is_kernel p then page_tables m else p_tables p.
Definition lowest_of (m : mem) (p : proc) : Z := if is_kernel p then lowest_free_pe m else p_lowest p.

Definition with_tables (m : mem) (p : proc) (pt : page_table) : mem * proc :=
  if is_kernel p then (set_page_tables m pt, p) else (m, mkProc false pt (p_lowest p)).
Definition with_lowest (m : mem) (p : proc) (l : Z) : mem * proc :=
  if is_kernel p then (set_lowest_free_pe m l, p) else (m, mkProc false (p_tables p) l).

Definition present (e : Z) : bool := truthy (Z.land e PAGE_PRESENT).
Definition lazy_zero (e : Z) : bool := truthy (Z.land e PAGE_LAZY_ZERO).

(** [Process::update_pte]. *)
Definition update_pte (m : mem) (p : proc) (pte val : Z) : res (mem * proc) :=
  old ← PTE (tables_of m p) pte;
  previous_frame ← frame_index (Z.shiftr old 12);
  m ← (if truthy (rc m previous_frame) then Ok (set_frame_rc m previous_frame (rc m previous_frame - 1))
       else if present old && negb (lazy_zero old) then Panic
       else Ok m);
  pt ← set_PTE (tables_of m p) pte val;
  let '(m, p) := with_tables m p pt in
  if present val && negb (lazy_zero val) then
    frame_id ← frame_index (Z.shiftr val 12);
    Ok (set_frame_rc m frame_id (rc m frame_id +u 1), p)
  else Ok (m, p).

(** [for (uint i = b; i < e; ++i) allocate_page(i, policy)]. *)
Fixpoint allocate_pages (n : nat) (m : mem) (i policy : Z) : res mem :=
  match n with
  | O => Ok m
  | S n => m ← allocate_page m i policy; allocate_pages n m (i + 1) policy
  end.

(** The same for a process whose pages are also mapped by the kernel. *)
Fixpoint allocate_user_pages (n : nat) (m : mem) (p : proc) (i policy : Z) : res (mem * proc) :=
  match n with
  | O => Ok (m, p)
  | S n =>
      '(m, sys_pe) ← get_free_pe m;
      m ← allocate_page m sys_pe policy;
      entry ← PTE (page_tables m) sys_pe;
      '(m, p) ← update_pte m p i entry;
      allocate_user_pages n m p (i + 1) policy
  end.

(** The same for pages a process will get on first access. *)
Fixpoint allocate_lazy_pages (n : nat) (m : mem) (p : proc) (i policy : Z) : res (mem * proc) :=
  match n with
  | O => Ok (m, p)
  | S n => '(m, p) ← update_pte m p i policy; allocate_lazy_pages n m p (i + 1) policy
  end.

Definition supported_policy : Z := Z.lor (Z.lor (Z.lor PAGE_USER PAGE_LAZY_ZERO) PAGE_PRESENT) PAGE_WRITE.

(** [sbrk]; address 0 is the null pointer. *)
Definition sbrk (m : mem) (p : proc) (num_pages_requested : Z) (pi : page_info) (hi : hint_info)
  : res (mem * proc * Z) :=
  if lowest_free_frame m =? PT_ENTRIES * PDT_ENTRIES then Ok (m, p, 0)
  else
    b ← get_contiguous_pages num_pages_requested hi (tables_of m p) (lowest_of m p);
    if b =? UINT_MAX then Ok (m, p, 0)
    else
      let n := Z.to_nat ((b +u num_pages_requested) - b) in
      _ ← ensure (Z.ldiff (policy pi) supported_policy =? 0);
      _ ← ensure (negb (present (policy pi) && lazy_zero (policy pi)));
      '(m, p) ← (if is_kernel p then m ← allocate_pages n m b (policy pi); Ok (m, p)
                 else
                   _ ← ensure (truthy (Z.land (policy pi) PAGE_USER));
                   if negb (lazy_zero (policy pi)) then allocate_user_pages n m p b (policy pi)
                   else allocate_lazy_pages n m p b (policy pi));
      l ← skip_used (PTE_USED (tables_of m p)) (S (size (entries (tables_of m p)))) (lowest_of m p) 4294967296;
      let '(m, p) := with_lowest m p l in
      Ok (m, p, u32 (Z.shiftl b 12)).

(** [free_page(address, process)]. *)
Definition free_page (m : mem) (p : proc) (address : Z) : res (mem * proc) :=
  let page_id := Z.shiftr address 12 in
  entry ← PTE (tables_of m p) page_id;
  if negb (is_kernel p) then
    if lazy_zero entry then update_pte m p page_id 0
    else
      let frame_id := frame_of entry in
      frame_id ← frame_index frame_id;
      let sys_page_id := page_of_frame m frame_id in
      '(m, p) ← update_pte m p page_id 0;
      if 1 <=? rc m frame_id then Ok (m, p) else m ← free_page_id m sys_page_id; Ok (m, p)
  else
    frame_id ← frame_index (frame_of entry);
    let m := set_frame_rc m frame_id (rc m frame_id -u 1) in
    if 1 <=? rc m frame_id then Ok (m, p) else m ← free_page_id m page_id; Ok (m, p).

(** [phys_to_virt_addr]. *)
Definition phys_to_virt_addr (m : mem) (phys_addr : Z) : res Z :=
  frame_id ← frame_index (Z.shiftr phys_addr 12);
  if page_of_frame m frame_id =? UINT_MAX then Ok UINT_MAX
  else Ok (u32 (Z.shiftl (page_of_frame m frame_id) 12) +u Z.land phys_addr (PAGE_SIZE - 1)).

(** The first loop of [identity_map]. *)
Fixpoint identity_free (n : nat) (m : mem) (page_id : Z) : res bool :=
  match n with
  | O => Ok true
  | S n =>
      u ← PTE_USED (page_tables m) page_id;
      if (u : bool) then Ok false
      else
        f ← FRAME_USED m page_id;
        if (f : bool) then Ok false else identity_free n m (page_id + 1)
  end.

(** [for (i < n) allocate_page(frame + i, page + i, DEFAULT_K_POLICY)]. *)
Fixpoint map_frames (n : nat) (m : mem) (frame page : Z) : res mem :=
  match n with
  | O => Ok m
  | S n => m ← allocate_page_frame m frame page DEFAULT_K_POLICY; map_frames n m (frame + 1) (page + 1)
  end.

(** [identity_map]. *)
Definition identity_map (m : mem) (addr size : Z) : res (mem * bool) :=
  let n := Z.to_nat (Z.shiftr (u32 (size + PAGE_SIZE - 1)) 12) in
  ok ← identity_free n m (ADDR_PAGE addr);
  if (ok : bool) then m ← map_frames n m (ADDR_PAGE addr) (ADDR_PAGE addr); Ok (m, true)
  else Ok (m, false).

(** [for (i = 0; i < num_pages && !used(p + i); i++)], and whether it reached [num_pages]. *)
Fixpoint all_free (used : Z -> res bool) (n : nat) (p : Z) : res bool :=
  match n with
  | O => Ok true
  | S n => u ← used p; if (u : bool) then Ok false else all_free used n (p + 1)
  end.

(** The outer loops of [physically_aligned_malloc]. *)
Fixpoint first_run (used : Z -> res bool) (n fuel : nat) (p : Z) : res Z :=
  match fuel with
  | O => Ok UINT_MAX
  | S fuel => ok ← all_free used n p; if (ok : bool) then Ok p else first_run used n fuel (p + 1)
  end.

(** [physically_aligned_malloc]; address 0 is the null pointer. *)
Definition physically_aligned_malloc (m : mem) (n : Z) : res (mem * Z) :=
  let num_pages := Z.to_nat (Z.shiftr (u32 (n + PAGE_SIZE - 1)) 12) in
  page_beg ← first_run (PTE_USED (page_tables m)) num_pages (Z.to_nat (N_PAGES - lowest_free_pe m)) (lowest_free_pe m);
  if page_beg =? UINT_MAX then Ok (m, 0)
  else
    frame_beg ← first_run (FRAME_USED m) num_pages (Z.to_nat (N_PAGES - lowest_free_frame m)) (lowest_free_frame m);
    if frame_beg =? UINT_MAX then Ok (m, 0)
    else m ← map_frames num_pages m frame_beg page_beg; Ok (m, u32 (Z.shiftl page_beg 12)).

(** The flags [all_frame_used] and [no_frame_used] of [register_physical_data]. *)
Fixpoint frames_used (n : nat) (m : mem) (frame : Z) (all none : bool) : res (bool * bool) :=
  match n with
  | O => Ok (all, none)
  | S n => u ← FRAME_USED m frame; frames_used n m (frame + 1) (all && u) (none && negb u)
  end.

(** [register_physical_data]; its search is that of [get_contiguous_pages]. *)
Definition register_physical_data (m : mem) (physical_address size_ : Z) : res (mem * Z) :=
  let off := Z.land physical_address (PAGE_SIZE - 1) in
  let n_pages := Z.shiftr (u32 (size_ + off + PAGE_SIZE - 1)) 12 in
  let frame_base := Z.shiftr physical_address 12 in
  '(all, none) ← frames_used (Z.to_nat n_pages) m frame_base true true;
  if (none : bool) then
    b ← contiguous_loop (S (size (entries (page_tables m)))) (page_tables m) n_pages (lowest_free_pe m);
    if b =? UINT_MAX then Ok (m, 0)
    else m ← map_frames (Z.to_nat n_pages) m frame_base b; Ok (m, u32 (Z.shiftl b 12) +u off)
  else if (all : bool) then Ok (m, u32 (Z.shiftl (page_of_frame m frame_base) 12) +u off)
  else Ok (m, 0).

(** ** Page faults *)

(** What a frame holds; frames not written yet hold zeroes. *)
Definition contents (m : mem) (f : Z) : list Z := default (replicate 4096 0) (frame_data m !! f).

(** What page [page_id] holds, seen through the tables [pt]. *)
Definition read_page (m : mem) (pt : page_table) (page_id : Z) : res (list Z) :=
  e ← PTE pt page_id;
  if present e then Ok (contents m (frame_of e)) else Fault.

Definition write_page (m : mem) (pt : page_table) (page_id : Z) (d : list Z) : res mem :=
  e ← PTE pt page_id;
  if present e then Ok (set_frame_data m (frame_of e) d) else Fault.

(** [handle_cow_page_fault]. *)
Definition handle_cow_page_fault (m : mem) (p : proc) (higher_half : bool) (page_id : Z) : res (mem * proc) :=
  _ ← ensure (negb (is_kernel p));
  _ ← ensure (negb higher_half);
  '(m, sys_pe) ← get_free_pe_user m;
  '(m, frame) ← get_free_frame m;
  e ← PTE (p_tables p) page_id;
  let current_policy := Z.land e 2047 in
  let new_policy := Z.lor (Z.ldiff current_policy PAGE_COW) PAGE_WRITE in
  m ← allocate_page_frame m frame sys_pe new_policy;
  mapping_pe ← get_contiguous_pages 1 DEFAULT_HINT_INFO (p_tables p) (p_lowest p);
  e ← PTE (p_tables p) page_id;
  '(m, p) ← update_pte m p mapping_pe e;
  '(m, p) ← update_pte m p page_id (Z.lor (FRAME_ID_ADDR frame) new_policy);
  d ← read_page m (p_tables p) mapping_pe;
  m ← write_page m (p_tables p) page_id d;
  '(m, p) ← update_pte m p mapping_pe 0;
  if rc m frame =? 0 then m ← MARK_FRAME_FREE m frame; Ok (m, p) else Ok (m, p).

(** The tables a fault is looked up in. *)
Definition fault_tables (m : mem) (p : proc) (higher_half : bool) : page_table :=
  if higher_half then page_tables m else tables_of m p.

(** [handle_lazy_zero_page_fault]. *)
Definition handle_lazy_zero_page_fault (m : mem) (p : proc) (higher_half : bool) (page_id : Z) : res (mem * proc) :=
  e ← PTE (fault_tables m p higher_half) page_id;
  let page_user := truthy (Z.land e PAGE_USER) in
  '(m, frame_id) ← get_free_frame m;
  let e := Z.lor (Z.lor (Z.lor (FRAME_ID_ADDR frame_id) (if page_user then PAGE_USER else 0)) PAGE_WRITE) PAGE_PRESENT in
  pt ← set_PTE (fault_tables m p higher_half) page_id e;
  let '(m, p) := if higher_half then (set_page_tables m pt, p) else with_tables m p pt in
  let m := set_frame_data m (frame_of e) (replicate 4096 0) in
  m ← (if is_kernel p || higher_half then MARK_FRAME_USED m frame_id page_id
       else
         '(m, sys_page_id) ← get_free_pe m;
         pt ← set_PTE (page_tables m) sys_page_id e;
         MARK_FRAME_USED (set_page_tables m pt) frame_id sys_page_id);
  if negb (is_kernel p) then
    frame_id ← frame_index frame_id;
    Ok (set_frame_rc m frame_id (rc m frame_id +u 1), p)
  else Ok (m, p).

(** [page_fault_handler]: whether the fault was handled. *)
Definition page_fault_handler (m : mem) (p : proc) (fault_address : Z) (write_access : bool)
  : res (mem * proc * bool) :=
  let page_id := ADDR_PAGE fault_address in
  let higher_half := KERNEL_VIRTUAL_BASE <=? fault_address in
  pte ← PTE (fault_tables m p higher_half) page_id;
  '(m, p, handled) ← (if truthy (Z.land pte PAGE_COW) then
                        _ ← ensure write_access;
                        '(m, p) ← handle_cow_page_fault m p higher_half page_id;
                        Ok (m, p, true)
                      else Ok (m, p, false));
  if negb (truthy pte && lazy_zero pte) then Ok (m, p, handled)
  else '(m, p) ← handle_lazy_zero_page_fault m p higher_half page_id; Ok (m, p, true).

(** ** Loops that look for a used entry terminate *)

(** The entries of [pt] at or above [b]. *)
Definition above (e : gmap Z Z) (b : Z) : gmap Z Z := filter (fun kv => b <= kv.1) e.

Lemma above_step (e : gmap Z Z) b c :
  b <= c -> is_Some (e !! c) -> (size (above e (c + 1)) < size (above e b))%nat.
Proof.
  intros Hbc [v Hv]. unfold above.
  assert (filter (fun kv => c + 1 <= kv.1) e ⊂ filter (fun kv => b <= kv.1) e) as Hsub.
  { split.
    - apply map_subseteq_spec. intros k x. rewrite !map_lookup_filter_Some. simpl. intros [? ?]. split; [done|lia].
    - intros Hcon. rewrite map_subseteq_spec in Hcon. specialize (Hcon c v).
      rewrite !map_lookup_filter_Some in Hcon. simpl in Hcon. destruct Hcon as [_ ?]; [split; [done|lia]|lia]. }
  by apply map_subset_size.
Qed.

Lemma above_size (e : gmap Z Z) b : (size (above e b) <= size e)%nat.
Proof. apply map_subseteq_size, map_filter_subseteq. Qed.

(** The loop ends at the first unused index, or at the limit. *)
Lemma skip_used_spec (e : gmap Z Z) used fuel i limit :
  (forall k, i <= k < limit -> exists u, used k = Ok u /\ (u = true -> is_Some (e !! k))) ->
  (size (above e i) < fuel)%nat ->
  exists j, skip_used used fuel i limit = Ok j /\ i <= j /\
    (forall k, i <= k < j -> k < limit /\ used k = Ok true) /\
    ((limit <= j /\ j = Z.max i limit) \/ (j < limit /\ used j = Ok false)).
Proof.
  revert i. induction fuel as [|fuel IH]; intros i Hu Hf; [lia|]. simpl.
  destruct (Z.leb_spec limit i); [exists i; split_and!; [done|lia|lia|left; lia]|].
  destruct (Hu i) as (u & Hui & He); [lia|]. rewrite Hui. run.
  destruct u; simpl; [|exists i; split_and!; [done|lia|lia|by right]].
  destruct (IH (i + 1)) as (j & -> & Hij & Hk & Hend).
  { intros k Hk. apply Hu. lia. }
  { pose proof (above_step e i i ltac:(lia) (He eq_refl)). lia. }
  exists j. split_and!; [done|lia| |].
  - intros k Hk'. destruct (decide (k = i)) as [->|]; [done|]. apply Hk. lia.
  - destruct Hend as [[? ?]|?]; [left; lia|by right].
Qed.

(** ** The search for a run of free pages *)

Definition entry (pt : page_table) (i : Z) : Z := default 0 (entries pt !! i).
Definition is_used (pt : page_table) (i : Z) : Prop := used_entry (entry pt i) = true.

(** The kernel's array of page tables covers every page. *)
Definition full (pt : page_table) : Prop := tables pt = 1024.

Lemma PTE_in pt i : full pt -> 0 <= i < N_PAGES -> PTE pt i = Ok (entry pt i).
Proof.
  unfold full, PTE, N_PAGES, PDT_ENTRIES, PT_ENTRIES. intros Hf Hi. rewrite Hf.
  rewrite Z.shiftr_div_pow2 by lia. change (2 ^ 10) with 1024.
  assert (i / 1024 < 1024) by (apply Z.div_lt_upper_bound; lia).
  rewrite (proj2 (Z.leb_le 0 i)), (proj2 (Z.ltb_lt _ _)) by lia. done.
Qed.

Lemma PTE_out pt i : full pt -> N_PAGES <= i -> PTE pt i = Fault.
Proof.
  unfold full, PTE, N_PAGES, PDT_ENTRIES, PT_ENTRIES. intros Hf Hi. rewrite Hf.
  rewrite Z.shiftr_div_pow2 by lia. change (2 ^ 10) with 1024.
  assert (1024 <= i / 1024) by (apply Z.div_le_lower_bound; lia).
  rewrite (proj2 (Z.ltb_ge _ _)) by lia. by rewrite andb_false_r.
Qed.

Lemma set_PTE_in pt i v : full pt -> 0 <= i < N_PAGES -> set_PTE pt i v = Ok (mkPT (<[i := v]> (entries pt)) (tables pt)).
Proof. intros Hf Hi. pose proof (PTE_in pt i Hf Hi) as H. unfold PTE, set_PTE in *. by destruct (_ && _). Qed.

Lemma set_PTE_Ok pt i v pt' :
  full pt -> set_PTE pt i v = Ok pt' -> 0 <= i < N_PAGES /\ pt' = mkPT (<[i := v]> (entries pt)) (tables pt).
Proof.
  intros Hf H. destruct (Z.leb_spec 0 i), (Z.ltb_spec i N_PAGES).
  - rewrite (set_PTE_in pt i v Hf) in H by lia. by simplify_eq.
  - pose proof (PTE_out pt i Hf ltac:(lia)) as Ho. unfold PTE, set_PTE in *. by destruct (_ && _).
  - unfold set_PTE in H. rewrite (proj2 (Z.leb_gt 0 i)) in H by lia. done.
  - unfold set_PTE in H. rewrite (proj2 (Z.leb_gt 0 i)) in H by lia. done.
Qed.

Lemma used_listed pt i : is_used pt i -> is_Some (entries pt !! i).
Proof. unfold is_used, entry. destruct (entries pt !! i); [done|]. simpl. by vm_compute. Qed.

(** Where the walk over free entries stops; at the very end of the address space it reads one
    entry past the last. *)
Lemma run_free_spec pt k b :
  full pt -> 0 <= b -> b + Z.of_nat k <= N_PAGES ->
  (exists pte, run_free k pt b (b + Z.of_nat k) = Ok pte /\ b <= pte <= b + Z.of_nat k /\
     (forall i, b <= i < pte -> ~ is_used pt i) /\ (pte < b + Z.of_nat k -> is_used pt pte)) \/
  (run_free k pt b (b + Z.of_nat k) = Fault /\ b + Z.of_nat k = N_PAGES /\
     (forall i, b <= i < N_PAGES -> ~ is_used pt i)).
Proof.
  intros Hf. revert b. induction k as [|k IH]; intros b Hb Hle.
  - rewrite Z.add_0_r in *. simpl. unfold PTE_USED.
    destruct (decide (b = N_PAGES)) as [->|].
    + right. rewrite (PTE_out pt N_PAGES Hf) by lia. split_and!; [done|done|lia].
    + left. rewrite (PTE_in pt b Hf) by lia. run. rewrite Z.eqb_refl, orb_true_r. exists b. split_and!; [done|lia..].
  - assert (PTE_USED pt b = Ok (used_entry (entry pt b))) as Hpu
      by (unfold PTE_USED; by rewrite (PTE_in pt b Hf) by lia).
    simpl. rewrite !Hpu. run. destruct (used_entry (entry pt b)) eqn:Hu; simpl.
    { left. exists b. split_and!; [done|lia|lia|lia|done]. }
    rewrite (proj2 (Z.eqb_neq b (b + Z.of_nat (S k)))) by lia.
    replace (b + Z.of_nat (S k)) with ((b + 1) + Z.of_nat k) in * by lia.
    assert (~ is_used pt b) as Hnb by (unfold is_used; congruence).
    destruct (IH (b + 1)) as [(pte & -> & Hr & Hfree & Hend)|(-> & He & Hfree)]; [lia|lia| |].
    + left. exists pte. split_and!; [done|lia|lia| |done]. intros i Hi. destruct (decide (i = b)) as [->|]; [done|apply Hfree; lia].
    + right. split_and!; [done|done|]. intros i Hi. destruct (decide (i = b)) as [->|]; [done|apply Hfree; lia].
Qed.

(** [n] free pages from [b] on. *)
Definition free_run (pt : page_table) (n b : Z) : Prop :=
  b + n <= N_PAGES /\ forall i, b <= i < b + n -> ~ is_used pt i.

(** The outcome of a search for [n] free pages from [lo] on. *)
Definition search_result (pt : page_table) (n lo : Z) (r : res Z) : Prop :=
  match r with
  | Ok b => (b = UINT_MAX /\ forall c, lo <= c -> ~ free_run pt n c) \/
            (lo <= b /\ free_run pt n b /\ forall c, lo <= c < b -> ~ free_run pt n c)
  | Fault => free_run pt n (N_PAGES - n) /\ lo <= N_PAGES - n /\
             forall c, lo <= c < N_PAGES - n -> ~ free_run pt n c
  | _ => False
  end.

Lemma run_free_sum pt n b :
  0 <= n <= N_PAGES -> 0 <= b -> b + n <= N_PAGES ->
  run_free (Z.to_nat n) pt b (b +u n) = run_free (Z.to_nat n) pt b (b + Z.of_nat (Z.to_nat n)).
Proof.
  intros Hn Hb Hle. rewrite Z2Nat.id by lia. f_equal. apply u32_id. unfold is_u32, N_PAGES, PDT_ENTRIES, PT_ENTRIES in *. lia.
Qed.

Lemma contiguous_loop_spec pt n lo fuel :
  full pt -> 0 <= n <= N_PAGES -> 0 <= lo <= N_PAGES ->
  (size (above (entries pt) lo) < fuel)%nat -> search_result pt n lo (contiguous_loop fuel pt n lo).
Proof.
  intros Hf Hn. revert lo. induction fuel as [|fuel IH]; intros lo Hlo Hfu; [lia|]. simpl.
  assert (lo +u n = lo + n) as Hsum.
  { apply u32_id. unfold is_u32, N_PAGES, PDT_ENTRIES, PT_ENTRIES in *. lia. }
  destruct (Z.ltb_spec N_PAGES (lo +u n)) as [Hbig|Hfit]; rewrite Hsum in *.
  { simpl. left. split; [done|]. intros c Hc [? _]. lia. }
  rewrite <- Hsum at 1. rewrite (run_free_sum pt n lo) by lia.
  assert (lo + Z.of_nat (Z.to_nat n) = lo + n) as Hid by lia.
  destruct (run_free_spec pt (Z.to_nat n) lo) as [(pte & -> & Hr & Hfree & Hend)|(-> & He & Hfree)];
    [done|lia|lia| |]; rewrite Hid in *.
  - run. destruct (Z.eqb_spec pte (lo + n)) as [->|Hne].
    + simpl. right. split_and!; [lia|split; [lia|done]|lia].
    + assert (is_used pt pte) as Hu by (apply Hend; lia).
      pose proof (above_step (entries pt) lo pte ltac:(lia) (used_listed _ _ Hu)) as Hstep.
      specialize (IH (pte + 1)).
      assert (forall c, lo <= c <= pte -> ~ free_run pt n c \/ n = 0) as Hskip.
      { intros c Hc. destruct (decide (n = 0)); [by right|left]. intros [_ Hc']. apply (Hc' pte); [lia|done]. }
      destruct (decide (n = 0)); [lia|].
      assert (forall c, lo <= c <= pte -> ~ free_run pt n c) as Hs by (intros c Hc; destruct (Hskip c Hc); [done|lia]).
      specialize (IH ltac:(lia) ltac:(lia)).
      destruct (contiguous_loop fuel pt n (pte + 1)) as [b| | |]; simpl in *; [|done| |done].
      * destruct IH as [[-> Hno]|(Hb & Hrun & Hno)]; [left|right]; split_and!; try done; try lia; intros c Hc;
          (destruct (decide (c <= pte)); [apply Hs; lia|apply Hno; lia]).
      * destruct IH as (Hrun & Hb & Hno). split_and!; [done|lia|]. intros c Hc.
        destruct (decide (c <= pte)); [apply Hs; lia|apply Hno; lia].
  - simpl. assert (lo = N_PAGES - n) as -> by lia. split_and!; [|lia|lia]. split; [lia|]. intros i Hi. apply Hfree. lia.
Qed.

(** Claim C15: [get_contiguous_pages] without a mandatory hint, on page tables with all their entries, terminates and is a first fit: it returns the
    lowest page, not below the lowest free entry and the hint, from which [n] consecutive pages are free, or [(uint)-1] when there is none.
    The one exception is that the only such run is the very end of the address space: then the walk reads past the last page table
    instead of returning it. *)
Theorem get_contiguous_pages_first_fit pt n hi lowest :
  full pt -> 0 <= n <= N_PAGES -> is_mandatory hi = false -> 0 <= lowest <= N_PAGES -> is_u32 (hint hi) ->
  search_result pt n (Z.max lowest (ADDR_PAGE (hint hi))) (get_contiguous_pages n hi pt lowest).
Proof.
  intros Hf Hn Hm Hlo Hh. unfold get_contiguous_pages. rewrite Hm. unfold is_u32 in Hh.
  assert (0 <= ADDR_PAGE (hint hi) < N_PAGES).
  { unfold ADDR_PAGE, N_PAGES, PDT_ENTRIES, PT_ENTRIES. rewrite Z.shiftr_div_pow2 by lia. change (2 ^ 12) with 4096.
    split; [apply Z.div_pos; lia|apply Z.div_lt_upper_bound; lia]. }
  apply contiguous_loop_spec; [done|done|lia|].
  pose proof (above_size (entries pt) (Z.max lowest (ADDR_PAGE (hint hi)))). lia.
Qed.

(** ** What the kernel's [sbrk] does to the page tables *)

Definition kernel_process : proc := mkProc true (mkPT ∅ 0) 0.

Lemma MARK_FRAME_USED_Ok m f page m' :
  MARK_FRAME_USED m f page = Ok m' ->
  0 <= f < N_PAGES /\ rc m f = 0 /\ page_tables m' = page_tables m /\ lowest_free_pe m' = lowest_free_pe m /\
  frame_to_page m' = <[f := page]> (frame_to_page m) /\ frame_rc m' = <[f := 1]> (frame_rc m) /\
  frame_data m' = frame_data m /\ lowest_free_frame m' = lowest_free_frame m.
Proof.
  unfold MARK_FRAME_USED, frame_index. destruct ((0 <=? f) && (f <? N_PAGES)) eqn:Hf; run; [|done].
  apply andb_true_iff in Hf as [?%Z.leb_le ?%Z.ltb_lt]. change (rc (set_frame_to_page m f page) f) with (rc m f).
  unfold truthy. destruct (Z.eqb_spec (rc m f) 0) as [E|]; simpl; [|done]. intros [= <-]. rewrite E. done.
Qed.

Lemma get_free_frame_Ok m m' f :
  get_free_frame m = Ok (m', f) -> m' = set_lowest_free_frame m f /\ (f < N_PAGES -> FRAME_USED m f = Ok false).
Proof.
  unfold get_free_frame. destruct (skip_used _ _ _ _) as [j| | |] eqn:Hs; run; [|done..]. intros [= <- <-]. split; [done|].
  assert (forall fuel i, skip_used (FRAME_USED m) fuel i N_PAGES = Ok j -> j < N_PAGES -> FRAME_USED m j = Ok false) as Hgen.
  { induction fuel as [|fuel IH]; intros i; simpl; (destruct (Z.leb_spec N_PAGES i); [intros [= <-]; lia|]);
      destruct (FRAME_USED m i) as [[]| | |] eqn:Hi; run; simpl; try done; try (by intros [= <-]); apply IH. }
  eauto.
Qed.

(** [allocate_page]: one entry, one frame that was not in use. *)
Lemma allocate_page_Ok m i pol m' :
  full (page_tables m) -> allocate_page m i pol = Ok m' ->
  exists f, 0 <= i < N_PAGES /\ lowest_free_pe m' = lowest_free_pe m /\
    page_tables m' = mkPT (<[i := Z.lor (FRAME_ID_ADDR f) pol]> (entries (page_tables m))) (tables (page_tables m)) /\
    frame_data m' = frame_data m /\
    (if present pol then 0 <= f < N_PAGES /\ page_of_frame m f = UINT_MAX /\
       frame_to_page m' = <[f := i]> (frame_to_page m)
     else frame_to_page m' = frame_to_page m /\ frame_rc m' = frame_rc m).
Proof.
  intros Hf. unfold allocate_page. destruct (get_free_frame m) as [[m1 f]| | |] eqn:Hg; run; [|done..].
  apply get_free_frame_Ok in Hg as [-> Hfree]. unfold allocate_page_frame.
  destruct (set_PTE _ i _) as [pt| | |] eqn:Hs; run; [|done..].
  apply set_PTE_Ok in Hs as [Hi ->]; [|done]. fold (present pol). destruct (present pol) eqn:Hp.
  - intros (Hr & _ & Hpt & Hlow & Hftp & _ & Hd & _)%MARK_FRAME_USED_Ok. exists f. rewrite Hpt, Hlow, Hftp, Hd. simpl.
    split_and!; [lia|lia|done|done|done|lia|lia| |done].
    specialize (Hfree ltac:(lia)). unfold FRAME_USED, frame_index in Hfree.
    rewrite (proj2 (Z.leb_le 0 f)), (proj2 (Z.ltb_lt f N_PAGES)) in Hfree by lia. simpl in Hfree. run_in Hfree.
    injection Hfree as Hfree. apply negb_false_iff, Z.eqb_eq in Hfree. done.
  - intros [= <-]. exists f. split_and!; [lia|lia|done..].
Qed.

Lemma used_entry_or x pol : used_entry pol = true -> used_entry (Z.lor x pol) = true.
Proof.
  unfold used_entry, truthy. intros H. apply negb_true_iff in H. apply negb_true_iff.
  apply Z.eqb_neq in H. apply Z.eqb_neq. rewrite Z.land_lor_distr_l. intros E. apply Z.lor_eq_0_iff in E. tauto.
Qed.

Lemma entry_insert e n i v k : entry (mkPT (<[i := v]> e) n) k = if decide (i = k) then v else entry (mkPT e n) k.
Proof.
  unfold entry. simpl. destruct (decide (i = k)) as [->|]; [by rewrite lookup_insert_eq|by rewrite lookup_insert_ne].
Qed.

Lemma is_used_insert pt i v k :
  used_entry v = true ->
  is_used (mkPT (<[i := v]> (entries pt)) (tables pt)) k <-> is_used pt k \/ k = i.
Proof.
  intros Hv. unfold is_used. rewrite entry_insert. destruct (decide (i = k)) as [->|]; [naive_solver|].
  change (entry (mkPT (entries pt) (tables pt)) k) with (entry pt k). naive_solver.
Qed.

Lemma allocate_pages_Ok n m i pol m' :
  full (page_tables m) -> used_entry pol = true -> allocate_pages n m i pol = Ok m' ->
  full (page_tables m') /\ lowest_free_pe m' = lowest_free_pe m /\
  (forall k, is_used (page_tables m') k <-> is_used (page_tables m) k \/ i <= k < i + Z.of_nat n).
Proof.
  revert m i. induction n as [|n IH]; intros m i Hf Hp; simpl; [intros [= <-]; split_and!; [done..|intros k; split; [by left|intros [?|?]; [done|lia]]]|].
  destruct (allocate_page m i pol) as [m1| | |] eqn:Ha; run; [|done..].
  apply allocate_page_Ok in Ha as (f & Hi & Hlow & Hpt & _); [|done]. intros Hr.
  destruct (IH m1 (i + 1)) as (Hf' & Hlow' & Hk); [by rewrite Hpt|done|done|].
  split_and!; [done|congruence|]. intros k. rewrite Hk, Hpt, is_used_insert by by apply used_entry_or.
  assert (k = i \/ i + 1 <= k < i + 1 + Z.of_nat n <-> i <= k < i + Z.of_nat (S n)) by lia. tauto.
Qed.

Lemma policy_valid_used pol : policy_valid pol = true -> used_entry pol = true.
Proof. unfold policy_valid, used_entry. by destruct (truthy (Z.land pol (Z.lor PAGE_PRESENT PAGE_LAZY_ZERO))); [|rewrite orb_true_r]. Qed.

Lemma ADDR_PAGE_range a : is_u32 a -> 0 <= ADDR_PAGE a < N_PAGES.
Proof.
  unfold is_u32, ADDR_PAGE, N_PAGES, PDT_ENTRIES, PT_ENTRIES. intros Ha. rewrite Z.shiftr_div_pow2 by lia.
  change (2 ^ 12) with 4096. split; [apply Z.div_pos; lia|apply Z.div_lt_upper_bound; lia].
Qed.

(** A page number the search returns starts a free run, whatever the hint. *)
Lemma get_contiguous_pages_Ok n hi pt lowest b :
  full pt -> 0 < n <= N_PAGES -> 0 <= lowest <= N_PAGES -> is_u32 (hint hi) ->
  get_contiguous_pages n hi pt lowest = Ok b -> b <> UINT_MAX -> 0 <= b /\ free_run pt n b.
Proof.
  intros Hf Hn Hlo Hh Hg Hb. pose proof (ADDR_PAGE_range _ Hh) as Hp. destruct (is_mandatory hi) eqn:Hm.
  - unfold get_contiguous_pages in Hg. rewrite Hm in Hg. destruct (Z.land _ _ =? 0); run_in Hg; [|done].
    assert (ADDR_PAGE (hint hi) +u n = ADDR_PAGE (hint hi) + n) as Hsum.
    { apply u32_id. unfold is_u32, N_PAGES, PDT_ENTRIES, PT_ENTRIES in *. lia. }
    destruct (Z.ltb_spec N_PAGES (ADDR_PAGE (hint hi) +u n)) as [|Hfit]; [by simplify_eq|]. rewrite Hsum in Hfit.
    rewrite (run_free_sum pt n) in Hg by lia.
    destruct (run_free_spec pt (Z.to_nat n) (ADDR_PAGE (hint hi))) as [(pte & He & Hr & Hfree & _)|(He & _)];
      [done|lia|lia| |]; rewrite He in Hg; run_in Hg; [|done].
    rewrite Hsum in Hg. destruct (Z.eqb_spec pte (ADDR_PAGE (hint hi) + n)) as [E|]; [|by simplify_eq].
    injection Hg as <-. rewrite E in Hfree. split; [lia|]. split; [lia|done].
  - assert (search_result pt n (Z.max lowest (ADDR_PAGE (hint hi))) (Ok b)) as Hs.
    { rewrite <- Hg. unfold get_contiguous_pages. rewrite Hm. apply contiguous_loop_spec; [done|lia|lia|].
      pose proof (above_size (entries pt) (Z.max lowest (ADDR_PAGE (hint hi)))). lia. }
    destruct Hs as [[? _]|(? & ? & _)]; [done|]. split; [lia|done].
Qed.

(** What the kernel side of [sbrk] needs of its state. *)
Definition kernel_inv (m : mem) : Prop := full (page_tables m) /\ 0 <= lowest_free_pe m <= N_PAGES.

(** A walk that ended, ended at an index it could read or right behind one (or it started at the
    limit). *)
Lemma skip_used_stops used fuel i limit j :
  skip_used used fuel i limit = Ok j -> i <= j /\ (limit <= i \/ used (j - 1) = Ok true \/ used j = Ok false).
Proof.
  revert i. induction fuel as [|fuel IH]; intros i; simpl; (destruct (Z.leb_spec limit i); [intros [= <-]; split; [lia|by left]|]);
    destruct (used i) as [[]| | |] eqn:Hi; run; simpl; try done; try (intros [= <-]; split; [lia|by auto]).
  intros Hj. destruct (IH _ Hj) as [? [Hl|?]]; [|split; [lia|tauto]].
  assert (skip_used used fuel (i + 1) limit = Ok (i + 1)) as E by (destruct fuel; simpl; by rewrite (proj2 (Z.leb_le _ _))).
  rewrite E in Hj. injection Hj as <-. split; [lia|]. right; left. by replace (i + 1 - 1) with i by lia.
Qed.

Lemma PTE_USED_in pt i u : full pt -> PTE_USED pt i = Ok u -> 0 <= i < N_PAGES.
Proof.
  intros Hf. unfold PTE_USED. destruct (Z.leb_spec 0 i).
  - destruct (Z.ltb_spec i N_PAGES); [lia|]. by rewrite (PTE_out pt i Hf).
  - unfold PTE. rewrite (proj2 (Z.leb_gt 0 i)) by lia. done.
Qed.

Lemma kernel_sbrk_Ok m n pi hi m' p' a :
  kernel_inv m -> 0 < n <= N_PAGES -> policy_valid (policy pi) = true -> is_u32 (hint hi) ->
  sbrk m kernel_process n pi hi = Ok (m', p', a) ->
  kernel_inv m' /\
  ((a = 0 /\ m' = m) \/
   exists b, 0 <= b /\ a = b * 4096 /\ free_run (page_tables m) n b /\
     forall k, is_used (page_tables m') k <-> is_used (page_tables m) k \/ b <= k < b + n).
Proof.
  intros [Hf Hlow] Hn Hpol Hh. unfold sbrk, tables_of, lowest_of, with_lowest. cbn [is_kernel kernel_process].
  destruct (lowest_free_frame m =? PT_ENTRIES * PDT_ENTRIES); [intros [= <- <- <-]; split; [by split|by left]|].
  destruct (get_contiguous_pages n hi (page_tables m) (lowest_free_pe m)) as [b| | |] eqn:Hg; run; [|done..].
  destruct (Z.eqb_spec b UINT_MAX); [intros [= <- <- <-]; split; [by split|by left]|].
  destruct (get_contiguous_pages_Ok n hi _ _ b Hf Hn Hlow Hh Hg n0) as [Hb [Hfit Hfree]].
  destruct (Z.ldiff (policy pi) supported_policy =? 0); run; [|done].
  destruct (negb _); run; [|done].
  assert (b +u n = b + n) as ->. { apply u32_id. unfold is_u32, N_PAGES, PDT_ENTRIES, PT_ENTRIES in *. lia. }
  replace (b + n - b) with n by lia.
  destruct (allocate_pages (Z.to_nat n) m b (policy pi)) as [m1| | |] eqn:Ha; run; [|done..].
  cbn [is_kernel kernel_process].
  apply allocate_pages_Ok in Ha as (Hf1 & Hlow1 & Hk); [|done|by apply policy_valid_used].
  destruct (skip_used _ _ _ _) as [l| | |] eqn:Hs; run; [|done..]. intros [= <- <- <-].
  apply skip_used_stops in Hs as [Hle Hstop]. rewrite Hlow1 in *.
  split.
  - split; [done|]. simpl. destruct Hstop as [?|[Hu|Hu]]; [unfold N_PAGES, PDT_ENTRIES, PT_ENTRIES in *; lia| |].
    + apply PTE_USED_in in Hu; [lia|done].
    + apply PTE_USED_in in Hu; [lia|done].
  - right. exists b. rewrite Z.shiftl_mul_pow2 by lia. change (2 ^ 12) with 4096.
    rewrite u32_id by (unfold is_u32, N_PAGES, PDT_ENTRIES, PT_ENTRIES in *; lia).
    split_and!; [lia|done|by split|]. intros k. simpl. rewrite Hk, Z2Nat.id by lia. done.
Qed.

(** ** The kernel's pages implement the allocator's page interface *)

(** [memcpy] between kernel addresses, a byte at a time. *)
Fixpoint copy_bytes (n : nat) (m : mem) (dst src : Z) : res mem :=
  match n with
  | O => Ok m
  | S n =>
      d ← read_page m (page_tables m) (ADDR_PAGE src);
      b ← deref (d !! Z.to_nat (Z.land src (PAGE_SIZE - 1)));
      d' ← read_page m (page_tables m) (ADDR_PAGE dst);
      m ← write_page m (page_tables m) (ADDR_PAGE dst) (<[Z.to_nat (Z.land dst (PAGE_SIZE - 1)) := b]> d');
      copy_bytes n m (dst + 1) (src + 1)
  end.

#[export] Instance kernel_pages : PageOps mem := {
  MemTree.sbrk m n pi hi := '(m, _, a) ← sbrk m kernel_process n pi hi; Ok (m, a);
  MemTree.free_page m a := '(m, _) ← free_page m kernel_process a; Ok m;
  copy m dst src n := copy_bytes (Z.to_nat n) m dst src
}.

#[export] Instance kernel_page_laws : PageLaws mem.
Proof.
  refine {| page_inv := kernel_inv; mapped m i := is_used (page_tables m) i |}; unfold MemTree.sbrk, kernel_pages, PAGE_SIZE.
  - intros m n pi hi m' a Hinv Hn Hpol Hh Hs Ha.
    destruct (sbrk m kernel_process n pi hi) as [[[m1 p1] a1]| | |] eqn:Hsb; run_in Hs; simplify_eq.
    destruct (kernel_sbrk_Ok _ _ _ _ _ _ _ Hinv Hn Hpol Hh Hsb) as [Hinv' [[-> _]|(b & Hb & -> & [Hfit Hfree] & Hk)]]; [done|].
    unfold N_PAGES, PDT_ENTRIES, PT_ENTRIES in *. rewrite Z.mod_mul, Z.div_mul by lia.
    split_and!; [done|lia|done|lia|done|done].
  - intros m n pi hi m' Hinv Hn Hpol Hh Hs.
    destruct (sbrk m kernel_process n pi hi) as [[[m1 p1] a1]| | |] eqn:Hsb; run_in Hs; simplify_eq.
    destruct (kernel_sbrk_Ok _ _ _ _ _ _ _ Hinv Hn Hpol Hh Hsb) as [Hinv' [[_ ->]|(b & Hb & _ & _ & Hk)]]; [done|].
    split; [done|]. intros i Hi. apply Hk. by left.
Defined.

(** ** No frame is mapped twice *)

(** A page the kernel maps as present is the one its frame is registered for; an entry that is
    not in use is empty. *)
Definition frames_ok (m : mem) : Prop :=
  kernel_inv m /\
  forall i, let e := entry (page_tables m) i in
    (present e = true -> 0 <= i < N_PAGES /\ page_of_frame m (frame_of e) = i) /\ (e = 0 \/ used_entry e = true).

Lemma high_bits x pol n : 0 <= pol < 4096 -> 12 <= n -> Z.testbit (Z.lor x pol) n = Z.testbit x n.
Proof.
  intros Hp Hn. rewrite Z.lor_spec. assert (Z.testbit pol n = false) as ->; [|by rewrite orb_false_r].
  destruct (decide (pol = 0)) as [->|]; [apply Z.bits_0|]. apply Z.bits_above_log2; [lia|].
  assert (Z.log2 pol < 12) by (apply Z.log2_lt_pow2; lia). lia.
Qed.

Lemma FRAME_ID_ADDR_eq f : 0 <= f < N_PAGES -> FRAME_ID_ADDR f = Z.shiftl f 12.
Proof.
  intros Hf. unfold FRAME_ID_ADDR. apply u32_id. rewrite Z.shiftl_mul_pow2 by lia.
  change (2 ^ 12) with 4096. unfold is_u32, N_PAGES, PDT_ENTRIES, PT_ENTRIES in *. lia.
Qed.

Lemma frame_of_entry f pol : 0 <= f < N_PAGES -> 0 <= pol < 4096 -> frame_of (Z.lor (FRAME_ID_ADDR f) pol) = f.
Proof.
  intros Hf Hp. rewrite FRAME_ID_ADDR_eq by done. unfold frame_of. apply Z.bits_inj'. intros n Hn.
  rewrite Z.shiftr_spec, Z.ldiff_spec, high_bits, Z.shiftl_spec by lia.
  replace (n + 12 - 12) with n by lia.
  assert (Z.testbit 1023 (n + 12) = false) as ->; [|by rewrite andb_true_r].
  apply Z.bits_above_log2; [lia|]. change (Z.log2 1023) with 9. lia.
Qed.

Lemma low_bit f pol : present (Z.lor (FRAME_ID_ADDR f) pol) = present pol.
Proof.
  unfold present. f_equal. rewrite Z.land_lor_distr_l.
  assert (Z.land (FRAME_ID_ADDR f) PAGE_PRESENT = 0) as ->; [|apply Z.lor_0_l].
  unfold FRAME_ID_ADDR, PAGE_PRESENT, u32. change 1 with (Z.ones 1). rewrite Z.land_ones by lia.
  rewrite Z.shiftl_mul_pow2 by lia. change (2 ^ 12) with 4096. change (2 ^ 1) with 2.
  Z.div_mod_to_equations. lia.
Qed.

Lemma page_of_frame_insert m m' f i k :
  frame_to_page m' = <[f := i]> (frame_to_page m) ->
  page_of_frame m' k = if decide (f = k) then i else page_of_frame m k.
Proof.
  unfold page_of_frame. intros ->. destruct (decide (f = k)) as [->|]; [by rewrite lookup_insert_eq|by rewrite lookup_insert_ne].
Qed.

Lemma frames_ok_ext m m' :
  page_tables m' = page_tables m -> frame_to_page m' = frame_to_page m ->
  0 <= lowest_free_pe m' <= N_PAGES -> frames_ok m -> frames_ok m'.
Proof. unfold frames_ok, kernel_inv, page_of_frame. intros -> -> Hl ([? _] & ?). done. Qed.

(** Page [i] mapped to the unused frame [f]. *)
Lemma install_ok m m' f i pol :
  frames_ok m -> 0 <= i < N_PAGES -> 0 <= f < N_PAGES -> 0 <= pol < 4096 -> page_of_frame m f = UINT_MAX -> present pol = true ->
  page_tables m' = mkPT (<[i := Z.lor (FRAME_ID_ADDR f) pol]> (entries (page_tables m))) (tables (page_tables m)) ->
  frame_to_page m' = <[f := i]> (frame_to_page m) -> lowest_free_pe m' = lowest_free_pe m -> frames_ok m'.
Proof.
  intros ([Hf Hl] & Hok) Hi Hfr Hp Hun Hpr Hpt Hftp Hlow. split; [split; [by rewrite Hpt|by rewrite Hlow]|].
  intros k. cbv zeta. rewrite Hpt, entry_insert. destruct (decide (i = k)) as [<-|Hne].
  - rewrite frame_of_entry, (page_of_frame_insert m m' f i f Hftp) by done. rewrite decide_True by done.
    split; [done|right]. apply used_entry_or. unfold present, used_entry, truthy in *.
    apply negb_true_iff, Z.eqb_neq in Hpr. apply negb_true_iff, Z.eqb_neq. rewrite Z.land_lor_distr_r.
    intros E. apply Z.lor_eq_0_iff in E. tauto.
  - change (entry (mkPT _ _) k) with (entry (page_tables m) k). destruct (Hok k) as [H1 H2]. split; [|done].
    intros Hk. destruct (H1 Hk) as [Hr Hpg]. split; [done|]. rewrite (page_of_frame_insert m m' f i _ Hftp).
    rewrite decide_False; [done|]. intros E. rewrite <- E, Hun in Hpg. unfold UINT_MAX, N_PAGES, PDT_ENTRIES, PT_ENTRIES in *. lia.
Qed.

(** Page [i] left for its first access. *)
Lemma install_lazy m m' f i pol :
  frames_ok m -> present pol = false -> used_entry pol = true ->
  page_tables m' = mkPT (<[i := Z.lor (FRAME_ID_ADDR f) pol]> (entries (page_tables m))) (tables (page_tables m)) ->
  frame_to_page m' = frame_to_page m -> lowest_free_pe m' = lowest_free_pe m -> frames_ok m'.
Proof.
  intros ([Hf Hl] & Hok) Hpr Hu Hpt Hftp Hlow. split; [split; [by rewrite Hpt|by rewrite Hlow]|].
  intros k. cbv zeta. rewrite Hpt, entry_insert. destruct (decide (i = k)) as [<-|Hne].
  - split; [by rewrite low_bit, Hpr|right]. by apply used_entry_or.
  - change (entry (mkPT _ _) k) with (entry (page_tables m) k). unfold page_of_frame. rewrite Hftp. apply Hok.
Qed.

Lemma allocate_page_frames_ok m i pol m' :
  frames_ok m -> 0 <= pol < 4096 -> used_entry pol = true -> allocate_page m i pol = Ok m' -> frames_ok m'.
Proof.
  intros Hok Hp Hu Ha. pose proof Hok as [[Hf _] _].
  destruct (allocate_page_Ok m i pol m' Hf Ha) as (f & Hi & Hlow & Hpt & _ & Hc).
  destruct (present pol) eqn:Hpr.
  - destruct Hc as (Hfr & Hun & Hftp). by apply (install_ok m m' f i pol).
  - destruct Hc as [Hftp _]. by apply (install_lazy m m' f i pol).
Qed.

Lemma allocate_pages_frames_ok n m i pol m' :
  frames_ok m -> 0 <= pol < 4096 -> used_entry pol = true -> allocate_pages n m i pol = Ok m' -> frames_ok m'.
Proof.
  revert m i. induction n as [|n IH]; intros m i Hok Hp Hu; simpl; [by intros [= <-]|].
  destruct (allocate_page m i pol) as [m1| | |] eqn:Ha; run; [|done..]. apply IH; [|done..].
  by eapply allocate_page_frames_ok.
Qed.

Lemma supported_range pol : Z.ldiff pol supported_policy = 0 -> 0 <= pol < 4096.
Proof.
  intros H. assert (pol = Z.land pol supported_policy) as ->.
  { apply Z.bits_inj'. intros n Hn. rewrite Z.land_spec. assert (Z.testbit (Z.ldiff pol supported_policy) n = false) as Hb
      by (rewrite H; apply Z.bits_0). rewrite Z.ldiff_spec in Hb.
    destruct (Z.testbit pol n), (Z.testbit supported_policy n); done. }
  change supported_policy with (Z.land 519 (Z.ones 10)). rewrite Z.land_assoc, Z.land_ones by lia.
  pose proof (Z.mod_pos_bound (Z.land pol 519) (2 ^ 10) ltac:(lia)). lia.
Qed.

Lemma kernel_sbrk_frames_ok m n pi hi m' p' a :
  frames_ok m -> 0 < n <= N_PAGES -> policy_valid (policy pi) = true -> is_u32 (hint hi) ->
  sbrk m kernel_process n pi hi = Ok (m', p', a) -> frames_ok m'.
Proof.
  intros Hok Hn Hpol Hh Hs. destruct (kernel_sbrk_Ok _ _ _ _ _ _ _ (proj1 Hok) Hn Hpol Hh Hs) as [Hinv' _]. revert Hs.
  unfold sbrk, tables_of, lowest_of, with_lowest. cbn [is_kernel kernel_process].
  destruct (lowest_free_frame m =? PT_ENTRIES * PDT_ENTRIES); [by intros [= <- <- <-]|].
  destruct (get_contiguous_pages n hi _ _) as [b| | |]; run; [|done..].
  destruct (Z.eqb_spec b UINT_MAX); [by intros [= <- <- <-]|].
  destruct (Z.eqb_spec (Z.ldiff (policy pi) supported_policy) 0) as [Hsup|]; run; [|done]. destruct (negb _); run; [|done].
  destruct (allocate_pages _ m b _) as [m1| | |] eqn:Ha; run; [|done..]. cbn [is_kernel kernel_process].
  apply allocate_pages_frames_ok in Ha; [|done|by apply supported_range|by apply policy_valid_used].
  destruct (skip_used _ _ _ _) as [l| | |]; run; [|done..]. intros [= <- <- <-].
  by apply (frames_ok_ext m1); [| |apply Hinv'|].
Qed.

(** Clearing the entry of a present page and unregistering its frame. *)
Lemma free_page_id_frames_ok m i m' : frames_ok m -> free_page_id m i = Ok m' -> frames_ok m'.
Proof.
  intros ([Hf Hl] & Hok). unfold free_page_id. destruct (PTE (page_tables m) i) as [e| | |] eqn:He; run; [|done..].
  assert (e = entry (page_tables m) i) as Hee by (unfold PTE in He; destruct (_ && _); by simplify_eq).
  destruct (negb (negb (truthy (Z.land e PAGE_LAZY_ZERO)) && (frame_of e =? 0))) eqn:Hz; run; [|done].
  destruct (set_PTE (page_tables m) i 0) as [pt| | |] eqn:Hs; run; [|done..].
  apply set_PTE_Ok in Hs as [Hi ->]; [|done].
  assert (forall f m1, (frame_to_page m1 = <[f := UINT_MAX]> (frame_to_page m) /\
      (forall k, i <> k -> present (entry (page_tables m) k) = true -> frame_of (entry (page_tables m) k) <> f)) \/
      frame_to_page m1 = frame_to_page m ->
    page_tables m1 = mkPT (<[i := 0]> (entries (page_tables m))) (tables (page_tables m)) ->
    lowest_free_pe m1 = lowest_free_pe m -> frames_ok m1) as Hgen.
  { intros f m1 Hftp Hpt Hlow. split; [split; [by rewrite Hpt|by rewrite Hlow]|]. intros k. cbv zeta. rewrite Hpt, entry_insert.
    destruct (decide (i = k)) as [<-|Hik]; [split; [done|by left]|].
    change (entry (mkPT _ _) k) with (entry (page_tables m) k). destruct (Hok k) as [H1 H2]. split; [|done].
    intros Hk. destruct (H1 Hk) as [Hr Hpg]. split; [done|]. destruct Hftp as [[Hftp Hne]|Hftp].
    - rewrite (page_of_frame_insert m m1 f UINT_MAX _ Hftp), decide_False; [done|]. intros E. by apply (Hne k).
    - unfold page_of_frame. by rewrite Hftp. }
  destruct (negb (truthy (Z.land e PAGE_LAZY_ZERO))) eqn:Hlz.
  - unfold MARK_FRAME_FREE, frame_index. destruct ((0 <=? frame_of e) && (frame_of e <? N_PAGES)); run; [|done].
    destruct (1 <? _); [done|]. intros [= <-]. apply (Hgen (frame_of e)); [left; split; [done|]|done|done].
    intros k Hik Hk. destruct (Hok k) as [H1 _]. destruct (H1 Hk) as [_ Hpk]. rewrite Hee. intros Hfe.
    destruct (Hok i) as [H3 H4]. rewrite <- Hee in *.
    assert (present e = true) as Hpe.
    { destruct H4 as [E|Hu].
      - exfalso. rewrite E in Hz. by vm_compute in Hz.
      - unfold used_entry, present, truthy in *. apply negb_true_iff, Z.eqb_neq in Hu.
        apply negb_true_iff, negb_false_iff, Z.eqb_eq in Hlz. apply negb_true_iff, Z.eqb_neq. intros E. apply Hu.
        by rewrite Z.land_lor_distr_r, E, Hlz. }
    destruct (H3 Hpe) as [_ Hpi]. rewrite <- Hfe, Hpk in Hpi. congruence.
  - intros [= <-]. apply (Hgen 0); [by right|done|done].
Qed.

(** *** Mapping given frames *)

Lemma FRAME_USED_Ok m f u :
  FRAME_USED m f = Ok u -> 0 <= f < N_PAGES /\ (u = false <-> page_of_frame m f = UINT_MAX).
Proof.
  unfold FRAME_USED, frame_index. destruct ((0 <=? f) && (f <? N_PAGES)) eqn:Hf; run; [|done]. intros [= <-].
  apply andb_true_iff in Hf as [?%Z.leb_le ?%Z.ltb_lt]. split; [lia|].
  destruct (Z.eqb_spec (page_of_frame m f) UINT_MAX); simpl; naive_solver.
Qed.

(** [n] frames from [f] on are not registered for any page. *)
Definition frames_unused (m : mem) (n f : Z) : Prop := forall k, f <= k < f + n -> page_of_frame m k = UINT_MAX.

Lemma map_frames_Ok n m f i m' :
  frames_ok m -> frames_unused m (Z.of_nat n) f -> map_frames n m f i = Ok m' ->
  frames_ok m' /\ lowest_free_pe m' = lowest_free_pe m /\
  (forall k, page_of_frame m' k = if decide (f <= k < f + Z.of_nat n) then i + (k - f) else page_of_frame m k).
Proof.
  revert m f i. induction n as [|n IH]; intros m f i Hok Hun; simpl.
  { intros [= <-]. split_and!; [done|done|]. intros k. rewrite decide_False by lia. done. }
  destruct (allocate_page_frame m f i DEFAULT_K_POLICY) as [m1| | |] eqn:Ha; run; [|done..]. intros Hr.
  unfold allocate_page_frame in Ha. destruct (set_PTE _ i _) as [pt| | |] eqn:Hs; run_in Ha; [|done..].
  apply set_PTE_Ok in Hs as [Hi ->]; [|apply Hok]. change (truthy (Z.land DEFAULT_K_POLICY PAGE_PRESENT)) with true in Ha.
  apply MARK_FRAME_USED_Ok in Ha as (Hf & _ & Hpt & Hlow & Hftp & _). simpl in *.
  assert (frames_ok m1) as Hok1.
  { apply (install_ok m m1 f i DEFAULT_K_POLICY); try done. apply Hun. lia. }
  pose proof (page_of_frame_insert m m1 f i) as Hpf.
  destruct (IH m1 (f + 1) (i + 1) Hok1) as (Hok' & Hlow' & Hk'); [|done|].
  { intros k Hk. rewrite (Hpf k Hftp), decide_False by lia. apply Hun. lia. }
  split_and!; [done|congruence|]. intros k. rewrite Hk', (Hpf k Hftp).
  repeat case_decide; try lia; done.
Qed.

Lemma all_free_Ok used n p : all_free used n p = Ok true -> forall k, p <= k < p + Z.of_nat n -> used k = Ok false.
Proof.
  revert p. induction n as [|n IH]; intros p; simpl; [lia|].
  destruct (used p) as [[]| | |] eqn:Hp; run; try done. intros Ha k Hk.
  destruct (decide (k = p)) as [->|]; [done|]. apply (IH (p + 1)); [done|lia].
Qed.

Lemma first_run_Ok used n fuel p q :
  first_run used n fuel p = Ok q -> q <> UINT_MAX -> forall k, q <= k < q + Z.of_nat n -> used k = Ok false.
Proof.
  revert p. induction fuel as [|fuel IH]; intros p; simpl; [by intros [= <-]|].
  destruct (all_free used n p) as [[]| | |] eqn:Ha; run; try done; [|apply IH]. intros [= <-] _. by apply all_free_Ok.
Qed.

Lemma identity_free_Ok n m p : identity_free n m p = Ok true -> frames_unused m (Z.of_nat n) p.
Proof.
  revert p. induction n as [|n IH]; intros p; simpl; [intros _ k; lia|].
  destruct (PTE_USED (page_tables m) p) as [[]| | |]; run; try done.
  destruct (FRAME_USED m p) as [[]| | |] eqn:Hp; run; try done. intros Ha k Hk.
  destruct (decide (k = p)) as [->|]; [by apply FRAME_USED_Ok in Hp as [_ Hp]; apply Hp|]. apply (IH (p + 1)); [done|lia].
Qed.

Lemma frames_used_Ok n m f all none a u :
  frames_used n m f all none = Ok (a, u) -> u = true -> none = true /\ frames_unused m (Z.of_nat n) f.
Proof.
  revert f all none. induction n as [|n IH]; intros f all none; simpl.
  { intros [= <- <-] ->. split; [done|]. intros k; lia. }
  destruct (FRAME_USED m f) as [x| | |] eqn:Hf; run; try done. intros Hr Hu.
  destruct (IH _ _ _ Hr Hu) as [[Hn Hx]%andb_true_iff Hun]. split; [done|]. intros k Hk.
  destruct (decide (k = f)) as [->|]; [|apply Hun; lia]. apply FRAME_USED_Ok in Hf as [_ Hf]. apply Hf.
  by apply negb_true_iff.
Qed.

Lemma FRAME_USED_unused m n f :
  (forall k, f <= k < f + n -> FRAME_USED m k = Ok false) -> frames_unused m n f.
Proof. intros Hk k Hr. specialize (Hk k Hr). apply FRAME_USED_Ok in Hk as [_ Hk]. by apply Hk. Qed.

(** The whole-memory operations that map frames of their own choice. *)
Lemma identity_map_frames_ok m addr size m' b : frames_ok m -> identity_map m addr size = Ok (m', b) -> frames_ok m'.
Proof.
  intros Hok. unfold identity_map. set (n := Z.to_nat _).
  destruct (identity_free n m (ADDR_PAGE addr)) as [[]| | |] eqn:Hi; run; try done; [|by intros [= <- <-]].
  destruct (map_frames n m _ _) as [m1| | |] eqn:Hm; run; [|done..]. intros [= <- <-].
  eapply map_frames_Ok in Hm as [? _]; [done..|by apply identity_free_Ok].
Qed.

Lemma physically_aligned_malloc_frames_ok m n m' a :
  frames_ok m -> physically_aligned_malloc m n = Ok (m', a) -> frames_ok m'.
Proof.
  intros Hok. unfold physically_aligned_malloc. set (k := Z.to_nat (Z.shiftr _ _)).
  destruct (first_run (PTE_USED _) _ _ _) as [pb| | |]; run; [|done..].
  destruct (pb =? UINT_MAX); [by intros [= <- <-]|].
  destruct (first_run (FRAME_USED m) _ _ _) as [fb| | |] eqn:Hfb; run; [|done..].
  destruct (Z.eqb_spec fb UINT_MAX); [by intros [= <- <-]|].
  destruct (map_frames k m fb pb) as [m1| | |] eqn:Hm; run; [|done..]. intros [= <- <-].
  eapply map_frames_Ok in Hm as [? _]; [done..|]. apply FRAME_USED_unused. by eapply first_run_Ok.
Qed.

Lemma register_physical_data_frames_ok m pa sz m' a :
  frames_ok m -> register_physical_data m pa sz = Ok (m', a) -> frames_ok m'.
Proof.
  intros Hok. unfold register_physical_data.
  destruct (frames_used _ _ _ _ _) as [[al no]| | |] eqn:Hf; run; [|done..].
  destruct no; [|by destruct al; intros [= <- <-]].
  destruct (contiguous_loop _ _ _ _) as [b| | |]; run; [|done..]. destruct (b =? UINT_MAX); [by intros [= <- <-]|].
  destruct (map_frames _ m _ b) as [m1| | |] eqn:Hm; run; [|done..]. intros [= <- <-].
  eapply map_frames_Ok in Hm as [? _]; [done..|]. by eapply frames_used_Ok.
Qed.

Lemma kernel_free_page_frames_ok m a m' p' : frames_ok m -> free_page m kernel_process a = Ok (m', p') -> frames_ok m'.
Proof.
  intros Hok. unfold free_page, tables_of. cbn [is_kernel kernel_process negb].
  destruct (PTE _ _) as [e| | |]; run; [|done..]. destruct (frame_index _) as [f| | |]; run; [|done..].
  assert (frames_ok (set_frame_rc m f (rc m f -u 1))) as Hok1 by (apply (frames_ok_ext m); [done..|apply Hok|done]).
  destruct (1 <=? _); [by intros [= <- <-]|].
  destruct (free_page_id _ _) as [m1| | |] eqn:Hf; run; [|done..]. intros [= <- <-]. by eapply free_page_id_frames_ok.
Qed.

Lemma kernel_fault_frames_ok m a w m' p' h : frames_ok m -> page_fault_handler m kernel_process a w = Ok (m', p', h) -> frames_ok m'.
Proof.
  intros Hok. unfold page_fault_handler. set (hh := KERNEL_VIRTUAL_BASE <=? a).
  assert (fault_tables m kernel_process hh = page_tables m) as Hft by (unfold fault_tables, tables_of; by destruct hh).
  rewrite Hft. destruct (PTE _ _) as [e| | |] eqn:He; run; [|done..].
  destruct (truthy (Z.land e PAGE_COW)); [by destruct w|]. run.
  destruct (negb _); [by intros [= <- <- <-]|].
  unfold handle_lazy_zero_page_fault. rewrite Hft, He. run.
  destruct (get_free_frame m) as [[m1 f]| | |] eqn:Hg; run; [|done..]. apply get_free_frame_Ok in Hg as [-> Hfree].
  assert (fault_tables (set_lowest_free_frame m f) kernel_process hh = page_tables m) as -> by (unfold fault_tables, tables_of; by destruct hh).
  rewrite <- !Z.lor_assoc. set (pol := Z.lor (if truthy (Z.land e PAGE_USER) then PAGE_USER else 0) (Z.lor PAGE_WRITE PAGE_PRESENT)).
  destruct (set_PTE _ _ _) as [pt| | |] eqn:Hs; run; [|done..]. apply set_PTE_Ok in Hs as [Hi ->]; [|apply Hok].
  set (m2 := mkPT _ _). replace (if hh then _ else _) with (set_page_tables (set_lowest_free_frame m f) m2, kernel_process)
    by (unfold with_tables; by destruct hh).
  cbn [is_kernel kernel_process orb].
  destruct (MARK_FRAME_USED _ f _) as [m3| | |] eqn:Hm; run; [|done..]. intros [= <- <- <-].
  apply MARK_FRAME_USED_Ok in Hm as (Hf & _ & Hpt & Hlow & Hftp & _).
  apply (install_ok m m3 f (ADDR_PAGE a) pol); try done.
  - subst pol. by destruct (truthy (Z.land e PAGE_USER)).
  - specialize (Hfree ltac:(lia)). apply FRAME_USED_Ok in Hfree as [_ H]. by apply H.
  - subst pol. by destruct (truthy (Z.land e PAGE_USER)).
Qed.

(** *** The kernel's memory operations as steps *)

Inductive kernel_step : mem -> mem -> Prop :=
| step_sbrk m n pi hi m' p' a :
    0 < n <= N_PAGES -> policy_valid (policy pi) = true -> is_u32 (hint hi) ->
    sbrk m kernel_process n pi hi = Ok (m', p', a) -> kernel_step m m'
| step_free_page m a m' p' : free_page m kernel_process a = Ok (m', p') -> kernel_step m m'
| step_page_fault m a w m' p' h : page_fault_handler m kernel_process a w = Ok (m', p', h) -> kernel_step m m'
| step_identity_map m a sz m' b : identity_map m a sz = Ok (m', b) -> kernel_step m m'
| step_physically_aligned m n m' a : physically_aligned_malloc m n = Ok (m', a) -> kernel_step m m'
| step_register m pa sz m' a : register_physical_data m pa sz = Ok (m', a) -> kernel_step m m'.

Lemma kernel_step_frames_ok m m' : frames_ok m -> kernel_step m m' -> frames_ok m'.
Proof.
  intros Hok Hs. destruct Hs; eauto using kernel_sbrk_frames_ok, kernel_free_page_frames_ok, kernel_fault_frames_ok,
    identity_map_frames_ok, physically_aligned_malloc_frames_ok, register_physical_data_frames_ok.
Qed.

(** Claim C3. No frame is ever mapped twice by the kernel: from any state in which each present page is the
    one its frame is registered for, every sequence of [sbrk], [free_page], page faults,
    [identity_map], [physically_aligned_malloc] and [register_physical_data] calls leads to a
    state in which two different present pages have different frames. *)
Theorem kernel_frames_distinct m m' i j :
  frames_ok m -> rtc kernel_step m m' -> i <> j ->
  present (entry (page_tables m') i) = true -> present (entry (page_tables m') j) = true ->
  frame_of (entry (page_tables m') i) <> frame_of (entry (page_tables m') j).
Proof.
  intros Hok Hs Hij Hi Hj.
  assert (frames_ok m') as [_ Hok'] by (induction Hs; eauto using kernel_step_frames_ok).
  destruct (Hok' i) as [H1 _]. destruct (Hok' j) as [H2 _]. destruct (H1 Hi) as [_ E1]. destruct (H2 Hj) as [_ E2].
  intros E. rewrite E, E2 in E1. congruence.
Qed.

(** ** Copy on write *)

Lemma PTE_Ok pt i e : PTE pt i = Ok e -> e = entry pt i /\ forall v, set_PTE pt i v = Ok (mkPT (<[i := v]> (entries pt)) (tables pt)).
Proof. unfold PTE, set_PTE, entry. destruct (_ && _); [|done]. intros [= <-]. done. Qed.

Lemma PTE_insert pt i e k v :
  PTE pt i = Ok e -> PTE (mkPT (<[k := v]> (entries pt)) (tables pt)) i = Ok (if decide (k = i) then v else e).
Proof.
  unfold PTE. simpl. destruct (_ && _); [|done]. intros [= <-]. f_equal.
  destruct (decide (k = i)) as [->|]; [by rewrite lookup_insert_eq|by rewrite lookup_insert_ne].
Qed.

Lemma frame_index_in f : 0 <= f < N_PAGES -> frame_index f = Ok f.
Proof. intros ?. unfold frame_index. by rewrite (proj2 (Z.leb_le 0 f)), (proj2 (Z.ltb_lt f N_PAGES)) by lia. Qed.

Lemma rc_insert m f n k : rc (set_frame_rc m f n) k = if decide (f = k) then n else rc m k.
Proof.
  unfold rc. simpl. destruct (decide (f = k)) as [->|]; [by rewrite lookup_insert_eq|by rewrite lookup_insert_ne].
Qed.

(** [update_pte] for a user process, when the count of the frame mapped so far is positive or
    nothing was mapped. *)
Lemma update_pte_user m pt low i old val :
  PTE pt i = Ok old -> 0 <= Z.shiftr old 12 < N_PAGES ->
  (rc m (Z.shiftr old 12) <> 0 \/ present old = false) ->
  (present val && negb (lazy_zero val) = true -> 0 <= Z.shiftr val 12 < N_PAGES) ->
  let m1 := if truthy (rc m (Z.shiftr old 12)) then set_frame_rc m (Z.shiftr old 12) (rc m (Z.shiftr old 12) - 1) else m in
  update_pte m (mkProc false pt low) i val =
    Ok (if present val && negb (lazy_zero val) then set_frame_rc m1 (Z.shiftr val 12) (rc m1 (Z.shiftr val 12) +u 1) else m1,
        mkProc false (mkPT (<[i := val]> (entries pt)) (tables pt)) low).
Proof.
  intros Hp Hfo Hrc Hv m1. unfold update_pte, tables_of, with_tables. cbn [is_kernel p_tables p_lowest]. rewrite Hp. run.
  rewrite (frame_index_in _ Hfo). run.
  replace (if truthy (rc m (Z.shiftr old 12)) then _ else _) with (Ok m1).
  - run. rewrite (proj2 (PTE_Ok _ _ _ Hp)). run. destruct (present val && negb (lazy_zero val)) eqn:E; [|done].
    by rewrite frame_index_in by auto.
  - subst m1. destruct (truthy (rc m (Z.shiftr old 12))) eqn:Ht; [done|].
    destruct Hrc as [Hrc| ->]; [|done]. unfold truthy in Ht. apply negb_false_iff, Z.eqb_eq in Ht. done.
Qed.

Lemma frame_of_shift e : 0 <= e -> frame_of e = Z.shiftr e 12.
Proof.
  intros He. unfold frame_of. apply Z.bits_inj'. intros n Hn. rewrite !Z.shiftr_spec, Z.ldiff_spec by lia.
  assert (Z.testbit 1023 (n + 12) = false) as ->; [|by rewrite andb_true_r].
  apply Z.bits_above_log2; [lia|]. change (Z.log2 1023) with 9. lia.
Qed.

Lemma shift_entry f pol : 0 <= f < N_PAGES -> 0 <= pol < 4096 -> Z.shiftr (Z.lor (FRAME_ID_ADDR f) pol) 12 = f.
Proof.
  intros Hf Hp. rewrite <- frame_of_shift; [by apply frame_of_entry|]. apply Z.lor_nonneg. split; [|lia].
  rewrite FRAME_ID_ADDR_eq by done. apply Z.shiftl_nonneg. lia.
Qed.

Lemma truthy_bit x k : 0 <= k -> truthy (Z.land x (2 ^ k)) = Z.testbit x k.
Proof.
  intros Hk. unfold truthy. destruct (Z.testbit x k) eqn:Hb.
  - apply negb_true_iff, Z.eqb_neq. intros E. assert (Z.testbit (Z.land x (2 ^ k)) k = false) as H by (rewrite E; apply Z.bits_0).
    rewrite Z.land_spec, Hb, Z.pow2_bits_true in H by lia. done.
  - apply negb_false_iff, Z.eqb_eq. apply Z.bits_inj'. intros n Hn. rewrite Z.land_spec, Z.bits_0, Z.pow2_bits_eqb by lia.
    destruct (Z.eqb_spec k n) as [<-|]; [by rewrite Hb|by rewrite andb_false_r].
Qed.

Lemma present_bit e : present e = Z.testbit e 0.
Proof. apply (truthy_bit e 0). lia. Qed.
Lemma lazy_bit e : lazy_zero e = Z.testbit e 9.
Proof. apply (truthy_bit e 9). lia. Qed.

Lemma entry_set pt i v k : entry (mkPT (<[i := v]> (entries pt)) (tables pt)) k = if decide (i = k) then v else entry pt k.
Proof. rewrite entry_insert. by destruct pt. Qed.

(** The bits of a page that leaves copy-on-write. *)
Definition cow_policy (e : Z) : Z := Z.lor (Z.ldiff (Z.land e 2047) PAGE_COW) PAGE_WRITE.

Lemma cow_policy_bit e n : 0 <= n < 11 -> Z.testbit (cow_policy e) n = (Z.testbit e n && negb (n =? 8)) || (n =? 1).
Proof.
  intros Hn. unfold cow_policy, PAGE_COW, PAGE_WRITE. rewrite Z.lor_spec, Z.ldiff_spec, Z.land_spec.
  change 2047 with (Z.ones 11). change 256 with (2 ^ 8). change 2 with (2 ^ 1). rewrite Z.ones_spec_low, !Z.pow2_bits_eqb by lia.
  rewrite andb_true_r. rewrite (Z.eqb_sym 8 n), (Z.eqb_sym 1 n). done.
Qed.

Lemma cow_policy_range e : 0 <= cow_policy e < 4096.
Proof.
  assert (cow_policy e = Z.land (cow_policy e) (Z.ones 12)) as ->.
  { apply Z.bits_inj'. intros n Hn. rewrite Z.land_spec. destruct (decide (n < 12)).
    - by rewrite Z.ones_spec_low, andb_true_r by lia.
    - rewrite Z.ones_spec_high, andb_false_r by lia. unfold cow_policy, PAGE_COW, PAGE_WRITE.
      rewrite Z.lor_spec, Z.ldiff_spec, Z.land_spec. change 2047 with (Z.ones 11). change 2 with (2 ^ 1).
      rewrite Z.ones_spec_high, Z.pow2_bits_false by lia. by rewrite andb_false_r. }
  rewrite Z.land_ones by lia. apply Z.mod_pos_bound. lia.
Qed.

Lemma low_bits f pol n : 0 <= f < N_PAGES -> 0 <= n < 12 -> Z.testbit (Z.lor (FRAME_ID_ADDR f) pol) n = Z.testbit pol n.
Proof.
  intros Hf Hn. rewrite FRAME_ID_ADDR_eq, Z.lor_spec, Z.shiftl_spec by lia. by rewrite (Z.testbit_neg_r f) by lia.
Qed.

(** The entry of the private copy. *)
Lemma cow_entry_facts f e : 0 <= f < N_PAGES -> present e = true -> lazy_zero e = false -> let e' := Z.lor (FRAME_ID_ADDR f) (cow_policy e) in
  present e' = true /\ lazy_zero e' = false /\ Z.shiftr e' 12 = f /\ frame_of e' = f /\ Z.testbit e' 1 = true /\ Z.testbit e' 8 = false.
Proof.
  intros Hf Hep Hel e'. pose proof (cow_policy_range e). unfold e'. split_and!.
  - by rewrite present_bit, low_bits, cow_policy_bit, <- present_bit, Hep by lia.
  - by rewrite lazy_bit, low_bits, cow_policy_bit, <- lazy_bit, Hel by lia.
  - by apply shift_entry; [lia|].
  - by apply frame_of_entry; [lia|].
  - rewrite low_bits, cow_policy_bit by lia. by rewrite orb_true_r.
  - rewrite low_bits, cow_policy_bit by lia. by rewrite andb_false_r.
Qed.

(** The shared frame is mapped at [b] for the time of the copy to the new frame [f] of [page]. *)
Lemma cow_copy m pt low page b e e' f (k : mem * proc -> res (mem * proc)) :
  let fo := Z.shiftr e 12 in
  PTE pt page = Ok e -> PTE pt b = Ok 0 -> page <> b -> is_u32 e -> present e = true -> lazy_zero e = false -> present e' = true -> lazy_zero e' = false ->
  Z.shiftr e' 12 = f -> frame_of e' = f -> 0 < f < N_PAGES -> 0 < fo < N_PAGES -> fo <> f -> rc m 0 = 0 -> rc m f = 1 -> 0 < rc m fo < UINT_MAX ->
  ('(m, p) ← update_pte m (mkProc false pt low) b e; '(m, p) ← update_pte m p page e'; d ← read_page m (p_tables p) b; m ← write_page m (p_tables p) page d;
   x ← update_pte m p b 0; k x) =
  k (set_frame_rc (set_frame_data (set_frame_rc (set_frame_rc (set_frame_rc m fo (rc m fo + 1)) fo (rc m fo)) f 2) f (contents m fo)) fo (rc m fo - 1),
     mkProc false (mkPT (<[b := 0]> (<[page := e']> (<[b := e]> (entries pt)))) (tables pt)) low).
Proof.
  intros fo He Hbz Hpb Heu Hep Hel Hpe' Hle' Hsf Hff Hfr Hfo Hne Hr0 Hr1 Hrc.
  rewrite (update_pte_user m pt low b 0 e); [|done|change (Z.shiftr 0 12) with 0; lia|by right|intros _; fold fo; lia].
  change (Z.shiftr 0 12) with 0. rewrite Hr0. change (truthy 0) with false. cbv iota zeta. rewrite Hep, Hel. cbn [negb andb]. fold fo.
  rewrite (u32_id (rc m fo + 1)) by (unfold is_u32, UINT_MAX in *; lia). run.
  set (m5 := set_frame_rc m fo _). set (pt5 := mkPT (<[b := e]> (entries pt)) (tables pt)).
  assert (PTE pt5 page = Ok e) as He5 by (unfold pt5; rewrite (PTE_insert pt page e) by done; by rewrite decide_False by congruence).
  assert (forall i, rc m5 i = if decide (fo = i) then rc m fo + 1 else rc m i) as Hrc5 by (intros i; unfold m5; by rewrite rc_insert).
  rewrite (update_pte_user m5 pt5 low page e e'); [|done|fold fo; lia|left; fold fo; rewrite Hrc5, decide_True by done; lia|rewrite Hsf; lia].
  fold fo. rewrite (Hrc5 fo), decide_True by done.
  assert (truthy (rc m fo + 1) = true) as -> by (apply negb_true_iff, Z.eqb_neq; lia). cbv iota zeta.
  rewrite Hpe', Hle'. cbn [negb andb]. rewrite Hsf, rc_insert, decide_False by congruence. rewrite (Hrc5 f), decide_False, Hr1 by congruence. change (u32 (1 + 1)) with 2.
  replace (rc m fo + 1 - 1) with (rc m fo) by lia. run.
  set (m6 := set_frame_rc (set_frame_rc m5 fo _) f 2). set (pt6 := mkPT (<[page := e']> (entries pt5)) (tables pt5)). cbn [p_tables].
  assert (PTE pt6 b = Ok e) as Hb6.
  { unfold pt6. rewrite (PTE_insert pt5 b e); [by rewrite decide_False by congruence|]. unfold pt5. rewrite (PTE_insert pt b 0) by done. by rewrite decide_True. }
  assert (PTE pt6 page = Ok e') as Hp6 by (unfold pt6; rewrite (PTE_insert pt5 page e) by done; by rewrite decide_True).
  unfold read_page, write_page. rewrite Hb6. run. rewrite Hep. run. rewrite Hp6. run. rewrite Hpe'. run.
  rewrite Hff. assert (frame_of e = fo) as -> by (apply frame_of_shift; unfold is_u32 in Heu; lia).
  change (contents m6 fo) with (contents m fo). set (m7 := set_frame_data m6 f (contents m fo)).
  assert (rc m7 fo = rc m fo) as Hr7 by (change (rc m7 fo) with (rc m6 fo); unfold m6; rewrite rc_insert, decide_False by congruence; by rewrite rc_insert, decide_True).
  rewrite (update_pte_user m7 pt6 low b e 0); [|done|fold fo; lia|left; fold fo; lia|done].
  fold fo. rewrite Hr7. assert (truthy (rc m fo) = true) as -> by (apply negb_true_iff, Z.eqb_neq; lia). done.
Qed.

(** Claim C10. A write to a copy-on-write page: when a kernel entry, a frame and a free page of the process are
    found and the counts are sound, the handler returns; the page is then mapped, writable and no
    longer copy-on-write, to a new frame that holds what the shared frame holds; no other page of
    the process and no other frame's contents change, and the shared frame loses one reference. *)
Theorem cow_fault_ok m pt low page m1 s m2 f e b :
  full (page_tables m) -> get_free_pe_user m = Ok (m1, s) -> 0 <= s < N_PAGES ->
  get_free_frame m1 = Ok (m2, f) -> 0 < f < N_PAGES -> rc m f = 0 -> rc m 0 = 0 ->
  PTE pt page = Ok e -> is_u32 e -> present e = true -> lazy_zero e = false -> 0 < rc m (Z.shiftr e 12) < UINT_MAX ->
  get_contiguous_pages 1 DEFAULT_HINT_INFO pt low = Ok b -> PTE pt b = Ok 0 ->
  let fo := Z.shiftr e 12 in
  exists m' pt', handle_cow_page_fault m (mkProc false pt low) false page = Ok (m', mkProc false pt' low) /\
    (let e' := entry pt' page in
     frame_of e' = f /\ Z.testbit e' 1 = true /\ Z.testbit e' 8 = false /\ present e' = true) /\
    (forall k, k <> page -> entry pt' k = entry pt k) /\
    contents m' f = contents m fo /\ (forall g, g <> f -> contents m' g = contents m g) /\
    rc m' fo = rc m fo - 1 /\ rc m' f = 2 /\ page_of_frame m' fo = page_of_frame m fo.
Proof.
  intros Hfull Hs Hsr Hf Hfr Hrf Hr0 He Heu Hep Hel Hrc Hb Hbz fo.
  assert (m1 = set_lowest_free_pe_user m s) as ->.
  { unfold get_free_pe_user in Hs. destruct (skip_used _ _ _ _); run_in Hs; by simplify_eq. }
  assert (m2 = set_lowest_free_frame (set_lowest_free_pe_user m s) f) as -> by by apply get_free_frame_Ok in Hf as [? _].
  assert (0 <= fo < N_PAGES) as Hfo by by apply ADDR_PAGE_range.
  assert (fo <> f) as Hne by (intros E; unfold fo in E; rewrite E in Hrc; lia).
  assert (fo <> 0) as Hn0 by (intros E; unfold fo in E; rewrite E in Hrc; lia).
  assert (page <> b) as Hpb by (intros ->; rewrite Hbz in He; simplify_eq; by vm_compute in Hep).
  assert (present (cow_policy e) = true) as Hpp by (rewrite present_bit, cow_policy_bit by lia; rewrite <- present_bit, Hep; done).
  destruct (cow_entry_facts f e ltac:(lia) Hep Hel) as (Hpe' & Hle' & Hsf & Hff & Hw & Hc). set (e' := Z.lor (FRAME_ID_ADDR f) (cow_policy e)) in *.
  unfold handle_cow_page_fault. cbn [is_kernel negb ensure p_tables p_lowest]. rewrite Hs. run. rewrite Hf. run. rewrite He. run.
  fold (cow_policy e). fold e'. unfold allocate_page_frame. cbn [page_tables set_lowest_free_frame set_lowest_free_pe_user].
  rewrite (set_PTE_in _ s) by done. run. fold (present (cow_policy e)). rewrite Hpp. unfold MARK_FRAME_USED. rewrite (frame_index_in f) by lia. run.
  set (m3 := set_frame_to_page _ f s). change (rc m3 f) with (rc m f). rewrite Hrf. change (truthy 0) with false. cbv iota. run.
  change (u32 (0 + 1)) with 1. set (m4 := set_frame_rc m3 f 1). rewrite Hb. run.
  assert (forall k, rc m4 k = if decide (f = k) then 1 else rc m k) as Hrc4 by (intros k; unfold m4; by rewrite rc_insert).
  assert (rc m4 fo = rc m fo) as Hr4 by by rewrite Hrc4, decide_False by congruence.
  rewrite (cow_copy m4 pt low page b e e' f); try done; [|fold fo; lia|rewrite Hrc4, decide_False by lia; done|by rewrite Hrc4, decide_True|fold fo; by rewrite Hr4].
  fold fo. rewrite Hr4. change (contents m4 fo) with (contents m fo). rewrite !rc_insert, decide_False by congruence.
  change (rc (set_frame_data ?x _ _) f) with (rc x f). rewrite rc_insert, decide_True by done. change (2 =? 0) with false. cbv iota.
  eexists _, _. split; [done|]. cbv zeta. unfold entry; cbn [entries]. rewrite (lookup_insert_ne _ b page), lookup_insert_eq by congruence. split_and!; try done.
  - intros k Hk. destruct (decide (b = k)) as [<-|]; [rewrite lookup_insert_eq; apply PTE_Ok in Hbz as [Hz _]; exact Hz|]. by rewrite !lookup_insert_ne by congruence.
  - unfold contents. simpl. by rewrite lookup_insert_eq.
  - intros g Hg. unfold contents. simpl. by rewrite lookup_insert_ne.
  - by rewrite rc_insert, decide_True.
  - rewrite rc_insert, decide_False by congruence. change (rc (set_frame_data ?x _ _) f) with (rc x f). by rewrite rc_insert, decide_True.
  - unfold page_of_frame. simpl. by rewrite lookup_insert_ne.
Qed.

(** ** Physical data made addressable *)

Lemma land_page a : Z.land a (PAGE_SIZE - 1) = a mod 4096.
Proof. unfold PAGE_SIZE. change (4096 - 1) with (Z.ones 12). rewrite Z.land_ones by lia. done. Qed.

Lemma shift_page a : Z.shiftr a 12 = a / 4096.
Proof. rewrite Z.shiftr_div_pow2 by lia. done. Qed.

Lemma shiftl_page a : Z.shiftl a 12 = a * 4096.
Proof. rewrite Z.shiftl_mul_pow2 by lia. done. Qed.

(** [register_physical_data] and [phys_to_virt_addr] agree: once a block of physical memory none of
    whose frames was in use has been mapped at [v], every byte of it translates to the byte at
    the same offset from [v]. *)
Theorem register_then_translate m pa sz m' v k :
  frames_ok m -> 0 <= pa -> 0 < sz -> pa + sz + 2 * PAGE_SIZE <= 4294967296 ->
  frames_unused m (Z.shiftr (u32 (sz + Z.land pa (PAGE_SIZE - 1) + PAGE_SIZE - 1)) 12) (Z.shiftr pa 12) ->
  register_physical_data m pa sz = Ok (m', v) -> v <> 0 -> 0 <= k < sz ->
  phys_to_virt_addr m' (pa + k) = Ok (v + k).
Proof.
  intros Hok Hpa Hsz Hend Hun Hreg Hv Hk. unfold register_physical_data in Hreg. revert Hun Hreg.
  rewrite !land_page, !shift_page. unfold PAGE_SIZE in *. set (off := pa mod 4096).
  assert (0 <= off < 4096) as Hoff by (apply Z.mod_pos_bound; lia).
  rewrite (u32_id (sz + off + 4096 - 1)) by (unfold is_u32; lia). set (n := (sz + off + 4096 - 1) / 4096). intros Hun.
  pose proof (Z.div_mod (sz + off + 4096 - 1) 4096 ltac:(lia)) as Hn. pose proof (Z.mod_pos_bound (sz + off + 4096 - 1) 4096 ltac:(lia)).
  fold n in Hn. pose proof (Z.div_mod pa 4096 ltac:(lia)) as Hdm. fold off in Hdm.
  assert (0 < n <= 1048575) as Hnr by lia.
  destruct (frames_used (Z.to_nat n) m (pa / 4096) true true) as [[al no]| | |] eqn:Hfu; run; [|done..].
  assert (no = true) as ->.
  { assert (forall j f all none, (forall x, f <= x < f + Z.of_nat j -> page_of_frame m x = UINT_MAX) ->
      frames_used j m f all none = Ok (al, no) -> no = none) as Hgen.
    { induction j as [|j IH]; intros f all none Hx; simpl; [by intros [= _ <-]|].
      destruct (FRAME_USED m f) as [u| | |] eqn:Hf; run; [|done..]. intros Hr.
      apply IH in Hr; [|intros x ?; apply Hx; lia]. apply FRAME_USED_Ok in Hf as [_ Hf].
      assert (u = false) as -> by (apply Hf, Hx; lia). by rewrite andb_true_r in Hr. }
    eapply Hgen; [|done]. intros x ?. apply Hun. lia. }
  destruct (contiguous_loop _ _ _ _) as [b| | |] eqn:Hc; run; [|done..].
  destruct (Z.eqb_spec b UINT_MAX) as [|Hb]; [by intros [= <- <-]|].
  destruct (map_frames _ m _ b) as [m1| | |] eqn:Hm; run; [|done..]. intros [= <- <-].
  assert (search_result (page_tables m) n (lowest_free_pe m) (Ok b)) as Hsr.
  { rewrite <- Hc. apply contiguous_loop_spec; [apply Hok|unfold N_PAGES, PDT_ENTRIES, PT_ENTRIES; lia|apply Hok|].
    pose proof (above_size (entries (page_tables m)) (lowest_free_pe m)). lia. }
  destruct Hsr as [[? _]|(Hlo & [Hfit _] & _)]; [done|].
  pose proof (proj2 (proj1 Hok)) as Hlow. unfold N_PAGES, PDT_ENTRIES, PT_ENTRIES in *.
  assert (frames_unused m (Z.of_nat (Z.to_nat n)) (pa / 4096)) as Hun' by by rewrite Z2Nat.id by lia.
  destruct (map_frames_Ok _ _ _ _ _ Hok Hun' Hm) as (_ & _ & Hpg).
  unfold phys_to_virt_addr. rewrite land_page, shift_page, !shiftl_page.
  pose proof (Z.div_mod (pa + k) 4096 ltac:(lia)) as Hdk. pose proof (Z.mod_pos_bound (pa + k) 4096 ltac:(lia)).
  rewrite frame_index_in by (unfold N_PAGES, PDT_ENTRIES, PT_ENTRIES; lia). run.
  rewrite Hpg, decide_True by lia.
  rewrite (proj2 (Z.eqb_neq _ _)) by (unfold UINT_MAX; lia).
  rewrite !shiftl_page, (u32_id (b * 4096)), (u32_id ((b + ((pa + k) / 4096 - pa / 4096)) * 4096)) by (unfold is_u32; lia).
  rewrite !u32_id by (unfold is_u32; lia). f_equal. lia.
Qed.

(** ** What freeing does to the reference counts *)

(** Freeing a page of a user process only drops the process's own reference: [sbrk] maps such a page
    both in the kernel and in the process, so its frame is counted twice, and a frame counted
    twice stays registered, and mapped by the kernel, after [free_page]. *)
Theorem user_free_keeps_frame m pt low i e :
  0 <= i < N_PAGES -> PTE pt i = Ok e -> is_u32 e -> present e = true -> lazy_zero e = false -> 2 <= rc m (frame_of e) ->
  exists m' pt', free_page m (mkProc false pt low) (i * PAGE_SIZE) = Ok (m', mkProc false pt' low) /\
    entry pt' i = 0 /\ page_tables m' = page_tables m /\ frame_to_page m' = frame_to_page m /\
    rc m' (frame_of e) = rc m (frame_of e) - 1.
Proof.
  intros Hi He Heu Hp Hl Hrc. unfold free_page, tables_of. cbn [is_kernel p_tables negb].
  assert (Z.shiftr (i * PAGE_SIZE) 12 = i) as -> by (unfold PAGE_SIZE; by rewrite shift_page, Z.div_mul).
  rewrite He. run. rewrite Hl. assert (frame_of e = Z.shiftr e 12) as Hfe by (apply frame_of_shift; unfold is_u32 in Heu; lia).
  rewrite Hfe in *. assert (0 <= Z.shiftr e 12 < N_PAGES) as Hr by by apply ADDR_PAGE_range.
  rewrite frame_index_in by done. run.
  rewrite (update_pte_user m pt low i e 0); [|done|done|left; lia|done].
  assert (truthy (rc m (Z.shiftr e 12)) = true) as -> by (apply negb_true_iff, Z.eqb_neq; lia).
  change (present 0 && negb (lazy_zero 0)) with false. cbv iota zeta. run. rewrite rc_insert, decide_True by done.
  rewrite (proj2 (Z.leb_le 1 _)) by lia. eexists _, _. split; [done|].
  rewrite entry_set, decide_True by done. split_and!; [done|done|done|]. by rewrite rc_insert, decide_True.
Qed.

(** Freeing a kernel page that was allocated lazily and never touched: its entry names the frame that
    was lowest when it was allocated, whose count [free_page] decrements although the page never
    counted.  With the frame still free the count wraps, the page stays mapped, and the next
    allocation of a present page stops the kernel. *)
Theorem lazy_free_poisons_frame m i f pol :
  kernel_inv m -> 0 <= i < N_PAGES -> 0 <= f < N_PAGES -> frame_of (entry (page_tables m) i) = f ->
  page_of_frame m f = UINT_MAX -> rc m f = 0 -> lowest_free_frame m = f -> present pol = true ->
  exists m', free_page m kernel_process (i * PAGE_SIZE) = Ok (m', kernel_process) /\
    page_tables m' = page_tables m /\ rc m' f = UINT_MAX /\
    forall j, 0 <= j < N_PAGES -> allocate_page m' j pol = Panic.
Proof.
  intros [Hfull _] Hi Hf Hfo Hun Hrc Hlow Hp.
  assert (free_page m kernel_process (i * PAGE_SIZE) = Ok (set_frame_rc m f UINT_MAX, kernel_process)) as Hfree.
  { unfold free_page, tables_of. cbn [is_kernel kernel_process negb].
    assert (Z.shiftr (i * PAGE_SIZE) 12 = i) as -> by (unfold PAGE_SIZE; by rewrite shift_page, Z.div_mul).
    rewrite (PTE_in _ i Hfull Hi). run. rewrite Hfo, frame_index_in by done. run. rewrite Hrc.
    change (u32 (0 - 1)) with UINT_MAX. rewrite rc_insert, decide_True by done. done. }
  eexists. split; [exact Hfree|]. split_and!; [done|by rewrite rc_insert, decide_True|]. intros j Hj.
  unfold allocate_page, get_free_frame. cbn [lowest_free_frame set_frame_rc]. rewrite Hlow.
  assert (FRAME_USED (set_frame_rc m f UINT_MAX) f = Ok false) as Hfu.
  { unfold FRAME_USED. rewrite frame_index_in by done. run. change (page_of_frame (set_frame_rc m f UINT_MAX) f) with (page_of_frame m f).
    rewrite Hun. done. }
  simpl skip_used. rewrite (proj2 (Z.leb_gt N_PAGES f)) by lia. rewrite Hfu. run. cbn [negb]. run.
  unfold allocate_page_frame. cbn [page_tables set_lowest_free_frame set_frame_rc]. rewrite (set_PTE_in _ j) by done. run.
  fold (present pol). rewrite Hp. unfold MARK_FRAME_USED. rewrite frame_index_in by done. run.
  match goal with |- context [rc ?x f] => change (rc x f) with (rc (set_frame_rc m f UINT_MAX) f) end.
  rewrite rc_insert, decide_True by done. done.
Qed.

(** ** The theorems at work *)

(** A kernel whose last page is mapped and whose heap is empty. *)
Definition boot_mem : mem :=
  mkMem (mkPT {[ 1048575 := Z.lor (FRAME_ID_ADDR 4096) 3 ]} 1024) {[ 4096 := 1048575 ]} {[ 4096 := 1 ]} 1 790528 4097 ∅.

Lemma boot_frames_ok : frames_ok boot_mem.
Proof.
  split; [split; [reflexivity|split; vm_compute; discriminate]|]. intros i. cbv zeta.
  unfold boot_mem, page_tables, entry. simpl. destruct (decide (i = 1048575)) as [->|].
  - rewrite lookup_singleton_eq. split; [intros _; split; [split; vm_compute; [discriminate|reflexivity]|reflexivity]|right; reflexivity].
  - rewrite lookup_singleton_ne by done. split; [intros Hp; vm_compute in Hp; discriminate|left; reflexivity].
Qed.

Definition K_INFO : page_info := mkInfo 34 DEFAULT_K_POLICY.

Lemma get_contiguous_pages_witness :
  get_contiguous_pages 2 DEFAULT_HINT_INFO (mkPT {[ 7 := 3 ]} 1024) 6 = Ok 8 /\
  free_run (mkPT {[ 7 := 3 ]} 1024) 2 8.
Proof.
  pose proof (get_contiguous_pages_first_fit (mkPT {[ 7 := 3 ]} 1024) 2 DEFAULT_HINT_INFO 6) as Hs.
  assert (get_contiguous_pages 2 DEFAULT_HINT_INFO (mkPT {[ 7 := 3 ]} 1024) 6 = Ok 8) as Hg by (vm_compute; reflexivity).
  rewrite Hg in Hs. split; [exact Hg|].
  destruct Hs as [[Hx _]|(_ & Hr & _)];
    [reflexivity|split; vm_compute; discriminate|reflexivity|split; vm_compute; discriminate|split; vm_compute; [discriminate|reflexivity]
    |discriminate|exact Hr].
Defined.

Lemma kernel_frames_distinct_witness :
  exists m', kernel_step boot_mem m' /\
    frame_of (entry (page_tables m') 790528) <> frame_of (entry (page_tables m') 790529).
Proof.
  assert (exists m' p', sbrk boot_mem kernel_process 2 K_INFO DEFAULT_HINT_INFO = Ok (m', p', 3238002688) /\
    present (entry (page_tables m') 790528) = true /\ present (entry (page_tables m') 790529) = true) as (m' & p' & Hs & H1 & H2).
  { eexists _, _. split; [vm_compute; reflexivity|]. split; vm_compute; reflexivity. }
  exists m'. assert (kernel_step boot_mem m') as Hstep.
  { apply (step_sbrk boot_mem 2 K_INFO DEFAULT_HINT_INFO m' p' 3238002688); [split; vm_compute; [reflexivity|discriminate]|reflexivity|split; vm_compute; [discriminate|reflexivity]|exact Hs]. }
  split; [exact Hstep|].
  apply (kernel_frames_distinct boot_mem m'); [apply boot_frames_ok|by eapply rtc_once|discriminate|exact H1|exact H2].
Defined.

(** A page shared copy-on-write, on frame 1024, counted twice. *)
Definition cow_entry : Z := Z.lor (FRAME_ID_ADDR 1024) 261.
Definition cow_table : page_table := mkPT {[ 1 := cow_entry ]} 768.
Definition cow_mem : mem := set_frame_data (set_frame_rc boot_mem 1024 2) 1024 (replicate 4096 7).

Lemma cow_fault_ok_witness :
  exists m' pt', handle_cow_page_fault cow_mem (mkProc false cow_table 5) false 1 = Ok (m', mkProc false pt' 5) /\
    contents m' (frame_of (entry pt' 1)) = replicate 4096 7 /\ rc m' 1024 = 1.
Proof.
  destruct (cow_fault_ok cow_mem cow_table 5 1 (set_lowest_free_pe_user cow_mem 1) 1
    (set_lowest_free_frame (set_lowest_free_pe_user cow_mem 1) 4097) 4097 cow_entry 5)
    as (m' & pt' & Hh & (Hf & _) & _ & Hc & _ & Hr & _);
    [reflexivity|vm_compute; reflexivity|split; vm_compute; [discriminate|reflexivity]|vm_compute; reflexivity
    |split; vm_compute; reflexivity|reflexivity|reflexivity|vm_compute; reflexivity|split; vm_compute; [discriminate|reflexivity]
    |reflexivity|reflexivity|split; vm_compute; reflexivity|vm_compute; reflexivity|vm_compute; reflexivity|].
  exists m', pt'. split; [exact Hh|]. split; [rewrite Hf; exact Hc|exact Hr].
Defined.

Lemma register_then_translate_witness :
  exists m' v, register_physical_data boot_mem 8193000 5000 = Ok (m', v) /\ phys_to_virt_addr m' 8197000 = Ok (v + 4000).
Proof.
  assert (exists m', register_physical_data boot_mem 8193000 5000 = Ok (m', 3238003688)) as (m' & Hr)
    by (eexists; vm_compute; reflexivity).
  exists m', 3238003688. split; [exact Hr|].
  refine (register_then_translate boot_mem 8193000 5000 m' 3238003688 4000 boot_frames_ok _ _ _ _ Hr _ _);
    [lia|lia|unfold PAGE_SIZE; lia| |lia|lia].
  intros k Hk. assert (k <> 4096) by (vm_compute in Hk; destruct Hk as [? Hk]; intros ->; vm_compute in Hk; discriminate).
  unfold page_of_frame, boot_mem. simpl. by rewrite lookup_singleton_ne.
Defined.

Lemma user_free_keeps_frame_witness :
  exists m p a, sbrk boot_mem (mkProc false (mkPT ∅ 768) 5) 1 (mkInfo 34 DEFAULT_U_POLICY) DEFAULT_HINT_INFO = Ok (m, p, a) /\
    exists m' p', free_page m p a = Ok (m', p') /\ page_of_frame m' 4097 = 790528 /\ page_tables m' = page_tables m.
Proof.
  eexists _, _, _. split; [vm_compute; reflexivity|].
  match goal with |- exists _ _, free_page ?m (mkProc false ?pt ?low) _ = _ /\ _ =>
    destruct (user_free_keeps_frame m pt low 5 16781319) as (m' & pt' & Hf & _ & Ht & Hp & _);
      [split; vm_compute; [discriminate|reflexivity]|vm_compute; reflexivity|split; vm_compute; [discriminate|reflexivity]
      |reflexivity|reflexivity|vm_compute; discriminate|] end.
  exists m', (mkProc false pt' 6). split; [exact Hf|]. split; [|exact Ht].
  unfold page_of_frame. rewrite Hp. vm_compute. reflexivity.
Defined.

Lemma lazy_free_poisons_frame_witness :
  exists m a, sbrk boot_mem kernel_process 1 (mkInfo 34 (Z.lor PAGE_LAZY_ZERO PAGE_WRITE)) DEFAULT_HINT_INFO = Ok (m, kernel_process, a) /\
    exists m', free_page m kernel_process a = Ok (m', kernel_process) /\ allocate_page m' 790600 DEFAULT_K_POLICY = Panic.
Proof.
  eexists _, _. split; [vm_compute; reflexivity|].
  match goal with |- exists _, free_page ?m _ _ = _ /\ _ =>
    destruct (lazy_free_poisons_frame m 790528 4097 DEFAULT_K_POLICY) as (m' & Hf & _ & _ & Ha) end;
    [split; [reflexivity|split; vm_compute; discriminate]|split; vm_compute; [discriminate|reflexivity]
    |split; vm_compute; [discriminate|reflexivity]|vm_compute; reflexivity|reflexivity|reflexivity|reflexivity|reflexivity|].
  exists m'. split; [exact Hf|]. apply Ha. split; vm_compute; [discriminate|reflexivity].
Defined.

End PageAlloc.
