(* ===== verification/KernelHeap.v ===== *)
(** * The kernel's allocation functions ([kernel/core/memory.cpp])

    [malloc], [calloc], [free], [realloc], [mmap], [malloca], [calloca] and [mprotect], on top of
    the heap tree of [MemTree] and the pages of [PageAlloc]. *)

From stdpp Require Import base tactics numbers list gmap sets.
From S2P Require Import Prelude BST MemTree PageAlloc.
Import MemTree PageAlloc.
Import Counter.
Open Scope Z_scope.

Module KernelHeap.

(** ** Zeroing memory that may be lazily allocated *)

(** The loop of [zero_out_possibly_lazily_allocated_memory] over the pages after the first: the
    calls to [memset], as address and length. *)
Fixpoint zero_loop (count : nat) (pt : page_table) (page_id rem : Z) : res (list (Z * Z)) :=
  match count with
  | O => Ok []
  | S count =>
      let n := Z.min rem PAGE_SIZE in
      e ← PTE pt page_id;
      rest ← zero_loop count pt (page_id + 1) (rem - n);
      Ok (if present e then (u32 (Z.shiftl page_id 12), n) :: rest else rest)
  end.

(** [zero_out_possibly_lazily_allocated_memory]. *)
Definition zero_out (pt : page_table) (total_size mem_addr : Z) : res (list (Z * Z)) :=
  let first_page_id := ADDR_PAGE mem_addr in
  let mem_off := Z.land mem_addr (PAGE_SIZE - 1) in
  let bytes_on_first_page := Z.min (PAGE_SIZE - mem_off) total_size in
  e ← PTE pt first_page_id;
  let num_remaining_pages := ADDR_PAGE (u32 (total_size - bytes_on_first_page + PAGE_SIZE - 1)) in
  rest ← zero_loop (Z.to_nat num_remaining_pages) pt (first_page_id + 1) (total_size - bytes_on_first_page);
  Ok (if present e then (mem_addr, bytes_on_first_page) :: rest else rest).

(** Byte [a] is written by one of the calls. *)
Definition zeroed (calls : list (Z * Z)) (a : Z) : Prop := exists c, c ∈ calls /\ c.1 <= a < c.1 + c.2.

Section heap.
Context {P : Type} `{PageOps P}.
(** [DEFAULT_K_FLAGS] of the libc headers. *)
Context (DEFAULT_FLAGS : Z).
(** The process's page tables, as [calloc] looks at them. *)
Context (tables_of_pages : P -> page_table).
(** [memset(addr, 0, n)]. *)
Context (memset_zero : P -> Z -> Z -> P).

Abbreviation heap := (memtree P).

(** [malloc(n, page_info, process)]. *)
Definition malloc (h : heap) (n : Z) (pi : page_info) : res (heap * Z) :=
  if n =? 0 then Ok (h, 0) else allocate h n pi DEFAULT_HINT_INFO.

(** [calloc(nmemb, size, page_info, process)]. *)
Definition calloc (h : heap) (nmemb size : Z) (pi : page_info) : res (heap * Z) :=
  if (nmemb =? 0) || (size =? 0) then allocate h 1 pi DEFAULT_HINT_INFO
  else if 4294967296 <=? nmemb * size then Ok (h, 0)
  else
    '(h, mem_addr) ← allocate h (nmemb * size) pi DEFAULT_HINT_INFO;
    if mem_addr =? 0 then Ok (h, 0)
    else
      calls ← zero_out (tables_of_pages (pages h)) (nmemb * size) mem_addr;
      Ok (mkTree (root h) (foldl (fun p c => memset_zero p c.1 c.2) (pages h) calls), mem_addr).

(** [free(ptr, process)]: a failure stops the kernel when the process is the kernel's. *)
Definition kfree (h : heap) (ptr : Z) (is_kernel : bool) : res (heap * FreeState) :=
  '(h, free_state) ← free DEFAULT_FLAGS h ptr;
  if is_kernel && negb (bool_decide (free_state = FREE_OK)) then Panic else Ok (h, free_state).

(** [free(ptr)], [operator delete(p)]. *)
Definition free_kernel (h : heap) (ptr : Z) : res heap :=
  '(h, st) ← kfree h ptr true;
  if bool_decide (st = FREE_OK) then Ok h else Panic.

(** [realloc(ptr, size)]: the new address, when [MemTree::realloc] wrote one. *)
Definition realloc_kernel (h : heap) (ptr size : Z) : res (heap * option Z) :=
  '(h, st, new_address) ← realloc DEFAULT_FLAGS h ptr size true;
  match st with REALLOC_OK => Ok (h, new_address) | _ => Panic end.

(** [lazy_malloc(n)]. *)
Definition lazy_malloc (h : heap) (n : Z) : res (heap * Z) :=
  malloc h n (mkInfo DEFAULT_FLAGS (Z.lor PAGE_LAZY_ZERO PAGE_WRITE)).

(** ** [mmap] and the page-aligned allocators *)

(** The flag bits and error numbers of the libc headers. *)
Context (MAP_ANON MAP_ANONYMOUS MAP_PRIVATE MAP_SHARED MAP_FIXED PROT_READ PROT_WRITE EINVAL ENOMEM : Z).
(** [kernel_process->lowest_free_pe]. *)
Context (kernel_lowest_free_pe : P -> Z).

(** [mmap]: the window (0 is the null pointer) and the error, when one is set. *)
Definition mmap (h : heap) (hint_ size prot flags_ offset : Z) (lazy_zero page_user : bool)
  : res (heap * Z * option Z) :=
  let supported_flags := Z.lor (Z.lor (Z.lor MAP_ANON MAP_ANONYMOUS) MAP_PRIVATE) MAP_FIXED in
  if truthy (Z.ldiff flags_ supported_flags) then Ok (h, 0, Some EINVAL)
  else if negb (truthy (Z.lor (Z.land flags_ MAP_PRIVATE) (Z.land flags_ MAP_SHARED))) then Ok (h, 0, Some EINVAL)
  else if truthy (Z.land hint_ (PAGE_SIZE - 1)) || truthy (Z.land size (PAGE_SIZE - 1)) || truthy (Z.land offset (PAGE_SIZE - 1))
  then Ok (h, 0, Some EINVAL)
  else if negb (truthy (Z.lor (Z.land flags_ MAP_ANONYMOUS) (Z.land flags_ MAP_ANON))) then Ok (h, 0, Some EINVAL)
  else if prot =? 0 then Ok (h, 0, Some EINVAL)
  else
    let hint_ := if hint_ =? KERNEL_VIRTUAL_BASE then u32 (Z.shiftl (kernel_lowest_free_pe (pages h)) 12) else hint_ in
    let pol := Z.lor (Z.lor (if truthy (Z.land prot PROT_WRITE) then PAGE_WRITE else 0)
                            (if lazy_zero then PAGE_LAZY_ZERO else PAGE_PRESENT))
                     (if page_user then PAGE_USER else 0) in
    '(h, window) ← allocate h size (mkInfo flags_ pol) (mkHint hint_ (truthy (Z.land flags_ MAP_FIXED)));
    if truthy (Z.land flags_ MAP_FIXED) && negb (window =? hint_) then Panic
    else if window =? 0 then Ok (h, 0, Some ENOMEM)
    else Ok (h, window, None).

Definition DEFAULT_K_PROT : Z := Z.lor PROT_READ PROT_WRITE.

(** [malloca]. *)
Definition malloca (h : heap) (size : Z) : res (heap * Z) :=
  let num_pages := ADDR_PAGE (u32 (size + PAGE_SIZE - 1)) in
  '(h, w, _) ← mmap h KERNEL_VIRTUAL_BASE (u32 (num_pages * size)) DEFAULT_K_PROT DEFAULT_FLAGS 0 false false;
  Ok (h, w).

(** [calloca]. *)
Definition calloca (h : heap) (nmemb size : Z) : res (heap * Z) :=
  let base_size := nmemb * size in
  if 4294967296 <=? base_size then Ok (h, 0)
  else
    let num_pages := ADDR_PAGE (u32 (base_size + PAGE_SIZE - 1)) in
    let new_size := u32 (num_pages * PAGE_SIZE) in
    let additional_size := new_size -u base_size in
    if 4294967296 <=? base_size + additional_size then Ok (h, 0)
    else
      '(h, alloc, _) ← mmap h KERNEL_VIRTUAL_BASE (u32 (num_pages * size)) DEFAULT_K_PROT DEFAULT_FLAGS 0 false false;
      if alloc =? 0 then Ok (h, 0)
      else
        calls ← zero_out (tables_of_pages (pages h)) new_size alloc;
        Ok (mkTree (root h) (foldl (fun p c => memset_zero p c.1 c.2) (pages h) calls), alloc).

End heap.

(** ** [mprotect] *)

Section mprotect.
Context (PROT_READ PROT_WRITE PROT_EXEC EINVAL ENOMEM : Z).

(** The check over the address range: whether it is valid. *)
Fixpoint range_loop (n : nat) (m : mem) (p : proc) (uaddr id : Z) : res bool :=
  match n with
  | O => Ok true
  | S n =>
      e ← PTE (tables_of m p) (ADDR_PAGE (uaddr +u id));
      if negb (present e || lazy_zero e) then
        if truthy (Z.land e PAGE_COW) || truthy (Z.land e PAGE_SHRO) then Panic else Ok false
      else range_loop n m p uaddr (id + 1)
  end.

Fixpoint protect_loop (n : nat) (m : mem) (p : proc) (uaddr id new_flags : Z) : res (mem * proc) :=
  match n with
  | O => Ok (m, p)
  | S n =>
      let page_id := ADDR_PAGE (uaddr +u id) in
      e ← PTE (tables_of m p) page_id;
      '(m, p) ← update_pte m p page_id (Z.lor (Z.ldiff e PAGE_WRITE) new_flags);
      protect_loop n m p uaddr (id + 1) new_flags
  end.

(** [mprotect]: 0, or an error number negated. *)
Definition mprotect (m : mem) (p : proc) (uaddr len prot : Z) : res (mem * proc * Z) :=
  if truthy (Z.land uaddr (PAGE_SIZE - 1)) then Ok (m, p, - EINVAL)
  else
    let supported_flags := Z.lor (Z.lor PROT_READ PROT_WRITE) PROT_EXEC in
    if truthy (Z.ldiff prot supported_flags) then Ok (m, p, - EINVAL)
    else
      let num_pages := Z.to_nat (ADDR_PAGE (u32 (len + PAGE_SIZE - 1))) in
      ok ← range_loop num_pages m p uaddr 0;
      if negb ok then Ok (m, p, - ENOMEM)
      else
        let new_flags := if truthy (Z.land prot PROT_WRITE) then PAGE_WRITE else 0 in
        '(m, p) ← protect_loop num_pages m p uaddr 0 new_flags;
        Ok (m, p, 0).

End mprotect.

(** ** Zeroing is exact *)

Lemma zeroed_cons c l a : zeroed (c :: l) a <-> c.1 <= a < c.1 + c.2 \/ zeroed l a.
Proof. unfold zeroed. setoid_rewrite elem_of_cons. naive_solver. Qed.

Lemma zeroed_nil a : ~ zeroed [] a.
Proof. intros (c & Hc & _). by apply elem_of_nil in Hc. Qed.

(** Bytes of one page, or of what follows it. *)
Lemma page_split p rem a :
  0 <= rem -> (p * 4096 <= a < p * 4096 + Z.min rem 4096 -> a / 4096 = p) /\
  (p * 4096 <= a < p * 4096 + rem <-> p * 4096 <= a < p * 4096 + Z.min rem 4096 \/
     (p + 1) * 4096 <= a < (p + 1) * 4096 + (rem - Z.min rem 4096)).
Proof.
  intros Hr. split; [|lia]. intros Ha. pose proof (Z.div_mod a 4096 ltac:(lia)).
  pose proof (Z.mod_pos_bound a 4096 ltac:(lia)). lia.
Qed.

Lemma zero_loop_spec count pt p rem :
  full pt -> 0 <= p -> p + Z.of_nat count <= N_PAGES -> 0 <= rem <= Z.of_nat count * 4096 ->
  exists calls, zero_loop count pt p rem = Ok calls /\
    forall a, zeroed calls a <-> p * 4096 <= a < p * 4096 + rem /\ present (entry pt (a / 4096)) = true.
Proof.
  intros Hf. revert p rem. induction count as [|count IH]; intros p rem Hp Hend Hr; simpl.
  { exists []. split; [done|]. intros a. split; [by intros ?%zeroed_nil|lia]. }
  rewrite (PTE_in pt p Hf) by lia. run. unfold PAGE_SIZE.
  destruct (IH (p + 1) (rem - Z.min rem 4096)) as (rest & -> & Hrest); [lia..|]. run.
  eexists. split; [done|]. intros a. destruct (page_split p rem a) as [Hpage Hsplit]; [lia|]. rewrite Hsplit.
  assert (u32 (Z.shiftl p 12) = p * 4096) as ->.
  { rewrite shiftl_page. apply u32_id. unfold is_u32, N_PAGES, PDT_ENTRIES, PT_ENTRIES in *. lia. }
  destruct (present (entry pt p)) eqn:Hpr.
  - rewrite zeroed_cons, Hrest. simpl. split; [|tauto]. intros [Ha|Ha]; [|tauto]. split; [tauto|]. by rewrite (Hpage Ha).
  - rewrite Hrest. split; [tauto|]. intros [[Ha|Ha] Hpa]; [|tauto]. rewrite (Hpage Ha) in Hpa. congruence.
Qed.

(** [zero_out_possibly_lazily_allocated_memory], which [calloc] relies on, returns, and writes a zero
    to exactly the bytes of the region that lie on pages already present (the others are zeroed
    on first access); it writes nothing outside the region. *)
Theorem zero_out_exact pt total mem_addr :
  full pt -> 0 < total -> 0 <= mem_addr -> mem_addr + total <= 4294963200 ->
  exists calls, zero_out pt total mem_addr = Ok calls /\
    forall a, zeroed calls a <-> mem_addr <= a < mem_addr + total /\ present (entry pt (a / 4096)) = true.
Proof.
  intros Hf Ht Hm Hend. unfold zero_out, ADDR_PAGE. rewrite land_page, !shift_page. unfold PAGE_SIZE.
  set (p := mem_addr / 4096). set (off := mem_addr mod 4096).
  assert (0 <= off < 4096) as Hoff by (apply Z.mod_pos_bound; lia).
  assert (mem_addr = p * 4096 + off) as Hpo by (unfold p, off; pose proof (Z.div_mod mem_addr 4096 ltac:(lia)); lia).
  set (f := Z.min (4096 - off) total). rewrite (u32_id (total - f + 4096 - 1)) by (unfold is_u32; lia).
  set (k := (total - f + 4096 - 1) / 4096). pose proof (Z.div_mod (total - f + 4096 - 1) 4096 ltac:(lia)) as Hk.
  fold k in Hk. pose proof (Z.mod_pos_bound (total - f + 4096 - 1) 4096 ltac:(lia)).
  assert (0 <= p) by (apply Z.div_pos; lia).
  rewrite (PTE_in pt p Hf) by (unfold N_PAGES, PDT_ENTRIES, PT_ENTRIES; lia). run.
  destruct (zero_loop_spec (Z.to_nat k) pt (p + 1) (total - f)) as (rest & -> & Hrest);
    [done|lia|unfold N_PAGES, PDT_ENTRIES, PT_ENTRIES; lia|lia|]. run.
  eexists. split; [done|]. intros a.
  assert (mem_addr <= a < mem_addr + f -> a / 4096 = p) as Hpage.
  { intros Ha. pose proof (Z.div_mod a 4096 ltac:(lia)). pose proof (Z.mod_pos_bound a 4096 ltac:(lia)). lia. }
  assert (mem_addr <= a < mem_addr + total <-> mem_addr <= a < mem_addr + f \/
    (p + 1) * 4096 <= a < (p + 1) * 4096 + (total - f)) as Hsplit by lia.
  rewrite Hsplit. destruct (present (entry pt p)) eqn:Hpr.
  - rewrite zeroed_cons, Hrest. simpl. split; [|tauto]. intros [Ha|Ha]; [|tauto]. split; [tauto|]. by rewrite (Hpage Ha).
  - rewrite Hrest. split; [tauto|]. intros [[Ha|Ha] Hpa]; [|tauto]. rewrite (Hpage Ha) in Hpa. congruence.
Qed.

Lemma zero_out_exact_witness :
  exists calls, zero_out (mkPT {[ 3 := 3 ]} 1024) 8192 12000 = Ok calls /\ zeroed calls 13000 /\ ~ zeroed calls 17000.
Proof.
  destruct (zero_out_exact (mkPT {[ 3 := 3 ]} 1024) 8192 12000) as (calls & Hz & Ha); [reflexivity|lia|lia|lia|].
  exists calls. split; [exact Hz|]. split; [apply Ha; split; [lia|reflexivity]|].
  intros Hn. apply Ha in Hn as [_ Hp]. vm_compute in Hp. discriminate.
Defined.

(** ** [mprotect] and [malloca] as they are *)

Lemma same_page uaddr id :
  0 <= uaddr -> uaddr mod 4096 = 0 -> 0 <= id < 4096 -> uaddr + 4096 <= 4294967296 ->
  ADDR_PAGE (uaddr +u id) = ADDR_PAGE uaddr.
Proof.
  intros Hu Hm Hid He. unfold ADDR_PAGE. rewrite !shift_page, u32_id by (unfold is_u32; lia).
  pose proof (Z.div_mod uaddr 4096 ltac:(lia)). rewrite Hm in *.
  replace (uaddr + id) with (id + uaddr / 4096 * 4096) by lia. rewrite Z.div_add, Z.div_small by lia. lia.
Qed.

Lemma update_pte_tables m p i v m' p' :
  update_pte m p i v = Ok (m', p') ->
  is_kernel p' = is_kernel p /\ forall k, k <> i -> entry (tables_of m' p') k = entry (tables_of m p) k.
Proof.
  unfold update_pte. destruct (PTE _ i) as [old| | |]; run; [|done..].
  destruct (frame_index (Z.shiftr old 12)) as [f| | |]; run; [|done..].
  assert (forall m1, tables_of (set_frame_rc m f m1) p = tables_of m p) as Ht by (intros; unfold tables_of; by destruct (is_kernel p)).
  destruct (if truthy (rc m f) then _ else _) as [m1| | |] eqn:Hm1; run; [|done..].
  assert (tables_of m1 p = tables_of m p) as Ht1.
  { destruct (truthy (rc m f)); [by injection Hm1 as <-|]. destruct (_ && _); [done|]. by injection Hm1 as <-. }
  rewrite Ht1. destruct (set_PTE _ i v) as [pt| | |] eqn:Hs; run; [|done..].
  assert (forall k, k <> i -> entry pt k = entry (tables_of m p) k) as Hk.
  { intros k Hk. unfold set_PTE in Hs. destruct ((0 <=? i) && _) in Hs; [|done]. injection Hs as <-. rewrite entry_set. by rewrite decide_False. }
  unfold with_tables, tables_of in *. destruct p as [[] pt0 low]; cbn [is_kernel p_tables p_lowest] in *;
    (destruct (present v && negb (lazy_zero v));
      [destruct (frame_index (Z.shiftr v 12)) as [g| | |]; run; try done|]; intros [= <- <-]; (split; [done|exact Hk])).
Qed.

(** [mprotect] adds the page counter to the address before it takes the page number: for a range of
    up to 4096 pages every iteration names the first page, so whatever the length, no other page
    of the process changes. *)
Theorem mprotect_first_page_only PROT_READ PROT_WRITE PROT_EXEC EINVAL ENOMEM m p uaddr len prot m' p' r :
  0 <= uaddr -> uaddr + 4096 <= 4294967296 -> 0 <= len <= 16773120 ->
  mprotect PROT_READ PROT_WRITE PROT_EXEC EINVAL ENOMEM m p uaddr len prot = Ok (m', p', r) ->
  forall k, k <> ADDR_PAGE uaddr -> entry (tables_of m' p') k = entry (tables_of m p) k.
Proof.
  intros Hu Hend Hlen. unfold mprotect. rewrite land_page. unfold truthy at 1.
  destruct (Z.eqb_spec (uaddr mod 4096) 0) as [Hm|]; simpl; [|by intros [= <- <- <-]].
  destruct (truthy _); [by intros [= <- <- <-]|]. set (n := Z.to_nat _).
  assert (Z.of_nat n <= 4096) as Hn.
  { subst n. unfold ADDR_PAGE, PAGE_SIZE. rewrite shift_page, u32_id by (unfold is_u32; lia).
    assert ((len + 4096 - 1) / 4096 < 4097) by (apply Z.div_lt_upper_bound; lia). lia. }
  destruct (range_loop _ _ _ _ _) as [ok| | |]; run; [|done..].
  destruct ok; cbn [negb]; [|by intros [= <- <- <-]].
  destruct (protect_loop n m p uaddr 0 _) as [[m1 p1]| | |] eqn:Hp; run; [|done..]. intros [= <- <- <-].
  set (fl := if truthy _ then _ else _) in Hp. clearbody fl. revert Hp.
  assert (forall id, 0 <= id -> id + Z.of_nat n <= 4096 -> protect_loop n m p uaddr id fl = Ok (m1, p1) ->
    forall k, k <> ADDR_PAGE uaddr -> entry (tables_of m1 p1) k = entry (tables_of m p) k) as Hgen; [|apply Hgen; lia].
  clear Hn. clearbody n. revert m p. induction n as [|n IH]; intros m p id Hid Hb; simpl; [by intros [= <- <-]|].
  rewrite (same_page uaddr id) by lia. destruct (PTE _ _) as [e| | |]; run; [|done..].
  destruct (update_pte m p _ _) as [[m2 p2]| | |] eqn:Hup; run; [|done..]. intros Hl k Hk.
  apply update_pte_tables in Hup as [_ Hup]. rewrite (IH m2 p2 (id + 1) ltac:(lia) ltac:(lia) Hl k Hk). by apply Hup.
Qed.

(** [malloca] passes [num_pages * size] instead of [num_pages * PAGE_SIZE] to [mmap]: whenever that
    product is not a multiple of the page size, as for every size below a page, the request is
    refused and the null pointer returned, whatever memory is free. *)
Theorem malloca_unaligned_fails {P} `{PageOps P} FL MAP_ANON MAP_ANONYMOUS MAP_PRIVATE MAP_SHARED MAP_FIXED PROT_READ PROT_WRITE
    EINVAL ENOMEM (low : P -> Z) (h : memtree P) size :
  u32 (ADDR_PAGE (u32 (size + PAGE_SIZE - 1)) * size) mod PAGE_SIZE <> 0 ->
  malloca FL MAP_ANON MAP_ANONYMOUS MAP_PRIVATE MAP_SHARED MAP_FIXED PROT_READ PROT_WRITE EINVAL ENOMEM low h size = Ok (h, 0).
Proof.
  unfold PAGE_SIZE. intros Hs. unfold malloca, mmap. destruct (truthy _); [done|]. destruct (negb _); [done|].
  rewrite (land_page (u32 (ADDR_PAGE (u32 (size + PAGE_SIZE - 1)) * size))).
  assert (truthy (u32 (ADDR_PAGE (u32 (size + PAGE_SIZE - 1)) * size) mod 4096) = true) as ->
    by by apply negb_true_iff, Z.eqb_neq.
  by rewrite orb_true_r.
Qed.

Lemma malloca_unaligned_fails_witness :
  malloca 34 32 32 2 1 16 1 2 22 12 (fun _ => 790528) Counter.heap2 100 = Ok (Counter.heap2, 0).
Proof. apply malloca_unaligned_fails. vm_compute. discriminate. Defined.

(** [mmap] does not ask that a block it reuses starts at a page boundary: behind a block of 100 bytes the window is at an address that is not a multiple
    of the page size, on the same page as that block. *)
Theorem mmap_reuses_unaligned : exists h',
  mmap 32 32 2 1 16 2 22 12 (fun _ : nat => 790528)
    (mkTree (BST.Node BST.Leaf (mkAlloc 8192 8292 Counter.KP true) (BST.Node BST.Leaf (mkAlloc 8292 16384 Counter.KP false) BST.Leaf)) 0%nat) 0 4096 3 34 0 false false =
  Ok (h', 8292, None).
Proof. eexists. vm_compute. reflexivity. Qed.

(** ** The kernel's [malloc] *)

(** Claim C18: The kernel's [malloc], on the kernel's own page tables, for a request of at most 4294963200 bytes (2^32 less a page) under a valid policy:
    no bytes yield the null pointer; otherwise, when a free block is found or [sbrk] returns, the call returns, and a pointer it
    returns starts a used range of exactly [n] bytes disjoint from every other used range, none of which changes.  The heap is a tree of
    disjoint ranges whose pages are mapped, and stays one.  Above the bound the end of the range wraps around ([allocate_wraps] of [MemTree]). *)
Theorem kernel_malloc_ok (h : memtree mem) n pi :
  wf (root h) -> owned h -> 0 <= n <= 4294963200 -> policy_valid (policy pi) = true ->
  (find_free_block (root h) n DEFAULT_HINT_INFO = None ->
   exists m' p' a, PageAlloc.sbrk (pages h) kernel_process (pages_for n) pi DEFAULT_HINT_INFO = Ok (m', p', a)) ->
  exists h' a, malloc h n pi = Ok (h', a) /\ wf (root h') /\ owned h' /\
    ((a = 0 /\ root h' = root h) \/ (a <> 0 /\ one_more (root h) (root h') a n)).
Proof.
  intros Hwf Hown Hn Hpol Hsb. unfold malloc. destruct (Z.eqb_spec n 0) as [->|Hne].
  { exists h, 0. split_and!; try done; try apply Hown. by left. }
  pose proof (allocate_spec h n pi DEFAULT_HINT_INFO Hwf Hown ltac:(lia) ltac:(split; simpl; lia)) as Ha.
  rewrite Hpol in Ha. apply Ha. intros Hf. destruct (Hsb Hf) as (m' & p' & a & Hs).
  exists (m', a). unfold MemTree.sbrk, kernel_pages. by rewrite Hs.
Qed.

Lemma kernel_malloc_ok_witness :
  exists h', malloc (mkTree BST.Leaf boot_mem) 100 Counter.KP = Ok (h', 3238002688) /\
    one_more BST.Leaf (root h') 3238002688 100.
Proof.
  destruct (kernel_malloc_ok (mkTree BST.Leaf boot_mem) 100 Counter.KP) as (h' & a & Hm & _ & _ & Hc).
  - apply chain_nil.
  - split; [split; [reflexivity|split; vm_compute; discriminate]|]. split; [|reflexivity].
    intros a (d & Hd & _). by apply elem_of_nil in Hd.
  - lia.
  - reflexivity.
  - intros _. eexists _, _, _. vm_compute. reflexivity.
  - exists h'. assert (a = 3238002688) as ->.
    { vm_compute in Hm. injection Hm as _ <-. reflexivity. }
    split; [exact Hm|]. destruct Hc as [[? _]|[_ Hc]]; [discriminate|exact Hc].
Defined.

(** A process with two pages, on the frames 1024 and 2048. *)
Definition two_pages : proc := mkProc false (mkPT {[ 1 := 4194307; 2 := 8388611 ]} 768) 5.

Lemma mprotect_first_page_only_witness :
  exists m' p', mprotect 1 2 4 22 12 (set_frame_rc (set_frame_rc boot_mem 1024 2) 2048 2) two_pages 4096 8192 1 = Ok (m', p', 0) /\
    entry (tables_of m' p') 1 = 4194305 /\ entry (tables_of m' p') 2 = entry (tables_of boot_mem two_pages) 2.
Proof.
  eexists _, _. split; [vm_compute; reflexivity|]. split; [vm_compute; reflexivity|].
  refine (mprotect_first_page_only 1 2 4 22 12 (set_frame_rc (set_frame_rc boot_mem 1024 2) 2048 2) two_pages 4096 8192 1 _ _ 0 _ _ _ _ 2 _);
    [lia|lia|lia|vm_compute; reflexivity|vm_compute; discriminate].
Defined.

End KernelHeap.
