(* ===== verification/KString.v ===== *)
(** * Strings and memory blocks ([libc/kstring.cpp])

    The byte memory is a finite map; reading or writing an address outside it is a fault.  Loops
    that look for a terminating zero carry fuel, one more than the number of bytes of the memory,
    and are shown never to run out of it.  A [char] is signed: [sc] is its value. *)

From stdpp Require Import base tactics numbers list gmap sets.
From S2P Require Import Prelude.
Open Scope Z_scope.

Module KString.

(** ** Memory *)

Abbreviation mem := (gmap Z Z).

Definition load (m : mem) (a : Z) : res Z := deref (m !! a).

Definition store (m : mem) (a v : Z) : res mem :=
  match m !! a with Some _ => Ok (<[a := u8 v]> m) | None => Fault end.

(** The value of a byte read as a [char]. *)
Definition sc (b : Z) : Z := if b <? 128 then b else b - 256.

Definition enough (m : mem) : nat := S (size m).

(** ** The functions of [kstring.cpp] *)

Fixpoint strlen_loop (fuel : nat) (m : mem) (str len : Z) : res Z :=
  c ← load m (str + len);
  if truthy c then match fuel with O => NoFuel | S fuel => strlen_loop fuel m str (len + 1) end
  else Ok len.

(** [strlen]. *)
Definition strlen (m : mem) (str : Z) : res Z := strlen_loop (enough m) m str 0.

(** [for (i = 0; i < num; i++) p[i] = value]. *)
Fixpoint memset_loop (n : nat) (m : mem) (p value i : Z) : res mem :=
  match n with
  | O => Ok m
  | S n => m ← store m (p + i) value; memset_loop n m p value (i + 1)
  end.

(** [memset]. *)
Definition memset (m : mem) (ptr value num : Z) : res mem := memset_loop (Z.to_nat num) m ptr value 0.

(** The copying loop of [strcpy] and [strcat], and the final zero. *)
Fixpoint copy_string (fuel : nat) (m : mem) (dest src : Z) : res mem :=
  c ← load m src;
  if truthy c then
    m ← store m dest c;
    match fuel with O => NoFuel | S fuel => copy_string fuel m (dest + 1) (src + 1) end
  else store m dest 0.

(** [strcpy]. *)
Definition strcpy (m : mem) (dest src : Z) : res (mem * Z) := m ← copy_string (enough m) m dest src; Ok (m, dest).

(** [strcat]. *)
Definition strcat (m : mem) (dest src : Z) : res (mem * Z) :=
  l ← strlen_loop (enough m) m dest 0;
  m ← copy_string (enough m) m (dest + l) src;
  Ok (m, dest).

(** The bounded copy of [strncat]. *)
Fixpoint copy_string_n (fuel : nat) (m : mem) (dest src copied ssize : Z) : res mem :=
  c ← load m src;
  if truthy c && (copied <? ssize) then
    m ← store m dest c;
    match fuel with O => NoFuel | S fuel => copy_string_n fuel m (dest + 1) (src + 1) (copied + 1) ssize end
  else store m dest 0.

(** [strncat]. *)
Definition strncat (m : mem) (dest src ssize : Z) : res (mem * Z) :=
  l ← strlen_loop (enough m) m dest 0;
  m ← copy_string_n (enough m) m (dest + l) src 0 ssize;
  Ok (m, dest).

(** [for (i = 0; i < num; i++) d[i] = s[i]]. *)
Fixpoint memcpy_loop (n : nat) (m : mem) (d s i : Z) : res mem :=
  match n with
  | O => Ok m
  | S n => b ← load m (s + i); m ← store m (d + i) b; memcpy_loop n m d s (i + 1)
  end.

(** [memcpy]. *)
Definition memcpy (m : mem) (dest src num : Z) : res mem := memcpy_loop (Z.to_nat num) m dest src 0.

(** [strcmp]. *)
Fixpoint strcmp_loop (fuel : nat) (m : mem) (str1 str2 : Z) : res Z :=
  a ← load m str1;
  b ← load m str2;
  if truthy a && truthy b && (a =? b) then
    match fuel with O => NoFuel | S fuel => strcmp_loop fuel m (str1 + 1) (str2 + 1) end
  else Ok (sc a - sc b).

Definition strcmp (m : mem) (str1 str2 : Z) : res Z := strcmp_loop (enough m) m str1 str2.

(** [in_set]. *)
Fixpoint in_set_loop (fuel : nat) (m : mem) (set i c : Z) : res bool :=
  x ← load m (set + i);
  if truthy x then
    if x =? c then Ok true
    else match fuel with O => NoFuel | S fuel => in_set_loop fuel m set (i + 1) c end
  else Ok false.

Definition in_set (m : mem) (set c : Z) : res bool := in_set_loop (enough m) m set 0 c.

(** The two scanning loops of [strtok_r]: over characters that are ([b] true) or are not ([b] false)
    delimiters. *)
Fixpoint skip_while (fuel : nat) (m : mem) (delim p : Z) (b : bool) : res Z :=
  c ← load m p;
  if truthy c then
    i ← in_set m delim c;
    if Bool.eqb i b then match fuel with O => NoFuel | S fuel => skip_while fuel m delim (p + 1) b end
    else Ok p
  else Ok p.

(** [strtok_r]; [None] is the null pointer.  The result is the token and the new [*saveptr]. *)
Definition strtok_r (m : mem) (str : option Z) (delim saveptr : Z) : res (mem * Z * option Z) :=
  let p := match str with Some s => s | None => saveptr end in
  p ← skip_while (enough m) m delim p true;
  c ← load m p;
  if negb (truthy c) then Ok (m, p, None)
  else
    let start := p in
    p ← skip_while (enough m) m delim p false;
    c ← load m p;
    if truthy c then m ← store m p 0; Ok (m, p + 1, Some start)
    else Ok (m, p, Some start).

(** [memcmp]. *)
Fixpoint memcmp_loop (n : nat) (m : mem) (s t i : Z) : res Z :=
  match n with
  | O => Ok 0
  | S n =>
      a ← load m (s + i);
      b ← load m (t + i);
      if a =? b then memcmp_loop n m s t (i + 1) else if a <? b then Ok (-1) else Ok 1
  end.

Definition memcmp (m : mem) (s1 s2 n : Z) : res Z := memcmp_loop (Z.to_nat n) m s1 s2 0.

(** [to_lower_in_place]. *)
Fixpoint to_lower_loop (fuel : nat) (m : mem) (str : Z) : res mem :=
  c ← load m str;
  if truthy c then
    m ← (if (65 <=? sc c) && (sc c <=? 90) then store m str (c + 32) else Ok m);
    match fuel with O => NoFuel | S fuel => to_lower_loop fuel m (str + 1) end
  else Ok m.

Definition to_lower_in_place (m : mem) (str : Z) : res mem := to_lower_loop (enough m) m str.

(** [strspn] ([b] true) and [strcspn] ([b] false): how many characters until one that is outside,
    respectively inside, the set. *)
Fixpoint span_loop (fuel : nat) (m : mem) (s set : Z) (b : bool) (n : Z) : res Z :=
  c ← load m s;
  if truthy c then
    i ← in_set m set c;
    if Bool.eqb i b then match fuel with O => NoFuel | S fuel => span_loop fuel m (s + 1) set b (n + 1) end
    else Ok n
  else Ok n.

Definition strspn (m : mem) (s accept : Z) : res Z := span_loop (enough m) m s accept true 0.
Definition strcspn (m : mem) (s reject : Z) : res Z := span_loop (enough m) m s reject false 0.

Section dup.
(** The allocator: the memory with the new block, and its address (0 for none). *)
Context (malloc : mem -> Z -> mem * Z).

(** [strdup]. *)
Definition strdup (m : mem) (s : Z) : res (mem * Z) :=
  len ← strlen m s;
  let '(m, dest) := malloc m (len + 1) in
  if dest =? 0 then Ok (m, 0) else m ← memcpy m dest s (len + 1); Ok (m, dest).

(** [strndup]. *)
Definition strndup (m : mem) (s n : Z) : res (mem * Z) :=
  slen ← strlen m s;
  let len := if n <? slen then n else slen in
  let '(m, dest) := malloc m (len + 1) in
  if dest =? 0 then Ok (m, 0)
  else m ← store m (dest + len) 0; m ← memcpy m dest s len; Ok (m, dest).
End dup.

(** The backward loop of [memmove]: the bytes from index [i] down to 0. *)
Fixpoint memmove_down (i : nat) (m : mem) (p s : Z) : res mem :=
  b ← load m (s + Z.of_nat i);
  m ← store m (p + Z.of_nat i) b;
  match i with O => Ok m | S i => memmove_down i m p s end.

(** [memmove]. *)
Definition memmove (m : mem) (dest src n : Z) : res mem :=
  let ov := if (src <=? dest) && (dest <=? src + n) then src + n - dest else 0 in
  if n =? 0 then Ok m
  else if 0 <? ov then memmove_down (Z.to_nat (n - 1)) m dest src
  else memcpy_loop (Z.to_nat n) m dest src 0.

(** [strchr]; [None] is the null pointer. *)
Fixpoint strchr_loop (fuel : nat) (m : mem) (s c : Z) : res (option Z) :=
  x ← load m s;
  if truthy x then
    if sc x =? c then Ok (Some s)
    else match fuel with O => NoFuel | S fuel => strchr_loop fuel m (s + 1) c end
  else Ok None.

Definition strchr (m : mem) (s c : Z) : res (option Z) := strchr_loop (enough m) m s c.

(** [strnlen]. *)
Fixpoint strnlen_loop (fuel : nat) (m : mem) (s l maxlen : Z) : res Z :=
  c ← load m s;
  if truthy c && (l <? maxlen) then
    match fuel with O => NoFuel | S fuel => strnlen_loop fuel m (s + 1) (l + 1) maxlen end
  else Ok l.

Definition strnlen (m : mem) (s maxlen : Z) : res Z := strnlen_loop (enough m) m s 0 maxlen.

(** [mempcpy]. *)
Definition mempcpy (m : mem) (dest src n : Z) : res (mem * Z) := m ← memcpy m dest src n; Ok (m, dest + n).

(** [stpncpy] and [strncpy]. *)
Definition stpncpy (m : mem) (dst src dsize : Z) : res (mem * Z) :=
  dlen ← strnlen m src dsize;
  '(m, e) ← mempcpy m dst src dlen;
  m ← memset m e 0 (dsize - dlen);
  Ok (m, e).

Definition strncpy (m : mem) (dst src dsize : Z) : res (mem * Z) :=
  '(m, _) ← stpncpy m dst src dsize; Ok (m, dst).

(** [strstr_match]. *)
Fixpoint match_loop (fuel : nat) (m : mem) (inp patt : Z) : res bool :=
  a ← load m inp;
  b ← load m patt;
  if truthy a && truthy b && (a =? b) then
    match fuel with O => NoFuel | S fuel => match_loop fuel m (inp + 1) (patt + 1) end
  else Ok (negb (truthy b)).

Definition strstr_match (m : mem) (inp patt : Z) : res bool := match_loop (enough m) m inp patt.

Fixpoint strstr_loop (n : nat) (m : mem) (h needle : Z) : res (option Z) :=
  match n with
  | O => Ok None
  | S n => b ← strstr_match m h needle; if (b : bool) then Ok (Some h) else strstr_loop n m (h + 1) needle
  end.

(** [strstr]; [None] is the null pointer. *)
Definition strstr (m : mem) (haystack needle : Z) : res (option Z) :=
  nl ← strlen m needle;
  if nl =? 0 then Ok None
  else
    hl ← strlen m haystack;
    if hl <? nl then Ok None else strstr_loop (Z.to_nat (hl - nl + 1)) m haystack needle.

Fixpoint memmem_loop (n : nat) (m : mem) (h needle nlen : Z) : res (option Z) :=
  match n with
  | O => Ok None
  | S n =>
      a ← load m h;
      b ← load m needle;
      if a =? b then
        r ← memcmp m h needle nlen;
        if r =? 0 then Ok (Some h) else memmem_loop n m (h + 1) needle nlen
      else memmem_loop n m (h + 1) needle nlen
  end.

(** [memmem]. *)
Definition memmem (m : mem) (haystack hlen needle nlen : Z) : res (option Z) :=
  if nlen =? 0 then Ok (Some haystack)
  else if hlen <? nlen then Ok None
  else memmem_loop (Z.to_nat (hlen - nlen + 1)) m haystack needle nlen.

(** ** Blocks and strings in memory *)

(** The bytes [xs] lie at [p]. *)
Definition block (m : mem) (p : Z) (xs : list Z) : Prop :=
  forall i, (i < length xs)%nat -> m !! (p + Z.of_nat i) = xs !! i.

(** The string [xs], with its terminating zero, lies at [p]. *)
Definition cstr (m : mem) (p : Z) (xs : list Z) : Prop :=
  block m p (xs ++ [0]) /\ Forall (fun x => x <> 0 /\ is_u8 x) xs.

Lemma block_cons m p x xs : block m p (x :: xs) <-> m !! p = Some x /\ block m (p + 1) xs.
Proof.
  unfold block. split.
  - intros H. split; [specialize (H 0%nat ltac:(simpl; lia)); by rewrite Z.add_0_r in H|].
    intros i Hi. specialize (H (S i) ltac:(simpl; lia)). simpl in H. rewrite <- H. f_equal. lia.
  - intros [H0 H] [|i] Hi; simpl in *; [by rewrite Z.add_0_r|]. rewrite <- H by lia. f_equal. lia.
Qed.

Lemma block_app m p xs ys : block m p (xs ++ ys) <-> block m p xs /\ block m (p + Z.of_nat (length xs)) ys.
Proof.
  revert p. induction xs as [|x xs IH]; intros p; simpl.
  - rewrite Z.add_0_r. split; [|tauto]. intros H. split; [|done]. intros i Hi. simpl in Hi. lia.
  - rewrite !block_cons, IH. replace (p + 1 + Z.of_nat (length xs)) with (p + Z.pos (Pos.of_succ_nat (length xs))) by lia. tauto.
Qed.

Lemma block_nil m p : block m p [].
Proof. intros i Hi. simpl in Hi. lia. Qed.

(** A block is no larger than the memory. *)
Lemma block_size m p xs : block m p xs -> (length xs <= size m)%nat.
Proof.
  intros Hb. rewrite <- size_dom.
  assert (length xs = size (list_to_set (map (fun i => p + Z.of_nat i) (seq 0 (length xs))) : gset Z)) as ->.
  { rewrite size_list_to_set; [by rewrite length_map, length_seq|].
    apply NoDup_fmap; [intros i j; lia|apply NoDup_seq]. }
  apply subseteq_size. intros a. rewrite elem_of_list_to_set, list_elem_of_fmap, elem_of_dom.
  intros (i & -> & Hi). apply elem_of_seq in Hi. rewrite Hb by lia. apply lookup_lt_is_Some. lia.
Qed.

Lemma cstr_cons m p x xs : cstr m p (x :: xs) <-> m !! p = Some x /\ x <> 0 /\ is_u8 x /\ cstr m (p + 1) xs.
Proof.
  unfold cstr. simpl. rewrite block_cons, Forall_cons. tauto.
Qed.

Lemma cstr_nil m p : cstr m p [] <-> m !! p = Some 0.
Proof.
  unfold cstr. simpl. rewrite block_cons. split; [tauto|]. intros. split; [|constructor]. split; [done|apply block_nil].
Qed.

Lemma cstr_size m p xs : cstr m p xs -> (length xs < size m)%nat.
Proof. intros [Hb _]. apply block_size in Hb. rewrite length_app in Hb. simpl in Hb. lia. Qed.

Lemma truthy_nz x : x <> 0 -> truthy x = true.
Proof. intros H. apply negb_true_iff. by apply Z.eqb_neq. Qed.

Lemma strlen_spec m p xs : cstr m p xs -> strlen m p = Ok (Z.of_nat (length xs)).
Proof.
  intros Hc. unfold strlen. pose proof (cstr_size _ _ _ Hc) as Hs. unfold enough.
  assert (forall fuel k ys, (length ys < fuel)%nat -> cstr m (p + k) ys -> strlen_loop fuel m p k = Ok (k + Z.of_nat (length ys))) as Hgen.
  { induction fuel as [|fuel IH]; intros k ys Hf; [lia|]. destruct ys as [|y ys]; simpl.
    - rewrite cstr_nil. unfold load. intros ->. run. simpl. by rewrite Z.add_0_r.
    - rewrite cstr_cons. intros (Hy & Hnz & _ & Hr). unfold load. rewrite Hy. run. rewrite truthy_nz by done.
      rewrite (IH (k + 1) ys); [f_equal; lia|simpl in Hf; lia|]. by replace (p + (k + 1)) with (p + k + 1) by lia. }
  rewrite (Hgen _ 0 xs); [done|lia|by rewrite Z.add_0_r].
Qed.

(** ** Moving blocks *)

(** Every byte of the memory is a byte. *)
Definition bytes (m : mem) : Prop := forall a x, m !! a = Some x -> is_u8 x.

Lemma store_Ok m a b : is_u8 b -> is_Some (m !! a) -> store m a b = Ok (<[a := b]> m).
Proof. intros Hb [x Hx]. unfold store. rewrite Hx. by rewrite u8_id. Qed.

Lemma bytes_insert m a b : bytes m -> is_u8 b -> bytes (<[a := b]> m).
Proof. intros Hm Hb k x. rewrite lookup_insert_Some. intros [[_ <-]|[_ ?]]; eauto. Qed.

(** Readable and writable from [p], [n] bytes. *)
Definition owned (m : mem) (p n : Z) : Prop := forall a, p <= a < p + n -> is_Some (m !! a).

(** Copying upwards is right when no source byte is overwritten before it is read. *)
Lemma memcpy_loop_spec k m d s i n :
  bytes m -> 0 <= i -> i + Z.of_nat k = n -> owned m s n -> owned m d n -> (d <= s \/ s + n <= d) ->
  exists m', memcpy_loop k m d s i = Ok m' /\ bytes m' /\
    forall a, m' !! a = if decide (d + i <= a < d + n) then m !! (s + (a - d)) else m !! a.
Proof.
  revert m i. induction k as [|k IH]; intros m i Hb Hi Hn Hs Hd Hov; simpl.
  { exists m. split_and!; [done..|]. intros a. by rewrite decide_False by lia. }
  destruct (Hs (s + i) ltac:(lia)) as [x Hx]. unfold load. rewrite Hx. run.
  rewrite store_Ok; [|by eapply Hb|apply Hd; lia]. run.
  destruct (IH (<[d + i := x]> m) (i + 1)) as (m' & -> & Hb' & Hm').
  { apply bytes_insert; [done|by eapply Hb]. }
  { lia. } { lia. }
  { intros a Ha. apply lookup_insert_is_Some'. right. by apply Hs. }
  { intros a Ha. apply lookup_insert_is_Some'. right. by apply Hd. }
  { done. }
  exists m'. split_and!; [done..|]. intros a. rewrite Hm'.
  destruct (decide (d + (i + 1) <= a < d + n)), (decide (d + i <= a < d + n)); try lia.
  - rewrite lookup_insert_ne by lia. done.
  - assert (a = d + i) as -> by lia. rewrite lookup_insert_eq, <- Hx. f_equal. lia.
  - by rewrite lookup_insert_ne by lia.
Qed.

(** Copying downwards is right when the destination is not below the source. *)
Lemma memmove_down_spec k m d s :
  bytes m -> owned m s (Z.of_nat k + 1) -> owned m d (Z.of_nat k + 1) -> s <= d ->
  exists m', memmove_down k m d s = Ok m' /\
    forall a, m' !! a = if decide (d <= a < d + Z.of_nat k + 1) then m !! (s + (a - d)) else m !! a.
Proof.
  revert m. induction k as [|k IH]; intros m Hb Hs Hd Hle.
  - simpl. rewrite !Z.add_0_r. destruct (Hs s ltac:(lia)) as [x Hx]. unfold load. rewrite Hx. run.
    rewrite store_Ok; [|by eapply Hb|apply Hd; lia]. run. eexists. split; [done|]. intros a.
    destruct (decide (d <= a < d + 1)); [assert (a = d) as -> by lia; rewrite lookup_insert_eq, <- Hx; f_equal; lia|].
    by rewrite lookup_insert_ne by lia.
  - cbn [memmove_down]. destruct (Hs (s + Z.of_nat (S k)) ltac:(lia)) as [x Hx]. unfold load. rewrite Hx. run.
    rewrite store_Ok; [|by eapply Hb|apply Hd; lia]. run.
    destruct (IH (<[d + Z.of_nat (S k) := x]> m)) as (m' & -> & Hm').
    { apply bytes_insert; [done|by eapply Hb]. }
    { intros a Ha. apply lookup_insert_is_Some'. right. apply Hs. lia. }
    { intros a Ha. apply lookup_insert_is_Some'. right. apply Hd. lia. }
    { done. }
    exists m'. split; [done|]. intros a. rewrite Hm'.
    destruct (decide (d <= a < d + Z.of_nat k + 1)), (decide (d <= a < d + Z.of_nat (S k) + 1)); try lia.
    + by rewrite lookup_insert_ne by lia.
    + assert (a = d + Z.of_nat (S k)) as -> by lia. rewrite lookup_insert_eq, <- Hx. f_equal. lia.
    + by rewrite lookup_insert_ne by lia.
Qed.

(** [memmove] is right for every overlap: on readable and writable regions it returns, the destination
    then holds the [n] bytes the source held before the call, and no other byte changes. *)
Theorem memmove_ok m dest src n :
  bytes m -> 0 <= n -> owned m src n -> owned m dest n ->
  exists m', memmove m dest src n = Ok m' /\
    forall a, m' !! a = if decide (dest <= a < dest + n) then m !! (src + (a - dest)) else m !! a.
Proof.
  intros Hb Hn Hs Hd. unfold memmove. destruct (Z.eqb_spec n 0) as [->|].
  { exists m. split; [done|]. intros a. by rewrite decide_False by lia. }
  destruct ((src <=? dest) && (dest <=? src + n)) eqn:Hov.
  - apply andb_true_iff in Hov as [?%Z.leb_le ?%Z.leb_le]. destruct (Z.ltb_spec 0 (src + n - dest)).
    + destruct (memmove_down_spec (Z.to_nat (n - 1)) m dest src) as (m' & -> & Hm');
        [done|by replace (Z.of_nat (Z.to_nat (n - 1)) + 1) with n by lia..|done|].
      exists m'. split; [done|]. intros a. rewrite Hm'.
      by replace (dest + Z.of_nat (Z.to_nat (n - 1)) + 1) with (dest + n) by lia.
    + destruct (memcpy_loop_spec (Z.to_nat n) m dest src 0 n) as (m' & -> & _ & Hm'); [done|lia|lia|done|done|lia|].
      exists m'. split; [done|]. intros a. by rewrite Hm', Z.add_0_r.
  - cbn. apply andb_false_iff in Hov. rewrite !Z.leb_gt in Hov.
    destruct (memcpy_loop_spec (Z.to_nat n) m dest src 0 n) as (m' & -> & _ & Hm'); [done|lia|lia|done|done|lia|].
    exists m'. split; [done|]. intros a. by rewrite Hm', Z.add_0_r.
Qed.

(** ** Tokens *)

Lemma in_set_spec m d ds c :
  cstr m d ds -> in_set m d c = Ok (bool_decide (c ∈ ds)).
Proof.
  intros Hc. unfold in_set. pose proof (cstr_size _ _ _ Hc) as Hs. unfold enough.
  assert (forall fuel k ys, (length ys < fuel)%nat -> cstr m (d + k) ys -> in_set_loop fuel m d k c = Ok (bool_decide (c ∈ ys))) as Hgen.
  { induction fuel as [|fuel IH]; intros k ys Hf; [lia|]. destruct ys as [|y ys]; simpl.
    - rewrite cstr_nil. unfold load. intros ->. run. done.
    - rewrite cstr_cons. intros (Hy & Hnz & _ & Hr). unfold load. rewrite Hy. run. rewrite truthy_nz by done.
      destruct (Z.eqb_spec y c) as [->|]; [by rewrite bool_decide_true by set_solver|].
      rewrite (IH (k + 1) ys); [|simpl in Hf; lia|by replace (d + (k + 1)) with (d + k + 1) by lia].
      f_equal. apply bool_decide_ext. set_solver. }
  rewrite (Hgen _ 0 ds); [done|lia|by rewrite Z.add_0_r].
Qed.

(** The longest prefix of [xs] whose characters are in [ds] exactly when [b], and the rest. *)
Fixpoint span (ds : list Z) (b : bool) (xs : list Z) : list Z * list Z :=
  match xs with
  | [] => ([], [])
  | x :: r => if Bool.eqb (bool_decide (x ∈ ds)) b then let '(p, q) := span ds b r in (x :: p, q) else ([], xs)
  end.

Lemma span_app ds b xs : let '(p, q) := span ds b xs in xs = p ++ q /\
  Forall (fun x => bool_decide (x ∈ ds) = b) p /\ (match q with [] => True | y :: _ => bool_decide (y ∈ ds) = negb b end).
Proof.
  induction xs as [|x xs IH]; simpl; [by repeat constructor|].
  destruct (Bool.eqb (bool_decide (x ∈ ds)) b) eqn:He.
  - destruct (span ds b xs) as [p q]. destruct IH as (-> & Hp & Hq). split_and!; [done| |done].
    constructor; [by apply Bool.eqb_prop|done].
  - split_and!; [done|constructor|]. apply Bool.eqb_false_iff in He. by destruct (bool_decide _), b.
Qed.

Lemma skip_while_spec m d ds p xs b :
  cstr m d ds -> cstr m p xs ->
  skip_while (enough m) m d p b = Ok (p + Z.of_nat (length (span ds b xs).1)) /\
  cstr m (p + Z.of_nat (length (span ds b xs).1)) (span ds b xs).2.
Proof.
  intros Hd Hc. pose proof (cstr_size _ _ _ Hc) as Hs. unfold enough.
  assert (forall fuel p xs, (length xs < fuel)%nat -> cstr m p xs ->
    skip_while fuel m d p b = Ok (p + Z.of_nat (length (span ds b xs).1)) /\
    cstr m (p + Z.of_nat (length (span ds b xs).1)) (span ds b xs).2) as Hgen.
  { clear p xs Hc Hs. induction fuel as [|fuel IH]; intros p xs Hf Hx; [lia|]. destruct xs as [|y ys]; simpl.
    - rewrite Z.add_0_r. split; [|done]. apply cstr_nil in Hx. unfold load. by rewrite Hx.
    - pose proof Hx as (Hy & Hnz & _ & Hr)%cstr_cons. unfold load. rewrite Hy. run. rewrite truthy_nz by done.
      rewrite (in_set_spec m d ds y Hd). run. destruct (Bool.eqb (bool_decide (y ∈ ds)) b).
      + simpl in Hf. destruct (IH (p + 1) ys ltac:(lia) Hr) as [-> Hc].
        destruct (span ds b ys) as [u v]. simpl in *.
        by replace (p + Z.of_nat (S (length u))) with (p + 1 + Z.of_nat (length u)) by lia.
      + simpl. by rewrite Z.add_0_r. }
  apply Hgen; [lia|done].
Qed.

(** The maximal runs of characters outside [ds]; [cur] is the run being read. *)
Fixpoint tokens_from (ds cur xs : list Z) : list (list Z) :=
  match xs with
  | [] => match cur with [] => [] | _ => [cur] end
  | x :: xs =>
      if bool_decide (x ∈ ds) then match cur with [] => tokens_from ds [] xs | _ => cur :: tokens_from ds [] xs end
      else tokens_from ds (cur ++ [x]) xs
  end.

Definition tokens (ds xs : list Z) : list (list Z) := tokens_from ds [] xs.

Lemma tokens_skip ds xs : tokens ds xs = tokens ds (span ds true xs).2.
Proof.
  unfold tokens. induction xs as [|x xs IH]; simpl; [done|]. destruct (bool_decide (x ∈ ds)) eqn:Hx; simpl.
  - destruct (span ds true xs) as [p q]. done.
  - by rewrite Hx.
Qed.

Lemma tokens_run ds cur xs :
  tokens_from ds cur xs =
  match cur ++ (span ds false xs).1 with
  | [] => tokens_from ds [] (tail (span ds false xs).2)
  | t => t :: tokens_from ds [] (tail (span ds false xs).2)
  end.
Proof.
  revert cur. induction xs as [|x xs IH]; intros cur; simpl.
  - rewrite app_nil_r. by destruct cur.
  - destruct (bool_decide (x ∈ ds)) eqn:Hx; simpl.
    + rewrite app_nil_r. by destruct cur.
    + rewrite IH. destruct (span ds false xs) as [p q]. simpl. by rewrite <- app_assoc.
Qed.

(** What one call returns: nothing, when only delimiters are left, or the first token. *)
Lemma strtok_r_spec m d ds p xs :
  bytes m -> cstr m d ds -> cstr m p xs ->
  let ys := (span ds true xs).2 in
  let t := (span ds false ys).1 in
  let start := p + Z.of_nat (length (span ds true xs).1) in
  match ys with
  | [] => strtok_r m None d p = Ok (m, start, None)
  | _ :: _ =>
      exists m' q, strtok_r m None d p = Ok (m', q, Some start) /\ t <> [] /\ start + Z.of_nat (length t) <= q /\
        cstr m' start t /\ cstr m' q (tail (span ds false ys).2) /\ q + Z.of_nat (length (tail (span ds false ys).2)) <= p + Z.of_nat (length xs) /\
        (m' = m /\ tail (span ds false ys).2 = [] \/ m' = <[start + Z.of_nat (length t) := 0]> m /\ start + Z.of_nat (length t) < q)
  end.
Proof.
  intros Hb Hd Hc ys t start. unfold strtok_r.
  destruct (skip_while_spec m d ds p xs true Hd Hc) as [-> Hys]. fold start ys in Hys. fold start. run.
  pose proof (span_app ds true xs) as Hsp. destruct (span ds true xs) as [lead ys0] eqn:Hspan. cbn [fst snd] in *.
  subst ys. destruct ys0 as [|y ys]; [apply cstr_nil in Hys; unfold load; by rewrite Hys|].
  destruct Hsp as (Hxs & _ & Hy). pose proof Hys as (Hy0 & Hnz & _)%cstr_cons. assert (load m start = Ok y) as Hl by (unfold load; by rewrite Hy0). rewrite Hl. run.
  rewrite truthy_nz by done. cbn [negb].
  destruct (skip_while_spec m d ds start (y :: ys) false Hd Hys) as [-> Hrest]. run.
  pose proof (span_app ds false (y :: ys)) as Hsp3. subst t.
  destruct (span ds false (y :: ys)) as [t rest] eqn:Hsp2. cbn [fst snd] in *. destruct Hsp3 as (Heq & Ht & Hr).
  assert (t <> []) as Htn by (intros ->; simpl in Hsp2; rewrite Hy in Hsp2; simpl in Hsp2; by destruct (span ds false ys)).
  pose proof Hys as [Hblk Hall]. rewrite Heq, <- app_assoc, block_app in Hblk. destruct Hblk as [Hbt Hbr].
  rewrite Heq, Forall_app in Hall. destruct Hall as [Hat Har].
  assert (Z.of_nat (length xs) = Z.of_nat (length lead) + Z.of_nat (length t) + Z.of_nat (length rest)) as Hlen
    by (rewrite Hxs, Heq, !length_app; lia).
  destruct rest as [|r rest].
  - apply cstr_nil in Hrest. unfold load. rewrite Hrest. run. eexists _, _. split; [done|]. simpl.
    split_and!; [done|lia| |by apply cstr_nil|unfold start; simpl in Hlen; lia|left; done].
    split; [|done]. apply block_app. split; [done|]. apply block_cons. split; [done|apply block_nil].
  - pose proof Hrest as (Hr0 & Hrnz & _ & Hrest')%cstr_cons. unfold load. rewrite Hr0. run. rewrite truthy_nz by done.
    rewrite store_Ok by (unfold is_u8; eauto; lia). run. eexists _, _. split; [done|]. simpl.
    assert (forall k zs, (k + Z.of_nat (length zs) <= start + Z.of_nat (length t) \/ start + Z.of_nat (length t) < k) ->
      block m k zs -> block (<[start + Z.of_nat (length t) := 0]> m) k zs) as Hfr.
    { intros k zs Hk Hz i Hi. rewrite lookup_insert_ne by lia. by apply Hz. }
    split_and!; [done|lia| | |unfold start; simpl in Hlen; lia|right; split; [done|lia]].
    + split; [|done]. apply block_app. split; [apply Hfr; [lia|done]|]. apply block_cons.
      split; [by rewrite lookup_insert_eq|apply block_nil].
    + destruct Hrest' as [Hb' Ha']. split; [|done]. apply Hfr; [lia|done].
Qed.

(** The loop of a caller of [strtok_r]: the tokens' addresses, in order. *)
Fixpoint strtok_all (fuel : nat) (m : mem) (delim saveptr : Z) : res (mem * list Z) :=
  '(m, saveptr, tok) ← strtok_r m None delim saveptr;
  match tok with
  | None => Ok (m, [])
  | Some t =>
      match fuel with
      | O => NoFuel
      | S fuel => '(m, ts) ← strtok_all fuel m delim saveptr; Ok (m, t :: ts)
      end
  end.

(** Repeated calls of [strtok_r] end, and the addresses they return are those of the maximal runs of
    non-delimiter characters of the string, in order, each left as a terminated string; only
    bytes of the string itself are changed. *)
Theorem strtok_tokens m d ds p xs fuel :
  bytes m -> cstr m d ds -> cstr m p xs ->
  (d + Z.of_nat (length ds) < p \/ p + Z.of_nat (length xs) < d) -> (length xs < fuel)%nat ->
  exists m' ts, strtok_all fuel m d p = Ok (m', ts) /\ Forall2 (cstr m') ts (tokens ds xs) /\
    (forall a, ~ (p <= a < p + Z.of_nat (length xs)) -> m' !! a = m !! a).
Proof.
  revert m p xs. induction fuel as [|fuel IH]; intros m p xs Hb Hd Hc Hdis Hf; [lia|]. simpl.
  pose proof (strtok_r_spec m d ds p xs Hb Hd Hc) as Hs. cbv zeta in Hs.
  rewrite tokens_skip. destruct (span ds true xs) as [lead ys] eqn:Hsp. cbn [fst snd] in *. destruct ys as [|y ys].
  { rewrite Hs. run. exists m, []. split_and!; [done|constructor|done]. }
  destruct Hs as (m1 & q & -> & Htn & Hq & Htok & Hrest & Hend & Hm1). run.
  unfold tokens. rewrite tokens_run. cbn [app]. set (t := (span ds false (y :: ys)).1) in *.
  set (rest := tail (span ds false (y :: ys)).2) in *. set (start := p + Z.of_nat (length lead)) in *.
  assert (0 < Z.of_nat (length t)) as Htl by (destruct t; [done|simpl; lia]).
  assert (bytes m1) as Hb1 by (destruct Hm1 as [[-> _]|[-> _]]; [done|apply bytes_insert; [done|unfold is_u8; lia]]).
  assert (forall a, ~ (p <= a < p + Z.of_nat (length xs)) -> m1 !! a = m !! a) as Hout.
  { intros a Ha. destruct Hm1 as [[-> _]|[-> Hlt]]; [done|]. rewrite lookup_insert_ne; [done|]. unfold start in *. lia. }
  assert (cstr m1 d ds) as Hd1.
  { destruct Hd as [Hdb Hda]. split; [|done]. intros i Hi. rewrite Hout; [by apply Hdb|].
    rewrite length_app in Hi. simpl in Hi. lia. }
  destruct (IH m1 q rest) as (m2 & ts & -> & HF & Hout2); [done|done|done|unfold start in *; lia| |].
  { apply Nat2Z.inj_lt. unfold start in *. lia. }
  run. exists m2, (start :: ts). split_and!; [done| |].
  - destruct t as [|t0 t1] eqn:Et; [done|]. rewrite <- Et in *. constructor; [|done].
    destruct Htok as [Htb Hta]. split; [|done]. intros i Hi. rewrite Hout2; [by apply Htb|].
    rewrite length_app in Hi. simpl in Hi. destruct Hm1 as [[_ ->]|[_ Hlt]]; simpl; lia.
  - intros a Ha. rewrite Hout2; [by apply Hout|]. unfold start in *. lia.
Qed.

(** ** Searching *)

Lemma strstr_match_spec m a xs b ys :
  cstr m a xs -> cstr m b ys -> strstr_match m a b = Ok (bool_decide (ys `prefix_of` xs)).
Proof.
  intros Ha Hb. unfold strstr_match, enough. pose proof (cstr_size _ _ _ Hb) as Hs.
  assert (length ys < S (size m))%nat as Hf by lia. clear Hs. generalize (S (size m)) as fuel, Hf.
  intros fuel. clear Hf. revert a xs b ys Ha Hb. induction fuel as [|fuel IH]; intros a xs b ys Ha Hb Hf; [lia|].
  destruct ys as [|y ys].
  - apply cstr_nil in Hb. rewrite bool_decide_true by apply prefix_nil. simpl. unfold load. rewrite Hb.
    destruct xs as [|x xs]; [apply cstr_nil in Ha|apply cstr_cons in Ha as (Ha & _)]; rewrite Ha; run; by rewrite andb_false_r.
  - apply cstr_cons in Hb as (Hb & Hnz & _ & Hb'). simpl. unfold load. rewrite Hb. destruct xs as [|x xs].
    + apply cstr_nil in Ha. rewrite Ha. run. simpl. rewrite (truthy_nz y) by done. done.
    + apply cstr_cons in Ha as (Ha & Hxnz & _ & Ha'). rewrite Ha. run. rewrite !truthy_nz by done. simpl.
      destruct (Z.eqb_spec x y) as [->|Hne].
      * rewrite (IH _ xs _ ys Ha' Hb') by (simpl in Hf; lia). f_equal. apply bool_decide_ext. split; [apply prefix_cons|].
        intros Hp. by apply prefix_cons_inv_2 in Hp.
      * f_equal. rewrite bool_decide_false; [done|]. intros Hp. apply Hne. by apply prefix_cons_inv_1 in Hp.
Qed.

Lemma cstr_drop m p xs i : (i <= length xs)%nat -> cstr m p xs -> cstr m (p + Z.of_nat i) (drop i xs).
Proof.
  revert p xs. induction i as [|i IH]; intros p xs Hi Hc; [by rewrite Z.add_0_r|].
  destruct xs as [|x xs]; simpl in *; [lia|]. apply cstr_cons in Hc as (_ & _ & _ & Hc).
  replace (p + Z.of_nat (S i)) with (p + 1 + Z.of_nat i) by lia. apply IH; [lia|done].
Qed.

Lemma strstr_loop_spec m b ys n : forall a xs, cstr m b ys -> cstr m a xs -> (n <= S (length xs))%nat ->
  exists r, strstr_loop n m a b = Ok r /\
    match r with
    | Some q => exists i, (i < n)%nat /\ q = a + Z.of_nat i /\ ys `prefix_of` drop i xs /\
                  forall j, (j < i)%nat -> ~ ys `prefix_of` drop j xs
    | None => forall j, (j < n)%nat -> ~ ys `prefix_of` drop j xs
    end.
Proof.
  induction n as [|n IH]; intros a xs Hb Ha Hn; simpl; [exists None; split; [done|lia]|].
  rewrite (strstr_match_spec m a xs b ys Ha Hb). run. case_bool_decide as Hp.
  - exists (Some a). split; [done|]. exists 0%nat. split_and!; [lia|lia|done|lia].
  - destruct xs as [|x xs].
    + assert (n = 0)%nat as -> by (simpl in Hn; lia). simpl. exists None. split; [done|].
      intros j Hj. assert (j = 0)%nat as -> by lia. done.
    + pose proof Ha as (_ & _ & _ & Ha')%cstr_cons. simpl in Hn. destruct (IH (a + 1) xs Hb Ha' ltac:(lia)) as (r & -> & Hr).
      exists r. split; [done|]. destruct r as [q|].
      * destruct Hr as (i & Hi & -> & Hpi & Hj). exists (S i). split_and!; [lia|lia|done|].
        intros [|j] Hji; [done|]. apply Hj. lia.
      * intros [|j] Hj; [done|]. apply Hr. lia.
Qed.

(** [strstr] returns; for a non-empty needle it finds the first position at which the needle occurs,
    and the null pointer exactly when it occurs nowhere.  For the empty needle, which occurs
    everywhere, it returns the null pointer. *)
Theorem strstr_first m h xs b ys :
  cstr m h xs -> cstr m b ys ->
  exists r, strstr m h b = Ok r /\
    match r with
    | Some q => ys <> [] /\ exists i, q = h + Z.of_nat i /\ ys `prefix_of` drop i xs /\
                  forall j, (j < i)%nat -> ~ ys `prefix_of` drop j xs
    | None => ys = [] \/ forall j, ~ ys `prefix_of` drop j xs
    end.
Proof.
  intros Hh Hb. unfold strstr. rewrite (strlen_spec m b ys Hb). run.
  destruct (Z.eqb_spec (Z.of_nat (length ys)) 0) as [E|Hne].
  { exists None. split; [done|]. left. destruct ys; [done|simpl in E; lia]. }
  assert (ys <> []) as Hys by (intros ->; simpl in Hne; lia).
  assert (forall j, (length xs < j + length ys)%nat -> ~ ys `prefix_of` drop j xs) as Hlate.
  { intros j Hj Hp%prefix_length. rewrite length_drop in Hp. destruct ys; [done|]. simpl in *. lia. }
  rewrite (strlen_spec m h xs Hh). run. destruct (Z.ltb_spec (Z.of_nat (length xs)) (Z.of_nat (length ys))).
  { exists None. split; [done|]. right. intros j. apply Hlate. lia. }
  destruct (strstr_loop_spec m b ys (Z.to_nat (Z.of_nat (length xs) - Z.of_nat (length ys) + 1)) h xs Hb Hh) as (r & -> & Hr); [lia|].
  exists r. split; [done|]. destruct r as [q|].
  - split; [done|]. destruct Hr as (i & _ & Hr). by exists i.
  - right. intros j. destruct (decide (j < Z.to_nat (Z.of_nat (length xs) - Z.of_nat (length ys) + 1))%nat); [by apply Hr|].
    apply Hlate. lia.
Qed.

(** [strnlen] tests the byte before it tests the bound: on a block of [n] bytes without a zero it
    reads byte number [n], which lies outside the block ([strncpy] and [stpncpy] call it). *)
Theorem strnlen_reads_past m s xs :
  block m s xs -> Forall (fun x => x <> 0) xs -> m !! (s + Z.of_nat (length xs)) = None ->
  strnlen m s (Z.of_nat (length xs)) = Fault /\ forall dst, strncpy m dst s (Z.of_nat (length xs)) = Fault.
Proof.
  intros Hb Hnz Hend.
  assert (strnlen m s (Z.of_nat (length xs)) = Fault) as Hs.
  { unfold strnlen, enough. pose proof (block_size _ _ _ Hb) as Hf.
    assert (forall fuel zs k, (length zs < fuel)%nat -> block m (s + k) zs -> Forall (fun x => x <> 0) zs ->
      k + Z.of_nat (length zs) = Z.of_nat (length xs) -> strnlen_loop fuel m (s + k) k (Z.of_nat (length xs)) = Fault) as Hgen.
    { induction fuel as [|fuel IH]; intros zs k Hfu Hz Hn Hk; [lia|]. destruct zs as [|z zs]; simpl in *; unfold load.
      - replace (s + k) with (s + Z.of_nat (length xs)) by lia. by rewrite Hend.
      - apply block_cons in Hz as [Hz Hz']. apply Forall_cons in Hn as [Hzn Hn]. rewrite Hz. run.
        rewrite truthy_nz, (proj2 (Z.ltb_lt k _)) by (done || lia). simpl.
        replace (s + k + 1) with (s + (k + 1)) in * by lia. apply (IH zs); [lia|done|done|lia]. }
    rewrite <- (Z.add_0_r s) at 1. apply (Hgen _ xs); [lia|by rewrite Z.add_0_r|done|lia]. }
  split; [done|]. intros dst. unfold strncpy, stpncpy. by rewrite Hs.
Qed.

(** ** The theorems at work *)

(** The string [abc def], its delimiters and a needle. *)
Definition sample : mem :=
  list_to_map (zip (seqZ 100 8) [97; 98; 99; 32; 100; 101; 102; 0] ++ zip (seqZ 200 2) [32; 0] ++ zip (seqZ 300 3) [100; 101; 0]).

Lemma sample_bytes : bytes sample.
Proof.
  intros a x Hx. apply elem_of_list_to_map_2 in Hx.
  repeat (apply elem_of_cons in Hx as [Hx|Hx]; [injection Hx as _ ->; unfold is_u8; lia|]). by apply elem_of_nil in Hx.
Qed.

Ltac solve_cstr := rewrite ?cstr_cons, cstr_nil; vm_compute; repeat split; discriminate.

Lemma memmove_ok_witness : exists m', memmove sample 102 100 5 = Ok m' /\ m' !! 103 = Some 98 /\ m' !! 107 = Some 0.
Proof.
  destruct (memmove_ok sample 102 100 5) as (m' & Hm & Ha).
  - apply sample_bytes.
  - lia.
  - intros a Ha. assert (a = 100 \/ a = 101 \/ a = 102 \/ a = 103 \/ a = 104) as H by lia.
    destruct H as [->|[->|[->|[->| ->]]]]; eexists; vm_compute; reflexivity.
  - intros a Ha. assert (a = 102 \/ a = 103 \/ a = 104 \/ a = 105 \/ a = 106) as H by lia.
    destruct H as [->|[->|[->|[->| ->]]]]; eexists; vm_compute; reflexivity.
  - exists m'. split; [exact Hm|]. rewrite !Ha. split; vm_compute; reflexivity.
Defined.

Lemma strtok_tokens_witness :
  exists m', strtok_all 20 sample 200 100 = Ok (m', [100; 104]) /\ cstr m' 100 [97; 98; 99] /\ cstr m' 104 [100; 101; 102].
Proof.
  destruct (strtok_tokens sample 200 [32] 100 [97; 98; 99; 32; 100; 101; 102] 20) as (m' & ts & Hs & Ht & _);
    [apply sample_bytes|solve_cstr|solve_cstr|right; simpl; lia|simpl; lia|].
  assert (ts = [100; 104]) as -> by (vm_compute in Hs; injection Hs as _ <-; reflexivity).
  exists m'. split; [exact Hs|]. inversion_clear Ht as [|? ? ? ? H1 H2]. inversion_clear H2 as [|? ? ? ? H3 _]. split; assumption.
Defined.

Lemma strstr_first_witness : strstr sample 100 300 = Ok (Some 104).
Proof.
  destruct (strstr_first sample 100 [97; 98; 99; 32; 100; 101; 102] 300 [100; 101]) as (r & Hr & _); [solve_cstr|solve_cstr|].
  rewrite Hr. vm_compute in Hr. injection Hr as <-. reflexivity.
Defined.

Lemma strnlen_reads_past_witness : strnlen {[ 7 := 65 ]} 7 1 = Fault.
Proof.
  destruct (strnlen_reads_past {[ 7 := 65 ]} 7 [65]) as [H _]; [|by repeat constructor|reflexivity|exact H].
  apply block_cons. split; [reflexivity|apply block_nil].
Defined.

End KString.
