(* ===== verification/Scheduler.v ===== *)
(** * The process scheduler ([kernel/processes/scheduler.cpp], [scheduler.h], parts of [process.cpp])

    Process objects live in a heap of their own, so that a deleted one cannot be read; the
    array [processes] maps the 32 pids to objects.  The queues are those of [Containers], the
    sleepers are kept in the heap of [MinHeap].  What the processor does on a switch (stacks,
    page directory, interrupts) is not modelled, nor is signal delivery. *)

From Stdlib Require Import Sorted.
From stdpp Require Import base tactics numbers list gmap sets.
From S2P Require Import Prelude Containers MinHeap.
Open Scope Z_scope.

Module Scheduler.

(** ** Constants ([process.h], [scheduler.h], [PIT.h]) *)

Definition P_TERMINATED : Z := 1.
Definition P_SYSCALL_INTERRUPTED : Z := 2.
Definition P_WAITING_KEY : Z := 4.
Definition P_WAITING_PROCESS : Z := 8.
Definition P_ZOMBIE : Z := 16.
Definition P_SLEEPING : Z := 32.
Definition P_EXEC : Z := 64.
Definition P_WAITING_READ : Z := 128.

Definition MAX_PROCESSES : Z := 32.
Definition CLOCK_TICK_MS : Z := 10.

(** ** State *)

Definition loc := positive.

(** The fields of a [Process] the scheduler reads or writes; [eax] and [esi] are those of the saved
    registers. *)
Record process := mkProcess {
  quantum : Z; priority : Z; pid : Z; ppid : Z; flags : Z; ret_status : Z;
  exec_replacement : option loc; is_pre_freed : bool;
  is_waiting_for_any_child_to_terminate : bool; is_waited_by_parent : bool;
  children : list Z; values_to_write : list (Z * Z); eax : Z; esi : Z
}.

Definition set_quantum (p : process) (q : Z) : process :=
  mkProcess q (priority p) (pid p) (ppid p) (flags p) (ret_status p) (exec_replacement p) (is_pre_freed p)
    (is_waiting_for_any_child_to_terminate p) (is_waited_by_parent p) (children p) (values_to_write p) (eax p) (esi p).
Definition set_flags (p : process) (f : Z) : process :=
  mkProcess (quantum p) (priority p) (pid p) (ppid p) f (ret_status p) (exec_replacement p) (is_pre_freed p)
    (is_waiting_for_any_child_to_terminate p) (is_waited_by_parent p) (children p) (values_to_write p) (eax p) (esi p).
Definition set_ppid (p : process) (x : Z) : process :=
  mkProcess (quantum p) (priority p) (pid p) x (flags p) (ret_status p) (exec_replacement p) (is_pre_freed p)
    (is_waiting_for_any_child_to_terminate p) (is_waited_by_parent p) (children p) (values_to_write p) (eax p) (esi p).
Definition set_pre_freed (p : process) : process :=
  mkProcess (quantum p) (priority p) (pid p) (ppid p) (flags p) (ret_status p) (exec_replacement p) true
    (is_waiting_for_any_child_to_terminate p) (is_waited_by_parent p) (children p) (values_to_write p) (eax p) (esi p).
Definition set_waits (p : process) (any waited : bool) : process :=
  mkProcess (quantum p) (priority p) (pid p) (ppid p) (flags p) (ret_status p) (exec_replacement p) (is_pre_freed p)
    any waited (children p) (values_to_write p) (eax p) (esi p).
Definition set_children (p : process) (c : list Z) : process :=
  mkProcess (quantum p) (priority p) (pid p) (ppid p) (flags p) (ret_status p) (exec_replacement p) (is_pre_freed p)
    (is_waiting_for_any_child_to_terminate p) (is_waited_by_parent p) c (values_to_write p) (eax p) (esi p).
Definition set_values (p : process) (v : list (Z * Z)) : process :=
  mkProcess (quantum p) (priority p) (pid p) (ppid p) (flags p) (ret_status p) (exec_replacement p) (is_pre_freed p)
    (is_waiting_for_any_child_to_terminate p) (is_waited_by_parent p) (children p) v (eax p) (esi p).
Definition set_eax (p : process) (x : Z) : process :=
  mkProcess (quantum p) (priority p) (pid p) (ppid p) (flags p) (ret_status p) (exec_replacement p) (is_pre_freed p)
    (is_waiting_for_any_child_to_terminate p) (is_waited_by_parent p) (children p) (values_to_write p) x (esi p).

(** [Process::is_terminated] and its like, and [Process::set_flag]. *)
Definition has_flag (p : process) (f : Z) : bool := truthy (Z.land (flags p) f).
Definition is_terminated (p : process) : bool := has_flag p P_TERMINATED.
Definition is_waiting_key (p : process) : bool := has_flag p P_WAITING_KEY.
Definition is_waiting_program (p : process) : bool := has_flag p P_WAITING_PROCESS.
Definition is_waiting_read (p : process) : bool := has_flag p P_WAITING_READ.
Definition is_sleeping (p : process) : bool := has_flag p P_SLEEPING.
Definition exec_running (p : process) : bool := has_flag p P_EXEC.
Definition set_flag (p : process) (f : Z) : process := set_flags p (Z.lor (flags p) f).
Definition clear_flag (p : process) (f : Z) : process := set_flags p (Z.ldiff (flags p) f).
(** [RESET_QUANTUM]. *)
Definition RESET_QUANTUM (p : process) : process := set_quantum p (priority p *u CLOCK_TICK_MS).

(** [proc_waiting_for_read]. *)
Record proc_waiting_for_read := mkRead { r_pid : Z; r_fd : Z; request : Z; read_so_far : Z }.

Record sched := mkSched {
  objects : gmap loc process;
  processes : list (option loc);
  pid_pool : Z;
  running_process : Z;
  ready_queue : Queue.queue Z;
  waiting_queue : Queue.queue Z;
  sleeping_processes : MinHeap.heap (loc * Z);
  processes_waiting_for_read : list proc_waiting_for_read
}.

Definition set_objects (s : sched) o := mkSched o (processes s) (pid_pool s) (running_process s) (ready_queue s) (waiting_queue s) (sleeping_processes s) (processes_waiting_for_read s).
Definition set_processes (s : sched) a := mkSched (objects s) a (pid_pool s) (running_process s) (ready_queue s) (waiting_queue s) (sleeping_processes s) (processes_waiting_for_read s).
Definition set_pid_pool (s : sched) p := mkSched (objects s) (processes s) p (running_process s) (ready_queue s) (waiting_queue s) (sleeping_processes s) (processes_waiting_for_read s).
Definition set_running (s : sched) r := mkSched (objects s) (processes s) (pid_pool s) r (ready_queue s) (waiting_queue s) (sleeping_processes s) (processes_waiting_for_read s).
Definition set_ready (s : sched) q := mkSched (objects s) (processes s) (pid_pool s) (running_process s) q (waiting_queue s) (sleeping_processes s) (processes_waiting_for_read s).
Definition set_waiting (s : sched) q := mkSched (objects s) (processes s) (pid_pool s) (running_process s) (ready_queue s) q (sleeping_processes s) (processes_waiting_for_read s).
Definition set_sleeping (s : sched) h := mkSched (objects s) (processes s) (pid_pool s) (running_process s) (ready_queue s) (waiting_queue s) h (processes_waiting_for_read s).
Definition set_reads (s : sched) l := mkSched (objects s) (processes s) (pid_pool s) (running_process s) (ready_queue s) (waiting_queue s) (sleeping_processes s) l.

(** [processes[pid]], an index the source does not test. *)
Definition slot (s : sched) (i : Z) : res (option loc) :=
  if 0 <=? i then deref (processes s !! Z.to_nat i) else Fault.
Definition set_slot (s : sched) (i : Z) (o : option loc) : res sched :=
  _ ← slot s i; Ok (set_processes s (<[Z.to_nat i := o]> (processes s))).

(** [*p], for a pointer that may be null or deleted. *)
Definition obj (s : sched) (l : option loc) : res (loc * process) :=
  match l with
  | None => Fault
  | Some l => match objects s !! l with Some p => Ok (l, p) | None => Fault end
  end.
Definition put (s : sched) (l : loc) (p : process) : sched := set_objects s (<[l := p]> (objects s)).

(** [processes[pid]->...]. *)
Definition proc_at (s : sched) (i : Z) : res (loc * process) := l ← slot s i; obj s l.

(** Queue operations on the state. *)
Definition enqueue_ready (s : sched) (i : Z) : sched := set_ready s (Queue.enqueue MAX_PROCESSES (ready_queue s) i).1.
Definition enqueue_waiting (s : sched) (i : Z) : sched := set_waiting s (Queue.enqueue MAX_PROCESSES (waiting_queue s) i).1.
Definition dequeue_ready (s : sched) : res (sched * Z) :=
  '(q, i) ← Queue.dequeue MAX_PROCESSES (ready_queue s); Ok (set_ready s q, i).
Definition dequeue_waiting (s : sched) : res (sched * Z) :=
  '(q, i) ← Queue.dequeue MAX_PROCESSES (waiting_queue s); Ok (set_waiting s q, i).

(** ** Process ids *)

Fixpoint free_pid_loop (n : nat) (pool i : Z) : Z :=
  match n with
  | O => MAX_PROCESSES
  | S n => if truthy (Z.land pool (Z.shiftl 1 i)) then free_pid_loop n pool (i + 1) else i
  end.

(** [Scheduler::get_free_pid]. *)
Definition get_free_pid (s : sched) : sched * Z :=
  let i := free_pid_loop 32 (pid_pool s) 0 in
  if i =? MAX_PROCESSES then (s, MAX_PROCESSES)
  else (set_pid_pool s (Z.lor (pid_pool s) (Z.shiftl 1 i)), i).

(** [Scheduler::release_pid]. *)
Definition release_pid (s : sched) (i : Z) : sched := set_pid_pool s (Z.ldiff (pid_pool s) (Z.shiftl 1 i)).

(** [Scheduler::get_process]. *)
Definition get_process (s : sched) (i : Z) : option loc :=
  if (MAX_PROCESSES <=? i) || (i <? 0) then None else default None (processes s !! Z.to_nat i).

(** [Scheduler::get_running_process]. *)
Definition get_running_process (s : sched) : res (option loc) :=
  if running_process s =? MAX_PROCESSES then Ok None else slot s (running_process s).

(** [Scheduler::set_process_ready]. *)
Definition set_process_ready (s : sched) (l : loc) : res sched :=
  '(_, p) ← obj s (Some l);
  o ← slot s (pid p);
  _ ← (match o with
       | Some l' => '(_, q) ← obj s (Some l'); ensure (pid q =? pid p)
       | None => Ok tt
       end);
  s ← set_slot s (pid p) (Some l);
  Ok (put (enqueue_ready s (pid p)) l (RESET_QUANTUM p)).

(** ** Termination *)

(** The end of [Process::pre_free]: the test for children and the flag.  Before that it releases what belongs to other components: the memory
    ([MemTree.free_all]), the descriptors ([FileTable.close_descriptors]) and the two arrays of page tables. *)
Definition pre_free (s : sched) (l : loc) : res sched :=
  '(l, p) ← obj s (Some l);
  if is_pre_freed p then Ok s
  else
    _ ← ensure (negb (negb (bool_decide (children p = [])) && negb (exec_running p)));
    Ok (put s l (set_pre_freed p)).

(** [delete p], with [~Process]. *)
Definition delete_process (s : sched) (l : loc) : res sched :=
  '(l, p) ← obj s (Some l);
  s ← (if has_flag p P_TERMINATED then pre_free s l else Ok s);
  Ok (set_objects s (delete l (objects s))).

(** The first occurrence removed, as [list::remove] does. *)
Fixpoint remove_first (x : Z) (xs : list Z) : list Z :=
  match xs with [] => [] | y :: ys => if y =? x then ys else y :: remove_first x ys end.

(** [Scheduler::wake_up_process_parent]. *)
Definition wake_up_process_parent (s : sched) (process_pid : Z) : res sched :=
  let curr_pid := running_process s in
  '(_, child) ← proc_at s process_pid;
  let parent := ppid child in
  wl ← slot s parent;
  let s := if negb (parent =? curr_pid) then enqueue_ready s parent else s in
  '(l, w) ← obj s wl;
  let w := if truthy (esi w) then set_values w (values_to_write w ++ [(esi w, ret_status child)]) else w in
  let w := set_eax (clear_flag w P_WAITING_PROCESS) process_pid in
  Ok (put s l (set_children w (remove_first process_pid (children w)))).

(** [for (child_id : p.children) processes[child_id]->ppid = processes[child_id]->pid]. *)
Fixpoint orphan_children (s : sched) (cs : list Z) : res sched :=
  match cs with
  | [] => Ok s
  | c :: cs => '(l, p) ← proc_at s c; orphan_children (put s l (set_ppid p (pid p))) cs
  end.

(** [Scheduler::free_terminated_process]. *)
Definition free_terminated_process (s : sched) (l : loc) : res sched :=
  '(l, p) ← obj s (Some l);
  _ ← ensure (has_flag p P_TERMINATED || has_flag p P_ZOMBIE);
  s ← (if exec_running p then Ok s
       else
         any ← (if is_waited_by_parent p then Ok true
                else '(_, par) ← proc_at s (ppid p); Ok (is_waiting_for_any_child_to_terminate par));
         s ← (if (any : bool) then
                s ← wake_up_process_parent s (pid p);
                '(pl, par) ← proc_at s (ppid p);
                let s := put s pl (set_waits par false (is_waited_by_parent par)) in
                '(l, p) ← obj s (Some l);
                Ok (put s l (set_waits p (is_waiting_for_any_child_to_terminate p) false))
              else Ok s);
         '(_, p) ← obj s (Some l);
         s ← orphan_children s (children p);
         '(_, p) ← obj s (Some l);
         let s := put s l (set_children p []) in
         set_slot (release_pid s (pid p)) (pid p) None);
  delete_process s l.

(** [Scheduler::relinquish_first_ready_process]. *)
Definition relinquish_first_ready_process (s : sched) : res sched :=
  i ← Queue.getFirst (ready_queue s);
  let s := set_running s i in
  '(l, p) ← proc_at s i;
  s ← (if negb (has_flag p P_EXEC) then '(s, _) ← dequeue_ready s; Ok s else Ok s);
  if ppid p =? pid p then free_terminated_process s l
  else
    '(_, par) ← proc_at s (ppid p);
    if negb (is_waiting_for_any_child_to_terminate par) && negb (is_waited_by_parent p) && negb (has_flag p P_EXEC)
    then pre_free (put s l (set_flag p P_ZOMBIE)) l
    else free_terminated_process s l.

(** ** Choosing the next process *)

(** [set_first_ready_process_asleep_waiting_key_press]. *)
Definition set_first_ready_process_asleep_waiting_key_press (s : sched) : res sched :=
  '(s, i) ← dequeue_ready s; Ok (enqueue_waiting (set_running s i) i).

(** [set_first_ready_process_asleep_waiting_process] and [.._waiting_read]. *)
Definition set_first_ready_process_asleep (s : sched) : res sched :=
  '(s, i) ← dequeue_ready s; Ok (set_running s i).

(** One round of the loop of [get_next_process]: the state, and the process once one is found. *)
Definition next_round (s : sched) (i : Z) : res (sched * option loc) :=
  '(l, p) ← proc_at s i;
  if is_terminated p then s ← relinquish_first_ready_process s; Ok (s, None)
  else if is_waiting_key p then s ← set_first_ready_process_asleep_waiting_key_press s; Ok (s, None)
  else if is_waiting_program p then s ← set_first_ready_process_asleep s; Ok (s, None)
  else if is_sleeping p then '(s, _) ← dequeue_ready s; Ok (s, None)
  else if is_waiting_read p then s ← set_first_ready_process_asleep s; Ok (s, None)
  else
    '(s, l) ← (if exec_running p then
                 let s := put s l (set_flag p P_TERMINATED) in
                 s ← relinquish_first_ready_process s;
                 '(_, p) ← obj s (Some l);
                 s ← set_slot s (pid p) (exec_replacement p);
                 '(l, _) ← obj s (exec_replacement p);
                 Ok (s, l)
               else Ok (s, l));
    '(l, p) ← obj s (Some l);
    if truthy (quantum p) then Ok (put s l (set_quantum p (quantum p -u CLOCK_TICK_MS)), Some l)
    else
      '(s, _) ← dequeue_ready s;
      Ok (put (enqueue_ready s (pid p)) l (RESET_QUANTUM p), None).

Fixpoint next_loop (fuel : nat) (s : sched) : res (sched * option loc) :=
  if Queue.empty (ready_queue s) then Ok (s, None)
  else
    i ← Queue.getFirst (ready_queue s);
    '(s, o) ← next_round (set_running s i) i;
    match o with
    | Some l => Ok (s, Some l)
    | None => match fuel with O => NoFuel | S fuel => next_loop fuel s end
    end.

(** [Scheduler::get_next_process]; two rounds per queue entry are enough. *)
Definition get_next_process (s : sched) : res (sched * option loc) := next_loop 65 (set_running s MAX_PROCESSES).

(** ** Waking up *)

(** [Scheduler::wake_up_key_waiting_processes]: [getCount] is asked again at every round. *)
Fixpoint wake_key_loop (fuel : nat) (s : sched) (i key : Z) : res sched :=
  if i <? Queue.getCount (waiting_queue s) then
    '(s, p) ← dequeue_waiting s;
    let s := enqueue_ready s p in
    '(l, pr) ← proc_at s p;
    let s := put s l (clear_flag (set_eax pr key) P_WAITING_KEY) in
    match fuel with O => NoFuel | S fuel => wake_key_loop fuel s (i + 1) key end
  else Ok s.

Definition wake_up_key_waiting_processes (s : sched) (key : Z) : res sched :=
  wake_key_loop (Z.to_nat (Queue.getCount (waiting_queue s))) s 0 key.

(** [Scheduler::check_for_processes_to_wake_up]. *)
Fixpoint wake_sleepers (fuel : nat) (s : sched) (tick : Z) : res sched :=
  if MinHeap.empty (sleeping_processes s) then Ok s
  else
    sp ← MinHeap.min (sleeping_processes s);
    if sp.2 <=? tick then
      '(_, p) ← obj s (Some sp.1);
      let s := enqueue_ready s (pid p) in
      '(l, q) ← proc_at s (pid p);
      let s := put s l (clear_flag q P_SLEEPING) in
      '(h, _) ← MinHeap.delete_min snd (sleeping_processes s);
      let s := set_sleeping s h in
      match fuel with O => NoFuel | S fuel => wake_sleepers fuel s tick end
    else Ok s.

Definition check_for_processes_to_wake_up (s : sched) (tick : Z) : res sched :=
  wake_sleepers (Z.to_nat (MinHeap.count (sleeping_processes s))) s tick.

(** [Scheduler::set_process_asleep], given the number of ticks the duration comes to. *)
Definition set_process_asleep (s : sched) (l : loc) (ticks tick : Z) : res sched :=
  '(l, p) ← obj s (Some l);
  let s := put s l (set_flag p P_SLEEPING) in
  let n := if ticks =? 0 then 1 else ticks in
  h ← MinHeap.insert snd (sleeping_processes s) (l, tick +u n);
  Ok (set_sleeping s h).

(** [Scheduler::do_read_wait]. *)
Definition do_read_wait (s : sched) (process_pid fd n : Z) : res sched :=
  let s := set_reads s (processes_waiting_for_read s ++ [mkRead process_pid fd n 0]) in
  '(l, p) ← proc_at s process_pid;
  Ok (put s l (set_flag p P_WAITING_READ)).

Definition same_read (a b : proc_waiting_for_read) : bool := (r_pid b =? r_pid a) && (r_fd a =? r_fd b).

(** [list::remove] on the waiting reads, with their [operator==]. *)
Fixpoint remove_read (x : proc_waiting_for_read) (l : list proc_waiting_for_read) : list proc_waiting_for_read :=
  match l with [] => [] | y :: ys => if same_read y x then ys else y :: remove_read x ys end.

(** The second loop of [wake_up_read_waiting_processes]. *)
Fixpoint resume_reads (s : sched) (tbr : list proc_waiting_for_read) : res sched :=
  match tbr with
  | [] => Ok s
  | t :: tbr =>
      let s := set_reads s (remove_read t (processes_waiting_for_read s)) in
      '(l, p) ← proc_at s (r_pid t);
      resume_reads (enqueue_ready (put s l (clear_flag p P_WAITING_READ)) (pid p)) tbr
  end.

(** [Scheduler::wake_up_read_waiting_processes]; [must_wait] is what the file answers to
    [should_wait_for_data_on_read]. *)
Definition wake_up_read_waiting_processes (s : sched) (write_fd read_fd count : Z) (must_wait : bool) : res sched :=
  if (write_fd =? -1) || (read_fd =? -1) then Panic
  else
    let step r := if r_fd r =? write_fd
                  then mkRead (r_pid r) (r_fd r) (request r) (read_so_far r +u Z.min (request r -u read_so_far r) (u32 count))
                  else r in
    let reads := map step (processes_waiting_for_read s) in
    let done r := (r_fd r =? write_fd) && ((read_so_far r =? request r) || negb must_wait) in
    resume_reads (set_reads s reads) (List.filter done reads).

(** ** Waiting for children *)

(** The search for a zombie among the children. *)
Fixpoint find_zombie (s : sched) (cs : list Z) : res (option (loc * Z)) :=
  match cs with
  | [] => Ok None
  | c :: cs =>
      o ← slot s c;
      match o with
      | None => find_zombie s cs
      | Some l => '(l, p) ← obj s (Some l); if has_flag p P_ZOMBIE then Ok (Some (l, pid p)) else find_zombie s cs
      end
  end.

(** [Scheduler::register_process_wait]; [ECHILD] is the error number of the libc headers. *)
Definition register_process_wait (ECHILD : Z) (s : sched) (waiting_process waited_for_process : Z) : res (sched * Z) :=
  '(l, p) ← proc_at s waiting_process;
  if waited_for_process =? -1 then
    z ← find_zombie s (children p);
    match z with
    | Some (zl, zpid) => s ← free_terminated_process s zl; Ok (s, zpid)
    | None =>
        if 0 <? Z.of_nat (length (children p)) then
          Ok (put s l (set_flag (set_waits p true (is_waited_by_parent p)) P_WAITING_PROCESS), 0)
        else Ok (s, - ECHILD)
    end
  else if negb (bool_decide (waited_for_process ∈ children p)) then Ok (s, - ECHILD)
  else
    '(wl, w) ← proc_at s waited_for_process;
    let s := put s wl (set_waits w (is_waiting_for_any_child_to_terminate w) true) in
    '(wl, w) ← proc_at s waited_for_process;
    if has_flag w P_ZOMBIE then s ← free_terminated_process s wl; Ok (s, waited_for_process)
    else '(l, p) ← proc_at s waiting_process; Ok (put s l (set_flag p P_WAITING_PROCESS), 0).

(** The loop of [Scheduler::stop_kernel_init_process]. *)
Fixpoint prune_loop (n : nat) (s : sched) : res sched :=
  match n with
  | O => Ok s
  | S n => '(s, i) ← dequeue_ready s; prune_loop n (if negb (i =? 0) then enqueue_ready s i else s)
  end.

Definition stop_kernel_init_process (s : sched) : res sched := prune_loop (Z.to_nat (Queue.getCount (ready_queue s))) s.

(** [Scheduler::exec], given what [load_process] answers (a new process object or none). *)
Definition exec (s : sched) (load_process : sched -> Z -> res (sched * option loc)) : res (sched * Z) :=
  let '(s, i) := get_free_pid s in
  if i =? MAX_PROCESSES then Ok (s, -1)
  else
    '(s, o) ← load_process s i;
    match o with
    | None => Ok (s, -1)
    | Some l =>
        '(_, p) ← obj s (Some l);
        s ← set_slot s (pid p) (Some l);
        s ← set_process_ready s l;
        Ok (s, pid p)
    end.

(** ** Process ids are handed out once *)

Lemma shift_bit pool i : 0 <= i -> truthy (Z.land pool (Z.shiftl 1 i)) = Z.testbit pool i.
Proof.
  intros Hi. unfold truthy. destruct (Z.testbit pool i) eqn:Hb.
  - apply negb_true_iff, Z.eqb_neq. intros E.
    assert (Z.testbit (Z.land pool (Z.shiftl 1 i)) i = false) as H by (rewrite E; apply Z.bits_0).
    rewrite Z.land_spec, Hb, Z.shiftl_spec, Z.sub_diag in H by lia. done.
  - apply negb_false_iff, Z.eqb_eq. apply Z.bits_inj'. intros n Hn. rewrite Z.land_spec, Z.bits_0, Z.shiftl_spec by lia.
    destruct (decide (n = i)) as [->|]; [by rewrite Hb|]. destruct (decide (n < i)).
    + by rewrite (Z.testbit_neg_r 1), andb_false_r by lia.
    + rewrite (Z.bits_above_log2 1 (n - i)), andb_false_r by (simpl; lia). done.
Qed.

Lemma one_bit i n : 0 <= i -> 0 <= n -> Z.testbit (Z.shiftl 1 i) n = (n =? i).
Proof.
  intros Hi Hn. rewrite Z.shiftl_spec by lia. destruct (Z.eqb_spec n i) as [->|]; [by rewrite Z.sub_diag|].
  destruct (decide (n < i)); [by rewrite Z.testbit_neg_r by lia|]. apply Z.bits_above_log2; simpl; lia.
Qed.

Lemma free_pid_loop_spec n pool i :
  0 <= i -> i + Z.of_nat n = MAX_PROCESSES ->
  let j := free_pid_loop n pool i in
  i <= j <= MAX_PROCESSES /\ (forall k, i <= k < j -> Z.testbit pool k = true) /\
  (j < MAX_PROCESSES -> Z.testbit pool j = false).
Proof.
  revert i. induction n as [|n IH]; intros i Hi Hn; simpl; [split_and!; lia|].
  rewrite shift_bit by lia. destruct (Z.testbit pool i) eqn:Hb.
  - destruct (IH (i + 1)) as (Hj & Hk & Hf); [lia|lia|]. split_and!; [lia|lia| |done].
    intros k Hk'. destruct (decide (k = i)) as [->|]; [done|]. apply Hk. lia.
  - split_and!; [lia|unfold MAX_PROCESSES in *; lia|lia|done].
Qed.

(** [get_free_pid] and [release_pid]: the pid handed out is the lowest one not in use, it is marked in
    use and no other pid changes; 32 is returned, and nothing changed, exactly when all 32 are in
    use; releasing the pid restores the pool. *)
Theorem pid_pool_ok s :
  let '(s', i) := get_free_pid s in
  (i = MAX_PROCESSES /\ s' = s /\ forall k, 0 <= k < 32 -> Z.testbit (pid_pool s) k = true) \/
  (0 <= i < 32 /\ Z.testbit (pid_pool s) i = false /\ (forall k, 0 <= k < i -> Z.testbit (pid_pool s) k = true) /\
   (forall k, 0 <= k -> Z.testbit (pid_pool s') k = Z.testbit (pid_pool s) k || (k =? i)) /\
   release_pid s' i = s).
Proof.
  unfold get_free_pid. destruct (free_pid_loop_spec 32 (pid_pool s) 0) as (Hj & Hk & Hf); [lia|done|].
  set (i := free_pid_loop 32 (pid_pool s) 0) in *. unfold MAX_PROCESSES in *.
  destruct (Z.eqb_spec i 32) as [->|Hne]; [left; done|right]. specialize (Hf ltac:(lia)).
  assert (forall k, 0 <= k -> Z.testbit (Z.lor (pid_pool s) (Z.shiftl 1 i)) k = Z.testbit (pid_pool s) k || (k =? i)) as Hb.
  { intros k Hk0. by rewrite Z.lor_spec, one_bit by lia. }
  split_and!; [lia|lia|done|done|done|].
  destruct s. unfold release_pid, set_pid_pool. simpl in *. f_equal. apply Z.bits_inj'. intros n Hn.
  rewrite Z.ldiff_spec, Hb, one_bit by lia. destruct (Z.eqb_spec n i) as [->|]; [by rewrite Hf|].
  by rewrite orb_false_r, andb_true_r.
Qed.

(** ** Round robin *)

(** A process that may not run now, though nothing is wrong with it. *)
Definition blocked (p : process) : bool :=
  is_waiting_key p || is_waiting_program p || is_sleeping p || is_waiting_read p.

Definition live (p : process) : Prop := is_terminated p = false /\ exec_running p = false.

(** The queues hold [L] and [W], and pid [i] of [L] is the process [P i]. *)
Definition view (s : sched) (L W : list Z) (P : Z -> process) : Prop :=
  Queue.rep MAX_PROCESSES (ready_queue s) L /\ Queue.rep MAX_PROCESSES (waiting_queue s) W /\
  forall i, i ∈ L -> pid (P i) = i /\ exists l, proc_at s i = Ok (l, P i).

Lemma proc_at_put s i l p l' p' :
  proc_at s i = Ok (l, p) -> proc_at (put s l' p') i = Ok (l, if decide (l' = l) then p' else p).
Proof.
  unfold proc_at, slot, obj, put. simpl. destruct (0 <=? i); [|done].
  destruct (processes s !! Z.to_nat i) as [[x|]|]; run; try done.
  destruct (objects s !! x) as [q|] eqn:Hq; [|done]. intros [= <- <-].
  destruct (decide (l' = x)) as [->|]; [by rewrite lookup_insert_eq|by rewrite lookup_insert_ne, Hq].
Qed.

Lemma proc_at_obj s i l p : proc_at s i = Ok (l, p) -> obj s (Some l) = Ok (l, p).
Proof.
  unfold proc_at, slot, obj. destruct (0 <=? i); [|done]. destruct (processes s !! Z.to_nat i) as [[x|]|]; run; try done.
  destruct (objects s !! x) as [q|] eqn:Hq; [|done]. intros [= <- <-]. by rewrite Hq.
Qed.

(** Different pids are different objects. *)
Lemma view_inj s L W P i j l :
  view s L W P -> i ∈ L -> j ∈ L -> i <> j -> proc_at s i = Ok (l, P i) -> proc_at s j <> Ok (l, P j).
Proof.
  intros (_ & _ & H) Hi Hj Hij H1 H2. apply proc_at_obj in H1, H2. rewrite H1 in H2. injection H2 as E.
  destruct (H i Hi) as [Pi _], (H j Hj) as [Pj _]. congruence.
Qed.

Lemma dequeue_view s i L W P :
  view s (i :: L) W P -> exists s', dequeue_ready s = Ok (s', i) /\ view s' L W P /\ objects s' = objects s /\ processes s' = processes s.
Proof.
  intros (Hr & Hw & Hp). destruct (Queue.dequeue_rep _ _ _ _ Hr) as (q & Hq & Hr'). unfold dequeue_ready. rewrite Hq. run.
  eexists. split; [done|]. unfold view. simpl. split; [|done]. split_and!; [done|done|]. intros j Hj. apply (Hp j). set_solver.
Qed.

Lemma room (q : Queue.queue Z) xs x :
  Queue.rep MAX_PROCESSES q xs -> (length xs < 32)%nat -> Queue.rep MAX_PROCESSES (Queue.enqueue MAX_PROCESSES q x).1 (xs ++ [x]).
Proof.
  intros Hr Hl. pose proof Hr as (_ & Hc & _). destruct (Queue.enqueue_rep _ _ _ x Hr) as [H _].
  destruct H as (q' & -> & Hr'); [unfold MAX_PROCESSES; lia|done].
Qed.

(** One round on a blocked process takes it out of the queue. *)
Lemma round_blocked s i L W P :
  view s (i :: L) W P -> live (P i) -> blocked (P i) = true -> (length W < 32)%nat ->
  exists s', next_round (set_running s i) i = Ok (s', None) /\
    view s' L (if is_waiting_key (P i) then W ++ [i] else W) P.
Proof.
  intros Hv [Ht _] Hb HW. pose proof Hv as (_ & _ & Hp). destruct (Hp i ltac:(set_solver)) as [_ [l Hl]].
  assert (view (set_running s i) (i :: L) W P) as Hv1 by exact Hv.
  destruct (dequeue_view _ _ _ _ _ Hv1) as (s1 & Hd & Hv2 & _ & _).
  unfold next_round. assert (proc_at (set_running s i) i = Ok (l, P i)) as -> by exact Hl. run. rewrite Ht.
  unfold blocked in Hb. destruct (is_waiting_key (P i)) eqn:Hk.
  - unfold set_first_ready_process_asleep_waiting_key_press. rewrite Hd. run. eexists. split; [done|].
    destruct Hv2 as (Hr & Hw & Hp2). split_and!; [done|by apply room|done].
  - destruct (is_waiting_program (P i)); [unfold set_first_ready_process_asleep; rewrite Hd; run; eexists; split; [done|exact Hv2]|].
    destruct (is_sleeping (P i)); [rewrite Hd; run; eexists; split; [done|exact Hv2]|].
    simpl in Hb. rewrite Hb. unfold set_first_ready_process_asleep. rewrite Hd. run. eexists. split; [done|exact Hv2].
Qed.

Lemma not_blocked p : blocked p = false ->
  is_waiting_key p = false /\ is_waiting_program p = false /\ is_sleeping p = false /\ is_waiting_read p = false.
Proof. unfold blocked. rewrite !orb_false_iff. tauto. Qed.

(** One round on a process whose quantum is used up sends it to the end of the queue with a new one. *)
Lemma round_rotate s i L W P :
  view s (i :: L) W P -> NoDup (i :: L) -> live (P i) -> blocked (P i) = false -> quantum (P i) = 0 ->
  exists s', next_round (set_running s i) i = Ok (s', None) /\ view s' (L ++ [i]) W (fun j => if decide (j = i) then RESET_QUANTUM (P i) else P j).
Proof.
  intros Hv Hnd [Ht He] (Hk & Hpr & Hs & Hr)%not_blocked Hq. pose proof Hv as (Hrep & _ & Hp).
  destruct (Hp i ltac:(set_solver)) as [Hpid [l Hl]].
  assert (view (set_running s i) (i :: L) W P) as Hv1 by exact Hv.
  destruct (dequeue_view _ _ _ _ _ Hv1) as (s1 & Hd & (Hr1 & Hw1 & Hp1) & Ho1 & Hpr1).
  unfold next_round. assert (proc_at (set_running s i) i = Ok (l, P i)) as Hli by exact Hl. rewrite Hli. run.
  rewrite Ht, Hk, Hpr, Hs, Hr, He. run. rewrite (proc_at_obj _ _ _ _ Hli). run. rewrite Hq. change (truthy 0) with false. cbv iota.
  rewrite Hd. run. eexists. split; [done|].
  assert (length L < 32)%nat as HL.
  { destruct Hrep as ((_ & _ & Hc & _) & Hlen & _). simpl in Hlen. unfold MAX_PROCESSES in *. lia. }
  split_and!; [simpl; rewrite Hpid; by apply room|done|].
  intros j Hj. assert (j ∈ i :: L) as Hj' by set_solver.
  destruct (Hp j Hj') as [Hpj [lj Hlj]].
  assert (proc_at (enqueue_ready s1 (pid (P i))) j = Ok (lj, P j)) as Hlj1.
  { unfold proc_at, slot, obj in *. simpl. rewrite Ho1, Hpr1. exact Hlj. }
  rewrite (proc_at_put _ _ _ _ l (RESET_QUANTUM (P i)) Hlj1). destruct (decide (j = i)) as [->|Hne].
  - split; [done|]. exists lj. assert (l = lj) as -> by congruence. by rewrite decide_True.
  - split; [done|]. exists lj. rewrite decide_False; [done|]. intros ->. apply (view_inj _ _ _ _ i j lj Hv); try done; set_solver.
Qed.

(** One round on a process that may run chooses it. *)
Lemma round_pick s i L W P :
  view s (i :: L) W P -> NoDup (i :: L) -> live (P i) -> blocked (P i) = false -> quantum (P i) <> 0 ->
  exists s' l, next_round (set_running s i) i = Ok (s', Some l) /\
    let p' := set_quantum (P i) (quantum (P i) -u CLOCK_TICK_MS) in
    view s' (i :: L) W (fun j => if decide (j = i) then p' else P j) /\ proc_at s' i = Ok (l, p') /\ running_process s' = i.
Proof.
  intros Hv Hnd [Ht He] (Hk & Hpr & Hs & Hr)%not_blocked Hq. pose proof Hv as (Hrep & Hw & Hp).
  destruct (Hp i ltac:(set_solver)) as [Hpid [l Hl]].
  unfold next_round. assert (proc_at (set_running s i) i = Ok (l, P i)) as Hli by exact Hl. rewrite Hli. run.
  rewrite Ht, Hk, Hpr, Hs, Hr, He. run. rewrite (proc_at_obj _ _ _ _ Hli). run.
  assert (truthy (quantum (P i)) = true) as -> by by apply negb_true_iff, Z.eqb_neq.
  eexists _, l. split; [done|]. cbv zeta. set (p' := set_quantum _ _).
  assert (forall j, j ∈ i :: L -> proc_at (put (set_running s i) l p') j = Ok (if decide (j = i) then l else default l (fst <$> (match proc_at s j with Ok x => Some x | _ => None end)), if decide (j = i) then p' else P j)) as Hput.
  { intros j Hj. destruct (Hp j Hj) as [Hpj [lj Hlj]]. rewrite Hlj. simpl.
    assert (proc_at (set_running s i) j = Ok (lj, P j)) as Hlj' by exact Hlj.
    rewrite (proc_at_put _ _ _ _ l p' Hlj'). destruct (decide (j = i)) as [->|Hne].
    - assert (lj = l) as -> by congruence. by rewrite decide_True.
    - rewrite decide_False; [done|]. intros ->. apply (view_inj _ _ _ _ i j lj Hv); try done; set_solver. }
  split.
  - split_and!; [done|done|]. intros j Hj. split.
    + destruct (decide (j = i)) as [->|]; [done|]. by apply Hp.
    + rewrite (Hput j Hj). eauto.
  - split; [|done]. rewrite (Hput i ltac:(set_solver)). by rewrite !decide_True.
Qed.

Lemma view_ext s L W P Q : (forall i, i ∈ L -> P i = Q i) -> view s L W P -> view s L W Q.
Proof.
  intros HPQ (Hr & Hw & Hp). split_and!; [done|done|]. intros i Hi. rewrite <- (HPQ i Hi). by apply Hp.
Qed.

(** A process the loop passes over the first time round, and what is left of the ready queue. *)
Definition skipped (p : process) : bool := blocked p || (quantum p =? 0).
Definition runnable (P : Z -> process) (L : list Z) : list Z := List.filter (fun i => negb (blocked (P i))) L.
Definition key_waiters (P : Z -> process) (L : list Z) : list Z := List.filter (fun i => is_waiting_key (P i)) L.
Definition recharged (A : list Z) (P : Z -> process) (i : Z) : process := if decide (i ∈ A) then RESET_QUANTUM (P i) else P i.

Lemma next_loop_step k s i L W P s1 :
  view s (i :: L) W P -> next_round (set_running s i) i = Ok (s1, None) -> next_loop (S k) s = next_loop k s1.
Proof.
  intros (Hr & _ & _) Hs. cbn [next_loop].
  assert (Queue.empty (ready_queue s) = false) as ->.
  { destruct Hr as (_ & Hl & _). unfold Queue.empty. simpl in Hl. apply Z.eqb_neq. lia. }
  rewrite (Queue.getFirst_rep _ _ _ _ Hr). run. rewrite Hs. done.
Qed.

Lemma runnable_ext P Q L : (forall i, i ∈ L -> P i = Q i) -> runnable P L = runnable Q L.
Proof.
  intros H. apply List.filter_ext_in. intros i Hi%list_elem_of_In. by rewrite H.
Qed.

Lemma key_waiters_ext P Q L : (forall i, i ∈ L -> P i = Q i) -> key_waiters P L = key_waiters Q L.
Proof.
  intros H. apply List.filter_ext_in. intros i Hi%list_elem_of_In. by rewrite H.
Qed.

(** The loop passes over a prefix of the ready queue, once per process. *)
Lemma next_loop_prefix A : forall k s B W P,
  view s (A ++ B) W P -> NoDup (A ++ B) -> (length (A ++ B) + length W <= 32)%nat ->
  (forall i, i ∈ A -> live (P i) /\ skipped (P i) = true) ->
  exists s', next_loop (length A + k) s = next_loop k s' /\
    view s' (B ++ runnable P A) (W ++ key_waiters P A) (recharged A P).
Proof.
  induction A as [|i A IH]; intros k s B W P Hv Hnd Hlen Hsk.
  - exists s. split; [done|]. simpl. rewrite !app_nil_r. apply view_ext with P; [|done].
    intros i _. unfold recharged. by rewrite decide_False by set_solver.
  - destruct (Hsk i ltac:(set_solver)) as [Hlive Hi]. simpl in Hv, Hnd, Hlen. apply NoDup_cons in Hnd as [Hni Hnd].
    assert (forall j, j ∈ A -> j <> i) as Hne by (intros j Hj ->; set_solver).
    destruct (blocked (P i)) eqn:Hb.
    + destruct (round_blocked s i (A ++ B) W P Hv Hlive Hb ltac:(lia)) as (s1 & Hs1 & Hv1).
      destruct (IH k s1 B _ P Hv1) as (s2 & Hs2 & Hv2); [exact Hnd| |intros j Hj; apply Hsk; by right|].
      { rewrite length_app in *. destruct (is_waiting_key (P i)); rewrite ?length_app; simpl; lia. }
      exists s2. split; [change (length (i :: A) + k)%nat with (S (length A + k)); by rewrite (next_loop_step _ s i (A ++ B) W P s1)|].
      cbn [runnable key_waiters List.filter]. rewrite Hb. cbn [negb].
      apply view_ext with (recharged A P).
      * intros j Hj. unfold recharged. assert (j ∈ A ++ B) as Hj'.
        { apply elem_of_app in Hj as [Hj|Hj]; [set_solver|]. apply list_elem_of_In, List.filter_In in Hj as [Hj _].
          apply list_elem_of_In in Hj. set_solver. }
        assert (j <> i) by (intros ->; done). destruct (decide (j ∈ A)); [by rewrite decide_True by set_solver|].
        by rewrite decide_False by set_solver.
      * destruct (is_waiting_key (P i)); [|done]. by rewrite <- app_assoc in Hv2.
    + unfold skipped in Hi. rewrite Hb in Hi. simpl in Hi. apply Z.eqb_eq in Hi.
      destruct (round_rotate s i (A ++ B) W P Hv) as (s1 & Hs1 & Hv1); [by constructor|done..|].
      set (P1 := fun j => _) in Hv1. rewrite <- app_assoc in Hv1.
      assert (forall j, j ∈ A -> P1 j = P j) as HP1 by (intros j Hj; unfold P1; rewrite decide_False by (by apply Hne); done).
      destruct (IH k s1 (B ++ [i]) W P1 Hv1) as (s2 & Hs2 & Hv2).
      { rewrite app_assoc. apply NoDup_app. split_and!; [done| |apply NoDup_singleton]. set_solver. }
      { rewrite app_assoc, length_app. simpl. lia. }
      { intros j Hj. rewrite (HP1 j Hj). apply Hsk. set_solver. }
      exists s2. split; [change (length (i :: A) + k)%nat with (S (length A + k)); by rewrite (next_loop_step _ s i (A ++ B) W P s1)|].
      assert (is_waiting_key (P i) = false) as Hk by (apply not_blocked in Hb; tauto).
      cbn [runnable key_waiters List.filter]. rewrite Hb, Hk. cbn [negb].
      rewrite (runnable_ext P1 P A HP1), (key_waiters_ext P1 P A HP1), <- app_assoc in Hv2.
      apply view_ext with (recharged A P1); [|exact Hv2].
      intros j _. unfold recharged, P1. destruct (decide (j = i)) as [->|].
      * rewrite decide_False by set_solver. by rewrite decide_True by set_solver.
      * destruct (decide (j ∈ A)); [by rewrite decide_True by set_solver|]. by rewrite decide_False by set_solver.
Qed.

(** The longest prefix of [L] the loop passes over. *)
Fixpoint passed (P : Z -> process) (L : list Z) : list Z :=
  match L with [] => [] | i :: L => if skipped (P i) then i :: passed P L else [] end.

(** The ready queue after the choice: what was passed over and may run goes to the end. *)
Definition rotated (P : Z -> process) (L : list Z) : list Z := drop (length (passed P L)) L ++ runnable P (passed P L).

(** A tick of the quantum is used. *)
Definition spend (p : process) : process := set_quantum p (quantum p -u CLOCK_TICK_MS).

Lemma passed_split P L :
  exists B, L = passed P L ++ B /\ drop (length (passed P L)) L = B /\
    (forall i, i ∈ passed P L -> skipped (P i) = true) /\ (forall i, head B = Some i -> skipped (P i) = false).
Proof.
  induction L as [|i L (B & HL & HB & Hp & Hh)]; [by exists []; split_and!; [..|set_solver|]|]. simpl.
  destruct (skipped (P i)) eqn:Hs.
  - exists B. simpl. split_and!; [congruence|done| |done]. intros j [->|Hj]%elem_of_cons; auto.
  - exists (i :: L). split_and!; [done|done|set_solver|]. intros j [= <-]. done.
Qed.

Lemma recharged_flags A P i : flags (recharged A P i) = flags (P i).
Proof. unfold recharged. by destruct (decide (i ∈ A)). Qed.

Lemma blocked_flags p q : flags p = flags q -> blocked p = blocked q.
Proof. unfold blocked, is_waiting_key, is_waiting_program, is_sleeping, is_waiting_read, has_flag. by intros ->. Qed.

Lemma live_flags p q : flags p = flags q -> live p -> live q.
Proof. unfold live, is_terminated, exec_running, has_flag. by intros ->. Qed.

Lemma elem_of_runnable P L i : i ∈ runnable P L <-> i ∈ L /\ blocked (P i) = false.
Proof. unfold runnable. rewrite !list_elem_of_In, List.filter_In, negb_true_iff. done. Qed.

(** The process at the head of the rotated queue may run. *)
Lemma rotated_head P L i L' :
  (forall j, j ∈ L -> 0 < priority (P j) * CLOCK_TICK_MS < 4294967296) -> rotated P L = i :: L' ->
  i ∈ L /\ blocked (recharged (passed P L) P i) = false /\ quantum (recharged (passed P L) P i) <> 0.
Proof.
  intros Hprio Hrot. unfold rotated in Hrot. destruct (passed_split P L) as (B & HL & HB & Hp & Hh). rewrite HB in Hrot.
  rewrite (blocked_flags _ (P i)) by apply recharged_flags. destruct B as [|b B]; simplify_eq/=.
  - rewrite app_nil_r in HL. assert (i ∈ runnable P (passed P L)) as [Hi Hb]%elem_of_runnable by (rewrite Hrot; set_solver).
    assert (i ∈ L) as HiL by (rewrite HL; done). split_and!; [done|done|]. unfold recharged. rewrite decide_True by done.
    specialize (Hprio i HiL). unfold RESET_QUANTUM. simpl. rewrite u32_id by (unfold is_u32; lia). lia.
  - assert (i ∈ L) as HiL by (rewrite HL; set_solver). specialize (Hh i eq_refl). unfold skipped in Hh.
    apply orb_false_iff in Hh as [Hb Hq%Z.eqb_neq]. split_and!; [done|done|]. unfold recharged.
    destruct (decide (i ∈ passed P L)) as [Hi|]; [|done]. specialize (Hp i Hi). unfold skipped in Hp. by rewrite Hb, (proj2 (Z.eqb_neq _ _) Hq) in Hp.
Qed.

Lemma NoDup_rotate (A B : list Z) P : NoDup (A ++ B) -> NoDup (B ++ runnable P A).
Proof.
  rewrite !NoDup_app. intros (HA & HAB & HB). split_and!; [done| |by apply NoDup_ListNoDup, List.NoDup_filter, NoDup_ListNoDup].
  intros i Hi [Hi' _]%elem_of_runnable. by apply (HAB i).
Qed.

Lemma rotated_nil P L : rotated P L = [] <-> runnable P L = [].
Proof.
  unfold rotated. destruct (passed_split P L) as (B & HL & HB & Hp & Hh). rewrite HB. split.
  - intros [-> HA]%app_eq_nil. rewrite app_nil_r in HL. congruence.
  - intros Hr. destruct B as [|b B].
    + rewrite app_nil_r in HL. simpl. congruence.
    + specialize (Hh b eq_refl). unfold skipped in Hh. apply orb_false_iff in Hh as [Hb _].
      assert (b ∈ runnable P L) as Hin by (apply elem_of_runnable; split; [rewrite HL; set_solver|done]). rewrite Hr in Hin. set_solver.
Qed.

(** A loop that starts at a process that may run chooses it. *)
Lemma next_loop_pick k s i L W P :
  view s (i :: L) W P -> NoDup (i :: L) -> live (P i) -> blocked (P i) = false -> quantum (P i) <> 0 ->
  exists s' l, next_loop k s = Ok (s', Some l) /\ view s' (i :: L) W (fun j => if decide (j = i) then spend (P i) else P j) /\
    proc_at s' i = Ok (l, spend (P i)) /\ running_process s' = i.
Proof.
  intros Hv Hnd Hl Hb Hq. destruct (round_pick s i L W P Hv Hnd Hl Hb Hq) as (s' & l & Hr & Hv' & Hp & Hrun).
  exists s', l. split; [|done]. pose proof Hv as (Hrep & _ & _).
  assert (Queue.empty (ready_queue s) = false) as He.
  { destruct Hrep as (_ & Hlen & _). unfold Queue.empty. simpl in Hlen. apply Z.eqb_neq. lia. }
  destruct k; cbn [next_loop]; rewrite He, (Queue.getFirst_rep _ _ _ _ Hrep); run; by rewrite Hr.
Qed.

Lemma next_loop_empty k s W P : view s [] W P -> next_loop k s = Ok (s, None).
Proof.
  intros ((_ & Hlen & _) & _). assert (Queue.empty (ready_queue s) = true) as He.
  { unfold Queue.empty. simpl in Hlen. apply Z.eqb_eq. lia. }
  destruct k; cbn [next_loop]; by rewrite He.
Qed.

(** Claim C4: [get_next_process] is round robin, and returns, on a ready queue [L] of distinct live processes (neither terminated nor in the middle
    of an [exec]) whose priorities are positive with a quantum that fits 32 bits, with at most 32 processes in the two queues: it passes over the
    processes that are blocked (they leave the queue, those waiting for a key join the waiting queue) and those whose quantum is
    used up (they go to the end of the queue with a new quantum), and chooses the process then at the head, which loses one
    tick of its quantum and stays there; for such a queue it answers null exactly when every process in it is blocked.  Terminated processes
    in the queue are the subject of [waited_child_is_reaped] and [exec_switch_reads_deleted]. *)
Theorem get_next_process_round_robin s L W P :
  view s L W P -> NoDup L -> (length L + length W <= 32)%nat ->
  (forall i, i ∈ L -> live (P i) /\ 0 < priority (P i) * CLOCK_TICK_MS < 4294967296) ->
  let A := passed P L in
  let P' := recharged A P in
  exists s' o, get_next_process s = Ok (s', o) /\ (o = None <-> runnable P L = []) /\
    match rotated P L with
    | [] => o = None /\ view s' [] (W ++ key_waiters P A) P'
    | i :: _ =>
        running_process s' = i /\ blocked (P i) = false /\ (exists l, o = Some l /\ proc_at s' i = Ok (l, spend (P' i))) /\
        view s' (rotated P L) (W ++ key_waiters P A) (fun j => if decide (j = i) then spend (P' i) else P' j)
    end.
Proof.
  intros Hv Hnd Hlen HL A P'. destruct (passed_split P L) as (B & HLs & HB & Hp & Hh). fold A in HLs, HB, Hp.
  assert (forall j, j ∈ L -> 0 < priority (P j) * CLOCK_TICK_MS < 4294967296) as Hprio by (intros; by apply HL).
  assert (length A <= 32)%nat as HA by (apply (f_equal length) in HLs; rewrite length_app in HLs; lia).
  unfold get_next_process. set (s0 := set_running s MAX_PROCESSES).
  assert (view s0 (A ++ B) W P) as Hv0 by (rewrite <- HLs; exact Hv).
  destruct (next_loop_prefix A (65 - length A) s0 B W P Hv0) as (s1 & Hs1 & Hv1); [by rewrite <- HLs..| |].
  { intros i Hi. split; [apply HL; rewrite HLs; set_solver|by apply Hp]. }
  replace (length A + (65 - length A))%nat with 65%nat in Hs1 by lia. rewrite Hs1.
  assert (rotated P L = B ++ runnable P A) as Hrot by (unfold rotated; fold A; by rewrite HB).
  rewrite <- Hrot in Hv1. pose proof (rotated_nil P L) as Hnil. destruct (rotated P L) as [|i L'] eqn:Hr.
  - exists s1, None. rewrite (next_loop_empty _ _ _ _ Hv1). split_and!; try done. split; [intros _; by apply Hnil|done].
  - destruct (rotated_head P L i L' Hprio Hr) as (HiL & Hb & Hq). fold A P' in Hb, Hq.
    destruct (next_loop_pick (65 - length A) s1 i L' _ P' Hv1) as (s2 & l & Hl & Hv2 & Hp2 & Hrun).
    + rewrite Hrot. apply NoDup_rotate. by rewrite <- HLs.
    + apply (live_flags (P i)); [symmetry; exact (recharged_flags A P i)|by apply HL].
    + done.
    + done.
    + exists s2, (Some l). split_and!; [done|split; [done|intros H; by apply Hnil in H]|done|rewrite (blocked_flags _ (P' i)); [done|symmetry; exact (recharged_flags A P i)]|by exists l|done].
Qed.

(** Three processes: the first has used its quantum, the second waits for a key. *)
Definition some_process (i q f : Z) : process := mkProcess q 2 i i f 0 None false false false [] [] 0 0.
Definition some_processes (i : Z) : process :=
  if i =? 1 then some_process 1 0 0 else if i =? 2 then some_process 2 20 P_WAITING_KEY else some_process 3 20 0.
Definition some_sched (ready waiting : list Z) : sched :=
  mkSched {[1%positive := some_processes 1; 2%positive := some_processes 2; 3%positive := some_processes 3]}
    ([None; Some 1%positive; Some 2%positive; Some 3%positive] ++ replicate 28 None) 15 MAX_PROCESSES
    (Queue.mkQueue (ready ++ replicate (32 - length ready) 0) (Z.of_nat (length ready)) 0)
    (Queue.mkQueue (waiting ++ replicate (32 - length waiting) 0) (Z.of_nat (length waiting)) 0)
    (MinHeap.mkHeap (replicate 32 (1%positive, 0)) 0 32) [].

Lemma flat_queue (xs : list Z) :
  (length xs <= 32)%nat ->
  Queue.rep MAX_PROCESSES (Queue.mkQueue (xs ++ replicate (32 - length xs) 0) (Z.of_nat (length xs)) 0) xs.
Proof.
  intros Hl. split_and!; unfold Queue.inv, MAX_PROCESSES; simpl; try (rewrite ?length_app, ?length_replicate; lia).
  intros i Hi. rewrite Z.mod_small by lia. by rewrite lookup_app_l by lia.
Qed.

Lemma some_view : view (some_sched [1; 2; 3] []) [1; 2; 3] [] some_processes.
Proof.
  split_and!; [apply (flat_queue [1; 2; 3]); simpl; lia|apply (flat_queue []); simpl; lia|].
  intros i Hi. rewrite !elem_of_cons in Hi. destruct Hi as [->|[->|[->|Hi]]]; [..|set_solver]; (split; [done|]);
    [exists 1%positive|exists 2%positive|exists 3%positive]; vm_compute; done.
Qed.

Lemma get_next_process_round_robin_witness :
  rotated some_processes [1; 2; 3] = [3; 1] /\
  exists s' o, get_next_process (some_sched [1; 2; 3] []) = Ok (s', o) /\ running_process s' = 3.
Proof.
  split; [by vm_compute|].
  destruct (get_next_process_round_robin (some_sched [1; 2; 3] []) [1; 2; 3] [] some_processes some_view) as (s' & o & Hs & _ & H).
  - repeat constructor; set_solver.
  - simpl. lia.
  - intros i Hi. rewrite !elem_of_cons in Hi. destruct Hi as [->|[->|[->|Hi]]]; [..|set_solver]; vm_compute; done.
  - exists s', o. split; [done|]. assert (rotated some_processes [1; 2; 3] = [3; 1]) as E by by vm_compute. rewrite E in H. by destruct H.
Defined.

(** ** Key presses *)

(** The processes of [L] are in the array, pid [i] being [P i]. *)
Definition procs (s : sched) (L : list Z) (P : Z -> process) : Prop :=
  forall i, i ∈ L -> pid (P i) = i /\ exists l, proc_at s i = Ok (l, P i).

Lemma procs_put s L P i l p' :
  procs s L P -> i ∈ L -> proc_at s i = Ok (l, P i) -> pid p' = i ->
  procs (put s l p') L (fun j => if decide (j = i) then p' else P j).
Proof.
  intros H Hi Hl Hp' j Hj. destruct (H j Hj) as [Hpj [lj Hlj]]. rewrite (proc_at_put _ _ _ _ l p' Hlj).
  destruct (decide (j = i)) as [->|Hne].
  - split; [done|]. exists lj. assert (l = lj) as -> by congruence. by rewrite decide_True.
  - split; [done|]. exists lj. rewrite decide_False; [done|]. intros ->.
    apply proc_at_obj in Hl, Hlj. rewrite Hl in Hlj. injection Hlj as E. destruct (H i Hi) as [Hpi _]. congruence.
Qed.

Definition woken (key : Z) (p : process) : process := clear_flag (set_eax p key) P_WAITING_KEY.

Lemma wake_key_loop_spec key fuel : forall s i R W P L,
  Queue.rep MAX_PROCESSES (ready_queue s) R -> Queue.rep MAX_PROCESSES (waiting_queue s) W -> procs s L P ->
  W ⊆ L -> NoDup W -> (length R + length W <= 32)%nat -> (length W <= fuel)%nat -> 0 <= i <= Z.of_nat (length W) + 1 ->
  let h := Z.to_nat ((Z.of_nat (length W) - i + 1) / 2) in
  exists s', wake_key_loop fuel s i key = Ok s' /\
    Queue.rep MAX_PROCESSES (ready_queue s') (R ++ take h W) /\ Queue.rep MAX_PROCESSES (waiting_queue s') (drop h W) /\
    procs s' L (fun j => if decide (j ∈ take h W) then woken key (P j) else P j).
Proof.
  induction fuel as [|fuel IH]; intros s i R W P L HR HW HP Hsub Hnd Hlen Hf Hi h; pose proof HW as (_ & Hc & _).
  - destruct W; [|simpl in Hf; lia]. cbn [length] in Hc. cbn [wake_key_loop]. unfold Queue.getCount. rewrite <- Hc.
    destruct (Z.ltb_spec i (Z.of_nat 0)); [lia|]. exists s. rewrite take_nil, drop_nil, app_nil_r. do 3 (split; [done|]).
    intros j Hj. rewrite decide_False by set_solver. by apply HP.
  - cbn [wake_key_loop]. unfold Queue.getCount. rewrite <- Hc. destruct (Z.ltb_spec i (Z.of_nat (length W))) as [Hlt|Hge].
    + destruct W as [|w W]; [simpl in Hlt; lia|]. simpl in Hlt, Hlen, Hf, Hi. apply NoDup_cons in Hnd as [Hw Hnd].
      destruct (Queue.dequeue_rep _ _ _ _ HW) as (q & Hq & HW'). unfold dequeue_waiting. rewrite Hq. run.
      destruct (HP w ltac:(set_solver)) as [Hpw [l Hl]].
      assert (proc_at (enqueue_ready (set_waiting s q) w) w = Ok (l, P w)) as Hl' by exact Hl. rewrite Hl'. run.
      assert (length R < 32)%nat as HRl by lia.
      assert (procs (enqueue_ready (set_waiting s q) w) L P) as HP1 by exact HP.
      pose proof (procs_put _ _ _ w l (woken key (P w)) HP1 ltac:(set_solver) Hl' Hpw) as HP2.
      replace h with (S (Z.to_nat ((Z.of_nat (length W) - (i + 1) + 1) / 2))).
      2:{ unfold h. simpl length. replace (Z.of_nat (S (length W)) - i + 1) with (Z.of_nat (length W) - (i + 1) + 1 + 1 * 2) by lia.
          rewrite Z.div_add by lia. rewrite Z2Nat.inj_add; [lia| |lia]. apply Z.div_pos; lia. }
      set (s1 := put _ _ _). set (P1 := fun j => _) in HP2.
      destruct (IH s1 (i + 1) (R ++ [w]) W P1 L) as (s2 & Hs2 & HR2 & HW2 & HP3);
        [by apply room|done|done|set_solver|done|rewrite length_app; simpl; lia|lia|lia|].
      exists s2. cbn [take drop]. rewrite <- app_assoc in HR2. split_and!; [done|done|done|].
      set (h' := Z.to_nat ((Z.of_nat (length W) - (i + 1) + 1) / 2)) in *. assert (w ∉ take h' W) as Hnt by (intros Ht; apply Hw; by apply (subseteq_take h' W)).
      intros j Hj. specialize (HP3 j Hj). unfold P1 in HP3. cbv beta in HP3. destruct (decide (j = w)) as [->|Hne].
      * rewrite (decide_False (P := w ∈ take h' W)) in HP3 by exact Hnt. by rewrite decide_True by set_solver.
      * destruct (decide (j ∈ take h' W)); [by rewrite decide_True by set_solver|by rewrite decide_False by set_solver].
    + assert (h = 0%nat) as ->.
      { unfold h. rewrite (Z.div_small _ 2); [done|]. lia. }
      exists s. rewrite app_nil_r, drop_0. do 3 (split; [done|]).
      intros j Hj. rewrite decide_False by set_solver. by apply HP.
Qed.

(** A key press wakes only half of the processes that wait for one: of the [n] in the waiting
    queue the oldest [(n + 1) / 2] get the key, lose their flag and join the ready queue, the others
    go on waiting, because the loop compares a rising index with the shrinking length. *)
Theorem key_press_wakes_half s R W P key :
  Queue.rep MAX_PROCESSES (ready_queue s) R -> Queue.rep MAX_PROCESSES (waiting_queue s) W -> procs s W P ->
  NoDup W -> (length R + length W <= 32)%nat ->
  let h := ((length W + 1) / 2)%nat in
  exists s', wake_up_key_waiting_processes s key = Ok s' /\
    Queue.rep MAX_PROCESSES (ready_queue s') (R ++ take h W) /\ Queue.rep MAX_PROCESSES (waiting_queue s') (drop h W) /\
    procs s' W (fun j => if decide (j ∈ take h W) then woken key (P j) else P j).
Proof.
  intros HR HW HP Hnd Hlen h. pose proof HW as (_ & Hc & _). unfold wake_up_key_waiting_processes, Queue.getCount.
  destruct (wake_key_loop_spec key (Z.to_nat (Queue.count (waiting_queue s))) s 0 R W P W) as (s' & Hs' & H); [done..|lia|lia|].
  exists s'. split; [done|]. replace (Z.to_nat _) with h in H; [done|]. unfold h.
  rewrite Z2Nat.inj_div by lia. f_equal. lia.
Qed.

Lemma key_press_wakes_half_witness :
  exists s', wake_up_key_waiting_processes (some_sched [3] [2; 1]) 65 = Ok s' /\
    Queue.rep MAX_PROCESSES (ready_queue s') [3; 2] /\ Queue.rep MAX_PROCESSES (waiting_queue s') [1].
Proof.
  destruct (key_press_wakes_half (some_sched [3] [2; 1]) [3] [2; 1] some_processes 65) as (s' & Hs' & HR & HW & _).
  - apply (flat_queue [3]). simpl. lia.
  - apply (flat_queue [2; 1]). simpl. lia.
  - intros i Hi. rewrite !elem_of_cons in Hi. destruct Hi as [->|[->|Hi]]; [..|set_solver]; (split; [done|]);
      [exists 2%positive|exists 1%positive]; vm_compute; done.
  - repeat constructor; set_solver.
  - simpl. lia.
  - by exists s'.
Defined.

(** ** Sleepers *)

(** What [delete_min] removes is what [min] shows. *)
Lemma delete_min_is_min (H H' : MinHeap.heap (loc * Z)) x :
  MinHeap.delete_min snd H = Ok (H', x) -> MinHeap.min H = Ok x.
Proof.
  unfold MinHeap.delete_min, MinHeap.min. destruct (MinHeap.count H =? 0); [done|].
  destruct (MinHeap.at_ (MinHeap.elements H) 0) as [m| | |]; run; try done.
  destruct (MinHeap.at_ (MinHeap.elements H) _) as [y| | |]; run; try done.
  destruct (MinHeap.min_heapify _ _ _ _ _) as [e| | |]; run; try done. by intros [= _ <-].
Qed.

(** The sleepers [xs] are objects of the array, under the pids [N]. *)
Definition asleep (s : sched) (N : loc -> Z) (xs : list (loc * Z)) : Prop :=
  forall x, x ∈ xs -> exists p, objects s !! x.1 = Some p /\ pid p = N x.1 /\ slot s (N x.1) = Ok (Some x.1).

Lemma asleep_obj s N xs x : asleep s N xs -> x ∈ xs -> exists p, obj s (Some x.1) = Ok (x.1, p) /\ objects s !! x.1 = Some p /\ pid p = N x.1 /\ proc_at s (N x.1) = Ok (x.1, p).
Proof.
  intros H Hx. destruct (H x Hx) as (p & Ho & Hp & Hs). exists p.
  assert (obj s (Some x.1) = Ok (x.1, p)) as E by (unfold obj; by rewrite Ho).
  split_and!; [done..|]. unfold proc_at. rewrite Hs. run. done.
Qed.

(** The objects after those of [ws] have been woken. *)
Definition after_sleep (ws : list (loc * Z)) (l : loc) (p : process) : process :=
  if decide (l ∈ ws.*1) then clear_flag p P_SLEEPING else p.

(** The loop stops at once on an empty heap, or when the first sleeper is not due. *)
Lemma nobody_wakes tick N fuel s R :
  MinHeap.inv snd (sleeping_processes s) -> Queue.rep MAX_PROCESSES (ready_queue s) R ->
  MinHeap.count (sleeping_processes s) = 0 \/
  (exists x, MinHeap.min (sleeping_processes s) = Ok x /\ tick < x.2 /\ Forall (fun x => tick < x.2) (MinHeap.contents (sleeping_processes s))) ->
  exists s' ws, wake_sleepers fuel s tick = Ok s' /\ MinHeap.inv snd (sleeping_processes s') /\
    MinHeap.contents (sleeping_processes s) ≡ₚ ws ++ MinHeap.contents (sleeping_processes s') /\
    StronglySorted (fun a b => a.2 <= b.2) ws /\ Forall (fun x => x.2 <= tick) ws /\
    Forall (fun x => tick < x.2) (MinHeap.contents (sleeping_processes s')) /\
    Queue.rep MAX_PROCESSES (ready_queue s') (R ++ map N (ws.*1)) /\
    (forall l p, objects s !! l = Some p -> objects s' !! l = Some (after_sleep ws l p)).
Proof.
  intros Hinv HR Hcase. exists s, []. rewrite app_nil_r. split_and!; try done; try (constructor; fail).
  - destruct fuel; cbn [wake_sleepers]; unfold MinHeap.empty.
    all: destruct Hcase as [->|(x & Hx & Hlt & _)]; [done|]; destruct (_ =? 0); [done|]; rewrite Hx; run.
    all: by rewrite (proj2 (Z.leb_gt _ _) Hlt).
  - destruct Hcase as [H0|(x & _ & _ & H)]; [|done]. unfold MinHeap.contents, MinHeap.live. by rewrite H0.
Qed.

Lemma wake_sleepers_spec tick N fuel : forall s R,
  MinHeap.inv snd (sleeping_processes s) -> asleep s N (MinHeap.contents (sleeping_processes s)) ->
  NoDup ((MinHeap.contents (sleeping_processes s)).*1) -> Queue.rep MAX_PROCESSES (ready_queue s) R ->
  (length R + length (MinHeap.contents (sleeping_processes s)) <= 32)%nat -> (Z.to_nat (MinHeap.count (sleeping_processes s)) <= fuel)%nat ->
  exists s' ws, wake_sleepers fuel s tick = Ok s' /\ MinHeap.inv snd (sleeping_processes s') /\
    MinHeap.contents (sleeping_processes s) ≡ₚ ws ++ MinHeap.contents (sleeping_processes s') /\
    StronglySorted (fun a b => a.2 <= b.2) ws /\ Forall (fun x => x.2 <= tick) ws /\
    Forall (fun x => tick < x.2) (MinHeap.contents (sleeping_processes s')) /\
    Queue.rep MAX_PROCESSES (ready_queue s') (R ++ map N (ws.*1)) /\
    (forall l p, objects s !! l = Some p -> objects s' !! l = Some (after_sleep ws l p)).
Proof.
  induction fuel as [|fuel IH]; intros s R Hinv Hasl Hnd HR Hlen Hf;
    (destruct (decide (MinHeap.count (sleeping_processes s) = 0)) as [H0|H0]; [apply nobody_wakes; try done; by left|]);
    pose proof Hinv as (_ & Hc & _); [lia|].
  destruct (MinHeap.delete_min_spec snd (sleeping_processes s) Hinv) as (H' & x & Hd & Hinv' & Hperm & Hle & Hc' & _); [lia|].
  pose proof (delete_min_is_min _ _ _ Hd) as Hmin.
  destruct (decide (x.2 <= tick)) as [Hx|Hx].
  2:{ apply nobody_wakes; try done. right. exists x. split_and!; [done|lia|]. apply Forall_forall. intros y Hy.
      rewrite Forall_forall in Hle. specialize (Hle y Hy). lia. }
  assert (x ∈ MinHeap.contents (sleeping_processes s)) as Hin by (rewrite Hperm; set_solver).
  destruct (asleep_obj _ _ _ _ Hasl Hin) as (p & Hobj & Ho & Hpid & Hat).
  set (s1 := set_sleeping (put (enqueue_ready s (N x.1)) x.1 (clear_flag p P_SLEEPING)) H').
  assert (wake_sleepers (S fuel) s tick = wake_sleepers fuel s1 tick) as ->.
  { cbn [wake_sleepers]. unfold MinHeap.empty. rewrite (proj2 (Z.eqb_neq _ _) H0), Hmin. run.
    rewrite (proj2 (Z.leb_le _ _) Hx), Hobj. run. rewrite Hpid.
    assert (proc_at (enqueue_ready s (N x.1)) (N x.1) = Ok (x.1, p)) as -> by exact Hat. run.
    assert (sleeping_processes (put (enqueue_ready s (N x.1)) x.1 (clear_flag p P_SLEEPING)) = sleeping_processes s) as -> by done.
    rewrite Hd. run. done. }
  assert (NoDup (x.1 :: (MinHeap.contents H').*1)) as Hnd1 by (by rewrite <- (fmap_cons fst x (MinHeap.contents H')), <- Hperm).
  apply NoDup_cons in Hnd1 as [Hx1 Hnd1].
  rewrite Hperm in Hlen. cbn [length] in Hlen.
  destruct (IH s1 (R ++ [N x.1])) as (s' & ws & Hs' & Hi' & Hp' & Hsort & Hle' & Hgt & HR' & Hobjs); [done| |done|apply room; [done|lia]| |simpl; lia|].
  { intros y Hy. assert (y ∈ MinHeap.contents (sleeping_processes s)) as Hy' by (rewrite Hperm; set_solver).
    destruct (Hasl y Hy') as (q & Hq & Hqp & Hqs). exists q. split_and!; [|done|exact Hqs].
    unfold s1. simpl. rewrite lookup_insert_ne; [done|]. intros E. apply Hx1. rewrite E. by apply list_elem_of_fmap_2. }
  { rewrite length_app. simpl. lia. }
  exists s', (x :: ws). simpl in Hp'. split_and!; try done.
  - by rewrite Hperm, Hp'.
  - constructor; [done|]. rewrite Hperm, Hp' in Hle. apply Forall_cons in Hle as [_ Hle]. by apply Forall_app in Hle as [Hle _].
  - by constructor.
  - by rewrite <- app_assoc in HR'.
  - intros l q Hq. assert (x.1 ∉ ws.*1) as Hxw.
    { intros Hw. apply Hx1. rewrite Hp', fmap_app. set_solver. }
    unfold after_sleep. rewrite fmap_cons. destruct (decide (l = x.1)) as [->|Hne].
    + rewrite (Hobjs x.1 (clear_flag p P_SLEEPING)) by (unfold s1; simpl; by rewrite lookup_insert_eq).
      unfold after_sleep. rewrite decide_False by done. rewrite decide_True by set_solver. congruence.
    + rewrite (Hobjs l q) by (unfold s1; simpl; by rewrite lookup_insert_ne). unfold after_sleep.
      destruct (decide (l ∈ ws.*1)); [by rewrite decide_True by set_solver|by rewrite decide_False by set_solver].
Qed.

(** Claim C33. [check_for_processes_to_wake_up] returns, and wakes exactly the sleepers whose time has come: they
    leave the heap, join the ready queue in the order of their wake-up ticks and lose their flag;
    every other process is as it was. *)
Theorem sleepers_wake_in_order s R N tick :
  MinHeap.inv snd (sleeping_processes s) -> asleep s N (MinHeap.contents (sleeping_processes s)) ->
  NoDup ((MinHeap.contents (sleeping_processes s)).*1) -> Queue.rep MAX_PROCESSES (ready_queue s) R ->
  (length R + length (MinHeap.contents (sleeping_processes s)) <= 32)%nat ->
  exists s' ws, check_for_processes_to_wake_up s tick = Ok s' /\
    MinHeap.contents (sleeping_processes s) ≡ₚ ws ++ MinHeap.contents (sleeping_processes s') /\
    StronglySorted (fun a b => a.2 <= b.2) ws /\ Forall (fun x => x.2 <= tick) ws /\
    Forall (fun x => tick < x.2) (MinHeap.contents (sleeping_processes s')) /\
    Queue.rep MAX_PROCESSES (ready_queue s') (R ++ map N (ws.*1)) /\
    (forall l p, objects s !! l = Some p -> objects s' !! l = Some (after_sleep ws l p)).
Proof.
  intros Hinv Hasl Hnd HR Hlen. unfold check_for_processes_to_wake_up.
  destruct (wake_sleepers_spec tick N _ s R Hinv Hasl Hnd HR Hlen (le_n _)) as (s' & ws & Hs & _ & H). by exists s', ws.
Qed.

(** The pids of the objects of [some_sched]; two of its processes sleep. *)
Definition some_sleep : sched :=
  set_sleeping (some_sched [2] []) (MinHeap.mkHeap ([(3%positive, 5); (1%positive, 9)] ++ replicate 30 (1%positive, 0)) 2 32).

Lemma sleepers_wake_in_order_witness :
  exists s' ws, check_for_processes_to_wake_up some_sleep 7 = Ok s' /\
    [(3%positive, 5); (1%positive, 9)] ≡ₚ ws ++ MinHeap.contents (sleeping_processes s') /\ Forall (fun x => x.2 <= 7) ws.
Proof.
  destruct (sleepers_wake_in_order some_sleep [2] Zpos 7) as (s' & ws & Hs & Hp & _ & Hle & _).
  - split_and!; simpl; try lia. intros i Hi. simpl in Hi. assert (i = 1) as -> by lia. by vm_compute.
  - intros x Hx. assert (x = (3%positive, 5) \/ x = (1%positive, 9)) as [-> | ->] by (vm_compute in Hx; set_solver);
      eexists; split_and!; vm_compute; done.
  - vm_compute. repeat constructor; set_solver.
  - apply (flat_queue [2]). simpl. lia.
  - vm_compute. lia.
  - exists s', ws. split_and!; [done|exact Hp|done].
Defined.

(** ** Termination *)

(** The parent a terminated child wakes up. *)
Definition reaped_parent (child par : process) : process :=
  let w := if truthy (esi par) then set_values par (values_to_write par ++ [(esi par, ret_status child)]) else par in
  let w := set_eax (clear_flag w P_WAITING_PROCESS) (pid child) in
  let w := set_children w (remove_first (pid child) (children w)) in
  set_waits w false (is_waited_by_parent w).

Lemma slot_lookup s i o : slot s i = Ok o <-> 0 <= i /\ processes s !! Z.to_nat i = Some o.
Proof.
  unfold slot. destruct (Z.leb_spec 0 i); [|split; [done|lia]]. destruct (processes s !! Z.to_nat i); simpl; [|split; [done|by intros [_ ?]]].
  split; [intros [= ->]; done|by intros [_ [= ->]]].
Qed.

Lemma proc_at_spec s i l p : proc_at s i = Ok (l, p) <-> (0 <= i /\ processes s !! Z.to_nat i = Some (Some l)) /\ objects s !! l = Some p.
Proof.
  rewrite <- slot_lookup. unfold proc_at. split.
  - destruct (slot s i) as [[l'|]| | |]; run; try done. unfold obj. destruct (objects s !! l') eqn:E; [|done]. by intros [= <- <-].
  - intros [-> Ho]. run. unfold obj. by rewrite Ho.
Qed.

Lemma obj_at s l p : objects s !! l = Some p -> obj s (Some l) = Ok (l, p).
Proof. unfold obj. by intros ->. Qed.

(** [wake_up_process_parent], on a parent that is not running. *)
Lemma wake_parent_spec s c l p pl par :
  proc_at s c = Ok (l, p) -> proc_at s (ppid p) = Ok (pl, par) -> ppid p <> running_process s ->
  let w := if truthy (esi par) then set_values par (values_to_write par ++ [(esi par, ret_status p)]) else par in
  let w := set_eax (clear_flag w P_WAITING_PROCESS) c in
  wake_up_process_parent s c = Ok (put (enqueue_ready s (ppid p)) pl (set_children w (remove_first c (children w)))).
Proof.
  intros Hc Hp Hr. unfold wake_up_process_parent. rewrite Hc. run.
  apply proc_at_spec in Hp as [Hs Ho]. rewrite (proj2 (slot_lookup _ _ _) Hs). run.
  rewrite (proj2 (Z.eqb_neq _ _) Hr). cbv iota. cbn [negb]. by rewrite (obj_at (enqueue_ready s (ppid p)) pl par).
Qed.

(** [delete] of a process without children. *)
Lemma delete_spec s l p : objects s !! l = Some p -> children p = [] -> 
  exists s', delete_process s l = Ok s' /\ objects s' = delete l (objects s) /\ processes s' = processes s /\
    pid_pool s' = pid_pool s /\ ready_queue s' = ready_queue s.
Proof.
  intros Ho Hc. unfold delete_process, pre_free. rewrite (obj_at _ _ _ Ho). run.
  destruct (has_flag p P_TERMINATED); [|run; by eexists].
  rewrite (obj_at _ _ _ Ho). run. destruct (is_pre_freed p); run; [by eexists|]. rewrite Hc. rewrite bool_decide_eq_true_2 by done. simpl. eexists. split; [done|]. simpl. by rewrite delete_insert_eq.
Qed.

Lemma freed_waited_child s i l p pl par R :
  proc_at s i = Ok (l, p) -> pid p = i -> proc_at s (ppid p) = Ok (pl, par) -> ppid p <> i -> pl <> l -> running_process s = i ->
  has_flag p P_TERMINATED || has_flag p P_ZOMBIE = true -> exec_running p = false -> is_waited_by_parent p = true -> children p = [] ->
  Queue.rep MAX_PROCESSES (ready_queue s) R -> (length R < 32)%nat ->
  exists s', free_terminated_process s l = Ok s' /\
    objects s' !! l = None /\ slot s' i = Ok None /\ Z.testbit (pid_pool s') i = false /\
    Queue.rep MAX_PROCESSES (ready_queue s') (R ++ [ppid p]) /\
    proc_at s' (ppid p) = Ok (pl, reaped_parent p par) /\
    (forall k, k <> l -> k <> pl -> objects s' !! k = objects s !! k).
Proof.
  intros Hi Hpid Hpar Hne Hl Hrun Ht He Hw Hch HR Hlen.
  pose proof (proj1 (proc_at_spec _ _ _ _) Hi) as [[Hi0 Hsl] Ho].
  pose proof (proj1 (proc_at_spec _ _ _ _) Hpar) as [[Hp0 Hsp] Hop].
  assert (Z.to_nat i <> Z.to_nat (ppid p)) as Hidx by lia.
  unfold free_terminated_process. rewrite (obj_at _ _ _ Ho). run. rewrite Ht, He, Hw. run.
  rewrite Hpid, (wake_parent_spec s i l p pl par Hi Hpar) by congruence. run.
  set (w := set_children _ _). set (s1 := put _ pl w).
  rewrite (proj2 (proc_at_spec s1 (ppid p) pl w)) by (split; [done|apply lookup_insert_eq]). run.
  set (s2 := put s1 pl _). rewrite (obj_at s2 l p) by (simpl; by rewrite !lookup_insert_ne by done). run.
  set (s3 := put s2 l _). rewrite (obj_at s3 l _) by apply lookup_insert_eq. run. simpl children at 1. rewrite Hch. cbn [orphan_children]. run.
  rewrite (obj_at s3 l _) by apply lookup_insert_eq. run.
  set (s4 := put s3 l _). unfold set_slot. simpl pid. rewrite Hpid.
  rewrite (proj2 (slot_lookup (release_pid s4 i) i (Some l)) (conj Hi0 Hsl)). run.
  set (s5 := set_processes _ _). destruct (delete_spec s5 l _ ltac:(apply lookup_insert_eq) eq_refl) as (s' & -> & Hobj & Hproc & Hpool & Hq).
  exists s'. split; [done|]. rewrite Hobj, slot_lookup, proc_at_spec, Hproc, Hpool, Hq, Hobj.
  assert (forall k, k <> l -> objects s5 !! k = <[pl := reaped_parent p par]> (objects s) !! k) as Hk.
  { intros k Hk. simpl. rewrite !(lookup_insert_ne _ l k) by done. destruct (decide (k = pl)) as [->|].
    - rewrite !lookup_insert_eq. unfold reaped_parent. by rewrite Hpid.
    - by rewrite !lookup_insert_ne by done. }
  split_and!.
  - apply lookup_delete_eq.
  - done.
  - apply list_lookup_insert_eq. by eapply lookup_lt_Some.
  - simpl. rewrite Z.ldiff_spec, one_bit, Z.eqb_refl by lia. apply andb_false_r.
  - by apply room.
  - done.
  - simpl. by rewrite list_lookup_insert_ne by done.
  - rewrite lookup_delete_ne, Hk by done. apply lookup_insert_eq.
  - intros k H1 H2. rewrite lookup_delete_ne, Hk by done. by apply lookup_insert_ne.
Qed.

(** Claim C19: A terminated child without children of its own, which did not end by an [exec] and which another process, its parent, waits for by its pid, is
    reaped when it reaches the head of the ready queue: the object is deleted, its pid and its array slot are free again, and the parent,
    at the end of the ready queue, no longer waits, has the pid as the result of its call (and the exit status
    queued for the address it gave) and the child off its list.  All other processes stay as they are. *)
Theorem waited_child_is_reaped s i R l p pl par :
  Queue.rep MAX_PROCESSES (ready_queue s) (i :: R) -> proc_at s i = Ok (l, p) -> pid p = i ->
  proc_at s (ppid p) = Ok (pl, par) -> ppid p <> i -> pl <> l ->
  is_terminated p = true -> exec_running p = false -> is_waited_by_parent p = true -> children p = [] ->
  exists s', relinquish_first_ready_process s = Ok s' /\
    objects s' !! l = None /\ slot s' i = Ok None /\ Z.testbit (pid_pool s') i = false /\
    Queue.rep MAX_PROCESSES (ready_queue s') (R ++ [ppid p]) /\
    proc_at s' (ppid p) = Ok (pl, reaped_parent p par) /\
    (forall k, k <> l -> k <> pl -> objects s' !! k = objects s !! k).
Proof.
  intros HR Hi Hpid Hpar Hne Hl Ht He Hw Hch.
  unfold relinquish_first_ready_process. rewrite (Queue.getFirst_rep _ _ _ _ HR). run.
  assert (proc_at (set_running s i) i = Ok (l, p)) as -> by exact Hi. run.
  change (has_flag p P_EXEC) with (exec_running p). rewrite He. cbv iota. cbn [negb].
  destruct (Queue.dequeue_rep _ _ _ _ HR) as (q & Hq & HR').
  unfold dequeue_ready. assert (Queue.dequeue MAX_PROCESSES (ready_queue (set_running s i)) = Ok (q, i)) as -> by exact Hq. run.
  rewrite (proj2 (Z.eqb_neq (ppid p) (pid p))) by congruence.
  set (s1 := set_ready (set_running s i) q).
  assert (proc_at s1 (ppid p) = Ok (pl, par)) as Hpar1 by exact Hpar. rewrite Hpar1. run. rewrite Hw, andb_false_r. cbv iota. cbn [andb].
  destruct HR as ((_ & _ & Hc & _) & Hlen & _). unfold MAX_PROCESSES in Hc. simpl in Hlen.
  apply (freed_waited_child s1 i l p pl par R); try done; [by unfold is_terminated in Ht; rewrite Ht|lia].
Qed.

(** A parent that waits for its child, which has terminated. *)
Definition family : sched :=
  mkSched {[1%positive := mkProcess 20 2 1 1 P_WAITING_PROCESS 0 None false false false [2] [] 0 4096;
            2%positive := mkProcess 20 2 2 1 P_TERMINATED 7 None false false true [] [] 0 0]}
    ([None; Some 1%positive; Some 2%positive] ++ replicate 29 None) 7 MAX_PROCESSES
    (Queue.mkQueue ([2] ++ replicate 31 0) 1 0) (Queue.mkQueue (replicate 32 0) 0 0)
    (MinHeap.mkHeap (replicate 32 (1%positive, 0)) 0 32) [].

Lemma waited_child_is_reaped_witness :
  exists s', relinquish_first_ready_process family = Ok s' /\ slot s' 2 = Ok None /\
    Queue.rep MAX_PROCESSES (ready_queue s') [1].
Proof.
  destruct (waited_child_is_reaped family 2 [] 2%positive (mkProcess 20 2 2 1 P_TERMINATED 7 None false false true [] [] 0 0)
              1%positive (mkProcess 20 2 1 1 P_WAITING_PROCESS 0 None false false false [2] [] 0 4096))
    as (s' & Hs & _ & Hsl & _ & HR & _); try (vm_compute; done); [apply (flat_queue [2]); simpl; lia|].
  by exists s'.
Defined.

Lemma has_flag_set p i f : 0 <= i -> has_flag (set_flag p f) (Z.shiftl 1 i) = has_flag p (Z.shiftl 1 i) || Z.testbit f i.
Proof. intros Hi. unfold has_flag, set_flag. simpl. by rewrite !shift_bit, Z.lor_spec by done. Qed.

(** The switch to the program an [exec] has loaded reads the process object it has just deleted:
    when the process at the head of the ready queue runs [exec], [relinquish_first_ready_process]
    deletes it, and [processes[proc->pid] = replacement] then reads its pid. *)
Theorem exec_switch_reads_deleted s i R l p :
  Queue.rep MAX_PROCESSES (ready_queue s) (i :: R) -> proc_at s i = Ok (l, p) ->
  is_terminated p = false -> blocked p = false -> exec_running p = true ->
  (exists pl par, proc_at s (ppid p) = Ok (pl, par)) ->
  get_next_process s = Fault.
Proof.
  intros HR Hi Ht (Hk & Hpr & Hs & Hr)%not_blocked He (pl & par & Hpar).
  unfold get_next_process. cbn [next_loop]. set (s0 := set_running s MAX_PROCESSES).
  assert (Queue.empty (ready_queue s0) = false) as ->.
  { destruct HR as (_ & Hlen & _). unfold Queue.empty. simpl in *. apply Z.eqb_neq. lia. }
  rewrite (Queue.getFirst_rep _ (ready_queue s0) _ _ HR). run. unfold next_round.
  set (s1 := set_running s0 i). assert (proc_at s1 i = Ok (l, p)) as Hi1 by exact Hi. rewrite Hi1. run.
  rewrite Ht, Hk, Hpr, Hs, Hr, He. set (p1 := set_flag p P_TERMINATED). set (s2 := put s1 l p1).
  assert (exec_running p1 = true) as He1 by (unfold exec_running; change P_EXEC with (Z.shiftl 1 6); unfold p1; rewrite has_flag_set by done; unfold exec_running in He; change (Z.shiftl 1 6) with P_EXEC; by rewrite He).
  assert (has_flag p1 P_TERMINATED = true) as Ht1 by (change (has_flag p1 (Z.shiftl 1 0) = true); unfold p1; rewrite has_flag_set by done; apply orb_true_r).
  assert (obj s2 (Some l) = Ok (l, p1)) as Ho by (apply obj_at, lookup_insert_eq).
  assert (free_terminated_process s2 l = delete_process s2 l) as Hfree.
  { unfold free_terminated_process. rewrite Ho. run. rewrite Ht1, He1. done. }
  assert (relinquish_first_ready_process s2 = delete_process s2 l) as ->.
  { unfold relinquish_first_ready_process. rewrite (Queue.getFirst_rep _ (ready_queue s2) _ _ HR). run.
    assert (proc_at (set_running s2 i) i = Ok (l, p1)) as ->.
    { rewrite (proc_at_put s1 i l p l p1 Hi1 : proc_at (set_running s2 i) i = _). by rewrite decide_True. }
    run. change (has_flag p1 P_EXEC) with (exec_running p1). rewrite He1. run. cbn [negb].
    change (set_running s2 i) with s2. run. rewrite Hfree. destruct (_ =? _); [done|].
    assert (proc_at s2 (ppid p1) = Ok (pl, if decide (l = pl) then p1 else par)) as -> by (by apply (proc_at_put s1)). run.
    by rewrite andb_false_r. }
  assert (exists s3, delete_process s2 l = Ok s3 /\ objects s3 !! l = None) as (s3 & -> & Hnone).
  { unfold delete_process, pre_free. rewrite Ho. run. rewrite Ht1, Ho. run. rewrite He1, andb_false_r.
    destruct (is_pre_freed p1); run; eexists; (split; [done|]); apply lookup_delete_eq. }
  run. unfold obj. by rewrite Hnone.
Qed.

(** The same family, the child being about to run another program. *)
Definition exec_family : sched :=
  put family 2%positive (mkProcess 20 2 2 1 P_EXEC 0 (Some 3%positive) false false false [] [] 0 0).

Lemma exec_switch_reads_deleted_witness : get_next_process exec_family = Fault.
Proof.
  apply (exec_switch_reads_deleted exec_family 2 [] 2%positive (mkProcess 20 2 2 1 P_EXEC 0 (Some 3%positive) false false false [] [] 0 0));
    try (vm_compute; done); [apply (flat_queue [2]); simpl; lia|]. eexists 1%positive, _. vm_compute. done.
Defined.

(** Freeing a child nobody waits for leaves its parent as it is. *)
Lemma freed_unwaited_child s i l p pl par :
  proc_at s i = Ok (l, p) -> pid p = i -> proc_at s (ppid p) = Ok (pl, par) -> ppid p <> i -> pl <> l ->
  has_flag p P_TERMINATED || has_flag p P_ZOMBIE = true -> exec_running p = false -> is_waited_by_parent p = false -> children p = [] ->
  is_waiting_for_any_child_to_terminate par = false ->
  exists s', free_terminated_process s l = Ok s' /\ slot s' i = Ok None /\ proc_at s' (ppid p) = Ok (pl, par).
Proof.
  intros Hi Hpid Hpar Hne Hl Ht He Hw Hch Hany.
  pose proof (proj1 (proc_at_spec _ _ _ _) Hi) as [[Hi0 Hsl] Ho].
  pose proof (proj1 (proc_at_spec _ _ _ _) Hpar) as [[Hp0 Hsp] Hop].
  assert (Z.to_nat i <> Z.to_nat (ppid p)) as Hidx by lia.
  unfold free_terminated_process. rewrite (obj_at _ _ _ Ho). run. rewrite Ht, He, Hw. run.
  rewrite Hpar. run. rewrite Hany. run. rewrite (obj_at _ _ _ Ho). run. rewrite Hch. cbn [orphan_children]. run.
  rewrite (obj_at _ _ _ Ho). run. set (s4 := put s l _). unfold set_slot. rewrite Hpid.
  rewrite (proj2 (slot_lookup (release_pid s4 i) i (Some l)) (conj Hi0 Hsl)). run.
  set (s5 := set_processes _ _). destruct (delete_spec s5 l _ ltac:(apply lookup_insert_eq) eq_refl) as (s' & -> & Hobj & Hproc & _).
  exists s'. rewrite slot_lookup, proc_at_spec, Hproc, Hobj. split_and!; [done|done| |done| |].
  - apply list_lookup_insert_eq. by eapply lookup_lt_Some.
  - simpl. by rewrite list_lookup_insert_ne by done.
  - rewrite lookup_delete_ne by done. simpl. by rewrite lookup_insert_ne.
Qed.

(** A zombie child collected by [waitpid(-1)] stays on its parent's list, so that the next
    [waitpid(-1)], with no child left, puts the parent to sleep instead of answering [-ECHILD]. *)
Theorem reaped_zombie_still_counted ECHILD s w i l p pl par :
  proc_at s w = Ok (pl, par) -> children par = [i] -> is_waiting_for_any_child_to_terminate par = false ->
  proc_at s i = Ok (l, p) -> pid p = i -> ppid p = w -> w <> i -> pl <> l ->
  has_flag p P_ZOMBIE = true -> exec_running p = false -> is_waited_by_parent p = false -> children p = [] ->
  exists s1 s2 par2, register_process_wait ECHILD s w (-1) = Ok (s1, i) /\ slot s1 i = Ok None /\
    register_process_wait ECHILD s1 w (-1) = Ok (s2, 0) /\ proc_at s2 w = Ok (pl, par2) /\ is_waiting_program par2 = true.
Proof.
  intros Hw Hc Hany Hi Hpid Hppid Hne Hl Hz He Hwait Hch.
  assert (proc_at s (ppid p) = Ok (pl, par)) as Hpar by (by rewrite Hppid).
  destruct (freed_unwaited_child s i l p pl par Hi Hpid Hpar) as (s1 & Hs1 & Hslot & Hw1); try done; [by rewrite Hppid|by rewrite Hz, orb_true_r|].
  rewrite Hppid in Hw1. pose proof (proj1 (proc_at_spec _ _ _ _) Hi) as [Hsl Ho].
  unfold register_process_wait. rewrite Hw. run. rewrite Hc. cbn [find_zombie Z.eqb].
  rewrite (proj2 (slot_lookup _ _ _) Hsl). run. rewrite (obj_at _ _ _ Ho). run. rewrite Hz. run. rewrite Hs1. run. rewrite Hpid.
  eexists s1, _, _. split; [done|]. split; [done|]. rewrite Hw1. run. rewrite Hc. cbn [find_zombie Z.eqb]. rewrite Hslot. run. cbn [length Z.ltb].
  split; [done|]. split; [rewrite (proc_at_put _ _ _ _ pl _ Hw1), decide_True by done; done|].
  unfold is_waiting_program. change P_WAITING_PROCESS with (Z.shiftl 1 3). rewrite has_flag_set by done. apply orb_true_r.
Qed.

Definition zombie_family : sched :=
  put (put family 1%positive (mkProcess 20 2 1 1 0 0 None false false false [2] [] 0 4096))
    2%positive (mkProcess 20 2 2 1 (P_TERMINATED + P_ZOMBIE) 7 None true false false [] [] 0 0).

Lemma reaped_zombie_still_counted_witness :
  exists s1 s2 par2, register_process_wait 10 zombie_family 1 (-1) = Ok (s1, 2) /\
    register_process_wait 10 s1 1 (-1) = Ok (s2, 0) /\ proc_at s2 1 = Ok (1%positive, par2).
Proof.
  destruct (reaped_zombie_still_counted 10 zombie_family 1 2 2%positive (mkProcess 20 2 2 1 (P_TERMINATED + P_ZOMBIE) 7 None true false false [] [] 0 0)
    1%positive (mkProcess 20 2 1 1 0 0 None false false false [2] [] 0 4096)) as (s1 & s2 & par2 & H1 & _ & H2 & H3 & _); [by vm_compute..|].
  by exists s1, s2, par2.
Defined.


End Scheduler.
