(* ===== verification/FileTable.v ===== *)
(** * File descriptors ([file_management/VFS.cpp], [FileInterface.cpp], [processes/process.cpp])

    The system-wide table of open files, the descriptor table of a process that refers to it
    with reference counts, and the three implementations of [FileInterface]: files, terminals
    and pipes.  An open file is the only one in its slot and is deleted when the slot is
    cleared, so a pointer to one is the number of its slot.  Looking a path up, creating and
    truncating a file belong to the file systems: their answers are arguments.  The names of the
    [errno] values are kept, their numbers belong to the libc headers. *)

From stdpp Require Import base tactics numbers list gmap sets.
From S2P Require Import Prelude Containers.
Open Scope Z_scope.

Module FileTable.
Import CircularBuffer.

(** ** Data *)

Definition MAX_FD : Z := 100.
Definition MAX_FD_PER_PROCESS : Z := 20.
Definition BUF_SIZE : Z := 65536.
Definition SEEK_SET : Z := 0.
Definition SEEK_CUR : Z := 1.
Definition SEEK_END : Z := 2.

Inductive errno := EBADF | EMFILE | ENFILE | EINVAL | ENOTTY | ESPIPE | EPIPE | EIO | EACCES | ENOENT | EISDIR.

(** What a call returns: a value, or minus an error number. *)
Inductive ret := Val (v : Z) | Err (e : errno).

Inductive pipe_end := PRead | PWrite.
Inductive tty_target := STDOUT | STDERR.

(** The implementations of [FileInterface]: a [File] on an inode, a [TTY], one end of a [Pipe] with the slot of
    the other end and the shared buffer. *)
Inductive kind :=
| KFile (inode : Z)
| KTTY (target : tty_target)
| KPipe (end_ : pipe_end) (other_end : option Z) (buf : positive).

Record file := mkFile { f_fd : Z; f_flags : Z; f_offset : Z; rc : Z; f_kind : kind }.

Definition set_rc (f : file) (n : Z) : file := mkFile (f_fd f) (f_flags f) (f_offset f) n (f_kind f).
Definition set_offset (f : file) (o : Z) : file := mkFile (f_fd f) (f_flags f) o (rc f) (f_kind f).
Definition set_fflags (f : file) (x : Z) : file := mkFile (f_fd f) x (f_offset f) (rc f) (f_kind f).
Definition set_kind (f : file) (k : kind) : file := mkFile (f_fd f) (f_flags f) (f_offset f) (rc f) k.

(** [VFS]: the open files, the buffers of the pipes, the bytes of the inodes, and the calls made to
    [Scheduler::wake_up_read_waiting_processes] (write end, read end, count), latest first. *)
Record vfs := mkVfs {
  files : list (option file); lowest_free_fd : Z;
  buffers : gmap positive buffer; inodes : gmap Z (list Z);
  wakes : list (Z * Z * Z)
}.

Definition set_files (v : vfs) l := mkVfs l (lowest_free_fd v) (buffers v) (inodes v) (wakes v).
Definition set_lowest (v : vfs) n := mkVfs (files v) n (buffers v) (inodes v) (wakes v).
Definition set_buffers (v : vfs) b := mkVfs (files v) (lowest_free_fd v) b (inodes v) (wakes v).
Definition set_inodes (v : vfs) i := mkVfs (files v) (lowest_free_fd v) (buffers v) i (wakes v).
Definition add_wake (v : vfs) w := mkVfs (files v) (lowest_free_fd v) (buffers v) (inodes v) (w :: wakes v).

(** [Process::file_descriptor], and the descriptor table of a process. *)
Record file_descriptor := mkFd { fd : Z; sys_fd : Z; clo_exec : bool }.
Record proc := mkProc { fds : list (option file_descriptor); p_lowest : Z }.

(** An array access the source does not test. *)
Definition cell {A} (l : list (option A)) (i : Z) : res (option A) :=
  if 0 <=? i then deref (l !! Z.to_nat i) else Fault.
Definition set_cell {A} (l : list (option A)) (i : Z) (o : option A) : res (list (option A)) :=
  _ ← cell l i; Ok (<[Z.to_nat i := o]> l).

Definition file_at (v : vfs) (i : Z) : res (option file) := cell (files v) i.
Definition put_file (v : vfs) (i : Z) (o : option file) : res vfs := l ← set_cell (files v) i o; Ok (set_files v l).

(** [p->...] for a pointer to an open file. *)
Definition the_file (v : vfs) (i : Z) : res file := o ← file_at v i; deref o.

(** [while (i < limit && l[i]) i++], with [n] cells to go. *)
Fixpoint next_null {A} (n : nat) (l : list (option A)) (i : Z) : res Z :=
  match n with
  | O => Ok i
  | S n => o ← cell l i; match o with None => Ok i | Some _ => next_null n l (i + 1) end
  end.

(** ** The system table *)

(** [VFS::get_free_fd]: the first free cell from [lowest_free_fd] on, an [int] read as a [size_t]. *)
Definition vfs_get_free_fd (v : vfs) : res (vfs * Z) :=
  let i := u32 (lowest_free_fd v) in
  i ← next_null (Z.to_nat (MAX_FD - i)) (files v) i;
  if i <? MAX_FD then
    l ← next_null (Z.to_nat (MAX_FD - (i + 1))) (files v) (i + 1);
    Ok (set_lowest v l, i)
  else Ok (v, -1).

(** [get_write_fd] and [get_read_fd] of the three kinds. *)
Definition other_fd (v : vfs) (o : option Z) : res Z :=
  match o with Some i => f ← the_file v i; Ok (f_fd f) | None => Ok (-1) end.
Definition get_write_fd (v : vfs) (f : file) : res Z :=
  match f_kind f with KPipe PWrite _ _ => Ok (f_fd f) | KPipe PRead o _ => other_fd v o | _ => Ok (-1) end.
Definition get_read_fd (v : vfs) (f : file) : res Z :=
  match f_kind f with KPipe PRead _ _ => Ok (f_fd f) | KPipe PWrite o _ => other_fd v o | _ => Ok (-1) end.

(** [should_wait_for_data_on_read]. *)
Definition should_wait_for_data_on_read (f : file) : res bool :=
  match f_kind f with
  | KPipe PWrite _ _ => Panic
  | KPipe PRead o _ => Ok (bool_decide (o <> None))
  | _ => Ok false
  end.

(** [other_end = o] of a pipe. *)
Definition set_other_end (f : file) (o : option Z) : file :=
  match f_kind f with KPipe e _ b => set_kind f (KPipe e o b) | _ => f end.

(** [delete f]: a pipe tells its other end. *)
Definition delete_file (v : vfs) (f : file) : res vfs :=
  match f_kind f with
  | KPipe _ (Some o) _ => g ← the_file v o; put_file v o (Some (set_other_end g None))
  | _ => Ok v
  end.

(** [VFS::close]. *)
Definition vfs_close (v : vfs) (i : Z) : res (vfs * ret) :=
  o ← file_at v i;
  match o with
  | None => Ok (v, Err EBADF)
  | Some f =>
      if rc f =? 0 then
        w ← get_write_fd v f;
        r ← get_read_fd v f;
        v ← delete_file v f;
        v ← put_file v i None;
        let v := set_lowest v (Z.min (lowest_free_fd v) i) in
        Ok (if negb (w =? -1) && negb (r =? -1) then add_wake v (w, r, 0) else v, Val 0)
      else Ok (v, Val 0)
  end.

(** [Pipe::create_pipe]: [lazy_malloc] gives the buffer its cells. *)
Definition create_pipe (v : vfs) (rfd wfd flags : Z) (cells : list Z) : vfs * (file * file) :=
  let b := fresh (dom (buffers v)) in
  (set_buffers v (<[b := mkBuffer cells BUF_SIZE 0 0]> (buffers v)),
   (mkFile rfd flags 0 0 (KPipe PRead (Some wfd) b), mkFile wfd flags 0 0 (KPipe PWrite (Some rfd) b))).

(** [VFS::pipe]. *)
Definition vfs_pipe (v : vfs) (cells : list Z) : res (vfs * (ret * (Z * Z))) :=
  '(v, rfd) ← vfs_get_free_fd v;
  if rfd =? -1 then Ok (v, (Err ENFILE, (0, 0)))
  else
    '(v, wfd) ← vfs_get_free_fd v;
    if wfd =? -1 then Ok (set_lowest v (Z.min rfd (lowest_free_fd v)), (Err ENFILE, (0, 0)))
    else
      let '(v, (rp, wp)) := create_pipe v rfd wfd 0 cells in
      v ← put_file v rfd (Some rp);
      v ← put_file v wfd (Some wp);
      Ok (v, (Val 0, (f_fd rp, f_fd wp))).

(** [VFS::open_tty]. *)
Definition open_tty (v : vfs) (flags : Z) (target : tty_target) : res (vfs * (option Z * option errno)) :=
  '(v, i) ← vfs_get_free_fd v;
  if i =? -1 then Ok (v, (None, Some EMFILE))
  else v ← put_file v i (Some (mkFile i flags 0 0 (KTTY target))); Ok (v, (Some i, None)).

(** The inode a path leads to. *)
Record found := mkFound { is_dir : bool; number : Z }.

(** What the table asks of a file system ([FS.h]): reading a range of a file, replacing its bytes, and changing
    its size; [None] is a failure. *)
Class FileSystem := {
  load_file_to_buf : gmap Z (list Z) -> Z -> Z -> Z -> option (list Z);
  write_buf_to_file : gmap Z (list Z) -> Z -> list Z -> option (gmap Z (list Z));
  resize : gmap Z (list Z) -> Z -> Z -> gmap Z (list Z)
}.

Section open_file.
Context `{FileSystem} (O_TRUNC O_CREAT O_WRONLY O_RDWR supported_flags : Z).

(** [open_file_leave_with_error]. *)
Definition leave (v : vfs) (system_fd : Z) (e : errno) : res (vfs * (option Z * option errno)) :=
  Ok (set_lowest v (Z.min (lowest_free_fd v) system_fd), (None, Some e)).

(** The end of [VFS::open_file]: truncation and the new open file. *)
Definition open_found (v : vfs) (flags system_fd : Z) (d : found) : res (vfs * (option Z * option errno)) :=
  let trunc := truthy (Z.land flags O_TRUNC) in
  let v := if trunc then set_inodes v (resize (inodes v) (number d) 0) else v in
  match (if trunc && (truthy (Z.land flags O_WRONLY) || truthy (Z.land flags O_RDWR))
         then write_buf_to_file (inodes v) (number d) [] else Some (inodes v)) with
  | None => leave v system_fd EIO
  | Some ino =>
      v ← put_file (set_inodes v ino) system_fd (Some (mkFile system_fd flags 0 0 (KFile (number d))));
      Ok (v, (Some system_fd, None))
  end.

(** [VFS::open_file], given what the path leads to and what [touch] makes of it. *)
Definition open_file (v : vfs) (flags : Z) (lookup touched : option found) : res (vfs * (option Z * option errno)) :=
  '(v, system_fd) ← vfs_get_free_fd v;
  if system_fd =? -1 then leave v system_fd ENFILE
  else if truthy (Z.ldiff flags supported_flags) then leave v system_fd EINVAL
  else
    match (match lookup with
           | Some d => inl d
           | None => if truthy (Z.land flags O_CREAT)
                     then match touched with Some d => inl d | None => inr EACCES end
                     else inr ENOENT
           end) with
    | inr e => leave v system_fd e
    | inl d => if is_dir d then leave v system_fd EISDIR else open_found v flags system_fd d
    end.

End open_file.

(** [VFS::isatty]. *)
Definition vfs_isatty (v : vfs) (i : Z) : res ret :=
  if MAX_FD <=? i then Ok (Err EBADF)
  else
    o ← file_at v i;
    match o with
    | None => Ok (Err EBADF)
    | Some f => match f_kind f with KTTY _ => Ok (Val 0) | _ => Ok (Err ENOTTY) end
    end.

(** ** Reading and writing *)

(** A 32 bit word as an [int]. *)
Definition int_of (x : Z) : Z := if u32 x <? 2147483648 then u32 x else u32 x - 4294967296.

(** [File::lseek]: the parameter [offset] hides the member of that name; sums of [int] wrap. *)
Definition file_lseek (f : file) (size offset whence : Z) : file * ret :=
  if (whence <? 0) || (2 <? whence) then (f, Err EINVAL)
  else
    let ref := if whence =? SEEK_SET then 0 else if whence =? SEEK_CUR then offset else int_of size in
    let new_offset := int_of (ref + offset) in
    if new_offset <? 0 then (f, Err EINVAL)
    else if size <? new_offset then (f, Err EINVAL)
    else (set_offset f new_offset, Val new_offset).

(** The size of an inode. *)
Definition inode_bytes (v : vfs) (n : Z) : res (list Z) := deref (inodes v !! n).

(** [VFS::lseek]. *)
Definition vfs_lseek (v : vfs) (i offset whence : Z) : res (vfs * ret) :=
  o ← file_at v i;
  match o with
  | None => Ok (v, Err EBADF)
  | Some f =>
      match f_kind f with
      | KFile n =>
          d ← inode_bytes v n;
          let '(f, r) := file_lseek f (Z.of_nat (length d)) offset whence in
          v ← put_file v i (Some f); Ok (v, r)
      | _ => Ok (v, Err ESPIPE)
      end
  end.

(** [Pipe::read] and [Pipe::write] on the shared buffer. *)
Definition the_buffer (v : vfs) (b : positive) : res buffer := deref (buffers v !! b).

Definition pipe_read (v : vfs) (e : pipe_end) (b : positive) (count : Z) : res (vfs * ret * list Z) :=
  match e with
  | PWrite => Ok (v, Err EINVAL, [])
  | PRead =>
      buf ← the_buffer v b;
      let '(buf', (s0, s1)) := CircularBuffer.read buf count in
      Ok (set_buffers v (<[b := buf']> (buffers v)), Val (sec_size s0 +u sec_size s1),
          section_bytes (data buf) s0 ++ section_bytes (data buf) s1)
  end.

Definition pipe_write (v : vfs) (e : pipe_end) (other : option Z) (b : positive) (bytes : list Z) (count : Z) : res (vfs * ret) :=
  match e, other with
  | PRead, _ => Ok (v, Err EINVAL)
  | PWrite, None => Ok (v, Err EPIPE)
  | PWrite, Some _ =>
      buf ← the_buffer v b;
      '(buf, n) ← CircularBuffer.write buf bytes count;
      Ok (set_buffers v (<[b := buf]> (buffers v)), Val n)
  end.

(** [memmove] and [memcpy] inside the buffer of [File::write]. *)
Definition move_bytes (l : list Z) (dst src n : Z) : list Z :=
  take (Z.to_nat dst) l ++ take (Z.to_nat n) (drop (Z.to_nat src) l) ++ drop (Z.to_nat (dst + n)) l.
Definition copy_bytes (l : list Z) (dst : Z) (bytes : list Z) (n : Z) : list Z :=
  take (Z.to_nat dst) l ++ take (Z.to_nat n) bytes ++ drop (Z.to_nat (dst + n)) l.

Section file_io.
Context `{FileSystem} (O_APPEND : Z).

(** [File::read]; [regular] is whether the inode is that of a regular file, [preload] the preloaded image of
    the file, if it is one of those. *)
Definition file_read (v : vfs) (f : file) (n : Z) (regular : bool) (count : Z) (preload : option (list Z)) : res (file * ret * list Z) :=
  d ← inode_bytes v n;
  let l := Z.min count (Z.of_nat (length d) -u f_offset f) in
  if negb regular then Ok (f, Err EINVAL, [])
  else
  match preload with
  | Some image =>
      if f_offset f + count <=? Z.of_nat (length image) then
        Ok (set_offset f (f_offset f +u count), Val count, take (Z.to_nat count) (drop (Z.to_nat (f_offset f)) image))
      else Fault
  | None =>
      match load_file_to_buf (inodes v) n (f_offset f) l with
      | None => Ok (f, Err EIO, [])
      | Some bytes => Ok (set_offset f (f_offset f +u Z.of_nat (length bytes)), Val (Z.of_nat (length bytes)), bytes)
      end
  end.

(** [File::write]; [junk] is what [realloc] leaves in the new bytes of the buffer (it does not fail here). *)
Definition file_write (v : vfs) (f : file) (n : Z) (regular : bool) (bytes : list Z) (count : Z) (junk : list Z) : res (vfs * file * ret) :=
  if negb regular then Ok (v, f, Err EINVAL)
  else
  d ← inode_bytes v n;
  let file_size := Z.of_nat (length d) in
  match load_file_to_buf (inodes v) n 0 file_size with
  | None => Ok (v, f, Err EIO)
  | Some image =>
      let buf := image ++ junk in
      let f := if truthy (Z.land (f_flags f) O_APPEND) then set_offset f file_size else f in
      let buf := move_bytes buf (f_offset f + count) (f_offset f) (file_size - f_offset f) in
      let buf := copy_bytes buf (f_offset f) bytes count in
      match write_buf_to_file (inodes v) n (take (Z.to_nat (file_size + count)) buf) with
      | None => Ok (v, f, Err EIO)
      | Some ino => Ok (set_inodes v ino, set_offset f (f_offset f +u count), Val count)
      end
  end.

End file_io.

(** ** The table of a process *)

(** The constructor and the destructor of [file_descriptor]. *)
Definition new_file_descriptor (v : vfs) (n sys : Z) (clo : bool) : res (vfs * file_descriptor) :=
  o ← file_at v sys;
  match o with
  | None => Panic
  | Some f => v ← put_file v sys (Some (set_rc f (rc f + 1))); Ok (v, mkFd n sys clo)
  end.
Definition delete_file_descriptor (v : vfs) (o : option file_descriptor) : res vfs :=
  match o with
  | None => Ok v
  | Some d =>
      o ← file_at v (sys_fd d);
      match o with
      | None => Panic
      | Some f => put_file v (sys_fd d) (Some (set_rc f (rc f - 1)))
      end
  end.

(** [Process::get_free_fd]. *)
Definition get_free_fd (p : proc) : res (proc * Z) :=
  if p_lowest p =? MAX_FD_PER_PROCESS then Ok (p, -1)
  else
    o ← cell (fds p) (p_lowest p);
    _ ← ensure (bool_decide (o = None));
    l ← next_null (Z.to_nat (MAX_FD_PER_PROCESS - (p_lowest p + 1))) (fds p) (p_lowest p + 1);
    Ok (mkProc (fds p) l, p_lowest p).

(** [Process::release_fd]. *)
Definition release_fd (v : vfs) (p : proc) (n : Z) : res (vfs * proc) :=
  o ← cell (fds p) n;
  v ← delete_file_descriptor v o;
  l ← set_cell (fds p) n None;
  Ok (v, mkProc l (Z.min (p_lowest p) n)).

(** [file_descriptors[n] = new file_descriptor{n, sys, clo}]. *)
Definition install (v : vfs) (p : proc) (n sys : Z) (clo : bool) : res (vfs * proc) :=
  '(v, d) ← new_file_descriptor v n sys clo;
  l ← set_cell (fds p) n (Some d);
  Ok (v, mkProc l (p_lowest p)).

(** [Process::proc_to_sys_fd]. *)
Definition proc_to_sys_fd (v : vfs) (p : proc) (n : Z) : res Z :=
  if (0 <=? n) && (n <? MAX_FD_PER_PROCESS) then
    o ← cell (fds p) n;
    match o with
    | None => Ok (-1)
    | Some d =>
        o ← file_at v (sys_fd d);
        match o with None => Panic | Some f => Ok (f_fd f) end
    end
  else Ok (-1).

(** [Process::close]: the error handed on is the truth value of the comparison. *)
Definition close (v : vfs) (p : proc) (n : Z) : res (vfs * proc * ret) :=
  s ← proc_to_sys_fd v p n;
  if s =? -1 then Ok (v, p, Err EBADF)
  else
    '(v, p) ← release_fd v p n;
    '(v, r) ← vfs_close v s;
    match r with Err _ => Ok (v, p, Val 1) | Val _ => Ok (v, p, Val 0) end.

(** The loop of [Process::pre_free] over the descriptors; [n] cells are left from [i] on. *)
Fixpoint close_from (n : nat) (i : Z) (v : vfs) (p : proc) : res (vfs * proc) :=
  match n with
  | O => Ok (v, p)
  | S n =>
      c ← cell (fds p) i;
      match c with
      | None => close_from n (i + 1) v p
      | Some d => '(v, p, _) ← close v p (fd d); close_from n (i + 1) v p
      end
  end.
Definition close_descriptors (v : vfs) (p : proc) : res (vfs * proc) := close_from (Z.to_nat MAX_FD_PER_PROCESS) 0 v p.

(** [Process::dup]. *)
Definition dup (v : vfs) (p : proc) (oldfd : Z) : res (vfs * proc * ret) :=
  s ← proc_to_sys_fd v p oldfd;
  if s =? -1 then Ok (v, p, Err EBADF)
  else
    '(p, newfd) ← get_free_fd p;
    if newfd =? -1 then Ok (v, p, Err EMFILE)
    else '(v, p) ← install v p newfd s false; Ok (v, p, Val newfd).

(** [Process::dup2]. *)
Definition dup2 (v : vfs) (p : proc) (oldfd newfd : Z) : res (vfs * proc * ret) :=
  s ← proc_to_sys_fd v p oldfd;
  if s =? -1 then Ok (v, p, Err EBADF)
  else if oldfd =? newfd then Ok (v, p, Val newfd)
  else
    o ← cell (fds p) newfd;
    '(v, p) ← (match o with
               | Some _ => '(v, p, _) ← close v p newfd; Ok (v, p)
               | None => Ok (v, p)
               end);
    '(v, p) ← install v p newfd s false;
    l ← next_null (Z.to_nat (MAX_FD_PER_PROCESS - p_lowest p)) (fds p) (p_lowest p);
    Ok (v, mkProc (fds p) l, Val newfd).

(** [Process::pipe]. *)
Definition pipe (v : vfs) (p : proc) (cells : list Z) : res (vfs * proc * ret * (Z * Z)) :=
  '(p, rfd) ← get_free_fd p;
  if rfd =? -1 then Ok (v, p, Err EMFILE, (0, 0))
  else
    '(p, wfd) ← get_free_fd p;
    if wfd =? -1 then '(v, p) ← release_fd v p rfd; Ok (v, p, Err EMFILE, (0, 0))
    else
      '(v, (status, (sr, sw))) ← vfs_pipe v cells;
      match status with
      | Val 0 =>
          '(v, p) ← install v p rfd sr false;
          '(v, p) ← install v p wfd sw false;
          Ok (v, p, Val 0, (rfd, wfd))
      | _ =>
          '(v, p) ← release_fd v p rfd;
          '(v, p) ← release_fd v p wfd;
          Ok (v, p, status, (0, 0))
      end.

(** [Process::open], given [VFS::open_file] on its arguments. *)
Definition open (opener : vfs -> res (vfs * (option Z * option errno))) (v : vfs) (p : proc) : res (vfs * proc * ret) :=
  '(p, n) ← get_free_fd p;
  if n =? -1 then Ok (v, p, Err EMFILE)
  else
    '(v, (o, e)) ← opener v;
    match o with
    | Some s => f ← the_file v s; '(v, p) ← install v p n (f_fd f) false; Ok (v, p, Val n)
    | None => '(v, p) ← release_fd v p n; e ← deref e; Ok (v, p, Err e)
    end.

(** [Process::isatty]. *)
Definition isatty (v : vfs) (p : proc) (n : Z) : res ret :=
  if MAX_FD_PER_PROCESS <=? n then Ok (Err EBADF)
  else
    o ← cell (fds p) n;
    match o with None => Ok (Err EBADF) | Some d => vfs_isatty v (sys_fd d) end.

(** [Process::lseek]. *)
Definition lseek (v : vfs) (p : proc) (n offset whence : Z) : res (vfs * ret) :=
  s ← proc_to_sys_fd v p n;
  if s =? -1 then Ok (v, Err EBADF) else vfs_lseek v s offset whence.

Section fcntl.
Context (F_GETFL F_SETFL F_SETFD FD_CLOEXEC O_APPEND O_NONBLOCK : Z).

(** [Process::fcntl]. *)
Definition fcntl (v : vfs) (p : proc) (n op arg : Z) : res (vfs * proc * ret) :=
  s ← proc_to_sys_fd v p n;
  if s =? -1 then Ok (v, p, Err EBADF)
  else if op =? F_GETFL then f ← the_file v s; Ok (v, p, Val (f_flags f))
  else if op =? F_SETFL then
    f ← the_file v s;
    let mask := Z.lor O_APPEND O_NONBLOCK in
    v ← put_file v s (Some (set_fflags f (Z.lor (Z.ldiff (f_flags f) mask) (Z.land arg mask))));
    Ok (v, p, Val 0)
  else if op =? F_SETFD then
    o ← cell (fds p) n;
    d ← deref o;
    l ← set_cell (fds p) n (Some (mkFd (fd d) (sys_fd d) (truthy (Z.land arg FD_CLOEXEC))));
    Ok (v, mkProc l (p_lowest p), Val 0)
  else Ok (v, p, Err EINVAL).

End fcntl.

(** The copy of the descriptors in [Process::fork]; [n] cells are left from [i] on. *)
Fixpoint fork_fds (n : nat) (i : Z) (v : vfs) (parent child : proc) : res (vfs * proc) :=
  match n with
  | O => Ok (v, child)
  | S n =>
      o ← cell (fds parent) i;
      match o with
      | None => fork_fds n (i + 1) v parent child
      | Some d =>
          c ← cell (fds child) i;
          '(v, child) ← (match c with
                         | Some e => '(v, child, _) ← close v child (fd e); Ok (v, child)
                         | None => Ok (v, child)
                         end);
          '(v, e) ← new_file_descriptor v (fd d) (sys_fd d) (clo_exec d);
          l ← set_cell (fds child) i (Some e);
          fork_fds n (i + 1) v parent (mkProc l (p_lowest child))
      end
  end.

Definition fork (v : vfs) (parent child : proc) : res (vfs * proc) :=
  '(v, child) ← fork_fds (Z.to_nat MAX_FD_PER_PROCESS) 0 v parent child;
  Ok (v, mkProc (fds child) (p_lowest parent)).

(** The descriptors in [Process::execve_transfer]. *)
Fixpoint transfer_fds (n : nat) (i : Z) (v : vfs) (p q : proc) : res (vfs * proc * proc) :=
  match n with
  | O => Ok (v, p, q)
  | S n =>
      o ← cell (fds p) i;
      match o with
      | None => transfer_fds n (i + 1) v p q
      | Some d =>
          if clo_exec d then '(v, p, _) ← close v p (fd d); transfer_fds n (i + 1) v p q
          else
            c ← cell (fds q) i;
            '(v, q) ← (match c with Some _ => '(v, q, _) ← close v q i; Ok (v, q) | None => Ok (v, q) end);
            lq ← set_cell (fds q) i (Some d);
            lp ← set_cell (fds p) i None;
            transfer_fds n (i + 1) v (mkProc lp (p_lowest p)) (mkProc lq (p_lowest q))
      end
  end.

Definition execve_transfer (v : vfs) (p q : proc) : res (vfs * proc * proc) :=
  '(v, p, q) ← transfer_fds (Z.to_nat MAX_FD_PER_PROCESS) 0 v p q;
  l ← next_null (Z.to_nat MAX_FD_PER_PROCESS) (fds q) 0;
  Ok (v, p, mkProc (fds q) l).

(** ** Tables with a lowest free cell *)

Section tables.
Context {A : Type}.
Implicit Types l : list (option A).

Definition occupied (l : list (option A)) (i : Z) : Prop := exists x, l !! Z.to_nat i = Some (Some x).

(** [low] is the lowest free cell of the table, or its size. *)
Definition lowest_free (l : list (option A)) (lim low : Z) : Prop :=
  Z.of_nat (length l) = lim /\ 0 <= low <= lim /\ (forall i, 0 <= i < low -> occupied l i) /\
  (low < lim -> l !! Z.to_nat low = Some None).

Lemma cell_lookup l i o : cell l i = Ok o <-> 0 <= i /\ l !! Z.to_nat i = Some o.
Proof.
  unfold cell. destruct (Z.leb_spec 0 i); [|split; [done|lia]]. destruct (l !! Z.to_nat i); simpl; split; try done.
  - by intros [= ->].
  - by intros [_ [= ->]].
  - by intros [_ ?].
Qed.

Lemma set_cell_lookup l i x o : 0 <= i -> l !! Z.to_nat i = Some x -> set_cell l i o = Ok (<[Z.to_nat i := o]> l).
Proof. intros Hi Hx. unfold set_cell. by rewrite (proj2 (cell_lookup l i x) (conj Hi Hx)). Qed.

Lemma next_null_spec n l i :
  0 <= i -> Z.of_nat (length l) = i + Z.of_nat n ->
  exists j, next_null n l i = Ok j /\ i <= j <= Z.of_nat (length l) /\ (forall k, i <= k < j -> occupied l k) /\
    (j < Z.of_nat (length l) -> l !! Z.to_nat j = Some None).
Proof.
  revert i. induction n as [|n IH]; intros i Hi Hl.
  - exists i. split_and!; [done|lia|lia|lia|lia].
  - cbn [next_null]. destruct (lookup_lt_is_Some_2 l (Z.to_nat i)) as [o Ho]; [lia|].
    rewrite (proj2 (cell_lookup l i o) (conj Hi Ho)). run. destruct o as [x|].
    + destruct (IH (i + 1)) as (j & -> & Hj & Hocc & Hn); [lia|lia|]. exists j. split_and!; [done|lia|lia| |done].
      intros k Hk. destruct (decide (k = i)) as [->|]; [by exists x|]. apply Hocc. lia.
    + exists i. split_and!; [done|lia|lia|lia|done].
Qed.

Lemma occupied_insert l i j o : 0 <= i -> 0 <= j -> i <> j -> occupied l j -> occupied (<[Z.to_nat i := o]> l) j.
Proof. intros Hi Hj Hij [x Hx]. exists x. by rewrite list_lookup_insert_ne by lia. Qed.

(** Taking the lowest free cell and storing into it. *)
Lemma lowest_free_take l lim low :
  lowest_free l lim low -> low < lim ->
  exists j, next_null (Z.to_nat (lim - (low + 1))) l (low + 1) = Ok j /\ low < j /\ 0 <= j <= lim /\
    (j < lim -> l !! Z.to_nat j = Some None) /\ forall x, lowest_free (<[Z.to_nat low := Some x]> l) lim j.
Proof.
  intros (Hl & Hlow & Hocc & Hn) Hlt. destruct (next_null_spec (Z.to_nat (lim - (low + 1))) l (low + 1)) as (j & -> & Hj & Hocc' & Hn'); [lia|lia|].
  exists j. split_and!; [done|lia|lia|lia|by rewrite <- Hl|]. intros x. split_and!; [by rewrite length_insert|lia|lia| |].
  - intros i Hi. destruct (decide (i = low)) as [->|]; [exists x; apply list_lookup_insert_eq; lia|].
    apply occupied_insert; [lia|lia|lia|]. destruct (decide (i < low)); [apply Hocc; lia|apply Hocc'; lia].
  - intros Hj'. rewrite list_lookup_insert_ne by lia. apply Hn'. lia.
Qed.

Lemma lowest_free_clear l lim low i :
  lowest_free l lim low -> 0 <= i < lim -> lowest_free (<[Z.to_nat i := None]> l) lim (Z.min low i).
Proof.
  intros (Hl & Hlow & Hocc & Hn) Hi. split_and!; [by rewrite length_insert|lia|lia| |].
  - intros k Hk. apply occupied_insert; [lia|lia|lia|]. apply Hocc. lia.
  - intros _. destruct (Z.min_spec low i) as [[Hlt ->]|[Hle ->]].
    + rewrite list_lookup_insert_ne by lia. apply Hn. lia.
    + apply list_lookup_insert_eq. lia.
Qed.

(** Storing into any cell, and moving the bound up to the next free one. *)
Lemma lowest_free_store l lim low i x :
  lowest_free l lim low -> 0 <= i < lim ->
  exists j, next_null (Z.to_nat (lim - low)) (<[Z.to_nat i := Some x]> l) low = Ok j /\ lowest_free (<[Z.to_nat i := Some x]> l) lim j.
Proof.
  intros (Hl & Hlow & Hocc & Hn) Hi.
  destruct (next_null_spec (Z.to_nat (lim - low)) (<[Z.to_nat i := Some x]> l) low) as (j & -> & Hj & Hocc' & Hn'); [lia|rewrite length_insert; lia|].
  rewrite length_insert in *. exists j. split; [done|]. split_and!; [by rewrite length_insert|lia|lia| |intros; apply Hn'; lia].
  intros k Hk. destruct (decide (k < low)); [|apply Hocc'; lia]. destruct (decide (k = i)) as [->|].
  - exists x. apply list_lookup_insert_eq. lia.
  - apply occupied_insert; [lia|lia|lia|]. apply Hocc. lia.
Qed.

(** Replacing an entry by another. *)
Lemma lowest_free_update l lim low i x y :
  lowest_free l lim low -> l !! Z.to_nat i = Some (Some x) -> 0 <= i -> lowest_free (<[Z.to_nat i := Some y]> l) lim low.
Proof.
  intros (Hl & Hlow & Hocc & Hn) Hx Hi. pose proof (lookup_lt_Some _ _ _ Hx) as Hlt.
  split_and!; [by rewrite length_insert|lia|lia| |].
  - intros k Hk. destruct (decide (k = i)) as [->|].
    + exists y. by apply list_lookup_insert_eq.
    + apply occupied_insert; [lia|lia|lia|]. apply Hocc. lia.
  - intros Hlow'. destruct (decide (Z.to_nat i = Z.to_nat low)) as [E|E].
    + specialize (Hn Hlow'). rewrite E in Hx. congruence.
    + rewrite list_lookup_insert_ne by done. by apply Hn.
Qed.

Lemma occupied_update l s f g i : 0 <= s -> l !! Z.to_nat s = Some (Some f) -> occupied l i -> occupied (<[Z.to_nat s := Some g]> l) i.
Proof.
  intros Hs Hf [x Hx]. destruct (decide (Z.to_nat i = Z.to_nat s)) as [E|E].
  - exists g. rewrite E. apply list_lookup_insert_eq. by apply lookup_lt_Some in Hf.
  - exists x. by rewrite list_lookup_insert_ne.
Qed.

End tables.

(** ** Reference counts *)

Definition refers (o : option file_descriptor) (s : Z) : Z :=
  match o with Some d => if sys_fd d =? s then 1 else 0 | None => 0 end.

(** How many descriptors of a table refer to the open file [s]. *)
Fixpoint refs (l : list (option file_descriptor)) (s : Z) : Z :=
  match l with [] => 0 | o :: l => refers o s + refs l s end.

Lemma refers_nonneg o s : 0 <= refers o s.
Proof. destruct o as [d|]; simpl; [|lia]. destruct (sys_fd d =? s); lia. Qed.

Lemma refs_nonneg l s : 0 <= refs l s.
Proof. induction l as [|o l IH]; simpl; [lia|]. pose proof (refers_nonneg o s). lia. Qed.

Lemma refs_insert l i o o' s : l !! i = Some o -> refs (<[i := o']> l) s = refs l s - refers o s + refers o' s.
Proof.
  revert i. induction l as [|a l IH]; intros [|i]; simpl; [done|done| |].
  - intros [= ->]. lia.
  - intros Hi. rewrite (IH i Hi). lia.
Qed.

Lemma refs_pos l i d : l !! i = Some (Some d) -> 1 <= refs l (sys_fd d).
Proof.
  intros Hi. pose proof (refs_insert l i _ None (sys_fd d) Hi) as E. pose proof (refs_nonneg (<[i := None]> l) (sys_fd d)).
  simpl in E. rewrite Z.eqb_refl in E. lia.
Qed.

Definition opposite (e : pipe_end) : pipe_end := match e with PRead => PWrite | PWrite => PRead end.

(** The invariant of the system table and the table of one process; [ext s] is the number of
    descriptors that the other processes have on the open file [s]. *)
Record fd_inv (ext : Z -> Z) (v : vfs) (p : proc) : Prop := {
  inv_files : lowest_free (files v) MAX_FD (lowest_free_fd v);
  inv_fds : lowest_free (fds p) MAX_FD_PER_PROCESS (p_lowest p);
  inv_ext : forall s, 0 <= ext s;
  inv_held : forall s, 0 < ext s -> 0 <= s /\ occupied (files v) s;
  inv_rc : forall i f, 0 <= i -> files v !! Z.to_nat i = Some (Some f) -> f_fd f = i /\ rc f = refs (fds p) i + ext i;
  inv_ref : forall i d, 0 <= i -> fds p !! Z.to_nat i = Some (Some d) -> fd d = i /\ 0 <= sys_fd d /\ occupied (files v) (sys_fd d);
  inv_pipe : forall i f e o b, 0 <= i -> files v !! Z.to_nat i = Some (Some f) -> f_kind f = KPipe e (Some o) b ->
    0 <= o /\ o <> i /\ exists g, files v !! Z.to_nat o = Some (Some g) /\ f_kind g = KPipe (opposite e) (Some i) b
}.

Lemma put_file_spec v i o x : 0 <= i -> files v !! Z.to_nat i = Some x -> put_file v i o = Ok (set_files v (<[Z.to_nat i := o]> (files v))).
Proof. intros Hi Hx. unfold put_file. by rewrite (set_cell_lookup _ _ _ _ Hi Hx). Qed.

Lemma file_at_spec v i o : 0 <= i -> files v !! Z.to_nat i = Some o -> file_at v i = Ok o.
Proof. intros Hi Hx. unfold file_at. by apply cell_lookup. Qed.

(** The open file of a descriptor. *)
Lemma descriptor_file ext v p n d :
  fd_inv ext v p -> 0 <= n -> fds p !! Z.to_nat n = Some (Some d) ->
  exists f, 0 <= sys_fd d /\ files v !! Z.to_nat (sys_fd d) = Some (Some f) /\ f_fd f = sys_fd d /\
    rc f = refs (fds p) (sys_fd d) + ext (sys_fd d) /\ 1 <= rc f.
Proof.
  intros Hinv Hn Hd. destruct (inv_ref _ _ _ Hinv n d Hn Hd) as (Hfd & Hs & f & Hf).
  destruct (inv_rc _ _ _ Hinv _ _ Hs Hf) as [Hff Hrc]. exists f. split_and!; try done.
  pose proof (refs_pos _ _ _ Hd). pose proof (inv_ext _ _ _ Hinv (sys_fd d)). lia.
Qed.

Lemma table_bound ext v p n o : fd_inv ext v p -> 0 <= n -> fds p !! Z.to_nat n = Some o -> n < MAX_FD_PER_PROCESS.
Proof. intros Hinv Hn Ho. apply lookup_lt_Some in Ho. destruct (inv_fds _ _ _ Hinv) as (Hl & _). lia. Qed.

(** [proc_to_sys_fd] finds the open file, or says that there is none. *)
Lemma proc_to_sys_fd_open ext v p n d :
  fd_inv ext v p -> 0 <= n -> fds p !! Z.to_nat n = Some (Some d) -> proc_to_sys_fd v p n = Ok (sys_fd d).
Proof.
  intros Hinv Hn Hd. pose proof (table_bound _ _ _ _ _ Hinv Hn Hd) as Hlt. unfold proc_to_sys_fd.
  destruct (Z.leb_spec 0 n), (Z.ltb_spec n MAX_FD_PER_PROCESS); try lia. simpl.
  rewrite (proj2 (cell_lookup _ _ _) (conj Hn Hd)). run.
  destruct (descriptor_file _ _ _ _ _ Hinv Hn Hd) as (f & Hs & Hf & Hff & _). rewrite (file_at_spec _ _ _ Hs Hf). run. by rewrite Hff.
Qed.

Definition is_open (p : proc) (n : Z) : Prop := 0 <= n /\ exists d, fds p !! Z.to_nat n = Some (Some d).

Lemma proc_to_sys_fd_closed ext v p n : fd_inv ext v p -> ~ is_open p n -> proc_to_sys_fd v p n = Ok (-1).
Proof.
  intros Hinv Hc. unfold proc_to_sys_fd. destruct (Z.leb_spec 0 n) as [H0|], (Z.ltb_spec n MAX_FD_PER_PROCESS); try done. simpl.
  destruct (inv_fds _ _ _ Hinv) as (Hl & _). destruct (lookup_lt_is_Some_2 (fds p) (Z.to_nat n)) as [o Ho]; [lia|].
  rewrite (proj2 (cell_lookup _ _ _) (conj H0 Ho)). run. destruct o as [d|]; [|done].
  exfalso. apply Hc. split; [done|by exists d].
Qed.

(** ** Descriptors are handed out lowest first *)

Lemma get_free_fd_spec ext v p :
  fd_inv ext v p -> p_lowest p < MAX_FD_PER_PROCESS ->
  exists j, get_free_fd p = Ok (mkProc (fds p) j, p_lowest p) /\ p_lowest p < j /\ 0 <= j <= MAX_FD_PER_PROCESS /\
    (j < MAX_FD_PER_PROCESS -> fds p !! Z.to_nat j = Some None) /\
    forall x, lowest_free (<[Z.to_nat (p_lowest p) := Some x]> (fds p)) MAX_FD_PER_PROCESS j.
Proof.
  intros Hinv Hlt. pose proof (inv_fds _ _ _ Hinv) as Hf. pose proof Hf as (Hl & Hlow & _ & Hn).
  destruct (lowest_free_take _ _ _ Hf Hlt) as (j & Hj & H). exists j. split; [|done].
  unfold get_free_fd. destruct (Z.eqb_spec (p_lowest p) MAX_FD_PER_PROCESS); [lia|].
  rewrite (proj2 (cell_lookup _ _ _) (conj (proj1 Hlow) (Hn Hlt))). run. by rewrite Hj.
Qed.

Lemma get_free_fd_full p : p_lowest p = MAX_FD_PER_PROCESS -> get_free_fd p = Ok (p, -1).
Proof. intros H. unfold get_free_fd. by rewrite H. Qed.

(** [file_descriptors[n] = new file_descriptor] into a free cell keeps the counts right. *)
Lemma install_eq v p n s f clo :
  0 <= n -> fds p !! Z.to_nat n = Some None -> 0 <= s -> files v !! Z.to_nat s = Some (Some f) ->
  install v p n s clo = Ok (set_files v (<[Z.to_nat s := Some (set_rc f (rc f + 1))]> (files v)),
                            mkProc (<[Z.to_nat n := Some (mkFd n s clo)]> (fds p)) (p_lowest p)).
Proof.
  intros Hn Hc Hs Hf. unfold install, new_file_descriptor. rewrite (file_at_spec _ _ _ Hs Hf). run.
  rewrite (put_file_spec _ _ _ _ Hs Hf). run. by rewrite (set_cell_lookup _ _ _ _ Hn Hc).
Qed.

Lemma install_inv ext v p n s f clo low :
  fd_inv ext v p -> 0 <= n -> fds p !! Z.to_nat n = Some None -> 0 <= s -> files v !! Z.to_nat s = Some (Some f) ->
  lowest_free (<[Z.to_nat n := Some (mkFd n s clo)]> (fds p)) MAX_FD_PER_PROCESS low ->
  fd_inv ext (set_files v (<[Z.to_nat s := Some (set_rc f (rc f + 1))]> (files v)))
    (mkProc (<[Z.to_nat n := Some (mkFd n s clo)]> (fds p)) low).
Proof.
  intros Hinv Hn Hc Hs Hf Hlow.
  pose proof (lookup_lt_Some _ _ _ Hf) as Hlt. pose proof (lookup_lt_Some _ _ _ Hc) as Hltn.
  constructor; cbn [files fds p_lowest lowest_free_fd set_files].
  - by eapply lowest_free_update; [apply (inv_files _ _ _ Hinv)|exact Hf|].
  - done.
  - apply (inv_ext _ _ _ Hinv).
  - intros i Hi. destruct (inv_held _ _ _ Hinv i Hi) as [Hi0 Ho]. split; [done|]. by eapply occupied_update.
  - intros i g Hi Hg. rewrite (refs_insert _ _ _ _ _ Hc). cbn [refers sys_fd]. destruct (decide (i = s)) as [->|Hne].
    + rewrite list_lookup_insert_eq in Hg by done. injection Hg as <-. destruct (inv_rc _ _ _ Hinv s f Hs Hf) as [? ?].
      rewrite Z.eqb_refl. simpl. lia.
    + rewrite list_lookup_insert_ne in Hg by lia. destruct (inv_rc _ _ _ Hinv i g Hi Hg) as [? ?].
      rewrite (proj2 (Z.eqb_neq s i)) by done. lia.
  - intros i d Hi Hd. destruct (decide (i = n)) as [->|Hne].
    + rewrite list_lookup_insert_eq in Hd by done. injection Hd as <-. split_and!; [done|done|]. eexists. by apply list_lookup_insert_eq.
    + rewrite list_lookup_insert_ne in Hd by lia. destruct (inv_ref _ _ _ Hinv i d Hi Hd) as (Hfd & Hsd & x & Hx). split_and!; [done|done|].
      destruct (decide (sys_fd d = s)) as [->|]; [eexists; by apply list_lookup_insert_eq|]. exists x. by rewrite list_lookup_insert_ne by lia.
  - intros i g e o b Hi Hg Hk.
    assert (exists g', files v !! Z.to_nat i = Some (Some g') /\ f_kind g' = f_kind g) as (g' & Hg' & Hk').
    { destruct (decide (i = s)) as [->|]; [rewrite list_lookup_insert_eq in Hg by done; injection Hg as <-; by exists f|].
      rewrite list_lookup_insert_ne in Hg by lia. by exists g. }
    rewrite <- Hk' in Hk. destruct (inv_pipe _ _ _ Hinv i g' e o b Hi Hg' Hk) as (Ho & Hoi & h & Hh & Hkh). split_and!; [done|done|].
    destruct (decide (o = s)) as [->|]; [|exists h; by rewrite list_lookup_insert_ne by lia].
    exists (set_rc f (rc f + 1)). rewrite list_lookup_insert_eq by done. split; [done|]. simpl. congruence.
Qed.

(** ** Closing *)

(** An open file after the one in slot [s] is gone. *)
Definition unlinked (s : Z) (f : file) : file :=
  match f_kind f with KPipe e (Some o) b => if o =? s then set_kind f (KPipe e None b) else f | _ => f end.

Lemma unlinked_same s f : f_fd (unlinked s f) = f_fd f /\ rc (unlinked s f) = rc f.
Proof. unfold unlinked. destruct (f_kind f) as [| |e [o|] b]; try done. by destruct (o =? s). Qed.

(** [delete f], seen from the table: every other file is told. *)
Lemma delete_file_spec ext v p s f v1 :
  fd_inv ext v p -> 0 <= s -> files v !! Z.to_nat s = Some (Some f) -> 
  files v1 = <[Z.to_nat s := Some (set_rc f 0)]> (files v) ->
  exists v2, delete_file v1 (set_rc f 0) = Ok v2 /\ lowest_free_fd v2 = lowest_free_fd v1 /\ buffers v2 = buffers v1 /\ wakes v2 = wakes v1 /\
    length (files v2) = length (files v) /\
    forall i, 0 <= i -> i <> s -> files v2 !! Z.to_nat i = fmap (M := option) (fmap (M := option) (unlinked s)) (files v !! Z.to_nat i).
Proof.
  intros Hinv Hs Hf Hv1. unfold delete_file. cbn [f_kind set_rc].
  assert (forall i g e b, 0 <= i -> files v !! Z.to_nat i = Some (Some g) -> f_kind g = KPipe e (Some s) b -> f_kind f = KPipe (opposite e) (Some i) b) as Hback.
  { intros i g e b Hi Hg Hk. destruct (inv_pipe _ _ _ Hinv i g e s b Hi Hg Hk) as (_ & _ & h & Hh & Hkh). congruence. }
  assert (forall i x, 0 <= i -> (forall b e, f_kind f <> KPipe e (Some i) b) -> files v !! Z.to_nat i = x -> x = fmap (fmap (unlinked s)) x) as Hother.
  { intros i x Hi Hno Hx. destruct x as [[g|]|]; [|done|done]. simpl. do 2 f_equal. unfold unlinked.
    destruct (f_kind g) as [| |e [o|] b] eqn:Hg; try done. destruct (Z.eqb_spec o s) as [->|]; [|done].
    exfalso. by eapply Hno, Hback. }
  destruct (f_kind f) as [| |e [o|] b] eqn:Hk.
  4:{ exists v1. split_and!; [done..|by rewrite Hv1, length_insert|]. intros i Hi Hne. rewrite Hv1, list_lookup_insert_ne by lia. by eapply Hother; [exact Hi|done|]. }
  3:{ destruct (inv_pipe _ _ _ Hinv s f e o b Hs Hf Hk) as (Ho & Hos & g & Hg & Hkg).
      assert (files v1 !! Z.to_nat o = Some (Some g)) as Hg1 by (rewrite Hv1, list_lookup_insert_ne by lia; done).
      unfold the_file. rewrite (file_at_spec _ _ _ Ho Hg1). run. rewrite (put_file_spec _ _ _ _ Ho Hg1).
      eexists. split; [done|]. cbn [lowest_free_fd buffers wakes files set_files]. split_and!; [done..|by rewrite Hv1, !length_insert|].
      intros i Hi Hne. destruct (decide (i = o)) as [->|Hio].
      - rewrite list_lookup_insert_eq by (by apply lookup_lt_Some in Hg1). rewrite Hg. simpl. unfold set_other_end, unlinked.
        by rewrite Hkg, Z.eqb_refl.
      - rewrite list_lookup_insert_ne, Hv1, list_lookup_insert_ne by lia. eapply Hother; [exact Hi| |done].
        intros b' e' [= _ E]. congruence. }
  all: exists v1; split_and!; [done..|by rewrite Hv1, length_insert|]; intros i Hi Hne; rewrite Hv1, list_lookup_insert_ne by lia; by eapply Hother; [exact Hi|done|].
Qed.

(** The readers that closing the last descriptor of a pipe end wakes up. *)
Definition closing_wakes (s : Z) (f : file) : list (Z * Z * Z) :=
  match f_kind f with
  | KPipe PRead (Some o) _ => [(o, s, 0)]
  | KPipe PWrite (Some o) _ => [(s, o, 0)]
  | _ => []
  end.

Lemma pipe_ends ext v p s f v1 :
  fd_inv ext v p -> 0 <= s -> files v !! Z.to_nat s = Some (Some f) ->
  files v1 = <[Z.to_nat s := Some (set_rc f 0)]> (files v) ->
  exists w r, get_write_fd v1 (set_rc f 0) = Ok w /\ get_read_fd v1 (set_rc f 0) = Ok r /\
    (if negb (w =? -1) && negb (r =? -1) then [(w, r, 0)] else []) = closing_wakes s f.
Proof.
  intros Hinv Hs Hf Hv1. unfold get_write_fd, get_read_fd, closing_wakes. cbn [f_kind f_fd set_rc].
  destruct (inv_rc _ _ _ Hinv s f Hs Hf) as [-> _].
  destruct (f_kind f) as [| |e [o|] b] eqn:Hk; [by exists (-1), (-1)|by exists (-1), (-1)| |].
  - destruct (inv_pipe _ _ _ Hinv s f e o b Hs Hf Hk) as (Ho & Hos & g & Hg & _).
    assert (other_fd v1 (Some o) = Ok o) as Eo.
    { unfold other_fd, the_file. assert (files v1 !! Z.to_nat o = Some (Some g)) as Hg1 by (rewrite Hv1, list_lookup_insert_ne by lia; done).
      rewrite (file_at_spec _ _ _ Ho Hg1). run. by destruct (inv_rc _ _ _ Hinv o g Ho Hg) as [-> _]. }
    destruct e; rewrite Eo; eexists _, _; (split; [done|]; split; [done|]);
      rewrite (proj2 (Z.eqb_neq o (-1))), (proj2 (Z.eqb_neq s (-1))) by lia; done.
  - destruct e; simpl; eexists _, _; (split; [done|]; split; [done|]); simpl; by rewrite ?andb_false_r.
Qed.

(** The counts after descriptor [n] has gone, in the files other than its own. *)
Lemma refs_clear p n d i : fds p !! Z.to_nat n = Some (Some d) -> refs (<[Z.to_nat n := None]> (fds p)) i = refs (fds p) i - (if sys_fd d =? i then 1 else 0).
Proof. intros Hd. rewrite (refs_insert _ _ _ _ _ Hd). simpl. lia. Qed.

Lemma closed_ref ext v p n d i e :
  fd_inv ext v p -> 0 <= n -> fds p !! Z.to_nat n = Some (Some d) -> 0 <= i ->
  <[Z.to_nat n := None]> (fds p) !! Z.to_nat i = Some (Some e) -> fds p !! Z.to_nat i = Some (Some e) /\ i <> n.
Proof.
  intros Hinv Hn Hd Hi He. destruct (decide (i = n)) as [->|Hne].
  - rewrite list_lookup_insert_eq in He by (by apply lookup_lt_Some in Hd). done.
  - by rewrite list_lookup_insert_ne in He by lia.
Qed.

(** The invariant when other descriptors remain on the file. *)
Lemma close_shared_inv ext v p n d f :
  fd_inv ext v p -> 0 <= n -> fds p !! Z.to_nat n = Some (Some d) -> files v !! Z.to_nat (sys_fd d) = Some (Some f) ->
  fd_inv ext (set_files v (<[Z.to_nat (sys_fd d) := Some (set_rc f (rc f - 1))]> (files v)))
    (mkProc (<[Z.to_nat n := None]> (fds p)) (Z.min (p_lowest p) n)).
Proof.
  intros Hinv Hn Hd Hf. destruct (inv_ref _ _ _ Hinv n d Hn Hd) as (_ & Hs & _). pose proof (table_bound _ _ _ _ _ Hinv Hn Hd) as Hlt.
  pose proof (lookup_lt_Some _ _ _ Hf) as Hlf.
  assert (forall i g', 0 <= i -> <[Z.to_nat (sys_fd d) := Some (set_rc f (rc f - 1))]> (files v) !! Z.to_nat i = Some (Some g') ->
    exists g, files v !! Z.to_nat i = Some (Some g) /\ f_kind g' = f_kind g /\ f_fd g' = f_fd g /\ rc g' = rc g - (if sys_fd d =? i then 1 else 0)) as Hold.
  { intros i g' Hi Hg. destruct (decide (i = sys_fd d)) as [->|Hne].
    - rewrite list_lookup_insert_eq in Hg by done. injection Hg as <-. exists f. by rewrite Z.eqb_refl.
    - rewrite list_lookup_insert_ne in Hg by lia. exists g'. rewrite (proj2 (Z.eqb_neq (sys_fd d) i)) by done. split_and!; [done..|lia]. }
  constructor; cbn [files lowest_free_fd set_files fds p_lowest].
  - by eapply lowest_free_update; [apply (inv_files _ _ _ Hinv)|exact Hf|].
  - apply lowest_free_clear; [apply (inv_fds _ _ _ Hinv)|lia].
  - apply (inv_ext _ _ _ Hinv).
  - intros i Hi. destruct (inv_held _ _ _ Hinv i Hi) as [Hi0 Ho]. split; [done|]. by eapply occupied_update.
  - intros i g' Hi Hg'. destruct (Hold i g' Hi Hg') as (g & Hg & _ & -> & ->). destruct (inv_rc _ _ _ Hinv i g Hi Hg) as [? ->].
    split; [done|]. rewrite (refs_clear p n d i Hd). lia.
  - intros i e Hi He. destruct (closed_ref _ _ _ _ _ _ _ Hinv Hn Hd Hi He) as [He' _].
    destruct (inv_ref _ _ _ Hinv i e Hi He') as (? & ? & x & Hx). split_and!; [done|done|].
    destruct (decide (sys_fd e = sys_fd d)) as [->|]; [eexists; by apply list_lookup_insert_eq|]. exists x. by rewrite list_lookup_insert_ne by lia.
  - intros i g' e o b Hi Hg' Hk. destruct (Hold i g' Hi Hg') as (g & Hg & Hkg & _). rewrite Hkg in Hk.
    destruct (inv_pipe _ _ _ Hinv i g e o b Hi Hg Hk) as (Ho & Hoi & h & Hh & Hkh). split_and!; [done|done|].
    destruct (decide (o = sys_fd d)) as [->|]; [|exists h; by rewrite list_lookup_insert_ne by lia].
    exists (set_rc f (rc f - 1)). rewrite list_lookup_insert_eq by done. split; [done|]. simpl. congruence.
Qed.

(** The invariant when the file goes with its last descriptor. *)
Lemma close_last_inv ext v p n d f v' :
  fd_inv ext v p -> 0 <= n -> fds p !! Z.to_nat n = Some (Some d) -> files v !! Z.to_nat (sys_fd d) = Some (Some f) -> rc f = 1 ->
  length (files v') = length (files v) -> files v' !! Z.to_nat (sys_fd d) = Some None -> lowest_free_fd v' = Z.min (lowest_free_fd v) (sys_fd d) ->
  (forall i, 0 <= i -> i <> sys_fd d -> files v' !! Z.to_nat i = fmap (fmap (unlinked (sys_fd d))) (files v !! Z.to_nat i)) ->
  fd_inv ext v' (mkProc (<[Z.to_nat n := None]> (fds p)) (Z.min (p_lowest p) n)).
Proof.
  intros Hinv Hn Hd Hf Hrc Hlen Hnone Hlow Hfiles. set (s := sys_fd d) in *.
  destruct (inv_ref _ _ _ Hinv n d Hn Hd) as (_ & Hs & _). pose proof (table_bound _ _ _ _ _ Hinv Hn Hd) as Hlt.
  fold s in Hs. pose proof (inv_files _ _ _ Hinv) as (Hl & Hlo & Hocc & Hfree).
  destruct (inv_rc _ _ _ Hinv s f Hs Hf) as [_ Hrcs]. pose proof (inv_ext _ _ _ Hinv s) as Hext.
  assert (forall i g', 0 <= i -> files v' !! Z.to_nat i = Some (Some g') -> i <> s /\ exists g, files v !! Z.to_nat i = Some (Some g) /\ g' = unlinked s g) as Hold.
  { intros i g' Hi Hg'. destruct (decide (i = s)) as [->|Hne]; [congruence|]. split; [done|]. rewrite Hfiles in Hg' by done.
    destruct (files v !! Z.to_nat i) as [[g|]|]; simplify_eq/=. by exists g. }
  assert (forall i, 0 <= i -> i <> s -> occupied (files v) i -> occupied (files v') i) as Hkeep.
  { intros i Hi Hne [x Hx]. exists (unlinked s x). by rewrite Hfiles, Hx. }
  constructor; cbn [fds p_lowest].
  - split_and!; [lia|lia|lia| |].
    + intros i Hi. apply Hkeep; [lia|lia|]. apply Hocc. lia.
    + intros Hlt'. rewrite Hlow. destruct (Z.min_spec (lowest_free_fd v) s) as [[H1 ->]|[H1 ->]]; [|done].
      rewrite Hfiles, Hfree by lia. done.
  - apply lowest_free_clear; [apply (inv_fds _ _ _ Hinv)|lia].
  - apply (inv_ext _ _ _ Hinv).
  - intros i Hi. destruct (inv_held _ _ _ Hinv i Hi) as [Hi0 Ho]. split; [done|]. apply Hkeep; [done| |done].
    intros ->. pose proof (refs_pos _ _ _ Hd) as Hpos. fold s in Hpos. lia.
  - intros i g' Hi Hg'. destruct (Hold i g' Hi Hg') as (Hne & g & Hg & ->). destruct (unlinked_same s g) as [-> ->].
    destruct (inv_rc _ _ _ Hinv i g Hi Hg) as [? ->]. split; [done|]. rewrite (refs_clear p n d i Hd).
    fold s. rewrite (proj2 (Z.eqb_neq s i)) by done. lia.
  - intros i e Hi He. pose proof (refs_pos _ _ _ He) as Hpos. rewrite (refs_clear p n d _ Hd) in Hpos. fold s in Hpos.
    destruct (closed_ref _ _ _ _ _ _ _ Hinv Hn Hd Hi He) as [He' _].
    destruct (inv_ref _ _ _ Hinv i e Hi He') as (Hfe & Hse & Hoe). split_and!; [done|done|]. apply Hkeep; [done| |done].
    intros E. rewrite E, Z.eqb_refl in Hpos. lia.
  - intros i g' e o b Hi Hg' Hk. destruct (Hold i g' Hi Hg') as (Hne & g & Hg & ->). unfold unlinked in Hk.
    destruct (f_kind g) as [| |e' [o'|] b'] eqn:Hkg; try congruence. destruct (Z.eqb_spec o' s) as [->|Hos]; [done|]. rewrite Hkg in Hk. injection Hk as -> -> ->.
    destruct (inv_pipe _ _ _ Hinv i g e o b Hi Hg Hkg) as (Ho & Hoi & h & Hh & Hkh). split_and!; [done|done|].
    exists (unlinked s h). rewrite Hfiles, Hh by done. split; [done|]. unfold unlinked. rewrite Hkh.
    by rewrite (proj2 (Z.eqb_neq i s)) by done.
Qed.

Lemma release_fd_spec ext v p n d f :
  fd_inv ext v p -> 0 <= n -> fds p !! Z.to_nat n = Some (Some d) -> files v !! Z.to_nat (sys_fd d) = Some (Some f) ->
  release_fd v p n = Ok (set_files v (<[Z.to_nat (sys_fd d) := Some (set_rc f (rc f - 1))]> (files v)),
                         mkProc (<[Z.to_nat n := None]> (fds p)) (Z.min (p_lowest p) n)).
Proof.
  intros Hinv Hn Hd Hf. destruct (inv_ref _ _ _ Hinv n d Hn Hd) as (_ & Hs & _). unfold release_fd, delete_file_descriptor.
  rewrite (proj2 (cell_lookup _ _ _) (conj Hn Hd)). run. rewrite (file_at_spec _ _ _ Hs Hf). run.
  rewrite (put_file_spec _ _ _ _ Hs Hf). run. by rewrite (set_cell_lookup _ _ _ _ Hn Hd).
Qed.

(** What [Process::close] does on an open descriptor. *)
Lemma close_spec ext v p n d f :
  fd_inv ext v p -> 0 <= n -> fds p !! Z.to_nat n = Some (Some d) -> files v !! Z.to_nat (sys_fd d) = Some (Some f) ->
  exists v', let p' := mkProc (<[Z.to_nat n := None]> (fds p)) (Z.min (p_lowest p) n) in
    close v p n = Ok (v', p', Val 0) /\ fd_inv ext v' p' /\ buffers v' = buffers v /\
    (1 < rc f -> files v' = <[Z.to_nat (sys_fd d) := Some (set_rc f (rc f - 1))]> (files v) /\ wakes v' = wakes v) /\
    (rc f = 1 -> files v' !! Z.to_nat (sys_fd d) = Some None /\ wakes v' = closing_wakes (sys_fd d) f ++ wakes v /\
      forall i, 0 <= i -> i <> sys_fd d -> files v' !! Z.to_nat i = fmap (fmap (unlinked (sys_fd d))) (files v !! Z.to_nat i)).
Proof.
  intros Hinv Hn Hd Hf. destruct (inv_ref _ _ _ Hinv n d Hn Hd) as (_ & Hs & _).
  destruct (descriptor_file _ _ _ _ _ Hinv Hn Hd) as (f' & _ & Hf' & _ & _ & Hrc1). assert (f' = f) as -> by congruence.
  unfold close. rewrite (proc_to_sys_fd_open _ _ _ _ _ Hinv Hn Hd). run. rewrite (proj2 (Z.eqb_neq (sys_fd d) (-1))) by lia.
  rewrite (release_fd_spec _ _ _ _ _ _ Hinv Hn Hd Hf). run. set (s := sys_fd d) in *.
  remember (rc f - 1) as k eqn:Hz. set (v1 := set_files v _).
  pose proof (lookup_lt_Some _ _ _ Hf) as Hlf.
  assert (file_at v1 s = Ok (Some (set_rc f k))) as Hat by (apply file_at_spec; [done|]; apply list_lookup_insert_eq; done).
  unfold vfs_close. rewrite Hat. run. cbn [rc set_rc]. destruct (Z.eqb_spec k 0) as [->|Hk].
  - assert (files v1 = <[Z.to_nat s := Some (set_rc f 0)]> (files v)) as Hv1 by done.
    destruct (pipe_ends _ _ _ _ _ v1 Hinv Hs Hf Hv1) as (w & r & Hw & Hr & Hwake).
    rewrite Hw, Hr. run.
    destruct (delete_file_spec _ _ _ _ _ v1 Hinv Hs Hf Hv1) as (v2 & Hd2 & Hlow2 & Hb2 & Hw2 & Hlen2 & Hfiles2).
    rewrite Hd2. run. destruct (lookup_lt_is_Some_2 (files v2) (Z.to_nat s)) as [x Hx]; [lia|]. rewrite (put_file_spec _ _ _ _ Hs Hx). run.
    eexists. split; [done|]. set (v3 := set_lowest _ _).
    assert (forall b : bool, files (if b then add_wake v3 (w, r, 0) else v3) = <[Z.to_nat s := None]> (files v2)) as Hv3 by (by intros []).
    split; [|split; [by destruct (_ && _)|split; [lia|]]].
    + apply (close_last_inv ext v p n d f); try done; [lia|by rewrite Hv3, length_insert|rewrite Hv3; apply list_lookup_insert_eq; lia|by destruct (_ && _); simpl; rewrite Hlow2|].
      intros i Hi Hne. rewrite Hv3, list_lookup_insert_ne by lia. by apply Hfiles2.
    + intros _. split_and!; [rewrite Hv3; apply list_lookup_insert_eq; lia| |].
      * rewrite <- Hwake. destruct (_ && _); simpl; by rewrite Hw2.
      * intros i Hi Hne. rewrite Hv3, list_lookup_insert_ne by lia. by apply Hfiles2.
  - exists v1. split_and!; [done|unfold v1; rewrite Hz; by apply close_shared_inv|done|done|lia].
Qed.

(** When a process ends all its descriptors are closed: the files have the references that others hold, and nothing is left in its table. *)
Lemma close_from_ok ext n : forall i v p, fd_inv ext v p -> 0 <= i -> i + Z.of_nat n = MAX_FD_PER_PROCESS -> (forall k, 0 <= k < i -> fds p !! Z.to_nat k = Some None) ->
  exists v' p', close_from n i v p = Ok (v', p') /\ fd_inv ext v' p' /\ forall k, 0 <= k < MAX_FD_PER_PROCESS -> fds p' !! Z.to_nat k = Some None.
Proof.
  induction n as [|n IH]; intros i v p Hinv Hi Hn Hlow.
  { exists v, p. split_and!; [done..|]. intros k Hk. apply Hlow. lia. }
  cbn [close_from]. destruct (inv_fds _ _ _ Hinv) as (Hlen & _).
  destruct (lookup_lt_is_Some_2 (fds p) (Z.to_nat i)) as [c Hc]; [lia|]. rewrite (proj2 (cell_lookup _ _ _) (conj Hi Hc)). run. destruct c as [d|].
  - destruct (inv_ref _ _ _ Hinv i d Hi Hc) as (-> & _). destruct (descriptor_file _ _ _ _ _ Hinv Hi Hc) as (f & _ & Hf & _).
    destruct (close_spec ext v p i d f Hinv Hi Hc Hf) as (v' & E & Hinv' & _). rewrite E. run.
    apply IH; [done|lia|lia|]. intros k Hk. cbn [fds]. destruct (decide (k = i)) as [->|]; [apply list_lookup_insert_eq; lia|].
    rewrite list_lookup_insert_ne by lia. apply Hlow. lia.
  - apply IH; [done|lia|lia|]. intros k Hk. destruct (decide (k = i)) as [->|]; [done|]. apply Hlow. lia.
Qed.

Theorem exit_closes_descriptors ext v p : fd_inv ext v p ->
  exists v' p', close_descriptors v p = Ok (v', p') /\ fd_inv ext v' p' /\ (forall n, ~ is_open p' n) /\
    forall i f, 0 <= i -> files v' !! Z.to_nat i = Some (Some f) -> rc f = ext i.
Proof.
  intros Hinv. destruct (close_from_ok ext (Z.to_nat MAX_FD_PER_PROCESS) 0 v p Hinv) as (v' & p' & E & Hinv' & Hnone); [done|done|lia|].
  exists v', p'. split; [done|]. split; [done|]. assert (forall k d, fds p' !! k <> Some (Some d)) as Hno.
  { intros k d Hd. destruct (inv_fds _ _ _ Hinv') as (Hlen & _). pose proof (lookup_lt_Some _ _ _ Hd). specialize (Hnone (Z.of_nat k) ltac:(lia)). rewrite Nat2Z.id in Hnone. congruence. }
  split; [intros n (_ & d & Hd); by apply Hno in Hd|]. intros i f Hi Hf. destruct (inv_rc _ _ _ Hinv' i f Hi Hf) as [_ ->].
  assert (forall l, (forall k d, l !! k <> Some (Some d)) -> refs l i = 0) as Hr.
  { intros l. induction l as [|c l IH]; intros Hl; [done|]. cbn [refs foldr]. rewrite <- (IH (fun k => Hl (S k))). destruct c as [d|]; [by destruct (Hl O d)|]. done. }
  rewrite Hr by done. lia.
Qed.

(** ** Duplicating *)

(** The lowest free descriptor, if there is one. *)
Lemma dup_spec ext v p n d f :
  fd_inv ext v p -> 0 <= n -> fds p !! Z.to_nat n = Some (Some d) -> files v !! Z.to_nat (sys_fd d) = Some (Some f) ->
  if p_lowest p <? MAX_FD_PER_PROCESS then
    exists v' j, let p' := mkProc (<[Z.to_nat (p_lowest p) := Some (mkFd (p_lowest p) (sys_fd d) false)]> (fds p)) j in
      dup v p n = Ok (v', p', Val (p_lowest p)) /\ fd_inv ext v' p' /\
      files v' = <[Z.to_nat (sys_fd d) := Some (set_rc f (rc f + 1))]> (files v)
  else dup v p n = Ok (v, p, Err EMFILE).
Proof.
  intros Hinv Hn Hd Hf. destruct (inv_ref _ _ _ Hinv n d Hn Hd) as (_ & Hs & _).
  unfold dup. rewrite (proc_to_sys_fd_open _ _ _ _ _ Hinv Hn Hd). run. rewrite (proj2 (Z.eqb_neq (sys_fd d) (-1))) by lia.
  pose proof (inv_fds _ _ _ Hinv) as (Hl & Hlow & _ & Hfree). destruct (Z.ltb_spec (p_lowest p) MAX_FD_PER_PROCESS) as [Hlt|Hge].
  - destruct (get_free_fd_spec _ _ _ Hinv Hlt) as (j & -> & Hj & _ & _ & Htake). run.
    rewrite (proj2 (Z.eqb_neq (p_lowest p) (-1))) by lia.
    rewrite (install_eq v (mkProc (fds p) j) (p_lowest p) (sys_fd d) f false (proj1 Hlow) (Hfree Hlt) Hs Hf). run.
    eexists _, j. split; [done|]. split; [|done]. by apply install_inv; try done; try lia; apply Hfree.
  - rewrite get_free_fd_full by lia. done.
Qed.

(** [dup2] onto a free or an open descriptor. *)
Lemma dup2_spec ext v p n d newfd :
  fd_inv ext v p -> 0 <= n -> fds p !! Z.to_nat n = Some (Some d) -> 0 <= newfd < MAX_FD_PER_PROCESS -> n <> newfd ->
  exists v' j, let p' := mkProc (<[Z.to_nat newfd := Some (mkFd newfd (sys_fd d) false)]> (fds p)) j in
    dup2 v p n newfd = Ok (v', p', Val newfd) /\ fd_inv ext v' p'.
Proof.
  intros Hinv Hn Hd Hnew Hne. destruct (descriptor_file _ _ _ _ _ Hinv Hn Hd) as (f & Hs & Hf & _).
  unfold dup2. rewrite (proc_to_sys_fd_open _ _ _ _ _ Hinv Hn Hd). run. rewrite (proj2 (Z.eqb_neq (sys_fd d) (-1))) by lia.
  rewrite (proj2 (Z.eqb_neq n newfd)) by done. pose proof (inv_fds _ _ _ Hinv) as (Hl & _).
  destruct (lookup_lt_is_Some_2 (fds p) (Z.to_nat newfd)) as [o Ho]; [lia|].
  rewrite (proj2 (cell_lookup _ _ _) (conj (proj1 Hnew) Ho)). run.
  assert (exists v1 p1, (match o with Some _ => '(v, p, _) ← close v p newfd; Ok (v, p) | None => Ok (v, p) end) = Ok (v1, p1) /\
    fd_inv ext v1 p1 /\ fds p1 = <[Z.to_nat newfd := None]> (fds p)) as (v1 & p1 & -> & Hinv1 & Hp1).
  { destruct o as [e|].
    - destruct (descriptor_file _ _ _ _ _ Hinv (proj1 Hnew) Ho) as (g & _ & Hg & _).
      destruct (close_spec _ _ _ _ _ _ Hinv (proj1 Hnew) Ho Hg) as (v1 & -> & Hinv1 & _). run. by eexists _, _.
    - exists v, p. split_and!; [done|done|]. by rewrite list_insert_id. }
  run. assert (fds p1 !! Z.to_nat n = Some (Some d)) as Hd1 by (rewrite Hp1, list_lookup_insert_ne by lia; done).
  assert (fds p1 !! Z.to_nat newfd = Some None) as Hnone by (rewrite Hp1; apply list_lookup_insert_eq; by apply lookup_lt_Some in Ho).
  destruct (descriptor_file _ _ _ _ _ Hinv1 Hn Hd1) as (f1 & _ & Hf1 & _).
  rewrite (install_eq v1 p1 newfd (sys_fd d) f1 false (proj1 Hnew) Hnone Hs Hf1). run. cbn [fds p_lowest].
  destruct (lowest_free_store (fds p1) MAX_FD_PER_PROCESS (p_lowest p1) newfd (mkFd newfd (sys_fd d) false) (inv_fds _ _ _ Hinv1) Hnew) as (j & Hj & Hlow).
  rewrite Hj. run. eexists _, j. pose proof (install_inv ext v1 p1 newfd (sys_fd d) f1 false j Hinv1 (proj1 Hnew) Hnone Hs Hf1 Hlow) as Hi.
  rewrite Hp1, list_insert_insert_eq in Hi |- *. split; [done|exact Hi].
Qed.

(** ** Pipes *)

Lemma next_null_insert {A} n (l : list (option A)) i k o : 0 <= i < k -> next_null n (<[Z.to_nat i := o]> l) k = next_null n l k.
Proof.
  revert k. induction n as [|n IH]; intros k Hk; [done|]. cbn [next_null].
  assert (cell (<[Z.to_nat i := o]> l) k = cell l k) as ->.
  { unfold cell. destruct (0 <=? k); [|done]. by rewrite list_lookup_insert_ne by lia. }
  destruct (cell l k) as [[x|]| | |]; run; try done. apply IH. lia.
Qed.

(** The two lowest free cells, taken one after the other before anything is stored. *)
Lemma take_two {A} (l : list (option A)) lim r :
  lowest_free l lim r -> r < lim ->
  exists w, next_null (Z.to_nat (lim - (r + 1))) l (r + 1) = Ok w /\ r < w <= lim /\ (forall x, lowest_free (<[Z.to_nat r := Some x]> l) lim w) /\
    (w < lim -> l !! Z.to_nat w = Some None /\
      exists j, next_null (Z.to_nat (lim - (w + 1))) l (w + 1) = Ok j /\ w < j /\
        forall x y, lowest_free (<[Z.to_nat w := Some y]> (<[Z.to_nat r := Some x]> l)) lim j).
Proof.
  intros Hl Hr. destruct (lowest_free_take _ _ _ Hl Hr) as (w & Hw & Hrw & Hwl & Hnone & Htake).
  exists w. split_and!; [done|lia|lia|done|]. intros Hlt. split; [by apply Hnone|]. pose proof Hl as (_ & Hr0 & _).
  assert (forall x, exists j, next_null (Z.to_nat (lim - (w + 1))) l (w + 1) = Ok j /\ w < j /\
    forall y, lowest_free (<[Z.to_nat w := Some y]> (<[Z.to_nat r := Some x]> l)) lim j) as H.
  { intros x. destruct (lowest_free_take _ _ _ (Htake x) Hlt) as (j & Hj & Hwj & _ & _ & Hj'). exists j.
    rewrite next_null_insert in Hj by lia. done. }
  destruct (next_null (Z.to_nat (lim - (w + 1))) l (w + 1)) as [j| | |] eqn:E.
  2-4: exfalso; destruct (next_null_spec (Z.to_nat (lim - (w + 1))) l (w + 1)) as (j & Hj & _); [lia|destruct Hl; lia|congruence].
  exists j. split; [done|]. assert (w < j) as Hwj.
  { destruct (next_null_spec (Z.to_nat (lim - (w + 1))) l (w + 1)) as (j' & Hj & ? & _); [lia|destruct Hl; lia|]. assert (j' = j) by congruence. lia. }
  split; [done|]. intros x y. destruct (H x) as (j' & [= <-] & _ & Hy). apply Hy.
Qed.

(** A free slot of the system table is the target of no descriptor. *)
Lemma free_unreferenced ext v p s : fd_inv ext v p -> 0 <= s -> files v !! Z.to_nat s = Some None -> refs (fds p) s = 0 /\ ext s = 0.
Proof.
  intros Hinv Hs Hnone. split.
  - assert (forall i d, fds p !! i = Some (Some d) -> sys_fd d <> s) as Hno.
    { intros i d Hd E. destruct (inv_ref _ _ _ Hinv (Z.of_nat i) d) as (_ & _ & x & Hx); [lia|by rewrite Nat2Z.id|]. rewrite E in Hx. congruence. }
    clear -Hno. induction (fds p) as [|o l IH]; [done|]. simpl. rewrite IH by (intros i d Hd; apply (Hno (S i) d Hd)).
    destruct o as [d|]; [|done]. simpl. by rewrite (proj2 (Z.eqb_neq (sys_fd d) s) (Hno 0%nat d eq_refl)).
  - pose proof (inv_ext _ _ _ Hinv s). destruct (decide (ext s = 0)); [done|].
    destruct (inv_held _ _ _ Hinv s) as [_ [x Hx]]; [lia|congruence].
Qed.

Lemma vfs_get_free_fd_at v i j :
  lowest_free_fd v = i -> 0 <= i < MAX_FD -> Z.of_nat (length (files v)) = MAX_FD -> files v !! Z.to_nat i = Some None ->
  next_null (Z.to_nat (MAX_FD - (i + 1))) (files v) (i + 1) = Ok j -> vfs_get_free_fd v = Ok (set_lowest v j, i).
Proof.
  intros Hi Hlt Hl Hnone Hj. unfold vfs_get_free_fd. rewrite Hi, u32_id by (unfold is_u32, MAX_FD in *; lia).
  destruct (Z.to_nat (MAX_FD - i)) eqn:E; [unfold MAX_FD in *; lia|]. cbn [next_null].
  rewrite (proj2 (cell_lookup _ _ _) (conj (proj1 Hlt) Hnone)). run. rewrite (proj2 (Z.ltb_lt i MAX_FD)) by lia. by rewrite Hj.
Qed.

(** Another free cell above the lowest one. *)
Definition two_free {A} (l : list (option A)) (lim low : Z) : Prop := low < lim /\ exists k, low < k < lim /\ l !! Z.to_nat k = Some None.

Lemma second_free {A} (l : list (option A)) lim r w (x : A) :
  0 <= r -> two_free l lim r -> lowest_free (<[Z.to_nat r := Some x]> l) lim w -> w < lim.
Proof.
  intros Hr0 (Hr & k & Hk & Hnone) (_ & Hw & Hocc & _). destruct (decide (w <= k)); [lia|].
  destruct (Hocc k) as [y Hy]; [lia|]. rewrite list_lookup_insert_ne in Hy by lia. congruence.
Qed.

(** The two ends of a new pipe. *)
Definition read_end (r w : Z) (b : positive) : file := mkFile r 0 0 0 (KPipe PRead (Some w) b).
Definition write_end (r w : Z) (b : positive) : file := mkFile w 0 0 0 (KPipe PWrite (Some r) b).

Lemma pipe_inv ext v p r w b j v' :
  fd_inv ext v p -> 0 <= r < w -> w < MAX_FD -> files v !! Z.to_nat r = Some None -> files v !! Z.to_nat w = Some None ->
  files v' = <[Z.to_nat w := Some (write_end r w b)]> (<[Z.to_nat r := Some (read_end r w b)]> (files v)) -> lowest_free_fd v' = j ->
  lowest_free (files v') MAX_FD j -> fd_inv ext v' p.
Proof.
  intros Hinv Hr Hw Hnr Hnw Hfiles Hj Hlow. pose proof (lookup_lt_Some _ _ _ Hnr) as Hlr. pose proof (lookup_lt_Some _ _ _ Hnw) as Hlw.
  assert (files v' !! Z.to_nat w = Some (Some (write_end r w b))) as Hew by (rewrite Hfiles; apply list_lookup_insert_eq; by rewrite length_insert).
  assert (files v' !! Z.to_nat r = Some (Some (read_end r w b))) as Her by (rewrite Hfiles, list_lookup_insert_ne by lia; by apply list_lookup_insert_eq).
  assert (forall i, 0 <= i -> i <> r -> i <> w -> files v' !! Z.to_nat i = files v !! Z.to_nat i) as Hold by (intros; rewrite Hfiles, !list_lookup_insert_ne by lia; done).
  assert (forall i, 0 <= i -> occupied (files v) i -> occupied (files v') i) as Hkeep.
  { intros i Hi [x Hx]. exists x. rewrite Hold; [done|done|intros ->; congruence|intros ->; congruence]. }
  constructor; try apply Hinv.
  - by rewrite Hj.
  - intros s Hs. destruct (inv_held _ _ _ Hinv s Hs) as [? ?]. split; [done|by apply Hkeep].
  - intros i f Hi Hf. destruct (decide (i = r)) as [->|]; [|destruct (decide (i = w)) as [->|]].
    + destruct (free_unreferenced _ _ _ _ Hinv Hi Hnr) as [-> ->]. assert (f = read_end r w b) as -> by congruence. done.
    + destruct (free_unreferenced _ _ _ _ Hinv Hi Hnw) as [-> ->]. assert (f = write_end r w b) as -> by congruence. done.
    + rewrite Hold in Hf by done. by apply (inv_rc _ _ _ Hinv).
  - intros i d Hi Hd. destruct (inv_ref _ _ _ Hinv i d Hi Hd) as (? & ? & ?). split_and!; [done|done|by apply Hkeep].
  - intros i f e o b' Hi Hf Hk. destruct (decide (i = r)) as [->|]; [|destruct (decide (i = w)) as [->|]].
    + assert (f = read_end r w b) as -> by congruence. injection Hk as <- <- <-. split_and!; [lia|lia|]. by eexists.
    + assert (f = write_end r w b) as -> by congruence. injection Hk as <- <- <-. split_and!; [lia|lia|]. by eexists.
    + rewrite Hold in Hf by done. destruct (inv_pipe _ _ _ Hinv i f e o b' Hi Hf Hk) as (Ho & Hoi & g & Hg & Hkg). split_and!; [done|done|].
      exists g. rewrite Hold; [done|done|intros ->; congruence|intros ->; congruence].
Qed.

Lemma vfs_pipe_spec ext v p cells :
  fd_inv ext v p -> two_free (files v) MAX_FD (lowest_free_fd v) ->
  exists v' w b, vfs_pipe v cells = Ok (v', (Val 0, (lowest_free_fd v, w))) /\ fd_inv ext v' p /\ lowest_free_fd v < w < MAX_FD /\ files v !! Z.to_nat w = Some None /\
    buffers v !! b = None /\ buffers v' = <[b := mkBuffer cells BUF_SIZE 0 0]> (buffers v) /\
    files v' = <[Z.to_nat w := Some (write_end (lowest_free_fd v) w b)]> (<[Z.to_nat (lowest_free_fd v) := Some (read_end (lowest_free_fd v) w b)]> (files v)).
Proof.
  intros Hinv Htwo. pose proof (inv_files _ _ _ Hinv) as Hf. pose proof Hf as (Hl & Hr0 & _ & Hnone). set (r := lowest_free_fd v) in *.
  destruct (take_two _ _ _ Hf (proj1 Htwo)) as (w & Hw & Hrw & Hlow1 & Hrest).
  assert (w < MAX_FD) as Hwlt by exact (second_free _ _ _ _ (read_end r w 1) (proj1 Hr0) Htwo (Hlow1 _)).
  destruct (Hrest Hwlt) as (Hnw & j & Hj & Hwj & Hlow2). specialize (Hnone (proj1 Htwo)).
  set (b := fresh (dom (buffers v))). unfold vfs_pipe.
  rewrite (vfs_get_free_fd_at v r w) by (done || lia). run. rewrite (proj2 (Z.eqb_neq r (-1))) by lia.
  rewrite (vfs_get_free_fd_at (set_lowest v w) w j) by (done || lia). run. rewrite (proj2 (Z.eqb_neq w (-1))) by lia.
  unfold create_pipe. cbn [buffers set_lowest]. fold b.
  set (v1 := set_buffers _ _). rewrite (put_file_spec v1 r _ None) by (done || lia). run. set (v2 := set_files v1 _).
  rewrite (put_file_spec v2 w _ None); [|lia|cbn [v2 files set_files]; rewrite list_lookup_insert_ne by lia; done]. run. cbn [f_fd].
  set (v3 := set_files v2 _). exists v3, w, b. split; [done|].
  assert (files v3 = <[Z.to_nat w := Some (write_end r w b)]> (<[Z.to_nat r := Some (read_end r w b)]> (files v))) as Hv3 by done.
  split; [|split_and!; [lia|lia|done|by apply not_elem_of_dom, is_fresh|done|done]].
  apply (pipe_inv ext v p r w b j v3 Hinv); try done; try lia. rewrite Hv3. apply Hlow2.
Qed.

Lemma get_free_fd_at p i j :
  p_lowest p = i -> 0 <= i < MAX_FD_PER_PROCESS -> fds p !! Z.to_nat i = Some None ->
  next_null (Z.to_nat (MAX_FD_PER_PROCESS - (i + 1))) (fds p) (i + 1) = Ok j -> get_free_fd p = Ok (mkProc (fds p) j, i).
Proof.
  intros <- Hlt Hnone Hj. unfold get_free_fd. rewrite (proj2 (Z.eqb_neq (p_lowest p) MAX_FD_PER_PROCESS)) by lia.
  rewrite (proj2 (cell_lookup _ _ _) (conj (proj1 Hlt) Hnone)). run. by rewrite Hj.
Qed.

Lemma pipe_spec ext v p cells :
  fd_inv ext v p -> two_free (files v) MAX_FD (lowest_free_fd v) -> two_free (fds p) MAX_FD_PER_PROCESS (p_lowest p) ->
  exists v' p' wfd r w b, pipe v p cells = Ok (v', p', Val 0, (p_lowest p, wfd)) /\ fd_inv ext v' p' /\
    (p_lowest p < wfd /\ fds p !! Z.to_nat wfd = Some None /\ forall k, 0 <= k < wfd -> k <> p_lowest p -> occupied (fds p) k) /\ r < w /\
    fds p' = <[Z.to_nat wfd := Some (mkFd wfd w false)]> (<[Z.to_nat (p_lowest p) := Some (mkFd (p_lowest p) r false)]> (fds p)) /\
    files v !! Z.to_nat r = Some None /\ files v !! Z.to_nat w = Some None /\
    files v' !! Z.to_nat r = Some (Some (set_rc (read_end r w b) 1)) /\ files v' !! Z.to_nat w = Some (Some (set_rc (write_end r w b) 1)) /\
    buffers v' !! b = Some (mkBuffer cells BUF_SIZE 0 0) /\ (forall c, c <> b -> buffers v' !! c = buffers v !! c).
Proof.
  intros Hinv Hv2 Hp2. pose proof (inv_fds _ _ _ Hinv) as Hf. pose proof Hf as (Hl & Hr0 & _ & Hnone). specialize (Hnone (proj1 Hp2)).
  destruct (take_two _ _ _ Hf (proj1 Hp2)) as (wfd & Hw & Hrw & Hlow1 & Hrest).
  assert (wfd < MAX_FD_PER_PROCESS) as Hwlt by exact (second_free _ _ _ _ (mkFd 0 0 false) (proj1 Hr0) Hp2 (Hlow1 _)).
  destruct (Hrest Hwlt) as (Hnw & j & Hj & Hwj & Hlow2). unfold pipe.
  rewrite (get_free_fd_at p (p_lowest p) wfd) by (done || lia). run. rewrite (proj2 (Z.eqb_neq (p_lowest p) (-1))) by lia.
  rewrite (get_free_fd_at (mkProc (fds p) wfd) wfd j) by (done || lia). run. rewrite (proj2 (Z.eqb_neq wfd (-1))) by lia. cbn [fds].
  pose proof (inv_files _ _ _ Hinv) as (HL & Hv0 & _ & Hvnone). specialize (Hvnone (proj1 Hv2)).
  destruct (vfs_pipe_spec ext v p cells Hinv Hv2) as (v1 & w & b & -> & Hinv1 & Hrw1 & Hnw1 & Hb & Hbuf & Hfiles). run.
  set (r := lowest_free_fd v) in *. set (rfd := p_lowest p) in *.
  assert (files v1 !! Z.to_nat r = Some (Some (read_end r w b))) as Her.
  { rewrite Hfiles, list_lookup_insert_ne by lia. apply list_lookup_insert_eq. lia. }
  assert (files v1 !! Z.to_nat w = Some (Some (write_end r w b))) as Hew.
  { rewrite Hfiles. apply list_lookup_insert_eq. rewrite length_insert. lia. }
  rewrite (install_eq v1 (mkProc (fds p) j) rfd r _ false (proj1 Hr0) Hnone (proj1 Hv0) Her). run.
  set (v2 := set_files v1 _). cbn [fds p_lowest]. set (l1 := <[Z.to_nat rfd := _]> (fds p)).
  assert (fd_inv ext v2 (mkProc l1 wfd)) as Hinv2 by (apply (install_inv ext v1 p rfd r (read_end r w b) false wfd); try done; try lia; apply Hlow1).
  assert (l1 !! Z.to_nat wfd = Some None) as Hl1 by (unfold l1; rewrite list_lookup_insert_ne by lia; done).
  assert (files v2 !! Z.to_nat w = Some (Some (write_end r w b))) as Hew2 by (unfold v2; cbn [files set_files]; rewrite list_lookup_insert_ne by lia; done).
  rewrite (install_eq v2 (mkProc l1 j) wfd w _ false ltac:(lia) Hl1 ltac:(lia) Hew2). run. cbn [fds p_lowest].
  eexists _, _, wfd, r, w, b. split; [done|]. split.
  { apply (install_inv ext v2 (mkProc l1 wfd) wfd w (write_end r w b) false j); try done; try lia; apply Hlow2. }
  cbn [files set_files buffers]. split; [|split_and!; [lia|done|done|done| | | |]].
  { split_and!; [lia|done|]. intros k Hk Hne. destruct (Hlow1 (mkFd 0 0 false)) as (_ & _ & Hocc & _). destruct (Hocc k) as [y Hy]; [lia|].
    exists y. by rewrite list_lookup_insert_ne in Hy by lia. }
  - rewrite list_lookup_insert_ne by lia. apply list_lookup_insert_eq. by apply lookup_lt_Some in Her.
  - apply list_lookup_insert_eq. by apply lookup_lt_Some in Hew2.
  - cbn [v2 buffers set_files]. rewrite Hbuf. apply lookup_insert_eq.
  - intros c Hc. cbn [v2 buffers set_files]. rewrite Hbuf. by rewrite lookup_insert_ne.
Qed.

(** ** The calls of a process keep the tables consistent *)

Inductive fd_call := CClose (n : Z) | CDup (n : Z) | CDup2 (oldfd newfd : Z) | CPipe (cells : list Z).

Definition exec_call (c : fd_call) (v : vfs) (p : proc) : res (vfs * proc * ret) :=
  match c with
  | CClose n => close v p n
  | CDup n => dup v p n
  | CDup2 oldfd newfd => dup2 v p oldfd newfd
  | CPipe cells => '(v, p, r, _) ← pipe v p cells; Ok (v, p, r)
  end.

Lemma one_free_cell {A} (l : list (option A)) lim r w :
  lowest_free l lim r -> r < lim -> ~ two_free l lim r -> r < w <= lim -> (w < lim -> l !! Z.to_nat w = Some None) -> w = lim.
Proof. intros _ Hr Hno Hw Hn. destruct (decide (w < lim)); [|lia]. exfalso. apply Hno. split; [done|]. exists w. split; [lia|by apply Hn]. Qed.

Lemma two_free_or_not {A} (l : list (option A)) lim r : lowest_free l lim r -> two_free l lim r \/ ~ two_free l lim r.
Proof.
  intros (Hl & Hr0 & _ & _). destruct (decide (r < lim)) as [Hr|]; [|right; intros [? _]; lia].
  destruct (next_null_spec (Z.to_nat (lim - (r + 1))) l (r + 1)) as (w & _ & Hw & Hocc & Hn); [lia|lia|].
  destruct (decide (w < lim)) as [Hlt|Hge]; [left; split; [done|]; exists w; split; [lia|by apply Hn; lia]|right].
  intros (_ & k & Hk & Hnk). destruct (Hocc k) as [y Hy]; [lia|]. congruence.
Qed.

(** [VFS::pipe] without two free cells gives the first one back. *)
Lemma vfs_pipe_full ext v p cells :
  fd_inv ext v p -> ~ two_free (files v) MAX_FD (lowest_free_fd v) -> vfs_pipe v cells = Ok (v, (Err ENFILE, (0, 0))).
Proof.
  intros Hinv Hno. pose proof (inv_files _ _ _ Hinv) as Hf. pose proof Hf as (Hl & Hr0 & _ & Hnone). unfold vfs_pipe.
  assert (forall v', lowest_free_fd v' = MAX_FD -> vfs_get_free_fd v' = Ok (v', -1)) as Hfull by (intros v' E; unfold vfs_get_free_fd; by rewrite E).
  destruct (decide (lowest_free_fd v < MAX_FD)) as [Hlt|]; [|rewrite Hfull by lia; done].
  destruct (take_two _ _ _ Hf Hlt) as (w & Hw & Hrw & _ & Hrest).
  assert (w = MAX_FD) as -> by (eapply one_free_cell; try done; intros; by apply Hrest).
  rewrite (vfs_get_free_fd_at v (lowest_free_fd v) MAX_FD) by (auto || lia). run. rewrite (proj2 (Z.eqb_neq _ (-1))) by lia.
  rewrite Hfull by done. run. change (-1 =? -1) with true. cbv iota. cbn [lowest_free_fd set_lowest]. rewrite Z.min_l by lia. by destruct v.
Qed.

Lemma release_free v l n low : 0 <= n -> l !! Z.to_nat n = Some None -> release_fd v (mkProc l low) n = Ok (v, mkProc l (Z.min low n)).
Proof.
  intros Hn Hnone. unfold release_fd. cbn [fds p_lowest]. rewrite (proj2 (cell_lookup _ _ _) (conj Hn Hnone)). run.
  cbn [delete_file_descriptor]. run. rewrite (set_cell_lookup _ _ _ _ Hn Hnone). run. by rewrite list_insert_id.
Qed.

(** [Process::pipe] without two free cells in one of the tables fails and changes nothing. *)
Lemma pipe_full ext v p cells :
  fd_inv ext v p -> ~ (two_free (files v) MAX_FD (lowest_free_fd v) /\ two_free (fds p) MAX_FD_PER_PROCESS (p_lowest p)) ->
  exists e, pipe v p cells = Ok (v, p, Err e, (0, 0)).
Proof.
  intros Hinv Hno. pose proof (inv_fds _ _ _ Hinv) as Hf. pose proof Hf as (Hl & Hr0 & _ & Hnone). unfold pipe.
  destruct (decide (p_lowest p < MAX_FD_PER_PROCESS)) as [Hlt|]; [|rewrite get_free_fd_full by lia; by eexists]. specialize (Hnone Hlt).
  destruct (take_two _ _ _ Hf Hlt) as (w & Hw & Hrw & _ & Hrest).
  rewrite (get_free_fd_at p (p_lowest p) w) by (done || lia). run. rewrite (proj2 (Z.eqb_neq _ (-1))) by lia.
  destruct (decide (w < MAX_FD_PER_PROCESS)) as [Hwlt|].
  - destruct (Hrest Hwlt) as (Hnw & j & Hj & Hwj & _). rewrite (get_free_fd_at (mkProc (fds p) w) w j) by (done || lia). run.
    rewrite (proj2 (Z.eqb_neq w (-1))) by lia. cbn [fds]. rewrite (vfs_pipe_full ext v p cells Hinv).
    2: { intros ?. apply Hno. split; [done|]. split; [done|]. exists w. split; [lia|done]. }
    run. rewrite release_free by (done || lia). run. rewrite release_free by (done || lia). run. exists ENFILE.
    replace (Z.min (Z.min j (p_lowest p)) w) with (p_lowest p) by lia. by destruct p.
  - assert (w = MAX_FD_PER_PROCESS) as -> by lia. rewrite get_free_fd_full by done. run. change (-1 =? -1) with true. cbv iota. cbn [fds].
    rewrite release_free by (done || lia). run. exists EMFILE. rewrite Z.min_r by lia. by destruct p.
Qed.

(** [dup2] does not test its second argument. *)
Definition in_contract (c : fd_call) (p : proc) : Prop :=
  match c with
  | CDup2 oldfd newfd => is_open p oldfd -> oldfd = newfd \/ 0 <= newfd < MAX_FD_PER_PROCESS
  | _ => True
  end.

#[export] Instance is_open_dec p n : Decision (is_open p n).
Proof.
  destruct (decide (0 <= n)) as [Hn|]; [|right; intros [? _]; lia].
  destruct (fds p !! Z.to_nat n) as [[d|]|] eqn:E; [left; split; [done|by exists d]|right..]; intros [_ [d Hd]]; congruence.
Defined.

(** [dup2] of an open descriptor. *)
Lemma dup2_open ext v p n m :
  fd_inv ext v p -> is_open p n ->
  (n = m -> dup2 v p n m = Ok (v, p, Val m)) /\
  (n <> m -> 0 <= m < MAX_FD_PER_PROCESS -> exists v' p', dup2 v p n m = Ok (v', p', Val m) /\ fd_inv ext v' p') /\
  (n <> m -> ~ (0 <= m < MAX_FD_PER_PROCESS) -> dup2 v p n m = Fault).
Proof.
  intros Hinv [Hn [d Hd]]. destruct (inv_ref _ _ _ Hinv n d Hn Hd) as (_ & Hs & _). split_and!.
  - intros <-. unfold dup2. rewrite (proc_to_sys_fd_open _ _ _ _ _ Hinv Hn Hd). run. rewrite (proj2 (Z.eqb_neq (sys_fd d) (-1))) by lia. by rewrite Z.eqb_refl.
  - intros Hne Hr. destruct (dup2_spec _ _ _ _ _ _ Hinv Hn Hd Hr Hne) as (v' & j & H1 & H2). by eexists v', _.
  - intros Hne Hr. unfold dup2. rewrite (proc_to_sys_fd_open _ _ _ _ _ Hinv Hn Hd). run.
    rewrite (proj2 (Z.eqb_neq (sys_fd d) (-1))), (proj2 (Z.eqb_neq n m)) by lia. unfold cell. destruct (Z.leb_spec 0 m); [|done].
    destruct (inv_fds _ _ _ Hinv) as (Hl & _). rewrite lookup_ge_None_2; [done|]. lia.
Qed.

(** Claim C5. With consistent descriptor tables the calls [close], [dup], [dup2] and [pipe] return, with a value or an
    error, and keep the tables consistent: every descriptor designates an open file, the reference count of
    every open file is the number of descriptors on it over all processes, [lowest_free_fd] is the
    lowest free cell in both tables, and the two ends of every pipe designate each other.  The one exception is
    [dup2] of an open descriptor to a number outside the table of the process, which accesses memory behind it. *)
Theorem fd_calls_keep_inv ext c v p :
  fd_inv ext v p ->
  (in_contract c p -> exists v' p' r, exec_call c v p = Ok (v', p', r) /\ fd_inv ext v' p') /\
  (~ in_contract c p -> exec_call c v p = Fault).
Proof.
  intros Hinv. split; [intros Hc|intros Hnc; destruct c as [n|n|n m|cells]; try (exfalso; by apply Hnc)].
  - destruct c as [n|n|n m|cells]; simpl in *.
    + destruct (decide (is_open p n)) as [[Hn [d Hd]]|Hno].
      * destruct (descriptor_file _ _ _ _ _ Hinv Hn Hd) as (f & _ & Hf & _).
        destruct (close_spec _ _ _ _ _ _ Hinv Hn Hd Hf) as (v' & Hcl & Hinv' & _). by eexists _, _, _.
      * exists v, p, (Err EBADF). split; [|done]. unfold close. by rewrite (proc_to_sys_fd_closed _ _ _ _ Hinv Hno).
    + destruct (decide (is_open p n)) as [[Hn [d Hd]]|Hno].
      * destruct (descriptor_file _ _ _ _ _ Hinv Hn Hd) as (f & _ & Hf & _). pose proof (dup_spec _ _ _ _ _ _ Hinv Hn Hd Hf) as H.
        destruct (p_lowest p <? MAX_FD_PER_PROCESS); [destruct H as (v' & j & H1 & H2 & _); by eexists _, _, _|by eexists _, _, _].
      * exists v, p, (Err EBADF). split; [|done]. unfold dup. by rewrite (proc_to_sys_fd_closed _ _ _ _ Hinv Hno).
    + destruct (decide (is_open p n)) as [Ho|Hno].
      * destruct (dup2_open _ _ _ _ m Hinv Ho) as (Hsame & Hin & _). destruct (decide (n = m)) as [->|Hne].
        -- exists v, p, (Val m). by split; [apply Hsame|].
        -- destruct (Hc Ho) as [?|Hr]; [done|]. destruct (Hin Hne Hr) as (v' & p' & H1 & H2). by eexists _, _, _.
      * exists v, p, (Err EBADF). split; [|done]. unfold dup2. by rewrite (proc_to_sys_fd_closed _ _ _ _ Hinv Hno).
    + assert (two_free (files v) MAX_FD (lowest_free_fd v) /\ two_free (fds p) MAX_FD_PER_PROCESS (p_lowest p) \/
        ~ (two_free (files v) MAX_FD (lowest_free_fd v) /\ two_free (fds p) MAX_FD_PER_PROCESS (p_lowest p))) as [[H1 H2]|Hno].
      { pose proof (two_free_or_not _ _ _ (inv_files _ _ _ Hinv)). pose proof (two_free_or_not _ _ _ (inv_fds _ _ _ Hinv)). tauto. }
      * destruct (pipe_spec ext v p cells Hinv H1 H2) as (v' & p' & wfd & r & w & b & -> & Hinv' & _). run. by eexists _, _, _.
      * destruct (pipe_full ext v p cells Hinv Hno) as [e ->]. run. by eexists _, _, _.
  - simpl in *. destruct (decide (is_open p n)) as [Ho|]; [|exfalso; apply Hnc; tauto].
    destruct (dup2_open _ _ _ _ m Hinv Ho) as (_ & _ & Hout). apply Hout; [intros ->|intros Hr]; apply Hnc; auto.
Qed.

(** Standard output on slot 0 of the system table, and nothing else. *)
Definition tty_vfs : vfs := mkVfs (Some (mkFile 0 2 0 1 (KTTY STDOUT)) :: replicate 99 None) 1 ∅ ∅ [].
Definition tty_proc : proc := mkProc (Some (mkFd 0 0 false) :: replicate 19 None) 1.

Lemma lookup_sole {A} (x : A) k i y : (Some x :: replicate k None) !! Z.to_nat i = Some (Some y) -> 0 <= i -> i = 0 /\ x = y.
Proof.
  intros H Hi. destruct (decide (i = 0)) as [->|]; [by injection H|]. exfalso.
  replace (Z.to_nat i) with (S (Z.to_nat (i - 1))) in H by lia. simpl in H. apply lookup_replicate in H as [? _]. done.
Qed.

Lemma tty_inv : fd_inv (fun _ => 0) tty_vfs tty_proc.
Proof.
  constructor; cbn [files fds lowest_free_fd p_lowest tty_vfs tty_proc].
  - split_and!; simpl; [done|unfold MAX_FD; lia|unfold MAX_FD; lia| |done]. intros i Hi. assert (i = 0) as -> by lia. by eexists.
  - split_and!; simpl; [done|unfold MAX_FD_PER_PROCESS; lia|unfold MAX_FD_PER_PROCESS; lia| |done]. intros i Hi. assert (i = 0) as -> by lia. by eexists.
  - lia.
  - lia.
  - intros i f Hi Hf. destruct (lookup_sole _ _ _ _ Hf Hi) as [-> <-]. done.
  - intros i d Hi Hd. destruct (lookup_sole _ _ _ _ Hd Hi) as [-> <-]. split_and!; [done|done|]. by eexists.
  - intros i f e o b Hi Hf Hk. destruct (lookup_sole _ _ _ _ Hf Hi) as [-> <-]. done.
Qed.

Lemma fd_calls_keep_inv_witness :
  exists v' p' r, exec_call (CPipe (replicate 65536 0)) tty_vfs tty_proc = Ok (v', p', r) /\ fd_inv (fun _ => 0) v' p'.
Proof.
  apply (proj1 (fd_calls_keep_inv (fun _ => 0) (CPipe (replicate 65536 0)) tty_vfs tty_proc tty_inv)). exact I.
Defined.

(** [Process::close]: a descriptor that is not open gives [EBADF] and changes nothing; an open one is removed
    from the table of the process, and the open file behind it loses one reference or, with its last
    one, is deleted: its slot is free, the other end of a pipe learns of it, its waiting readers are
    woken, and no other open file changes. *)
Theorem close_ok ext v p n :
  fd_inv ext v p ->
  (~ is_open p n -> close v p n = Ok (v, p, Err EBADF)) /\
  (forall d f, 0 <= n -> fds p !! Z.to_nat n = Some (Some d) -> files v !! Z.to_nat (sys_fd d) = Some (Some f) ->
    exists v' p', close v p n = Ok (v', p', Val 0) /\ fds p' = <[Z.to_nat n := None]> (fds p) /\
      (1 < rc f -> files v' = <[Z.to_nat (sys_fd d) := Some (set_rc f (rc f - 1))]> (files v) /\ wakes v' = wakes v) /\
      (rc f = 1 -> files v' !! Z.to_nat (sys_fd d) = Some None /\ wakes v' = closing_wakes (sys_fd d) f ++ wakes v /\
        forall i, 0 <= i -> i <> sys_fd d -> files v' !! Z.to_nat i = fmap (fmap (unlinked (sys_fd d))) (files v !! Z.to_nat i))).
Proof.
  intros Hinv. split.
  - intros Hno. unfold close. by rewrite (proc_to_sys_fd_closed _ _ _ _ Hinv Hno).
  - intros d f Hn Hd Hf. destruct (close_spec _ _ _ _ _ _ Hinv Hn Hd Hf) as (v' & Hc & _ & _ & H1 & H2). by eexists v', _.
Qed.

Lemma close_ok_witness :
  close tty_vfs tty_proc 7 = Ok (tty_vfs, tty_proc, Err EBADF) /\
  exists v' p', close tty_vfs tty_proc 0 = Ok (v', p', Val 0) /\ files v' !! 0%nat = Some None.
Proof.
  split.
  - apply (close_ok (fun _ => 0) tty_vfs tty_proc 7 tty_inv). intros [_ [d Hd]]. done.
  - destruct (proj2 (close_ok (fun _ => 0) tty_vfs tty_proc 0 tty_inv) (mkFd 0 0 false) (mkFile 0 2 0 1 (KTTY STDOUT))) as (v' & p' & Hc & _ & _ & H1); [done..|].
    exists v', p'. split; [done|]. by apply H1.
Defined.

(** [Process::dup2] onto a descriptor in range closes it if it is open and makes it a duplicate: it then designates
    the same open file, without the close-on-exec flag, every other descriptor is as it was, and the
    tables stay consistent; onto itself it changes nothing, and a descriptor out of range is a write
    outside of the table. *)
Theorem dup2_ok ext v p n d newfd :
  fd_inv ext v p -> 0 <= n -> fds p !! Z.to_nat n = Some (Some d) ->
  (0 <= newfd < MAX_FD_PER_PROCESS -> n <> newfd ->
    exists v' p', dup2 v p n newfd = Ok (v', p', Val newfd) /\ fd_inv ext v' p' /\
      fds p' = <[Z.to_nat newfd := Some (mkFd newfd (sys_fd d) false)]> (fds p)) /\
  dup2 v p n n = Ok (v, p, Val n) /\
  (MAX_FD_PER_PROCESS <= newfd -> dup2 v p n newfd = Fault).
Proof.
  intros Hinv Hn Hd. destruct (inv_ref _ _ _ Hinv n d Hn Hd) as (_ & Hs & _). split_and!.
  - intros Hr Hne. destruct (dup2_spec _ _ _ _ _ _ Hinv Hn Hd Hr Hne) as (v' & j & H1 & H2). by eexists v', _.
  - unfold dup2. rewrite (proc_to_sys_fd_open _ _ _ _ _ Hinv Hn Hd). run. rewrite (proj2 (Z.eqb_neq (sys_fd d) (-1))) by lia. by rewrite Z.eqb_refl.
  - intros Hbig. pose proof (table_bound _ _ _ _ _ Hinv Hn Hd). unfold dup2. rewrite (proc_to_sys_fd_open _ _ _ _ _ Hinv Hn Hd). run.
    rewrite (proj2 (Z.eqb_neq (sys_fd d) (-1))), (proj2 (Z.eqb_neq n newfd)) by lia. unfold cell. destruct (0 <=? newfd); [|done].
    destruct (inv_fds _ _ _ Hinv) as (Hl & _). rewrite lookup_ge_None_2; [done|]. lia.
Qed.

Lemma dup2_ok_witness :
  (exists v' p', dup2 tty_vfs tty_proc 0 5 = Ok (v', p', Val 5) /\ fds p' !! 5%nat = Some (Some (mkFd 5 0 false))) /\
  dup2 tty_vfs tty_proc 0 20 = Fault.
Proof.
  destruct (dup2_ok (fun _ => 0) tty_vfs tty_proc 0 (mkFd 0 0 false) 5 tty_inv) as (H1 & _ & _); [done..|].
  destruct (dup2_ok (fun _ => 0) tty_vfs tty_proc 0 (mkFd 0 0 false) 20 tty_inv) as (_ & _ & H3); [done..|].
  split; [|by apply H3]. destruct H1 as (v' & p' & Hd & _ & Hp); [done..|]. exists v', p'. split; [done|]. by rewrite Hp.
Defined.

(** Bytes written into an empty pipe come out again. *)
Lemma pipe_bytes v b o cells bytes :
  buffers v !! b = Some (mkBuffer cells BUF_SIZE 0 0) -> Z.of_nat (length cells) = BUF_SIZE -> Z.of_nat (length bytes) <= BUF_SIZE ->
  exists v1 v2, pipe_write v PWrite (Some o) b bytes (Z.of_nat (length bytes)) = Ok (v1, Val (Z.of_nat (length bytes))) /\
    pipe_read v1 PRead b (Z.of_nat (length bytes)) = Ok (v2, Val (Z.of_nat (length bytes)), bytes).
Proof.
  intros Hb Hc Hl. unfold BUF_SIZE in *.
  assert (CircularBuffer.inv (mkBuffer cells 65536 0 0)) as Hinv by (split_and!; simpl; lia).
  destruct (write_flat (mkBuffer cells 65536 0 0) bytes (Z.of_nat (length bytes)) Hinv) as (b1 & Hw & Hi1 & Hc1); [simpl; lia|simpl; lia|].
  simpl in Hw, Hc1. rewrite Z.sub_0_r, Z.min_l in Hw, Hc1 by lia. rewrite Nat2Z.id, take_ge in Hc1 by lia.
  unfold pipe_write, the_buffer. rewrite Hb. run. rewrite Hw. run.
  pose proof (read_sections b1 (Z.of_nat (length bytes)) Hi1 ltac:(lia)) as Hs.
  pose proof (contents_length _ Hi1) as Hlen. destruct (CircularBuffer.read b1 (Z.of_nat (length bytes))) as [b2 [s0 s1]] eqn:E.
  eexists _, _. split; [done|]. unfold pipe_read, the_buffer. cbn [buffers set_buffers]. rewrite lookup_insert_eq. run. rewrite E.
  rewrite Hc1, Nat2Z.id, take_ge in Hs by lia. rewrite Hs.
  rewrite Hc1 in Hlen. unfold CircularBuffer.read in E. rewrite <- Hlen, Z.min_id in E. destruct Hi1 as (? & ? & ? & ?).
  assert (sec_size s0 + sec_size s1 = Z.of_nat (length bytes)) as ->.
  { destruct (_ <? _) in E; injection E as _ <- <-; simpl; lia. }
  rewrite u32_id by (unfold is_u32; lia). done.
Qed.

(** Claim C25. [Process::pipe] with two free cells in both tables gives the two lowest free descriptors, the first for reading and the
    second for writing, on two new open files that designate each other and share a new, empty buffer of 65536 bytes;
    no other buffer changes, and the tables stay consistent.  Up to 65536 bytes written in one call to the fresh pipe
    are then read, in order, in one call.  Without two free cells in one of the tables the call fails and changes nothing. *)
Theorem pipe_ok ext v p cells :
  fd_inv ext v p -> Z.of_nat (length cells) = BUF_SIZE ->
  (two_free (files v) MAX_FD (lowest_free_fd v) -> two_free (fds p) MAX_FD_PER_PROCESS (p_lowest p) ->
   exists v' p' wfd r w b, pipe v p cells = Ok (v', p', Val 0, (p_lowest p, wfd)) /\ fd_inv ext v' p' /\
    (p_lowest p < wfd /\ fds p !! Z.to_nat wfd = Some None /\ forall k, 0 <= k < wfd -> k <> p_lowest p -> occupied (fds p) k) /\
    fds p' = <[Z.to_nat wfd := Some (mkFd wfd w false)]> (<[Z.to_nat (p_lowest p) := Some (mkFd (p_lowest p) r false)]> (fds p)) /\
    files v !! Z.to_nat r = Some None /\ files v !! Z.to_nat w = Some None /\
    files v' !! Z.to_nat r = Some (Some (mkFile r 0 0 1 (KPipe PRead (Some w) b))) /\
    files v' !! Z.to_nat w = Some (Some (mkFile w 0 0 1 (KPipe PWrite (Some r) b))) /\
    buffers v' !! b = Some (mkBuffer cells BUF_SIZE 0 0) /\ (forall c, c <> b -> buffers v' !! c = buffers v !! c) /\
    forall bytes, Z.of_nat (length bytes) <= BUF_SIZE ->
      exists v1 v2, pipe_write v' PWrite (Some r) b bytes (Z.of_nat (length bytes)) = Ok (v1, Val (Z.of_nat (length bytes))) /\
        pipe_read v1 PRead b (Z.of_nat (length bytes)) = Ok (v2, Val (Z.of_nat (length bytes)), bytes)) /\
  (~ (two_free (files v) MAX_FD (lowest_free_fd v) /\ two_free (fds p) MAX_FD_PER_PROCESS (p_lowest p)) ->
   exists e, pipe v p cells = Ok (v, p, Err e, (0, 0))).
Proof.
  intros Hinv Hc. split; [intros Hv Hp|by apply (pipe_full ext)].
  destruct (pipe_spec ext v p cells Hinv Hv Hp) as (v' & p' & wfd & r & w & b & H & Hi & H1 & _ & H2 & H3 & H4 & H5 & H6 & H7 & H8).
  exists v', p', wfd, r, w, b. do 10 (split; [done|]). intros bytes Hb. by apply (pipe_bytes v' b r cells bytes).
Qed.

Lemma pipe_ok_witness :
  exists v' p' wfd, pipe tty_vfs tty_proc (replicate (Pos.to_nat 65536) 0) = Ok (v', p', Val 0, (1, wfd)) /\ 1 < wfd.
Proof.
  destruct (pipe_ok (fun _ => 0) tty_vfs tty_proc (replicate (Pos.to_nat 65536) 0) tty_inv) as [Hok _];
    [by rewrite length_replicate, positive_nat_Z|]. destruct Hok as (v' & p' & wfd & r & w & b & H & _ & [Hlt _] & _).
  - split; [unfold MAX_FD; simpl; lia|]. exists 2. split; [unfold MAX_FD; simpl; lia|done].
  - split; [unfold MAX_FD_PER_PROCESS; simpl; lia|]. exists 2. split; [unfold MAX_FD_PER_PROCESS; simpl; lia|done].
  - by exists v', p', wfd.
Defined.

(** ** Findings *)

(** [VFS::close] calls, one after the other. *)
Definition vfs_closed (v v' : vfs) : Prop := exists s r, 0 <= s /\ vfs_close v s = Ok (v', r).

Lemma delete_file_lowest v f v' : delete_file v f = Ok v' -> lowest_free_fd v' = lowest_free_fd v.
Proof.
  unfold delete_file. destruct (f_kind f) as [| |e [o|] b]; try by intros [= <-].
  destruct (the_file v o) as [g| | |]; run; try done. unfold put_file. destruct (set_cell _ _ _); run; try done. by intros [= <-].
Qed.

Lemma vfs_closed_negative v v' : vfs_closed v v' -> lowest_free_fd v = -1 -> lowest_free_fd v' = -1.
Proof.
  intros (s & r & Hs & Hc) Hlow. unfold vfs_close in Hc. destruct (file_at v s) as [[f|]| | |]; run_in Hc; simplify_eq; [|done].
  destruct (rc f =? 0); [|by simplify_eq].
  destruct (get_write_fd v f) as [w| | |]; run_in Hc; try done. destruct (get_read_fd v f) as [q| | |]; run_in Hc; try done.
  destruct (delete_file v f) as [v1| | |] eqn:E; run_in Hc; try done. apply delete_file_lowest in E.
  unfold put_file in Hc. destruct (set_cell (files v1) s None); run_in Hc; try done. injection Hc as <- _.
  destruct (_ && _); simpl; rewrite E, Hlow; lia.
Qed.

(** Running out of open files is permanent: the [ENFILE] branch of [VFS::open_file] stores the failed slot -1 in
    [lowest_free_fd], and from then on [get_free_fd] finds nothing, however many files are closed. *)
Theorem enfile_is_permanent `{FileSystem} O_TRUNC O_CREAT O_WRONLY O_RDWR supported v flags lookup touched :
  lowest_free_fd v = MAX_FD ->
  exists v', open_file O_TRUNC O_CREAT O_WRONLY O_RDWR supported v flags lookup touched = Ok (v', (None, Some ENFILE)) /\
    forall v'', rtc vfs_closed v' v'' -> vfs_get_free_fd v'' = Ok (v'', -1).
Proof.
  intros Hlow. assert (vfs_get_free_fd v = Ok (v, -1)) as E.
  { unfold vfs_get_free_fd. by rewrite Hlow. }
  exists (set_lowest v (-1)). split.
  - unfold open_file. rewrite E. run. cbn [Z.eqb]. unfold leave. by rewrite Hlow.
  - intros v'' Hr. assert (lowest_free_fd v'' = -1) as Hneg.
    { remember (set_lowest v (-1)) as v1 eqn:E1. assert (lowest_free_fd v1 = -1) as H1 by (by rewrite E1). clear E E1.
      induction Hr as [|x y z Hxy _ IH]; [done|]. apply IH. by eapply vfs_closed_negative. }
    unfold vfs_get_free_fd. by rewrite Hneg.
Qed.

(** A file system in memory. *)
#[export] Instance memory_fs : FileSystem := {
  load_file_to_buf m n off len := d ← m !! n; Some (take (Z.to_nat len) (drop (Z.to_nat off) d));
  write_buf_to_file m n bytes := Some (<[n := bytes]> m);
  resize m n size := match m !! n with Some d => <[n := take (Z.to_nat size) d]> m | None => m end
}.

Lemma enfile_is_permanent_witness :
  exists v', open_file 512 64 1 2 1000 (set_lowest tty_vfs 100) 0 None None = Ok (v', (None, Some ENFILE)) /\
    vfs_get_free_fd v' = Ok (v', -1).
Proof.
  destruct (enfile_is_permanent 512 64 1 2 1000 (set_lowest tty_vfs 100) 0 None None) as (v' & H1 & H2); [done|].
  exists v'. split; [done|]. apply H2. constructor.
Defined.

(** What a file system promises: it reads what is there, and afterwards the file holds what was written. *)
Class FileSystemLaws `{FileSystem} := {
  load_reads m n d off len bytes : m !! n = Some d -> load_file_to_buf m n off len = Some bytes ->
    bytes = take (Z.to_nat len) (drop (Z.to_nat off) d);
  write_stores m n bytes m' : write_buf_to_file m n bytes = Some m' -> m' !! n = Some bytes
}.

#[export] Instance memory_fs_laws : FileSystemLaws.
Proof.
  split.
  - intros m n d off len bytes Hd. simpl. rewrite Hd. by intros [= <-].
  - intros m n bytes m' [= <-]. apply lookup_insert_eq.
Qed.

Lemma splice_bytes d junk bytes off :
  0 <= off <= Z.of_nat (length d) -> length junk = length bytes ->
  let size := Z.of_nat (length d) in let count := Z.of_nat (length bytes) in
  take (Z.to_nat (size + count)) (copy_bytes (move_bytes (d ++ junk) (off + count) off (size - off)) off bytes count) =
  take (Z.to_nat off) d ++ bytes ++ drop (Z.to_nat off) d.
Proof.
  intros Hoff Hj size count. unfold move_bytes.
  assert (take (Z.to_nat (size - off)) (drop (Z.to_nat off) (d ++ junk)) = drop (Z.to_nat off) d) as ->.
  { rewrite drop_app_le by lia. rewrite take_app_le by (rewrite length_drop; lia). apply take_ge. rewrite length_drop. lia. }
  rewrite (drop_ge (d ++ junk)), app_nil_r by (rewrite length_app; lia). unfold copy_bytes.
  assert (length (take (Z.to_nat (off + count)) (d ++ junk)) = Z.to_nat (off + count)) as Hl by (rewrite length_take, length_app; lia).
  rewrite (take_app_le (take (Z.to_nat (off + count)) (d ++ junk))) by lia.
  rewrite take_take, Nat.min_l by lia. rewrite (take_app_le d) by lia.
  rewrite (drop_app_ge (take (Z.to_nat (off + count)) (d ++ junk))) by lia. rewrite Hl, Nat.sub_diag, drop_0.
  rewrite (take_ge bytes) by lia. apply take_ge. rewrite !length_app, length_take, length_drop. lia.
Qed.

(** [File::write] inside a file inserts: the bytes from the offset on are moved behind the ones written instead of being
    overwritten, so the file grows by the whole count. *)
Theorem file_write_inserts `{FileSystemLaws} O_APPEND v f n d bytes junk v' f' :
  inodes v !! n = Some d -> 0 <= f_offset f <= Z.of_nat (length d) -> truthy (Z.land (f_flags f) O_APPEND) = false ->
  length junk = length bytes ->
  file_write O_APPEND v f n true bytes (Z.of_nat (length bytes)) junk = Ok (v', f', Val (Z.of_nat (length bytes))) ->
  inodes v' !! n = Some (take (Z.to_nat (f_offset f)) d ++ bytes ++ drop (Z.to_nat (f_offset f)) d).
Proof.
  intros Hd Hoff Happ Hj. unfold file_write, inode_bytes. cbn [negb]. rewrite Hd. run.
  destruct (load_file_to_buf (inodes v) n 0 (Z.of_nat (length d))) as [image|] eqn:El; [|done].
  apply (load_reads _ _ _ _ _ _ Hd) in El. rewrite drop_0, Nat2Z.id, take_ge in El by lia. subst image.
  rewrite Happ, splice_bytes by done. destruct (write_buf_to_file _ _ _) as [m|] eqn:Ew; [|done].
  intros [= <- _]. by apply write_stores in Ew.
Qed.

Lemma file_write_inserts_witness :
  exists v' f', file_write 1024 (set_inodes tty_vfs {[ 5 := [1; 2; 3] ]}) (mkFile 3 0 1 1 (KFile 5)) 5 true [9] 1 [0] = Ok (v', f', Val 1) /\
    inodes v' !! 5 = Some [1; 9; 2; 3].
Proof.
  eexists _, _. split; [vm_compute; reflexivity|].
  refine (file_write_inserts 1024 (set_inodes tty_vfs {[ 5 := [1; 2; 3] ]}) (mkFile 3 0 1 1 (KFile 5)) 5 [1; 2; 3] [9] [0] _ _ _ _ _ _ _);
    [vm_compute; reflexivity|simpl; lia|done|done|vm_compute; reflexivity].
Defined.

(** A seek relative to the current position is relative to the requested offset: it doubles it. *)
Lemma seek_cur_doubles f size offset : 0 <= offset < 1073741824 -> 2 * offset <= size -> file_lseek f size offset SEEK_CUR = (set_offset f (2 * offset), Val (2 * offset)).
Proof.
  intros H0 Hs. unfold file_lseek, SEEK_CUR, SEEK_SET, int_of. simpl.
  rewrite (u32_id (offset + offset)) by (unfold is_u32; lia). rewrite (proj2 (Z.ltb_lt (offset + offset) 2147483648)) by lia. destruct (Z.ltb_spec (offset + offset) 0); [lia|].
  destruct (Z.ltb_spec size (offset + offset)); [lia|]. by replace (offset + offset) with (2 * offset) by lia.
Qed.

End FileTable.
