(* ===== verification/Signals.v ===== *)
(** * Signals ([processes/process.cpp], [Scheduler::signal_handling])

    Sending, blocking and handling signals, and the delivery that happens when a process is
    resumed: the interrupted context is pushed, and the saved user state is redirected to the
    handler.  The stack of contexts is that of [Containers].  What [TRIGGER_TIMER_INTERRUPT] does
    (a switch to another process) is left out; the numbers of [SIGCANCEL], [SIG_DFL] and their like
    belong to the libc headers and are variables. *)

From stdpp Require Import base tactics numbers list.
From S2P Require Import Prelude Containers.
Open Scope Z_scope.

Module Signals.

(** ** Data *)

Definition HIGHEST_SIGNAL : Z := 12.
Definition MAX_CONCURRENT_SIGNAL_HANDLERS : Z := 10.
Definition P_TERMINATED : Z := 1.

(** The dispositions [SIGDISP_...]. *)
Inductive disposition := SIGDISP_TERM | SIGDISP_IGN | SIGDISP_CORE | SIGDISP_STOP | SIGDISP_CONT | SIGDISP_HLDR.
#[export] Instance disposition_eq_dec : EqDecision disposition.
Proof. solve_decision. Defined.

(** [Process::init]: the default actions, in the order of [sig_names]; number 0 keeps the zero it starts with. *)
Definition signal_default_action : list disposition :=
  [SIGDISP_TERM; SIGDISP_TERM; SIGDISP_TERM; SIGDISP_CORE; SIGDISP_CORE; SIGDISP_CORE; SIGDISP_CORE;
   SIGDISP_CORE; SIGDISP_CORE; SIGDISP_TERM; SIGDISP_TERM; SIGDISP_CORE; SIGDISP_TERM].
Definition SIGQUIT : Z := 3.

(** [sigset_t]: the words of [__sig], of 32 bits each. *)
Definition sigset := list Z.

Record sigaction_t := mkSigaction { sa_handler : Z; sa_mask : sigset; sa_flags : Z; sa_restorer : Z }.

(** [stack_state_t] (its other registers in one field) and [signal_ctx]; the general registers are
    one value. *)
Record stack_state_t := mkStackState { eip : Z; esp : Z; other_regs : Z }.
Record signal_ctx := mkCtx { c_cpu : Z; c_stack : stack_state_t; blocked_mask : sigset }.

(** What signals concern in a [Process]; [user_writes] are the words written to its memory, latest first. *)
Record process := mkProcess {
  flags : Z; ret_status : Z; cpu_state : Z; stack_state : stack_state_t;
  signal_action : list Z; oldact : list (option sigaction_t);
  pending_signals : sigset; signals_contexts : Stack.stack signal_ctx;
  user_writes : list (Z * Z)
}.

Definition set_status (p : process) (f r : Z) : process :=
  mkProcess f r (cpu_state p) (stack_state p) (signal_action p) (oldact p) (pending_signals p) (signals_contexts p) (user_writes p).
Definition set_state (p : process) (c : Z) (s : stack_state_t) : process :=
  mkProcess (flags p) (ret_status p) c s (signal_action p) (oldact p) (pending_signals p) (signals_contexts p) (user_writes p).
Definition set_action (p : process) (a : list Z) : process :=
  mkProcess (flags p) (ret_status p) (cpu_state p) (stack_state p) a (oldact p) (pending_signals p) (signals_contexts p) (user_writes p).
Definition set_oldact (p : process) (a : list (option sigaction_t)) : process :=
  mkProcess (flags p) (ret_status p) (cpu_state p) (stack_state p) (signal_action p) a (pending_signals p) (signals_contexts p) (user_writes p).
Definition set_pending (p : process) (s : sigset) : process :=
  mkProcess (flags p) (ret_status p) (cpu_state p) (stack_state p) (signal_action p) (oldact p) s (signals_contexts p) (user_writes p).
Definition set_contexts (p : process) (c : Stack.stack signal_ctx) : process :=
  mkProcess (flags p) (ret_status p) (cpu_state p) (stack_state p) (signal_action p) (oldact p) (pending_signals p) c (user_writes p).
Definition write_user (p : process) (a v : Z) : process :=
  mkProcess (flags p) (ret_status p) (cpu_state p) (stack_state p) (signal_action p) (oldact p) (pending_signals p) (signals_contexts p) ((a, v) :: user_writes p).

(** An array access the source does not test. *)
Definition at_index {A} (l : list A) (i : Z) : res A := if 0 <=? i then deref (l !! Z.to_nat i) else Fault.

(** [(int)x]. *)
Definition s32 (x : Z) : Z := if u32 x <? 2147483648 then u32 x else u32 x - 4294967296.

(** ** Termination *)

(** [Process::terminate_with_value] and [terminate_with_signal]. *)
Definition terminate_with_value (p : process) (ret_val : Z) : process :=
  set_status p (Z.lor (flags p) P_TERMINATED) (Z.shiftl (Z.land ret_val 255) 8).
Definition terminate_with_signal (p : process) (ret_sig : Z) : process :=
  set_status p (Z.lor (flags p) P_TERMINATED) (Z.land ret_sig 127).

Section signals.
Context (SIGCANCEL SIG_DFL SIG_IGN SA_RESTORER SIG_SETMASK SIG_BLOCK SIG_UNBLOCK : Z).

Inductive errno := EINVAL | EFAULT.
Inductive ret := Val (v : Z) | Err (e : errno).

(** ** Sending *)

(** [Process::kill] on a signal other than [SIGCANCEL]. *)
Definition kill_signal (p : process) (signal : Z) : res (process * ret) :=
  if HIGHEST_SIGNAL <? signal then Ok (p, Err EINVAL)
  else
    default_action ← at_index signal_default_action signal;
    a ← at_index (signal_action p) signal;
    if (a =? SIG_DFL) && (bool_decide (default_action = SIGDISP_CORE) || bool_decide (default_action = SIGDISP_TERM))
    then Ok (terminate_with_signal p signal, Val 0)
    else
      let signo := signal - 1 in
      let w := u32 signo / 32 in
      old ← at_index (pending_signals p) w;
      Ok (set_pending p (<[Z.to_nat w := Z.lor old (Z.shiftl 1 (u32 signo mod 32))]> (pending_signals p)), Val 0).

(** [Process::kill]. *)
Definition kill (p : process) (signal : Z) : res (process * ret) :=
  if signal =? SIGCANCEL then '(p, _) ← kill_signal p SIGQUIT; Ok (p, Val (-1))
  else kill_signal p signal.

(** ** Handlers *)

(** [Process::register_signal_handler]. *)
Definition register_signal_handler (p : process) (signal handler : Z) : res (process * Z) :=
  prev ← at_index (signal_action p) signal;
  Ok (set_action p (<[Z.to_nat signal := handler]> (signal_action p)), prev).

(** [Process::sigaction]; [None] is a null [act], [wants_old] says whether [old_act] is not null, and the last
    component is what is stored there. *)
Definition sigaction (p : process) (signum : Z) (act : option sigaction_t) (wants_old : bool) : res (process * ret * option sigaction_t) :=
  if HIGHEST_SIGNAL <? signum then
    if signum =? SIGCANCEL then (if wants_old then Panic else Ok (p, Val 0, None)) else Ok (p, Err EINVAL, None)
  else
    a ← deref act;
    if truthy (Z.ldiff (sa_flags a) SA_RESTORER) then Ok (p, Err EINVAL, None)
    else if negb (forallb (fun w => w =? 0) (sa_mask a)) then Ok (p, Err EINVAL, None)
    else
      '(p, prev) ← register_signal_handler p signum (sa_handler a);
      if s32 prev <? 0 then Ok (p, Val (s32 prev), None)
      else
        o ← at_index (oldact p) signum;
        let old := match o with Some s => s | None => mkSigaction prev (map (fun _ => 0) (sa_mask a)) SA_RESTORER 0 end in
        if negb wants_old then Fault
        else Ok (set_oldact p (<[Z.to_nat signum := Some a]> (oldact p)), Val 0, Some old).

(** [context->blocked_mask = m] in the context on top of the stack. *)
Definition set_top_mask (st : Stack.stack signal_ctx) (m : sigset) : res (Stack.stack signal_ctx) :=
  let i := Stack.size st -u 1 in
  c ← deref (Stack.data st !! Z.to_nat i);
  Ok (Stack.mkStack (<[Z.to_nat i := mkCtx (c_cpu c) (c_stack c) m]> (Stack.data st)) (Stack.size st) (Stack.capacity st)).

(** [Process::sigprogmask]; the last component is what is stored to [oldset] if it is not null. *)
Definition sigprogmask (p : process) (how : Z) (set : option sigset) : res (process * ret * option sigset) :=
  o ← Stack.peek (signals_contexts p);
  match o with
  | None => Panic
  | Some ctx =>
      let change f old :=
        match set with
        | None => Ok (p, Err EFAULT, None)
        | Some s =>
            let m := f s in
            st ← set_top_mask (signals_contexts p) m;
            Ok (set_contexts p st, Val 0, Some (old m))
        end in
      if how =? SIG_SETMASK then change (fun s => s) (fun m => m)
      else if how =? SIG_BLOCK then change (fun s => zip_with Z.lor (blocked_mask ctx) s) (fun _ => blocked_mask ctx)
      else if how =? SIG_UNBLOCK then change (fun s => zip_with Z.ldiff (blocked_mask ctx) s) (fun _ => blocked_mask ctx)
      else Ok (p, Err EINVAL, None)
  end.

(** ** Delivery *)

(** [Process::signal_context_save]. *)
Definition signal_context_save (p : process) (signal : Z) : res process :=
  o ← at_index (oldact p) signal;
  a ← deref o;
  let '(st, pushed) := Stack.push (signals_contexts p) (mkCtx (cpu_state p) (stack_state p) (sa_mask a)) in
  if pushed then Ok (set_contexts p st) else '(p, _) ← kill p SIGQUIT; Ok p.

(** [Process::signal_context_restore]. *)
Definition signal_context_restore (p : process) : res process :=
  '(st, o) ← Stack.pop (signals_contexts p);
  match o with
  | None => Panic
  | Some c => Ok (set_state (set_contexts p st) (c_cpu c) (c_stack c))
  end.

(** The bit of a signal in the word [sig_grp_id], which is 0 for all the signals there are. *)
Definition sig_grp_off (signal : Z) : Z := Z.shiftl 1 (u32 (signal - 1) mod 32).
Definition sig_grp_id (signal : Z) : Z := Z.quot (signal - 1) 32.

(** The redirection of the saved user state to the handler. *)
Definition enter_handler (p : process) (signal : Z) : res process :=
  p ← signal_context_save p signal;
  o ← at_index (oldact p) signal;
  a ← deref o;
  _ ← ensure (truthy (Z.land (sa_flags a) SA_RESTORER));
  let s := stack_state p in
  let sp := Z.ldiff (esp s) 3 -u 8 in
  h ← at_index (signal_action p) signal;
  let p := write_user (write_user p sp (sa_restorer a)) (sp +u 4) signal in
  let p := set_state p (cpu_state p) (mkStackState h sp (other_regs s)) in
  w ← at_index (pending_signals p) (sig_grp_id signal);
  Ok (set_pending p (<[Z.to_nat (sig_grp_id signal) := Z.ldiff w (sig_grp_off signal)]> (pending_signals p))).

(** The loop of [Scheduler::signal_handling]; [n] signals are left from [signal] on, and the answer says whether
    one has been delivered. *)
Fixpoint signal_loop (n : nat) (p : process) (blocked_signals : sigset) (signal : Z) : res (process * option Z) :=
  match n with
  | O => Ok (p, None)
  | S n =>
      pw ← at_index (pending_signals p) (sig_grp_id signal);
      bw ← at_index blocked_signals (sig_grp_id signal);
      if negb (truthy (Z.land pw (sig_grp_off signal))) || truthy (Z.land bw (sig_grp_off signal))
      then signal_loop n p blocked_signals (signal + 1)
      else
        a ← at_index (signal_action p) signal;
        if a =? SIG_IGN then signal_loop n p blocked_signals (signal + 1)
        else if a =? SIG_DFL then
          d ← at_index signal_default_action signal;
          match d with
          | SIGDISP_IGN => signal_loop n p blocked_signals (signal + 1)
          | _ => Panic
          end
        else p ← enter_handler p signal; Ok (p, Some signal)
  end.

(** [Scheduler::signal_handling]. *)
Definition signal_handling (p : process) : res (process * option Z) :=
  o ← Stack.peek (signals_contexts p);
  match o with
  | None => Panic
  | Some ctx => signal_loop 13 p (blocked_mask ctx) 0
  end.

End signals.

(** ** What is delivered *)

Section delivery.
Context (SIGCANCEL SIG_DFL SIG_IGN SA_RESTORER : Z).

(** The action of a signal, and whether it is pending and not blocked, in the words [pw] and [bw]. *)
Definition action (p : process) (k : Z) : Z := default SIG_DFL (signal_action p !! Z.to_nat k).
Definition raised (pw bw k : Z) : bool := truthy (Z.land pw (sig_grp_off k)) && negb (truthy (Z.land bw (sig_grp_off k))).

(** A signal that delivery passes over: it is not raised, or it is ignored, or ignoring it is the default. *)
Definition passes (p : process) (pw bw k : Z) : bool :=
  negb (raised pw bw k) || (action p k =? SIG_IGN) ||
  ((action p k =? SIG_DFL) && bool_decide (signal_default_action !! Z.to_nat k = Some SIGDISP_IGN)).

(** The tables of a process have their sizes, and the set of pending signals its first word. *)
Record tables (p : process) (pw : Z) (rest : sigset) : Prop := {
  tables_pending : pending_signals p = pw :: rest;
  tables_actions : length (signal_action p) = 13%nat;
  tables_oldact : length (oldact p) = 13%nat
}.

Lemma first_word k : 0 <= k <= HIGHEST_SIGNAL -> sig_grp_id k = 0.
Proof.
  unfold HIGHEST_SIGNAL, sig_grp_id. intros Hk. destruct (decide (k = 0)) as [->|]; [done|]. apply Z.quot_small. lia.
Qed.

(** The process after delivery of [k]. *)
Definition entered (p : process) (k pw : Z) (rest : sigset) (a : sigaction_t) (st : Stack.stack signal_ctx) : process :=
  let sp := Z.ldiff (esp (stack_state p)) 3 -u 8 in
  mkProcess (flags p) (ret_status p) (cpu_state p) (mkStackState (action p k) sp (other_regs (stack_state p)))
    (signal_action p) (oldact p) (Z.ldiff pw (sig_grp_off k) :: rest) st
    ((sp +u 4, k) :: (sp, sa_restorer a) :: user_writes p).

(** The actions that delivery cannot enter: a default action that is not to ignore the signal, and a handler without a restorer. *)
Definition refused (p : process) (k : Z) : Prop :=
  action p k = SIG_DFL \/ exists a, oldact p !! Z.to_nat k = Some (Some a) /\ truthy (Z.land (sa_flags a) SA_RESTORER) = false.

(** What delivery does with the signal [k] that it comes to. *)
Definition delivers (p : process) (k pw : Z) (rest : sigset) (xs : list signal_ctx) (r : res (process * option Z)) : Prop :=
  match r with
  | Ok (p', o) => o = Some k /\ action p k <> SIG_DFL /\ exists a st, oldact p !! Z.to_nat k = Some (Some a) /\ truthy (Z.land (sa_flags a) SA_RESTORER) = true /\
      p' = entered p k pw rest a st /\ Stack.rep st (xs ++ [mkCtx (cpu_state p) (stack_state p) (sa_mask a)])
  | Panic => refused p k
  | Fault => action p k <> SIG_DFL /\ oldact p !! Z.to_nat k = Some None
  | NoFuel => False
  end.

Lemma action_at p pw rest k : tables p pw rest -> 0 <= k <= HIGHEST_SIGNAL -> at_index (signal_action p) k = Ok (action p k).
Proof.
  intros Ht Hk. unfold at_index, action, HIGHEST_SIGNAL in *. rewrite (proj2 (Z.leb_le 0 k)) by lia.
  destruct (lookup_lt_is_Some_2 (signal_action p) (Z.to_nat k)) as [h ->]; [rewrite (tables_actions _ _ _ Ht); lia|done].
Qed.

Lemma enter_handler_spec p pw rest k xs :
  tables p pw rest -> 0 <= k <= HIGHEST_SIGNAL -> action p k <> SIG_DFL ->
  Stack.rep (signals_contexts p) xs -> Z.of_nat (length xs) < Stack.capacity (signals_contexts p) ->
  delivers p k pw rest xs (p ← enter_handler SIGCANCEL SIG_DFL SA_RESTORER p k; Ok (p, Some k)).
Proof.
  intros Ht Hk Hd Hst Hroom. pose proof (Stack.rep_length _ _ Hst) as Hl.
  assert (forall q, oldact q = oldact p -> at_index (oldact q) k = deref (oldact p !! Z.to_nat k)) as Hold.
  { intros q ->. unfold at_index. by rewrite (proj2 (Z.leb_le 0 k)) by lia. }
  unfold enter_handler, signal_context_save. rewrite Hold by done.
  destruct (lookup_lt_is_Some_2 (oldact p) (Z.to_nat k)) as [o Ho]; [rewrite (tables_oldact _ _ _ Ht); unfold HIGHEST_SIGNAL in Hk; lia|].
  rewrite Ho in Hold |- *. run. destruct o as [a|]; run; [|done].
  destruct (Stack.push_rep _ _ (mkCtx (cpu_state p) (stack_state p) (sa_mask a)) Hst) as [[_ ?]|(st & Hp & Hst' & _)]; [lia|].
  rewrite Hp. run. rewrite Hold by done. run. destruct (truthy (Z.land (sa_flags a) SA_RESTORER)) eqn:Hres; run.
  - cbn [signal_action set_contexts]. rewrite (action_at p pw rest k Ht Hk). run. cbn [pending_signals set_state write_user set_contexts stack_state].
    rewrite (tables_pending _ _ _ Ht), first_word by done. split; [done|]. split; [done|]. by exists a, st.
  - right. by exists a.
Qed.

(** One round of the loop. *)
Lemma signal_round p pw bw rest brest xs n k :
  tables p pw rest -> 0 <= k <= HIGHEST_SIGNAL -> Stack.rep (signals_contexts p) xs -> Z.of_nat (length xs) < Stack.capacity (signals_contexts p) ->
  if passes p pw bw k
  then signal_loop SIGCANCEL SIG_DFL SIG_IGN SA_RESTORER (S n) p (bw :: brest) k = signal_loop SIGCANCEL SIG_DFL SIG_IGN SA_RESTORER n p (bw :: brest) (k + 1)
  else delivers p k pw rest xs (signal_loop SIGCANCEL SIG_DFL SIG_IGN SA_RESTORER (S n) p (bw :: brest) k).
Proof.
  intros Ht Hk Hst Hroom. cbn [signal_loop]. rewrite (first_word k Hk), (tables_pending _ _ _ Ht).
  assert (at_index (pw :: rest) 0 = Ok pw) as -> by done. run. assert (at_index (bw :: brest) 0 = Ok bw) as -> by done. run.
  unfold passes, raised. destruct (truthy (Z.land pw (sig_grp_off k))); [|done]. destruct (truthy (Z.land bw (sig_grp_off k))); [done|]. cbn [andb negb orb].
  rewrite (action_at p pw rest k Ht Hk). run. destruct (action p k =? SIG_IGN); [done|]. cbn [orb].
  destruct (Z.eqb_spec (action p k) SIG_DFL) as [Hd|Hd]; cbn [andb]; [|by apply enter_handler_spec].
  destruct (lookup_lt_is_Some_2 signal_default_action (Z.to_nat k)) as [d Hdk]; [unfold HIGHEST_SIGNAL in Hk; cbn; lia|].
  unfold at_index. rewrite (proj2 (Z.leb_le 0 k)), Hdk by lia. run. destruct d; case_bool_decide; try done; by left.
Qed.

Lemma signal_loop_spec p pw bw rest brest xs n : forall k,
  tables p pw rest -> k + Z.of_nat n = 13 -> 0 <= k ->
  Stack.rep (signals_contexts p) xs -> Z.of_nat (length xs) < Stack.capacity (signals_contexts p) ->
  (signal_loop SIGCANCEL SIG_DFL SIG_IGN SA_RESTORER n p (bw :: brest) k = Ok (p, None) /\
   forall i, k <= i <= HIGHEST_SIGNAL -> passes p pw bw i = true) \/
  (exists j, k <= j <= HIGHEST_SIGNAL /\ passes p pw bw j = false /\ (forall i, k <= i < j -> passes p pw bw i = true) /\
   delivers p j pw rest xs (signal_loop SIGCANCEL SIG_DFL SIG_IGN SA_RESTORER n p (bw :: brest) k)).
Proof.
  induction n as [|n IH]; intros k Ht Hn Hk Hst Hroom.
  - left. split; [done|]. unfold HIGHEST_SIGNAL. lia.
  - assert (0 <= k <= HIGHEST_SIGNAL) as Hk12 by (unfold HIGHEST_SIGNAL; lia).
    pose proof (signal_round p pw bw rest brest xs n k Ht Hk12 Hst Hroom) as Hround. destruct (passes p pw bw k) eqn:Hp.
    + rewrite Hround. destruct (IH (k + 1) Ht ltac:(lia) ltac:(lia) Hst Hroom) as [[H1 H2]|(j & H1 & H2 & H3 & H4)].
      * left. split; [done|]. intros i Hi. destruct (decide (i = k)) as [->|]; [done|]. apply H2. lia.
      * right. exists j. split_and!; [lia|lia|done| |done]. intros i Hi. destruct (decide (i = k)) as [->|]; [done|]. apply H3. lia.
    + right. exists k. split_and!; [lia|lia|done|lia|done].
Qed.

End delivery.

(** Claim C17. [signal_handling] comes to the lowest numbered signal that is pending, not blocked and not ignored, and leaves the process alone
    if there is none.  When the action of that signal was installed by [sigaction] with a restorer, the process enters the handler
    with the restorer as return address and the signal number on its aligned stack, the signal is no longer pending and the rest is
    unchanged, and [signal_context_restore] brings back exactly the interrupted registers and contexts.  It stops the kernel
    exactly when the action is the default one (which is then not to ignore the signal) or has no restorer, and it reads through a null pointer exactly when
    the handler was installed by the [signal] call, which leaves [oldact] null.  Outside of this: a stack of contexts that is full. *)
Theorem signal_delivery_ok SIGCANCEL SIG_DFL SIG_IGN SA_RESTORER p pw bw rest brest xs ctx :
  tables p pw rest -> Stack.rep (signals_contexts p) (xs ++ [ctx]) -> blocked_mask ctx = bw :: brest ->
  Z.of_nat (length (xs ++ [ctx])) < Stack.capacity (signals_contexts p) ->
  (signal_handling SIGCANCEL SIG_DFL SIG_IGN SA_RESTORER p = Ok (p, None) /\ forall k, 0 <= k <= HIGHEST_SIGNAL -> passes SIG_DFL SIG_IGN p pw bw k = true) \/
  exists k, 0 <= k <= HIGHEST_SIGNAL /\ passes SIG_DFL SIG_IGN p pw bw k = false /\ (forall i, 0 <= i < k -> passes SIG_DFL SIG_IGN p pw bw i = true) /\
    match signal_handling SIGCANCEL SIG_DFL SIG_IGN SA_RESTORER p with
    | Ok (p', o) => o = Some k /\ ~ refused SIG_DFL SA_RESTORER p k /\
        (exists a st, oldact p !! Z.to_nat k = Some (Some a) /\ p' = entered SIG_DFL p k pw rest a st) /\
        exists p'', signal_context_restore p' = Ok p'' /\ cpu_state p'' = cpu_state p /\ stack_state p'' = stack_state p /\
          Stack.rep (signals_contexts p'') (xs ++ [ctx])
    | Panic => refused SIG_DFL SA_RESTORER p k
    | Fault => ~ refused SIG_DFL SA_RESTORER p k /\ oldact p !! Z.to_nat k = Some None
    | NoFuel => False
    end.
Proof.
  intros Ht Hst Hb Hroom. unfold signal_handling. rewrite (Stack.peek_rep _ _ _ Hst). run. rewrite Hb.
  destruct (signal_loop_spec SIGCANCEL SIG_DFL SIG_IGN SA_RESTORER p pw bw rest brest (xs ++ [ctx]) 13 0 Ht) as [H|(k & Hk & Hp & Hlow & Hd)]; [lia|lia|done|done|by left|].
  right. exists k. do 3 (split; [done|]). destruct (signal_loop _ _ _ _ _ _ _ _) as [[p' o]| | |]; cbn [delivers] in Hd; [|done| |done].
  - destruct Hd as (-> & Hne & a & st & Ha & Hres & -> & Hst'). split_and!; [done| |by exists a, st|].
    + intros [?|(a' & ? & ?)]; congruence.
    + destruct (Stack.pop_rep _ _ _ Hst') as (st2 & Hpop & Hst2 & _). unfold signal_context_restore. cbn [signals_contexts entered]. rewrite Hpop. run.
      eexists. split; [done|]. done.
  - destruct Hd as [Hne Ha]. split; [|done]. intros [?|(a' & ? & ?)]; congruence.
Qed.

(** A process with signals 2 and 5 pending, 2 blocked and both handled. *)
Definition handled : sigaction_t := mkSigaction 4096 [0] 1 8192.
Definition signalled : process :=
  mkProcess 0 0 77 (mkStackState 100 1003 5) (replicate 2 0 ++ [4096; 0; 0; 4096] ++ replicate 7 0)
    (replicate 2 None ++ [Some handled; None; None; Some handled] ++ replicate 7 None) [18]
    (Stack.mkStack (replicate 10 (mkCtx 0 (mkStackState 0 0 0) [2])) 1 10) [].

Lemma signal_delivery_ok_witness :
  exists p' p'', signal_handling 33 0 1 1 signalled = Ok (p', Some 5) /\ signal_context_restore p' = Ok p'' /\
    cpu_state p'' = 77 /\ stack_state p'' = mkStackState 100 1003 5.
Proof.
  destruct (signal_delivery_ok 33 0 1 1 signalled 18 2 [] [] [] (mkCtx 0 (mkStackState 0 0 0) [2])) as [[H _]|(k & _ & _ & _ & H)].
  - by split.
  - split_and!; simpl; (lia || reflexivity).
  - done.
  - simpl. lia.
  - by vm_compute in H.
  - destruct (signal_handling 33 0 1 1 signalled) as [[p' o]| | |] eqn:E; [|by vm_compute in E..].
    destruct H as (_ & _ & _ & p'' & H1 & H2 & H3 & _). exists p', p''. split_and!; try done. vm_compute in E. by simplify_eq.
Defined.

(** The [signal] call leads there: a handler that it installs for a signal whose action has never been set by [sigaction] makes the next delivery of that
    signal read through the null pointer [oldact]. *)
Theorem signal_handler_faults SIGCANCEL SIG_DFL SIG_IGN SA_RESTORER p pw bw rest brest xs ctx k handler p1 old :
  tables p pw rest -> Stack.rep (signals_contexts p) (xs ++ [ctx]) -> blocked_mask ctx = bw :: brest -> Z.of_nat (length (xs ++ [ctx])) < Stack.capacity (signals_contexts p) ->
  0 <= k <= HIGHEST_SIGNAL -> oldact p !! Z.to_nat k = Some None -> handler <> SIG_DFL -> handler <> SIG_IGN ->
  register_signal_handler p k handler = Ok (p1, old) -> raised pw bw k = true -> (forall i, 0 <= i < k -> raised pw bw i = false) ->
  signal_handling SIGCANCEL SIG_DFL SIG_IGN SA_RESTORER p1 = Fault.
Proof.
  intros Ht Hst Hb Hroom Hk Ho Hd Hi Hreg Hr Hlow. unfold register_signal_handler in Hreg. destruct (at_index _ _); simplify_eq/=.
  assert (Hact : action SIG_DFL (set_action p (<[Z.to_nat k := handler]> (signal_action p))) k = handler).
  { unfold action. cbn [signal_action set_action]. rewrite list_lookup_insert_eq; [done|]. rewrite (tables_actions _ _ _ Ht). unfold HIGHEST_SIGNAL in Hk. lia. }
  assert (Hpk : passes SIG_DFL SIG_IGN (set_action p (<[Z.to_nat k := handler]> (signal_action p))) pw bw k = false).
  { unfold passes. rewrite Hr, Hact, (proj2 (Z.eqb_neq handler SIG_IGN)), (proj2 (Z.eqb_neq handler SIG_DFL)) by done. done. }
  destruct (signal_loop_spec SIGCANCEL SIG_DFL SIG_IGN SA_RESTORER (set_action p (<[Z.to_nat k := handler]> (signal_action p))) pw bw rest brest (xs ++ [ctx]) 13 0) as [[_ H]|(j & Hj & Hp & Hl & Hdel)];
    [destruct Ht; split; [done|by cbn; rewrite length_insert|done]|done|lia|done|done|by rewrite H in Hpk|].
  assert (j = k) as ->.
  { destruct (Z.lt_trichotomy j k) as [Hjk|[->|Hjk]]; [|done|rewrite Hl in Hpk by lia; done].
    unfold passes in Hp. rewrite Hlow in Hp by lia. done. }
  unfold signal_handling. cbn [signals_contexts set_action]. rewrite (Stack.peek_rep _ _ _ Hst). run. rewrite Hb.
  destruct (signal_loop _ _ _ _ _ _ _ _) as [[p' o]| | |]; cbn [delivers oldact set_action] in Hdel; [|..|done].
  - destruct Hdel as (_ & _ & a' & st & Ha & _). congruence.
  - destruct Hdel as [?|(a' & Ha & _)]; cbn [oldact set_action] in *; congruence.
  - done.
Qed.

(** [sigprocmask]: [SIG_BLOCK] and [SIG_UNBLOCK] add the set to the mask of the current context and remove it, and
    report the mask as it was; [SIG_SETMASK] replaces the mask, and reports the new mask as the old
    one, so that the mask cannot be restored. *)
Theorem sigprocmask_ok SIG_SETMASK SIG_BLOCK SIG_UNBLOCK p xs ctx how s :
  Stack.rep (signals_contexts p) (xs ++ [ctx]) -> SIG_SETMASK <> SIG_BLOCK -> SIG_SETMASK <> SIG_UNBLOCK -> SIG_BLOCK <> SIG_UNBLOCK ->
  (how = SIG_SETMASK \/ how = SIG_BLOCK \/ how = SIG_UNBLOCK) ->
  let m := if how =? SIG_SETMASK then s
           else if how =? SIG_BLOCK then zip_with Z.lor (blocked_mask ctx) s else zip_with Z.ldiff (blocked_mask ctx) s in
  exists p', sigprogmask SIG_SETMASK SIG_BLOCK SIG_UNBLOCK p how (Some s) = Ok (p', Val 0, Some (if how =? SIG_SETMASK then s else blocked_mask ctx)) /\
    Stack.rep (signals_contexts p') (xs ++ [mkCtx (c_cpu ctx) (c_stack ctx) m]) /\ pending_signals p' = pending_signals p.
Proof.
  intros Hst H1 H2 H3 Hhow m. destruct (Stack.top_rep _ _ _ Hst) as (Hn & Hu & Htop).
  assert (forall m, exists st, set_top_mask (signals_contexts p) m = Ok st /\ Stack.rep st (xs ++ [mkCtx (c_cpu ctx) (c_stack ctx) m])) as Hset.
  { intros m'. unfold set_top_mask. rewrite (u32_id (Stack.size _ - 1)), Htop by done. run. eexists. split; [done|].
    pose proof (Stack.rep_length _ _ Hst) as Hl. rewrite length_app in Hl. simpl in Hl. destruct Hst as (Hc & Hd & Hs & Ht).
    split_and!; simpl; [lia|lia|by rewrite length_insert|lia|lia|].
    replace (Z.to_nat (Stack.size (signals_contexts p))) with (S (length xs)) in * by lia.
    replace (Z.to_nat (Stack.size (signals_contexts p) - 1)) with (length xs) in * by lia.
    rewrite (take_S_r _ _ (mkCtx (c_cpu ctx) (c_stack ctx) m')) by (apply list_lookup_insert_eq; lia). f_equal.
    rewrite take_insert_ge by lia. rewrite (take_S_r _ _ ctx) in Ht by done. by apply app_inj_tail in Ht as [-> _]. }
  unfold sigprogmask. rewrite (Stack.peek_rep _ _ _ Hst). run. destruct (Hset m) as (st & Hm & Hrep).
  exists (set_contexts p st). unfold m in *. destruct Hhow as [->|[->| ->]].
  - rewrite Z.eqb_refl in *. rewrite Hm. run. done.
  - rewrite (proj2 (Z.eqb_neq SIG_BLOCK SIG_SETMASK)), Z.eqb_refl in * by congruence. rewrite Hm. run. done.
  - rewrite (proj2 (Z.eqb_neq SIG_UNBLOCK SIG_SETMASK)), (proj2 (Z.eqb_neq SIG_UNBLOCK SIG_BLOCK)), Z.eqb_refl in * by congruence. rewrite Hm. run. done.
Qed.

Lemma sigprocmask_ok_witness :
  exists p', sigprogmask 0 1 2 signalled 0 (Some [64]) = Ok (p', Val 0, Some [64]) /\
    Stack.rep (signals_contexts p') ([] ++ [mkCtx 0 (mkStackState 0 0 0) [64]]).
Proof.
  destruct (sigprocmask_ok 0 1 2 signalled [] (mkCtx 0 (mkStackState 0 0 0) [2]) 0 [64]) as (p' & H1 & H2 & _);
    [split_and!; simpl; (lia || reflexivity)|done|done|done|by left|].
  by exists p'.
Defined.

(** Sending signal 0, which should only test that the process is there, ends it. *)
Lemma kill_zero_terminates SIGCANCEL SIG_DFL p l :
  SIGCANCEL <> 0 -> signal_action p = SIG_DFL :: l -> kill SIGCANCEL SIG_DFL p 0 = Ok (terminate_with_signal p 0, Val 0).
Proof.
  intros Hc Ha. unfold kill. rewrite (proj2 (Z.eqb_neq 0 SIGCANCEL)) by done. unfold kill_signal. rewrite Ha.
  assert (at_index (SIG_DFL :: l) 0 = Ok SIG_DFL) as -> by done. simpl. by rewrite Z.eqb_refl.
Qed.

End Signals.
