(* ===== verification/Bytes.v ===== *)
(** * Bytes in memory

    Buffers, packets and disk sectors are lists of bytes; the machine keeps words in little-endian order.  Shared by the
    file system and the network. *)

From stdpp Require Import base tactics numbers list.
From S2P Require Import Prelude.
Open Scope Z_scope.

Module Bytes.

Definition byte (l : list Z) (o : Z) : Z := nth (Z.to_nat o) l 0.
Definition rd16 (l : list Z) (o : Z) : Z := byte l o + 256 * byte l (o + 1).
Definition rd32 (l : list Z) (o : Z) : Z := rd16 l o + 65536 * rd16 l (o + 2).
Definition le16 (v : Z) : list Z := [v mod 256; v / 256 mod 256].
Definition le32 (v : Z) : list Z := le16 v ++ le16 (v / 65536).

(** [n] bytes from [o], and the copy of [x] to [o]. *)
Definition slice (l : list Z) (o n : Z) : list Z := take (Z.to_nat n) (drop (Z.to_nat o) l).
Definition patch (l : list Z) (o : Z) (x : list Z) : list Z :=
  take (Z.to_nat o) l ++ x ++ drop (Z.to_nat o + length x) l.

(** A copy that has to stay inside of the buffer. *)
Definition patch_in (l : list Z) (o : Z) (x : list Z) : res (list Z) :=
  if (0 <=? o) && (o + Z.of_nat (length x) <=? Z.of_nat (length l)) then Ok (patch l o x) else Fault.

(** The characters before the terminating zero. *)
Fixpoint cstr (l : list Z) : list Z :=
  match l with [] => [] | b :: l => if b =? 0 then [] else b :: cstr l end.

(** ** Bytes that are written and read back *)

Lemma byte_lookup l i : byte l i = default 0 (l !! Z.to_nat i).
Proof. apply nth_lookup. Qed.

Lemma length_patch l o x :
  0 <= o -> o + Z.of_nat (length x) <= Z.of_nat (length l) -> length (patch l o x) = length l.
Proof. intros. unfold patch. rewrite !length_app, length_take, length_drop. lia. Qed.

Lemma byte_patch l o x i :
  0 <= o -> o + Z.of_nat (length x) <= Z.of_nat (length l) -> 0 <= i ->
  byte (patch l o x) i = if decide (o <= i < o + Z.of_nat (length x)) then byte x (i - o) else byte l i.
Proof.
  intros Ho Hl Hi. rewrite !byte_lookup. unfold patch.
  assert (length (take (Z.to_nat o) l) = Z.to_nat o) as Ht by (rewrite length_take; lia).
  case_decide.
  - rewrite lookup_app_r, lookup_app_l by (rewrite ?Ht; lia). rewrite Ht. do 2 f_equal. lia.
  - destruct (decide (i < o)).
    + rewrite lookup_app_l, lookup_take_lt by (rewrite ?Ht; lia). done.
    + rewrite !lookup_app_r, lookup_drop by (rewrite ?Ht; lia). rewrite Ht. do 2 f_equal. lia.
Qed.

Lemma length_le32 x : length (le32 x) = 4%nat.
Proof. done. Qed.

Lemma rd32_patch l o x : 0 <= o -> o + 4 <= Z.of_nat (length l) -> is_u32 x -> rd32 (patch l o (le32 x)) o = x.
Proof.
  intros Ho Hl Hx. unfold rd32, rd16.
  rewrite !byte_patch, !decide_True by (rewrite ?length_le32; lia).
  replace (o - o) with 0 by lia. replace (o + 1 - o) with 1 by lia.
  replace (o + 2 - o) with 2 by lia. replace (o + 2 + 1 - o) with 3 by lia.
  unfold byte, le32, le16. simpl. unfold is_u32 in Hx. Z.div_mod_to_equations. lia.
Qed.

Lemma rd32_patch_ne l o o' x :
  0 <= o -> 0 <= o' -> o + 4 <= Z.of_nat (length l) -> o' + 4 <= o \/ o + 4 <= o' ->
  rd32 (patch l o (le32 x)) o' = rd32 l o'.
Proof.
  intros. unfold rd32, rd16. by rewrite !byte_patch, !decide_False by (rewrite ?length_le32; lia).
Qed.

Lemma slice_full l n : n = Z.of_nat (length l) -> slice l 0 n = l.
Proof. intros ->. unfold slice. rewrite Nat2Z.id, Z2Nat.inj_0, drop_0. apply firstn_all. Qed.

End Bytes.
