(* ===== verification/Ata.v ===== *)
(** * The disk driver ([file_management/ATA.cpp], [ATA.h])

    [ATA::access] turns a sector number into writes to the I/O ports of the drive.  The ports
    written are a list of (port, value), in order; [decode] is the drive's side, which collects the
    registers from them as the ATA standard defines.  The file system above sees the drive through the
    class [BlockDevice], which [ata_device] implements with [read_sectors] and [write_sectors].
    The waits for a busy drive are taken to end, and the status and error registers a read leaves
    behind are functions of the sector. *)

From stdpp Require Import base tactics numbers list gmap.
From S2P Require Import Prelude.
Open Scope Z_scope.

(** What a file system asks of a disk: sectors of 512 bytes that can be read unless the drive
    reports an error, and that keep what is written. *)
Class BlockDevice (D : Type) := {
  read_sector : D -> Z -> option (list Z);
  write_sector : D -> Z -> list Z -> option D
}.

Class BlockLaws (D : Type) `{BlockDevice D} := {
  read_length d s l : read_sector d s = Some l -> length l = 512%nat;
  write_readable d s l : is_Some (read_sector d s) -> length l = 512%nat -> is_Some (write_sector d s l);
  read_written d s l d' :
    is_Some (read_sector d s) -> length l = 512%nat -> write_sector d s l = Some d' -> read_sector d' s = Some l;
  read_other d s s' l d' : write_sector d s l = Some d' -> s <> s' -> read_sector d' s' = read_sector d s'
}.

Module Ata.

(** ** Registers *)

Definition BAR0 : Z := 0x1F0.
Definition BAR1 : Z := 0x3F6.
Definition BAR2 : Z := 0x170.
Definition BAR3 : Z := 0x376.
Definition BAR4 : Z := 0.

Definition ATA_SR_BSY : Z := 0x80.
Definition ATA_SR_DF : Z := 0x20.
Definition ATA_SR_DRQ : Z := 0x08.
Definition ATA_SR_ERR : Z := 0x01.

Definition ATA_REG_SECCOUNT0 : Z := 0x02.
Definition ATA_REG_LBA0 : Z := 0x03.
Definition ATA_REG_LBA1 : Z := 0x04.
Definition ATA_REG_LBA2 : Z := 0x05.
Definition ATA_REG_HDDEVSEL : Z := 0x06.
Definition ATA_REG_COMMAND : Z := 0x07.
Definition ATA_REG_SECCOUNT1 : Z := 0x08.
Definition ATA_REG_LBA3 : Z := 0x09.
Definition ATA_REG_LBA4 : Z := 0x0A.
Definition ATA_REG_LBA5 : Z := 0x0B.
Definition ATA_REG_CONTROL : Z := 0x0C.

Definition ATA_CMD_READ_PIO : Z := 0x20.
Definition ATA_CMD_READ_PIO_EXT : Z := 0x24.
Definition ATA_CMD_WRITE_PIO : Z := 0x30.
Definition ATA_CMD_WRITE_PIO_EXT : Z := 0x34.

Inductive direction := ATA_READ | ATA_WRITE.
Inductive ide_type := IDE_ATA | IDE_ATAPI.

#[export] Instance direction_eq_dec : EqDecision direction.
Proof. solve_decision. Defined.
#[export] Instance ide_type_eq_dec : EqDecision ide_type.
Proof. solve_decision. Defined.

Record channel := mkChannel { base : Z; ctrl : Z; bmide : Z; nIEN : Z }.

Record ide_device := mkDevice {
  Reserved : Z; Channel : Z; Drive : Z; Type_ : ide_type; Capabilities : Z; CommandSets : Z; Size : Z; Model : list Z
}.

(** The channels as [IDE::init] sets them up. *)
Definition bar_base (bar dflt : Z) : Z := Z.land bar 0xFFFFFFFC + dflt * (if bar =? 0 then 1 else 0).

Definition channels (c : Z) : channel :=
  if c =? 0 then mkChannel (bar_base BAR0 0x1F0) (bar_base BAR1 0x3F6) (Z.land BAR4 0xFFFFFFFC) 0
  else mkChannel (bar_base BAR2 0x170) (bar_base BAR3 0x376) (Z.land BAR4 0xFFFFFFFC + 8) 0.

Definition set_nIEN (c : channel) (n : Z) : channel := mkChannel (base c) (ctrl c) (bmide c) n.

(** The 16 and 32-bit little-endian fields of the identification block. *)
Definition le16_at (l : list Z) (o : nat) : Z := nth o l 0 + 256 * nth (o + 1) l 0.
Definition le32_at (l : list Z) (o : nat) : Z := le16_at l o + 65536 * le16_at l (o + 2).

(** The model name comes with the bytes of each word swapped. *)
Fixpoint model_name (k : nat) (l : list Z) (o : nat) : list Z :=
  match k with
  | O => [0]
  | S k => nth (o + 1) l 0 :: nth o l 0 :: model_name k l (o + 2)
  end.

(** Step (VI) to (VIII) of [IDE::init]: the device a block of identification data describes. *)
Definition identify (i j : Z) (type : ide_type) (buf : list Z) : ide_device :=
  let sets := le32_at buf 164 in
  mkDevice 1 i j type (le16_at buf 98) sets
    (if Z.testbit sets 26 then le32_at buf 200 else le32_at buf 120) (model_name 20 buf 54).

(** ** Writes to the ports *)

Definition ide_write_reg (c : channel) (reg data : Z) : list (Z * Z) :=
  if reg <? 0x08 then [(base c + reg - 0x00, data)]
  else if reg <? 0x0C then [(base c + reg - 0x06, data)]
  else if reg <? 0x0E then [(ctrl c + reg - 0x0A, data)]
  else if reg <? 0x16 then [(bmide c + reg - 0x0E, data)]
  else [].

(** [IDE::write]: the registers 8 to 11 share the ports of 2 to 5, behind a bit of the control register. *)
Definition ide_write (c : channel) (reg data : Z) : list (Z * Z) :=
  if (0x07 <? reg) && (reg <? 0x0C)
  then ide_write_reg c ATA_REG_CONTROL (Z.lor 0x80 (nIEN c)) ++ ide_write_reg c reg data
       ++ ide_write_reg c ATA_REG_CONTROL (nIEN c)
  else ide_write_reg c reg data.

(** Step (I) of [ATA::access]: the addressing mode, the six address bytes and the head. *)
Definition address (dev : ide_device) (lba : Z) : Z * list Z * Z :=
  if 0x10000000 <=? lba then
    (2, [Z.shiftr (Z.land lba 0x000000FF) 0; Z.shiftr (Z.land lba 0x0000FF00) 8;
         Z.shiftr (Z.land lba 0x00FF0000) 16; Z.shiftr (Z.land lba 0xFF000000) 24; 0; 0], 0)
  else if truthy (Z.land (Capabilities dev) 0x200) then
    (1, [Z.shiftr (Z.land lba 0x00000FF) 0; Z.shiftr (Z.land lba 0x000FF00) 8;
         Z.shiftr (Z.land lba 0x0FF0000) 16; 0; 0; 0], Z.shiftr (Z.land lba 0xF000000) 24)
  else
    let sect := u8 (lba mod 63 + 1) in
    let cyl := u16 ((lba +u 1 -u sect) / (16 * 63)) in
    (0, [sect; Z.land (Z.shiftr cyl 0) 0xFF; Z.land (Z.shiftr cyl 8) 0xFF; 0; 0; 0],
     u8 ((lba +u 1 -u sect) mod (16 * 63) / 63)).

Definition io (l : list Z) (i : nat) : Z := nth i l 0.

(** Steps (IV) to (VI): select the drive, write the parameters, send the command. *)
Definition access_command (dir : direction) (dev : ide_device) (lba numsects : Z) : list (Z * Z) :=
  let c := set_nIEN (channels (Channel dev)) 2 in
  let '(mode, lba_io, head) := address dev lba in
  ide_write c ATA_REG_CONTROL 2
  ++ ide_write c ATA_REG_HDDEVSEL (Z.lor (Z.lor (if mode =? 0 then 0xA0 else 0xE0) (Z.shiftl (Drive dev) 4)) head)
  ++ (if mode =? 2
      then ide_write c ATA_REG_SECCOUNT1 0 ++ ide_write c ATA_REG_LBA3 (io lba_io 3)
           ++ ide_write c ATA_REG_LBA4 (io lba_io 4) ++ ide_write c ATA_REG_LBA5 (io lba_io 5)
      else [])
  ++ ide_write c ATA_REG_SECCOUNT0 numsects ++ ide_write c ATA_REG_LBA0 (io lba_io 0)
  ++ ide_write c ATA_REG_LBA1 (io lba_io 1) ++ ide_write c ATA_REG_LBA2 (io lba_io 2)
  ++ ide_write c ATA_REG_COMMAND
       match dir with
       | ATA_READ => if mode =? 2 then ATA_CMD_READ_PIO_EXT else ATA_CMD_READ_PIO
       | ATA_WRITE => if mode =? 2 then ATA_CMD_WRITE_PIO_EXT else ATA_CMD_WRITE_PIO
       end.

(** ** Status *)

(** [IDE::polling] with the check, on the status register once the drive is not busy. *)
Definition polling (state : Z) : Z :=
  if truthy (Z.land state ATA_SR_ERR) then 2
  else if truthy (Z.land state ATA_SR_DF) then 1
  else if Z.land state ATA_SR_DRQ =? 0 then 3
  else 0.

(** [IDE::print_error], with the error register [st]: the code returned. *)
Definition print_error (st err : Z) : Z :=
  let bit m v e := if truthy (Z.land st m) then v else e in
  if err =? 0 then err
  else if err =? 1 then 19
  else if err =? 2 then
    bit 0x80 13 (bit 0x40 22 (bit 0x20 3 (bit 0x10 21 (bit 0x08 3 (bit 0x04 20 (bit 0x02 3 (bit 0x01 7 err)))))))
  else if err =? 3 then 23
  else if err =? 4 then 8
  else err.

(** ** The drive

    The registers behind the ports, as the ATA standard has them: each of the ports 2 to 5 keeps the last
    two values written, the older one being the high half of a 48-bit address. *)

Definition written (t : list (Z * Z)) (port : Z) : list Z :=
  omap (fun '(p, v) => if p =? port then Some v else None) (rev t).

Definition reg (t : list (Z * Z)) (port : Z) (k : nat) : Z := nth k (written t port) 0.

Record command := mkCommand { c_dir : direction; c_slave : bool; c_lba : Z; c_count : Z }.

Definition decode (b : Z) (t : list (Z * Z)) : option command :=
  let cmd := reg t (b + 7) 0 in
  let sel := reg t (b + 6) 0 in
  let low := reg t (b + 3) 0 + 256 * reg t (b + 4) 0 + 65536 * reg t (b + 5) 0 in
  let high := reg t (b + 3) 1 + 256 * reg t (b + 4) 1 + 65536 * reg t (b + 5) 1 in
  let ext := (cmd =? ATA_CMD_READ_PIO_EXT) || (cmd =? ATA_CMD_WRITE_PIO_EXT) in
  let lba := if ext then low + 16777216 * high
             else if Z.testbit sel 6 then low + 16777216 * Z.land sel 15
             else ((reg t (b + 4) 0 + 256 * reg t (b + 5) 0) * 16 + Z.land sel 15) * 63 + reg t (b + 3) 0 - 1 in
  if (cmd =? ATA_CMD_READ_PIO) || (cmd =? ATA_CMD_READ_PIO_EXT)
  then Some (mkCommand ATA_READ (Z.testbit sel 4) lba (reg t (b + 2) 0))
  else if (cmd =? ATA_CMD_WRITE_PIO) || (cmd =? ATA_CMD_WRITE_PIO_EXT)
  then Some (mkCommand ATA_WRITE (Z.testbit sel 4) lba (reg t (b + 2) 0))
  else None.

(** A drive: what [IDE::devices] says of it, its sectors (zero where nothing was written), and the status and
    error registers a read of a sector leaves. *)
Record drive := mkDrive {
  device : ide_device; sectors : gmap Z (list Z); status : Z -> Z; error_reg : Z -> Z
}.

Definition store (d : drive) (a : Z) (l : list Z) : drive :=
  mkDrive (device d) (<[a := l]> (sectors d)) (status d) (error_reg d).

(** [ATA::access] for one sector, the only count the file system uses.  Reading polls for errors, writing does not
    look at what polling says. *)
Definition access_read (d : drive) (lba : Z) : Z * option (list Z) :=
  match decode (base (channels (Channel (device d)))) (access_command ATA_READ (device d) lba 1) with
  | Some c =>
      if polling (status d (c_lba c)) =? 0 then (0, Some (default (repeat 0 512) (sectors d !! c_lba c)))
      else (polling (status d (c_lba c)), None)
  | None => (3, None)
  end.

Definition access_write (d : drive) (lba : Z) (l : list Z) : Z * drive :=
  match decode (base (channels (Channel (device d)))) (access_command ATA_WRITE (device d) lba 1) with
  | Some c => (0, store d (c_lba c) l)
  | None => (0, d)
  end.

Definition drive_present (d : drive) : bool := negb (Reserved (device d) =? 0).

(** [ATA::read_sectors] and [ATA::write_sectors] of one sector: the code returned, and the sector read or the
    drive written. *)
Definition read_sectors (d : drive) (lba : Z) : Z * option (list Z) :=
  if negb (drive_present d) then (1, None)
  else if (Size (device d) <? lba +u 1) && bool_decide (Type_ (device d) = IDE_ATA) then (2, None)
  else
    let '(err, data) := if decide (Type_ (device d) = IDE_ATA) then access_read d lba else (4, None) in
    (print_error (error_reg d lba) err, data).

Definition write_sectors (d : drive) (lba : Z) (l : list Z) : Z * drive :=
  if negb (drive_present d) then (1, d)
  else if (Size (device d) <? lba +u 1) && bool_decide (Type_ (device d) = IDE_ATA) then (2, d)
  else
    let '(err, d') := if decide (Type_ (device d) = IDE_ATA) then access_write d lba l else (4, d) in
    (print_error (error_reg d lba) err, d').

(** The drives the driver can address: on one of two channels, master or slave, and small enough for
    cylinders when it has no linear addressing. *)
Definition drive_ok (d : drive) : Prop :=
  (Channel (device d) = 0 \/ Channel (device d) = 1) /\ (Drive (device d) = 0 \/ Drive (device d) = 1) /\
  is_u32 (Size (device d)) /\
  (truthy (Z.land (Capabilities (device d)) 0x200) = true \/ Size (device d) <= 65536 * 1008) /\
  map_Forall (fun _ l => length l = 512%nat) (sectors d).

(** ** Addresses *)

Lemma byte_field lba m k :
  0 <= k -> Z.shiftr m k = 255 -> Z.shiftr (Z.land lba m) k = (lba / 2 ^ k) mod 256.
Proof.
  intros Hk Hm. rewrite Z.shiftr_land, Hm. change 255 with (Z.ones 8).
  rewrite Z.land_ones, Z.shiftr_div_pow2 by lia. done.
Qed.

Lemma head_field lba : Z.shiftr (Z.land lba 0xF000000) 24 = (lba / 2 ^ 24) mod 16.
Proof.
  rewrite Z.shiftr_land. change (Z.shiftr 0xF000000 24) with (Z.ones 4).
  rewrite Z.land_ones, Z.shiftr_div_pow2 by lia. done.
Qed.

(** The drive-select byte: the head in the low four bits, the slave bit, the addressing mode. *)
Lemma select_fields m s h :
  0 <= h < 16 -> s = 0 \/ s = 1 -> m = 0xA0 \/ m = 0xE0 ->
  let sel := Z.lor (Z.lor m (Z.shiftl s 4)) h in
  Z.land sel 15 = h /\ Z.testbit sel 4 = (s =? 1) /\ Z.testbit sel 6 = (m =? 0xE0).
Proof.
  intros Hh Hs Hm sel. subst sel.
  assert (forall n, 4 <= n -> Z.testbit h n = false) as Hb.
  { intros n Hn. destruct (decide (h = 0)) as [->|]; [apply Z.bits_0|].
    apply Z.bits_above_log2; [lia|]. apply Z.log2_lt_pow2; [lia|].
    assert (2 ^ 4 <= 2 ^ n) by (apply Z.pow_le_mono_r; lia). lia. }
  rewrite !Z.lor_spec, !Hb, !orb_false_r, Z.land_lor_distr_l by lia.
  replace (Z.land h 15) with h by (change 15 with (Z.ones 4); rewrite Z.land_ones, Z.mod_small; lia).
  destruct Hs as [->| ->], Hm as [->| ->]; done.
Qed.

Lemma linear_bytes lba : 0 <= lba ->
  lba mod 256 + 256 * ((lba / 256) mod 256) + 65536 * ((lba / 65536) mod 256) = lba mod 16777216.
Proof. intros. Z.div_mod_to_equations. lia. Qed.

Lemma chs_address lba : 0 <= lba < 65536 * 1008 ->
  let sect := u8 (lba mod 63 + 1) in
  let cyl := u16 ((lba +u 1 -u sect) / (16 * 63)) in
  let head := u8 ((lba +u 1 -u sect) mod (16 * 63) / 63) in
  0 <= head < 16 /\ is_u16 cyl /\ (cyl * 16 + head) * 63 + sect - 1 = lba.
Proof.
  intros Hl. unfold u8, u16, u32, is_u16. cbv zeta.
  assert (0 <= lba mod 63 < 63) by (apply Z.mod_pos_bound; lia).
  assert (lba mod 63 <= lba) by (apply Z.mod_le; lia).
  rewrite (Z.mod_small (lba mod 63 + 1)), (Z.mod_small (lba + 1)), (Z.mod_small (_ - _)) by lia.
  replace (lba + 1 - (lba mod 63 + 1)) with (lba / 63 * 63) by (pose proof (Z.div_mod lba 63); lia).
  replace (lba / 63 * 63 / (16 * 63)) with (lba / 1008)
    by (rewrite Z.div_mul_cancel_r by lia; rewrite Z.div_div by lia; done).
  replace ((lba / 63 * 63) mod (16 * 63) / 63) with (lba / 63 mod 16)
    by (rewrite Z.mul_mod_distr_r by lia; symmetry; by apply Z.div_mul).
  rewrite !(Z.mod_small (lba / 1008)), (Z.mod_small (_ mod 16)) by (Z.div_mod_to_equations; lia).
  Z.div_mod_to_equations. lia.
Qed.

Definition addressable (dev : ide_device) (lba : Z) : Prop :=
  is_u32 lba /\ (truthy (Z.land (Capabilities dev) 0x200) = true \/ 0x10000000 <= lba \/ lba < 65536 * 1008).

Lemma decode_command dir dev lba n :
  Channel dev = 0 \/ Channel dev = 1 ->
  let '(mode, l, head) := address dev lba in
  let sel := Z.lor (Z.lor (if mode =? 0 then 0xA0 else 0xE0) (Z.shiftl (Drive dev) 4)) head in
  (mode = 0 \/ mode = 1 \/ mode = 2) /\
  decode (base (channels (Channel dev))) (access_command dir dev lba n) =
  Some (mkCommand dir (Z.testbit sel 4)
    (if mode =? 2 then io l 0 + 256 * io l 1 + 65536 * io l 2 + 16777216 * (io l 3 + 256 * io l 4 + 65536 * io l 5)
     else if Z.testbit sel 6 then io l 0 + 256 * io l 1 + 65536 * io l 2 + 16777216 * Z.land sel 15
     else ((io l 1 + 256 * io l 2) * 16 + Z.land sel 15) * 63 + io l 0 - 1) n).
Proof.
  intros Hc. unfold access_command.
  destruct (address dev lba) as [[mode l] head] eqn:E.
  assert (mode = 0 \/ mode = 1 \/ mode = 2) as Hm.
  { unfold address in E. repeat case_match; simplify_eq; auto. }
  split; [done|].
  destruct Hc as [-> | ->], Hm as [->|[->| ->]], dir; vm_compute; reflexivity.
Qed.

Lemma access_decodes dir dev lba n :
  Channel dev = 0 \/ Channel dev = 1 -> Drive dev = 0 \/ Drive dev = 1 -> addressable dev lba ->
  decode (base (channels (Channel dev))) (access_command dir dev lba n) =
  Some (mkCommand dir (Drive dev =? 1) lba n).
Proof.
  intros Hc Hd [Hu Ha]. unfold is_u32 in Hu. pose proof (decode_command dir dev lba n Hc) as H. unfold address in H.
  destruct (Z.leb_spec 0x10000000 lba); [|destruct (truthy _) eqn:?];
    destruct H as [_ ->]; cbn [Z.eqb Pos.eqb]; do 2 f_equal.
  - by destruct (select_fields 0xE0 (Drive dev) 0) as (_ & -> & _); [lia|auto..|].
  - cbn [io nth]. rewrite !byte_field by done. change (2 ^ 0) with 1. rewrite Z.div_1_r.
    pose proof (linear_bytes lba). Z.div_mod_to_equations. lia.
  - destruct (select_fields 0xE0 (Drive dev) (Z.shiftr (Z.land lba 0xF000000) 24)) as (_ & -> & _); auto.
    rewrite head_field. by apply Z.mod_pos_bound.
  - destruct (select_fields 0xE0 (Drive dev) (Z.shiftr (Z.land lba 0xF000000) 24)) as (-> & _ & ->); auto.
    { rewrite head_field. by apply Z.mod_pos_bound. }
    cbn [io nth Z.eqb Pos.eqb]. rewrite !byte_field, head_field by done. change (2 ^ 0) with 1. rewrite Z.div_1_r.
    pose proof (linear_bytes lba). Z.div_mod_to_equations. lia.
  - destruct (chs_address lba) as (Hh & _ & _); [lia|].
    by destruct (select_fields 0xA0 (Drive dev) _ Hh) as (_ & -> & _); auto.
  - destruct (chs_address lba) as (Hh & Hy & Hl); [lia|].
    destruct (select_fields 0xA0 (Drive dev) _ Hh) as (-> & _ & ->); auto.
    cbn [io nth Z.eqb Pos.eqb]. rewrite Z.shiftr_0_r, Z.shiftr_div_pow2 by lia. change 0xFF with (Z.ones 8).
    rewrite !Z.land_ones by lia. revert Hy Hl. cbv zeta. generalize (u16 ((lba +u 1 -u u8 (lba mod 63 + 1)) / (16 * 63))).
    unfold is_u16. intros cyl Hy Hl. replace (cyl mod 2 ^ 8 + 256 * ((cyl / 2 ^ 8) mod 2 ^ 8)) with cyl; [done|].
    Z.div_mod_to_equations. lia.
Qed.

(** The port writes of [ATA::access] select the drive asked for and address exactly the sector
    [lba], in each of the three addressing modes: 48-bit, 28-bit and cylinder/head/sector. *)
Theorem access_addresses_lba dir dev lba n :
  Channel dev = 0 \/ Channel dev = 1 -> Drive dev = 0 \/ Drive dev = 1 -> addressable dev lba ->
  decode (base (channels (Channel dev))) (access_command dir dev lba n) =
  Some (mkCommand dir (Drive dev =? 1) lba n).
Proof. apply access_decodes. Qed.

Definition disk0 : ide_device := mkDevice 1 0 0 IDE_ATA 0x200 0 4096 [].

Lemma access_addresses_lba_witness :
  (Channel disk0 = 0 \/ Channel disk0 = 1) /\ addressable disk0 1234 /\
  decode (base (channels (Channel disk0))) (access_command ATA_READ disk0 1234 1)
  = Some (mkCommand ATA_READ (Drive disk0 =? 1) 1234 1).
Proof.
  split; [by left|]. split; [split; [split; done|by left]|].
  apply access_addresses_lba; [by left|by left|split; [split; done|by left]].
Defined.

(** ** The interface *)

(** A sector number the driver accepts on an ATA drive. *)
Definition accepted (d : drive) (lba : Z) : bool :=
  drive_present d && bool_decide (Type_ (device d) = IDE_ATA) && (lba +u 1 <=? Size (device d)).

Lemma accepted_decodes dir d lba :
  drive_ok d -> is_u32 lba -> accepted d lba = true ->
  decode (base (channels (Channel (device d)))) (access_command dir (device d) lba 1)
  = Some (mkCommand dir (Drive (device d) =? 1) lba 1).
Proof.
  intros (Hch & Hdr & Hs & Hc & _) Hl Ha. apply access_decodes; [done|done|]. split; [done|].
  apply andb_prop in Ha as [_ Hle%Z.leb_le]. destruct Hc as [|Hc]; [by left|right].
  unfold u32, is_u32 in *. destruct (decide (lba = 4294967295)) as [->|]; [by left|].
  rewrite Z.mod_small in Hle by lia. lia.
Qed.

Definition ata_read (d : drive) (lba : Z) : option (list Z) :=
  let '(code, data) := read_sectors d lba in if code =? 0 then data else None.
Definition ata_write (d : drive) (lba : Z) (l : list Z) : option drive :=
  let '(code, d') := write_sectors d lba l in if code =? 0 then Some d' else None.

Lemma ata_read_eq d lba : drive_ok d -> is_u32 lba ->
  ata_read d lba = if accepted d lba && (polling (status d lba) =? 0)
                   then Some (default (repeat 0 512) (sectors d !! lba)) else None.
Proof.
  intros Hd Hl. pose proof (accepted_decodes ATA_READ d lba Hd Hl) as Hdec.
  unfold ata_read, read_sectors, accepted in *. destruct (drive_present d); [|done]. simpl in *.
  destruct (decide (Type_ (device d) = IDE_ATA)) as [Ht|Ht].
  2: { rewrite bool_decide_false, andb_false_r by done. by destruct (print_error _ 4 =? 0). }
  rewrite bool_decide_true, andb_true_r in * by done. simpl in *.
  destruct (Z.ltb_spec (Size (device d)) (lba +u 1)), (Z.leb_spec (lba +u 1) (Size (device d))); try lia; [done|].
  unfold access_read. rewrite Hdec by done. simpl.
  destruct (Z.eqb_spec (polling (status d lba)) 0) as [_|Hn]; [done|].
  by destruct (print_error _ _ =? 0).
Qed.

Lemma ata_write_eq d lba l : drive_ok d -> is_u32 lba ->
  ata_write d lba l = if accepted d lba then Some (store d lba l) else None.
Proof.
  intros Hd Hl. pose proof (accepted_decodes ATA_WRITE d lba Hd Hl) as Hdec.
  unfold ata_write, write_sectors, accepted in *. destruct (drive_present d); [|done]. simpl in *.
  destruct (decide (Type_ (device d) = IDE_ATA)) as [Ht|Ht].
  2: { rewrite bool_decide_false, andb_false_r by done. done. }
  rewrite bool_decide_true, andb_true_r in * by done. simpl in *.
  destruct (Z.ltb_spec (Size (device d)) (lba +u 1)), (Z.leb_spec (lba +u 1) (Size (device d))); try lia; [done|].
  unfold access_write. by rewrite Hdec.
Qed.

Lemma store_ok d lba l : drive_ok d -> length l = 512%nat -> drive_ok (store d lba l).
Proof. intros (? & ? & ? & ? & ?) ?. do 4 (split; [done|]). by apply map_Forall_insert_2. Qed.

(** The drives that the driver can address, as a block device. *)
Definition ata_drive := { d : drive | drive_ok d }.

Definition ata_write_drive (d : ata_drive) (s : Z) (l : list Z) : option ata_drive :=
  match decide (length l = 512%nat) with
  | left Hl => if ata_write (`d) s l then Some (store (`d) s l ↾ store_ok (`d) s l (proj2_sig d) Hl) else None
  | right _ => None
  end.

#[export] Instance ata_device : BlockDevice ata_drive := {
  read_sector d s := if bool_decide (0 <= s < 4294967296) then ata_read (`d) s else None;
  write_sector d s l := if bool_decide (0 <= s < 4294967296) then ata_write_drive d s l else None
}.

#[export] Instance ata_laws : BlockLaws ata_drive.
Proof.
  split; intros [d Hd] s; simpl.
  - intros l. case_bool_decide; [|done]. rewrite ata_read_eq by done. case_match; [|done]. intros [= <-].
    destruct (sectors d !! s) eqn:E; [|done]. by apply Hd in E.
  - intros l [x Hr] Hl. case_bool_decide; [|done]. rewrite ata_read_eq in Hr by done.
    unfold ata_write_drive. case_decide; [|done]. simpl. rewrite ata_write_eq by done.
    destruct (accepted d s); [by eexists|done].
  - intros l d' [x Hr] Hl. case_bool_decide; [|done]. rewrite ata_read_eq in Hr by done.
    unfold ata_write_drive. case_decide; [|done]. simpl. rewrite ata_write_eq by done.
    destruct (accepted d s) eqn:Ha; [|done]. intros [= <-]. simpl.
    rewrite ata_read_eq by (done || by apply store_ok). unfold accepted, drive_present in *. simpl in *.
    rewrite Ha. destruct (polling (status d s) =? 0); [|done]. simpl. by rewrite lookup_insert_eq.
  - intros s' l d' Hw Hne. case_bool_decide as Hs; [|done]. unfold ata_write_drive in Hw.
    case_decide; [|done]. simpl in Hw. rewrite ata_write_eq in Hw by done.
    destruct (accepted d s) eqn:Ha; [|done]. simplify_eq. simpl. case_bool_decide; [|done].
    rewrite !ata_read_eq by (done || by apply store_ok). unfold accepted, drive_present. simpl.
    by rewrite lookup_insert_ne.
Qed.

End Ata.
