(* ===== verification/Fat.v ===== *)
(** * The FAT32 file system ([file_management/FAT.cpp], [FAT.h], [FS.cpp], [dentry.h], [inode.h])

    A volume on any [BlockDevice].  The driver keeps two buffers of one sector: [FAT], the sector of the
    allocation table it last looked at, and [buf], a data sector; a [ctx] remembers which cluster and which
    table sector they hold.  A third buffer, [mem], is the one the caller of a read or a write provides.

    A function that returns [false], [nullptr] or [ENTRY_NOT_FOUND] leaves the buffers and the disk
    as they are at that point: the monad [M] passes the state on, and [None] is the failure that every
    caller passes on.  Directory entries are their 32 bytes on disk, strings are lists of non-zero bytes. *)

From stdpp Require Import base tactics numbers sets functions gmap list.
From S2P Require Import Prelude Bytes Ata.
Import Bytes.
Open Scope Z_scope.

Module Fat.

(** ** Constants *)

Definition ATA_SECTOR_SIZE : Z := 512.
Definition CLUSTER_EOC : Z := 0x0FFFFFFF.
Definition CLUSTER_MIN_EOC : Z := 0x0FFFFFF8.
Definition LAST_LONG_ENTRY : Z := 0x40.
Definition NAME_PADDING_BYTE : Z := 0x20.
Definition DIRECTORY : Z := 16.
Definition LFN : Z := 15.

(** ** Directory entries: a name of 11 bytes, the attributes, times, the first cluster in two halves, the size *)

Definition dir_entry := list Z.

Definition e_name (e : dir_entry) : list Z := take 11 e.
Definition attrs (e : dir_entry) : Z := byte e 11.
Definition file_size (e : dir_entry) : Z := rd32 e 28.
Definition first_cluster_addr (e : dir_entry) : Z := Z.lor (Z.shiftl (rd16 e 20) 16) (rd16 e 26).
Definition is_directory (e : dir_entry) : bool := truthy (Z.land (attrs e) DIRECTORY).
Definition is_LFN (e : dir_entry) : bool := truthy (Z.land (attrs e) LFN).
Definition is_free (e : dir_entry) : bool := byte e 0 =? 0.
Definition is_unused (e : dir_entry) : bool := byte e 0 =? 0xE5.
Definition is_EOF (e : dir_entry) : bool := truthy (Z.land (byte e 0) LAST_LONG_ENTRY).

Definition set_file_size (e : dir_entry) (n : Z) : dir_entry := patch e 28 (le32 n).
Definition set_first_cluster (e : dir_entry) (c : Z) : dir_entry :=
  patch (patch e 20 (le16 (Z.shiftr c 16))) 26 (le16 (Z.land c 0xFFFF)).

(** The bytes of a name up to the padding. *)
Fixpoint unpad (l : list Z) : list Z :=
  match l with [] => [] | b :: l => if b =? NAME_PADDING_BYTE then [] else b :: unpad l end.

Definition lower (b : Z) : Z := if (65 <=? b) && (b <=? 90) then b + 32 else b.

(** [DirEntry::get_name]: the bytes are put into a zeroed buffer and read back as a string. *)
Definition get_name (e : dir_entry) : list Z :=
  let n := e_name e in
  let dot := if negb (is_directory e) && negb (byte n 8 =? NAME_PADDING_BYTE) then [46] else [] in
  cstr (map lower (unpad (take 8 n) ++ dot ++ unpad (drop 8 n))).

Definition get_extension (e : dir_entry) : list Z :=
  (fix after l := match l with [] => [] | b :: l => if b =? 46 then l else after l end) (get_name e).

(** The loop of the constructor that copies the characters behind the last dot, backwards from the end; [i] of them
    are left.  It answers the place of the dot. *)
Fixpoint ext_loop (name : list Z) (l : Z) (i : nat) (field : list Z) : option nat * list Z :=
  match i with
  | O => (None, field)
  | S i =>
      let b := nth i name 0 in
      if b =? 46 then (Some i, field)
      else ext_loop name l i (<[Z.to_nat (10 - (l - 1 - Z.of_nat i)) := b]> field)
  end.

Definition entry_name_field (name : list Z) (attr : Z) : list Z :=
  let l := Z.of_nat (length name) in
  let field := repeat NAME_PADDING_BYTE 10 ++ [0] in
  if truthy (Z.land attr DIRECTORY) then patch field 0 (name ++ [0])
  else
    match ext_loop name l (length name) field with
    | (Some i, field) => patch field 0 (take i name)
    | (None, _) => patch (repeat NAME_PADDING_BYTE 11) 0 name
    end.

(** [DirEntry::DirEntry], with the default times. *)
Definition new_dir_entry (name : list Z) (attr cluster size : Z) : res dir_entry :=
  if 8 <? Z.of_nat (length name) then Panic
  else Ok (entry_name_field name attr ++ [attr; 0; 255; 255; 255; 255; 255; 255; 255]
           ++ le16 (Z.land (Z.shiftr cluster 16) 0xFFFF) ++ [255; 255; 255; 255]
           ++ le16 (Z.land cluster 0xFFFF) ++ le32 size).

(** ** Long names *)

(** [utf16_to_utf8_cautionless_cast]: the low bytes, up to a zero character. *)
Fixpoint utf16_cast (l : list Z) : list Z :=
  match l with
  | lo :: hi :: l => if (lo =? 0) && (hi =? 0) then [0] else lo :: utf16_cast l
  | _ => [0]
  end.

Definition get_uglily_converted_utf8_name (e : dir_entry) : list Z :=
  let n1 := cstr (utf16_cast (slice e 1 10)) in
  let n2 := cstr (utf16_cast (slice e 14 12)) in
  let n3 := cstr (utf16_cast (slice e 28 4)) in
  n1 ++ (if 5 <=? Z.of_nat (length n1) then n2 ++ (if 6 <=? Z.of_nat (length n2) then n3 else []) else []).

(** ** The volume and the driver's state *)

(** The fields of the boot sector the driver uses, and the geometry the constructor derives from them. *)
Record volume := mkVolume {
  sectors_per_cluster : Z; bytes_per_sector : Z; root_cluster : Z;
  total_sectors : Z; fat_size : Z; first_fat_sector : Z; first_data_sector : Z; total_clusters : Z
}.

Inductive FAT_type := ExFAT | FAT12 | FAT16 | FAT32.

Record ctx := mkCtx {
  active_cluster : Z; active_sector : Z; FAT_sector : Z; FAT_entry_offset : Z; table_value : Z;
  dir_entry_id : Z; buffer_updated : bool
}.

(** [ctx ctx{}]. *)
Definition ctx0 : ctx := mkCtx 0 0 0 0 0 0 false.

Definition set_dir_entry_id (c : ctx) (n : Z) : ctx :=
  mkCtx (active_cluster c) (active_sector c) (FAT_sector c) (FAT_entry_offset c) (table_value c) n (buffer_updated c).
Definition set_buffer_updated (c : ctx) (b : bool) : ctx :=
  mkCtx (active_cluster c) (active_sector c) (FAT_sector c) (FAT_entry_offset c) (table_value c) (dir_entry_id c) b.
Definition set_table_value (c : ctx) (v : Z) : ctx :=
  mkCtx (active_cluster c) (active_sector c) (FAT_sector c) (FAT_entry_offset c) v (dir_entry_id c) (buffer_updated c).

(** [Inode] and [Dentry]: the parent is a pointer to another dentry. *)
Inductive inode_type := IFile | IDir.
#[export] Instance inode_type_eq_dec : EqDecision inode_type.
Proof. solve_decision. Defined.

Record Inode := mkInode { i_size : Z; lba : Z; i_type : inode_type; i_id : Z; i_blocks : Z }.
Inductive Dentry := mkDentry (inode : Inode) (parent : option Dentry) (name : list Z).
Definition d_inode (d : Dentry) : Inode := let 'mkDentry i _ _ := d in i.
Definition d_parent (d : Dentry) : option Dentry := let 'mkDentry _ p _ := d in p.
Definition d_name (d : Dentry) : list Z := let 'mkDentry _ _ n := d in n.
Definition set_i_size (d : Dentry) (n : Z) : Dentry :=
  let 'mkDentry i p nm := d in mkDentry (mkInode n (lba i) (i_type i) (i_id i) (i_blocks i)) p nm.

(** The buffer a sector is read into: none, the driver's own, or a place in the caller's. *)
Inductive target := NoBuffer | DriveBuf | CallerBuf (o : Z).
#[export] Instance target_eq_dec : EqDecision target.
Proof. solve_decision. Defined.

Section driver.
Context {D : Type} `{BlockDevice D}.

Record fat := mkFat { dev : D; buf : list Z; FAT : list Z; mem : list Z }.
Definition set_dev (s : fat) d := mkFat d (buf s) (FAT s) (mem s).
Definition set_buf (s : fat) b := mkFat (dev s) b (FAT s) (mem s).
Definition set_FAT (s : fat) f := mkFat (dev s) (buf s) f (mem s).
Definition set_mem (s : fat) m := mkFat (dev s) (buf s) (FAT s) m.

(** Code that may return early with a failure. *)
Definition M (A : Type) : Type := fat -> res (option A * fat).
#[local] Instance M_ret : MRet M := fun A a s => Ok (Some a, s).
#[local] Instance M_bind : MBind M := fun A B f m s =>
  match m s with
  | Ok (Some a, s) => f a s
  | Ok (None, s) => Ok (None, s)
  | Panic => Panic
  | Fault => Fault
  | NoFuel => NoFuel
  end.
Definition fail {A} : M A := fun s => Ok (None, s).
Definition lift {A} (r : res A) : M A := fun s => a ← r; Ok (Some a, s).
Definition gets {A} (f : fat -> A) : M A := fun s => Ok (Some (f s), s).
Definition modify (f : fat -> fat) : M unit := fun s => Ok (Some tt, f s).
Definition no_fuel {A} : M A := fun _ => NoFuel.
(** A result that is dereferenced without a test. *)
Definition unchecked {A} (m : M A) : M A := fun s => match m s with Ok (None, _) => Fault | r => r end.

Definition read_disk (s : Z) : M (list Z) := fun st => Ok (read_sector (dev st) s, st).
Definition write_disk (s : Z) (l : list Z) : M unit := fun st =>
  match write_sector (dev st) s l with
  | Some d => Ok (Some tt, set_dev st d)
  | None => Ok (None, st)
  end.

(** ** Mounting *)

(** [FAT_drive::from_drive] and the constructor: the volume the boot sector describes, if it is a FAT32 one.  A
    division by zero is not defined. *)
Definition div_u (a b : Z) : res Z := if b =? 0 then Fault else Ok (a / b).

Definition from_boot_sector (b : list Z) : res (FAT_type * volume) :=
  let bps := rd16 b 11 in
  let spc := byte b 13 in
  let reserved := rd16 b 14 in
  let total := if rd16 b 19 =? 0 then rd32 b 32 else rd16 b 19 in
  root_dir_sectors ← div_u (u32 (rd16 b 17 * 32 + (bps - 1))) bps;
  let fsize := if rd16 b 22 =? 0 then rd32 b 36 else rd16 b 22 in
  let first_data := u32 (reserved + byte b 16 * fsize + root_dir_sectors) in
  let data_sectors := u32 (total - first_data) in
  clusters ← div_u data_sectors spc;
  let type := if bps =? 0 then ExFAT else if clusters <? 4085 then FAT12 else if clusters <? 65525 then FAT16 else FAT32 in
  Ok (type, mkVolume spc bps (rd32 b 44) total fsize reserved first_data clusters).

Definition from_drive : M volume :=
  b ← read_disk 0;
  '(type, v) ← lift (from_boot_sector b);
  match type with FAT32 => mret v | _ => fail end.

Context (v : volume).

Definition get_root_node : Inode := mkInode 0 (root_cluster v) IDir 0 0.

(** ** Clusters *)

Definition FIRST_SECTOR_OF_CLUSTER (c : Z) : Z := u32 ((c - 2) * sectors_per_cluster v + first_data_sector v).

Definition fill (t : target) (l : list Z) : M unit :=
  match t with
  | NoBuffer => mret tt
  | DriveBuf => modify (fun s => set_buf s l)
  | CallerBuf o => m ← gets mem; m ← lift (patch_in m o l); modify (fun s => set_mem s m)
  end.

(** [change_active_cluster]: first the data sector, then the table entry. *)
Definition load_cluster (new : Z) (c : ctx) (t : target) : M ctx :=
  match t with
  | NoBuffer =>
      mret (mkCtx new (active_sector c) (FAT_sector c) (FAT_entry_offset c) (table_value c) (dir_entry_id c)
              (negb (active_cluster c =? new)))
  | _ =>
      if negb (active_cluster c =? new) || buffer_updated c then
        let s := FIRST_SECTOR_OF_CLUSTER new in
        l ← read_disk s; _ ← fill t l;
        mret (mkCtx new s (FAT_sector c) (FAT_entry_offset c) (table_value c) (dir_entry_id c) false)
      else mret c
  end.

Definition load_table (c : ctx) : M ctx :=
  let FAT_offset := active_cluster c *u 4 in
  let new_sector := first_fat_sector v +u FAT_offset / ATA_SECTOR_SIZE in
  let o := FAT_offset mod ATA_SECTOR_SIZE in
  _ ← (if negb (new_sector =? FAT_sector c) then l ← read_disk new_sector; modify (fun s => set_FAT s l) else mret tt);
  f ← gets FAT;
  mret (mkCtx (active_cluster c) (active_sector c) new_sector o (Z.land (rd32 f o) 0x0FFFFFFF) 0 (buffer_updated c)).

Definition change_active_cluster (new : Z) (c : ctx) (t : target) : M ctx :=
  c ← load_cluster new c t; load_table c.

(** [get_free_clusters]: the zero entries of a table sector from [j] on, [k] entries being left, then the sectors
    from [sector] on. *)
Fixpoint free_in_sector (k : nat) (l : list Z) (sector j n : Z) (found : list Z) : list Z :=
  match k with
  | O => found
  | S k =>
      if Z.of_nat (length found) =? n then found
      else
        let skip := negb (rd32 l (4 * j) =? 0) || ((sector =? first_fat_sector v) && (j <? 2)) in
        let cluster := (sector -u first_fat_sector v) *u 128 +u j in
        free_in_sector k l sector (j + 1) n (if skip then found else found ++ [cluster])
  end.

Fixpoint free_in_sectors (k : nat) (sector n : Z) (found : list Z) : M (list Z) :=
  match k with
  | O => fail
  | S k =>
      l ← read_disk sector;
      let found := free_in_sector 128 l sector 0 n found in
      if Z.of_nat (length found) =? n then mret found else free_in_sectors k (sector + 1) n found
  end.

Definition get_free_clusters (n : Z) : M (list Z) :=
  if n =? 0 then mret [0]
  else free_in_sectors (Z.to_nat (total_sectors v - first_fat_sector v)) (first_fat_sector v) n [].

(** [*(uint* )&FAT[ctx.FAT_entry_offset] = ctx.table_value = x], then [write_fat]. *)
Definition write_fat (c : ctx) : M unit := f ← gets FAT; write_disk (FAT_sector c) f.

Definition set_table_entry (c : ctx) (x : Z) : M ctx :=
  f ← gets FAT; f ← lift (patch_in f (FAT_entry_offset c) (le32 x)); _ ← modify (fun s => set_FAT s f);
  _ ← write_fat c; mret (set_table_value c x).

(** [write_data_sectors] of one sector, from the driver's own buffer or from elsewhere. *)
Definition write_buf (c : ctx) (s : Z) : M ctx := b ← gets buf; _ ← write_disk s b; mret (set_buffer_updated c false).
Definition write_bytes (c : ctx) (s : Z) (l : list Z) : M ctx := _ ← write_disk s l; mret (set_buffer_updated c true).

(** ** Directories *)

Definition entry (l : list Z) (id : Z) : dir_entry := slice l (32 * id) 32.

(** [memcpy(&entries[id], e, sizeof(DirEntry))]. *)
Definition put_entry (id : Z) (e : dir_entry) : M unit :=
  b ← gets buf; b ← lift (patch_in b (32 * id) e); modify (fun s => set_buf s b).

(** The entries of one sector, from [id] on with [k] left, as [get_child_dir_entry_id] looks at them:
    [found_in_lfn] and [whole] are its variables. *)
Fixpoint scan (k : nat) (l : list Z) (name : list Z) (id : Z) (found_in_lfn : bool) (whole : list Z) : option Z :=
  match k with
  | O => None
  | S k =>
      let e := entry l id in
      if is_free e then None
      else if found_in_lfn then Some id
      else
        let lfn := is_LFN e in
        let whole := if lfn then get_uglily_converted_utf8_name e ++ whole else get_name e in
        let is_match := bool_decide (whole = name) in
        if is_match && negb lfn then Some id
        else scan k l name (id + 1) (is_match && lfn) (if lfn then whole else [])
  end.

Definition scan_sector (l name : list Z) : option Z := scan 16 l name 0 false [].

Definition dentry_cluster (d : Dentry) : Z := lba (d_inode d) *u sectors_per_cluster v.

Fixpoint child_loop (fuel : nat) (name : list Z) (cluster : Z) (c : ctx) : M (Z * ctx) :=
  match fuel with
  | O => no_fuel
  | S fuel =>
      c ← change_active_cluster cluster c DriveBuf;
      b ← gets buf;
      match scan_sector b name with
      | Some id => mret (id, set_dir_entry_id c id)
      | None => if table_value c <? CLUSTER_MIN_EOC then child_loop fuel name (table_value c) c else fail
      end
  end.

Definition get_child_dir_entry_id (fuel : nat) (parent : Dentry) (name : list Z) (c : ctx) : M (Z * ctx) :=
  if byte name 0 =? 47 then fail else child_loop fuel name (dentry_cluster parent) c.

(** The clusters of a directory, counted by [dir_entry_to_dentry]. *)
Fixpoint count_loop (fuel : nat) (cluster : Z) (c : ctx) (blocks : Z) : M Z :=
  match fuel with
  | O => no_fuel
  | S fuel =>
      c ← change_active_cluster cluster c NoBuffer;
      if table_value c <? CLUSTER_MIN_EOC then count_loop fuel (table_value c) c (blocks + 1) else mret (blocks + 1)
  end.

Definition dir_entry_to_dentry (fuel : nat) (e : dir_entry) (parent : option Dentry) (name : list Z) : M Dentry :=
  let type := if truthy (Z.land (attrs e) DIRECTORY) then IDir else IFile in
  blocks ← (if decide (type = IFile) then mret ((file_size e +u 511) / 512)
            else count_loop fuel (first_cluster_addr e *u sectors_per_cluster v) ctx0 0);
  mret (mkDentry (mkInode (file_size e) (first_cluster_addr e) type (first_cluster_addr e) blocks) parent name).

Definition get_child_dentry (fuel : nat) (parent : Dentry) (name : list Z) : M Dentry :=
  '(id, _) ← get_child_dir_entry_id fuel parent name ctx0;
  b ← gets buf;
  dir_entry_to_dentry fuel (entry b id) (Some parent) name.

(** [FAT_drive::ls]: the dentries given to the printer.  The long name is kept until the short entry it belongs to. *)
Fixpoint ls_sector (k : nat) (fuel : nat) (id : Z) (prev_lfn : list Z) : M (list Dentry) :=
  match k with
  | O => mret []
  | S k =>
      b ← gets buf;
      let e := entry b id in
      if is_free e then mret []
      else if is_LFN e then ls_sector k fuel (id + 1) (get_uglily_converted_utf8_name e ++ prev_lfn)
      else
        d ← unchecked (dir_entry_to_dentry fuel e None (if decide (prev_lfn = []) then get_name e else prev_lfn));
        ds ← ls_sector k fuel (id + 1) [];
        mret (d :: ds)
  end.

Fixpoint ls_loop (fuel0 fuel : nat) (cluster : Z) (c : ctx) : M (list Dentry) :=
  match fuel with
  | O => no_fuel
  | S fuel =>
      c ← change_active_cluster cluster c DriveBuf;
      ds ← ls_sector 16 fuel0 0 [];
      if table_value c <? CLUSTER_MIN_EOC
      then ds' ← ls_loop fuel0 fuel (table_value c) c; mret (ds ++ ds')
      else mret ds
  end.

Definition ls (fuel : nat) (d : Dentry) : M (list Dentry) := ls_loop fuel fuel (dentry_cluster d) ctx0.

(** The first entry of a sector that is free or, for [touch], has the given name. *)
Fixpoint free_slot (k : nat) (l : list Z) (stop : dir_entry -> bool) (id : Z) : Z :=
  match k with
  | O => id
  | S k => if is_free (entry l id) || stop (entry l id) then id else free_slot k l stop (id + 1)
  end.

(** [touch] and [mkdir] go through the whole chain and end up in its last cluster. *)
Fixpoint slot_loop (fuel : nat) (stop : dir_entry -> bool) (cluster : Z) (c : ctx) : M ctx :=
  match fuel with
  | O => no_fuel
  | S fuel =>
      c ← change_active_cluster cluster c DriveBuf;
      b ← gets buf;
      let c := set_dir_entry_id c (free_slot 16 b stop 0) in
      if table_value c <? CLUSTER_MIN_EOC then slot_loop fuel stop (table_value c) c else mret c
  end.

Definition directory_full (c : ctx) : bool := 32 * dir_entry_id c =? bytes_per_sector v * sectors_per_cluster v.

Definition touch (fuel : nat) (parent : Dentry) (name : list Z) : M Dentry :=
  if byte name 0 =? 47 then fail
  else
    c ← slot_loop fuel (fun e => bool_decide (get_name e = name)) (dentry_cluster parent) ctx0;
    if directory_full c then fail
    else
      e ← lift (new_dir_entry name 0 0 0);
      _ ← put_entry (dir_entry_id c) e;
      _ ← write_buf c (active_sector c);
      dir_entry_to_dentry fuel e (Some parent) name.

Definition mkdir (fuel : nat) (parent : Dentry) (name : list Z) : M Dentry :=
  if 9 <=? Z.of_nat (length name) then fail
  else
    c ← slot_loop fuel (fun _ => false) (dentry_cluster parent) ctx0;
    if directory_full c then fail
    else
      free ← get_free_clusters 1;
      let content := nth 0 free 0 in
      e ← lift (new_dir_entry name DIRECTORY content 0);
      _ ← put_entry (dir_entry_id c) e;
      c ← write_buf c (active_sector c);
      c ← change_active_cluster content c DriveBuf;
      let sector := active_sector c in
      _ ← set_table_entry c CLUSTER_EOC;
      l ← read_disk sector;
      _ ← modify (fun s => set_buf s l);
      dot ← lift (new_dir_entry [46] DIRECTORY content 0);
      dot_dot ← lift (new_dir_entry [46; 46] DIRECTORY (dentry_cluster parent) 0);
      _ ← put_entry 0 dot;
      _ ← put_entry 1 dot_dot;
      _ ← write_buf c sector;
      dir_entry_to_dentry fuel e (Some parent) name.

(** ** Files *)

(** Skip [k] clusters, as long as the chain goes on. *)
Fixpoint skip_clusters (k : nat) (next : Z) (c : ctx) : M (Z * ctx) :=
  match k with
  | O => mret (next, c)
  | S k =>
      if next <? CLUSTER_MIN_EOC then
        c ← change_active_cluster next c NoBuffer;
        skip_clusters k (table_value c) c
      else fail
  end.

(** Copy the first [n] bytes of the driver's buffer from [o] on to the caller's at [at_]. *)
Definition copy_out (o n at_ : Z) : M unit :=
  b ← gets buf; m ← gets mem; m ← lift (patch_in m at_ (slice b o n)); modify (fun s => set_mem s m).

Fixpoint load_loop (fuel : nat) (length loaded next : Z) (c : ctx) : M Z :=
  if (loaded <? length) && (next <? CLUSTER_MIN_EOC) then
    match fuel with
    | O => no_fuel
    | S fuel =>
        let rem := length - loaded in
        c ← change_active_cluster next c (if rem <? ATA_SECTOR_SIZE then DriveBuf else CallerBuf loaded);
        _ ← (if rem <? ATA_SECTOR_SIZE then copy_out 0 rem loaded else mret tt);
        load_loop fuel length (loaded + (if ATA_SECTOR_SIZE <? rem then ATA_SECTOR_SIZE else rem)) (table_value c) c
    end
  else mret loaded.

(** [FAT_drive::load_file_to_buf] into the caller's buffer: the number of bytes loaded. *)
Definition load_file_to_buf (fuel : nat) (name : list Z) (parent : Dentry) (offset length : Z) : M Z :=
  '(id, c) ← get_child_dir_entry_id fuel parent name ctx0;
  b ← gets buf;
  let e := entry b id in
  if file_size e <? offset +u length then fail
  else
    let n_offset_clusters := offset / ATA_SECTOR_SIZE in
    let cluster_offset := offset -u n_offset_clusters *u ATA_SECTOR_SIZE in
    '(next, c) ← skip_clusters (Z.to_nat n_offset_clusters) (first_cluster_addr e) c;
    if (cluster_offset =? 0) && (ATA_SECTOR_SIZE <=? length) then
      c ← change_active_cluster next c (CallerBuf 0);
      load_loop fuel length ATA_SECTOR_SIZE (table_value c) c
    else
      c ← change_active_cluster next c DriveBuf;
      let n := Z.min length (ATA_SECTOR_SIZE - cluster_offset) in
      _ ← copy_out cluster_offset n 0;
      load_loop fuel length n (table_value c) c.

(** The loops of [resize]: follow the chain [k] steps, clear [k] entries, add the given clusters. *)
Fixpoint follow (k : nat) (cluster : Z) (c : ctx) : M (Z * ctx) :=
  match k with
  | O => mret (cluster, c)
  | S k => c ← change_active_cluster cluster c DriveBuf; follow k (table_value c) c
  end.

Fixpoint clear_chain (k : nat) (cluster : Z) (c : ctx) : M ctx :=
  match k with
  | O => mret c
  | S k =>
      c ← change_active_cluster cluster c DriveBuf;
      f ← gets FAT;
      let next := rd32 f (FAT_entry_offset c) in
      c ← set_table_entry c 0;
      clear_chain k next c
  end.

Fixpoint extend_chain (new : list Z) (cluster : Z) (c : ctx) : M (Z * ctx) :=
  match new with
  | [] => mret (cluster, c)
  | x :: new =>
      c ← change_active_cluster cluster c DriveBuf;
      c ← set_table_entry c x;
      extend_chain new x c
  end.

Definition num_sectors (size : Z) : Z := (size +u 511) / ATA_SECTOR_SIZE.

Definition shorten (id : Z) (c : ctx) (cur_n new_n new_size : Z) : M unit :=
  b ← gets buf;
  let first := first_cluster_addr (entry b id) in
  _ ← (if new_size =? 0 then put_entry id (set_first_cluster (entry b id) 0) else mret tt);
  c ← write_buf c (active_sector c);
  '(cluster, c) ← follow (Z.to_nat new_n) first c;
  c ← change_active_cluster cluster c DriveBuf;
  let next := table_value c in
  c ← set_table_entry c (if new_size =? 0 then 0 else CLUSTER_EOC);
  _ ← clear_chain (Z.to_nat (cur_n - new_n - 1)) next c;
  mret tt.

Definition lengthen (id : Z) (c : ctx) (cur_n new_n : Z) : M unit :=
  free ← get_free_clusters (new_n - cur_n);
  b ← gets buf;
  _ ← (if cur_n =? 0 then put_entry id (set_first_cluster (entry b id) (nth 0 free 0)) else mret tt);
  c ← write_buf c (active_sector c);
  b ← gets buf;
  '(cluster, c) ← follow (Z.to_nat (cur_n - 1)) (first_cluster_addr (entry b id)) c;
  '(cluster, c) ← extend_chain (if cur_n =? 0 then tail free else free) cluster c;
  c ← change_active_cluster cluster c DriveBuf;
  _ ← set_table_entry c CLUSTER_EOC;
  mret tt.

(** The middle part of [resize], on the buffer that already has the new size in the entry. *)
Definition resize_chain (id : Z) (x : ctx) (cur_n new_n new_size : Z) : M unit :=
  if new_n <? cur_n then shorten id x cur_n new_n new_size
  else if cur_n <? new_n then lengthen id x cur_n new_n
  else (_ ← write_buf x (active_sector x); mret tt).

(** [FAT_drive::resize]: the dentry with its new size.  A root dentry has no parent to look it up in. *)
Definition resize (fuel : nat) (d : Dentry) (new_size : Z) : M Dentry :=
  parent ← lift (deref (d_parent d));
  '(id, c) ← get_child_dir_entry_id fuel parent (d_name d) ctx0;
  let cur_n := num_sectors (i_size (d_inode d)) in
  let new_n := num_sectors new_size in
  b ← gets buf;
  _ ← put_entry id (set_file_size (entry b id) new_size);
  _ ← resize_chain id c cur_n new_n new_size;
  mret (set_i_size d new_size).

Fixpoint write_loop (fuel : nat) (data : list Z) (wrote next : Z) (c : ctx) : M unit :=
  let len := Z.of_nat (length data) in
  if (wrote <? len) && (next <? CLUSTER_MIN_EOC) then
    match fuel with
    | O => no_fuel
    | S fuel =>
        c ← change_active_cluster next c DriveBuf;
        let rem := len - wrote in
        c ← (if ATA_SECTOR_SIZE <=? rem then write_bytes c (active_sector c) (slice data wrote ATA_SECTOR_SIZE)
             else b ← gets buf; b ← lift (patch_in b 0 (slice data wrote rem)); _ ← modify (fun s => set_buf s b);
                  write_buf c (active_sector c));
        write_loop fuel data (wrote + (if rem <? ATA_SECTOR_SIZE then rem else ATA_SECTOR_SIZE)) (table_value c) c
    end
  else mret tt.

(** [FAT_drive::write_buf_to_file] of the bytes [data]: the dentry with its new size. *)
Definition write_buf_to_file (fuel : nat) (d : Dentry) (data : list Z) : M Dentry :=
  let len := Z.of_nat (length data) in
  if decide (i_type (d_inode d) <> IFile) then fail
  else
    d ← (if i_size (d_inode d) =? len then mret d else resize fuel d len);
    if len =? 0 then mret d
    else
      parent ← lift (deref (d_parent d));
      '(id, c) ← get_child_dir_entry_id fuel parent (d_name d) ctx0;
      b ← gets buf;
      _ ← write_loop fuel data 0 (first_cluster_addr (entry b id)) c;
      mret d.

(** [FS::load_file_to_buf] with a new buffer, whose bytes are [junk] at first: an empty file is answered without
    setting [loaded_bytes].  [VFS::load_file] compares that variable in any case. *)
Definition fs_load_file_to_buf (fuel : nat) (junk name : list Z) (parent : Dentry) (offset length : Z)
  : M (list Z * option Z) :=
  if length =? 0 then mret (take 1 junk, None)
  else
    _ ← modify (fun s => set_mem s (take (Z.to_nat length) junk));
    n ← load_file_to_buf fuel name parent offset length;
    m ← gets mem;
    mret (m, Some n).

Definition load_file (fuel : nat) (junk : list Z) (file : Dentry) (offset length : Z) : M (list Z) :=
  let size := i_size (d_inode file) in
  let l := if length =? 0 then size else Z.min length size in
  parent ← lift (deref (d_parent file));
  '(m, loaded) ← fs_load_file_to_buf fuel junk (d_name file) parent offset l;
  loaded ← lift (deref loaded);
  if loaded =? l then mret m else fail.

(** ** The view of a volume: table entries and data sectors of the clusters *)

Context {L : BlockLaws D}.

(** The volumes the driver is written for: one sector of 512 bytes to the cluster, the table before the data. *)
Definition vol_ok : Prop :=
  sectors_per_cluster v = 1 /\ bytes_per_sector v = 512 /\
  0 < first_fat_sector v /\ first_fat_sector v + fat_size v <= first_data_sector v < 2147483648 /\
  first_fat_sector v + fat_size v <= total_sectors v /\
  0 <= total_clusters v /\ total_clusters v + 2 <= 128 * fat_size v <= 4294967296 /\
  total_clusters v + 2 <= 0x0FFFFFF7.

(** The clusters of the volume, and the entries of the table, which may be more. *)
Definition cl (c : Z) : Prop := 2 <= c < total_clusters v + 2.
Definition te (c : Z) : Prop := 2 <= c < 128 * fat_size v.

Definition fsec (c : Z) : Z := first_fat_sector v + c / 128.
Definition foff (c : Z) : Z := 4 * (c mod 128).
Definition dsec (c : Z) : Z := c - 2 + first_data_sector v.

(** [t] gives the entries of the table and [f] the bytes of every cluster of the disk. *)
Record repr (d : D) (t : Z -> Z) (f : Z -> list Z) : Prop := mkRepr {
  repr_fat c : te c -> exists l, read_sector d (fsec c) = Some l /\ rd32 l (foff c) = t c;
  repr_data c : cl c -> read_sector d (dsec c) = Some (f c)
}.

(** The driver's table buffer holds what the context says. *)
Definition coh (s : fat) (c : ctx) : Prop :=
  FAT_sector c = 0 \/
  FAT_sector c < first_data_sector v /\ read_sector (dev s) (FAT_sector c) = Some (FAT s).

Definition mask (x : Z) : Z := Z.land x 0x0FFFFFFF.

(** The context is on cluster [c]. *)
Definition at_cluster (t : Z -> Z) (c : Z) (x : ctx) : Prop :=
  active_cluster x = c /\ FAT_sector x = fsec c /\ FAT_entry_offset x = foff c /\ table_value x = mask (t c) /\
  dir_entry_id x = 0.

Lemma bind_ok {A B} (m : M A) (k : A -> M B) s a s' : m s = Ok (Some a, s') -> mbind k m s = k a s'.
Proof. intros E. unfold mbind, M_bind. by rewrite E. Qed.

Lemma bind_fail {A B} (m : M A) (k : A -> M B) s s' : m s = Ok (None, s') -> mbind k m s = Ok (None, s').
Proof. intros E. unfold mbind, M_bind. by rewrite E. Qed.

Lemma bind_ret {A B} (a : A) (k : A -> M B) s : mbind k (mret a) s = k a s.
Proof. done. Qed.

Lemma bind_gets {A B} (g : fat -> A) (k : A -> M B) s : mbind k (gets g) s = k (g s) s.
Proof. done. Qed.

Lemma bind_modify {B} (g : fat -> fat) (k : unit -> M B) s : mbind k (modify g) s = k tt (g s).
Proof. done. Qed.

Lemma bind_read {B} n (k : list Z -> M B) s l : read_sector (dev s) n = Some l -> mbind k (read_disk n) s = k l s.
Proof. intros E. unfold mbind, M_bind, read_disk. by rewrite E. Qed.

Lemma te_sectors c : vol_ok -> te c -> 0 < fsec c < first_data_sector v /\ 0 <= foff c <= 508.
Proof.
  intros (_ & _ & H0 & Hd & _) Hc. unfold te, fsec, foff in *. Z.div_mod_to_equations. lia.
Qed.

Lemma cl_te c : vol_ok -> cl c -> te c.
Proof. intros (_ & _ & _ & _ & _ & _ & [? _] & _). unfold cl, te. lia. Qed.

Lemma cl_sectors c : vol_ok -> cl c ->
  FIRST_SECTOR_OF_CLUSTER c = dsec c /\ c *u 4 = 4 * c /\ 4 * c / 512 = c / 128 /\ (4 * c) mod 512 = foff c /\
  first_fat_sector v +u c / 128 = fsec c /\ first_data_sector v <= dsec c /\ 2 <= c < CLUSTER_MIN_EOC.
Proof.
  intros Hv Hc. destruct (te_sectors _ Hv (cl_te _ Hv Hc)) as [Hf _].
  destruct Hv as (Hs & _ & H0 & Hd & _ & _ & _ & H5). unfold cl in Hc.
  unfold FIRST_SECTOR_OF_CLUSTER, dsec, fsec, foff, u32, CLUSTER_MIN_EOC in *.
  rewrite Hs, !Z.mod_small by lia. split_and!; try lia.
  all: try (change 512 with (4 * 128); by rewrite ?Z.div_mul_cancel_l, ?Z.mul_mod_distr_l).
  rewrite Z.mod_small; lia.
Qed.

(** What a change of cluster does to the buffers, when it is not to the cluster already loaded. *)
Definition filled (f : Z -> list Z) (new : Z) (tg : target) (s : fat) (x' : ctx) (s' : fat) : Prop :=
  match tg with
  | NoBuffer => buf s' = buf s /\ mem s' = mem s
  | DriveBuf => buf s' = f new /\ mem s' = mem s /\ active_sector x' = dsec new /\ buffer_updated x' = false
  | CallerBuf o => buf s' = buf s /\ mem s' = patch (mem s) o (f new)
  end.

Definition target_fits (s : fat) (tg : target) : Prop :=
  match tg with CallerBuf o => 0 <= o /\ o + 512 <= Z.of_nat (length (mem s)) | _ => True end.

Lemma fill_spec f new tg l s : length l = 512%nat -> tg <> NoBuffer -> target_fits s tg -> l = f new ->
  exists s', fill tg l s = Ok (Some tt, s') /\ dev s' = dev s /\ FAT s' = FAT s /\
    (forall x', active_sector x' = dsec new -> buffer_updated x' = false -> filled f new tg s x' s').
Proof.
  intros Hl Htg Hfit ->. destruct tg as [| |o]; [done| |]; simpl.
  - eexists. repeat split; done.
  - destruct Hfit. unfold patch_in. rewrite bind_gets. unfold mbind at 1, M_bind at 1, lift.
    rewrite (proj2 (Z.leb_le 0 o)), (proj2 (Z.leb_le (o + Z.of_nat (length (f new))) (Z.of_nat (length (mem s))))) by lia.
    simpl. eexists. repeat split; done.
Qed.

Lemma load_table_spec s t f x new :
  vol_ok -> repr (dev s) t f -> coh s x -> cl new -> active_cluster x = new ->
  exists s' x', load_table x s = Ok (Some x', s') /\ dev s' = dev s /\ buf s' = buf s /\ mem s' = mem s /\
    coh s' x' /\ at_cluster t new x' /\ active_sector x' = active_sector x /\ buffer_updated x' = buffer_updated x.
Proof.
  intros Hv Hr Hc Hcl <-. destruct (cl_sectors _ Hv Hcl) as (_ & E1 & E2 & E3 & E4 & _).
  pose proof (cl_te _ Hv Hcl) as Hte. destruct (te_sectors _ Hv Hte) as [H5 _].
  unfold load_table, ATA_SECTOR_SIZE. cbv zeta. rewrite E1, E2, E3, E4.
  destruct (repr_fat _ _ _ Hr _ Hte) as (l & Hl & Ht).
  destruct (Z.eqb_spec (fsec (active_cluster x)) (FAT_sector x)) as [E|E]; cbn [negb].
  - destruct Hc as [Hc|[_ Hc]]; [lia|]. rewrite <- E, Hl in Hc. simplify_eq. rewrite bind_ret, bind_gets.
    eexists _, _. split; [done|]. unfold at_cluster, mask. simpl. split_and!; try done; [right; simpl; split; [lia|done]|by rewrite <- Ht].
  - unfold mbind at 1, M_bind at 1. rewrite (bind_read _ _ _ l Hl). simpl. rewrite bind_gets.
    eexists _, _. split; [done|]. unfold at_cluster, mask. simpl. split_and!; try done; [right; simpl; split; [lia|done]|by rewrite <- Ht].
Qed.

Definition fresh (x : ctx) (new : Z) : Prop := active_cluster x <> new \/ buffer_updated x = true.

Lemma load_cluster_spec s t f x new tg :
  vol_ok -> repr (dev s) t f -> cl new -> target_fits s tg ->
  exists s' x', load_cluster new x tg s = Ok (Some x', s') /\ dev s' = dev s /\ FAT s' = FAT s /\
    FAT_sector x' = FAT_sector x /\ active_cluster x' = new /\
    (tg = NoBuffer \/ fresh x new -> filled f new tg s x' s').
Proof.
  intros Hv Hr Hcl Hfit. destruct (cl_sectors _ Hv Hcl) as (E0 & _). unfold load_cluster.
  destruct (decide (tg = NoBuffer)) as [->|Hne]; [eexists _, _; split; [done|]; by split_and!|].
  pose proof (repr_data _ _ _ Hr _ Hcl) as Hrd.
  destruct (fill_spec f new tg (f new) s) as (s1 & Hfl & ? & ? & Hfill); [by eapply read_length|done..|].
  destruct (negb (active_cluster x =? new) || buffer_updated x) eqn:Ef.
  - exists s1. destruct tg as [| |o]; [done| |]; rewrite E0, (bind_read _ _ _ _ Hrd), (bind_ok _ _ _ _ _ Hfl);
      (eexists; split; [done|]; split_and!; try done; intros _; by apply Hfill).
  - apply orb_false_iff in Ef as [Ea%negb_false_iff%Z.eqb_eq Eu].
    exists s, x. split; [by destruct tg|]. split_and!; try done. intros [?|[?|?]]; congruence.
Qed.

Lemma cac_spec s t f x new tg :
  vol_ok -> repr (dev s) t f -> coh s x -> cl new -> target_fits s tg ->
  exists s' x', change_active_cluster new x tg s = Ok (Some x', s') /\ dev s' = dev s /\ coh s' x' /\
    at_cluster t new x' /\ (tg = NoBuffer \/ fresh x new -> filled f new tg s x' s').
Proof.
  intros Hv Hr Hc Hcl Hfit.
  destruct (load_cluster_spec s t f x new tg) as (s1 & x1 & E1 & Hd & Hf & Hs & Ha & Hfill); [done..|].
  unfold change_active_cluster. rewrite (bind_ok _ _ _ _ _ E1).
  destruct (load_table_spec s1 t f x1 new) as (s2 & x2 & E2 & Hd2 & Hb2 & Hm2 & Hc2 & Hat & Hs2 & Hu2);
    [done|by rewrite Hd| |done|done|].
  { unfold coh. by rewrite Hd, Hf, Hs. }
  exists s2, x2. split; [done|]. split; [congruence|]. split; [done|]. split; [done|].
  intros Hfr. specialize (Hfill Hfr). unfold filled in *. by rewrite Hb2, Hm2, ?Hs2, ?Hu2.
Qed.

Lemma bind_patch {B} l o x (k : list Z -> M B) s :
  0 <= o -> o + Z.of_nat (length x) <= Z.of_nat (length l) -> mbind k (lift (patch_in l o x)) s = k (patch l o x) s.
Proof.
  intros Ho Hl. unfold patch_in. rewrite (proj2 (Z.leb_le _ _) Ho), (proj2 (Z.leb_le _ _) Hl). done.
Qed.

Lemma bind_write {B} n l (k : unit -> M B) s d :
  write_sector (dev s) n l = Some d -> mbind k (write_disk n l) s = k tt (set_dev s d).
Proof. intros E. unfold mbind, M_bind, write_disk. by rewrite E. Qed.

(** One table entry is written through. *)
Lemma repr_write_fat d t f c l x d' :
  vol_ok -> repr d t f -> te c -> read_sector d (fsec c) = Some l -> is_u32 x ->
  write_sector d (fsec c) (patch l (foff c) (le32 x)) = Some d' -> repr d' (<[c := x]> t) f.
Proof.
  intros Hv Hr Hcl Hl Hx Hw. destruct (te_sectors _ Hv Hcl) as [Hs Ho].
  pose proof (read_length _ _ _ Hl) as Hlen.
  assert (length (patch l (foff c) (le32 x)) = 512%nat) as Hpl by (rewrite length_patch; rewrite ?length_le32; lia).
  pose proof (read_written _ _ _ _ (mk_is_Some _ _ Hl) Hpl Hw) as Hrd.
  split; intros c' Hcl'.
  - destruct (te_sectors _ Hv Hcl') as [Hs' Ho']. destruct (repr_fat _ _ _ Hr _ Hcl') as (l' & Hl' & Ht').
    destruct (decide (fsec c' = fsec c)) as [E|E].
    + rewrite E in *. simplify_eq. eexists. split; [done|]. destruct (decide (c' = c)) as [->|Hne].
      * rewrite fn_lookup_insert. apply rd32_patch; [lia..|done].
      * rewrite fn_lookup_insert_ne by done. rewrite <- Ht'. apply rd32_patch_ne; try lia.
        unfold fsec, foff in *. pose proof (Z.div_mod c 128). pose proof (Z.div_mod c' 128). lia.
    + exists l'. rewrite (read_other _ _ _ _ _ Hw) by done. split; [done|].
      rewrite fn_lookup_insert_ne; [done|]. by intros ->.
  - destruct (cl_sectors _ Hv Hcl') as (_ & _ & _ & _ & _ & Hd' & _).
    rewrite (read_other _ _ _ _ _ Hw) by lia. by apply Hr.
Qed.

Lemma set_table_entry_spec s t f x c y :
  vol_ok -> repr (dev s) t f -> coh s x -> cl c -> at_cluster t c x -> is_u32 y ->
  exists s', set_table_entry x y s = Ok (Some (set_table_value x y), s') /\ repr (dev s') (<[c := y]> t) f /\
    coh s' (set_table_value x y) /\ buf s' = buf s /\ mem s' = mem s.
Proof.
  intros Hv Hr Hc Hcl (Ha & Hs & Ho & Ht & _) Hy. destruct (te_sectors _ Hv (cl_te _ Hv Hcl)) as [Hsec Hoff].
  destruct Hc as [Hc|[Hlt Hc]]; [lia|]. rewrite Hs in *. pose proof (read_length _ _ _ Hc) as Hlen.
  assert (length (patch (FAT s) (foff c) (le32 y)) = 512%nat) as Hpl by (rewrite length_patch; rewrite ?length_le32; lia).
  unfold set_table_entry, write_fat. rewrite bind_gets, Ho, bind_patch, bind_modify by (rewrite ?length_le32; lia).
  destruct (write_readable (dev s) (fsec c) _ (mk_is_Some _ _ Hc) Hpl) as [d Hw].
  unfold mbind at 1, M_bind at 1. rewrite bind_gets, Hs. unfold write_disk. simpl. rewrite Hw.
  eexists. split; [done|]. simpl. split; [by eapply repr_write_fat; eauto using cl_te|]. split; [|done].
  right. simpl. rewrite Hs. split; [lia|]. by eapply read_written.
Qed.

(** A data sector is written. *)
Lemma repr_write_data d t f c l :
  vol_ok -> repr d t f -> cl c -> length l = 512%nat ->
  exists d', write_sector d (dsec c) l = Some d' /\ repr d' t (<[c := l]> f) /\
    (forall n, n < first_data_sector v -> read_sector d' n = read_sector d n).
Proof.
  intros Hv Hr Hcl Hlen. destruct (cl_sectors _ Hv Hcl) as (_ & _ & _ & _ & _ & Hd & _).
  pose proof (mk_is_Some _ _ (repr_data _ _ _ Hr _ Hcl)) as Hsome.
  destruct (write_readable _ _ _ Hsome Hlen) as [d' Hw]. exists d'. split; [done|].
  split; [|intros n Hn; eapply read_other; [done|lia]].
  split; intros c' Hcl'.
  - destruct (te_sectors _ Hv Hcl') as [Hs' _]. rewrite (read_other _ _ _ _ _ Hw) by lia. by apply Hr.
  - destruct (decide (c' = c)) as [->|Hne].
    + rewrite fn_lookup_insert. by eapply read_written.
    + rewrite fn_lookup_insert_ne, (read_other _ _ _ _ _ Hw) by (unfold dsec; lia || done). by apply Hr.
Qed.

Lemma write_disk_spec s t f x c l :
  vol_ok -> repr (dev s) t f -> coh s x -> cl c -> length l = 512%nat ->
  exists s', write_disk (dsec c) l s = Ok (Some tt, s') /\ repr (dev s') t (<[c := l]> f) /\
    coh s' x /\ buf s' = buf s /\ mem s' = mem s.
Proof.
  intros Hv Hr Hc Hcl Hlen. destruct (repr_write_data _ _ _ _ _ Hv Hr Hcl Hlen) as (d' & Hw & Hr' & Hlow).
  unfold write_disk. rewrite Hw. eexists. split; [done|]. simpl. split; [done|]. split; [|done].
  destruct Hc as [Hc|[Hlt Hc]]; [by left|right]. simpl. by rewrite Hlow.
Qed.

(** ** Chains of clusters *)

(** The clusters from [c] on, as the table links them. *)
Inductive chain (t : Z -> Z) : Z -> list Z -> Prop :=
| chain_last c : cl c -> CLUSTER_MIN_EOC <= mask (t c) -> chain t c [c]
| chain_cons c cs : cl c -> mask (t c) < CLUSTER_MIN_EOC -> chain t (mask (t c)) cs -> chain t c (c :: cs).

Lemma chain_cl t c cs : chain t c cs -> Forall cl cs.
Proof. induction 1; eauto. Qed.

Lemma chain_head t c cs : chain t c cs -> exists cs', cs = c :: cs'.
Proof. destruct 1; eauto. Qed.

Lemma chain_det t c cs cs' : chain t c cs -> chain t c cs' -> cs = cs'.
Proof.
  intros Hc. revert cs'. induction Hc as [c ? ?|c cs ? ? Hc IH]; inversion 1; simplify_eq; try lia; [done|].
  f_equal. eauto.
Qed.

Lemma chain_suffix t c cs k c' : chain t c cs -> cs !! k = Some c' -> chain t c' (drop k cs).
Proof.
  intros Hc. revert k. induction Hc as [c ? ?|c cs ? ? Hc IH]; intros [|k] Hk; simplify_eq/=; eauto using chain.
Qed.

Lemma chain_NoDup t c cs : chain t c cs -> NoDup cs.
Proof.
  induction 1 as [c ? ?|c cs ? ? Hc IH]; [apply NoDup_singleton|]. constructor; [|done].
  intros [k Hk]%list_elem_of_lookup_1. assert (chain t c (c :: cs)) as Hall by (by constructor).
  pose proof (chain_suffix _ _ _ _ _ Hc Hk) as Hs. pose proof (chain_det _ _ _ _ Hall Hs) as E.
  apply (f_equal length) in E. rewrite length_drop in E. simpl in E. lia.
Qed.

Lemma chain_ext t t' c cs : chain t c cs -> (forall x, x ∈ cs -> t' x = t x) -> chain t' c cs.
Proof.
  induction 1 as [c ? ?|c cs ? Hlt Hc IH]; intros E.
  - apply chain_last; [done|]. by rewrite E by set_solver.
  - pose proof (E c ltac:(set_solver)) as Ec. apply chain_cons; rewrite ?Ec; [done|done|]. apply IH. set_solver.
Qed.

(** ** Walking a chain *)

Lemma skip_clusters_spec t f k : vol_ok -> forall c cs x s c',
  chain t c cs -> repr (dev s) t f -> coh s x -> active_cluster x ∉ cs -> cs !! k = Some c' ->
  exists s' x', skip_clusters k c x s = Ok (Some (c', x'), s') /\ dev s' = dev s /\ coh s' x' /\
    buf s' = buf s /\ mem s' = mem s /\ active_cluster x' ∉ drop k cs.
Proof.
  intros Hv. induction k as [|k IH]; intros c cs x s c' Hc Hr Hco Ha Hk.
  { destruct (chain_head _ _ _ Hc) as [cs' ->]. simplify_eq/=. by exists s, x. }
  pose proof (chain_NoDup _ _ _ Hc) as Hnd.
  inversion Hc as [? Hcl _|? cs' Hcl Hlt Hc']; subst; simpl in Hk; [done|].
  destruct (cac_spec s t f x c NoBuffer) as (s1 & x1 & E & Hd & Hco1 & (Ha1 & _ & _ & Ht1 & _) & Hfill); [done..|].
  destruct (Hfill (or_introl eq_refl)) as [Hb Hm].
  destruct (IH (mask (t c)) cs' x1 s1 c') as (s2 & x2 & E2 & ? & ? & ? & ? & ?); [done|by rewrite Hd|done| |done|].
  { rewrite Ha1. by apply NoDup_cons_1_1 in Hnd. }
  exists s2, x2. simpl. unfold CLUSTER_MIN_EOC in *.
  destruct (cl_sectors _ Hv Hcl) as (_ & _ & _ & _ & _ & _ & Hlim). unfold CLUSTER_MIN_EOC in Hlim.
  rewrite (proj2 (Z.ltb_lt _ _)) by lia. rewrite (bind_ok _ _ _ _ _ E), Ht1, E2.
  split_and!; congruence || done.
Qed.

Lemma take_patch l o x : 0 <= o <= Z.of_nat (length l) ->
  take (Z.to_nat (o + Z.of_nat (length x))) (patch l o x) = take (Z.to_nat o) l ++ x.
Proof.
  intros Ho. unfold patch. rewrite app_assoc. apply take_app_length'.
  rewrite length_app, length_take. lia.
Qed.

Lemma patch_end l o x : 0 <= o -> o + Z.of_nat (length x) = Z.of_nat (length l) ->
  patch l o x = take (Z.to_nat o) l ++ x.
Proof. intros. unfold patch. rewrite drop_ge by lia. by rewrite app_nil_r. Qed.

(** The bytes of a list of clusters. *)
Definition bytes_of (f : Z -> list Z) (cs : list Z) : list Z := concat (f <$> cs).

Lemma bytes_of_cons f c cs : bytes_of f (c :: cs) = f c ++ bytes_of f cs.
Proof. done. Qed.

Lemma repr_data_length d t f c : repr d t f -> cl c -> length (f c) = 512%nat.
Proof. intros Hr Hc. eapply read_length. by apply Hr. Qed.

Lemma length_bytes_of d t f cs : repr d t f -> Forall cl cs -> length (bytes_of f cs) = (512 * length cs)%nat.
Proof.
  intros Hr. induction 1 as [|c cs Hc Hcs IH]; [done|].
  rewrite bytes_of_cons, length_app, IH, (repr_data_length _ _ _ _ Hr Hc). simpl. lia.
Qed.

Lemma load_loop_done fuel len next x s : load_loop fuel len len next x s = Ok (Some len, s).
Proof. destruct fuel; simpl; by rewrite Z.ltb_irrefl. Qed.

(** One round of the loop: the rest of the file, or a whole sector, of cluster [c]. *)
Lemma load_round fuel len loaded c x s t f :
  vol_ok -> repr (dev s) t f -> coh s x -> cl c -> active_cluster x <> c ->
  0 <= loaded < len -> Z.of_nat (length (mem s)) = len ->
  exists s' x' n, n = Z.min 512 (len - loaded) /\
    load_loop (S fuel) len loaded c x s = load_loop fuel len (loaded + n) (mask (t c)) x' s' /\
    dev s' = dev s /\ coh s' x' /\ active_cluster x' = c /\ mem s' = patch (mem s) loaded (take (Z.to_nat n) (f c)).
Proof.
  intros Hv Hr Hco Hcl Hne Hl Hm. pose proof (repr_data_length _ _ _ _ Hr Hcl) as Hfc. simpl.
  rewrite (proj2 (Z.ltb_lt loaded len)) by lia. destruct (cl_sectors _ Hv Hcl) as (_ & _ & _ & _ & _ & _ & Hlim).
  rewrite (proj2 (Z.ltb_lt c CLUSTER_MIN_EOC)) by lia. cbn [andb]. unfold ATA_SECTOR_SIZE.
  destruct (Z.ltb_spec (len - loaded) 512).
  - destruct (cac_spec s t f x c DriveBuf) as (s1 & x1 & E & Hd & Hco1 & (Ha1 & _ & _ & Ht1 & _) & Hfill); [done..|].
    destruct Hfill as (Hb & Hm1 & _); [right; by left|]. rewrite (bind_ok _ _ _ _ _ E), Ht1. unfold copy_out.
    unfold mbind at 1, M_bind at 1. rewrite !bind_gets.
    unfold slice. rewrite Hb, Hm1, drop_0, bind_patch by (rewrite ?length_take; lia).
    rewrite (proj2 (Z.ltb_ge _ _)) by lia. simpl.
    eexists _, x1, (len - loaded). split; [lia|]. split; [done|]. simpl. split_and!; done.
  - destruct (cac_spec s t f x c (CallerBuf loaded)) as (s1 & x1 & E & Hd & Hco1 & (Ha1 & _ & _ & Ht1 & _) & Hfill);
      [done..|split; lia|].
    destruct Hfill as (Hb & Hm1); [right; by left|]. rewrite (bind_ok _ _ _ _ _ E), Ht1, bind_ret.
    exists s1, x1, 512. split; [lia|]. split; [|split_and!; try done].
    + repeat f_equal. destruct (Z.ltb_spec 512 (len - loaded)); lia.
    + rewrite Hm1. f_equal. rewrite take_ge by lia. done.
Qed.

Lemma load_loop_spec t f len : vol_ok -> forall cs fuel loaded c x s,
  chain t c cs -> repr (dev s) t f -> coh s x -> active_cluster x ∉ cs -> (length cs <= fuel)%nat ->
  0 <= loaded < len -> len - loaded <= 512 * Z.of_nat (length cs) -> Z.of_nat (length (mem s)) = len ->
  exists s', load_loop fuel len loaded c x s = Ok (Some len, s') /\ dev s' = dev s /\
    mem s' = take (Z.to_nat loaded) (mem s) ++ take (Z.to_nat (len - loaded)) (bytes_of f cs).
Proof.
  intros Hv. induction cs as [|c' cs IH]; intros fuel loaded c x s Hc Hr Hco Ha Hf Hl Hlen Hm; [by inversion Hc|].
  destruct fuel as [|fuel]; [simpl in Hf; lia|].
  assert (cl c) as Hcl by (by inversion Hc). assert (c' = c) as -> by (by inversion Hc).
  pose proof (chain_NoDup _ _ _ Hc) as Hnd. pose proof (repr_data_length _ _ _ _ Hr Hcl) as Hfc.
  destruct (load_round fuel len loaded c x s t f) as (s1 & x1 & n & -> & -> & Hd1 & Hco1 & Ha1 & Hm1);
    [done..|by apply not_elem_of_cons in Ha as [? _]|done|done|].
  rewrite bytes_of_cons. destruct (decide (len - loaded <= 512)).
  - rewrite Z.min_r by lia. replace (loaded + (len - loaded)) with len by lia. rewrite load_loop_done.
    eexists. split; [done|]. split; [done|]. rewrite Hm1, Z.min_r by lia.
    rewrite take_app_le, patch_end by (rewrite ?length_take; lia). done.
  - rewrite Z.min_l in * by lia. inversion Hc as [| ? ? _ Hlt Hc']; subst; [simpl in Hlen; lia|].
    rewrite (take_ge (f _)) in Hm1 by lia.
    destruct (IH fuel (loaded + 512) (mask (t (active_cluster x1))) x1 s1) as (s2 & E2 & Hd2 & Hm2);
      [done|by rewrite Hd1|done|by apply NoDup_cons_1_1 in Hnd|simpl in Hf; lia|lia|simpl in Hlen; lia| |].
    { rewrite Hm1, length_patch; lia. }
    exists s2. split; [done|]. split; [congruence|]. rewrite Hm2, Hm1.
    replace (loaded + 512) with (loaded + Z.of_nat (length (f (active_cluster x1)))) at 1 by lia.
    rewrite take_patch, <- app_assoc by lia. f_equal.
    rewrite take_app_ge by lia. f_equal. f_equal. lia.
Qed.

(** ** Looking up a name *)

(** The first cluster of a directory that has the name, and the entry in it. *)
Fixpoint find_entry (f : Z -> list Z) (name : list Z) (cs : list Z) : option (Z * Z) :=
  match cs with
  | [] => None
  | c :: cs => match scan_sector (f c) name with Some id => Some (c, id) | None => find_entry f name cs end
  end.

(** The context after a lookup that ended in cluster [c]. *)
Definition looked_up (f : Z -> list Z) (c : Z) (s : fat) (x' : ctx) (s' : fat) : Prop :=
  dev s' = dev s /\ mem s' = mem s /\ coh s' x' /\ buf s' = f c /\
  active_cluster x' = c /\ active_sector x' = dsec c /\ buffer_updated x' = false.

Lemma child_loop_spec t f name : vol_ok -> forall cs fuel c x s,
  chain t c cs -> repr (dev s) t f -> coh s x -> active_cluster x ∉ cs -> (length cs <= fuel)%nat ->
  match find_entry f name cs with
  | Some (c', id) => exists s' x', child_loop fuel name c x s = Ok (Some (id, x'), s') /\ looked_up f c' s x' s'
  | None => exists s', child_loop fuel name c x s = Ok (None, s') /\ dev s' = dev s
  end.
Proof.
  intros Hv. induction cs as [|c' cs IH]; intros fuel c x s Hc Hr Hco Ha Hf; [by inversion Hc|].
  destruct fuel as [|fuel]; [simpl in Hf; lia|]. pose proof (chain_NoDup _ _ _ Hc) as Hnd%NoDup_cons_1_1.
  assert (cl c) as Hcl by (by inversion Hc). assert (c' = c) as -> by (by inversion Hc).
  apply not_elem_of_cons in Ha as [Ha _].
  destruct (cac_spec s t f x c DriveBuf) as (s1 & x1 & E & Hd & Hco1 & (Ha1 & _ & _ & Ht1 & _) & Hfill); [done..|].
  destruct Hfill as (Hb & Hm & Hs & Hu); [right; by left|].
  simpl. rewrite (bind_ok _ _ _ _ _ E), bind_gets, Hb, Ht1.
  destruct (scan_sector (f c) name) as [id|].
  { eexists _, _. split; [done|]. unfold looked_up, coh. simpl. by split_and!. }
  inversion Hc as [? _ Hge|? ? _ Hlt Hc']; subst.
  - rewrite (proj2 (Z.ltb_ge _ _)) by done. simpl. by eexists.
  - rewrite (proj2 (Z.ltb_lt _ _)) by done.
    specialize (IH fuel (mask (t (active_cluster x1))) x1 s1 Hc'). unfold looked_up in *. rewrite Hd, Hm in IH.
    apply IH; [done|done|done|simpl in Hf; lia].
Qed.

Lemma chain_zero t c cs : chain t c cs -> 0 ∉ cs.
Proof.
  intros Hc%chain_cl [k Hk]%list_elem_of_lookup_1. pose proof (Forall_lookup_1 _ _ _ _ Hc Hk) as [? _]. lia.
Qed.

Lemma coh_ctx0 s : coh s ctx0.
Proof. by left. Qed.

(** A directory whose clusters are [dcs]. *)
Definition is_dir (t : Z -> Z) (d : Dentry) (dcs : list Z) : Prop := chain t (dentry_cluster d) dcs.

Lemma get_child_spec t f name parent dcs fuel s :
  vol_ok -> repr (dev s) t f -> is_dir t parent dcs -> byte name 0 <> 47 -> (length dcs <= fuel)%nat ->
  match find_entry f name dcs with
  | Some (c', id) =>
      exists s' x', get_child_dir_entry_id fuel parent name ctx0 s = Ok (Some (id, x'), s') /\ looked_up f c' s x' s'
  | None => exists s', get_child_dir_entry_id fuel parent name ctx0 s = Ok (None, s') /\ dev s' = dev s
  end.
Proof.
  intros Hv Hr Hd Hn Hf. unfold get_child_dir_entry_id. rewrite (proj2 (Z.eqb_neq _ _)) by done.
  eapply child_loop_spec; [done|exact Hd|done|apply coh_ctx0|eapply (chain_zero _ _ _ Hd)|done].
Qed.

(** The reserved bits of the entries are zero. *)
Definition clean (t : Z -> Z) (cs : list Z) : Prop := forall x, x ∈ cs -> mask (t x) = t x.

(** A file of [size] bytes: its entry [id] in cluster [dc] of the directory, and the clusters [cs] of its bytes, which
    are enough for the size and not those of the directory. *)
Record is_file (t : Z -> Z) (f : Z -> list Z) (parent : Dentry) (dcs : list Z) (name : list Z) (dc id : Z)
  (size : Z) (cs : list Z) : Prop := mkIsFile {
  file_dir : is_dir t parent dcs;
  file_found : find_entry f name dcs = Some (dc, id);
  file_entry_size : file_size (entry (f dc) id) = size;
  file_chain : if decide (size = 0) then cs = [] else chain t (first_cluster_addr (entry (f dc) id)) cs;
  file_clean : clean t cs;
  file_length : num_sectors size <= Z.of_nat (length cs);
  file_disjoint x : x ∈ cs -> x ∉ dcs;
  file_name : byte name 0 <> 47;
  file_small : 0 <= size <= 4294966784
}.

Lemma find_entry_elem f name cs c id : find_entry f name cs = Some (c, id) -> c ∈ cs.
Proof.
  induction cs as [|c' cs IH]; simpl; [done|]. destruct (scan_sector (f c') name); intros; simplify_eq; set_solver.
Qed.

Lemma num_sectors_eq n : 0 <= n <= 4294966784 -> num_sectors n = (n + 511) / 512 /\ n <= 512 * num_sectors n.
Proof.
  intros Hn. unfold num_sectors, u32, ATA_SECTOR_SIZE. rewrite Z.mod_small by lia. split; [done|].
  pose proof (Z.div_mod (n + 511) 512). pose proof (Z.mod_pos_bound (n + 511) 512). lia.
Qed.

(** The first sector, in both branches: from the middle of a cluster through the driver's buffer, or a whole one. *)
Lemma load_first fuel len o c x s t f :
  vol_ok -> repr (dev s) t f -> coh s x -> cl c -> active_cluster x <> c ->
  0 <= o < 512 -> 0 < len -> Z.of_nat (length (mem s)) = len ->
  exists s' x' n, n = Z.min len (512 - o) /\ dev s' = dev s /\ coh s' x' /\ active_cluster x' = c /\
    mem s' = patch (mem s) 0 (take (Z.to_nat n) (drop (Z.to_nat o) (f c))) /\
    (if (o =? 0) && (ATA_SECTOR_SIZE <=? len) then
      c ← change_active_cluster c x (CallerBuf 0); load_loop fuel len ATA_SECTOR_SIZE (table_value c) c
    else
      c ← change_active_cluster c x DriveBuf;
      let n := Z.min len (ATA_SECTOR_SIZE - o) in
      _ ← copy_out o n 0;
      load_loop fuel len n (table_value c) c) s = load_loop fuel len n (mask (t c)) x' s'.
Proof.
  intros Hv Hr Hco Hcl Hne Ho Hl Hm. pose proof (repr_data_length _ _ _ _ Hr Hcl) as Hfc. unfold ATA_SECTOR_SIZE.
  destruct ((o =? 0) && (512 <=? len)) eqn:E0.
  - apply andb_prop in E0 as [->%Z.eqb_eq Hle%Z.leb_le].
    destruct (cac_spec s t f x c (CallerBuf 0)) as (s1 & x1 & E & Hd & Hco1 & (Ha1 & _ & _ & Ht1 & _) & Hfill);
      [done..|split; lia|].
    destruct Hfill as (Hb & Hm1); [right; by left|]. exists s1, x1, 512. rewrite (bind_ok _ _ _ _ _ E), Ht1.
    split_and!; try done; [lia|]. rewrite Hm1, drop_0, take_ge by lia. done.
  - destruct (cac_spec s t f x c DriveBuf) as (s1 & x1 & E & Hd & Hco1 & (Ha1 & _ & _ & Ht1 & _) & Hfill); [done..|].
    destruct Hfill as (Hb & Hm1 & _); [right; by left|]. rewrite (bind_ok _ _ _ _ _ E), Ht1. unfold copy_out.
    unfold mbind at 1, M_bind at 1. rewrite !bind_gets, Hb, Hm1.
    unfold slice. rewrite bind_patch by (rewrite ?length_take, ?length_drop; lia).
    eexists (set_mem s1 _), x1, _. split; [done|]. by split_and!.
Qed.

Lemma bytes_of_app f cs cs' : bytes_of f (cs ++ cs') = bytes_of f cs ++ bytes_of f cs'.
Proof. unfold bytes_of. by rewrite fmap_app, concat_app. Qed.

Lemma chain_tail t c x cs : chain t c (c :: x :: cs) -> chain t (mask (t c)) (x :: cs).
Proof. by inversion 1. Qed.

(** The bytes of a file from [512 * k + o] on, cluster [k] being [c]. *)
Lemma slice_bytes_of d t f cs k c o n :
  repr d t f -> Forall cl cs -> cs !! k = Some c -> 0 <= o < 512 -> 0 <= n ->
  slice (bytes_of f cs) (512 * Z.of_nat k + o) n
  = take (Z.to_nat (Z.min n (512 - o))) (drop (Z.to_nat o) (f c))
    ++ take (Z.to_nat (n - Z.min n (512 - o))) (bytes_of f (drop (S k) cs)).
Proof.
  intros Hr Hcl Hk Ho Hn. pose proof (repr_data_length _ _ _ _ Hr (Forall_lookup_1 _ _ _ _ Hcl Hk)) as Hc.
  pose proof (length_bytes_of _ _ _ _ Hr (Forall_take _ k _ Hcl)) as Hp.
  apply lookup_lt_Some in Hk as Hlt. rewrite length_take_le in Hp by lia. unfold slice.
  rewrite <- (take_drop_middle _ _ _ Hk) at 1. rewrite bytes_of_app, bytes_of_cons.
  rewrite drop_app_ge by lia. replace (Z.to_nat (512 * Z.of_nat k + o) - _)%nat with (Z.to_nat o) by lia.
  rewrite drop_app_le by lia. rewrite take_app, length_drop, Hc. f_equal.
  - destruct (decide (n <= 512 - o)); [by rewrite Z.min_l by lia|].
    rewrite !take_ge by (rewrite length_drop; lia). done.
  - f_equal. lia.
Qed.

(** The loop after the first sector. *)
Lemma load_rest t f cs k c fuel len n x s :
  vol_ok -> repr (dev s) t f -> coh s x -> chain t c (drop k cs) -> cs !! k = Some c -> active_cluster x = c ->
  (length cs <= fuel)%nat -> 0 <= n <= len -> len - n <= 512 * Z.of_nat (length cs - S k) ->
  Z.of_nat (length (mem s)) = len ->
  exists s', load_loop fuel len n (mask (t c)) x s = Ok (Some len, s') /\ dev s' = dev s /\
    mem s' = take (Z.to_nat n) (mem s) ++ take (Z.to_nat (len - n)) (bytes_of f (drop (S k) cs)).
Proof.
  intros Hv Hr Hco Hc Hk Ha Hf Hn Hl Hm. rewrite (drop_S _ _ _ Hk) in Hc.
  pose proof (chain_NoDup _ _ _ Hc) as Hnd%NoDup_cons_1_1.
  destruct (decide (n = len)) as [->|].
  { rewrite load_loop_done. exists s. split; [done|]. split; [done|].
    rewrite Z.sub_diag, take_0, app_nil_r, take_ge by lia. done. }
  assert (length (drop (S k) cs) = length cs - S k)%nat as Hdl by apply length_drop.
  destruct (drop (S k) cs) as [|c' cs'] eqn:Ed; [simpl in Hdl; lia|].
  eapply load_loop_spec; [done|by eapply chain_tail|done|done|by rewrite Ha|rewrite Hdl; lia|lia|by rewrite Hdl|done].
Qed.

Lemma load_file_spec t f parent dcs name dc id size cs offset len fuel s :
  vol_ok -> repr (dev s) t f -> is_file t f parent dcs name dc id size cs ->
  0 <= offset -> 0 < len -> offset + len <= size -> Z.of_nat (length (mem s)) = len ->
  (length dcs <= fuel)%nat -> (length cs <= fuel)%nat ->
  exists s', load_file_to_buf fuel name parent offset len s = Ok (Some len, s') /\ dev s' = dev s /\
    mem s' = slice (bytes_of f cs) offset len.
Proof.
  intros Hv Hr [Hdir Hfind Hsz Hch _ Hlen Hdisj Hnm Hsmall] Ho Hl Hle Hm Hfd Hfc.
  pose proof (num_sectors_eq _ Hsmall) as [_ Hns].
  pose proof (get_child_spec t f name parent dcs fuel s Hv Hr Hdir Hnm Hfd) as Hget. rewrite Hfind in Hget.
  destruct Hget as (s1 & x1 & E1 & Hd1 & Hm1 & Hco1 & Hb1 & Ha1 & _ & _).
  unfold load_file_to_buf. rewrite (bind_ok _ _ _ _ _ E1), bind_gets, Hb1, Hsz. unfold u32, ATA_SECTOR_SIZE.
  rewrite (Z.mod_small (offset + len)), (proj2 (Z.ltb_ge _ _)) by lia. rewrite decide_False in Hch by lia.
  pose proof (Z.div_mod offset 512) as Hdm. pose proof (Z.mod_pos_bound offset 512) as Hmb.
  assert (0 <= offset / 512) as Hq by (apply Z.div_pos; lia).
  rewrite (Z.mod_small (offset / 512 * 512)), (Z.mod_small (_ - _)) by lia.
  replace (offset - offset / 512 * 512) with (offset mod 512) by lia.
  destruct (lookup_lt_is_Some_2 cs (Z.to_nat (offset / 512))) as [c Hk]; [lia|].
  destruct (skip_clusters_spec t f (Z.to_nat (offset / 512)) Hv _ _ x1 s1 c Hch)
    as (s2 & x2 & E2 & Hd2 & Hco2 & Hb2 & Hm2 & Ha2); [by rewrite Hd1|done| |done|].
  { rewrite Ha1. intros Hin%Hdisj. by apply find_entry_elem in Hfind. }
  rewrite (bind_ok _ _ _ _ _ E2). pose proof (chain_cl _ _ _ Hch) as Hcl.
  pose proof (chain_suffix _ _ _ _ _ Hch Hk) as Hsuf. rewrite (drop_S _ _ _ Hk) in Ha2.
  apply not_elem_of_cons in Ha2 as [Ha2 _].
  destruct (load_first fuel len (offset mod 512) c x2 s2 t f) as (s3 & x3 & n & Hn & Hd3 & Hco3 & Ha3 & Hm3 & E3);
    [done|congruence|done|by eapply Forall_lookup_1|done|lia|done|congruence|].
  pose proof (repr_data_length _ _ _ _ Hr (Forall_lookup_1 _ _ _ _ Hcl Hk)) as Hcd.
  unfold ATA_SECTOR_SIZE in E3. rewrite E3. destruct (load_rest t f cs (Z.to_nat (offset / 512)) c fuel len n x3 s3) as (s4 & E4 & Hd4 & Hm4);
    try done; try lia; [congruence| |].
  { rewrite Hm3, Hm2, Hm1, length_patch; rewrite ?length_take, ?length_drop; lia. }
  exists s4. split; [done|]. split; [congruence|]. rewrite Hm4, Hm3.
  replace offset with (512 * Z.of_nat (Z.to_nat (offset / 512)) + offset mod 512) at 3 by lia.
  rewrite (slice_bytes_of _ _ _ _ _ _ _ _ Hr Hcl Hk), <- Hn by lia. f_equal.
  replace (Z.to_nat n) with (Z.to_nat (0 + Z.of_nat (length (take (Z.to_nat n) (drop (Z.to_nat (offset mod 512)) (f c)))))) at 1
    by (rewrite length_take, length_drop; lia).
  rewrite take_patch by lia. done.
Qed.

(** ** Changing a chain *)

Lemma follow_spec t f k : vol_ok -> forall c cs x s c',
  chain t c cs -> repr (dev s) t f -> coh s x -> cs !! k = Some c' ->
  exists s' x', follow k c x s = Ok (Some (c', x'), s') /\ dev s' = dev s /\ coh s' x'.
Proof.
  intros Hv. induction k as [|k IH]; intros c cs x s c' Hc Hr Hco Hk.
  { destruct (chain_head _ _ _ Hc) as [cs' ->]. simplify_eq/=. by exists s, x. }
  inversion Hc as [? Hcl _|? cs' Hcl Hlt Hc']; subst; simpl in Hk; [done|].
  destruct (cac_spec s t f x c DriveBuf) as (s1 & x1 & E & Hd & Hco1 & (_ & _ & _ & Ht1 & _) & _); [done..|].
  destruct (IH (mask (t c)) cs' x1 s1 c') as (s2 & x2 & E2 & ? & ?); [done|by rewrite Hd|done|done|].
  exists s2, x2. simpl. rewrite (bind_ok _ _ _ _ _ E), Ht1, E2. split_and!; congruence || done.
Qed.

(** Go to a cluster and set its entry. *)
Lemma set_at_spec s t f x c y :
  vol_ok -> repr (dev s) t f -> coh s x -> cl c -> is_u32 y ->
  exists s1 x1, change_active_cluster c x DriveBuf s = Ok (Some x1, s1) /\ table_value x1 = mask (t c) /\
    rd32 (FAT s1) (FAT_entry_offset x1) = t c /\
    exists s2, set_table_entry x1 y s1 = Ok (Some (set_table_value x1 y), s2) /\ repr (dev s2) (<[c := y]> t) f /\
      coh s2 (set_table_value x1 y).
Proof.
  intros Hv Hr Hco Hcl Hy.
  destruct (cac_spec s t f x c DriveBuf) as (s1 & x1 & E & Hd & Hco1 & Hat & _); [done..|].
  exists s1, x1. split; [done|]. pose proof Hat as (_ & Hs & Ho & Ht & _). split; [done|]. split.
  - destruct (repr_fat _ _ _ Hr _ (cl_te _ Hv Hcl)) as (l & Hl & Hlt). destruct (te_sectors _ Hv (cl_te _ Hv Hcl)) as [? _].
    destruct Hco1 as [|[_ Hc1]]; [lia|]. rewrite Hs, Hd, Hl in Hc1. simplify_eq. by rewrite Ho.
  - destruct (set_table_entry_spec s1 t f x1 c y) as (s2 & E2 & Hr2 & Hc2 & _); [done|by rewrite Hd|done..|].
    by exists s2.
Qed.

Lemma clear_chain_spec f k : vol_ok -> forall cs t c x s,
  (k <= length cs)%nat -> k = 0%nat \/ chain t c cs -> clean t cs -> repr (dev s) t f -> coh s x ->
  exists s' x' t', clear_chain k c x s = Ok (Some x', s') /\ repr (dev s') t' f /\
    (forall y, t' y = if decide (y ∈ take k cs) then 0 else t y).
Proof.
  intros Hv. induction k as [|k IH]; intros cs t c x s Hk Hc Hcln Hr Hco.
  { exists s, x, t. split; [done|]. split; [done|]. intros y. rewrite decide_False; [done|]. set_solver. }
  destruct Hc as [?|Hc]; [done|]. destruct cs as [|c0 cs]; [by inversion Hc|].
  pose proof (chain_NoDup _ _ _ Hc) as Hnd%NoDup_cons_1_1. assert (c0 = c) as -> by (by inversion Hc).
  assert (cl c) as Hcl by (by inversion Hc).
  destruct (set_at_spec s t f x c 0) as (s1 & x1 & E1 & _ & Hnext & s2 & E2 & Hr2 & Hc2); [done..|].
  cbn [clear_chain]. rewrite (bind_ok _ _ _ _ _ E1), bind_gets, Hnext, (bind_ok _ _ _ _ _ E2).
  rewrite <- (Hcln c) by set_solver.
  destruct (IH cs (<[c := 0]> t) (mask (t c)) (set_table_value x1 0) s2) as (s3 & x3 & t' & E3 & Hr3 & Ht');
    [simpl in Hk; lia| | |done|done|].
  { destruct k as [|k]; [by left|right]. destruct cs as [|c1 cs]; [simpl in Hk; lia|].
    eapply chain_ext; [by eapply chain_tail|]. intros y Hy. apply fn_lookup_insert_ne. by intros ->. }
  { intros y Hy. rewrite fn_lookup_insert_ne by (by intros ->). apply Hcln. set_solver. }
  eexists _, _, t'. split; [exact E3|]. split; [done|]. intros y. rewrite Ht'. cbn [take].
  destruct (decide (y = c)) as [->|Hne].
  - rewrite (decide_True (P := c ∈ c :: take k cs)), fn_lookup_insert by set_solver. by case_decide.
  - rewrite fn_lookup_insert_ne by done. do 2 case_decide; set_solver.
Qed.

(** [c] and the clusters [new] linked one to the next. *)
Fixpoint linked (t : Z -> Z) (c : Z) (new : list Z) : Prop :=
  match new with [] => True | x :: new => t c = x /\ linked t x new end.

Lemma mask_small x : 0 <= x < 0x10000000 -> mask x = x.
Proof. intros. unfold mask. change 0x0FFFFFFF with (Z.ones 28). rewrite Z.land_ones, Z.mod_small; lia. Qed.

Lemma linked_chain t new : vol_ok -> forall c,
  linked t c new -> Forall cl (c :: new) -> t (default c (last new)) = CLUSTER_EOC ->
  chain t c (c :: new) /\ clean t (c :: new).
Proof.
  intros Hv. induction new as [|x new IH]; intros c Hl Hcl Hend.
  - simpl in Hend. assert (mask (t c) = t c) as Hm by (rewrite Hend; done). split.
    + apply chain_last; [by inversion Hcl|]. rewrite Hend. done.
    + intros y ->%list_elem_of_singleton. done.
  - destruct Hl as [Hx Hl]. inversion Hcl as [|? ? Hc Hcl']; subst. inversion Hcl' as [|? ? Hcx _]; subst.
    destruct (cl_sectors _ Hv Hcx) as (_ & _ & _ & _ & _ & _ & Hlim). unfold CLUSTER_MIN_EOC in Hlim.
    assert (mask (t c) = t c) as Hm by (apply mask_small; lia).
    destruct (IH (t c) Hl Hcl') as [IHc IHn].
    { rewrite last_cons in Hend. by destruct (last new). }
    split; [apply chain_cons; [done|unfold CLUSTER_MIN_EOC; lia|by rewrite Hm]|].
    intros y [->|Hy]%elem_of_cons; [done|by apply IHn].
Qed.

Lemma linked_ext t t' new : forall c, linked t c new -> (forall y, y ∈ c :: new -> y <> default c (last new) -> t' y = t y) ->
  NoDup (c :: new) -> linked t' c new.
Proof.
  induction new as [|x new IH]; intros c Hl He Hnd; [done|]. destruct Hl as [Hx Hl]. rewrite last_cons in He.
  assert (default c (Some (default x (last new))) = default x (last new)) as Ed by done.
  split.
  - rewrite He; [done|set_solver|]. intros E. apply NoDup_cons_1_1 in Hnd. apply Hnd.
    destruct (last new) as [z|] eqn:Ez; simpl in E; subst; [|set_solver].
    apply last_Some in Ez as [l ->]. set_solver.
  - apply IH; [done| |by eapply NoDup_cons_1_2]. intros y Hy Hne. apply He; [set_solver|]. by destruct (last new).
Qed.

Lemma extend_chain_spec f : vol_ok -> forall new t c x s,
  NoDup (c :: new) -> Forall cl (c :: new) -> repr (dev s) t f -> coh s x ->
  exists s' x' t', extend_chain new c x s = Ok (Some (default c (last new), x'), s') /\ repr (dev s') t' f /\
    coh s' x' /\ linked t' c new /\ (forall y, y ∉ c :: new -> t' y = t y).
Proof.
  intros Hv. induction new as [|y new IH]; intros t c x s Hnd Hcl Hr Hco.
  { simpl. by exists s, x, t. }
  apply NoDup_cons_1_1 in Hnd as Hc. apply NoDup_cons_1_2 in Hnd. inversion Hcl as [|? ? Hclc Hcl']; subst.
  assert (is_u32 y) as Hy.
  { inversion Hcl' as [|? ? Hcy _]; subst. destruct (cl_sectors _ Hv Hcy) as (_ & _ & _ & _ & _ & _ & Hl).
    unfold is_u32, CLUSTER_MIN_EOC in *. lia. }
  destruct (set_at_spec s t f x c y) as (s1 & x1 & E1 & _ & _ & s2 & E2 & Hr2 & Hc2); [done..|].
  destruct (IH (<[c := y]> t) y (set_table_value x1 y) s2) as (s3 & x3 & t' & E3 & Hr3 & Hc3 & Hl3 & Ht3); [done..|].
  exists s3, x3, t'. simpl. rewrite (bind_ok _ _ _ _ _ E1), (bind_ok _ _ _ _ _ E2), E3, last_cons.
  split; [by destruct (last new)|]. split; [done|]. split; [done|]. split.
  - split; [|done]. rewrite Ht3 by done. apply fn_lookup_insert.
  - intros z Hz. rewrite Ht3 by set_solver. apply fn_lookup_insert_ne. set_solver.
Qed.

(** ** Changing a directory entry *)

Lemma lookup_patch l o x i :
  0 <= o -> o + Z.of_nat (length x) <= Z.of_nat (length l) ->
  patch l o x !! i = if decide (o <= Z.of_nat i < o + Z.of_nat (length x)) then x !! (i - Z.to_nat o)%nat else l !! i.
Proof.
  intros Ho Hl. unfold patch. assert (length (take (Z.to_nat o) l) = Z.to_nat o) as Ht by (rewrite length_take; lia).
  case_decide.
  - rewrite lookup_app_r, lookup_app_l by (rewrite ?Ht; lia). by rewrite Ht.
  - destruct (decide (Z.of_nat i < o)).
    + rewrite lookup_app_l, lookup_take_lt by (rewrite ?Ht; lia). done.
    + rewrite !lookup_app_r, lookup_drop by (rewrite ?Ht; lia). rewrite Ht. f_equal. lia.
Qed.

Lemma slice_patch l o x : 0 <= o -> o + Z.of_nat (length x) <= Z.of_nat (length l) ->
  slice (patch l o x) o (Z.of_nat (length x)) = x.
Proof.
  intros Ho Hl. apply list_eq. intros i. unfold slice. rewrite Nat2Z.id. destruct (decide (i < length x)%nat).
  - rewrite lookup_take_lt, lookup_drop, lookup_patch, decide_True by lia. f_equal. lia.
  - rewrite lookup_take_ge, lookup_ge_None_2 by lia. done.
Qed.

Lemma slice_patch_ne l o x o' n : 0 <= o -> 0 <= o' -> o + Z.of_nat (length x) <= Z.of_nat (length l) ->
  o' + n <= o \/ o + Z.of_nat (length x) <= o' -> slice (patch l o x) o' n = slice l o' n.
Proof.
  intros Ho Ho' Hl Hd. apply list_eq. intros i. unfold slice. destruct (decide (i < Z.to_nat n)%nat).
  - rewrite !lookup_take_lt, !lookup_drop, lookup_patch, decide_False by lia. done.
  - rewrite !lookup_take_ge by lia. done.
Qed.

Definition put (l : list Z) (id : Z) (e : dir_entry) : list Z := patch l (32 * id) e.

Lemma entry_put l id e : length l = 512%nat -> length e = 32%nat -> 0 <= id < 16 -> entry (put l id e) id = e.
Proof.
  intros Hl He Hi. unfold entry, put.
  replace (slice _ _ 32) with (slice (patch l (32 * id) e) (32 * id) (Z.of_nat (length e))) by (by rewrite He).
  apply slice_patch; lia.
Qed.

Lemma entry_put_ne l id id' e :
  length l = 512%nat -> length e = 32%nat -> 0 <= id < 16 -> 0 <= id' -> id <> id' -> entry (put l id e) id' = entry l id'.
Proof. intros. unfold entry, put. apply slice_patch_ne; lia. Qed.

Lemma length_entry l id : length l = 512%nat -> 0 <= id < 16 -> length (entry l id) = 32%nat.
Proof. intros. unfold entry, slice. rewrite length_take, length_drop. lia. Qed.

(** The lookup only looks at the name and the attributes of an entry. *)
Definition same_head (e e' : dir_entry) : Prop := take 12 e = take 12 e'.

Lemma byte_take l n i : 0 <= i < Z.of_nat n -> byte (take n l) i = byte l i.
Proof. intros. rewrite !byte_lookup, lookup_take_lt by lia. done. Qed.

Lemma same_head_fields e e' : same_head e e' ->
  is_free e = is_free e' /\ is_LFN e = is_LFN e' /\ get_name e = get_name e' /\ e_name e = e_name e'.
Proof.
  intros Hs. unfold same_head in Hs.
  assert (forall i, 0 <= i < 12 -> byte e i = byte e' i) as Hb.
  { intros i Hi. rewrite <- (byte_take e 12), <- (byte_take e' 12) by lia. by rewrite Hs. }
  assert (e_name e = e_name e') as Hn.
  { unfold e_name. apply (f_equal (take 11)) in Hs. by rewrite !take_take in Hs. }
  unfold is_free, is_LFN, get_name, is_directory, attrs. rewrite !Hb, Hn by lia. done.
Qed.

Lemma scan_range k l name : forall i fnd whole id, scan k l name i fnd whole = Some id -> i <= id < i + Z.of_nat k.
Proof.
  induction k as [|k IH]; simpl; [done|]. intros i fnd whole id. repeat case_match; intros; simplify_eq; try lia;
    match goal with H : scan _ _ _ _ _ _ = Some _ |- _ => apply IH in H; lia end.
Qed.

Lemma scan_put k l name id e' : length l = 512%nat -> length e' = 32%nat -> same_head e' (entry l id) ->
  forall i fnd whole, 0 <= i -> i + Z.of_nat k <= 16 -> scan k l name i fnd whole = Some id ->
  scan k (put l id e') name i fnd whole = Some id.
Proof.
  intros Hl He Hs. destruct (same_head_fields _ _ Hs) as (Hfree & Hlfn & Hname & _).
  induction k as [|k IH]; intros i fnd whole Hi Hk Hscan; [done|].
  pose proof (scan_range _ _ _ _ _ _ _ Hscan) as Hr. cbn [scan] in *. destruct (decide (i = id)) as [->|Hne].
  - rewrite entry_put by lia. rewrite Hfree, Hlfn, Hname. revert Hscan.
    destruct (is_free (entry l id)); [done|]. destruct fnd; [done|]. destruct (is_LFN (entry l id)); simpl.
    + rewrite andb_false_r. intros Hc%scan_range. lia.
    + rewrite andb_true_r. case_match; [done|]. intros Hc%scan_range. lia.
  - rewrite entry_put_ne by lia. revert Hscan. destruct (is_free (entry l i)); [done|]. destruct fnd; [congruence|].
    case_match; [congruence|]. apply IH; lia.
Qed.

Lemma find_entry_scan f name cs c id : find_entry f name cs = Some (c, id) -> scan_sector (f c) name = Some id.
Proof.
  induction cs as [|c' cs IH]; simpl; [done|]. destruct (scan_sector (f c') name) eqn:E; intros; simplify_eq; auto.
Qed.

Lemma find_entry_put f name cs c id l :
  find_entry f name cs = Some (c, id) -> scan_sector l name = Some id -> find_entry (<[c := l]> f) name cs = Some (c, id).
Proof.
  intros Hfind Hl. pose proof (find_entry_scan _ _ _ _ _ Hfind) as Hsc. revert Hfind.
  induction cs as [|c' cs IH]; simpl; [done|]. destruct (decide (c' = c)) as [->|Hne].
  - rewrite fn_lookup_insert, Hl, Hsc. congruence.
  - rewrite fn_lookup_insert_ne by done. by destruct (scan_sector (f c') name).
Qed.

Lemma same_head_patch e o x : length e = 32%nat -> 12 <= o -> o + Z.of_nat (length x) <= 32 -> same_head (patch e o x) e.
Proof.
  intros He Ho Hx. apply list_eq. intros i. destruct (decide (i < 12)%nat).
  - rewrite !lookup_take_lt, lookup_patch, decide_False by lia. done.
  - rewrite !lookup_take_ge by lia. done.
Qed.

Lemma set_file_size_spec e n : length e = 32%nat -> is_u32 n ->
  length (set_file_size e n) = 32%nat /\ same_head (set_file_size e n) e /\ file_size (set_file_size e n) = n /\
  first_cluster_addr (set_file_size e n) = first_cluster_addr e.
Proof.
  intros He Hn. unfold set_file_size, file_size, first_cluster_addr, rd16.
  split; [rewrite length_patch; rewrite ?length_le32; lia|]. split; [apply same_head_patch; rewrite ?length_le32; lia|].
  split; [apply rd32_patch; lia || done|]. by rewrite !byte_patch, !decide_False by (rewrite ?length_le32; lia).
Qed.

Lemma lor_halves hi lo : 0 <= lo < 65536 -> Z.lor (Z.shiftl hi 16) lo = hi * 65536 + lo.
Proof.
  intros Hlo. rewrite Z.shiftl_mul_pow2 by lia. change (2 ^ 16) with 65536. symmetry. apply Z.add_nocarry_lor.
  apply Z.bits_inj'. intros n Hn. rewrite Z.land_spec, Z.bits_0. change 65536 with (2 ^ 16).
  destruct (decide (n < 16)).
  - by rewrite Z.mul_pow2_bits_low by lia.
  - rewrite (Z.bits_above_log2 lo), andb_false_r; [done|lia|].
    destruct (decide (lo = 0)) as [->|]; [simpl; lia|]. assert (Z.log2 lo < 16) by (apply Z.log2_lt_pow2; lia). lia.
Qed.

Lemma set_first_cluster_spec e c : length e = 32%nat -> is_u32 c ->
  length (set_first_cluster e c) = 32%nat /\ same_head (set_first_cluster e c) e /\
  first_cluster_addr (set_first_cluster e c) = c /\ file_size (set_first_cluster e c) = file_size e.
Proof.
  intros He Hc. unfold set_first_cluster. set (e1 := patch e 20 _).
  assert (length e1 = 32%nat) as He1 by (unfold e1; rewrite length_patch; simpl; lia).
  split; [rewrite length_patch; simpl; lia|]. split; [|split].
  - unfold same_head. rewrite (same_head_patch e1 26) by (done || simpl; lia).
    apply same_head_patch; done || simpl; lia.
  - unfold first_cluster_addr, rd16. rewrite !byte_patch by (done || simpl; lia). simpl length.
    repeat first [rewrite decide_True by lia | rewrite decide_False by lia].
    unfold e1. rewrite !byte_patch by (done || simpl; lia). simpl length. rewrite !decide_True by lia.
    change 0xFFFF with (Z.ones 16). rewrite Z.land_ones, Z.shiftr_div_pow2 by lia. unfold byte, le16. simpl.
    change (Z.pow_pos 2 16) with 65536. unfold is_u32 in Hc. rewrite lor_halves; Z.div_mod_to_equations; lia.
  - unfold file_size, rd32, rd16. rewrite !byte_patch by (done || simpl; lia). simpl length.
    rewrite !decide_False by lia. unfold e1. by rewrite !byte_patch, !decide_False by (done || simpl; lia).
Qed.

(** ** Free clusters *)

(** The zero entries of a table sector, [k] entries from [j] on. *)
Fixpoint zero_entries (k : nat) (l : list Z) (sector j : Z) : list Z :=
  match k with
  | O => []
  | S k =>
      let skip := negb (rd32 l (4 * j) =? 0) || ((sector =? first_fat_sector v) && (j <? 2)) in
      (if skip then [] else [(sector -u first_fat_sector v) *u 128 +u j]) ++ zero_entries k l sector (j + 1)
  end.

Lemma free_in_sector_eq k l sector n : forall j found, Z.of_nat (length found) <= n ->
  free_in_sector k l sector j n found = take (Z.to_nat n) (found ++ zero_entries k l sector j).
Proof.
  induction k as [|k IH]; intros j found Hn; simpl.
  { rewrite app_nil_r, take_ge by lia. done. }
  destruct (Z.eqb_spec (Z.of_nat (length found)) n) as [E|E].
  - rewrite take_app_le by lia. by rewrite take_ge by lia.
  - rewrite IH by (case_match; rewrite ?length_app; simpl; lia). rewrite app_assoc. by case_match; rewrite ?app_nil_r.
Qed.

Definition is_zero (t : Z -> Z) (c : Z) : bool := t c =? 0.

(** The numbers [lo], [lo + 1], ..., [n] of them. *)
Fixpoint upto (lo : Z) (n : nat) : list Z := match n with O => [] | S n => lo :: upto (lo + 1) n end.

Lemma upto_app lo n m : upto lo (n + m) = upto lo n ++ upto (lo + Z.of_nat n) m.
Proof.
  revert lo. induction n as [|n IH]; intros lo; simpl; [f_equal; lia|]. rewrite IH. do 3 f_equal. lia.
Qed.

Lemma elem_of_upto lo n x : x ∈ upto lo n <-> lo <= x < lo + Z.of_nat n.
Proof.
  revert lo. induction n as [|n IH]; intros lo; simpl; [split; [set_solver|lia]|]. rewrite elem_of_cons, IH. lia.
Qed.

Lemma upto_NoDup lo n : NoDup (upto lo n).
Proof. revert lo. induction n as [|n IH]; intros lo; constructor; [|done]. rewrite elem_of_upto. lia. Qed.

Definition zeros (t : Z -> Z) (l : list Z) : list Z := filter (fun c => is_zero t c = true) l.

Lemma zeros_cons t c l : zeros t (c :: l) = (if is_zero t c then [c] else []) ++ zeros t l.
Proof. unfold zeros. rewrite filter_cons. by destruct (is_zero t c). Qed.

Lemma zeros_app t l l' : zeros t (l ++ l') = zeros t l ++ zeros t l'.
Proof. apply filter_app. Qed.

(** The free clusters of the volume, in the order of their numbers. *)
Definition free_clusters (t : Z -> Z) : list Z := zeros t (upto 2 (Z.to_nat (total_clusters v))).

(** The zero entries of sector [i] of the table. *)
Lemma zero_entries_eq d t f l i k : forall j, vol_ok -> repr d t f -> 0 <= i < fat_size v ->
  read_sector d (first_fat_sector v + i) = Some l -> 0 <= j -> j + Z.of_nat k <= 128 ->
  zero_entries k l (first_fat_sector v + i) j
  = zeros t (filter (fun c => 2 <= c) (upto (128 * i + j) k)).
Proof.
  induction k as [|k IH]; intros j Hv Hr Hi Hl Hj Hk; [done|]. simpl.
  rewrite IH by (done || lia). replace (128 * i + j + 1) with (128 * i + (j + 1)) by lia.
  rewrite filter_cons. pose proof Hv as (_ & _ & H0 & Hd & _ & _ & [_ Hmax] & _).
  assert (first_fat_sector v + i =? first_fat_sector v = (i =? 0)) as ->.
  { destruct (Z.eqb_spec i 0), (Z.eqb_spec (first_fat_sector v + i) (first_fat_sector v)); lia. }
  case_decide as H2.
  2: { assert (i = 0) as -> by lia. rewrite (proj2 (Z.ltb_lt j 2)), orb_true_r by lia. done. }
  assert ((i =? 0) && (j <? 2) = false) as ->.
  { apply andb_false_iff. destruct (Z.eqb_spec i 0); [right; apply Z.ltb_ge; lia|by left]. }
  rewrite orb_false_r, zeros_cons. assert (te (128 * i + j)) as Hte by (unfold te; lia).
  destruct (repr_fat _ _ _ Hr _ Hte) as (l' & Hl' & Ht'). unfold fsec, foff, is_zero in *.
  replace ((128 * i + j) / 128) with i in Hl' by (Z.div_mod_to_equations; lia).
  replace ((128 * i + j) mod 128) with j in Ht' by (Z.div_mod_to_equations; lia).
  simplify_eq. rewrite Ht'. f_equal.
  replace (u32 (u32 (u32 (first_fat_sector v + i - first_fat_sector v) * 128) + j)) with (128 * i + j); [by destruct (t _ =? 0)|].
  unfold te in Hte. unfold u32. replace (first_fat_sector v + i - first_fat_sector v) with i by lia.
  rewrite (Z.mod_small i), (Z.mod_small (i * 128)), Z.mod_small; lia.
Qed.

(** The zero entries of the first [i] sectors of the table. *)
Definition table_zeros (t : Z -> Z) (i : Z) : list Z := zeros t (filter (fun c => 2 <= c) (upto 0 (Z.to_nat (128 * i)))).

Lemma table_zeros_S t i : 0 <= i ->
  table_zeros t (i + 1) = table_zeros t i ++ zeros t (filter (fun c => 2 <= c) (upto (128 * i + 0) 128)).
Proof.
  intros Hi. unfold table_zeros. replace (Z.to_nat (128 * (i + 1))) with (Z.to_nat (128 * i) + 128)%nat by lia.
  rewrite upto_app, filter_app, zeros_app. do 3 f_equal. f_equal. lia.
Qed.

Lemma table_zeros_mono t i j : 0 <= i <= j -> exists l, table_zeros t j = table_zeros t i ++ l.
Proof.
  intros Hij. unfold table_zeros. replace (Z.to_nat (128 * j)) with (Z.to_nat (128 * i) + Z.to_nat (128 * (j - i)))%nat by lia.
  rewrite upto_app, filter_app, zeros_app. eauto.
Qed.

Lemma free_in_sectors_spec t f n m : vol_ok -> forall k i s,
  repr (dev s) t f -> 0 <= i -> i + Z.of_nat m = fat_size v -> (m <= k)%nat ->
  Z.of_nat (length (table_zeros t i)) < n -> n <= Z.of_nat (length (table_zeros t (fat_size v))) ->
  free_in_sectors k (first_fat_sector v + i) n (table_zeros t i) s
  = Ok (Some (take (Z.to_nat n) (table_zeros t (fat_size v))), s).
Proof.
  intros Hv. induction m as [|m IH]; intros k i s Hr Hi Hm Hk Hlt Hn.
  { replace (fat_size v) with i in Hn by lia. lia. }
  destruct k as [|k]; [lia|]. cbn [free_in_sectors]. pose proof Hv as (_ & _ & H0 & Hd & _).
  assert (te (128 * i + 2)) as Hte by (unfold te; lia).
  destruct (repr_fat _ _ _ Hr _ Hte) as (l & Hl & _). unfold fsec in Hl.
  replace ((128 * i + 2) / 128) with i in Hl by (Z.div_mod_to_equations; lia).
  rewrite (bind_read _ _ _ _ Hl), free_in_sector_eq by lia.
  rewrite (zero_entries_eq (dev s) t f l i 128 0) by (done || lia). rewrite <- table_zeros_S by done.
  destruct (table_zeros_mono t (i + 1) (fat_size v)) as [rest Erest]; [lia|].
  destruct (Z.eqb_spec (Z.of_nat (length (take (Z.to_nat n) (table_zeros t (i + 1))))) n) as [E|E];
    rewrite length_take in E.
  - rewrite Erest, take_app_le by lia. done.
  - rewrite take_ge by lia. replace (first_fat_sector v + i + 1) with (first_fat_sector v + (i + 1)) by lia.
    apply IH; done || lia.
Qed.

Lemma filter_upto n : filter (fun c => 2 <= c) (upto 0 (2 + n)) = upto 2 n.
Proof.
  rewrite upto_app, filter_app. simpl. assert (forall lo, 2 <= lo -> filter (fun c => 2 <= c) (upto lo n) = upto lo n) as E.
  { induction n as [|n IH]; intros lo Hlo; [done|]. simpl. rewrite filter_cons_True, IH by lia. done. }
  by rewrite E.
Qed.

(** The clusters of the volume come first in the table. *)
Lemma table_zeros_free t : vol_ok -> exists l, table_zeros t (fat_size v) = free_clusters t ++ l.
Proof.
  intros (_ & _ & _ & _ & _ & H1 & [H2 _] & _). unfold table_zeros, free_clusters.
  replace (Z.to_nat (128 * fat_size v))
    with (2 + (Z.to_nat (total_clusters v) + Z.to_nat (128 * fat_size v - total_clusters v - 2)))%nat by lia.
  rewrite filter_upto, upto_app, zeros_app. eauto.
Qed.

Lemma get_free_clusters_spec t f n s :
  vol_ok -> repr (dev s) t f -> 0 < n <= Z.of_nat (length (free_clusters t)) ->
  get_free_clusters n s = Ok (Some (take (Z.to_nat n) (free_clusters t)), s).
Proof.
  intros Hv Hr Hn. destruct (table_zeros_free t Hv) as [l El]. pose proof Hv as (_ & _ & H0 & Hd & Hts & H1 & [H2 _] & _).
  unfold get_free_clusters. rewrite (proj2 (Z.eqb_neq n 0)) by lia.
  pose proof (free_in_sectors_spec t f n (Z.to_nat (fat_size v)) Hv (Z.to_nat (total_sectors v - first_fat_sector v)) 0 s Hr) as E.
  rewrite Z.add_0_r in E. change (table_zeros t 0) with ([] : list Z) in E. rewrite E.
  - rewrite El, take_app_le by lia. done.
  - lia.
  - lia.
  - lia.
  - simpl. lia.
  - rewrite El, length_app. lia.
Qed.

Lemma free_clusters_elem t c : c ∈ free_clusters t <-> cl c /\ t c = 0.
Proof.
  unfold free_clusters, zeros. rewrite list_elem_of_filter, elem_of_upto. unfold is_zero, cl. rewrite Z.eqb_eq.
  split; intros [? ?]; split; try done; lia.
Qed.

Lemma free_clusters_NoDup t : NoDup (free_clusters t).
Proof. apply NoDup_filter, upto_NoDup. Qed.

(** Used clusters have non-zero entries. *)
Lemma chain_nonzero t c cs x : vol_ok -> chain t c cs -> x ∈ cs -> t x <> 0.
Proof.
  intros Hv. induction 1 as [c Hcl Hge|c cs Hcl Hlt Hc IH]; intros Hx Ez.
  - apply list_elem_of_singleton in Hx as ->. rewrite Ez in Hge. done.
  - apply elem_of_cons in Hx as [->|Hx]; [|by apply IH]. rewrite Ez in Hc. change (mask 0) with 0 in Hc.
    apply chain_zero in Hc as Hz. destruct (chain_head _ _ _ Hc) as [? ->]. set_solver.
Qed.

(** ** Resizing *)

Lemma put_entry_spec s id e : length (buf s) = 512%nat -> length e = 32%nat -> 0 <= id < 16 ->
  put_entry id e s = Ok (Some tt, set_buf s (put (buf s) id e)).
Proof. intros Hb He Hi. unfold put_entry. by rewrite bind_gets, bind_patch by lia. Qed.

Lemma length_put l id e : length l = 512%nat -> length e = 32%nat -> 0 <= id < 16 -> length (put l id e) = 512%nat.
Proof. intros. unfold put. rewrite length_patch; lia. Qed.

Lemma write_buf_spec s t f x c :
  vol_ok -> repr (dev s) t f -> coh s x -> cl c -> length (buf s) = 512%nat -> active_sector x = dsec c ->
  exists s', write_buf x (active_sector x) s = Ok (Some (set_buffer_updated x false), s') /\
    repr (dev s') t (<[c := buf s]> f) /\ coh s' (set_buffer_updated x false) /\ buf s' = buf s /\ mem s' = mem s.
Proof.
  intros Hv Hr Hco Hcl Hb ->. destruct (write_disk_spec s t f x c (buf s)) as (s' & E & Hr' & Hc' & ? & ?); [done..|].
  exists s'. unfold write_buf. rewrite bind_gets, (bind_ok _ _ _ _ _ E). by split_and!.
Qed.

Lemma chain_lookup_cl t c cs k c' : chain t c cs -> cs !! k = Some c' -> cl c'.
Proof. intros Hc%chain_cl Hk. by eapply Forall_lookup_1. Qed.

(** The tail of a chain after its element [k]. *)
Lemma chain_after t c cs k c' : chain t c cs -> cs !! k = Some c' -> (S k < length cs)%nat ->
  chain t (mask (t c')) (drop (S k) cs) /\ c' ∉ drop (S k) cs.
Proof.
  intros Hc Hk Hlen. pose proof (chain_suffix _ _ _ _ _ Hc Hk) as Hs. rewrite (drop_S _ _ _ Hk) in Hs.
  split; [|by apply chain_NoDup, NoDup_cons_1_1 in Hs].
  destruct (drop (S k) cs) as [|y l] eqn:E; [|by eapply chain_tail].
  apply (f_equal length) in E. rewrite length_drop in E. simpl in E. lia.
Qed.

(** The two last steps of [shorten]: the end mark, then the rest of the chain. *)
Lemma truncate_spec t f c cs k n y x s c' :
  vol_ok -> chain t c cs -> clean t cs -> cs !! k = Some c' -> (S k + n <= length cs)%nat ->
  repr (dev s) t f -> coh s x -> is_u32 y ->
  exists s' t',
    (x ← change_active_cluster c' x DriveBuf; let next := table_value x in
     x ← set_table_entry x y; _ ← clear_chain n next x; mret tt) s = Ok (Some tt, s') /\
    repr (dev s') t' f /\ t' c' = y /\ (forall z, z ∈ take n (drop (S k) cs) -> t' z = 0) /\
    (forall z, z <> c' -> z ∉ take n (drop (S k) cs) -> t' z = t z).
Proof.
  intros Hv Hc Hcln Hk Hn Hr Hco Hy. pose proof (chain_lookup_cl _ _ _ _ _ Hc Hk) as Hcl.
  destruct (set_at_spec s t f x c' y) as (s1 & x1 & E1 & Hnext & _ & s2 & E2 & Hr2 & Hc2); [done..|].
  cbv zeta. rewrite (bind_ok _ _ _ _ _ E1), (bind_ok _ _ _ _ _ E2), Hnext.
  assert (forall z, z ∈ drop (S k) cs -> z <> c') as Hne.
  { intros z Hz ->. pose proof (chain_suffix _ _ _ _ _ Hc Hk) as Hs%chain_NoDup.
    rewrite (drop_S _ _ _ Hk) in Hs. by apply NoDup_cons_1_1 in Hs. }
  destruct (clear_chain_spec f n Hv (drop (S k) cs) (<[c' := y]> t) (mask (t c')) (set_table_value x1 y) s2)
    as (s3 & x3 & t' & E3 & Hr3 & Ht'); [rewrite length_drop; lia| | |done|done|].
  { destruct n as [|n]; [by left|right]. destruct (chain_after _ _ _ _ _ Hc Hk) as [Hc' _]; [lia|].
    eapply chain_ext; [done|]. intros z Hz. apply fn_lookup_insert_ne. intros <-. by eapply Hne. }
  { intros z Hz. rewrite fn_lookup_insert_ne by (intros <-; by eapply Hne).
    apply Hcln. apply list_elem_of_lookup_1 in Hz as [i Hi]. rewrite lookup_drop in Hi. by eapply list_elem_of_lookup_2. }
  exists s3, t'. rewrite (bind_ok _ _ _ _ _ E3). split; [done|]. split; [done|]. split; [|split].
  - rewrite Ht', decide_False, fn_lookup_insert; [done|]. intros Hin.
    apply list_elem_of_lookup_1 in Hin as [i Hi%lookup_take_Some]. destruct Hi as [Hi%list_elem_of_lookup_2 _]. by eapply Hne.
  - intros z Hz. by rewrite Ht', decide_True.
  - intros z Hz Hz'. by rewrite Ht', decide_False, fn_lookup_insert_ne by done.
Qed.

Lemma shorten_spec t f dc id x s cs cur_n new_n new_size :
  vol_ok -> repr (dev s) t f -> coh s x -> cl dc -> active_sector x = dsec dc -> length (buf s) = 512%nat ->
  0 <= id < 16 -> let e := entry (buf s) id in
  chain t (first_cluster_addr e) cs -> clean t cs -> 0 <= new_n < cur_n -> cur_n <= Z.of_nat (length cs) ->
  exists s' t' c', shorten id x cur_n new_n new_size s = Ok (Some tt, s') /\ cs !! Z.to_nat new_n = Some c' /\
    repr (dev s') t' (<[dc := if new_size =? 0 then put (buf s) id (set_first_cluster e 0) else buf s]> f) /\
    t' c' = (if new_size =? 0 then 0 else CLUSTER_EOC) /\
    (forall z, z ∈ take (Z.to_nat (cur_n - new_n - 1)) (drop (S (Z.to_nat new_n)) cs) -> t' z = 0) /\
    (forall z, z <> c' -> z ∉ take (Z.to_nat (cur_n - new_n - 1)) (drop (S (Z.to_nat new_n)) cs) -> t' z = t z).
Proof.
  intros Hv Hr Hco Hdc Hx Hb Hid e Hc Hcln Hn Hl. pose proof (length_entry _ _ Hb Hid) as He. fold e in He.
  destruct (set_first_cluster_spec e 0 He) as (He0 & _); [done|].
  set (b' := if new_size =? 0 then put (buf s) id (set_first_cluster e 0) else buf s).
  assert (length b' = 512%nat) as Hb' by (unfold b'; case_match; [by apply length_put|done]).
  set (s0 := set_buf s b').
  destruct (write_buf_spec s0 t f x dc) as (s1 & E1 & Hr1 & Hc1 & _ & _); [done..|].
  destruct (lookup_lt_is_Some_2 cs (Z.to_nat new_n)) as [c' Hk]; [lia|].
  destruct (follow_spec t (<[dc := b']> f) (Z.to_nat new_n) Hv (first_cluster_addr e) cs (set_buffer_updated x false) s1 c')
    as (s2 & x2 & E2 & Hd2 & Hc2); [done..|].
  destruct (truncate_spec t (<[dc := b']> f) (first_cluster_addr e) cs (Z.to_nat new_n) (Z.to_nat (cur_n - new_n - 1))
              (if new_size =? 0 then 0 else CLUSTER_EOC) x2 s2 c') as (s3 & t' & E3 & Hr3 & ?);
    [done..|lia|by rewrite Hd2|done|by case_match|].
  exists s3, t', c'. split; [|done]. unfold shorten. rewrite bind_gets. fold e.
  assert ((if new_size =? 0 then put_entry id (set_first_cluster e 0) else mret tt) s = Ok (Some tt, s0)) as E0.
  { unfold s0, b'. case_match; [by apply put_entry_spec|]. by destruct s. }
  rewrite (bind_ok _ _ _ _ _ E0), (bind_ok _ _ _ _ _ E1), (bind_ok _ _ _ _ _ E2). exact E3.
Qed.

(** The last steps of [lengthen]: link the new clusters behind [z], then the end mark. *)
Lemma link_spec t f z new x s :
  vol_ok -> NoDup (z :: new) -> Forall cl (z :: new) -> repr (dev s) t f -> coh s x ->
  exists s' t',
    ('(cluster, x) ← extend_chain new z x; x ← change_active_cluster cluster x DriveBuf;
     _ ← set_table_entry x CLUSTER_EOC; mret tt) s = Ok (Some tt, s') /\ repr (dev s') t' f /\
    chain t' z (z :: new) /\ clean t' (z :: new) /\ (forall y, y ∉ z :: new -> t' y = t y).
Proof.
  intros Hv Hnd Hcl Hr Hco.
  destruct (extend_chain_spec f Hv new t z x s) as (s1 & x1 & t1 & E1 & Hr1 & Hc1 & Hl1 & Ht1); [done..|].
  assert (default z (last new) ∈ z :: new) as Hin.
  { destruct (last new) as [y|] eqn:E; [|set_solver]. apply last_Some_elem_of in E. set_solver. }
  assert (cl (default z (last new))) as Hlast.
  { apply list_elem_of_lookup_1 in Hin as [i Hi]. by eapply Forall_lookup_1. }
  destruct (set_at_spec s1 t1 f x1 (default z (last new)) CLUSTER_EOC) as (s2 & x2 & E2 & _ & _ & s3 & E3 & Hr3 & _); [done..|].
  exists s3, (<[default z (last new) := CLUSTER_EOC]> t1).
  rewrite (bind_ok _ _ _ _ _ E1), (bind_ok _ _ _ _ _ E2), (bind_ok _ _ _ _ _ E3). split; [done|]. split; [done|].
  destruct (linked_chain (<[default z (last new) := CLUSTER_EOC]> t1) new Hv z) as [Hch Hcn]; [|done|apply fn_lookup_insert|].
  { eapply linked_ext; [done| |done]. intros y _ Hne. by apply fn_lookup_insert_ne. }
  split; [done|]. split; [done|]. intros y Hy. rewrite fn_lookup_insert_ne by (by intros <-). by apply Ht1.
Qed.

Lemma chain_graft t t' c cs k z new : chain t c cs -> cs !! k = Some z -> chain t' z (z :: new) ->
  (forall y, y ∈ take k cs -> t' y = t y) -> chain t' c (take k cs ++ z :: new).
Proof.
  intros Hc. revert k. induction Hc as [c Hcl Hge|c cs Hcl Hlt Hc IH]; intros [|k] Hk Hz Ht; simplify_eq/=; try done.
  apply chain_cons; rewrite ?Ht by set_solver; [done|done|]. apply IH; [done|done|]. intros y Hy. apply Ht. set_solver.
Qed.

Lemma take_last {A} (l : list A) n z : l !! n = Some z -> take (S n) l = take n l ++ [z].
Proof. intros. by apply take_S_r. Qed.

Lemma elem_of_take {A} (l : list A) n y : y ∈ take n l -> y ∈ l.
Proof.
  intros [i Hi]%list_elem_of_lookup_1. apply lookup_take_Some in Hi as [Hi _]. by eapply list_elem_of_lookup_2.
Qed.

(** The clusters that are added: valid, unused, different. *)
Definition new_clusters (t : Z -> Z) (n : Z) : list Z := take (Z.to_nat n) (free_clusters t).

Lemma new_clusters_ok t n :
  NoDup (new_clusters t n) /\ Forall cl (new_clusters t n) /\ (forall y, y ∈ new_clusters t n -> t y = 0).
Proof.
  assert (forall y, y ∈ new_clusters t n -> cl y /\ t y = 0) as Hnew.
  { intros y Hy%elem_of_take. by apply free_clusters_elem. }
  split; [eapply sublist_NoDup; [|apply sublist_take]; apply free_clusters_NoDup|].
  split; [apply Forall_forall|]; intros; by apply Hnew.
Qed.

Lemma new_not_used t n c cs y : vol_ok -> chain t c cs -> y ∈ new_clusters t n -> y ∉ cs.
Proof. intros Hv Hc Hy Hin. by eapply (chain_nonzero t c cs y), new_clusters_ok. Qed.

Lemma length_new_clusters t n : 0 <= n <= Z.of_nat (length (free_clusters t)) ->
  length (new_clusters t n) = Z.to_nat n.
Proof. intros. unfold new_clusters. rewrite length_take. lia. Qed.

Lemma cl_u32 c : vol_ok -> cl c -> is_u32 c.
Proof.
  intros Hv Hc. destruct (cl_sectors _ Hv Hc) as (_ & _ & _ & _ & _ & _ & ?). unfold CLUSTER_MIN_EOC, is_u32 in *. lia.
Qed.

(** The first steps of [lengthen]: the clusters are found and the entry is written. *)
Lemma lengthen_start t f dc id x s cur_n new_n n0 new' :
  vol_ok -> repr (dev s) t f -> coh s x -> cl dc -> active_sector x = dsec dc -> length (buf s) = 512%nat ->
  0 <= id < 16 -> cur_n < new_n -> new_n - cur_n <= Z.of_nat (length (free_clusters t)) ->
  new_clusters t (new_n - cur_n) = n0 :: new' ->
  let e := entry (buf s) id in
  let e' := if cur_n =? 0 then set_first_cluster e n0 else e in
  let b' := if cur_n =? 0 then put (buf s) id e' else buf s in
  let x' := set_buffer_updated x false in
  exists s1, repr (dev s1) t (<[dc := b']> f) /\ coh s1 x' /\
    lengthen id x cur_n new_n s =
    ('(cluster, x) ← follow (Z.to_nat (cur_n - 1)) (first_cluster_addr e') x';
     '(cluster, x) ← extend_chain (if cur_n =? 0 then new' else n0 :: new') cluster x;
     x ← change_active_cluster cluster x DriveBuf; _ ← set_table_entry x CLUSTER_EOC; mret tt) s1.
Proof.
  intros Hv Hr Hco Hdc Hx Hb Hid Hn Hfree Enew e e' b' x'. pose proof (length_entry _ _ Hb Hid) as He. fold e in He.
  assert (is_u32 n0) as Hn0.
  { apply cl_u32; [done|]. destruct (new_clusters_ok t (new_n - cur_n)) as (_ & Hcl & _). rewrite Enew in Hcl. by inversion Hcl. }
  destruct (set_first_cluster_spec e n0 He Hn0) as (He0 & _).
  assert (length b' = 512%nat /\ entry b' id = e') as [Hb' Hent].
  { unfold b', e'. destruct (cur_n =? 0); [|done]. split; [by apply length_put|by apply entry_put]. }
  destruct (write_buf_spec (set_buf s b') t f x dc) as (s1 & E1 & Hr1 & Hc1 & Hb1 & _); [done..|].
  exists s1. split; [done|]. split; [done|]. unfold lengthen.
  rewrite (bind_ok _ _ _ _ _ (get_free_clusters_spec t f (new_n - cur_n) s Hv Hr ltac:(lia))).
  fold (new_clusters t (new_n - cur_n)). rewrite Enew, bind_gets. fold e.
  assert ((if cur_n =? 0 then put_entry id (set_first_cluster e (nth 0 (n0 :: new') 0)) else mret tt) s
          = Ok (Some tt, set_buf s b')) as E0.
  { unfold b', e'. destruct (cur_n =? 0); [by apply put_entry_spec|]. by destruct s. }
  rewrite (bind_ok _ _ _ _ _ E0), (bind_ok _ _ _ _ _ E1), bind_gets, Hb1. simpl buf. rewrite Hent. done.
Qed.

Lemma lengthen_spec t f dc id x s cs cur_n new_n :
  vol_ok -> repr (dev s) t f -> coh s x -> cl dc -> active_sector x = dsec dc -> length (buf s) = 512%nat ->
  0 <= id < 16 -> let e := entry (buf s) id in
  cur_n = 0 \/ chain t (first_cluster_addr e) cs /\ clean t cs -> 0 <= cur_n < new_n -> cur_n <= Z.of_nat (length cs) ->
  new_n - cur_n <= Z.of_nat (length (free_clusters t)) ->
  let new := new_clusters t (new_n - cur_n) in
  let e' := if cur_n =? 0 then set_first_cluster e (nth 0 new 0) else e in
  exists s' t', lengthen id x cur_n new_n s = Ok (Some tt, s') /\
    repr (dev s') t' (<[dc := if cur_n =? 0 then put (buf s) id e' else buf s]> f) /\
    chain t' (first_cluster_addr e') (take (Z.to_nat cur_n) cs ++ new) /\
    clean t' (take (Z.to_nat cur_n) cs ++ new) /\
    (forall z, z ∉ take (Z.to_nat cur_n) cs ++ new -> t' z = t z).
Proof.
  intros Hv Hr Hco Hdc Hx Hb Hid e Hc Hn Hl Hfree new e'.
  pose proof (length_new_clusters t (new_n - cur_n) ltac:(lia)) as Hln. fold new in Hln.
  destruct (new_clusters_ok t (new_n - cur_n)) as (Hnd & Hcln & _). fold new in Hnd, Hcln.
  pose proof (fun c cs y => new_not_used t (new_n - cur_n) c cs y Hv) as Hunused. fold new in Hunused.
  destruct new as [|n0 new'] eqn:Enew; [simpl in Hln; lia|]. cbn [nth] in *.
  destruct (lengthen_start t f dc id x s cur_n new_n n0 new') as (s1 & Hr1 & Hc1 & ->); [done..|lia|done|done|].
  fold e. fold e'. destruct (Z.eqb_spec cur_n 0) as [->|Hne].
  - simpl follow. rewrite bind_ret. subst e'.
    destruct (set_first_cluster_spec e n0) as (_ & _ & -> & _);
      [by apply length_entry|apply cl_u32; [done|by inversion Hcln]|].
    destruct (link_spec t (<[dc := put (buf s) id (set_first_cluster e n0)]> f) n0 new' (set_buffer_updated x false) s1) as (s2 & t' & E2 & Hr2 & ?); [done..|].
    exists s2, t'. done.
  - destruct Hc as [?|[Hc Hcl]]; [done|].
    destruct (lookup_lt_is_Some_2 cs (Z.to_nat (cur_n - 1))) as [z Hz]; [lia|].
    destruct (follow_spec t (<[dc := buf s]> f) (Z.to_nat (cur_n - 1)) Hv (first_cluster_addr e) cs (set_buffer_updated x false) s1 z)
      as (s2 & x2 & E2 & Hd2 & Hc2); [done..|].
    subst e'. rewrite (bind_ok _ _ _ _ _ E2).
    assert (z ∈ cs) as Hzin by (by eapply list_elem_of_lookup_2).
    destruct (link_spec t (<[dc := buf s]> f) z (n0 :: new') x2 s2) as (s3 & t' & E3 & Hr3 & Hch & Hcl3 & Ht'); [done| | |by rewrite Hd2|done|].
    { constructor; [|done]. intros Hin. by eapply Hunused. }
    { constructor; [by eapply chain_lookup_cl|done]. }
    exists s3, t'. replace (Z.to_nat cur_n) with (S (Z.to_nat (cur_n - 1))) by lia.
    rewrite (take_last _ _ _ Hz), <- app_assoc. simpl app.
    assert (forall y, y ∈ take (Z.to_nat (cur_n - 1)) cs -> t' y = t y) as Hpre.
    { intros y Hy. apply Ht'. intros [->|Hin]%elem_of_cons; [|by eapply Hunused, elem_of_take].
      apply chain_NoDup in Hc. rewrite <- (take_drop_middle _ _ _ Hz) in Hc. apply NoDup_app in Hc as (_ & Hc & _).
      eapply Hc; [done|set_solver]. }
    split; [done|]. split; [done|]. split; [by eapply chain_graft|]. split.
    + intros y [Hy|Hy]%elem_of_app; [|by apply Hcl3]. rewrite Hpre by done. by eapply Hcl, elem_of_take.
    + intros y Hy. apply Ht'. set_solver.
Qed.

Lemma put_entry_twice l id e e' : length l = 512%nat -> length e = 32%nat -> length e' = 32%nat -> 0 <= id < 16 ->
  put (put l id e) id e' = put l id e'.
Proof.
  intros Hl He He' Hi. apply list_eq. intros i. unfold put.
  rewrite !lookup_patch by (rewrite ?length_patch; lia). rewrite He, He'. by case_decide.
Qed.

Lemma num_sectors_0 n : 0 <= n <= 4294966784 -> 0 <= num_sectors n /\ (num_sectors n = 0 <-> n = 0).
Proof.
  intros Hn. destruct (num_sectors_eq n Hn) as [E ?]. rewrite E in *.
  assert (0 <= (n + 511) / 512) by (apply Z.div_pos; lia). split; [done|]. split; [lia|]. by intros ->.
Qed.

(** The file after its entry and its chain have changed. *)
Lemma is_file_update t t' f parent dcs name dc id size cs e' size' cs' :
  is_file t f parent dcs name dc id size cs -> length (f dc) = 512%nat -> 0 <= id < 16 ->
  (forall z, z ∈ dcs -> t' z = t z) -> length e' = 32%nat -> same_head e' (entry (f dc) id) ->
  file_size e' = size' -> 0 <= size' <= 4294966784 ->
  (if decide (size' = 0) then cs' = [] else chain t' (first_cluster_addr e') cs') -> clean t' cs' ->
  num_sectors size' <= Z.of_nat (length cs') -> (forall z, z ∈ cs' -> z ∉ dcs) ->
  is_file t' (<[dc := put (f dc) id e']> f) parent dcs name dc id size' cs'.
Proof.
  intros Hf Hl Hid Ht He Hh Hsz Hsmall Hch Hcln Hlen Hdisj. destruct Hf as [Hdir Hfind _ _ _ _ _ Hnm _].
  assert (entry ((<[dc := put (f dc) id e']> f) dc) id = e') as Ee by (rewrite fn_lookup_insert; by apply entry_put).
  split; try done.
  - by eapply chain_ext.
  - apply find_entry_put; [done|]. apply find_entry_scan in Hfind. by apply scan_put.
  - by rewrite Ee.
  - by rewrite Ee.
Qed.

Lemma before_not_after {A} (l : list A) k y z n : NoDup l -> l !! k = Some z -> y ∈ take k l ->
  y <> z /\ y ∉ take n (drop (S k) l).
Proof.
  intros Hnd Hk Hy. rewrite <- (take_drop_middle _ _ _ Hk) in Hnd. apply NoDup_app in Hnd as (_ & Hnd & _).
  specialize (Hnd y Hy). apply not_elem_of_cons in Hnd as [? Hd]. split; [done|]. by intros ?%elem_of_take.
Qed.

(** The clusters of a file after [resize]: when it shrinks to a size that is not zero, one more than it needs. *)
Definition resized (t : Z -> Z) (cs : list Z) (cur_n new_n : Z) : list Z :=
  if new_n =? 0 then []
  else if new_n <? cur_n then take (S (Z.to_nat new_n)) cs
  else if cur_n <? new_n then take (Z.to_nat cur_n) cs ++ new_clusters t (new_n - cur_n)
  else cs.

Lemma resized_elem t cs cur_n new_n z : z ∈ resized t cs cur_n new_n -> z ∈ cs \/ z ∈ new_clusters t (new_n - cur_n).
Proof.
  unfold resized. repeat case_match; rewrite ?elem_of_nil, ?elem_of_app; try done; eauto using elem_of_take.
  intros [?|?]; eauto using elem_of_take.
Qed.

Lemma chain_truncate t t' c cs k c' n : chain t c cs -> cs !! k = Some c' -> clean t cs -> t' c' = CLUSTER_EOC ->
  (forall z, z <> c' -> z ∉ take n (drop (S k) cs) -> t' z = t z) ->
  chain t' c (take (S k) cs) /\ clean t' (take (S k) cs).
Proof.
  intros Hc Hk Hcln Ht' Hrest. rewrite (take_last _ _ _ Hk).
  assert (forall y, y ∈ take k cs -> t' y = t y) as Hpre.
  { intros y Hy. destruct (before_not_after cs k y c' n (chain_NoDup _ _ _ Hc) Hk Hy). by apply Hrest. }
  split.
  - eapply chain_graft; [done|done| |done]. apply chain_last; [by eapply chain_lookup_cl|]. by rewrite Ht'.
  - intros y [Hy|Hy]%elem_of_app; [|apply list_elem_of_singleton in Hy as ->].
    + rewrite Hpre by done. by eapply Hcln, elem_of_take.
    + by rewrite Ht'.
Qed.

Lemma put_same l id : length l = 512%nat -> 0 <= id < 16 -> put l id (entry l id) = l.
Proof.
  intros Hl Hi. pose proof (length_entry _ _ Hl Hi) as He. apply list_eq. intros i. unfold put.
  rewrite lookup_patch by lia. case_decide; [|done]. unfold entry, slice.
  rewrite lookup_take_lt, lookup_drop by lia. f_equal. lia.
Qed.

Lemma resize_chain_spec t f dc id x s cs size new_size :
  vol_ok -> repr (dev s) t f -> coh s x -> cl dc -> active_sector x = dsec dc -> length (buf s) = 512%nat ->
  0 <= id < 16 -> 0 <= size <= 4294966784 -> 0 <= new_size <= 4294966784 ->
  let e := entry (buf s) id in
  let cur_n := num_sectors size in let new_n := num_sectors new_size in
  (if decide (size = 0) then cs = [] else chain t (first_cluster_addr e) cs) -> clean t cs ->
  cur_n <= Z.of_nat (length cs) -> new_n - cur_n <= Z.of_nat (length (free_clusters t)) ->
  let cs' := resized t cs cur_n new_n in
  exists s' t' e', resize_chain id x cur_n new_n new_size s = Ok (Some tt, s') /\
    repr (dev s') t' (<[dc := put (buf s) id e']> f) /\ length e' = 32%nat /\ same_head e' e /\ file_size e' = file_size e /\
    (if decide (new_size = 0) then cs' = [] else chain t' (first_cluster_addr e') cs') /\ clean t' cs' /\
    (forall z, z ∉ cs -> z ∉ cs' -> t' z = t z) /\ (forall z, z ∈ take (Z.to_nat cur_n) cs -> z ∉ cs' -> t' z = 0).
Proof.
  intros Hv Hr Hco Hdc Hx Hb Hid Hs Hns e cur_n new_n Hch Hcln Hl Hfree cs'.
  destruct (num_sectors_0 _ Hs) as [Hc0 Hcz]. destruct (num_sectors_0 _ Hns) as [Hn0 Hnz]. fold cur_n in Hc0, Hcz. fold new_n in Hn0, Hnz.
  pose proof (length_entry _ _ Hb Hid) as He. fold e in He.
  pose proof (put_same _ _ Hb Hid) as Hput. fold e in Hput.
  unfold resize_chain. subst cs'. unfold resized.
  destruct (Z.ltb_spec new_n cur_n); [|destruct (Z.ltb_spec cur_n new_n)].
  - rewrite decide_False in Hch by lia.
    destruct (shorten_spec t f dc id x s cs cur_n new_n new_size) as (s' & t' & c' & E & Hk & Hr' & Hc' & Hz' & Ht'); try done; try lia.
    exists s', t', (if new_size =? 0 then set_first_cluster e 0 else e). split; [done|].
    assert (forall z, z ∉ cs -> t' z = t z) as Hframe.
    { intros z Hz. apply Ht'; [|intros Hin%elem_of_take; apply Hz].
      - intros ->. by eapply Hz, list_elem_of_lookup_2.
      - apply list_elem_of_lookup_1 in Hin as [i Hi]. rewrite lookup_drop in Hi. by eapply list_elem_of_lookup_2. }
    assert (forall z, z ∈ take (Z.to_nat cur_n) cs -> z ∉ take (S (Z.to_nat new_n)) cs -> t' z = 0) as Hgone.
    { intros z [i Hi]%list_elem_of_lookup_1 Hnin. apply lookup_take_Some in Hi as [Hi Hilt]. apply Hz'.
      destruct (decide (i < S (Z.to_nat new_n))%nat) as [Hlt|]; [exfalso; apply Hnin; apply list_elem_of_lookup_2 with i; by rewrite lookup_take_lt|].
      apply list_elem_of_lookup_2 with (i - S (Z.to_nat new_n))%nat. rewrite lookup_take_lt, lookup_drop by lia. by replace (S (Z.to_nat new_n) + (i - S (Z.to_nat new_n)))%nat with i by lia. }
    destruct (Z.eqb_spec new_size 0) as [->|Hz].
    + rewrite (proj2 (Z.eqb_eq new_n 0)) by lia. destruct (set_first_cluster_spec e 0 He) as (? & ? & _ & ?); [done|].
      split; [done|]. split_and!; try done; [|by auto|]; [intros y Hy; set_solver|].
      intros z Hz1 _. destruct (decide (z = c')) as [->|Hne]; [done|]. apply Hgone; [done|]. replace (Z.to_nat new_n) with 0%nat in * by lia.
      destruct cs as [|c0 cs]; [done|]. simpl in Hk. injection Hk as ->. simpl. by intros ?%list_elem_of_singleton.
    + rewrite (proj2 (Z.eqb_neq new_n 0)), Hput, decide_False by lia.
      destruct (chain_truncate _ _ _ _ _ _ _ Hch Hk Hcln Hc' Ht'). split_and!; try done. auto.
  - destruct (lengthen_spec t f dc id x s cs cur_n new_n) as (s' & t' & E & Hr' & Hc' & Hcl' & Ht'); try done.
    { case_decide; [by left; apply Hcz|by right]. }
    exists s', t', (if cur_n =? 0 then set_first_cluster e (nth 0 (new_clusters t (new_n - cur_n)) 0) else e).
    rewrite (proj2 (Z.eqb_neq new_n 0)), decide_False by lia. fold e in Hr', Hc'. split; [done|].
    destruct (set_first_cluster_spec e (nth 0 (new_clusters t (new_n - cur_n)) 0) He) as (? & ? & _ & ?).
    { pose proof (length_new_clusters t (new_n - cur_n) ltac:(lia)) as Hln.
      destruct (new_clusters_ok t (new_n - cur_n)) as (_ & Hcl & _).
      destruct (new_clusters t (new_n - cur_n)) as [|n0 l]; [simpl in Hln; lia|]. apply cl_u32; [done|by inversion Hcl]. }
    split; [by destruct (cur_n =? 0); rewrite ?Hput|]. do 3 (split; [by destruct (cur_n =? 0)|]).
    split; [done|]. split; [done|]. split; [intros z Hz Hz'; by apply Ht'|]. intros z Hz Hn. exfalso. apply Hn, elem_of_app. by left.
  - assert (new_n = cur_n) as En by lia. destruct (write_buf_spec s t f x dc) as (s' & E & Hr' & _); [done..|].
    exists s', t, e. rewrite (bind_ok _ _ _ _ _ E), Hput. split; [done|]. split; [done|]. split; [done|]. split; [done|].
    split; [done|]. rewrite En. destruct (Z.eqb_spec cur_n 0).
    + rewrite decide_True by lia. split; [done|]. split; [intros y Hy; set_solver|]. split; [done|]. intros z Hz. replace (Z.to_nat cur_n) with 0%nat in Hz by lia. by apply elem_of_nil in Hz.
    + rewrite decide_False in Hch by lia. rewrite decide_False by lia. split_and!; [done..|]. intros z Hz Hn. exfalso. by eapply Hn, elem_of_take.
Qed.

Lemma find_entry_range f name cs c id : find_entry f name cs = Some (c, id) -> 0 <= id < 16.
Proof. intros Hs%find_entry_scan%scan_range. lia. Qed.

Lemma is_dir_cl t parent dcs c : is_dir t parent dcs -> c ∈ dcs -> cl c.
Proof. intros Hd [i Hi]%list_elem_of_lookup_1. by eapply chain_lookup_cl. Qed.

Lemma resize_spec t f parent dcs name dc id size cs d fuel new_size s :
  vol_ok -> repr (dev s) t f -> is_file t f parent dcs name dc id size cs ->
  d_parent d = Some parent -> d_name d = name -> i_size (d_inode d) = size ->
  0 <= new_size <= 4294966784 -> (length dcs <= fuel)%nat ->
  num_sectors new_size - num_sectors size <= Z.of_nat (length (free_clusters t)) ->
  let cs' := resized t cs (num_sectors size) (num_sectors new_size) in
  exists s' t' f', resize fuel d new_size s = Ok (Some (set_i_size d new_size), s') /\ repr (dev s') t' f' /\
    is_file t' f' parent dcs name dc id new_size cs' /\
    (forall z, z ∉ cs -> z ∉ cs' -> t' z = t z) /\ (forall z, z <> dc -> f' z = f z) /\
    (forall z, z ∈ take (Z.to_nat (num_sectors size)) cs -> z ∉ cs' -> t' z = 0).
Proof.
  intros Hv Hr Hf Hp Hn Hi Hns Hfuel Hfree cs'. pose proof Hf as [Hdir Hfind Hsz Hch Hcln Hlen Hdisj Hnm Hsmall].
  pose proof (find_entry_range _ _ _ _ _ Hfind) as Hid. pose proof (find_entry_elem _ _ _ _ _ Hfind) as Hdc.
  pose proof (is_dir_cl _ _ _ _ Hdir Hdc) as Hcl. pose proof (repr_data_length _ _ _ _ Hr Hcl) as Hfl.
  pose proof (length_entry _ _ Hfl Hid) as He.
  pose proof (get_child_spec t f name parent dcs fuel s Hv Hr Hdir Hnm Hfuel) as Hget. rewrite Hfind in Hget.
  destruct Hget as (s1 & x1 & E1 & Hd1 & _ & Hco1 & Hb1 & _ & Hs1 & _).
  destruct (set_file_size_spec (entry (f dc) id) new_size He) as (Hel & Heh & Hes & Hec); [unfold is_u32; lia|].
  set (e1 := set_file_size (entry (f dc) id) new_size) in *.
  set (s2 := set_buf s1 (put (f dc) id e1)).
  assert (length (buf s2) = 512%nat) as Hb2 by (by apply length_put).
  assert (entry (buf s2) id = e1) as Ee by (by apply entry_put).
  destruct (resize_chain_spec t f dc id x1 s2 cs size new_size) as (s3 & t' & e' & E3 & Hr3 & Hle' & Hh' & Hfs' & Hch' & Hcln' & Ht' & Hz');
    try done; [by rewrite <- Hd1 in Hr|by rewrite Ee, Hec|].
  fold cs' in Hch', Hcln', Ht'. rewrite Ee in Hh', Hfs'.
  assert (put (buf s2) id e' = put (f dc) id e') as Epp by (by apply put_entry_twice). rewrite Epp in Hr3.
  assert (forall z, z ∈ cs' -> z ∉ dcs) as Hdisj'.
  { intros z [Hz|Hz]%resized_elem; [by apply Hdisj|by eapply new_not_used]. }
  exists s3, t', (<[dc := put (f dc) id e']> f). split; [|split; [done|split]].
  - unfold resize, lift. rewrite Hp. unfold deref. rewrite (bind_ok _ _ _ parent s) by done.
    rewrite Hn, (bind_ok _ _ _ _ _ E1), bind_gets, Hb1, Hi. fold e1.
    rewrite (bind_ok _ _ _ tt s2) by (rewrite put_entry_spec, Hb1; done || by rewrite Hb1).
    by rewrite (bind_ok _ _ _ _ _ E3).
  - eapply is_file_update; try done; [|by unfold same_head in *; congruence|congruence|].
    + intros z Hz. apply Ht'; intros Hin; [by eapply Hdisj|by eapply Hdisj'].
    + destruct (num_sectors_0 _ Hsmall) as [Hc0 Hcz]. destruct (num_sectors_0 _ Hns) as [Hn0 Hnz].
      unfold cs', resized. destruct (Z.eqb_spec (num_sectors new_size) 0); [simpl; lia|].
      destruct (Z.ltb_spec (num_sectors new_size) (num_sectors size)); [rewrite length_take; lia|].
      destruct (Z.ltb_spec (num_sectors size) (num_sectors new_size)); [|lia].
      rewrite length_app, length_take, length_new_clusters; lia.
  - split; [done|]. split; [|done]. intros z Hz. by apply fn_lookup_insert_ne.
Qed.

(** ** Writing *)

Lemma write_loop_done fuel data next x s : write_loop fuel data (Z.of_nat (length data)) next x s = Ok (Some tt, s).
Proof. destruct fuel; simpl; by rewrite Z.ltb_irrefl. Qed.

(** One round: a whole sector from the data, or the rest of the data over the start of the old sector. *)
Definition sector_after (data : list Z) (wrote : Z) (old : list Z) : list Z :=
  let x := take 512 (drop (Z.to_nat wrote) data) in x ++ drop (length x) old.

Lemma write_round fuel data wrote c x s t f :
  vol_ok -> repr (dev s) t f -> coh s x -> cl c -> active_cluster x <> c -> 0 <= wrote < Z.of_nat (length data) ->
  exists s' x' n, n = Z.min 512 (Z.of_nat (length data) - wrote) /\
    write_loop (S fuel) data wrote c x s = write_loop fuel data (wrote + n) (mask (t c)) x' s' /\
    repr (dev s') t (<[c := sector_after data wrote (f c)]> f) /\ coh s' x' /\ active_cluster x' = c.
Proof.
  intros Hv Hr Hco Hcl Hne Hw. pose proof (repr_data_length _ _ _ _ Hr Hcl) as Hfc.
  destruct (cl_sectors _ Hv Hcl) as (_ & _ & _ & _ & _ & _ & Hlim). cbn [write_loop].
  rewrite (proj2 (Z.ltb_lt wrote _)), (proj2 (Z.ltb_lt c CLUSTER_MIN_EOC)) by lia. cbn [andb]. unfold ATA_SECTOR_SIZE.
  destruct (cac_spec s t f x c DriveBuf) as (s1 & x1 & E & Hd & Hco1 & (Ha1 & _ & _ & Ht1 & _) & Hfill); [done..|].
  destruct Hfill as (Hb & _ & Hs & Hu); [right; by left|]. rewrite (bind_ok _ _ _ _ _ E), Hs.
  rewrite <- Hd in Hr. destruct (Z.leb_spec 512 (Z.of_nat (length data) - wrote)).
  - assert (length (slice data wrote 512) = 512%nat) as Hsl by (unfold slice; rewrite length_take, length_drop; lia).
    destruct (write_disk_spec s1 t f x1 c (slice data wrote 512)) as (s2 & E2 & Hr2 & Hc2 & _); [done..|].
    exists s2, (set_buffer_updated x1 true), 512. split; [lia|]. unfold write_bytes.
    assert (sector_after data wrote (f c) = slice data wrote 512) as ->.
    { unfold sector_after. change (take 512 (drop (Z.to_nat wrote) data)) with (slice data wrote 512).
      rewrite Hsl, drop_ge, app_nil_r by lia. done. }
    split; [|done]. unfold mbind at 1, M_bind at 1. rewrite (bind_ok _ _ _ _ _ E2). cbn [mret M_ret].
    rewrite (proj2 (Z.ltb_ge _ _)) by lia. cbn [table_value set_buffer_updated]. by rewrite Ht1.
  - set (rem := Z.of_nat (length data) - wrote) in *.
    assert (take 512 (drop (Z.to_nat wrote) data) = slice data wrote rem) as Es.
    { unfold slice. rewrite !take_ge by (rewrite length_drop; lia). done. }
    assert (length (slice data wrote rem) = Z.to_nat rem) as Hsl by (unfold slice; rewrite length_take, length_drop; lia).
    assert (patch (f c) 0 (slice data wrote rem) = sector_after data wrote (f c)) as Ep.
    { unfold sector_after. rewrite Es. done. }
    set (s2 := set_buf s1 (sector_after data wrote (f c))).
    assert (length (buf s2) = 512%nat) as Hb2 by (simpl; rewrite <- Ep, length_patch; lia).
    destruct (write_buf_spec s2 t f x1 c) as (s3 & E3 & Hr3 & Hc3 & _); [done..|].
    exists s3, (set_buffer_updated x1 false), rem. split; [lia|].
    split; [|done]. unfold mbind at 1, M_bind at 1. rewrite bind_gets, Hb, bind_patch by lia. rewrite bind_modify, Ep.
    rewrite Hs in E3. fold s2. rewrite E3. rewrite (proj2 (Z.ltb_lt _ _)) by lia.
    cbn [table_value set_buffer_updated]. by rewrite Ht1.
Qed.

Lemma take_sector_after data wrote old rest :
  length old = 512%nat -> 0 <= wrote ->
  let n := Z.to_nat (Z.of_nat (length data) - wrote) in
  (n <= 512)%nat -> take n (sector_after data wrote old ++ rest) = drop (Z.to_nat wrote) data.
Proof.
  intros Ho Hw n Hn. unfold sector_after. assert (take 512 (drop (Z.to_nat wrote) data) = drop (Z.to_nat wrote) data) as ->.
  { apply take_ge. rewrite length_drop. lia. }
  rewrite <- app_assoc. apply take_app_length'. rewrite length_drop. lia.
Qed.

Lemma sector_after_full data wrote old : length old = 512%nat -> 0 <= wrote -> 512 <= Z.of_nat (length data) - wrote ->
  sector_after data wrote old = take 512 (drop (Z.to_nat wrote) data) /\ length (sector_after data wrote old) = 512%nat.
Proof.
  intros Ho Hw Hl. unfold sector_after. assert (length (take 512 (drop (Z.to_nat wrote) data)) = 512%nat) as E.
  { rewrite length_take, length_drop. lia. }
  rewrite E, (drop_ge old), app_nil_r by lia. done.
Qed.

Lemma write_loop_spec t data : vol_ok -> forall cs fuel wrote c x s f,
  chain t c cs -> repr (dev s) t f -> coh s x -> active_cluster x ∉ cs -> (length cs <= fuel)%nat ->
  0 <= wrote < Z.of_nat (length data) -> Z.of_nat (length data) - wrote <= 512 * Z.of_nat (length cs) ->
  exists s' f', write_loop fuel data wrote c x s = Ok (Some tt, s') /\ repr (dev s') t f' /\
    (forall z, z ∉ cs -> f' z = f z) /\
    take (Z.to_nat (Z.of_nat (length data) - wrote)) (bytes_of f' cs) = drop (Z.to_nat wrote) data.
Proof.
  intros Hv. induction cs as [|c' cs IH]; intros fuel wrote c x s f Hc Hr Hco Ha Hf Hw Hl; [by inversion Hc|].
  destruct fuel as [|fuel]; [simpl in Hf; lia|]. pose proof (chain_NoDup _ _ _ Hc) as Hnd%NoDup_cons_1_1.
  assert (cl c) as Hcl by (by inversion Hc). assert (c' = c) as -> by (by inversion Hc).
  pose proof (repr_data_length _ _ _ _ Hr Hcl) as Hfc.
  destruct (write_round fuel data wrote c x s t f) as (s1 & x1 & n & -> & -> & Hr1 & Hco1 & Ha1);
    [done..|by apply not_elem_of_cons in Ha as [? _]|done|].
  set (f1 := <[c := sector_after data wrote (f c)]> f) in *.
  destruct (decide (Z.of_nat (length data) - wrote <= 512)).
  - rewrite Z.min_r by lia. replace (wrote + _) with (Z.of_nat (length data)) by lia. rewrite write_loop_done.
    exists s1, f1. split; [done|]. split; [done|]. split; [intros z Hz; apply fn_lookup_insert_ne; set_solver|].
    rewrite bytes_of_cons. unfold f1 at 1. rewrite fn_lookup_insert. apply take_sector_after; [done|lia|lia].
  - rewrite Z.min_l by lia. destruct cs as [|c1 cs]; [simpl in Hl; lia|].
    destruct (IH fuel (wrote + 512) (mask (t c)) x1 s1 f1) as (s2 & f2 & E2 & Hr2 & Hf2 & Hb2);
      [by eapply chain_tail|done|done|by rewrite Ha1|simpl in *; lia|lia|simpl in *; lia|].
    exists s2, f2. split; [done|]. split; [done|]. split.
    + intros z [Hz Hz']%not_elem_of_cons. rewrite Hf2 by done. by apply fn_lookup_insert_ne.
    + rewrite bytes_of_cons, Hf2 by done. unfold f1 at 1. rewrite fn_lookup_insert.
      destruct (sector_after_full data wrote (f c)) as [Es Hs]; [done|lia|lia|].
      rewrite take_app_ge by lia. rewrite Hs.
      replace (Z.to_nat (Z.of_nat (length data) - wrote) - 512)%nat with (Z.to_nat (Z.of_nat (length data) - (wrote + 512))) by lia.
      rewrite Hb2, Es. replace (Z.to_nat (wrote + 512)) with (Z.to_nat wrote + 512)%nat by lia.
      rewrite <- drop_drop. apply take_drop.
Qed.

Lemma is_file_data t f f' parent dcs name dc id size cs :
  is_file t f parent dcs name dc id size cs -> (forall z, z ∈ dcs -> f' z = f z) ->
  is_file t f' parent dcs name dc id size cs.
Proof.
  intros [Hdir Hfind Hsz Hch Hcln Hlen Hdisj Hnm Hsmall] Hf. pose proof (find_entry_elem _ _ _ _ _ Hfind) as Hdc.
  split; rewrite ?Hf by done; try done. rewrite <- Hfind. clear -Hf.
  induction dcs as [|c l IH]; [done|]. simpl. rewrite Hf by set_solver. case_match; [done|]. apply IH. set_solver.
Qed.

(** What a write to the file with clusters [cs] and entry in [dc] leaves alone: every other chain and its bytes. *)
Definition others_kept (t t' : Z -> Z) (f f' : Z -> list Z) (dc : Z) (cs : list Z) : Prop :=
  forall c2 cs2, chain t c2 cs2 -> (forall z, z ∈ cs2 -> z ∉ cs) ->
    chain t' c2 cs2 /\ (dc ∉ cs2 -> bytes_of f' cs2 = bytes_of f cs2).

Lemma bytes_of_ext f f' cs : (forall z, z ∈ cs -> f' z = f z) -> bytes_of f' cs = bytes_of f cs.
Proof. intros E. unfold bytes_of. f_equal. apply list_fmap_ext. intros i z Hi. by eapply E, list_elem_of_lookup_2. Qed.

Lemma others_kept_intro t t' f f' dc cs cur_n new_n :
  vol_ok -> let cs' := resized t cs cur_n new_n in
  (forall z, z ∉ cs -> z ∉ cs' -> t' z = t z) -> (forall z, z <> dc -> z ∉ cs' -> f' z = f z) ->
  others_kept t t' f f' dc cs.
Proof.
  intros Hv cs' Ht Hf c2 cs2 Hc Hd.
  assert (forall z, z ∈ cs2 -> z ∉ cs') as Hd'.
  { intros z Hz [Hin|Hin]%resized_elem; [by eapply Hd|by eapply new_not_used]. }
  split; [eapply chain_ext; [done|]; intros z Hz; apply Ht; auto|].
  intros Hdc. apply bytes_of_ext. intros z Hz. apply Hf; [by intros ->|auto].
Qed.

(** The part of [write_buf_to_file] after the resize. *)
Lemma write_data_spec t f parent dcs name dc id cs fuel data s :
  vol_ok -> repr (dev s) t f -> is_file t f parent dcs name dc id (Z.of_nat (length data)) cs -> data <> [] ->
  (length dcs <= fuel)%nat -> (length cs <= fuel)%nat ->
  exists s' f', ('(id, x) ← get_child_dir_entry_id fuel parent name ctx0; b ← gets buf;
                 write_loop fuel data 0 (first_cluster_addr (entry b id)) x) s = Ok (Some tt, s') /\
    repr (dev s') t f' /\ (forall z, z ∉ cs -> f' z = f z) /\ take (length data) (bytes_of f' cs) = data.
Proof.
  intros Hv Hr [Hdir Hfind Hsz Hch Hcln Hlen Hdisj Hnm Hsmall] Hne Hfd Hfc.
  assert (0 < length data)%nat as Hpos by (destruct data; [done|simpl; lia]).
  pose proof (num_sectors_eq _ Hsmall) as [_ Hns]. rewrite decide_False in Hch by lia.
  pose proof (get_child_spec t f name parent dcs fuel s Hv Hr Hdir Hnm Hfd) as Hget. rewrite Hfind in Hget.
  destruct Hget as (s1 & x1 & E1 & Hd1 & _ & Hco1 & Hb1 & Ha1 & _ & _). rewrite <- Hd1 in Hr.
  destruct (write_loop_spec t data Hv cs fuel 0 (first_cluster_addr (entry (f dc) id)) x1 s1 f) as (s2 & f' & E2 & Hr2 & Hf2 & Hb2);
    [done..| |done|lia|lia|].
  { rewrite Ha1. intros Hin%Hdisj. by apply find_entry_elem in Hfind. }
  exists s2, f'. rewrite (bind_ok _ _ _ _ _ E1), bind_gets, Hb1, E2. split; [done|]. split; [done|]. split; [done|].
  rewrite Z.sub_0_r, Nat2Z.id in Hb2. done.
Qed.

Lemma write_file_spec t f parent dcs name dc id size cs d fuel data s :
  let len := Z.of_nat (length data) in
  let cs' := resized t cs (num_sectors size) (num_sectors len) in
  vol_ok -> repr (dev s) t f -> is_file t f parent dcs name dc id size cs ->
  d_parent d = Some parent -> d_name d = name -> i_size (d_inode d) = size -> i_type (d_inode d) = IFile ->
  len <= 4294966784 -> num_sectors len - num_sectors size <= Z.of_nat (length (free_clusters t)) ->
  (length dcs <= fuel)%nat -> (length cs' <= fuel)%nat ->
  exists s' t' f', write_buf_to_file fuel d data s = Ok (Some (set_i_size d len), s') /\ repr (dev s') t' f' /\
    is_file t' f' parent dcs name dc id len cs' /\ take (length data) (bytes_of f' cs') = data /\
    others_kept t t' f f' dc cs.
Proof.
  intros len cs' Hv Hr Hf Hp Hn Hi Hty Hlen Hfree Hfd Hfc.
  assert (exists s1 t1 f1, (if i_size (d_inode d) =? len then mret d else resize fuel d len) s = Ok (Some (set_i_size d len), s1) /\
    repr (dev s1) t1 f1 /\ is_file t1 f1 parent dcs name dc id len cs' /\
    (forall z, z ∉ cs -> z ∉ cs' -> t1 z = t z) /\ (forall z, z <> dc -> f1 z = f z)) as (s1 & t1 & f1 & E1 & Hr1 & Hf1 & Ht1 & Hd1).
  { destruct (Z.eqb_spec (i_size (d_inode d)) len) as [E|E]; 
      [|destruct (resize_spec t f parent dcs name dc id size cs d fuel len s) as (s' & t' & f' & H1 & H2 & H3 & H4 & H5 & _); try done; try lia; by exists s', t', f'].
    exists s, t, f. rewrite Hi in E. split; [|split; [done|split; [|done]]].
    - assert (set_i_size d len = d) as -> by (destruct d as [[] ? ?]; simpl in *; congruence). done.
    - rewrite <- E. unfold cs', resized. rewrite E, Z.ltb_irrefl. destruct (Z.eqb_spec (num_sectors len) 0) as [Hz|]; [|by rewrite <- E].
      assert (cs = []) as <-; [|by rewrite <- E]. pose proof (file_chain _ _ _ _ _ _ _ _ _ Hf) as Hch.
      rewrite decide_True in Hch; [done|]. rewrite E. apply num_sectors_0; [lia|done]. }
  assert (parent_ok : d_parent (set_i_size d len) = Some parent) by (by destruct d).
  assert (name_ok : d_name (set_i_size d len) = name) by (by destruct d).
  unfold write_buf_to_file. fold len. rewrite decide_False by (intros Hx; by apply Hx). rewrite (bind_ok _ _ _ _ _ E1).
  destruct (Z.eqb_spec len 0) as [Hz|Hz].
  - exists s1, t1, f1. split; [done|]. split; [done|]. split; [done|].
    assert (data = []) as -> by (destruct data; [done|simpl in *; lia]). split; [done|].
    eapply others_kept_intro; [done|exact Ht1|]. auto.
  - destruct (write_data_spec t1 f1 parent dcs name dc id cs' fuel data s1) as (s2 & f2 & E2 & Hr2 & Hf2 & Hb2); [done..| |done|done|].
    { by intros ->. }
    exists s2, t1, f2. split.
    + rewrite parent_ok, name_ok. unfold lift, deref. rewrite (bind_ok _ _ _ parent s1) by done.
      revert E2. unfold mbind, M_bind. destruct (get_child_dir_entry_id _ _ _ _ _) as [[[[id' x']|] s3]| | |]; try done.
      simpl. intros ->. done.
    + split; [done|]. split; [|split; [done|]].
      * eapply is_file_data; [done|]. intros z Hzz. apply Hf2. intros Hin. by eapply file_disjoint.
      * eapply others_kept_intro; [done|exact Ht1|]. intros z Hzz Hzz'. rewrite Hf2 by done. by apply Hd1.
Qed.

(** ** Creating files and directories *)

Lemma slot_loop_spec t f stop : vol_ok -> forall cs fuel c x s lc,
  chain t c cs -> repr (dev s) t f -> coh s x -> active_cluster x ∉ cs -> (length cs <= fuel)%nat -> last cs = Some lc ->
  exists s' x', slot_loop fuel stop c x s = Ok (Some x', s') /\ looked_up f lc s x' s' /\
    dir_entry_id x' = free_slot 16 (f lc) stop 0.
Proof.
  intros Hv. induction cs as [|c' cs IH]; intros fuel c x s lc Hc Hr Hco Ha Hf Hlast; [by inversion Hc|].
  destruct fuel as [|fuel]; [simpl in Hf; lia|]. pose proof (chain_NoDup _ _ _ Hc) as Hnd%NoDup_cons_1_1.
  assert (cl c) as Hcl by (by inversion Hc). assert (c' = c) as -> by (by inversion Hc).
  apply not_elem_of_cons in Ha as [Ha _].
  destruct (cac_spec s t f x c DriveBuf) as (s1 & x1 & E & Hd & Hco1 & (Ha1 & _ & _ & Ht1 & _) & Hfill); [done..|].
  destruct Hfill as (Hb & Hm & Hs & Hu); [right; by left|].
  cbn [slot_loop]. rewrite (bind_ok _ _ _ _ _ E), bind_gets, Hb. cbn [table_value set_dir_entry_id]. rewrite Ht1.
  set (x2 := set_dir_entry_id x1 (free_slot 16 (f c) stop 0)).
  inversion Hc as [? _ Hge|? ? _ Hlt Hc']; subst.
  - rewrite (proj2 (Z.ltb_ge _ _)) by done. simpl in Hlast. simplify_eq. exists s1, x2.
    split; [done|]. split; [|done]. unfold looked_up. by split_and!.
  - rewrite (proj2 (Z.ltb_lt _ _)) by done. destruct cs as [|c1 cs]; [by inversion Hc'|].
    specialize (IH fuel (mask (t (active_cluster x1))) x2 s1 lc Hc'). unfold looked_up in *. rewrite Hd, Hm in IH.
    apply IH; [done|done|done|simpl in Hf |- *; lia|done].
Qed.

Lemma free_slot_range k l stop : forall i, i <= free_slot k l stop i <= i + Z.of_nat k.
Proof. induction k as [|k IH]; intros i; simpl; [lia|]. case_match; [lia|]. specialize (IH (i + 1)). lia. Qed.

(** A new entry in the first free place is found, if the name was not there before. *)
Lemma scan_new k l name stop e :
  length l = 512%nat -> length e = 32%nat -> is_free e = false -> is_LFN e = false -> get_name e = name ->
  forall i fnd whole, 0 <= i -> i + Z.of_nat k <= 16 -> scan k l name i fnd whole = None ->
  let j := free_slot k l stop i in j < i + Z.of_nat k -> scan k (put l j e) name i fnd whole = Some j.
Proof.
  intros Hl He Hfree Hlfn Hn. induction k as [|k IH]; intros i fnd whole Hi Hk Hs j Hj; [simpl in *; lia|].
  subst j. pose proof (free_slot_range (S k) l stop i) as Hr. cbn [free_slot] in *.
  destruct (is_free (entry l i) || stop (entry l i)) eqn:Est.
  - cbn [scan]. rewrite entry_put by (done || lia). rewrite Hfree, Hlfn, Hn. destruct fnd; [done|].
    by rewrite bool_decide_true.
  - apply orb_false_iff in Est as [Ef _]. cbn [scan] in *. rewrite Ef in Hs.
    pose proof (free_slot_range k l stop (i + 1)) as Hr1.
    rewrite entry_put_ne by (done || lia). rewrite Ef. destruct fnd; [done|].
    destruct (bool_decide _ && negb _); [done|]. apply IH; [lia..|done|lia].
Qed.

Lemma find_entry_new f name cs lc l j :
  find_entry f name cs = None -> last cs = Some lc -> NoDup cs -> scan_sector l name = Some j ->
  find_entry (<[lc := l]> f) name cs = Some (lc, j).
Proof.
  intros Hf Hlast Hnd Hl. induction cs as [|c cs IH]; [done|]. simpl in *.
  destruct (scan_sector (f c) name) eqn:E; [done|]. destruct (decide (c = lc)) as [->|Hne].
  - by rewrite fn_lookup_insert, Hl.
  - rewrite fn_lookup_insert_ne, E by done. destruct cs as [|c1 cs]; [simpl in Hlast; congruence|].
    apply IH; [done|done|by eapply NoDup_cons_1_2].
Qed.

Lemma last_elem {A} (l : list A) x : last l = Some x -> x ∈ l.
Proof. apply last_Some_elem_of. Qed.

(** The free place of a directory: its last cluster, and the entry there. *)
Definition has_room (t : Z -> Z) (f : Z -> list Z) (parent : Dentry) (dcs : list Z) (lc j : Z) (stop : dir_entry -> bool) : Prop :=
  is_dir t parent dcs /\ last dcs = Some lc /\ j = free_slot 16 (f lc) stop 0 /\ j < 16.

(** [touch] and [mkdir] up to the writing of the new entry [e]. *)
Lemma new_entry_spec t f parent dcs lc j stop e fuel s :
  vol_ok -> repr (dev s) t f -> has_room t f parent dcs lc j stop -> (length dcs <= fuel)%nat -> length e = 32%nat ->
  exists s1 x1, slot_loop fuel stop (dentry_cluster parent) ctx0 s = Ok (Some x1, s1) /\ dev s1 = dev s /\
    directory_full x1 = false /\ active_cluster x1 = lc /\
    exists s2, put_entry (dir_entry_id x1) e s1 = Ok (Some tt, s2) /\
    exists s3, write_buf x1 (active_sector x1) s2 = Ok (Some (set_buffer_updated x1 false), s3) /\
      repr (dev s3) t (<[lc := put (f lc) j e]> f) /\ coh s3 (set_buffer_updated x1 false) /\ mem s3 = mem s.
Proof.
  intros Hv Hr (Hdir & Hlast & Hj & Hlt) Hfuel He.
  destruct (slot_loop_spec t f stop Hv dcs fuel (dentry_cluster parent) ctx0 s lc)
    as (s1 & x1 & E1 & (Hd1 & Hm1 & Hco1 & Hb1 & Ha1 & Hs1 & Hu1) & Hid1); [done|done|apply coh_ctx0|by eapply chain_zero|done|done|].
  pose proof (is_dir_cl _ _ _ _ Hdir (last_elem _ _ Hlast)) as Hcl.
  pose proof (repr_data_length _ _ _ _ Hr Hcl) as Hfl. pose proof (free_slot_range 16 (f lc) stop 0) as Hr0.
  exists s1, x1. split; [done|]. split; [done|]. rewrite <- Hj in *. split.
  { unfold directory_full. destruct Hv as (-> & -> & _). rewrite Hid1. apply Z.eqb_neq. lia. }
  split; [done|]. rewrite Hid1. exists (set_buf s1 (put (f lc) j e)). split.
  { rewrite put_entry_spec by (rewrite ?Hb1; done || lia). by rewrite Hb1. }
  destruct (write_buf_spec (set_buf s1 (put (f lc) j e)) t f x1 lc) as (s3 & E3 & Hr3 & Hc3 & _ & Hm3);
    [done|by rewrite <- Hd1 in Hr|done|done|apply length_put; done || lia|done|].
  exists s3. split; [done|]. split; [done|]. split; [done|]. by rewrite Hm3.
Qed.

(** ** Names of entries *)

(** The characters that keep their meaning in a short name: not zero, not the padding, not a dot, not upper case. *)
Definition plain (b : Z) : bool := negb (b =? 0) && negb (b =? 32) && negb (b =? 46) && negb ((65 <=? b) && (b <=? 90)).

Lemma plain_facts b : plain b = true -> (b =? 0) = false /\ (b =? 32) = false /\ (b =? 46) = false /\ lower b = b.
Proof.
  unfold plain, lower. intros [[[H0 H32]%andb_prop H46]%andb_prop Hu]%andb_prop.
  apply negb_true_iff in H0, H32, H46, Hu. by rewrite Hu.
Qed.

Ltac plain_chars :=
  repeat match goal with
  | H : Forall _ (_ :: _) |- _ => apply Forall_cons_1 in H as [? H]
  | H : plain ?b = true |- _ => destruct (plain_facts b H) as (? & ? & ? & ?); clear H
  end.
Ltac use_chars :=
  unfold NAME_PADDING_BYTE;
  repeat (match goal with H : (_ =? _) = false |- _ => rewrite H | H : lower _ = _ |- _ => rewrite H end; cbn; unfold NAME_PADDING_BYTE).

Lemma length_ext_loop name l i field : length (snd (ext_loop name l i field)) = length field.
Proof.
  revert field. induction i as [|i IH]; intros field; simpl; [done|]. case_match; [done|]. by rewrite IH, length_insert.
Qed.

Lemma ext_loop_dot name l i field k : fst (ext_loop name l i field) = Some k -> (k < i)%nat.
Proof.
  revert field. induction i as [|i IH]; intros field; simpl; [done|]. case_match; [intros; simplify_eq/=; lia|].
  intros Hk%IH. lia.
Qed.

Lemma length_name_field name attr : (length name <= 8)%nat -> length (entry_name_field name attr) = 11%nat.
Proof.
  intros Hn. unfold entry_name_field. case_match; [rewrite length_patch; rewrite ?length_app; simpl; lia|].
  pose proof (length_ext_loop name (Z.of_nat (length name)) (length name) (repeat NAME_PADDING_BYTE 10 ++ [0])) as Hl.
  pose proof (ext_loop_dot name (Z.of_nat (length name)) (length name) (repeat NAME_PADDING_BYTE 10 ++ [0])) as Hd.
  destruct (ext_loop _ _ _ _) as [[k|] field]; simpl in *; [specialize (Hd k eq_refl)|].
  - rewrite length_patch; rewrite ?length_take, ?Hl; lia.
  - rewrite length_patch; simpl; lia.
Qed.

Lemma new_dir_entry_fields name attr cluster size :
  (length name <= 8)%nat -> is_u32 cluster -> is_u32 size ->
  exists e, new_dir_entry name attr cluster size = Ok e /\ length e = 32%nat /\ e_name e = entry_name_field name attr /\
    attrs e = attr /\ first_cluster_addr e = cluster /\ file_size e = size.
Proof.
  intros Hn Hc Hs. unfold new_dir_entry. rewrite (proj2 (Z.ltb_ge _ _)) by lia. eexists. split; [done|].
  pose proof (length_name_field name attr Hn) as Hl. destruct (entry_name_field name attr) as [|b0 l]; [done|].
  do 10 (destruct l as [|? l]; [done|]). destruct l; [|done]. unfold is_u32 in *.
  split; [done|]. split; [done|]. split; [done|]. split.
  - unfold first_cluster_addr, rd16, byte. simpl. change 0xFFFF with (Z.ones 16).
    rewrite Z.shiftr_div_pow2, !Z.land_ones by lia. change (2 ^ 16) with 65536. rewrite lor_halves; Z.div_mod_to_equations; lia.
  - unfold file_size, rd32, rd16, byte. simpl. Z.div_mod_to_equations; lia.
Qed.

Ltac eval_indices :=
  repeat match goal with |- context [Z.to_nat ?x] => let r := eval vm_compute in (Z.to_nat x) in change (Z.to_nat x) with r end.
Ltac name_bytes :=
  plain_chars; unfold entry_name_field, truthy, patch, byte, NAME_PADDING_BYTE, DIRECTORY;
  change (Z.land 0 16) with 0; cbn; use_chars; eval_indices; cbn; use_chars; try done; by split.

(** A name without extension comes back as it was. *)
Lemma get_name_plain e base :
  e_name e = entry_name_field base 0 -> attrs e = 0 -> Forall (fun b => plain b = true) base ->
  (0 < length base <= 8)%nat -> get_name e = base /\ is_free e = false.
Proof.
  intros He Ha Hp Hl. unfold is_free. rewrite <- (byte_take e 11 0) by lia. fold (e_name e). unfold get_name, is_directory.
  rewrite Ha, He. clear He Ha. destruct base as [|? base]; [simpl in *; lia|].
  do 7 (destruct base as [|? base]; [name_bytes|]). destruct base; [name_bytes|simpl in *; lia].
Qed.

(** So does a name with an extension of three characters. *)
Lemma get_name_ext e base ext :
  e_name e = entry_name_field (base ++ 46 :: ext) 0 -> attrs e = 0 ->
  Forall (fun b => plain b = true) base -> Forall (fun b => plain b = true) ext ->
  length ext = 3%nat -> (length base <= 4)%nat -> get_name e = base ++ 46 :: ext /\ is_free e = false.
Proof.
  intros He Ha Hp Hq Hx Hl. unfold is_free. rewrite <- (byte_take e 11 0) by lia. fold (e_name e). unfold get_name, is_directory.
  rewrite Ha, He. clear He Ha. do 3 (destruct ext as [|? ext]; [done|]). destruct ext; [|done].
  do 4 (destruct base as [|? base]; [name_bytes|]).
  destruct base; [name_bytes|simpl in *; lia].
Qed.

(** A shorter extension is put at the end of the field, where it is not read back. *)
Lemma get_name_short_ext e base ext :
  e_name e = entry_name_field (base ++ 46 :: ext) 0 -> attrs e = 0 ->
  Forall (fun b => plain b = true) base -> Forall (fun b => plain b = true) ext ->
  (0 < length ext <= 2)%nat -> (length base <= 5)%nat -> get_name e = base.
Proof.
  intros He Ha Hp Hq Hx Hl. unfold get_name, is_directory. rewrite Ha, He. clear He Ha.
  destruct ext as [|a [|a' [|? ?]]]; simpl in Hx; try lia;
    (do 5 (destruct base as [|? base]; [name_bytes|]);
     destruct base; [name_bytes|simpl in *; lia]).
Qed.

(** The names that a short entry can hold: up to eight characters, or an extension of three. *)
Definition good_name (name : list Z) : Prop :=
  (Forall (fun b => plain b = true) name /\ (0 < length name <= 8)%nat) \/
  exists base ext, name = base ++ 46 :: ext /\ Forall (fun b => plain b = true) base /\
    Forall (fun b => plain b = true) ext /\ length ext = 3%nat /\ (length base <= 4)%nat.

Lemma good_name_length name : good_name name -> (0 < length name <= 8)%nat.
Proof. intros [[_ ?]|(base & ext & -> & _ & _ & Hx & Hb)]; [done|]. rewrite length_app. simpl. lia. Qed.

Lemma good_name_entry name e : good_name name -> e_name e = entry_name_field name 0 -> attrs e = 0 ->
  get_name e = name /\ is_free e = false /\ is_LFN e = false.
Proof.
  intros Hg He Ha. assert (is_LFN e = false) as Hlfn by (unfold is_LFN; by rewrite Ha).
  cut (get_name e = name /\ is_free e = false); [tauto|].
  destruct Hg as [[Hp Hl]|(base & ext & -> & Hp & Hq & Hx & Hb)]; [by apply get_name_plain|by apply get_name_ext].
Qed.

Lemma touch_spec t f parent dcs lc j name fuel s :
  vol_ok -> repr (dev s) t f -> byte name 0 <> 47 -> (length name <= 8)%nat ->
  has_room t f parent dcs lc j (fun e => bool_decide (get_name e = name)) -> (length dcs <= fuel)%nat ->
  exists s' e, touch fuel parent name s = Ok (Some (mkDentry (mkInode 0 0 IFile 0 0) (Some parent) name), s') /\
    new_dir_entry name 0 0 0 = Ok e /\ repr (dev s') t (<[lc := put (f lc) j e]> f).
Proof.
  intros Hv Hr Hn Hl Hroom Hfuel.
  destruct (new_dir_entry_fields name 0 0 0) as (e & Ee & He & _ & Ha & Hc & Hs); [done|done|done|].
  destruct (new_entry_spec t f parent dcs lc j _ e fuel s Hv Hr Hroom Hfuel He)
    as (s1 & x1 & E1 & _ & Hfull & _ & s2 & E2 & s3 & E3 & Hr3 & _).
  exists s3, e. split; [|done]. unfold touch. rewrite (proj2 (Z.eqb_neq _ _) Hn), (bind_ok _ _ _ _ _ E1), Hfull, Ee.
  unfold lift at 1. rewrite (bind_ok _ _ _ e s1) by done. rewrite (bind_ok _ _ _ _ _ E2), (bind_ok _ _ _ _ _ E3).
  unfold dir_entry_to_dentry. rewrite Ha, Hs, Hc. done.
Qed.

(** The sectors of the given clusters are full sectors. *)
Definition repr_lengths (f : Z -> list Z) (cs : list Z) : Prop := forall c, c ∈ cs -> length (f c) = 512%nat.

(** A file that was not there is an empty file after [touch]. *)
Lemma touched_file t f parent dcs lc j name e :
  vol_ok -> repr_lengths f dcs -> has_room t f parent dcs lc j (fun e => bool_decide (get_name e = name)) ->
  good_name name -> byte name 0 <> 47 -> find_entry f name dcs = None -> new_dir_entry name 0 0 0 = Ok e ->
  is_file t (<[lc := put (f lc) j e]> f) parent dcs name lc j 0 [].
Proof.
  intros Hv Hlen (Hdir & Hlast & -> & Hlt) Hg Hn Hnone Ee. pose proof (good_name_length _ Hg) as Hl.
  destruct (new_dir_entry_fields name 0 0 0) as (e' & Ee' & He & Hname & Ha & Hc & Hs); [lia|done|done|].
  destruct (good_name_entry name e' Hg Hname Ha) as (Hgn & Hfr & Hlf). assert (e' = e) as -> by congruence.
  pose proof (free_slot_range 16 (f lc) (fun e => bool_decide (get_name e = name)) 0) as Hr0.
  pose proof (Hlen lc (last_elem _ _ Hlast)) as Hfl.
  assert (scan_sector (f lc) name = None) as Hsc.
  { clear -Hnone Hlast. induction dcs as [|c cs IH]; [done|]. simpl in *. destruct (scan_sector (f c) name) eqn:E; [done|].
    destruct cs as [|c1 cs]; [simpl in Hlast; congruence|]. by apply IH. }
  set (j := free_slot 16 (f lc) (fun e => bool_decide (get_name e = name)) 0) in *.
  assert (entry (put (f lc) j e) j = e) as Een by (apply entry_put; done || lia).
  split; rewrite ?fn_lookup_insert, ?Een; try done.
  - apply find_entry_new; [done|done|by eapply chain_NoDup|].
    refine (scan_new 16 (f lc) name (fun e => bool_decide (get_name e = name)) e Hfl He Hfr Hlf Hgn 0 false [] _ _ Hsc _); lia.
  - intros z Hz. set_solver.
  - intros z Hz. set_solver.
Qed.

Lemma dentry_cluster_eq i p n : vol_ok -> is_u32 (lba i) -> dentry_cluster (mkDentry i p n) = lba i.
Proof. intros (Hs & _) Hu. unfold dentry_cluster. simpl. rewrite Hs, Z.mul_1_r. by apply u32_id. Qed.

Lemma count_one t f c fuel s : vol_ok -> repr (dev s) t f -> cl c -> CLUSTER_MIN_EOC <= mask (t c) ->
  exists s', count_loop (S fuel) c ctx0 0 s = Ok (Some 1, s') /\ dev s' = dev s.
Proof.
  intros Hv Hr Hc He. destruct (cac_spec s t f ctx0 c NoBuffer) as (s1 & x1 & E & Hd & _ & (_ & _ & _ & Ht & _) & _);
    [done|done|apply coh_ctx0|done|done|].
  exists s1. cbn [count_loop]. rewrite (bind_ok _ _ _ _ _ E), Ht, (proj2 (Z.ltb_ge _ _)) by done. done.
Qed.

(** The second half of [mkdir]: the content cluster is marked used and gets its first two entries. *)
Lemma mkdir_content t f c x s dot dot_dot :
  vol_ok -> repr (dev s) t f -> coh s x -> cl c -> active_cluster x <> c -> length dot = 32%nat -> length dot_dot = 32%nat ->
  exists s1 x1, change_active_cluster c x DriveBuf s = Ok (Some x1, s1) /\ active_sector x1 = dsec c /\
  exists s2, set_table_entry x1 CLUSTER_EOC s1 = Ok (Some (set_table_value x1 CLUSTER_EOC), s2) /\
  read_sector (dev s2) (dsec c) = Some (f c) /\
  let s3 := set_buf s2 (put (put (f c) 0 dot) 1 dot_dot) in
  (_ ← put_entry 0 dot; put_entry 1 dot_dot) (set_buf s2 (f c)) = Ok (Some tt, s3) /\
  exists s4 x4, write_buf x1 (dsec c) s3 = Ok (Some x4, s4) /\
    repr (dev s4) (<[c := CLUSTER_EOC]> t) (<[c := put (put (f c) 0 dot) 1 dot_dot]> f).
Proof.
  intros Hv Hr Hco Hcl Ha Hdot Hdd. pose proof (repr_data_length _ _ _ _ Hr Hcl) as Hfl.
  destruct (cac_spec s t f x c DriveBuf) as (s1 & x1 & E1 & Hd & Hco1 & Hat & Hfill); [done..|].
  destruct Hfill as (_ & _ & Hs & _); [right; by left|]. exists s1, x1. split; [done|]. split; [done|].
  destruct (set_table_entry_spec s1 t f x1 c CLUSTER_EOC) as (s2 & E2 & Hr2 & Hc2 & _); [done|by rewrite Hd|done..|].
  exists s2. split; [done|]. split; [by apply Hr2|]. intros s3.
  assert (length (put (f c) 0 dot) = 512%nat) as Hp by (by apply length_put). split.
  { rewrite (bind_ok _ _ _ tt (set_buf s2 (put (f c) 0 dot))) by (by apply put_entry_spec). by rewrite put_entry_spec. }
  destruct (write_buf_spec s3 (<[c := CLUSTER_EOC]> t) f x1 c) as (s4 & E4 & Hr4 & _); [done|done|exact Hc2|done|by apply length_put|done|].
  rewrite Hs in E4. eauto.
Qed.

Lemma mkdir_spec t f parent dcs lc j name c free fuel s :
  vol_ok -> repr (dev s) t f -> (length name <= 8)%nat -> has_room t f parent dcs lc j (fun _ => false) ->
  (length dcs <= fuel)%nat -> free_clusters t = c :: free ->
  exists s' e dot dot_dot,
    mkdir fuel parent name s = Ok (Some (mkDentry (mkInode 0 c IDir c 1) (Some parent) name), s') /\
    new_dir_entry name DIRECTORY c 0 = Ok e /\ new_dir_entry [46] DIRECTORY c 0 = Ok dot /\
    new_dir_entry [46; 46] DIRECTORY (dentry_cluster parent) 0 = Ok dot_dot /\
    repr (dev s') (<[c := CLUSTER_EOC]> t) (<[c := put (put (f c) 0 dot) 1 dot_dot]> (<[lc := put (f lc) j e]> f)).
Proof.
  intros Hv Hr Hl Hroom Hfuel Hfree. pose proof Hroom as (Hdir & Hlast & _).
  assert (c ∈ free_clusters t) as Hcf by (rewrite Hfree; set_solver). apply free_clusters_elem in Hcf as [Hcl Hc0].
  pose proof (cl_u32 _ Hv Hcl) as Hcu.
  assert (lc <> c) as Hne by (intros ->; eapply (chain_nonzero t _ dcs c); eauto using last_elem).
  assert (is_u32 (dentry_cluster parent)) as Hpu by apply u32_range.
  destruct (new_dir_entry_fields name DIRECTORY c 0) as (e & Ee & He & _ & Ha & Hfc & Hs); [done|done|done|].
  destruct (new_dir_entry_fields [46] DIRECTORY c 0) as (dot & Edot & Hdot & _); [simpl; lia|done|done|].
  destruct (new_dir_entry_fields [46; 46] DIRECTORY (dentry_cluster parent) 0) as (dd & Edd & Hdd & _); [simpl; lia|done|done|].
  destruct (new_entry_spec t f parent dcs lc j _ e fuel s Hv Hr Hroom Hfuel He)
    as (s1 & x1 & E1 & Hd1 & Hfull & Ha1 & s2 & E2 & s3 & E3 & Hr3 & Hc3 & _).
  destruct (mkdir_content t (<[lc := put (f lc) j e]> f) c (set_buffer_updated x1 false) s3 dot dd)
    as (s4 & x4 & E4 & Hs4 & s5 & E5 & Hrd & E6 & s7 & x7 & E7 & Hr7); [done|done|done|done|by simpl; rewrite Ha1|done|done|].
  rewrite fn_lookup_insert_ne in Hrd by done. rewrite fn_lookup_insert_ne in E6 by done. rewrite fn_lookup_insert_ne in E7 by done. rewrite fn_lookup_insert_ne in Hr7 by done.
  destruct fuel as [|fuel]; [by destruct dcs|].
  destruct (count_one _ _ c fuel s7 Hv Hr7 Hcl) as (s8 & E8 & Hd8); [by rewrite fn_lookup_insert|].
  exists s8, e, dot, dd. rewrite Hd8. split; [|done]. unfold mkdir. rewrite (proj2 (Z.leb_gt _ _)) by lia.
  rewrite (bind_ok _ _ _ _ _ E1), Hfull. rewrite <- Hd1 in Hr.
  rewrite (bind_ok _ _ _ _ _ (get_free_clusters_spec t f 1 s1 Hv Hr ltac:(rewrite Hfree; simpl; lia))), Hfree.
  change (nth 0 (take (Z.to_nat 1) (c :: free)) 0) with c. cbv zeta. rewrite Ee, Edot, Edd.
  rewrite (bind_ok (lift (Ok e)) _ _ e s1) by done.
  rewrite (bind_ok _ _ _ _ _ E2), (bind_ok _ _ _ _ _ E3), (bind_ok _ _ _ _ _ E4), (bind_ok _ _ _ _ _ E5), Hs4.
  rewrite (bind_read _ _ _ _ Hrd), bind_modify.
  rewrite (bind_ok (lift (Ok dot)) _ _ dot (set_buf s5 (f c))), (bind_ok (lift (Ok dd)) _ _ dd (set_buf s5 (f c))) by done.
  destruct (put_entry 0 dot (set_buf s5 (f c))) as [[[[]|] s6]| | |] eqn:E60; unfold mbind at 1, M_bind at 1 in E6;
    rewrite E60 in E6; try done.
  rewrite (bind_ok _ _ _ _ _ E60), (bind_ok _ _ _ _ _ E6), (bind_ok _ _ _ _ _ E7).
  unfold dir_entry_to_dentry. rewrite Ha, Hs, Hfc. change (truthy (Z.land DIRECTORY DIRECTORY)) with true. cbv iota zeta.
  rewrite decide_False by done. pose proof Hv as (-> & _). rewrite Z.mul_1_r, (u32_id c) by done.
  by rewrite (bind_ok _ _ _ _ _ E8).
Qed.

Lemma directory_name n e : n = [46] \/ n = [46; 46] -> e_name e = entry_name_field n DIRECTORY -> attrs e = DIRECTORY ->
  get_name e = n /\ is_free e = false /\ is_LFN e = false.
Proof.
  intros Hn He Ha. unfold is_free, is_LFN, get_name, is_directory. rewrite <- (byte_take e 11 0) by lia. fold (e_name e).
  rewrite Ha, He. by destruct Hn as [-> | ->].
Qed.

Lemma scan_step k l name i whole : is_free (entry l i) = false -> is_LFN (entry l i) = false ->
  scan (S k) l name i false whole
  = if bool_decide (get_name (entry l i) = name) then Some i else scan k l name (i + 1) false [].
Proof. intros Hf Hl. cbn [scan]. rewrite Hf, Hl, andb_true_r. by rewrite andb_false_r. Qed.

(** ** Theorems *)

(** Claim C21: reading [len] bytes at [offset] of a file returns exactly those bytes of its clusters, whether the
    range starts inside of a sector or spans many; the disk is not changed. *)
Theorem load_file_ok t f parent dcs name dc id size cs offset len fuel s :
  vol_ok -> repr (dev s) t f -> is_file t f parent dcs name dc id size cs ->
  0 <= offset -> 0 < len -> offset + len <= size -> Z.of_nat (length (mem s)) = len ->
  (length dcs <= fuel)%nat -> (length cs <= fuel)%nat ->
  exists s', load_file_to_buf fuel name parent offset len s = Ok (Some len, s') /\ dev s' = dev s /\
    mem s' = slice (bytes_of f cs) offset len.
Proof. apply load_file_spec. Qed.

Lemma slice_take l n o k : 0 <= o -> 0 <= k -> o + k <= Z.of_nat n -> slice (take n l) o k = slice l o k.
Proof.
  intros. unfold slice. apply list_eq. intros i. destruct (decide (i < Z.to_nat k)%nat).
  - rewrite !lookup_take_lt, !lookup_drop, lookup_take_lt by lia. done.
  - rewrite !lookup_take_ge by lia. done.
Qed.

(** Claim C7: what [write_buf_to_file] writes is what [load_file_to_buf] reads afterwards, for every new length the free
    clusters allow, shorter or longer than the old one; all other chains of the volume and their bytes stay as they were. *)
Theorem write_then_load t f parent dcs name dc id size cs d fuel data s :
  let len := Z.of_nat (length data) in
  let cs' := resized t cs (num_sectors size) (num_sectors len) in
  vol_ok -> repr (dev s) t f -> is_file t f parent dcs name dc id size cs ->
  d_parent d = Some parent -> d_name d = name -> i_size (d_inode d) = size -> i_type (d_inode d) = IFile ->
  len <= 4294966784 -> num_sectors len - num_sectors size <= Z.of_nat (length (free_clusters t)) ->
  (length dcs <= fuel)%nat -> (length cs' <= fuel)%nat ->
  exists s1 t' f', write_buf_to_file fuel d data s = Ok (Some (set_i_size d len), s1) /\ repr (dev s1) t' f' /\
    others_kept t t' f f' dc cs /\
    forall offset n m, 0 <= offset -> 0 < n -> offset + n <= len -> Z.of_nat (length m) = n ->
      exists s2, load_file_to_buf fuel name parent offset n (set_mem s1 m) = Ok (Some n, s2) /\
        dev s2 = dev s1 /\ mem s2 = slice data offset n.
Proof.
  intros len cs' Hv Hr Hf Hp Hn Hi Hty Hlen Hfree Hfd Hfc.
  destruct (write_file_spec t f parent dcs name dc id size cs d fuel data s Hv Hr Hf Hp Hn Hi Hty Hlen Hfree Hfd Hfc)
    as (s1 & t' & f' & E & Hr1 & Hf1 & Hb & Hk).
  exists s1, t', f'. split; [done|]. split; [done|]. split; [done|]. intros offset n m Ho Hn0 Hle Hm.
  destruct (load_file_spec t' f' parent dcs name dc id len cs' offset n fuel (set_mem s1 m)) as (s2 & E2 & Hd2 & Hm2); try done.
  exists s2. split; [done|]. split; [done|]. rewrite Hm2, <- Hb. symmetry. apply slice_take; lia.
Qed.


(** Shrinking a file to a size that is not zero leaves its chain one cluster longer than the size needs: the
    cluster behind the last one gets the end mark instead of being freed. *)
Theorem shrink_keeps_cluster t f parent dcs name dc id size cs d fuel new_size s :
  vol_ok -> repr (dev s) t f -> is_file t f parent dcs name dc id size cs ->
  d_parent d = Some parent -> d_name d = name -> i_size (d_inode d) = size ->
  0 < new_size <= size -> num_sectors new_size < num_sectors size -> (length dcs <= fuel)%nat ->
  exists s' t' f' cs', resize fuel d new_size s = Ok (Some (set_i_size d new_size), s') /\ repr (dev s') t' f' /\
    is_file t' f' parent dcs name dc id new_size cs' /\ Z.of_nat (length cs') = num_sectors new_size + 1.
Proof.
  intros Hv Hr Hf Hp Hn Hi Hns Hlt Hfuel. pose proof (file_small _ _ _ _ _ _ _ _ _ Hf) as Hsmall.
  pose proof (file_length _ _ _ _ _ _ _ _ _ Hf) as Hlen. destruct (num_sectors_0 new_size) as [Hn0 Hnz]; [lia|].
  destruct (resize_spec t f parent dcs name dc id size cs d fuel new_size s) as (s' & t' & f' & E & Hr' & Hf' & _); try done; try lia.
  eexists _, _, _, _. split; [exact E|]. split; [done|]. split; [exact Hf'|].
  unfold resized. rewrite (proj2 (Z.eqb_neq _ _)), (proj2 (Z.ltb_lt _ _)), length_take by lia. lia.
Qed.

(** [get_free_clusters] returns the [n] lowest free clusters of the volume, in order, when there are that many,
    and leaves the disk and the buffers alone. *)
Theorem get_free_clusters_ok t f n s :
  vol_ok -> repr (dev s) t f -> 0 < n <= Z.of_nat (length (free_clusters t)) ->
  exists l l', get_free_clusters n s = Ok (Some l, s) /\ Z.of_nat (length l) = n /\ free_clusters t = l ++ l' /\ NoDup l /\
    (forall c, c ∈ free_clusters t <-> cl c /\ t c = 0).
Proof.
  intros Hv Hr Hn. exists (new_clusters t n), (drop (Z.to_nat n) (free_clusters t)).
  split; [by eapply get_free_clusters_spec|]. split; [rewrite length_new_clusters; lia|].
  split; [symmetry; apply take_drop|]. split; [apply new_clusters_ok|]. apply free_clusters_elem.
Qed.

(** After [touch] of a name that is not in the directory, the name designates an empty file, in the first free
    entry of the last cluster of the directory; the table and all other sectors stay as they were. *)
Theorem touch_then_lookup t f parent dcs lc j name fuel s :
  vol_ok -> repr (dev s) t f -> good_name name -> byte name 0 <> 47 -> find_entry f name dcs = None ->
  has_room t f parent dcs lc j (fun e => bool_decide (get_name e = name)) -> (length dcs <= fuel)%nat ->
  exists s' d f', touch fuel parent name s = Ok (Some d, s') /\ d_name d = name /\ i_size (d_inode d) = 0 /\
    repr (dev s') t f' /\ is_file t f' parent dcs name lc j 0 [] /\ (forall z, z <> lc -> f' z = f z).
Proof.
  intros Hv Hr Hg Hn Hnone Hroom Hfuel. pose proof (good_name_length _ Hg) as Hl.
  destruct (touch_spec t f parent dcs lc j name fuel s) as (s' & e & E & Ee & Hr'); [done|done|done|lia|done|done|].
  eexists s', _, _. split; [exact E|]. split; [done|]. split; [done|]. split; [exact Hr'|]. split.
  - apply touched_file; try done. intros c Hc. pose proof Hroom as (Hdir & _).
    eapply repr_data_length; [done|by eapply is_dir_cl].
  - intros z Hz. by apply fn_lookup_insert_ne.
Qed.

(** [mkdir] makes a directory of one cluster, the lowest free one, whose first entries are [.] for itself and
    [..] for the parent, and enters it in the parent; all other chains of the volume stay as they were. *)
Theorem mkdir_ok t f parent dcs lc j name c free fuel s :
  vol_ok -> repr (dev s) t f -> (length name <= 8)%nat -> has_room t f parent dcs lc j (fun _ => false) ->
  (length dcs <= fuel)%nat -> free_clusters t = c :: free ->
  exists s' d t' f', mkdir fuel parent name s = Ok (Some d, s') /\ repr (dev s') t' f' /\
    is_dir t' d [c] /\ find_entry f' [46] [c] = Some (c, 0) /\ find_entry f' [46; 46] [c] = Some (c, 1) /\
    first_cluster_addr (entry (f' c) 0) = c /\ first_cluster_addr (entry (f' c) 1) = dentry_cluster parent /\
    first_cluster_addr (entry (f' lc) j) = c /\ is_directory (entry (f' lc) j) = true /\ others_kept t t' f f' lc [].
Proof.
  intros Hv Hr Hl Hroom Hfuel Hfree. pose proof Hroom as (Hdir & Hlast & -> & Hlt).
  set (j := free_slot 16 (f lc) (fun _ => false) 0) in *. pose proof (free_slot_range 16 (f lc) (fun _ => false) 0 : 0 <= j <= _) as Hj.
  destruct (mkdir_spec t f parent dcs lc j name c free fuel s) as (s' & e & dot & dd & E & Ee & Edot & Edd & Hr'); try done.
  assert (c ∈ free_clusters t) as Hcf by (rewrite Hfree; set_solver). apply free_clusters_elem in Hcf as [Hcl Hc0].
  pose proof (cl_u32 _ Hv Hcl) as Hcu. pose proof (repr_data_length _ _ _ _ Hr Hcl) as Hfc.
  assert (lc <> c) as Hne by (intros ->; eapply (chain_nonzero t _ dcs c); eauto using last_elem).
  pose proof (repr_data_length _ _ _ _ Hr (is_dir_cl _ _ _ _ Hdir (last_elem _ _ Hlast))) as Hfl.
  destruct (new_dir_entry_fields name DIRECTORY c 0) as (e0 & Ee0 & He & _ & Ha & Hefc & _); [done|done|done|].
  destruct (new_dir_entry_fields [46] DIRECTORY c 0) as (dot0 & Edot0 & Hdot & Hdn & Hda & Hdfc & _); [simpl; lia|done|done|].
  destruct (new_dir_entry_fields [46; 46] DIRECTORY (dentry_cluster parent) 0) as (dd0 & Edd0 & Hdd & Hddn & Hdda & Hddfc & _);
    [simpl; lia|apply u32_range|done|].
  assert (e0 = e /\ dot0 = dot /\ dd0 = dd) as (-> & -> & ->) by (split_and!; congruence).
  destruct (directory_name _ dot (or_introl eq_refl) Hdn Hda) as (Hg1 & Hf1 & Hl1).
  destruct (directory_name _ dd (or_intror eq_refl) Hddn Hdda) as (Hg2 & Hf2 & Hl2).
  eexists s', _, _, _. split; [exact E|]. split; [exact Hr'|].
  assert (length (put (f c) 0 dot) = 512%nat) as Hp by (by apply length_put).
  assert (entry (put (put (f c) 0 dot) 1 dd) 0 = dot) as En0 by (by rewrite entry_put_ne, entry_put).
  assert (entry (put (put (f c) 0 dot) 1 dd) 1 = dd) as En1 by (by apply entry_put).
  split_and!.
  - unfold is_dir. rewrite dentry_cluster_eq by done. apply chain_last; [done|]. by rewrite fn_lookup_insert.
  - cbn [find_entry]. rewrite fn_lookup_insert. unfold scan_sector. rewrite scan_step; rewrite En0; [|done|done]. by rewrite Hg1.
  - cbn [find_entry]. rewrite fn_lookup_insert. unfold scan_sector.
    rewrite scan_step; rewrite En0; [|done|done]. rewrite Hg1, bool_decide_false by done. change (0 + 1) with 1.
    rewrite scan_step; rewrite En1; [|done|done]. by rewrite Hg2.
  - by rewrite fn_lookup_insert, En0.
  - by rewrite fn_lookup_insert, En1.
  - rewrite fn_lookup_insert_ne, fn_lookup_insert, entry_put by (done || lia). done.
  - rewrite fn_lookup_insert_ne, fn_lookup_insert, entry_put by (done || lia). unfold is_directory. by rewrite Ha.
  - intros c2 cs2 Hc2 _.
    assert (forall z, z ∈ cs2 -> z <> c) as Hnc by (intros z Hz ->; by eapply (chain_nonzero t c2 cs2 c)).
    split; [eapply chain_ext; [done|]; intros z Hz; apply fn_lookup_insert_ne; intros <-; by eapply Hnc|].
    intros Hlc. apply bytes_of_ext. intros z Hz. rewrite !fn_lookup_insert_ne; [done|by intros ->|intros <-; by eapply Hnc].
Qed.

(** [ls] asks for the dentry of each entry with a context of its own, but the table buffer is shared: after a
    sub-directory whose table entry is in another sector, the next cluster of the listed directory is taken from that
    sector, that is from the entry of an unrelated cluster. *)
Theorem ls_reads_wrong_table t f s x e d c' fuel parent name :
  vol_ok -> repr (dev s) t f -> attrs e = DIRECTORY -> first_cluster_addr e = d -> cl d -> CLUSTER_MIN_EOC <= mask (t d) ->
  FAT_sector x = fsec c' -> cl c' -> te (128 * (d / 128) + c' mod 128) ->
  exists dn s1, dir_entry_to_dentry (S fuel) e parent name s = Ok (Some dn, s1) /\
  exists x' s2, change_active_cluster c' x DriveBuf s1 = Ok (Some x', s2) /\
    table_value x' = mask (t (128 * (d / 128) + c' mod 128)).
Proof.
  intros Hv Hr Ha Hfc Hd He Hx Hc' Hte. destruct (cl_sectors _ Hv Hc') as (_ & E1 & E2 & E3 & E4 & _).
  destruct (te_sectors _ Hv (cl_te _ Hv Hd)) as [Hsd _].
  destruct (cac_spec s t f ctx0 d NoBuffer) as (s1 & x1 & E & Hd1 & Hco & (_ & Hs & _ & Ht & _) & _);
    [done|done|apply coh_ctx0|done|done|].
  destruct Hco as [|[_ Hco]]; [lia|]. rewrite Hs in Hco.
  eexists _, s1. split.
  { unfold dir_entry_to_dentry. rewrite Ha. change (truthy (Z.land DIRECTORY DIRECTORY)) with true. cbv iota zeta.
    rewrite decide_False, Hfc by done. pose proof Hv as (-> & _). rewrite Z.mul_1_r, u32_id by (by apply cl_u32).
    cbn [count_loop]. unfold mbind at 1, M_bind at 1. rewrite (bind_ok _ _ _ _ _ E), Ht, (proj2 (Z.ltb_ge _ _)) by done. done. }
  rewrite <- Hd1 in Hr. destruct (load_cluster_spec s1 t f x c' DriveBuf) as (s2 & x2 & E5 & Hd2 & Hf2 & Hs2 & Ha2 & _); [done..|].
  unfold change_active_cluster. rewrite (bind_ok _ _ _ _ _ E5). unfold load_table, ATA_SECTOR_SIZE. cbv zeta.
  rewrite Ha2, E1, E2, E3, E4, Hs2, Hx, Z.eqb_refl. cbn [negb]. rewrite bind_ret, bind_gets.
  eexists _, s2. split; [done|]. cbn [table_value]. unfold mask. f_equal. rewrite Hf2.
  destruct (repr_fat _ _ _ Hr _ Hte) as (l & Hl & <-). unfold fsec, foff in *.
  pose proof (Z.mod_pos_bound c' 128) as Hb.
  replace ((128 * (d / 128) + c' mod 128) / 128) with (d / 128) in Hl by (rewrite Z.mul_comm, Z.div_add_l, (Z.div_small (c' mod 128)); lia).
  replace ((128 * (d / 128) + c' mod 128) mod 128) with (c' mod 128)
    by (rewrite Z.add_comm, Z.mul_comm, Z.mod_add, (Z.mod_small (c' mod 128)); lia).
  congruence.
Qed.

End driver.

(** An extension of one or two characters is lost: a file created as [base.ext] is listed and found as
    [base]. *)
Theorem short_extension_lost base ext :
  Forall (fun b => plain b = true) base -> Forall (fun b => plain b = true) ext ->
  (0 < length ext <= 2)%nat -> (length base <= 5)%nat ->
  exists e, new_dir_entry (base ++ 46 :: ext) 0 0 0 = Ok e /\ get_name e = base.
Proof.
  intros Hb He Hx Hl. destruct (new_dir_entry_fields (base ++ 46 :: ext) 0 0 0) as (e & Ee & _ & Hn & Ha & _);
    [rewrite length_app; simpl; lia|done|done|].
  exists e. split; [done|]. by eapply get_name_short_ext.
Qed.

Lemma short_extension_lost_witness :
  (0 < length [99])%nat /\ exists e, new_dir_entry ([97] ++ 46 :: [99]) 0 0 0 = Ok e /\ get_name e = [97].
Proof.
  split; [simpl; lia|]. apply (short_extension_lost [97] [99]); [by repeat constructor|by repeat constructor|simpl; lia|simpl; lia].
Defined.

(** ** A small volume

    One table sector; the root directory in cluster 2 with a file [a.txt] of 600 bytes in the clusters 3 and 4. *)
Definition vol0 : volume := mkVolume 1 512 2 64 1 1 2 8.

Definition table0 : list Z :=
  concat (map le32 [0x0FFFFFF8; 0x0FFFFFFF; CLUSTER_EOC; 4; CLUSTER_EOC]) ++ repeat 0 492.

Definition root0 : list Z :=
  match new_dir_entry [97; 46; 116; 120; 116] 0 3 600 with Ok e => e | _ => [] end ++ repeat 0 480.

Definition drive0 : Ata.drive :=
  Ata.mkDrive (Ata.mkDevice 1 0 0 Ata.IDE_ATA 0x200 0 64 [])
    {[ 1 := table0; 2 := root0; 3 := repeat 65 512; 4 := repeat 66 512 ]} (fun _ => 8) (fun _ => 0).

Lemma drive0_ok : Ata.drive_ok drive0.
Proof.
  split; [by left|]. split; [by left|]. split; [split; vm_compute; congruence|]. split; [by left|].
  do 3 (apply map_Forall_insert_2; [done|]). by apply map_Forall_singleton.
Qed.

#[local] Existing Instance Ata.ata_device.
#[local] Existing Instance Ata.ata_laws.

Definition state0 (m : list Z) : @fat Ata.ata_drive := mkFat (drive0 ↾ drive0_ok : Ata.ata_drive) (repeat 0 512) (repeat 0 512) m.
Definition t0 (c : Z) : Z := rd32 table0 (foff c).
Definition f0 (c : Z) : list Z := default (repeat 0 512) (Ata.sectors drive0 !! c).

Lemma vol0_ok : vol_ok vol0.
Proof. unfold vol_ok. simpl. lia. Qed.

Lemma repr0 m : repr vol0 (dev (state0 m)) t0 f0.
Proof.
  split; intros c Hc.
  - exists table0. unfold te in Hc. simpl in Hc. unfold fsec. rewrite Z.div_small by lia. split; [|done].
    by vm_compute.
  - unfold cl in Hc. simpl in Hc.
    assert (c = 2 \/ c = 3 \/ c = 4 \/ c = 5 \/ c = 6 \/ c = 7 \/ c = 8 \/ c = 9) as Hcs by lia.
    destruct Hcs as [->|[->|[->|[->|[->|[->|[->| ->]]]]]]]; by vm_compute.
Qed.

Definition rootd : Dentry := mkDentry (get_root_node vol0) None [47].
Definition filed : Dentry := mkDentry (mkInode 600 3 IFile 3 2) (Some rootd) [97; 46; 116; 120; 116].

Lemma file0 : is_file vol0 t0 f0 rootd [2] [97; 46; 116; 120; 116] 2 0 600 [3; 4].
Proof.
  split.
  - apply chain_last; [split; vm_compute; congruence|vm_compute; congruence].
  - vm_compute. reflexivity.
  - vm_compute. reflexivity.
  - rewrite decide_False by done. replace (first_cluster_addr _) with 3 by (vm_compute; reflexivity).
    apply chain_cons; [split; vm_compute; congruence|vm_compute; congruence|].
    replace (mask (t0 3)) with 4 by (vm_compute; reflexivity).
    apply chain_last; [split; vm_compute; congruence|vm_compute; congruence].
  - intros x Hx. rewrite !elem_of_cons in Hx. destruct Hx as [->|[->|Hx%elem_of_nil]]; [vm_compute; reflexivity..|done].
  - vm_compute. congruence.
  - intros x Hx. rewrite !elem_of_cons in Hx. rewrite list_elem_of_singleton. destruct Hx as [->|[->|Hx%elem_of_nil]]; done.
  - vm_compute. congruence.
  - lia.
Qed.

Lemma load_file_ok_witness :
  is_file vol0 t0 f0 rootd [2] [97; 46; 116; 120; 116] 2 0 600 [3; 4] /\
  exists s', load_file_to_buf vol0 2 [97; 46; 116; 120; 116] rootd 500 100 (state0 (repeat 0 100)) = Ok (Some 100, s') /\
    dev s' = dev (state0 (repeat 0 100)) /\ mem s' = slice (bytes_of f0 [3; 4]) 500 100.
Proof.
  split; [apply file0|].
  apply (load_file_ok vol0 t0 f0 rootd [2] [97; 46; 116; 120; 116] 2 0 600 [3; 4] 500 100 2 (state0 (repeat 0 100)));
    [apply vol0_ok|apply repr0|apply file0|lia|lia|lia|reflexivity|simpl; lia|simpl; lia].
Defined.

Lemma write_then_load_witness :
  is_file vol0 t0 f0 rootd [2] [97; 46; 116; 120; 116] 2 0 600 [3; 4] /\
  exists s1 t' f',
    write_buf_to_file vol0 4 filed (repeat 67 1100) (state0 []) = Ok (Some (set_i_size filed 1100), s1) /\
    repr vol0 (dev s1) t' f' /\ others_kept vol0 t0 t' f0 f' 2 [3; 4] /\
    forall offset n m, 0 <= offset -> 0 < n -> offset + n <= 1100 -> Z.of_nat (length m) = n ->
      exists s2, load_file_to_buf vol0 4 [97; 46; 116; 120; 116] rootd offset n (set_mem s1 m) = Ok (Some n, s2) /\
        dev s2 = dev s1 /\ mem s2 = slice (repeat 67 1100) offset n.
Proof.
  split; [apply file0|].
  apply (write_then_load vol0 t0 f0 rootd [2] [97; 46; 116; 120; 116] 2 0 600 [3; 4] filed 4 (repeat 67 1100) (state0 []));
    [apply vol0_ok|apply repr0|apply file0|done|done|done|done|vm_compute; congruence..|simpl; lia|].
  vm_compute. lia.
Defined.


Lemma shrink_keeps_cluster_witness :
  num_sectors 100 < num_sectors 600 /\
  exists s' t' f' cs', resize vol0 4 filed 100 (state0 []) = Ok (Some (set_i_size filed 100), s') /\
    repr vol0 (dev s') t' f' /\ is_file vol0 t' f' rootd [2] [97; 46; 116; 120; 116] 2 0 100 cs' /\
    Z.of_nat (length cs') = num_sectors 100 + 1.
Proof.
  split; [done|].
  apply (shrink_keeps_cluster vol0 t0 f0 rootd [2] [97; 46; 116; 120; 116] 2 0 600 [3; 4] filed 4 100 (state0 []));
    [apply vol0_ok|apply repr0|apply file0|done|done|done|lia|done|simpl; lia].
Defined.

Lemma get_free_clusters_ok_witness :
  0 < 2 <= Z.of_nat (length (free_clusters vol0 t0)) /\
  exists l l', get_free_clusters vol0 2 (state0 []) = Ok (Some l, state0 []) /\ Z.of_nat (length l) = 2 /\
    free_clusters vol0 t0 = l ++ l' /\ NoDup l /\ (forall c, c ∈ free_clusters vol0 t0 <-> cl vol0 c /\ t0 c = 0).
Proof.
  split; [vm_compute; split; congruence|].
  apply (get_free_clusters_ok vol0 t0 f0 2 (state0 [])); [apply vol0_ok|apply repr0|vm_compute; split; congruence].
Defined.

Lemma room0 stop : stop (entry root0 0) = false -> has_room vol0 t0 f0 rootd [2] 2 1 stop.
Proof.
  intros Hs. split; [apply file0|]. split; [done|]. cbn [free_slot]. change (f0 2) with root0. rewrite Hs. split; by vm_compute.
Qed.

Lemma touch_then_lookup_witness :
  good_name [98; 99] /\
  exists s' d f', touch vol0 1 rootd [98; 99] (state0 []) = Ok (Some d, s') /\ d_name d = [98; 99] /\ i_size (d_inode d) = 0 /\
    repr vol0 (dev s') t0 f' /\ is_file vol0 t0 f' rootd [2] [98; 99] 2 1 0 [] /\ (forall z, z <> 2 -> f' z = f0 z).
Proof.
  assert (good_name [98; 99]) as Hg by (left; split; [by repeat constructor|simpl; lia]). split; [done|].
  apply (touch_then_lookup vol0 t0 f0 rootd [2] 2 1 [98; 99] 1 (state0 []));
    [apply vol0_ok|apply repr0|done|done|vm_compute; reflexivity|apply room0; vm_compute; reflexivity|simpl; lia].
Defined.

Lemma mkdir_ok_witness :
  free_clusters vol0 t0 = [5; 6; 7; 8; 9] /\
  exists s' d t' f', mkdir vol0 1 rootd [98; 99] (state0 []) = Ok (Some d, s') /\ repr vol0 (dev s') t' f' /\
    is_dir vol0 t' d [5] /\ find_entry f' [46] [5] = Some (5, 0) /\ find_entry f' [46; 46] [5] = Some (5, 1) /\
    first_cluster_addr (entry (f' 5) 0) = 5 /\ first_cluster_addr (entry (f' 5) 1) = dentry_cluster vol0 rootd /\
    first_cluster_addr (entry (f' 2) 1) = 5 /\ is_directory (entry (f' 2) 1) = true /\ others_kept vol0 t0 t' f0 f' 2 [].
Proof.
  split; [vm_compute; reflexivity|].
  apply (mkdir_ok vol0 t0 f0 rootd [2] 2 1 [98; 99] 5 [6; 7; 8; 9] 1 (state0 []));
    [apply vol0_ok|apply repr0|simpl; lia|apply room0; done|simpl; lia|vm_compute; reflexivity].
Defined.

(** The same volume with a second table sector, for a directory in cluster 130. *)
Definition vol1 : volume := mkVolume 1 512 2 256 2 1 3 200.
Definition table1 : list Z := concat (map le32 [0x0FFFFFF8; 0x0FFFFFFF; 3; CLUSTER_EOC]) ++ repeat 0 496.
Definition table2 : list Z := concat (map le32 [0; 0; CLUSTER_EOC; 77]) ++ repeat 0 496.
Definition drive1 : Ata.drive :=
  Ata.mkDrive (Ata.mkDevice 1 0 0 Ata.IDE_ATA 0x200 0 256 []) {[ 1 := table1; 2 := table2 ]} (fun _ => 8) (fun _ => 0).

Lemma drive1_ok : Ata.drive_ok drive1.
Proof.
  split; [by left|]. split; [by left|]. split; [split; vm_compute; congruence|]. split; [by left|].
  apply map_Forall_insert_2; [done|]. by apply map_Forall_singleton.
Qed.

Definition state1 : @fat Ata.ata_drive := mkFat (drive1 ↾ drive1_ok : Ata.ata_drive) (repeat 0 512) table1 [].
Definition t1 (c : Z) : Z := rd32 (if c <? 128 then table1 else table2) (foff c).

Lemma vol1_ok : vol_ok vol1.
Proof. unfold vol_ok. simpl. lia. Qed.

Lemma repr1 : repr vol1 (dev state1) t1 (fun _ => repeat 0 512).
Proof.
  split; intros c Hc.
  - unfold te, t1, fsec in *. simpl in *. destruct (Z.ltb_spec c 128).
    + exists table1. rewrite Z.div_small by lia. split; [by vm_compute|done].
    + exists table2. replace (c / 128) with 1 by (Z.div_mod_to_equations; lia). split; [by vm_compute|done].
  - unfold cl, dsec in *. simpl in *. rewrite bool_decide_true by lia.
    rewrite Ata.ata_read_eq by (apply drive1_ok || (unfold is_u32; lia)).
    unfold Ata.accepted, u32. simpl. rewrite Z.mod_small, (proj2 (Z.leb_le _ _)) by lia. simpl.
    rewrite lookup_insert_ne, lookup_singleton_ne by lia. done.
Qed.

Definition subdir : dir_entry := match new_dir_entry [100] DIRECTORY 130 0 with Ok e => e | _ => [] end.

(** The listed directory goes on in cluster 3; the entry of cluster 131 is taken instead of that of cluster 3. *)
Lemma ls_reads_wrong_table_witness :
  mask (t1 3) = CLUSTER_EOC /\ mask (t1 131) = 77 /\
  exists dn s1, dir_entry_to_dentry vol1 1 subdir None [100] state1 = Ok (Some dn, s1) /\
  exists x' s2, change_active_cluster vol1 3 (mkCtx 2 3 1 8 3 0 false) DriveBuf s1 = Ok (Some x', s2) /\
    table_value x' = mask (t1 (128 * (130 / 128) + 3 mod 128)).
Proof.
  split; [done|]. split; [done|].
  apply (ls_reads_wrong_table vol1 t1 (fun _ => repeat 0 512) state1 (mkCtx 2 3 1 8 3 0 false) subdir 130 3 0 None [100]);
    [apply vol1_ok|apply repr1|done|done|split; vm_compute; congruence|vm_compute; congruence|done|split; vm_compute; congruence|split; vm_compute; congruence].
Defined.

(** Loading an empty file compares a variable that was never set. *)
Lemma empty_load_undefined fuel junk i p n (s : @fat Ata.ata_drive) :
  i_size i = 0 -> load_file vol0 fuel junk (mkDentry i (Some p) n) 0 0 s = Fault.
Proof. intros Hi. unfold load_file. simpl. rewrite Hi. done. Qed.

End Fat.
