(* ===== verification/SharedPtr.v ===== *)
(** * Shared pointers ([utils/shared_pointer.h], [shared_pointer.hxx])

    The objects and the counters live in a heap; the pointer variables of the program are the places of a list, some
    of them not constructed yet or already destroyed.  Using a deleted counter or deleting an object twice is a fault.
    The operations are the members of [SharedPointer]; the theorem shows that every sequence of them keeps each counter equal to
    the number of pointers that share it and deletes an object exactly when the last of them goes. *)

From stdpp Require Import base tactics numbers sets gmap list.
From S2P Require Import Prelude.
Open Scope Z_scope.

Module SharedPtr.

(** [data_] and [count_]: both null, or an object and a counter. *)
Notation ptr := (option (positive * positive)).

Record heap := mkHeap {
  vars : list (option ptr); objects : gset positive; counts : gmap positive Z
}.

Definition set_var (h : heap) (i : nat) (p : option ptr) : heap := mkHeap (<[i := p]> (vars h)) (objects h) (counts h).
Definition set_count (h : heap) (c : positive) (n : Z) : heap := mkHeap (vars h) (objects h) (<[c := n]> (counts h)).

Definition data_of (p : ptr) : option positive := match p with Some (d, _) => Some d | None => None end.

(** A constructed variable, and the place of one that is not. *)
Definition var (h : heap) (i : nat) : res ptr := o ← deref (vars h !! i); deref o.
Definition vacant (h : heap) (i : nat) : res unit :=
  match vars h !! i with Some None => Ok tt | _ => Fault end.

(** [delete data_; delete count_;]. *)
Definition delete_both (h : heap) (d c : positive) : res heap :=
  if decide (d ∈ objects h) then Ok (mkHeap (vars h) (objects h ∖ {[d]}) (base.delete c (counts h))) else Fault.

(** [if (count_) if (--( *count_) == 0) { delete data_; delete count_; }], the body of the destructor and the start
    of every assignment. *)
Definition drop_ref (h : heap) (p : ptr) : res heap :=
  match p with
  | None => Ok h
  | Some (d, c) =>
      n ← deref (counts h !! c);
      let h := set_count h c (n - 1) in
      if n - 1 =? 0 then delete_both h d c else Ok h
  end.

(** [if (count_) ++( *count_)]. *)
Definition add_ref (h : heap) (p : ptr) : res heap :=
  match p with
  | None => Ok h
  | Some (d, c) => n ← deref (counts h !! c); Ok (set_count h c (n + 1))
  end.

(** [SharedPointer(element_type* p)] for a new object [p] or null; [c] is the counter [new] returns. *)
Definition construct (h : heap) (i : nat) (p : option positive) (c : positive) : res heap :=
  _ ← vacant h i;
  match p with
  | None => Ok (set_var h i (Some None))
  | Some d => Ok (set_var (set_count h c 1) i (Some (Some (d, c))))
  end.

Definition destroy (h : heap) (i : nat) : res heap :=
  p ← var h i; h ← drop_ref h p; Ok (set_var h i None).

Definition copy_construct (h : heap) (i j : nat) : res heap :=
  _ ← vacant h i; p ← var h j; h ← add_ref h p; Ok (set_var h i (Some p)).

Definition move_construct (h : heap) (i j : nat) : res heap :=
  _ ← vacant h i; p ← var h j; Ok (set_var (set_var h i (Some p)) j (Some None)).

(** [operator=(const SharedPointer&)]: the old object is dropped before the new one is read. *)
Definition assign (h : heap) (i j : nat) : res heap :=
  p ← var h i; h ← drop_ref h p;
  q ← var h j; h ← add_ref (set_var h i (Some q)) q; Ok h.

Definition move_assign (h : heap) (i j : nat) : res heap :=
  if decide (i = j) then _ ← var h i; Ok h
  else
    p ← var h i; h ← drop_ref h p;
    q ← var h j; Ok (set_var (set_var h i (Some q)) j (Some None)).

Definition reset (h : heap) (i : nat) (p : option positive) (c : positive) : res heap :=
  q ← var h i;
  if decide (data_of q = p) then Ok h
  else
    h ← drop_ref h q;
    match p with
    | None => Ok (set_var h i (Some None))
    | Some d => Ok (set_var (set_count h c 1) i (Some (Some (d, c))))
    end.

Definition use_count (h : heap) (i : nat) : res Z :=
  p ← var h i; match p with None => Ok 0 | Some (_, c) => deref (counts h !! c) end.

Definition get (h : heap) (i : nat) : res (option positive) := p ← var h i; Ok (data_of p).

(** ** The operations as steps, and what each one needs *)

Inductive op :=
| New (i : nat) (d c : positive)
| Null (i : nat)
| Destroy (i : nat)
| Copy (i j : nat)
| Move (i j : nat)
| Assign (i j : nat)
| MoveAssign (i j : nat)
| Reset (i : nat) (d c : positive)
| ResetNull (i : nat).

(** A new object is allocated with [new], so that neither it nor its counter is in use. *)
Definition with_object (h : heap) (d : positive) : heap := mkHeap (vars h) ({[d]} ∪ objects h) (counts h).

Definition exec (h : heap) (o : op) : res heap :=
  match o with
  | New i d c => construct (with_object h d) i (Some d) c
  | Null i => construct h i None 1
  | Destroy i => destroy h i
  | Copy i j => copy_construct h i j
  | Move i j => move_construct h i j
  | Assign i j => assign h i j
  | MoveAssign i j => move_assign h i j
  | Reset i d c => reset (with_object h d) i (Some d) c
  | ResetNull i => reset h i None 1
  end.

Definition is_var (h : heap) (i : nat) : bool := match vars h !! i with Some (Some _) => true | _ => false end.
Definition is_vacant (h : heap) (i : nat) : bool := match vars h !! i with Some None => true | _ => false end.
Definition is_fresh (h : heap) (d c : positive) : bool :=
  bool_decide (d ∉ objects h) && bool_decide (counts h !! c = None).

(** What a program has to respect: constructed and vacant places, fresh allocations, and no assignment to itself of
    a pointer. *)
Definition allowed (h : heap) (o : op) : bool :=
  match o with
  | New i d c => is_vacant h i && is_fresh h d c
  | Null i => is_vacant h i
  | Destroy i => is_var h i
  | Copy i j | Move i j => is_vacant h i && is_var h j
  | Assign i j => is_var h i && is_var h j && negb (bool_decide (i = j))
  | MoveAssign i j => is_var h i && is_var h j
  | Reset i d c => is_var h i && is_fresh h d c
  | ResetNull i => is_var h i
  end.

Fixpoint run_ops (h : heap) (os : list op) : res heap :=
  match os with
  | [] => Ok h
  | o :: os => h ← exec h o; run_ops h os
  end.

Fixpoint all_allowed (h : heap) (os : list op) : bool :=
  match os with
  | [] => true
  | o :: os => allowed h o && match exec h o with Ok h => all_allowed h os | _ => true end
  end.

(** ** The invariant *)

Definition holds (c : positive) (o : option ptr) : Z :=
  match o with Some (Some (_, c')) => if decide (c' = c) then 1 else 0 | _ => 0 end.

Fixpoint refs (l : list (option ptr)) (c : positive) : Z :=
  match l with [] => 0 | o :: l => holds c o + refs l c end.

Record inv (h : heap) : Prop := mkInv {
  inv_count c n : counts h !! c = Some n -> n = refs (vars h) c /\ 0 < n;
  inv_ptr i d c : vars h !! i = Some (Some (Some (d, c))) -> is_Some (counts h !! c) /\ d ∈ objects h;
  inv_same i j d c d' c' : vars h !! i = Some (Some (Some (d, c))) -> vars h !! j = Some (Some (Some (d', c'))) ->
    (c = c' <-> d = d');
  inv_object d : d ∈ objects h -> exists i c, vars h !! i = Some (Some (Some (d, c)))
}.

Definition empty (o : option ptr) : Prop := o = None \/ o = Some None.

Lemma holds_empty c o : empty o -> holds c o = 0.
Proof. by intros [-> | ->]. Qed.

Lemma sp_refs_insert l i o o' c : l !! i = Some o -> refs (<[i := o']> l) c = refs l c - holds c o + holds c o'.
Proof.
  revert i. induction l as [|x l IH]; intros [|i] Hi; simplify_eq/=; [lia|]. rewrite (IH _ Hi). lia.
Qed.

Lemma holds_nonneg c o : 0 <= holds c o.
Proof. unfold holds. repeat case_match; lia. Qed.

Lemma sp_refs_nonneg l c : 0 <= refs l c.
Proof. induction l as [|o l IH]; simpl; [lia|]. pose proof (holds_nonneg c o). lia. Qed.

Lemma sp_refs_pos l i d c : l !! i = Some (Some (Some (d, c))) -> 0 < refs l c.
Proof.
  revert i. induction l as [|o l IH]; intros [|i] Hi; simplify_eq/=.
  - rewrite decide_True by done. pose proof (sp_refs_nonneg l c). lia.
  - pose proof (holds_nonneg c o). pose proof (IH _ Hi). lia.
Qed.

(** A pointer of the heap after one place has been changed. *)
Lemma lookup_var_insert (l : list (option ptr)) (i : nat) (o : option ptr) (j : nat) (d c : positive) : <[i := o]> l !! j = Some (Some (Some (d, c))) ->
  (j = i /\ o = Some (Some (d, c))) \/ (j <> i /\ l !! j = Some (Some (Some (d, c)))).
Proof.
  intros Hj. destruct (decide (j = i)) as [->|Hne]; [left|right].
  - destruct (decide ((i < length l)%nat)) as [Hlt|Hge].
    + rewrite list_lookup_insert_eq in Hj by done. by simplify_eq.
    + assert (length l <= i)%nat by lia. rewrite lookup_ge_None_2 in Hj; [done|]. by rewrite length_insert.
  - by rewrite list_lookup_insert_ne in Hj by done.
Qed.

Lemma refs_held l c : 0 < refs l c -> exists j d, l !! j = Some (Some (Some (d, c))).
Proof.
  induction l as [|o l IH]; simpl; [lia|]. intros Hr. destruct (decide (holds c o = 0)) as [E|E].
  - destruct IH as (j & d & Hj); [lia|]. by exists (S j), d.
  - destruct o as [[[d c']|]|]; simpl in E; try done. case_decide; [subst; by exists 0%nat, d|done].
Qed.

Lemma holds_le c o : holds c o <= 1.
Proof. unfold holds. repeat case_match; lia. Qed.

Lemma refs_other l i o c : l !! i = Some o -> 1 < refs l c -> exists j d, j <> i /\ l !! j = Some (Some (Some (d, c))).
Proof.
  intros Hi Hr. destruct (refs_held (<[i := None]> l) c) as (j & d & [[_ ?]|[Hne Hj]]%lookup_var_insert); [|done|by exists j, d].
  rewrite (sp_refs_insert _ _ _ _ _ Hi). pose proof (holds_le c o). simpl. lia.
Qed.

(** Vacant and null places are the same to the invariant. *)
Lemma inv_empty h i o o' : inv h -> vars h !! i = Some o -> empty o -> empty o' -> inv (set_var h i o').
Proof.
  intros [Hc Hp Hs Ho] Hi He He'.
  assert (forall j d c, <[i := o']> (vars h) !! j = Some (Some (Some (d, c))) -> vars h !! j = Some (Some (Some (d, c)))) as Hl.
  { intros j d c [[_ ->]|[_ ?]]%lookup_var_insert; [|done]. by destruct He'. }
  split; simpl.
  - intros c n Hn. rewrite (sp_refs_insert _ _ _ _ _ Hi), !holds_empty by done. rewrite Z.sub_0_r, Z.add_0_r. by apply Hc.
  - eauto.
  - eauto.
  - intros d (j & c & Hj)%Ho. exists j, c. rewrite list_lookup_insert_ne; [done|]. intros <-.
    rewrite Hi in Hj. destruct He; simplify_eq.
Qed.

(** Dropping the reference of place [i] and emptying it. *)
Lemma drop_spec h i p o' : inv h -> vars h !! i = Some (Some p) -> empty o' ->
  exists h1, drop_ref h p = Ok h1 /\ vars h1 = vars h /\ inv (set_var h1 i o') /\
    (forall d, d ∈ objects h1 <-> d ∈ objects h /\ ~ (exists c, p = Some (d, c) /\ refs (vars h) c = 1)).
Proof.
  intros Hinv Hi He. destruct p as [[d c]|]; simpl.
  2: { exists h. split; [done|]. split; [done|]. split; [by eapply inv_empty; [| |right|]|]. naive_solver. }
  destruct (inv_ptr _ Hinv _ _ _ Hi) as [[n Hn] Hd]. destruct (inv_count _ Hinv _ _ Hn) as [Hr Hpos]. rewrite Hn. simpl.
  assert (forall c', refs (<[i := o']> (vars h)) c' = refs (vars h) c' - (if decide (c = c') then 1 else 0)) as Hrefs.
  { intros c'. rewrite (sp_refs_insert _ _ _ _ _ Hi), (holds_empty _ o') by done. simpl. lia. }
  assert (forall j d' c', <[i := o']> (vars h) !! j = Some (Some (Some (d', c'))) ->
    j <> i /\ vars h !! j = Some (Some (Some (d', c')))) as Hl.
  { intros j d' c' [[_ ->]|?]%lookup_var_insert; [|done]. by destruct He. }
  destruct (Z.eqb_spec (n - 1) 0) as [E|E].
  - unfold delete_both. simpl. rewrite decide_True by done. eexists. split; [done|]. split; [done|].
    assert (forall j d' c', <[i := o']> (vars h) !! j = Some (Some (Some (d', c'))) -> c' <> c /\ d' <> d) as Hne.
    { intros j d' c' Hj. assert (c' <> c) as Hcc.
      { intros ->. apply sp_refs_pos in Hj. rewrite Hrefs, decide_True in Hj by done. lia. }
      split; [done|]. intros ->. destruct (Hl _ _ _ Hj) as [_ Hj']. by apply Hcc, (inv_same _ Hinv _ _ _ _ _ _ Hj' Hi). }
    split; [split; simpl|].
    + intros c' n' Hn'. destruct (decide (c' = c)) as [->|]; [by rewrite lookup_delete_eq in Hn'|].
      rewrite lookup_delete_ne, lookup_insert_ne in Hn' by done. rewrite Hrefs, decide_False, Z.sub_0_r by done.
      by apply (inv_count _ Hinv).
    + intros j d' c' Hj. destruct (Hne _ _ _ Hj) as [? ?]. destruct (Hl _ _ _ Hj) as [_ Hj'].
      rewrite lookup_delete_ne, lookup_insert_ne by done. destruct (inv_ptr _ Hinv _ _ _ Hj'). set_solver.
    + intros j k d' c' d'' c'' Hj Hk. destruct (Hl _ _ _ Hj), (Hl _ _ _ Hk). by eapply inv_same.
    + intros d' [Hd' Hdd]%elem_of_difference. destruct (inv_object _ Hinv _ Hd') as (j & c' & Hj). exists j, c'.
      rewrite list_lookup_insert_ne; [done|]. intros ->. rewrite Hi in Hj. simplify_eq. set_solver.
    + intros d'. simpl. rewrite elem_of_difference, elem_of_singleton. split.
      * intros [? Hdd]. split; [done|]. intros (c' & E' & _). by simplify_eq.
      * intros [? Hdd]. split; [done|]. intros ->. apply Hdd. exists c. split; [done|]. lia.
  - eexists. split; [done|]. split; [done|]. split; [split; simpl|].
    + intros c' n' Hn'. destruct (decide (c' = c)) as [->|].
      * rewrite lookup_insert_eq in Hn'. simplify_eq. rewrite Hrefs, decide_True by done. lia.
      * rewrite lookup_insert_ne in Hn' by done. rewrite Hrefs, decide_False, Z.sub_0_r by done. by apply (inv_count _ Hinv).
    + intros j d' c' Hj. destruct (Hl _ _ _ Hj) as [_ Hj']. destruct (inv_ptr _ Hinv _ _ _ Hj') as [? ?]. split; [|done].
      apply lookup_insert_is_Some'. by right.
    + intros j k d' c' d'' c'' Hj Hk. destruct (Hl _ _ _ Hj), (Hl _ _ _ Hk). by eapply inv_same.
    + intros d' (j & c' & Hj)%(inv_object _ Hinv). destruct (decide (j = i)) as [->|Hji].
      * rewrite Hi in Hj. simplify_eq. destruct (refs_other (vars h) i _ c' Hi) as (k & d'' & Hk & Hkl); [lia|].
        exists k, c'. rewrite list_lookup_insert_ne by done.
        assert (d'' = d') as -> by (by apply (inv_same _ Hinv _ _ _ _ _ _ Hkl Hi)). done.
      * exists j, c'. by rewrite list_lookup_insert_ne.
    + intros d'. simpl. split; [|tauto]. intros ?. split; [done|]. intros (c' & E' & Hone). simplify_eq. lia.
Qed.

(** Sharing a pointer that some place holds: the counter goes up and place [i] gets a copy. *)
Lemma share_spec h i o j q : inv h -> vars h !! i = Some o -> empty o -> vars h !! j = Some (Some q) ->
  exists h1, add_ref h q = Ok h1 /\ vars h1 = vars h /\ objects h1 = objects h /\ inv (set_var h1 i (Some q)).
Proof.
  intros Hinv Hi He Hj. destruct q as [[d c]|]; simpl.
  2: { exists h. do 3 (split; [done|]). by eapply inv_empty; [| | |right]. }
  destruct (inv_ptr _ Hinv _ _ _ Hj) as [[n Hn] Hd]. destruct (inv_count _ Hinv _ _ Hn) as [Hr Hpos]. rewrite Hn. simpl.
  eexists. do 3 (split; [done|]).
  assert (forall k d' c', <[i := Some (Some (d, c))]> (vars h) !! k = Some (Some (Some (d', c'))) ->
    exists k', vars h !! k' = Some (Some (Some (d', c')))) as Hl.
  { intros k d' c' [[_ E]|[_ ?]]%lookup_var_insert; simplify_eq; eauto. }
  split; simpl.
  - intros c' n' Hn'. rewrite (sp_refs_insert _ _ _ _ _ Hi), (holds_empty _ o) by done. simpl.
    destruct (decide (c' = c)) as [->|Hne].
    + rewrite lookup_insert_eq in Hn'. simplify_eq. rewrite decide_True by done. lia.
    + rewrite lookup_insert_ne in Hn' by done. rewrite decide_False by done. rewrite Z.sub_0_r, Z.add_0_r.
      by apply (inv_count _ Hinv).
  - intros k d' c' (k' & Hk)%Hl. destruct (inv_ptr _ Hinv _ _ _ Hk) as [? ?]. split; [|done].
    apply lookup_insert_is_Some'. by right.
  - intros k l d' c' d'' c'' (k' & Hk)%Hl (l' & Hl')%Hl. by apply (inv_same _ Hinv _ _ _ _ _ _ Hk Hl').
  - intros d' (k & c' & Hk)%(inv_object _ Hinv). exists k, c'. rewrite list_lookup_insert_ne; [done|]. intros ->.
    rewrite Hi in Hk. destruct He; simplify_eq.
Qed.

(** A new object with its new counter, held by place [i]. *)
Lemma new_spec h i o d c : inv h -> vars h !! i = Some o -> empty o -> is_fresh h d c = true ->
  inv (set_var (set_count (with_object h d) c 1) i (Some (Some (d, c)))).
Proof.
  intros Hinv Hi He [Hd Hc]%andb_prop. apply bool_decide_eq_true in Hd, Hc.
  assert (forall k d' c', vars h !! k = Some (Some (Some (d', c'))) -> c' <> c /\ d' <> d) as Hnew.
  { intros k d' c' Hk. destruct (inv_ptr _ Hinv _ _ _ Hk) as [[n Hn] ?]. split; intros ->; [congruence|done]. }
  assert (refs (vars h) c = 0) as Hzero.
  { destruct (decide (0 < refs (vars h) c)) as [(k & d' & Hk)%refs_held|]; [by destruct (Hnew _ _ _ Hk)|].
    pose proof (sp_refs_nonneg (vars h) c). lia. }
  split; simpl.
  - intros c' n' Hn'. rewrite (sp_refs_insert _ _ _ _ _ Hi), (holds_empty _ o) by done. simpl.
    destruct (decide (c' = c)) as [->|Hne].
    + rewrite lookup_insert_eq in Hn'. simplify_eq. rewrite decide_True by done. lia.
    + rewrite lookup_insert_ne in Hn' by done. rewrite decide_False by done. rewrite Z.sub_0_r, Z.add_0_r.
      by apply (inv_count _ Hinv).
  - intros k d' c' [[_ E]|[_ Hk]]%lookup_var_insert; [simplify_eq; split; [|set_solver]|].
    + rewrite lookup_insert_eq. eauto.
    + destruct (Hnew _ _ _ Hk). destruct (inv_ptr _ Hinv _ _ _ Hk). rewrite lookup_insert_ne by done. set_solver.
  - intros k l d' c' d'' c'' [[_ E]|[_ Hk]]%lookup_var_insert [[_ E']|[_ Hl]]%lookup_var_insert; simplify_eq.
    + done.
    + destruct (Hnew _ _ _ Hl). naive_solver.
    + destruct (Hnew _ _ _ Hk). naive_solver.
    + by apply (inv_same _ Hinv _ _ _ _ _ _ Hk Hl).
  - intros d' [->%elem_of_singleton|Hd']%elem_of_union.
    + exists i, c. rewrite list_lookup_insert_eq; [done|]. by eapply lookup_lt_Some.
    + destruct (inv_object _ Hinv _ Hd') as (k & c' & Hk). exists k, c'. rewrite list_lookup_insert_ne; [done|].
      intros ->. rewrite Hi in Hk. destruct He; simplify_eq.
Qed.

(** A pointer that changes place: what a copy followed by the destruction of the original would do. *)
Lemma move_spec h i o j q : inv h -> vars h !! i = Some o -> empty o -> vars h !! j = Some (Some q) -> i <> j ->
  inv (set_var (set_var h i (Some q)) j (Some None)).
Proof.
  intros Hinv Hi He Hj Hne. destruct (share_spec _ _ _ _ _ Hinv Hi He Hj) as (h1 & Ha & Hv & Ho & Hinv1).
  destruct (drop_spec (set_var h1 i (Some q)) j q (Some None) Hinv1) as (h2 & Hd & Hv2 & Hinv2 & _); [|by right|].
  { simpl. rewrite list_lookup_insert_ne by done. by rewrite Hv. }
  enough (h2 = set_var h i (Some q)) as <- by done. destruct q as [[d c]|]; simplify_eq/=; [|done].
  destruct (inv_ptr _ Hinv _ _ _ Hj) as [[n Hn] Hdd]. destruct (inv_count _ Hinv _ _ Hn) as [_ Hpos]. rewrite Hn in Ha.
  simplify_eq/=. rewrite lookup_insert_eq in Hd. simpl in Hd. destruct (Z.eqb_spec (n + 1 - 1) 0); [lia|]. simplify_eq.
  unfold set_var, set_count. simpl. f_equal. rewrite insert_insert_eq, insert_id; [done|]. rewrite Hn. f_equal. lia.
Qed.

Lemma is_var_spec h i : is_var h i = true -> exists p, vars h !! i = Some (Some p) /\ var h i = Ok p.
Proof. unfold is_var, var. intros. repeat case_match; simplify_eq/=; eauto. Qed.

Lemma is_vacant_spec h i : is_vacant h i = true -> vars h !! i = Some None /\ vacant h i = Ok tt.
Proof. unfold is_vacant, vacant. intros. by repeat case_match. Qed.

(** Emptying a place whose reference has been dropped leaves it ready for the next pointer. *)
Lemma drop_vacate h i p : inv h -> vars h !! i = Some (Some p) ->
  exists h1, drop_ref h p = Ok h1 /\ vars h1 = vars h /\ (forall o, empty o -> inv (set_var h1 i o)) /\
    (set_var h1 i None).(vars) !! i = Some None.
Proof.
  intros Hinv Hi. destruct (drop_spec h i p None Hinv Hi) as (h1 & Hd & Hv & Hinv1 & _); [by left|].
  exists h1. do 2 (split; [done|]). assert (vars (set_var h1 i None) !! i = Some None) as Hat.
  { simpl. rewrite Hv. apply list_lookup_insert_eq. by eapply lookup_lt_Some. }
  split; [|done]. intros o Ho. pose proof (inv_empty _ _ _ o Hinv1 Hat (or_introl eq_refl) Ho) as Hi'.
  unfold set_var in Hi' |- *. simpl in Hi'. by rewrite list_insert_insert_eq in Hi'.
Qed.

(** Changing a place twice is changing it once. *)
Lemma set_var_twice h i o o' : set_var (set_var h i o) i o' = set_var h i o'.
Proof. unfold set_var. simpl. by rewrite list_insert_insert_eq. Qed.

Lemma destroy_ok h i : inv h -> is_var h i = true -> exists h', destroy h i = Ok h' /\ inv h'.
Proof.
  intros Hinv (p & Hv & Hr)%is_var_spec. unfold destroy. rewrite Hr. simpl.
  destruct (drop_vacate _ _ _ Hinv Hv) as (h1 & -> & _ & Hi & _). simpl. eexists. split; [done|]. apply Hi. by left.
Qed.

Lemma assign_ok h i j : inv h -> is_var h i = true -> is_var h j = true -> i <> j ->
  exists h', assign h i j = Ok h' /\ inv h'.
Proof.
  intros Hinv (p & Hi & Hp)%is_var_spec (q & Hj & Hq)%is_var_spec Hne. unfold assign. rewrite Hp. simpl.
  destruct (drop_vacate _ _ _ Hinv Hi) as (h1 & -> & Hv & Hinv1 & Hat). simpl.
  unfold var. rewrite Hv, Hj. simpl. pose proof (Hinv1 None (or_introl eq_refl)) as Hinv0.
  destruct (share_spec _ i None j q Hinv0 Hat (or_introl eq_refl)) as (h2 & Ha & Hv2 & Ho & Hinv2).
  { simpl. rewrite list_lookup_insert_ne by done. by rewrite Hv. }
  assert (add_ref (set_var h1 i (Some q)) q = Ok (set_var h2 i (Some q))) as ->; [|by eauto].
  destruct q as [[d c]|]; simpl in *; [destruct (counts h1 !! c); simplify_eq/=|simplify_eq/=];
    unfold set_var, set_count; simpl; by rewrite list_insert_insert_eq.
Qed.

Lemma move_assign_ok h i j : inv h -> is_var h i = true -> is_var h j = true ->
  exists h', move_assign h i j = Ok h' /\ inv h'.
Proof.
  intros Hinv (p & Hi & Hp)%is_var_spec (q & Hj & Hq)%is_var_spec. unfold move_assign. rewrite Hp.
  case_decide as Hne; simpl; [by eauto|]. destruct (drop_vacate _ _ _ Hinv Hi) as (h1 & -> & Hv & Hinv1 & Hat). simpl.
  unfold var. rewrite Hv, Hj. simpl. eexists. split; [done|]. rewrite <- (set_var_twice h1 i None).
  eapply move_spec; [apply Hinv1; by left|done|by left| |done]. simpl. rewrite list_lookup_insert_ne by done. by rewrite Hv.
Qed.

(** Dropping a reference does not see a new object, and leaves fresh addresses fresh. *)
Lemma drop_with_object h q d c h1 : is_fresh h d c = true -> drop_ref h q = Ok h1 ->
  drop_ref (with_object h d) q = Ok (with_object h1 d) /\ is_fresh h1 d c = true.
Proof.
  unfold is_fresh. rewrite !andb_true_iff, !bool_decide_eq_true. intros [Hd Hc] Hdr.
  destruct q as [[d' c']|]; simpl in *; [|by simplify_eq]. destruct (counts h !! c') as [n|] eqn:Hn; [|done]. simpl in *.
  assert (c <> c') by congruence. case_match; [|simplify_eq/=; by rewrite lookup_insert_ne].
  unfold delete_both in *. simpl in *. case_decide as Hin; [|done]. rewrite decide_True by set_solver. simplify_eq/=.
  rewrite lookup_delete_ne, lookup_insert_ne by done. split; [|set_solver].
  unfold with_object. simpl. do 2 f_equal. set_solver.
Qed.

Lemma reset_ok h i d c : inv h -> is_var h i = true -> is_fresh h d c = true ->
  exists h', reset (with_object h d) i (Some d) c = Ok h' /\ inv h'.
Proof.
  intros Hinv (q & Hi & Hq)%is_var_spec Hf. unfold reset. change (var (with_object h d) i) with (var h i). rewrite Hq. simpl.
  rewrite decide_False.
  2: { intros E. apply andb_prop in Hf as [Hd%bool_decide_eq_true _]. destruct q as [[d' c']|]; simplify_eq/=.
       by destruct (inv_ptr _ Hinv _ _ _ Hi). }
  destruct (drop_vacate _ _ _ Hinv Hi) as (h1 & Hd & Hv & Hinv1 & Hat).
  destruct (drop_with_object _ _ _ _ _ Hf Hd) as [-> Hf1]. simpl. eexists. split; [done|].
  pose proof (new_spec _ i None d c (Hinv1 None (or_introl eq_refl)) Hat (or_introl eq_refl) Hf1) as Hn.
  unfold set_var, set_count, with_object in *. simpl in *. by rewrite list_insert_insert_eq in Hn.
Qed.

Lemma exec_ok h o : inv h -> allowed h o = true -> exists h', exec h o = Ok h' /\ inv h'.
Proof.
  intros Hinv Ha. destruct o as [i d c|i|i|i j|i j|i j|i j|i d c|i]; simpl in *; rewrite ?andb_true_iff in Ha.
  - destruct Ha as [[Hv Hr]%is_vacant_spec Hf]. unfold construct.
    change (vacant (with_object h d) i) with (vacant h i). rewrite Hr. simpl. eexists. split; [done|].
    by eapply new_spec; [| |left|].
  - apply is_vacant_spec in Ha as [Hv Hr]. unfold construct. rewrite Hr. simpl. eexists. split; [done|].
    by eapply inv_empty; [| |left|right].
  - by apply destroy_ok.
  - destruct Ha as [[Hv Hr]%is_vacant_spec (q & Hj & Hq)%is_var_spec]. unfold copy_construct. rewrite Hr, Hq.
    simpl. destruct (share_spec _ _ _ _ _ Hinv Hv (or_introl eq_refl) Hj) as (h1 & -> & _ & _ & Hi). simpl. eauto.
  - destruct Ha as [[Hv Hr]%is_vacant_spec (q & Hj & Hq)%is_var_spec]. unfold move_construct. rewrite Hr, Hq.
    simpl. eexists. split; [done|]. eapply move_spec; [done..|by left|done|]. intros ->. congruence.
  - destruct Ha as [[? ?] Hne]. apply assign_ok; [done..|]. by apply negb_true_iff, bool_decide_eq_false in Hne.
  - destruct Ha. by apply move_assign_ok.
  - destruct Ha. by apply reset_ok.
  - apply is_var_spec in Ha as (q & Hi & Hq). unfold reset. rewrite Hq. simpl. case_decide; [by eauto|].
    destruct (drop_vacate _ _ _ Hinv Hi) as (h1 & -> & _ & Hinv1 & _). simpl. eexists. split; [done|]. apply Hinv1. by right.
Qed.

(** The program's variables before any of them is constructed. *)
Definition start (n : nat) : heap := mkHeap (replicate n None) ∅ ∅.

Lemma inv_start n : inv (start n).
Proof.
  split; simpl.
  - by intros c n'.
  - by intros i d c [? ?]%lookup_replicate.
  - by intros i j d c d' c' [? ?]%lookup_replicate.
  - set_solver.
Qed.

Lemma run_ops_inv os : forall h, inv h -> all_allowed h os = true -> exists h', run_ops h os = Ok h' /\ inv h'.
Proof.
  induction os as [|o os IH]; intros h Hinv Ha; simpl in *; [by eauto|]. apply andb_prop in Ha as [Ho Ha].
  destruct (exec_ok h o Hinv Ho) as (h1 & E & Hinv1). rewrite E in *. by apply IH.
Qed.

(** The places that point to an object. *)
Definition points_to (d : positive) (o : option ptr) : bool :=
  match o with Some (Some (d', _)) => bool_decide (d' = d) | _ => false end.
Definition owners (h : heap) (d : positive) : Z := Z.of_nat (length (List.filter (points_to d) (vars h))).

Lemma refs_owners h i d c : inv h -> vars h !! i = Some (Some (Some (d, c))) -> refs (vars h) c = owners h d.
Proof.
  intros Hinv Hi. unfold owners. assert (forall j d' c', vars h !! j = Some (Some (Some (d', c'))) -> (c' = c <-> d' = d)) as Hs.
  { intros j d' c' Hj. by apply (inv_same _ Hinv _ _ _ _ _ _ Hj Hi). }
  clear Hinv Hi. induction (vars h) as [|o l IH]; simpl; [done|]. rewrite IH; [|intros j; apply (Hs (S j))].
  specialize (Hs 0%nat). destruct o as [[[d' c']|]|]; simpl in *; [|lia..]. specialize (Hs d' c' eq_refl).
  case_decide; case_bool_decide; simpl; (lia || naive_solver).
Qed.

(** Claim C23: Every sequence of constructions, copies, moves, assignments, resets and destructions that does not assign a
    pointer to itself runs without using a deleted counter or deleting an object twice; afterwards the counter of every
    pointer is the number of pointers to its object, and the objects that are still there are exactly the ones some
    pointer points to. *)
Theorem shared_ptr_ok n os : all_allowed (start n) os = true ->
  exists h, run_ops (start n) os = Ok h /\
    (forall i d, get h i = Ok (Some d) -> use_count h i = Ok (owners h d)) /\
    (forall d, d ∈ objects h <-> exists i, get h i = Ok (Some d)).
Proof.
  intros Ha. destruct (run_ops_inv os _ (inv_start n) Ha) as (h & Hr & Hinv). exists h. split; [done|].
  assert (forall i d, get h i = Ok (Some d) <-> exists c, vars h !! i = Some (Some (Some (d, c)))) as Hget.
  { intros i d. unfold get, var. destruct (vars h !! i) as [[[[d' c]|]|]|]; simpl; naive_solver. }
  split.
  - intros i d (c & Hi)%Hget. destruct (inv_ptr _ Hinv _ _ _ Hi) as [[m Hm] _]. destruct (inv_count _ Hinv _ _ Hm) as [Hc _].
    unfold use_count, var. rewrite Hi. simpl. rewrite Hm. simpl. by rewrite Hc, (refs_owners _ _ _ _ Hinv Hi).
  - intros d. split.
    + intros (i & c & Hi)%(inv_object _ Hinv). exists i. apply Hget. eauto.
    + intros (i & (c & Hi)%Hget). by destruct (inv_ptr _ Hinv _ _ _ Hi).
Qed.

Definition sample : list op :=
  [New 0 1 1; Copy 1 0; New 2 2 2; Assign 2 0; Move 3 1; MoveAssign 0 3; Reset 2 3 3; ResetNull 0].

Lemma shared_ptr_ok_witness : all_allowed (start 4) sample = true /\
  exists h, run_ops (start 4) sample = Ok h /\
    (forall i d, get h i = Ok (Some d) -> use_count h i = Ok (owners h d)) /\
    (forall d, d ∈ objects h <-> exists i, get h i = Ok (Some d)).
Proof. split; [vm_compute; reflexivity|]. apply (shared_ptr_ok 4 sample). vm_compute. reflexivity. Defined.

(** Assigning a pointer to itself when it is the only one deletes the object and its counter, and then uses the
    deleted counter. *)
Theorem self_assign_faults h i d c : inv h -> vars h !! i = Some (Some (Some (d, c))) -> use_count h i = Ok 1 ->
  assign h i i = Fault.
Proof.
  intros Hinv Hi. destruct (inv_ptr _ Hinv _ _ _ Hi) as [[n Hn] Hd]. unfold use_count, assign, var. rewrite Hi. simpl.
  rewrite Hn. simpl. intros [= ->]. unfold delete_both. simpl. rewrite decide_True by done. simpl. rewrite Hi. simpl.
  by rewrite lookup_delete_eq.
Qed.

Definition unique : heap := mkHeap [Some (Some (1%positive, 1%positive))] {[1%positive]} {[1%positive := 1]}.

Lemma unique_inv : inv unique.
Proof.
  assert (run_ops (start 1) [New 0 1 1] = Ok unique) as E by (vm_compute; reflexivity).
  destruct (run_ops_inv [New 0 1 1] _ (inv_start 1)) as (h & Hr & Hi); [vm_compute; reflexivity|]. rewrite E in Hr. by injection Hr as <-.
Qed.

Lemma self_assign_faults_witness : inv unique /\ assign unique 0 0 = Fault.
Proof. split; [exact unique_inv|]. apply (self_assign_faults unique 0 1 1 unique_inv); reflexivity. Defined.

End SharedPtr.
