(* ===== verification/Vfs.v ===== *)
(** * Path lookup and the dentry cache ([file_management/VFS.cpp], [dentry.cpp], [superblock.cpp])

    The directory entries live in a heap and are shared: the number of pointers to one, which [use_count] returns, is the
    number of its occurrences in the cache, in the search path, as a parent of another entry and in the variables of the
    callers (see [SharedPtr]).  The file systems behind the superblocks are a class, [FileSystem], with the laws path
    lookup relies on.  The theorems show that what a path leads to does not depend on what the cache holds, and where
    that fails. *)

From stdpp Require Import base tactics numbers sets functions gmap list.
From S2P Require Import Prelude Bytes KString Fat.
Import Fat(Inode, i_type, IDir, IFile).
#[local] Existing Instance Fat.inode_type_eq_dec.
Open Scope Z_scope.

(** ** What the VFS asks of a file system

    [FS::get_child_dentry], [touch] and [mkdir] return a new entry with the parent and the name they were given, so
    that only its inode is a result.  [ls] returns the entries it prints; [write_buf_to_file] gets the entry (the inode of
    its parent, its name and its inode) and returns the inode with the new size. *)

Notation name := (list Z).

Class FileSystem (F : Type) := {
  fs_child : F -> Inode -> name -> res (option Inode * F);
  fs_touch : F -> Inode -> name -> res (option Inode * F);
  fs_mkdir : F -> Inode -> name -> res (option Inode * F);
  fs_ls : F -> Inode -> res (option (list (name * Inode)) * F);
  fs_write : F -> option Inode -> name -> Inode -> list Z -> res (option Inode * F);
  fs_root : F -> Inode
}.

Definition dot : name := [46].
Definition dotdot : name := [46; 46].

(** The tree of directories a file system holds: which inodes are its directories, and what their entries are. *)
Record tree := mkTree { is_dir_of : Inode -> Prop; child : Inode -> name -> option Inode }.

Class FsLaws (F : Type) `{FileSystem F} := {
  fs_rep : F -> tree -> Prop;
  rep_root s T : fs_rep s T -> is_dir_of T (fs_root s) /\ i_type (fs_root s) = IDir;
  rep_child s T i n : fs_rep s T -> is_dir_of T i -> i_type i = IDir -> n <> dot -> n <> dotdot ->
    exists s', fs_child s i n = Ok (child T i n, s') /\ fs_rep s' T /\ fs_root s' = fs_root s;
  rep_dir s T i n j : fs_rep s T -> is_dir_of T i -> child T i n = Some j -> n <> dot -> n <> dotdot -> i_type j = IDir ->
    is_dir_of T j
}.

Module Vfs.

Definition MAX_DENTRIES : nat := 200.
Definition PATH_CAPACITY : nat := 1024.
Definition MAX_DEVICES : nat := 4.

Definition slash : Z := 47.
(** An inode with its superblock; none for a purely virtual one. *)
Record VInode := mkVInode { superblock : option nat; node : Inode }.
Record Dentry := mkDentry { inode : VInode; parent : option positive; name_ : name }.

Section vfs.
Context {F : Type} `{FileSystem F}.

(** [heap]: the live entries.  [cache] is [dentries], [search] the search path.  [block_list] holds the mount
    point and the file system of each superblock, [fs_superblock] is [FS::superblock].  [held] stands for the
    pointers of open files and processes. *)
Record vfs := mkVfs {
  heap : gmap positive Dentry; cache : list (option positive); lowest_free_dentry : nat;
  search : list positive; held : list positive;
  block_list : list (name * nat); fss : list F; fs_superblock : list (option nat)
}.

Definition set_heap (s : vfs) h : vfs :=
  mkVfs h (cache s) (lowest_free_dentry s) (search s) (held s) (block_list s) (fss s) (fs_superblock s).
Definition set_cache (s : vfs) c l : vfs :=
  mkVfs (heap s) c l (search s) (held s) (block_list s) (fss s) (fs_superblock s).
Definition set_search (s : vfs) p : vfs :=
  mkVfs (heap s) (cache s) (lowest_free_dentry s) p (held s) (block_list s) (fss s) (fs_superblock s).
Definition set_fss (s : vfs) f : vfs :=
  mkVfs (heap s) (cache s) (lowest_free_dentry s) (search s) (held s) (block_list s) f (fs_superblock s).
Definition set_blocks (s : vfs) b f : vfs :=
  mkVfs (heap s) (cache s) (lowest_free_dentry s) (search s) (held s) b (fss s) f.

Definition dentry (s : vfs) (d : positive) : res Dentry := deref (heap s !! d).

(** [Superblock::get_fs]. *)
Definition get_fs (s : vfs) (k : nat) : res nat := '(_, f) ← deref (block_list s !! k); Ok f.

(** ** Reference counts *)

Definition occurs {A} `{EqDecision A} (x : A) (l : list A) : nat := length (filter (fun y => y = x) l).

(** The pointers to [d]: [locals] are the ones in the variables of the running functions. *)
Definition use_count (s : vfs) (locals : list positive) (d : positive) : nat :=
  (occurs (Some d) (cache s) + occurs d (search s) + occurs d (held s) + occurs d locals
   + size (filter (fun kv : positive * Dentry => parent kv.2 = Some d) (heap s)))%nat.

(** The end of a pointer to [d]: the last one deletes the entry, and with it the pointer to its parent. *)
Fixpoint release (fuel : nat) (locals : list positive) (s : vfs) (d : positive) : vfs :=
  match fuel with
  | O => s
  | S fuel =>
      if bool_decide (use_count s locals d = 0%nat) then
        match heap s !! d with
        | None => s
        | Some D =>
            let s := set_heap s (base.delete d (heap s)) in
            match parent D with None => s | Some p => release fuel locals s p end
        end
      else s
  end.

Definition drop_pointer (locals : list positive) (s : vfs) (d : positive) : vfs :=
  release (size (heap s)) locals s d.

(** [new Dentry(inode, parent, name)]. *)
Definition new_dentry (s : vfs) (D : Dentry) : vfs * positive :=
  let d := fresh (dom (heap s)) in (set_heap s (<[d := D]> (heap s)), d).

(** ** The cache *)

(** The loop of [get_cached_dentry]. *)
Fixpoint find_cached (s : vfs) (l : list (option positive)) (par : positive) (nm : name) : res (option positive) :=
  match l with
  | [] => Ok None
  | None :: l => find_cached s l par nm
  | Some d :: l =>
      D ← dentry s d;
      if bool_decide (name_ D = nm) && bool_decide (parent D = Some par) then Ok (Some d) else find_cached s l par nm
  end.

Definition get_cached_dentry (s : vfs) (par : positive) (nm : name) : res (option positive) := find_cached s (cache s) par nm.

(** The body of the loop of [free_unused_dentry_cache_entries]. *)
Definition free_unused_at (locals : list positive) (s : vfs) (i : nat) : vfs :=
  match cache s !! i with
  | Some (Some d) =>
      if bool_decide (use_count s locals d = 1%nat) then
        let s := set_cache s (<[i := None]> (cache s)) (lowest_free_dentry s) in
        let s := drop_pointer locals s d in
        set_cache s (cache s) (Nat.min (lowest_free_dentry s) i)
      else s
  | _ => set_cache s (cache s) (Nat.min i (lowest_free_dentry s))
  end.

Definition free_unused_dentry_cache_entries (locals : list positive) (s : vfs) : vfs :=
  foldl (free_unused_at locals) s (seq 2 (MAX_DENTRIES - 2)).

(** [while (lowest_free_dentry < MAX_DENTRIES && dentries[lowest_free_dentry]) lowest_free_dentry++], on the rest of
    the table. *)
Fixpoint next_free (l : list (option positive)) (n : nat) : nat :=
  match l with Some _ :: l => next_free l (S n) | _ => n end.

Definition cache_dentry (locals : list positive) (s : vfs) (d : positive) : bool * vfs :=
  let s := if bool_decide (lowest_free_dentry s = MAX_DENTRIES) then free_unused_dentry_cache_entries locals s else s in
  if bool_decide (lowest_free_dentry s = MAX_DENTRIES) then (false, s)
  else
    let n := lowest_free_dentry s in
    let c := <[n := Some d]> (cache s) in
    (true, set_cache s c (next_free (drop (S n) c) (S n))).

(** ** Lookup *)

Definition is_Dir (D : Dentry) : bool := bool_decide (i_type (node (inode D)) = IDir).

(** The loop over the cached entries: where it stops and the tokens that are left. *)
Fixpoint browse_cached (s : vfs) (d : positive) (ts : list name) : res (positive * list name) :=
  match ts with
  | [] => Ok (d, [])
  | t :: ts' =>
      D ← dentry s d;
      next ← (if bool_decide (t = dot) then Ok (Some d)
              else if bool_decide (t = dotdot) then Ok (parent D) else get_cached_dentry s d t);
      match next with
      | None => Ok (d, ts)
      | Some d' => D' ← dentry s d'; if is_Dir D' then browse_cached s d' ts' else Ok (d', ts')
      end
  end.

(** [fs->get_child_dentry(dentry, token)]: the inode of the new entry gets the superblock of the file system. *)
Definition child_dentry (s : vfs) (f : nat) (d : positive) (t : name) : res (option positive * vfs) :=
  D ← dentry s d; fs ← deref (fss s !! f); sb ← deref (fs_superblock s !! f);
  '(r, fs) ← fs_child fs (node (inode D)) t;
  let s := set_fss s (<[f := fs]> (fss s)) in
  match r with
  | None => Ok (None, s)
  | Some i => let '(s, d') := new_dentry s (mkDentry (mkVInode sb i) (Some d) t) in Ok (Some d', s)
  end.

(** The loop over the file system. *)
Fixpoint browse_manual (print_errors : bool) (locals : list positive) (f : nat) (s : vfs) (d : positive) (ts : list name)
    : res (option positive * vfs) :=
  match ts with
  | [] => Ok (Some d, s)
  | t :: ts =>
      D ← dentry s d;
      if negb (is_Dir D) then Ok (None, s)
      else
        '(next, s) ← (if bool_decide (t = dot) then Ok (Some d, s)
                      else if bool_decide (t = dotdot) then Ok (parent D, s) else child_dentry s f d t);
        match next with
        | None => Ok (None, s)
        | Some d' =>
            let '(ok, s) := cache_dentry (d' :: locals) s d' in
            if ok then browse_manual print_errors locals f s d' ts
            else if print_errors then Panic else Ok (None, drop_pointer locals s d')
        end
  end.

(** [browse_to(path, starting_point, print_errors)]. *)
Definition browse_from (s : vfs) (locals : list positive) (path : list Z) (start : positive) (print_errors : bool)
    : res (option positive * vfs) :=
  '(d, ts) ← browse_cached s start (KString.tokens [slash] path);
  D ← dentry s d;
  match superblock (inode D) with
  | None => Ok (None, s)
  | Some k =>
      if bool_decide (ts <> []) && negb (is_Dir D) then Ok (None, s)
      else f ← get_fs s k; browse_manual print_errors locals f s d ts
  end.

(** [*dentries[0]]. *)
Definition root (s : vfs) : res positive := o ← deref (cache s !! 0%nat); deref o.

(** The loop over the search path. *)
Fixpoint browse_search (s : vfs) (locals : list positive) (path : list Z) (print_errors : bool) (l : list positive)
    : res (option positive * vfs) :=
  match l with
  | [] => Ok (None, s)
  | p :: l =>
      '(r, s) ← browse_from s locals path p print_errors;
      match r with Some d => Ok (Some d, s) | None => browse_search s locals path print_errors l end
  end.

(** [browse_to(path, use_path_if_no_starting_slash, print_errors)]; a path is the characters before its terminator. *)
Definition browse_to (s : vfs) (locals : list positive) (path : list Z) (use_path print_errors : bool)
    : res (option positive * vfs) :=
  match path with
  | [] => Ok (None, s)
  | c :: _ =>
      if c =? slash then r ← root s; browse_from s locals path r print_errors
      else if negb use_path then Ok (None, s) else browse_search s locals path print_errors (search s)
  end.

(** [get_file_name]: what follows the last slash, with the length of what comes before. *)
Fixpoint last_slash (l : list Z) (i : nat) : option nat :=
  match l with
  | [] => None
  | c :: l => match last_slash l (S i) with Some n => Some n | None => if c =? slash then Some i else None end
  end.

Definition get_file_name (path : list Z) : res (nat * list Z) :=
  match path with
  | c :: _ => if c =? slash then i ← deref (last_slash path 0); Ok (S i, drop (S i) path) else Panic
  | [] => Panic
  end.

(** [get_file_parent_dentry]: the directory of a path and the name in it. *)
Definition get_file_parent_dentry (s : vfs) (locals : list positive) (path : list Z) (print_errors : bool)
    : res (option (positive * list Z) * vfs) :=
  match path with
  | c :: _ =>
      if negb (c =? slash) || bool_decide (path = [slash]) then Ok (None, s)
      else
        '(dir_len, file_name) ← get_file_name path;
        if bool_decide (file_name = []) then Ok (None, s)
        else
          '(r, s) ← browse_to s locals (take dir_len path) true print_errors;
          match r with
          | None => Ok (None, s)
          | Some d => D ← dentry s d; if is_Dir D then Ok (Some (d, file_name), s) else Ok (None, s)
          end
  | [] => Ok (None, s)
  end.

(** [get_file_dentry]; [pathname] is not null. *)
Definition get_file_dentry (s : vfs) (locals : list positive) (path : list Z) (print_errors : bool) (work_dir : option (list Z))
    : res (option positive * vfs) :=
  c ← Ok (default 0 (head path));
  if c =? slash then
    '(r, s) ← get_file_parent_dentry s locals path print_errors;
    match r with
    | None => Ok (None, s)
    | Some (d, file_name) => browse_from s (d :: locals) file_name d print_errors
    end
  else
    match work_dir with
    | None => Ok (None, s)
    | Some w =>
        '(r, s) ← browse_to s locals w false print_errors;
        match r with None => Ok (None, s) | Some d => browse_from s (d :: locals) path d print_errors end
    end.

(** [touch]; whether the new entry fits the cache does not matter. *)
Definition touch (s : vfs) (locals : list positive) (path : list Z) : res (option positive * vfs) :=
  '(r, s) ← get_file_parent_dentry s locals path true;
  match r with
  | None => Ok (None, s)
  | Some (d, file_name) =>
      D ← dentry s d; k ← deref (superblock (inode D)); f ← get_fs s k;
      fs ← deref (fss s !! f); sb ← deref (fs_superblock s !! f);
      '(r, fs) ← fs_touch fs (node (inode D)) file_name;
      let s := set_fss s (<[f := fs]> (fss s)) in
      match r with
      | None => Ok (None, s)
      | Some i =>
          let '(s, d') := new_dentry s (mkDentry (mkVInode sb i) (Some d) file_name) in
          Ok (Some d', (cache_dentry (d' :: d :: locals) s d').2)
      end
  end.

(** The copy of the path in [mkdir], in a buffer of [strlen + 1] bytes: its end, the parent's path and the name. *)
Definition mkdir_split (path : list Z) : res (list Z * list Z) :=
  let len := Z.of_nat (length path) in
  let buf := path ++ [0] in
  '(buf, path_length) ←
    (if bool_decide (last path = Some slash) then Ok (buf, len)
     else buf ← Bytes.patch_in buf len [slash]; buf ← Bytes.patch_in buf (len + 1) [0]; Ok (buf, len + 1));
  i ← deref (last_slash (take (Z.to_nat (path_length - 1)) path) 0);
  buf ← Bytes.patch_in buf (Z.of_nat i + 1) (replicate (Z.to_nat (path_length - Z.of_nat i)) 0);
  Ok (Bytes.cstr buf, drop (S i) path).

Definition mkdir (s : vfs) (locals : list positive) (path : list Z) : res (bool * vfs) :=
  match path with
  | c :: _ =>
      if negb (c =? slash) || bool_decide (path = [slash]) then Ok (false, s)
      else
        '(parent_dir_path, dir_name) ← mkdir_split path;
        '(r, s) ← browse_to s locals parent_dir_path true true;
        match r with
        | None => Ok (false, s)
        | Some d =>
            D ← dentry s d;
            if negb (is_Dir D) then Ok (false, s)
            else
              k ← deref (superblock (inode D)); f ← get_fs s k;
              fs ← deref (fss s !! f); sb ← deref (fs_superblock s !! f);
              '(r, fs) ← fs_mkdir fs (node (inode D)) dir_name;
              let s := set_fss s (<[f := fs]> (fss s)) in
              match r with
              | None => Ok (false, s)
              | Some i =>
                  let '(s, d') := new_dentry s (mkDentry (mkVInode sb i) (Some d) dir_name) in
                  let s := (cache_dentry (d' :: locals) s d').2 in
                  Ok (true, drop_pointer locals s d')
              end
        end
  | [] => Ok (false, s)
  end.

(** [ls]: what is printed. *)
Definition ls (s : vfs) (locals : list positive) (path : list Z) : res (option (list (name * Inode)) * vfs) :=
  if negb (bool_decide (head path = Some slash)) then Ok (None, s)
  else
    '(r, s) ← browse_to s locals path true true;
    match r with
    | None => Ok (None, s)
    | Some d =>
        D ← dentry s d;
        if negb (is_Dir D) then Ok (None, s)
        else
          k ← deref (superblock (inode D)); f ← get_fs s k; fs ← deref (fss s !! f);
          '(r, fs) ← fs_ls fs (node (inode D)); Ok (r, set_fss s (<[f := fs]> (fss s)))
    end.

(** [write_buf_to_file]: the file is made if it is not there; its inode gets the new size. *)
Definition write_dentry (s : vfs) (d : positive) (data : list Z) : res (bool * vfs) :=
  D ← dentry s d; k ← deref (superblock (inode D)); f ← get_fs s k; fs ← deref (fss s !! f);
  P ← match parent D with None => Ok None | Some p => P ← dentry s p; Ok (Some (node (inode P))) end;
  '(r, fs) ← fs_write fs P (name_ D) (node (inode D)) data;
  let s := set_fss s (<[f := fs]> (fss s)) in
  match r with
  | None => Ok (false, s)
  | Some i => Ok (true, set_heap s (<[d := mkDentry (mkVInode (superblock (inode D)) i) (parent D) (name_ D)]> (heap s)))
  end.

Definition write_buf_to_file (s : vfs) (locals : list positive) (path : list Z) (data : list Z) : res (bool * vfs) :=
  '(r, s) ← get_file_dentry s locals path false None;
  match r with
  | Some d => write_dentry s d data
  | None =>
      '(r, s) ← touch s locals path;
      match r with None => Ok (false, s) | Some d => write_dentry s d data end
  end.

(** [add_to_path]. *)
Definition add_to_path (s : vfs) (path : list Z) : res (bool * vfs) :=
  '(r, s) ← browse_to s [] path true true;
  match r with
  | None => Ok (false, s)
  | Some d =>
      D ← dentry s d;
      if negb (is_Dir D) then Ok (false, s)
      else if bool_decide (length (search s) = PATH_CAPACITY) then Fault
      else Ok (true, set_search s (search s ++ [d]))
  end.

(** ** Absolute paths *)

(** [Dentry::absolute_path_length] and [write_name]: up the parents, at most as many as there are entries. *)
Fixpoint absolute_path_length (fuel : nat) (s : vfs) (d : positive) : res Z :=
  match fuel with
  | O => NoFuel
  | S fuel =>
      D ← dentry s d;
      n ← match parent D with None => Ok 0 | Some p => absolute_path_length fuel s p end;
      Ok (Z.of_nat (length (name_ D)) + 1 + n)
  end.

Fixpoint write_name (fuel : nat) (s : vfs) (d : positive) (buf : list Z) (str : Z) (is_last : bool) : res (list Z * Z) :=
  match fuel with
  | O => NoFuel
  | S fuel =>
      D ← dentry s d;
      '(buf, str) ← match parent D with None => Ok (buf, str) | Some p => write_name fuel s p buf str false end;
      buf ← Bytes.patch_in buf str (name_ D);
      let str := str + Z.of_nat (length (name_ D)) in
      '(buf, str) ← (if bool_decide (is_Some (parent D)) && negb is_last
                     then buf ← Bytes.patch_in buf str [slash]; Ok (buf, str + 1) else Ok (buf, str));
      buf ← Bytes.patch_in buf str [0];
      Ok (buf, str)
  end.

(** [Dentry::get_absolute_path]; [junk] is what the new buffer holds. *)
Definition dentry_path (fuel : nat) (s : vfs) (junk : Z -> list Z) (d : positive) : res (list Z) :=
  n ← absolute_path_length fuel s d;
  abs_name ← Bytes.patch_in (junk n) 0 [0];
  '(abs_name, _) ← write_name fuel s d abs_name 0 true;
  Ok (Bytes.cstr abs_name).

(** [VFS::get_absolute_path]. *)
Definition get_absolute_path (s : vfs) (locals : list positive) (junk : Z -> list Z) (path : list Z)
    : res (option (list Z) * vfs) :=
  '(r, s) ← browse_to s locals path true true;
  match r with
  | None => Ok (None, s)
  | Some d =>
      D ← dentry s d;
      if is_Dir D then Ok (None, s) else p ← dentry_path (S (size (heap s))) s junk d; Ok (Some p, s)
  end.

(** ** Mounting *)

(** [Superblock::add]. *)
Definition add_superblock (s : vfs) (mount_pathname : name) (f : nat) : bool * vfs :=
  if bool_decide (length (block_list s) = MAX_DEVICES) || existsb (fun b => bool_decide (b.1 = mount_pathname)) (block_list s)
  then (false, s)
  else (true, set_blocks s (block_list s ++ [(mount_pathname, f)]) (<[f := Some (length (block_list s))]> (fs_superblock s))).

(** The end of [mount] and [mount_rootfs]: the new root entry.  The temporary pointer that [cache_dentry] gets has
    deleted the entry when the cache refuses it, and [delete d] deletes it again. *)
Definition mount_root (s : vfs) (f : nat) (par : option positive) (nm : name) : res (bool * vfs) :=
  fs ← deref (fss s !! f); sb ← deref (fs_superblock s !! f);
  let '(s, d) := new_dentry s (mkDentry (mkVInode sb (fs_root fs)) par nm) in
  let '(ok, s) := cache_dentry [d] s d in
  if ok then Ok (true, s) else Fault.

Definition mnt : name := [109; 110; 116].

Definition mount (s : vfs) (f : nat) : res (bool * vfs) :=
  let x := 48 + Z.of_nat (length (block_list s)) in
  let '(ok, s) := add_superblock s (mnt ++ [slash; x]) f in
  if negb ok then Ok (false, s) else o ← deref (cache s !! 1%nat); par ← deref o; mount_root s f (Some par) [x].

Definition mount_rootfs (s : vfs) (f : nat) : res (bool * vfs) :=
  o ← deref (cache s !! 0%nat);
  if bool_decide (is_Some o) then Ok (false, s)
  else
    let '(ok, s) := add_superblock s [slash] f in
    if negb ok then Ok (false, s) else mount_root s f None [slash].

Fixpoint mount_all (s : vfs) (l : list nat) : res vfs :=
  match l with [] => Ok s | f :: l => '(_, s) ← mount s f; mount_all s l end.

Definition MAX_FS : nat := 10.

(** [VFS::init] up to the search path, for the file systems found on the drives: the root, [/mnt] and the rest. *)
Definition init_mounts (s : vfs) : res vfs :=
  _ ← ensure (bool_decide (fss s <> []));
  '(_, s) ← mount_rootfs s 0%nat;
  r ← root s;
  let '(s, d) := new_dentry s (mkDentry (mkVInode None (Fat.mkInode 0 0 IDir 1 1)) (Some r) mnt) in
  let '(ok, s) := cache_dentry [d] s d in
  if negb ok then Ok (drop_pointer [] s d)
  else if bool_decide (MAX_FS <= length (fss s))%nat then Ok s
  else mount_all s (seq 0 (length (fss s))).

Definition init (s : vfs) : res vfs :=
  s ← init_mounts s; '(_, s) ← add_to_path s [slash; 98; 105; 110]; Ok s.

(** Before [init]. *)
Definition boot (l : list F) : vfs :=
  mkVfs ∅ (replicate MAX_DENTRIES None) 0 [] [] [] l (replicate (length l) None).

(** ** Where an entry is *)

Inductive located (h : gmap positive Dentry) : positive -> list name -> Prop :=
| loc_root d D : h !! d = Some D -> parent D = None -> located h d []
| loc_child d D p l : h !! d = Some D -> parent D = Some p -> located h p l -> located h d (name_ D :: l).

Lemma located_live h d l : located h d l -> is_Some (h !! d).
Proof. destruct 1; eauto. Qed.

Lemma located_mono h h' d l : h ⊆ h' -> located h d l -> located h' d l.
Proof.
  intros Hs. induction 1; [eapply loc_root|eapply loc_child]; eauto using lookup_weaken.
Qed.

(** Deleting an entry that is nobody's parent moves no other. *)
Lemma located_delete h x d l : (forall y D, h !! y = Some D -> parent D <> Some x) -> d <> x -> located h d l ->
  located (base.delete x h) d l.
Proof.
  intros Hx Hne Hl. revert Hne. induction Hl as [d D Hd Hp|d D p l Hd Hp Hl IH]; intros Hne.
  - eapply loc_root; [|done]. by rewrite lookup_delete_ne.
  - eapply loc_child; [by rewrite lookup_delete_ne|done|]. apply IH. intros ->. by eapply Hx.
Qed.

(** ** What deleting entries keeps *)

Definition pinned (locals : list positive) (s : vfs) (d : positive) : Prop :=
  Some d ∈ cache s \/ d ∈ search s \/ d ∈ held s \/ d ∈ locals.

Record shrinks (locals : list positive) (s s' : vfs) : Prop := mkShrinks {
  shrinks_heap : heap s' ⊆ heap s;
  shrinks_live d : pinned locals s d -> is_Some (heap s !! d) -> is_Some (heap s' !! d);
  shrinks_located d l : is_Some (heap s' !! d) -> located (heap s) d l -> located (heap s') d l;
  shrinks_rest : cache s' = cache s /\ lowest_free_dentry s' = lowest_free_dentry s /\ search s' = search s /\
    held s' = held s /\ block_list s' = block_list s /\ fss s' = fss s /\ fs_superblock s' = fs_superblock s
}.

Lemma shrinks_refl locals s : shrinks locals s s.
Proof. by split. Qed.

Lemma shrinks_trans locals s1 s2 s3 : shrinks locals s1 s2 -> shrinks locals s2 s3 -> shrinks locals s1 s3.
Proof.
  intros [Hh Hl Hp (Hc & ? & Hs & Hd & ? & ? & ?)] [Hh' Hl' Hp' (? & ? & ? & ? & ? & ? & ?)]. split.
  - by etrans.
  - intros d Hpin Hlive. apply Hl'; [|by apply Hl]. unfold pinned in *. by rewrite Hc, Hs, Hd.
  - intros d l Hlive Hloc. apply Hp', Hp; [done| |done]. destruct Hlive as [D HD]. eauto using lookup_weaken.
  - naive_solver congruence.
Qed.

Lemma occurs_zero {A} `{EqDecision A} (x : A) l : occurs x l = 0%nat <-> x ∉ l.
Proof.
  unfold occurs. rewrite length_zero_iff_nil. split.
  - intros E Hx. assert (x ∈ filter (fun y => y = x) l) as Hin by by apply list_elem_of_filter. rewrite E in Hin. by apply not_elem_of_nil in Hin.
  - intros Hx. destruct (filter _ l) as [|y l'] eqn:E; [done|]. assert (y ∈ filter (fun y => y = x) l) as Hy by (rewrite E; left).
    apply list_elem_of_filter in Hy as [-> ?]. done.
Qed.

Lemma unused s locals d : use_count s locals d = 0%nat ->
  ~ pinned locals s d /\ (forall y D, heap s !! y = Some D -> parent D <> Some d).
Proof.
  unfold use_count. intros E. split.
  - unfold pinned. assert (occurs (Some d) (cache s) = 0 /\ occurs d (search s) = 0 /\ occurs d (held s) = 0 /\ occurs d locals = 0)%nat
      as (?%occurs_zero & ?%occurs_zero & ?%occurs_zero & ?%occurs_zero) by lia. tauto.
  - intros y D Hy Hp. assert (size (filter (fun kv : positive * Dentry => parent kv.2 = Some d) (heap s)) = 0%nat) as Hz by lia.
    apply map_size_empty_inv in Hz. eapply map_filter_empty_not_lookup in Hz; [|exact Hp]. by apply Hz.
Qed.

Lemma release_shrinks fuel locals : forall s d, shrinks locals s (release fuel locals s d).
Proof.
  induction fuel as [|fuel IH]; intros s d; simpl; [apply shrinks_refl|].
  case_bool_decide as Hu; [|apply shrinks_refl]. destruct (heap s !! d) as [D|] eqn:HD; [|apply shrinks_refl].
  destruct (unused _ _ _ Hu) as [Hpin Hpar].
  assert (shrinks locals s (set_heap s (base.delete d (heap s)))) as Hs.
  { split; simpl; [apply delete_subseteq| | |done].
    - intros e Hp He. rewrite lookup_delete_ne; [done|]. by intros ->.
    - intros e l He. apply located_delete; [done|]. intros ->. rewrite lookup_delete_eq in He. by destruct He. }
  destruct (parent D); [|done]. eapply shrinks_trans; [exact Hs|apply IH].
Qed.

End vfs.
Arguments vfs F : clear implicits.

(** ** The name space

    What a path means, without a cache: the trees [T] of the file systems, the mount points [m] and the root.  A
    location is the list of the names that lead to it, the last one first; its node is a file system, none if it is
    virtual, and an inode. *)

Section name_space.
Context (T : nat -> tree) (m : list name -> option (option nat * Inode)) (root_node : option nat * Inode).

Fixpoint node_at (l : list name) : option (option nat * Inode) :=
  match l with
  | [] => Some root_node
  | n :: l' =>
      match m l with
      | Some x => Some x
      | None =>
          match node_at l' with
          | Some (Some f, i) =>
              if bool_decide (i_type i = IDir /\ n <> dot /\ n <> dotdot) then (fun j => (Some f, j)) <$> child (T f) i n else None
          | _ => None
          end
      end
  end.

Fixpoint resolve (l : list name) (ts : list name) : option (list name) :=
  match ts with
  | [] => Some l
  | t :: ts =>
      match node_at l with
      | Some (_, i) =>
          if bool_decide (i_type i = IDir) then
            if bool_decide (t = dot) then resolve l ts
            else if bool_decide (t = dotdot) then match l with [] => None | _ :: l => resolve l ts end
            else match node_at (t :: l) with Some _ => resolve (t :: l) ts | None => None end
          else None
      | None => None
      end
  end.

(** A virtual node is no answer. *)
Definition answer (l : list name) (ts : list name) : option (list name) :=
  match resolve l ts with
  | Some l' => match node_at l' with Some (Some _, _) => Some l' | _ => None end
  | None => None
  end.

(** A path that goes up out of a file system, or goes down into a mount point after it went up. *)
Fixpoint crosses (up : bool) (l : list name) (ts : list name) : bool :=
  match ts with
  | [] => false
  | t :: ts =>
      if bool_decide (t = dot) then crosses up l ts
      else if bool_decide (t = dotdot) then bool_decide (l = []) || bool_decide (is_Some (m l)) || crosses true (tail l) ts
      else (up && bool_decide (is_Some (m (t :: l)))) || crosses up (t :: l) ts
  end.

End name_space.

(** ** The invariant *)

Section invariant.
Context {F : Type} `{FsLaws F}.
Context (T : nat -> tree) (m : list name -> option (option nat * Inode)) (root_node : option nat * Inode).
Implicit Types s : vfs F.

Notation node_at := (node_at T m root_node).

(** An inode of an entry is the one of its node, and its superblock is one of the node's file system. *)
Definition agrees s (i : VInode) (x : option nat * Inode) : Prop :=
  node i = x.2 /\
  match superblock i, x.1 with
  | None, None => True
  | Some k, Some f => exists nm, block_list s !! k = Some (nm, f)
  | _, _ => False
  end.

Record inv s : Prop := mkInv {
  inv_len : length (cache s) = MAX_DENTRIES;
  inv_low : (lowest_free_dentry s <= MAX_DENTRIES)%nat /\
    (forall j, (j < lowest_free_dentry s)%nat -> exists d, cache s !! j = Some (Some d)) /\
    ((lowest_free_dentry s < MAX_DENTRIES)%nat -> cache s !! lowest_free_dentry s = Some None);
  inv_live d : pinned [] s d -> is_Some (heap s !! d);
  inv_heap d D : heap s !! d = Some D -> exists l x, located (heap s) d l /\ node_at l = Some x /\ agrees s (inode D) x;
  inv_root : exists r D, cache s !! 0%nat = Some (Some r) /\ heap s !! r = Some D /\ parent D = None;
  inv_root_name d D : heap s !! d = Some D -> parent D = None -> name_ D = [slash];
  inv_block k nm f : block_list s !! k = Some (nm, f) -> is_Some (fss s !! f) /\
    exists k' nm', fs_superblock s !! f = Some (Some k') /\ block_list s !! k' = Some (nm', f);
  inv_fs f fs : fss s !! f = Some fs -> fs_rep fs (T f)
}.

(** The mount points are in the cache, under every entry of the directory they are in. *)
Definition mounted s : Prop := forall t l p, is_Some (m (t :: l)) -> located (heap s) p l ->
  exists d D, Some d ∈ cache s /\ heap s !! d = Some D /\ parent D = Some p /\ name_ D = t.

(** The mount points are directories of their file systems and hang off the root or another mount point. *)
Record mounts_ok : Prop := mkMounts {
  mounts_root : forall f, root_node.1 = Some f -> is_dir_of (T f) root_node.2;
  mounts_root_dir : i_type root_node.2 = IDir;
  mounts_dir l f i : m l = Some (Some f, i) -> is_dir_of (T f) i;
  mounts_closed t l : is_Some (m (t :: l)) -> l = [] \/ is_Some (m l);
  mounts_parent t l : is_Some (m (t :: l)) -> exists f i, node_at l = Some (f, i) /\ i_type i = IDir
}.

Lemma located_fun h d l l' : located h d l -> located h d l' -> l = l'.
Proof.
  intros Hl. revert l'. induction Hl as [d D Hd Hp|d D p l Hd Hp Hl IH]; intros l' Hl'; destruct Hl'; simplify_eq; [done|].
  f_equal. by apply IH.
Qed.

Lemma inv_shrinks s s' locals : inv s -> shrinks locals s s' -> inv s'.
Proof.
  intros [Hlen Hlow Hlive Hheap (r & D & Hr & HrD & HrP) Hrn Hblk Hfs] [Hs Hl Hloc (Ec & El & Es & Eh & Eb & Ef & Efs)].
  assert (forall d, pinned [] s d -> is_Some (heap s' !! d)) as Hlive'.
  { intros d Hp. apply Hl; [|by apply Hlive]. unfold pinned in *. set_solver. }
  split; rewrite ?Ec, ?El, ?Eb, ?Ef, ?Efs; try done.
  - intros d Hp. apply Hlive'. unfold pinned in *. by rewrite <- Ec, <- Es, <- Eh.
  - intros d E HdE. destruct (Hheap d E) as (l & x & Hdl & Hx & Hag); [by eapply lookup_weaken|]. exists l, x.
    split; [by apply Hloc|]. split; [done|]. unfold agrees in *. by rewrite Eb.
  - exists r, D. split; [done|]. split; [|done]. destruct (Hlive' r) as [D' HD']; [left; by eapply list_elem_of_lookup_2|].
    pose proof (lookup_weaken _ _ _ _ HD' Hs). naive_solver congruence.
  - intros e E HE. apply (Hrn e). by eapply lookup_weaken.
Qed.

(** What changing the cache keeps: the entries the running functions point to, and where entries are. *)
Record keeps (locals : list positive) s s' : Prop := mkKeeps {
  keeps_heap : heap s' ⊆ heap s;
  keeps_live d : d ∈ locals -> is_Some (heap s !! d) -> is_Some (heap s' !! d);
  keeps_located d l : is_Some (heap s' !! d) -> located (heap s) d l -> located (heap s') d l;
  keeps_fs : search s' = search s /\ held s' = held s /\ block_list s' = block_list s /\ fss s' = fss s /\
    fs_superblock s' = fs_superblock s
}.

Lemma keeps_refl locals s : keeps locals s s.
Proof. by split. Qed.

Lemma keeps_trans locals s1 s2 s3 : keeps locals s1 s2 -> keeps locals s2 s3 -> keeps locals s1 s3.
Proof.
  intros [Hh Hl Hp (? & ? & ? & ? & ?)] [Hh' Hl' Hp' (? & ? & ? & ? & ?)]. split.
  - by etrans.
  - naive_solver.
  - intros d l Hlive Hloc. apply Hp', Hp; [done| |done]. destruct Hlive. eauto using lookup_weaken.
  - naive_solver congruence.
Qed.

Lemma shrinks_keeps locals s s' : shrinks locals s s' -> keeps locals s s'.
Proof. intros [Hh Hl Hp ?]. split; [done| |done|naive_solver]. intros d Hd. apply Hl. unfold pinned. naive_solver. Qed.

Lemma inv_evict s i d : inv s -> cache s !! i = Some (Some d) -> i <> 0%nat ->
  inv (set_cache s (<[i := None]> (cache s)) (Nat.min (lowest_free_dentry s) i)).
Proof.
  intros [Hlen (Hle & Hocc & Hfree) Hlive Hheap (r & D & Hr & HrD & HrP) Hrn Hblk Hfs] Hi Hne.
  pose proof (lookup_lt_Some _ _ _ Hi) as Hlt.
  split; simpl; try done.
  - by rewrite length_insert.
  - split; [lia|]. split.
    + intros j Hj. rewrite list_lookup_insert_ne by lia. apply Hocc. lia.
    + intros Hm. destruct (decide (Nat.min (lowest_free_dentry s) i = i)) as [->|Hmin].
      * by apply list_lookup_insert_eq.
      * rewrite list_lookup_insert_ne by lia. rewrite Nat.min_l by lia. apply Hfree. lia.
  - intros e Hp. apply Hlive. unfold pinned in *. simpl in Hp. destruct Hp as [Hp|?]; [left|by right].
    apply list_elem_of_lookup in Hp as [j Hj]. destruct (decide (i = j)) as [->|Hij].
    + by rewrite list_lookup_insert_eq in Hj.
    + rewrite list_lookup_insert_ne in Hj by done. by eapply list_elem_of_lookup_2.
  - exists r, D. by rewrite list_lookup_insert_ne.
Qed.

Lemma free_unused_at_ok locals s i : inv s -> i <> 0%nat -> (i < MAX_DENTRIES)%nat ->
  inv (free_unused_at locals s i) /\ keeps locals s (free_unused_at locals s i) /\
  (lowest_free_dentry (free_unused_at locals s i) <= lowest_free_dentry s)%nat.
Proof.
  intros Hinv Hne Hi. unfold free_unused_at. destruct (inv_low _ Hinv) as (Hle & Hocc & Hfree).
  destruct (cache s !! i) as [[d|]|] eqn:Hd; [|..].
  - case_bool_decide as Hu; [|split; [done|split; [apply keeps_refl|done]]].
    pose proof (inv_evict _ _ _ Hinv Hd Hne) as Hinv1. set (c := <[i := None]> (cache s)) in *.
    set (s1 := set_cache s c (lowest_free_dentry s)). set (s2 := drop_pointer locals s1 d).
    assert (shrinks locals s1 s2) as Hs by apply release_shrinks.
    destruct Hs as [Hh Hl Hp (Ec & El & Es & Eh & Eb & Ef & Efs)].
    assert (shrinks locals (set_cache s c (Nat.min (lowest_free_dentry s) i))
      (set_cache s2 (cache s2) (Nat.min (lowest_free_dentry s2) i))) as Hs'.
    { split; simpl; [done|exact Hl|exact Hp|]. rewrite El, Ec. naive_solver. }
    split; [by eapply inv_shrinks|]. split; [|simpl; rewrite El; simpl; lia].
    apply shrinks_keeps in Hs'. by destruct Hs'; split.
  - rewrite Nat.min_r; [destruct s; split; [done|split; [apply keeps_refl|done]]|].
    destruct (decide (i < lowest_free_dentry s)%nat) as [Hlt|]; [|lia]. destruct (Hocc _ Hlt). congruence.
  - apply lookup_ge_None_1 in Hd. rewrite (inv_len _ Hinv) in Hd. lia.
Qed.

Lemma free_unused_ok locals : forall l s, Forall (fun i => i <> 0 /\ i < MAX_DENTRIES)%nat l -> inv s ->
  inv (foldl (free_unused_at locals) s l) /\ keeps locals s (foldl (free_unused_at locals) s l) /\
  (lowest_free_dentry (foldl (free_unused_at locals) s l) <= lowest_free_dentry s)%nat.
Proof.
  induction l as [|i l IH]; intros s Hl Hinv; [split; [done|split; [apply keeps_refl|done]]|].
  inversion Hl as [|?? [Hi1 Hi2] Hl']; subst. destruct (free_unused_at_ok locals s i Hinv Hi1 Hi2) as (Hinv1 & Hk1 & Hle1).
  destruct (IH _ Hl' Hinv1) as (Hinv2 & Hk2 & Hle2). simpl. split; [done|]. split; [by eapply keeps_trans|lia].
Qed.

(** No entry but the first two can be freed. *)
Definition stuck (locals : list positive) s : Prop := forall i, (2 <= i < MAX_DENTRIES)%nat ->
  exists d, cache s !! i = Some (Some d) /\ use_count s locals d <> 1%nat.

(** A pass that frees nothing found every entry in use, and changed nothing. *)
Lemma free_unused_stuck locals : forall l s, Forall (fun i => i <> 0 /\ i < MAX_DENTRIES)%nat l -> inv s ->
  lowest_free_dentry (foldl (free_unused_at locals) s l) = MAX_DENTRIES ->
  foldl (free_unused_at locals) s l = s /\
  Forall (fun i => exists d, cache s !! i = Some (Some d) /\ use_count s locals d <> 1%nat) l.
Proof.
  induction l as [|i l IH]; intros s Hl Hinv Hlow; [done|]. inversion Hl as [|?? [Hi1 Hi2] Hl']; subst. simpl in *.
  destruct (free_unused_at_ok locals s i Hinv Hi1 Hi2) as (Hinv1 & Hk1 & Hle1).
  destruct (free_unused_ok locals l _ Hl' Hinv1) as (_ & _ & Hle2).
  assert (exists d, cache s !! i = Some (Some d) /\ use_count s locals d <> 1%nat) as (d & Hd & Hu).
  { destruct (inv_low _ Hinv1) as (Hle & _). unfold free_unused_at in *. destruct (cache s !! i) as [[d|]|]; simpl in *; [|lia..].
    case_bool_decide; simpl in *; [lia|eauto]. }
  assert (free_unused_at locals s i = s) as E by (unfold free_unused_at; by rewrite Hd, bool_decide_eq_false_2).
  rewrite E in *. destruct (IH s Hl' Hinv Hlow) as [E' Hf]. split; [done|]. constructor; eauto.
Qed.

Lemma next_free_spec l : forall n, (n <= next_free l n <= n + length l)%nat /\
  (forall j, (n <= j < next_free l n)%nat -> exists d, l !! (j - n)%nat = Some (Some d)) /\
  ((next_free l n < n + length l)%nat -> l !! (next_free l n - n)%nat = Some None).
Proof.
  induction l as [|[d|] l IH]; intros n; simpl.
  - split; [lia|]. split; [intros; lia|lia].
  - destruct (IH (S n)) as (Hle & Hocc & Hfree). split; [lia|]. split.
    + intros j Hj. destruct (decide (j = n)) as [->|]; [rewrite Nat.sub_diag; eauto|].
      destruct (Hocc j) as [e He]; [lia|]. exists e. by replace (j - n)%nat with (S (j - S n)) by lia.
    + intros Hlt. replace (next_free l (S n) - n)%nat with (S (next_free l (S n) - S n)) by lia. apply Hfree. lia.
  - split; [lia|]. split; [intros; lia|]. intros _. by rewrite Nat.sub_diag.
Qed.

Lemma inv_fill s d : inv s -> is_Some (heap s !! d) -> (lowest_free_dentry s < MAX_DENTRIES)%nat ->
  let n := lowest_free_dentry s in let c := <[n := Some d]> (cache s) in
  inv (set_cache s c (next_free (drop (S n) c) (S n))).
Proof.
  intros [Hlen (Hle & Hocc & Hfree) Hlive Hheap (r & D & Hr & HrD & HrP) Hrn Hblk Hfs] Hd Hlt n c.
  specialize (Hfree Hlt). assert (length c = MAX_DENTRIES) as Hlc by (unfold c; by rewrite length_insert).
  destruct (next_free_spec (drop (S n) c) (S n)) as (Hle' & Hocc' & Hfree'). rewrite length_drop, Hlc in Hle', Hfree'.
  assert (n < MAX_DENTRIES)%nat by done.
  split; simpl; try done.
  - split; [lia|]. split.
    + intros j Hj. destruct (decide (j < n)%nat) as [Hjn|].
      * unfold c. rewrite list_lookup_insert_ne by lia. by apply Hocc.
      * destruct (decide (j = n)) as [->|]; [exists d; apply list_lookup_insert_eq; rewrite Hlen; done|].
        destruct (Hocc' j) as [e He]; [lia|]. exists e. rewrite lookup_drop in He. by replace (S n + (j - S n))%nat with j in He by lia.
    + intros Hm. specialize (Hfree' ltac:(lia)). rewrite lookup_drop in Hfree'.
      by replace (S n + (next_free (drop (S n) c) (S n) - S n))%nat with (next_free (drop (S n) c) (S n)) in Hfree' by lia.
  - intros e Hp. unfold pinned in Hp. simpl in Hp. destruct Hp as [Hp|Hp]; [|apply Hlive; by right].
    apply list_elem_of_lookup in Hp as [j Hj]. destruct (decide (n = j)) as [<-|Hij].
    + unfold c in Hj. rewrite list_lookup_insert_eq in Hj by (rewrite Hlen; done). by simplify_eq.
    + unfold c in Hj. rewrite list_lookup_insert_ne in Hj by done. apply Hlive. left. by eapply list_elem_of_lookup_2.
  - exists r, D. split; [|done]. unfold c. rewrite list_lookup_insert_ne; [done|]. intros E. unfold n in E. rewrite E in Hfree. congruence.
Qed.

Lemma cache_dentry_ok locals s d : inv s -> is_Some (heap s !! d) -> d ∈ locals ->
  let '(ok, s') := cache_dentry locals s d in
  inv s' /\ keeps locals s s' /\ (ok = false -> s' = s /\ lowest_free_dentry s = MAX_DENTRIES /\ stuck locals s) /\
  (ok = true -> Some d ∈ cache s').
Proof.
  intros Hinv Hd Hloc. unfold cache_dentry.
  assert (Forall (fun i => i <> 0 /\ i < MAX_DENTRIES)%nat (seq 2 (MAX_DENTRIES - 2))) as Hseq.
  { apply Forall_forall. intros i Hi%elem_of_seq. unfold MAX_DENTRIES in *. lia. }
  set (s1 := if bool_decide (lowest_free_dentry s = MAX_DENTRIES) then free_unused_dentry_cache_entries locals s else s).
  assert (inv s1 /\ keeps locals s s1 /\ (lowest_free_dentry s1 = MAX_DENTRIES -> s1 = s /\ stuck locals s)) as (Hinv1 & Hk1 & Hst).
  { unfold s1, free_unused_dentry_cache_entries. clear s1.
    assert (forall i, (2 <= i < MAX_DENTRIES)%nat -> i ∈ seq 2 (MAX_DENTRIES - 2)) as Hall.
    { intros i Hi. apply elem_of_seq. lia. }
    revert Hseq Hall. generalize (seq 2 (MAX_DENTRIES - 2)). intros l Hseq Hall. case_bool_decide as Hfull.
    - destruct (free_unused_ok locals _ s Hseq Hinv) as (? & ? & _). split; [done|]. split; [done|]. intros Hl.
      destruct (free_unused_stuck locals _ s Hseq Hinv Hl) as [E Hf]. split; [done|]. intros i Hi.
      rewrite Forall_forall in Hf. by apply Hf, Hall.
    - split; [done|]. split; [apply keeps_refl|]. intros ?. congruence. }
  case_bool_decide as Hfull.
  - destruct (Hst Hfull) as [E ?]. split; [done|]. split; [done|]. split; [|done]. intros _. rewrite E in Hfull. done.
  - destruct (inv_low _ Hinv1) as (Hle & _). destruct (keeps_live _ _ _ Hk1 d Hloc Hd) as [D HD].
    pose proof (inv_fill s1 d Hinv1 ltac:(eauto) ltac:(lia)) as Hf. split; [exact Hf|]. split; [|split; [done|]].
    + destruct Hk1. by split.
    + intros _. simpl. apply list_elem_of_insert. rewrite (inv_len _ Hinv1). lia.
Qed.

(** ** Lookup in the cache *)

Lemma inv_located s d D : inv s -> heap s !! d = Some D -> exists l, located (heap s) d l.
Proof. intros Hinv (l & _ & Hl & _)%(inv_heap _ Hinv). eauto. Qed.

Lemma inv_agrees s d D l : inv s -> heap s !! d = Some D -> located (heap s) d l ->
  exists x, node_at l = Some x /\ agrees s (inode D) x.
Proof.
  intros Hinv HD Hl. destruct (inv_heap _ Hinv _ _ HD) as (l' & x & Hl' & Hx & Ha).
  rewrite (located_fun _ _ _ _ Hl Hl'). eauto.
Qed.

Lemma find_cached_spec s par nm : forall l, (forall d, Some d ∈ l -> is_Some (heap s !! d)) ->
  exists o, find_cached s l par nm = Ok o /\
    match o with
    | Some d => Some d ∈ l /\ exists D, heap s !! d = Some D /\ name_ D = nm /\ parent D = Some par
    | None => forall d D, Some d ∈ l -> heap s !! d = Some D -> name_ D = nm -> parent D <> Some par
    end.
Proof.
  induction l as [|[d|] l IH]; intros Hl; simpl.
  - eexists. split; [done|]. intros d D Hd. by apply not_elem_of_nil in Hd.
  - destruct (Hl d) as [D HD]; [left|]. unfold dentry. rewrite HD. simpl.
    destruct (bool_decide (name_ D = nm) && bool_decide (parent D = Some par)) eqn:E.
    + apply andb_prop in E as [?%bool_decide_eq_true ?%bool_decide_eq_true]. eexists. split; [done|]. split; [left|eauto].
    + destruct IH as (o & -> & Ho); [intros e He; apply Hl; by right|]. exists o. split; [done|]. destruct o as [e|].
      * destruct Ho. split; [by right|done].
      * intros e E' [?|?]%elem_of_cons; simplify_eq; [|by eapply Ho]. intros HE' Hn Hp. simplify_eq.
        by rewrite !bool_decide_eq_true_2 in E.
  - destruct IH as (o & -> & Ho); [intros e He; apply Hl; by right|]. exists o. split; [done|]. destruct o as [e|].
    + destruct Ho. split; [by right|done].
    + intros e E' [?|?]%elem_of_cons; [done|]. by eapply Ho.
Qed.

Lemma get_cached_dentry_spec s par nm : inv s -> exists o, get_cached_dentry s par nm = Ok o /\
  match o with
  | Some d => exists D, heap s !! d = Some D /\ name_ D = nm /\ parent D = Some par
  | None => forall d D, Some d ∈ cache s -> heap s !! d = Some D -> name_ D = nm -> parent D <> Some par
  end.
Proof.
  intros Hinv. destruct (find_cached_spec s par nm (cache s)) as (o & Ho & Hs).
  - intros d Hd. apply (inv_live _ Hinv). by left.
  - exists o. split; [done|]. destruct o; naive_solver.
Qed.

Notation resolve := (resolve T m root_node).
Notation answer := (answer T m root_node).
Notation crosses := (crosses m).

(** The tokens that are left are not in the cache, or follow a file. *)
Definition stops s (d : positive) (l : list name) (ts : list name) : Prop :=
  ts = [] \/ (exists D, heap s !! d = Some D /\ is_Dir D = false) \/
  exists t ts', ts = t :: ts' /\ t <> dot /\ t <> dotdot /\ m (t :: l) = None.

Lemma resolve_step s d D l t ts : inv s -> heap s !! d = Some D -> located (heap s) d l -> is_Dir D = true ->
  resolve l (t :: ts) =
    if bool_decide (t = dot) then resolve l ts
    else if bool_decide (t = dotdot) then match l with [] => None | _ :: l => resolve l ts end
    else match node_at (t :: l) with Some _ => resolve (t :: l) ts | None => None end.
Proof.
  intros Hinv HD Hl Hdir. destruct (inv_agrees _ _ _ _ Hinv HD Hl) as ([f i] & Hx & Hn & _). simpl in Hn. simpl. rewrite Hx.
  unfold is_Dir in Hdir. rewrite Hn in Hdir. by rewrite Hdir.
Qed.

Lemma resolve_file s d D l t ts : inv s -> heap s !! d = Some D -> located (heap s) d l -> is_Dir D = false ->
  resolve l (t :: ts) = None.
Proof.
  intros Hinv HD Hl Hdir. destruct (inv_agrees _ _ _ _ Hinv HD Hl) as ([f i] & Hx & Hn & _). simpl in Hn. simpl. rewrite Hx.
  unfold is_Dir in Hdir. rewrite Hn in Hdir. by rewrite Hdir.
Qed.

(** The parent of an entry that is neither the root nor a mount point is a directory of the same file system. *)
Lemma parent_dir s d D l : inv s -> heap s !! d = Some D -> located (heap s) d l -> l <> [] -> ~ is_Some (m l) ->
  exists p P l0 n, l = n :: l0 /\ parent D = Some p /\ heap s !! p = Some P /\ located (heap s) p l0 /\ is_Dir P = true /\
    exists f i j, node_at l0 = Some (Some f, i) /\ node_at l = Some (Some f, j).
Proof.
  intros Hinv HD Hl Hnil Hm. inversion Hl as [|?? p l0 HD' Hp Hl0]; simplify_eq. destruct (located_live _ _ _ Hl0) as [P HP].
  exists p, P, l0, (name_ D). do 4 (split; [done|]). destruct (inv_agrees _ _ _ _ Hinv HD Hl) as (x & Hx & _).
  destruct (inv_agrees _ _ _ _ Hinv HP Hl0) as ([f i] & Hy & Hn & _). simpl in Hn, Hx. pose proof Hx as Hx'.
  destruct (m (name_ D :: l0)) as [?|] eqn:E; [by destruct Hm; eauto|]. rewrite Hy in Hx. destruct f as [f|]; [|done].
  case_bool_decide as Hb; [|done]. split; [unfold is_Dir; rewrite Hn; by apply bool_decide_eq_true, Hb|].
  destruct (child (T f) i (name_ D)) as [j|] eqn:Ej; [|done]. exists f, i, j. split; [done|]. simpl.
  by rewrite E, Hy, bool_decide_eq_true_2, Ej by done.
Qed.

Lemma browse_cached_ok ts : forall s d D l up, inv s -> mounted s -> heap s !! d = Some D -> located (heap s) d l ->
  is_Dir D = true -> crosses up l ts = false ->
  exists d' ts' l' up', browse_cached s d ts = Ok (d', ts') /\ located (heap s) d' l' /\ resolve l ts = resolve l' ts' /\
    crosses up' l' ts' = false /\ stops s d' l' ts'.
Proof.
  induction ts as [|t ts IH]; intros s d D l up Hinv Hm HD Hl Hdir Hcr.
  { exists d, [], l, up. do 4 (split; [done|]). by left. }
  rewrite (resolve_step s d D l t ts) by done. cbn [browse_cached]. unfold dentry. rewrite HD. run.
  pose proof Hcr as Hcr0. simpl in Hcr. case_bool_decide as Hdot; [|case_bool_decide as Hdd].
  - run. rewrite HD. run. rewrite Hdir. by eapply IH.
  - rewrite !orb_false_iff in Hcr. destruct Hcr as [[Hnil%bool_decide_eq_false Hml%bool_decide_eq_false] Hcr].
    destruct (parent_dir _ _ _ _ Hinv HD Hl Hnil Hml) as (p & P & l0 & n & -> & Hp & HP & Hl0 & Hpd & _).
    run. rewrite Hp, HP. run. rewrite Hpd. by eapply IH.
  - run. destruct (get_cached_dentry_spec s d t Hinv) as (o & -> & Ho). run. destruct o as [d'|].
    + destruct Ho as (D' & HD' & <- & Hp). rewrite HD'. run.
      assert (located (heap s) d' (name_ D' :: l)) as Hl' by by eapply loc_child.
      destruct (inv_agrees _ _ _ _ Hinv HD' Hl') as (x & Hx & _). rewrite Hx. apply orb_false_iff in Hcr as [_ Hcr].
      destruct (is_Dir D') eqn:Hd'; [by eapply IH|]. exists d', ts, (name_ D' :: l), up. do 4 (split; [done|]). right. left. eauto.
    + exists d, (t :: ts), l, up. split; [done|]. split; [done|].
      rewrite (resolve_step s d D l t ts), !bool_decide_eq_false_2 by done. split; [done|]. split.
      { exact Hcr0. }
      right. right. exists t, ts. do 3 (split; [done|]). destruct (m (t :: l)) as [x|] eqn:E; [|done].
      destruct (Hm t l d) as (e & E' & Hc & He & Hp & Hn); [by rewrite E|done|]. by destruct (Ho e E').
Qed.

(** ** Lookup in the file system *)

Lemma node_dir fs f : mounts_ok -> fs_rep fs (T f) -> forall l i, node_at l = Some (Some f, i) -> i_type i = IDir ->
  is_dir_of (T f) i.
Proof.
  intros Hmo Hrep. induction l as [|n l IH]; intros i Hx Hi; simpl in Hx.
  { pose proof (mounts_root Hmo f) as Hr. simplify_eq. rewrite Hx in Hr. by apply Hr. }
  destruct (m (n :: l)) as [y|] eqn:E; [simplify_eq; by eapply mounts_dir|].
  destruct (node_at l) as [[[f'|] i']|] eqn:El; try done. case_bool_decide as Hd; [destruct Hd as (Hd & ? & ?)|done].
  destruct (child (T f') i' n) as [j|] eqn:Ej; simplify_eq/=. eapply (rep_dir fs (T f) i' n i); try done. by apply IH.
Qed.

Lemma inv_set_fss s f fs fs' : inv s -> fss s !! f = Some fs -> fs_rep fs' (T f) -> inv (set_fss s (<[f := fs']> (fss s))).
Proof.
  intros [Hlen Hlow Hlive Hheap Hroot Hrn Hblk Hfs] Hf Hr. pose proof (lookup_lt_Some _ _ _ Hf) as Hlt. split; simpl; try done.
  - intros k nm g Hk. destruct (Hblk k nm g Hk) as [Hg ?]. split; [|done]. apply lookup_lt_is_Some. rewrite length_insert.
    by apply lookup_lt_is_Some in Hg.
  - intros g gs Hg. destruct (decide (f = g)) as [<-|].
    + rewrite list_lookup_insert_eq in Hg by done. by simplify_eq.
    + rewrite list_lookup_insert_ne in Hg by done. by apply Hfs.
Qed.

Lemma inv_add s D p l x : inv s -> parent D = Some p -> located (heap s) p l -> node_at (name_ D :: l) = Some x ->
  agrees s (inode D) x -> let d := fresh (dom (heap s)) in
  inv (set_heap s (<[d := D]> (heap s))) /\ located (<[d := D]> (heap s)) d (name_ D :: l) /\ heap s ⊆ <[d := D]> (heap s).
Proof.
  intros [Hlen Hlow Hlive Hheap (r & R & Hr & HrR & HrP) Hrn Hblk Hfs] Hp Hl Hx Ha d.
  assert (heap s !! d = None) as Hd by (apply not_elem_of_dom, is_fresh).
  pose proof (insert_subseteq _ _ D Hd) as Hsub.
  assert (located (<[d := D]> (heap s)) d (name_ D :: l)) as Hloc.
  { eapply loc_child; [apply lookup_insert_eq|done|by eapply located_mono]. }
  split; [|done]. split; simpl; try done.
  - intros e He. destruct (Hlive e He) as [E HE]. eauto using lookup_weaken.
  - intros e E He. destruct (decide (d = e)) as [<-|].
    + rewrite lookup_insert_eq in He. simplify_eq. eauto.
    + rewrite lookup_insert_ne in He by done. destruct (Hheap _ _ He) as (l' & y & Hl' & ? & ?). exists l', y.
      split; [by eapply located_mono|done].
  - exists r, R. split; [done|]. split; [by eapply lookup_weaken|done].
  - intros e E He HeP. destruct (decide (d = e)) as [<-|]; [rewrite lookup_insert_eq in He; simplify_eq; congruence|].
    rewrite lookup_insert_ne in He by done. by eapply Hrn.
Qed.

Lemma child_dentry_ok s f d D l i t : mounts_ok -> inv s -> heap s !! d = Some D -> located (heap s) d l -> is_Dir D = true ->
  node_at l = Some (Some f, i) -> m (t :: l) = None -> t <> dot -> t <> dotdot ->
  exists r s', child_dentry s f d t = Ok (r, s') /\ inv s' /\
    match r with
    | None => node_at (t :: l) = None
    | Some d' => located (heap s') d' (t :: l) /\ exists j, node_at (t :: l) = Some (Some f, j)
    end.
Proof.
  intros Hmo Hinv HD Hl Hdir Hx Hm Hnd Hndd. destruct (inv_agrees _ _ _ _ Hinv HD Hl) as (y & Hy & Hn & Hsb). simplify_eq.
  destruct (superblock (inode D)) as [k|]; [|done]. destruct Hsb as [nm Hk]. simpl in Hn.
  destruct (inv_block _ Hinv _ _ _ Hk) as ([fs Hfs] & k' & nm' & Hk' & Hb').
  pose proof (inv_fs _ Hinv _ _ Hfs) as Hrep. unfold is_Dir in Hdir. apply bool_decide_eq_true in Hdir. rewrite Hn in Hdir.
  destruct (rep_child fs (T f) i t Hrep (node_dir _ _ Hmo Hrep _ _ Hx Hdir) Hdir Hnd Hndd) as (fs' & Hc & Hrep' & _).
  pose proof (inv_set_fss s f fs fs' Hinv Hfs Hrep') as Hinv1.
  unfold child_dentry, dentry. rewrite HD. run. rewrite Hfs. run. rewrite Hk'. run. rewrite Hn, Hc. run.
  assert (node_at (t :: l) = (fun j => (Some f, j)) <$> child (T f) i t) as E.
  { simpl. by rewrite Hm, Hx, bool_decide_eq_true_2. }
  rewrite E. destruct (child (T f) i t) as [j|]; simpl; [|by eauto].
  set (D' := mkDentry (mkVInode (Some k') j) (Some d) t).
  destruct (inv_add _ D' d l (Some f, j) Hinv1) as (Hinv2 & Hloc & _); [done|done|exact E|split; [done|]; by exists nm'|].
  eexists _, _. split; [done|]. split; [done|]. split; [done|eauto].
Qed.

(** The choice of the next entry. *)
Definition manual_next s (f : nat) (d : positive) (D : Dentry) (t : name) : res (option positive * vfs F) :=
  if bool_decide (t = dot) then Ok (Some d, s)
  else if bool_decide (t = dotdot) then Ok (parent D, s) else child_dentry s f d t.

Lemma manual_next_ok s f d D l t ts up : mounts_ok -> inv s -> heap s !! d = Some D -> located (heap s) d l ->
  is_Dir D = true -> (exists i, node_at l = Some (Some f, i)) -> crosses up l (t :: ts) = false ->
  (up = true \/ (l <> [] /\ m l = None) \/ stops s d l (t :: ts)) ->
  exists r s', manual_next s f d D t = Ok (r, s') /\ inv s' /\
    match r with
    | None => answer l (t :: ts) = None
    | Some d' => exists l' up', located (heap s') d' l' /\ answer l (t :: ts) = answer l' ts /\
        (exists i, node_at l' = Some (Some f, i)) /\ crosses up' l' ts = false /\ (up' = true \/ (l' <> [] /\ m l' = None))
    end.
Proof.
  intros Hmo Hinv HD Hl Hdir [i Hi] Hcr Hup. unfold answer, manual_next. rewrite (resolve_step s d D l t ts) by done. simpl in Hcr.
  assert (t = dot \/ t = dotdot -> up = true \/ (l <> [] /\ m l = None)) as Hup'.
  { intros Ht. destruct Hup as [?|[?|[?|[(E & ? & ?)|(t' & ts' & ? & ? & ? & ?)]]]]; [by left|by right|done|congruence|].
    simplify_eq. naive_solver. }
  case_bool_decide as Hdot; [|case_bool_decide as Hdd].
  - exists (Some d), s. split; [done|]. split; [done|]. exists l, up. naive_solver.
  - rewrite !orb_false_iff in Hcr. destruct Hcr as [[Hnil%bool_decide_eq_false Hml%bool_decide_eq_false] Hcr].
    destruct (parent_dir _ _ _ _ Hinv HD Hl Hnil Hml) as (p & P & l0 & n & -> & Hp & HP & Hl0 & Hpd & f' & i' & j & Hi' & Hj).
    exists (Some p), s. rewrite Hp. split; [done|]. split; [done|]. exists l0, true. simplify_eq. naive_solver.
  - apply orb_false_iff in Hcr as [Hb Hcr]. assert (m (t :: l) = None) as Hm.
    { destruct (m (t :: l)) as [x|] eqn:E; [exfalso|done].
      destruct Hup as [Eup|[[Hnil Hml]|[?|[(E' & ? & ?)|(t' & ts' & ? & ? & ? & ?)]]]]; simplify_eq; try congruence.
      destruct (mounts_closed Hmo t l) as [?|[? ?]]; [eauto|done|congruence]. }
    destruct (child_dentry_ok s f d D l i t Hmo Hinv HD Hl Hdir Hi Hm Hdot Hdd) as (r & s' & Hc & Hinv' & Hr).
    exists r, s'. split; [done|]. split; [done|]. destruct r as [d'|]; [|by rewrite Hr].
    destruct Hr as (Hl' & j & Hj). exists (t :: l), up. rewrite Hj. naive_solver.
Qed.

Lemma browse_manual_ok pe locals f : mounts_ok -> forall ts s d l up, inv s -> located (heap s) d l ->
  (exists i, node_at l = Some (Some f, i)) -> crosses up l ts = false ->
  (up = true \/ (l <> [] /\ m l = None) \/ stops s d l ts) ->
  match browse_manual pe locals f s d ts with
  | Ok (r, s') => inv s' /\
      match r with
      | Some d' => exists l', located (heap s') d' l' /\ answer l ts = Some l'
      | None => answer l ts = None \/ lowest_free_dentry s' = MAX_DENTRIES
      end
  | Panic => pe = true /\ exists s', browse_manual false locals f s d ts = Ok (None, s') /\ lowest_free_dentry s' = MAX_DENTRIES
  | _ => False
  end.
Proof.
  intros Hmo. induction ts as [|t ts IH]; intros s d l up Hinv Hl [i Hi] Hcr Hup.
  { simpl. split; [done|]. exists l. split; [done|]. unfold answer. simpl. by rewrite Hi. }
  destruct (located_live _ _ _ Hl) as [D HD]. cbn [browse_manual]. unfold dentry. rewrite HD. run.
  destruct (is_Dir D) eqn:Hdir; cbn [negb].
  2: { split; [done|]. left. unfold answer. by rewrite (resolve_file s d D l t ts). }
  destruct (manual_next_ok s f d D l t ts up) as (r & s1 & Hn & Hinv1 & Hr); [by eauto..|].
  unfold manual_next in Hn. rewrite Hn. run. destruct r as [d'|]; [|by auto].
  destruct Hr as (l' & up' & Hl' & -> & Hi' & Hcr' & Hup').
  pose proof (cache_dentry_ok (d' :: locals) s1 d' Hinv1 (located_live _ _ _ Hl') ltac:(left)) as Hca.
  destruct (cache_dentry (d' :: locals) s1 d') as [[|] s2]; destruct Hca as (Hinv2 & Hk & Hfull & _).
  - eapply IH; [done| |done|done|tauto]. eapply keeps_located; [done| |done].
    eapply keeps_live; [done|left|by eapply located_live].
  - destruct (Hfull eq_refl) as (-> & Hlow & _). pose proof (release_shrinks (size (heap s1)) locals s1 d') as Hs.
    assert (lowest_free_dentry (drop_pointer locals s1 d') = MAX_DENTRIES) as Hmax.
    { destruct (shrinks_rest _ _ _ Hs) as (_ & El & _). unfold drop_pointer. by rewrite El. }
    destruct pe; [split; [done|]; by eexists|]. split; [by eapply inv_shrinks|]. by right.
Qed.

Lemma browse_from_ok s locals path d D l up pe : mounts_ok -> inv s -> mounted s -> heap s !! d = Some D ->
  located (heap s) d l -> is_Dir D = true -> crosses up l (KString.tokens [slash] path) = false ->
  match browse_from s locals path d pe with
  | Ok (r, s') => inv s' /\
      match r with
      | Some d' => exists l', located (heap s') d' l' /\ answer l (KString.tokens [slash] path) = Some l'
      | None => answer l (KString.tokens [slash] path) = None \/ lowest_free_dentry s' = MAX_DENTRIES
      end
  | Panic => pe = true /\ exists s', browse_from s locals path d false = Ok (None, s') /\ lowest_free_dentry s' = MAX_DENTRIES
  | _ => False
  end.
Proof.
  intros Hmo Hinv Hm HD Hl Hdir Hcr. unfold browse_from.
  destruct (browse_cached_ok _ s d D l up Hinv Hm HD Hl Hdir Hcr) as (d' & ts & l' & up' & -> & Hl' & Hres & Hcr' & Hst). run.
  assert (answer l (KString.tokens [slash] path) = answer l' ts) as -> by (unfold answer; by rewrite Hres).
  destruct (located_live _ _ _ Hl') as [D' HD']. unfold dentry. rewrite HD'. run.
  destruct (inv_agrees _ _ _ _ Hinv HD' Hl') as ([f i] & Hx & Hn & Hsb). simpl in Hsb.
  destruct (superblock (inode D')) as [k|], f as [f|]; try done.
  - destruct Hsb as [nm Hk]. destruct (bool_decide (ts <> []) && negb (is_Dir D')) eqn:Hfile.
    + apply andb_prop in Hfile as [Hne%bool_decide_eq_true Hnd%negb_true_iff]. split; [done|]. left.
      destruct ts as [|t ts]; [done|]. unfold answer. by rewrite (resolve_file s d' D' l' t ts).
    + unfold get_fs. rewrite Hk. run. eapply browse_manual_ok; eauto.
  - split; [done|]. left. destruct Hst as [->|[(E & HE & Hnd)|(t & ts' & -> & Hd & Hdd & Hmt)]].
    + unfold answer. simpl. by rewrite Hx.
    + destruct ts as [|t ts]; unfold answer; [simpl; by rewrite Hx|]. by rewrite (resolve_file s d' E l' t ts).
    + unfold answer. simpl. rewrite Hx. case_bool_decide; [|done]. rewrite !bool_decide_eq_false_2 by done.
      by rewrite Hmt.
Qed.

Lemma browse_root_ok s locals path use_path pe : mounts_ok -> inv s -> mounted s -> head path = Some slash ->
  crosses false [] (KString.tokens [slash] path) = false ->
  match browse_to s locals path use_path pe with
  | Ok (r, s') => inv s' /\
      match r with
      | Some d' => exists l', located (heap s') d' l' /\ answer [] (KString.tokens [slash] path) = Some l'
      | None => answer [] (KString.tokens [slash] path) = None \/ lowest_free_dentry s' = MAX_DENTRIES
      end
  | Panic => pe = true /\ exists s', browse_to s locals path use_path false = Ok (None, s') /\ lowest_free_dentry s' = MAX_DENTRIES
  | _ => False
  end.
Proof.
  intros Hmo Hinv Hm Hp Hcr. destruct path as [|c path]; simplify_eq/=.
  destruct (inv_root _ Hinv) as (r & D & Hr & HD & HrP). unfold root. rewrite Hr. run.
  assert (located (heap s) r []) as Hl by by eapply loc_root.
  destruct (inv_agrees _ _ _ _ Hinv HD Hl) as (x & Hx & Hn & _). simplify_eq/=.
  eapply browse_from_ok; try done. unfold is_Dir. rewrite Hn. apply bool_decide_eq_true, (mounts_root_dir Hmo).
Qed.

(** Claim C6: A lookup of an absolute path follows the name space, whatever the cache holds and evicts, as long as the mount points are cached and the
    path, read from left to right, neither goes up out of a file system with dots nor comes down into a mount point after it went up: the
    entry it returns is at the location the path resolves to, and a null answer means that the path leads nowhere, or that the cache is
    full of entries in use; it stops the kernel only in this last case, and only for a caller that asks for it. *)
Theorem browse_to_ok s locals path use_path pe : mounts_ok -> inv s -> mounted s -> head path = Some slash ->
  crosses false [] (KString.tokens [slash] path) = false ->
  match browse_to s locals path use_path pe with
  | Ok (r, s') => inv s' /\
      match r with
      | Some d' => exists l', located (heap s') d' l' /\ answer [] (KString.tokens [slash] path) = Some l'
      | None => answer [] (KString.tokens [slash] path) = None \/ lowest_free_dentry s' = MAX_DENTRIES
      end
  | Panic => pe = true /\ exists s', browse_to s locals path use_path false = Ok (None, s') /\ lowest_free_dentry s' = MAX_DENTRIES
  | _ => False
  end.
Proof. apply browse_root_ok. Qed.

(** A new entry that is not in a place for mount points leaves the mount points where they are. *)
Lemma located_fresh s d D e l : inv s -> heap s !! d = None -> e <> d -> located (<[d := D]> (heap s)) e l -> located (heap s) e l.
Proof.
  intros Hinv Hd Hne Hl. revert Hne. induction Hl as [e E HE Hp|e E p l HE Hp Hl IH]; intros Hne;
    rewrite lookup_insert_ne in HE by done.
  - by eapply loc_root.
  - eapply loc_child; [done|done|]. apply IH. intros ->. destruct (inv_heap _ Hinv _ _ HE) as (l' & _ & Hl' & _).
    inversion Hl' as [|?? p' l0 HE' Hp' Hl0]; simplify_eq. destruct (located_live _ _ _ Hl0). congruence.
Qed.

Lemma mounted_add s s' d D p l : mounts_ok -> inv s -> mounted s -> heap s !! d = None -> heap s' = <[d := D]> (heap s) ->
  parent D = Some p -> located (heap s) p l -> m (name_ D :: l) = None -> (forall e, Some e ∈ cache s -> Some e ∈ cache s') ->
  mounted s'.
Proof.
  intros Hmo Hinv Hm Hd Hh Hp Hl Hn Hc t l0 e Ht He. rewrite Hh in He |- *. destruct (decide (e = d)) as [->|Hne].
  - exfalso. assert (located (<[d := D]> (heap s)) d (name_ D :: l)) as Hl'.
    { eapply loc_child; [apply lookup_insert_eq|done|]. by eapply located_mono, Hl; apply insert_subseteq. }
    rewrite (located_fun _ _ _ _ He Hl') in Ht. destruct (mounts_closed Hmo _ _ Ht) as [?|[? ?]]; congruence.
  - destruct (Hm t l0 e Ht) as (g & G & Hg & HG & ? & ?); [by eapply located_fresh|]. exists g, G.
    split; [by apply Hc|]. rewrite lookup_insert_ne by congruence. done.
Qed.

(** ** Absolute paths *)

Fixpoint path_of (l : list name) : list Z :=
  match l with
  | [] => [slash]
  | [n] => slash :: n
  | n :: l => path_of l ++ slash :: n
  end.

(** What [write_name] has written before the name of a child. *)
Definition prefix_of (l : list name) : list Z := match l with [] => [slash] | _ => path_of l ++ [slash] end.

Lemma path_of_cons n l : path_of (n :: l) = prefix_of l ++ n.
Proof. destruct l as [|n' l]; [done|]. unfold prefix_of. by rewrite <- app_assoc. Qed.

Definition chars_ok (n : name) : Prop := 0 ∉ n /\ slash ∉ n /\ n <> [] /\ n <> dot /\ n <> dotdot.

Lemma patch_in_app (w rest x : list Z) n : n = Z.of_nat (length w) -> (length x <= length rest)%nat ->
  Bytes.patch_in (w ++ rest) n x = Ok ((w ++ x) ++ drop (length x) rest).
Proof.
  intros -> Hx. unfold Bytes.patch_in. rewrite (proj2 (Z.leb_le 0 _)) by lia.
  rewrite (proj2 (Z.leb_le _ _)) by (rewrite length_app; lia). simpl. unfold Bytes.patch.
  by rewrite Nat2Z.id, take_app_length, drop_app_add, app_assoc.
Qed.

(** The buffer [absolute_path_length] asks for. *)
Fixpoint length_for (l : list name) : nat := match l with [] => 2 | n :: l => length n + 1 + length_for l end.

Lemma absolute_path_length_spec s l : forall d fuel, inv s -> located (heap s) d l -> (length l < fuel)%nat ->
  absolute_path_length fuel s d = Ok (Z.of_nat (length_for l)).
Proof.
  induction l as [|n l IH]; intros d [|fuel] Hinv Hl Hf; try lia; inversion Hl as [? D HD Hp|? D p ? HD Hp Hl']; subst; simpl;
    unfold dentry; rewrite HD; run; rewrite Hp; run.
  - rewrite (inv_root_name _ Hinv _ _ HD Hp). done.
  - rewrite IH by (done || simpl in Hf; lia). run. f_equal. lia.
Qed.

Lemma prefix_of_cons n l : prefix_of (n :: l) = prefix_of l ++ n ++ [slash].
Proof. unfold prefix_of at 1. by rewrite path_of_cons, <- app_assoc. Qed.

Lemma head_prefix l : forall xs, head (prefix_of l ++ xs) = Some slash.
Proof. induction l as [|n l IH]; intros xs; [done|]. rewrite prefix_of_cons, <- !app_assoc. apply IH. Qed.

Lemma length_prefix_cons n l : length (prefix_of (n :: l)) = (length (prefix_of l) + length n + 1)%nat.
Proof. rewrite prefix_of_cons, !length_app. simpl. lia. Qed.

Lemma prefix_fits l : (length (prefix_of l) < length_for l)%nat.
Proof. induction l as [|n l IH]; [simpl; lia|]. rewrite length_prefix_cons. simpl. lia. Qed.

Lemma write_name_spec s l : forall d fuel w rest is_last, inv s -> located (heap s) d l -> (length l < fuel)%nat ->
  let x := if (is_last : bool) then path_of l else prefix_of l in (length x < length rest)%nat ->
  exists rest', write_name fuel s d (w ++ rest) (Z.of_nat (length w)) is_last =
    Ok ((w ++ x) ++ 0 :: rest', Z.of_nat (length (w ++ x))) /\ (length x + S (length rest') = length rest)%nat.
Proof.
  induction l as [|n l IH]; intros d [|fuel] w rest is_last Hinv Hl Hf x Hx; try (simpl in Hf; lia);
    inversion Hl as [? D HD Hp|? D p ? HD Hp Hl']; subst; simpl; unfold dentry; rewrite HD; run; rewrite Hp; run.
  - rewrite (inv_root_name _ Hinv _ _ HD Hp). assert (x = [slash]) as -> by by destruct is_last.
    destruct rest as [|a [|b rest]]; simpl in Hx; try lia. rewrite (patch_in_app w (a :: b :: rest) [slash]); [|done|simpl; lia].
    rewrite bool_decide_eq_false_2 by by intros []. cbn [andb]. run. change (drop (length [slash]) (a :: b :: rest)) with (b :: rest).
    rewrite (patch_in_app (w ++ [slash]) (b :: rest) [0]); [|rewrite length_app; simpl; lia|simpl; lia]. run. exists rest.
    split; [|simpl; lia]. rewrite !length_app. simpl. f_equal. f_equal; [by rewrite <- app_assoc|lia].
  - assert (length x = length (prefix_of l) + length (name_ D) + (if is_last then 0 else 1))%nat as Hlx.
    { unfold x. destruct is_last; [rewrite path_of_cons, length_app; lia|apply length_prefix_cons]. }
    destruct (IH p fuel w rest false Hinv Hl' ltac:(simpl in Hf; lia)) as (rest' & Hw & Hr); [lia|]. rewrite Hw. run.
    rewrite patch_in_app; [|done|simpl; lia]. run. rewrite bool_decide_eq_true_2 by eauto. cbn [andb].
    remember (drop (length (name_ D)) (0 :: rest')) as rest1 eqn:E1.
    assert (length rest1 = S (length rest') - length (name_ D))%nat as Hr1 by (subst; by rewrite length_drop).
    destruct is_last; cbn [negb]; run; cbn [fst snd].
    + destruct rest1 as [|a rest1]; [simpl in *; lia|]. rewrite (patch_in_app _ (a :: rest1) [0]); [|rewrite !length_app; lia|simpl; lia].
      run. exists rest1. simpl in Hr1. split; [|lia]. unfold x. rewrite path_of_cons, !length_app. simpl.
      rewrite !drop_0. f_equal. f_equal; [rewrite <- !app_assoc; reflexivity|lia].
    + destruct rest1 as [|a [|b rest1]]; [simpl in *; lia|simpl in *; lia|].
      rewrite (patch_in_app _ (a :: b :: rest1) [slash]); [|rewrite !length_app; lia|simpl; lia]. run. change (drop (length [slash]) (a :: b :: rest1)) with (b :: rest1).
      rewrite (patch_in_app _ (b :: rest1) [0]); [|rewrite !length_app; simpl; lia|simpl; lia].
      run. exists rest1. simpl in Hr1. split; [|lia]. unfold x. rewrite prefix_of_cons, !length_app. simpl.
      rewrite !drop_0. f_equal. f_equal; [rewrite <- !app_assoc; reflexivity|lia].
Qed.

Lemma cstr_app (l r : list Z) : 0 ∉ l -> Bytes.cstr (l ++ 0 :: r) = l.
Proof.
  induction l as [|x l IH]; simpl; [done|]. intros [Hx Hl]%not_elem_of_cons. rewrite (proj2 (Z.eqb_neq _ _)) by done.
  by rewrite IH.
Qed.

Lemma path_of_nonzero l : Forall chars_ok l -> 0 ∉ path_of l.
Proof.
  induction 1 as [|n l Hn Hl IH]; [by intros ?%list_elem_of_singleton|]. rewrite path_of_cons. destruct Hn as [Hn _].
  rewrite not_elem_of_app. split; [|done]. destruct l as [|n' l]; [by intros ?%list_elem_of_singleton|]. unfold prefix_of.
  rewrite not_elem_of_app. split; [done|]. by intros ?%list_elem_of_singleton.
Qed.

(** The number of steps to the root is less than the number of entries. *)
Lemma located_depth h d l : located h d l -> (length l < size h)%nat.
Proof.
  intros Hl. assert (exists ds, NoDup ds /\ length ds = S (length l) /\ (forall e, e ∈ ds -> is_Some (h !! e)) /\
    forall e, e ∈ ds -> exists l', located h e l' /\ (length l' <= length l)%nat) as (ds & Hnd & Hlen & Hin & _).
  { induction Hl as [d D HD Hp|d D p l HD Hp Hl IH].
    - exists [d]. split; [apply NoDup_singleton|]. split; [done|]. split; intros e ->%list_elem_of_singleton; [by rewrite HD|].
      exists []. split; [by eapply loc_root|done].
    - destruct IH as (ds & Hnd & Hlen & Hin & Hloc). exists (d :: ds). split.
      { apply NoDup_cons. split; [|done]. intros (l' & Hl' & Hle)%Hloc.
        pose proof (located_fun _ _ _ _ Hl' (loc_child _ _ _ _ _ HD Hp Hl)). subst. simpl in Hle. lia. }
      split; [simpl; lia|]. split; intros e [->|He]%elem_of_cons.
      + by rewrite HD.
      + by apply Hin.
      + exists (name_ D :: l). split; [by eapply loc_child|done].
      + destruct (Hloc e He) as (l' & ? & ?). exists l'. split; [done|simpl; lia]. }
  assert (size (list_to_set ds : gset positive) <= size (dom h))%nat as Hsz.
  { apply subseteq_size. intros e He%elem_of_list_to_set. by apply elem_of_dom, Hin. }
  rewrite size_list_to_set, size_dom in Hsz by done. lia.
Qed.

Lemma dentry_path_spec s d l junk : inv s -> located (heap s) d l -> Forall chars_ok l ->
  (forall n, length (junk n) = Z.to_nat n) ->
  dentry_path (S (size (heap s))) s junk d = Ok (path_of l).
Proof.
  intros Hinv Hl Hok Hj. pose proof (located_depth _ _ _ Hl) as Hd. unfold dentry_path.
  rewrite (absolute_path_length_spec s l) by (done || lia). run.
  pose proof (prefix_fits l) as Hfit. assert (length (path_of l) <= length (prefix_of l))%nat as Hle.
  { destruct l as [|n l]; [done|]. rewrite path_of_cons, prefix_of_cons, !length_app. lia. }
  specialize (Hj (Z.of_nat (length_for l))). rewrite Nat2Z.id in Hj.
  assert (Bytes.patch_in (junk (Z.of_nat (length_for l))) 0 [0] = Ok (0 :: drop 1 (junk (Z.of_nat (length_for l))))) as ->.
  { apply (patch_in_app [] _ [0] 0); [done|simpl; lia]. }
  cbn [mbind res_bind].
  destruct (write_name_spec s l d (S (size (heap s))) [] (0 :: drop 1 (junk (Z.of_nat (length_for l)))) true Hinv Hl) as (rest' & Hw & _);
    [lia|cbn [length]; rewrite length_drop; lia|].
  cbn [app length] in Hw. change (Z.of_nat 0) with 0 in Hw. rewrite Hw. cbn [mbind res_bind]. f_equal. by apply cstr_app, path_of_nonzero.
Qed.

(** [get_absolute_path] stays inside of the buffer it allocates, and returns the names from the root down. *)
Theorem dentry_path_ok s d l junk : inv s -> located (heap s) d l -> Forall chars_ok l ->
  (forall n, length (junk n) = Z.to_nat n) ->
  dentry_path (S (size (heap s))) s junk d = Ok (path_of l).
Proof. apply dentry_path_spec. Qed.

Lemma tokens_from_app (n xs : list Z) : forall cur, slash ∉ n ->
  KString.tokens_from [slash] cur (n ++ xs) = KString.tokens_from [slash] (cur ++ n) xs.
Proof.
  induction n as [|c n IH]; intros cur Hn; simpl; [by rewrite app_nil_r|]. apply not_elem_of_cons in Hn as [Hc Hn].
  rewrite bool_decide_eq_false_2 by (rewrite list_elem_of_singleton; congruence). rewrite IH by done. by rewrite <- app_assoc.
Qed.

Lemma tokens_prefix l xs : Forall chars_ok l ->
  KString.tokens_from [slash] [] (prefix_of l ++ xs) = rev l ++ KString.tokens_from [slash] [] xs.
Proof.
  intros Hl. revert xs. induction Hl as [|n l (_ & Hs & Hne & _) Hl IH]; intros xs; [done|].
  rewrite prefix_of_cons, <- !app_assoc, IH, tokens_from_app by done. simpl. rewrite <- app_assoc. f_equal.
  by destruct n.
Qed.

(** The tokens of an absolute path are the names from the root down. *)
Lemma tokens_path_of l : Forall chars_ok l -> KString.tokens [slash] (path_of l) = rev l.
Proof.
  destruct l as [|n l]; intros Hl; [done|]. inversion Hl as [|?? (_ & Hs & Hne & _) Hl']; subst.
  unfold KString.tokens. rewrite path_of_cons, tokens_prefix by done. simpl. f_equal.
  rewrite <- (app_nil_r n) at 1. rewrite tokens_from_app by done. simpl. by destruct n.
Qed.

Lemma node_parent n l x : mounts_ok -> node_at (n :: l) = Some x -> exists f i, node_at l = Some (f, i) /\ i_type i = IDir.
Proof.
  intros Hmo Hx. simpl in Hx. destruct (m (n :: l)) as [y|] eqn:E; [by eapply mounts_parent|].
  destruct (node_at l) as [[[f|] i]|]; try done. case_bool_decide as Hb; [destruct Hb; eauto|done].
Qed.

(** Going down to a location by its names. *)
Lemma resolve_down l : forall x ts, mounts_ok -> node_at l = Some x -> Forall chars_ok l -> resolve [] (rev l ++ ts) = resolve l ts.
Proof.
  induction l as [|n l IH]; intros x ts Hmo Hx Hok; [done|]. inversion Hok as [|?? (_ & _ & _ & Hd & Hdd) Hok']; subst.
  destruct (node_parent _ _ _ Hmo Hx) as (f & i & Hy & Hi). cbn [rev]. rewrite <- app_assoc, (IH _ _ Hmo Hy Hok'). cbn [app Vfs.resolve].
  rewrite Hy, Hx, bool_decide_eq_true_2 by done. by rewrite !bool_decide_eq_false_2.
Qed.

Lemma crosses_down ts : forall l, Forall (fun t => t <> dotdot) ts -> crosses false l ts = false.
Proof.
  induction ts as [|t ts IH]; intros l Hts; [done|]. inversion Hts; subst. simpl. case_bool_decide; [by apply IH|].
  rewrite bool_decide_eq_false_2 by done. by apply IH.
Qed.

Lemma chars_ok_up n : chars_ok n -> n <> dotdot.
Proof. unfold chars_ok. tauto. Qed.

(** The absolute path of an entry leads back to its location. *)
Theorem absolute_path_round_trip s locals d D l junk use_path pe : mounts_ok -> inv s -> mounted s ->
  heap s !! d = Some D -> is_Some (superblock (inode D)) -> located (heap s) d l -> Forall chars_ok l ->
  (forall n, length (junk n) = Z.to_nat n) ->
  exists p, dentry_path (S (size (heap s))) s junk d = Ok p /\
    match browse_to s locals p use_path pe with
    | Ok (Some d', s') => inv s' /\ located (heap s') d' l
    | Ok (None, s') => lowest_free_dentry s' = MAX_DENTRIES
    | Panic => pe = true
    | _ => False
    end.
Proof.
  intros Hmo Hinv Hm HD [k Hk] Hl Hok Hj. exists (path_of l). split; [by apply dentry_path_spec|].
  assert (head (path_of l) = Some slash) as Hhd.
  { destruct l as [|n l']; [done|]. rewrite path_of_cons. apply head_prefix. }
  destruct (inv_agrees _ _ _ _ Hinv HD Hl) as ([f i] & Hx & _ & Hsb). rewrite Hk in Hsb. destruct f as [f|]; [|done].
  assert (answer [] (rev l) = Some l) as Ha.
  { unfold answer. rewrite <- (app_nil_r (rev l)), (resolve_down l _ [] Hmo Hx Hok). simpl. by rewrite Hx. }
  pose proof (browse_root_ok s locals (path_of l) use_path pe Hmo Hinv Hm Hhd) as Hb. rewrite tokens_path_of in Hb by done.
  rewrite Ha in Hb. specialize (Hb (crosses_down _ _ (List.Forall_rev (Forall_impl _ _ _ Hok chars_ok_up)))).
  destruct (browse_to s locals (path_of l) use_path pe) as [[[d'|] s']| | |]; try done.
  - destruct Hb as (? & l' & ? & ?). by simplify_eq.
  - by destruct Hb as [_ [?|?]].
  - apply Hb.
Qed.

(** What a path leads to does not depend on the cache: two states of the VFS over the same file systems and mount
    points give the same answer, unless one of them has a cache full of entries in use. *)
Theorem lookup_ignores_cache s1 s2 locals1 locals2 path : mounts_ok -> inv s1 -> mounted s1 -> inv s2 -> mounted s2 ->
  head path = Some slash -> crosses false [] (KString.tokens [slash] path) = false ->
  exists r1 s1' r2 s2', browse_to s1 locals1 path true false = Ok (r1, s1') /\ browse_to s2 locals2 path true false = Ok (r2, s2') /\
    (lowest_free_dentry s1' = MAX_DENTRIES \/ lowest_free_dentry s2' = MAX_DENTRIES \/
     match r1, r2 with
     | Some d1, Some d2 => exists D1 D2 l, heap s1' !! d1 = Some D1 /\ heap s2' !! d2 = Some D2 /\
         located (heap s1') d1 l /\ located (heap s2') d2 l /\ node (inode D1) = node (inode D2)
     | None, None => True
     | _, _ => False
     end).
Proof.
  intros Hmo Hi1 Hm1 Hi2 Hm2 Hp Hcr. pose proof (browse_root_ok s1 locals1 path true false Hmo Hi1 Hm1 Hp Hcr) as H1.
  pose proof (browse_root_ok s2 locals2 path true false Hmo Hi2 Hm2 Hp Hcr) as H2.
  destruct (browse_to s1 locals1 path true false) as [[r1 s1']| | |]; try (by destruct H1); try done.
  destruct (browse_to s2 locals2 path true false) as [[r2 s2']| | |]; try (by destruct H2); try done.
  exists r1, s1', r2, s2'. split; [done|]. split; [done|]. destruct H1 as [Hi1' H1], H2 as [Hi2' H2].
  destruct r1 as [d1|], r2 as [d2|]; [|naive_solver..].
  destruct H1 as (l & Hl1 & E1), H2 as (l' & Hl2 & E2). simplify_eq. right. right.
  destruct (located_live _ _ _ Hl1) as [D1 HD1], (located_live _ _ _ Hl2) as [D2 HD2]. exists D1, D2, l.
  destruct (inv_agrees _ _ _ _ Hi1' HD1 Hl1) as (x & Hx & Hn1 & _), (inv_agrees _ _ _ _ Hi2' HD2 Hl2) as (y & Hy & Hn2 & _).
  simplify_eq. rewrite Hn1, Hn2. done.
Qed.

End invariant.

(** ** The directories that [mkdir] cannot make *)

Section errors.
Context {F : Type} `{FileSystem F}.

(** The copy of a path that does not end in a slash is extended by one: its terminator is written behind the buffer. *)
Theorem mkdir_overflows (s : vfs F) locals path : head path = Some slash -> last path <> Some slash ->
  mkdir s locals path = Fault.
Proof.
  intros Hh Hl. destruct path as [|c path]; simplify_eq/=. rewrite bool_decide_eq_false_2; [|by destruct path].
  simpl. unfold mkdir_split. rewrite bool_decide_eq_false_2 by done.
  set (p := slash :: path). change (slash :: path ++ [0]) with (p ++ [0]). rewrite (patch_in_app p [0] [slash]) by done.
  assert (Bytes.patch_in ((p ++ [slash]) ++ drop (length [slash]) [0]) (Z.of_nat (length p) + 1) [0] = Fault) as Ho.
  { unfold Bytes.patch_in. destruct (_ && _) eqn:E; [|done]. apply andb_prop in E as [_ E%Z.leb_le]. rewrite !length_app in E. simpl in E. lia. }
  cbn [mbind res_bind]. by rewrite Ho.
Qed.

(** [touch] refuses a relative path, so that [open] with [O_CREAT] makes no file in the working directory. *)
Lemma touch_relative_fails (s : vfs F) locals path : head path <> Some slash -> touch s locals path = Ok (None, s).
Proof.
  intros Hh. unfold touch, get_file_parent_dentry. destruct path as [|c path]; [done|]. simpl in Hh.
  rewrite (proj2 (Z.eqb_neq _ _)) by congruence. done.
Qed.

End errors.

(** ** The state after start-up, with one drive *)

Section start_up.
Context {F : Type} `{FsLaws F} (fs : F) (T0 : tree) (Hrep : fs_rep fs T0).

Definition mnt_inode : Inode := Fat.mkInode 0 0 IDir 1 1.
Definition one_root : option nat * Inode := (Some 0%nat, fs_root fs).
Definition one_mounts (l : list name) : option (option nat * Inode) :=
  if bool_decide (l = [mnt]) then Some (None, mnt_inode)
  else if bool_decide (l = [[49]; mnt]) then Some one_root else None.

Definition one_heap : gmap positive Dentry :=
  <[3%positive := mkDentry (mkVInode (Some 1%nat) (fs_root fs)) (Some 2%positive) [49]]>
  (<[2%positive := mkDentry (mkVInode None mnt_inode) (Some 1%positive) mnt]>
  (<[1%positive := mkDentry (mkVInode (Some 0%nat) (fs_root fs)) None [slash]]> ∅)).

Definition one_state : vfs F :=
  mkVfs one_heap (Some 1%positive :: Some 2%positive :: Some 3%positive :: replicate 197 None) 3 [] []
    [([slash], 0%nat); (mnt ++ [slash; 49], 0%nat)] [fs] [Some 1%nat].

Lemma init_one : init_mounts (boot [fs]) = Ok one_state.
Proof. vm_compute. reflexivity. Qed.

Lemma one_heap_cases d D : one_heap !! d = Some D ->
  (d = 1%positive /\ D = mkDentry (mkVInode (Some 0%nat) (fs_root fs)) None [slash]) \/
  (d = 2%positive /\ D = mkDentry (mkVInode None mnt_inode) (Some 1%positive) mnt) \/
  (d = 3%positive /\ D = mkDentry (mkVInode (Some 1%nat) (fs_root fs)) (Some 2%positive) [49]).
Proof.
  unfold one_heap. rewrite !lookup_insert_Some, lookup_empty. naive_solver.
Qed.

Lemma one_located : located one_heap 1 [] /\ located one_heap 2 [mnt] /\ located one_heap 3 [[49]; mnt].
Proof.
  assert (located one_heap 1 []) as H1 by (eapply loc_root; reflexivity).
  assert (located one_heap 2 [mnt]) as H2.
  { eapply (loc_child _ _ (mkDentry (mkVInode None mnt_inode) (Some 1%positive) mnt)); [reflexivity|reflexivity|done]. }
  split; [done|]. split; [done|].
  eapply (loc_child _ _ (mkDentry (mkVInode (Some 1%nat) (fs_root fs)) (Some 2%positive) [49])); [reflexivity|reflexivity|done].
Qed.

Lemma one_cached d : Some d ∈ cache one_state -> d = 1%positive \/ d = 2%positive \/ d = 3%positive.
Proof.
  change (cache one_state) with ([Some 1%positive; Some 2%positive; Some 3%positive] ++ replicate 197 None).
  intros [Hd|[? _]%elem_of_replicate]%elem_of_app; [|done]. set_solver.
Qed.

Notation T := (fun _ : nat => T0).

Lemma one_inv : inv T one_mounts one_root one_state.
Proof.
  destruct one_located as (H1 & H2 & H3). split.
  - reflexivity.
  - cbn [lowest_free_dentry one_state]. split; [unfold MAX_DENTRIES; lia|]. split; [|done]. intros [|[|[|j]]] Hj; [by eexists..|lia].
  - intros d [[->|[->| ->]]%one_cached|[Hd|[Hd|Hd]]]; try (by apply not_elem_of_nil in Hd); done.
  - intros d D [[-> ->]|[[-> ->]|[-> ->]]]%one_heap_cases.
    + exists [], one_root. split; [done|]. split; [done|]. split; [done|]. by eexists.
    + exists [mnt], (None, mnt_inode). done.
    + exists [[49]; mnt], one_root. split; [done|]. split; [done|]. split; [done|]. by eexists.
  - by eexists _, _.
  - by intros d D [[-> ->]|[[-> ->]|[-> ->]]]%one_heap_cases.
  - intros [|[|k]] nm f Hk; simplify_eq/=; (split; [eauto|]); by exists 1%nat, (mnt ++ [slash; 49]).
  - intros [|f] gs Hf; by simplify_eq/=.
Qed.

Lemma one_mounts_ok : mounts_ok T one_mounts one_root.
Proof.
  destruct (rep_root fs T0 Hrep) as [Hr Hd]. split.
  - intros f Hf. done.
  - done.
  - intros l f i. unfold one_mounts, one_root. repeat case_bool_decide; intros; by simplify_eq.
  - intros t l. unfold one_mounts. repeat case_bool_decide; intros [? ?]; simplify_eq/=; [by left|right].
    by eexists.
  - intros t l. unfold one_mounts. repeat case_bool_decide; intros [? ?]; simplify_eq/=; [by eexists _, _|].
    by exists None, mnt_inode.
Qed.

Lemma one_mounted : mounted one_mounts one_state.
Proof.
  intros t l p Hm Hl. destruct one_located as (H1 & H2 & H3). simpl in Hl.
  assert (p = 1%positive \/ p = 2%positive \/ p = 3%positive) as Hp.
  { destruct (located_live _ _ _ Hl) as [D HD]. apply one_heap_cases in HD. naive_solver. }
  unfold one_mounts in Hm. repeat case_bool_decide; simplify_eq/=.
  - destruct Hp as [->|[->| ->]]; [|by pose proof (located_fun _ _ _ _ Hl H2)|by pose proof (located_fun _ _ _ _ Hl H3)].
    exists 2%positive. eexists. split; [right; left|done].
  - destruct Hp as [->|[->| ->]]; [by pose proof (located_fun _ _ _ _ Hl H1)| |by pose proof (located_fun _ _ _ _ Hl H3)].
    exists 3%positive. eexists. split; [right; right; left|done].
Qed.

(** Mounting the file systems at start-up gives the state the lookup theorems ask for. *)
Theorem init_ok : exists s, init_mounts (boot [fs]) = Ok s /\
  inv T one_mounts one_root s /\ mounts_ok T one_mounts one_root /\ mounted one_mounts s.
Proof. exists one_state. split; [exact init_one|]. split; [exact one_inv|]. split; [exact one_mounts_ok|exact one_mounted]. Qed.

End start_up.
End Vfs.
