(* ===== verification/VfsFat.v ===== *)
(** * A FAT volume as a file system of the VFS

    [FAT_drive] implements the virtual functions of [FS]; this file makes it an instance of [FileSystem] and shows the
    laws path lookup relies on, for a volume whose directories are proper chains of clusters.  The witnesses of [Vfs] are
    lookups on a small volume. *)

From stdpp Require Import base tactics numbers sets gmap list.
From S2P Require Import Prelude Bytes KString Ata Fat Vfs.
Open Scope Z_scope.

Module VfsFat.
Import Bytes Fat.

Section instance.
Context {D : Type} `{BlockLaws D}.

(** A [FAT_drive]: its parameters, and the disk with the buffers. *)
Record fat_drive := mkFatDrive { vol : volume; state : fat (D := D) }.

(** No chain has more clusters than the volume. *)
Definition chain_fuel (v : volume) : nat := Z.to_nat (total_clusters v).

Definition on_drive {A B} (d : fat_drive) (g : A -> B) (m : M (D := D) A) : res (option B * fat_drive) :=
  match m (state d) with
  | Ok (r, s) => Ok (option_map g r, mkFatDrive (vol d) s)
  | Panic => Panic
  | Fault => Fault
  | NoFuel => NoFuel
  end.

Definition as_dentry (i : Inode) : Dentry := mkDentry i None [].

#[export] Instance fat_fs : FileSystem fat_drive := {
  fs_child d i n := on_drive d d_inode (get_child_dentry (vol d) (chain_fuel (vol d)) (as_dentry i) n);
  fs_touch d i n := on_drive d d_inode (touch (vol d) (chain_fuel (vol d)) (as_dentry i) n);
  fs_mkdir d i n := on_drive d d_inode (mkdir (vol d) (chain_fuel (vol d)) (as_dentry i) n);
  fs_ls d i := on_drive d (map (fun e => (d_name e, d_inode e))) (ls (vol d) (chain_fuel (vol d)) (as_dentry i));
  fs_write d p n i data :=
    on_drive d d_inode (write_buf_to_file (vol d) (chain_fuel (vol d)) (mkDentry i (as_dentry <$> p) n) data);
  fs_root d := get_root_node (vol d)
}.

(** What the entry of a name in the clusters [dcs] of a directory is. *)
Definition entry_of (v : volume) (t : Z -> Z) (f : Z -> list Z) (dcs : list Z) (n : list Z) (o : option Inode) : Prop :=
  if byte n 0 =? 47 then o = None
  else match find_entry f n dcs with
       | None => o = None
       | Some (c, id) =>
           let e := entry (f c) id in let a := first_cluster_addr e in
           if is_directory e then
             exists cs, chain v t (a *u sectors_per_cluster v) cs /\ o = Some (mkInode (file_size e) a IDir a (Z.of_nat (length cs)))
           else o = Some (mkInode (file_size e) a IFile a ((file_size e +u 511) / 512))
       end.

Record fat_rep (d : fat_drive) (T : tree) : Prop := mkFatRep {
  fr_vol : vol_ok (vol d);
  fr_root : is_dir_of T (get_root_node (vol d));
  fr_closed i n j : is_dir_of T i -> child T i n = Some j -> n <> dot -> n <> dotdot -> i_type j = IDir -> is_dir_of T j;
  fr_dirs : exists t f, repr (vol d) (dev (state d)) t f /\
    forall i, is_dir_of T i -> exists dcs, chain (vol d) t (lba i *u sectors_per_cluster (vol d)) dcs /\
      forall n, n <> dot -> n <> dotdot -> entry_of (vol d) t f dcs n (child T i n)
}.

Lemma chain_fits v t c cs : vol_ok v -> chain v t c cs -> (length cs <= chain_fuel v)%nat.
Proof.
  intros Hv Hc. pose proof (chain_NoDup _ _ _ _ Hc) as Hnd. pose proof (chain_cl _ _ _ _ Hc) as Hcl.
  unfold chain_fuel. assert (0 <= total_clusters v) as Hpos by apply Hv.
  assert (length (Z.to_nat <$> cs) <= length (seq 2 (Z.to_nat (total_clusters v))))%nat as Hle.
  { apply submseteq_length, NoDup_submseteq.
    - apply NoDup_fmap_2_strong; [|done]. intros x y Hx Hy E. rewrite Forall_forall in Hcl.
      pose proof (Hcl _ Hx) as [? _]. pose proof (Hcl _ Hy) as [? _]. lia.
    - intros x (y & -> & Hy)%list_elem_of_fmap_1. rewrite Forall_forall in Hcl. pose proof (Hcl _ Hy) as [? ?].
      apply elem_of_seq. lia. }
  by rewrite length_fmap, length_seq in Hle.
Qed.

Lemma count_loop_spec v t f : vol_ok v -> forall cs fuel c x b s, chain v t c cs -> repr v (dev s) t f -> coh v s x ->
  (length cs <= fuel)%nat ->
  exists s', count_loop v fuel c x b s = Ok (Some (b + Z.of_nat (length cs)), s') /\ dev s' = dev s.
Proof.
  intros Hv. induction cs as [|c' cs IH]; intros fuel c x b s Hc Hr Hco Hf; [by inversion Hc|].
  destruct fuel as [|fuel]; [simpl in Hf; lia|]. assert (cl v c) as Hcl by by inversion Hc.
  destruct (cac_spec v s t f x c NoBuffer) as (s1 & x1 & E & Hd & Hco1 & (_ & _ & _ & Ht & _) & _); [done..|].
  cbn [count_loop]. rewrite (bind_ok _ _ _ _ _ E), Ht. inversion Hc as [? _ Hge|? ? _ Hlt Hc']; subst.
  - rewrite (proj2 (Z.ltb_ge _ _)) by done. exists s1. split; [|done]. simpl. done.
  - rewrite (proj2 (Z.ltb_lt _ _)) by done.
    destruct (IH fuel (mask (t c')) x1 (b + 1) s1 Hc') as (s2 & E2 & Hd2); [by rewrite Hd|done|simpl in Hf; lia|].
    exists s2. split; [|congruence]. rewrite E2. do 3 f_equal. simpl length. lia.
Qed.

(** The entry that was found, as a dentry. *)
Lemma to_dentry_spec v t f c id n p s dcs o : vol_ok v -> repr v (dev s) t f -> byte n 0 <> 47 ->
  find_entry f n dcs = Some (c, id) -> entry_of v t f dcs n o ->
  exists d s', dir_entry_to_dentry v (chain_fuel v) (entry (f c) id) p n s = Ok (Some d, s') /\ dev s' = dev s /\ o = Some (d_inode d).
Proof.
  intros Hv Hr Hn Hf He. unfold entry_of in He. rewrite (proj2 (Z.eqb_neq _ _)), Hf in He by done. cbv zeta in He.
  unfold dir_entry_to_dentry. unfold is_directory in He. destruct (truthy _).
  - destruct He as (cs & Hc & ->). rewrite decide_False by done.
    destruct (count_loop_spec v t f Hv cs (chain_fuel v) _ ctx0 0 s Hc Hr (coh_ctx0 _ _) (chain_fits _ _ _ _ Hv Hc)) as (s' & E & Hd).
    rewrite (bind_ok _ _ _ _ _ E). eexists _, s'. split; [done|]. split; [done|]. done.
  - rewrite decide_True by done. eexists _, s. split; [done|]. by split.
Qed.

Lemma fat_child_ok d T i n : fat_rep d T -> is_dir_of T i -> n <> dot -> n <> dotdot ->
  exists d', fs_child d i n = Ok (child T i n, d') /\ fat_rep d' T /\ fs_root d' = fs_root d.
Proof.
  intros [Hv Hroot Hcl (t & f & Hr & Hdirs)] Hi Hd Hdd. destruct (Hdirs i Hi) as (dcs & Hc & He). specialize (He n Hd Hdd).
  assert (forall s', dev s' = dev (state d) -> fat_rep (mkFatDrive (vol d) s') T) as Hrep.
  { intros s' Hs. split; [done|done|done|]. exists t, f. simpl. by rewrite Hs. }
  simpl. unfold on_drive, get_child_dentry. destruct (Z.eqb_spec (byte n 0) 47) as [E|E].
  - unfold entry_of in He. rewrite E, Z.eqb_refl in He. rewrite He. unfold get_child_dir_entry_id. rewrite E, Z.eqb_refl.
    eexists. split; [done|]. split; [by apply Hrep|done].
  - pose proof (get_child_spec (vol d) t f n (as_dentry i) dcs (chain_fuel (vol d)) (state d) Hv Hr Hc E (chain_fits _ _ _ _ Hv Hc)) as Hg.
    destruct (find_entry f n dcs) as [[c id]|] eqn:Hf.
    + destruct Hg as (s1 & x & Eg & Hdev & _ & _ & Hb & _). rewrite (bind_ok _ _ _ _ _ Eg), bind_gets, Hb.
      destruct (to_dentry_spec (vol d) t f c id n (Some (as_dentry i)) s1 dcs (child T i n)) as (e & s2 & E2 & Hd2 & Ho);
        [done|by rewrite Hdev|done|done|done|]. rewrite E2, Ho. eexists. split; [done|]. split; [|done]. apply Hrep. congruence.
    + destruct Hg as (s1 & Eg & Hdev). rewrite (bind_fail _ _ _ _ Eg). unfold entry_of in He.
      rewrite (proj2 (Z.eqb_neq _ _)), Hf in He by done. rewrite He. eexists. split; [done|]. split; [by apply Hrep|done].
Qed.

#[export] Instance fat_laws : FsLaws fat_drive.
Proof.
  refine {| fs_rep := fat_rep |}.
  - intros d T Hr. split; [by apply fr_root|done].
  - intros d T i n Hr Hi _ Hd Hdd. by apply fat_child_ok.
  - intros d T i n j Hr Hi Hc Hd Hdd Hj. by eapply fr_closed.
Defined.

End instance.
(** ** Lookups on a small volume *)

#[local] Existing Instance Ata.ata_device.
#[local] Existing Instance Ata.ata_laws.

(** The volume of [Fat] with one file, [a.txt]. *)
Definition drive_a : fat_drive (D := Ata.ata_drive) := mkFatDrive vol0 (state0 []).
Definition name_a : list Z := [97; 46; 116; 120; 116].

Definition tree_a : tree := mkTree (fun i => i = get_root_node vol0) (fun i n =>
  if byte n 0 =? 47 then None
  else match find_entry f0 n [2] with
       | None => None
       | Some (c, id) =>
           let e := entry (f0 c) id in
           Some (mkInode (file_size e) (first_cluster_addr e) IFile (first_cluster_addr e) ((file_size e +u 511) / 512))
       end).

Lemma files_only n c id : find_entry f0 n [2] = Some (c, id) -> is_directory (entry (f0 c) id) = false.
Proof.
  intros Hf. pose proof (find_entry_range _ _ _ _ _ Hf) as Hid. apply find_entry_elem, list_elem_of_singleton in Hf as ->.
  assert (forallb (fun k => negb (is_directory (entry (f0 2) (Z.of_nat k)))) (seq 0 16) = true) as Hall by (vm_compute; reflexivity).
  rewrite forallb_forall in Hall. specialize (Hall (Z.to_nat id)). rewrite Z2Nat.id in Hall by lia.
  apply negb_true_iff, Hall, in_seq. lia.
Qed.

Lemma rep_a : fs_rep drive_a tree_a.
Proof.
  split.
  - apply vol0_ok.
  - done.
  - intros i n j -> Hc _ _ Hj. simpl in Hc. repeat case_match; simplify_eq/=.
  - exists t0, f0. split; [apply (repr0 [])|]. intros i ->. exists [2]. split; [exact (file_dir _ _ _ _ _ _ _ _ _ _ file0)|].
    intros n _ _. unfold entry_of. cbn [child tree_a]. destruct (byte n 0 =? 47); [done|]. destruct (find_entry f0 n [2]) as [[c id]|] eqn:Hf; [|done].
    cbv zeta. by rewrite (files_only _ _ _ Hf).
Qed.

Definition state_a : Vfs.vfs (fat_drive (D := Ata.ata_drive)) := Vfs.one_state drive_a.
Definition path_a : list Z := [47; 46; 47; 97; 46; 116; 120; 116].
Definition zeros_of (n : Z) : list Z := repeat 0 (Z.to_nat n).

Notation T_a := (fun _ : nat => tree_a).
Notation m_a := (Vfs.one_mounts drive_a).
Notation r_a := (Vfs.one_root drive_a).

Lemma inv_a : Vfs.inv T_a m_a r_a state_a /\ Vfs.mounts_ok T_a m_a r_a /\ Vfs.mounted m_a state_a.
Proof.
  split; [apply Vfs.one_inv, rep_a|]. split; [apply Vfs.one_mounts_ok, rep_a|apply Vfs.one_mounted].
Qed.

(** What a lookup answered, and how many places of the cache it left in use; not the whole state. *)
Definition outcome {A} (r : res (option positive * Vfs.vfs A)) : res (option positive * nat) :=
  '(o, s) ← r; Ok (o, Vfs.lowest_free_dentry s).

Lemma outcome_inv {A} (r : res (option positive * Vfs.vfs A)) o n : outcome r = Ok (o, n) ->
  exists s, r = Ok (o, s) /\ Vfs.lowest_free_dentry s = n.
Proof. destruct r as [[o' s]| | |]; simpl; intros; simplify_eq. by exists s. Qed.

Lemma found_a : outcome (Vfs.browse_to state_a [] path_a true false) = Ok (Some 4%positive, 4%nat).
Proof. vm_compute. reflexivity. Qed.

Lemma answer_a : Vfs.answer T_a m_a r_a [] (KString.tokens [Vfs.slash] path_a) = Some [name_a].
Proof. vm_compute. reflexivity. Qed.

Lemma browse_to_ok_witness :
  Vfs.crosses m_a false [] (KString.tokens [Vfs.slash] path_a) = false /\
  exists d s', Vfs.browse_to state_a [] path_a true false = Ok (Some d, s') /\ Vfs.located (Vfs.heap s') d [name_a].
Proof.
  split; [vm_compute; reflexivity|]. destruct inv_a as (Hi & Hmo & Hm).
  destruct (outcome_inv _ _ _ found_a) as (s' & Hf & _). exists 4%positive, s'. split; [exact Hf|].
  pose proof (Vfs.browse_to_ok T_a m_a r_a state_a [] path_a true false Hmo Hi Hm eq_refl ltac:(vm_compute; reflexivity)) as Hb.
  rewrite Hf in Hb. destruct Hb as (_ & l & Hl & Ha). rewrite answer_a in Ha. by injection Ha as <-.
Defined.

(** The VFS after [a.txt] has been looked up once. *)
Definition seen_a : Vfs.vfs (fat_drive (D := Ata.ata_drive)) :=
  match Vfs.browse_to state_a [] path_a true false with Ok (_, s) => s | _ => state_a end.

Lemma seen_heap : Vfs.heap seen_a =
  <[4%positive := Vfs.mkDentry (Vfs.mkVInode (Some 1%nat) (mkInode 600 3 IFile 3 2)) (Some 1%positive) name_a]> (Vfs.heap state_a).
Proof. vm_compute. reflexivity. Qed.

Lemma seen_cache : Vfs.cache seen_a = <[3%nat := Some 4%positive]> (Vfs.cache state_a).
Proof. vm_compute. reflexivity. Qed.

Lemma inv_seen : Vfs.inv T_a m_a r_a seen_a /\ Vfs.mounted m_a seen_a.
Proof.
  destruct inv_a as (Hi & Hmo & Hm). split.
  - pose proof (Vfs.browse_root_ok T_a m_a r_a state_a [] path_a true false Hmo Hi Hm eq_refl ltac:(vm_compute; reflexivity)) as Hb.
    destruct (outcome_inv _ _ _ found_a) as (s' & Hf & _). unfold seen_a. rewrite Hf in *. apply Hb.
  - eapply (Vfs.mounted_add _ _ _ state_a seen_a 4); [exact Hmo|exact Hi|exact Hm|reflexivity|exact seen_heap|reflexivity| | |].
    + apply (Vfs.one_located drive_a).
    + reflexivity.
    + intros e He. rewrite seen_cache. apply (Vfs.one_cached drive_a tree_a rep_a) in He.
      apply list_elem_of_lookup. exists (Pos.to_nat e - 1)%nat. by destruct He as [->|[->| ->]].
Qed.

Lemma lookup_ignores_cache_witness :
  Vfs.cache seen_a <> Vfs.cache state_a /\
  exists r1 s1' r2 s2', Vfs.browse_to state_a [] path_a true false = Ok (r1, s1') /\
    Vfs.browse_to seen_a [] path_a true false = Ok (r2, s2') /\
    (Vfs.lowest_free_dentry s1' = Vfs.MAX_DENTRIES \/ Vfs.lowest_free_dentry s2' = Vfs.MAX_DENTRIES \/
     match r1, r2 with
     | Some d1, Some d2 => exists D1 D2 l, Vfs.heap s1' !! d1 = Some D1 /\ Vfs.heap s2' !! d2 = Some D2 /\
         Vfs.located (Vfs.heap s1') d1 l /\ Vfs.located (Vfs.heap s2') d2 l /\ Vfs.node (Vfs.inode D1) = Vfs.node (Vfs.inode D2)
     | None, None => True
     | _, _ => False
     end).
Proof.
  split; [intros E%(f_equal (fun c => c !! 3%nat)); vm_compute in E; discriminate|].
  destruct inv_a as (Hi & Hmo & Hm). destruct inv_seen as (Hi' & Hm').
  apply (Vfs.lookup_ignores_cache T_a m_a r_a state_a seen_a [] [] path_a Hmo Hi Hm Hi' Hm'); [reflexivity|vm_compute; reflexivity].
Defined.

Lemma init_ok_witness : fs_rep drive_a tree_a /\ exists s, Vfs.init_mounts (Vfs.boot [drive_a]) = Ok s /\
  Vfs.inv T_a m_a r_a s /\ Vfs.mounts_ok T_a m_a r_a /\ Vfs.mounted m_a s.
Proof. split; [exact rep_a|]. exact (Vfs.init_ok drive_a tree_a rep_a). Defined.

Lemma dentry_path_ok_witness :
  Vfs.located (Vfs.heap state_a) 3 [[49]; Vfs.mnt] /\
  Vfs.dentry_path (S (size (Vfs.heap state_a))) state_a zeros_of 3 = Ok [47; 109; 110; 116; 47; 49].
Proof.
  destruct inv_a as (Hi & _). destruct (Vfs.one_located drive_a) as (_ & _ & H3). split; [exact H3|].
  apply (Vfs.dentry_path_ok T_a m_a r_a state_a 3 [[49]; Vfs.mnt] zeros_of Hi H3).
  - by repeat constructor; unfold Vfs.chars_ok; set_solver.
  - intros n. apply repeat_length.
Defined.

Lemma absolute_path_round_trip_witness :
  Vfs.located (Vfs.heap state_a) 3 [[49]; Vfs.mnt] /\
  exists p, Vfs.dentry_path (S (size (Vfs.heap state_a))) state_a zeros_of 3 = Ok p /\
    match Vfs.browse_to state_a [] p true false with
    | Ok (Some d', s') => Vfs.inv T_a m_a r_a s' /\ Vfs.located (Vfs.heap s') d' [[49]; Vfs.mnt]
    | Ok (None, s') => Vfs.lowest_free_dentry s' = Vfs.MAX_DENTRIES
    | Panic => false = true
    | _ => False
    end.
Proof.
  destruct inv_a as (Hi & Hmo & Hm). destruct (Vfs.one_located drive_a) as (_ & _ & H3). split; [exact H3|].
  apply (Vfs.absolute_path_round_trip T_a m_a r_a state_a [] 3
    (Vfs.mkDentry (Vfs.mkVInode (Some 1%nat) (get_root_node vol0)) (Some 2%positive) [49]) [[49]; Vfs.mnt] zeros_of true false Hmo Hi Hm).
  - reflexivity.
  - by eexists.
  - exact H3.
  - by repeat constructor; unfold Vfs.chars_ok; set_solver.
  - intros n. apply repeat_length.
Defined.

Lemma mkdir_overflows_witness : last [47; 98] <> Some 47 /\ Vfs.mkdir state_a [] [47; 98] = Fault.
Proof. split; [done|]. apply (Vfs.mkdir_overflows state_a [] [47; 98]); done. Defined.

(** ** Paths that go wrong

    The same volume with a directory [b]. *)

Definition drive_b : fat_drive (D := Ata.ata_drive) :=
  match fs_mkdir drive_a (get_root_node vol0) [98] with Ok (_, d) => d | _ => drive_a end.
Definition state_b : Vfs.vfs (fat_drive (D := Ata.ata_drive)) := Vfs.one_state drive_b.
Definition after_b (s : Vfs.vfs (fat_drive (D := Ata.ata_drive))) (path : list Z) :=
  match Vfs.browse_to s [] path true false with Ok (_, s) => s | _ => s end.

Definition path_b : list Z := [47; 98].
Definition path_mnt1 : list Z := [47; 109; 110; 116; 47; 49].
Definition path_up : list Z := path_b ++ [47; 46; 46] ++ path_mnt1.
Definition path_dots (n : nat) : list Z := path_b ++ concat (repeat [47; 46] n).

(** [/b/../mnt/1] is the root of the mounted drive when [b] is in the cache and leads nowhere when it is not: once
    the cache has missed, a mount point is looked for on the disk. *)
Theorem up_then_mount_needs_cache :
  outcome (Vfs.browse_to (after_b state_b path_b) [] path_up true false) = Ok (Some 3%positive, 4%nat) /\
  outcome (Vfs.browse_to state_b [] path_up true false) = Ok (None, 5%nat).
Proof. split; vm_compute; reflexivity. Qed.

(** Every [.] of a path behind a miss takes a place of the cache for good.  A path with 197 of them fills it, and the
    entry of the mounted drive is thrown out on the way; one more stops the kernel. *)
Theorem dots_fill_cache :
  outcome (Vfs.browse_to state_b [] path_mnt1 true true) = Ok (Some 3%positive, 3%nat) /\
  outcome (Vfs.browse_to state_b [] (path_dots 197) true true) = Ok (Some 4%positive, 200%nat) /\
  outcome (Vfs.browse_to (after_b state_b (path_dots 197)) [] path_mnt1 true true) = Ok (None, 200%nat) /\
  outcome (Vfs.browse_to state_b [] (path_dots 198) true true) = Panic.
Proof. split; [vm_compute; reflexivity|]. split; [vm_compute; reflexivity|]. split; vm_compute; reflexivity. Qed.

End VfsFat.
