(* ===== verification/Net.v ===== *)
(** * Addresses, checksums and frames ([network/Network.cpp], [Endianness.h], [Ethernet.cpp], [IPV4.cpp], [UDP.cpp],
    [ARP.cpp], [ICMP.cpp], [TP.cpp])

    A frame is a list of bytes.  The functions that build one return the bytes up to a pointer and the zeroed buffer
    behind it, so that each layer writes its header at the start of what the layer below left.  Received data is the memory
    from the start of the packet on: it may be longer than the packet, and a read behind its end is a fault.  The
    time-stamp counter, which the random numbers come from, is a function of the number of reads. *)

From stdpp Require Import base tactics numbers list.
From S2P Require Import Prelude Bytes.
Import Bytes.
Open Scope Z_scope.

Module Net.

Definition IPV4_ADDR_LEN : Z := 4.
Definition MAC_ADDR_LEN : Z := 6.

(** ** Byte order *)

Definition switch16 (nb : Z) : Z := Z.lor (Z.land (Z.shiftr nb 8) 0xff) (Z.land (Z.shiftl nb 8) 0xff00).
Definition switch32 (nb : Z) : Z :=
  Z.lor (Z.lor (Z.lor (Z.land (Z.shiftr nb 24) 0xff) (Z.land (Z.shiftl nb 8) 0xff0000)) (Z.land (Z.shiftr nb 8) 0xff00))
    (Z.land (Z.shiftl nb 24) 0xff000000).

(** ** Access to memory *)

Definition getn (l : list Z) (o n : Z) : res (list Z) :=
  if (0 <=? o) && (o + n <=? Z.of_nat (length l)) then Ok (slice l o n) else Fault.
Definition get8 (l : list Z) (o : Z) : res Z := x ← getn l o 1; Ok (byte x 0).
Definition get16 (l : list Z) (o : Z) : res Z := x ← getn l o 2; Ok (rd16 x 0).
Definition get32 (l : list Z) (o : Z) : res Z := x ← getn l o 4; Ok (rd32 x 0).
Definition set8 (l : list Z) (o v : Z) : res (list Z) := patch_in l o [v mod 256].
Definition set16 (l : list Z) (o v : Z) : res (list Z) := patch_in l o (le16 v).
Definition set32 (l : list Z) (o v : Z) : res (list Z) := patch_in l o (le32 v).

(** ** The Internet checksum *)

(** The sum of the 16-bit words, with the byte that is left over. *)
Fixpoint sum16 (sum : Z) (l : list Z) : Z :=
  match l with
  | a :: b :: l => sum16 (sum +u (a + 256 * b)) l
  | [a] => sum +u a
  | [] => sum
  end.

(** [while (sum >> 16) sum = (sum & 0xffff) + (sum >> 16)]; three rounds are enough for 32 bits. *)
Fixpoint fold16 (fuel : nat) (sum : Z) : res Z :=
  if truthy (Z.shiftr sum 16) then
    match fuel with
    | O => NoFuel
    | S fuel => fold16 fuel (Z.land sum 0xffff +u Z.shiftr sum 16)
    end
  else Ok sum.

Definition checksum (addr : list Z) (count : Z) : res Z :=
  l ← getn addr 0 count; s ← fold16 3 (sum16 0 l); Ok (u16 (Z.lnot s)).

Definition checksum_add (checksum1 checksum2 : Z) : res Z := s ← fold16 3 (checksum1 + checksum2); Ok (u16 s).

(** ** State *)

Record net := mkNet {
  ip : list Z; gateway_ip : list Z; subnet_mast : list Z; mac : list Z; gateway_mac : list Z;
  cache : list (list Z * list Z); cache_head : nat;
  pending_queue : list (option (list Z)); pending_queue_head : nat;
  request_sent : bool; time : Z;
  tsc : nat -> Z; tsc_reads : nat;
  sent : list (list Z)
}.

Definition set_addresses (s : net) i g : net :=
  mkNet i g (subnet_mast s) (mac s) (gateway_mac s) (cache s) (cache_head s) (pending_queue s) (pending_queue_head s)
    (request_sent s) (time s) (tsc s) (tsc_reads s) (sent s).
Definition set_subnet_mast (s : net) m : net :=
  mkNet (ip s) (gateway_ip s) m (mac s) (gateway_mac s) (cache s) (cache_head s) (pending_queue s) (pending_queue_head s)
    (request_sent s) (time s) (tsc s) (tsc_reads s) (sent s).
Definition set_gateway_mac (s : net) m : net :=
  mkNet (ip s) (gateway_ip s) (subnet_mast s) (mac s) m (cache s) (cache_head s) (pending_queue s) (pending_queue_head s)
    (request_sent s) (time s) (tsc s) (tsc_reads s) (sent s).
Definition set_cache (s : net) c h : net :=
  mkNet (ip s) (gateway_ip s) (subnet_mast s) (mac s) (gateway_mac s) c h (pending_queue s) (pending_queue_head s)
    (request_sent s) (time s) (tsc s) (tsc_reads s) (sent s).
Definition set_pending (s : net) p h : net :=
  mkNet (ip s) (gateway_ip s) (subnet_mast s) (mac s) (gateway_mac s) (cache s) (cache_head s) p h
    (request_sent s) (time s) (tsc s) (tsc_reads s) (sent s).
Definition set_time (s : net) r t : net :=
  mkNet (ip s) (gateway_ip s) (subnet_mast s) (mac s) (gateway_mac s) (cache s) (cache_head s) (pending_queue s)
    (pending_queue_head s) r t (tsc s) (tsc_reads s) (sent s).
Definition next_tsc (s : net) : net :=
  mkNet (ip s) (gateway_ip s) (subnet_mast s) (mac s) (gateway_mac s) (cache s) (cache_head s) (pending_queue s)
    (pending_queue_head s) (request_sent s) (time s) (tsc s) (S (tsc_reads s)) (sent s).

(** [nic->sendPacket]: the frame is on the wire when it returns. *)
Definition nic_send (s : net) (frame : list Z) : net :=
  mkNet (ip s) (gateway_ip s) (subnet_mast s) (mac s) (gateway_mac s) (cache s) (cache_head s) (pending_queue s)
    (pending_queue_head s) (request_sent s) (time s) (tsc s) (tsc_reads s) (sent s ++ [frame]).

Definition null_ip : list Z := [0; 0; 0; 0].
Definition null_mac : list Z := [0; 0; 0; 0; 0; 0].
Definition broadcast_ip : list Z := [255; 255; 255; 255].
Definition broadcast_mac : list Z := [255; 255; 255; 255; 255; 255].

(** ** Random numbers *)

Definition generate_random_id32 (s : net) : res (Z * net) :=
  m ← get8 (mac s) 0; Ok (Z.lxor (Z.land (tsc s (tsc_reads s)) 0xFFFFFFFF) (u32 (Z.shiftl m 16)), next_tsc s).

Definition generate_random_id16 (s : net) : res (Z * net) :=
  '(rid, s) ← generate_random_id32 s; Ok (Z.shiftr rid 16 +u Z.land rid 0xFF, s).

Definition random_ephemeral_port (s : net) : res (Z * net) :=
  '(r, s) ← generate_random_id32 s; Ok (u16 (49152 + r mod (65535 - 49152 + 1)), s).

(** ** Ethernet *)

Definition ETHERTYPE_IPV4 : Z := 0x0800.
Definition ETHERTYPE_ARP : Z := 0x0806.
Definition ethernet_header_size : Z := 14.

Definition ethernet_write_header (s : net) (buf dest : list Z) (type : Z) : res (list Z) :=
  buf ← patch_in buf 0 dest; buf ← patch_in buf 6 (mac s); set16 buf 12 (switch16 type).

(** [Ethernet::create_packet]: the header, and the buffer behind it. *)
Definition ethernet_create_packet (s : net) (dest : list Z) (type payload_size : Z) : res (list Z * list Z) :=
  buf ← ethernet_write_header s (replicate (Z.to_nat (ethernet_header_size + payload_size)) 0) dest type;
  Ok (take 14 buf, drop 14 buf).

(** ** IPv4 *)

Definition IPV4_FLAG_MORE_FRAGMENTS : Z := 4.
Definition IPV4_PROTOCOL_ICMP : Z := 1.
Definition IPV4_PROTOCOL_TCP : Z := 6.
Definition IPV4_PROTOCOL_UDP : Z := 17.
Definition IPV4_DEFAULT_TTL : Z := 64.
Definition IPV4_DEFAULT_IHL : Z := 5.
Definition ipv4_header_size : Z := IPV4_DEFAULT_IHL * 4.

(** The bit fields of the header. *)
Definition get_ihl (version_and_ihl : Z) : Z := Z.land version_and_ihl 0xF.
Definition get_version (version_and_ihl : Z) : Z := Z.shiftr version_and_ihl 4.
Definition get_flags (flags_and_frag_offset : Z) : Z := Z.land (Z.shiftr flags_and_frag_offset 5) 0x7.
Definition get_frag_offset (flags_and_frag_offset : Z) : Z := Z.land flags_and_frag_offset 0xFF1F.
Definition set_version (w v : Z) : Z := Z.lor w (Z.shiftl (Z.land v 0xF) 4).
Definition set_ihl (w v : Z) : Z := Z.lor w (Z.land v 0xF).
Definition set_flags (w v : Z) : Z := Z.lor w (Z.shiftl (Z.land v 0x7) 5).
Definition set_frag_offset_to_zero (w : Z) : Z := Z.land w (Z.lnot 0xFF1F).

Definition ipv4_write_packet (s : net) (buf : list Z) (tos size id flags ttl proto : Z) (daddr : list Z) : res (list Z * Z) :=
  w ← get8 buf 0; buf ← set8 buf 0 (set_version w 4);
  w ← get8 buf 0; buf ← set8 buf 0 (set_ihl w IPV4_DEFAULT_IHL);
  buf ← set8 buf 1 tos; buf ← set16 buf 2 (switch16 size); buf ← set16 buf 4 (switch16 id);
  w ← get16 buf 6; buf ← set16 buf 6 (set_flags w flags);
  w ← get16 buf 6; buf ← set16 buf 6 (set_frag_offset_to_zero w);
  buf ← set8 buf 8 ttl; buf ← set8 buf 9 proto;
  buf ← patch_in buf 12 (ip s); buf ← patch_in buf 16 daddr;
  w ← get8 buf 0; c ← checksum buf (get_ihl w * 4); buf ← set16 buf 10 c;
  Ok (buf, get_ihl w * 4).

Definition ipv4_create_packet (s : net) (payload_size proto : Z) (daddr dst_mac : list Z) : res (list Z * list Z) :=
  let size := ipv4_header_size + payload_size in
  '(pre, buf) ← ethernet_create_packet s dst_mac ETHERTYPE_IPV4 (u16 size);
  '(buf, n) ← ipv4_write_packet s buf 0 (u16 size) 0 0 IPV4_DEFAULT_TTL proto daddr;
  Ok (pre ++ take (Z.to_nat n) buf, drop (Z.to_nat n) buf).

Definition masked (a m : list Z) : list Z := zip_with Z.land a m.
Definition address_is_in_subnet (s : net) (address : list Z) : bool :=
  bool_decide (masked address (subnet_mast s) = masked (ip s) (subnet_mast s)).

(** [packet_valid]: whether a packet is handled, for a header in readable memory. *)
Definition ipv4_packet_valid (s : net) (p : list Z) : res bool :=
  w ← get8 p 0; daddr ← getn p 16 4; fo ← get16 p 6; proto ← get8 p 9;
  if negb (get_version w =? 4) then Ok false
  else if negb (get_ihl w =? IPV4_DEFAULT_IHL) then Ok false
  else if negb (bool_decide (daddr = ip s) || bool_decide (daddr = broadcast_ip)) then Ok false
  else if truthy (get_frag_offset fo) || truthy (Z.land (get_flags fo) IPV4_FLAG_MORE_FRAGMENTS) then Ok false
  else
    c ← checksum p ipv4_header_size;
    if truthy c then Ok false
    else Ok ((proto =? IPV4_PROTOCOL_ICMP) || (proto =? IPV4_PROTOCOL_UDP) || (proto =? IPV4_PROTOCOL_TCP)).

(** ** UDP headers *)

Definition udp_header_size : Z := 8.

Definition udp_write_header (buf : list Z) (src_port dst_port payload_size : Z) : res (list Z) :=
  let size := udp_header_size + payload_size in
  buf ← set16 buf 0 (switch16 src_port); buf ← set16 buf 2 (switch16 dst_port);
  buf ← set16 buf 4 (switch16 (u16 size)); set16 buf 6 0.

Definition udp_create_packet (s : net) (src_port dst_port payload_size : Z) (daddr dst_mac : list Z) : res (list Z * list Z) :=
  let size := udp_header_size + payload_size in
  '(pre, buf) ← ipv4_create_packet s (u16 size) IPV4_PROTOCOL_UDP daddr dst_mac;
  buf ← udp_write_header buf src_port dst_port payload_size;
  Ok (pre ++ take 8 buf, drop 8 buf).

(** ** ARP and sending *)

Definition ARP_ETHERNET : Z := 1.
Definition ARP_IPV4 : Z := 0x800.
Definition ARP_REQUEST : Z := 1.
Definition ARP_REPLY : Z := 2.
Definition ARP_PENDING_QUEUE_SIZE : nat := 10.
Definition ARP_CACHE_SIZE : nat := 10.
Definition arp_packet_size : Z := 28.

Definition arp_write_packet (s : net) (buf : list Z) (opcode : Z) (dstpr dsthw : list Z) : res (list Z) :=
  buf ← set16 buf 0 (switch16 ARP_ETHERNET); buf ← set16 buf 2 (switch16 ARP_IPV4);
  buf ← set8 buf 4 MAC_ADDR_LEN; buf ← set8 buf 5 IPV4_ADDR_LEN; buf ← set16 buf 6 (switch16 opcode);
  buf ← patch_in buf 14 (ip s); buf ← patch_in buf 24 dstpr;
  buf ← patch_in buf 8 (mac s); patch_in buf 18 dsthw.

(** [resolve_mac]: the request goes to the broadcast address, so that [send_packet] hands it to the card. *)
Definition resolve_mac (s : net) (addr : list Z) : res net :=
  '(pre, buf) ← ethernet_create_packet s broadcast_mac ETHERTYPE_ARP arp_packet_size;
  buf ← arp_write_packet s buf ARP_REQUEST addr broadcast_mac;
  Ok (nic_send s (pre ++ buf)).

(** The destination address of the IPv4 packet in a frame. *)
Definition frame_daddr (frame : list Z) : res (list Z) := getn frame (ethernet_header_size + 16) 4.

Definition resolve_and_send (s : net) (frame : list Z) : res net :=
  let s := set_pending s (<[pending_queue_head s := Some frame]> (pending_queue s))
             (Nat.modulo (pending_queue_head s + 1) ARP_PENDING_QUEUE_SIZE) in
  daddr ← frame_daddr frame; resolve_mac s daddr.

Definition send_packet (s : net) (frame : list Z) : res net :=
  dest ← getn frame 0 6;
  if bool_decide (dest = null_mac) then
    daddr ← frame_daddr frame;
    if address_is_in_subnet s daddr then resolve_and_send s frame
    else frame ← patch_in frame 0 (gateway_mac s); Ok (nic_send s frame)
  else Ok (nic_send s frame).

(** [get_mac]: the loop goes around the cache from its head, the oldest entry. *)
Fixpoint find_mac (s : net) (addr : list Z) (k i : nat) : res (list Z) :=
  match k with
  | O => Ok null_mac
  | S k =>
      e ← deref (cache s !! Nat.modulo (cache_head s + i) ARP_CACHE_SIZE);
      if bool_decide (e.1 = addr) then Ok e.2 else find_mac s addr k (S i)
  end.

Definition get_mac (s : net) (addr : list Z) : res (list Z) := find_mac s addr ARP_CACHE_SIZE 0.

(** ** The time protocol *)

Definition TP_DST_PORT : Z := 37.
Definition tp_server_ip : list Z := [132; 163; 97; 6].

Definition tp_send_request (s : net) : res net :=
  '(port, s) ← random_ephemeral_port s;
  '(pre, buf) ← udp_create_packet s port TP_DST_PORT 0 tp_server_ip (gateway_mac s);
  send_packet (set_time s true (time s)) (pre ++ buf).

Definition EPOCH_OFFSET : Z := 2208988800.
Definition days_in_month : list Z := [31; 28; 31; 30; 31; 30; 31; 31; 30; 31; 30; 31].
Definition is_leap_year (year : Z) : bool := (year mod 4 =? 0) && (negb (year mod 100 =? 0) || (year mod 400 =? 0)).
Definition year_length (year : Z) : Z := if is_leap_year year then 366 else 365.

(** The two loops of [convert_to_local_time]. *)
Fixpoint year_loop (fuel : nat) (days year : Z) : res (Z * Z) :=
  if year_length year <=? days then
    match fuel with O => NoFuel | S fuel => year_loop fuel (days -u year_length year) (year + 1) end
  else Ok (days, year).

Definition month_length (month year : Z) : res Z :=
  n ← deref (days_in_month !! Z.to_nat month); Ok (n + (if (month =? 1) && is_leap_year year then 1 else 0)).

Fixpoint month_loop (fuel : nat) (days month year : Z) : res (Z * Z) :=
  n ← month_length month year;
  if n <=? days then
    match fuel with O => NoFuel | S fuel => month_loop fuel (days -u n) (month + 1) year end
  else Ok (days, month).

(** The date that is printed: year, month, day, hours, minutes and seconds. *)
Definition convert_to_local_time (unix_timestamp : Z) : res (Z * Z * Z * Z * Z * Z) :=
  let timestamp := unix_timestamp -u EPOCH_OFFSET in
  '(days, year) ← year_loop 200 (timestamp / 86400) 1970;
  '(days, month) ← month_loop 12 days 0 year;
  Ok (year, month + 1, days + 1, timestamp / 3600 mod 24, timestamp / 60 mod 60, timestamp mod 60).

(** A UDP packet from its header on; the answer is [true] when it was ours. *)
Definition tp_handle_packet (s : net) (p : list Z) : res (bool * net) :=
  len ← get16 p 4;
  if negb (switch16 len =? udp_header_size + 4) then Ok (false, s)
  else if negb (request_sent s) then Ok (false, s)
  else
    w ← get32 p 8; let time_value := switch32 w in
    _ ← convert_to_local_time time_value;
    Ok (true, set_time s false time_value).

(** ** Received ARP packets *)

Definition on_gateway_mac_received (s : net) (m : list Z) : res net := tp_send_request (set_gateway_mac s m).

(** The loop over the packets that wait for an address; [memset] empties the whole queue after each that is sent. *)
Fixpoint send_pending (s : net) (srcpr srchw : list Z) (idx : list nat) : res net :=
  match idx with
  | [] => Ok s
  | i :: idx =>
      o ← deref (pending_queue s !! i);
      match o with
      | None => send_pending s srcpr srchw idx
      | Some frame =>
          daddr ← frame_daddr frame;
          if bool_decide (daddr = srcpr) then
            frame ← patch_in frame 0 srchw;
            let s := set_pending s (<[i := Some frame]> (pending_queue s)) (pending_queue_head s) in
            s ← send_packet s frame;
            send_pending (set_pending s (replicate ARP_PENDING_QUEUE_SIZE None) (pending_queue_head s)) srcpr srchw idx
          else send_pending s srcpr srchw idx
      end
  end.

(** [is_valid]: both comparisons are with our own address. *)
Definition arp_is_valid (s : net) (p : list Z) : res bool := dstpr ← getn p 24 4; Ok (bool_decide (dstpr = ip s)).

Definition arp_handle_packet (s : net) (p eth_src : list Z) : res net :=
  ok ← arp_is_valid s p;
  if negb ok then Ok s
  else
    opcode ← get16 p 6; srchw ← getn p 8 6; srcpr ← getn p 14 4;
    if switch16 opcode =? ARP_REQUEST then
      '(pre, buf) ← ethernet_create_packet s eth_src ETHERTYPE_ARP arp_packet_size;
      buf ← arp_write_packet s buf ARP_REPLY srcpr srchw;
      send_packet s (pre ++ buf)
    else
      let s := set_cache s (<[cache_head s := (srcpr, srchw)]> (cache s)) (Nat.modulo (cache_head s + 1) ARP_CACHE_SIZE) in
      s ← (if bool_decide (srcpr = gateway_ip s) then on_gateway_mac_received s srchw else Ok s);
      send_pending s srcpr srchw (seq 0 ARP_PENDING_QUEUE_SIZE).

Definition on_ip_received (s : net) (addr gw : list Z) : res net := resolve_mac (set_addresses s addr gw) gw.

(** ** ICMP *)

Definition ICMP_ECHO_REPLY : Z := 0.
Definition ICMP_ECHO_REQUEST : Z := 8.
Definition icmp_packet_size : Z := 4.

Definition icmp_packet_valid (p : list Z) (size : Z) : res bool :=
  if size <? icmp_packet_size then Ok false
  else
    type ← get8 p 0; code ← get8 p 1;
    if negb (truthy (Z.land type ICMP_ECHO_REQUEST)) then Ok false
    else if truthy code then Ok false
    else c ← checksum p size; Ok (negb (truthy c)).

Definition write_ping_reply (buf p : list Z) (size : Z) : res (list Z) :=
  buf ← set8 buf 0 ICMP_ECHO_REPLY; buf ← set8 buf 1 0;
  payload ← getn p 4 (size - 4); buf ← patch_in buf 4 payload;
  c ← checksum buf size; set16 buf 2 c.

(** [size] is what the IPv4 header says; [saddr] and [eth_src] are the sender's addresses. *)
Definition icmp_handle_packet (s : net) (p : list Z) (size : Z) (saddr eth_src : list Z) : res net :=
  ok ← icmp_packet_valid p size;
  if negb ok then Ok s
  else
    '(pre, buf) ← ipv4_create_packet s size IPV4_PROTOCOL_ICMP saddr eth_src;
    buf ← write_ping_reply buf p size;
    send_packet s (pre ++ buf).

(** ** Arithmetic of the checksum *)

Fixpoint words_sum (l : list Z) : Z :=
  match l with
  | a :: b :: l => a + 256 * b + words_sum l
  | [a] => a
  | [] => 0
  end.

(** The ones-complement representative of a sum. *)
Definition residue (s : Z) : Z := if s =? 0 then 0 else 1 + (s - 1) mod 65535.

(** Induction over the words of a list. *)
Lemma words_ind (P : list Z -> Prop) : P [] -> (forall a, P [a]) -> (forall a b l, P l -> P (a :: b :: l)) -> forall l, P l.
Proof.
  intros H0 H1 H2. fix IH 1. intros [|a [|b l]]; [exact H0|exact (H1 a)|exact (H2 a b l (IH l))].
Qed.

Lemma words_sum_app (l1 l2 : list Z) : Nat.Even (length l1) -> words_sum (l1 ++ l2) = words_sum l1 + words_sum l2.
Proof.
  induction l1 as [|a|a b l1 IH] using words_ind; intros He; simpl in *; [done|by destruct He as [k ?]; lia|].
  rewrite IH; [lia|]. destruct He as [k Hk]. exists (k - 1)%nat. lia.
Qed.

Lemma words_sum_bounds l : Forall is_u8 l -> 0 <= words_sum l <= 32896 * Z.of_nat (length l).
Proof.
  induction l as [|a|a b l IH] using words_ind; intros Hl; simpl; [lia| |].
  - inversion Hl as [|?? Ha]; subst. unfold is_u8 in Ha. lia.
  - inversion Hl as [|?? Ha Hl']; subst. inversion Hl' as [|?? Hb Hl'']; subst. unfold is_u8 in *. specialize (IH Hl''). lia.
Qed.

Lemma sum16_spec l : forall s, 0 <= s -> Forall is_u8 l -> s + words_sum l < 4294967296 -> sum16 s l = s + words_sum l.
Proof.
  induction l as [|a|a b l IH] using words_ind; intros s Hs Hl Hb; simpl in *.
  - lia.
  - inversion Hl as [|?? Ha]; subst. unfold is_u8 in Ha. rewrite u32_id; [lia|]. unfold is_u32. lia.
  - inversion Hl as [|?? Ha Hl']; subst. inversion Hl' as [|?? Hb' Hl'']; subst.
    pose proof (words_sum_bounds l Hl''). unfold is_u8 in *.
    rewrite (u32_id (s + (a + 256 * b))) by (unfold is_u32; lia). rewrite IH by (done || lia). lia.
Qed.

Lemma residue_range s : 0 <= s -> 0 <= residue s <= 65535.
Proof. intros Hs. unfold residue. destruct (Z.eqb_spec s 0); [lia|]. pose proof (Z.mod_pos_bound (s - 1) 65535 ltac:(lia)). lia. Qed.

Lemma residue_mod s : 0 <= s -> residue s mod 65535 = s mod 65535.
Proof.
  intros Hs. unfold residue. destruct (Z.eqb_spec s 0) as [->|]; [done|]. rewrite Zplus_mod_idemp_r. f_equal. lia.
Qed.

Lemma residue_small s : 0 <= s <= 65535 -> residue s = s.
Proof. intros Hs. unfold residue. destruct (Z.eqb_spec s 0); [lia|]. rewrite Z.mod_small; lia. Qed.

(** A sum and its representative are congruent, so that only zero has two of them. *)
Lemma residue_unique s s' : 0 < s -> 0 < s' -> s mod 65535 = s' mod 65535 -> residue s = residue s'.
Proof.
  intros Hs Hs' E. unfold residue. rewrite (proj2 (Z.eqb_neq s 0)), (proj2 (Z.eqb_neq s' 0)) by lia. f_equal.
  rewrite Zminus_mod, E, <- Zminus_mod. done.
Qed.

Lemma residue_multiple s : 0 < s -> s mod 65535 = 0 -> residue s = 65535.
Proof. intros Hs E. rewrite (residue_unique s 65535) by (done || lia). done. Qed.

Lemma fold_step s : 0 <= s < 4294967296 -> Z.land s 0xffff +u Z.shiftr s 16 = s mod 65536 + s / 65536.
Proof.
  intros Hs. change 0xffff with (Z.ones 16). rewrite Z.land_ones, Z.shiftr_div_pow2 by lia. change (2 ^ 16) with 65536.
  apply u32_id. unfold is_u32. pose proof (Z.mod_pos_bound s 65536 ltac:(lia)).
  assert (0 <= s / 65536 < 65536) by (split; [apply Z.div_pos; lia|apply Z.div_lt_upper_bound; lia]). lia.
Qed.

Lemma fold_step_residue s : 65536 <= s -> residue (s mod 65536 + s / 65536) = residue s.
Proof.
  intros Hs. assert (0 < s / 65536) by (apply Z.div_str_pos; lia). pose proof (Z.mod_pos_bound s 65536 ltac:(lia)).
  apply residue_unique; [lia|lia|]. rewrite (Z.div_mod s 65536) at 3 by lia.
  replace (65536 * (s / 65536) + s mod 65536) with (s mod 65536 + s / 65536 + (s / 65536) * 65535) by lia.
  by rewrite Z_mod_plus_full.
Qed.

Lemma fold16_small fuel s : 0 <= s < 65536 -> fold16 fuel s = Ok s.
Proof.
  intros Hs. unfold fold16. destruct fuel; rewrite Z.shiftr_div_pow2, Z.div_small by (change (2 ^ 16) with 65536; lia); done.
Qed.

Lemma fold16_step fuel s : 65536 <= s < 4294967296 -> fold16 (S fuel) s = fold16 fuel (s mod 65536 + s / 65536).
Proof.
  intros Hs. cbn [fold16]. rewrite fold_step by lia. unfold truthy. rewrite (proj2 (Z.eqb_neq _ _)); [done|].
  rewrite Z.shiftr_div_pow2 by lia. change (2 ^ 16) with 65536. assert (0 < s / 65536) by (apply Z.div_str_pos; lia). lia.
Qed.

(** The folding loop ends within three rounds and returns the representative. *)
Lemma fold16_spec s : 0 <= s < 4294967296 -> fold16 3 s = Ok (residue s).
Proof.
  intros Hs. destruct (Z.lt_ge_cases s 65536); [rewrite fold16_small, residue_small by lia; done|].
  rewrite fold16_step by lia. rewrite <- fold_step_residue by lia. set (s1 := s mod 65536 + s / 65536).
  assert (0 <= s1 <= 131070) as Hs1.
  { unfold s1. pose proof (Z.mod_pos_bound s 65536 ltac:(lia)).
    assert (0 <= s / 65536 < 65536) by (split; [apply Z.div_pos; lia|apply Z.div_lt_upper_bound; lia]). lia. }
  destruct (Z.lt_ge_cases s1 65536); [rewrite fold16_small, residue_small by lia; done|].
  rewrite fold16_step by lia. rewrite <- (fold_step_residue s1) by lia. set (s2 := s1 mod 65536 + s1 / 65536).
  assert (0 <= s2 < 65536) as Hs2 by (unfold s2; Z.div_mod_to_equations; lia).
  rewrite fold16_small, residue_small by lia. done.
Qed.

Lemma u16_lnot s : 0 <= s <= 65535 -> u16 (Z.lnot s) = 65535 - s.
Proof.
  intros Hs. unfold u16, Z.lnot. replace (Z.pred (- s)) with (65535 - s + (-1) * 65536) by lia.
  rewrite Z_mod_plus_full. apply Z.mod_small. lia.
Qed.

(** [checksum] is the complement of the ones-complement sum; the 32-bit sum cannot overflow on a packet. *)
Lemma checksum_spec l n : 0 <= n <= Z.of_nat (length l) -> n <= 130000 -> Forall is_u8 l ->
  checksum l n = Ok (65535 - residue (words_sum (take (Z.to_nat n) l))).
Proof.
  intros Hn Hb Hl. unfold checksum, getn. rewrite (proj2 (Z.leb_le 0 0)), (proj2 (Z.leb_le (0 + n) _)) by lia. cbn [andb]. run.
  unfold slice. rewrite drop_0. assert (Forall is_u8 (take (Z.to_nat n) l)) as Ht by by apply Forall_take.
  pose proof (words_sum_bounds _ Ht) as Hw. rewrite length_take in Hw.
  rewrite sum16_spec by (done || lia). rewrite fold16_spec by lia. run. f_equal. apply u16_lnot, residue_range. lia.
Qed.

(** ** A field that makes a packet sum up *)

Lemma words_sum_zero l : Forall (fun b => b = 0) l -> words_sum l = 0.
Proof.
  induction l as [|a|a b l IH] using words_ind; intros Hl; simpl; [done|by inversion Hl|].
  inversion Hl as [|?? -> Hl']; subst. inversion Hl'; subst. rewrite IH by done. done.
Qed.

(** Writing a word to an even place where there was zero adds it to the sum. *)
Lemma words_sum_patch l o c : Nat.Even o -> (o + 2 <= length l)%nat -> l !! o = Some 0 -> l !! S o = Some 0 -> is_u16 c ->
  words_sum (patch l (Z.of_nat o) (le16 c)) = words_sum l + c.
Proof.
  intros Ho Hl H0 H1 Hc. unfold patch. rewrite Nat2Z.id. change (length (le16 c)) with 2%nat.
  assert (l = take o l ++ [0; 0] ++ drop (o + 2) l) as E.
  { rewrite <- (take_drop o l) at 1. f_equal. rewrite (drop_S l 0 o), (drop_S l 0 (S o)) by done.
    replace (o + 2)%nat with (S (S o)) by lia. done. }
  assert (Nat.Even (length (take o l))) as He by (rewrite length_take; by rewrite Nat.min_l by lia).
  transitivity (words_sum (take o l ++ [0; 0] ++ drop (o + 2) l) + c); [|by rewrite <- E].
  rewrite !(words_sum_app (take o l)) by done. unfold le16. simpl. unfold is_u16 in Hc.
  rewrite (Z.mod_small (c / 256)) by (split; [apply Z.div_pos; lia|apply Z.div_lt_upper_bound; lia]).
  pose proof (Z.div_mod c 256 ltac:(lia)). lia.
Qed.

Lemma le16_bytes c : Forall is_u8 (le16 c).
Proof. repeat constructor; unfold is_u8; apply Z.mod_pos_bound; lia. Qed.

Lemma patch_bytes l o x : Forall is_u8 l -> Forall is_u8 x -> Forall is_u8 (patch l o x).
Proof. intros. unfold patch. apply Forall_app. split; [by apply Forall_take|]. apply Forall_app. split; [done|by apply Forall_drop]. Qed.

(** A packet with the complement of its sum in it is accepted by the receiver's check. *)
Lemma checksum_accepts l o n : Nat.Even o -> (o + 2 <= length l)%nat -> l !! o = Some 0 -> l !! S o = Some 0 -> Forall is_u8 l ->
  n = Z.of_nat (length l) -> n <= 130000 ->
  checksum (patch l (Z.of_nat o) (le16 (65535 - residue (words_sum l)))) n = Ok 0.
Proof.
  intros Ho Hl H0 H1 Hb -> Hn. pose proof (words_sum_bounds l Hb) as [Hw _]. pose proof (residue_range _ Hw) as Hr.
  set (c := 65535 - residue (words_sum l)). assert (is_u16 c) as Hc by (unfold c, is_u16; lia).
  assert (length (patch l (Z.of_nat o) (le16 c)) = length l) as Hlen by (apply length_patch; [lia|simpl; lia]).
  rewrite checksum_spec; [|rewrite Hlen; lia|done|by apply patch_bytes, le16_bytes].
  rewrite take_ge by (rewrite Hlen, Nat2Z.id; done). rewrite words_sum_patch by done. f_equal.
  rewrite residue_multiple; [done| |].
  - unfold c in *. destruct (decide (words_sum l = 0)) as [E|]; [|lia]. rewrite E. change (residue 0) with 0. lia.
  - unfold c. replace (words_sum l + (65535 - residue (words_sum l))) with (words_sum l - residue (words_sum l) + 1 * 65535) by lia.
    rewrite Z_mod_plus_full, Zminus_mod, residue_mod, Z.sub_diag by done. done.
Qed.

(** ** Writing and reading at the start of a buffer *)

Lemma patch_in_start pre rest o x : 0 <= o -> o + Z.of_nat (length x) <= Z.of_nat (length pre) ->
  patch_in (pre ++ rest) o x = Ok (patch pre o x ++ rest).
Proof.
  intros Ho Hx. unfold patch_in. rewrite (proj2 (Z.leb_le 0 o)), (proj2 (Z.leb_le _ _)) by (rewrite ?length_app; lia). simpl.
  unfold patch. rewrite take_app_le by lia. rewrite drop_app_le by lia. by rewrite <- !app_assoc.
Qed.

Lemma getn_start pre rest o n : 0 <= o -> 0 <= n -> o + n <= Z.of_nat (length pre) ->
  getn (pre ++ rest) o n = Ok (slice pre o n).
Proof.
  intros Ho Hn Hl. unfold getn. rewrite (proj2 (Z.leb_le 0 o)), (proj2 (Z.leb_le _ _)) by (rewrite ?length_app; lia). simpl.
  unfold slice. rewrite drop_app_le by lia. rewrite take_app_le; [done|]. rewrite length_drop. lia.
Qed.

Lemma land_disjoint a b n : 0 <= n -> 0 <= a < 2 ^ n -> Z.land a (b * 2 ^ n) = 0.
Proof.
  intros Hn Ha. apply Z.bits_inj'. intros i Hi. rewrite Z.land_spec, Z.bits_0. destruct (Z.lt_ge_cases i n).
  - rewrite Z.mul_pow2_bits_low by lia. apply andb_false_r.
  - rewrite <- (Z.mod_small a (2 ^ n)) by lia. rewrite Z.mod_pow2_bits_high by lia. done.
Qed.

Lemma lor_disjoint a b n : 0 <= n -> 0 <= a < 2 ^ n -> Z.lor a (b * 2 ^ n) = a + b * 2 ^ n.
Proof. intros Hn Ha. pose proof (land_disjoint a b n Hn Ha) as E. rewrite <- Z.lxor_lor, <- Z.add_nocarry_lxor by done. done. Qed.

(** The byte at bit [k], moved to bit [j]. *)
Lemma land_byte_up v k j : 0 <= k -> 0 <= j -> 0 <= v ->
  Z.land (Z.shiftl (Z.shiftr v k) j) (Z.shiftl 0xff j) = v / 2 ^ k mod 256 * 2 ^ j.
Proof.
  intros Hk Hj Hv. rewrite <- Z.shiftl_land. change 0xff with (Z.ones 8).
  by rewrite Z.land_ones, Z.shiftl_mul_pow2, Z.shiftr_div_pow2 by lia.
Qed.

Lemma div_byte v : 0 <= v < 65536 -> 0 <= v / 256 < 256.
Proof. intros. split; [apply Z.div_pos; lia|apply Z.div_lt_upper_bound; lia]. Qed.

Lemma switch16_eq v : is_u16 v -> switch16 v = v / 256 + v mod 256 * 256.
Proof.
  intros Hv. unfold switch16, is_u16 in *. pose proof (land_byte_up v 8 0 ltac:(lia) ltac:(lia) ltac:(lia)) as E1.
  pose proof (land_byte_up v 0 8 ltac:(lia) ltac:(lia) ltac:(lia)) as E2.
  change (Z.shiftl 255 0) with 255 in E1. change (Z.shiftl 255 8) with 65280 in E2.
  rewrite Z.shiftl_0_r, Z.mul_1_r in E1. rewrite Z.shiftr_0_r, Z.div_1_r in E2. rewrite E1, E2.
  change (2 ^ 8) with 256. rewrite Z.mod_small by by apply div_byte. apply (lor_disjoint _ _ 8); [lia|]. by apply div_byte.
Qed.

Definition be16 (v : Z) : list Z := [v / 256; v mod 256].

(** A switched word in memory is in network order. *)
Lemma le16_switch16 v : is_u16 v -> le16 (switch16 v) = be16 v.
Proof.
  intros Hv. rewrite switch16_eq by done. unfold le16, be16, is_u16 in *.
  pose proof (div_byte v Hv). pose proof (Z.mod_pos_bound v 256 ltac:(lia)). f_equal; [|f_equal]; Z.div_mod_to_equations; lia.
Qed.

(** ** More words in memory *)

Definition be32 (v : Z) : list Z := be16 (v / 65536) ++ be16 (v mod 65536).

Lemma switch32_eq v : is_u32 v ->
  switch32 v = v / 16777216 + (v / 65536 mod 256) * 256 + (v / 256 mod 256) * 65536 + (v mod 256) * 16777216.
Proof.
  intros Hv. unfold switch32, is_u32 in *.
  pose proof (land_byte_up v 24 0 ltac:(lia) ltac:(lia) ltac:(lia)) as E1. pose proof (land_byte_up v 8 16 ltac:(lia) ltac:(lia) ltac:(lia)) as E2.
  pose proof (land_byte_up v 16 8 ltac:(lia) ltac:(lia) ltac:(lia)) as E3. pose proof (land_byte_up v 0 24 ltac:(lia) ltac:(lia) ltac:(lia)) as E4.
  assert (Z.land (Z.shiftl v 8) 0xff0000 = Z.land (Z.shiftl (Z.shiftr v 8) 16) 0xff0000) as F2.
  { apply Z.bits_inj'. intros i Hi. rewrite !Z.land_spec, !Z.shiftl_spec by lia. destruct (Z.lt_ge_cases i 16).
    - change 0xff0000 with (0xff * 2 ^ 16). rewrite Z.mul_pow2_bits_low, !andb_false_r by lia. done.
    - rewrite Z.shiftr_spec by lia. do 2 f_equal. lia. }
  assert (Z.land (Z.shiftr v 8) 0xff00 = Z.land (Z.shiftl (Z.shiftr v 16) 8) 0xff00) as F3.
  { apply Z.bits_inj'. intros i Hi. rewrite !Z.land_spec, Z.shiftl_spec, Z.shiftr_spec by lia. destruct (Z.lt_ge_cases i 8).
    - change 0xff00 with (0xff * 2 ^ 8). rewrite Z.mul_pow2_bits_low, !andb_false_r by lia. done.
    - rewrite Z.shiftr_spec by lia. do 2 f_equal. lia. }
  rewrite F2, F3. change (Z.shiftl 255 0) with 255 in E1. change (Z.shiftl 255 16) with 0xff0000 in E2.
  change (Z.shiftl 255 8) with 0xff00 in E3. change (Z.shiftl 255 24) with 0xff000000 in E4. rewrite Z.shiftl_0_r in E1. rewrite Z.shiftr_0_r in E4. rewrite E1, E2, E3, E4.
  change (2 ^ 0) with 1.
  rewrite Z.div_1_r, Z.mul_1_r. change (2 ^ 24) with 16777216 at 1.
  assert (0 <= v / 16777216 < 256) as H3 by (split; [apply Z.div_pos; lia|apply Z.div_lt_upper_bound; lia]).
  rewrite (Z.mod_small (v / 16777216)) by done.
  pose proof (Z.mod_pos_bound v 256 ltac:(lia)). pose proof (Z.mod_pos_bound (v / 2 ^ 8) 256 ltac:(lia)). pose proof (Z.mod_pos_bound (v / 2 ^ 16) 256 ltac:(lia)).
  rewrite <- (Z.lor_assoc (v / 16777216)). rewrite (Z.lor_comm (v / 2 ^ 8 mod 256 * 2 ^ 16)).
  rewrite Z.lor_assoc. change (2 ^ 8) with 256 in *. change (2 ^ 16) with 65536 in *.
  rewrite (lor_disjoint _ (v / 65536 mod 256) 8 ltac:(lia) H3 : Z.lor _ (_ * 256) = _).
  rewrite (lor_disjoint _ (v / 256 mod 256) 16 ltac:(lia) : _ -> Z.lor _ (_ * 65536) = _) by lia.
  rewrite (lor_disjoint _ (v mod 256) 24) by lia. lia.
Qed.

(** The four bytes of a double word. *)
Lemma four_bytes v : is_u32 v -> exists a b c d, is_u8 a /\ is_u8 b /\ is_u8 c /\ is_u8 d /\
  v = a + 256 * b + 65536 * c + 16777216 * d /\ v / 16777216 = d /\ v / 65536 mod 256 = c /\ v / 256 mod 256 = b /\ v mod 256 = a.
Proof.
  intros Hv. exists (v mod 256), (v / 256 mod 256), (v / 65536 mod 256), (v / 16777216). unfold is_u8, is_u32 in *.
  assert (v / 65536 = v / 256 / 256) as E1 by by rewrite Z.div_div by lia.
  assert (v / 16777216 = v / 256 / 256 / 256) as E2 by by rewrite !Z.div_div by lia.
  rewrite E1, E2. pose proof (Z.div_mod v 256 ltac:(lia)). pose proof (Z.div_mod (v / 256) 256 ltac:(lia)).
  pose proof (Z.div_mod (v / 256 / 256) 256 ltac:(lia)). pose proof (Z.mod_pos_bound v 256 ltac:(lia)).
  pose proof (Z.mod_pos_bound (v / 256) 256 ltac:(lia)). pose proof (Z.mod_pos_bound (v / 256 / 256) 256 ltac:(lia)).
  repeat split; lia.
Qed.

Lemma switch32_bytes a b c d : is_u8 a -> is_u8 b -> is_u8 c -> is_u8 d ->
  switch32 (a + 256 * b + 65536 * c + 16777216 * d) = d + 256 * c + 65536 * b + 16777216 * a.
Proof.
  unfold is_u8. intros. rewrite switch32_eq by (unfold is_u32; lia).
  destruct (four_bytes (a + 256 * b + 65536 * c + 16777216 * d)) as (a' & b' & c' & d' & ? & ? & ? & ? & E & -> & -> & -> & ->);
    unfold is_u8, is_u32 in *; lia.
Qed.

Lemma be32_bytes a b c d : is_u8 a -> is_u8 b -> is_u8 c -> is_u8 d -> be32 (a + 256 * b + 65536 * c + 16777216 * d) = [d; c; b; a].
Proof.
  unfold is_u8. intros. set (v := a + 256 * b + 65536 * c + 16777216 * d). unfold be32, be16.
  assert (v / 65536 = c + 256 * d) as -> by (symmetry; apply (Z.div_unique_pos _ _ _ (a + 256 * b)); lia).
  assert (v mod 65536 = a + 256 * b) as -> by (symmetry; apply (Z.mod_unique_pos _ _ (c + 256 * d)); lia).
  assert (forall x y, 0 <= x < 256 -> (x + 256 * y) / 256 = y) as Hd by (intros x y ?; symmetry; apply (Z.div_unique_pos _ _ _ x); lia).
  assert (forall x y, 0 <= x < 256 -> (x + 256 * y) mod 256 = x) as Hm by (intros x y ?; symmetry; apply (Z.mod_unique_pos _ _ y); lia).
  by rewrite !Hd, !Hm by lia.
Qed.

Lemma le32_bytes a b c d : is_u8 a -> is_u8 b -> is_u8 c -> is_u8 d -> le32 (a + 256 * b + 65536 * c + 16777216 * d) = [a; b; c; d].
Proof.
  unfold is_u8. intros. set (v := a + 256 * b + 65536 * c + 16777216 * d). unfold le32, le16.
  assert (v / 65536 = c + 256 * d) as -> by (symmetry; apply (Z.div_unique_pos _ _ _ (a + 256 * b)); lia).
  assert (v / 256 = b + 256 * (c + 256 * d)) as -> by (symmetry; apply (Z.div_unique_pos _ _ _ a); lia).
  assert (v mod 256 = a) as -> by (symmetry; apply (Z.mod_unique_pos _ _ (b + 256 * c + 65536 * d)); lia).
  assert (forall x y, 0 <= x < 256 -> (x + 256 * y) / 256 = y) as Hd by (intros x y ?; symmetry; apply (Z.div_unique_pos _ _ _ x); lia).
  assert (forall x y, 0 <= x < 256 -> (x + 256 * y) mod 256 = x) as Hm by (intros x y ?; symmetry; apply (Z.mod_unique_pos _ _ y); lia).
  rewrite !Hd, !Hm, (Z.mod_small d) by lia. done.
Qed.

(** A switched double word in memory is in network order, and a reader that switches it has it back. *)
Lemma le32_switch32 v : is_u32 v -> le32 (switch32 v) = be32 v.
Proof.
  intros Hv. destruct (four_bytes v Hv) as (a & b & c & d & ? & ? & ? & ? & -> & _). rewrite switch32_bytes, be32_bytes by done.
  by apply le32_bytes.
Qed.

Lemma switch32_be32 v : is_u32 v -> switch32 (rd32 (be32 v) 0) = v.
Proof.
  intros Hv. destruct (four_bytes v Hv) as (a & b & c & d & ? & ? & ? & ? & -> & _). rewrite be32_bytes by done.
  change (rd32 [d; c; b; a] 0) with (d + 256 * c + 65536 * (b + 256 * a)).
  replace (d + 256 * c + 65536 * (b + 256 * a)) with (d + 256 * c + 65536 * b + 16777216 * a) by lia. by rewrite switch32_bytes by done.
Qed.

Lemma le16_small v : is_u16 v -> le16 v = [v mod 256; v / 256].
Proof. intros Hv. unfold le16. by rewrite (Z.mod_small (v / 256)) by by apply div_byte. Qed.

(** A list of given bytes. *)
Ltac u8s := unfold is_u8 in *; repeat (apply Forall_cons; split; [lia|]); apply Forall_nil; exact I.

Lemma be16_u8 v : is_u16 v -> Forall is_u8 (be16 v).
Proof. intros Hv. pose proof (div_byte v Hv). pose proof (Z.mod_pos_bound v 256 ltac:(lia)). unfold be16. u8s. Qed.

Lemma be32_u8 v : is_u32 v -> Forall is_u8 (be32 v).
Proof.
  intros Hv. destruct (four_bytes v Hv) as (a & b & c & d & ? & ? & ? & ? & -> & _). rewrite be32_bytes by done. u8s.
Qed.

Lemma switch16_switch16 v : is_u16 v -> switch16 (switch16 v) = v.
Proof.
  intros Hv. pose proof (div_byte v Hv). pose proof (Z.mod_pos_bound v 256 ltac:(lia)).
  rewrite (switch16_eq v) by done. rewrite switch16_eq by (unfold is_u16; lia). Z.div_mod_to_equations. lia.
Qed.

Lemma rd16_be16 v : is_u16 v -> rd16 (be16 v) 0 = switch16 v.
Proof. intros Hv. rewrite switch16_eq by done. change (rd16 (be16 v) 0) with (v / 256 + 256 * (v mod 256)). lia. Qed.

Lemma switch16_be16 v : is_u16 v -> switch16 (rd16 (be16 v) 0) = v.
Proof.
  intros Hv. change (rd16 (be16 v) 0) with (v / 256 + 256 * (v mod 256)).
  rewrite <- (switch16_switch16 v) at 3 by done. rewrite (switch16_eq v) by done. f_equal. lia.
Qed.

Lemma switch16_range v : is_u16 (switch16 v).
Proof.
  unfold switch16, is_u16. change 0xff with (Z.ones 8). change 0xff00 with (Z.shiftl (Z.ones 8) 8). rewrite Z.land_ones by lia.
  replace (Z.land (Z.shiftl v 8) (Z.shiftl (Z.ones 8) 8)) with (v mod 2 ^ 8 * 2 ^ 8).
  2:{ rewrite <- Z.shiftl_land, Z.land_ones, Z.shiftl_mul_pow2 by lia. done. }
  pose proof (Z.mod_pos_bound (v ≫ 8) (2 ^ 8) ltac:(lia)). pose proof (Z.mod_pos_bound v (2 ^ 8) ltac:(lia)).
  rewrite lor_disjoint by lia. lia.
Qed.

(** ** IPv4 packets *)

(** The header without and with its checksum. *)
Definition ip_header0 (src : list Z) (size proto : Z) (daddr : list Z) : list Z :=
  [69; 0; size / 256; size mod 256; 0; 0; 0; 0; 64; proto; 0; 0] ++ src ++ daddr.
Definition ip_header (src : list Z) (size proto : Z) (daddr : list Z) : list Z :=
  let h := ip_header0 src size proto daddr in patch h 10 (le16 (65535 - residue (words_sum h))).

Definition address (a : list Z) : Prop := length a = 4%nat /\ Forall is_u8 a.

Lemma patch_in_ok l o x : 0 <= o -> o + Z.of_nat (length x) <= Z.of_nat (length l) -> patch_in l o x = Ok (patch l o x).
Proof. intros. unfold patch_in. by rewrite (proj2 (Z.leb_le 0 o)), (proj2 (Z.leb_le _ _)) by done. Qed.

Lemma getn_ok l o n : 0 <= o -> o + n <= Z.of_nat (length l) -> getn l o n = Ok (slice l o n).
Proof. intros. unfold getn. by rewrite (proj2 (Z.leb_le 0 o)), (proj2 (Z.leb_le _ _)) by done. Qed.

(** Reads inside of the memory. *)
Lemma byte_u8 l o : Forall is_u8 l -> is_u8 (byte l o).
Proof. intros Hl. rewrite byte_lookup. destruct (l !! Z.to_nat o) eqn:E; [by eapply Forall_lookup|done]. Qed.

Lemma byte_slice l o n i : 0 <= o -> 0 <= i < n -> byte (slice l o n) i = byte l (o + i).
Proof.
  intros Ho Hi. rewrite !byte_lookup. unfold slice. rewrite lookup_take_lt, lookup_drop by lia. do 2 f_equal. lia.
Qed.

Lemma get8_ok l o : 0 <= o < Z.of_nat (length l) -> get8 l o = Ok (byte l o).
Proof. intros. unfold get8. rewrite getn_ok by lia. run. rewrite byte_slice by lia. do 2 f_equal. lia. Qed.

Lemma get32_ok l o : 0 <= o -> o + 4 <= Z.of_nat (length l) -> get32 l o = Ok (rd32 l o).
Proof. intros. unfold get32. rewrite getn_ok by lia. run. unfold rd32, rd16. rewrite !byte_slice by lia.
  by rewrite !Z.add_assoc, !Z.add_0_r. Qed.

Lemma get16_ok l o : 0 <= o -> o + 2 <= Z.of_nat (length l) -> get16 l o = Ok (rd16 l o).
Proof. intros. unfold get16. rewrite getn_ok by lia. run. unfold rd16. rewrite !byte_slice by lia. by rewrite Z.add_0_r. Qed.

(** Reads and writes behind a prefix. *)
Lemma getn_skip a b o n : 0 <= o -> getn (a ++ b) (Z.of_nat (length a) + o) n = getn b o n.
Proof.
  intros Ho. unfold getn, slice. rewrite length_app.
  assert ((0 <=? Z.of_nat (length a) + o) = true) as -> by (apply Z.leb_le; lia). assert ((0 <=? o) = true) as -> by (apply Z.leb_le; lia).
  assert ((Z.of_nat (length a) + o + n <=? Z.of_nat (length a + length b)) = (o + n <=? Z.of_nat (length b))) as ->.
  { destruct (Z.leb_spec (o + n) (Z.of_nat (length b))); [apply Z.leb_le|apply Z.leb_gt]; lia. }
  destruct (_ && _); [|done]. do 2 f_equal. rewrite drop_app_ge by lia. f_equal. lia.
Qed.

Lemma get8_skip a b o : 0 <= o -> get8 (a ++ b) (Z.of_nat (length a) + o) = get8 b o.
Proof. intros. unfold get8. by rewrite getn_skip. Qed.

Lemma get8_head x l : get8 (x :: l) 0 = Ok x.
Proof. unfold get8. rewrite getn_ok by (cbn [length]; lia). done. Qed.

Lemma get8_second x y l : get8 (x :: y :: l) 1 = Ok y.
Proof. unfold get8. rewrite getn_ok by (cbn [length]; lia). done. Qed.

Lemma patch_in_mid a x b y o : o = Z.of_nat (length a) -> length x = length y -> patch_in (a ++ x ++ b) o y = Ok (a ++ y ++ b).
Proof.
  intros -> Hl. rewrite patch_in_ok by (rewrite ?length_app; lia). unfold patch. rewrite Nat2Z.id, take_app_length, <- Hl.
  assert (drop (length a + length x) (a ++ x ++ b) = b) as ->; [|done]. rewrite app_assoc, <- length_app. apply drop_app_length.
Qed.

Lemma checksum_start pre rest n : 0 <= n <= Z.of_nat (length pre) -> checksum (pre ++ rest) n = checksum pre n.
Proof. intros. unfold checksum. by rewrite getn_start, getn_ok by lia. Qed.

(** Run the next write or read in a header whose bytes are known. *)
Ltac header_compute :=
  cbn [mbind res_bind]; unfold patch, slice, byte, rd16, be16, le16; change (0 + 1) with 1;
  cbv [firstn skipn app length nth Z.to_nat Pos.to_nat Pos.iter_op Init.Nat.add].
Ltac header_step :=
  first [rewrite getn_ok by (cbn [length]; lia) | rewrite patch_in_ok by (cbn [length le16 app]; lia)]; header_compute.

Lemma ipv4_write_spec s rest size proto daddr : address (ip s) -> address daddr -> is_u16 size -> is_u8 proto ->
  ipv4_write_packet s (replicate 20 0 ++ rest) 0 size 0 0 IPV4_DEFAULT_TTL proto daddr =
    Ok (ip_header (ip s) size proto daddr ++ rest, 20).
Proof.
  intros [Hi Hib] [Hd Hdb] Hs Hp. unfold ipv4_write_packet, get8, get16, set8, set16. rewrite !le16_switch16 by (done || unfold is_u16; lia).
  destruct (ip s) as [|i0 [|i1 [|i2 [|i3 [|]]]]]; try done. destruct daddr as [|d0 [|d1 [|d2 [|d3 [|]]]]]; try done.
  cbn [replicate].
  cbn [app].
  do 16 header_step. rewrite (Z.mod_small proto) by exact Hp.
  set (h := ip_header0 [i0; i1; i2; i3] size proto [d0; d1; d2; d3]).
  change (checksum _ _) with (checksum (h ++ rest) 20).
  assert (Forall is_u8 h) as Hh.
  { unfold h, ip_header0. repeat (apply Forall_app; split); [|done|done]. pose proof (div_byte size Hs).
    pose proof (Z.mod_pos_bound size 256 ltac:(lia)). repeat constructor; unfold is_u8 in *; lia. }
  rewrite checksum_start, (checksum_spec h 20) by (done || simpl; lia). cbn [mbind res_bind].
  change (patch_in _ 10 ?x) with (patch_in (h ++ rest) 10 x). rewrite patch_in_start by (simpl; lia). done.
Qed.

Definition mac_address (a : list Z) : Prop := length a = 6%nat /\ Forall is_u8 a.

Definition ethernet_header (s : net) (dest : list Z) (type : Z) : list Z := dest ++ mac s ++ be16 type.

Lemma ethernet_create_spec s dest type n : mac_address (mac s) -> mac_address dest -> is_u16 type -> 0 <= n ->
  ethernet_create_packet s dest type n = Ok (ethernet_header s dest type, replicate (Z.to_nat n) 0).
Proof.
  intros [Hm _] [Hd _] Ht Hn. unfold ethernet_create_packet, ethernet_header_size.
  replace (Z.to_nat (14 + n)) with (14 + Z.to_nat n)%nat by lia. rewrite replicate_add.
  unfold ethernet_write_header, set16. rewrite le16_switch16 by done.
  destruct (mac s) as [|m0 [|m1 [|m2 [|m3 [|m4 [|m5 [|]]]]]]] eqn:E; try done.
  destruct dest as [|d0 [|d1 [|d2 [|d3 [|d4 [|d5 [|]]]]]]]; try done.
  cbn [replicate app]. do 3 header_step. unfold ethernet_header. by rewrite E.
Qed.

Lemma ip_header_length src size proto daddr : address src -> address daddr -> length (ip_header src size proto daddr) = 20%nat.
Proof.
  intros [Hs _] [Hd _]. unfold ip_header. rewrite length_patch; unfold ip_header0; rewrite ?length_app; simpl; lia.
Qed.

Lemma ethernet_header_length n m t : mac_address (mac n) -> mac_address m -> length (ethernet_header n m t) = 14%nat.
Proof. intros [? _] [? _]. unfold ethernet_header. rewrite !length_app. simpl. lia. Qed.

Lemma ipv4_create_spec s n proto daddr dst : address (ip s) -> mac_address (mac s) -> address daddr -> mac_address dst ->
  is_u8 proto -> 0 <= n <= 65515 ->
  ipv4_create_packet s n proto daddr dst =
    Ok (ethernet_header s dst ETHERTYPE_IPV4 ++ ip_header (ip s) (20 + n) proto daddr, replicate (Z.to_nat n) 0).
Proof.
  intros Hi Hm Hd Hdst Hp Hn. unfold ipv4_create_packet. change ipv4_header_size with 20.
  rewrite (u16_id (20 + n)) by (unfold is_u16; lia).
  rewrite ethernet_create_spec by (done || unfold is_u16, ETHERTYPE_IPV4; lia). cbn [mbind res_bind].
  replace (Z.to_nat (20 + n)) with (20 + Z.to_nat n)%nat by lia. rewrite replicate_add.
  rewrite ipv4_write_spec by (done || unfold is_u16; lia). cbn [mbind res_bind]. change (Z.to_nat 20) with 20%nat.
  assert (length (ip_header (ip s) (20 + n) proto daddr) = 20%nat) as Hl.
  { destruct Hi as [Hi _], Hd as [Hd _]. unfold ip_header. rewrite length_patch; unfold ip_header0; rewrite ?length_app; simpl; lia. }
  by rewrite take_app_length', drop_app_length' by done.
Qed.

Definition udp_header (src dst n : Z) : list Z := be16 src ++ be16 dst ++ be16 (8 + n) ++ [0; 0].

Lemma udp_write_spec rest src dst n : is_u16 src -> is_u16 dst -> 0 <= n <= 65507 ->
  udp_write_header (replicate 8 0 ++ rest) src dst n = Ok (udp_header src dst n ++ rest).
Proof.
  intros Hs Ht Hn. unfold udp_write_header, set16. change udp_header_size with 8.
  rewrite (u16_id (8 + n)), !le16_switch16 by (done || unfold is_u16; lia).
  unfold be16. cbn [replicate app]. do 4 header_step. done.
Qed.

Lemma udp_create_spec s src dst n daddr m : address (ip s) -> mac_address (mac s) -> address daddr -> mac_address m ->
  is_u16 src -> is_u16 dst -> 0 <= n <= 65507 ->
  udp_create_packet s src dst n daddr m =
    Ok (ethernet_header s m ETHERTYPE_IPV4 ++ ip_header (ip s) (28 + n) IPV4_PROTOCOL_UDP daddr ++ udp_header src dst n, replicate (Z.to_nat n) 0).
Proof.
  intros Hi Hmac Hd Hm Hs Ht Hn. unfold udp_create_packet. change udp_header_size with 8. rewrite (u16_id (8 + n)) by (unfold is_u16; lia).
  rewrite ipv4_create_spec by (done || lia). run. replace (20 + (8 + n)) with (28 + n) by lia.
  replace (Z.to_nat (8 + n)) with (8 + Z.to_nat n)%nat by lia. rewrite replicate_add.
  rewrite udp_write_spec by done. run. cbn [app udp_header be16]. change (take 8 (?a :: ?b :: ?c :: ?d :: ?e :: ?f :: ?g :: ?h :: ?r)) with [a; b; c; d; e; f; g; h].
  by rewrite <- app_assoc.
Qed.

(** The request for a hardware address, as it is on the wire. *)
Definition arp_request (s : net) (addr : list Z) : list Z :=
  ethernet_header s broadcast_mac ETHERTYPE_ARP ++ [0; 1; 8; 0; 6; 4; 0; 1] ++ mac s ++ ip s ++ broadcast_mac ++ addr.

Lemma broadcast_mac_ok : mac_address broadcast_mac.
Proof. split; [done|]. unfold broadcast_mac. u8s. Qed.

Lemma resolve_mac_spec s addr : address (ip s) -> mac_address (mac s) -> address addr -> resolve_mac s addr = Ok (nic_send s (arp_request s addr)).
Proof.
  intros [Hi _] Hm [Ha _]. unfold resolve_mac, arp_request.
  rewrite ethernet_create_spec by (done || (unfold is_u16, ETHERTYPE_ARP, arp_packet_size; lia) || apply broadcast_mac_ok). run.
  unfold arp_write_packet, set8, set16. rewrite !le16_switch16 by (unfold is_u16, ARP_ETHERNET, ARP_IPV4, ARP_REQUEST; lia).
  destruct Hm as [Hm _]. destruct (ip s) as [|i0 [|i1 [|i2 [|i3 [|]]]]]; try done. destruct addr as [|a0 [|a1 [|a2 [|a3 [|]]]]]; try done.
  destruct (mac s) as [|m0 [|m1 [|m2 [|m3 [|m4 [|m5 [|]]]]]]] eqn:Em; done.
Qed.

(** What a header looks like, for a reader. *)
Lemma ip_header_bytes src size proto daddr : address src -> address daddr -> is_u16 size -> is_u8 proto ->
  exists c0 c1, ip_header src size proto daddr = [69; 0; size / 256; size mod 256; 0; 0; 0; 0; 64; proto; c0; c1] ++ src ++ daddr /\
    checksum (ip_header src size proto daddr) 20 = Ok 0.
Proof.
  intros [Hs Hsb] [Hd Hdb] Hz Hp. unfold ip_header. set (h := ip_header0 src size proto daddr).
  assert (Forall is_u8 h) as Hh.
  { unfold h, ip_header0. repeat (apply Forall_app; split); [|done|done]. pose proof (div_byte size Hz).
    pose proof (Z.mod_pos_bound size 256 ltac:(lia)). repeat constructor; unfold is_u8 in *; lia. }
  assert (length h = 20%nat) as Hl by (unfold h, ip_header0; rewrite !length_app; simpl; lia).
  eexists _, _. split.
  - unfold h, ip_header0. by cbv [patch le16 firstn skipn app length Z.to_nat Pos.to_nat Pos.iter_op Init.Nat.add].
  - apply (checksum_accepts h 10); [by exists 5%nat|lia|done|done|done|lia|lia].
Qed.

Definition known_proto (p : Z) : Prop := p = IPV4_PROTOCOL_ICMP \/ p = IPV4_PROTOCOL_UDP \/ p = IPV4_PROTOCOL_TCP.

Lemma header_accepted r src size proto daddr payload : address src -> address daddr -> is_u16 size -> known_proto proto ->
  daddr = ip r \/ daddr = broadcast_ip -> ipv4_packet_valid r (ip_header src size proto daddr ++ payload) = Ok true.
Proof.
  intros Hs Hd Hz Hp Hr. assert (is_u8 proto) as Hp8 by (unfold is_u8; destruct Hp as [->|[->| ->]]; done).
  destruct (ip_header_bytes src size proto daddr Hs Hd Hz Hp8) as (c0 & c1 & E & Hc).
  unfold ipv4_packet_valid. change ipv4_header_size with 20. rewrite checksum_start, Hc by (rewrite E, !length_app; destruct Hs, Hd; simpl; lia).
  rewrite E. destruct Hs as [Hs _], Hd as [Hd _]. destruct src as [|s0 [|s1 [|s2 [|s3 [|]]]]]; try done.
  destruct daddr as [|d0 [|d1 [|d2 [|d3 [|]]]]]; try done. unfold get8, get16. cbn [app]. do 4 header_step.
  assert (bool_decide ([d0; d1; d2; d3] = ip r) || bool_decide ([d0; d1; d2; d3] = broadcast_ip) = true) as ->.
  { apply orb_true_iff. rewrite !bool_decide_eq_true. done. }
  cbn. f_equal. destruct Hp as [->|[->| ->]]; done.
Qed.

(** A packet that [create_packet] starts is accepted by the host it is addressed to, whatever payload is put behind
    it; the receiver reads the sender's address and the length from it, and finds the payload behind the header. *)
Theorem ipv4_round_trip s r n proto daddr dst : address (ip s) -> mac_address (mac s) -> address daddr -> mac_address dst ->
  known_proto proto -> 0 <= n <= 65515 -> daddr = ip r \/ daddr = broadcast_ip ->
  exists pre, ipv4_create_packet s n proto daddr dst = Ok (pre, replicate (Z.to_nat n) 0) /\
    forall payload, let p := drop 14 (pre ++ payload) in
      ipv4_packet_valid r p = Ok true /\ getn p 12 4 = Ok (ip s) /\ get8 p 9 = Ok proto /\
      (w ← get16 p 2; Ok (switch16 w)) = Ok (20 + n) /\ drop 20 p = payload.
Proof.
  intros Hi Hm Hd Hdst Hp Hn Hr. assert (is_u8 proto) as Hp8 by (unfold is_u8; destruct Hp as [->|[->| ->]]; done).
  eexists. split; [by apply ipv4_create_spec|]. intros payload p. assert (is_u16 (20 + n)) as Hz by (unfold is_u16; lia).
  assert (p = ip_header (ip s) (20 + n) proto daddr ++ payload) as Ep.
  { unfold p. rewrite <- app_assoc. apply drop_app_length'. unfold ethernet_header. rewrite !length_app. destruct Hdst, Hm. simpl. lia. }
  split; [rewrite Ep; by apply header_accepted|].
  destruct (ip_header_bytes (ip s) (20 + n) proto daddr Hi Hd Hz Hp8) as (c0 & c1 & E & _). rewrite E in Ep. clear E. rewrite Ep.
  destruct Hi as [Hi _], Hd as [Hd _]. destruct (ip s) as [|s0 [|s1 [|s2 [|s3 [|]]]]]; try done.
  destruct daddr as [|d0 [|d1 [|d2 [|d3 [|]]]]]; try done. unfold get8, get16. cbn [app].
  split; [by header_step|]. split; [by header_step|]. split; [|done]. header_step. f_equal.
  pose proof (div_byte (20 + n) Hz). pose proof (Z.mod_pos_bound (20 + n) 256 ltac:(lia)).
  change (byte [?a; ?b] 0) with a. change (byte [?a; ?b] 1) with b.
  rewrite switch16_eq by (unfold is_u16; lia). Z.div_mod_to_equations. lia.
Qed.

(** ** Sending *)

Lemma send_known s dest rest : length dest = 6%nat -> dest <> null_mac -> send_packet s (dest ++ rest) = Ok (nic_send s (dest ++ rest)).
Proof.
  intros Hl Hne. unfold send_packet. rewrite getn_start by lia. cbn [mbind res_bind]. unfold slice. rewrite drop_0.
  change (Z.to_nat 6) with 6%nat. rewrite take_ge by lia. by rewrite bool_decide_eq_false_2.
Qed.

(** The reply to an echo request: the payload behind a header with the checksum of the whole. *)
Definition ping_reply (payload : list Z) : list Z :=
  let p := [0; 0; 0; 0] ++ payload in patch p 2 (le16 (65535 - residue (words_sum p))).

Lemma write_ping_reply_spec p size : 4 <= size <= 65515 -> size <= Z.of_nat (length p) -> Forall is_u8 p ->
  write_ping_reply (replicate (Z.to_nat size) 0) p size = Ok (ping_reply (slice p 4 (size - 4))) /\
  checksum (ping_reply (slice p 4 (size - 4))) size = Ok 0.
Proof.
  intros Hs Hl Hp. set (payload := slice p 4 (size - 4)).
  assert (length payload = Z.to_nat (size - 4)) as Hpl by (unfold payload, slice; rewrite length_take, length_drop; lia).
  assert (Forall is_u8 payload) as Hpb by (unfold payload, slice; by apply Forall_take, Forall_drop).
  set (q := [0; 0; 0; 0] ++ payload). assert (Forall is_u8 q) as Hq.
  { apply Forall_app. split; [|done]. repeat constructor; unfold is_u8; lia. }
  assert (Z.of_nat (length q) = size) as Hql by (unfold q; rewrite length_app, Hpl; simpl; lia).
  split; [|by apply (checksum_accepts q 2); [exists 1%nat|lia|..|lia]].
  replace (Z.to_nat size) with (4 + Z.to_nat (size - 4))%nat by lia. rewrite replicate_add.
  unfold write_ping_reply, set8, set16. change (ICMP_ECHO_REPLY mod 256) with 0. change (0 mod 256) with 0.
  rewrite patch_in_start by (simpl; lia). cbn [mbind res_bind]. change (patch (replicate 4 0) 0 [0]) with [0; 0; 0; 0].
  rewrite patch_in_start by (simpl; lia). cbn [mbind res_bind]. change (patch [0; 0; 0; 0] 1 [0]) with [0; 0; 0; 0].
  rewrite getn_ok by lia. cbn [mbind res_bind]. fold payload.
  rewrite patch_in_ok by (rewrite ?length_app, ?length_replicate; simpl; lia). cbn [mbind res_bind].
  assert (patch ([0; 0; 0; 0] ++ replicate (Z.to_nat (size - 4)) 0) 4 payload = q) as ->.
  { unfold patch. change (Z.to_nat 4) with 4%nat. rewrite drop_ge by (rewrite length_app, length_replicate; simpl; lia).
    rewrite app_nil_r. done. }
  rewrite checksum_spec by (done || lia). cbn [mbind res_bind]. rewrite take_ge by lia.
  by rewrite patch_in_ok by (simpl; lia).
Qed.

(** A valid echo request gets one reply: to the sender's addresses, with the payload of the request, and with
    checksums that its receiver accepts. *)
Theorem ping_is_answered s p size saddr eth_src : address (ip s) -> mac_address (mac s) -> address saddr -> mac_address eth_src ->
  eth_src <> null_mac -> size <= 65515 -> size <= Z.of_nat (length p) -> Forall is_u8 p -> icmp_packet_valid p size = Ok true ->
  exists reply, length reply = Z.to_nat size /\ take 2 reply = [ICMP_ECHO_REPLY; 0] /\ drop 4 reply = slice p 4 (size - 4) /\
    checksum reply size = Ok 0 /\
    icmp_handle_packet s p size saddr eth_src =
      Ok (nic_send s (ethernet_header s eth_src ETHERTYPE_IPV4 ++ ip_header (ip s) (20 + size) IPV4_PROTOCOL_ICMP saddr ++ reply)) /\
    forall r, ip r = saddr -> ipv4_packet_valid r (ip_header (ip s) (20 + size) IPV4_PROTOCOL_ICMP saddr ++ reply) = Ok true.
Proof.
  intros Hi Hm Ha He Hne Hs Hl Hp Hv. assert (4 <= size) as H4.
  { unfold icmp_packet_valid, icmp_packet_size in Hv. destruct (Z.ltb_spec size 4); [done|lia]. }
  destruct (write_ping_reply_spec p size ltac:(lia) Hl Hp) as [Hw Hc].
  assert (length (slice p 4 (size - 4)) = Z.to_nat (size - 4)) as Hpl by (unfold slice; rewrite length_take, length_drop; lia).
  exists (ping_reply (slice p 4 (size - 4))). split; [|split; [done|split; [done|split; [done|split]]]].
  - unfold ping_reply. rewrite length_patch; rewrite ?length_app; simpl; lia.
  - unfold icmp_handle_packet. rewrite Hv. cbn [mbind res_bind negb].
    rewrite ipv4_create_spec by (done || unfold is_u8, IPV4_PROTOCOL_ICMP; lia). cbn [mbind res_bind]. rewrite Hw. cbn [mbind res_bind].
    unfold ethernet_header. rewrite <- !app_assoc. apply send_known; [apply He|done].
  - intros r <-. apply header_accepted; [done|done|unfold is_u16; lia|by left|by left].
Qed.

(** ** The ARP cache is the queue of the last ten replies *)

(** The entries, the oldest first. *)
Definition ring (s : net) : list (list Z * list Z) := drop (cache_head s) (cache s) ++ take (cache_head s) (cache s).

Definition cache_ok (s : net) : Prop := length (cache s) = ARP_CACHE_SIZE /\ (cache_head s < ARP_CACHE_SIZE)%nat.

Lemma ring_lookup s i : cache_ok s -> (i < ARP_CACHE_SIZE)%nat ->
  cache s !! Nat.modulo (cache_head s + i) ARP_CACHE_SIZE = ring s !! i.
Proof.
  unfold cache_ok, ARP_CACHE_SIZE. intros [Hl Hh] Hi. unfold ring. destruct (decide (cache_head s + i < 10)%nat).
  - rewrite Nat.mod_small by lia. rewrite lookup_app_l by (rewrite length_drop; lia). by rewrite lookup_drop.
  - rewrite lookup_app_r by (rewrite length_drop; lia). rewrite length_drop, Hl.
    replace ((cache_head s + i) mod 10)%nat with (i - (10 - cache_head s))%nat.
    + rewrite lookup_take_lt by lia. done.
    + apply Nat.mod_unique with 1%nat; lia.
Qed.

Fixpoint first_mac (addr : list Z) (l : list (list Z * list Z)) : list Z :=
  match l with [] => null_mac | e :: l => if bool_decide (e.1 = addr) then e.2 else first_mac addr l end.

Lemma find_mac_spec s addr : cache_ok s -> forall k i, (i + k = ARP_CACHE_SIZE)%nat ->
  find_mac s addr k i = Ok (first_mac addr (drop i (ring s))).
Proof.
  intros Hc. assert (length (ring s) = ARP_CACHE_SIZE) as Hr.
  { destruct Hc as [Hl Hh]. unfold ring. rewrite length_app, length_drop, length_take. lia. }
  induction k as [|k IH]; intros i Hi; cbn [find_mac].
  - by rewrite drop_ge by lia.
  - destruct (lookup_lt_is_Some_2 (ring s) i ltac:(lia)) as [e He].
    rewrite ring_lookup, He by (done || lia). cbn [mbind res_bind deref]. rewrite (drop_S _ _ _ He). simpl.
    case_bool_decide; [done|]. apply IH. lia.
Qed.

Lemma ring_insert s e : cache_ok s ->
  let s' := set_cache s (<[cache_head s := e]> (cache s)) (Nat.modulo (cache_head s + 1) ARP_CACHE_SIZE) in
  cache_ok s' /\ ring s' = tail (ring s) ++ [e].
Proof.
  unfold cache_ok, ARP_CACHE_SIZE. intros [Hl Hh]. split.
  { cbn [set_cache cache cache_head]. rewrite length_insert. split; [done|]. apply Nat.mod_upper_bound. lia. }
  unfold ring. cbn [set_cache cache cache_head]. destruct (lookup_lt_is_Some_2 (cache s) (cache_head s) ltac:(lia)) as [x Hx].
  rewrite (drop_S _ _ _ Hx). cbn [tail app]. destruct (decide (cache_head s = 9)%nat) as [E|].
  - rewrite E in *. change ((9 + 1) mod 10)%nat with 0%nat. rewrite drop_0, take_0, app_nil_r, (drop_ge _ 10) by lia. simpl.
    rewrite insert_take_drop by lia. rewrite (drop_ge _ 10) by lia. done.
  - rewrite Nat.mod_small by lia. rewrite drop_insert_lt by lia. replace (cache_head s + 1)%nat with (S (cache_head s)) by lia.
    rewrite <- app_assoc. f_equal. rewrite (take_S_r _ _ e) by (apply list_lookup_insert_eq; lia). f_equal.
    by rewrite take_insert_ge by lia.
Qed.

(** ** The packets that wait for an address *)

Definition frames_ok (q : list (option (list Z))) : Prop :=
  length q = ARP_PENDING_QUEUE_SIZE /\ forall i frame, q !! i = Some (Some frame) -> (34 <= length frame)%nat.

Definition daddr_of (frame : list Z) : list Z := slice frame 30 4.

(** The first of the waiting frames for an address. *)
Fixpoint first_waiting (addr : list Z) (q : list (option (list Z))) : option (list Z) :=
  match q with
  | [] => None
  | Some frame :: q => if bool_decide (daddr_of frame = addr) then Some frame else first_waiting addr q
  | None :: q => first_waiting addr q
  end.

Definition no_frames : list (option (list Z)) := replicate ARP_PENDING_QUEUE_SIZE None.

Lemma send_pending_none s srcpr srchw idx : pending_queue s = no_frames -> Forall (fun i => i < ARP_PENDING_QUEUE_SIZE)%nat idx ->
  send_pending s srcpr srchw idx = Ok s.
Proof.
  intros E. induction 1 as [|i idx Hi _ IH]; [done|]. cbn [send_pending]. rewrite E. unfold no_frames.
  rewrite lookup_replicate_2 by done. run. done.
Qed.

Lemma set_pending_id s : set_pending s (pending_queue s) (pending_queue_head s) = s.
Proof. by destruct s. Qed.

Lemma send_pending_spec s srcpr srchw : mac_address srchw -> srchw <> null_mac -> frames_ok (pending_queue s) ->
  forall k i, (i + k = ARP_PENDING_QUEUE_SIZE)%nat ->
  send_pending s srcpr srchw (seq i k) =
    Ok (match first_waiting srcpr (drop i (pending_queue s)) with
        | Some frame => set_pending (nic_send s (patch frame 0 srchw)) no_frames (pending_queue_head s)
        | None => s
        end).
Proof.
  intros [Hm _] Hne [Hl Hq]. induction k as [|k IH]; intros i Hi; cbn [seq send_pending].
  { by rewrite drop_ge by lia. }
  destruct (lookup_lt_is_Some_2 (pending_queue s) i ltac:(lia)) as [o Ho]. rewrite Ho, (drop_S _ _ _ Ho). run.
  destruct o as [frame|]; cbn [first_waiting]; [|apply IH; lia].
  specialize (Hq _ _ Ho). unfold frame_daddr, ethernet_header_size. rewrite getn_ok by lia. run.
  change (slice frame (14 + 16) 4) with (daddr_of frame). case_bool_decide; [|apply IH; lia].
  rewrite patch_in_ok by lia. run. change (patch frame 0 srchw) with (srchw ++ drop (0 + length srchw) frame).
  rewrite send_known by done. run. apply send_pending_none; [done|]. apply Forall_seq. lia.
Qed.

(** An ARP packet for us. *)
Definition arp_for (s : net) (p : list Z) (opcode : Z) (srcpr srchw : list Z) : Prop :=
  getn p 24 4 = Ok (ip s) /\ (w ← get16 p 6; Ok (switch16 w)) = Ok opcode /\ getn p 8 6 = Ok srchw /\ getn p 14 4 = Ok srcpr.

(** What handling a reply of a host that is not the gateway does. *)
Definition arp_learnt (s : net) (srcpr srchw : list Z) : net :=
  let s1 := set_cache s (<[cache_head s := (srcpr, srchw)]> (cache s)) (Nat.modulo (cache_head s + 1) ARP_CACHE_SIZE) in
  match first_waiting srcpr (pending_queue s) with
  | Some frame => set_pending (nic_send s1 (patch frame 0 srchw)) no_frames (pending_queue_head s1)
  | None => s1
  end.

Lemma arp_reply_spec s p eth_src srcpr srchw : arp_for s p ARP_REPLY srcpr srchw -> mac_address srchw -> srchw <> null_mac ->
  srcpr <> gateway_ip s -> frames_ok (pending_queue s) -> arp_handle_packet s p eth_src = Ok (arp_learnt s srcpr srchw).
Proof.
  intros (Hd & Hop & Hhw & Hpr) Hm Hne Hg Hq. unfold arp_handle_packet, arp_is_valid. rewrite Hd. run.
  rewrite bool_decide_eq_true_2 by done. cbn [negb]. destruct (get16 p 6) as [w| | |]; try done. run_in Hop. run. injection Hop as Hop.
  rewrite Hhw. run. rewrite Hpr. run. rewrite Hop. change (ARP_REPLY =? ARP_REQUEST) with false. cbv iota zeta.
  cbn [gateway_ip set_cache]. rewrite bool_decide_eq_false_2 by done. run.
  rewrite send_pending_spec by done. rewrite drop_0. unfold arp_learnt. cbn [pending_queue set_cache].
  by destruct (first_waiting srcpr (pending_queue s)).
Qed.

(** A reply enters the cache as the newest of ten, and the lookup of an address returns the oldest entry for it: an
    address that is new to the cache is found with what the reply says. *)
Theorem arp_cache_fifo s p eth_src srcpr srchw : cache_ok s -> arp_for s p ARP_REPLY srcpr srchw -> mac_address srchw ->
  srchw <> null_mac -> srcpr <> gateway_ip s -> frames_ok (pending_queue s) ->
  exists s', arp_handle_packet s p eth_src = Ok s' /\ cache_ok s' /\ ring s' = tail (ring s) ++ [(srcpr, srchw)] /\
    (forall a, get_mac s' a = Ok (first_mac a (ring s'))) /\
    (Forall (fun e => e.1 <> srcpr) (ring s) -> get_mac s' srcpr = Ok srchw).
Proof.
  intros Hc Hp Hm Hne Hg Hq. exists (arp_learnt s srcpr srchw). split; [by apply arp_reply_spec|].
  destruct (ring_insert s (srcpr, srchw) Hc) as [Hc' Hr'].
  assert (cache_ok (arp_learnt s srcpr srchw) /\ ring (arp_learnt s srcpr srchw) = tail (ring s) ++ [(srcpr, srchw)]) as [Hc1 Hr1].
  { unfold arp_learnt. by destruct (first_waiting srcpr (pending_queue s)). }
  assert (forall a, get_mac (arp_learnt s srcpr srchw) a = Ok (first_mac a (ring (arp_learnt s srcpr srchw)))) as Hget.
  { intros a. unfold get_mac. rewrite find_mac_spec by done. by rewrite drop_0. }
  do 3 (split; [done|]). intros Hnew. rewrite Hget, Hr1. f_equal.
  assert (Forall (fun e => e.1 <> srcpr) (tail (ring s))) as Ht by (destruct (ring s); [done|by inversion Hnew]).
  clear -Ht. induction Ht as [|e l He _ IH]; simpl; [by rewrite bool_decide_eq_true_2|]. by rewrite bool_decide_eq_false_2.
Qed.

(** When the address of a waiting packet arrives, that packet is sent and all the others are thrown away. *)
Theorem arp_drops_waiting s p eth_src srcpr srchw frame other i : arp_for s p ARP_REPLY srcpr srchw -> mac_address srchw ->
  srchw <> null_mac -> srcpr <> gateway_ip s -> frames_ok (pending_queue s) ->
  first_waiting srcpr (pending_queue s) = Some frame -> pending_queue s !! i = Some (Some other) -> daddr_of other <> srcpr ->
  exists s', arp_handle_packet s p eth_src = Ok s' /\ sent s' = sent s ++ [patch frame 0 srchw] /\ pending_queue s' = no_frames.
Proof.
  intros Hp Hm Hne Hg Hq Hf _ _. exists (arp_learnt s srcpr srchw). split; [by apply arp_reply_spec|].
  unfold arp_learnt. by rewrite Hf.
Qed.

(** ** Dates *)

(** The days before the [k]-th year after 1970, and before a month (from zero) of a year. *)
Fixpoint days_before_year (k : nat) : Z :=
  match k with O => 0 | S k => days_before_year k + year_length (1970 + Z.of_nat k) end.

Definition month_days (month year : Z) : Z :=
  nth (Z.to_nat month) days_in_month 0 + (if (month =? 1) && is_leap_year year then 1 else 0).

Fixpoint days_before_month (k : nat) (year : Z) : Z :=
  match k with O => 0 | S k => days_before_month k year + month_days (Z.of_nat k) year end.

Lemma year_length_range y : 365 <= year_length y <= 366.
Proof. unfold year_length. destruct (is_leap_year y); lia. Qed.

Lemma year_loop_spec fuel : forall k days, 0 <= days < 365 * (Z.of_nat fuel + 1) -> is_u32 days ->
  exists d k', year_loop fuel days (1970 + Z.of_nat k) = Ok (d, 1970 + Z.of_nat k') /\
    0 <= d < year_length (1970 + Z.of_nat k') /\ days_before_year k' + d = days_before_year k + days.
Proof.
  induction fuel as [|fuel IH]; intros k days Hd Hu; pose proof (year_length_range (1970 + Z.of_nat k)) as Hy; cbn [year_loop].
  - destruct (Z.leb_spec (year_length (1970 + Z.of_nat k)) days); [lia|]. exists days, k. split; [done|]. lia.
  - destruct (Z.leb_spec (year_length (1970 + Z.of_nat k)) days) as [Hle|]; [|by exists days, k; split; [done|lia]].
    rewrite u32_id by (unfold is_u32 in *; lia). replace (1970 + Z.of_nat k + 1) with (1970 + Z.of_nat (S k)) by lia.
    destruct (IH (S k) (days - year_length (1970 + Z.of_nat k))) as (d & k' & E & Hr & Hs); [lia|unfold is_u32 in *; lia|].
    exists d, k'. split; [done|]. split; [done|]. rewrite Hs. simpl. lia.
Qed.

Lemma month_length_eq m y : 0 <= m < 12 -> month_length m y = Ok (month_days m y) /\ 28 <= month_days m y <= 31.
Proof.
  intros Hm. assert (m = 0 \/ m = 1 \/ m = 2 \/ m = 3 \/ m = 4 \/ m = 5 \/ m = 6 \/ m = 7 \/ m = 8 \/ m = 9 \/ m = 10 \/ m = 11) as Hc by lia.
  unfold month_length, month_days.
  destruct Hc as [->|[->|[->|[->|[->|[->|[->|[->|[->|[->|[->| ->]]]]]]]]]]]; (split; [done|]); simpl; destruct (is_leap_year y); lia.
Qed.

Lemma year_months y : days_before_month 12 y = year_length y.
Proof. unfold year_length. cbn [days_before_month]. unfold month_days. simpl. destruct (is_leap_year y); lia. Qed.

Lemma days_before_month_mono y k k' : (k <= k' <= 12)%nat -> days_before_month k y <= days_before_month k' y.
Proof.
  intros [Hk Hk']. induction Hk as [|k' Hk IH]; [lia|]. simpl.
  destruct (month_length_eq (Z.of_nat k') y) as [_ ?]; [lia|]. specialize (IH ltac:(lia)). lia.
Qed.

Lemma month_loop_spec y fuel : forall k days, (k < 12)%nat -> (12 - k <= fuel)%nat -> 0 <= days -> is_u32 days ->
  days_before_month k y + days < year_length y ->
  exists d k', month_loop fuel days (Z.of_nat k) y = Ok (d, Z.of_nat k') /\ (k' < 12)%nat /\
    0 <= d < month_days (Z.of_nat k') y /\ days_before_month k' y + d = days_before_month k y + days.
Proof.
  induction fuel as [|fuel IH]; intros k days Hk Hf Hd Hu Hy; [lia|]. cbn [month_loop].
  destruct (month_length_eq (Z.of_nat k) y) as [-> Hm]; [lia|]. run.
  destruct (Z.leb_spec (month_days (Z.of_nat k) y) days) as [Hle|]; [|by exists days, k; split; [done|lia]].
  rewrite u32_id by (unfold is_u32 in *; lia). replace (Z.of_nat k + 1) with (Z.of_nat (S k)) by lia.
  destruct (decide (k = 11)%nat) as [->|].
  { exfalso. rewrite <- year_months in Hy. cbn [days_before_month] in Hy. change (Z.of_nat 11) with 11 in *. lia. }
  destruct (IH (S k) (days - month_days (Z.of_nat k) y)) as (d & k' & E & Hlt & Hr & Hs); [lia|lia|lia|unfold is_u32 in *; lia| |].
  { simpl. lia. }
  exists d, k'. do 3 (split; [done|]). rewrite Hs. simpl. lia.
Qed.

(** The conversion of a time-protocol value ends, and the date it prints is the one whose seconds since 1970 are the
    value less the offset of the protocol's epoch, with month, day and time of day in their ranges. *)
Theorem convert_to_local_time_ok t : is_u32 t ->
  exists k m d, let year := 1970 + Z.of_nat k in let ts := t -u EPOCH_OFFSET in
    convert_to_local_time t = Ok (year, Z.of_nat m + 1, d + 1, ts / 3600 mod 24, ts / 60 mod 60, ts mod 60) /\
    (m < 12)%nat /\ 0 <= d < month_days (Z.of_nat m) year /\
    ts = 86400 * (days_before_year k + days_before_month m year + d) + 3600 * (ts / 3600 mod 24) + 60 * (ts / 60 mod 60) + ts mod 60.
Proof.
  intros Ht. unfold convert_to_local_time. set (ts := t -u EPOCH_OFFSET). assert (is_u32 ts) as Hts by apply u32_range.
  assert (0 <= ts / 86400 <= 49710) as Hd by (unfold is_u32 in Hts; Z.div_mod_to_equations; lia).
  destruct (year_loop_spec 200 0 (ts / 86400)) as (d1 & k & E1 & Hr1 & Hs1); [lia|unfold is_u32; lia|].
  change (1970 + Z.of_nat 0) with 1970 in E1. rewrite E1. run.
  destruct (month_loop_spec (1970 + Z.of_nat k) 12 0 d1) as (d & m & E2 & Hm & Hr2 & Hs2); [lia|lia|lia| |simpl; lia|].
  { pose proof (year_length_range (1970 + Z.of_nat k)). unfold is_u32. lia. }
  change (Z.of_nat 0) with 0 in E2. rewrite E2. run. exists k, m, d. split; [done|]. split; [done|]. split; [done|].
  simpl in Hs1, Hs2. replace (days_before_year k + days_before_month m (1970 + Z.of_nat k) + d) with (ts / 86400) by lia.
  unfold is_u32 in Hts. clear -Hts. Z.div_mod_to_equations. lia.
Qed.

(** ** Concrete hosts *)

Definition host : net :=
  mkNet [10; 0; 2; 15] [10; 0; 2; 2] [255; 255; 255; 0] [82; 84; 0; 18; 52; 86] null_mac
    (replicate ARP_CACHE_SIZE (null_ip, null_mac)) 0 no_frames 0 false 0 (fun n => 1000 + Z.of_nat n) 0 [].
Definition peer_ip : list Z := [10; 0; 2; 7].
Definition peer_mac : list Z := [82; 84; 0; 1; 2; 3].

Ltac bytes := repeat constructor; unfold is_u8; lia.

Lemma host_ip : address (ip host).
Proof. split; [done|]. bytes. Qed.
Lemma host_mac : mac_address (mac host).
Proof. split; [done|]. bytes. Qed.
Lemma peer_ip_ok : address peer_ip.
Proof. split; [done|]. bytes. Qed.
Lemma peer_mac_ok : mac_address peer_mac.
Proof. split; [done|]. bytes. Qed.

Lemma ipv4_round_trip_witness :
  known_proto IPV4_PROTOCOL_UDP /\
  exists pre, ipv4_create_packet host 12 IPV4_PROTOCOL_UDP (ip host) peer_mac = Ok (pre, replicate (Z.to_nat 12) 0) /\
    forall payload, let p := drop 14 (pre ++ payload) in
      ipv4_packet_valid host p = Ok true /\ getn p 12 4 = Ok (ip host) /\ get8 p 9 = Ok IPV4_PROTOCOL_UDP /\
      (w ← get16 p 2; Ok (switch16 w)) = Ok (20 + 12) /\ drop 20 p = payload.
Proof.
  split; [right; by left|].
  apply (ipv4_round_trip host host 12 IPV4_PROTOCOL_UDP (ip host) peer_mac);
    [apply host_ip|apply host_mac|apply host_ip|apply peer_mac_ok|right; by left|lia|by left].
Defined.

(** An echo request with four bytes of payload. *)
Definition ping : list Z := [8; 0; 243; 249; 1; 2; 3; 4].

Lemma ping_is_answered_witness :
  icmp_packet_valid ping 8 = Ok true /\
  exists reply, length reply = Z.to_nat 8 /\ take 2 reply = [ICMP_ECHO_REPLY; 0] /\ drop 4 reply = slice ping 4 (8 - 4) /\
    checksum reply 8 = Ok 0 /\
    icmp_handle_packet host ping 8 peer_ip peer_mac =
      Ok (nic_send host (ethernet_header host peer_mac ETHERTYPE_IPV4 ++ ip_header (ip host) (20 + 8) IPV4_PROTOCOL_ICMP peer_ip ++ reply)) /\
    forall r, ip r = peer_ip -> ipv4_packet_valid r (ip_header (ip host) (20 + 8) IPV4_PROTOCOL_ICMP peer_ip ++ reply) = Ok true.
Proof.
  split; [vm_compute; reflexivity|].
  apply (ping_is_answered host ping 8 peer_ip peer_mac);
    [apply host_ip|apply host_mac|apply peer_ip_ok|apply peer_mac_ok|done|lia|simpl; lia|bytes|vm_compute; reflexivity].
Defined.

(** The peer's ARP reply. *)
Definition arp_reply_packet : list Z := [0; 1; 8; 0; 6; 4; 0; 2] ++ peer_mac ++ peer_ip ++ mac host ++ ip host.

Lemma arp_reply_for s : ip s = ip host -> arp_for s arp_reply_packet ARP_REPLY peer_ip peer_mac.
Proof. intros E. unfold arp_for. rewrite E. repeat split; vm_compute; reflexivity. Qed.

Lemma arp_cache_fifo_witness :
  Forall (fun e => e.1 <> peer_ip) (ring host) /\
  exists s', arp_handle_packet host arp_reply_packet peer_mac = Ok s' /\ get_mac s' peer_ip = Ok peer_mac.
Proof.
  assert (Forall (fun e => e.1 <> peer_ip) (ring host)) as Hnew by (repeat constructor; done). split; [done|].
  destruct (arp_cache_fifo host arp_reply_packet peer_mac peer_ip peer_mac) as (s' & E & _ & _ & _ & Hg);
    [split; [done|unfold ARP_CACHE_SIZE; simpl; lia]|by apply arp_reply_for|apply peer_mac_ok|done|done| |].
  - split; [done|]. intros i frame Hi. cbn [host pending_queue] in Hi. by apply lookup_replicate in Hi as [? _].
  - exists s'. split; [exact E|]. by apply Hg.
Defined.

(** Two frames that wait for two hosts. *)
Definition waiting_frame (last : Z) : list Z := replicate 30 0 ++ [10; 0; 2; last] ++ [1; 2; 3].
Definition busy_host : net :=
  set_pending host (<[1%nat := Some (waiting_frame 9)]> (<[0%nat := Some (waiting_frame 7)]> no_frames)) 2.

Lemma arp_drops_waiting_witness :
  pending_queue busy_host !! 1%nat = Some (Some (waiting_frame 9)) /\
  exists s', arp_handle_packet busy_host arp_reply_packet peer_mac = Ok s' /\
    sent s' = sent busy_host ++ [patch (waiting_frame 7) 0 peer_mac] /\ pending_queue s' = no_frames.
Proof.
  split; [done|]. apply (arp_drops_waiting busy_host arp_reply_packet peer_mac peer_ip peer_mac (waiting_frame 7) (waiting_frame 9) 1);
    [by apply arp_reply_for|apply peer_mac_ok|done|done| |reflexivity|reflexivity|by vm_compute].
  split; [done|]. intros i frame Hi. do 10 (destruct i as [|i]; [by vm_compute in Hi; simplify_eq; simpl; lia|]). by destruct i.
Defined.

Lemma convert_to_local_time_ok_witness :
  is_u32 3900000000 /\
  exists k m d, let year := 1970 + Z.of_nat k in let ts := 3900000000 -u EPOCH_OFFSET in
    convert_to_local_time 3900000000 = Ok (year, Z.of_nat m + 1, d + 1, ts / 3600 mod 24, ts / 60 mod 60, ts mod 60) /\
    (m < 12)%nat /\ 0 <= d < month_days (Z.of_nat m) year /\
    ts = 86400 * (days_before_year k + days_before_month m year + d) + 3600 * (ts / 3600 mod 24) + 60 * (ts / 60 mod 60) + ts mod 60.
Proof. assert (is_u32 3900000000) as Ht by (unfold is_u32; lia). split; [done|]. exact (convert_to_local_time_ok 3900000000 Ht). Defined.

End Net.
