(* ===== verification/Tcp.v ===== *)
(** * TCP and sockets ([network/TCP.cpp], [Socket.cpp])

    A socket with its state, sequence and acknowledgement numbers, and the segments it sends.  What a socket tells its
    listener, and the names it asks to be resolved, are a list of events.  The theorems cover the checksum of every segment,
    the opening handshake, data, and the two ways a connection ends, with the behaviours the code gets wrong. *)

From stdpp Require Import base tactics numbers list relations.
From S2P Require Import Prelude Bytes Net.
Import Bytes Net.
Open Scope Z_scope.

Module Tcp.

Definition DEFAULT_TCP_WINDOW_SIZE : Z := 0xFFFF.
Definition TCP_FLAG_FIN : Z := 0x01.
Definition TCP_FLAG_SYN : Z := 0x02.
Definition TCP_FLAG_RST : Z := 0x04.
Definition TCP_FLAG_PSH : Z := 0x08.
Definition TCP_FLAG_ACK : Z := 0x10.
Definition TCP_FLAG_URG : Z := 0x20.
Definition TCP_FLAG_CWR : Z := 0x80.
Definition TCP_FLAG_NS : Z := 0x100.

Inductive State :=
| LISTEN | SYN_SENT | SYN_RECEIVED | ESTABLISHED | FIN_WAIT_1 | FIN_WAIT_2 | CLOSE_WAIT | CLOSING | LAST_ACK | TIME_WAIT | CLOSED.
#[export] Instance State_eq_dec : EqDecision State.
Proof. solve_decision. Defined.

(** The comparison of enumerators in [close_all_connections]. *)
Definition state_index (st : State) : Z :=
  match st with
  | LISTEN => 0 | SYN_SENT => 1 | SYN_RECEIVED => 2 | ESTABLISHED => 3 | FIN_WAIT_1 => 4 | FIN_WAIT_2 => 5 | CLOSE_WAIT => 6
  | CLOSING => 7 | LAST_ACK => 8 | TIME_WAIT => 9 | CLOSED => 10
  end.

(** [start_packet]: null, a buffer that is still allocated, or one that was deleted. *)
Inductive packet := NullPacket | Held (data : list Z) | Freed.

Record socket := mkSocket {
  hostname : option (list Z); port : Z; peer_port : Z; peer_ip : list Z; state : State; seq_num : Z; ack_num : Z;
  listener : bool; start_packet : packet
}.

Definition set_state (k : socket) st : socket :=
  mkSocket (hostname k) (port k) (peer_port k) (peer_ip k) st (seq_num k) (ack_num k) (listener k) (start_packet k).
Definition set_seq (k : socket) n : socket :=
  mkSocket (hostname k) (port k) (peer_port k) (peer_ip k) (state k) n (ack_num k) (listener k) (start_packet k).
Definition set_ack (k : socket) n : socket :=
  mkSocket (hostname k) (port k) (peer_port k) (peer_ip k) (state k) (seq_num k) n (listener k) (start_packet k).
Definition set_start (k : socket) p : socket :=
  mkSocket (hostname k) (port k) (peer_port k) (peer_ip k) (state k) (seq_num k) (ack_num k) (listener k) p.
Definition set_peer_ip (k : socket) a : socket :=
  mkSocket (hostname k) (port k) (peer_port k) a (state k) (seq_num k) (ack_num k) (listener k) (start_packet k).
Definition set_port (k : socket) p : socket :=
  mkSocket (hostname k) p (peer_port k) (peer_ip k) (state k) (seq_num k) (ack_num k) (listener k) (start_packet k).

(** Why a connection ended. *)
Inductive reason := NoError | HandshakeFailed | PeerClosed | UnknownPacket (flags : Z).

(** [on_data_received], [on_connection_terminated], the warning when nobody listens, and [DNS::resolve_hostname]. *)
Inductive event := Data (payload : list Z) | Terminated (r : reason) | Warned (r : reason) | Resolve (hostname : option (list Z)).

(** The network and one socket at work. *)
Record conn := mkConn { wire : net; sock : socket; events : list event }.
Definition set_wire (c : conn) n : conn := mkConn n (sock c) (events c).
Definition set_sock (c : conn) k : conn := mkConn (wire c) k (events c).
Definition tell (c : conn) (e : event) : conn := mkConn (wire c) (sock c) (events c ++ [e]).

(** ** Segments *)

Definition tcp_header_size : Z := Z.land (20 + 3) (Z.lnot 3).

(** [fill_pseudo_header]: the bytes of the pseudo header. *)
Definition pseudo_header (n : net) (header_len : Z) (dest_ip : list Z) (payload_size : Z) : list Z * Z :=
  let tcp_len := switch16 (u16 (Z.shiftr header_len 4 * 4 + payload_size)) in
  (ip n ++ dest_ip ++ [0; IPV4_PROTOCOL_TCP] ++ le16 tcp_len, tcp_len).

Definition compute_checksum (n : net) (header dest_ip : list Z) (payload_size : Z) : res Z :=
  header_len ← get8 header 12;
  let '(ph, tcp_len) := pseudo_header n header_len dest_ip payload_size in
  c1 ← checksum ph 12; c2 ← checksum header (switch16 tcp_len); checksum_add c1 c2.

Definition tcp_write_header (n : net) (buf : list Z) (k : socket) (flags data_size : Z) : res (list Z) :=
  buf ← set16 buf 0 (switch16 (port k)); buf ← set16 buf 2 (switch16 (peer_port k));
  buf ← set32 buf 4 (switch32 (seq_num k)); buf ← set32 buf 8 (switch32 (ack_num k));
  buf ← set8 buf 12 (Z.shiftl (tcp_header_size / 4) 4); buf ← set8 buf 13 flags;
  buf ← set16 buf 14 (switch16 DEFAULT_TCP_WINDOW_SIZE);
  c ← compute_checksum n buf (peer_ip k) data_size; set16 buf 16 c.

(** A segment to the hardware address [m]. *)
Definition send_segment (c : conn) (daddr m : list Z) (flags : Z) (data : list Z) : res conn :=
  let size := Z.of_nat (length data) in
  '(pre, buf) ← ipv4_create_packet (wire c) (u16 (tcp_header_size + size)) IPV4_PROTOCOL_TCP daddr m;
  buf ← patch_in buf tcp_header_size data;
  buf ← tcp_write_header (wire c) buf (sock c) flags size;
  n ← send_packet (wire c) (pre ++ buf); Ok (set_wire c n).

(** [TCP::send_data], [send_sync] and [send_fin_ack]: to the hardware address the ARP cache has for the peer. *)
Definition to_peer (c : conn) (flags : Z) (data : list Z) : res conn :=
  m ← get_mac (wire c) (peer_ip (sock c)); send_segment c (peer_ip (sock c)) m flags data.

Definition tcp_send_data (c : conn) (data : list Z) : res conn := to_peer c (Z.lor TCP_FLAG_PSH TCP_FLAG_ACK) data.
Definition send_sync (c : conn) : res conn := to_peer c TCP_FLAG_SYN [].
Definition send_fin_ack (c : conn) : res conn :=
  m ← get_mac (wire c) (peer_ip (sock c));
  let size := 0 in
  '(pre, buf) ← ipv4_create_packet (wire c) tcp_header_size IPV4_PROTOCOL_TCP (peer_ip (sock c)) m;
  buf ← tcp_write_header (wire c) buf (sock c) (Z.lor TCP_FLAG_FIN TCP_FLAG_ACK) size;
  let c := set_sock c (set_state (set_seq (sock c) (seq_num (sock c) +u 1)) FIN_WAIT_1) in
  n ← send_packet (wire c) (pre ++ buf); Ok (set_wire c n).

(** ** Sockets *)

Definition initialize (c : conn) : res conn := send_sync (set_sock c (set_state (sock c) SYN_SENT)).

(** The two kinds of pointers [send_data] is called with: a buffer that its caller gives away, or [start_packet.data]. *)
Inductive source := Given (data : list Z) | Start.

Definition source_packet (c : conn) (s : source) : packet := match s with Given d => Held d | Start => start_packet (sock c) end.

(** Reading a buffer, and [delete[]] on it. *)
Definition packet_bytes (p : packet) : res (list Z) := match p with NullPacket => Ok [] | Held d => Ok d | Freed => Fault end.
Definition delete_packet (p : packet) : packet := match p with NullPacket => NullPacket | _ => Freed end.

(** [Socket::send_data]; once the data is sent its buffer is deleted, and [start_packet] dangles if it was that buffer. *)
Definition send_source (c : conn) (s : source) : res conn :=
  if bool_decide (state (sock c) = CLOSED) then
    let c := set_sock c (set_start (sock c) (source_packet c s)) in
    if bool_decide (peer_ip (sock c) = null_ip) then Ok (tell c (Resolve (hostname (sock c)))) else initialize c
  else
    data ← packet_bytes (source_packet c s);
    c ← tcp_send_data c data;
    let c := set_sock c (set_seq (sock c) (seq_num (sock c) +u Z.of_nat (length data))) in
    match s with
    | Given _ => Ok c
    | Start => Ok (set_sock c (set_start (sock c) (delete_packet (start_packet (sock c)))))
    end.

Definition send_data (c : conn) (data : list Z) : res conn := send_source c (Given data).

Definition on_hostname_resolved (c : conn) (addr : list Z) : res conn :=
  let c := set_sock c (set_peer_ip (sock c) addr) in send_source c Start.

Definition set_listener (k : socket) (b : bool) : socket :=
  mkSocket (hostname k) (port k) (peer_port k) (peer_ip k) (state k) (seq_num k) (ack_num k) b (start_packet k).

Definition close (c : conn) (r : reason) : conn :=
  let c := set_sock c (set_state (sock c) CLOSED) in
  if listener (sock c) then tell c (Terminated r)
  else match r with NoError => c | _ => tell c (Warned r) end.

(** A received segment: its memory from the header on, its size, and the sender's addresses. *)
Record segment := mkSegment { bytes : list Z; size : Z; saddr : list Z; eth_src : list Z }.

(** [acknowledge]: the next expected number. *)
Definition acknowledge (k : socket) (g : segment) : res socket :=
  hl ← get8 (bytes g) 12; s ← get32 (bytes g) 4; flags ← get8 (bytes g) 13;
  let payload_size := size g -u (Z.shiftr hl 4 * 4) in
  let a := switch32 s +u payload_size in
  Ok (set_ack k (if truthy (Z.land flags (Z.lor TCP_FLAG_SYN TCP_FLAG_FIN)) then a +u 1 else a)).

(** A reply without data to the sender of a segment ([create_packet_response] and the header). *)
Definition respond (c : conn) (g : segment) (flags : Z) : res conn := send_segment c (saddr g) (eth_src g) flags [].

Definition has (flags f : Z) : bool := truthy (Z.land flags f).

Definition handle_packet (c : conn) (g : segment) : res conn :=
  flags ← get8 (bytes g) 13;
  let st := state (sock c) in
  if has flags (Z.lor (Z.lor TCP_FLAG_NS TCP_FLAG_CWR) TCP_FLAG_URG) then respond c g TCP_FLAG_RST
  else if has flags TCP_FLAG_SYN && truthy flags && truthy TCP_FLAG_ACK && bool_decide (st = SYN_SENT) then
    let c := set_sock c (set_seq (sock c) (seq_num (sock c) +u 1)) in
    k ← acknowledge (sock c) g; let c := set_sock c k in
    c ← respond c g TCP_FLAG_ACK;
    let c := set_sock c (set_state (sock c) ESTABLISHED) in
    send_source c Start
  else if (flags =? TCP_FLAG_ACK) && bool_decide (st = CLOSE_WAIT) then Ok (close c NoError)
  else if has flags TCP_FLAG_FIN && has flags TCP_FLAG_ACK && bool_decide (st = FIN_WAIT_1) then
    k ← acknowledge (sock c) g; c ← respond (set_sock c k) g TCP_FLAG_ACK; Ok (close c NoError)
  else if (flags =? Z.lor TCP_FLAG_RST TCP_FLAG_ACK) && bool_decide (st = SYN_SENT) then Ok (close c HandshakeFailed)
  else if has flags TCP_FLAG_ACK && bool_decide (st = ESTABLISHED) then
    hl ← get8 (bytes g) 12;
    let header_size := Z.shiftr hl 4 * 4 in
    let payload_size := size g -u header_size in
    let fin := has flags TCP_FLAG_FIN in
    if truthy payload_size || fin then
      k ← acknowledge (sock c) g;
      let c := set_sock c k in
      c ← respond c g (if fin then Z.lor TCP_FLAG_ACK TCP_FLAG_FIN else TCP_FLAG_ACK);
      let c := if fin then set_sock c (set_state (sock c) CLOSE_WAIT) else c in
      if listener (sock c) && truthy payload_size then
        payload ← getn (bytes g) header_size (u16 payload_size); Ok (tell c (Data payload))
      else Ok c
    else Ok c
  else
    let reset := has flags TCP_FLAG_RST in
    c ← (if reset then Ok c else respond c g TCP_FLAG_RST);
    Ok (close c (if reset then PeerClosed else UnknownPacket flags)).

(** ** The sockets of the kernel *)

Record stack := mkStack { net_of : net; sockets : list socket; log : list event }.

Fixpoint port_used (l : list socket) (p : Z) : option nat :=
  match l with
  | [] => None
  | k :: l => if port k =? p then Some 0%nat else match port_used l p with Some i => Some (S i) | None => None end
  end.

(** [while (port_used(port)) port = random_ephemeral_port()]. *)
Fixpoint choose_port (fuel : nat) (n : net) (l : list socket) (p : Z) : res (Z * net) :=
  match port_used l p with
  | None => Ok (p, n)
  | Some _ =>
      match fuel with
      | O => NoFuel
      | S fuel => '(p, n) ← random_ephemeral_port n; choose_port fuel n l p
      end
  end.

(** The constructor for an address: the port and the sequence number are random. *)
Definition new_socket (fuel : nat) (w : stack) (addr : list Z) (pp : Z) : res stack :=
  '(p, n) ← random_ephemeral_port (net_of w);
  '(q, n) ← generate_random_id32 n;
  '(p, n) ← choose_port fuel n (sockets w) p;
  Ok (mkStack n (sockets w ++ [mkSocket None p pp addr CLOSED q 0 false NullPacket]) (log w)).

(** The constructor for a name: the name is kept unless it is ["host"], which is the gateway. *)
Definition host_name : list Z := [104; 111; 115; 116].
Definition new_named_socket (fuel : nat) (w : stack) (nm : list Z) (pp : Z) : res stack :=
  w ← new_socket fuel w (if bool_decide (nm = host_name) then gateway_ip (net_of w) else null_ip) pp;
  if bool_decide (nm = host_name) then Ok w
  else
    k ← deref (last (sockets w));
    Ok (mkStack (net_of w)
      (<[(length (sockets w) - 1)%nat :=
         mkSocket (Some nm) (port k) (peer_port k) (peer_ip k) (state k) (seq_num k) (ack_num k) (listener k) (start_packet k)]>
       (sockets w)) (log w)).

(** The destructor takes the socket out of the list. *)
Definition delete_socket (w : stack) (i : nat) : stack := mkStack (net_of w) (base.delete i (sockets w)) (log w).

(** Run an operation of a socket of the list. *)
Definition with_socket (w : stack) (i : nat) (f : conn -> res conn) : res stack :=
  k ← deref (sockets w !! i); c ← f (mkConn (net_of w) k (log w));
  Ok (mkStack (wire c) (<[i := sock c]> (sockets w)) (events c)).

(** [TCP::handle_packet]: a segment for a port nobody has is answered with a reset from a socket made for it. *)
Definition tcp_handle_packet (fuel : nat) (w : stack) (g : segment) : res stack :=
  dp ← get16 (bytes g) 2;
  match port_used (sockets w) (switch16 dp) with
  | Some i => with_socket w i (fun c => handle_packet c g)
  | None =>
      sp ← get16 (bytes g) 0; sq ← get32 (bytes g) 4;
      w1 ← new_socket fuel w (saddr g) (switch16 sp);
      k ← deref (last (sockets w1));
      c ← send_segment (mkConn (net_of w1) (set_ack k (switch32 sq +u 1)) (log w1)) (saddr g) (eth_src g) TCP_FLAG_RST [];
      Ok (mkStack (wire c) (sockets w) (events c))
  end.

(** One pass of [close_all_connections] over the sockets; whether a connection was still open. *)
Fixpoint close_pass (w : stack) (idx : list nat) (connection_open : bool) : res (bool * stack) :=
  match idx with
  | [] => Ok (connection_open, w)
  | i :: idx =>
      k ← deref (sockets w !! i);
      let o := connection_open || ((state_index ESTABLISHED <=? state_index (state k)) && negb (bool_decide (state k = CLOSED))) in
      w ← with_socket w i send_fin_ack; close_pass w idx o
  end.

(** [close_all_connections]: passes until no connection is open; the segments that interrupts bring in between two passes are
    an argument. *)
Fixpoint close_all_connections (fuel : nat) (arrivals : stack -> res stack) (w : stack) : res stack :=
  match fuel with
  | O => NoFuel
  | S fuel =>
      r ← close_pass w (seq 0 (length (sockets w))) false;
      if (fst r : bool) then (w ← arrivals (snd r); close_all_connections fuel arrivals w) else Ok (snd r)
  end.

(** [TCP_listener]: a socket that reports to the listener that made it. *)
Definition listen_last (w : stack) : res stack :=
  k ← deref (last (sockets w));
  Ok (mkStack (net_of w) (<[(length (sockets w) - 1)%nat := set_listener k true]> (sockets w)) (log w)).
Definition new_listener (fuel : nat) (w : stack) (addr : list Z) (pp : Z) : res stack :=
  w ← new_socket fuel w addr pp; listen_last w.
Definition new_named_listener (fuel : nat) (w : stack) (nm : list Z) (pp : Z) : res stack :=
  w ← new_named_socket fuel w nm pp; listen_last w.

(** ** Segments on the wire *)

Definition socket_ok (k : socket) : Prop :=
  is_u16 (port k) /\ is_u16 (peer_port k) /\ address (peer_ip k) /\ is_u32 (seq_num k) /\ is_u32 (ack_num k).

Definition tcp_header (k : socket) (flags c : Z) : list Z :=
  be16 (port k) ++ be16 (peer_port k) ++ be32 (seq_num k) ++ be32 (ack_num k) ++ [80; flags; 255; 255] ++ le16 c ++ [0; 0].

Definition pseudo (src dest : list Z) (len : Z) : list Z := src ++ dest ++ [0; IPV4_PROTOCOL_TCP] ++ be16 len.

Definition tcp_len (data : list Z) : Z := 20 + Z.of_nat (length data).

(** The checksum that is written. *)
Definition tcp_sum (src : list Z) (k : socket) (flags : Z) (data : list Z) : Z :=
  residue ((65535 - residue (words_sum (pseudo src (peer_ip k) (tcp_len data)))) +
           (65535 - residue (words_sum (tcp_header k flags 0 ++ data)))).

Definition tcp_segment (src : list Z) (k : socket) (flags : Z) (data : list Z) : list Z :=
  tcp_header k flags (tcp_sum src k flags data) ++ data.

Lemma tcp_header_u8 k flags c : socket_ok k -> is_u8 flags -> Forall is_u8 (tcp_header k flags c).
Proof.
  intros (? & ? & _ & ? & ?) Hf. unfold tcp_header.
  repeat first [by apply be16_u8 | by apply be32_u8 | apply le16_bytes | by u8s | apply Forall_app; split].
Qed.

Lemma pseudo_u8 src dest len : address src -> address dest -> is_u16 len -> Forall is_u8 (pseudo src dest len).
Proof.
  intros [_ ?] [_ ?] ?. unfold pseudo. repeat (apply Forall_app; split); try done; [|by apply be16_u8].
  unfold IPV4_PROTOCOL_TCP. u8s.
Qed.

Lemma pseudo_length src dest len : address src -> address dest -> length (pseudo src dest len) = 12%nat.
Proof. intros [? _] [? _]. unfold pseudo. rewrite !length_app. simpl. lia. Qed.

(** The protocol number alone makes the sum of a pseudo header positive. *)
Lemma pseudo_positive src dest len : address src -> address dest -> is_u16 len -> 0 < words_sum (pseudo src dest len).
Proof.
  intros [Hs Hsb] [Hd Hdb] Hl. unfold pseudo.
  assert (Nat.Even (length src)) by by rewrite Hs; exists 2%nat. assert (Nat.Even (length dest)) by by rewrite Hd; exists 2%nat.
  rewrite !words_sum_app by done. pose proof (words_sum_bounds src Hsb). pose proof (words_sum_bounds dest Hdb).
  pose proof (words_sum_bounds (be16 len) (be16_u8 len Hl)). rewrite (words_sum_app [0; IPV4_PROTOCOL_TCP]) by by exists 1%nat.
  change (words_sum [0; IPV4_PROTOCOL_TCP]) with 1536. lia.
Qed.

(** The checksum field adds its value to the sum. *)
Lemma words_sum_header k flags c data : is_u16 c ->
  words_sum (tcp_header k flags c ++ data) = words_sum (tcp_header k flags 0 ++ data) + c.
Proof.
  intros Hc. unfold tcp_header, be32, be16. rewrite (le16_small c) by done. rewrite (le16_small 0) by done. cbn.
  change (0 mod 256) with 0. change (0 / 256) with 0. pose proof (Z.div_mod c 256 ltac:(lia)). lia.
Qed.

Lemma tcp_header_length k flags c : length (tcp_header k flags c) = 20%nat.
Proof. done. Qed.

Lemma words_nonneg l : Forall is_u8 l -> 0 <= words_sum l.
Proof. intros Hl. by apply words_sum_bounds. Qed.

Lemma tcp_sum_range src k flags data : address src -> socket_ok k -> is_u8 flags -> Forall is_u8 data -> Z.of_nat (length data) <= 65495 ->
  is_u16 (tcp_sum src k flags data).
Proof.
  intros Hs Hk Hf Hd Hl. assert (is_u16 (tcp_len data)) as Ht by (unfold is_u16, tcp_len; lia).
  pose proof (residue_range _ (words_nonneg _ (pseudo_u8 _ _ _ Hs (proj1 (proj2 (proj2 Hk))) Ht))) as H1.
  assert (Forall is_u8 (tcp_header k flags 0 ++ data)) as Hh by (apply Forall_app; split; [by apply tcp_header_u8|done]).
  pose proof (residue_range _ (words_nonneg _ Hh)) as H2.
  assert (0 <= tcp_sum src k flags data <= 65535); [apply residue_range; lia|unfold is_u16; lia].
Qed.

(** The receiver's check: pseudo header, header and data sum up to zero. *)
Lemma segment_sums src k flags data : address src -> socket_ok k -> is_u8 flags -> Forall is_u8 data -> Z.of_nat (length data) <= 65495 ->
  checksum (pseudo src (peer_ip k) (tcp_len data) ++ tcp_segment src k flags data) (12 + tcp_len data) = Ok 0.
Proof.
  intros Hs Hk Hf Hd Hl. pose proof (tcp_sum_range src k flags data Hs Hk Hf Hd Hl) as Hc.
  assert (is_u16 (tcp_len data)) as Ht by (unfold is_u16, tcp_len; lia). assert (address (peer_ip k)) as Hp by apply Hk.
  assert (length (pseudo src (peer_ip k) (tcp_len data) ++ tcp_segment src k flags data) = Z.to_nat (12 + tcp_len data)) as Hlen.
  { rewrite length_app, pseudo_length by done. unfold tcp_segment. rewrite length_app, tcp_header_length. unfold tcp_len. lia. }
  assert (Forall is_u8 (tcp_header k flags 0 ++ data)) as Hh0 by (apply Forall_app; split; [by apply tcp_header_u8|done]).
  assert (Forall is_u8 (tcp_segment src k flags data)) as Hh by (apply Forall_app; split; [by apply tcp_header_u8|done]).
  pose proof (pseudo_u8 src (peer_ip k) (tcp_len data) Hs Hp Ht) as Hph.
  rewrite checksum_spec; [|unfold tcp_len in *; lia|unfold tcp_len; lia|by apply Forall_app].
  rewrite take_ge by lia. rewrite words_sum_app by (rewrite pseudo_length by done; by exists 6%nat).
  unfold tcp_segment. rewrite words_sum_header by done. pose proof (pseudo_positive src (peer_ip k) (tcp_len data) Hs Hp Ht) as Hpos.
  pose proof (words_nonneg _ Hh0) as Hn. f_equal. rewrite residue_multiple; [done|unfold is_u16 in Hc; lia|].
  set (a := words_sum (pseudo _ _ _)) in *. set (b := words_sum (tcp_header k flags 0 ++ data)) in *.
  pose proof (residue_range a ltac:(lia)). pose proof (residue_range b ltac:(lia)).
  assert (tcp_sum src k flags data mod 65535 = (- (a + b)) mod 65535) as E.
  { unfold tcp_sum. fold a b. rewrite residue_mod by lia.
    replace (65535 - residue a + (65535 - residue b)) with (- (residue a + residue b) + 2 * 65535) by lia.
    rewrite Z_mod_plus_full. rewrite <- (Z.sub_0_l (residue a + residue b)), <- (Z.sub_0_l (a + b)).
    rewrite Zminus_mod, (Zminus_mod 0 (a + b)). do 2 f_equal. rewrite Zplus_mod, !residue_mod by lia. by rewrite <- Zplus_mod. }
  rewrite Z.add_assoc, Zplus_mod, E, <- Zplus_mod. replace (a + b + - (a + b)) with 0 by lia. done.
Qed.

(** [write_header] leaves the segment in the buffer. *)
Lemma tcp_write_spec n k flags data : address (ip n) -> socket_ok k -> is_u8 flags -> Forall is_u8 data -> Z.of_nat (length data) <= 65495 ->
  tcp_write_header n (replicate 20 0 ++ data) k flags (Z.of_nat (length data)) = Ok (tcp_segment (ip n) k flags data).
Proof.
  intros Hs Hk Hf Hd Hl. remember (Z.of_nat (length data)) as size eqn:Esize. unfold tcp_write_header, set8, set16, set32. pose proof Hk as (Hp & Hpp & Ha & Hq & Hack).
  rewrite !le16_switch16, !le32_switch32 by (done || unfold is_u16, DEFAULT_TCP_WINDOW_SIZE; lia).
  unfold be32, be16. cbn [replicate app]. do 7 header_step.
  change (Z.shiftl (tcp_header_size / 4) 4 mod 256) with 80. rewrite (Z.mod_small flags) by done.
  change (DEFAULT_TCP_WINDOW_SIZE / 256) with 255. change (DEFAULT_TCP_WINDOW_SIZE mod 256) with 255.
  assert (is_u16 (tcp_len data)) as Ht by (unfold is_u16, tcp_len; lia).
  assert (Forall is_u8 (tcp_header k flags 0 ++ data)) as Hh0 by (apply Forall_app; split; [by apply tcp_header_u8|done]).
  subst size. match goal with |- context [compute_checksum n ?b _ _] => change b with (tcp_header k flags 0 ++ data) end.
  assert (compute_checksum n (tcp_header k flags 0 ++ data) (peer_ip k) (Z.of_nat (length data)) = Ok (tcp_sum (ip n) k flags data)) as ->.
  { unfold compute_checksum, get8. rewrite getn_start by (rewrite ?tcp_header_length; lia). run.
    change (byte (slice (tcp_header k flags 0) 12 1) 0) with 80. unfold pseudo_header.
    change (Z.shiftr 80 4 * 4) with 20. fold (tcp_len data). rewrite (u16_id (tcp_len data)) by done. cbv iota zeta.
    rewrite le16_switch16 by done. fold (pseudo (ip n) (peer_ip k) (tcp_len data)). rewrite switch16_switch16 by done.
    pose proof (pseudo_u8 (ip n) (peer_ip k) (tcp_len data) Hs Ha Ht) as Hph.
    rewrite (checksum_spec (pseudo _ _ _) 12); [|rewrite pseudo_length by done; lia|lia|done]. run.
    rewrite checksum_spec; [|rewrite length_app, tcp_header_length; unfold tcp_len; lia|unfold is_u16 in Ht; lia|done]. run.
    rewrite !take_ge by (rewrite ?pseudo_length, ?length_app, ?tcp_header_length by done; unfold tcp_len; lia).
    pose proof (residue_range _ (words_nonneg _ Hph)). pose proof (residue_range _ (words_nonneg _ Hh0)).
    unfold checksum_add. rewrite fold16_spec by lia. run. f_equal. apply u16_id. by apply tcp_sum_range. }
  run. rewrite patch_in_start by (simpl; lia). done.
Qed.

(** ** Frames *)

Definition net_ok (n : net) : Prop :=
  address (ip n) /\ mac_address (mac n) /\ mac_address (gateway_mac n) /\ cache_ok n /\ Forall (fun e => mac_address e.2) (cache n).

Definition data_ok (data : list Z) : Prop := Forall is_u8 data /\ Z.of_nat (length data) <= 65495.

Definition frame (n : net) (k : socket) (daddr m : list Z) (flags : Z) (data : list Z) : list Z :=
  ethernet_header n m ETHERTYPE_IPV4 ++ ip_header (ip n) (20 + tcp_len data) IPV4_PROTOCOL_TCP daddr ++ tcp_segment (ip n) k flags data.

Lemma send_segment_spec c daddr m flags data : net_ok (wire c) -> socket_ok (sock c) -> address daddr -> mac_address m -> is_u8 flags -> data_ok data ->
  send_segment c daddr m flags data = (n ← send_packet (wire c) (frame (wire c) (sock c) daddr m flags data); Ok (set_wire c n)).
Proof.
  intros (Hi & Hm & _) Hk Hd Hmm Hf [Hdb Hdl]. unfold send_segment. change tcp_header_size with 20. fold (tcp_len data).
  rewrite (u16_id (tcp_len data)) by (unfold is_u16, tcp_len; lia).
  rewrite ipv4_create_spec by (done || unfold is_u8, IPV4_PROTOCOL_TCP, tcp_len; lia). run.
  replace (Z.to_nat (tcp_len data)) with (20 + length data)%nat by (unfold tcp_len; lia). rewrite replicate_add.
  rewrite patch_in_ok by (rewrite ?length_app, ?length_replicate; lia). run.
  assert (patch (replicate 20 0 ++ replicate (length data) 0) 20 data = replicate 20 0 ++ data) as ->.
  { unfold patch. rewrite take_app_length' by done. rewrite drop_ge by (rewrite length_app, !length_replicate; lia). by rewrite app_nil_r. }
  rewrite tcp_write_spec by done. run. unfold frame. by rewrite <- app_assoc.
Qed.

(** The address a frame is looked up by when its hardware address is not known. *)
Lemma ipv4_frame_daddr n m size proto daddr payload : address (ip n) -> mac_address (mac n) -> mac_address m -> address daddr -> is_u16 size -> is_u8 proto ->
  frame_daddr (ethernet_header n m ETHERTYPE_IPV4 ++ ip_header (ip n) size proto daddr ++ payload) = Ok daddr.
Proof.
  intros Hi Hm Hmm Hd Hs Hp. unfold frame_daddr, ethernet_header_size.
  destruct (ip_header_bytes (ip n) size proto daddr) as (c0 & c1 & E & _); [done..|].
  replace (14 + 16) with (Z.of_nat (length (ethernet_header n m ETHERTYPE_IPV4)) + 16) by (rewrite ethernet_header_length by done; lia).
  rewrite getn_skip by lia. rewrite getn_start by (rewrite ?ip_header_length by done; lia). rewrite E. destruct Hi as [Hi _], Hd as [Hd _].
  destruct (ip n) as [|i0 [|i1 [|i2 [|i3 [|]]]]]; try done. destruct daddr as [|d0 [|d1 [|d2 [|d3 [|]]]]]; done.
Qed.

Lemma frame_daddr_spec n k daddr m flags data : net_ok n -> address daddr -> mac_address m -> data_ok data ->
  frame_daddr (frame n k daddr m flags data) = Ok daddr.
Proof. intros (Hi & Hm & _) Hd Hmm [_ Hl]. apply ipv4_frame_daddr; try done. unfold is_u16, tcp_len. lia. Qed.

(** Sending never fails, and changes neither the addresses nor the ARP cache. *)
Lemma send_packet_ok n k daddr m flags data : net_ok n -> address daddr -> mac_address m -> data_ok data ->
  exists n', send_packet n (frame n k daddr m flags data) = Ok n' /\ net_ok n' /\ ip n' = ip n.
Proof.
  intros Hn Hd Hm Hdata. pose proof (frame_daddr_spec n k daddr m flags data Hn Hd Hm Hdata) as Hfd.
  destruct Hn as (Hi & Hmac & Hg & Hc & Hcm). unfold send_packet.
  assert (getn (frame n k daddr m flags data) 0 6 = Ok m) as ->.
  { unfold frame, ethernet_header. rewrite <- !app_assoc. rewrite getn_start by (rewrite ?(proj1 Hm); lia). f_equal.
    unfold slice. rewrite drop_0. apply take_ge. rewrite (proj1 Hm). done. }
  run. rewrite Hfd. run. case_bool_decide; [|by eexists; split; [done|]].
  destruct (address_is_in_subnet n daddr).
  - unfold resolve_and_send. rewrite Hfd. run.
    rewrite resolve_mac_spec by done. by eexists; split; [done|].
  - rewrite patch_in_ok; [run; by eexists; split; [done|]|done|].
    unfold frame. rewrite length_app, ethernet_header_length by done. rewrite (proj1 Hg). lia.
Qed.

(** The hardware address a segment to a host goes to: the one of the ARP cache, or the gateway's for a host outside of the
    network. *)
Definition routed (n : net) (addr m : list Z) : Prop :=
  get_mac n addr = Ok m /\ m <> null_mac \/
  get_mac n addr = Ok null_mac /\ address_is_in_subnet n addr = false /\ m = gateway_mac n.

Lemma null_mac_ok : mac_address null_mac.
Proof. split; [done|]. unfold null_mac. u8s. Qed.

(** A frame that is made for what the cache says goes to the hardware address it is routed to. *)
Lemma send_routed n m size proto daddr payload : address (ip n) -> mac_address (mac n) -> address daddr -> mac_address m -> is_u16 size -> is_u8 proto ->
  routed n daddr m ->
  exists m0, get_mac n daddr = Ok m0 /\ mac_address m0 /\
    send_packet n (ethernet_header n m0 ETHERTYPE_IPV4 ++ ip_header (ip n) size proto daddr ++ payload) =
      Ok (nic_send n (ethernet_header n m ETHERTYPE_IPV4 ++ ip_header (ip n) size proto daddr ++ payload)).
Proof.
  intros Hi Hmac Hd Hm Hs Hp [[E Hne]|(E & Hsub & ->)].
  - exists m. split; [done|]. split; [done|]. unfold ethernet_header. rewrite <- !app_assoc. apply send_known; [apply Hm|done].
  - exists null_mac. split; [done|]. split; [apply null_mac_ok|]. unfold send_packet.
    rewrite ipv4_frame_daddr by (done || apply null_mac_ok). run. rewrite Hsub.
    assert (getn (ethernet_header n null_mac ETHERTYPE_IPV4 ++ ip_header (ip n) size proto daddr ++ payload) 0 6 = Ok null_mac) as ->.
    { unfold ethernet_header. rewrite <- !app_assoc. by rewrite getn_start by (simpl; lia). }
    run. rewrite bool_decide_eq_true_2 by done. unfold ethernet_header. rewrite <- !app_assoc.
    rewrite patch_in_start by (rewrite ?(proj1 Hm); simpl; lia). run. do 2 f_equal. f_equal. unfold patch. rewrite (proj1 Hm). by rewrite app_nil_r.
Qed.

Lemma to_peer_routed c flags data m : net_ok (wire c) -> socket_ok (sock c) -> is_u8 flags -> data_ok data ->
  mac_address m -> routed (wire c) (peer_ip (sock c)) m ->
  to_peer c flags data = Ok (set_wire c (nic_send (wire c) (frame (wire c) (sock c) (peer_ip (sock c)) m flags data))).
Proof.
  intros Hn Hk Hf Hd Hm Hr. unfold to_peer. assert (address (peer_ip (sock c))) as Hp by apply Hk. pose proof Hn as (Hi & Hmac & _).
  destruct (send_routed (wire c) m (20 + tcp_len data) IPV4_PROTOCOL_TCP (peer_ip (sock c)) (tcp_segment (ip (wire c)) (sock c) flags data))
    as (m0 & -> & Hm0 & E); [done..|destruct Hd; unfold is_u16, tcp_len; lia|done|done|].
  run. rewrite send_segment_spec by done. unfold frame. rewrite E. done.
Qed.

(** What the peer of a connection finds in a segment. *)
Record reads (src dst seg : list Z) (k : socket) (flags : Z) (data : list Z) : Prop := mkReads {
  reads_checksum : checksum (pseudo src dst (Z.of_nat (length seg)) ++ seg) (12 + Z.of_nat (length seg)) = Ok 0;
  reads_src : (w ← get16 seg 0; Ok (switch16 w)) = Ok (port k);
  reads_dest : (w ← get16 seg 2; Ok (switch16 w)) = Ok (peer_port k);
  reads_seq : (w ← get32 seg 4; Ok (switch32 w)) = Ok (seq_num k);
  reads_ack : (w ← get32 seg 8; Ok (switch32 w)) = Ok (ack_num k);
  reads_offset : (w ← get8 seg 12; Ok (Z.shiftr w 4 * 4)) = Ok 20;
  reads_flags : get8 seg 13 = Ok flags;
  reads_data : drop 20 seg = data
}.

Lemma segment_reads src k flags data : address src -> socket_ok k -> is_u8 flags -> data_ok data ->
  reads src (peer_ip k) (tcp_segment src k flags data) k flags data.
Proof.
  intros Hs Hk Hf [Hd Hl]. assert (Z.of_nat (length (tcp_segment src k flags data)) = tcp_len data) as El.
  { unfold tcp_segment. rewrite length_app, tcp_header_length. unfold tcp_len. lia. }
  constructor; [rewrite El; by apply segment_sums|..|done]; unfold get8, get16, get32, tcp_segment;
    rewrite getn_start by (rewrite ?tcp_header_length; lia); run; try done; f_equal; destruct Hk as (? & ? & ? & ? & ?).
  - by apply switch16_be16.
  - by apply switch16_be16.
  - by apply switch32_be32.
  - by apply switch32_be32.
Qed.

(** Claim C22: A segment that a socket sends to its peer arrives: the frame goes to the peer's hardware address or to the gateway,
    the peer accepts the IPv4 packet, the checksum over the pseudo header, the header and the data is right, and the
    fields and the data are the socket's. *)
Theorem segment_arrives c flags data m r : net_ok (wire c) -> socket_ok (sock c) -> is_u8 flags -> data_ok data ->
  mac_address m -> routed (wire c) (peer_ip (sock c)) m -> ip r = peer_ip (sock c) ->
  exists f, to_peer c flags data = Ok (set_wire c (nic_send (wire c) f)) /\ take 6 f = m /\
    ipv4_packet_valid r (drop 14 f) = Ok true /\ getn (drop 14 f) 12 4 = Ok (ip (wire c)) /\
    reads (ip (wire c)) (ip r) (drop 34 f) (sock c) flags data.
Proof.
  intros Hn Hk Hf Hd Hm Hr Er. exists (frame (wire c) (sock c) (peer_ip (sock c)) m flags data).
  split; [by apply to_peer_routed|]. destruct Hn as (Hi & Hmac & _). assert (address (peer_ip (sock c))) as Hp by apply Hk.
  assert (drop 14 (frame (wire c) (sock c) (peer_ip (sock c)) m flags data) =
    ip_header (ip (wire c)) (20 + tcp_len data) IPV4_PROTOCOL_TCP (peer_ip (sock c)) ++ tcp_segment (ip (wire c)) (sock c) flags data) as E14.
  { apply drop_app_length'. by rewrite ethernet_header_length. }
  change 34%nat with (14 + 20)%nat. rewrite <- drop_drop, E14. assert (is_u16 (20 + tcp_len data)) as Hz by (destruct Hd; unfold is_u16, tcp_len; lia).
  split; [unfold frame, ethernet_header; rewrite <- app_assoc; apply take_app_length'; by rewrite (proj1 Hm)|].
  split; [apply header_accepted; try done; [by right; right|by left]|]. split.
  - destruct (ip_header_bytes (ip (wire c)) (20 + tcp_len data) IPV4_PROTOCOL_TCP (peer_ip (sock c))) as (c0 & c1 & -> & _); [done..|].
    destruct Hi as [Hi _]. destruct (ip (wire c)) as [|i0 [|i1 [|i2 [|i3 [|]]]]]; try done. rewrite <- !app_assoc.
    rewrite (app_assoc [_; _; _; _; _; _; _; _; _; _; _; _]). by rewrite getn_start by (simpl; lia).
  - rewrite Er, drop_app_length' by (by rewrite ip_header_length). by apply segment_reads.
Qed.

(** ** The operations never fail, and keep a connection well formed *)

(** The packet that waits: one that was deleted is no longer waited for. *)
Definition start_ok (k : socket) : Prop :=
  match start_packet k with NullPacket => True | Held d => data_ok d | Freed => state k <> SYN_SENT end.

Definition conn_ok (c : conn) : Prop := net_ok (wire c) /\ socket_ok (sock c) /\ start_ok (sock c).

Definition header_len (g : segment) : Z := Z.shiftr (byte (bytes g) 12) 4 * 4.
Definition flags_of (g : segment) : Z := byte (bytes g) 13.

(** A segment that fits the packet it came in. *)
Definition segment_ok (g : segment) : Prop :=
  Forall is_u8 (bytes g) /\ (20 <= length (bytes g))%nat /\ header_len g <= size g <= Z.of_nat (length (bytes g)) /\ size g < 65536 /\
  address (saddr g) /\ mac_address (eth_src g).

Definition seq_of (g : segment) : Z := switch32 (rd32 (bytes g) 4).
Definition payload_len (g : segment) : Z := size g - header_len g.
Definition payload_of (g : segment) : list Z := slice (bytes g) (header_len g) (payload_len g).

(** The number that is acknowledged: the one behind the segment, which SYN and FIN lengthen by one. *)
Definition next_expected (g : segment) : Z :=
  seq_of g +u (payload_len g + (if has (flags_of g) (Z.lor TCP_FLAG_SYN TCP_FLAG_FIN) then 1 else 0)).

Lemma header_len_range g : Forall is_u8 (bytes g) -> 0 <= header_len g <= 60.
Proof.
  intros Hb. pose proof (byte_u8 (bytes g) 12 Hb) as H. unfold header_len, is_u8 in *. rewrite Z.shiftr_div_pow2 by lia.
  change (2 ^ 4) with 16. Z.div_mod_to_equations. lia.
Qed.

Lemma acknowledge_spec k g : segment_ok g -> acknowledge k g = Ok (set_ack k (next_expected g)).
Proof.
  intros (Hb & Hl & Hs & Hs2 & _). pose proof (header_len_range g Hb). unfold acknowledge. rewrite !get8_ok, get32_ok by lia. run.
  fold (header_len g) (flags_of g) (seq_of g). rewrite (u32_id (size g - header_len g)) by (unfold is_u32; lia). fold (payload_len g).
  unfold next_expected, has. do 2 f_equal. destruct (truthy _); [|by rewrite Z.add_0_r].
  unfold u32. rewrite Zplus_mod_idemp_l. f_equal. lia.
Qed.

Lemma data_ok_nil : data_ok [].
Proof. by split; [|simpl; lia]. Qed.

Lemma respond_spec c g flags : net_ok (wire c) -> socket_ok (sock c) -> segment_ok g -> is_u8 flags ->
  respond c g flags = (n ← send_packet (wire c) (frame (wire c) (sock c) (saddr g) (eth_src g) flags []); Ok (set_wire c n)).
Proof. intros ?? (_ & _ & _ & _ & ? & ?) ?. by apply send_segment_spec. Qed.

Lemma respond_known c g flags : net_ok (wire c) -> socket_ok (sock c) -> segment_ok g -> is_u8 flags -> eth_src g <> null_mac ->
  respond c g flags = Ok (set_wire c (nic_send (wire c) (frame (wire c) (sock c) (saddr g) (eth_src g) flags []))).
Proof.
  intros Hn Hk Hg Hf Hne. rewrite respond_spec by done. unfold frame at 1, ethernet_header. rewrite <- !app_assoc.
  rewrite send_known by (done || apply Hg). run. unfold frame, ethernet_header. by rewrite <- !app_assoc.
Qed.

(** A call that sends something: it only changes the network. *)
Definition sends (c : conn) (r : res conn) : Prop := exists n, r = Ok (set_wire c n) /\ net_ok n /\ ip n = ip (wire c).

Lemma respond_ok c g flags : net_ok (wire c) -> socket_ok (sock c) -> segment_ok g -> is_u8 flags -> sends c (respond c g flags).
Proof.
  intros Hn Hk Hg Hf. rewrite respond_spec by done.
  destruct (send_packet_ok (wire c) (sock c) (saddr g) (eth_src g) flags []) as (n & -> & ? & ?); [done|apply Hg|apply Hg|apply data_ok_nil|].
  by exists n.
Qed.

Lemma get_mac_ok n addr : net_ok n -> exists m, get_mac n addr = Ok m /\ mac_address m.
Proof.
  intros (_ & _ & _ & Hc & Hm). unfold get_mac. rewrite find_mac_spec by done. eexists. split; [done|]. rewrite drop_0.
  assert (Forall (fun e => mac_address e.2) (ring n)) as Hr by (unfold ring; apply Forall_app; split; [by apply Forall_drop|by apply Forall_take]).
  induction Hr as [|e l He _ IH]; simpl; [split; [done|unfold null_mac; u8s]|]. by case_bool_decide.
Qed.

Lemma to_peer_ok c flags data : net_ok (wire c) -> socket_ok (sock c) -> is_u8 flags -> data_ok data -> sends c (to_peer c flags data).
Proof.
  intros Hn Hk Hf Hd. unfold to_peer. destruct (get_mac_ok (wire c) (peer_ip (sock c)) Hn) as (m & -> & Hm). run.
  assert (address (peer_ip (sock c))) as Hp by apply Hk. rewrite send_segment_spec by done.
  destruct (send_packet_ok (wire c) (sock c) (peer_ip (sock c)) m flags data) as (n & -> & ? & ?); [done..|]. by exists n.
Qed.

Definition fin_flags : Z := Z.lor TCP_FLAG_FIN TCP_FLAG_ACK.

(** Closing is a segment with FIN and ACK, which takes a number. *)
Lemma send_fin_ack_spec c : net_ok (wire c) -> socket_ok (sock c) ->
  send_fin_ack c = (c' ← to_peer c fin_flags [];
    Ok (set_sock c' (set_state (set_seq (sock c) (seq_num (sock c) +u 1)) FIN_WAIT_1))).
Proof.
  intros Hn Hk. unfold send_fin_ack, to_peer. destruct (get_mac_ok (wire c) (peer_ip (sock c)) Hn) as (m & -> & Hm). run.
  assert (address (peer_ip (sock c))) as Hp by apply Hk. pose proof Hn as (Hi & Hmac & _).
  rewrite send_segment_spec by (done || apply data_ok_nil).
  change tcp_header_size with 20. rewrite ipv4_create_spec by (done || lia). run. change (Z.to_nat 20) with 20%nat.
  rewrite <- (app_nil_r (replicate 20 0)). change 0 with (Z.of_nat (length (@nil Z))) at 2.
  rewrite tcp_write_spec by (done || simpl; lia). run. rewrite <- app_assoc. cbn [wire set_sock]. change (tcp_len []) with 20.
  fold (frame (wire c) (sock c) (peer_ip (sock c)) m fin_flags []).
  unfold frame, tcp_len. by destruct (send_packet (wire c) _).
Qed.

Lemma set_state_ok k st : socket_ok k -> socket_ok (set_state k st).
Proof. done. Qed.
Lemma set_seq_ok k q : socket_ok k -> socket_ok (set_seq k (u32 q)).
Proof. intros (Hp & Hpp & Ha & _ & Hn). exact (conj Hp (conj Hpp (conj Ha (conj (u32_range q) Hn)))). Qed.
Lemma set_ack_ok k q : socket_ok k -> socket_ok (set_ack k (u32 q)).
Proof. intros (Hp & Hpp & Ha & Hn & _). exact (conj Hp (conj Hpp (conj Ha (conj Hn (u32_range q))))). Qed.
Lemma set_peer_ok k a : socket_ok k -> address a -> socket_ok (set_peer_ip k a).
Proof. by intros (? & ? & _ & ? & ?) ?. Qed.

#[local] Hint Resolve set_state_ok set_seq_ok set_ack_ok set_peer_ok data_ok_nil : brebos.

(** ** The states a connection goes through *)

Definition may_step (a b : State) : bool :=
  match a, b with
  | CLOSED, (CLOSED | SYN_SENT) => true
  | SYN_SENT, (SYN_SENT | ESTABLISHED | CLOSED) => true
  | ESTABLISHED, (ESTABLISHED | CLOSE_WAIT | CLOSED) => true
  | CLOSE_WAIT, (CLOSE_WAIT | CLOSED) => true
  | FIN_WAIT_1, (FIN_WAIT_1 | CLOSED) => true
  | (CLOSED | SYN_SENT | ESTABLISHED | CLOSE_WAIT), FIN_WAIT_1 => true
  | _, _ => false
  end.

Definition live (st : State) : Prop := st ∈ [CLOSED; SYN_SENT; ESTABLISHED; CLOSE_WAIT; FIN_WAIT_1].

(** A call that succeeds, in a step between the states of the table; the port stays. *)
Definition moves (k k' : socket) : Prop := may_step (state k) (state k') = true /\ port k' = port k.
Definition progresses (c : conn) (r : res conn) : Prop := exists c', r = Ok c' /\ conn_ok c' /\ moves (sock c) (sock c').

Lemma may_stay st : live st -> may_step st st = true.
Proof. intros H. unfold live in H. rewrite !elem_of_cons in H. destruct H as [->|[->|[->|[->|[->|H]]]]]; [done..|]. by inversion H. Qed.

Lemma may_step_live a b : may_step a b = true -> live b.
Proof. unfold live. destruct a, b; try done; intros _; rewrite !elem_of_cons; tauto. Qed.

Lemma start_ok_state k st : start_ok k -> st <> SYN_SENT -> start_ok (set_state k st).
Proof. unfold start_ok. cbn. by destruct (start_packet k). Qed.

(** A buffer that can be read. *)
Definition readable (c : conn) (s : source) : Prop := exists d, packet_bytes (source_packet c s) = Ok d /\ data_ok d.

Lemma send_source_open c s : conn_ok c -> readable c s -> state (sock c) <> CLOSED -> (s = Start -> state (sock c) <> SYN_SENT) ->
  exists c', send_source c s = Ok c' /\ conn_ok c' /\ state (sock c') = state (sock c) /\ port (sock c') = port (sock c).
Proof.
  intros (Hn & Hk & Hs) (d & Hd & Hok) Hl Hst. unfold send_source, tcp_send_data. rewrite bool_decide_eq_false_2 by done. rewrite Hd. run.
  destruct (to_peer_ok c (Z.lor TCP_FLAG_PSH TCP_FLAG_ACK) d) as (n & E & Hn' & _); [done..|].
  rewrite E. run. destruct s as [data|]; eexists; (split; [done|]); (split; [|done]); (split; [done|split; [by apply set_seq_ok|]]); [done|].
  unfold start_ok in *. cbn in *. destruct (start_packet (sock c)); cbn; try done; by apply Hst.
Qed.

Lemma send_source_closed c s : conn_ok c -> readable c s -> state (sock c) = CLOSED -> progresses c (send_source c s).
Proof.
  intros (Hn & Hk & Hs) (d & Hd & Hok) E. unfold send_source. rewrite bool_decide_eq_true_2 by done.
  assert (forall st, start_ok (set_state (set_start (sock c) (source_packet c s)) st)) as Hst.
  { intros st. unfold start_ok. cbn. destruct (source_packet c s); cbn in Hd; [done|by injection Hd as ->|done]. }
  case_bool_decide.
  - eexists. split; [done|]. split; [split; [done|split; [done|exact (Hst (state (sock c)))]]|]. split; [|done]. cbn. by rewrite E.
  - unfold initialize, send_sync.
    destruct (to_peer_ok (set_sock (set_sock c (set_start (sock c) (source_packet c s))) (set_state (set_start (sock c) (source_packet c s)) SYN_SENT)) TCP_FLAG_SYN [])
      as (n & E' & Hn' & _); [done|done|done|apply data_ok_nil|]. cbn [sock set_sock] in *. rewrite E'.
    eexists. split; [done|]. split; [split; [done|split; [done|exact (Hst SYN_SENT)]]|]. split; [|done]. cbn. by rewrite E.
Qed.

Lemma send_data_ok c data : conn_ok c -> data_ok data -> live (state (sock c)) -> progresses c (send_data c data).
Proof.
  intros Hc Hd Hl. assert (readable c (Given data)) as Hr by by exists data. unfold send_data. destruct (decide (state (sock c) = CLOSED)) as [E|E].
  - by apply send_source_closed.
  - destruct (send_source_open c (Given data) Hc Hr E) as (c' & -> & ? & Hst & Hpt); [done|]. exists c'. split; [done|]. split; [done|]. split; [|done]. rewrite Hst. by apply may_stay.
Qed.

Lemma closed_ok c r : conn_ok c -> conn_ok (close c r) /\ state (sock (close c r)) = CLOSED /\ port (sock (close c r)) = port (sock c).
Proof.
  intros (Hn & Hk & Hs). assert (start_ok (set_state (sock c) CLOSED)) as Hs' by by apply start_ok_state.
  unfold close. cbn [listener sock set_sock set_state]. destruct (listener (sock c)), r; done.
Qed.

Lemma may_close st : live st -> may_step st CLOSED = true.
Proof. intros H. unfold live in H. rewrite !elem_of_cons in H. destruct H as [->|[->|[->|[->|[->|H]]]]]; [done..|]. by inversion H. Qed.

Lemma progress_close c c1 r : live (state (sock c)) -> conn_ok c1 -> port (sock c1) = port (sock c) -> progresses c (Ok (close c1 r)).
Proof.
  intros Hl Hc Hp. destruct (closed_ok c1 r Hc) as (? & E & Ep). eexists. split; [done|]. split; [done|]. split; [|by rewrite Ep].
  rewrite E. by apply may_close.
Qed.

(** The next test of a handler. *)
Ltac branch E := match goal with |- progresses _ (if ?b then _ else _) => destruct b eqn:E end.

(** Every segment that fits its packet is handled. *)
Lemma handle_packet_ok c g : conn_ok c -> segment_ok g -> live (state (sock c)) -> progresses c (handle_packet c g).
Proof.
  intros Hc Hg Hl. pose proof Hc as (Hn & Hk & Hs). pose proof Hg as (Hb & Hlen & Hsz & Hsz2 & _). pose proof (header_len_range g Hb) as Hh.
  unfold handle_packet. rewrite !get8_ok by lia. run. fold (flags_of g) (header_len g). rewrite !acknowledge_spec by done.
  branch E0.
  { destruct (respond_ok c g TCP_FLAG_RST) as (n & -> & ? & _); [done..|]. eexists. split; [done|]. split; [done|]. split; [|done]. by apply may_stay. }
  branch E1.
  { apply andb_true_iff in E1 as [_ E1]. apply bool_decide_eq_true in E1. cbn [sock set_sock]. run.
    set (k := set_ack (set_seq (sock c) (seq_num (sock c) +u 1)) (next_expected g)).
    assert (socket_ok k) as Hk' by (apply set_ack_ok, set_seq_ok, Hk).
    destruct (respond_ok (set_sock (set_sock c (set_seq (sock c) (seq_num (sock c) +u 1))) k) g TCP_FLAG_ACK) as (n & -> & ? & _); [done..|]. run.
    destruct (send_source_open (mkConn n (set_state k ESTABLISHED) (events c)) Start) as (c' & E & ? & Hst & Hpt).
    { split; [done|]. split; [done|]. by apply start_ok_state. }
    { unfold start_ok in Hs. unfold readable. cbn. destruct (start_packet (sock c)) as [|d|]; [exists []|exists d|done]; [|done]. split; [done|apply data_ok_nil]. }
    { done. }
    { done. }
    exists c'. split; [exact E|]. split; [done|]. split; [by rewrite E1, Hst|done]. }
  branch E2; [by apply progress_close|].
  branch E3.
  { run. assert (socket_ok (set_ack (sock c) (next_expected g))) as Hk' by by apply set_ack_ok.
    destruct (respond_ok (set_sock c (set_ack (sock c) (next_expected g))) g TCP_FLAG_ACK) as (n & -> & ? & _); [done..|]. run.
    by apply progress_close. }
  branch E4; [by apply progress_close|].
  branch E5.
  { apply andb_true_iff in E5 as [_ E5]. apply bool_decide_eq_true in E5. rewrite (u32_id (size g - header_len g)) by (unfold is_u32; lia).
    branch E6; [|by eexists; split; [done|]; split; [done|]; split; [apply may_stay|]]. run.
    assert (socket_ok (set_ack (sock c) (next_expected g))) as Hk' by by apply set_ack_ok.
    match goal with |- context [respond ?c g ?f] => destruct (respond_ok c g f) as (n & -> & ? & _); [done|done|done|by destruct (has _ TCP_FLAG_FIN)|] end. run.
    pose proof (Z.mod_le (size g - header_len g) 65536 ltac:(lia) ltac:(lia)). rewrite getn_ok by (unfold u16; lia). run.
    assert (forall st, st <> SYN_SENT -> start_ok (set_state (set_ack (sock c) (next_expected g)) st)) as Hss by (intros; by apply start_ok_state).
    branch E7; (eexists; split; [done|]; destruct (has _ TCP_FLAG_FIN); (split; [split; [done|split; [done|by (exact Hs || apply Hss)]]|split; [|done]]); cbn; by rewrite E5). }
  destruct (has _ TCP_FLAG_RST); run; [by apply progress_close|].
  destruct (respond_ok c g TCP_FLAG_RST) as (n & -> & ? & _); [done..|]. run. by apply progress_close.
Qed.

Lemma send_fin_ack_ok c : conn_ok c -> live (state (sock c)) -> progresses c (send_fin_ack c).
Proof.
  intros (Hn & Hk & Hs) Hl. rewrite send_fin_ack_spec by done. destruct (to_peer_ok c fin_flags []) as (n & -> & ? & _); [done|done|done|apply data_ok_nil|].
  run. eexists. split; [done|]. split; [split; [done|split; [by apply set_state_ok, set_seq_ok|by apply start_ok_state]]|]. split; [|done]. cbn.
  unfold live in Hl. rewrite !elem_of_cons in Hl. destruct Hl as [->|[->|[->|[->|[->|Hl]]]]]; [done..|]. by inversion Hl.
Qed.

(** The socket is closed and its first packet has not been sent yet: it waits for the address of its peer. *)
Definition awaits_address (c : conn) : Prop := state (sock c) = CLOSED /\ start_packet (sock c) <> Freed.

Lemma resolved_ok c addr : conn_ok c -> address addr -> awaits_address c -> progresses c (on_hostname_resolved c addr).
Proof.
  intros (Hn & Hk & Hs) Ha [Hc Hf]. unfold on_hostname_resolved.
  apply (send_source_closed (set_sock c (set_peer_ip (sock c) addr))); [split; [done|split; [by apply set_peer_ok|done]]| |done].
  unfold readable, start_ok in *. cbn. destruct (start_packet (sock c)) as [|d|]; [exists []|exists d|done]; [|done]. split; [done|apply data_ok_nil].
Qed.

(** What can happen to a connection: the program sends a buffer of its own, closes or listens, the name is resolved while the
    socket waits for its address, a segment comes in. *)
Inductive step : conn -> conn -> Prop :=
| step_send c data c' : data_ok data -> send_data c data = Ok c' -> step c c'
| step_resolved c addr c' : address addr -> awaits_address c -> on_hostname_resolved c addr = Ok c' -> step c c'
| step_fin c c' : send_fin_ack c = Ok c' -> step c c'
| step_listen c b : step c (set_sock c (set_listener (sock c) b))
| step_receive c g c' : segment_ok g -> handle_packet c g = Ok c' -> step c c'.

Lemma step_ok c c' : step c c' -> conn_ok c -> live (state (sock c)) -> conn_ok c' /\ moves (sock c) (sock c').
Proof.
  intros Hst Hc Hl. assert (forall r, r = Ok c' -> progresses c r -> conn_ok c' /\ moves (sock c) (sock c')) as Hp.
  { intros r -> (c1 & [= ->] & ? & ?). done. }
  destruct Hst as [c data c' Hd E|c addr c' Ha Hw E|c c' E|c b|c g c' Hg E].
  - apply (Hp _ E). by apply send_data_ok.
  - apply (Hp _ E). by apply resolved_ok.
  - apply (Hp _ E). by apply send_fin_ack_ok.
  - split; [done|]. split; [by apply may_stay|done].
  - apply (Hp _ E). by apply handle_packet_ok.
Qed.

Lemma steps_ok c c' : rtc step c c' -> conn_ok c -> live (state (sock c)) -> conn_ok c' /\ live (state (sock c')).
Proof.
  induction 1 as [c|c c1 c' Hst _ IH]; intros Hc Hl; [done|]. destruct (step_ok c c1 Hst Hc Hl) as [Hc1 [Hm _]]. apply IH; [done|].
  by eapply may_step_live.
Qed.

(** Claim C8: Safety of a connection.  From a closed socket, let the program send buffers that it gives away (of at most 65495 bytes), close and
    listen, let segments come in whose header and size fit the packet, in any order, and let the name be resolved only while the socket is
    closed with its first packet unsent (a second resolution, which two early sends cause, frees the packet that the
    handshake needs, see [second_resolution_dangles]).  Then the connection is in one of the five states
    CLOSED, SYN_SENT, ESTABLISHED, CLOSE_WAIT and FIN_WAIT_1 with its numbers in range and never sends from a deleted buffer; every
    further such operation succeeds, and the state moves along the table. *)
Theorem connection_is_safe c0 c : conn_ok c0 -> state (sock c0) = CLOSED -> rtc step c0 c ->
  conn_ok c /\ live (state (sock c)) /\ (state (sock c) = SYN_SENT -> start_packet (sock c) <> Freed) /\
  (forall g, segment_ok g -> progresses c (handle_packet c g)) /\ (forall data, data_ok data -> progresses c (send_data c data)) /\
  (forall addr, address addr -> awaits_address c -> progresses c (on_hostname_resolved c addr)) /\ progresses c (send_fin_ack c).
Proof.
  intros H0 Hst Hr. destruct (steps_ok c0 c Hr H0) as [Hc Hl]; [rewrite Hst; by apply may_step_live with CLOSED|].
  split_and!; [done|done| |intros; by apply handle_packet_ok|intros; by apply send_data_ok|intros; by apply resolved_ok|by apply send_fin_ack_ok].
  destruct Hc as (_ & _ & Hs). unfold start_ok in Hs. intros E Hf. rewrite Hf in Hs. done.
Qed.

(** ** Opening *)

(** A segment of the peer. *)
Definition from_peer (c : conn) (g : segment) : Prop := segment_ok g /\ saddr g = peer_ip (sock c) /\ eth_src g <> null_mac.

Definition plain_flags (g : segment) : Prop := has (flags_of g) (Z.lor (Z.lor TCP_FLAG_NS TCP_FLAG_CWR) TCP_FLAG_URG) = false.

(** The answer of a socket to its peer. *)
Definition reply (c : conn) (k : socket) (g : segment) (flags : Z) : list Z :=
  frame (wire c) k (peer_ip (sock c)) (eth_src g) flags [].

Lemma handle_syn c g : conn_ok c -> from_peer c g -> plain_flags g -> has (flags_of g) TCP_FLAG_SYN = true -> state (sock c) = SYN_SENT ->
  let k := set_ack (set_seq (sock c) (seq_num (sock c) +u 1)) (next_expected g) in
  handle_packet c g =
    send_source (mkConn (nic_send (wire c) (reply c k g TCP_FLAG_ACK)) (set_state k ESTABLISHED) (events c)) Start.
Proof.
  intros (Hn & Hk & Hs) (Hg & Ha & Hne) Hpl Hsyn Hst k. pose proof Hg as (Hb & Hlen & _). unfold handle_packet. rewrite !get8_ok by lia. run.
  fold (flags_of g). unfold plain_flags in Hpl. rewrite Hpl, Hsyn, acknowledge_spec, Hst by done.
  assert (truthy (flags_of g) = true) as ->.
  { unfold has, truthy in *. destruct (Z.eqb_spec (flags_of g) 0) as [E|]; [|done]. rewrite E in Hsyn. done. }
  rewrite bool_decide_eq_true_2 by done. cbn [andb truthy TCP_FLAG_ACK Z.eqb negb]. run.
  rewrite respond_known; [|done|by apply set_ack_ok, set_seq_ok|done|done|done]. run. rewrite Ha. done.
Qed.


(** ** Data and closing *)

Lemma truthy_true z : z <> 0 -> truthy z = true.
Proof. intros H. unfold truthy. by rewrite (proj2 (Z.eqb_neq z 0)). Qed.

(** The state decides the branch of a segment without the flags that are refused. *)
Lemma handle_established c g : conn_ok c -> from_peer c g -> plain_flags g -> state (sock c) = ESTABLISHED ->
  has (flags_of g) TCP_FLAG_ACK = true -> 0 < payload_len g \/ has (flags_of g) TCP_FLAG_FIN = true ->
  let fin := has (flags_of g) TCP_FLAG_FIN in
  let k := set_ack (sock c) (next_expected g) in
  handle_packet c g =
    Ok (mkConn (nic_send (wire c) (reply c k g (if fin then Z.lor TCP_FLAG_ACK TCP_FLAG_FIN else TCP_FLAG_ACK)))
      (if fin then set_state k CLOSE_WAIT else k)
      (events c ++ (if listener (sock c) && truthy (payload_len g) then [Data (payload_of g)] else []))).
Proof.
  intros (Hn & Hk & Hs) (Hg & Ha & Hne) Hpl Hst Hack Hfin fin k. pose proof Hg as (Hb & Hlen & Hsz & Hsz2 & _).
  pose proof (header_len_range g Hb) as Hh. unfold handle_packet. rewrite !get8_ok by lia. run.
  fold (flags_of g) (header_len g). unfold plain_flags in Hpl. rewrite Hpl, !acknowledge_spec, Hst, Hack by done.
  rewrite (bool_decide_eq_true_2 (ESTABLISHED = ESTABLISHED)), !bool_decide_eq_false_2, !andb_false_r by done. cbn [andb].
  rewrite (u32_id (size g - header_len g)) by (unfold is_u32; lia). fold (payload_len g) fin.
  assert (truthy (payload_len g) || fin = true) as -> by (destruct Hfin as [?|Hf]; [by rewrite truthy_true by lia|unfold fin; rewrite Hf; apply orb_true_r]). run.
  rewrite respond_known; [|done|by apply set_ack_ok|done|by destruct fin|done]. run. rewrite (u16_id (payload_len g)) by (unfold is_u16, payload_len; lia).
  rewrite getn_ok by (unfold payload_len; lia). run. rewrite Ha. destruct fin; cbn [sock set_sock set_wire set_state set_ack listener];
    destruct (_ && _); cbn; rewrite ?app_nil_r; done.
Qed.

(** In an established connection, what the peer sends is acknowledged up to its last byte, and given to the listener. *)
Theorem data_is_acknowledged c g : conn_ok c -> from_peer c g -> plain_flags g -> state (sock c) = ESTABLISHED ->
  has (flags_of g) TCP_FLAG_ACK = true -> has (flags_of g) TCP_FLAG_FIN = false -> has (flags_of g) TCP_FLAG_SYN = false ->
  0 < payload_len g -> listener (sock c) = true ->
  let k := set_ack (sock c) (seq_of g +u payload_len g) in
  handle_packet c g = Ok (mkConn (nic_send (wire c) (reply c k g TCP_FLAG_ACK)) k (events c ++ [Data (payload_of g)])).
Proof.
  intros Hc Hg Hpl Hst Hack Hfin Hsyn Hp Hl k. rewrite handle_established by (done || by left). cbv zeta. rewrite Hfin, Hl, truthy_true by lia. cbn [andb].
  assert (next_expected g = seq_of g +u payload_len g) as ->; [|done]. unfold next_expected.
  assert (has (flags_of g) (Z.lor TCP_FLAG_SYN TCP_FLAG_FIN) = false) as ->; [|by rewrite Z.add_0_r].
  unfold has, truthy in *. rewrite Z.land_lor_distr_r. destruct (Z.eqb_spec (Z.land (flags_of g) TCP_FLAG_SYN) 0) as [->|]; [|done].
  by destruct (Z.eqb_spec (Z.land (flags_of g) TCP_FLAG_FIN) 0) as [->|].
Qed.

(** A segment that arrives twice is delivered twice: the socket does not compare the number with the one it expects. *)
Theorem duplicate_is_delivered c g : conn_ok c -> from_peer c g -> plain_flags g -> state (sock c) = ESTABLISHED ->
  has (flags_of g) TCP_FLAG_ACK = true -> has (flags_of g) TCP_FLAG_FIN = false -> 0 < payload_len g -> listener (sock c) = true ->
  exists c1 c2, handle_packet c g = Ok c1 /\ handle_packet c1 g = Ok c2 /\ ack_num (sock c1) = ack_num (sock c2) /\
    events c2 = events c ++ [Data (payload_of g); Data (payload_of g)].
Proof.
  intros Hc Hg Hpl Hst Hack Hfin Hp Hl. eexists _, _. split; [apply handle_established; try done; by left|].
  rewrite Hfin, Hl, truthy_true by lia. cbn [andb]. split; [apply handle_established; try done; [|by left]|].
  - destruct Hc as (? & ? & ?). split; [done|]. split; [by apply set_ack_ok|done].
  - rewrite Hfin, truthy_true by lia. cbn. rewrite Hl. split; [done|]. cbn. by rewrite <- app_assoc.
Qed.

(** The peer closes: its FIN is acknowledged with a FIN of our own, which the peer's last acknowledgement ends; the
    listener has the data that came with the FIN before it hears of the end. *)
Theorem peer_closes c g last_ack : conn_ok c -> from_peer c g -> plain_flags g -> state (sock c) = ESTABLISHED ->
  has (flags_of g) TCP_FLAG_ACK = true -> has (flags_of g) TCP_FLAG_FIN = true -> listener (sock c) = true ->
  segment_ok last_ack -> flags_of last_ack = TCP_FLAG_ACK ->
  let k := set_ack (sock c) (seq_of g +u (payload_len g + 1)) in
  let sent_data := if truthy (payload_len g) then [Data (payload_of g)] else [] in
  let n := nic_send (wire c) (reply c k g (Z.lor TCP_FLAG_ACK TCP_FLAG_FIN)) in
  handle_packet c g = Ok (mkConn n (set_state k CLOSE_WAIT) (events c ++ sent_data)) /\
  handle_packet (mkConn n (set_state k CLOSE_WAIT) (events c ++ sent_data)) last_ack =
    Ok (mkConn n (set_state k CLOSED) (events c ++ sent_data ++ [Terminated NoError])).
Proof.
  intros Hc Hg Hpl Hst Hack Hfin Hl Hg2 Hf2 k sent_data n. split.
  - rewrite handle_established by (done || by right). rewrite Hfin, Hl. cbn [andb].
    assert (next_expected g = seq_of g +u (payload_len g + 1)) as ->; [|done]. unfold next_expected.
    assert (has (flags_of g) (Z.lor TCP_FLAG_SYN TCP_FLAG_FIN) = true) as ->; [|done].
    unfold has, truthy in *. rewrite Z.land_lor_distr_r. apply negb_true_iff, Z.eqb_neq. intros E. apply Z.lor_eq_0_iff in E as [_ E].
    by rewrite E in Hfin.
  - pose proof Hg2 as (_ & Hlen & _). unfold handle_packet. rewrite !get8_ok by lia. run. fold (flags_of last_ack). rewrite Hf2. cbn.
    unfold close. cbn. rewrite Hl. unfold tell. cbn. by rewrite <- app_assoc.
Qed.

(** We close: the FIN takes a number, and the peer's FIN and ACK are acknowledged and end the connection. *)
Theorem we_close c m g : conn_ok c -> state (sock c) = ESTABLISHED -> mac_address m -> routed (wire c) (peer_ip (sock c)) m ->
  from_peer c g -> plain_flags g -> has (flags_of g) TCP_FLAG_ACK = true -> has (flags_of g) TCP_FLAG_FIN = true ->
  has (flags_of g) TCP_FLAG_SYN = false -> listener (sock c) = true ->
  let k := set_state (set_seq (sock c) (seq_num (sock c) +u 1)) FIN_WAIT_1 in
  let k' := set_ack k (next_expected g) in
  exists c1, send_fin_ack c = Ok c1 /\ sock c1 = k /\ sent (wire c1) = sent (wire c) ++ [frame (wire c) (sock c) (peer_ip (sock c)) m fin_flags []] /\
    handle_packet c1 g = Ok (mkConn (nic_send (wire c1) (reply c k' g TCP_FLAG_ACK)) (set_state k' CLOSED) (events c ++ [Terminated NoError])).
Proof.
  intros (Hn & Hk & Hs) Hst Hm Hr (Hg & Ha & Hne) Hpl Hack Hfin Hsyn Hl k k'. rewrite send_fin_ack_spec by done.
  rewrite (to_peer_routed _ _ _ m) by (done || apply data_ok_nil). run. eexists. split; [done|]. split; [done|]. split; [done|].
  pose proof Hg as (Hb & Hlen & _). unfold handle_packet. rewrite !get8_ok by lia. run. fold (flags_of g). unfold plain_flags in Hpl.
  rewrite Hpl, Hsyn, Hack, Hfin, !acknowledge_spec by done. cbn [sock state set_state set_sock andb].
  rewrite (bool_decide_eq_false_2 (FIN_WAIT_1 = CLOSE_WAIT)), (bool_decide_eq_true_2 (FIN_WAIT_1 = FIN_WAIT_1)), andb_false_r by done. run.
  rewrite respond_known; [|done|by apply set_ack_ok, set_state_ok, set_seq_ok|done|done|done]. run. rewrite Ha. unfold close. cbn. by rewrite Hl.
Qed.

(** Decide the tests on flags and states that are known. *)
Ltac known t := match eval vm_compute in t with true => change t with true | false => change t with false end.
Ltac tests := repeat match goal with
  | |- context [has ?a ?b] => known constr:(has a b)
  | |- context [Z.eqb ?a ?b] => known constr:(Z.eqb a b)
  | |- context [@bool_decide (@eq State ?a ?b) ?d] => known constr:(@bool_decide (@eq State a b) d)
  end; cbn [andb orb].

(** Closing with a peer that acknowledges our FIN before it sends its own, as most do: the acknowledgement is taken for an
    unknown packet, answered with a reset, and the listener is told of an error. *)
Theorem early_ack_resets c g : conn_ok c -> state (sock c) = FIN_WAIT_1 -> from_peer c g -> flags_of g = TCP_FLAG_ACK -> listener (sock c) = true ->
  handle_packet c g =
    Ok (mkConn (nic_send (wire c) (reply c (sock c) g TCP_FLAG_RST)) (set_state (sock c) CLOSED)
      (events c ++ [Terminated (UnknownPacket TCP_FLAG_ACK)])).
Proof.
  intros (Hn & Hk & Hs) Hst (Hg & Ha & Hne) Hf Hl. pose proof Hg as (Hb & Hlen & _). unfold handle_packet. rewrite !get8_ok by lia. run.
  fold (flags_of g). rewrite Hf, Hst. tests. rewrite respond_known by done. run. rewrite Ha. unfold close. cbn. by rewrite Hl.
Qed.

(** A reset that carries an acknowledgement does nothing to an established connection. *)
Theorem reset_is_ignored c g : segment_ok g -> state (sock c) = ESTABLISHED -> flags_of g = Z.lor TCP_FLAG_RST TCP_FLAG_ACK ->
  payload_len g = 0 -> handle_packet c g = Ok c.
Proof.
  intros Hg Hst Hf Hp. pose proof Hg as (Hb & Hlen & Hsz & Hsz2 & _). pose proof (header_len_range g Hb). unfold handle_packet.
  rewrite !get8_ok by lia. run. fold (flags_of g) (header_len g). fold (payload_len g). rewrite Hf, Hst, Hp. by tests.
Qed.

(** ** Ports *)

(** The port that the [i]-th read of the counter gives. *)
Definition draw (n : net) (i : nat) : Z :=
  u16 (49152 + Z.lxor (Z.land (tsc n i) 0xFFFFFFFF) (u32 (Z.shiftl (byte (mac n) 0) 16)) mod (65535 - 49152 + 1)).

Fixpoint reads_of (i : nat) (n : net) : net := match i with O => n | S i => reads_of i (next_tsc n) end.

Lemma random_port_spec n : mac_address (mac n) -> random_ephemeral_port n = Ok (draw n (tsc_reads n), next_tsc n).
Proof. intros [Hm _]. unfold random_ephemeral_port, generate_random_id32. rewrite get8_ok by lia. done. Qed.

Lemma draw_range n i : 49152 <= draw n i <= 65535.
Proof.
  unfold draw. change (65535 - 49152 + 1) with 16384.
  match goal with |- context [?x mod 16384] => pose proof (Z.mod_pos_bound x 16384 ltac:(lia)) end. rewrite u16_id by (unfold is_u16; lia). lia.
Qed.

Lemma port_used_none l p : port_used l p = None <-> Forall (fun k => port k <> p) l.
Proof.
  induction l as [|k l IH]; cbn [port_used]; [done|]. rewrite Forall_cons. destruct (Z.eqb_spec (port k) p); [by split; [|intros []]|].
  destruct (port_used l p); [split; [done|]; intros [_ H]; by apply IH in H|]. split; [|done]. intros _. split; [done|]. by apply IH.
Qed.

Lemma port_used_some l p i : port_used l p = Some i ->
  exists k, l !! i = Some k /\ port k = p /\ forall j k', (j < i)%nat -> l !! j = Some k' -> port k' <> p.
Proof.
  revert i. induction l as [|k l IH]; intros i; cbn [port_used]; [done|]. destruct (Z.eqb_spec (port k) p).
  - intros [= <-]. exists k. split; [done|]. split; [done|]. lia.
  - destruct (port_used l p) as [i'|]; [|done]. intros [= <-]. destruct (IH i' eq_refl) as (k1 & ? & ? & Hmin). exists k1. split; [done|]. split; [done|].
    intros [|j] k' Hj Hk; [by simplify_eq/=|]. by apply (Hmin j); [lia|].
Qed.

(** The port that the loop settles on is free, and the loop ends as soon as a free one is drawn. *)
Lemma choose_port_free fuel : forall n l p p' n', mac_address (mac n) -> 49152 <= p <= 65535 -> choose_port fuel n l p = Ok (p', n') ->
  port_used l p' = None /\ 49152 <= p' <= 65535 /\ exists j, n' = reads_of j n.
Proof.
  induction fuel as [|fuel IH]; intros n l p p' n' Hm Hp E; cbn [choose_port] in E; destruct (port_used l p) eqn:Eu;
    try done; try (simplify_eq; split; [done|]; split; [done|]; by exists 0%nat).
  rewrite random_port_spec in E by done. run_in E. destruct (IH (next_tsc n) l _ p' n' Hm (draw_range _ _) E) as (? & ? & j & ->).
  split; [done|]. split; [done|]. by exists (S j).
Qed.

Lemma choose_port_ends fuel : forall n l p, mac_address (mac n) ->
  (exists j, (j < fuel)%nat /\ port_used l (draw n (tsc_reads n + j)) = None) -> exists p' n', choose_port fuel n l p = Ok (p', n').
Proof.
  induction fuel as [|fuel IH]; intros n l p Hm (j & Hj & Hf); [lia|]. cbn [choose_port]. destruct (port_used l p); [|by eexists _, _].
  rewrite random_port_spec by done. run. destruct j as [|j].
  - rewrite Nat.add_0_r in Hf. destruct fuel; cbn [choose_port]; rewrite Hf; by eexists _, _.
  - apply IH; [done|]. exists j. split; [lia|]. cbn. rewrite <- Hf. do 2 f_equal. lia.
Qed.

Definition distinct_ports (w : stack) : Prop := NoDup (port <$> sockets w).

Lemma reads_of_keeps j n : mac (reads_of j n) = mac n /\ ip (reads_of j n) = ip n /\ sent (reads_of j n) = sent n /\
  (net_ok n -> net_ok (reads_of j n)).
Proof. revert n. induction j as [|j IH]; intros n; [done|]. cbn. destruct (IH (next_tsc n)) as (-> & -> & -> & H). done. Qed.

Lemma free_port l p : port_used l p = None -> p ∉ (port <$> l).
Proof. intros H. apply port_used_none in H. rewrite list_elem_of_fmap. intros (k & -> & Hk). by eapply Forall_forall in H. Qed.

Lemma port_used_app l k : port_used l (port k) = None -> port_used (l ++ [k]) (port k) = Some (length l).
Proof.
  intros H. apply port_used_none in H. induction H as [|k' l Hk _ IH]; cbn; [by rewrite Z.eqb_refl|]. rewrite IH. by rewrite (proj2 (Z.eqb_neq _ _)).
Qed.

(** What the constructor leaves: a closed socket at the end of the list, with a port of its own. *)
Lemma new_socket_spec fuel w addr pp w' : mac_address (mac (net_of w)) -> new_socket fuel w addr pp = Ok w' ->
  exists k j, w' = mkStack (reads_of j (net_of w)) (sockets w ++ [k]) (log w) /\ state k = CLOSED /\ peer_ip k = addr /\ peer_port k = pp /\
    49152 <= port k <= 65535 /\ port_used (sockets w) (port k) = None /\ is_u32 (seq_num k) /\ ack_num k = 0 /\ start_packet k = NullPacket.
Proof.
  intros Hm E. unfold new_socket in E. rewrite random_port_spec in E by done. run_in E.
  unfold generate_random_id32 in E. cbn [mac next_tsc] in E. rewrite get8_ok in E by (destruct Hm; lia). run_in E. cbv iota zeta in E.
  match type of E with context [choose_port fuel ?n ?l ?p] => destruct (choose_port fuel n l p) as [[p' n']| | |] eqn:Ec; try done end. run_in E.
  injection E as <-. apply choose_port_free in Ec as (Hf & Hp & j & ->); [|done|apply draw_range].
  eexists _, (S (S j)). split; [done|]. cbn. repeat (split; [done|]). split; [|done].
  unfold is_u32. match goal with |- context [Z.lxor ?a ?b] => assert (0 <= a < 2 ^ 32 /\ 0 <= b < 2 ^ 32) as [Ha Hb] end.
  { split; [|apply u32_range]. change 0xFFFFFFFF with (Z.ones 32). rewrite Z.land_ones by lia. apply Z.mod_pos_bound. lia. }
  assert (0 <= Z.lxor (Z.land (tsc (net_of w) (S (tsc_reads (net_of w)))) 4294967295) (u32 (byte (mac (net_of w)) 0 ≪ 16))) as H0 by by apply Z.lxor_nonneg; lia.
  split; [done|]. change 4294967296 with (2 ^ 32). apply Z.log2_lt_cancel. eapply Z.le_lt_trans; [by apply Z.log2_lxor; lia|].
  assert (forall x, 0 <= x < 2 ^ 32 -> Z.log2 x < 32) as Hlog.
  { intros x Hx. destruct (decide (x = 0)) as [->|]; [done|]. apply Z.log2_lt_pow2; lia. }
  rewrite Z.log2_pow2 by lia. apply Z.max_lub_lt; by apply Hlog.
Qed.

(** ** All the sockets *)

Definition stack_ok (w : stack) : Prop :=
  net_ok (net_of w) /\ distinct_ports w /\ Forall (fun k => socket_ok k /\ start_ok k /\ live (state k)) (sockets w).

(** One of the next ports that are drawn is free. *)
Definition port_available (fuel : nat) (w : stack) : Prop :=
  exists j, (j < fuel)%nat /\ port_used (sockets w) (draw (net_of w) (tsc_reads (net_of w) + 2 + j)) = None.

Lemma new_socket_ends fuel w addr pp : mac_address (mac (net_of w)) -> port_available fuel w -> exists w', new_socket fuel w addr pp = Ok w'.
Proof.
  intros Hm (j & Hj & Hf). unfold new_socket. rewrite random_port_spec by done. run. unfold generate_random_id32. cbn [mac next_tsc].
  rewrite get8_ok by (destruct Hm; lia). run. cbv iota zeta.
  destruct (choose_port_ends fuel (next_tsc (next_tsc (net_of w))) (sockets w) (draw (net_of w) (tsc_reads (net_of w)))) as (p' & n' & E); [done| |].
  - exists j. split; [done|]. cbn. rewrite <- Hf. do 2 f_equal. lia.
  - cbn in E |- *. rewrite E. run. by eexists.
Qed.

(** A new socket has a port that no other socket has, so that segments for the port find it; the other sockets stay. *)
Theorem new_socket_ok fuel w addr pp : stack_ok w -> address addr -> is_u16 pp -> port_available fuel w ->
  exists w' k, new_socket fuel w addr pp = Ok w' /\ sockets w' = sockets w ++ [k] /\ stack_ok w' /\ sent (net_of w') = sent (net_of w) /\
    49152 <= port k <= 65535 /\ port_used (sockets w') (port k) = Some (length (sockets w)) /\ state k = CLOSED /\ peer_ip k = addr.
Proof.
  intros (Hn & Hd & Hs) Ha Hpp Hf. assert (mac_address (mac (net_of w))) as Hm by apply Hn.
  destruct (new_socket_ends fuel w addr pp Hm Hf) as [w' E].
  destruct (new_socket_spec fuel w addr pp w' Hm E) as (k & j & -> & Hst & Hpip & Hpport & Hport & Hfree & Hseq & Hack & Hstart).
  exists (mkStack (reads_of j (net_of w)) (sockets w ++ [k]) (log w)), k. split; [done|]. split; [done|].
  destruct (reads_of_keeps j (net_of w)) as (_ & _ & Hsent & Hnet). split; [|split; [done|]; split; [done|]; split; [by apply port_used_app|done]].
  split; [by apply Hnet|]. split.
  - unfold distinct_ports. cbn. rewrite fmap_app. apply NoDup_app. split; [done|]. split; [|by apply NoDup_singleton].
    intros p Hp Hk. apply list_elem_of_singleton in Hk as ->. by apply free_port in Hfree.
  - cbn. apply Forall_app. split; [done|]. apply Forall_singleton. rewrite Hst. split; [|split; [unfold start_ok; by rewrite Hstart|by apply may_step_live with CLOSED]].
    rewrite <- Hpip, <- Hpport in *. split; [unfold is_u16; lia|]. split; [done|]. split; [done|]. split; [done|]. rewrite Hack. done.
Qed.

(** Distinct ports: the search finds any socket with the port. *)
Lemma port_used_unique l p i k : NoDup (port <$> l) -> l !! i = Some k -> port k = p -> port_used l p = Some i.
Proof.
  intros Hd Hi <-. destruct (port_used l (port k)) as [i'|] eqn:E.
  - f_equal. apply port_used_some in E as (k' & Hi' & Hp & _). eapply NoDup_lookup; [exact Hd|by rewrite list_lookup_fmap, Hi'|].
    rewrite list_lookup_fmap, Hi. cbn. by rewrite Hp.
  - apply port_used_none in E. by eapply Forall_lookup in E.
Qed.

Lemma fmap_insert_same (l : list socket) (i : nat) k k' : l !! i = Some k -> port k' = port k -> port <$> <[i := k']> l = port <$> l.
Proof. intros Hi Hp. rewrite list_fmap_insert, Hp. apply list_insert_id. by rewrite list_lookup_fmap, Hi. Qed.

Lemma dispatch_found fuel w g i k : stack_ok w -> segment_ok g -> sockets w !! i = Some k -> port k = switch16 (rd16 (bytes g) 2) ->
  exists c, tcp_handle_packet fuel w g = Ok (mkStack (wire c) (<[i := sock c]> (sockets w)) (events c)) /\
    handle_packet (mkConn (net_of w) k (log w)) g = Ok c /\ stack_ok (mkStack (wire c) (<[i := sock c]> (sockets w)) (events c)).
Proof.
  intros (Hn & Hd & Hs) Hg Hi Hp. pose proof Hg as (_ & Hlen & _). unfold tcp_handle_packet. rewrite !get16_ok by lia. run.
  rewrite (port_used_unique (sockets w) _ i k) by done. unfold with_socket. rewrite Hi. run.
  destruct (proj1 (Forall_lookup _ _) Hs i k Hi) as (Hk & Hst & Hl).
  destruct (handle_packet_ok (mkConn (net_of w) k (log w)) g) as (c & E & (Hn' & Hk' & Hs') & Hm & Hpt); [done..|].
  exists c. rewrite E. run. split; [done|]. split; [done|]. split; [done|]. split.
  - unfold distinct_ports. cbn. by rewrite (fmap_insert_same _ _ k).
  - cbn. apply Forall_insert; [done|]. split; [done|]. split; [done|]. by eapply may_step_live.
Qed.

Lemma dispatch_unknown fuel w g : stack_ok w -> segment_ok g -> eth_src g <> null_mac -> port_available fuel w ->
  port_used (sockets w) (switch16 (rd16 (bytes g) 2)) = None ->
  exists k j, socket_ok k /\ 49152 <= port k /\ peer_ip k = saddr g /\ peer_port k = switch16 (rd16 (bytes g) 0) /\ ack_num k = seq_of g +u 1 /\
    tcp_handle_packet fuel w g =
      Ok (mkStack (nic_send (reads_of j (net_of w)) (frame (net_of w) k (saddr g) (eth_src g) TCP_FLAG_RST [])) (sockets w) (log w)).
Proof.
  intros (Hn & Hd & Hs) Hg Hne Hav Hu. pose proof Hg as (_ & Hlen & _ & _ & Ha & He). assert (mac_address (mac (net_of w))) as Hm by apply Hn.
  unfold tcp_handle_packet. rewrite !get16_ok, get32_ok by lia. run. rewrite Hu. fold (seq_of g).
  destruct (new_socket_ends fuel w (saddr g) (switch16 (rd16 (bytes g) 0)) Hm Hav) as [w1 E]. rewrite E. run.
  destruct (new_socket_spec _ _ _ _ _ Hm E) as (k & j & -> & Hst & Hpip & Hpport & Hport & Hfree & Hseq & Hack & Hstart).
  cbn [sockets]. rewrite last_snoc. run. exists (set_ack k (seq_of g +u 1)), j.
  assert (socket_ok (set_ack k (seq_of g +u 1))) as Hk.
  { apply set_ack_ok. rewrite <- Hpip in Ha. split; [unfold is_u16; lia|]. rewrite Hpport. split; [apply switch16_range|]. split; [done|]. split; [done|]. by rewrite Hack. }
  split; [done|]. split; [cbn; lia|]. split; [done|]. split; [done|]. split; [done|].
  destruct (reads_of_keeps j (net_of w)) as (Emac & Eip & _ & Hnet).
  pose proof (respond_known (mkConn (reads_of j (net_of w)) (set_ack k (seq_of g +u 1)) (log w)) g TCP_FLAG_RST) as Hresp.
  unfold respond in Hresp. cbn [net_of log]. rewrite Hresp; [|by apply Hnet|done|done|done|done].
  run. cbn. unfold frame, ethernet_header. by rewrite Emac, Eip.
Qed.

(** A segment reaches the socket whose port it names and no other; a segment for a port that no socket has changes no
    socket, and its sender gets a reset.  Ports stay distinct. *)
Theorem segments_are_dispatched fuel w g : stack_ok w -> segment_ok g -> eth_src g <> null_mac -> port_available fuel w ->
  let dest := switch16 (rd16 (bytes g) 2) in
  exists w', tcp_handle_packet fuel w g = Ok w' /\ stack_ok w' /\ length (sockets w') = length (sockets w) /\
    (forall i k, sockets w !! i = Some k -> port k <> dest -> sockets w' !! i = Some k) /\
    (port_used (sockets w) dest = None -> exists k, sockets w' = sockets w /\ peer_ip k = saddr g /\ peer_port k = switch16 (rd16 (bytes g) 0) /\
      ack_num k = seq_of g +u 1 /\ sent (net_of w') = sent (net_of w) ++ [frame (net_of w) k (saddr g) (eth_src g) TCP_FLAG_RST []]) /\
    (forall i k, sockets w !! i = Some k -> port k = dest -> exists c, handle_packet (mkConn (net_of w) k (log w)) g = Ok c /\
      sockets w' !! i = Some (sock c) /\ net_of w' = wire c /\ log w' = events c).
Proof.
  intros Hw Hg Hne Hav dest. destruct (port_used (sockets w) dest) as [i|] eqn:Eu.
  - destruct (port_used_some _ _ _ Eu) as (k & Hi & Hp & _). destruct (dispatch_found fuel w g i k Hw Hg Hi Hp) as (c & E & Eh & Hok).
    eexists. split; [exact E|]. split; [exact Hok|]. split; [apply length_insert|]. split; [|split; [done|]]; cbn [sockets].
    + intros i' k' Hi' Hp'. rewrite list_lookup_insert_ne; [done|]. intros ->. by simplify_eq.
    + intros i' k' Hi' Hp'. pose proof (port_used_unique _ _ _ _ (proj1 (proj2 Hw)) Hi' Hp') as E'. assert (i' = i) as -> by congruence.
      exists c. simplify_eq. split; [done|]. split; [|done]. apply list_lookup_insert_eq. by eapply lookup_lt_Some.
  - destruct (dispatch_unknown fuel w g Hw Hg Hne Hav Eu) as (k & j & _ & _ & Hpip & Hpp & Hack & E). pose proof Hw as (Hn & Hd & Hs).
    destruct (reads_of_keeps j (net_of w)) as (_ & _ & Hsent & Hnet).
    eexists. split; [exact E|]. split; [split; [exact (Hnet Hn)|done]|]. split; [done|]. split; [done|]. split.
    + intros _. exists k. cbn. by rewrite Hsent.
    + intros i k' Hi Hp. pose proof (port_used_unique _ _ _ _ Hd Hi Hp). congruence.
Qed.

(** The reset for a segment to a port that no socket has does not come from that port: it has the random port of the socket
    that is made for the answer. *)
Theorem reset_from_other_port fuel w g : stack_ok w -> segment_ok g -> eth_src g <> null_mac -> port_available fuel w ->
  switch16 (rd16 (bytes g) 2) < 49152 -> port_used (sockets w) (switch16 (rd16 (bytes g) 2)) = None ->
  exists w' k, tcp_handle_packet fuel w g = Ok w' /\ sent (net_of w') = sent (net_of w) ++ [frame (net_of w) k (saddr g) (eth_src g) TCP_FLAG_RST []] /\
    (v ← get16 (tcp_segment (ip (net_of w)) k TCP_FLAG_RST []) 0; Ok (switch16 v)) = Ok (port k) /\ port k <> switch16 (rd16 (bytes g) 2).
Proof.
  intros Hw Hg Hne Hav Hlow Hu. destruct (dispatch_unknown fuel w g Hw Hg Hne Hav Hu) as (k & j & Hk & Hp & _ & _ & _ & E).
  eexists _, k. split; [exact E|]. destruct (reads_of_keeps j (net_of w)) as (_ & _ & Hsent & _). split; [cbn; by rewrite Hsent|].
  split; [|lia]. apply segment_reads; [apply Hw|done|done|apply data_ok_nil].
Qed.

(** ** A concrete connection *)

Definition lan : net := set_cache host (replicate ARP_CACHE_SIZE (Net.peer_ip, peer_mac)) 0.
Definition client (st : State) : socket := mkSocket None 50000 80 Net.peer_ip st 1000 0 true NullPacket.
Definition link (st : State) : conn := mkConn lan (client st) [].
Definition incoming (flags : Z) (data : list Z) : segment :=
  mkSegment ([0; 80; 195; 80; 0; 0; 27; 88; 0; 0; 3; 233; 80; flags; 255; 255; 0; 0; 0; 0] ++ data) (20 + Z.of_nat (length data)) Net.peer_ip peer_mac.
Definition kernel (st : State) : stack := mkStack lan [client st] [].

Lemma lan_ok : net_ok lan.
Proof.
  split; [apply host_ip|]. split; [apply host_mac|]. split; [split; [done|cbn; unfold null_mac; u8s]|].
  split; [split; [done|cbn; unfold ARP_CACHE_SIZE; lia]|]. apply Forall_replicate. apply peer_mac_ok.
Qed.

Lemma client_ok st : socket_ok (client st).
Proof. split; [unfold is_u16; cbn; lia|]. split; [unfold is_u16; cbn; lia|]. split; [apply peer_ip_ok|]. unfold is_u32; cbn; lia. Qed.

Lemma link_ok st : conn_ok (link st).
Proof. split; [apply lan_ok|]. split; [apply client_ok|done]. Qed.

Lemma lan_routed : routed lan Net.peer_ip peer_mac.
Proof. left. split; [by vm_compute|done]. Qed.

Lemma data3_ok : data_ok [1; 2; 3].
Proof. split; [u8s|cbn; lia]. Qed.

Ltac incoming_ok :=
  split; [cbn; u8s|split; [cbn; lia|split; [vm_compute; by split|split; [cbn; lia|split; [apply peer_ip_ok|apply peer_mac_ok]]]]].

Lemma incoming_data_ok : segment_ok (incoming 24 [7; 8; 9]).
Proof. incoming_ok. Qed.
Lemma incoming_fin_ok : segment_ok (incoming 17 []).
Proof. incoming_ok. Qed.
Lemma incoming_ack_ok : segment_ok (incoming 16 []).
Proof. incoming_ok. Qed.
Lemma incoming_syn_ok : segment_ok (incoming 18 []).
Proof. incoming_ok. Qed.
Lemma incoming_rst_ok : segment_ok (incoming 20 []).
Proof. incoming_ok. Qed.

Lemma live_state st : may_step st st = true -> live st.
Proof. apply may_step_live. Qed.

Lemma kernel_ok : stack_ok (kernel ESTABLISHED).
Proof.
  split; [apply lan_ok|]. split; [apply NoDup_singleton|]. apply Forall_singleton.
  split; [apply client_ok|split; [done|by apply live_state]].
Qed.

Lemma kernel_port : port_available 3 (kernel ESTABLISHED).
Proof. exists 0%nat. split; [lia|]. by vm_compute. Qed.

Definition peer_host : net := set_addresses host Net.peer_ip (gateway_ip host).

Lemma segment_arrives_witness :
  exists f, to_peer (link ESTABLISHED) 24 [1; 2; 3] = Ok (set_wire (link ESTABLISHED) (nic_send lan f)) /\ take 6 f = peer_mac /\
    ipv4_packet_valid peer_host (drop 14 f) = Ok true /\ getn (drop 14 f) 12 4 = Ok (ip lan) /\
    reads (ip lan) Net.peer_ip (drop 34 f) (client ESTABLISHED) 24 [1; 2; 3].
Proof.
  apply (segment_arrives (link ESTABLISHED) 24 [1; 2; 3] peer_mac peer_host);
    [apply lan_ok|apply client_ok|unfold is_u8; lia|apply data3_ok|apply peer_mac_ok|apply lan_routed|done].
Defined.

(** A socket that has no address yet. *)
Definition nameless : conn := mkConn lan (set_peer_ip (client CLOSED) null_ip) [].

(** Two packets sent before the address is known: the name is resolved twice, the second resolution sends the second packet
    during the handshake and deletes it, and the answer to the handshake makes the socket send it again from the deleted buffer. *)
Theorem second_resolution_dangles :
  (c ← send_data nameless [1]; c ← send_data c [2]; Ok (events c)) = Ok [Resolve None; Resolve None] /\
  (c ← send_data nameless [1]; c ← send_data c [2]; c ← on_hostname_resolved c Net.peer_ip; c ← on_hostname_resolved c Net.peer_ip;
   Ok (state (sock c), start_packet (sock c), handle_packet c (incoming 18 []))) = Ok (SYN_SENT, Freed, Fault).
Proof. split; vm_compute; reflexivity. Qed.

Lemma connection_is_safe_witness :
  conn_ok (link CLOSED) /\ progresses (link CLOSED) (handle_packet (link CLOSED) (incoming 18 [])).
Proof.
  split; [apply link_ok|]. destruct (connection_is_safe (link CLOSED) (link CLOSED)) as (_ & _ & _ & H & _);
    [apply link_ok|done|apply rtc_refl|]. apply H, incoming_syn_ok.
Defined.


Lemma data_is_acknowledged_witness :
  exists c, handle_packet (link ESTABLISHED) (incoming 24 [7; 8; 9]) = Ok c /\ ack_num (sock c) = 7003 /\ events c = [Data [7; 8; 9]].
Proof.
  eexists. split; [apply (data_is_acknowledged (link ESTABLISHED) (incoming 24 [7; 8; 9]));
    [apply link_ok|split; [apply incoming_data_ok|done]|done|done|done|done|done|by vm_compute|done]|].
  split; by vm_compute.
Defined.

Lemma duplicate_is_delivered_witness :
  exists c1 c2, handle_packet (link ESTABLISHED) (incoming 24 [7; 8; 9]) = Ok c1 /\ handle_packet c1 (incoming 24 [7; 8; 9]) = Ok c2 /\
    ack_num (sock c1) = ack_num (sock c2) /\
    events c2 = [Data (payload_of (incoming 24 [7; 8; 9])); Data (payload_of (incoming 24 [7; 8; 9]))].
Proof.
  apply (duplicate_is_delivered (link ESTABLISHED) (incoming 24 [7; 8; 9]));
    [apply link_ok|split; [apply incoming_data_ok|done]|done|done|done|done|by vm_compute|done].
Defined.

Lemma peer_closes_witness :
  exists c1 c2, handle_packet (link ESTABLISHED) (incoming 17 []) = Ok c1 /\ state (sock c1) = CLOSE_WAIT /\
    handle_packet c1 (incoming 16 []) = Ok c2 /\ state (sock c2) = CLOSED /\ events c2 = [Terminated NoError].
Proof.
  destruct (peer_closes (link ESTABLISHED) (incoming 17 []) (incoming 16 [])) as [E1 E2];
    [apply link_ok|split; [apply incoming_fin_ok|done]|done|done|done|done|done|apply incoming_ack_ok|done|].
  eexists _, _. split; [exact E1|]. split; [vm_compute; reflexivity|]. split; [exact E2|]. split; vm_compute; reflexivity.
Defined.

Lemma we_close_witness :
  exists c1 c2, send_fin_ack (link ESTABLISHED) = Ok c1 /\ handle_packet c1 (incoming 17 []) = Ok c2 /\
    state (sock c2) = CLOSED /\ events c2 = [Terminated NoError].
Proof.
  destruct (we_close (link ESTABLISHED) peer_mac (incoming 17 [])) as (c1 & E1 & _ & _ & E2);
    [apply link_ok|done|apply peer_mac_ok|apply lan_routed|split; [apply incoming_fin_ok|done]|done|done|done|done|done|].
  exists c1. eexists. split; [exact E1|]. split; [exact E2|]. split; vm_compute; reflexivity.
Defined.

Lemma early_ack_resets_witness :
  exists c, handle_packet (link FIN_WAIT_1) (incoming 16 []) = Ok c /\ state (sock c) = CLOSED /\ events c = [Terminated (UnknownPacket 16)].
Proof.
  eexists. split; [apply (early_ack_resets (link FIN_WAIT_1) (incoming 16 []));
    [apply link_ok|done|split; [apply incoming_ack_ok|done]|done|done]|]. done.
Defined.

Lemma reset_is_ignored_witness :
  flags_of (incoming 20 []) = Z.lor TCP_FLAG_RST TCP_FLAG_ACK /\ handle_packet (link ESTABLISHED) (incoming 20 []) = Ok (link ESTABLISHED).
Proof. split; [done|]. apply (reset_is_ignored (link ESTABLISHED) (incoming 20 [])); [apply incoming_rst_ok|done|done|done]. Defined.

Lemma new_socket_ok_witness :
  exists w' k, new_socket 3 (kernel ESTABLISHED) Net.peer_ip 80 = Ok w' /\ sockets w' = [client ESTABLISHED; k] /\
    port_used (sockets w') (port k) = Some 1%nat.
Proof.
  destruct (new_socket_ok 3 (kernel ESTABLISHED) Net.peer_ip 80) as (w' & k & E & Es & _ & _ & _ & Hp & _);
    [apply kernel_ok|apply peer_ip_ok|unfold is_u16; lia|apply kernel_port|]. exists w', k. split; [exact E|]. split; [exact Es|exact Hp].
Defined.

Lemma segments_are_dispatched_witness :
  exists w', tcp_handle_packet 3 (kernel ESTABLISHED) (incoming 24 [7; 8; 9]) = Ok w' /\ stack_ok w' /\
    exists c, handle_packet (link ESTABLISHED) (incoming 24 [7; 8; 9]) = Ok c /\ sockets w' !! 0%nat = Some (sock c).
Proof.
  destruct (segments_are_dispatched 3 (kernel ESTABLISHED) (incoming 24 [7; 8; 9])) as (w' & E & Hok & _ & _ & _ & H);
    [apply kernel_ok|apply incoming_data_ok|done|apply kernel_port|]. exists w'. split; [exact E|]. split; [exact Hok|].
  destruct (H 0%nat (client ESTABLISHED) eq_refl eq_refl) as (c & Ec & Es & _). exists c. split; [exact Ec|exact Es].
Defined.

Definition to_closed_port : segment :=
  mkSegment [0; 80; 0; 22; 0; 0; 27; 88; 0; 0; 3; 233; 80; 2; 255; 255; 0; 0; 0; 0] 20 Net.peer_ip peer_mac.

Lemma reset_from_other_port_witness :
  exists w' k, tcp_handle_packet 3 (kernel ESTABLISHED) to_closed_port = Ok w' /\ port k <> 22.
Proof.
  destruct (reset_from_other_port 3 (kernel ESTABLISHED) to_closed_port) as (w' & k & E & _ & _ & Hp);
    [apply kernel_ok|unfold to_closed_port; incoming_ok|done|apply kernel_port|by vm_compute|by vm_compute|]. exists w', k. split; [exact E|exact Hp].
Defined.

End Tcp.
