(* ===== verification/Dhcp.v ===== *)
(** * DHCP ([network/DHCP.cpp])

    The messages the kernel broadcasts to get an address, and how it reads the server's answers.  A received packet is the
    memory from the UDP header on.  The theorems show the exchange from the offer to the configured network, and what the
    parser does on messages it does not expect. *)

From stdpp Require Import base tactics numbers list.
From S2P Require Import Prelude Bytes Net.
Import Bytes Net.
Open Scope Z_scope.

Module Dhcp.

Definition DHCP_MAGIC_COOKIE : Z := 0x63825363.
Definition BOOT_REQUEST : Z := 1.
Definition BOOT_REPLY : Z := 2.
Definition DHCP_DISCOVER : Z := 1.
Definition DHCP_OFFER : Z := 2.
Definition DHCP_REQUEST : Z := 3.
Definition DHCP_ACK : Z := 5.
Definition DHCP_SRC_PORT : Z := 68.
Definition DHCP_DST_PORT : Z := 67.
Definition DHCP_HTYPE_ETHERNET : Z := 1.
Definition DHCP_OPT_MSG_TYPE : Z := 53.
Definition DHCP_OPT_IP_REQUEST : Z := 50.
Definition DHCP_OPT_REQUEST_LIST : Z := 55.
Definition DHCP_OPT_SUBNET_MASK : Z := 1.
Definition DHCP_OPT_ROUTER : Z := 3.
Definition DHCP_OPT_DOMAIN_NAME_SERVER : Z := 6.
Definition DHCP_OPT_DOMAIN_NAME : Z := 15.
Definition DHCP_OPT_SERVER_IDENTIFIER : Z := 54.
Definition DHCP_OPT_END : Z := 255.
Definition DHCP_FLAG_BROADCAST : Z := 0x0080.

(** [sizeof(packet_t)], and the message with room for the options of a request. *)
Definition dhcp_header_size : Z := 240.
Definition DHCP_REQUEST_OPT_SIZE : Z := 2 + 1 + 2 + 4 + 2 + 4 + 1.
Definition get_request_header_size : Z := dhcp_header_size + DHCP_REQUEST_OPT_SIZE.

(** The loop that copies the options; the answer is the total length. *)
Fixpoint copy_options (buf options_buf : list Z) (opt_tot_len : Z) (num_options : nat) : res (list Z * Z) :=
  match num_options with
  | O => Ok (buf, opt_tot_len)
  | S num_options =>
      n ← get8 options_buf (opt_tot_len + 1);
      let opt_len := n + 2 in
      o ← getn options_buf opt_tot_len opt_len;
      buf ← patch_in buf (dhcp_header_size + opt_tot_len) o;
      copy_options buf options_buf (opt_tot_len + opt_len) num_options
  end.

Definition dhcp_write_header (s : net) (buf : list Z) (op xid flags ciaddr yiaddr siaddr giaddr : Z) (options_buf : list Z)
    (num_options : nat) : res (list Z) :=
  buf ← set8 buf 0 op; buf ← set8 buf 1 DHCP_HTYPE_ETHERNET; buf ← set8 buf 2 MAC_ADDR_LEN; buf ← set8 buf 3 0;
  buf ← set32 buf 4 xid; buf ← set16 buf 8 0; buf ← set16 buf 10 flags;
  buf ← set32 buf 12 ciaddr; buf ← set32 buf 16 yiaddr; buf ← set32 buf 20 siaddr; buf ← set32 buf 24 giaddr;
  buf ← patch_in buf 28 (mac s); buf ← set32 buf 236 (switch32 DHCP_MAGIC_COOKIE);
  '(buf, n) ← copy_options buf options_buf 0 num_options;
  set8 buf (dhcp_header_size + n) DHCP_OPT_END.

Definition send_discover (s : net) : res net :=
  '(pre, buf) ← udp_create_packet s DHCP_SRC_PORT DHCP_DST_PORT get_request_header_size broadcast_ip broadcast_mac;
  let opt_buf := [DHCP_OPT_MSG_TYPE; 1; DHCP_DISCOVER; DHCP_OPT_REQUEST_LIST; 4; DHCP_OPT_SUBNET_MASK; DHCP_OPT_ROUTER;
    DHCP_OPT_DOMAIN_NAME; DHCP_OPT_DOMAIN_NAME_SERVER] in
  '(xid, s) ← generate_random_id32 s;
  buf ← dhcp_write_header s buf BOOT_REQUEST xid DHCP_FLAG_BROADCAST 0 0 0 0 opt_buf 2;
  send_packet s (pre ++ buf).

(** [p] is an offer from its UDP header on; the message starts at 8. *)
Definition send_request (s : net) (p : list Z) : res net :=
  '(pre, buf) ← udp_create_packet s DHCP_SRC_PORT DHCP_DST_PORT get_request_header_size broadcast_ip broadcast_mac;
  yiaddr ← getn p (8 + 16) 4; siaddr ← getn p (8 + 20) 4; si ← get32 p (8 + 20); xid ← get32 p (8 + 4);
  let opt_buf := [DHCP_OPT_MSG_TYPE; 1; DHCP_REQUEST; DHCP_OPT_IP_REQUEST; 4] ++ yiaddr ++ [DHCP_OPT_SERVER_IDENTIFIER; 4] ++ siaddr in
  buf ← dhcp_write_header s buf BOOT_REQUEST xid DHCP_FLAG_BROADCAST 0 0 si 0 opt_buf 3;
  send_packet s (pre ++ buf).

(** The loop of [is_dhcp_offer] and [is_dhcp_ack]: the message type, unless the length ends before it.  [length] is the field
    of the UDP header as it is in memory. *)
Fixpoint find_type (fuel : nat) (p : list Z) (o length : Z) : res (option Z) :=
  if length <? o + 2 then Ok None
  else
    code ← get8 p (8 + o);
    if code =? DHCP_OPT_MSG_TYPE then (t ← get8 p (8 + o + 2); Ok (Some t))
    else
      match fuel with
      | O => NoFuel
      | S fuel => n ← get8 p (8 + o + 1); find_type fuel p (o + n + 2) length
      end.

Definition is_type (p : list Z) (t : Z) : res bool :=
  len ← get16 p 4; r ← find_type (length p) p dhcp_header_size len; Ok (bool_decide (r = Some t)).
Definition is_dhcp_offer (p : list Z) : res bool := is_type p DHCP_OFFER.
Definition is_dhcp_ack (p : list Z) : res bool := is_type p DHCP_ACK.

(** [packet_valid]: the kind of the message, or 0. *)
Definition dhcp_packet_valid (p : list Z) : res Z :=
  src_port ← get16 p 0; dst_port ← get16 p 2;
  if negb (switch16 src_port =? DHCP_DST_PORT) || negb (switch16 dst_port =? DHCP_SRC_PORT) then Ok 0
  else
    len ← get16 p 4;
    if len <? dhcp_header_size then Ok 0
    else
      op ← get8 p 8; magic_cookie ← get32 p (8 + 236);
      if negb (op =? BOOT_REPLY) then Ok 0
      else if negb (magic_cookie =? switch32 DHCP_MAGIC_COOKIE) then Ok 0
      else
        offer ← is_dhcp_offer p;
        if (offer : bool) then Ok DHCP_OFFER
        else ack ← is_dhcp_ack p; Ok (if (ack : bool) then DHCP_ACK else 0).

Record dhcp := mkDhcp { dhcp_net : net; server_mac : list Z }.

Definition handle_offer (d : dhcp) (p : list Z) : res dhcp :=
  m ← getn p (8 + 28) 6; n ← send_request (dhcp_net d) p; Ok (mkDhcp n m).

(** The loop of [handle_ack]: where the router's address is, and the network with its mask. *)
Fixpoint ack_options (fuel : nat) (s : net) (p : list Z) (o : Z) (gateway : option Z) : res (net * option Z) :=
  code ← get8 p (8 + o);
  if code =? DHCP_OPT_END then Ok (s, gateway)
  else
    let gateway := if code =? DHCP_OPT_ROUTER then Some (o + 2) else gateway in
    s ← (if code =? DHCP_OPT_SUBNET_MASK then (m ← getn p (8 + o + 2) 4; Ok (set_subnet_mast s m)) else Ok s);
    match fuel with
    | O => NoFuel
    | S fuel => n ← get8 p (8 + o + 1); ack_options fuel s p (o + n + 2) gateway
    end.

Definition handle_ack (d : dhcp) (p : list Z) : res dhcp :=
  r ← ack_options (length p) (dhcp_net d) p dhcp_header_size None;
  yiaddr ← getn p (8 + 16) 4; g ← deref (snd r); gw ← getn p (8 + g) 4;
  n ← on_ip_received (fst r) yiaddr gw; Ok (mkDhcp n (server_mac d)).

Definition dhcp_handle_packet (d : dhcp) (p : list Z) : res (bool * dhcp) :=
  k ← dhcp_packet_valid p;
  if k =? DHCP_OFFER then (d ← handle_offer d p; Ok (true, d))
  else if k =? DHCP_ACK then (d ← handle_ack d p; Ok (true, d))
  else Ok (false, d).

(** ** Options as they are on the wire *)

Definition enc1 (o : Z * list Z) : list Z := o.1 :: Z.of_nat (length o.2) :: o.2.
Definition enc (opts : list (Z * list Z)) : list Z := concat (enc1 <$> opts).

(** Options the two-byte header can describe. *)
Definition opts_ok (opts : list (Z * list Z)) : Prop := Forall (fun o => o.1 <> DHCP_OPT_END) opts.

(** The data of the first and of the last option with a code. *)
Fixpoint first_opt (c : Z) (opts : list (Z * list Z)) : option (list Z) :=
  match opts with [] => None | o :: opts => if o.1 =? c then Some o.2 else first_opt c opts end.
Fixpoint last_opt (c : Z) (opts : list (Z * list Z)) : option (list Z) :=
  match opts with
  | [] => None
  | o :: opts => match last_opt c opts with Some d => Some d | None => if o.1 =? c then Some o.2 else None end
  end.

Lemma enc_cons o opts : enc (o :: opts) = enc1 o ++ enc opts.
Proof. done. Qed.

(** The position behind [a], seen from the start of the message. *)
Definition place (a : list Z) : Z := Z.of_nat (length a) - 8.

Lemma place_enc1 a o : place a + Z.of_nat (length o.2) + 2 = place (a ++ enc1 o).
Proof. unfold place, enc1. rewrite length_app. cbn [length]. lia. Qed.

(** Reads at the option behind [a]. *)
Lemma option_reads a o tail i : 0 <= i -> get8 (a ++ enc1 o ++ tail) (8 + place a + i) = get8 (enc1 o ++ tail) i.
Proof. intros Hi. unfold place. replace (8 + (Z.of_nat (length a) - 8) + i) with (Z.of_nat (length a) + i) by lia. by apply get8_skip. Qed.

Lemma option_code a o tail : get8 (a ++ enc1 o ++ tail) (8 + place a) = Ok o.1.
Proof. rewrite <- (Z.add_0_r (8 + place a)), option_reads by lia. apply get8_head. Qed.

Lemma option_len a o tail : get8 (a ++ enc1 o ++ tail) (8 + place a + 1) = Ok (Z.of_nat (length o.2)).
Proof. rewrite option_reads by lia. apply get8_second. Qed.

Lemma option_data a o tail n : 0 <= n <= Z.of_nat (length o.2) ->
  getn (a ++ enc1 o ++ tail) (8 + place a + 2) n = Ok (take (Z.to_nat n) o.2).
Proof.
  intros Hn. unfold place. replace (8 + (Z.of_nat (length a) - 8) + 2) with (Z.of_nat (length a) + 2) by lia. rewrite getn_skip by lia.
  unfold enc1. rewrite getn_start by (cbn [length]; lia). done.
Qed.

(** The search finds the first message type, if the length allows it to get there. *)
Lemma find_type_spec opts : forall fuel a tail len t d, (length opts <= fuel)%nat ->
  first_opt DHCP_OPT_MSG_TYPE opts = Some (t :: d) -> place a + Z.of_nat (length (enc opts)) <= len ->
  find_type fuel (a ++ enc opts ++ tail) (place a) len = Ok (Some t).
Proof.
  induction opts as [|o opts IH]; intros fuel a tail len t d Hf Ht Hl; [done|]. cbn [first_opt] in Ht. rewrite enc_cons, <- app_assoc.
  rewrite enc_cons, length_app in Hl. unfold enc1 in Hl at 1. cbn [length] in Hl.
  destruct fuel as [|fuel]; [by cbn in Hf; lia|]. cbn [find_type].
  assert ((len <? place a + 2) = false) as -> by (apply Z.ltb_ge; lia). rewrite option_code. run.
  destruct (Z.eqb_spec o.1 DHCP_OPT_MSG_TYPE).
  - injection Ht as Ht. unfold get8 at 1. rewrite option_data by (rewrite Ht; cbn [length]; lia). run. by rewrite Ht.
  - rewrite option_len. run. rewrite place_enc1, (app_assoc a). apply (IH fuel _ tail len t d); [cbn in Hf; lia|done|].
    rewrite <- place_enc1. lia.
Qed.

Definition with_mask (s : net) (opts : list (Z * list Z)) : net :=
  match last_opt DHCP_OPT_SUBNET_MASK opts with Some d => set_subnet_mast s (take 4 d) | None => s end.

(** Masks and routers have at least one address. *)
Definition addresses_ok (opts : list (Z * list Z)) : Prop :=
  Forall (fun o => o.1 = DHCP_OPT_SUBNET_MASK \/ o.1 = DHCP_OPT_ROUTER -> (4 <= length o.2)%nat) opts.

(** The loop of [handle_ack] reads the whole list, and keeps the last mask and the last router. *)
Lemma ack_options_spec opts : forall fuel a tail s gw, (length opts <= fuel)%nat -> opts_ok opts -> addresses_ok opts ->
  exists gw', ack_options fuel s (a ++ enc opts ++ DHCP_OPT_END :: tail) (place a) gw = Ok (with_mask s opts, gw') /\
    match last_opt DHCP_OPT_ROUTER opts with
    | Some d => exists g, gw' = Some g /\ getn (a ++ enc opts ++ DHCP_OPT_END :: tail) (8 + g) 4 = Ok (take 4 d)
    | None => gw' = gw
    end.
Proof.
  induction opts as [|o opts IH]; intros fuel a tail s gw Hf Ho Ha.
  - exists gw. split; [|done]. unfold place. destruct fuel; cbn [ack_options enc fmap list_fmap concat app];
      (replace (8 + (Z.of_nat (length a) - 8)) with (Z.of_nat (length a) + 0) by lia; rewrite get8_skip by lia; rewrite get8_head; done).
  - apply Forall_cons in Ho as [Ho1 Ho], Ha as [Ha1 Ha]. rewrite enc_cons, <- app_assoc. destruct fuel as [|fuel]; [by cbn in Hf; lia|].
    cbn [ack_options]. rewrite option_code. run. rewrite (proj2 (Z.eqb_neq _ _)) by done.
    set (s1 := if o.1 =? DHCP_OPT_SUBNET_MASK then set_subnet_mast s (take 4 o.2) else s).
    assert ((if o.1 =? DHCP_OPT_SUBNET_MASK then m ← getn (a ++ enc1 o ++ enc opts ++ DHCP_OPT_END :: tail) (8 + place a + 2) 4;
             Ok (set_subnet_mast s m) else Ok s) = Ok s1) as ->.
    { unfold s1. destruct (Z.eqb_spec o.1 DHCP_OPT_SUBNET_MASK); [|done]. rewrite option_data; [done|]. specialize (Ha1 (or_introl e)). lia. }
    run. rewrite option_len. run. rewrite place_enc1, (app_assoc a).
    destruct (IH fuel (a ++ enc1 o) tail s1 (if o.1 =? DHCP_OPT_ROUTER then Some (place a + 2) else gw)) as (gw' & E & Hgw); [cbn in Hf; lia|done|done|].
    exists gw'. rewrite E. split.
    + unfold with_mask, s1. cbn [last_opt]. destruct (last_opt DHCP_OPT_SUBNET_MASK opts); [by destruct (o.1 =? _)|]. by destruct (o.1 =? _).
    + cbn [last_opt]. destruct (last_opt DHCP_OPT_ROUTER opts); [done|]. subst gw'. destruct (Z.eqb_spec o.1 DHCP_OPT_ROUTER); [|done].
      eexists. split; [done|]. rewrite <- app_assoc. replace (8 + (place a + 2)) with (8 + place a + 2) by lia. rewrite option_data; [done|].
      specialize (Ha1 (or_intror e)). lia.
Qed.

(** ** Messages of the server *)

(** A message with the fixed part [hdr] and options, from its UDP header on; [tail] is what is in memory behind it. *)
Definition server_packet (len : Z) (ck hdr : list Z) (opts : list (Z * list Z)) (tail : list Z) : list Z :=
  (be16 DHCP_DST_PORT ++ be16 DHCP_SRC_PORT ++ be16 len ++ ck ++ hdr) ++ enc opts ++ DHCP_OPT_END :: tail.

Record server_message (len : Z) (ck hdr : list Z) : Prop := mkServerMessage {
  sm_len : is_u16 len;
  sm_ck : length ck = 2%nat;
  sm_hdr : length hdr = 240%nat;
  sm_bytes : Forall is_u8 hdr;
  sm_op : byte hdr 0 = BOOT_REPLY;
  sm_cookie : slice hdr 236 4 = be32 DHCP_MAGIC_COOKIE
}.

Definition prefix (len : Z) (ck hdr : list Z) : list Z := be16 DHCP_DST_PORT ++ be16 DHCP_SRC_PORT ++ be16 len ++ ck ++ hdr.

Section message.
Context (len : Z) (ck hdr : list Z) (Hm : server_message len ck hdr).

Lemma prefix_length : length (prefix len ck hdr) = 248%nat.
Proof. destruct Hm. unfold prefix. rewrite !length_app. simpl. lia. Qed.

Lemma prefix_hdr rest o n : 0 <= o -> 0 <= n -> o + n <= 240 -> getn (prefix len ck hdr ++ rest) (8 + o) n = Ok (slice hdr o n).
Proof.
  intros Ho Hn Hl. destruct Hm as [_ Hck Hh _ _ _]. unfold prefix. rewrite !app_assoc, <- (app_assoc _ hdr rest).
  match goal with |- getn (?u ++ hdr ++ rest) _ _ = _ => assert (length u = 8%nat) as Hu by (rewrite !length_app; simpl; lia) end.
  replace (8 + o) with (Z.of_nat 8 + o) by lia. rewrite <- Hu at 1. rewrite getn_skip by lia. apply getn_start; lia.
Qed.

Lemma prefix_ports rest : get16 (prefix len ck hdr ++ rest) 0 = Ok (switch16 DHCP_DST_PORT) /\
  get16 (prefix len ck hdr ++ rest) 2 = Ok (switch16 DHCP_SRC_PORT) /\ get16 (prefix len ck hdr ++ rest) 4 = Ok (switch16 len).
Proof.
  unfold get16. rewrite !getn_start by (rewrite ?prefix_length; lia). run.
  change (slice (prefix len ck hdr) 0 2) with (be16 DHCP_DST_PORT). change (slice (prefix len ck hdr) 2 2) with (be16 DHCP_SRC_PORT).
  change (slice (prefix len ck hdr) 4 2) with (be16 len). by rewrite (rd16_be16 len) by apply Hm.
Qed.

Lemma server_type opts tail t d : first_opt DHCP_OPT_MSG_TYPE opts = Some (t :: d) -> 240 + Z.of_nat (length (enc opts)) <= switch16 len ->
  dhcp_packet_valid (server_packet len ck hdr opts tail) = Ok (if t =? DHCP_OFFER then DHCP_OFFER else if t =? DHCP_ACK then DHCP_ACK else 0).
Proof.
  intros Ht Hl. unfold server_packet. fold (prefix len ck hdr). destruct (prefix_ports (enc opts ++ DHCP_OPT_END :: tail)) as (E0 & E2 & E4).
  unfold dhcp_packet_valid, is_dhcp_offer, is_dhcp_ack, is_type. rewrite E0, E2, E4. run.
  rewrite !switch16_switch16 by (unfold is_u16, DHCP_DST_PORT, DHCP_SRC_PORT; lia). rewrite !Z.eqb_refl. cbn [negb orb].
  unfold dhcp_header_size. assert ((switch16 len <? 240) = false) as -> by (apply Z.ltb_ge; lia).
  unfold get8 at 1, get32. rewrite (prefix_hdr _ 236 4) by lia. change 8 with (8 + 0) at 1. rewrite prefix_hdr by lia. run.
  rewrite byte_slice by lia. change (0 + 0) with 0. destruct Hm as [Hlen Hck Hh Hb Hop Hcookie]. rewrite Hop, Hcookie.
  change (rd32 (be32 DHCP_MAGIC_COOKIE) 0 =? switch32 DHCP_MAGIC_COOKIE) with true. cbn [negb]. rewrite Z.eqb_refl. cbn [negb].
  assert (240 = place (prefix len ck hdr)) as E240 by (unfold place; rewrite prefix_length; lia). rewrite E240.
  rewrite (find_type_spec opts _ _ _ (switch16 len) t d) by (done || (rewrite ?length_app, <- ?E240; lia) ||
    (rewrite !length_app; unfold enc; clear; induction opts as [|o opts IH]; cbn in *; rewrite ?length_app in *; cbn; lia)).
  run. destruct (Z.eqb_spec t DHCP_OFFER) as [->|]; [done|]. rewrite bool_decide_eq_false_2 by congruence. run.
  destruct (Z.eqb_spec t DHCP_ACK) as [->|]; [done|]. by rewrite bool_decide_eq_false_2 by congruence.
Qed.

End message.

(** The acknowledgement of the server configures the network: our address, the mask and the gateway are the ones the message
    names (the last ones, if it names several), and the hardware address of the gateway is asked for. *)
Theorem dhcp_ack_configures d len ck hdr opts tail t router mask : server_message len ck hdr -> opts_ok opts -> addresses_ok opts ->
  first_opt DHCP_OPT_MSG_TYPE opts = Some (DHCP_ACK :: t) -> 240 + Z.of_nat (length (enc opts)) <= switch16 len ->
  last_opt DHCP_OPT_ROUTER opts = Some router -> Forall is_u8 router -> last_opt DHCP_OPT_SUBNET_MASK opts = Some mask ->
  mac_address (mac (dhcp_net d)) ->
  let n := set_addresses (set_subnet_mast (dhcp_net d) (take 4 mask)) (slice hdr 16 4) (take 4 router) in
  dhcp_handle_packet d (server_packet len ck hdr opts tail) = Ok (true, mkDhcp (nic_send n (arp_request n (take 4 router))) (server_mac d)).
Proof.
  intros Hm Ho Ha Ht Hl Hr Hrb Hmask Hmac n. unfold dhcp_handle_packet. rewrite (server_type len ck hdr Hm opts tail DHCP_ACK t) by done. run.
  change (DHCP_ACK =? DHCP_OFFER) with false. cbn match. rewrite Z.eqb_refl. unfold handle_ack.
  destruct (ack_options_spec opts (length (server_packet len ck hdr opts tail)) (prefix len ck hdr) tail (dhcp_net d) None) as (gw & E & Hgw); [|done|done|].
  { unfold server_packet, enc. rewrite !length_app. clear. induction opts as [|o opts IH]; cbn in *; rewrite ?length_app in *; cbn; lia. }
  rewrite Hr in Hgw. destruct Hgw as (g & -> & Hg). remember (length (server_packet len ck hdr opts tail)) as fuel eqn:Ef. clear Ef.
  unfold server_packet. fold (prefix len ck hdr).
  assert (dhcp_header_size = place (prefix len ck hdr)) as -> by (unfold place; by rewrite (prefix_length len ck hdr Hm)).
  rewrite E. run. rewrite (prefix_hdr len ck hdr Hm) by lia. run. cbn [snd fst]. run. rewrite Hg. run.
  unfold on_ip_received, with_mask. rewrite Hmask.
  assert (4 <= length router)%nat as Hrl.
  { clear -Hr Ha. induction Ha as [|o opts Ho _ IH]; [done|]. cbn in Hr. destruct (last_opt DHCP_OPT_ROUTER opts); [by apply IH|].
    destruct (Z.eqb_spec o.1 DHCP_OPT_ROUTER); [|done]. injection Hr as <-. apply Ho. by right. }
  rewrite resolve_mac_spec; [done| |done|].
  - destruct Hm as [_ _ Hh Hb _ _]. split; [cbn; unfold slice; rewrite length_take, length_drop; lia|]. by apply Forall_take, Forall_drop.
  - split; [rewrite length_take; lia|by apply Forall_take].
Qed.

(** ** Messages of the kernel *)

(** The fixed part of a message. *)
Definition dhcp_fixed (s : net) (op : Z) (xid : list Z) (flags : Z) (ciaddr yiaddr siaddr giaddr : list Z) : list Z :=
  [op; 1; 6; 0] ++ xid ++ [0; 0] ++ le16 flags ++ ciaddr ++ yiaddr ++ siaddr ++ giaddr ++ mac s ++ replicate 202 0 ++ be32 DHCP_MAGIC_COOKIE.

Lemma copy_options_spec H opts : length H = 240%nat -> forall dn k, (length (enc opts) <= k)%nat ->
  copy_options (H ++ dn ++ replicate k 0) (dn ++ enc opts) (Z.of_nat (length dn)) (length opts) =
    Ok (H ++ dn ++ enc opts ++ replicate (k - length (enc opts)) 0, Z.of_nat (length (dn ++ enc opts))).
Proof.
  intros HH. induction opts as [|o opts IH]; intros dn k Hk; cbn [length copy_options].
  { change (enc []) with (@nil Z). rewrite !app_nil_r, Nat.sub_0_r. done. }
  rewrite enc_cons in Hk |- *. rewrite length_app in Hk. assert (length (enc1 o) = S (S (length o.2))) as H1 by done.
  rewrite get8_skip by lia. rewrite (get8_second o.1 (Z.of_nat (length o.2)) (o.2 ++ enc opts) : get8 (enc1 o ++ enc opts) 1 = _). run.
  assert (getn (dn ++ enc1 o ++ enc opts) (Z.of_nat (length dn)) (Z.of_nat (length o.2) + 2) = Ok (enc1 o)) as ->.
  { rewrite <- (Z.add_0_r (Z.of_nat (length dn))), getn_skip by lia. rewrite getn_start by lia. f_equal. apply slice_full. lia. }
  run. assert (exists k', k = (length (enc1 o) + k')%nat) as [k' ->] by (exists (k - length (enc1 o))%nat; lia). rewrite replicate_add.
  rewrite (app_assoc H), (patch_in_mid (H ++ dn)); [|unfold dhcp_header_size; rewrite length_app; lia|by rewrite length_replicate]. run.
  replace (Z.of_nat (length dn) + (Z.of_nat (length o.2) + 2)) with (Z.of_nat (length (dn ++ enc1 o))) by (rewrite length_app; lia).
  rewrite <- (app_assoc H), (app_assoc dn), (app_assoc dn). rewrite IH by lia. 
  rewrite <- !app_assoc, !length_app. replace (length (enc1 o) + k' - (length (enc1 o) + length (enc opts)))%nat with (k' - length (enc opts))%nat by lia.
  do 2 f_equal.
Qed.

Lemma dhcp_write_spec s op xid flags ci yi si gi opts n : mac_address (mac s) -> is_u8 op -> (length (enc opts) < n)%nat ->
  dhcp_write_header s (replicate (240 + n) 0) op xid flags ci yi si gi (enc opts) (length opts) =
    Ok (dhcp_fixed s op (le32 xid) flags (le32 ci) (le32 yi) (le32 si) (le32 gi) ++ enc opts ++ DHCP_OPT_END :: replicate (n - length (enc opts) - 1) 0).
Proof.
  intros [Hm _] Hop Hn. change (240 + n)%nat with (28 + (6 + (202 + (4 + n))))%nat. rewrite !replicate_add. unfold dhcp_write_header.
  assert (forall R, (buf ← set8 (replicate 28 0 ++ R) 0 op; buf ← set8 buf 1 DHCP_HTYPE_ETHERNET; buf ← set8 buf 2 MAC_ADDR_LEN; buf ← set8 buf 3 0;
    buf ← set32 buf 4 xid; buf ← set16 buf 8 0; buf ← set16 buf 10 flags;
    buf ← set32 buf 12 ci; buf ← set32 buf 16 yi; buf ← set32 buf 20 si; set32 buf 24 gi) =
    Ok (([op; 1; 6; 0] ++ le32 xid ++ [0; 0] ++ le16 flags ++ le32 ci ++ le32 yi ++ le32 si ++ le32 gi) ++ R)) as E.
  { intros R. unfold set8, set16, set32, le32, le16. cbn [replicate app]. do 11 header_step. rewrite (Z.mod_small op) by done. done. }
  specialize (E (replicate 6 0 ++ replicate 202 0 ++ replicate 4 0 ++ replicate n 0)).
  repeat match type of E with context [mbind _ ?m] => destruct m eqn:?; try done; run_in E; run end. rewrite E. run. clear E.
  set (A := [op; 1; 6; 0] ++ le32 xid ++ _). rewrite (patch_in_mid A) by (done || by rewrite Hm). run. unfold set32.
  change (le32 (switch32 DHCP_MAGIC_COOKIE)) with (be32 DHCP_MAGIC_COOKIE).
  assert (length (A ++ mac s ++ replicate 202 0) = 236%nat) as HA by (unfold A; rewrite !length_app, Hm; done).
  rewrite (app_assoc (mac s)), (app_assoc A), (patch_in_mid (A ++ _)) by (rewrite ?HA; done). run.
  rewrite (app_assoc (A ++ _)). set (H := (A ++ mac s ++ replicate 202 0) ++ be32 DHCP_MAGIC_COOKIE).
  assert (length H = 240%nat) as HH by (unfold H; rewrite length_app, HA; done).
  pose proof (copy_options_spec H opts HH [] n ltac:(lia)) as Hc. cbn [app length] in Hc. change (Z.of_nat 0) with 0 in Hc. rewrite Hc. clear Hc. run. unfold set8.
  replace (n - length (enc opts))%nat with (1 + (n - length (enc opts) - 1))%nat by lia. rewrite replicate_add.
  rewrite (app_assoc H), (patch_in_mid (H ++ enc opts)); [|unfold dhcp_header_size; rewrite length_app; lia|done].
  unfold H, A, dhcp_fixed. rewrite <- !app_assoc.
  replace (1 + (n - length (enc opts) - 1) - 1)%nat with (n - length (enc opts) - 1)%nat by lia. done.
Qed.

(** What goes on the wire: a broadcast from port 68 to port 67. *)
Definition client_frame (s : net) (message : list Z) : list Z :=
  ethernet_header s broadcast_mac ETHERTYPE_IPV4 ++ ip_header (ip s) 284 IPV4_PROTOCOL_UDP broadcast_ip ++
  udp_header DHCP_SRC_PORT DHCP_DST_PORT 256 ++ message.

Definition discover_options : list (Z * list Z) :=
  [(DHCP_OPT_MSG_TYPE, [DHCP_DISCOVER]);
   (DHCP_OPT_REQUEST_LIST, [DHCP_OPT_SUBNET_MASK; DHCP_OPT_ROUTER; DHCP_OPT_DOMAIN_NAME; DHCP_OPT_DOMAIN_NAME_SERVER])].
Definition request_options (yiaddr siaddr : list Z) : list (Z * list Z) :=
  [(DHCP_OPT_MSG_TYPE, [DHCP_REQUEST]); (DHCP_OPT_IP_REQUEST, yiaddr); (DHCP_OPT_SERVER_IDENTIFIER, siaddr)].

Definition zero4 : list Z := [0; 0; 0; 0].

Lemma broadcast_ip_ok : address broadcast_ip.
Proof. split; [done|]. unfold broadcast_ip. u8s. Qed.

Lemma client_create s : address (ip s) -> mac_address (mac s) ->
  udp_create_packet s DHCP_SRC_PORT DHCP_DST_PORT get_request_header_size broadcast_ip broadcast_mac =
    Ok (ethernet_header s broadcast_mac ETHERTYPE_IPV4 ++ ip_header (ip s) 284 IPV4_PROTOCOL_UDP broadcast_ip ++
        udp_header DHCP_SRC_PORT DHCP_DST_PORT 256, replicate 256 0).
Proof.
  intros Hi Hm. change get_request_header_size with 256.
  rewrite udp_create_spec; [done|done|done|apply broadcast_ip_ok|apply broadcast_mac_ok|unfold is_u16, DHCP_SRC_PORT; lia|unfold is_u16, DHCP_DST_PORT; lia|lia].
Qed.

Lemma client_send s message : send_packet s ((ethernet_header s broadcast_mac ETHERTYPE_IPV4 ++ ip_header (ip s) 284 IPV4_PROTOCOL_UDP broadcast_ip ++
  udp_header DHCP_SRC_PORT DHCP_DST_PORT 256) ++ message) = Ok (nic_send s (client_frame s message)).
Proof. unfold client_frame, ethernet_header. rewrite <- !app_assoc. by apply send_known. Qed.

(** The discovery message, with a random number that the counter gives. *)
Lemma send_discover_spec s : address (ip s) -> mac_address (mac s) ->
  exists xid, send_discover s = Ok (nic_send (next_tsc s) (client_frame s
    (dhcp_fixed s BOOT_REQUEST (le32 xid) DHCP_FLAG_BROADCAST zero4 zero4 zero4 zero4 ++ enc discover_options ++ DHCP_OPT_END :: replicate 6 0))).
Proof.
  intros Hi Hm. unfold send_discover. rewrite client_create by done. run. unfold generate_random_id32.
  rewrite get8_ok by (destruct Hm; lia). run. eexists.
  match goal with |- context [dhcp_write_header ?s' _ _ ?x] =>
    pose proof (dhcp_write_spec s' BOOT_REQUEST x DHCP_FLAG_BROADCAST 0 0 0 0 discover_options 16 Hm ltac:(done) ltac:(cbn; lia)) as Hw end.
  change (enc discover_options) with [DHCP_OPT_MSG_TYPE; 1; DHCP_DISCOVER; DHCP_OPT_REQUEST_LIST; 4; DHCP_OPT_SUBNET_MASK; DHCP_OPT_ROUTER;
    DHCP_OPT_DOMAIN_NAME; DHCP_OPT_DOMAIN_NAME_SERVER] in Hw at 1.
  change (length discover_options) with 2%nat in Hw. change (240 + 16)%nat with 256%nat in Hw. rewrite Hw. run.
  change (16 - length (enc discover_options) - 1)%nat with 6%nat. rewrite (client_send (next_tsc s)). done.
Qed.

(** The bytes of a word that is copied from one message to another. *)
Lemma le32_copy l o : Forall is_u8 l -> 0 <= o -> o + 4 <= Z.of_nat (length l) -> le32 (rd32 (slice l o 4) 0) = slice l o 4.
Proof.
  intros Hb Ho Hl. assert (length (slice l o 4) = 4%nat) as H4 by (unfold slice; rewrite length_take, length_drop; lia).
  assert (Forall is_u8 (slice l o 4)) as Hs by (unfold slice; by apply Forall_take, Forall_drop).
  destruct (slice l o 4) as [|a [|b [|c [|d [|]]]]]; try done. repeat apply Forall_cons in Hs as [? Hs].
  change (rd32 [a; b; c; d] 0) with (a + 256 * b + 65536 * (c + 256 * d)).
  replace (a + 256 * b + 65536 * (c + 256 * d)) with (a + 256 * b + 65536 * c + 16777216 * d) by lia. by apply le32_bytes.
Qed.

(** An offer is answered with a request for the address it offers, from the server that offers it, under the number of the
    exchange. *)
Theorem dhcp_offer_requested d len ck hdr opts tail t : server_message len ck hdr ->
  first_opt DHCP_OPT_MSG_TYPE opts = Some (DHCP_OFFER :: t) -> 240 + Z.of_nat (length (enc opts)) <= switch16 len ->
  address (ip (dhcp_net d)) -> mac_address (mac (dhcp_net d)) ->
  let yiaddr := slice hdr 16 4 in let siaddr := slice hdr 20 4 in let xid := slice hdr 4 4 in
  let request := dhcp_fixed (dhcp_net d) BOOT_REQUEST xid DHCP_FLAG_BROADCAST zero4 zero4 siaddr zero4 ++
    enc (request_options yiaddr siaddr) ++ [DHCP_OPT_END] in
  dhcp_handle_packet d (server_packet len ck hdr opts tail) =
    Ok (true, mkDhcp (nic_send (dhcp_net d) (client_frame (dhcp_net d) request)) (slice hdr 28 6)).
Proof.
  intros Hm Ht Hl Hi Hmac yiaddr siaddr xid request. unfold dhcp_handle_packet. rewrite (server_type len ck hdr Hm opts tail DHCP_OFFER t) by done. run.
  rewrite Z.eqb_refl. unfold handle_offer, send_request, server_packet. fold (prefix len ck hdr). rewrite client_create by done.
  unfold get32. rewrite !(prefix_hdr len ck hdr Hm) by lia. run. fold yiaddr siaddr xid.
  destruct Hm as [_ _ Hh Hb _ _].
  assert (length yiaddr = 4%nat /\ length siaddr = 4%nat) as [Hy Hsi] by (split; unfold yiaddr, siaddr, slice; rewrite length_take, length_drop; lia).
  assert ([DHCP_OPT_MSG_TYPE; 1; DHCP_REQUEST; DHCP_OPT_IP_REQUEST; 4] ++ yiaddr ++ [DHCP_OPT_SERVER_IDENTIFIER; 4] ++ siaddr =
    enc (request_options yiaddr siaddr)) as ->.
  { unfold enc, request_options. cbn [fmap list_fmap concat]. unfold enc1. cbn [fst snd]. rewrite Hy, Hsi, app_nil_r. done. }
  assert (length (enc (request_options yiaddr siaddr)) = 15%nat) as He.
  { unfold enc, request_options. cbn [fmap list_fmap concat]. rewrite !length_app. unfold enc1. cbn [length fst snd]. lia. }
  match goal with |- context [dhcp_write_header ?s' _ _ ?x _ _ _ ?si] =>
    pose proof (dhcp_write_spec s' BOOT_REQUEST x DHCP_FLAG_BROADCAST 0 0 si 0 (request_options yiaddr siaddr) 16 Hmac ltac:(done) ltac:(lia)) as Hw end.
  change (length (request_options yiaddr siaddr)) with 3%nat in Hw. change (240 + 16)%nat with 256%nat in Hw. rewrite Hw. clear Hw. run. rewrite He. cbn [Nat.sub replicate]. rewrite client_send. run. unfold request.
  unfold siaddr, xid. rewrite !le32_copy by (done || lia). done.
Qed.

(** An acknowledgement that names no router: the null pointer is read. *)
Theorem dhcp_ack_without_router d len ck hdr opts tail t : server_message len ck hdr -> opts_ok opts -> addresses_ok opts ->
  first_opt DHCP_OPT_MSG_TYPE opts = Some (DHCP_ACK :: t) -> 240 + Z.of_nat (length (enc opts)) <= switch16 len ->
  last_opt DHCP_OPT_ROUTER opts = None -> dhcp_handle_packet d (server_packet len ck hdr opts tail) = Fault.
Proof.
  intros Hm Ho Ha Ht Hl Hr. unfold dhcp_handle_packet. rewrite (server_type len ck hdr Hm opts tail DHCP_ACK t) by done. run.
  change (DHCP_ACK =? DHCP_OFFER) with false. cbn match. rewrite Z.eqb_refl. unfold handle_ack.
  destruct (ack_options_spec opts (length (server_packet len ck hdr opts tail)) (prefix len ck hdr) tail (dhcp_net d) None) as (gw & E & Hgw); [|done|done|].
  { unfold server_packet, enc. rewrite !length_app. clear. induction opts as [|o opts IH]; cbn in *; rewrite ?length_app in *; cbn; lia. }
  rewrite Hr in Hgw. subst gw. remember (length (server_packet len ck hdr opts tail)) as fuel eqn:Ef. clear Ef.
  unfold server_packet. fold (prefix len ck hdr).
  assert (dhcp_header_size = place (prefix len ck hdr)) as -> by (unfold place; by rewrite (prefix_length len ck hdr Hm)).
  rewrite E. run. rewrite (prefix_hdr len ck hdr Hm) by lia. done.
Qed.

(** The length is compared without switching its bytes: a message whose UDP length is a multiple of 256 is taken for one that
    is too short, whatever it says. *)
Theorem dhcp_length_not_switched len ck hdr opts tail : server_message len ck hdr -> len mod 256 = 0 -> len < 61440 ->
  dhcp_packet_valid (server_packet len ck hdr opts tail) = Ok 0.
Proof.
  intros Hm H0 Hlt. unfold server_packet. fold (prefix len ck hdr). destruct (prefix_ports len ck hdr Hm (enc opts ++ DHCP_OPT_END :: tail)) as (E0 & E2 & E4).
  unfold dhcp_packet_valid. rewrite E0, E2, E4. run. rewrite !switch16_switch16 by (unfold is_u16, DHCP_DST_PORT, DHCP_SRC_PORT; lia).
  rewrite !Z.eqb_refl. cbn [negb orb]. assert ((switch16 len <? dhcp_header_size) = true) as ->; [|done].
  apply Z.ltb_lt. pose proof (sm_len _ _ _ Hm) as Hl. rewrite switch16_eq by done. unfold dhcp_header_size, is_u16 in *. Z.div_mod_to_equations. lia.
Qed.

(** ** A concrete server *)

Definition lease_header : list Z :=
  [2; 1; 6; 0; 17; 18; 19; 20; 0; 0; 128; 0; 0; 0; 0; 0; 10; 0; 2; 15; 10; 0; 2; 2; 0; 0; 0; 0; 82; 84; 0; 18; 52; 86] ++ replicate 202 0 ++
  [99; 130; 83; 99].
Definition lease_options (t : Z) : list (Z * list Z) :=
  [(53, [t]); (54, [10; 0; 2; 2]); (1, [255; 255; 255; 0]); (3, [10; 0; 2; 2])].

Lemma lease_message : server_message 308 [0; 0] lease_header.
Proof.
  split; [unfold is_u16; lia|done|done| |done|done]. unfold lease_header. repeat (apply Forall_app; split); [u8s| |u8s].
  apply Forall_replicate. unfold is_u8. lia.
Qed.

Definition new_host : net := set_addresses host null_ip null_ip.
Definition client0 : dhcp := mkDhcp new_host null_mac.

Lemma new_host_ok : address (ip new_host) /\ mac_address (mac new_host).
Proof. split; [split; [done|cbn; unfold null_ip; u8s]|apply host_mac]. Qed.

Lemma lease_options_ok : opts_ok (lease_options 5) /\ addresses_ok (lease_options 5).
Proof.
  split; repeat (apply Forall_cons; split; [cbn; unfold DHCP_OPT_END, DHCP_OPT_SUBNET_MASK, DHCP_OPT_ROUTER; lia|]); by apply Forall_nil.
Qed.

Lemma dhcp_ack_configures_witness :
  exists n, dhcp_handle_packet client0 (server_packet 308 [0; 0] lease_header (lease_options 5) []) = Ok (true, mkDhcp n null_mac) /\
    ip n = [10; 0; 2; 15] /\ gateway_ip n = [10; 0; 2; 2] /\ subnet_mast n = [255; 255; 255; 0] /\ length (sent n) = 1%nat.
Proof.
  eexists. split; [apply (dhcp_ack_configures client0 308 [0; 0] lease_header (lease_options 5) [] [] [10; 0; 2; 2] [255; 255; 255; 0]);
    [apply lease_message|apply lease_options_ok|apply lease_options_ok|done|by vm_compute|done|u8s|done|apply new_host_ok]|]. done.
Defined.

Lemma dhcp_offer_requested_witness :
  exists n, dhcp_handle_packet client0 (server_packet 308 [0; 0] lease_header (lease_options 2) []) = Ok (true, mkDhcp n [82; 84; 0; 18; 52; 86]) /\
    length (sent n) = 1%nat.
Proof.
  eexists. split; [apply (dhcp_offer_requested client0 308 [0; 0] lease_header (lease_options 2) [] []);
    [apply lease_message|done|by vm_compute|apply new_host_ok|apply new_host_ok]|]. done.
Defined.

Lemma dhcp_ack_without_router_witness :
  last_opt DHCP_OPT_ROUTER [(53, [5])] = None /\ dhcp_handle_packet client0 (server_packet 308 [0; 0] lease_header [(53, [5])] []) = Fault.
Proof.
  split; [done|]. apply (dhcp_ack_without_router client0 308 [0; 0] lease_header [(53, [5])] [] []);
    [apply lease_message|apply Forall_singleton; cbn; unfold DHCP_OPT_END; lia|apply Forall_singleton; cbn; unfold DHCP_OPT_SUBNET_MASK, DHCP_OPT_ROUTER; lia|
     done|by vm_compute|done].
Defined.

Lemma lease_message_512 : server_message 512 [0; 0] lease_header.
Proof. destruct lease_message. split; [unfold is_u16; lia|done..]. Qed.

Lemma dhcp_length_not_switched_witness :
  512 mod 256 = 0 /\ dhcp_packet_valid (server_packet 512 [0; 0] lease_header (lease_options 5) []) = Ok 0.
Proof. split; [done|]. apply (dhcp_length_not_switched 512 [0; 0] lease_header (lease_options 5) []); [apply lease_message_512|done|lia]. Defined.

End Dhcp.
