(* ===== verification/Dns.v ===== *)
(** * DNS ([network/DNS.cpp])

    Questions, the sockets that wait for an address, and how an answer is read.  A message is the memory from its header on.
    The buffer that [parse_name] fills is a list of cells, empty until they are written: a write outside of it is a fault, and
    so is a read of a cell that was never written.  A socket is named by its port, which is unique. *)

From stdpp Require Import base tactics numbers list.
From S2P Require Import Prelude Bytes Net Tcp.
Import Bytes Net Tcp.
Open Scope Z_scope.

Module Dns.

Definition DNS_PORT : Z := 53.
Definition DNS_QUERY : Z := Z.shiftl 0 15.
Definition DNS_RECURSION_DESIRED : Z := Z.shiftl 1 8.
Definition DNS_OPCODE_QUERY : Z := Z.shiftl 0 11.
Definition DNS_REQUEST_A : Z := 1.
Definition DNS_REQUEST_CNAME : Z := 5.
Definition DNS_IN : Z := 1.
Definition DNS_PENDING_QUEUE_SIZE : nat := 10.
Definition google_dns_ip : list Z := [8; 8; 8; 8].
Definition dns_header_size : Z := 12.
Definition question_content_size : Z := 4.
Definition resource_record_content_size : Z := 10.
Definition DOT : Z := 46.

(** The sockets of the kernel with the resolver's state: the number of the last question, and who waits for which name. *)
Record resolver := mkResolver { tcp : stack; last_query_id : Z; queue : list (option (Z * list Z)); queue_size : Z }.
Definition set_tcp (r : resolver) w : resolver := mkResolver w (last_query_id r) (queue r) (queue_size r).

(** ** Questions *)

Definition get_encoded_name_len (name : list Z) : Z := Z.of_nat (length name) + 2.
Definition get_question_size (name : list Z) : Z := dns_header_size + get_encoded_name_len name + question_content_size.

(** A label of [len] characters that ends before the [i]-th character of the name, written to [o]. *)
Definition write_label (buf : list Z) (o : Z) (name : list Z) (i len : Z) : res (list Z) :=
  buf ← set8 buf o len; x ← getn name (i - len) len; patch_in buf (o + 1) x.

(** The loop over the characters; [rest] is the name from [i] on.  The answer is the place behind the name. *)
Fixpoint write_name_loop (buf : list Z) (o : Z) (name : list Z) (i len : Z) (rest : list Z) : res (list Z * Z) :=
  match rest with
  | [] => buf ← write_label buf o name i len; buf ← set8 buf (o + 1 + len) 0; Ok (buf, o + 2 + len)
  | c :: rest =>
      if c =? DOT then buf ← write_label buf o name i len; write_name_loop buf (o + 1 + len) name (i + 1) 0 rest
      else write_name_loop buf o name (i + 1) (u8 (len + 1)) rest
  end.
Definition write_encoded_name (buf : list Z) (o : Z) (name : list Z) : res (list Z * Z) := write_name_loop buf o name 0 0 name.

Definition dns_write_header (r : resolver) (buf name content : list Z) : res (list Z * resolver) :=
  '(x, n) ← generate_random_id16 (net_of (tcp r));
  let id := u16 x in
  buf ← set16 buf 0 id; buf ← set16 buf 2 (switch16 (Z.lor (Z.lor DNS_QUERY DNS_OPCODE_QUERY) DNS_RECURSION_DESIRED));
  buf ← set16 buf 4 (switch16 1);
  '(buf, o) ← write_encoded_name buf dns_header_size name;
  buf ← patch_in buf o content;
  Ok (buf, mkResolver (mkStack n (sockets (tcp r)) (log (tcp r))) id (queue r) (queue_size r)).

(** The first free place of the queue. *)
Fixpoint free_place (q : list (option (Z * list Z))) : res nat :=
  match q with
  | [] => Fault
  | None :: _ => Ok 0%nat
  | Some _ :: q => i ← free_place q; Ok (S i)
  end.

(** [resolve_hostname] for the socket with the port [p]. *)
Definition resolve_hostname (r : resolver) (hostname : option (list Z)) (p : Z) : res resolver :=
  if queue_size r =? Z.of_nat DNS_PENDING_QUEUE_SIZE then Ok r
  else
    name ← deref hostname;
    i ← free_place (queue r);
    let r := mkResolver (tcp r) (last_query_id r) (<[i := Some (p, name)]> (queue r)) (queue_size r + 1) in
    m ← get_mac (net_of (tcp r)) google_dns_ip;
    '(pre, buf) ← udp_create_packet (net_of (tcp r)) DNS_PORT DNS_PORT (u16 (get_question_size name)) google_dns_ip m;
    '(buf, r) ← dns_write_header r buf name (le16 (switch16 DNS_REQUEST_A) ++ le16 (switch16 DNS_IN));
    n ← send_packet (net_of (tcp r)) (pre ++ buf);
    Ok (set_tcp r (mkStack n (sockets (tcp r)) (log (tcp r)))).

(** Run an operation of the socket at [i]: when it asks for a name to be resolved, the resolver is called. *)
Definition run_socket (r : resolver) (i : nat) (f : conn -> res conn) : res resolver :=
  k ← deref (sockets (tcp r) !! i);
  w ← with_socket (tcp r) i f;
  let r' := set_tcp r w in
  match drop (length (log (tcp r))) (log w) with
  | [Resolve h] => resolve_hostname r' h (port k)
  | _ => Ok r'
  end.

(** ** Names in answers *)

(** The cells of a new buffer, a write to them, and the string in them. *)
Definition new_buffer (n : Z) : list (option Z) := replicate (Z.to_nat n) None.
Definition put (buf : list (option Z)) (o : Z) (x : list (option Z)) : res (list (option Z)) :=
  if (0 <=? o) && (o + Z.of_nat (length x) <=? Z.of_nat (length buf)) then
    Ok (take (Z.to_nat o) buf ++ x ++ drop (Z.to_nat o + length x) buf)
  else Fault.
Fixpoint read_string (buf : list (option Z)) : res (list Z) :=
  match buf with
  | Some c :: buf => if c =? 0 then Ok [] else s ← read_string buf; Ok (c :: s)
  | _ => Fault
  end.

Definition is_pointer (c : Z) : bool := Z.land c 0xC0 =? 0xC0.
Definition pointer_at (mem : list Z) (o : Z) : res Z := w ← get16 mem o; Ok (Z.land (switch16 w) 0x3FFF).

(** Make room for [l] characters and a dot: the capacity is doubled once. *)
Definition make_room (buf : list (option Z)) (buf_size l : Z) : res (list (option Z)) :=
  let buf_capacity := Z.of_nat (length buf) in
  if buf_capacity <? buf_size + l + 1 then
    put (new_buffer (buf_capacity * 2)) 0 (take (Z.to_nat buf_size) buf)
  else Ok buf.

(** [parse_name_aux] and its loop.  A call always leaves [is_end] set. *)
Fixpoint parse_name_aux (fuel : nat) (mem : list Z) (name : Z) : res (list (option Z)) :=
  match fuel with
  | O => NoFuel
  | S fuel =>
      c ← get8 mem name;
      if is_pointer c then offset ← pointer_at mem name; parse_name_aux fuel mem offset
      else parse_name_loop fuel mem name 0 0 0 (new_buffer 5) false
  end
with parse_name_loop (fuel : nat) (mem : list Z) (name idx res_idx buf_size : Z) (buf : list (option Z)) (is_end : bool) : res (list (option Z)) :=
  match fuel with
  | O => NoFuel
  | S fuel =>
      c ← get8 mem (name + idx);
      if (c =? 0) || is_end then put buf (res_idx - 1) [Some 0]
      else if is_pointer c then
        offset ← pointer_at mem (name + idx);
        sub ← parse_name_aux fuel mem offset; s ← read_string sub;
        let l := u8 (Z.of_nat (length s)) in
        buf ← make_room buf buf_size l;
        buf ← put buf res_idx (take (Z.to_nat l) sub); buf ← put buf (idx + l) [Some DOT];
        parse_name_loop fuel mem name (idx + 2) (res_idx + l + 1) (buf_size + l + 1) buf true
      else
        let l := c in
        buf ← make_room buf buf_size l;
        sub ← getn mem (name + idx + 1) l;
        buf ← put buf res_idx (Some <$> sub); buf ← put buf (idx + l) [Some DOT];
        parse_name_loop fuel mem name (idx + l + 1) (res_idx + l + 1) (buf_size + l + 1) buf is_end
  end.

Definition parse_name (fuel : nat) (mem : list Z) (name : Z) : res (list (option Z)) := parse_name_aux fuel mem name.

(** ** Answers *)

(** [strlen] in memory. *)
Fixpoint strlen_mem (l : list Z) : res Z :=
  match l with [] => Fault | c :: l => if c =? 0 then Ok 0 else n ← strlen_mem l; Ok (n + 1) end.

(** The length of the name at [b]: a pointer, or up to the terminator. *)
Definition name_len (mem : list Z) (b : Z) : res Z :=
  c ← get8 mem b; if is_pointer c then Ok 2 else n ← strlen_mem (drop (Z.to_nat b) mem); Ok (n + 1).

Fixpoint skip_queries (mem : list Z) (b : Z) (n : nat) : res Z :=
  match n with O => Ok b | S n => l ← name_len mem b; skip_queries mem (b + l + question_content_size) n end.

(** The fields of the record behind the name at [b]: where it starts, its type, its class, and where the next one is. *)
Definition record_at (mem : list Z) (b : Z) : res (Z * Z * Z * Z) :=
  l ← name_len mem b;
  let rc := b + l in
  type ← get16 mem rc; class ← get16 mem (rc + 2); data_len ← get16 mem (rc + 8);
  Ok (rc, switch16 type, switch16 class, rc + resource_record_content_size + switch16 data_len).

(** [display_response] only reads: the names are parsed and freed. *)
Fixpoint display_answers (fuel : nat) (mem : list Z) (b : Z) (n : nat) : res unit :=
  match n with
  | O => Ok tt
  | S n =>
      '(rc, type, class, next) ← record_at mem b;
      if negb (class =? DNS_IN) then display_answers fuel mem next n
      else
        _ ← parse_name fuel mem b;
        _ ← (if type =? DNS_REQUEST_CNAME then parse_name fuel mem (rc + resource_record_content_size) else Ok []);
        display_answers fuel mem next n
  end.

Definition count_at (mem : list Z) (o : Z) : res nat := w ← get16 mem o; Ok (Z.to_nat (switch16 w)).

Definition display_response (fuel : nat) (mem : list Z) : res unit :=
  q ← count_at mem 4; b ← skip_queries mem dns_header_size q; n ← count_at mem 6; display_answers fuel mem b n.

(** What the loop over the answers has found: the name that was asked for, the last alias, and where the address is. *)
Record found := mkFound { resolved_hostname : option (list (option Z)); last_seen_alias : option (list (option Z)); resolved_ip : option Z }.

Fixpoint read_answers (fuel : nat) (mem : list Z) (b : Z) (n : nat) (f : found) : res found :=
  match n with
  | O => Ok f
  | S n =>
      '(rc, type, class, next) ← record_at mem b;
      if negb (class =? DNS_IN) then read_answers fuel mem next n f
      else
        name ← parse_name fuel mem b;
        f ← (match last_seen_alias f with
             | Some a => _ ← read_string a; _ ← read_string name; Ok f
             | None => Ok (mkFound (Some name) (Some name) (resolved_ip f))
             end);
        f ← (if type =? DNS_REQUEST_CNAME then
               alias_name ← parse_name fuel mem (rc + resource_record_content_size);
               Ok (mkFound (resolved_hostname f) (Some alias_name) (resolved_ip f))
             else if type =? DNS_REQUEST_A then
               Ok (mkFound (resolved_hostname f) (last_seen_alias f) (Some (rc + resource_record_content_size)))
             else Ok f);
        read_answers fuel mem next n f
  end.

(** The first entry of the queue that waits for the name. *)
Fixpoint find_waiting (q : list (option (Z * list Z))) (name : option (list (option Z))) : res (option nat) :=
  match q with
  | [] => Ok None
  | None :: q => o ← find_waiting q name; Ok (option_map S o)
  | Some (_, h) :: q =>
      s ← deref name; s ← read_string s;
      if bool_decide (h = s) then Ok (Some 0%nat) else o ← find_waiting q name; Ok (option_map S o)
  end.

(** A UDP packet from its header on; the message is at 8.  The answer is [true] when it was ours. *)
Definition dns_handle_packet (fuel : nat) (r : resolver) (p : list Z) : res (bool * resolver) :=
  dst_port ← get16 p 2; len ← get16 p 4;
  if negb (switch16 dst_port =? DNS_PORT) || (switch16 len <? dns_header_size) then Ok (false, r)
  else
    let mem := drop 8 p in
    id ← get16 mem 0;
    if negb (id =? last_query_id r) then Ok (false, r)
    else
      _ ← display_response fuel mem;
      q ← count_at mem 4; b ← skip_queries mem dns_header_size q; n ← count_at mem 6;
      f ← read_answers fuel mem b n (mkFound None None None);
      w ← find_waiting (queue r) (resolved_hostname f);
      match w with
      | None => Ok (true, r)
      | Some i =>
          e ← deref (queue r !! i); e ← deref e;
          k ← deref (port_used (sockets (tcp r)) (fst e));
          o ← deref (resolved_ip f); addr ← getn mem o 4;
          r ← run_socket r k (fun c => on_hostname_resolved c addr);
          Ok (true, mkResolver (tcp r) (last_query_id r) (<[i := None]> (queue r)) (queue_size r - 1))
      end.

(** ** Names on the wire *)

Fixpoint join (ls : list (list Z)) : list Z :=
  match ls with [] => [] | [l] => l | l :: ls => l ++ DOT :: join ls end.
Definition enc_label (l : list Z) : list Z := Z.of_nat (length l) :: l.
Definition enc_name (ls : list (list Z)) : list Z := concat (enc_label <$> ls) ++ [0].

(** What a name consists of. *)
Definition label_ok (l : list Z) : Prop := (0 < length l < 64)%nat /\ Forall (fun c => 0 < c < 256 /\ c <> DOT) l.

Lemma enc_name_cons l ls : enc_name (l :: ls) = enc_label l ++ enc_name ls.
Proof. unfold enc_name. cbn. by rewrite <- app_assoc. Qed.

Lemma join_cons l ls : ls <> [] -> join (l :: ls) = l ++ DOT :: join ls.
Proof. by destruct ls. Qed.

(** The encoding is two bytes longer than the name. *)
Lemma enc_name_length ls : ls <> [] -> length (enc_name ls) = (length (join ls) + 2)%nat.
Proof.
  induction ls as [|l ls IH]; [done|]. intros _. rewrite enc_name_cons, length_app. destruct (decide (ls = [])) as [->|Hne].
  - cbn. lia.
  - rewrite join_cons, length_app, IH by done. cbn. lia.
Qed.

Lemma loop_chars l : forall buf o name i len tail, Forall (fun c => c <> DOT) l -> 0 <= len -> len + Z.of_nat (length l) < 256 ->
  write_name_loop buf o name i len (l ++ tail) = write_name_loop buf o name (i + Z.of_nat (length l)) (len + Z.of_nat (length l)) tail.
Proof.
  induction l as [|c l IH]; intros buf o name i len tail Hl Hn Hb; cbn [app length]; [f_equal; lia|].
  apply Forall_cons in Hl as [Hc Hl]. cbn [write_name_loop]. rewrite (proj2 (Z.eqb_neq _ _)) by done. cbn [length] in Hb.
  rewrite u8_id by (unfold is_u8; lia). rewrite IH by (done || lia). f_equal; lia.
Qed.

Lemma write_label_spec pre z post dn l tail : length z = length l -> is_u8 (Z.of_nat (length l)) ->
  write_label (pre ++ 0 :: z ++ post) (Z.of_nat (length pre)) (dn ++ l ++ tail) (Z.of_nat (length dn) + Z.of_nat (length l)) (Z.of_nat (length l)) =
    Ok (pre ++ enc_label l ++ post).
Proof.
  intros Hz Hl. unfold write_label, set8. rewrite (Z.mod_small (Z.of_nat (length l))) by done.
  rewrite (patch_in_mid pre [0] (z ++ post) [Z.of_nat (length l)]) by done. run.
  replace (Z.of_nat (length dn) + Z.of_nat (length l) - Z.of_nat (length l)) with (Z.of_nat (length dn) + 0) by lia. rewrite getn_skip by lia.
  rewrite getn_start by lia. run. rewrite slice_full by done.
  rewrite (app_assoc pre), (patch_in_mid (pre ++ [_]) z post l); [by rewrite <- app_assoc|rewrite length_app; cbn; lia|done].
Qed.

(** Induction over the labels that are left. *)
Lemma write_labels_spec ls : ls <> [] -> Forall label_ok ls -> forall pre post dn,
  write_name_loop (pre ++ replicate (length (join ls) + 2) 0 ++ post) (Z.of_nat (length pre)) (dn ++ join ls) (Z.of_nat (length dn)) 0 (join ls) =
    Ok (pre ++ enc_name ls ++ post, Z.of_nat (length pre + (length (join ls) + 2))).
Proof.
  induction ls as [|l ls IH]; [done|]. intros _ Hls pre post dn. apply Forall_cons in Hls as [[Hll Hlc] Hls].
  assert (Forall (fun c => c <> DOT) l) as Hdot by (eapply Forall_impl; [exact Hlc|]; by intros c []).
  assert (is_u8 (Z.of_nat (length l))) as Hu8 by (unfold is_u8; lia).
  destruct (decide (ls = [])) as [->|Hne].
  - cbn [join]. match goal with |- write_name_loop ?b ?o ?n ?i 0 l = _ => pose proof (loop_chars l b o n i 0 [] Hdot ltac:(lia) ltac:(lia)) as E end.
    rewrite app_nil_r in E. rewrite E, Z.add_0_l. clear E. cbn [write_name_loop].
    replace (length l + 2)%nat with (1 + (length l + 1))%nat by lia. rewrite !replicate_add. cbn [replicate app].
    rewrite <- (app_assoc (replicate (length l) 0)). pose proof (write_label_spec pre (replicate (length l) 0) (0 :: post) dn l [] (length_replicate _ _) Hu8) as E.
    rewrite app_nil_r in E. cbn [app]. rewrite E. clear E. run.
    unfold set8. rewrite (app_assoc pre), (patch_in_mid (pre ++ enc_label l) [0] post [0 mod 256]); [|rewrite length_app; cbn; lia|done]. run.
    unfold enc_name. cbn [fmap list_fmap concat]. rewrite <- !app_assoc. cbn [app]. do 2 f_equal. lia.
  - rewrite join_cons by done. rewrite (loop_chars l) by (done || lia). rewrite Z.add_0_l. cbn [write_name_loop]. rewrite Z.eqb_refl.
    rewrite length_app. cbn [length].
    replace (length l + S (length (join ls)) + 2)%nat with (1 + (length l + (length (join ls) + 2)))%nat by lia.
    rewrite (replicate_add 1), (replicate_add (length l)). cbn [replicate app].
    rewrite <- (app_assoc (replicate (length l) 0)). rewrite write_label_spec by (done || by rewrite length_replicate). run.
    rewrite (app_assoc pre). replace (dn ++ l ++ DOT :: join ls) with (((dn ++ l) ++ [DOT]) ++ join ls) by (by rewrite <- !app_assoc).
    replace (Z.of_nat (length pre) + 1 + Z.of_nat (length l)) with (Z.of_nat (length (pre ++ enc_label l))) by (rewrite length_app; cbn; lia).
    replace (Z.of_nat (length dn) + Z.of_nat (length l) + 1) with (Z.of_nat (length ((dn ++ l) ++ [DOT]))) by (rewrite !length_app; cbn; lia).
    rewrite IH by done. rewrite enc_name_cons, <- !app_assoc. do 2 f_equal. rewrite !length_app. cbn [length enc_label]. lia.
Qed.

(** Claim C35: A name is written as its labels, each behind its length, and takes the space that is reserved for it. *)
Theorem encoded_name_fits ls pre post : ls <> [] -> Forall label_ok ls ->
  let space := Z.to_nat (get_encoded_name_len (join ls)) in
  write_encoded_name (pre ++ replicate space 0 ++ post) (Z.of_nat (length pre)) (join ls) =
    Ok (pre ++ enc_name ls ++ post, Z.of_nat (length pre) + get_encoded_name_len (join ls)).
Proof.
  intros Hne Hls space. unfold space, get_encoded_name_len, write_encoded_name.
  replace (Z.to_nat (Z.of_nat (length (join ls)) + 2)) with (length (join ls) + 2)%nat by lia.
  pose proof (write_labels_spec ls Hne Hls pre post []) as E. cbn [app length] in E. change (Z.of_nat 0) with 0 in E. rewrite E. do 2 f_equal. lia.
Qed.

(** ** Names that are read *)

(** Whether the buffer, which starts with five bytes and is doubled at most once per label, holds the labels. *)
Fixpoint fits (cap size : Z) (ls : list (list Z)) : bool :=
  match ls with
  | [] => true
  | l :: ls =>
      let need := size + Z.of_nat (length l) + 1 in
      let cap := if cap <? need then cap * 2 else cap in
      (need <=? cap) && fits cap need ls
  end.

Lemma put_mid a x b y o : o = Z.of_nat (length a) -> length x = length y -> put (a ++ x ++ b) o y = Ok (a ++ y ++ b).
Proof.
  intros -> Hl. unfold put. rewrite (proj2 (Z.leb_le 0 _)), (proj2 (Z.leb_le _ _)) by (rewrite ?length_app; lia). cbn [andb].
  rewrite Nat2Z.id, take_app_length, <- Hl. assert (drop (length a + length x) (a ++ x ++ b) = b) as ->; [|done].
  rewrite app_assoc, <- length_app. apply drop_app_length.
Qed.

Lemma put_out buf o x : Z.of_nat (length buf) < o + Z.of_nat (length x) -> put buf o x = Fault.
Proof. intros H. unfold put. by rewrite (proj2 (Z.leb_gt (o + Z.of_nat (length x)) (Z.of_nat (length buf)))), andb_false_r by lia. Qed.

Lemma read_string_app s rest : Forall (fun c => c <> 0) s -> read_string ((Some <$> s) ++ Some 0 :: rest) = Ok s.
Proof. induction 1 as [|c s Hc _ IH]; [done|]. cbn. rewrite (proj2 (Z.eqb_neq c 0)) by done. cbn in IH. rewrite IH. done. Qed.

(** The characters that are written after some labels: each with a dot behind it. *)
Definition dotted (ls : list (list Z)) : list Z := concat ((fun l => l ++ [DOT]) <$> ls).

Lemma dotted_join ls : ls <> [] -> dotted ls = join ls ++ [DOT].
Proof.
  induction ls as [|l ls IH]; [done|]. intros _. destruct (decide (ls = [])) as [->|Hne].
  - unfold dotted. cbn. by rewrite app_nil_r.
  - rewrite join_cons by done. unfold dotted in *. cbn. rewrite IH by done. by rewrite <- !app_assoc.
Qed.

Lemma join_nonzero ls : Forall label_ok ls -> Forall (fun c => c <> 0) (join ls).
Proof.
  induction 1 as [|l ls [_ Hl] Hls IH]; [done|]. assert (Forall (fun c => c <> 0) l) as H0 by (eapply Forall_impl; [exact Hl|]; intros c [? _]; lia).
  destruct (decide (ls = [])) as [->|Hne]; [done|]. rewrite join_cons by done. apply Forall_app. split; [done|]. by apply Forall_cons.
Qed.

Lemma length_not_pointer c : 0 <= c < 64 -> is_pointer c = false.
Proof. intros Hc. unfold is_pointer. change 0xC0 with (3 * 2 ^ 6). rewrite land_disjoint by lia. done. Qed.

(** Room for a label: the characters so far are kept, and there is a cell for each further one unless doubling is not enough. *)
Lemma make_room_spec (w : list Z) (k : nat) l : 
  exists k', make_room ((Some <$> w) ++ replicate k None) (Z.of_nat (length w)) l = Ok ((Some <$> w) ++ replicate k' None) /\
    Z.of_nat (length w + k') =
      (if Z.of_nat (length w + k) <? Z.of_nat (length w) + l + 1 then Z.of_nat (length w + k) * 2 else Z.of_nat (length w + k)).
Proof.
  unfold make_room. rewrite length_app, length_fmap, length_replicate. destruct (Z.ltb_spec (Z.of_nat (length w + k)) (Z.of_nat (length w) + l + 1)).
  - exists (length w + k + k)%nat. split; [|lia]. unfold new_buffer.
    replace (Z.to_nat (Z.of_nat (length w + k) * 2)) with (length w + (length w + k + k))%nat by lia. rewrite replicate_add.
    rewrite Nat2Z.id, take_app_length' by by rewrite length_fmap. apply (put_mid [] (replicate (length w) None) _ (Some <$> w)); [done|].
    by rewrite length_replicate, length_fmap.
  - by exists k.
Qed.

Lemma parse_loop_spec ls : Forall label_ok ls -> forall fuel pre dn post w k, (length ls < fuel)%nat ->
  (dn <> [] \/ ls <> []) -> w = dotted dn ->
  length (concat (enc_label <$> dn)) = length w -> Forall label_ok dn ->
  let mem := pre ++ concat (enc_label <$> dn) ++ enc_name ls ++ post in
  let r := parse_name_loop fuel mem (Z.of_nat (length pre)) (Z.of_nat (length w)) (Z.of_nat (length w)) (Z.of_nat (length w))
    ((Some <$> w) ++ replicate k None) false in
  if fits (Z.of_nat (length w + k)) (Z.of_nat (length w)) ls
  then exists rest, r = Ok ((Some <$> join (dn ++ ls)) ++ Some 0 :: rest)
  else r = Fault.
Proof.
  induction 1 as [|l ls [Hll Hlc] Hls IH]; intros fuel pre dn post w k Hf Hne -> Hlen Hdn mem r; (destruct fuel as [|fuel]; [by cbn in Hf; lia|]).
  - cbn [fits]. exists (replicate k None). destruct Hne as [Hne|]; [|done]. unfold r. cbn [parse_name_loop]. unfold mem.
    rewrite <- Hlen, (app_assoc pre), <- Nat2Z.inj_add, <- length_app. rewrite <- (Z.add_0_r (Z.of_nat (length (pre ++ _)))), get8_skip by lia.
    unfold enc_name. cbn [fmap list_fmap concat app]. rewrite get8_head. run. cbn [Z.eqb orb].
    rewrite Hlen, (dotted_join dn) by done. rewrite fmap_app, <- app_assoc, app_nil_r.
    rewrite (put_mid (Some <$> join dn) [Some DOT] _ [Some 0]); [done| |done]. rewrite length_app, length_fmap. cbn. lia.
  - assert (get8 mem (Z.of_nat (length pre) + Z.of_nat (length (dotted dn))) = Ok (Z.of_nat (length l))) as Hc.
    { unfold mem. rewrite <- Hlen, (app_assoc pre), <- Nat2Z.inj_add, <- length_app. rewrite <- (Z.add_0_r (Z.of_nat (length (pre ++ _)))), get8_skip by lia.
      rewrite enc_name_cons. apply get8_head. }
    unfold r. cbn [parse_name_loop]. rewrite Hc. run. rewrite (proj2 (Z.eqb_neq (Z.of_nat (length l)) 0)) by lia. cbn [orb].
    rewrite length_not_pointer by lia. destruct (make_room_spec (dotted dn) k (Z.of_nat (length l))) as (k' & -> & Hk'). run.
    assert (getn mem (Z.of_nat (length pre) + Z.of_nat (length (dotted dn)) + 1) (Z.of_nat (length l)) = Ok l) as ->.
    { unfold mem. rewrite <- Hlen, (app_assoc pre), <- Nat2Z.inj_add, <- length_app. rewrite getn_skip by lia. rewrite enc_name_cons, <- app_assoc.
      change (enc_label l ++ ?x) with ([Z.of_nat (length l)] ++ l ++ x). rewrite (getn_skip [_] _ 0) by lia. rewrite getn_start by lia. by rewrite slice_full. }
    run. cbn [fits]. rewrite <- Hk'. destruct (Z.leb_spec (Z.of_nat (length (dotted dn)) + Z.of_nat (length l) + 1) (Z.of_nat (length (dotted dn) + k'))) as [Hfit|Hov]; cbn [andb].
    + assert (exists k2, k' = (length l + (1 + k2))%nat) as [k2 ->] by (exists (k' - length l - 1)%nat; lia).
      rewrite (replicate_add (length l)), (replicate_add 1).
      rewrite (put_mid (Some <$> dotted dn) (replicate (length l) None) _ (Some <$> l)); [|by rewrite length_fmap|by rewrite length_replicate, length_fmap]. run.
      rewrite (app_assoc (Some <$> dotted dn)), <- fmap_app.
      rewrite (put_mid (Some <$> dotted dn ++ l) (replicate 1 None) _ [Some DOT]); [|rewrite length_fmap, length_app; lia|done]. run.
      specialize (IH fuel pre (dn ++ [l]) post (dotted (dn ++ [l])) k2). cbv zeta in IH.
      assert (dotted (dn ++ [l]) = (dotted dn ++ l) ++ [DOT]) as Ed by (unfold dotted; rewrite fmap_app, concat_app; cbn; by rewrite app_nil_r, app_assoc).
      rewrite Ed in IH. rewrite fmap_app, concat_app in IH. cbn [fmap list_fmap concat] in IH. rewrite app_nil_r in IH.
      unfold mem. rewrite enc_name_cons, <- (app_assoc (enc_label l)), (app_assoc (concat _)).
      replace (Z.of_nat (length (dotted dn)) + Z.of_nat (length l) + 1) with (Z.of_nat (length ((dotted dn ++ l) ++ [DOT]))) by (rewrite !length_app; cbn; lia).
      replace (length (dotted dn) + (length l + (1 + k2)))%nat with (length ((dotted dn ++ l) ++ [DOT]) + k2)%nat by (rewrite !length_app; cbn; lia).
      replace ((Some <$> dotted dn ++ l) ++ [Some DOT] ++ replicate k2 None) with ((Some <$> (dotted dn ++ l) ++ [DOT]) ++ replicate k2 None)
        by (by rewrite (fmap_app _ (dotted dn ++ l)), <- app_assoc).
      rewrite <- (app_assoc dn [l] ls) in IH.
      apply IH; [cbn in Hf; lia|by left; destruct dn|done| |by apply Forall_app; split; [|apply Forall_singleton; split]].
      rewrite !length_app, Hlen. cbn. lia.
    + destruct (decide (Z.of_nat (length (dotted dn) + k') < Z.of_nat (length (dotted dn)) + Z.of_nat (length l))).
      * by rewrite put_out by (rewrite length_app, !length_fmap, length_replicate; lia).
      * assert (k' = length l) as -> by lia. rewrite <- (app_nil_r (replicate (length l) None)).
        rewrite (put_mid (Some <$> dotted dn) (replicate (length l) None) [] (Some <$> l)); [|by rewrite length_fmap|by rewrite length_replicate, length_fmap]. run.
        by rewrite put_out by (rewrite !length_app, !length_fmap; cbn; lia).
Qed.

Lemma parse_name_at ls pre post fuel : ls <> [] -> Forall label_ok ls -> (length ls + 1 < fuel)%nat ->
  let r := parse_name_aux fuel (pre ++ enc_name ls ++ post) (Z.of_nat (length pre)) in
  if fits 5 0 ls then exists buf, r = Ok buf /\ read_string buf = Ok (join ls) else r = Fault.
Proof.
  intros Hne Hls Hf r. destruct fuel as [|fuel]; [lia|]. unfold r. cbn [parse_name_aux].
  assert (exists c, get8 (pre ++ enc_name ls ++ post) (Z.of_nat (length pre)) = Ok c /\ 0 <= c < 64) as (c & -> & Hc).
  { rewrite <- (Z.add_0_r (Z.of_nat (length pre))), get8_skip by lia. destruct ls as [|l ls]; [done|]. apply Forall_cons in Hls as [[Hl _] _].
    rewrite enc_name_cons. eexists. split; [apply get8_head|]. lia. }
  run. rewrite length_not_pointer by done.
  pose proof (parse_loop_spec ls Hls fuel pre [] post [] 5 ltac:(lia) (or_intror Hne) eq_refl eq_refl ltac:(by apply Forall_nil)) as H. cbv zeta in H.
  cbn [length fmap list_fmap concat app] in H. change (Z.of_nat 0) with 0 in H. change (Z.of_nat (0 + 5)) with 5 in H.
  change (new_buffer 5) with (replicate 5 (@None Z)). destruct (fits 5 0 ls); [|exact H]. destruct H as [rest ->]. eexists. split; [done|].
  by apply read_string_app, join_nonzero.
Qed.

(** Claim C34: Reading a name back that was written as labels gives the name, as long as the buffer is large enough; it is doubled only
    once for each label, and a name that needs more is written behind its end. *)
Theorem parse_encoded_name ls pre post fuel : ls <> [] -> Forall label_ok ls -> (length ls + 1 < fuel)%nat ->
  let r := parse_name fuel (pre ++ enc_name ls ++ post) (Z.of_nat (length pre)) in
  if fits 5 0 ls then exists buf, r = Ok buf /\ read_string buf = Ok (join ls) else r = Fault.
Proof. apply parse_name_at. Qed.

(** ** An answer with one address *)

(** The answer to a question for a name: the question again, and a record whose name is a pointer to it. *)
Definition answer (id : Z) (flags ttl : list Z) (ls : list (list Z)) (addr rest : list Z) : list Z :=
  (le16 id ++ flags ++ [0; 1; 0; 1; 0; 0; 0; 0]) ++ enc_name ls ++ [0; 1; 0; 1] ++ ([192; 12; 0; 1; 0; 1] ++ ttl ++ [0; 4]) ++ addr ++ rest.

Lemma strlen_enc ls tail : Forall label_ok ls -> strlen_mem (concat (enc_label <$> ls) ++ 0 :: tail) = Ok (Z.of_nat (length (concat (enc_label <$> ls)))).
Proof.
  intros Hls. assert (Forall (fun c => c <> 0) (concat (enc_label <$> ls))) as H0.
  { induction Hls as [|l ls [Hl Hc] _ IH]; [done|]. cbn. apply Forall_cons. split; [lia|]. apply Forall_app. split; [|done].
    eapply Forall_impl; [exact Hc|]. intros c [? _]. lia. }
  induction H0 as [|c l Hc _ IH]; [done|]. cbn. rewrite (proj2 (Z.eqb_neq c 0)) by done. rewrite IH. run. f_equal. lia.
Qed.

Lemma name_len_enc pre ls post : ls <> [] -> Forall label_ok ls ->
  name_len (pre ++ enc_name ls ++ post) (Z.of_nat (length pre)) = Ok (Z.of_nat (length (enc_name ls))).
Proof.
  intros Hne Hls. unfold name_len. rewrite <- (Z.add_0_r (Z.of_nat (length pre))), get8_skip, Z.add_0_r by lia.
  assert (exists c, get8 (enc_name ls ++ post) 0 = Ok c /\ 0 <= c < 64) as (c & -> & Hc).
  { destruct ls as [|l ls]; [done|]. apply Forall_cons in Hls as [[Hl _] _]. rewrite enc_name_cons. eexists. split; [apply get8_head|]. lia. }
  run. rewrite length_not_pointer by done. rewrite Nat2Z.id, drop_app_length. unfold enc_name. rewrite <- app_assoc. cbn [app].
  rewrite strlen_enc by done. run. rewrite length_app. cbn [length]. f_equal. lia.
Qed.

Section answered.
Context (id : Z) (flags ttl : list Z) (ls : list (list Z)) (addr rest : list Z).
Context (Hfl : length flags = 2%nat) (Httl : length ttl = 4%nat) (Haddr : length addr = 4%nat) (Hne : ls <> []) (Hls : Forall label_ok ls).
Notation mem := (answer id flags ttl ls addr rest).
Notation record := (16 + Z.of_nat (length (enc_name ls))).

Lemma answer_parts :
  exists h, length h = 12%nat /\ mem = h ++ enc_name ls ++ [0; 1; 0; 1] ++ ([192; 12; 0; 1; 0; 1] ++ ttl ++ [0; 4]) ++ addr ++ rest /\
    get16 mem 0 = Ok (rd16 (le16 id) 0) /\ count_at mem 4 = Ok 1%nat /\ count_at mem 6 = Ok 1%nat.
Proof.
  exists (le16 id ++ flags ++ [0; 1; 0; 1; 0; 0; 0; 0]). assert (length (le16 id ++ flags ++ [0; 1; 0; 1; 0; 0; 0; 0]) = 12%nat) as Hh by (rewrite !length_app, Hfl; done).
  split; [done|]. split; [done|]. unfold count_at, get16, answer. rewrite !getn_start by lia. destruct flags as [|f0 [|f1 [|]]]; try done.
Qed.

Lemma answer_question : skip_queries mem dns_header_size 1 = Ok record.
Proof.
  destruct answer_parts as (h & Hh & E & _). cbn [skip_queries]. rewrite E. replace dns_header_size with (Z.of_nat (length h)) by (rewrite Hh; done).
  rewrite name_len_enc by done. run. unfold question_content_size. f_equal. lia.
Qed.

(** Reads in the record. *)
Lemma record_reads o n : 0 <= o -> 0 <= n -> o + n <= 12 -> getn mem (record + o) n = Ok (slice ([192; 12; 0; 1; 0; 1] ++ ttl ++ [0; 4]) o n).
Proof.
  intros Ho Hn Hl. destruct answer_parts as (h & Hh & E & _).
  assert (mem = (h ++ enc_name ls ++ [0; 1; 0; 1]) ++ ([192; 12; 0; 1; 0; 1] ++ ttl ++ [0; 4]) ++ addr ++ rest) as -> by (rewrite E; by rewrite <- !app_assoc).
  replace (record + o) with (Z.of_nat (length (h ++ enc_name ls ++ [0; 1; 0; 1])) + o) by (rewrite !length_app, Hh; cbn; lia).
  rewrite getn_skip by lia. apply getn_start; rewrite ?length_app, ?Httl; cbn; lia.
Qed.

Lemma answer_record : record_at mem record = Ok (record + 2, DNS_REQUEST_A, DNS_IN, record + 16).
Proof.
  unfold record_at, name_len, get8, get16. rewrite <- (Z.add_0_r record), !record_reads, Z.add_0_r by lia. run.
  change (is_pointer (byte (slice ([192; 12; 0; 1; 0; 1] ++ ttl ++ [0; 4]) 0 1) 0)) with true. run.
  replace (record + 2 + 2) with (record + 4) by lia. replace (record + 2 + 8) with (record + 10) by lia. rewrite !record_reads by lia. run.
  destruct ttl as [|t0 [|t1 [|t2 [|t3 [|]]]]]; try done.
  change (switch16 (rd16 (slice ([192; 12; 0; 1; 0; 1] ++ [t0; t1; t2; t3] ++ [0; 4]) 10 2) 0)) with 4.
  change (switch16 (rd16 (slice ([192; 12; 0; 1; 0; 1] ++ [t0; t1; t2; t3] ++ [0; 4]) 2 2) 0)) with 1.
  change (switch16 (rd16 (slice ([192; 12; 0; 1; 0; 1] ++ [t0; t1; t2; t3] ++ [0; 4]) 4 2) 0)) with 1.
  unfold resource_record_content_size. do 2 f_equal. lia.
Qed.

Lemma answer_address : getn mem (record + 12) 4 = Ok addr.
Proof.
  destruct answer_parts as (h & Hh & E & _).
  assert (mem = (h ++ enc_name ls ++ [0; 1; 0; 1] ++ [192; 12; 0; 1; 0; 1] ++ ttl ++ [0; 4]) ++ addr ++ rest) as -> by (rewrite E; by rewrite <- !app_assoc).
  replace (record + 12) with (Z.of_nat (length (h ++ enc_name ls ++ [0; 1; 0; 1] ++ [192; 12; 0; 1; 0; 1] ++ ttl ++ [0; 4])) + 0)
    by (rewrite !length_app, Hh, Httl; cbn; lia).
  rewrite getn_skip by lia. rewrite getn_start by lia. by rewrite slice_full by by rewrite Haddr.
Qed.

(** The pointer leads to the name in the question. *)
Lemma answer_name fuel : (length ls + 2 < fuel)%nat -> fits 5 0 ls = true ->
  exists buf, parse_name fuel mem record = Ok buf /\ read_string buf = Ok (join ls).
Proof.
  intros Hf Hfit. destruct fuel as [|fuel]; [lia|]. unfold parse_name. cbn [parse_name_aux]. unfold get8.
  rewrite <- (Z.add_0_r record), record_reads by lia. run.
  change (is_pointer (byte (slice ([192; 12; 0; 1; 0; 1] ++ ttl ++ [0; 4]) 0 1) 0)) with true. cbv iota.
  unfold pointer_at, get16. rewrite record_reads by lia. run.
  change (Z.land (switch16 (rd16 (slice ([192; 12; 0; 1; 0; 1] ++ ttl ++ [0; 4]) 0 2) 0)) 16383) with 12.
  destruct answer_parts as (h & Hh & E & _). rewrite E.
  pose proof (parse_name_at ls h ([0; 1; 0; 1] ++ ([192; 12; 0; 1; 0; 1] ++ ttl ++ [0; 4]) ++ addr ++ rest) fuel Hne Hls ltac:(lia)) as H.
  cbv zeta in H. rewrite Hfit, Hh in H. exact H.
Qed.

Lemma answer_display fuel : (length ls + 2 < fuel)%nat -> fits 5 0 ls = true -> display_response fuel mem = Ok tt.
Proof.
  intros Hf Hfit. unfold display_response. destruct answer_parts as (h & Hh & E & _ & -> & ->). run. rewrite answer_question. run.
  cbn [display_answers]. rewrite answer_record. run. cbn [negb DNS_IN Z.eqb Pos.eqb]. destruct (answer_name fuel Hf Hfit) as (buf & -> & _). done.
Qed.

Lemma answer_found fuel : (length ls + 2 < fuel)%nat -> fits 5 0 ls = true ->
  exists buf, read_string buf = Ok (join ls) /\ read_answers fuel mem record 1 (mkFound None None None) = Ok (mkFound (Some buf) (Some buf) (Some (record + 12))).
Proof.
  intros Hf Hfit. destruct (answer_name fuel Hf Hfit) as (buf & E & Hs). exists buf. split; [done|].
  cbn [read_answers]. rewrite answer_record. run. cbn [negb DNS_IN Z.eqb Pos.eqb]. rewrite E. run. cbn [last_seen_alias resolved_ip]. run.
  change (DNS_REQUEST_A =? DNS_REQUEST_CNAME) with false. rewrite Z.eqb_refl. run. cbn [resolved_hostname last_seen_alias].
  unfold resource_record_content_size. replace (record + 2 + 10) with (record + 12) by lia. done.
Qed.

End answered.

(** The first socket that waits for a name. *)
Fixpoint first_waiting_for (name : list Z) (q : list (option (Z * list Z))) : option nat :=
  match q with
  | [] => None
  | Some (_, h) :: q => if bool_decide (h = name) then Some 0%nat else option_map S (first_waiting_for name q)
  | None :: q => option_map S (first_waiting_for name q)
  end.

Lemma find_waiting_spec q name buf : read_string buf = Ok name -> find_waiting q (Some buf) = Ok (first_waiting_for name q).
Proof.
  intros Hb. induction q as [|[[p h]|] q IH]; [done| |]; cbn [find_waiting first_waiting_for]; run; rewrite ?Hb, ?IH; run; [|done].
  by case_bool_decide.
Qed.

Lemma first_waiting_lookup name q i : first_waiting_for name q = Some i -> exists p, q !! i = Some (Some (p, name)).
Proof.
  revert i. induction q as [|[[p h]|] q IH]; intros i; cbn [first_waiting_for]; [done| |].
  - case_bool_decide; [intros [= <-]; subst; by exists p|]. destruct (first_waiting_for name q) as [j|]; [|done]. intros [= <-]. by apply IH.
  - destruct (first_waiting_for name q) as [j|]; [|done]. intros [= <-]. by apply IH.
Qed.

(** What waits in the queue is a socket of the list that is closed, and whose first packet is not sent yet. *)
Definition waits (r : resolver) (i k : nat) (name : list Z) (sk : socket) : Prop :=
  first_waiting_for name (queue r) = Some i /\ (exists p, queue r !! i = Some (Some (p, name)) /\ port_used (sockets (tcp r)) p = Some k) /\
  sockets (tcp r) !! k = Some sk /\ state sk = CLOSED /\ start_packet sk <> Freed.

(** The answer for a name reaches the socket that waits for it: the socket has the address and opens the connection, and its
    place in the queue is free again. *)
Theorem answer_opens_connection fuel r i k sk id flags ttl ls addr rest src ck len : 
  length flags = 2%nat -> length ttl = 4%nat -> address addr -> addr <> null_ip -> ls <> [] -> Forall label_ok ls ->
  (length ls + 2 < fuel)%nat -> fits 5 0 ls = true -> length src = 2%nat -> length ck = 2%nat -> is_u16 len -> 12 <= len ->
  rd16 (le16 id) 0 = last_query_id r -> stack_ok (tcp r) -> waits r i k (join ls) sk ->
  exists r', dns_handle_packet fuel r ((src ++ be16 DNS_PORT ++ be16 len ++ ck) ++ answer id flags ttl ls addr rest) = Ok (true, r') /\
    sockets (tcp r') !! k = Some (set_state (set_peer_ip sk addr) SYN_SENT) /\ queue r' = <[i := None]> (queue r) /\ queue_size r' = queue_size r - 1 /\
    stack_ok (tcp r').
Proof.
  intros Hfl Httl Ha Hnn Hne Hls Hf Hfit Hsrc Hck Hlen H12 Hid (Hn & Hd & Hs) (Hfirst & (p & Hq & Hp) & Hk & Hst & Hfree).
  pose proof (proj1 Ha) as Hal. unfold dns_handle_packet.
  destruct src as [|s0 [|s1 [|]]]; try done. destruct ck as [|c0 [|c1 [|]]]; try done.
  set (mem := answer id flags ttl ls addr rest). set (hd := [s0; s1] ++ be16 DNS_PORT ++ be16 len ++ [c0; c1]).
  assert (get16 (hd ++ mem) 2 = Ok (switch16 DNS_PORT) /\ get16 (hd ++ mem) 4 = Ok (switch16 len)) as [-> ->].
  { unfold get16. rewrite !getn_start by (unfold hd; cbn [length app be16]; lia). run.
    change (slice hd 2 2) with (be16 DNS_PORT). change (slice hd 4 2) with (be16 len).
    by rewrite !rd16_be16 by (done || unfold is_u16, DNS_PORT; lia). }
  run. rewrite !switch16_switch16 by (done || unfold is_u16, DNS_PORT; lia). rewrite Z.eqb_refl. cbn [negb orb].
  assert ((len <? dns_header_size) = false) as -> by (apply Z.ltb_ge; done).
  change (drop 8 (hd ++ mem)) with mem.
  destruct (answer_parts id flags ttl ls addr rest Hfl Httl Hal) as (h & Hh & E & E0 & E4 & E6). fold mem in E0, E4, E6. rewrite E0. run.
  rewrite Hid, Z.eqb_refl. cbn [negb]. assert (display_response fuel mem = Ok tt) as -> by by apply answer_display. run. rewrite E4. run.
  assert (skip_queries mem dns_header_size 1 = Ok (16 + Z.of_nat (length (enc_name ls)))) as -> by by apply answer_question. run. rewrite E6. run.
  destruct (answer_found id flags ttl ls addr rest Hfl Httl Hal Hne Hls fuel Hf Hfit) as (buf & Hb & Ef). fold mem in Ef. rewrite Ef.
  run. cbn [resolved_hostname resolved_ip]. rewrite (find_waiting_spec _ _ _ Hb), Hfirst. run. rewrite Hq. run. cbn [fst]. rewrite Hp. run.
  assert (getn mem (16 + Z.of_nat (length (enc_name ls)) + 12) 4 = Ok addr) as -> by by apply answer_address. run. unfold run_socket. rewrite Hk. run.
  assert (socket_ok sk /\ start_ok sk) as [Hsk Hdat] by (destruct (proj1 (Forall_lookup _ _) Hs k sk Hk) as (? & ? & _); done).
  unfold with_socket. rewrite Hk. run. unfold on_hostname_resolved, send_source. cbn [sock set_sock set_peer_ip state]. rewrite Hst, bool_decide_eq_true_2 by done.
  cbn [peer_ip set_start set_peer_ip sock set_sock]. rewrite bool_decide_eq_false_2 by done. unfold initialize, send_sync.
  match goal with |- context [to_peer ?c ?fl ?d] => destruct (to_peer_ok c fl d) as (n & -> & Hn' & _); [done|exact (set_peer_ok sk addr Hsk Ha)|done|apply data_ok_nil|] end.
  run. cbn [log events tcp set_tcp set_wire set_sock]. rewrite drop_all. eexists. split; [done|]. cbn [tcp sockets queue queue_size set_tcp sock set_wire set_sock].
  split; [rewrite list_lookup_insert_eq by (by eapply lookup_lt_Some); by destruct sk|]. split; [done|]. split; [done|].
  split; [exact Hn'|]. split; cbn [sockets].
  - unfold distinct_ports. cbn [sockets]. by rewrite (fmap_insert_same _ _ sk).
  - apply Forall_insert; [done|]. split; [exact (set_peer_ok sk addr Hsk Ha)|]. split; [|by apply may_step_live with CLOSED].
    unfold start_ok in *. cbn. by destruct (start_packet sk).
Qed.

(** ** Asking *)

Definition question (id : Z) (ls : list (list Z)) : list Z := le16 id ++ [1; 0; 0; 1; 0; 0; 0; 0; 0; 0] ++ enc_name ls ++ [0; 1; 0; 1].

Lemma dns_write_spec r ls x n' : ls <> [] -> Forall label_ok ls -> generate_random_id16 (net_of (tcp r)) = Ok (x, n') ->
  dns_write_header r (replicate (12 + (length (join ls) + 2) + 4) 0) (join ls) [0; 1; 0; 1] =
    Ok (question (u16 x) ls, mkResolver (mkStack n' (sockets (tcp r)) (log (tcp r))) (u16 x) (queue r) (queue_size r)).
Proof.
  intros Hne Hls Hx. unfold dns_write_header. rewrite Hx. run. rewrite <- Nat.add_assoc, replicate_add, (replicate_add _ 4).
  unfold set16. change (le16 (switch16 (Z.lor (Z.lor DNS_QUERY DNS_OPCODE_QUERY) DNS_RECURSION_DESIRED))) with [1; 0].
  change (le16 (switch16 1)) with [0; 1]. generalize (u16 x) as id. intros id.
  set (space := replicate (length (join ls) + 2) 0 ++ replicate 4 0).
  assert (forall T, (b ← patch_in (replicate 12 0 ++ T) 0 (le16 id); b ← patch_in b 2 [1; 0]; patch_in b 4 [0; 1]) =
    Ok ((le16 id ++ [1; 0; 0; 1; 0; 0; 0; 0; 0; 0]) ++ T)) as E.
  { intros T. unfold le16. cbn [replicate app]. do 3 header_step. done. }
  specialize (E space). repeat match type of E with context [mbind _ ?m] => destruct m eqn:?; try done; run_in E; run end. rewrite E. run. clear E.
  set (h := le16 id ++ [1; 0; 0; 1; 0; 0; 0; 0; 0; 0]). unfold space, write_encoded_name.
  pose proof (write_labels_spec ls Hne Hls h (replicate 4 0) []) as E. cbn [app] in E. change (Z.of_nat (length h)) with dns_header_size in E.
  change (Z.of_nat (length (@nil Z))) with 0 in E. rewrite E. run. rewrite (app_assoc h).
  pose proof (patch_in_mid (h ++ enc_name ls) (replicate 4 0) [] [0; 1; 0; 1] (Z.of_nat (length h + (length (join ls) + 2)))) as E2.
  rewrite app_nil_r in E2. rewrite E2; [|by rewrite length_app, enc_name_length|done]. run. unfold question, h. by rewrite <- !app_assoc.
Qed.

(** A name is asked for: the socket is queued at the first free place, and a question for the name goes to the server's
    address by way of the ARP cache or the gateway, under a number that the answer is recognised by. *)
Theorem question_is_sent r ls p i m : ls <> [] -> Forall label_ok ls -> Z.of_nat (length (join ls)) <= 255 ->
  net_ok (net_of (tcp r)) -> queue_size r < 10 -> free_place (queue r) = Ok i ->
  mac_address m -> routed (net_of (tcp r)) google_dns_ip m ->
  let n := net_of (tcp r) in
  let size := get_question_size (join ls) in
  exists id r', resolve_hostname r (Some (join ls)) p = Ok r' /\ last_query_id r' = id /\ queue r' = <[i := Some (p, join ls)]> (queue r) /\
    queue_size r' = queue_size r + 1 /\ sockets (tcp r') = sockets (tcp r) /\
    sent (net_of (tcp r')) = sent n ++ [ethernet_header n m ETHERTYPE_IPV4 ++ ip_header (ip n) (28 + size) IPV4_PROTOCOL_UDP google_dns_ip ++
      udp_header DNS_PORT DNS_PORT size ++ question id ls].
Proof.
  intros Hne Hls Hlen Hn Hq Hi Hm Hr n size. assert (address google_dns_ip) as Hg by (split; [done|unfold google_dns_ip; u8s]).
  pose proof Hn as (Hip & Hmac & _). unfold resolve_hostname. assert ((queue_size r =? Z.of_nat DNS_PENDING_QUEUE_SIZE) = false) as -> by (apply Z.eqb_neq; unfold DNS_PENDING_QUEUE_SIZE; lia).
  run. rewrite Hi. run. cbn [tcp queue_size queue last_query_id].
  assert (exists x, generate_random_id16 n = Ok (x, next_tsc n)) as [x Hx].
  { unfold generate_random_id16, generate_random_id32. rewrite get8_ok by (destruct Hmac as [Hl _]; unfold n; lia). run. by eexists. }
  assert (size = Z.of_nat (12 + (length (join ls) + 2) + 4)) as Hsz by (unfold size, get_question_size, get_encoded_name_len, dns_header_size, question_content_size; lia).
  destruct (send_routed (next_tsc n) m (28 + size) IPV4_PROTOCOL_UDP google_dns_ip (udp_header DNS_PORT DNS_PORT size ++ question (u16 x) ls))
    as (m0 & Em0 & Hm0 & Es); [done..|unfold is_u16; lia|done|done|].
  assert (get_mac (net_of (tcp r)) google_dns_ip = Ok m0) as -> by exact Em0. run. fold size. rewrite (u16_id size) by (unfold is_u16; lia).
  rewrite udp_create_spec; [|done|done|done|done|unfold is_u16, DNS_PORT; lia|unfold is_u16, DNS_PORT; lia|lia]. run.
  change (le16 (switch16 DNS_REQUEST_A) ++ le16 (switch16 DNS_IN)) with [0; 1; 0; 1].
  replace (Z.to_nat size) with (12 + (length (join ls) + 2) + 4)%nat by lia.
  rewrite (dns_write_spec _ ls x (next_tsc n)) by done. run. cbn [tcp net_of sockets log].
  rewrite <- !app_assoc. 
  assert (send_packet (next_tsc n) (ethernet_header (net_of (tcp r)) m0 ETHERTYPE_IPV4 ++ ip_header (ip (net_of (tcp r))) (28 + size) IPV4_PROTOCOL_UDP
    google_dns_ip ++ udp_header DNS_PORT DNS_PORT size ++ question (u16 x) ls) = Ok (nic_send (next_tsc n) (ethernet_header n m ETHERTYPE_IPV4 ++
    ip_header (ip n) (28 + size) IPV4_PROTOCOL_UDP google_dns_ip ++ udp_header DNS_PORT DNS_PORT size ++ question (u16 x) ls))) as Es' by exact Es.
  rewrite Es'. run. eexists _, _. split; [done|]. done.
Qed.

(** ** What goes wrong *)

Definition chars_www : list Z := [119; 119; 119].
Definition chars_google : list Z := [103; 111; 111; 103; 108; 101].
Definition chars_com : list Z := [99; 111; 109].

(** The name www.google.com, in an answer, is written one byte behind the end of its buffer. *)
Theorem www_google_com_overflows : parse_name 10 (enc_name [chars_www; chars_google; chars_com]) 0 = Fault.
Proof. by vm_compute. Qed.

(** A name that points to itself is followed for ever. *)
Theorem pointer_loop_never_ends fuel rest : parse_name fuel ([192; 0] ++ rest) 0 = NoFuel.
Proof.
  unfold parse_name. induction fuel as [|fuel IH]; [done|]. cbn [parse_name_aux]. unfold get8, pointer_at, get16. rewrite !getn_start by (cbn; lia). run.
  change (is_pointer _) with true. cbv iota. change (Z.land _ 16383) with 0. exact IH.
Qed.

(** An answer without records, while a socket waits: the name it is compared with is a null pointer. *)
Theorem empty_answer_faults fuel r id flags rest src ck len i e : length flags = 2%nat -> length src = 2%nat -> length ck = 2%nat -> is_u16 len -> 12 <= len ->
  rd16 (le16 id) 0 = last_query_id r -> queue r !! i = Some (Some e) ->
  dns_handle_packet fuel r ((src ++ be16 DNS_PORT ++ be16 len ++ ck) ++ (le16 id ++ flags ++ [0; 0; 0; 0; 0; 0; 0; 0]) ++ rest) = Fault.
Proof.
  intros Hfl Hsrc Hck Hlen H12 Hid Hi. destruct src as [|s0 [|s1 [|]]]; try done. destruct ck as [|c0 [|c1 [|]]]; try done. destruct flags as [|f0 [|f1 [|]]]; try done.
  unfold dns_handle_packet. set (hd := [s0; s1] ++ be16 DNS_PORT ++ be16 len ++ [c0; c1]). set (h := le16 id ++ [f0; f1] ++ [0; 0; 0; 0; 0; 0; 0; 0]).
  assert (get16 (hd ++ h ++ rest) 2 = Ok (switch16 DNS_PORT) /\ get16 (hd ++ h ++ rest) 4 = Ok (switch16 len)) as [-> ->].
  { unfold get16. rewrite !getn_start by (unfold hd; cbn [length app be16]; lia). run.
    change (slice hd 2 2) with (be16 DNS_PORT). change (slice hd 4 2) with (be16 len).
    by rewrite !rd16_be16 by (done || unfold is_u16, DNS_PORT; lia). }
  run. rewrite !switch16_switch16 by (done || unfold is_u16, DNS_PORT; lia). rewrite Z.eqb_refl. cbn [negb orb].
  assert ((len <? dns_header_size) = false) as -> by (apply Z.ltb_ge; done).
  change (drop 8 (hd ++ h ++ rest)) with (h ++ rest).
  assert (get16 (h ++ rest) 0 = Ok (rd16 (le16 id) 0) /\ count_at (h ++ rest) 4 = Ok 0%nat /\ count_at (h ++ rest) 6 = Ok 0%nat) as (-> & E4 & E6).
  { unfold count_at, get16. rewrite !getn_start by (unfold h; cbn; lia). done. }
  run. rewrite Hid, Z.eqb_refl. cbn [negb]. unfold display_response. rewrite E4, E6. run. cbn [skip_queries]. run. cbn [display_answers]. run. cbn [read_answers]. run.
  cbn [resolved_hostname]. assert (find_waiting (queue r) None = Fault) as ->; [|done].
  clear -Hi. revert i Hi. induction (queue r) as [|[[p nm]|] q IH]; intros i Hi; [done|done|]. cbn [find_waiting]. destruct i as [|i]; [done|]. by rewrite (IH i Hi).
Qed.

(** ** Concrete names *)

Definition chars_example : list Z := [101; 120; 97; 109; 112; 108; 101].
Definition example_com : list (list Z) := [chars_example; chars_com].
Definition waiting_resolver : resolver :=
  mkResolver (kernel CLOSED) 7 (Some (50000, join example_com) :: replicate 9 None) 1.
Definition idle_resolver : resolver := mkResolver (kernel CLOSED) 0 (replicate 10 None) 0.

Lemma example_ok : Forall label_ok example_com.
Proof. repeat (apply Forall_cons; split; [split; [cbn; lia|repeat (apply Forall_cons; split; [unfold DOT; lia|]); by apply Forall_nil]|]). by apply Forall_nil. Qed.

Lemma kernel_closed_ok : stack_ok (kernel CLOSED).
Proof.
  split; [apply lan_ok|]. split; [apply NoDup_singleton|]. apply Forall_singleton. split; [apply client_ok|split; [done|by apply live_state]].
Qed.

Lemma encoded_name_fits_witness :
  write_encoded_name (replicate 13 0 ++ [9]) 0 (join example_com) = Ok (enc_name example_com ++ [9], 13).
Proof. apply (encoded_name_fits example_com [] [9]); [done|apply example_ok]. Defined.

Lemma parse_encoded_name_witness :
  exists buf, parse_name 5 ([1; 2] ++ enc_name example_com ++ [9]) 2 = Ok buf /\ read_string buf = Ok (join example_com).
Proof. apply (parse_encoded_name example_com [1; 2] [9] 5); [done|apply example_ok|cbn; lia]. Defined.

Lemma answer_opens_connection_witness :
  exists r', dns_handle_packet 10 waiting_resolver (([0; 53] ++ be16 DNS_PORT ++ be16 60 ++ [0; 0]) ++ answer 7 [129; 128] [0; 0; 1; 0] example_com [93; 184; 216; 34] [])
    = Ok (true, r') /\ sockets (tcp r') !! 0%nat = Some (set_state (set_peer_ip (client CLOSED) [93; 184; 216; 34]) SYN_SENT) /\ queue_size r' = 0.
Proof.
  destruct (answer_opens_connection 10 waiting_resolver 0 0 (client CLOSED) 7 [129; 128] [0; 0; 1; 0] example_com [93; 184; 216; 34] [] [0; 53] [0; 0] 60)
    as (r' & E & Hs & _ & Hz & _);
    [done|done|split; [done|u8s]|done|done|apply example_ok|cbn; lia|by vm_compute|done|done|unfold is_u16; lia|lia|done|apply kernel_closed_ok|
     split; [done|split; [exists 50000; by vm_compute|done]]|].
  exists r'. split; [exact E|]. split; [exact Hs|exact Hz].
Defined.

Lemma lan_routed_out : routed lan google_dns_ip (gateway_mac lan).
Proof. right. split; [by vm_compute|]. split; [by vm_compute|done]. Qed.

Lemma question_is_sent_witness :
  exists id r', resolve_hostname idle_resolver (Some (join example_com)) 50000 = Ok r' /\ last_query_id r' = id /\
    queue r' !! 0%nat = Some (Some (50000, join example_com)).
Proof.
  destruct (question_is_sent idle_resolver example_com 50000 0 (gateway_mac lan)) as (id & r' & E & Hid & Hq & _);
    [done|apply example_ok|cbn; lia|apply lan_ok|cbn; lia|done|apply null_mac_ok|apply lan_routed_out|].
  exists id, r'. split; [exact E|]. split; [exact Hid|]. rewrite Hq. done.
Defined.

Lemma empty_answer_faults_witness :
  dns_handle_packet 10 waiting_resolver (([0; 53] ++ be16 DNS_PORT ++ be16 20 ++ [0; 0]) ++ (le16 7 ++ [129; 131] ++ [0; 0; 0; 0; 0; 0; 0; 0]) ++ []) = Fault.
Proof.
  apply (empty_answer_faults 10 waiting_resolver 7 [129; 131] [] [0; 53] [0; 0] 20 0 (50000, join example_com));
    [done|done|done|unfold is_u16; lia|lia|done|done].
Defined.

End Dns.
