(* ===== verification/NetStack.v ===== *)
(** * The way of a received frame ([Ethernet::handle_packet], [IPV4::handle_packet], [UDP::handle_packet])

    The dispatch between the protocols, over the state of all of them.  The theorems follow frames from one kernel to another:
    a connection that is refused, and an address that is resolved. *)

From stdpp Require Import base tactics numbers list.
From S2P Require Import Prelude Bytes Net Tcp Dhcp Dns.
Import Bytes Net Tcp Dhcp Dns.
Open Scope Z_scope.

Module NetStack.

Record machine := mkMachine { dns_of : resolver; mac_of_server : list Z }.
Definition stack_of (h : machine) : stack := tcp (dns_of h).
Definition wire_of (h : machine) : net := net_of (stack_of h).
Definition set_stack (h : machine) (w : stack) : machine := mkMachine (set_tcp (dns_of h) w) (mac_of_server h).
Definition set_net (h : machine) (n : net) : machine := set_stack h (mkStack n (sockets (stack_of h)) (log (stack_of h))).

(** [UDP::handle_packet]: [p] is the memory from the UDP header on, [size] what the IPv4 header leaves for it. *)
Definition udp_handle_packet (fuel : nat) (h : machine) (p : list Z) (size : Z) : res machine :=
  if size <? udp_header_size then Ok h
  else
    '(ours, d) ← dhcp_handle_packet (mkDhcp (wire_of h) (mac_of_server h)) p;
    let h := mkMachine (dns_of (set_net h (dhcp_net d))) (server_mac d) in
    if (ours : bool) then Ok h
    else
      '(ours, r) ← dns_handle_packet fuel (dns_of h) p;
      let h := mkMachine r (mac_of_server h) in
      if (ours : bool) then Ok h
      else
        '(ours, n) ← tp_handle_packet (wire_of h) p;
        let h := set_net h n in
        if (ours : bool) then Ok h else _ ← getn p 8 (size - udp_header_size); Ok h.

(** [p] is the memory from the IPv4 header on.  The sizes for ICMP and UDP are 16 bits wide. *)
Definition ipv4_handle_packet (fuel : nat) (h : machine) (p eth_src : list Z) : res machine :=
  ok ← ipv4_packet_valid (wire_of h) p;
  if negb ok then Ok h
  else
    w ← get8 p 0; len ← get16 p 2; proto ← get8 p 9; saddr ← getn p 12 4;
    let payload_size := switch16 len -u get_ihl w * 4 in
    let packet := drop 20 p in
    if proto =? IPV4_PROTOCOL_ICMP then n ← icmp_handle_packet (wire_of h) packet (u16 payload_size) saddr eth_src; Ok (set_net h n)
    else if proto =? IPV4_PROTOCOL_UDP then udp_handle_packet fuel h packet (u16 payload_size)
    else if proto =? IPV4_PROTOCOL_TCP then
      w ← tcp_handle_packet fuel (stack_of h) (mkSegment packet payload_size saddr eth_src); Ok (set_stack h w)
    else Ok h.

Definition ethernet_handle_packet (fuel : nat) (h : machine) (frame : list Z) (size : Z) : res machine :=
  if size <? ethernet_header_size then Ok h
  else
    type ← get16 frame 12; src ← getn frame 6 6;
    let payload := drop 14 frame in
    if switch16 type =? ETHERTYPE_ARP then n ← arp_handle_packet (wire_of h) payload src; Ok (set_net h n)
    else if switch16 type =? ETHERTYPE_IPV4 then ipv4_handle_packet fuel h payload src
    else Ok h.

(** ** Frames of another kernel *)

Lemma ethernet_fields n m type rest : mac_address (mac n) -> mac_address m -> is_u16 type ->
  get16 (ethernet_header n m type ++ rest) 12 = Ok (switch16 type) /\ getn (ethernet_header n m type ++ rest) 6 6 = Ok (mac n) /\
  drop 14 (ethernet_header n m type ++ rest) = rest.
Proof.
  intros Hn Hm Ht. pose proof (ethernet_header_length n m type Hn Hm) as Hl. unfold get16. rewrite !getn_start by lia. run.
  rewrite drop_app_length' by done. unfold ethernet_header. destruct Hn as [Hn _], Hm as [Hm _].
  destruct m as [|m0 [|m1 [|m2 [|m3 [|m4 [|m5 [|]]]]]]]; try done. destruct (mac n) as [|a0 [|a1 [|a2 [|a3 [|a4 [|a5 [|]]]]]]]; try done.
  split; [|done]. change (slice _ 12 2) with (be16 type). by rewrite rd16_be16.
Qed.

Lemma ip_fields src size proto daddr payload : address src -> address daddr -> is_u16 size -> is_u8 proto ->
  let p := ip_header src size proto daddr ++ payload in
  get8 p 0 = Ok 69 /\ get16 p 2 = Ok (switch16 size) /\ get8 p 9 = Ok proto /\ getn p 12 4 = Ok src /\ drop 20 p = payload.
Proof.
  intros Hs Hd Hz Hp p. pose proof (ip_header_length src size proto daddr Hs Hd) as Hl. unfold p, get8, get16. rewrite !getn_start by lia. run.
  rewrite drop_app_length' by done. destruct (ip_header_bytes src size proto daddr Hs Hd Hz Hp) as (c0 & c1 & -> & _).
  destruct Hs as [Hs _]. destruct src as [|s0 [|s1 [|s2 [|s3 [|]]]]]; try done.
  split; [done|]. split; [|done]. change (slice _ 2 2) with (be16 size). by rewrite rd16_be16.
Qed.

(** A TCP segment in a frame to our address is handed to [TCP::handle_packet], with the sender's addresses. *)
Lemma tcp_frame_received fuel h n m src payload size : mac_address (mac n) -> mac_address m -> address src -> address (ip (wire_of h)) ->
  size = Z.of_nat (length payload) -> size <= 65515 ->
  let f := ethernet_header n m ETHERTYPE_IPV4 ++ ip_header src (20 + size) IPV4_PROTOCOL_TCP (ip (wire_of h)) ++ payload in
  ethernet_handle_packet fuel h f (Z.of_nat (length f)) =
    (w ← tcp_handle_packet fuel (stack_of h) (mkSegment payload size src (mac n)); Ok (set_stack h w)).
Proof.
  intros Hn Hm Hs Hi -> Hsz f. set (size := Z.of_nat (length payload)) in *. assert (is_u16 (20 + size)) as Hz by (unfold is_u16; lia).
  unfold ethernet_handle_packet. assert ((Z.of_nat (length f) <? ethernet_header_size) = false) as ->.
  { apply Z.ltb_ge. unfold f. rewrite length_app, ethernet_header_length by done. unfold ethernet_header_size. lia. }
  destruct (ethernet_fields n m ETHERTYPE_IPV4 (ip_header src (20 + size) IPV4_PROTOCOL_TCP (ip (wire_of h)) ++ payload)) as (E1 & E2 & E3); [done|done|unfold is_u16, ETHERTYPE_IPV4; lia|].
  unfold f. rewrite E1, E2, E3. run. change (switch16 (switch16 ETHERTYPE_IPV4)) with ETHERTYPE_IPV4. change (ETHERTYPE_IPV4 =? ETHERTYPE_ARP) with false. rewrite Z.eqb_refl.
  unfold ipv4_handle_packet. rewrite header_accepted by (done || by (right; right) || by left). run. cbn [negb].
  destruct (ip_fields src (20 + size) IPV4_PROTOCOL_TCP (ip (wire_of h)) payload) as (F0 & F2 & F9 & F12 & Fp); [done..|].
  rewrite F0, F2, F9, F12, Fp. run. rewrite switch16_switch16 by done. change (get_ihl 69 * 4) with 20.
  change (IPV4_PROTOCOL_TCP =? IPV4_PROTOCOL_ICMP) with false. change (IPV4_PROTOCOL_TCP =? IPV4_PROTOCOL_UDP) with false. rewrite Z.eqb_refl. cbv iota.
  replace (20 + size - 20) with size by lia. by rewrite u32_id by (unfold is_u32; lia).
Qed.

(** A segment of one kernel is a segment for another. *)
Lemma sent_segment_ok src k flags data a m : address src -> socket_ok k -> is_u8 flags -> data_ok data -> address a -> mac_address m ->
  segment_ok (mkSegment (tcp_segment src k flags data) (tcp_len data) a m).
Proof.
  intros Hs Hk Hf [Hd Hl] Ha Hm. assert (length (tcp_segment src k flags data) = (20 + length data)%nat) as HL by (unfold tcp_segment; by rewrite length_app, tcp_header_length).
  split; [apply Forall_app; split; [by apply tcp_header_u8|done]|]. cbn [bytes size saddr eth_src]. split; [rewrite HL; lia|].
  assert (header_len (mkSegment (tcp_segment src k flags data) (tcp_len data) a m) = 20) as -> by done.
  unfold tcp_len. rewrite HL. split; [lia|]. split; [lia|done].
Qed.

Lemma segment_flags src k flags data a m : is_u8 flags -> flags_of (mkSegment (tcp_segment src k flags data) (tcp_len data) a m) = flags.
Proof. done. Qed.

Lemma segment_dest src k flags data : is_u16 (peer_port k) -> switch16 (rd16 (tcp_segment src k flags data) 2) = peer_port k.
Proof. intros Hp. change (rd16 (tcp_segment src k flags data) 2) with (rd16 (be16 (peer_port k)) 0). by apply switch16_be16. Qed.

Lemma segment_src src k flags data : is_u16 (port k) -> switch16 (rd16 (tcp_segment src k flags data) 0) = port k.
Proof. intros Hp. change (rd16 (tcp_segment src k flags data) 0) with (rd16 (be16 (port k)) 0). by apply switch16_be16. Qed.

(** A bare reset ends the opening of a connection. *)
Lemma reset_closes c g : segment_ok g -> flags_of g = TCP_FLAG_RST -> state (sock c) = SYN_SENT -> handle_packet c g = Ok (close c PeerClosed).
Proof.
  intros (Hb & Hlen & _) Hf Hst. unfold handle_packet. rewrite !get8_ok by lia. run. fold (flags_of g). rewrite Hf, Hst. by tests.
Qed.

(** The first packet of a closed socket: a SYN. *)
Definition opening (k : socket) (data : list Z) : socket := set_state (set_start k (Held data)) SYN_SENT.

Lemma open_sends_syn r i k data m : stack_ok (tcp r) -> sockets (tcp r) !! i = Some k -> state k = CLOSED -> data_ok data -> peer_ip k <> null_ip ->
  mac_address m -> routed (net_of (tcp r)) (peer_ip k) m ->
  run_socket r i (fun c => send_data c data) =
    Ok (set_tcp r (mkStack (nic_send (net_of (tcp r)) (frame (net_of (tcp r)) (opening k data) (peer_ip k) m TCP_FLAG_SYN []))
      (<[i := opening k data]> (sockets (tcp r))) (log (tcp r)))).
Proof.
  intros (Hn & Hd & Hs) Hi Hst Hdata Hnn Hm Hr. destruct (proj1 (Forall_lookup _ _) Hs i k Hi) as (Hk & _ & _).
  unfold run_socket. rewrite Hi. run. unfold with_socket. rewrite Hi. run. unfold send_data, send_source. cbn [sock state]. rewrite Hst, bool_decide_eq_true_2 by done.
  cbn [set_start peer_ip sock set_sock]. rewrite bool_decide_eq_false_2 by done. unfold initialize, send_sync.
  rewrite (to_peer_routed _ _ _ m) by (done || apply data_ok_nil). run. cbn [log events set_wire set_sock set_tcp]. by rewrite drop_all.
Qed.

(** A SYN for a port that nothing uses is answered with a reset to the port it came from. *)
Lemma syn_is_refused fuel b n k m : stack_ok (stack_of b) -> address (ip n) -> mac_address (mac n) -> mac n <> null_mac -> socket_ok k -> mac_address m ->
  peer_ip k = ip (wire_of b) -> port_used (sockets (stack_of b)) (peer_port k) = None -> port_available fuel (stack_of b) ->
  let syn := frame n k (peer_ip k) m TCP_FLAG_SYN [] in
  exists kr j, socket_ok kr /\ peer_ip kr = ip n /\ peer_port kr = port k /\
    ethernet_handle_packet fuel b syn (Z.of_nat (length syn)) =
      Ok (set_stack b (mkStack (nic_send (reads_of j (wire_of b)) (frame (wire_of b) kr (ip n) (mac n) TCP_FLAG_RST [])) (sockets (stack_of b)) (log (stack_of b)))).
Proof.
  intros Hb Hi Hm Hne Hk Hmm Hpip Hu Hav syn. pose proof Hb as ((Hib & Hmacb & _) & _).
  set (g := mkSegment (tcp_segment (ip n) k TCP_FLAG_SYN []) (tcp_len []) (ip n) (mac n)).
  assert (segment_ok g) as Hg by (apply sent_segment_ok; done || apply data_ok_nil).
  destruct (dispatch_unknown fuel (stack_of b) g) as (kr & j & Hkr & _ & Epip & Epp & _ & E); [done|done|done|done| |].
  { unfold g. cbn [bytes]. rewrite segment_dest by apply Hk. exact Hu. }
  exists kr, j. split; [done|]. split; [done|]. split; [rewrite Epp; apply segment_src, Hk|].
  unfold syn, frame. rewrite Hpip. rewrite (tcp_frame_received fuel b n m (ip n) (tcp_segment (ip n) k TCP_FLAG_SYN []) (tcp_len [])) by (done || (cbn; lia)).
  fold g. rewrite E. done.
Qed.

(** The reset of the other kernel, for the socket that opens a connection. *)
Lemma reset_is_received fuel a n i k kr m : stack_ok (stack_of a) -> address (ip n) -> mac_address (mac n) -> socket_ok kr -> mac_address m ->
  sockets (stack_of a) !! i = Some k -> state k = SYN_SENT -> listener k = true -> peer_port kr = port k ->
  let rst := frame n kr (ip (wire_of a)) m TCP_FLAG_RST [] in
  ethernet_handle_packet fuel a rst (Z.of_nat (length rst)) =
    Ok (set_stack a (mkStack (wire_of a) (<[i := set_state k CLOSED]> (sockets (stack_of a))) (log (stack_of a) ++ [Terminated PeerClosed]))).
Proof.
  intros Ha Hi Hm Hkr Hmm Hk Hst Hl Hp rst. pose proof Ha as ((Hia & Hmaca & _) & _).
  set (g := mkSegment (tcp_segment (ip n) kr TCP_FLAG_RST []) (tcp_len []) (ip n) (mac n)).
  assert (segment_ok g) as Hg by (apply sent_segment_ok; done || apply data_ok_nil).
  unfold rst, frame. rewrite (tcp_frame_received fuel a n m (ip n) (tcp_segment (ip n) kr TCP_FLAG_RST []) (tcp_len [])) by (done || (cbn; lia)). fold g.
  destruct (dispatch_found fuel (stack_of a) g i k) as (c & E & Ec & _); [done|done|done| |].
  { unfold g. cbn [bytes]. rewrite segment_dest by apply Hkr. done. }
  rewrite E. run. rewrite reset_closes in Ec by done. unfold close in Ec. cbn in Ec. rewrite Hl in Ec. injection Ec as <-. done.
Qed.

(** Two kernels on one network: a connection to a port of the other that nothing uses is refused.  The SYN of the first makes
    the second send a reset, and the reset closes the socket of the first, whose listener is told that the peer closed. *)
Theorem connection_is_refused fuel a b i k data m :
  stack_ok (stack_of a) -> stack_ok (stack_of b) -> sockets (stack_of a) !! i = Some k -> state k = CLOSED -> listener k = true ->
  data_ok data -> peer_ip k = ip (wire_of b) -> peer_ip k <> null_ip -> mac_address m -> routed (wire_of a) (peer_ip k) m ->
  mac (wire_of a) <> null_mac -> mac (wire_of b) <> null_mac ->
  port_used (sockets (stack_of b)) (peer_port k) = None -> port_available fuel (stack_of b) ->
  exists r1 syn b' rst a', run_socket (dns_of a) i (fun c => send_data c data) = Ok r1 /\
    sent (net_of (tcp r1)) = sent (wire_of a) ++ [syn] /\
    ethernet_handle_packet fuel b syn (Z.of_nat (length syn)) = Ok b' /\ sockets (stack_of b') = sockets (stack_of b) /\
    sent (wire_of b') = sent (wire_of b) ++ [rst] /\
    ethernet_handle_packet fuel (mkMachine r1 (mac_of_server a)) rst (Z.of_nat (length rst)) = Ok a' /\
    (exists k', sockets (stack_of a') !! i = Some k' /\ state k' = CLOSED) /\ log (stack_of a') = log (stack_of a) ++ [Terminated PeerClosed].
Proof.
  intros Ha Hb Hi Hst Hlis Hd Hpip Hnn Hm Hr Hma Hmb Hu Hav. pose proof Ha as (Hna & Hda & Hsa). pose proof Hb as (Hnb & Hdb & Hsb).
  destruct (proj1 (Forall_lookup _ _) Hsa i k Hi) as (Hk & _ & _). pose proof Hna as (Hia & Hmaca & _). pose proof Hnb as (Hib & Hmacb & _).
  destruct (syn_is_refused fuel b (wire_of a) (opening k data) m) as (kr & j & Hkr & Epip & Epp & Eb); [done..|].
  eexists _, _, _, _, _. split; [by apply (open_sends_syn (dns_of a) i k data m)|]. split; [done|]. split; [exact Eb|]. split; [done|].
  destruct (reads_of_keeps j (wire_of b)) as (_ & _ & Hsent & _). split; [cbn; by rewrite Hsent|].
  set (a1 := mkMachine _ (mac_of_server a)).
  split; [apply (reset_is_received fuel a1 (wire_of b) i (opening k data) kr (mac (wire_of a))); try done|].
  - split; [done|]. split; [unfold distinct_ports; cbn; by rewrite (fmap_insert_same _ _ k)|]. cbn. apply Forall_insert; [done|]. split; [done|]. split; [done|].
    by apply may_step_live with CLOSED.
  - cbn. apply list_lookup_insert_eq. by eapply lookup_lt_Some.
  - split; [|done]. eexists. split; [cbn; apply list_lookup_insert_eq; rewrite length_insert; by eapply lookup_lt_Some|done].
Qed.

(** ** Addresses of a neighbour *)

Definition arp_payload (opcode : Z) (srchw srcpr dsthw dstpr : list Z) : list Z := [0; 1; 8; 0; 6; 4; 0; opcode] ++ srchw ++ srcpr ++ dsthw ++ dstpr.
Definition arp_reply_frame (n : net) (m addr : list Z) : list Z := ethernet_header n m ETHERTYPE_ARP ++ arp_payload ARP_REPLY (mac n) (ip n) m addr.

Lemma arp_fields opcode srchw srcpr dsthw dstpr : mac_address srchw -> address srcpr -> mac_address dsthw -> address dstpr ->
  let p := arp_payload opcode srchw srcpr dsthw dstpr in
  getn p 24 4 = Ok dstpr /\ get16 p 6 = Ok (0 + 256 * opcode) /\ getn p 8 6 = Ok srchw /\ getn p 14 4 = Ok srcpr.
Proof.
  intros [H1 _] [H2 _] [H3 _] [H4 _] p. unfold p, arp_payload, get16.
  destruct srchw as [|a0 [|a1 [|a2 [|a3 [|a4 [|a5 [|]]]]]]]; try done. destruct srcpr as [|b0 [|b1 [|b2 [|b3 [|]]]]]; try done.
  destruct dsthw as [|c0 [|c1 [|c2 [|c3 [|c4 [|c5 [|]]]]]]]; try done. by destruct dstpr as [|d0 [|d1 [|d2 [|d3 [|]]]]].
Qed.

Lemma arp_write_spec n opcode addr m : address (ip n) -> mac_address (mac n) -> address addr -> mac_address m -> opcode = ARP_REQUEST \/ opcode = ARP_REPLY ->
  arp_write_packet n (replicate 28 0) opcode addr m = Ok (arp_payload opcode (mac n) (ip n) m addr).
Proof.
  intros [Hi _] [Hm _] [Ha _] [Hmm _] Hop. unfold arp_write_packet, arp_payload.
  destruct (mac n) as [|a0 [|a1 [|a2 [|a3 [|a4 [|a5 [|]]]]]]]; try done. destruct (ip n) as [|b0 [|b1 [|b2 [|b3 [|]]]]]; try done.
  destruct m as [|c0 [|c1 [|c2 [|c3 [|c4 [|c5 [|]]]]]]]; try done. destruct addr as [|d0 [|d1 [|d2 [|d3 [|]]]]]; try done.
  by destruct Hop as [-> | ->].
Qed.

(** A request for our address is answered. *)
Lemma arp_request_answered n m addr : address (ip n) -> mac_address (mac n) -> address addr -> mac_address m -> m <> null_mac ->
  arp_handle_packet n (arp_payload ARP_REQUEST m addr broadcast_mac (ip n)) m = Ok (nic_send n (arp_reply_frame n m addr)).
Proof.
  intros Hi Hm Ha Hmm Hne. destruct (arp_fields ARP_REQUEST m addr broadcast_mac (ip n) Hmm Ha broadcast_mac_ok Hi) as (E24 & E6 & E8 & E14).
  unfold arp_handle_packet, arp_is_valid. rewrite E24. run. rewrite bool_decide_eq_true_2 by done. cbn [negb]. rewrite E6, E8, E14. run.
  change (switch16 (0 + 256 * ARP_REQUEST) =? ARP_REQUEST) with true. cbv iota.
  rewrite ethernet_create_spec by (done || unfold is_u16, ETHERTYPE_ARP, arp_packet_size; lia). run.
  change (Z.to_nat arp_packet_size) with 28%nat. rewrite arp_write_spec by (done || by right). run.
  unfold arp_reply_frame, ethernet_header. rewrite <- !app_assoc. apply send_known; [apply Hmm|done].
Qed.

Lemma arp_frame_received fuel h n m op sh sp dh dp : mac_address (mac n) -> mac_address m ->
  let f := ethernet_header n m ETHERTYPE_ARP ++ arp_payload op sh sp dh dp in
  ethernet_handle_packet fuel h f (Z.of_nat (length f)) = (n' ← arp_handle_packet (wire_of h) (arp_payload op sh sp dh dp) (mac n); Ok (set_net h n')).
Proof.
  intros Hn Hm f. unfold ethernet_handle_packet. assert ((Z.of_nat (length f) <? ethernet_header_size) = false) as ->.
  { apply Z.ltb_ge. unfold f. rewrite length_app, ethernet_header_length by done. unfold ethernet_header_size. lia. }
  destruct (ethernet_fields n m ETHERTYPE_ARP (arp_payload op sh sp dh dp)) as (E1 & E2 & E3); [done|done|unfold is_u16, ETHERTYPE_ARP; lia|].
  unfold f. rewrite E1, E2, E3. run. change (switch16 (switch16 ETHERTYPE_ARP) =? ETHERTYPE_ARP) with true. done.
Qed.

Lemma first_waiting_insert addr f h : (h < ARP_PENDING_QUEUE_SIZE)%nat -> daddr_of f = addr -> first_waiting addr (<[h := Some f]> no_frames) = Some f.
Proof.
  intros Hh Hf. unfold no_frames, ARP_PENDING_QUEUE_SIZE in *. do 10 (destruct h as [|h]; [cbn; by rewrite bool_decide_eq_true_2|]). lia.
Qed.

(** Two kernels on one network: a packet to a neighbour whose hardware address is not known yet.  The request of the first is
    answered by the second; the answer makes the first send the packet to the second's hardware address. *)
Theorem neighbour_is_found fuel a b f : address (ip (wire_of a)) -> mac_address (mac (wire_of a)) -> mac (wire_of a) <> null_mac ->
  address (ip (wire_of b)) -> mac_address (mac (wire_of b)) -> mac (wire_of b) <> null_mac -> ip (wire_of b) <> gateway_ip (wire_of a) ->
  address_is_in_subnet (wire_of a) (ip (wire_of b)) = true ->
  pending_queue (wire_of a) = no_frames -> (pending_queue_head (wire_of a) < ARP_PENDING_QUEUE_SIZE)%nat ->
  (34 <= length f)%nat -> take 6 f = null_mac -> frame_daddr f = Ok (ip (wire_of b)) ->
  exists n1 req b' rep a', send_packet (wire_of a) f = Ok n1 /\ sent n1 = sent (wire_of a) ++ [req] /\
    ethernet_handle_packet fuel b req (Z.of_nat (length req)) = Ok b' /\ sent (wire_of b') = sent (wire_of b) ++ [rep] /\
    ethernet_handle_packet fuel (set_net a n1) rep (Z.of_nat (length rep)) = Ok a' /\
    sent (wire_of a') = sent (wire_of a) ++ [req; patch f 0 (mac (wire_of b))] /\ pending_queue (wire_of a') = no_frames.
Proof.
  intros Hia Hma Hnma Hib Hmb Hnmb Hgw Hsub Hq Hh Hl H6 Hda.
  assert (daddr_of f = ip (wire_of b)) as Hdaddr.
  { unfold frame_daddr, ethernet_header_size in Hda. rewrite getn_ok in Hda by lia. by injection Hda. }
  set (n1 := set_pending (wire_of a) (<[pending_queue_head (wire_of a) := Some f]> (pending_queue (wire_of a)))
    (Nat.modulo (pending_queue_head (wire_of a) + 1) ARP_PENDING_QUEUE_SIZE)).
  set (a1 := set_net a (nic_send n1 (arp_request n1 (ip (wire_of b))))).
  exists (nic_send n1 (arp_request n1 (ip (wire_of b)))), (arp_request n1 (ip (wire_of b))). eexists _, _.
  exists (set_net a1 (arp_learnt (wire_of a1) (ip (wire_of b)) (mac (wire_of b)))). fold a1. split.
  { unfold send_packet. rewrite getn_ok by lia. run. change (slice f 0 6) with (take 6 f). rewrite H6, bool_decide_eq_true_2 by done.
    rewrite Hda. run. rewrite Hsub. unfold resolve_and_send. rewrite Hda. run. by apply resolve_mac_spec. }
  split; [done|].
  change (arp_request n1 (ip (wire_of b))) with (ethernet_header (wire_of a) broadcast_mac ETHERTYPE_ARP ++
    arp_payload ARP_REQUEST (mac (wire_of a)) (ip (wire_of a)) broadcast_mac (ip (wire_of b))).
  rewrite arp_frame_received by (done || apply broadcast_mac_ok). rewrite arp_request_answered by done. run. split; [done|]. split; [done|].
  unfold arp_reply_frame. rewrite arp_frame_received by done.
  rewrite (arp_reply_spec (wire_of a1) _ _ (ip (wire_of b)) (mac (wire_of b))); [|..|done|done|done|].
  - run. split; [done|]. change (wire_of (set_net a1 ?x)) with x. unfold arp_learnt.
    assert (first_waiting (ip (wire_of b)) (pending_queue (wire_of a1)) = Some f) as ->.
    { change (pending_queue (wire_of a1)) with (<[pending_queue_head (wire_of a) := Some f]> (pending_queue (wire_of a))). rewrite Hq. by apply first_waiting_insert. }
    split; [|done]. cbn. by rewrite <- app_assoc.
  - destruct (arp_fields ARP_REPLY (mac (wire_of b)) (ip (wire_of b)) (mac (wire_of a)) (ip (wire_of a))) as (E24 & E6 & E8 & E14); [done..|].
    unfold arp_for. rewrite E6, E8, E14, E24. done.
  - unfold frames_ok. change (pending_queue (wire_of a1)) with (<[pending_queue_head (wire_of a) := Some f]> (pending_queue (wire_of a))). rewrite Hq.
    split; [by rewrite length_insert|]. intros i fr Hi. destruct (decide (i = pending_queue_head (wire_of a))) as [->|].
    + rewrite list_lookup_insert_eq in Hi by done. by simplify_eq.
    + rewrite list_lookup_insert_ne in Hi by done. unfold no_frames in Hi. by apply lookup_replicate in Hi as [? _].
Qed.

(** ** Two machines *)

Definition first_machine : machine := mkMachine idle_resolver null_mac.
Definition second_net : net :=
  mkNet Net.peer_ip [10; 0; 2; 2] [255; 255; 255; 0] peer_mac null_mac (replicate ARP_CACHE_SIZE (null_ip, null_mac)) 0 no_frames 0 false 0
    (fun n => 2000 + Z.of_nat n) 0 [].
Definition second_machine : machine := mkMachine (mkResolver (mkStack second_net [] []) 0 (replicate 10 None) 0) null_mac.

Lemma second_ok : stack_ok (stack_of second_machine).
Proof.
  split; [|split; [by apply NoDup_nil|by apply Forall_nil]]. split; [apply peer_ip_ok|]. split; [apply peer_mac_ok|]. split; [apply null_mac_ok|].
  split; [split; [done|cbn; unfold ARP_CACHE_SIZE; lia]|]. apply Forall_replicate. apply null_mac_ok.
Qed.

Lemma connection_is_refused_witness :
  exists r1 syn b' rst a', run_socket (dns_of first_machine) 0 (fun c => send_data c [1; 2; 3]) = Ok r1 /\
    ethernet_handle_packet 3 second_machine syn (Z.of_nat (length syn)) = Ok b' /\
    ethernet_handle_packet 3 (mkMachine r1 null_mac) rst (Z.of_nat (length rst)) = Ok a' /\ log (stack_of a') = [Terminated PeerClosed].
Proof.
  destruct (connection_is_refused 3 first_machine second_machine 0 (client CLOSED) [1; 2; 3] peer_mac)
    as (r1 & syn & b' & rst & a' & E1 & _ & E2 & _ & _ & E3 & _ & E4);
    [apply kernel_closed_ok|apply second_ok|done|done|done|apply data3_ok|done|done|apply peer_mac_ok|apply lan_routed|done|done|done|
     exists 0%nat; split; [lia|done]|].
  exists r1, syn, b', rst, a'. split; [exact E1|]. split; [exact E2|]. split; [exact E3|exact E4].
Defined.

Definition unrouted_frame : list Z := null_mac ++ [82; 84; 0; 18; 52; 86; 8; 0] ++ replicate 16 0 ++ Net.peer_ip ++ [1; 2; 3].

Lemma neighbour_is_found_witness :
  exists n1 req b' rep a', send_packet (wire_of first_machine) unrouted_frame = Ok n1 /\
    ethernet_handle_packet 3 second_machine req (Z.of_nat (length req)) = Ok b' /\
    ethernet_handle_packet 3 (set_net first_machine n1) rep (Z.of_nat (length rep)) = Ok a' /\
    sent (wire_of a') = [req; patch unrouted_frame 0 peer_mac].
Proof.
  destruct (neighbour_is_found 3 first_machine second_machine unrouted_frame) as (n1 & req & b' & rep & a' & E1 & _ & E2 & _ & E3 & E4 & _);
    [apply host_ip|apply host_mac|done|apply peer_ip_ok|apply peer_mac_ok|done|done|by vm_compute|done|cbn; unfold ARP_PENDING_QUEUE_SIZE; lia|cbn; lia|done|by vm_compute|].
  exists n1, req, b', rep, a'. split; [exact E1|]. split; [exact E2|]. split; [exact E3|exact E4].
Defined.

End NetStack.
