(* ===== verification/Slab.v ===== *)
(** * The slab allocator ([core/SlabAllocator.hxx], [SlabAlloc.h])

    One allocator of objects of a type: pages with a header and slots, the free slots of a page linked through the word behind
    each object, and three lists of pages.  Addresses are numbers; the headers and links are finite maps.  The pages come from
    the page allocator, which is an argument.  The theorems show that no object is given out twice whatever is freed in
    between, and what happens to pages that have been full. *)

From stdpp Require Import functions.
From stdpp Require Import base tactics numbers list gmap.
From S2P Require Import Prelude.
Open Scope Z_scope.

Module Slab.

Definition PAGE_SIZE : Z := 4096.
Definition N_FREE_PAGE_THRESHOLD : Z := 2.
Definition page_header_size : Z := 12.

Record page_header := mkPage { next_page_hdr : Z; freep : Z; num_free_allocs : Z }.

(** The memory of an allocator: its global header, the page headers and the links of the slots; [released] are the arguments
    of the calls of [free_page], and [pages_taken] counts the pages taken from the page allocator. *)
Record slab := mkSlab {
  empty_pages : Z; partial_pages : Z; full_pages : Z; num_empty_pages : Z;
  headers : gmap Z page_header; links : gmap Z Z; pages_taken : nat; released : list Z
}.

Definition set_header (s : slab) (p : Z) (h : page_header) : slab :=
  mkSlab (empty_pages s) (partial_pages s) (full_pages s) (num_empty_pages s) (<[p := h]> (headers s)) (links s) (pages_taken s) (released s).
Definition set_next (s : slab) (p v : Z) : res slab :=
  h ← deref (headers s !! p); Ok (set_header s p (mkPage v (freep h) (num_free_allocs h))).
Definition get_next (s : slab) (p : Z) : res Z := h ← deref (headers s !! p); Ok (next_page_hdr h).
Definition set_empty (s : slab) v n : slab :=
  mkSlab v (partial_pages s) (full_pages s) n (headers s) (links s) (pages_taken s) (released s).
Definition set_partial (s : slab) v : slab :=
  mkSlab (empty_pages s) v (full_pages s) (num_empty_pages s) (headers s) (links s) (pages_taken s) (released s).
Definition set_full (s : slab) v : slab :=
  mkSlab (empty_pages s) (partial_pages s) v (num_empty_pages s) (headers s) (links s) (pages_taken s) (released s).
Definition set_link (s : slab) (a v : Z) : slab :=
  mkSlab (empty_pages s) (partial_pages s) (full_pages s) (num_empty_pages s) (headers s) (<[a := v]> (links s)) (pages_taken s) (released s).
Definition release (s : slab) (a : Z) : slab :=
  mkSlab (empty_pages s) (partial_pages s) (full_pages s) (num_empty_pages s) (headers s) (links s) (pages_taken s) (released s ++ [a]).
Definition take_page (s : slab) : slab :=
  mkSlab (empty_pages s) (partial_pages s) (full_pages s) (num_empty_pages s) (headers s) (links s) (S (pages_taken s)) (released s).

Definition new_slab : slab := mkSlab 0 0 0 0 ∅ ∅ 0 [].

(** The first use of an allocator takes a page for its global header. *)
Definition get_instance (allocator : option slab) : slab :=
  match allocator with Some s => s | None => take_page new_slab end.
Definition fresh : slab := get_instance None.

Section allocator.

(** [sizeof(alloc)], and the page that the [n]-th call of [get_free_pe] returns. *)
Context (alloc_size : Z) (get_free_pe : nat -> Z).

Definition max_allocs_per_page : Z := (PAGE_SIZE - page_header_size) / alloc_size.
Definition slot (p : Z) (i : nat) : Z := p + page_header_size + Z.of_nat i * alloc_size.

(** The loop that links the slots of a new page, the last one to nothing. *)
Fixpoint link_slots (s : slab) (p : Z) (i n : nat) : slab :=
  match n with
  | O => s
  | S O => set_link s (slot p i) 0
  | S n => link_slots (set_link s (slot p i) (slot p (S i))) p (S i) n
  end.

Definition get_new_page (s : slab) : res (Z * slab) :=
  let pe := get_free_pe (pages_taken s) in
  let addr := u32 (Z.shiftl pe 12) in
  let s := take_page s in
  let s := link_slots s addr 0 (Z.to_nat max_allocs_per_page) in
  let s := set_header s addr (mkPage (empty_pages s) (slot addr 0) max_allocs_per_page) in
  let s := set_empty s addr (num_empty_pages s +u 1) in
  Ok (empty_pages s, s).

(** The page that an object is taken from; an empty one is moved to the partial ones. *)
Definition pick_page (s : slab) : res (Z * slab) :=
  '(p, s) ← (if truthy (partial_pages s) then Ok (partial_pages s, s)
             else if truthy (empty_pages s) then Ok (empty_pages s, s) else get_new_page s);
  if p =? empty_pages s then
    e ← get_next s (empty_pages s);
    let s := set_empty s e (num_empty_pages s) in
    s ← set_next s p (partial_pages s);
    let s := set_partial s p in
    Ok (p, set_empty s (empty_pages s) (num_empty_pages s -u 1))
  else Ok (p, s).

(** The first free object of the page. *)
Definition take_slot (s : slab) (p : Z) : res (Z * slab) :=
  h ← deref (headers s !! p);
  let data := freep h in
  nx ← deref (links s !! freep h);
  let n := num_free_allocs h -u 1 in
  let s := set_header s p (mkPage (next_page_hdr h) nx n) in
  if truthy n then Ok (data, s)
  else
    e ← get_next s (partial_pages s);
    let s := set_partial s e in
    s ← set_next s p (full_pages s);
    Ok (data, set_full s p).

Definition alloc (s : slab) : res (Z * slab) := '(p, s) ← pick_page s; take_slot s p.

(** [~(PAGE_SIZE - 1)] on a 32-bit address. *)
Definition page_base (t : Z) : Z := t - t mod PAGE_SIZE.

Definition free (s : slab) (t : Z) : res slab :=
  let p := page_base t in
  h ← deref (headers s !! p);
  _ ← deref (links s !! t);
  let s := set_link s t (freep h) in
  let n := num_free_allocs h +u 1 in
  let s := set_header s p (mkPage (next_page_hdr h) t n) in
  if n =? max_allocs_per_page then
    e ← get_next s (partial_pages s);
    let s := set_partial s e in
    s ← set_next s p (empty_pages s);
    let s := set_empty s p (num_empty_pages s +u 1) in
    if N_FREE_PAGE_THRESHOLD <? num_empty_pages s then
      let to_be_freed := empty_pages s in
      e ← get_next s (empty_pages s);
      let s := set_empty s e (num_empty_pages s) in
      Ok (release s (Z.shiftr to_be_freed 12))
    else Ok s
  else Ok s.

End allocator.


(** ** The invariant of an allocator

    [F] gives the free slots of each page in the order of its list, [el] the pages of the empty list; [live] are the objects
    that have been given out and not freed.  The list of partial pages has at most one page, because a page enters it only when
    it is empty. *)
Section safety.

(** The page allocator has [N] pages to give, each of them once. *)
Context (alloc_size : Z) (get_free_pe : nat -> Z) (N : nat).
Local Notation max := (max_allocs_per_page alloc_size).
Local Notation slot := (slot alloc_size).
Local Notation addr k := (Z.shiftl (get_free_pe k) 12).

Context (Hsize : 0 < alloc_size <= PAGE_SIZE - page_header_size)
        (Hpe : forall k, (k < N)%nat -> 0 < get_free_pe k < 2 ^ 20)
        (Hinj : forall j k, (j < N)%nat -> (k < N)%nat -> get_free_pe j = get_free_pe k -> j = k).

Definition taken (s : slab) (p : Z) : Prop := exists k, (0 < k < pages_taken s)%nat /\ (k < N)%nat /\ p = addr k.
Definition slot_of (p x : Z) : Prop := exists i, (i < Z.to_nat max)%nat /\ x = slot p i.

Inductive path (l : gmap Z Z) : Z -> list Z -> Prop :=
| path_nil : path l 0 []
| path_cons a b xs : l !! a = Some b -> path l b xs -> path l a (a :: xs).

Inductive pages (hs : gmap Z page_header) : Z -> list Z -> Prop :=
| pages_nil : pages hs 0 []
| pages_cons p h ps : hs !! p = Some h -> num_free_allocs h = max -> pages hs (next_page_hdr h) ps -> pages hs p (p :: ps).

Record page_ok (s : slab) (live : list Z) (p : Z) (fl : list Z) : Prop := {
  po_header : exists h, headers s !! p = Some h /\ path (links s) (freep h) fl /\ num_free_allocs h = Z.of_nat (length fl);
  po_nodup : NoDup fl;
  po_slots : Forall (slot_of p) fl;
  po_dead : Forall (fun x => x ∉ live) fl
}.

Record inv (s : slab) (live : list Z) (F : Z -> list Z) (el : list Z) : Prop := {
  in_pages : forall p, taken s p -> page_ok s live p (F p);
  in_live : Forall (fun t => (exists p, taken s p /\ slot_of p t) /\ is_Some (links s !! t)) live;
  in_live_nodup : NoDup live;
  in_empty : pages (headers s) (empty_pages s) el;
  in_empty_taken : Forall (taken s) el;
  in_empty_nodup : NoDup el;
  in_partial : partial_pages s = 0 \/ taken s (partial_pages s) /\ exists h, headers s !! partial_pages s = Some h /\
                 next_page_hdr h = 0 /\ 0 < num_free_allocs h
                 /\ partial_pages s ∉ el;
  in_started : (0 < pages_taken s)%nat;
  in_null : headers s !! 0 = None;
  in_few : released s = [] /\ num_empty_pages s = Z.of_nat (length el) /\
           Z.of_nat (length el) + (if partial_pages s =? 0 then 0 else 1) <= 1
}.


Lemma max_range : 0 < max <= 4084.
Proof.
  unfold max_allocs_per_page, PAGE_SIZE, page_header_size in *. split; [apply Z.div_str_pos; lia|].
  apply Z.div_le_upper_bound; nia.
Qed.

Lemma slot_range i : (i < Z.to_nat max)%nat -> 0 <= Z.of_nat i * alloc_size <= 4084 - alloc_size.
Proof.
  intros Hi. pose proof max_range. assert (max * alloc_size <= 4084); [|nia].
  unfold max_allocs_per_page, PAGE_SIZE, page_header_size in *.
  pose proof (Z.mul_div_le 4084 alloc_size ltac:(lia)). change (4096 - 12) with 4084. nia.
Qed.

Lemma addr_range k : (k < N)%nat -> 4096 <= addr k < 2 ^ 32 /\ addr k mod 4096 = 0.
Proof.
  intros Hk. pose proof (Hpe k Hk). rewrite Z.shiftl_mul_pow2 by lia. change (2 ^ 12) with 4096. split; [lia|]. by rewrite Z.mod_mul.
Qed.

Lemma addr_inj j k : (j < N)%nat -> (k < N)%nat -> addr j = addr k -> j = k.
Proof. rewrite !Z.shiftl_mul_pow2 by lia. intros Hj Hk E. apply Hinj; [done|done|lia]. Qed.

Lemma addr_u32 k : (k < N)%nat -> u32 (addr k) = addr k.
Proof. intros Hk. apply u32_id. pose proof (addr_range k Hk). unfold is_u32. lia. Qed.

Lemma taken_pos s p : taken s p -> 4096 <= p.
Proof. intros (k & _ & Hk & ->). by apply addr_range. Qed.

Lemma slot_base s p x : taken s p -> slot_of p x -> page_base x = p.
Proof.
  intros (k & _ & Hk & ->) (i & Hi & ->). pose proof (slot_range i Hi). destruct (addr_range k Hk) as [? Hm].
  unfold page_base, Slab.slot, page_header_size, PAGE_SIZE.
  rewrite <- Z.add_assoc, Z.add_mod, Hm, Z.add_0_l, Z.mod_mod, Z.mod_small by lia. lia.
Qed.

Lemma slot_inj p i j : slot p i = slot p j -> i = j.
Proof. unfold Slab.slot. nia. Qed.

Definition all_slots (p : Z) : list Z := map (slot p) (seq 0 (Z.to_nat max)).

Lemma all_slots_elem p x : x ∈ all_slots p <-> slot_of p x.
Proof.
  unfold all_slots, slot_of. rewrite list_elem_of_fmap. setoid_rewrite elem_of_seq.
  split; intros (i & ? & ?); exists i; split; auto; lia.
Qed.

Lemma all_slots_nodup p : NoDup (all_slots p).
Proof. apply NoDup_fmap_2; [intros ?? E; by apply slot_inj in E|apply NoDup_seq]. Qed.

Lemma slots_bound p fl : NoDup fl -> Forall (slot_of p) fl -> Z.of_nat (length fl) <= max.
Proof.
  intros Hnd Hs. assert (length fl <= length (all_slots p))%nat as Hl.
  { apply submseteq_length, NoDup_submseteq; [done|]. intros x Hx. apply all_slots_elem. rewrite Forall_forall in Hs. by apply Hs. }
  unfold all_slots in Hl. rewrite length_map, length_seq in Hl. pose proof max_range. lia.
Qed.

Lemma pages_frame hs a ps x v : pages hs a ps -> x ∉ ps -> pages (<[x := v]> hs) a ps.
Proof. induction 1 as [|p h ps Hh Hn Hp IH]; intros Hx; [constructor|]. econstructor; [|done|apply IH; set_solver]. rewrite lookup_insert_ne; [done|set_solver]. Qed.

Lemma pages_head hs a ps : pages hs a ps -> (a = 0 /\ ps = []) \/ exists ps', ps = a :: ps'.
Proof. destruct 1; eauto. Qed.

Lemma empty_zero s live F el : inv s live F el -> empty_pages s = 0 -> el = [].
Proof.
  intros HI E. destruct (pages_head _ _ _ (in_empty _ _ _ _ HI)) as [[_ ->]|[ps ->]]; [done|].
  pose proof (in_empty_taken _ _ _ _ HI) as Ht. inversion Ht as [|? ? Hp]; subst. apply taken_pos in Hp. lia.
Qed.

Lemma partial_not_empty s live F el : inv s live F el -> partial_pages s <> 0 -> partial_pages s <> empty_pages s.
Proof.
  intros HI Hp E. destruct (in_partial _ _ _ _ HI) as [?|(_ & h & _ & _ & _ & Hn)]; [done|]. apply Hn.
  destruct (pages_head _ _ _ (in_empty _ _ _ _ HI)) as [[? ->]|[ps ->]]; [congruence|]. rewrite E. set_solver.
Qed.

Lemma path_ext l l' a xs : path l a xs -> (forall x, x ∈ xs -> l' !! x = l !! x) -> path l' a xs.
Proof. induction 1 as [|a b xs Ha Hp IH]; intros E; [constructor|]. econstructor; [rewrite E; [done|set_solver]|]. apply IH. set_solver. Qed.

Lemma page_frame s s' live live' p fl :
  page_ok s live p fl -> headers s' !! p = headers s !! p -> (forall x, x ∈ fl -> links s' !! x = links s !! x) ->
  (forall x, x ∈ fl -> x ∈ live' -> x ∈ live) -> page_ok s' live' p fl.
Proof.
  intros [(h & Hh & Hp & Hn) Hnd Hs Hd] Eh El Hl. split; [|done|done|].
  - exists h. rewrite Eh. eauto using path_ext.
  - rewrite Forall_forall in *. intros x Hx Hx'. exact (Hd x Hx (Hl x Hx Hx')).
Qed.

Lemma slots_apart s p q x y : taken s p -> taken s q -> p <> q -> slot_of p x -> slot_of q y -> x <> y.
Proof. intros Hp Hq Hne Hx Hy ->. apply Hne. by rewrite <- (slot_base s p y), <- (slot_base s q y). Qed.

Definition same_pages (s s' : slab) : Prop :=
  headers s' = headers s /\ empty_pages s' = empty_pages s /\ partial_pages s' = partial_pages s /\
  num_empty_pages s' = num_empty_pages s /\ pages_taken s' = pages_taken s /\ released s' = released s.

Lemma link_slots_frame p n : forall s i,
  same_pages s (link_slots alloc_size s p i n) /\
  forall x, x ∉ map (slot p) (seq i n) -> links (link_slots alloc_size s p i n) !! x = links s !! x.
Proof.
  induction n as [|n IH]; intros s i; [done|]. destruct n as [|n].
  - split; [done|]. intros x Hx. cbn in *. rewrite lookup_insert_ne; [done|]. intros <-. apply Hx. by left.
  - destruct (IH (set_link s (slot p i) (slot p (S i))) (S i)) as [Hs Hl]. split; [exact Hs|].
    intros x Hx. change (seq i (S (S n))) with (i :: seq (S i) (S n)) in Hx. rewrite map_cons, not_elem_of_cons in Hx.
    change (link_slots alloc_size s p i (S (S n))) with (link_slots alloc_size (set_link s (slot p i) (slot p (S i))) p (S i) (S n)).
    rewrite Hl by apply Hx. cbn. rewrite lookup_insert_ne; [done|]. intros E. by apply (proj1 Hx).
Qed.

(** The slots of a new page are linked in the order of their addresses. *)
Lemma link_slots_path p n : forall s i,
  path (links (link_slots alloc_size s p i (S n))) (slot p i) (map (slot p) (seq i (S n))).
Proof.
  induction n as [|n IH]; intros s i; [econstructor; [cbn; by rewrite lookup_insert_eq|constructor]|].
  change (seq i (S (S n))) with (i :: seq (S i) (S n)). rewrite map_cons.
  change (link_slots alloc_size s p i (S (S n))) with (link_slots alloc_size (set_link s (slot p i) (slot p (S i))) p (S i) (S n)).
  econstructor; [|apply IH]. destruct (link_slots_frame p (S n) (set_link s (slot p i) (slot p (S i))) (S i)) as [_ Hf].
  rewrite Hf; [cbn; by rewrite lookup_insert_eq|]. intros (j & E & Hj)%list_elem_of_fmap. apply slot_inj in E; subst j.
  apply elem_of_seq in Hj. lia.
Qed.

(** Changing one page: the others keep what they have. *)
Lemma pages_update s s' live live' F p fl :
  (forall q, taken s q -> page_ok s live q (F q)) ->
  taken s' p -> (forall q, taken s' q -> q <> p -> taken s q) -> page_ok s' live' p fl ->
  (forall q, q <> p -> headers s' !! q = headers s !! q) ->
  (forall x, ~ slot_of p x -> links s' !! x = links s !! x) ->
  (forall x, ~ slot_of p x -> x ∈ live' -> x ∈ live) ->
  forall q, taken s' q -> page_ok s' live' q ((<[p := fl]> F) q).
Proof.
  intros Hall Hp Ht Hok Eh El Hl q Hq. destruct (decide (q = p)) as [->|Hne]; [by rewrite fn_lookup_insert|].
  rewrite fn_lookup_insert_ne by done. pose proof (Hall q (Ht q Hq Hne)) as Hqs.
  assert (forall x, x ∈ F q -> ~ slot_of p x) as Hx.
  { intros x Hx Hs. pose proof (po_slots _ _ _ _ Hqs) as Hf. rewrite Forall_forall in Hf.
    exact (slots_apart s' q p x x Hq Hp Hne (Hf x Hx) Hs eq_refl). }
  eapply page_frame; eauto.
Qed.

Lemma get_new_page_ok s live F : inv s live F [] -> (pages_taken s < N)%nat -> partial_pages s = 0 ->
  exists s' p, get_new_page alloc_size get_free_pe s = Ok (p, s') /\ empty_pages s' = p /\ partial_pages s' = partial_pages s /\
    inv s' live (<[p := all_slots p]> F) [p].
Proof.
  intros HI HN Hz. unfold get_new_page. rewrite addr_u32 by done. set (p := addr (pages_taken s)).
  destruct (link_slots_frame p (Z.to_nat max) (take_page s) 0) as [(Eh & Ee & Ep & En & Et & Er) Hf].
  pose proof max_range as Hm. pose proof (link_slots_path p (pred (Z.to_nat max)) (take_page s) 0) as Hp.
  replace (S (pred (Z.to_nat max))) with (Z.to_nat max) in Hp by lia. fold (all_slots p) in Hp, Hf.
  set (s1 := link_slots _ _ _ _ _) in *. pose proof (in_started _ _ _ _ HI) as Hst. eexists _, p. split; [done|]. cbn -[max_allocs_per_page].
  split; [done|]. split; [done|].
  assert (forall q, taken s q -> q <> p) as Hfresh.
  { intros q (k & Hk & Hk' & ->) E. apply addr_inj in E; lia. }
  assert (forall x, x ∈ live -> ~ slot_of p x) as Hlive.
  { pose proof (in_live _ _ _ _ HI) as Hl. rewrite Forall_forall in Hl. intros x Hx Hs. destruct (Hl x Hx) as [(q & Hq & Hqx) _].
    apply (Hfresh q Hq). rewrite <- (slot_base s q x Hq Hqx). apply (slot_base (take_page s)); [|done].
    exists (pages_taken s). split; [cbn; lia|done]. }
  set (s2 := set_empty _ _ _).
  assert (taken s2 p) as Hp2 by (exists (pages_taken s); split; [cbn; rewrite Et; cbn; lia|done]).
  assert (forall q, taken s q -> taken s2 q) as Hmono.
  { intros q (k & Hk & ? & ->). exists k. split; [cbn; rewrite Et; cbn; lia|done]. }
  assert (forall q, q <> p -> headers s2 !! q = headers s !! q) as Eh2.
  { intros q Hq. cbn. rewrite lookup_insert_ne by done. by rewrite Eh. }
  pose proof (in_empty_taken _ _ _ _ HI) as Het. rewrite Forall_forall in Het.
  split.
  - eapply (pages_update s s2 live live); try done; [apply HI| | |].
    + intros q (k & Hk & ? & ->) Hne. exists k. split; [|done]. cbn in Hk. rewrite Et in Hk. cbn in Hk.
      destruct (decide (k = pages_taken s)) as [->|]; [done|lia].
    + split; [|apply all_slots_nodup| |].
      * eexists. cbn -[max_allocs_per_page Slab.slot]. rewrite lookup_insert_eq. split; [done|]. split; [exact Hp|].
        cbn. unfold all_slots. rewrite length_map, length_seq. lia.
      * rewrite Forall_forall. intros x. apply all_slots_elem.
      * rewrite Forall_forall. intros x Hx%all_slots_elem Hl. by apply (Hlive x).
    + intros x Hx. cbn. rewrite Hf; [done|]. by rewrite all_slots_elem.
  - pose proof (in_live _ _ _ _ HI) as Hl. eapply Forall_impl; [exact Hl|]. cbn beta. intros x [(q & Hq & Hqx) Hi].
    split; [exists q; auto|]. cbn. rewrite Hf; [done|]. rewrite all_slots_elem. intros Hs.
    apply (slots_apart s2 q p x x); auto.
  - apply HI.
  - cbn -[max_allocs_per_page]. econstructor; [by rewrite lookup_insert_eq|done|]. cbn. rewrite Ee, Eh.
    apply pages_frame; [apply HI|]. intros Hin. by apply (Hfresh p); [apply Het|].
  - constructor; [done|]. rewrite Forall_forall. auto.
  - constructor; [|apply HI]. intros Hin. by apply (Hfresh p); [apply Het|].
  - cbn. rewrite Ep. cbn. destruct (in_partial _ _ _ _ HI) as [?|(Hpt & h & Hh & Hnz & Hn & Hni)]; [by left|right].
    split; [by apply Hmono|]. exists h. rewrite lookup_insert_ne by (intros E; by apply (Hfresh _ Hpt)). rewrite Eh.
    repeat split; try done. rewrite not_elem_of_cons. split; [by apply Hfresh|done].
  - cbn. rewrite Et. cbn. lia.
  - rewrite Eh2; [apply HI|]. apply taken_pos in Hp2. lia.
  - destruct (in_few _ _ _ _ HI) as (H1 & H2 & H3). cbn. rewrite Er, En, Ep. cbn. rewrite H2, Hz. done.
Qed.

(** A page of the empty list moves to the partial one. *)
Lemma move_page s live F p el : inv s live F (p :: el) -> partial_pages s = 0 ->
  exists h, headers s !! p = Some h /\ empty_pages s = p /\ num_empty_pages s = 1 /\ forall n, n = 0 ->
    inv (mkSlab (next_page_hdr h) p (full_pages s) n (<[p := mkPage 0 (freep h) (num_free_allocs h)]> (headers s))
           (links s) (pages_taken s) (released s)) live (<[p := F p]> F) el.
Proof.
  intros HI Hz. pose proof (in_empty _ _ _ _ HI) as He. pose proof (in_empty_taken _ _ _ _ HI) as Het.
  pose proof (in_empty_nodup _ _ _ _ HI) as Hnd. inversion He as [|q h ps Hh Hn Hps E1 E2]; subst.
  apply Forall_cons in Het as [Hp Het]. apply NoDup_cons in Hnd as [Hni Hnd]. exists h. split; [done|]. split; [done|].
  destruct (in_few _ _ _ _ HI) as (Hf1 & Hf2 & Hf3). cbn [length] in Hf2, Hf3.
  assert (length el = 0%nat) as Hlen0 by (destruct (partial_pages s =? 0); lia). split; [lia|]. intros n ->.
  set (s' := mkSlab _ _ _ _ _ _ _ _). pose proof max_range as Hm. split.
  - eapply (pages_update s s' live live); try done; [apply HI| |].
    + destruct (in_pages _ _ _ _ HI _ Hp) as [(h' & Hh' & Hpath & Hlen) Hn1 Hn2 Hn3]. split; [|done|done|done].
      eexists. cbn. rewrite lookup_insert_eq. split; [done|]. cbn. rewrite Hh in Hh'. by simplify_eq.
    + intros q Hq. cbn. by rewrite lookup_insert_ne.
  - apply HI.
  - apply HI.
  - cbn. by apply pages_frame.
  - done.
  - done.
  - right. split; [done|]. eexists. cbn. rewrite lookup_insert_eq. split; [done|]. cbn. split; [done|]. split; [lia|done].
  - apply HI.
  - cbn. rewrite lookup_insert_ne; [apply HI|]. apply taken_pos in Hp. lia.
  - cbn. rewrite Hlen0. split; [done|]. split; [done|]. destruct (empty_pages s =? 0); lia.
Qed.

Lemma pick_page_ok s live F el : inv s live F el -> (pages_taken s < N)%nat ->
  exists s' F' el' p, pick_page alloc_size get_free_pe s = Ok (p, s') /\ inv s' live F' el' /\ partial_pages s' = p /\ p <> 0.
Proof.
  intros HI HN. unfold pick_page. destruct (decide (partial_pages s = 0)) as [Hz|Hz].
  - assert (exists s1 p F1 el1, (if truthy (partial_pages s) then Ok (partial_pages s, s)
             else if truthy (empty_pages s) then Ok (empty_pages s, s) else get_new_page alloc_size get_free_pe s) = Ok (p, s1)
             /\ inv s1 live F1 (p :: el1) /\ partial_pages s1 = 0) as (s1 & p & F1 & el1 & E & HI1 & Hz1).
    { rewrite Hz. cbn -[get_new_page]. destruct (truthy (empty_pages s)) eqn:Te.
      - destruct (pages_head _ _ _ (in_empty _ _ _ _ HI)) as [[E _]|[ps ->]]; [rewrite E in Te; done|]. by exists s, (empty_pages s), F, ps.
      - assert (empty_pages s = 0) as Ez by (unfold truthy in Te; bool_to_prop; lia).
        pose proof (empty_zero _ _ _ _ HI Ez) as ->.
        destruct (get_new_page_ok _ _ _ HI HN Hz) as (s' & p & E & _ & Hp & HI'). rewrite E, Hz in *. eauto 10. }
    rewrite E. run. destruct (move_page _ _ _ _ _ HI1 Hz1) as (h & Hh & Ee & En & HI2).
    pose proof (in_empty_taken _ _ _ _ HI1) as Ht. apply Forall_cons in Ht as [Ht _]. apply taken_pos in Ht.
    unfold get_next, set_next. rewrite Ee, Z.eqb_refl, Hh. run. cbn [headers set_empty]. rewrite Hh. run. cbn. rewrite Hz1.
    eexists _, _, _, p. split; [done|]. split; [apply HI2; by rewrite En|]. split; [done|lia].
  - assert (truthy (partial_pages s) = true) as -> by (unfold truthy; bool_to_prop; lia). run.
    pose proof (partial_not_empty _ _ _ _ HI Hz) as Hne. apply Z.eqb_neq in Hne as ->. eauto 10.
Qed.

(** The state after the first free object of a page outside of the empty list has been given out. *)
Lemma slot_taken s live F el p h a nx fl s' nh :
  inv s live F el -> partial_pages s <> 0 -> released s' = released s -> num_empty_pages s' = num_empty_pages s ->
  taken s p -> p ∉ el -> headers s !! p = Some h -> F p = a :: fl -> links s !! a = Some nx ->
  links s' = links s -> pages_taken s' = pages_taken s -> empty_pages s' = empty_pages s ->
  headers s' = <[p := mkPage nh nx (num_free_allocs h - 1)]> (headers s) ->
  partial_pages s' = 0 \/ partial_pages s' = p /\ nh = 0 /\ 0 < num_free_allocs h - 1 ->
  inv s' (a :: live) (<[p := fl]> F) el.
Proof.
  intros HI Hz Er En Hpt Hni Hh EF Ha El Et Ee Eh Hpart. destruct (in_pages _ _ _ _ HI p Hpt) as [(h' & Hh' & Hpath & Hlen) Hnd Hsl Hd].
  assert (h' = h) as -> by congruence. rewrite EF in *. inversion Hpath as [|? nx' ? Ha' Hrest E1]; subst a. assert (nx' = nx) as -> by congruence.
  apply NoDup_cons in Hnd as [Hna Hnd]. apply Forall_cons in Hsl as [Hsa Hsl]. apply Forall_cons in Hd as [Hda Hd].
  assert (forall q, taken s' q <-> taken s q) as Htk by (intros q; unfold taken; by rewrite Et).
  split.
  - eapply (pages_update s s' live); [apply HI|by apply Htk|intros q Hq _; by apply Htk| | | |].
    + split; [|done|done|].
      * eexists. rewrite Eh, lookup_insert_eq, El. split; [done|]. cbn. split; [done|]. cbn in Hlen. lia.
      * rewrite Forall_forall in *. intros x Hx. rewrite not_elem_of_cons. split; [|by apply Hd]. intros ->. done.
    + intros q Hq. by rewrite Eh, lookup_insert_ne.
    + by rewrite El.
    + intros x Hx [->|?]%elem_of_cons; [done|done].
  - pose proof (in_live _ _ _ _ HI) as Hl. rewrite El. constructor; [split; [exists p; by rewrite Htk|by rewrite Ha]|].
    eapply Forall_impl; [exact Hl|]. cbn beta. intros x [(q & Hq & ?) ?]. split; [exists q; by rewrite Htk|done].
  - constructor; [done|apply HI].
  - rewrite Ee, Eh. apply pages_frame; [apply HI|done].
  - eapply Forall_impl; [apply HI|]. intros q. apply Htk.
  - apply HI.
  - destruct Hpart as [?|(-> & -> & ?)]; [by left|right]. split; [by apply Htk|]. eexists. by rewrite Eh, lookup_insert_eq.
  - rewrite Et. apply HI.
  - rewrite Eh, lookup_insert_ne; [apply HI|]. apply taken_pos in Hpt. lia.
  - destruct (in_few _ _ _ _ HI) as (H1 & H2 & H3). rewrite Er, En. apply Z.eqb_neq in Hz. rewrite Hz in H3. cbn iota in H3.
    split; [done|]. split; [done|]. destruct (partial_pages s' =? 0); lia.
Qed.

Lemma take_slot_ok s live F el : inv s live F el -> partial_pages s <> 0 ->
  exists a s' F', take_slot s (partial_pages s) = Ok (a, s') /\ a ∉ live /\ taken s (partial_pages s) /\
    slot_of (partial_pages s) a /\ pages_taken s' = pages_taken s /\ inv s' (a :: live) F' el.
Proof.
  intros HI Hz. destruct (in_partial _ _ _ _ HI) as [?|(Hpt & h & Hh & Hnx & Hn & Hni)]; [done|].
  destruct (in_pages _ _ _ _ HI _ Hpt) as [(h' & Hh' & Hpath & Hlen) Hnd Hsl Hd]. assert (h' = h) as -> by congruence.
  pose proof (slots_bound _ _ Hnd Hsl) as Hb. pose proof max_range as Hm.
  destruct (F (partial_pages s)) as [|a fl] eqn:EF; [cbn in Hlen; lia|]. inversion Hpath as [|? nx ? Hl Hrest E1]; subst.
  apply Forall_cons in Hsl as [Hsa _]. apply Forall_cons in Hd as [Hda _].
  unfold take_slot, get_next, set_next. rewrite Hh. run. rewrite Hl. run.
  rewrite (u32_id (num_free_allocs h - 1)) by (unfold is_u32; lia). unfold truthy. destruct (Z.eqb_spec (num_free_allocs h - 1) 0) as [E|E].
  - cbn [negb headers set_header partial_pages set_partial]. rewrite lookup_insert_eq. run. cbn.
    eexists _, _, _. repeat (split; [done|]). eapply slot_taken; try done; cbn.
    + by rewrite insert_insert_eq.
    + by left.
  - cbn. eexists _, _, _. repeat (split; [done|]). eapply slot_taken; try done; cbn. right. split; [done|]. split; [done|lia].
Qed.

(** The state after an object has been given back; a page that is all free again has entered the empty list. *)
Lemma slot_given s l1 t l2 F el p h s' nh el' :
  inv s (l1 ++ t :: l2) F el -> taken s p -> slot_of p t -> headers s !! p = Some h ->
  links s' = <[t := freep h]> (links s) -> pages_taken s' = pages_taken s ->
  headers s' = <[p := mkPage nh t (num_free_allocs h + 1)]> (headers s) ->
  p ∉ el -> released s' = released s ->
  (el' = el /\ empty_pages s' = empty_pages s /\ num_empty_pages s' = num_empty_pages s \/
   el' = p :: el /\ empty_pages s' = p /\ nh = empty_pages s /\ num_free_allocs h + 1 = max /\ num_empty_pages s' = num_empty_pages s + 1 /\ partial_pages s <> 0) ->
  partial_pages s' = 0 \/ partial_pages s' = partial_pages s /\ el' = el /\ nh = next_page_hdr h ->
  inv s' (l1 ++ l2) (<[p := t :: F p]> F) el'.
Proof.
  intros HI Hpt Hst Hh El Et Eh Hni Er Hel Hpart. destruct (in_pages _ _ _ _ HI p Hpt) as [(h' & Hh' & Hpath & Hlen) Hnd Hsl Hd].
  assert (h' = h) as -> by congruence. pose proof (in_live_nodup _ _ _ _ HI) as Hln. pose proof (in_live _ _ _ _ HI) as Hl.
  rewrite Forall_forall in Hd, Hl.
  assert (forall q, taken s' q <-> taken s q) as Htk by (intros q; unfold taken; by rewrite Et).
  assert (t ∉ F p) as Htf by (intros Hx; apply (Hd t Hx); set_solver).
  apply NoDup_app in Hln as (Hn1 & Hn12 & (Hn2 & Hn3)%NoDup_cons).
  assert (t ∉ l1 ++ l2) as Htl by (rewrite elem_of_app; intros [?|?]; [by apply (Hn12 t); [|left]|done]).
  split.
  - eapply (pages_update s s' (l1 ++ t :: l2)); [apply HI|by apply Htk|intros q Hq _; by apply Htk| | | |].
    + split; [|by constructor|by constructor|].
      * eexists. rewrite Eh, lookup_insert_eq, El. split; [done|]. cbn [freep num_free_allocs length]. split; [|lia].
        econstructor; [by rewrite lookup_insert_eq|]. eapply path_ext; [done|]. intros x Hx. rewrite lookup_insert_ne; [done|].
        intros <-. done.
      * constructor; [done|]. rewrite Forall_forall. intros x Hx Hx'. apply (Hd x Hx). set_solver.
    + intros q Hq. by rewrite Eh, lookup_insert_ne.
    + intros x Hx. rewrite El, lookup_insert_ne; [done|]. intros <-. done.
    + intros x _. set_solver.
  - rewrite Forall_forall. intros x Hx. destruct (Hl x) as [(q & Hq & ?) ?]; [set_solver|]. split; [exists q; by rewrite Htk|].
    rewrite El. rewrite lookup_insert_ne; [done|]. intros <-. done.
  - apply NoDup_app. split; [done|]. split; [|done]. intros x Hx Hx'. apply (Hn12 x Hx). by right.
  - rewrite Eh. destruct Hel as [(-> & -> & _)|(-> & -> & -> & E & _)]; [apply pages_frame; [apply HI|done]|].
    econstructor; [by rewrite lookup_insert_eq|done|]. cbn. apply pages_frame; [apply HI|done].
  - eapply Forall_impl; [|intros q; apply Htk]. destruct Hel as [[-> _]|[-> _]]; [apply HI|]. constructor; [done|apply HI].
  - destruct Hel as [[-> _]|[-> _]]; [apply HI|]. constructor; [done|apply HI].
  - destruct Hpart as [?|(-> & -> & ->)]; [by left|]. destruct (in_partial _ _ _ _ HI) as [?|(Hpt' & h' & Hh2 & Hnx & Hn & Hni')]; [by left|right].
    split; [by apply Htk|]. destruct (decide (partial_pages s = p)) as [E|E].
    + rewrite E in *. eexists. rewrite Eh, lookup_insert_eq. split; [done|]. assert (h' = h) as -> by congruence. cbn.
      split; [done|]. split; [lia|done].
    + exists h'. by rewrite Eh, lookup_insert_ne.
  - rewrite Et. apply HI.
  - rewrite Eh, lookup_insert_ne; [apply HI|]. apply taken_pos in Hpt. lia.
  - destruct (in_few _ _ _ _ HI) as (H1 & H2 & H3). rewrite Er. split; [done|].
    destruct Hel as [(-> & _ & ->)|(-> & _ & _ & _ & -> & Hz)]; cbn [length].
    + split; [done|]. destruct Hpart as [->|(-> & _)]; [cbn|done]. destruct (partial_pages s =? 0); lia.
    + apply Z.eqb_neq in Hz. rewrite Hz in H3. cbn iota in H3. split; [lia|].
      destruct Hpart as [->|(_ & E & _)]; [cbn; lia|]. apply (f_equal length) in E. cbn in E. lia.
Qed.

(** Freeing a live object gives it back, unless its page is the last to become free and there is no partial page. *)
Lemma free_step s l1 t l2 F el : inv s (l1 ++ t :: l2) F el ->
  exists h, headers s !! page_base t = Some h /\
  if (partial_pages s =? 0) && (num_free_allocs h + 1 =? max) then free alloc_size s t = Fault
  else exists s' F' el', free alloc_size s t = Ok s' /\ inv s' (l1 ++ l2) F' el'.
Proof.
  intros HI. pose proof (in_live _ _ _ _ HI) as Hl. rewrite Forall_forall in Hl.
  destruct (Hl t ltac:(set_solver)) as [(p & Hpt & Hst) [v Hv]]. destruct (in_pages _ _ _ _ HI p Hpt) as [(h & Hh & Hpath & Hlen) Hnd Hsl Hd].
  pose proof max_range as Hm. rewrite Forall_forall in Hd. assert (t ∉ F p) as Htf by (intros Hx; apply (Hd t Hx); set_solver).
  pose proof (slots_bound p (t :: F p) ltac:(by constructor) ltac:(by constructor)) as Hb. cbn [length] in Hb.
  assert (p ∉ el) as Hni.
  { intros Hin. pose proof (in_empty _ _ _ _ HI) as He. clear - He Hin Hh Hb Hlen.
    induction He as [|q h' ps Hh' Hn Hps IH]; [set_solver|]. apply elem_of_cons in Hin as [->|Hin]; [|by apply IH].
    rewrite Hh in Hh'. simplify_eq. lia. }
  exists h. unfold free. rewrite (slot_base s p t Hpt Hst), Hh. run. rewrite Hv. run. split; [done|].
  rewrite (u32_id (num_free_allocs h + 1)) by (unfold is_u32; lia). destruct (Z.eqb_spec (num_free_allocs h + 1) max) as [E|E].
  2:{ rewrite andb_false_r. eexists _, _, _. split; [done|]. eapply (slot_given s l1 t l2 F el p h); try done; cbn; by eauto. }
  unfold get_next, set_next. cbn [headers set_header set_link partial_pages].
  pose proof (taken_pos _ _ Hpt) as Hpos. pose proof (in_null _ _ _ _ HI) as Hnull.
  destruct (in_partial _ _ _ _ HI) as [Ez|(_ & h' & Hh' & Hnx & _ & _)].
  { rewrite Ez, lookup_insert_ne by lia. by rewrite Hnull. }
  destruct (Z.eqb_spec (partial_pages s) 0) as [Ez|Ez]; [congruence|]. cbn [andb]. assert (exists h2, <[p := mkPage (next_page_hdr h) t (num_free_allocs h + 1)]> (headers s) !! partial_pages s = Some h2
    /\ next_page_hdr h2 = 0) as (h2 & -> & E2).
  { destruct (decide (partial_pages s = p)) as [Ep|Ep]; [|exists h'; by rewrite lookup_insert_ne].
    rewrite Ep in *. eexists. rewrite lookup_insert_eq. split; [done|]. cbn. congruence. }
  run. cbn [headers set_partial set_header]. rewrite E2, lookup_insert_eq. run. cbn [headers set_partial set_header set_empty empty_pages].
  destruct (in_few _ _ _ _ HI) as (_ & Hf2 & Hf3). rewrite (proj2 (Z.eqb_neq _ _) Ez) in Hf3. cbn iota in Hf3.
  cbn [num_empty_pages set_header set_partial set_link]. rewrite Hf2. replace (length el) with 0%nat by lia. cbn.
  eexists _, _, (p :: el). split; [done|].
  eapply (slot_given s l1 t l2 F el p h); try done; cbn; [by rewrite insert_insert_eq| |by left].
  right. repeat (split; [done|]).
  change (Z.of_nat 0 +u 1) with 1. split; [rewrite Hf2; lia|done].
Qed.

(** Runs of an allocator: objects are given out and live ones are given back, in any order. *)
Inductive runs : slab -> list Z -> Prop :=
| runs_new : runs fresh []
| runs_alloc s live a s' : runs s live -> (pages_taken s < N)%nat -> alloc alloc_size get_free_pe s = Ok (a, s') -> runs s' (a :: live)
| runs_free s l1 t l2 s' : runs s (l1 ++ t :: l2) -> free alloc_size s t = Ok s' -> runs s' (l1 ++ l2).

Lemma alloc_step s live F el : inv s live F el -> (pages_taken s < N)%nat ->
  exists a s' F' el' p, alloc alloc_size get_free_pe s = Ok (a, s') /\ a ∉ live /\ taken s' p /\ slot_of p a /\ inv s' (a :: live) F' el'.
Proof.
  intros HI HN. destruct (pick_page_ok _ _ _ _ HI HN) as (s1 & F1 & el1 & p & E & HI1 & <- & Hz).
  destruct (take_slot_ok _ _ _ _ HI1 Hz) as (a & s' & F' & E' & Ha & Ht & Hs & Et & HI'). unfold alloc. rewrite E. run.
  eexists a, s', F', el1, _. repeat (split; [done|]). split; [|done]. destruct Ht as (k & Hk & ?). exists k. by rewrite Et.
Qed.

Lemma runs_inv s live : runs s live -> exists F el, inv s live F el.
Proof.
  induction 1 as [|s live a s' _ [F [el HI]] HN E|s l1 t l2 s' _ [F [el HI]] E].
  - exists (fun _ => []), []. split; try by constructor. intros p (k & Hk & _). cbn in Hk. lia.
  - destruct (alloc_step _ _ _ _ HI HN) as (a' & s1 & F' & el' & p & E' & _ & _ & _ & HI'). rewrite E in E'. simplify_eq. eauto.
  - destruct (free_step _ _ _ _ _ _ HI) as (h & _ & Hf). destruct (_ && _); [congruence|].
    destruct Hf as (s1 & F' & el' & E' & HI'). rewrite E in E'. simplify_eq. eauto.
Qed.

(** Where an object lies, and that two of them do not overlap. *)
Lemma slot_place s p x : taken s p -> slot_of p x ->
  page_base x + page_header_size <= x /\ x + alloc_size <= page_base x + PAGE_SIZE.
Proof.
  intros Hp Hx. rewrite (slot_base s p x Hp Hx). destruct Hx as (i & Hi & ->). pose proof (slot_range i Hi).
  unfold Slab.slot, page_header_size, PAGE_SIZE in *. lia.
Qed.

Lemma slots_disjoint s p q x y : taken s p -> taken s q -> slot_of p x -> slot_of q y -> x <> y ->
  x + alloc_size <= y \/ y + alloc_size <= x.
Proof.
  intros Hp Hq Hx Hy Hne. pose proof (slot_place s p x Hp Hx) as Px. pose proof (slot_place s q y Hq Hy) as Py.
  rewrite (slot_base s p x Hp Hx) in Px. rewrite (slot_base s q y Hq Hy) in Py. unfold page_header_size, PAGE_SIZE in *.
  destruct Hp as (j & _ & _ & ->), Hq as (k & _ & _ & ->). destruct (decide (get_free_pe j = get_free_pe k)) as [E|E].
  - rewrite E in *. destruct Hx as (a & _ & ->), Hy as (b & _ & ->). unfold Slab.slot in *.
    destruct (decide (a < b)%nat); [left; nia|]. destruct (decide (a = b)); [congruence|right; nia].
  - rewrite !Z.shiftl_mul_pow2 in * by lia. change (2 ^ 12) with 4096 in *. lia.
Qed.

(** Claim C24: An allocator never gives out memory that is in use: after any sequence of allocations and of frees of live objects that the allocator carries out, an
    allocation succeeds while the page allocator has pages left, and its object lies inside one page behind the header of the page and overlaps no live
    object.  Not every free is carried out: freeing the last object of a page while no page is partial reads a null pointer
    ([slab_free_or_fault], [full_pages_are_lost]). *)
Theorem slab_objects_distinct s live : runs s live -> (pages_taken s < N)%nat ->
  exists a s', alloc alloc_size get_free_pe s = Ok (a, s') /\
    page_base a + page_header_size <= a /\ a + alloc_size <= page_base a + PAGE_SIZE /\
    Forall (fun b => a + alloc_size <= b \/ b + alloc_size <= a) live.
Proof.
  intros Hr HN. destruct (runs_inv _ _ Hr) as (F & el & HI). destruct (alloc_step _ _ _ _ HI HN) as (a & s' & F' & el' & p & E & Ha & Hp & Hs & HI').
  exists a, s'. split; [done|]. destruct (slot_place s' p a Hp Hs) as [? ?]. split; [done|]. split; [done|].
  pose proof (in_live _ _ _ _ HI') as Hl. rewrite Forall_forall in *. intros b Hb.
  destruct (Hl b ltac:(by right)) as [(q & Hq & Hqb) _]. eapply (slots_disjoint s' p q); try done. intros ->. done.
Qed.

(** Freeing a live object succeeds unless it is the last of its page and no page is partial; then the null list of partial
    pages is read. *)
Theorem slab_free_or_fault s l1 t l2 : runs s (l1 ++ t :: l2) ->
  exists h, headers s !! page_base t = Some h /\
  if (partial_pages s =? 0) && (num_free_allocs h + 1 =? max) then free alloc_size s t = Fault
  else exists s', free alloc_size s t = Ok s' /\ runs s' (l1 ++ l2).
Proof.
  intros Hr. destruct (runs_inv _ _ Hr) as (F & el & HI). destruct (free_step _ _ _ _ _ _ HI) as (h & Hh & Hf). exists h.
  split; [done|]. destruct (_ && _); [done|]. destruct Hf as (s' & F' & el' & E & _). exists s'. split; [done|].
  by eapply runs_free.
Qed.

(** There is never more than one empty page, and none while a page is partial; so the threshold of two empty pages is never
    passed, and no page is ever given back to the page allocator. *)
Theorem slab_keeps_pages s live : runs s live ->
  released s = [] /\ 0 <= num_empty_pages s <= 1 /\ (partial_pages s <> 0 -> num_empty_pages s = 0 /\ empty_pages s = 0).
Proof.
  intros Hr. destruct (runs_inv _ _ Hr) as (F & el & HI). destruct (in_few _ _ _ _ HI) as (H1 & H2 & H3). split; [done|].
  split; [destruct (partial_pages s =? 0); lia|]. intros Hz. rewrite (proj2 (Z.eqb_neq _ _) Hz) in H3. cbn iota in H3.
  split; [lia|]. destruct (pages_head _ _ _ (in_empty _ _ _ _ HI)) as [[? _]|[ps ->]]; [done|]. cbn in H3. lia.
Qed.

End safety.


(** ** Sizes ([slab_allocate] and [slab_deallocate]) *)

Definition clz (x : Z) : res Z := if x <=? 0 then Fault else Ok (31 - Z.log2 x).
Definition p2 (x : Z) : res Z :=
  if x =? 1 then Ok 1 else c ← clz (x -u 1); if c =? 0 then Fault else Ok (Z.shiftl 1 (32 - c)).

Definition bucket_count : Z := 8.

(** Which allocator serves a request. *)
Inductive served := Bucket (size : Z) | Malloc.

Definition bucket_index (size : Z) : res Z := pow ← p2 size; c ← clz (pow - 1); Ok (32 - c).
Definition bucket (idx : Z) : res served := if idx <? bucket_count then Ok (Bucket (2 ^ idx)) else Fault.

Definition slab_allocate (size : Z) : res served :=
  idx ← bucket_index size; if bucket_count <=? idx then Ok Malloc else bucket idx.

(** The calls of [slab_deallocate] for data that is not null. *)
Definition slab_deallocate (size : Z) : res (list served) :=
  idx ← bucket_index size;
  let freed := if bucket_count <=? idx then [Malloc] else [] in
  b ← bucket idx; Ok (freed ++ [b]).

(** ** Two pages of a bucket *)

(** [n] allocations, the last object first, and frees in a given order. *)
Fixpoint alloc_n (alloc_size : Z) (pe : nat -> Z) (n : nat) (s : slab) (live : list Z) : res (list Z * slab) :=
  match n with
  | O => Ok (live, s)
  | S n => '(a, s) ← alloc alloc_size pe s; alloc_n alloc_size pe n s (a :: live)
  end.

Fixpoint free_all (alloc_size : Z) (ts : list Z) (s : slab) : res slab :=
  match ts with [] => Ok s | t :: ts => s ← free alloc_size s t; free_all alloc_size ts s end.

Definition heap_pages (k : nat) : Z := 786432 + Z.of_nat k.

Lemma two_objects : exists live s, alloc_n 132 heap_pages 2 fresh [] = Ok (live, s) /\ length live = 2%nat /\ pages_taken s = 2%nat /\
  partial_pages s <> 0 /\ runs 132 heap_pages 3 s live.
Proof.
  do 2 eexists. split; [vm_compute; reflexivity|]. split; [reflexivity|]. split; [reflexivity|]. split; [done|].
  eapply runs_alloc; [eapply runs_alloc; [apply runs_new|cbn; lia|vm_compute; reflexivity]|cbn; lia|vm_compute; reflexivity].
Qed.

Lemma sizes_ok : 0 < 132 <= PAGE_SIZE - page_header_size.
Proof. unfold PAGE_SIZE, page_header_size. lia. Qed.
Lemma heap_pages_range k : (k < 3)%nat -> 0 < heap_pages k < 2 ^ 20.
Proof. unfold heap_pages. lia. Qed.
Lemma heap_pages_inj j k : (j < 3)%nat -> (k < 3)%nat -> heap_pages j = heap_pages k -> j = k.
Proof. unfold heap_pages. lia. Qed.

Lemma slab_objects_distinct_witness :
  exists live s a s', alloc_n 132 heap_pages 2 fresh [] = Ok (live, s) /\ length live = 2%nat /\
    alloc 132 heap_pages s = Ok (a, s') /\ Forall (fun b => a + 132 <= b \/ b + 132 <= a) live.
Proof.
  destruct two_objects as (live & s & E & Hl & Ht & _ & Hr).
  destruct (slab_objects_distinct 132 heap_pages 3 sizes_ok heap_pages_range heap_pages_inj s live Hr ltac:(lia)) as (a & s' & Ea & _ & _ & Hf).
  exists live, s, a, s'. auto.
Defined.

Lemma slab_keeps_pages_witness :
  exists live s, alloc_n 132 heap_pages 2 fresh [] = Ok (live, s) /\ released s = [] /\ num_empty_pages s = 0.
Proof.
  destruct two_objects as (live & s & E & Hl & Ht & Hz & Hr).
  destruct (slab_keeps_pages 132 heap_pages 3 sizes_ok heap_pages_range heap_pages_inj s live Hr) as (H1 & _ & H2).
  exists live, s. split; [done|]. split; [done|]. by apply H2.
Defined.

Lemma slab_free_or_fault_witness :
  exists t l s, alloc_n 132 heap_pages 2 fresh [] = Ok (t :: l, s) /\ exists s', free 132 s t = Ok s' /\ runs 132 heap_pages 3 s' l.
Proof.
  destruct two_objects as (live & s & E & Hl & Ht & Hz & Hr). destruct live as [|t l]; [done|]. exists t, l, s. split; [done|].
  destruct (slab_free_or_fault 132 heap_pages 3 sizes_ok heap_pages_range heap_pages_inj s [] t l Hr) as (h & _ & Hf).
  rewrite (proj2 (Z.eqb_neq _ _) Hz) in Hf. exact Hf.
Defined.

(** Once all objects of a page have been given out at the same time, freeing all of them reads the null list of partial
    pages; as long as one of them is live the free ones are not used, and a new page is taken; and with another page partial,
    the page that is emptied displaces it: the free objects of that page are lost. *)
Theorem full_pages_are_lost :
  let size := 132 in
  (exists live s, alloc_n size heap_pages 30 fresh [] = Ok (live, s) /\ partial_pages s = 0 /\ free_all size live s = Fault /\
     exists s1 a s2, free_all size (take 29 live) s = Ok s1 /\ alloc size heap_pages s1 = Ok (a, s2) /\ pages_taken s2 = 3%nat) /\
  (exists live s s1 h, alloc_n size heap_pages 31 fresh [] = Ok (live, s) /\ pages_taken s = 3%nat /\
     partial_pages s = 3221233664 /\ headers s !! 3221233664 = Some h /\ num_free_allocs h = 29 /\
     free_all size (tail live) s = Ok s1 /\ partial_pages s1 = 0 /\ empty_pages s1 = 3221229568).
Proof.
  split.
  - do 2 eexists. split; [vm_compute; reflexivity|]. split; [reflexivity|]. split; [vm_compute; reflexivity|].
    do 3 eexists. split; [vm_compute; reflexivity|]. split; [vm_compute; reflexivity|reflexivity].
  - do 4 eexists. split; [vm_compute; reflexivity|]. repeat (split; [vm_compute; reflexivity|]). vm_compute. reflexivity.
Qed.

(** ** Which bucket serves a size *)

Lemma p2_ok x : 2 <= x <= 2 ^ 31 -> p2 x = Ok (2 ^ Z.log2_up x).
Proof.
  intros Hx. unfold p2, clz. destruct (Z.eqb_spec x 1); [lia|]. rewrite u32_id by (unfold is_u32; lia).
  destruct (Z.leb_spec (x - 1) 0); [lia|]. run. assert (Z.log2 (x - 1) <= 30) by (apply Z.lt_succ_r, Z.log2_lt_pow2; [lia|]; change (Z.succ 30) with 31; lia).
  pose proof (Z.log2_nonneg (x - 1)). destruct (Z.eqb_spec (31 - Z.log2 (x - 1)) 0); [lia|].
  rewrite Z.shiftl_mul_pow2, Z.mul_1_l by lia. rewrite Z.log2_up_eqn, <- Z.sub_1_r by lia. do 2 f_equal. lia.
Qed.

Lemma bucket_index_ok x : 2 <= x <= 2 ^ 31 -> bucket_index x = Ok (Z.log2_up x).
Proof.
  intros Hx. unfold bucket_index. rewrite p2_ok by done. run. assert (1 <= Z.log2_up x) as Hl by (apply (Z.log2_up_le_mono 2); lia).
  assert (2 ^ 1 <= 2 ^ Z.log2_up x) by (by apply Z.pow_le_mono_r). unfold clz. destruct (Z.leb_spec (2 ^ Z.log2_up x - 1) 0); [lia|]. run.
  rewrite Z.sub_1_r, Z.log2_pred_pow2 by lia. f_equal. lia.
Qed.

(** An object of 2 to 128 bytes comes from the bucket of the smallest power of two that holds it and goes back to the
    same one; a larger one comes from [malloc], and giving it back, after the call of [free], reads behind the table. *)
Theorem slab_sizes x : 2 <= x <= 2 ^ 31 ->
  if x <=? 128 then
    exists k, slab_allocate x = Ok (Bucket (2 ^ k)) /\ slab_deallocate x = Ok [Bucket (2 ^ k)] /\ x <= 2 ^ k < 2 * x /\ 2 ^ k <= 128
  else slab_allocate x = Ok Malloc /\ slab_deallocate x = Fault.
Proof.
  intros Hx. unfold slab_allocate, slab_deallocate. rewrite bucket_index_ok by done. run. pose proof (Z.log2_up_spec x ltac:(lia)) as Hs.
  unfold bucket, bucket_count. destruct (Z.leb_spec x 128) as [Hle|Hgt].
  - assert (Z.log2_up x <= 7) by (apply Z.log2_up_le_pow2; lia). exists (Z.log2_up x).
    destruct (Z.leb_spec 8 (Z.log2_up x)); [lia|]. destruct (Z.ltb_spec (Z.log2_up x) 8); [|lia]. run. split; [done|]. split; [done|].
    assert (1 <= Z.log2_up x) by (apply (Z.log2_up_le_mono 2); lia).
    pose proof (Z.pow_le_mono_r 2 (Z.log2_up x) 7 ltac:(lia) ltac:(lia)).
    assert (2 ^ Z.log2_up x = 2 * 2 ^ Z.pred (Z.log2_up x)) by (rewrite <- Z.pow_succ_r by lia; by rewrite Z.succ_pred). lia.
  - assert (7 < Z.log2_up x) by (apply Z.log2_up_lt_pow2; lia).
    destruct (Z.leb_spec 8 (Z.log2_up x)); [|lia]. destruct (Z.ltb_spec (Z.log2_up x) 8); [lia|]. done.
Qed.

Lemma slab_sizes_witness : (exists k, slab_deallocate 100 = Ok [Bucket (2 ^ k)] /\ 100 <= 2 ^ k <= 128) /\ slab_deallocate 200 = Fault.
Proof.
  split.
  - destruct (slab_sizes 100 ltac:(lia)) as (k & _ & E & Hk & ?). exists k. split; [exact E|lia].
  - exact (proj2 (slab_sizes 200 ltac:(lia))).
Defined.

(** One byte and no byte: the number of leading zeroes of zero, and a shift by the width of the word. *)
Lemma slab_small_sizes : slab_allocate 1 = Fault /\ slab_allocate 0 = Fault.
Proof. split; reflexivity. Qed.

End Slab.
