(* ===== verification/Fb.v ===== *)
(** * The screen ([core/fb.cpp], [core/fb.h])

    The text screen of the kernel: characters are written into a shadow buffer of cells, which is used as a ring of rows, and the
    part of it that has changed is drawn into the framebuffer from time to time.  The shadow buffer, the framebuffer and the
    rasterised font are lists, with every index checked; the framebuffer's geometry is a record that [init] computes.  The
    theorems show that the shadow buffer implements a scrolling text screen, and that after a flush the pixels on the screen are
    the glyphs of that text. *)

From stdpp Require Import base tactics numbers list.
From S2P Require Import Prelude.
Open Scope Z_scope.

Module Fb.

Definition FB_BLACK : Z := 0.
Definition FB_BLUE : Z := 170.
Definition FB_GREEN : Z := 43520.
Definition FB_RED : Z := 11141120.
Definition FB_BROWN : Z := 11162880.
Definition FB_WHITE : Z := 16777215.
Definition WHITE : Z := 16777215.
Definition BLACK : Z := 0.

Record cell := mkCell { cfg : Z; cbg : Z; ch : Z }.

(** What [init] sets once. *)
Record config := mkConfig {
  fb_width : Z; fb_height : Z; n_row : Z; characters_per_line : Z; characters_per_col : Z; shadow_lim : Z;
  characterSize : Z; r_font : list Z; progress_bar_height : Z; fps : Z
}.

(** The part of the screen that has to be drawn again. *)
Record rect := mkRect { dirty_start_y : Z; dirty_start_x : Z; dirty_end_y : Z; dirty_end_x : Z }.

Record screen := mkScreen {
  fb : list Z; fb_shadow : list cell; shadow_start : Z; caret_x : Z; caret_y : Z; FG : Z; BG : Z; dirty : rect;
  lock_flush : bool; show_cursor : bool; progress_bar_percentage : Z; progress_bar_owner : Z; tick : Z
}.

Definition set_fb s v := mkScreen v (fb_shadow s) (shadow_start s) (caret_x s) (caret_y s) (FG s) (BG s) (dirty s) (lock_flush s) (show_cursor s) (progress_bar_percentage s) (progress_bar_owner s) (tick s).
Definition set_shadow s v := mkScreen (fb s) v (shadow_start s) (caret_x s) (caret_y s) (FG s) (BG s) (dirty s) (lock_flush s) (show_cursor s) (progress_bar_percentage s) (progress_bar_owner s) (tick s).
Definition set_start s v := mkScreen (fb s) (fb_shadow s) v (caret_x s) (caret_y s) (FG s) (BG s) (dirty s) (lock_flush s) (show_cursor s) (progress_bar_percentage s) (progress_bar_owner s) (tick s).
Definition set_caret s y x := mkScreen (fb s) (fb_shadow s) (shadow_start s) x y (FG s) (BG s) (dirty s) (lock_flush s) (show_cursor s) (progress_bar_percentage s) (progress_bar_owner s) (tick s).
Definition set_colors s fg bg := mkScreen (fb s) (fb_shadow s) (shadow_start s) (caret_x s) (caret_y s) fg bg (dirty s) (lock_flush s) (show_cursor s) (progress_bar_percentage s) (progress_bar_owner s) (tick s).
Definition set_dirty s v := mkScreen (fb s) (fb_shadow s) (shadow_start s) (caret_x s) (caret_y s) (FG s) (BG s) v (lock_flush s) (show_cursor s) (progress_bar_percentage s) (progress_bar_owner s) (tick s).
Definition set_lock s v := mkScreen (fb s) (fb_shadow s) (shadow_start s) (caret_x s) (caret_y s) (FG s) (BG s) (dirty s) v (show_cursor s) (progress_bar_percentage s) (progress_bar_owner s) (tick s).
Definition set_cursor s v t := mkScreen (fb s) (fb_shadow s) (shadow_start s) (caret_x s) (caret_y s) (FG s) (BG s) (dirty s) (lock_flush s) v (progress_bar_percentage s) (progress_bar_owner s) t.
Definition set_progress s p o := mkScreen (fb s) (fb_shadow s) (shadow_start s) (caret_x s) (caret_y s) (FG s) (BG s) (dirty s) (lock_flush s) (show_cursor s) p o (tick s).

(** ** Colours *)
Definition set_fg (fg : Z) (s : screen) : screen := set_colors s fg (BG s).
Definition set_bg (bg : Z) (s : screen) : screen := set_colors s (FG s) bg.

Definition lock_flushing (s : screen) : screen := set_lock s true.

(** ** The progress bar; identifiers are addresses *)

Definition update_progress_bar (new_percentage id : Z) (s : screen) : screen :=
  if negb (id =? progress_bar_owner s) then s else set_progress s new_percentage (progress_bar_owner s).

Definition try_acquire_progress_bar (id : Z) (s : screen) : bool * screen :=
  if truthy (progress_bar_owner s) then (false, s) else (true, set_progress s (progress_bar_percentage s) id).

Section screen.
Context (g : config).

Definition release_progres_bar (id : Z) (s : screen) : screen :=
  if negb (progress_bar_owner s =? id) then s
  else
    let d := dirty s in
    let s := set_dirty s (mkRect 0 0 (if 1 <? dirty_end_y d then dirty_end_y d else 1) (characters_per_line g)) in
    set_progress s (progress_bar_percentage s) 0.

(** ** Characters *)

(** One write into a buffer. *)
Definition store {A} (l : list A) (i : Z) (v : A) : res (list A) :=
  if (0 <=? i) && (i <? Z.of_nat (length l)) then Ok (<[Z.to_nat i := v]> l) else Fault.
Definition fetch {A} (l : list A) (i : Z) : res A :=
  if 0 <=? i then deref (l !! Z.to_nat i) else Fault.

Definition wrap (off : Z) : Z := if shadow_lim g <=? off then off -u shadow_lim g else off.

Definition whole : rect := mkRect 0 0 (characters_per_col g) (characters_per_line g).

(** The loop that empties one row of the shadow buffer. *)
Definition clear_row (off : Z) (l : list cell) : res (list cell) :=
  for_loop (Z.to_nat (fb_width g)) (fun x l =>
    let i := off + Z.of_nat x in
    c ← fetch l i; store l i (mkCell (cfg c) (cbg c) 0)) l.

Definition scroll (n : Z) (s : screen) : res screen :=
  let start := (shadow_start s +u (n *u fb_width g)) mod shadow_lim g in
  let start := if shadow_lim g <=? start then shadow_lim g else start in
  let base := start +u ((fb_height g -u n) *u fb_width g) in
  l ← for_loop (Z.to_nat n) (fun y l => clear_row (wrap (base +u (Z.of_nat y *u fb_width g))) l) (fb_shadow s);
  Ok (set_dirty (set_caret (set_shadow (set_start s start) l) (caret_y s -u n) (caret_x s)) whole).

Definition update_dirty_rect (s : screen) : screen :=
  let d := dirty s in
  set_dirty s (mkRect (if caret_y s <? dirty_start_y d then caret_y s else dirty_start_y d)
                      (if caret_x s <? dirty_start_x d then caret_x s else dirty_start_x d)
                      (if dirty_end_y d <? caret_y s +u 1 then caret_y s +u 1 else dirty_end_y d)
                      (if dirty_end_x d <? caret_x s +u 1 then caret_x s +u 1 else dirty_end_x d)).

(** [(char)(c & 0xFF)], a signed value. *)
Definition to_char (c : Z) : Z := if c mod 256 <? 128 then c mod 256 else c mod 256 - 256.

(** The place of the cell under the caret. *)
Definition caret_off (s : screen) : Z := wrap ((shadow_start s +u (caret_y s *u fb_width g)) +u caret_x s).

(** The part of [putchar] behind the special characters. *)
Definition put_cell (cc : Z) (s : screen) : res screen :=
  let s := update_dirty_rect s in
  l ← store (fb_shadow s) (caret_off s) (mkCell (FG s) (BG s) cc);
  let s := set_shadow s l in
  let s := set_caret s (caret_y s) (caret_x s +u 1) in
  if caret_x s =? characters_per_line g then
    let s := set_caret s (caret_y s +u 1) 0 in
    if characters_per_col g <=? caret_y s then scroll 1 s else Ok (update_dirty_rect s)
  else Ok (update_dirty_rect s).

Definition delchar (s : screen) : res screen :=
  if negb (truthy (caret_x s)) && negb (truthy (caret_y s)) then Ok s
  else
    let s := set_caret s (caret_y s) (caret_x s -u 1) in
    s ← put_cell 32 s;
    Ok (set_caret s (caret_y s) (caret_x s -u 1)).

Definition putchar (c : Z) (s : screen) : res screen :=
  let c := if 255 <=? c then 219 else c in
  let cc := to_char c in
  if c =? 8 then delchar s
  else if c =? 10 then
    let s := update_dirty_rect s in
    let s := set_caret s (caret_y s +u 1) 0 in
    if characters_per_col g <=? caret_y s then scroll 1 s else Ok s
  else put_cell cc s.

(** The conversion of a [char] to the parameter of [putchar]; bytes are 0 to 255. *)
Definition widen (b : Z) : Z := if b <? 128 then b else u16 (b - 256).

(** [write] of a buffer of bytes; the variant for strings passes their length. *)
Fixpoint write (buf : list Z) (s : screen) : res screen :=
  match buf with [] => Ok s | b :: buf => s ← putchar (widen b) s; write buf s end.

Definition clear_screen (s : screen) : res screen :=
  '(_, l) ← for_loop (Z.to_nat (fb_height g)) (fun _ il =>
     for_loop (Z.to_nat (fb_width g)) (fun _ '(idx, l) => l ← store l idx (mkCell (FG s) (BG s) 0); Ok (idx + 1, l)) il)
     (0, fb_shadow s);
  Ok (set_dirty (set_caret (set_shadow s l) 0 0) whole).

(** ** Decorators *)
Definition decorator (text : list Z) (color : Z) (s : screen) : res screen :=
  s ← putchar 91 s; s ← write text (set_fg color s); putchar 93 (set_fg FB_WHITE s).
Definition ok_decorator := decorator [79; 75] FB_GREEN.
Definition error_decorator := decorator [69; 82; 82; 79; 82] FB_RED.
Definition fatal_error_decorator := decorator [70; 65; 84; 65; 76; 32; 69; 82; 82; 79; 82] FB_RED.
Definition info_decorator := decorator [73; 78; 70; 79] FB_BLUE.
Definition warn_decorator := decorator [87; 65; 82; 78] FB_BROWN.
Definition ok (s : screen) := s ← ok_decorator s; putchar 10 s.
Definition fatal_error (s : screen) := s ← fatal_error_decorator s; putchar 10 s.
Definition error (s : screen) := s ← error_decorator s; putchar 10 s.
Definition info (s : screen) := s ← info_decorator s; putchar 10 s.
Definition warn (s : screen) := s ← warn_decorator s; putchar 10 s.

(** ** Drawing *)

(** The eight pixels of a row of a glyph. *)
Definition draw_bits (dst glyph : Z) (c : cell) (l : list Z) : res (list Z) :=
  for_loop 8 (fun k l =>
    bit ← fetch (r_font g) (glyph + Z.of_nat k); store l (dst + Z.of_nat k) (if truthy bit then cfg c else cbg c)) l.

Definition draw_cell (start by_ x8 : Z) (c : cell) (l : list Z) : res (list Z) :=
  for_loop (Z.to_nat (characterSize g)) (fun px_y l =>
    draw_bits (start + ((by_ +u Z.of_nat px_y) *u n_row g +u x8)) (ch c * characterSize g * 8 + Z.of_nat px_y * 8) c l) l.

(** The loops of [flush] over the dirty rectangle. *)
Definition draw_dirty (s : screen) : res (list Z) :=
  let d := dirty s in
  let fb_start := (dirty_start_y d *u characterSize g *u n_row g) + (dirty_start_x d *u 8) in
  let shadow_off := ((dirty_start_y d *u fb_width g) +u shadow_start s) +u dirty_start_x d in
  for_loop (Z.to_nat (dirty_end_y d -u dirty_start_y d)) (fun y l =>
    let row := wrap (shadow_off +u (Z.of_nat y *u fb_width g)) in
    for_loop (Z.to_nat (dirty_end_x d -u dirty_start_x d)) (fun x l =>
      c ← fetch (fb_shadow s) (row +u Z.of_nat x);
      draw_cell fb_start (Z.of_nat y *u characterSize g) (Z.of_nat x *u 8) c l) l) (fb s).

(** The progress bar fills the first pixels of the framebuffer; the percentage is computed with floating-point numbers, which
    are exact here for percentages up to 127 and widths up to 65535. *)
Definition draw_progress_bar (s : screen) : res (list Z) :=
  let n_full := (progress_bar_percentage s * fb_width g / 100) *u progress_bar_height g in
  l ← for_loop (Z.to_nat n_full) (fun i l => store l (Z.of_nat i) (FG s)) (fb s);
  for_loop (Z.to_nat (progress_bar_height g *u fb_width g - n_full)) (fun i l => store l (n_full + Z.of_nat i) (BG s)) l.

Definition flush (s : screen) : res screen :=
  if lock_flush s then Ok s
  else
    let cursor := caret_off s in
    l ← (if show_cursor s then store (fb_shadow s) cursor (mkCell (FG s) (BG s) 95) else Ok (fb_shadow s));
    let s := set_shadow s l in
    px ← draw_dirty s;
    let s := set_fb s px in
    l ← store (fb_shadow s) cursor (mkCell (FG s) (BG s) 0);
    let s := set_shadow s l in
    let end_x := caret_x s +u 1 in
    let s := set_dirty s (if end_x =? characters_per_line g then mkRect (caret_y s) 0 (caret_y s +u 1) 1
                          else mkRect (caret_y s) (caret_x s) (caret_y s +u 1) end_x) in
    if truthy (progress_bar_owner s) then px ← draw_progress_bar s; Ok (set_fb s px) else Ok s.

Definition unlock_flushing (s : screen) : res screen := flush (set_lock s false).

(** One round of [refresh_loop]: the cursor is shown and hidden in turn. *)
Definition refresh (s : screen) : res screen :=
  let s := set_cursor s (tick s <=? fps g) (tick s) in
  s ← flush s;
  let t := tick s +u 1 in
  Ok (set_cursor s (show_cursor s) (if t =? 2 *u fps g then 0 else t)).

(** An image of [w] by [h] pixels of three bytes. *)
Definition draw_rgb (rgb : list Z) (w h : Z) (s : screen) : res screen :=
  '(_, l) ← for_loop (Z.to_nat h) (fun y il =>
     '(i, l) ← for_loop (Z.to_nat w) (fun x '(i, l) =>
        let p := (Z.of_nat y *u w +u Z.of_nat x) *u 3 in
        r ← fetch rgb p; gr ← fetch rgb (p +u 1); b ← fetch rgb (p +u 2);
        l ← store l i (Z.lor (Z.lor (Z.lor 4278190080 (Z.shiftl r 16)) (Z.shiftl gr 8)) b);
        Ok (i +u 1, l)) il;
     Ok (i +u (fb_width g -u w), l)) (0, fb s);
  Ok (set_fb s l).

End screen.

(** ** Starting the screen *)

(** What the bootloader says about the screen. *)
Record fb_tag := mkTag { framebuffer_type : Z; framebuffer_bpp : Z; red : Z * Z; green : Z * Z; blue : Z * Z; mode : Z * Z * Z }.
Inductive boot_video := Multiboot (tag : option fb_tag) | Vbe (mode : Z * Z * Z).
Definition MULTIBOOT_FRAMEBUFFER_TYPE_RGB : Z := 1.

(** Width, height and pitch; a mode that is not 32-bit RGB stops the kernel. *)
Definition video_mode (v : boot_video) : res (Z * Z * Z) :=
  match v with
  | Multiboot None => Panic
  | Multiboot (Some t) =>
      _ ← ensure (framebuffer_type t =? MULTIBOOT_FRAMEBUFFER_TYPE_RGB);
      _ ← ensure (framebuffer_bpp t =? 32);
      _ ← ensure (bool_decide (red t = (16, 8) /\ green t = (8, 8) /\ blue t = (0, 8)));
      Ok (mode t)
  | Vbe m => Ok m
  end.

(** The row of a glyph as eight words, and the font with one word per pixel; the first glyph is empty. *)
Definition raster_line (line : Z) : list Z := map (fun k => if Z.testbit line (7 - Z.of_nat k) then WHITE else BLACK) (seq 0 8).
Definition raster_glyph (glyph : list Z) : list Z := concat (map raster_line glyph).
Definition raster_font (glyphs : list Z) (size : Z) : list Z :=
  let n := Z.to_nat size in
  replicate (n * 8) 0 ++
  concat (map (fun i => raster_glyph (take n (drop (i * n) glyphs))) (seq 1 254)).

(** [framebuffer] are the pixels of the mapped framebuffer, [cells] the memory of the shadow buffer. *)
Definition init (v : boot_video) (size : Z) (glyphs : list Z) (rate : Z) (framebuffer : option (list Z)) (cells : list cell) : res (config * screen) :=
  '(w, h, pitch) ← video_mode v;
  match framebuffer with
  | None => Panic
  | Some px =>
      let g := mkConfig w h (pitch / 4) (w / 8) (h / size) (w *u h) size (raster_font glyphs size) (size / 2) rate in
      s ← clear_screen g (mkScreen px cells 0 0 0 WHITE BLACK (mkRect 0 0 0 0) false false 0 0 0);
      Ok (g, s)
  end.

(** ** The ring of rows *)

(** A mode that fits: two shadow buffers and the framebuffer can be addressed, every character cell lies inside of the picture, and
    the font is complete. *)
Record geometry (g : config) : Prop := {
  ge_w : 0 < fb_width g; ge_h : 0 < fb_height g; ge_lim : shadow_lim g = fb_width g * fb_height g;
  ge_lim32 : 2 * (fb_width g * fb_height g) <= 2 ^ 32;
  ge_size : 0 < characterSize g; ge_cpl : 0 < characters_per_line g; ge_cpc : 0 < characters_per_col g;
  ge_line : characters_per_line g * 8 <= fb_width g; ge_col : characters_per_col g * characterSize g <= fb_height g;
  ge_row : fb_width g <= n_row g; ge_px32 : n_row g * fb_height g < 2 ^ 32;
  ge_font : length (r_font g) = Z.to_nat (255 * characterSize g * 8);
  ge_bar : 0 <= progress_bar_height g <= characterSize g
}.

Lemma euclid_unique a b w x y : 0 <= x < w -> 0 <= y < w -> a * w + x = b * w + y -> a = b /\ x = y.
Proof. intros Hx Hy E. assert (a = b) as -> by (destruct (Z.lt_trichotomy a b) as [?|[?|?]]; nia). lia. Qed.

Section ring.
Context (g : config) (G : geometry g).
Local Notation w := (fb_width g).
Local Notation h := (fb_height g).
Local Notation cpl := (characters_per_line g).
Local Notation cpc := (characters_per_col g).

(** Where the cell of a row and a column is when row [r] is the first one. *)
Definition pos (r y x : Z) : Z := (r + y) mod h * w + x.

Lemma cpl_w : cpl <= w.
Proof using G. destruct G. lia. Qed.
Lemma cpc_h : cpc <= h.
Proof using G. destruct G. nia. Qed.

Lemma pos_mod r y : 0 <= r < h -> 0 <= y <= h -> (r + y) mod h = if r + y <? h then r + y else r + y - h.
Proof using G.
  intros Hr Hy. destruct (Z.ltb_spec (r + y) h); [apply Z.mod_small; lia|].
  symmetry. apply (Z.mod_unique_pos _ _ 1); lia.
Qed.

Lemma pos_range r y x : 0 <= x < w -> 0 <= pos r y x < w * h.
Proof using G. intros Hx. destruct G. unfold pos. pose proof (Z.mod_pos_bound (r + y) h ltac:(lia)). nia. Qed.

Lemma pos_inj r y x y' x' : 0 <= r < h -> 0 <= y < h -> 0 <= y' < h -> 0 <= x < w -> 0 <= x' < w ->
  pos r y x = pos r y' x' -> y = y' /\ x = x'.
Proof using G.
  intros Hr Hy Hy' Hx Hx' E. unfold pos in E. rewrite !pos_mod in E by lia.
  apply euclid_unique in E as [E' ->]; [|done|done]. split; [|done]. destruct (Z.ltb_spec (r + y) h), (Z.ltb_spec (r + y') h); lia.
Qed.

(** Scrolling by a row turns the ring. *)
Lemma pos_turn r y x : pos ((r + 1) mod h) y x = pos r (y + 1) x.
Proof using G. unfold pos. rewrite Zplus_mod_idemp_l. do 3 f_equal. lia. Qed.

Lemma wrap_pos r y x : 0 <= r < h -> 0 <= y < h -> 0 <= x < w -> wrap g ((r * w +u (y *u w)) +u x) = pos r y x.
Proof using G.
  intros Hr Hy Hx. destruct G. assert (0 <= y * w <= (h - 1) * w) by nia. assert (0 <= r * w <= (h - 1) * w) by nia.
  assert (h * w = w * h) by lia. change (2 ^ 32) with 4294967296 in *.
  rewrite (u32_id (y * w)), (u32_id (r * w + y * w)), (u32_id (r * w + y * w + x)) by (unfold is_u32; lia).
  unfold wrap, pos. rewrite ge_lim0, pos_mod by lia. destruct (Z.ltb_spec (r + y) h).
  - assert ((r + y) * w <= (h - 1) * w) by (apply Z.mul_le_mono_nonneg_r; lia). destruct (Z.leb_spec (w * h) (r * w + y * w + x)); lia.
  - assert (h * w <= (r + y) * w) by (apply Z.mul_le_mono_nonneg_r; lia). destruct (Z.leb_spec (w * h) (r * w + y * w + x)); [|lia].
    rewrite u32_id by (unfold is_u32; lia). lia.
Qed.

(** The cell of a row and a column. *)
Definition cell_at (l : list cell) (r y x : Z) : option cell := l !! Z.to_nat (pos r y x).

Lemma store_in_range {A} (l : list A) i v : 0 <= i < Z.of_nat (length l) -> store l i v = Ok (<[Z.to_nat i := v]> l).
Proof. intros Hi. unfold store. bool_to_prop; try lia. done. Qed.

Lemma fetch_ok {A} (l : list A) i v : 0 <= i -> l !! Z.to_nat i = Some v -> fetch l i = Ok v.
Proof. intros Hi E. unfold fetch. bool_to_prop; [|lia]. by rewrite E. Qed.

Lemma fetch_some {A} (l : list A) i : 0 <= i < Z.of_nat (length l) -> exists v, l !! Z.to_nat i = Some v /\ fetch l i = Ok v.
Proof. intros Hi. destruct (lookup_lt_is_Some_2 l (Z.to_nat i) ltac:(lia)) as [v Hv]. exists v. split; [done|]. apply fetch_ok; [lia|done]. Qed.

Lemma cell_at_store l r y x v y' x' : Z.of_nat (length l) = w * h -> 0 <= r < h -> 0 <= y < h -> 0 <= x < w -> 0 <= y' < h -> 0 <= x' < w ->
  cell_at (<[Z.to_nat (pos r y x) := v]> l) r y' x' = if decide (y' = y /\ x' = x) then Some v else cell_at l r y' x'.
Proof using G.
  intros Hl Hr Hy Hx Hy' Hx'. unfold cell_at. pose proof (pos_range r y x Hx). destruct (decide _) as [[-> ->]|Hne].
  - apply list_lookup_insert_eq. lia.
  - apply list_lookup_insert_ne. intros E. apply Hne. pose proof (pos_range r y' x' Hx').
    destruct (pos_inj r y x y' x'); try done; lia.
Qed.

(** One row is emptied. *)
Lemma clear_row_ok l off : Z.of_nat (length l) = w * h -> 0 <= off -> off + w <= w * h ->
  exists l', clear_row g off l = Ok l' /\ length l' = length l /\
    forall i c, l !! i = Some c -> l' !! i = Some (if decide (off <= Z.of_nat i < off + w) then mkCell (cfg c) (cbg c) 0 else c).
Proof using G.
  intros Hl Ho Hw. unfold clear_row. destruct G.
  destruct (for_loop_inv (fun k t => length t = length l /\ forall i c, l !! i = Some c ->
    t !! i = Some (if decide (off <= Z.of_nat i < off + Z.of_nat k) then mkCell (cfg c) (cbg c) 0 else c)) (Z.to_nat w)
    (fun x l => c ← fetch l (off + Z.of_nat x); store l (off + Z.of_nat x) (mkCell (cfg c) (cbg c) 0)) l) as (l' & E & Hlen & Hl').
  - split; [done|]. intros i c Hi. destruct (decide _); [lia|done].
  - intros x t Hx (Hlen & Ht). destruct (lookup_lt_is_Some_2 l (Z.to_nat (off + Z.of_nat x)) ltac:(lia)) as [c Hc].
    pose proof (Ht _ _ Hc) as Htc. rewrite decide_False in Htc by lia. rewrite (fetch_ok t _ c) by (done || lia). run.
    rewrite store_in_range by lia. eexists. split; [done|]. split; [by rewrite length_insert|]. intros i c' Hi.
    destruct (decide (i = Z.to_nat (off + Z.of_nat x))) as [->|Hne].
    + rewrite list_lookup_insert_eq by lia. rewrite decide_True by lia. congruence.
    + rewrite list_lookup_insert_ne by done. rewrite (Ht _ _ Hi). f_equal.
      destruct (decide (off <= Z.of_nat i < off + Z.of_nat x)), (decide (off <= Z.of_nat i < off + Z.of_nat (S x))); try done; lia.
  - exists l'. split; [exact E|]. split; [done|]. intros i c Hi. rewrite (Hl' _ _ Hi). by rewrite Z2Nat.id by lia.
Qed.

(** Scrolling by one row: the rows move up, and the one that leaves the screen is emptied and becomes the last of the ring. *)
Lemma scroll_ok s r : Z.of_nat (length (fb_shadow s)) = w * h -> 0 <= r < h -> shadow_start s = r * w -> 0 < caret_y s < 2 ^ 32 ->
  exists l', scroll g 1 s = Ok (set_dirty (set_caret (set_shadow (set_start s ((r + 1) mod h * w)) l') (caret_y s - 1) (caret_x s)) (whole g)) /\
    length l' = length (fb_shadow s) /\
    forall y x c, 0 <= y < h -> 0 <= x < w -> cell_at (fb_shadow s) r (y + 1) x = Some c ->
      cell_at l' ((r + 1) mod h) y x = Some (if y =? h - 1 then mkCell (cfg c) (cbg c) 0 else c).
Proof using G.
  intros Hl Hr Hs Hc. pose proof (Z.mod_pos_bound (r + 1) h ltac:(lia)) as Hm. destruct G.
  assert ((r + 1) mod h * w <= (h - 1) * w) by (apply Z.mul_le_mono_nonneg_r; lia).
  assert (r * w <= (h - 1) * w) by (apply Z.mul_le_mono_nonneg_r; lia). assert (1 * w <= h * w) by (apply Z.mul_le_mono_nonneg_r; lia).
  assert (h * 1 <= h * w) by (apply Z.mul_le_mono_nonneg_l; lia). assert (0 <= r * w) by (apply Z.mul_nonneg_nonneg; lia).
  assert ((shadow_start s +u (1 *u w)) mod shadow_lim g = (r + 1) mod h * w) as Es.
  { rewrite Hs, ge_lim0, (u32_id (1 * w)), u32_id by (unfold is_u32; lia).
    replace (r * w + 1 * w) with ((r + 1) * w) by lia. rewrite (Z.mul_comm w h). apply Z.mul_mod_distr_r; lia. }
  unfold scroll. rewrite Es. assert (shadow_lim g <=? (r + 1) mod h * w = false) as -> by (apply Z.leb_gt; lia).
  change (Z.to_nat 1) with 1%nat. unfold for_loop. cbn [for_from]. change (Z.of_nat 0 *u w) with (u32 0). change (u32 0) with 0.
  rewrite (u32_id (h - 1)) by (unfold is_u32; lia). rewrite (wrap_pos ((r + 1) mod h) (h - 1) 0) by lia.
  pose proof (pos_range ((r + 1) mod h) (h - 1) 0 ltac:(lia)) as Hp.
  destruct (clear_row_ok (fb_shadow s) (pos ((r + 1) mod h) (h - 1) 0)) as (l' & E & Hlen & Hl'); [done|lia|unfold pos in *|].
  { pose proof (Z.mod_pos_bound ((r + 1) mod h + (h - 1)) h ltac:(lia)).
    assert (((r + 1) mod h + (h - 1)) mod h * w <= (h - 1) * w) by (apply Z.mul_le_mono_nonneg_r; lia). lia. }
  rewrite E. run. rewrite (u32_id (caret_y s - 1)) by (unfold is_u32; lia). exists l'. split; [done|]. split; [done|].
  intros y x c Hy Hx Hcell. unfold cell_at in *. rewrite pos_turn. rewrite (Hl' _ _ Hcell). f_equal.
  assert (pos r (y + 1) x = pos ((r + 1) mod h) y x) as Ep by (by rewrite pos_turn).
  pose proof (pos_range ((r + 1) mod h) y x Hx) as Hp'. rewrite Ep. rewrite Z2Nat.id by lia.
  destruct (Z.eqb_spec y (h - 1)) as [->|Hne].
  - rewrite decide_True; [done|]. unfold pos. lia.
  - rewrite decide_False; [done|]. intros Hin. apply Hne.
    assert (0 <= pos ((r + 1) mod h) y x - pos ((r + 1) mod h) (h - 1) 0 < w) as Hd by lia.
    destruct (pos_inj ((r + 1) mod h) y x (h - 1) (pos ((r + 1) mod h) y x - pos ((r + 1) mod h) (h - 1) 0)); try done; try lia.
    unfold pos. lia.
Qed.

End ring.

(** ** The text screen as the user sees it

    A grid of characters with a caret; a line break at the bottom drops the first row.  An empty cell reads as a space. *)
Record term := mkTerm { chr : Z -> Z -> Z; t_y : Z; t_x : Z }.

Definition norm (c : Z) : Z := if c =? 0 then 32 else c.

Section text.
Context (cpl cpc : Z).

Definition t_set (y x c : Z) (t : term) : term := mkTerm (fun y' x' => if (y' =? y) && (x' =? x) then c else chr t y' x') (t_y t) (t_x t).
Definition t_newline (t : term) : term :=
  if cpc <=? t_y t + 1 then mkTerm (fun y x => if y =? cpc - 1 then 32 else chr t (y + 1) x) (t_y t) 0
  else mkTerm (chr t) (t_y t + 1) 0.
Definition t_put (c : Z) (t : term) : term :=
  let t := t_set (t_y t) (t_x t) (norm c) t in
  if t_x t + 1 =? cpl then t_newline t else mkTerm (chr t) (t_y t) (t_x t + 1).
Definition t_back (t : term) : term :=
  if t_x t =? 0 then t else let t := t_set (t_y t) (t_x t - 1) 32 t in mkTerm (chr t) (t_y t) (t_x t - 1).
Definition t_putchar (c : Z) (t : term) : term :=
  if c =? 8 then t_back t else if c =? 10 then t_newline t else t_put c t.

(** Behind the caret there is nothing. *)
Definition t_ok (t : term) : Prop :=
  0 <= t_y t < cpc /\ 0 <= t_x t < cpl /\
  forall y x, 0 <= y < cpc -> 0 <= x < cpl -> t_y t < y \/ y = t_y t /\ t_x t <= x -> chr t y x = 32.

Lemma t_newline_ok t : t_ok t -> t_ok (t_newline t).
Proof.
  intros (Hy & Hx & Hb). unfold t_newline. destruct (Z.leb_spec cpc (t_y t + 1)); (split; [cbn; lia|split; [cbn; lia|]]); cbn.
  - intros y x Hy' Hx' Ha. destruct (Z.eqb_spec y (cpc - 1)); [done|]. lia.
  - intros y x Hy' Hx' Ha. apply Hb; lia.
Qed.

Lemma t_putchar_ok c t : t_ok t -> t_ok (t_putchar c t).
Proof.
  intros Ht. unfold t_putchar. destruct (c =? 8); [|destruct (c =? 10); [by apply t_newline_ok|]]; destruct Ht as (Hy & Hx & Hb).
  - unfold t_back. destruct (Z.eqb_spec (t_x t) 0); [done|]. split; [done|]. split; [cbn; lia|]. cbn. intros y x Hy' Hx' Ha.
    destruct (Z.eqb_spec y (t_y t)), (Z.eqb_spec x (t_x t - 1)); cbn; try done; apply Hb; lia.
  - unfold t_put. cbn [t_x t_set]. destruct (Z.eqb_spec (t_x t + 1) cpl).
    + unfold t_newline. cbn [t_y t_set chr]. destruct (Z.leb_spec cpc (t_y t + 1)); (split; [cbn; lia|split; [cbn; lia|]]); cbn.
      * intros y x Hy' Hx' Ha. destruct (Z.eqb_spec y (cpc - 1)); [done|]. lia.
      * intros y x Hy' Hx' Ha. destruct (Z.eqb_spec y (t_y t)), (Z.eqb_spec x (t_x t)); cbn; try (apply Hb; lia). lia.
    + split; [done|]. split; [cbn; lia|]. cbn. intros y x Hy' Hx' Ha.
      destruct (Z.eqb_spec y (t_y t)), (Z.eqb_spec x (t_x t)); cbn; try (apply Hb; lia). lia.
Qed.

End text.

(** ** What the buffers hold *)

Section shown.
Context (g : config) (G : geometry g).
Local Notation w := (fb_width g).
Local Notation h := (fb_height g).
Local Notation cpl := (characters_per_line g).
Local Notation cpc := (characters_per_col g).
Local Notation size := (characterSize g).

Definition in_rect (d : rect) (y x : Z) : Prop := dirty_start_y d <= y < dirty_end_y d /\ dirty_start_x d <= x < dirty_end_x d.

(** The colour of a pixel of a cell, and that the pixels of a cell are on the screen. *)
Definition dot (c : cell) (py k : Z) : Z :=
  if truthy (r_font g !!! Z.to_nat (ch c * size * 8 + py * 8 + k)) then cfg c else cbg c.
Definition drawn (px : list Z) (y x : Z) (c : cell) : Prop :=
  forall py k, 0 <= py < size -> 0 <= k < 8 -> px !! Z.to_nat ((y * size + py) * n_row g + x * 8 + k) = Some (dot c py k).

(** The shadow buffer holds the text [t], row [r] of the ring first; outside of the dirty rectangle, the cells of [e] and the
    progress bar, it is what is on the screen. *)
Record shown (e : Z -> Z -> Prop) (s : screen) (r : Z) (t : term) : Prop := {
  sh_len : Z.of_nat (length (fb_shadow s)) = w * h;
  sh_r : 0 <= r < h;
  sh_start : shadow_start s = r * w;
  sh_y : caret_y s = t_y t; sh_x : caret_x s = t_x t; sh_cy : 0 <= t_y t < cpc; sh_cx : 0 <= t_x t < cpl;
  sh_text : forall y x, 0 <= y < cpc -> 0 <= x < cpl ->
    exists c, cell_at g (fb_shadow s) r y x = Some c /\ norm (ch c) = chr t y x /\ 0 <= ch c < 128;
  sh_below : forall y x, cpc <= y < h -> 0 <= x < cpl -> exists c, cell_at g (fb_shadow s) r y x = Some c /\ ch c = 0;
  sh_px : Z.of_nat (length (fb s)) = n_row g * h;
  sh_rect : 0 <= dirty_start_y (dirty s) <= dirty_end_y (dirty s) /\ dirty_end_y (dirty s) <= cpc /\
            0 <= dirty_start_x (dirty s) <= dirty_end_x (dirty s) /\ dirty_end_x (dirty s) <= cpl;
  sh_drawn : forall y x c, 0 <= y < cpc -> 0 <= x < cpl -> ~ in_rect (dirty s) y x -> ~ e y x -> progress_bar_owner s = 0 \/ 0 < y ->
    cell_at g (fb_shadow s) r y x = Some c -> drawn (fb s) y x c
}.

Definition at_caret (t : term) (y x : Z) : Prop := y = t_y t /\ x = t_x t.

Lemma shown_weaken (e e' : Z -> Z -> Prop) s r t : shown e s r t ->
  (forall y x, e y x -> e' y x \/ in_rect (dirty s) y x) -> shown e' s r t.
Proof. intros [] He. split; try done. intros y x c Hy Hx Hd Hne. apply sh_drawn0; try done. intros Hex. by destruct (He _ _ Hex). Qed.

Lemma shown_caret e s r t y x : shown e s r t -> 0 <= y < cpc -> 0 <= x < cpl -> shown e (set_caret s y x) r (mkTerm (chr t) y x).
Proof. intros [] Hy Hx. by split. Qed.

Lemma shown_update e s r t : shown e s r t ->
  shown e (update_dirty_rect s) r t /\ in_rect (dirty (update_dirty_rect s)) (t_y t) (t_x t) /\
  forall y x, in_rect (dirty s) y x -> in_rect (dirty (update_dirty_rect s)) y x.
Proof using G.
  intros []. unfold update_dirty_rect. cbn [dirty set_dirty]. pose proof (cpl_w g G). pose proof (cpc_h g G). rewrite sh_y0, sh_x0.
  assert (cpc < 2 ^ 32 /\ cpl < 2 ^ 32) as [? ?].
  { destruct G. assert (1 * h <= w * h) by (apply Z.mul_le_mono_nonneg_r; lia). assert (w * 1 <= w * h) by (apply Z.mul_le_mono_nonneg_l; lia). lia. }
  rewrite !u32_id by (unfold is_u32; lia). set (d' := mkRect _ _ _ _).
  assert (forall y x, in_rect (dirty s) y x -> in_rect d' y x) as Hmono.
  { intros y x [? ?]. subst d'. unfold in_rect. cbn. bool_to_prop; lia. }
  split; [|split; [subst d'; unfold in_rect; cbn; bool_to_prop; lia|done]].
  split; try done.
  - subst d'. cbn. bool_to_prop; lia.
  - cbn [dirty set_dirty]. intros y x c Hy Hx Hd. apply sh_drawn0; try done. intros ?. by apply Hd, Hmono.
Qed.

Lemma caret_off_pos e s r t : shown e s r t -> caret_off g s = pos g r (t_y t) (t_x t).
Proof using G.
  intros []. unfold caret_off. rewrite sh_start0, sh_y0, sh_x0. pose proof (cpl_w g G). pose proof (cpc_h g G). apply wrap_pos; [done|lia..].
Qed.

(** Writing the cell under the caret. *)
Lemma shown_store e s r t c : shown e s r t -> in_rect (dirty s) (t_y t) (t_x t) -> 0 <= ch c < 128 ->
  exists l, store (fb_shadow s) (caret_off g s) c = Ok l /\ shown e (set_shadow s l) r (t_set (t_y t) (t_x t) (norm (ch c)) t).
Proof using G.
  intros HS Hin Hc. rewrite (caret_off_pos _ _ _ _ HS). destruct HS. pose proof (cpl_w g G). pose proof (cpc_h g G).
  pose proof (pos_range g G r (t_y t) (t_x t) ltac:(lia)). rewrite store_in_range by lia. eexists. split; [done|].
  assert (forall y x, 0 <= y < h -> 0 <= x < cpl -> cell_at g (<[Z.to_nat (pos g r (t_y t) (t_x t)) := c]> (fb_shadow s)) r y x =
    if decide (y = t_y t /\ x = t_x t) then Some c else cell_at g (fb_shadow s) r y x) as Hcell.
  { intros y x Hy Hx. apply cell_at_store; try done; lia. }
  split; try done; cbn [fb_shadow set_shadow].
  - by rewrite length_insert.
  - intros y x Hy Hx. rewrite Hcell by lia. cbn. destruct (decide _) as [[-> ->]|Hne].
    + exists c. by rewrite !Z.eqb_refl.
    + destruct (Z.eqb_spec y (t_y t)), (Z.eqb_spec x (t_x t)); cbn; try by apply sh_text0. by destruct Hne.
  - intros y x Hy Hx. rewrite Hcell by lia. rewrite decide_False by lia. by apply sh_below0.
  - intros y x c' Hy Hx Hd He Hp. rewrite Hcell by lia. destruct (decide _) as [[-> ->]|Hne]; [done|]. by apply sh_drawn0.
Qed.

(** A line break at the bottom. *)
Lemma shown_scroll e s r t : shown e s r t -> t_y t = cpc - 1 -> exists s',
  scroll g 1 (set_caret s cpc 0) = Ok s' /\ forall e', shown e' s' ((r + 1) mod h) (t_newline cpc t).
Proof using G.
  intros [] Hy. pose proof (cpl_w g G). pose proof (cpc_h g G). pose proof (ge_cpl g G). pose proof (ge_cpc g G).
  assert (cpc < 2 ^ 32) as H32.
  { destruct G. assert (1 * h <= w * h) by (apply Z.mul_le_mono_nonneg_r; lia). lia. }
  destruct (scroll_ok g G (set_caret s cpc 0) r) as (l' & E & Hl & Hc); [done|done|done|cbn; lia|].
  eexists. split; [exact E|]. intros e'. cbn [fb_shadow set_caret] in *.
  pose proof (Z.mod_pos_bound (r + 1) h ltac:(lia)). unfold t_newline. rewrite (proj2 (Z.leb_le cpc (t_y t + 1))) by lia.
  split; cbn; try done; try lia.
  - intros y x Hy' Hx'. destruct (Z.eqb_spec y (cpc - 1)) as [->|Hne].
    + destruct (decide (cpc < h)) as [Hlt|Hge].
      * destruct (sh_below0 cpc x) as (c & Ec & Hz); [lia|done|]. exists c. replace cpc with (cpc - 1 + 1) in Ec by lia.
        rewrite (Hc (cpc - 1) x c) by (done || lia). rewrite (proj2 (Z.eqb_neq (cpc - 1) (h - 1))) by lia. rewrite Hz. done.
      * assert (cpc = h) as Eh by lia. destruct (sh_text0 0 x) as (c & Ec & _); [lia|done|].
        exists (mkCell (cfg c) (cbg c) 0). rewrite (Hc (cpc - 1) x c); [|lia|lia|].
        -- rewrite Eh, Z.eqb_refl. done.
        -- rewrite <- Ec. unfold cell_at, pos. do 3 f_equal. replace (r + (cpc - 1 + 1)) with (r + 0 + 1 * h) by lia.
           rewrite Z_mod_plus_full. done.
    + destruct (sh_text0 (y + 1) x) as (c & Ec & Hn); [lia|done|]. exists c. rewrite (Hc y x c) by (done || lia).
      rewrite (proj2 (Z.eqb_neq y (h - 1))) by lia. done.
  - intros y x Hy' Hx'. destruct (Z.eqb_spec y (h - 1)) as [->|Hne].
    + destruct (sh_text0 0 x) as (c & Ec & _); [lia|done|]. eexists. rewrite (Hc (h - 1) x c); [|lia|lia|].
      * rewrite Z.eqb_refl. done.
      * rewrite <- Ec. unfold cell_at, pos. do 3 f_equal. replace (r + (h - 1 + 1)) with (r + 0 + 1 * h) by lia.
        rewrite Z_mod_plus_full. done.
    + destruct (sh_below0 (y + 1) x) as (c & Ec & Hz); [lia|done|]. exists c. rewrite (Hc y x c) by (done || lia).
      rewrite (proj2 (Z.eqb_neq y (h - 1))) by lia. done.
  - intros y x c Hy' Hx' Hd. exfalso. apply Hd. split; cbn; lia.
Qed.

Lemma rect_whole y x : 0 <= y < cpc -> 0 <= x < cpl -> in_rect (whole g) y x.
Proof. by split. Qed.

Lemma small_coords : cpc < 2 ^ 32 /\ cpl < 2 ^ 32.
Proof using G.
  pose proof (cpl_w g G). pose proof (cpc_h g G). destruct G.
  assert (1 * h <= w * h) by (apply Z.mul_le_mono_nonneg_r; lia). assert (w * 1 <= w * h) by (apply Z.mul_le_mono_nonneg_l; lia). lia.
Qed.

(** The caret goes to the next row. *)
Lemma shown_newline e s r t : shown e s r t -> exists s' r',
  (let s := set_caret s (caret_y s +u 1) 0 in if cpc <=? caret_y s then scroll g 1 s else Ok s) = Ok s' /\ shown e s' r' (t_newline cpc t) /\
  (s' = set_caret s (t_y t + 1) 0 \/ dirty s' = whole g).
Proof using G.
  intros HS. pose proof (sh_y _ _ _ _ HS) as Ey. pose proof (sh_cy _ _ _ _ HS) as Hy. destruct small_coords as [? _]. cbn zeta.
  cbn [caret_y set_caret]. rewrite Ey, u32_id by (unfold is_u32; lia). unfold t_newline. destruct (Z.leb_spec cpc (t_y t + 1)).
  - assert (t_y t = cpc - 1) as E by lia. replace (t_y t + 1) with cpc by lia. destruct (shown_scroll e s r t HS E) as (s' & Es & Hs').
    exists s', ((r + 1) mod h). split; [done|]. split.
    + specialize (Hs' e). unfold t_newline in Hs'. by rewrite (proj2 (Z.leb_le cpc (t_y t + 1))) in Hs' by lia.
    + right. unfold scroll in Es. destruct (for_loop _ _ _); [|done..]. cbn in Es. by simplify_eq.
  - eexists _, r. split; [done|]. split; [|by left]. apply shown_caret; [done|lia|]. pose proof (ge_cpl g G). lia.
Qed.

Lemma put_cell_ok e s r t cc : shown e s r t -> 0 <= cc < 128 -> exists s' r',
  put_cell g cc s = Ok s' /\ shown e s' r' (t_put cpl cpc cc t) /\ in_rect (dirty s') (t_y t) (t_x t) /\
  (t_x t + 1 < cpl -> in_rect (dirty s') (t_y t) (t_x t + 1)).
Proof using G.
  intros HS Hcc. unfold put_cell. destruct (shown_update _ _ _ _ HS) as (H1 & Hin & _). set (s1 := update_dirty_rect s) in *.
  destruct (shown_store _ _ _ _ (mkCell (FG s1) (BG s1) cc) H1 Hin Hcc) as (l & -> & H2). run. cbn [ch] in H2.
  pose proof (sh_x _ _ _ _ H2) as Ex. pose proof (sh_y _ _ _ _ H2) as Ey. pose proof (sh_cx _ _ _ _ H2) as Hcx. pose proof (sh_cy _ _ _ _ H2) as Hcy. cbn [t_x t_y t_set] in *.
  destruct small_coords as [? ?]. set (s2 := set_shadow s1 l) in *. cbn [caret_x caret_y set_caret]. rewrite Ex, u32_id by (unfold is_u32; lia).
  unfold t_put. cbn [t_x t_set]. destruct (Z.eqb_spec (t_x t + 1) cpl) as [E|E].
  - destruct (shown_newline _ _ _ _ H2) as (s' & r' & Es & H3 & Hd). cbn [caret_y set_caret] in *.
    change (set_caret (set_caret s2 (caret_y s2) (t_x t + 1)) (caret_y s2 +u 1) 0) with (set_caret s2 (caret_y s2 +u 1) 0).
    destruct (cpc <=? caret_y s2 +u 1).
    + exists s', r'. split; [done|]. split; [done|]. split; [|lia]. destruct Hd as [->| ->]; [exact Hin|by apply rect_whole].
    + simplify_eq. destruct (shown_update _ _ _ _ H3) as (H4 & Hin4 & Hmono). eexists _, r'. split; [done|]. split; [done|]. split; [|lia].
      by apply Hmono.
  - assert (t_x t + 1 < cpl) as Hlt by lia.
    pose proof (shown_caret _ _ _ _ (t_y t) (t_x t + 1) H2 Hcy ltac:(lia)) as H3. rewrite Ey.
    destruct (shown_update _ _ _ _ H3) as (H4 & Hin4 & Hmono). eexists _, r. split; [done|]. split; [done|]. split; [by apply Hmono|].
    intros _. exact Hin4.
Qed.

(** Every character except a backspace at the beginning of a row does to the buffers what it does to the text. *)
Lemma putchar_ok s r t c : shown (at_caret t) s r t -> 0 <= c < 128 -> (c = 8 -> t_x t = 0 -> t_y t = 0) -> exists s' r',
  putchar g c s = Ok s' /\ let t' := t_putchar cpl cpc c t in shown (at_caret t') s' r' t'.
Proof using G.
  intros HS Hc Hb. unfold putchar, t_putchar. destruct (Z.leb_spec 255 c); [lia|].
  assert (to_char c = c) as -> by (unfold to_char; rewrite Z.mod_small by lia; destruct (Z.ltb_spec c 128); lia).
  pose proof (sh_x _ _ _ _ HS) as Ex. pose proof (sh_y _ _ _ _ HS) as Ey. pose proof (sh_cx _ _ _ _ HS) as Hcx. pose proof (sh_cy _ _ _ _ HS) as Hcy.
  destruct small_coords as [S1 S2]. destruct (Z.eqb_spec c 8) as [->|].
  - unfold delchar, t_back, truthy. rewrite Ex, Ey. destruct (Z.eqb_spec (t_x t) 0) as [E|E].
    { rewrite Hb by done. exists s, r. done. }
    cbn [negb andb]. rewrite u32_id by (unfold is_u32; lia).
    pose proof (shown_caret _ _ _ _ (t_y t) (t_x t - 1) HS Hcy ltac:(lia)) as H1.
    destruct (put_cell_ok _ _ _ _ 32 H1 ltac:(lia)) as (s' & r' & -> & H2 & Hin & Hin'). cbn [t_x t_y] in *. run.
    unfold t_put in H2. cbn [t_x t_y t_set] in H2. destruct (Z.eqb_spec (t_x t - 1 + 1) cpl); [lia|].
    pose proof (sh_x _ _ _ _ H2) as Ex2. pose proof (sh_y _ _ _ _ H2) as Ey2. cbn [t_x t_y] in *. rewrite Ex2, Ey2, u32_id by (unfold is_u32; lia).
    replace (t_x t - 1 + 1 - 1) with (t_x t - 1) by lia. exists (set_caret s' (t_y t) (t_x t - 1)), r'. split; [done|].
    eapply shown_weaken; [apply (shown_caret _ _ _ _ (t_y t) (t_x t - 1) H2); lia|].
    intros y x [-> ->]. right. cbn [dirty set_caret]. replace (t_x t) with (t_x t - 1 + 1) by lia. apply Hin'. lia.
  - destruct (Z.eqb_spec c 10) as [->|].
    + destruct (shown_update _ _ _ _ HS) as (H1 & Hin & _). destruct (shown_newline _ _ _ _ H1) as (s' & r' & Es & H2 & Hd).
      cbn zeta in Es. rewrite Es. exists s', r'. split; [done|]. eapply shown_weaken; [done|]. intros y x [-> ->]. right.
      destruct Hd as [->| ->]; [exact Hin|by apply rect_whole].
    + destruct (put_cell_ok _ _ _ _ c HS Hc) as (s' & r' & -> & H2 & Hin & _). exists s', r'. split; [done|].
      eapply shown_weaken; [done|]. intros y x [-> ->]. by right.
Qed.

End shown.

(** ** Drawing *)

Section drawing.
Context (g : config) (G : geometry g) (l : list cell) (r : Z).
Local Notation w := (fb_width g).
Local Notation h := (fb_height g).
Local Notation cpl := (characters_per_line g).
Local Notation cpc := (characters_per_col g).
Local Notation size := (characterSize g).

(** The colour that the shadow buffer gives to a pixel of the framebuffer. *)
Definition target (i : nat) : option Z :=
  let row := Z.of_nat i / n_row g in let col := Z.of_nat i mod n_row g in
  c ← cell_at g l r (row / size) (col / 8); Some (dot g c (row mod size) (col mod 8)).

(** Pixels change only to what they should be. *)
Definition evolves (px px' : list Z) : Prop := length px' = length px /\ forall i, px' !! i = px !! i \/ px' !! i = target i.

#[local] Instance evolves_preorder : PreOrder evolves.
Proof.
  split.
  - intros px. split; [done|]. by left.
  - intros a b c [E1 H1] [E2 H2]. split; [congruence|]. intros i. destruct (H2 i) as [->|]; [apply H1|by right].
Qed.

Definition pixel (y x py k : Z) : Z := (y * size + py) * n_row g + x * 8 + k.

Definition visible (y x : Z) : Prop := 0 <= y < cpc /\ 0 <= x < cpl.

Lemma pixel_bounds y x py k : visible y x -> 0 <= py < size -> 0 <= k < 8 ->
  0 <= y * size + py < h /\ 0 <= x * 8 + k < n_row g /\ 0 <= pixel y x py k < n_row g * h.
Proof using G.
  intros [Hy Hx] Hp Hk. destruct G. unfold pixel. assert (y * size <= (cpc - 1) * size) by (apply Z.mul_le_mono_nonneg_r; lia).
  assert (0 <= y * size) by (apply Z.mul_nonneg_nonneg; lia). assert (0 <= y * size + py < h) by lia.
  assert (0 <= x * 8 + k < n_row g) by lia. split; [done|]. split; [done|].
  assert ((y * size + py) * n_row g <= (h - 1) * n_row g) by (apply Z.mul_le_mono_nonneg_r; lia).
  assert (0 <= (y * size + py) * n_row g) by (apply Z.mul_nonneg_nonneg; lia). lia.
Qed.

Lemma target_pixel y x py k c : visible y x -> 0 <= py < size -> 0 <= k < 8 -> cell_at g l r y x = Some c ->
  target (Z.to_nat (pixel y x py k)) = Some (dot g c py k).
Proof using G.
  intros Hv Hp Hk Hc. destruct (pixel_bounds y x py k Hv Hp Hk) as (Hr & Hcol & Hi). unfold target. rewrite Z2Nat.id by lia.
  unfold pixel. replace ((y * size + py) * n_row g + x * 8 + k) with ((x * 8 + k) + (y * size + py) * n_row g) by lia. destruct G.
  rewrite Z_div_plus_full, Z_mod_plus_full, (Z.div_small (x * 8 + k)), (Z.mod_small (x * 8 + k)), Z.add_0_l by lia.
  replace (y * size + py) with (py + y * size) by lia. rewrite Z_div_plus_full, Z_mod_plus_full, (Z.div_small py), (Z.mod_small py), Z.add_0_l by lia.
  replace (x * 8 + k) with (k + x * 8) by lia. rewrite Z_div_plus_full, Z_mod_plus_full, (Z.div_small k), (Z.mod_small k), Z.add_0_l by lia.
  rewrite Hc. done.
Qed.

Definition painted (px : list Z) (y x py k : Z) : Prop := px !! Z.to_nat (pixel y x py k) = target (Z.to_nat (pixel y x py k)).

Lemma painted_mono px px' y x py k : evolves px px' -> painted px y x py k -> painted px' y x py k.
Proof. intros [_ He] Hp. unfold painted in *. destruct (He (Z.to_nat (pixel y x py k))) as [->|]; done. Qed.

Definition sized (px : list Z) : Prop := Z.of_nat (length px) = n_row g * h.

Lemma draw_bits_ok y x py c px : visible y x -> 0 <= py < size -> cell_at g l r y x = Some c -> 0 <= ch c < 128 -> sized px ->
  exists px', draw_bits g (pixel y x py 0) (ch c * size * 8 + py * 8) c px = Ok px' /\ sized px' /\ evolves px px' /\
    forall k, (k < 8)%nat -> painted px' y x py (Z.of_nat k).
Proof using G.
  intros Hv Hp Hc Ha Hpx. unfold draw_bits. apply (for_loop_cover sized evolves (fun k px => painted px y x py (Z.of_nat k))); [done| |].
  2:{ intros k a b Hab. by apply painted_mono. }
  intros k t Hk Ht. destruct (pixel_bounds y x py (Z.of_nat k) Hv Hp ltac:(lia)) as (_ & _ & Hi).
  assert (pixel y x py 0 + Z.of_nat k = pixel y x py (Z.of_nat k)) as -> by (unfold pixel; lia).
  assert (0 <= ch c * size * 8 + py * 8 + Z.of_nat k < 255 * size * 8) as Hg.
  { destruct G. assert (ch c * size <= 127 * size) by (apply Z.mul_le_mono_nonneg_r; lia).
    assert (0 <= ch c * size) by (apply Z.mul_nonneg_nonneg; lia). lia. }
  pose proof (ge_font g G) as Hf. destruct (fetch_some (r_font g) (ch c * size * 8 + py * 8 + Z.of_nat k)) as (bit & Hb & ->); [lia|]. run.
  unfold sized in Ht. rewrite store_in_range by lia. eexists. split; [done|].
  assert (target (Z.to_nat (pixel y x py (Z.of_nat k))) = Some (if truthy bit then cfg c else cbg c)) as Et.
  { rewrite (target_pixel y x py (Z.of_nat k) c) by (done || lia). unfold dot. rewrite list_lookup_total_alt, Hb. done. }
  split; [unfold sized; by rewrite length_insert|]. split.
  - split; [by rewrite length_insert|]. intros i. destruct (decide (i = Z.to_nat (pixel y x py (Z.of_nat k)))) as [->|Hne].
    + right. rewrite list_lookup_insert_eq by lia. by rewrite Et.
    + left. by apply list_lookup_insert_ne.
  - unfold painted. rewrite list_lookup_insert_eq by lia. by rewrite Et.
Qed.

Definition painted_cell (px : list Z) (y x : Z) : Prop := forall py k, 0 <= py < size -> 0 <= k < 8 -> painted px y x py k.

Lemma painted_cell_mono px px' y x : evolves px px' -> painted_cell px y x -> painted_cell px' y x.
Proof. intros He Hp py k Hpy Hk. eapply painted_mono; [done|by apply Hp]. Qed.

Lemma draw_cell_ok y x c px start by_ x8 : visible y x -> cell_at g l r y x = Some c -> 0 <= ch c < 128 -> sized px ->
  (forall py, 0 <= py < size -> start + ((by_ +u py) *u n_row g +u x8) = pixel y x py 0) ->
  exists px', draw_cell g start by_ x8 c px = Ok px' /\ sized px' /\ evolves px px' /\ painted_cell px' y x.
Proof using G.
  intros Hv Hc Ha Hpx Hd. unfold draw_cell. pose proof (ge_size g G).
  destruct (for_loop_cover sized evolves (fun py px => forall k, (k < 8)%nat -> painted px y x (Z.of_nat py) (Z.of_nat k)) (Z.to_nat size)
    (fun px_y l => draw_bits g (start + ((by_ +u Z.of_nat px_y) *u n_row g +u x8)) (ch c * size * 8 + Z.of_nat px_y * 8) c l) px)
    as (px' & E & Hs & He & Hq); [done| |intros k a b Hab Hq j Hj; eapply painted_mono; [done|by apply Hq]|].
  - intros py t Hpy Ht. rewrite Hd by lia. by apply draw_bits_ok; try lia.
  - exists px'. split; [done|]. split; [done|]. split; [done|]. intros py k Hpy Hk.
    pose proof (Hq (Z.to_nat py) ltac:(lia) (Z.to_nat k) ltac:(lia)) as Hfin. by rewrite !Z2Nat.id in Hfin by lia.
Qed.

(** The addresses that the loops compute. *)
Lemma shadow_address sy sx y x : 0 <= r < h -> 0 <= sy -> 0 <= y -> 0 <= sx -> 0 <= x -> visible (sy + y) (sx + x) ->
  wrap g (((sy *u w) +u (r * w)) +u sx +u (y *u w)) +u x = pos g r (sy + y) (sx + x).
Proof using G.
  intros Hr Hsy Hy Hsx Hx [Vy Vx]. pose proof (cpl_w g G) as Cw. pose proof (cpc_h g G) as Ch. pose proof (pos_range g G r (sy + y) (sx + x) ltac:(lia)).
  pose proof (wrap_pos g G r (sy + y) sx Hr ltac:(lia) ltac:(lia)) as Hw. destruct G.
  assert ((sy + y) * w <= (h - 1) * w) by (apply Z.mul_le_mono_nonneg_r; lia). assert (r * w <= (h - 1) * w) by (apply Z.mul_le_mono_nonneg_r; lia).
  assert (0 <= sy * w /\ 0 <= y * w /\ 0 <= r * w) as (? & ? & ?) by (repeat split; apply Z.mul_nonneg_nonneg; lia).
  rewrite (u32_id ((sy + y) * w)), (u32_id (r * w + (sy + y) * w)), (u32_id (r * w + (sy + y) * w + sx)) in Hw by (unfold is_u32; lia).
  rewrite (u32_id (sy * w)), (u32_id (sy * w + r * w)), (u32_id (y * w)), (u32_id (sy * w + r * w + sx)), (u32_id (sy * w + r * w + sx + y * w))
    by (unfold is_u32; lia).
  replace (sy * w + r * w + sx + y * w) with (r * w + (sy + y) * w + sx) by lia. rewrite Hw. unfold pos in *. rewrite u32_id by (unfold is_u32; lia). lia.
Qed.

Lemma fb_address sy sx y x py : 0 <= sy -> 0 <= y -> 0 <= sx -> 0 <= x -> visible (sy + y) (sx + x) -> 0 <= py < size ->
  (sy *u size *u n_row g) + (sx *u 8) + ((y *u size +u py) *u n_row g +u (x *u 8)) = pixel (sy + y) (sx + x) py 0.
Proof using G.
  intros Hsy Hy Hsx Hx Hv Hp. destruct (pixel_bounds (sy + y) (sx + x) py 0 Hv Hp ltac:(lia)) as (B1 & B2 & B3). unfold pixel in *. destruct G.
  assert (0 <= sy * size /\ 0 <= y * size) as (? & ?) by (repeat split; apply Z.mul_nonneg_nonneg; lia).
  assert (0 <= sy * size * n_row g /\ 0 <= (y * size + py) * n_row g) as (? & ?) by (repeat split; apply Z.mul_nonneg_nonneg; lia).
  assert (h * 1 <= h * n_row g) by (apply Z.mul_le_mono_nonneg_l; lia). assert (1 * n_row g <= h * n_row g) by (apply Z.mul_le_mono_nonneg_r; lia).
  assert (sy * size * n_row g + (y * size + py) * n_row g + (sx + x) * 8 < n_row g * h) by lia.
  rewrite (u32_id (sy * size)), (u32_id (sx * 8)), (u32_id (y * size)), (u32_id (x * 8)), (u32_id (y * size + py)) by (unfold is_u32; lia).
  rewrite (u32_id (sy * size * n_row g)), (u32_id ((y * size + py) * n_row g)), (u32_id (_ + x * 8)) by (unfold is_u32; lia). lia.
Qed.

(** The loops of [flush] draw every cell of the dirty rectangle. *)
Lemma draw_dirty_ok s : Z.of_nat (length l) = w * h -> fb_shadow s = l -> 0 <= r < h -> shadow_start s = r * w -> sized (fb s) ->
  0 <= dirty_start_y (dirty s) <= dirty_end_y (dirty s) /\ dirty_end_y (dirty s) <= cpc /\
  0 <= dirty_start_x (dirty s) <= dirty_end_x (dirty s) /\ dirty_end_x (dirty s) <= cpl ->
  (forall y x, visible y x -> exists c, cell_at g l r y x = Some c /\ 0 <= ch c < 128) ->
  exists px', draw_dirty g s = Ok px' /\ sized px' /\ evolves (fb s) px' /\
    forall y x, in_rect (dirty s) y x -> painted_cell px' y x.
Proof using G.
  intros Hl El Hr Hs Hpx (Hy1 & Hy2 & Hx1 & Hx2) Hcells. unfold draw_dirty. set (d := dirty s) in *.
  destruct (small_coords g G) as [S1 S2]. rewrite Hs, El.
  rewrite (u32_id (dirty_end_y d - dirty_start_y d)), (u32_id (dirty_end_x d - dirty_start_x d)) by (unfold is_u32; lia).
  set (ny := dirty_end_y d - dirty_start_y d). set (nx := dirty_end_x d - dirty_start_x d).
  set (done_row := fun y px => forall x, (x < Z.to_nat nx)%nat -> painted_cell px (dirty_start_y d + Z.of_nat y) (dirty_start_x d + Z.of_nat x)).
  match goal with |- exists px', ?m = Ok px' /\ _ =>
    assert (exists px', m = Ok px' /\ sized px' /\ evolves (fb s) px' /\ forall y, (y < Z.to_nat ny)%nat -> done_row y px') as (px' & E & Hs' & He & Hq)
  end.
  { apply (for_loop_cover sized evolves done_row); [exact Hpx| |intros k a b Hab Hq j Hj; eapply painted_cell_mono; [done|by apply Hq]].
    intros y t Hy Ht. apply (for_loop_cover sized evolves
      (fun x px => painted_cell px (dirty_start_y d + Z.of_nat y) (dirty_start_x d + Z.of_nat x))); [done| |intros k a b; apply painted_cell_mono].
    intros x t' Hx Ht'. assert (visible (dirty_start_y d + Z.of_nat y) (dirty_start_x d + Z.of_nat x)) as Hv by (split; lia).
    rewrite shadow_address by (done || lia). destruct (Hcells _ _ Hv) as (c & Hc & Ha). pose proof (cpl_w g G).
    rewrite (fetch_ok l _ c); [|apply pos_range; [done|]; destruct Hv; lia|exact Hc]. run.
    apply draw_cell_ok; try done. intros py Hp. by apply fb_address; try lia. }
  exists px'. split; [exact E|]. split; [done|]. split; [done|]. intros y x [Hy Hx].
    pose proof (Hq (Z.to_nat (y - dirty_start_y d)) ltac:(lia) (Z.to_nat (x - dirty_start_x d)) ltac:(lia)) as Hfin.
    by rewrite !Z2Nat.id, !Zplus_minus in Hfin by lia.
Qed.

End drawing.

(** ** Flushing *)

Section flush.
Context (g : config) (G : geometry g).
Local Notation w := (fb_width g).
Local Notation h := (fb_height g).
Local Notation cpl := (characters_per_line g).
Local Notation cpc := (characters_per_col g).
Local Notation size := (characterSize g).

(** The progress bar stays in the first row of characters. *)
Lemma progress_bar_ok s : Z.of_nat (length (fb s)) = n_row g * h -> 0 <= progress_bar_percentage s <= 100 ->
  exists px, draw_progress_bar g s = Ok px /\ length px = length (fb s) /\
    forall i, size * n_row g <= Z.of_nat i -> px !! i = fb s !! i.
Proof using G.
  intros Hl Hp. unfold draw_progress_bar. pose proof (cpc_h g G) as Ch. destruct G. set (q := progress_bar_percentage s * w / 100).
  assert (0 <= q <= w) as Hq by (split; [apply Z.div_pos; nia|apply Z.div_le_upper_bound; nia]). set (b := progress_bar_height g) in *.
  assert (b * w <= size * n_row g) by (apply Z.mul_le_mono_nonneg; lia). assert (q * b <= w * b) by (apply Z.mul_le_mono_nonneg_r; lia).
  assert (0 <= q * b) by (apply Z.mul_nonneg_nonneg; lia). assert (1 * size <= cpc * size) by (apply Z.mul_le_mono_nonneg_r; lia).
  assert (size * n_row g <= h * n_row g) by (apply Z.mul_le_mono_nonneg_r; lia).
  rewrite (u32_id (q * b)), (u32_id (b * w)) by (unfold is_u32; lia).
  set (P := fun (k : nat) (px : list Z) => length px = length (fb s) /\ forall i, size * n_row g <= Z.of_nat i -> px !! i = fb s !! i).
  assert (forall v i px, 0 <= i < b * w -> P O px -> exists px', store px i v = Ok px' /\ P O px') as Hstore.
  { intros v i px Hi [P1 P2]. rewrite store_in_range by lia. eexists. split; [done|]. split; [by rewrite length_insert|].
    intros j Hj. rewrite list_lookup_insert_ne by lia. by apply P2. }
  destruct (for_loop_inv P (Z.to_nat (q * b)) (fun i l => store l (Z.of_nat i) (FG s)) (fb s)) as (px1 & -> & P1); [done| |].
  { intros k t Hk Ht. by apply Hstore; [lia|]. }
  run. apply (for_loop_inv P); [done|]. intros k t Hk Ht. by apply Hstore; [lia|].
Qed.

Lemma pixel_below_bar y x py k : 0 < y -> 0 <= x -> 0 <= py -> 0 <= k -> size * n_row g <= pixel g y x py k.
Proof using G.
  intros Hy Hx Hp Hk. destruct G. unfold pixel. assert (1 * size <= y * size) by (apply Z.mul_le_mono_nonneg_r; lia).
  assert (size * n_row g <= (y * size + py) * n_row g) by (apply Z.mul_le_mono_nonneg_r; lia). lia.
Qed.

(** What a flush leaves on the screen. *)
Definition displayed (s : screen) (r : Z) (t : term) : Prop :=
  forall y x, 0 <= y < cpc -> 0 <= x < cpl -> ~ at_caret t y x -> progress_bar_owner s = 0 \/ 0 < y ->
  exists c, cell_at g (fb_shadow s) r y x = Some c /\ norm (ch c) = chr t y x /\ drawn g (fb s) y x c.

(** The shadow buffer with something under the cursor. *)
Lemma cursor_cell s r t l0 c : shown g (at_caret t) s r t -> length l0 = length (fb_shadow s) -> exists l,
  store l0 (caret_off g s) c = Ok l /\ length l = length (fb_shadow s) /\ cell_at g l r (t_y t) (t_x t) = Some c /\
  forall y x, 0 <= y < h -> 0 <= x < cpl -> ~ at_caret t y x -> cell_at g l r y x = cell_at g l0 r y x.
Proof using G.
  intros HS Hl0. rewrite (caret_off_pos g G _ _ _ _ HS). destruct HS. pose proof (cpl_w g G). pose proof (cpc_h g G).
  pose proof (pos_range g G r (t_y t) (t_x t) ltac:(lia)). rewrite store_in_range by lia. eexists. split; [done|]. split; [by rewrite length_insert|]. split.
  - rewrite cell_at_store by (done || lia). by rewrite decide_True.
  - intros y x Hy Hx Hne. rewrite cell_at_store by (done || lia). by rewrite decide_False.
Qed.

(** After the loops every cell but the one of the cursor is on the screen. *)
Lemma draw_shown s r t l : shown g (at_caret t) s r t -> length l = length (fb_shadow s) ->
  (exists c, cell_at g l r (t_y t) (t_x t) = Some c /\ 0 <= ch c < 128) ->
  (forall y x, 0 <= y < h -> 0 <= x < cpl -> ~ at_caret t y x -> cell_at g l r y x = cell_at g (fb_shadow s) r y x) ->
  exists px, draw_dirty g (set_shadow s l) = Ok px /\ Z.of_nat (length px) = n_row g * h /\
    forall y x c, 0 <= y < cpc -> 0 <= x < cpl -> ~ at_caret t y x -> progress_bar_owner s = 0 \/ 0 < y ->
      cell_at g (fb_shadow s) r y x = Some c -> drawn g px y x c.
Proof using G.
  intros HS Hl (c0 & Hc0 & Ha0) Hsame. destruct HS. pose proof (cpc_h g G) as Ch.
  destruct (draw_dirty_ok g G l r (set_shadow s l)) as (px & Epx & Hsz & [Hlen Hev] & Hpa); try done; [lia| |].
  { intros y x [Hy Hx]. destruct (decide (y = t_y t /\ x = t_x t)) as [[-> ->]|Hne]; [by exists c0|].
    rewrite Hsame by (done || lia). destruct (sh_text0 y x) as (c & ? & _ & ?); [done|done|]. eauto. }
  exists px. split; [done|]. split; [done|]. intros y x c Hy Hx Hne Hb Hc py k Hpy Hk.
  assert (target g l r (Z.to_nat (pixel g y x py k)) = Some (dot g c py k)) as Et.
  { apply target_pixel; try done. by rewrite Hsame by (done || lia). }
  destruct (decide (in_rect (dirty s) y x)) as [Hin|Hin].
  - pose proof (Hpa y x Hin py k Hpy Hk) as Hfin. unfold painted in Hfin. by rewrite Et in Hfin.
  - change ((y * size + py) * n_row g + x * 8 + k) with (pixel g y x py k).
    destruct (Hev (Z.to_nat (pixel g y x py k))) as [->| ->]; [|done]. by apply sh_drawn0.
Qed.

(** The state that a flush leaves. *)
Lemma flushed s r t l px d : shown g (at_caret t) s r t -> t_ok cpl cpc t -> length l = length (fb_shadow s) ->
  cell_at g l r (t_y t) (t_x t) = Some (mkCell (FG s) (BG s) 0) ->
  (forall y x, 0 <= y < h -> 0 <= x < cpl -> ~ at_caret t y x -> cell_at g l r y x = cell_at g (fb_shadow s) r y x) ->
  Z.of_nat (length px) = n_row g * h ->
  (forall y x c, 0 <= y < cpc -> 0 <= x < cpl -> ~ at_caret t y x -> progress_bar_owner s = 0 \/ 0 < y ->
     cell_at g (fb_shadow s) r y x = Some c -> drawn g px y x c) ->
  0 <= dirty_start_y d <= dirty_end_y d /\ dirty_end_y d <= cpc /\ 0 <= dirty_start_x d <= dirty_end_x d /\ dirty_end_x d <= cpl ->
  let s' := set_dirty (set_shadow (set_fb s px) l) d in shown g (at_caret t) s' r t /\ displayed s' r t.
Proof using G.
  intros HS (_ & _ & Hblank) Hl Hcur Hsame Hpx Hdr Hd s'. destruct HS. pose proof (cpc_h g G) as Ch.
  assert (forall y x, 0 <= y < cpc -> 0 <= x < cpl -> exists c, cell_at g l r y x = Some c /\ norm (ch c) = chr t y x /\ 0 <= ch c < 128) as Htext.
  { intros y x Hy Hx. destruct (decide (y = t_y t /\ x = t_x t)) as [[-> ->]|Hne].
    - eexists. split; [done|]. split; [|cbn; lia]. cbn. symmetry. apply Hblank; try done. lia.
    - rewrite Hsame by (done || lia). by apply sh_text0. }
  split.
  - split; try done; cbn [fb_shadow set_dirty set_shadow set_fb fb s'].
    + by rewrite Hl.
    + intros y x Hy Hx. rewrite Hsame; [by apply sh_below0|lia|done|]. intros [-> _]. lia.
    + intros y x c Hy Hx _ Hne Hb Hc. rewrite Hsame in Hc by (done || lia). by apply Hdr.
  - intros y x Hy Hx Hne Hb. cbn [fb_shadow set_dirty set_shadow set_fb fb s']. destruct (Htext y x Hy Hx) as (c & Hc & Hn & _).
    exists c. split; [done|]. split; [done|]. apply Hdr; try done. by rewrite <- Hsame by (done || lia).
Qed.

(** A flush changes neither the text nor the caret, and puts the text on the screen. *)
Lemma flush_ok s r t : shown g (at_caret t) s r t -> t_ok cpl cpc t -> 0 <= progress_bar_percentage s <= 100 -> lock_flush s = false ->
  exists s', flush g s = Ok s' /\ shown g (at_caret t) s' r t /\ displayed s' r t /\
    progress_bar_percentage s' = progress_bar_percentage s /\ lock_flush s' = false.
Proof using G.
  intros HS Ht Hp Hlk. unfold flush. rewrite Hlk. destruct (small_coords g G) as [S1 S2].
  assert (exists l1, (if show_cursor s then store (fb_shadow s) (caret_off g s) (mkCell (FG s) (BG s) 95) else Ok (fb_shadow s)) = Ok l1 /\
    length l1 = length (fb_shadow s) /\ (exists c, cell_at g l1 r (t_y t) (t_x t) = Some c /\ 0 <= ch c < 128) /\
    (forall y x, 0 <= y < h -> 0 <= x < cpl -> ~ at_caret t y x -> cell_at g l1 r y x = cell_at g (fb_shadow s) r y x))
    as (l1 & -> & Hl1 & Hc1 & Hsame1).
  { destruct (show_cursor s).
    - destruct (cursor_cell s r t (fb_shadow s) (mkCell (FG s) (BG s) 95) HS eq_refl) as (l & E & ? & ? & ?). exists l. split; [done|]. split; [done|].
      split; [|done]. eexists. split; [done|]. cbn. lia.
    - exists (fb_shadow s). repeat (split; [done|]). split; [|done]. destruct (sh_text _ _ _ _ _ HS (t_y t) (t_x t)) as (c & ? & _ & ?); [apply HS|apply HS|eauto]. }
  run. destruct (draw_shown s r t l1 HS Hl1 Hc1 Hsame1) as (px & -> & Hpx & Hdr). run. cbn [fb_shadow set_fb set_shadow].
  destruct (cursor_cell s r t l1 (mkCell (FG s) (BG s) 0) HS Hl1) as (l2 & E2 & Hl2 & Hc2 & Hsame2).
  cbn [FG BG set_fb set_shadow caret_x caret_y]. rewrite E2. run.
  rewrite (sh_x _ _ _ _ _ HS), (sh_y _ _ _ _ _ HS). pose proof (sh_cx _ _ _ _ _ HS) as Hcx. pose proof (sh_cy _ _ _ _ _ HS) as Hcy.
  rewrite !u32_id by (unfold is_u32; lia).
  set (d := if t_x t + 1 =? cpl then _ else _).
  assert (0 <= dirty_start_y d <= dirty_end_y d /\ dirty_end_y d <= cpc /\ 0 <= dirty_start_x d <= dirty_end_x d /\ dirty_end_x d <= cpl) as Hd
    by (subst d; destruct (Z.eqb_spec (t_x t + 1) cpl); cbn; lia).
  change (set_dirty (set_shadow (set_fb (set_shadow s l1) px) l2) d) with (set_dirty (set_shadow (set_fb s px) l2) d).
  assert (forall y x, 0 <= y < h -> 0 <= x < cpl -> ~ at_caret t y x -> cell_at g l2 r y x = cell_at g (fb_shadow s) r y x) as Hsame
    by (intros; rewrite Hsame2, Hsame1 by done; done).
  cbn [progress_bar_owner set_dirty set_shadow set_fb]. unfold truthy. destruct (Z.eqb_spec (progress_bar_owner s) 0) as [Eo|Eo]; cbn [negb].
  - destruct (flushed s r t l2 px d) as [H1 H2]; try done. eexists. split; [done|]. done.
  - set (s3 := set_dirty _ _). destruct (progress_bar_ok s3) as (px2 & -> & Hlen & Hsame3); [done|done|]. run.
    destruct (flushed s r t l2 px2 d) as [H1 H2]; try done; [by rewrite Hlen| |].
    2:{ eexists. split; [done|]. done. }
    intros y x c Hy Hx Hne Hb Hc py k Hpy Hk. change ((y * size + py) * n_row g + x * 8 + k) with (pixel g y x py k).
    assert (size * n_row g <= pixel g y x py k) by (apply pixel_below_bar; lia).
    destruct (pixel_bounds g G y x py k) as (_ & _ & Hpb); [done|done|done|].
    rewrite Hsame3 by lia. by apply Hdr.
Qed.

End flush.

(** ** Clearing and starting *)

Definition blank_term : term := mkTerm (fun _ _ => 32) 0 0.

Lemma t_ok_blank cpl cpc : 0 < cpl -> 0 < cpc -> t_ok cpl cpc blank_term.
Proof. intros. split; [cbn; lia|]. split; [cbn; lia|]. done. Qed.

Lemma clear_ok g s : geometry g -> Z.of_nat (length (fb_shadow s)) = fb_width g * fb_height g ->
  exists l, clear_screen g s = Ok (set_dirty (set_caret (set_shadow s l) 0 0) (whole g)) /\ length l = length (fb_shadow s) /\
    forall i, (i < length l)%nat -> l !! i = Some (mkCell (FG s) (BG s) 0).
Proof.
  intros G Hl. destruct G. unfold clear_screen. set (w := fb_width g) in *. set (h := fb_height g) in *.
  set (P := fun (n : Z) (il : Z * list cell) => il.1 = n /\ length il.2 = length (fb_shadow s) /\
    forall i, Z.of_nat i < n -> il.2 !! i = Some (mkCell (FG s) (BG s) 0)).
  match goal with |- exists l, (?m ≫= _) = _ /\ _ => assert (exists il, m = Ok il /\ P (h * w) il) as ([idx l] & -> & _ & Hlen & Hcell) end.
  { replace (h * w) with (Z.of_nat (Z.to_nat h) * w) by lia. apply (for_loop_inv (fun k il => P (Z.of_nat k * w) il)).
    { split; [done|]. split; [done|]. intros i Hi. lia. }
    intros k il Hk HP. replace (Z.of_nat (S k) * w) with (Z.of_nat k * w + Z.of_nat (Z.to_nat w)) by lia.
    assert (Z.of_nat (S k) * w <= h * w) by (apply Z.mul_le_mono_nonneg_r; lia).
    apply (for_loop_inv (fun j il => P (Z.of_nat k * w + Z.of_nat j) il)); [by rewrite Z.add_0_r|].
    intros j [idx l] Hj (Ei & Hlen & Hc). cbn in Ei, Hlen, Hc. subst idx. rewrite store_in_range by nia. run. eexists. split; [done|].
    split; [cbn; lia|]. split; [cbn; by rewrite length_insert|]. cbn [snd]. intros i Hi.
    destruct (decide (i = Z.to_nat (Z.of_nat k * w + Z.of_nat j))) as [->|Hne]; [apply list_lookup_insert_eq; nia|].
    rewrite list_lookup_insert_ne by done. apply Hc. lia. }
  run. exists l. split; [done|]. split; [done|]. intros i Hi. apply Hcell. cbn in Hlen. lia.
Qed.

(** A cleared screen shows nothing, whatever was drawn. *)
Lemma clear_shown g s r e : geometry g -> Z.of_nat (length (fb_shadow s)) = fb_width g * fb_height g ->
  0 <= r < fb_height g -> shadow_start s = r * fb_width g -> Z.of_nat (length (fb s)) = n_row g * fb_height g ->
  exists s', clear_screen g s = Ok s' /\ shown g e s' r blank_term /\ fb s' = fb s /\ progress_bar_percentage s' = progress_bar_percentage s /\
    lock_flush s' = lock_flush s.
Proof.
  intros G Hl Hr Hs Hpx. destruct (clear_ok g s G Hl) as (l & -> & Hlen & Hc). eexists. split; [done|]. split; [|done].
  pose proof (cpl_w g G) as Cw. pose proof (ge_cpl g G). pose proof (ge_cpc g G).
  assert (forall y x, 0 <= x < characters_per_line g -> cell_at g l r y x = Some (mkCell (FG s) (BG s) 0)) as Hcell.
  { intros y x Hx. apply Hc. pose proof (pos_range g G r y x ltac:(lia)). lia. }
  split; cbn; try done; try lia.
  - intros y x _ Hx. rewrite Hcell by done. eexists. split; [done|]. cbn. lia.
  - intros y x _ Hx. rewrite Hcell by done. eauto.
  - intros y x c Hy Hx Hd. exfalso. by apply Hd, rect_whole.
Qed.

(** ** Runs of the screen *)

Inductive op := Put (c : Z) | Clear | Fg (c : Z) | Bg (c : Z) | Acquire (id : Z) | Update (p id : Z) | Release (id : Z) | Flush | Refresh | Lock | Unlock.

Definition exec (g : config) (o : op) (s : screen) : res screen :=
  match o with
  | Put c => putchar g c s
  | Clear => clear_screen g s
  | Fg c => Ok (set_fg c s)
  | Bg c => Ok (set_bg c s)
  | Acquire id => Ok (try_acquire_progress_bar id s).2
  | Update p id => Ok (update_progress_bar p id s)
  | Release id => Ok (release_progres_bar g id s)
  | Flush => flush g s
  | Refresh => refresh g s
  | Lock => Ok (lock_flushing s)
  | Unlock => unlock_flushing g s
  end.

(** What an operation does to the text. *)
Definition exec_text (g : config) (o : op) (t : term) : term :=
  match o with Put c => t_putchar (characters_per_line g) (characters_per_col g) c t | Clear => blank_term | _ => t end.

(** ASCII characters, no backspace at the beginning of a later row, and percentages. *)
Definition allowed (o : op) (t : term) : Prop :=
  match o with
  | Put c => 0 <= c < 128 /\ (c = 8 -> t_x t = 0 -> t_y t = 0)
  | Acquire id => id <> 0
  | Update p _ => 0 <= p <= 100
  | _ => True
  end.

Definition good (g : config) (s : screen) (t : term) : Prop :=
  (exists r, shown g (at_caret t) s r t) /\ t_ok (characters_per_line g) (characters_per_col g) t /\ 0 <= progress_bar_percentage s <= 100.

Section runs.
Context (g : config) (G : geometry g).

Lemma shown_colors e s r t fg bg : shown g e s r t -> shown g e (set_colors s fg bg) r t.
Proof. by intros []. Qed.
Lemma shown_cursor e s r t v k : shown g e s r t -> shown g e (set_cursor s v k) r t.
Proof. by intros []. Qed.
Lemma shown_lock e s r t v : shown g e s r t -> shown g e (set_lock s v) r t.
Proof. by intros []. Qed.
Lemma shown_progress e s r t p o : shown g e s r t -> o = progress_bar_owner s \/ progress_bar_owner s = 0 -> shown g e (set_progress s p o) r t.
Proof.
  intros [] Ho. split; try done. cbn. intros y x c Hy Hx Hd He Hb. apply sh_drawn0; try done.
  destruct Ho as [->|?]; [done|by left].
Qed.

Lemma shown_release e s r t id : shown g e s r t -> shown g e (release_progres_bar g id s) r t.
Proof using G.
  intros HS. unfold release_progres_bar. destruct (_ =? _); [|done]. cbn [negb]. destruct HS. pose proof (ge_cpl g G). pose proof (ge_cpc g G).
  split; try done; cbn.
  - destruct (Z.ltb_spec 1 (dirty_end_y (dirty s))); lia.
  - intros y x c Hy Hx Hd He _. apply sh_drawn0; try done.
    + intros [? ?]. apply Hd. split; cbn; [|lia]. destruct (Z.ltb_spec 1 (dirty_end_y (dirty s))); lia.
    + right. destruct (decide (y = 0)) as [->|]; [|lia]. destruct Hd. split; cbn; [|lia]. destruct (Z.ltb_spec 1 (dirty_end_y (dirty s))); lia.
Qed.

Lemma flush_good s t : good g s t -> exists s', flush g s = Ok s' /\ good g s' t /\ (lock_flush s = false -> exists r, displayed g s' r t).
Proof using G.
  intros ([r HS] & Ht & Hp). destruct (lock_flush s) eqn:Hk.
  - exists s. unfold flush. rewrite Hk. split; [done|]. split; [|done]. split; [by exists r|done].
  - destruct (flush_ok g G s r t HS Ht Hp Hk) as (s' & E & HS' & Hd & Ep & _). exists s'. split; [done|].
    split; [split; [by exists r|split; [done|lia]]|]. intros _. by exists r.
Qed.

Lemma putchar_keeps c s s' : putchar g c s = Ok s' -> progress_bar_percentage s' = progress_bar_percentage s.
Proof.
  assert (forall s s', scroll g 1 s = Ok s' -> progress_bar_percentage s' = progress_bar_percentage s) as Hscroll.
  { intros a b. unfold scroll. destruct (for_loop _ _ _); [|done..]. cbn. intros [= <-]. done. }
  assert (forall cc s s', put_cell g cc s = Ok s' -> progress_bar_percentage s' = progress_bar_percentage s) as Hput.
  { intros cc a b. unfold put_cell. destruct (store _ _ _); [|done..]. run. destruct (_ =? _); [destruct (_ <=? _)|]; [|intros [= <-]; done..].
    intros E. by rewrite (Hscroll _ _ E). }
  unfold putchar, delchar. destruct (_ =? 8); [destruct (_ && _); [by intros [= ->]|]|destruct (_ =? 10); [destruct (_ <=? _)|]].
  - destruct (put_cell _ _ _) eqn:E; [|done..]. run. intros [= <-]. cbn. by rewrite (Hput _ _ _ E).
  - intros E. by rewrite (Hscroll _ _ E).
  - by intros [= <-].
  - apply Hput.
Qed.

(** Every operation succeeds and does to the text what it should. *)
Lemma screen_exec_ok o s t : good g s t -> allowed o t -> exists s', exec g o s = Ok s' /\ good g s' (exec_text g o t).
Proof using G.
  intros Hgood Ha. pose proof Hgood as ([r HS] & Ht & Hp). destruct o; cbn [exec exec_text allowed] in *.
  - destruct Ha as [Hc Hb]. destruct (putchar_ok g G s r t c HS Hc Hb) as (s' & r' & E & HS'). exists s'. split; [done|].
    split; [by exists r'|]. split; [by apply t_putchar_ok|]. by rewrite (putchar_keeps _ _ _ E).
  - destruct HS. destruct (clear_shown g s r (at_caret blank_term) G) as (s' & E & HS' & _ & Ep & _); try done. exists s'. split; [done|].
    split; [by exists r|]. split; [apply t_ok_blank; apply G|lia].
  - eexists. split; [done|]. split; [exists r; by apply shown_colors|done].
  - eexists. split; [done|]. split; [exists r; by apply shown_colors|done].
  - eexists. split; [done|]. unfold try_acquire_progress_bar, truthy. destruct (Z.eqb_spec (progress_bar_owner s) 0); cbn [negb snd]; [|done].
    split; [exists r; apply shown_progress; auto|done].
  - eexists. split; [done|]. unfold update_progress_bar. destruct (_ =? _); cbn [negb]; [|done].
    split; [exists r; apply shown_progress; auto|done].
  - eexists. split; [done|]. split; [exists r; by apply shown_release|]. split; [done|]. unfold release_progres_bar. by destruct (negb _).
  - destruct (flush_good s t Hgood) as (s' & E & Hg & _). eauto.
  - unfold refresh. destruct (flush_good (set_cursor s (tick s <=? fps g) (tick s)) t) as (s' & -> & ([r' HS'] & ? & ?) & _).
    { split; [exists r; by apply shown_cursor|done]. }
    run. eexists. split; [done|]. split; [exists r'; by apply shown_cursor|done].
  - eexists. split; [done|]. split; [exists r; by apply shown_lock|done].
  - unfold unlock_flushing. destruct (flush_good (set_lock s false) t) as (s' & E & Hg & _); [|by eauto].
    split; [exists r; by apply shown_lock|done].
Qed.

End runs.

(** ** The font *)

Lemma concat_lookup {A} (ls : list (list A)) m i j l : Forall (fun l => length l = m) ls -> ls !! i = Some l -> (j < m)%nat ->
  concat ls !! (i * m + j)%nat = l !! j.
Proof.
  intros HF. revert i. induction HF as [|l0 ls Hl0 HF IH]; intros [|i] Hi Hj; simplify_eq/=.
  - by rewrite lookup_app_l by lia.
  - rewrite lookup_app_r by nia. rewrite <- (IH i Hi Hj). f_equal. nia.
Qed.

(** A pixel of a glyph; the first glyph is empty. *)
Definition glyph_bit (glyphs : list Z) (size c py k : Z) : bool :=
  negb (c =? 0) && Z.testbit (glyphs !!! Z.to_nat (c * size + py)) (7 - k).

Lemma raster_line_length line : length (raster_line line) = 8%nat.
Proof. done. Qed.

Lemma concat_length {A} (ls : list (list A)) m : Forall (fun l => length l = m) ls -> length (concat ls) = (length ls * m)%nat.
Proof. induction 1 as [|l ls Hl HF IH]; cbn; [done|]. rewrite length_app, IH. lia. Qed.

Lemma raster_glyph_length glyph n : length glyph = n -> length (raster_glyph glyph) = (n * 8)%nat.
Proof.
  intros <-. unfold raster_glyph. rewrite (concat_length _ 8), length_map; [done|]. apply Forall_fmap, Forall_true. intros x. apply raster_line_length.
Qed.

Lemma raster_glyphs_length (glyphs : list Z) n : (255 * n <= length glyphs)%nat ->
  Forall (fun l => length l = (n * 8)%nat) (map (fun i => raster_glyph (take n (drop (i * n) glyphs))) (seq 1 254)).
Proof.
  intros Hl. apply Forall_fmap, Forall_forall. intros i Hi%elem_of_seq. cbn. apply raster_glyph_length. rewrite length_take, length_drop. nia.
Qed.

Lemma raster_font_length glyphs size : 0 < size -> 255 * size <= Z.of_nat (length glyphs) ->
  length (raster_font glyphs size) = Z.to_nat (255 * size * 8).
Proof.
  intros Hs Hl. unfold raster_font. rewrite length_app, length_replicate, (concat_length _ (Z.to_nat size * 8)), length_map, length_seq; [lia|].
  apply raster_glyphs_length. lia.
Qed.

Lemma raster_font_bit glyphs size c py k : 0 < size -> 255 * size <= Z.of_nat (length glyphs) -> 0 <= c < 128 -> 0 <= py < size -> 0 <= k < 8 ->
  truthy (raster_font glyphs size !!! Z.to_nat (c * size * 8 + py * 8 + k)) = glyph_bit glyphs size c py k.
Proof.
  intros Hs Hl Hc Hp Hk. rewrite list_lookup_total_alt. unfold raster_font, glyph_bit. set (n := Z.to_nat size).
  destruct (Z.eqb_spec c 0) as [->|Hne].
  - rewrite lookup_app_l, lookup_replicate_2 by (rewrite ?length_replicate; lia). done.
  - assert (Z.to_nat (c * size * 8 + py * 8 + k) = (n * 8 + (Z.to_nat (c - 1) * (n * 8) + (Z.to_nat py * 8 + Z.to_nat k)))%nat) as ->.
    { apply Nat2Z.inj. rewrite !Nat2Z.inj_add, !Nat2Z.inj_mul. unfold n. rewrite !Z2Nat.id by lia. lia. }
    rewrite lookup_app_r by (rewrite length_replicate; apply Nat.le_add_r). rewrite length_replicate, Nat.add_sub'.
    set (glyph := take n (drop (Z.to_nat c * n) glyphs)).
    assert (length glyph = n) as Hg by (unfold glyph; rewrite length_take, length_drop; nia).
    rewrite (concat_lookup _ (n * 8) _ _ (raster_glyph glyph)); [|apply raster_glyphs_length; lia| |lia].
    2:{ rewrite list_lookup_fmap, lookup_seq_lt by lia. unfold glyph. by replace (1 + Z.to_nat (c - 1))%nat with (Z.to_nat c) by lia. }
    destruct (lookup_lt_is_Some_2 glyph (Z.to_nat py)) as [line Hline]; [lia|].
    unfold raster_glyph. rewrite (concat_lookup _ 8 _ _ (raster_line line)); [|apply Forall_fmap, Forall_true; intros; apply raster_line_length|by rewrite list_lookup_fmap, Hline|lia].
    unfold raster_line. rewrite list_lookup_fmap, lookup_seq_lt by lia. cbn [fmap option_fmap option_map default]. rewrite Nat.add_0_l, Z2Nat.id by lia.
    assert (glyphs !!! Z.to_nat (c * size + py) = line) as ->.
    { unfold glyph in Hline. rewrite lookup_take in Hline. rewrite list_lookup_total_alt.
      replace (Z.to_nat (c * size + py)) with (Z.to_nat c * n + Z.to_nat py)%nat by (unfold n; nia).
      destruct (decide _); [|done]. rewrite lookup_drop in Hline. by rewrite Hline. }
    cbn. by destruct (Z.testbit line (7 - k)).
Qed.

(** ** What is written is shown *)

(** Modes and fonts that fit. *)
Record mode_ok (w h pitch size : Z) (glyphs : list Z) : Prop := {
  mo_w : 8 <= w; mo_h : 0 < size <= h; mo_pitch : 4 * w <= pitch; mo_lim : 2 * (w * h) <= 2 ^ 32; mo_px : pitch / 4 * h < 2 ^ 32;
  mo_font : 255 * size <= Z.of_nat (length glyphs)
}.

Lemma init_geometry w h pitch size glyphs rate : mode_ok w h pitch size glyphs ->
  geometry (mkConfig w h (pitch / 4) (w / 8) (h / size) (w *u h) size (raster_font glyphs size) (size / 2) rate).
Proof.
  intros []. assert (0 <= w * h) by (apply Z.mul_nonneg_nonneg; lia).
  split; cbn -[raster_font]; try lia.
  - apply u32_id. unfold is_u32. lia.
  - apply Z.div_str_pos. lia.
  - apply Z.div_str_pos. lia.
  - rewrite Z.mul_comm. apply Z.mul_div_le. lia.
  - rewrite Z.mul_comm. apply Z.mul_div_le. lia.
  - apply Z.div_le_lower_bound; lia.
  - apply raster_font_length; lia.
  - split; [apply Z.div_pos; lia|apply Z.div_le_upper_bound; lia].
Qed.

(** The states of the screen after [init], with the text that has been written. *)
Inductive reach (g : config) (s0 : screen) : screen -> term -> Prop :=
| reach_init : reach g s0 s0 blank_term
| reach_step o s t s' : reach g s0 s t -> allowed o t -> exec g o s = Ok s' -> reach g s0 s' (exec_text g o t).

Lemma init_good v w h pitch size glyphs rate px cells g s0 :
  mode_ok w h pitch size glyphs -> video_mode v = Ok (w, h, pitch) -> Z.of_nat (length px) = pitch / 4 * h -> Z.of_nat (length cells) = w * h ->
  init v size glyphs rate (Some px) cells = Ok (g, s0) ->
  geometry g /\ good g s0 blank_term /\ characterSize g = size /\ n_row g = pitch / 4 /\ r_font g = raster_font glyphs size /\
  characters_per_line g = w / 8 /\ characters_per_col g = h / size.
Proof.
  intros Hm Hv Hpx Hc. unfold init. rewrite Hv. run. pose proof (init_geometry w h pitch size glyphs rate Hm) as G. set (g0 := mkConfig _ _ _ _ _ _ _ _ _ _) in *.
  set (s := mkScreen _ _ _ _ _ _ _ _ _ _ _ _ _). destruct (clear_shown g0 s 0 (at_caret blank_term) G) as (s' & -> & HS & _ & Ep & _); try done.
  { pose proof (ge_h g0 G). lia. }
  run. intros [= <- <-]. split; [done|]. split; [|done]. split; [by exists 0|]. split; [apply t_ok_blank; apply G|]. rewrite Ep. cbn. lia.
Qed.

Lemma reach_good g s0 s t : geometry g -> good g s0 blank_term -> reach g s0 s t -> good g s t.
Proof.
  intros G H0. induction 1 as [|o s t s' _ IH Ha E]; [done|]. destruct (screen_exec_ok g G o s t IH Ha) as (s'' & E' & Hg). congruence.
Qed.

(** The screen is a terminal.  After [init] and any sequence of printing, clearing, colour and progress-bar calls, refreshes
    and flushes, every further call succeeds, and a flush puts on the screen, for every character position apart from the one of
    the cursor and from the row of an active progress bar, the glyph of the character that a scrolling terminal has there. *)
Theorem text_is_shown v w h pitch size glyphs rate px cells g s0 s t :
  mode_ok w h pitch size glyphs -> video_mode v = Ok (w, h, pitch) -> Z.of_nat (length px) = pitch / 4 * h -> Z.of_nat (length cells) = w * h ->
  init v size glyphs rate (Some px) cells = Ok (g, s0) -> reach g s0 s t ->
  (forall o, allowed o t -> exists s', exec g o s = Ok s') /\
  (lock_flush s = false -> exists s', flush g s = Ok s' /\
    forall y x, 0 <= y < h / size -> 0 <= x < w / 8 -> (y, x) <> (caret_y s, caret_x s) -> progress_bar_owner s' = 0 \/ 0 < y ->
    exists c fg bg, norm c = chr t y x /\ forall py k, 0 <= py < size -> 0 <= k < 8 ->
      fb s' !! Z.to_nat ((y * size + py) * (pitch / 4) + x * 8 + k) = Some (if glyph_bit glyphs size c py k then fg else bg)).
Proof.
  intros Hm Hv Hpx Hc Hi Hr. destruct (init_good _ _ _ _ _ _ _ _ _ _ _ Hm Hv Hpx Hc Hi) as (G & H0 & Es & En & Ef & El & Ec).
  pose proof (reach_good _ _ _ _ G H0 Hr) as Hg. split.
  - intros o Ha. destruct (screen_exec_ok g G o s t Hg Ha) as (s' & E & _). eauto.
  - intros Hlk. destruct Hg as ([r HS] & Ht & Hp). destruct (flush_ok g G s r t HS Ht Hp Hlk) as (s' & E & HS' & Hd & _).
    exists s'. split; [done|]. intros y x Hy Hx Hne Hb. destruct HS.
    destruct (Hd y x) as (c & Hcell & Hn & Hdr); [lia|lia|intros [-> ->]; apply Hne; congruence|done|].
    destruct (sh_text _ _ _ _ _ HS' y x) as (c' & Hcell' & _ & Ha); [lia|lia|]. assert (c' = c) as -> by congruence.
    exists (ch c), (cfg c), (cbg c). split; [done|]. intros py k Hpy Hk. specialize (Hdr py k). rewrite Es, En in Hdr. rewrite Hdr by lia.
    unfold dot. rewrite Ef, Es, raster_font_bit by (done || apply Hm). done.
Qed.

(** ** A small screen: two rows of two characters *)

Definition small_font : list Z := map (fun i => Z.of_nat i mod 256) (seq 0 510).
Definition small_init : res (config * screen) :=
  init (Vbe (16, 4, 64)) 2 small_font 30 (Some (replicate 64 7)) (replicate 64 (mkCell 0 0 0)).
Definition run_ops (g : config) (os : list op) (s : screen) : res screen := foldl (fun m o => s ← m; exec g o s) (Ok s) os.
(** The characters of the visible cells, row by row. *)
Definition visible_text (g : config) (s : screen) : list (option Z) :=
  concat (map (fun y => map (fun x => ch <$> (fb_shadow s !! Z.to_nat (wrap g (shadow_start s + Z.of_nat y * fb_width g + Z.of_nat x))))
    (seq 0 (Z.to_nat (characters_per_line g)))) (seq 0 (Z.to_nat (characters_per_col g)))).

Lemma small_mode_ok : mode_ok 16 4 64 2 small_font.
Proof. split; try lia; vm_compute; done. Qed.

Lemma exec_reach g s0 os : forall s t, reach g s0 s t ->
  (fix ok os t := match os with [] => True | o :: os => allowed o t /\ ok os (exec_text g o t) end) os t ->
  geometry g -> good g s t -> exists s', run_ops g os s = Ok s' /\ reach g s0 s' (foldl (fun t o => exec_text g o t) t os).
Proof.
  unfold run_ops. induction os as [|o os IH]; intros s t Hr Ha G Hg; [by exists s|]. destruct Ha as [Ha Hos].
  destruct (screen_exec_ok g G o s t Hg Ha) as (s' & E & Hg'). cbn [foldl]. cbn [mbind res_bind]. rewrite E.
  apply IH; try done. by eapply reach_step.
Qed.

Lemma small_run : exists g s0 s t, small_init = Ok (g, s0) /\ run_ops g [Put 65; Put 10; Put 66; Put 10; Put 67] s0 = Ok s /\ reach g s0 s t /\
  lock_flush s = false /\ chr t 0 0 = 66 /\ caret_y s = 1 /\ progress_bar_owner s = 0.
Proof.
  destruct small_init as [[g s0]| | |] eqn:Ei; [|vm_compute in Ei; discriminate..].
  destruct (init_good (Vbe (16, 4, 64)) 16 4 64 2 small_font 30 (replicate 64 7) (replicate 64 (mkCell 0 0 0)) g s0) as (G & Hg & _ & _ & _ & El & Ec);
    [apply small_mode_ok|done|done|done|exact Ei|].
  destruct (exec_reach g s0 [Put 65; Put 10; Put 66; Put 10; Put 67] s0 blank_term) as (s & Er & Hr); [constructor|cbn; lia|done|done|].
  exists g, s0, s. eexists. split; [done|]. split; [done|]. split; [exact Hr|].
  assert (('(g, s) ← small_init; s ← run_ops g [Put 65; Put 10; Put 66; Put 10; Put 67] s; Ok (lock_flush s, caret_y s, progress_bar_owner s)) = Ok (false, 1, 0)) as E
    by (vm_compute; reflexivity).
  rewrite Ei in E. run_in E. rewrite Er in E. run_in E. injection E as E1 E2 E3. split; [exact E1|]. split; [|exact (conj E2 E3)].
  cbn [foldl exec_text]. rewrite El, Ec. reflexivity.
Qed.

Lemma text_is_shown_witness : exists g s0 s s' fg bg,
  small_init = Ok (g, s0) /\ run_ops g [Put 65; Put 10; Put 66; Put 10; Put 67] s0 = Ok s /\ flush g s = Ok s' /\
  fb s' !! 0%nat = Some (if glyph_bit small_font 2 66 0 0 then fg else bg).
Proof.
  destruct small_run as (g & s0 & s & t & Ei & Er & Hr & Hl & Ht & Hy & Ho).
  destruct (text_is_shown (Vbe (16, 4, 64)) 16 4 64 2 small_font 30 (replicate 64 7) (replicate 64 (mkCell 0 0 0)) g s0 s t
    small_mode_ok eq_refl eq_refl eq_refl Ei Hr) as [_ Hf]. destruct (Hf Hl) as (s' & Es & Hpx).
  assert (progress_bar_owner s' = 0) as Ho'.
  { revert Es. unfold flush. rewrite Hl. destruct (if show_cursor s then _ else _); [|done..]. run. destruct (draw_dirty _ _); [|done..]. run.
    destruct (store _ _ _); [|done..]. run. cbn [progress_bar_owner set_dirty set_shadow set_fb]. rewrite Ho. cbn. intros [= <-]. done. }
  destruct (Hpx 0 0 (conj (Z.le_refl 0) eq_refl) (conj (Z.le_refl 0) eq_refl) ltac:(rewrite Hy; discriminate) (or_introl Ho')) as (c & fg & bg & Hn & Hd).
  exists g, s0, s, s', fg, bg. split; [done|]. split; [done|]. split; [done|].
  assert (c = 66) as -> by (rewrite Ht in Hn; unfold norm in Hn; destruct (c =? 0); lia). exact (Hd 0 0 ltac:(lia) ltac:(lia)).
Defined.

(** A byte above 127 is printed as the replacement character, whose cell holds a negative number, and drawing it reads in front of
    the rasterised font. *)
Theorem non_ascii_faults :
  ('(g, s) ← small_init; s ← write g [200] s; Ok (visible_text g s)) = Ok [Some (-37); Some 0; Some 0; Some 0] /\
  ('(g, s) ← small_init; s ← write g [200] s; flush g s) = Fault.
Proof. split; vm_compute; reflexivity. Qed.

(** A backspace at the beginning of a row puts the caret outside of the screen, and the next character is lost. *)
Theorem backspace_leaves_screen :
  ('(g, s) ← small_init; s ← write g [65; 10; 8] s; Ok (caret_y s, caret_x s)) = Ok (1, UINT_MAX) /\
  ('(g, s) ← small_init; s ← write g [65; 10; 8; 66; 67] s; Ok (visible_text g s)) = Ok [Some 65; Some 0; Some 67; Some 0].
Proof. split; vm_compute; reflexivity. Qed.

End Fb.
