(* ===== verification/Printf.v ===== *)
(** * Formatted output ([core/fb.cpp], from [k__int_str] on; [libc/kctype.cpp])

    The conversion of integers into a buffer, the interpreter of format strings, and the functions that print to the screen or
    into a buffer.  Format strings and arguments are lists, a format string without its final zero: reading behind it is a fault,
    and so is an argument of another size than the one the format asks for.  Floating-point numbers are those of the
    specification of IEEE binary64.  The theorems show what is printed for integers of every base, width and flag, and for
    formats made of literal characters and conversions. *)

From Stdlib Require Floats.SpecFloat Znumtheory.
From stdpp Require Import base tactics numbers list sets.
From S2P Require Import Prelude Fb.
Open Scope Z_scope.

Module Printf.

(** ** Character classes *)
Definition isdigit (c : Z) : bool := (48 <=? c) && (c <=? 57).
Definition isupper (c : Z) : bool := (65 <=? c) && (c <=? 90).
Definition islower (c : Z) : bool := (97 <=? c) && (c <=? 122).
Definition isalpha (c : Z) : bool := isupper c || islower c.
Definition isalnum (c : Z) : bool := isalpha c || isdigit c.

(** ** Strings in buffers *)

(** The characters in front of the first zero; a buffer without one is read behind its end. *)
Fixpoint cstring (b : list Z) : res (list Z) :=
  match b with
  | [] => Fault
  | c :: b => if c =? 0 then Ok [] else s ← cstring b; Ok (c :: s)
  end.
Definition strlen (b : list Z) : res Z := s ← cstring b; Ok (Z.of_nat (length s)).

(** A string with its zero is written at an index. *)
Definition write_string (b : list Z) (i : Z) (s : list Z) : res (list Z) :=
  for_loop (length s + 1) (fun k b => Fb.store b (i + Z.of_nat k) (nth k s 0)) b.
Definition strcpy (b : list Z) (src : list Z) : res (list Z) := s ← cstring src; write_string b 0 s.
Definition strcat (b : list Z) (src : list Z) : res (list Z) := l ← strlen b; s ← cstring src; write_string b l s.

(** ** Integers *)

Definition INTMAX_MIN : Z := - 2 ^ 63.

Definition digits_upper : list Z := [48; 49; 50; 51; 52; 53; 54; 55; 56; 57; 65; 66; 67; 68; 69; 70].
Definition digits_lower : list Z := [48; 49; 50; 51; 52; 53; 54; 55; 56; 57; 97; 98; 99; 100; 101; 102].
(** The table of digits: 32 bytes. *)
Definition digit_table (base : Z) : list Z :=
  if base =? 16 then digits_upper ++ replicate 16 0
  else if base =? 17 then digits_lower ++ replicate 16 0
  else take 10 digits_upper ++ replicate 22 0.

(** [do { ++p; shifter = shifter / base; } while (shifter);] *)
Fixpoint count_digits (fuel : nat) (base shifter p : Z) : res Z :=
  match fuel with
  | O => NoFuel
  | S fuel => let p := p + 1 in let shifter := shifter / base in if truthy shifter then count_digits fuel base shifter p else Ok p
  end.

(** [do { *--p = digit[i % base]; i = i / base; } while (i);] *)
Fixpoint write_digits (fuel : nat) (digit : list Z) (base i p : Z) (b : list Z) : res (list Z) :=
  match fuel with
  | O => NoFuel
  | S fuel =>
      let p := p - 1 in
      d ← Fb.fetch digit (i mod base);
      b ← Fb.store b p d;
      let i := i / base in
      if truthy i then write_digits fuel digit base i p b else Ok b
  end.

(** [while (padding--) b[strlen(b)] = c;] *)
Definition pad (padding c : Z) (b : list Z) : res (list Z) :=
  for_loop (Z.to_nat padding) (fun _ b => l ← strlen b; Fb.store b l c) b.

(** Numbers of 63 bits have at most 63 digits. *)
Definition digit_fuel : nat := 64.

(** The sign and the digits. *)
Definition write_number (i : Z) (b digit : list Z) (base : Z) (plusSignIfNeeded spaceSignIfNeeded : bool) : res (list Z) :=
  if i =? INTMAX_MIN then Fault
  else
    '(b, p) ← (if i <? 0 then b ← Fb.store b 0 45; Ok (b, 1)
               else if plusSignIfNeeded then b ← Fb.store b 0 43; Ok (b, 1)
               else if spaceSignIfNeeded then b ← Fb.store b 0 32; Ok (b, 1)
               else Ok (b, 0));
    let i := Z.abs i in
    p ← count_digits digit_fuel base i p;
    b ← Fb.store b p 0;
    write_digits digit_fuel digit base i p b.

Definition k__int_str (i : Z) (b : list Z) (base : Z) (plusSignIfNeeded spaceSignIfNeeded : bool) (paddingNo : Z) (justify zeroPad : bool)
  : res (list Z) :=
  let digit := digit_table base in
  let base := if base =? 17 then 16 else base in
  b ← write_number i b digit base plusSignIfNeeded spaceSignIfNeeded;
  l ← strlen b;
  let padding := Z.max 0 (paddingNo - l) in
  let c := if zeroPad then 48 else 32 in
  if justify then pad padding c b
  else
    a ← pad padding c (replicate 256 0);
    a ← strcat a b;
    strcpy b a.

(** ** Arguments *)

Abbreviation double := SpecFloat.spec_float.

(** Arguments as the caller pushes them: words of 32 bits, pairs of them, strings and doubles. *)
Inductive arg := AWord (w : Z) | AQuad (q : Z) | AStr (s : list Z) | ADouble (d : double).

Definition s8 (x : Z) : Z := if u8 x <? 128 then u8 x else u8 x - 256.
Definition s16 (x : Z) : Z := if u16 x <? 32768 then u16 x else u16 x - 65536.
Definition s32 (x : Z) : Z := if u32 x <? 2147483648 then u32 x else u32 x - 4294967296.
Definition s64 (x : Z) : Z := if x mod 2 ^ 64 <? 2 ^ 63 then x mod 2 ^ 64 else x mod 2 ^ 64 - 2 ^ 64.

Definition va_word (l : list arg) : res (Z * list arg) := match l with AWord w :: l => Ok (u32 w, l) | _ => Fault end.
Definition va_quad (l : list arg) : res (Z * list arg) := match l with AQuad q :: l => Ok (q mod 2 ^ 64, l) | _ => Fault end.
Definition va_str (l : list arg) : res (list Z * list arg) := match l with AStr s :: l => Ok (s, l) | _ => Fault end.
Definition va_double (l : list arg) : res (double * list arg) := match l with ADouble d :: l => Ok (d, l) | _ => Fault end.

(** ** Doubles *)
Definition prec : Z := 53.
Definition emax : Z := 1024.
Definition of_Z (z : Z) : double := SpecFloat.binary_normalize prec emax z 0 false.
Definition ten : double := of_Z 10.
Definition half : double := SpecFloat.binary_normalize prec emax 1 (-1) false.
(** Rounding towards zero; undefined outside of the range of the target. *)
Definition to_int (lo hi : Z) (d : double) : res Z :=
  match d with
  | SpecFloat.S754_zero _ => Ok 0
  | SpecFloat.S754_finite sgn m e =>
      let v := if 0 <=? e then Zpos m * 2 ^ e else Zpos m / 2 ^ (- e) in
      let v := if sgn then - v else v in
      if (lo <=? v) && (v <=? hi) then Ok v else Fault
  | _ => Fault
  end.
Definition to_intmax := to_int (- 2 ^ 63) (2 ^ 63 - 1).
Definition to_int32 := to_int (- 2 ^ 31) (2 ^ 31 - 1).

(** ** Format strings *)

(** What is read after a percent sign. *)
Record flags := mkFlags { leftJustify : bool; plusSign : bool; altForm : bool; spaceNoSign : bool; zeroPad : bool }.
Definition no_flags : flags := mkFlags false false false false false.

(** [format[i]] and [++i]. *)
Definition cur (f : list Z) : Z := default 0 (head f).
Definition next (f : list Z) : res (list Z) := match f with [] => Fault | _ :: f => Ok f end.

Fixpoint read_flags (f : list Z) (x : flags) : flags * list Z :=
  match f with
  | [] => (x, [])
  | c :: f' =>
      if c =? 45 then read_flags f' (mkFlags true (plusSign x) (altForm x) (spaceNoSign x) (zeroPad x))
      else if c =? 43 then read_flags f' (mkFlags (leftJustify x) true (altForm x) (spaceNoSign x) (zeroPad x))
      else if c =? 35 then read_flags f' (mkFlags (leftJustify x) (plusSign x) true (spaceNoSign x) (zeroPad x))
      else if c =? 32 then read_flags f' (mkFlags (leftJustify x) (plusSign x) (altForm x) true (zeroPad x))
      else if c =? 48 then read_flags f' (mkFlags (leftJustify x) (plusSign x) (altForm x) (spaceNoSign x) true)
      else (x, f)
  end.

Fixpoint read_number (f : list Z) (n : Z) : Z * list Z :=
  match f with
  | c :: f' => if isdigit c then read_number f' (n * 10 + (c - 48)) else (n, f)
  | [] => (n, [])
  end.

(** A number or, behind it, a star that takes the next argument. *)
Definition read_spec (f : list Z) (va : list arg) : res (Z * list Z * list arg) :=
  let '(n, f) := read_number f 0 in
  if cur f =? 42 then '(w, va) ← va_word va; f ← next f; Ok (s32 w, f, va) else Ok (n, f, va).

Definition read_prec (f : list Z) (va : list arg) : res (Z * list Z * list arg) :=
  if cur f =? 46 then f ← next f; read_spec f va else Ok (6, f, va).

(** The length: 0, or one of h, l, j, z, t, L, with H for hh and q for ll. *)
Definition read_length (f : list Z) : res (Z * list Z) :=
  let c := cur f in
  if existsb (Z.eqb c) [104; 108; 106; 122; 116; 76] then
    f ← next f;
    if cur f =? 104 then Ok (72, f)
    else if cur f =? 108 then f ← next f; Ok (113, f)
    else Ok (c, f)
  else Ok (0, f).

(** The argument of an unsigned and of a signed conversion as an [intmax_t]; nothing for other lengths. *)
Definition arg_unsigned (len : Z) (va : list arg) : res (option (Z * list arg)) :=
  if len =? 0 then '(w, va) ← va_word va; Ok (Some (w, va))
  else if len =? 72 then '(w, va) ← va_word va; Ok (Some (u8 w, va))
  else if len =? 104 then '(w, va) ← va_word va; Ok (Some (u16 w, va))
  else if len =? 108 then '(w, va) ← va_word va; Ok (Some (w, va))
  else if len =? 113 then '(q, va) ← va_quad va; Ok (Some (s64 q, va))
  else if len =? 106 then '(q, va) ← va_quad va; Ok (Some (s64 q, va))
  else if len =? 122 then '(w, va) ← va_word va; Ok (Some (w, va))
  else if len =? 116 then '(w, va) ← va_word va; Ok (Some (s32 w, va))
  else Ok None.

Definition arg_signed (len : Z) (va : list arg) : res (option (Z * list arg)) :=
  if len =? 0 then '(w, va) ← va_word va; Ok (Some (s32 w, va))
  else if len =? 72 then '(w, va) ← va_word va; Ok (Some (s8 w, va))
  else if len =? 104 then '(w, va) ← va_word va; Ok (Some (s16 w, va))
  else if len =? 108 then '(w, va) ← va_word va; Ok (Some (s32 w, va))
  else if len =? 113 then '(q, va) ← va_quad va; Ok (Some (s64 q, va))
  else if len =? 106 then '(q, va) ← va_quad va; Ok (Some (s64 q, va))
  else if len =? 122 then '(w, va) ← va_word va; Ok (Some (w, va))
  else if len =? 116 then '(w, va) ← va_word va; Ok (Some (s32 w, va))
  else Ok None.

Section kvprintf.
(** Where the characters go, as bytes. *)
Context {S : Type} (output_char : Z -> S -> res S).

(** The characters printed so far, the remaining arguments, and the stores of [%n]: address, length and value. *)
Record pstate := mkP { chars : Z; va : list arg; out : S; stored : list (Z * Z * Z) }.

Definition output_char_func (c : Z) (p : pstate) : res pstate :=
  o ← output_char c (out p); Ok (mkP (chars p + 1) (va p) o (stored p)).
Fixpoint output_string_func (s : list Z) (p : pstate) : res pstate :=
  match s with [] => Ok p | c :: s => p ← output_char_func c p; output_string_func s p end.
Definition output_buffer (b : list Z) (p : pstate) : res pstate := s ← cstring b; output_string_func s p.
Definition set_va (p : pstate) (l : list arg) : pstate := mkP (chars p) l (out p) (stored p).

Definition zeroes : list Z := replicate 256 0.

(** The cases u, d and i of the switch. *)
Definition print_int (read : Z -> list arg -> res (option (Z * list arg))) (len base : Z) (x : flags) (lengthSpec : Z) (p : pstate)
  : res pstate :=
  o ← read len (va p);
  match o with
  | None => Ok p
  | Some (i, l) =>
      b ← k__int_str i zeroes base (plusSign x) (spaceNoSign x) lengthSpec (leftJustify x) (zeroPad x);
      output_buffer b (set_va p l)
  end.

(** [while (emode && floating >= 10) { floating /= 10; ++expo; }]; a finite double is below ten after 308 rounds. *)
Fixpoint scale (fuel : nat) (d : double) (expo : Z) : res (double * Z) :=
  if SpecFloat.SFleb ten d then
    match fuel with O => NoFuel | Datatypes.S fuel => scale fuel (SpecFloat.SFdiv prec emax d ten) (expo + 1) end
  else Ok (d, expo).

(** The case of the floating-point conversions; the result has the exponent and the buffer. *)
Definition print_double (emode : bool) (base : Z) (x : flags) (lengthSpec precSpec : Z) (p : pstate) : res (pstate * Z * list Z) :=
  '(d, l) ← va_double (va p);
  '(d, expo) ← (if emode then scale 400 d 0 else Ok (d, 0));
  let form := lengthSpec - precSpec - expo - (if truthy precSpec || altForm x then 1 else 0) in
  let form := if emode then form - 4 else form in
  let form := Z.max 0 form in
  i ← to_intmax d;
  b ← k__int_str i zeroes base (plusSign x) (spaceNoSign x) form (leftJustify x) (zeroPad x);
  p ← output_buffer b (set_va p l);
  n ← to_int32 d;
  let d := SpecFloat.SFsub prec emax d (of_Z n) in
  d ← for_loop (Z.to_nat precSpec) (fun _ d => Ok (SpecFloat.SFmul prec emax d ten)) d;
  decPlaces ← to_intmax (SpecFloat.SFadd prec emax d half);
  '(p, b) ← (if truthy precSpec then
         p ← output_char_func 46 p;
         b ← k__int_str decPlaces b 10 false false 0 false false;
         b ← Fb.store b precSpec 0;
         p ← output_buffer b p; Ok (p, b)
       else p ← (if altForm x then output_char_func 46 p else Ok p); Ok (p, b));
  Ok (p, expo, b).

(** The case n: the pointer is a word. *)
Definition store_count (len : Z) (p : pstate) : res pstate :=
  if existsb (Z.eqb len) [72; 104; 0; 108; 113; 106; 122; 116] then
    '(a, l) ← va_word (va p); Ok (mkP (chars p) l (out p) (stored p ++ [(a, len, chars p)]))
  else Ok p.

(** One conversion: [specifier], [length] and the numbers are known. *)
Definition print_conversion (specifier len : Z) (x : flags) (lengthSpec precSpec : Z) (p : pstate) : res pstate :=
  let '(base, spec, len, prefix) :=
    if specifier =? 111 then (8, 117, len, if altForm x then [48] else [])
    else if specifier =? 112 then (16, 117, 122, [])
    else (10, specifier, len, []) in
  p ← output_string_func prefix p;
  if (spec =? 88) || (spec =? 120) then
    let base := if spec =? 88 then 16 else base in
    let base := if base =? 10 then 17 else base in
    p ← (if altForm x then output_string_func [48; 120] p else Ok p);
    print_int arg_unsigned len base x lengthSpec p
  else if spec =? 117 then print_int arg_unsigned len base x lengthSpec p
  else if (spec =? 100) || (spec =? 105) then print_int arg_signed len base x lengthSpec p
  else if spec =? 99 then '(w, l) ← va_word (va p); output_char_func (u8 w) (set_va p l)
  else if spec =? 115 then '(s, l) ← va_str (va p); output_string_func s (set_va p l)
  else if spec =? 110 then store_count len p
  else if existsb (Z.eqb spec) [101; 69; 102; 70; 103; 71] then
    let emode := (spec =? 101) || (spec =? 69) in
    '(p, expo, b) ← print_double emode base x lengthSpec precSpec p;
    if emode then
      p ← output_string_func [spec; 43] p;
      b ← k__int_str expo b 10 false false 2 false true;
      output_buffer b p
    else Ok p
  else Ok p.

(** One round of the loop over the format, with the rest of it behind the increment of the loop. *)
Definition print_round (f : list Z) (p : pstate) : res (pstate * list Z) :=
  if cur f =? 37 then
    f ← next f;
    let '(x, f) := read_flags f no_flags in
    '(lengthSpec, f, l) ← read_spec f (va p);
    '(precSpec, f, l) ← read_prec f l;
    '(len, f) ← read_length f;
    let specifier := cur f in
    p ← print_conversion specifier len x lengthSpec precSpec (set_va p l);
    f ← next f; Ok (p, f)
  else p ← output_char_func (cur f) p; f ← next f; Ok (p, f).

(** The rounds take a character each, so the length of the format is enough fuel. *)
Fixpoint print_loop (fuel : nat) (f : list Z) (p : pstate) : res pstate :=
  if cur f =? 0 then Ok p
  else match fuel with
       | O => NoFuel
       | Datatypes.S fuel => '(p, f) ← print_round f p; print_loop fuel f p
       end.

Definition kvprintf (format : list Z) (list_ : list arg) (s : S) : res (Z * S * list (Z * Z * Z)) :=
  p ← print_loop (length format) format (mkP 0 list_ s []);
  Ok (chars p, out p, stored p).

End kvprintf.
Arguments pstate : clear implicits.

(** ** Printing to the screen and into a buffer *)

Definition kprintf_output (g : Fb.config) (c : Z) (s : Fb.screen) : res Fb.screen := Fb.putchar g (Fb.widen c) s.
Definition printf (g : Fb.config) (format : list Z) (l : list arg) (s : Fb.screen) : res (Z * Fb.screen) :=
  '(n, s, _) ← kvprintf (kprintf_output g) format l s; Ok (n, s).

(** The buffer and the place of [ksprintf_buf] in it. *)
Definition ksprintf_output (c : Z) (bp : list Z * Z) : res (list Z * Z) := b ← Fb.store bp.1 bp.2 c; Ok (b, bp.2 + 1).
Definition sprintf (str format : list Z) (l : list arg) : res (Z * list Z) :=
  '(n, (b, _), _) ← kvprintf ksprintf_output format l (str, 0); Ok (n, b).

(** A message between a decorator and a second one on the same line. *)
Definition msg_printf (decorator closing : Fb.screen -> res Fb.screen) (g : Fb.config) (format : list Z) (l : list arg) (s : Fb.screen)
  : res (Z * Fb.screen) :=
  s ← decorator s; s ← Fb.putchar g 32 s; '(n, s) ← printf g format l s; s ← Fb.putchar g 32 s; s ← closing s; Ok (n, s).
Definition printf_error g := msg_printf (Fb.error_decorator g) (Fb.error g) g.
Definition printf_info g := msg_printf (Fb.info_decorator g) (Fb.info g) g.
Definition printf_warn g := msg_printf (Fb.warn_decorator g) (Fb.warn g) g.

(** The last message, up to the point where the processor halts. *)
Definition press_any_key : list Z :=
  [80; 114; 101; 115; 115; 32; 97; 110; 121; 32; 107; 101; 121; 32; 116; 111; 32; 99; 111; 110; 116; 105; 110; 117; 101; 46; 46; 46].
Definition irrecoverable_error (g : Fb.config) (format : list Z) (l : list arg) (s : Fb.screen) : res Fb.screen :=
  '(_, s) ← msg_printf (Fb.fatal_error_decorator g) (Fb.fatal_error g) g format l s;
  s ← Fb.write g press_any_key s;
  Fb.flush g s.

(** ** Numerals *)

(** The digits of a number, the most significant one first. *)
Fixpoint numeral (fuel : nat) (base i : Z) : list Z :=
  match fuel with
  | O => []
  | S fuel => (if truthy (i / base) then numeral fuel base (i / base) else []) ++ [i mod base]
  end.
Definition value (base : Z) (ds : list Z) : Z := foldl (fun a d => a * base + d) 0 ds.

Lemma numeral_length fuel base i : (length (numeral fuel base i) <= fuel)%nat.
Proof.
  revert i. induction fuel as [|fuel IH]; intros i; cbn; [done|]. rewrite length_app. cbn. destruct (truthy _); [pose proof (IH (i / base)); lia|cbn; lia].
Qed.

Lemma half_bound fuel base i : 2 <= base -> 0 <= i < 2 ^ Z.of_nat (S fuel) -> 0 <= i / base < 2 ^ Z.of_nat fuel.
Proof.
  intros Hb Hi. rewrite Nat2Z.inj_succ, Z.pow_succ_r in Hi by lia. split; [apply Z.div_pos; lia|]. apply Z.div_lt_upper_bound; [lia|]. nia.
Qed.

Lemma numeral_digits fuel base i : 2 <= base -> Forall (fun d => 0 <= d < base) (numeral fuel base i).
Proof.
  intros Hb. revert i. induction fuel as [|fuel IH]; intros i; cbn; [constructor|]. apply Forall_app. split; [by destruct (truthy _); [apply IH|]|].
  repeat constructor; apply Z.mod_pos_bound; lia.
Qed.

Lemma value_snoc base ds d : value base (ds ++ [d]) = value base ds * base + d.
Proof. unfold value. by rewrite foldl_app. Qed.

Lemma zero_of_truthy x : truthy x = false -> x = 0.
Proof. unfold truthy. destruct (Z.eqb_spec x 0); done. Qed.
Lemma nonzero_of_truthy x : truthy x = true -> x <> 0.
Proof. unfold truthy. destruct (Z.eqb_spec x 0); done. Qed.

Lemma value_numeral fuel base i : 2 <= base -> 0 <= i < 2 ^ Z.of_nat fuel -> value base (numeral fuel base i) = i.
Proof.
  intros Hb. revert i. induction fuel as [|fuel IH]; intros i Hi; cbn [numeral]; [cbn in *; lia|]. rewrite value_snoc.
  pose proof (half_bound _ _ _ Hb Hi). pose proof (Z.div_mod i base ltac:(lia)). destruct (truthy (i / base)) eqn:T.
  - rewrite IH by done. lia.
  - apply zero_of_truthy in T. cbn. lia.
Qed.

(** The first digit of a number that is not zero is not zero. *)
Lemma numeral_head fuel base i : 2 <= base -> 0 < i < 2 ^ Z.of_nat fuel -> exists d ds, numeral fuel base i = d :: ds /\ d <> 0.
Proof.
  intros Hb. revert i. induction fuel as [|fuel IH]; intros i Hi; cbn [numeral]; [cbn in *; lia|].
  pose proof (half_bound fuel base i Hb ltac:(lia)). pose proof (Z.div_mod i base ltac:(lia)). destruct (truthy (i / base)) eqn:T.
  - apply nonzero_of_truthy in T. destruct (IH (i / base) ltac:(lia)) as (d & ds & -> & Hd). by eexists d, _.
  - apply zero_of_truthy in T. exists (i mod base), []. split; [done|]. lia.
Qed.

Lemma count_digits_ok fuel base i p : 2 <= base -> 0 <= i < 2 ^ Z.of_nat fuel -> (0 < fuel)%nat ->
  count_digits fuel base i p = Ok (p + Z.of_nat (length (numeral fuel base i))).
Proof.
  intros Hb. revert i p. induction fuel as [|fuel IH]; intros i p Hi Hf; [lia|]. cbn [count_digits numeral]. rewrite length_app.
  pose proof (half_bound _ _ _ Hb Hi) as Hh. destruct (truthy (i / base)) eqn:T; [|f_equal; cbn; lia].
  apply nonzero_of_truthy in T. destruct fuel; [cbn in Hh; lia|]. rewrite IH by (done || lia). f_equal. cbn [length]. lia.
Qed.

Lemma write_digits_ok digit dig fuel base : 2 <= base -> (forall d, 0 <= d < base -> Fb.fetch digit d = Ok (dig d)) ->
  forall i pre junk suf, 0 <= i < 2 ^ Z.of_nat fuel -> (0 < fuel)%nat -> length junk = length (numeral fuel base i) ->
  write_digits fuel digit base i (Z.of_nat (length pre + length junk)) (pre ++ junk ++ suf) = Ok (pre ++ map dig (numeral fuel base i) ++ suf).
Proof.
  intros Hb Hd. induction fuel as [|fuel IH]; intros i pre junk suf Hi Hf Hj; [lia|]. cbn [write_digits numeral] in *.
  rewrite Hd by (apply Z.mod_pos_bound; lia). run. rewrite length_app in Hj. cbn [length] in Hj.
  destruct junk as [|x junk' _] using rev_ind; [cbn in Hj; lia|]. rewrite length_app in *. cbn [length] in *.
  rewrite Fb.store_in_range by (rewrite !length_app; cbn; lia). run.
  replace (Z.to_nat (Z.of_nat (length pre + (length junk' + 1)) - 1)) with (length (pre ++ junk')) by (rewrite length_app; lia).
  rewrite <- app_assoc, app_assoc. cbn [app]. rewrite insert_app_cons. pose proof (half_bound _ _ _ Hb Hi) as Hh.
  destruct (truthy (i / base)) eqn:T.
  - apply nonzero_of_truthy in T. destruct fuel; [cbn in Hh; lia|].
    replace (Z.of_nat (length pre + (length junk' + 1)) - 1) with (Z.of_nat (length pre + length junk')) by lia.
    rewrite <- app_assoc. rewrite IH by (done || lia). by rewrite map_app, <- app_assoc.
  - assert (junk' = []) as -> by (apply nil_length_inv; cbn in Hj; lia). by rewrite app_nil_r.
Qed.

(** ** Buffers of 256 bytes that hold a string *)

Definition zstr (s : list Z) : list Z := s ++ replicate (256 - length s) 0.

Lemma zstr_length s : (length s <= 256)%nat -> length (zstr s) = 256%nat.
Proof. intros Hs. unfold zstr. rewrite length_app, length_replicate. lia. Qed.

Lemma zstr_split s : (length s < 256)%nat -> zstr s = s ++ 0 :: replicate (255 - length s) 0.
Proof. intros Hs. unfold zstr. by replace (256 - length s)%nat with (S (255 - length s)) by lia. Qed.

Lemma cstring_app s r : Forall (fun c => c <> 0) s -> cstring (s ++ 0 :: r) = Ok s.
Proof. induction 1 as [|c s Hc Hs IH]; [done|]. cbn. apply Z.eqb_neq in Hc. rewrite Hc, IH. done. Qed.

Lemma cstring_zstr s : Forall (fun c => c <> 0) s -> (length s < 256)%nat -> cstring (zstr s) = Ok s.
Proof. intros. rewrite zstr_split by done. by apply cstring_app. Qed.

Lemma pad_ok s n c : Forall (fun c => c <> 0) s -> c <> 0 -> (length s + Z.to_nat n < 256)%nat -> pad n c (zstr s) = Ok (zstr (s ++ replicate (Z.to_nat n) c)).
Proof.
  intros Hs Hc Hn. unfold pad.
  destruct (for_loop_inv (fun k b => b = zstr (s ++ replicate k c)) (Z.to_nat n) (fun _ b => l ← strlen b; Fb.store b l c) (zstr s)) as (b & E & ->).
  - by rewrite app_nil_r.
  - intros k b Hk ->. set (t := s ++ replicate k c).
    assert (length t = length s + k)%nat as Hl by (subst t; by rewrite length_app, length_replicate).
    unfold strlen. rewrite cstring_zstr; [|apply Forall_app; split; [done|by apply Forall_replicate]|lia]. run.
    rewrite Fb.store_in_range by (rewrite zstr_length; lia). eexists. split; [done|].
    rewrite Nat2Z.id, zstr_split, insert_app_cons by lia.
    assert (s ++ replicate (S k) c = t ++ [c]) as -> by (subst t; by rewrite replicate_S_end, app_assoc).
    unfold zstr. rewrite <- app_assoc, length_app. cbn [app length]. by replace (256 - (length t + 1))%nat with (255 - length t)%nat by lia.
  - done.
Qed.

Lemma write_string_ok s pre junk suf : length junk = S (length s) ->
  write_string (pre ++ junk ++ suf) (Z.of_nat (length pre)) s = Ok (pre ++ (s ++ [0]) ++ suf).
Proof.
  intros Hj. unfold write_string.
  destruct (for_loop_inv (fun k b => b = pre ++ (take k (s ++ [0]) ++ drop k junk) ++ suf) (length s + 1)
    (fun k b => Fb.store b (Z.of_nat (length pre) + Z.of_nat k) (nth k s 0)) (pre ++ junk ++ suf)) as (b & -> & ->).
  - done.
  - intros k b Hk ->. assert (length (take k (s ++ [0])) = k) as Hl by (rewrite length_take, length_app; cbn; lia).
    assert (length (drop k junk) = length junk - k)%nat as Hd by apply length_drop.
    rewrite Fb.store_in_range by (rewrite !length_app; lia). eexists. split; [done|].
    destruct (drop k junk) as [|x rest] eqn:Ed; [cbn in Hd; lia|].
    replace (Z.to_nat (Z.of_nat (length pre) + Z.of_nat k)) with (length (pre ++ take k (s ++ [0]))) by (rewrite length_app; lia).
    rewrite <- app_assoc, app_assoc. cbn [app]. rewrite insert_app_cons, <- app_assoc. f_equal.
    assert (drop (S k) junk = rest) as -> by (change (S k) with (1 + k)%nat; rewrite Nat.add_comm, <- drop_drop, Ed; done).
    assert ((s ++ [0]) !! k = Some (nth k s 0)) as Hlk.
    { destruct (decide (k < length s)%nat).
      - rewrite lookup_app_l by done. destruct (nth_lookup_or_length s k 0); [done|lia].
      - replace k with (length s) by lia. rewrite lookup_app_cons. by rewrite nth_overflow. }
    rewrite (take_S_r _ _ _ Hlk), <- app_assoc. cbn [app]. by rewrite <- app_assoc.
  - rewrite firstn_all2 by (rewrite length_app; cbn; lia). rewrite drop_ge by lia. by rewrite app_nil_r.
Qed.

Lemma write_string_zstr a s b : (length a + length s < 256)%nat -> length b = 256%nat -> take (length a) b = a ->
  (forall k, (length a + length s <= k)%nat -> (k < 256)%nat -> b !! k = Some 0) ->
  write_string b (Z.of_nat (length a)) s = Ok (zstr (a ++ s)).
Proof.
  intros Hlen Hb Ha Hz. set (m := length a) in *.
  assert (b = a ++ take (S (length s)) (drop m b) ++ drop (m + S (length s)) b) as Eb.
  { rewrite <- drop_drop, take_drop, <- Ha, take_drop. done. }
  rewrite Eb at 1. subst m. rewrite write_string_ok by (rewrite length_take, length_drop; lia). f_equal.
  rewrite zstr_split by (rewrite length_app; lia). rewrite <- !app_assoc. do 2 f_equal. cbn [app]. f_equal.
  apply list_eq. intros k. rewrite lookup_drop. rewrite length_app. destruct (decide (length a + S (length s) + k < 256)%nat).
  - rewrite Hz by lia. rewrite lookup_replicate_2 by lia. done.
  - rewrite !lookup_ge_None_2; [done|rewrite length_replicate; lia|lia].
Qed.

Lemma zstr_zero s k : (length s <= k)%nat -> (k < 256)%nat -> zstr s !! k = Some 0.
Proof. intros. unfold zstr. rewrite lookup_app_r by lia. apply lookup_replicate_2. lia. Qed.

(** ** What is printed for an integer *)

Definition radix (base : Z) : Z := if base =? 17 then 16 else base.
Definition digit_char (base d : Z) : Z := if d <? 10 then 48 + d else if base =? 17 then 87 + d else 55 + d.
Definition sign_text (i : Z) (plus space : bool) : list Z :=
  if i <? 0 then [45] else if plus then [43] else if space then [32] else [].
Definition body_text (i base : Z) (plus space : bool) : list Z :=
  sign_text i plus space ++ map (digit_char base) (numeral digit_fuel (radix base) (Z.abs i)).
Definition int_text (i base : Z) (plus space : bool) (width : Z) (left zero : bool) : list Z :=
  let body := body_text i base plus space in
  let padding := replicate (Z.to_nat (width - Z.of_nat (length body))) (if zero then 48 else 32) in
  if left then body ++ padding else padding ++ body.

Definition base_ok (base : Z) : Prop := base = 8 \/ base = 10 \/ base = 16 \/ base = 17.

Lemma digit_table_ok base d : base_ok base -> 0 <= d < radix base -> Fb.fetch (digit_table base) d = Ok (digit_char base d).
Proof.
  intros Hb Hd. assert (radix base <= 16) as Hr by (unfold radix; destruct Hb as [->|[->|[->| ->]]]; cbn; lia).
  assert (d = 0 \/ d = 1 \/ d = 2 \/ d = 3 \/ d = 4 \/ d = 5 \/ d = 6 \/ d = 7 \/ d = 8 \/ d = 9 \/ d = 10 \/ d = 11 \/ d = 12 \/ d = 13 \/ d = 14 \/ d = 15) as Hc by lia.
  destruct Hb as [->|[->|[->| ->]]]; cbn in Hd; repeat (destruct Hc as [->|Hc]; [first [lia|reflexivity]|]); subst d; first [lia|reflexivity].
Qed.

Lemma digit_char_nz base d : 0 <= d -> digit_char base d <> 0.
Proof. intros Hd. unfold digit_char. destruct (d <? 10), (base =? 17); lia. Qed.

Lemma radix_ge base : base_ok base -> 2 <= radix base.
Proof. intros [->|[->|[->| ->]]]; cbn; lia. Qed.

Lemma body_nz i base plus space : base_ok base -> Forall (fun c => c <> 0) (body_text i base plus space).
Proof.
  intros Hb. apply Forall_app. split; [unfold sign_text; destruct (i <? 0), plus, space; repeat constructor; lia|].
  apply Forall_fmap. eapply Forall_impl; [apply numeral_digits, radix_ge, Hb|]. intros d Hd. apply digit_char_nz, Hd.
Qed.

Lemma body_length i base plus space : (length (body_text i base plus space) <= 65)%nat.
Proof.
  unfold body_text. rewrite length_app, length_map. pose proof (numeral_length digit_fuel (radix base) (Z.abs i)). unfold digit_fuel in *.
  unfold sign_text. destruct (i <? 0), plus, space; cbn [length]; lia.
Qed.

(** The sign and the digits, before padding, in an empty buffer. *)
Lemma digits_written i base (plus space : bool) : base_ok base -> - 2 ^ 63 < i < 2 ^ 63 ->
  write_number i zeroes (digit_table base) (radix base) plus space = Ok (zstr (body_text i base plus space)).
Proof.
  intros Hb Hi. unfold write_number. assert (i =? INTMAX_MIN = false) as -> by (apply Z.eqb_neq; unfold INTMAX_MIN; lia).
  set (sg := sign_text i plus space). pose proof (body_length i base plus space) as Hbl.
  match goal with |- (?m ≫= _) = _ => assert (m = Ok (zstr sg, Z.of_nat (length sg))) as -> end.
  { subst sg. unfold sign_text. destruct (i <? 0); [done|]. destruct plus; [done|]. by destruct space. }
  run. assert (0 <= Z.abs i < 2 ^ Z.of_nat digit_fuel) as Ha by (change (2 ^ Z.of_nat digit_fuel) with (2 * 2 ^ 63); lia).
  pose proof (radix_ge base Hb) as Hr. rewrite count_digits_ok by (done || (unfold digit_fuel; lia)). run.
  unfold body_text in *. fold sg in Hbl |- *. set (ds := numeral digit_fuel (radix base) (Z.abs i)) in *. rewrite length_app, length_map in Hbl.
  assert (length (zstr sg) = 256%nat) as Hz by (apply zstr_length; lia). rewrite Fb.store_in_range by lia. run.
  rewrite list_insert_id by (apply zstr_zero; lia).
  set (junk := replicate (length ds) 0).
  assert (zstr sg = sg ++ junk ++ replicate (256 - (length sg + length ds)) 0) as ->.
  { unfold zstr, junk. rewrite <- replicate_add. do 2 f_equal. lia. }
  replace (Z.of_nat (length sg) + Z.of_nat (length ds)) with (Z.of_nat (length sg + length junk)) by (unfold junk; rewrite length_replicate; lia).
  rewrite (write_digits_ok _ (digit_char base)); [|done|intros d Hd; by apply digit_table_ok|done|unfold digit_fuel; lia|unfold junk; by rewrite length_replicate].
  f_equal. unfold zstr. rewrite length_app, length_map, <- app_assoc. done.
Qed.

Lemma int_str_text i base plus space width left zero : base_ok base -> - 2 ^ 63 < i < 2 ^ 63 -> width < 256 ->
  k__int_str i zeroes base plus space width left zero = Ok (zstr (int_text i base plus space width left zero)).
Proof.
  intros Hb Hi Hw. unfold k__int_str. fold (radix base). rewrite digits_written by done. run.
  pose proof (body_nz i base plus space Hb) as Hnz. pose proof (body_length i base plus space) as Hl. unfold int_text.
  set (body := body_text i base plus space) in *. unfold strlen at 1. rewrite cstring_zstr by (done || lia). run.
  assert ((if zero then 48 else 32) <> 0) as Hc by (destruct zero; lia). set (c := if zero then 48 else 32) in *.
  assert (Z.to_nat (0 `max` (width - Z.of_nat (length body))) = Z.to_nat (width - Z.of_nat (length body))) as En by lia.
  destruct left; [rewrite pad_ok by (done || lia); by rewrite En|].
  change (replicate 256 0) with (zstr []). rewrite pad_ok by (done || (cbn; lia)). run. cbn [app]. rewrite En.
  set (pd := replicate _ c). assert (length pd = Z.to_nat (width - Z.of_nat (length body))) as Hpd by apply length_replicate.
  assert (Forall (fun c => c <> 0) pd) as Hpz by (by apply Forall_replicate).
  unfold strcat, strcpy, strlen. rewrite !cstring_zstr by (done || lia). run.
  rewrite (write_string_zstr pd body (zstr pd)); [|lia|apply zstr_length; lia|by apply take_app_length|intros k Hk Hk'; apply zstr_zero; lia]. run.
  rewrite cstring_zstr; [|by apply Forall_app|rewrite length_app; lia]. run.
  apply (write_string_zstr [] (pd ++ body)); [cbn; rewrite length_app; lia|apply zstr_length; lia|done|].
  intros k Hk Hk'. apply zstr_zero; [|done]. cbn in Hk. rewrite length_app in Hk. lia.
Qed.

(** [k__int_str] leaves in the buffer the sign, the digits of the absolute value in the base, without a leading zero, and the padding
    up to the width on the side that is asked for, as a string; no buffer overflows for widths below 256. *)
Theorem int_str_ok i base (plus space : bool) width (left zero : bool) : base_ok base -> - 2 ^ 63 < i < 2 ^ 63 -> width < 256 ->
  exists ds, let body := sign_text i plus space ++ map (digit_char base) ds in
    let padding := replicate (Z.to_nat (width - Z.of_nat (length body))) (if zero then 48 else 32) in
    k__int_str i zeroes base plus space width left zero = Ok (zstr (if left then body ++ padding else padding ++ body)) /\
    value (radix base) ds = Z.abs i /\ Forall (fun d => 0 <= d < radix base) ds /\ (i <> 0 -> head ds <> Some 0).
Proof.
  intros Hb Hi Hw. exists (numeral digit_fuel (radix base) (Z.abs i)). pose proof (radix_ge base Hb) as Hr.
  assert (2 ^ Z.of_nat digit_fuel = 2 * 2 ^ 63) as E2 by reflexivity.
  split; [by apply int_str_text|]. split; [apply value_numeral; lia|]. split; [by apply numeral_digits|].
  intros Hnz. destruct (numeral_head digit_fuel (radix base) (Z.abs i)) as (d & ds & -> & Hd); [done|lia|]. cbn. congruence.
Qed.

(** ** Formats *)

(** A piece of a format: a character, or a conversion with flags, width, length and argument. *)
Inductive piece :=
| Lit (c : Z)
| Conv (x : flags) (width : Z) (len spec : Z) (a : arg).

Definition flag_chars (x : flags) : list Z :=
  (if leftJustify x then [45] else []) ++ (if plusSign x then [43] else []) ++ (if altForm x then [35] else []) ++
  (if spaceNoSign x then [32] else []) ++ (if zeroPad x then [48] else []).
Definition width_chars (w : Z) : list Z := if w =? 0 then [] else map (fun d => 48 + d) (numeral digit_fuel 10 w).
Definition length_chars (len : Z) : list Z := if len =? 0 then [] else if len =? 113 then [108; 108] else [len].
Definition piece_format (q : piece) : list Z :=
  match q with
  | Lit c => [c]
  | Conv x w len spec _ => 37 :: flag_chars x ++ width_chars w ++ length_chars len ++ [spec]
  end.
Definition piece_args (q : piece) : list arg := match q with Lit _ => [] | Conv _ _ _ _ a => [a] end.

(** The number that the C standard gives to an integer argument: of 16 bits for [h], of 64 for [ll] and [j], of 32 for the other lengths, reduced to the
    unsigned range or to the signed one. *)
Definition number (a : arg) : Z := match a with AWord w => w | AQuad q => q | _ => 0 end.
Definition bits_of (len : Z) : Z := if len =? 104 then 16 else if (len =? 113) || (len =? 106) then 64 else 32.
Definition unsigned_value (len : Z) (a : arg) : Z := number a mod 2 ^ bits_of len.
Definition signed_value (len : Z) (a : arg) : Z := (number a + 2 ^ (bits_of len - 1)) mod 2 ^ bits_of len - 2 ^ (bits_of len - 1).

(** What a piece prints.  Signs and padding are those of [int_text]: zeroes are put in front of the sign, and behind a number that is
    left-justified, and the prefix of [%#X] is that of [%#x]. *)
Definition piece_text (q : piece) : list Z :=
  match q with
  | Lit c => [c]
  | Conv x w len spec a =>
      let int value base := int_text value base (plusSign x) (spaceNoSign x) w (leftJustify x) (zeroPad x) in
      if (spec =? 100) || (spec =? 105) then int (signed_value len a) 10
      else if spec =? 117 then int (unsigned_value len a) 10
      else if spec =? 120 then (if altForm x then [48; 120] else []) ++ int (unsigned_value len a) 17
      else if spec =? 88 then (if altForm x then [48; 120] else []) ++ int (unsigned_value len a) 16
      else if spec =? 111 then (if altForm x then [48] else []) ++ int (unsigned_value len a) 8
      else if spec =? 112 then int (unsigned_value 122 a) 16
      else if spec =? 99 then match a with AWord w => [u8 w] | _ => [] end
      else match a with AStr s => s | _ => [] end
  end.

(** The argument has the size that the length asks for. *)
Definition int_arg (len : Z) (a : arg) : Prop :=
  match a with
  | AWord _ => len = 0 \/ len = 104 \/ len = 108 \/ len = 122 \/ len = 116
  | AQuad _ => len = 113 \/ len = 106
  | _ => False
  end.

(** The pieces whose numbers are read as the standard says: literal characters other than the percent sign, and conversions [d], [i], [u], [x], [X] and [o] of any length
    but [hh], [p], [c] and [s], with any flags and a width below 256, without a precision.  Left out are the numbers that [kvprintf] reads with the wrong sign:
    unsigned ones of 64 bits or of length [t] in the upper half of their range, and signed ones of length [z] that are negative; and the
    least of the signed numbers of 64 bits. *)
Definition piece_ok (q : piece) : Prop :=
  match q with
  | Lit c => c <> 0 /\ c <> 37
  | Conv x w len spec a =>
      0 <= w < 256 /\
      (spec ∈ [100; 105] /\ int_arg len a /\ (len = 122 -> unsigned_value len a < 2 ^ 31) /\ signed_value len a <> - 2 ^ 63 \/
       spec ∈ [117; 120; 88; 111] /\ int_arg len a /\ (len = 113 \/ len = 106 \/ len = 116 -> unsigned_value len a < 2 ^ (bits_of len - 1)) \/
       spec = 112 /\ len = 0 /\ (exists v, a = AWord v) \/
       spec = 99 /\ len = 0 /\ (exists v, a = AWord v) \/
       spec = 115 /\ len = 0 /\ (exists s, a = AStr s))
  end.

(** ** Reading a conversion *)

Definition flag_char (c : Z) : bool := existsb (Z.eqb c) [45; 43; 35; 32; 48].

Lemma read_flags_stop f x : flag_char (cur f) = false -> read_flags f x = (x, f).
Proof.
  unfold flag_char. destruct f as [|c f]; [done|]. cbn -[Z.eqb]. intros H. repeat (apply orb_false_iff in H as [-> H]). done.
Qed.

Lemma read_flags_ok x f : flag_char (cur f) = false -> read_flags (flag_chars x ++ f) no_flags = (x, f).
Proof. intros Hf. destruct x as [[] [] [] [] []]; cbn; by apply read_flags_stop. Qed.

Lemma read_number_ok ds f n : Forall (fun d => 0 <= d < 10) ds -> isdigit (cur f) = false ->
  read_number (map (fun d => 48 + d) ds ++ f) n = (foldl (fun a d => a * 10 + d) n ds, f).
Proof.
  intros Hd Hf. revert n. induction Hd as [|d ds Hd _ IH]; intros n; cbn.
  - destruct f as [|c f]; [done|]. cbn in *. by rewrite Hf.
  - assert (isdigit (48 + d) = true) as -> by (unfold isdigit; bool_to_prop; lia || done). rewrite IH. do 2 f_equal. lia.
Qed.

Lemma read_width_ok w f va : 0 <= w < 256 -> isdigit (cur f) = false -> cur f <> 42 -> read_spec (width_chars w ++ f) va = Ok (w, f, va).
Proof.
  intros Hw Hf Hs. unfold read_spec, width_chars. apply Z.eqb_neq in Hs. destruct (Z.eqb_spec w 0) as [->|Hne].
  - pose proof (read_number_ok [] f 0 ltac:(constructor) Hf) as E. cbn [map app foldl] in E. cbn [app]. by rewrite E, Hs.
  - rewrite read_number_ok by (done || (apply numeral_digits; lia)). fold (value 10 (numeral digit_fuel 10 w)).
    rewrite value_numeral by (done || (change (2 ^ Z.of_nat digit_fuel) with (2 * 2 ^ 63); lia)). by rewrite Hs.
Qed.

Lemma width_chars_head w f : 0 <= w < 256 -> flag_char (cur f) = false -> flag_char (cur (width_chars w ++ f)) = false.
Proof.
  intros Hw Hf. unfold width_chars. destruct (Z.eqb_spec w 0); [done|].
  destruct (numeral_head digit_fuel 10 w) as (d & ds & E & Hd); [lia|change (2 ^ Z.of_nat digit_fuel) with (2 * 2 ^ 63); lia|].
  pose proof (numeral_digits digit_fuel 10 w ltac:(lia)) as Hds. rewrite E in *. inversion Hds; subst. cbn -[Z.eqb].
  unfold flag_char, cur. cbn -[Z.eqb Z.add]. bool_to_prop; lia || done.
Qed.

Lemma read_length_ok len spec f : len ∈ [0; 104; 108; 113; 106; 122; 116] -> spec ∈ [100; 105; 117; 120; 88; 111; 112; 99; 115] ->
  read_length (length_chars len ++ spec :: f) = Ok (len, spec :: f).
Proof.
  intros Hl Hs. repeat (apply elem_of_cons in Hl as [->|Hl]; [repeat (apply elem_of_cons in Hs as [->|Hs]; [reflexivity|]); by apply not_elem_of_nil in Hs|]).
  by apply not_elem_of_nil in Hl.
Qed.

(** Behind flags and width there is no flag, digit, star or point. *)
Lemma length_chars_head len spec f : len ∈ [0; 104; 108; 113; 106; 122; 116] -> spec ∈ [100; 105; 117; 120; 88; 111; 112; 99; 115] ->
  let c := cur (length_chars len ++ spec :: f) in flag_char c = false /\ isdigit c = false /\ c <> 42 /\ c <> 46.
Proof.
  intros Hl Hs. assert (forall c, c ∈ [100; 105; 117; 120; 88; 111; 112; 99; 115; 104; 108; 106; 122; 116] -> flag_char c = false /\ isdigit c = false /\ c <> 42 /\ c <> 46) as Hc.
  { intros c Hc. repeat (apply elem_of_cons in Hc as [->|Hc]; [done|]). by apply not_elem_of_nil in Hc. }
  assert (cur (length_chars len ++ spec :: f) = spec \/ cur (length_chars len ++ spec :: f) ∈ [104; 108; 106; 122; 116]) as [E|E].
  { repeat (apply elem_of_cons in Hl as [->|Hl]; [first [by left|right; cbn; set_solver]|]). by apply not_elem_of_nil in Hl. }
  - apply Hc, (elem_of_app [100; 105; 117; 120; 88; 111; 112; 99; 115]). left. by rewrite E.
  - apply Hc, (elem_of_app [100; 105; 117; 120; 88; 111; 112; 99; 115]). by right.
Qed.

Section emit.
Context {S : Type} (output_char : Z -> S -> res S).

(** All characters of a string. *)
Fixpoint emit (s : list Z) (o : S) : res S := match s with [] => Ok o | c :: s => o ← output_char c o; emit s o end.

Lemma emit_app a b o : emit (a ++ b) o = (o ← emit a o; emit b o).
Proof. revert o. induction a as [|c a IH]; intros o; [done|]. cbn. destruct (output_char c o); cbn; [apply IH|done..]. Qed.

Lemma output_string_emit s p : output_string_func output_char s p =
  (o ← emit s (out p); Ok (mkP (chars p + Z.of_nat (length s)) (va p) o (stored p))).
Proof.
  revert p. induction s as [|c s IH]; intros p; cbn [output_string_func emit].
  - run. destruct p. cbn. by rewrite Z.add_0_r.
  - unfold output_char_func. destruct (output_char c (out p)); [|done..]. run. rewrite IH. cbn. destruct (emit s a); [|done..]. run. do 2 f_equal. cbn. lia.
Qed.

(** Printing [s] after the arguments have become [l]. *)
Definition printed (s : list Z) (l : list arg) (p : pstate S) : res (pstate S) :=
  o ← emit s (out p); Ok (mkP (chars p + Z.of_nat (length s)) l o (stored p)).

Lemma printed_app a b l l' p : printed (a ++ b) l' p = (p ← printed a l p; printed b l' p).
Proof.
  unfold printed. rewrite emit_app. destruct (emit a (out p)); [|done..]. run. cbn. destruct (emit b a0); [|done..]. run. rewrite length_app. do 2 f_equal. lia.
Qed.

Lemma int_text_ok i base plus space w left zero : base_ok base -> w < 256 ->
  Forall (fun c => c <> 0) (int_text i base plus space w left zero) /\ (length (int_text i base plus space w left zero) < 256)%nat.
Proof.
  intros Hb Hw. unfold int_text. pose proof (body_nz i base plus space Hb) as Hnz. pose proof (body_length i base plus space) as Hl.
  set (body := body_text i base plus space) in *.
  assert (Forall (fun c => c <> 0) (replicate (Z.to_nat (w - Z.of_nat (length body))) (if zero then 48 else 32))) as Hp by (apply Forall_replicate; destruct zero; lia).
  split; destruct left; try (by apply Forall_app); rewrite length_app, length_replicate; lia.
Qed.

Lemma print_int_ok read len base (x : flags) w p i l : base_ok base -> w < 256 -> - 2 ^ 63 < i < 2 ^ 63 -> read len (va p) = Ok (Some (i, l)) ->
  print_int output_char read len base x w p = printed (int_text i base (plusSign x) (spaceNoSign x) w (leftJustify x) (zeroPad x)) l p.
Proof.
  intros Hb Hw Hi Hr. unfold print_int. rewrite Hr. run. rewrite int_str_text by done. run. unfold output_buffer.
  destruct (int_text_ok i base (plusSign x) (spaceNoSign x) w (leftJustify x) (zeroPad x) Hb Hw) as [H1 H2]. rewrite cstring_zstr by done. run.
  by rewrite output_string_emit.
Qed.

Lemma s32_range w : - 2 ^ 31 <= s32 w < 2 ^ 31.
Proof. unfold s32. pose proof (u32_range w) as H. unfold is_u32 in H. destruct (Z.ltb_spec (u32 w) 2147483648); lia. Qed.

Lemma signed_mod x n : 0 < n -> (if x mod 2 ^ n <? 2 ^ (n - 1) then x mod 2 ^ n else x mod 2 ^ n - 2 ^ n) = (x + 2 ^ (n - 1)) mod 2 ^ n - 2 ^ (n - 1).
Proof.
  intros Hn. assert (2 ^ n = 2 * 2 ^ (n - 1)) as E by (rewrite <- Z.pow_succ_r by lia; f_equal; lia). assert (0 < 2 ^ (n - 1)) by (apply Z.pow_pos_nonneg; lia).
  set (h := 2 ^ (n - 1)) in *. rewrite E. pose proof (Z.mod_pos_bound x (2 * h) ltac:(lia)) as Hm. pose proof (Z.div_mod x (2 * h) ltac:(lia)) as Hd.
  destruct (Z.ltb_spec (x mod (2 * h)) h).
  - rewrite <- (Z.mod_unique (x + h) (2 * h) (x / (2 * h)) (x mod (2 * h) + h)); lia.
  - rewrite <- (Z.mod_unique (x + h) (2 * h) (x / (2 * h) + 1) (x mod (2 * h) - h)); lia.
Qed.

Lemma s16_signed w : s16 (u32 w) = (w + 2 ^ (16 - 1)) mod 2 ^ 16 - 2 ^ (16 - 1).
Proof.
  rewrite <- signed_mod by lia. unfold s16, u16, u32. change (2 ^ (16 - 1)) with 32768. change (2 ^ 16) with 65536.
  replace (w mod 4294967296 mod 65536) with (w mod 65536) by (rewrite <- Znumtheory.Zmod_div_mod; [done|lia..|by exists 65536]). done.
Qed.
Lemma s32_signed w : s32 (u32 w) = (w + 2 ^ (32 - 1)) mod 2 ^ 32 - 2 ^ (32 - 1).
Proof. rewrite <- signed_mod by lia. unfold s32, u32. change (2 ^ (32 - 1)) with 2147483648. change (2 ^ 32) with 4294967296. by rewrite Z.mod_mod by lia. Qed.
Lemma s64_signed q : s64 (q mod 2 ^ 64) = (q + 2 ^ (64 - 1)) mod 2 ^ 64 - 2 ^ (64 - 1).
Proof. rewrite <- signed_mod by lia. unfold s64. change (64 - 1) with 63. by rewrite Z.mod_mod by lia. Qed.

(** [kvprintf] reads the number of the standard, where [piece_ok] says so. *)
Lemma read_unsigned len a l : int_arg len a -> (len = 113 \/ len = 106 \/ len = 116 -> unsigned_value len a < 2 ^ (bits_of len - 1)) ->
  arg_unsigned len (a :: l) = Ok (Some (unsigned_value len a, l)) /\ - 2 ^ 63 < unsigned_value len a < 2 ^ 63.
Proof.
  intros Ha Hs. destruct a as [w|q|s|d]; cbn [int_arg] in Ha; [| |done..].
  - pose proof (Z.mod_pos_bound w (2 ^ 32) ltac:(lia)). pose proof (Z.mod_pos_bound w (2 ^ 16) ltac:(lia)).
    destruct Ha as [->|[->|[->|[->| ->]]]]; (split; [|unfold unsigned_value; cbn -[Z.pow Z.modulo]; lia]); cbn -[u32 u16 s32 Z.pow]; try done.
    + do 3 f_equal. unfold unsigned_value, u16, u32. cbn -[Z.pow]. change (2 ^ 16) with 65536. rewrite <- Znumtheory.Zmod_div_mod; [done|lia..|by exists 65536].
    + specialize (Hs ltac:(auto)). do 3 f_equal. rewrite s32_signed, <- signed_mod by lia. unfold unsigned_value in *. cbn -[Z.pow Z.modulo] in Hs |- *. change (32 - 1) with 31 in *. by rewrite (proj2 (Z.ltb_lt _ _)).
  - pose proof (Z.mod_pos_bound q (2 ^ 64) ltac:(lia)). assert (unsigned_value len (AQuad q) = q mod 2 ^ 64 /\ q mod 2 ^ 64 < 2 ^ 63) as [Ev Hq].
    { destruct Ha as [->| ->]; (split; [done|]); apply Hs; auto. }
    rewrite Ev. split; [|lia]. assert (s64 (q mod 2 ^ 64) = q mod 2 ^ 64) as E by (rewrite s64_signed, <- signed_mod by lia; change (64 - 1) with 63; by rewrite (proj2 (Z.ltb_lt _ _))).
    destruct Ha as [->| ->]; cbn -[s64 Z.pow]; by rewrite E.
Qed.

Lemma read_signed len a l : int_arg len a -> (len = 122 -> unsigned_value len a < 2 ^ 31) -> signed_value len a <> - 2 ^ 63 ->
  arg_signed len (a :: l) = Ok (Some (signed_value len a, l)) /\ - 2 ^ 63 < signed_value len a < 2 ^ 63.
Proof.
  intros Ha Hz Hmin. destruct a as [w|q|s|d]; cbn [int_arg] in Ha; [| |done..].
  - assert (forall n, 0 < n <= 32 -> - 2 ^ 31 <= (w + 2 ^ (n - 1)) mod 2 ^ n - 2 ^ (n - 1) < 2 ^ 31) as Hr.
    { intros n Hn. pose proof (Z.mod_pos_bound (w + 2 ^ (n - 1)) (2 ^ n) ltac:(apply Z.pow_pos_nonneg; lia)). assert (2 ^ n = 2 * 2 ^ (n - 1)) by (rewrite <- Z.pow_succ_r by lia; f_equal; lia).
      assert (2 ^ (n - 1) <= 2 ^ 31) by (apply Z.pow_le_mono_r; lia). lia. }
    pose proof (Hr 16 ltac:(lia)). pose proof (Hr 32 ltac:(lia)).
    destruct Ha as [->|[->|[->|[->| ->]]]]; (split; [|unfold signed_value; cbn -[Z.pow Z.modulo Z.sub Z.add]; lia]); cbn -[u32 s16 s32 Z.pow signed_value]; rewrite ?s16_signed, ?s32_signed; try done.
    specialize (Hz eq_refl). do 3 f_equal. unfold signed_value, unsigned_value in *. cbn -[Z.pow Z.modulo Z.sub Z.add] in Hz |- *. rewrite <- signed_mod by lia. change (32 - 1) with 31. by rewrite (proj2 (Z.ltb_lt _ _)).
  - assert (signed_value len (AQuad q) = s64 (q mod 2 ^ 64)) as Ev by (rewrite s64_signed; destruct Ha as [->| ->]; done).
    rewrite Ev in Hmin |- *. pose proof (Z.mod_pos_bound (q + 2 ^ (64 - 1)) (2 ^ 64) ltac:(lia)). rewrite s64_signed in Hmin |- *.
    split; [rewrite <- s64_signed; destruct Ha as [->| ->]; done|]. change (64 - 1) with 63 in *. lia.
Qed.

(** An optional prefix in front of an unsigned integer. *)
Lemma prefixed_int len base x w (b : bool) s a l p : base_ok base -> w < 256 -> int_arg len a -> (len = 113 \/ len = 106 \/ len = 116 -> unsigned_value len a < 2 ^ (bits_of len - 1)) -> va p = a :: l ->
  (p ← output_string_func output_char (if b then s else []) p; print_int output_char arg_unsigned len base x w p) =
  printed ((if b then s else []) ++ int_text (unsigned_value len a) base (plusSign x) (spaceNoSign x) w (leftJustify x) (zeroPad x)) l p.
Proof.
  intros Hb Hw Ha Hs Hva. destruct (read_unsigned len a l Ha Hs) as [E Hi]. rewrite (printed_app _ _ (a :: l)), output_string_emit, Hva.
  unfold printed. destruct (emit (if b then s else []) (out p)); [|done..]. run. by rewrite (print_int_ok _ _ _ _ _ _ (unsigned_value len a) l).
Qed.

(** One conversion prints its text. *)
Lemma conversion_ok x w len spec a l precSpec p : piece_ok (Conv x w len spec a) -> va p = a :: l ->
  print_conversion output_char spec len x w precSpec p = printed (piece_text (Conv x w len spec a)) l p.
Proof.
  intros [Hw Hk] Hva. assert (forall f : pstate S -> res (pstate S), (p' ← output_string_func output_char [] p; f p') = f p) as Hnil.
  { intros f. by destruct p. }
  assert (forall s, (if altForm x then output_string_func output_char s p else Ok p) = output_string_func output_char (if altForm x then s else []) p) as Halt.
  { intros s. by destruct (altForm x). }
  unfold print_conversion. destruct Hk as [(Hs & Ha & Hz & Hm)|[(Hs & Ha & Hu)|[(-> & -> & v & ->)|[(-> & -> & v & ->)|(-> & -> & t & ->)]]]].
  - destruct (read_signed len a l Ha Hz Hm) as [E Hd].
    repeat (apply elem_of_cons in Hs as [->|Hs]; [cbn -[print_int output_string_func printed int_text signed_value unsigned_value]|]); [..|by apply not_elem_of_nil in Hs];
      rewrite Hnil; apply print_int_ok; rewrite ?Hva; unfold base_ok; by auto || lia.
  - destruct (read_unsigned len a l Ha Hu) as [E Hd].
    repeat (apply elem_of_cons in Hs as [->|Hs]; [cbn -[print_int output_string_func printed int_text signed_value unsigned_value]|]); [..|by apply not_elem_of_nil in Hs].
    + rewrite Hnil. apply print_int_ok; rewrite ?Hva; unfold base_ok; by auto || lia.
    + rewrite Hnil, Halt. apply prefixed_int; unfold base_ok; by auto || lia.
    + rewrite Hnil, Halt. apply prefixed_int; unfold base_ok; by auto || lia.
    + apply prefixed_int; unfold base_ok; by auto || lia.
  - cbn -[print_int output_string_func printed int_text unsigned_value]. destruct (read_unsigned 122 (AWord v) l) as [E Hd]; [cbn; lia|lia|].
    rewrite Hnil. apply print_int_ok; rewrite ?Hva; unfold base_ok; by auto || lia.
  - cbn -[output_string_func printed va_word u8].
    rewrite Hnil, Hva. cbn. unfold output_char_func, printed. cbn. unfold u8.
    replace (u32 v mod 256) with (v mod 256) by (unfold u32; rewrite <- Znumtheory.Zmod_div_mod; [done|lia..|by exists 16777216]).
    by destruct (output_char (v mod 256) (out p)).
  - cbn -[output_string_func printed va_str].
    rewrite Hnil, Hva. cbn -[output_string_func]. rewrite output_string_emit. done.
Qed.

(** One round of the loop. *)
Lemma round_ok q f l p : piece_ok q -> va p = piece_args q ++ l ->
  print_round output_char (piece_format q ++ f) p = (p ← printed (piece_text q) l p; Ok (p, f)).
Proof.
  intros Hq Hva. destruct q as [c|x w len spec a].
  - destruct Hq as [Hz Hp]. unfold print_round. cbn [piece_format app cur head default]. apply Z.eqb_neq in Hp. cbn. rewrite Hp.
    unfold output_char_func, printed. cbn in *. destruct (output_char c (out p)); [|done..]. run. by rewrite Hva.
  - pose proof Hq as [Hw Hk]. assert (len ∈ [0; 104; 108; 113; 106; 122; 116] /\ spec ∈ [100; 105; 117; 120; 88; 111; 112; 99; 115]) as [Hl Hs].
    { destruct Hk as [(Hs & Ha & _)|[(Hs & Ha & _)|[(-> & -> & _)|[(-> & -> & _)|(-> & -> & _)]]]]; [| |set_solver..]; (split; [|set_solver]);
        (destruct a; cbn in Ha; [set_solver|set_solver|done..]). }
    destruct (length_chars_head len spec f Hl Hs) as (H1 & H2 & H3 & H4).
    unfold print_round. cbn [piece_format app cur head default next]. change (37 =? 37) with true. run. cbv iota. rewrite <- !app_assoc. cbn [app].
    rewrite read_flags_ok by (by apply width_chars_head). rewrite read_width_ok by done. run.
    unfold read_prec. apply Z.eqb_neq in H4. rewrite H4. run. rewrite read_length_ok by done. run.
    cbn [cur head default next]. rewrite (conversion_ok x w len spec a l) by done. unfold printed. cbn [out set_va chars stored].
    destruct (emit _ (out p)); [|done..]. run. done.
Qed.

Lemma piece_format_cons q : piece_ok q -> exists c f, piece_format q = c :: f /\ c <> 0.
Proof. destruct q as [c|x w len spec a]; [intros [? _]; by eexists c, []|]. intros _. by eexists _, _. Qed.

(** The whole format. *)
Lemma print_loop_ok qs : forall fuel l p, Forall piece_ok qs -> (length (concat (map piece_format qs)) <= fuel)%nat ->
  va p = concat (map piece_args qs) ++ l ->
  print_loop output_char fuel (concat (map piece_format qs)) p = printed (concat (map piece_text qs)) l p.
Proof.
  induction qs as [|q qs IH]; intros fuel l p HF Hfuel Hva.
  - destruct p. cbn in *. subst. destruct fuel; cbn; by rewrite Z.add_0_r.
  - apply Forall_cons in HF as [Hq HF]. cbn [map concat] in *. rewrite length_app in Hfuel. destruct (piece_format_cons q Hq) as (c & f & E & Hc).
    destruct fuel as [|fuel]; [rewrite E in Hfuel; cbn in Hfuel; lia|]. cbn [print_loop].
    assert (cur (piece_format q ++ concat (map piece_format qs)) =? 0 = false) as -> by (rewrite E; cbn; by apply Z.eqb_neq).
    rewrite <- app_assoc in Hva. rewrite (round_ok q _ _ p Hq Hva), (printed_app _ _ (concat (map piece_args qs) ++ l)).
    destruct (printed (piece_text q) _ p) as [p'| | |] eqn:Ep; [|done..]. run. apply IH; [done| |].
    + rewrite E in Hfuel. cbn in Hfuel. lia.
    + unfold printed in Ep. destruct (emit _ _); [|done..]. run_in Ep. by simplify_eq.
Qed.

End emit.

(** Claim C27: a format whose pieces are literal characters other than the percent sign and conversions [d], [i], [u], [x], [X], [o], [p], [c] and [s] with a matching argument, any flags, a
    width below 256, no precision, and for the integers any length but [hh] (for the others none), prints, whatever the output function does with the characters, exactly their texts
    ([piece_text]) one after the other, takes one argument for each conversion, and returns the number of characters.  The numbers printed are
    those that the standard gives to the arguments, leaving out the values for which [kvprintf] does not read them so ([piece_ok]: unsigned ones of 64 bits or of length [t] in the
    upper half, negative ones of length [z], and the least number of 64 bits); padding and prefixes are as [piece_text] says,
    not always as the standard does.  For the rest see [printf_surprises]. *)
Theorem kvprintf_renders {S : Type} (output_char : Z -> S -> res S) qs l s : Forall piece_ok qs ->
  kvprintf output_char (concat (map piece_format qs)) (concat (map piece_args qs) ++ l) s =
  (o ← emit output_char (concat (map piece_text qs)) s; Ok (Z.of_nat (length (concat (map piece_text qs))), o, [])).
Proof.
  intros HF. unfold kvprintf. rewrite (print_loop_ok output_char qs _ l) by done. unfold printed. cbn [out chars stored].
  by destruct (emit _ _ s).
Qed.

(** The pieces of ["n=%-+5d %#llx %s%c%hu"]. *)
Definition sample : list piece :=
  [Lit 110; Lit 61; Conv (mkFlags true true false false false) 5 0 100 (AWord 42); Lit 32;
   Conv (mkFlags false false true false false) 0 113 120 (AQuad 48879); Lit 32;
   Conv no_flags 0 0 115 (AStr [104; 105]); Conv no_flags 0 0 99 (AWord 33); Conv no_flags 0 104 117 (AWord 65538)].

Lemma sample_ok : Forall piece_ok sample.
Proof.
  unfold sample. repeat (apply Forall_cons; split); [..|by apply Forall_nil]; try (split; lia); (split; [cbn; lia|]).
  - left. split; [set_solver|]. split; [cbn; lia|]. split; [done|by vm_compute].
  - right. left. split; [set_solver|]. split; [cbn; lia|]. intros _. by vm_compute.
  - right. right. right. right. eauto.
  - right. right. right. left. eauto.
  - right. left. split; [set_solver|]. split; [cbn; lia|]. lia.
Qed.

Lemma kvprintf_renders_witness :
  kvprintf (fun c o => Ok (o ++ [c])) (concat (map piece_format sample)) (concat (map piece_args sample)) [] =
  Ok (19, [110; 61; 43; 52; 50; 32; 32; 32; 48; 120; 98; 101; 101; 102; 32; 104; 105; 33; 50], []).
Proof.
  rewrite <- (app_nil_r (concat (map piece_args sample))), (kvprintf_renders (fun c o => Ok (o ++ [c])) sample [] [] sample_ok).
  vm_compute. reflexivity.
Defined.

Lemma int_str_ok_witness : exists ds,
  k__int_str (-42) zeroes 10 false false 0 true false = Ok (zstr (45 :: map (digit_char 10) ds)) /\ value 10 ds = 42.
Proof.
  destruct (int_str_ok (-42) 10 false false 0 true false ltac:(unfold base_ok; lia) ltac:(lia) ltac:(lia)) as (ds & E & Hv & _).
  exists ds. split; [|exact Hv]. cbv zeta in E. rewrite E. cbn [app sign_text Z.ltb length]. do 2 f_equal.
  replace (Z.to_nat _) with 0%nat by (cbn; lia). cbn. by rewrite app_nil_r.
Defined.

(** ** On the screen and in a buffer *)

Lemma emit_screen g text : Fb.geometry g -> Forall (fun c => 0 <= c < 128 /\ c <> 8) text -> forall s t, Fb.good g s t ->
  exists s', emit (kprintf_output g) text s = Ok s' /\
    Fb.good g s' (foldl (fun t c => Fb.t_putchar (Fb.characters_per_line g) (Fb.characters_per_col g) c t) t text).
Proof.
  intros G. induction 1 as [|c text [Hc Hb] _ IH]; intros s t Hg; [by exists s|]. cbn [emit foldl].
  destruct (Fb.screen_exec_ok g G (Fb.Put c) s t Hg) as (s1 & E1 & Hg1); [split; [done|intros ->; lia]|]. cbn [Fb.exec] in E1.
  unfold kprintf_output. assert (Fb.widen c = c) as -> by (unfold Fb.widen; destruct (Z.ltb_spec c 128); lia). rewrite E1. run. by apply IH.
Qed.

(** Claim C28: [printf], on a screen that shows what a terminal shows, with such a format whose text is ASCII without backspaces, writes the text to the screen: what
    the terminal shows after the characters one by one.  Other characters: [Fb.non_ascii_faults], [Fb.backspace_leaves_screen]. *)
Theorem printf_on_screen g qs s t : Fb.geometry g -> Fb.good g s t -> Forall piece_ok qs ->
  let text := concat (map piece_text qs) in Forall (fun c => 0 <= c < 128 /\ c <> 8) text ->
  exists s', printf g (concat (map piece_format qs)) (concat (map piece_args qs)) s = Ok (Z.of_nat (length text), s') /\
    Fb.good g s' (foldl (fun t c => Fb.t_putchar (Fb.characters_per_line g) (Fb.characters_per_col g) c t) t text).
Proof.
  intros G Hg HF text Ht. destruct (emit_screen g text G Ht s t Hg) as (s' & E & Hg'). exists s'. split; [|done].
  unfold printf, kvprintf. rewrite (print_loop_ok (kprintf_output g) qs _ []) by (done || by rewrite app_nil_r).
  unfold printed. cbn [out]. fold text. by rewrite E.
Qed.

Lemma small_pieces_ok : Forall piece_ok [Lit 65; Conv no_flags 0 0 100 (AWord 7)].
Proof.
  repeat (apply Forall_cons; split); [..|by apply Forall_nil]; [split; lia|]. split; [lia|]. left. split; [set_solver|]. split; [cbn; lia|]. split; [done|by vm_compute].
Qed.

Lemma printf_on_screen_witness : exists g s0 s', Fb.small_init = Ok (g, s0) /\ printf g [65; 37; 100] [AWord 7] s0 = Ok (2, s') /\
  Fb.good g s' (foldl (fun t c => Fb.t_putchar (Fb.characters_per_line g) (Fb.characters_per_col g) c t) Fb.blank_term [65; 55]).
Proof.
  destruct Fb.small_init as [[g s0]| | |] eqn:Ei; [|vm_compute in Ei; discriminate..].
  destruct (Fb.init_good (Fb.Vbe (16, 4, 64)) 16 4 64 2 Fb.small_font 30 (replicate 64 7) (replicate 64 (Fb.mkCell 0 0 0)) g s0) as (G & Hg & _);
    [apply Fb.small_mode_ok|done|done|done|exact Ei|].
  destruct (printf_on_screen g [Lit 65; Conv no_flags 0 0 100 (AWord 7)] s0 Fb.blank_term G Hg) as (s' & E & Hg').
  - exact small_pieces_ok.
  - change (concat (map piece_text [Lit 65; Conv no_flags 0 0 100 (AWord 7)])) with [65; 55]. repeat (constructor; [lia|]). constructor.
  - exists g, s0, s'. split; [done|]. split; [exact E|exact Hg'].
Defined.

Lemma emit_buffer text : forall str i, (i + length text <= length str)%nat ->
  emit ksprintf_output text (str, Z.of_nat i) = Ok (take i str ++ text ++ drop (i + length text) str, Z.of_nat (i + length text)).
Proof.
  induction text as [|c text IH]; intros str i Hl; cbn [emit length] in *.
  - rewrite Nat.add_0_r. cbn [app]. by rewrite take_drop.
  - unfold ksprintf_output. cbn [fst snd]. rewrite Fb.store_in_range by lia. run. rewrite Nat2Z.id.
    replace (Z.of_nat i + 1) with (Z.of_nat (S i)) by lia. fold ksprintf_output. rewrite IH by (rewrite length_insert; lia).
    f_equal. f_equal; [|f_equal; lia]. rewrite drop_insert_lt by lia.
    rewrite (take_S_r _ _ c) by (apply list_lookup_insert_eq; lia). rewrite take_insert_ge by lia. rewrite <- app_assoc. cbn [app]. do 3 f_equal. f_equal. lia.
Qed.

(** [sprintf] puts the text at the beginning of the buffer and leaves the rest as it is: no zero is written behind the text. *)
Theorem sprintf_ok str qs : Forall piece_ok qs ->
  let text := concat (map piece_text qs) in (length text <= length str)%nat ->
  sprintf str (concat (map piece_format qs)) (concat (map piece_args qs)) = Ok (Z.of_nat (length text), text ++ drop (length text) str).
Proof.
  intros HF text Hl. unfold sprintf, kvprintf. rewrite (print_loop_ok ksprintf_output qs _ []) by (done || by rewrite app_nil_r).
  unfold printed. cbn [out]. fold text. pose proof (emit_buffer text str 0 Hl) as E. change (Z.of_nat 0) with 0 in E. rewrite E. run. by rewrite Nat.add_0_l.
Qed.

Lemma sprintf_ok_witness : sprintf (replicate 20 7) (concat (map piece_format sample)) (concat (map piece_args sample)) =
  Ok (19, [110; 61; 43; 52; 50; 32; 32; 32; 48; 120; 98; 101; 101; 102; 32; 104; 105; 33; 50; 7]).
Proof. rewrite (sprintf_ok (replicate 20 7) sample sample_ok ltac:(vm_compute; lia)). vm_compute. reflexivity. Defined.

(** ** Formats that print something else *)

Definition to_list (format : list Z) (l : list arg) : res (Z * list Z * list (Z * Z * Z)) := kvprintf (fun c o => Ok (o ++ [c])) format l [].

(** ["%%"] prints nothing, ["%hhd"] prints a d and takes no argument, a percent sign at the end makes the loop read behind the format,
    zeroes are put in front of the minus sign, ["%llu"] prints large numbers as negative ones, a width of 300 overflows the buffers, and
    ["%f"] of 1.05 prints 1.50000; ["%zd"] prints negative numbers as large ones and ["%tu"] large numbers as negative ones. *)
Theorem printf_surprises :
  to_list [37; 37] [] = Ok (0, [], []) /\
  to_list [37; 104; 104; 100] [AWord 5] = Ok (1, [100], []) /\
  to_list [97; 37] [] = Fault /\
  to_list [37; 48; 53; 100] [AWord (2 ^ 32 - 5)] = Ok (5, [48; 48; 48; 45; 53], []) /\
  to_list [37; 108; 108; 117] [AQuad (2 ^ 64 - 1)] = Ok (2, [45; 49], []) /\
  to_list [37; 51; 48; 48; 100] [AWord 5] = Fault /\
  to_list [37; 102] [ADouble (SpecFloat.SFdiv prec emax (of_Z 105) (of_Z 100))] = Ok (7, [49; 46; 53; 48; 48; 48; 48], []) /\
  to_list [37; 122; 100] [AWord (2 ^ 32 - 1)] = Ok (10, [52; 50; 57; 52; 57; 54; 55; 50; 57; 53], []) /\
  to_list [37; 116; 117] [AWord (2 ^ 32 - 1)] = Ok (2, [45; 49], []).
Proof. repeat split; vm_compute; reflexivity. Qed.

End Printf.
