(* ===== verification/Http.v ===== *)
(** * The HTTP client ([network/HTTP.cpp], [HTTP.h])

    Requests, the parser of responses, and the states of a download above a TCP connection.  A received packet is the memory from
    its first byte on, with its size: reading behind that memory is a fault.  The client answers to the events of its socket, and
    what it does to the outside is a list of effects.  The theorems show that a request and a response go through unchanged, that a
    body delivered in several segments ends up in the downloaded file, and which responses do not. *)

From stdpp Require Import base tactics numbers list.
From S2P Require Import Prelude Fb Printf Tcp.
Open Scope Z_scope.

Module Http.

Definition HTTP_OK : Z := 200.
Definition HTTP_MOVED_PERMANENTLY : Z := 301.
Definition HTTP_SERVICE_UNAVAILABLE : Z := 503.

(** ** Reading a packet *)

(** [len] bytes at an offset. *)
Definition sub (m : list Z) (off len : Z) : res (list Z) :=
  if (0 <=? off) && (0 <=? len) && (off + len <=? Z.of_nat (length m)) then Ok (take (Z.to_nat len) (drop (Z.to_nat off) m)) else Fault.

(** The part of some bytes in front of the first zero. *)
Fixpoint until0 (l : list Z) : list Z := match l with [] => [] | c :: l => if c =? 0 then [] else c :: until0 l end.

(** [while (str - beg <= len && *str != c) str++;], for [n] more places. *)
Fixpoint find_char_loop (n : nat) (m : list Z) (off c : Z) : res (option Z) :=
  match n with
  | O => Ok None
  | S n => x ← Fb.fetch m off; if x =? c then Ok (Some off) else find_char_loop n m (off + 1) c
  end.
Definition find_char (m : list Z) (off c len : Z) : res (option Z) := find_char_loop (Z.to_nat (len + 1)) m off c.

Fixpoint count_headers_loop (n : nat) (m : list Z) (off c : Z) : res Z :=
  match n with
  | O => Ok 65535
  | S n =>
      a ← Fb.fetch m off;
      if a =? 13 then
        b ← Fb.fetch m (off + 1);
        if b =? 10 then
          let c := u16 (c + 1) in
          d ← Fb.fetch m (off + 2);
          if d =? 13 then
            e ← Fb.fetch m (off + 3);
            if e =? 10 then Ok c else count_headers_loop n m (off + 1) c
          else count_headers_loop n m (off + 1) c
        else count_headers_loop n m (off + 1) c
      else count_headers_loop n m (off + 1) c
  end.
Definition count_headers (m : list Z) (off len : Z) : res Z :=
  if len <? 4 then Ok 65535 else count_headers_loop (Z.to_nat (len + 1)) m off 0.

Definition DIGIT (c : Z) : bool := (48 <=? c) && (c <=? 57).
Definition parse_status_code (m : list Z) (off : Z) : res Z :=
  a ← Fb.fetch m off;
  if negb (DIGIT a) then Ok 0
  else b ← Fb.fetch m (off + 1);
    if negb (DIGIT b) then Ok 0
    else c ← Fb.fetch m (off + 2);
      if negb (DIGIT c) then Ok 0 else Ok ((a - 48) * 100 + (b - 48) * 10 + c - 48).

(** The first place of a byte string in [len] bytes ([memmem]). *)
Fixpoint memmem_loop (n : nat) (m : list Z) (off : Z) (needle : list Z) : res (option Z) :=
  match n with
  | O => Ok None
  | S n => s ← sub m off (Z.of_nat (length needle)); if bool_decide (s = needle) then Ok (Some off) else memmem_loop n m (off + 1) needle
  end.
Definition memmem (m : list Z) (off len : Z) (needle : list Z) : res (option Z) :=
  let nlen := Z.of_nat (length needle) in
  if len <? nlen then Ok None else memmem_loop (Z.to_nat (len - nlen + 1)) m off needle.

(** ** Responses *)

Record header := mkHeader { name : list Z; value : list Z }.

(** A pointer of a response: null, to a string, or to memory that has been freed. *)
Inductive ptr := Null | Live (s : list Z) | Dangling.
#[export] Instance ptr_eq_dec : EqDecision ptr.
Proof. solve_decision. Defined.

Record response := mkResponse { method : ptr; status : Z; reason : list Z; headers : list header; num_headers : Z }.

Definition no_response : response := mkResponse Null 0 [] [] 0.
Definition bad_response (n : Z) : response := mkResponse Dangling 0 [] [] n.

(** [n] headers from an offset on, with the number of bytes that remain. *)
Fixpoint parse_headers (n : nat) (m : list Z) (off rem : Z) : res (list header) :=
  match n with
  | O => Ok []
  | S n =>
      e ← find_char m off 58 rem;
      name_end ← deref e;
      let name_len := u16 (name_end - off) in
      nm ← sub m off name_len;
      let off := off + name_len + 1 in
      let rem := u16 (rem - (name_len + 1)) in
      e ← find_char m off 13 rem;
      value_end ← deref e;
      let value_len := u16 (value_end - off) in
      sp ← (if truthy name_len then c ← Fb.fetch m off; Ok (if c =? 32 then 1 else 0) else Ok 0);
      v ← sub m (off + sp) (value_len - sp);
      let off := off + value_len + 2 in
      let rem := u16 (rem - (value_len + 2)) in
      hs ← parse_headers n m off rem;
      Ok (mkHeader (until0 nm) (until0 v) :: hs)
  end.

(** The constructor [response(packet, packet_size)]. *)
Definition parse_response (m : list Z) (packet_size : Z) : res response :=
  e ← find_char m 0 32 packet_size;
  match e with
  | None => Ok no_response
  | Some method_end =>
      let method_len := u16 method_end in
      md ← sub m 0 method_len;
      let rem := u16 (packet_size - (method_len + 1)) in
      let off := method_len + 1 in
      if packet_size <? rem + 3 then Ok (bad_response 0)
      else
        st ← parse_status_code m off;
        if st =? 0 then Ok (bad_response 0)
        else
          let rem := u16 (rem - 4) in
          let off := off + 4 in
          e ← find_char m off 13 rem;
          match e with
          | None => Ok (bad_response 0)
          | Some reason_end =>
              let reason_len := u16 (reason_end - off) in
              rs ← sub m off reason_len;
              let rem := u16 (rem - (reason_len + 2)) in
              let off := off + reason_len + 2 in
              n ← count_headers m off rem;
              if n =? 65535 then Ok (bad_response n)
              else
                hs ← parse_headers (Z.to_nat n) m off rem;
                Ok (mkResponse (Live md) st rs hs n)
          end
  end.

(** Names are compared without case. *)
Definition lower (c : Z) : Z := if (65 <=? c) && (c <=? 90) then c + 32 else c.
Fixpoint same_name (n hn : list Z) : bool :=
  match n, hn with
  | [], [] => true
  | c :: n, d :: hn => if lower c =? lower d then same_name n hn else false
  | _, _ => false
  end.
Fixpoint find_header (nm : list Z) (hs : list header) : option header :=
  match hs with [] => None | h :: hs => if same_name nm (name h) then Some h else find_header nm hs end.
(** [get_header]; a response that lost its headers has a count and no array. *)
Definition get_header (r : response) (nm : list Z) : res (option header) :=
  if num_headers r =? Z.of_nat (length (headers r)) then Ok (find_header nm (headers r)) else Fault.

(** ** Requests *)

Record request := mkRequest { rq_method : list Z; uri : list Z; version : list Z; rq_headers : list header }.

Definition header_size (h : header) : Z := Z.of_nat (length (name h)) + Z.of_nat (length (value h)) + 4.
Definition get_request_size (r : request) : Z :=
  foldl (fun size h => size + header_size h)
    (Z.of_nat (length (rq_method r)) + 1 + Z.of_nat (length (uri r)) + 1 + Z.of_nat (length (version r)) + 2) (rq_headers r) + 2.
(** [request::get_size], which nothing calls: it counts two bytes more than the line has. *)
Definition get_size (r : request) : Z :=
  u16 (foldl (fun size h => size + header_size h)
    (Z.of_nat (length (rq_method r)) + Z.of_nat (length (uri r)) + Z.of_nat (length (version r)) + 6) (rq_headers r) + 2).

(** Bytes at the write position of a buffer. *)
Definition put (l : list Z) (bp : list Z * Z) : res (list Z * Z) :=
  let '(b, p) := bp in
  if (0 <=? p) && (p + Z.of_nat (length l) <=? Z.of_nat (length b))
  then Ok (take (Z.to_nat p) b ++ l ++ drop (Z.to_nat p + length l) b, p + Z.of_nat (length l)) else Fault.

Fixpoint put_headers (hs : list header) (bp : list Z * Z) : res (list Z * Z) :=
  match hs with
  | [] => Ok bp
  | h :: hs => bp ← put (name h) bp; bp ← put [58; 32] bp; bp ← put (value h) bp; bp ← put [13; 10] bp; put_headers hs bp
  end.

Definition create_packet (r : request) : res (list Z) :=
  let size := u16 (get_request_size r) in
  bp ← put (rq_method r) (replicate (Z.to_nat size) 0, 0);
  bp ← put [32] bp; bp ← put (uri r) bp; bp ← put [32] bp; bp ← put (version r) bp; bp ← put [13; 10] bp;
  bp ← put_headers (rq_headers r) bp;
  bp ← put [13; 10] bp;
  Ok bp.1.

(** ** Downloads *)

Inductive http_state := CLOSED | GET_SENT | RECEIVING_CHUNK_LEN | RECEIVING_RESPONSE | RESPONSE_COMPLETE.
Inductive transfer_type := Regular | Chunked.

#[export] Instance http_state_eq_dec : EqDecision http_state.
Proof. solve_decision. Defined.
#[export] Instance transfer_type_eq_dec : EqDecision transfer_type.
Proof. solve_decision. Defined.

Record http := mkHttp { buf : list Z; buf_capacity : Z; buf_size : Z; state : http_state; transfer : transfer_type; current_chunk_size : Z }.
Definition new_http : http := mkHttp [] 0 0 CLOSED Regular 0.
Definition set_state (h : http) (s : http_state) : http := mkHttp (buf h) (buf_capacity h) (buf_size h) s (transfer h) (current_chunk_size h).
Definition set_transfer (h : http) (t : transfer_type) (n : Z) : http := mkHttp (buf h) (buf_capacity h) (buf_size h) (state h) t n.
Definition set_buf (h : http) (b : list Z) (cap n : Z) : http := mkHttp b cap n (state h) (transfer h) (current_chunk_size h).

(** What the client does to the outside. *)
Inductive effect := Send (packet : list Z) | Progress (percent : Z) | Save (path data : list Z) | Incomplete | Deleted.

Definition GET : list Z := [71; 69; 84].
Definition slash : list Z := [47].
Definition HTTP_1_1 : list Z := [72; 84; 84; 80; 47; 49; 46; 49].
Definition Host : list Z := [72; 111; 115; 116].
Definition User_Agent : list Z := [85; 115; 101; 114; 45; 65; 103; 101; 110; 116].
Definition BrebOS : list Z := [66; 114; 101; 98; 79; 83].
Definition Accept : list Z := [65; 99; 99; 101; 112; 116].
Definition any : list Z := [42; 47; 42].
Definition Connection : list Z := [67; 111; 110; 110; 101; 99; 116; 105; 111; 110].
Definition close_value : list Z := [99; 108; 111; 115; 101].
Definition Content_Length : list Z := [67; 111; 110; 116; 101; 110; 116; 45; 76; 101; 110; 103; 116; 104].
Definition Transfer_Encoding : list Z := [84; 114; 97; 110; 115; 102; 101; 114; 45; 69; 110; 99; 111; 100; 105; 110; 103].
Definition chunked : list Z := [99; 104; 117; 110; 107; 101; 100].
Definition Location : list Z := [76; 111; 99; 97; 116; 105; 111; 110].
(** ["/downloads/res.txt"]. *)
Definition save_path : list Z := [47; 100; 111; 119; 110; 108; 111; 97; 100; 115; 47; 114; 101; 115; 46; 116; 120; 116].

(** The request of [send_get]: the URI that is asked for is only printed. *)
Definition get_request (hostname : list Z) : request :=
  mkRequest GET slash HTTP_1_1 [mkHeader Host hostname; mkHeader User_Agent BrebOS; mkHeader Accept any; mkHeader Connection close_value].
Definition send_get (hostname uri_ : list Z) (h : http) : res (http * list effect) :=
  p ← create_packet (get_request hostname); Ok (set_state h GET_SENT, [Send p]).

(** [update_progress]: floating-point numbers, exact for these sizes; undefined for a total of zero. *)
Definition update_progress (v total : Z) : res effect := if total =? 0 then Fault else Ok (Progress (v * 100 / total)).

(** [memcpy] into the buffer of the body. *)
Definition copy_body (b : list Z) (off : Z) (data : list Z) : res (list Z) :=
  if off + Z.of_nat (length data) <=? Z.of_nat (length b)
  then Ok (take (Z.to_nat off) b ++ data ++ drop (Z.to_nat off + length data) b) else Fault.

(** The end of the connection, with or without an error; the client is deleted. *)
Definition on_connection_terminated (error : bool) (h : http) : list effect :=
  (if error then []
   else if (buf_size h =? buf_capacity h) && bool_decide (state h = RESPONSE_COMPLETE)
   then [Save save_path (take (Z.to_nat (buf_size h)) (buf h))] else [Incomplete]) ++ [Deleted].

(** Closing the socket from inside the client ends the connection, and nothing is left of the client. *)
Definition close_socket (h : http) : option http * list effect := (None, on_connection_terminated false h).

(** [socket->close(); state = State::CLOSED;] *)
Definition abandon (h : http) : res (option http * list effect) :=
  let '(o, fx) := close_socket h in h ← deref o; Ok (Some (set_state h CLOSED), fx).

Definition handle_response_continuation (m : list Z) (off packet_size : Z) (h : http) : res (option http * list effect) :=
  let go size h :=
    data ← sub m off size;
    b ← copy_body (buf h) (buf_size h) data;
    let n := u16 (buf_size h + size) in
    pr ← update_progress n (buf_capacity h);
    let h := set_buf h b (buf_capacity h) n in
    Ok (Some (if bool_decide (transfer h = Regular) && (n =? buf_capacity h) then set_state h RESPONSE_COMPLETE else h), [pr]) in
  if buf_capacity h <? buf_size h + packet_size then
    crlf ← (if bool_decide (transfer h = Chunked) && (buf_size h + packet_size =? buf_capacity h + 2) then
              s ← sub m (off + packet_size - 2) 2; Ok (bool_decide (s = [13; 10]))
            else Ok false);
    if (crlf : bool) then
      if current_chunk_size h =? 0 then Ok (Some (set_state h RESPONSE_COMPLETE), [])
      else go (packet_size - 2) (set_state h RECEIVING_CHUNK_LEN)
    else abandon h
  else go packet_size h.

(** A number in base 16 as it is read: every character counts as a digit, of a 32-bit or a 16-bit variable. *)
Fixpoint read_hex (cut : Z -> Z) (acc : Z) (l : list Z) : Z :=
  match l with [] => acc | c :: l => read_hex cut (cut (cut (acc * 16) + (Fb.to_char c - 48))) l end.
Fixpoint read_decimal (acc : Z) (l : list Z) : Z :=
  match l with [] => acc | c :: l => read_decimal (u32 (u32 (acc * 10) + (Fb.to_char c - 48))) l end.

(** [handle_chunk_length]: the offset behind the length. *)
Definition handle_chunk_length (m : list Z) (packet_size : Z) (h : http) : res (option Z * option http * list effect) :=
  e ← memmem m 0 packet_size [13; 10];
  match e with
  | None => '(o, fx) ← abandon h; Ok (None, o, fx)
  | Some e =>
      s ← sub m 0 e;
      Ok (Some (e + 2), Some (set_transfer h (transfer h) (read_hex u16 0 s)), [])
  end.

(** The length and the start of the body. *)
Definition body_length (m : list Z) (packet_size end_of_headers : Z) (r : response) (h : http)
  : res (sum (option http * list effect) (Z * Z * http)) :=
  o ← get_header r Content_Length;
  match o with
  | Some cl => Ok (inr (read_decimal 0 (value cl), end_of_headers, h))
  | None =>
      o ← get_header r Transfer_Encoding;
      match o with
      | Some te =>
          if negb (bool_decide (value te = chunked)) then x ← abandon h; Ok (inl x)
          else
            let h := set_transfer (set_state h RECEIVING_CHUNK_LEN) Chunked (current_chunk_size h) in
            e ← memmem m end_of_headers (packet_size - end_of_headers) [13; 10];
            match e with
            | None => x ← abandon h; Ok (inl x)
            | Some e =>
                s ← sub m end_of_headers (e - end_of_headers);
                let n := read_hex u32 0 s in
                Ok (inr (n, e + 2, set_transfer h Chunked (u16 n)))
            end
      | None =>
          '(o, _) ← abandon h; h ← deref o; Ok (inr (0, end_of_headers, h))
      end
  end.

Definition handle_response_descriptor (m : list Z) (packet_size : Z) (h : http) : res (option http * list effect) :=
  r ← parse_response m packet_size;
  if bool_decide (method r = Null) then abandon h
  else if negb (bool_decide (state h = GET_SENT) && (status r =? HTTP_OK)) then
    _ ← (if status r =? HTTP_MOVED_PERMANENTLY then o ← get_header r Location; l ← deref o; Ok tt else Ok tt);
    abandon h
  else
    e ← memmem m 0 packet_size [13; 10; 13; 10];
    match e with
    | None => abandon h
    | Some e =>
        x ← body_length m packet_size (e + 4) r h;
        match x with
        | inl x => Ok x
        | inr (content_len, start, h) =>
            let h := set_state h RECEIVING_RESPONSE in
            let cap := u16 content_len in
            let size := packet_size - start in
            data ← sub m start size;
            b ← copy_body (replicate (Z.to_nat cap) 0) 0 data;
            let n := u16 size in
            let h := set_buf h b cap n in
            if truthy n then pr ← update_progress n cap; Ok (Some h, [pr]) else Ok (Some h, [])
        end
    end.

Definition on_data_received (m : list Z) (packet_size : Z) (h : http) : res (option http * list effect) :=
  match state h with
  | GET_SENT => handle_response_descriptor m packet_size h
  | RECEIVING_CHUNK_LEN =>
      '(content, o, fx) ← handle_chunk_length m packet_size h;
      match content with
      | Some off => h ← deref o; '(o, fx') ← handle_response_continuation m off (u16 (packet_size - off)) h; Ok (o, fx ++ fx')
      | None => Ok (o, fx)
      end
  | RECEIVING_RESPONSE => handle_response_continuation m 0 packet_size h
  | _ => Ok (close_socket h)
  end.

(** The client behind its socket: the events of the connection, in order; an event for a deleted client is a fault. *)
Definition listen (e : Tcp.event) (o : option http) : res (option http * list effect) :=
  match e with
  | Tcp.Data p => h ← deref o; on_data_received p (Z.of_nat (length p)) h
  | Tcp.Terminated r => h ← deref o; Ok (None, on_connection_terminated (match r with Tcp.NoError => false | _ => true end) h)
  | _ => Ok (o, [])
  end.
Fixpoint listen_all (es : list Tcp.event) (o : option http) : res (option http * list effect) :=
  match es with
  | [] => Ok (o, [])
  | e :: es => '(o, fx) ← listen e o; '(o, fx') ← listen_all es o; Ok (o, fx ++ fx')
  end.

(** ** Requests as text *)

Definition crlf : list Z := [13; 10].
Definition header_line (h : header) : list Z := name h ++ [58; 32] ++ value h.
Definition line_text (l : list Z) : list Z := l ++ crlf.
Definition lines_text (ls : list (list Z)) : list Z := concat (map line_text ls).
Definition request_text (r : request) : list Z :=
  lines_text ((rq_method r ++ [32] ++ uri r ++ [32] ++ version r) :: map header_line (rq_headers r)) ++ crlf.

(** The buffer of a packet that has been written up to some place. *)
Definition filled (pre : list Z) (n : nat) : list Z * Z := (pre ++ replicate n 0, Z.of_nat (length pre)).

Lemma put_filled l pre n : (length l <= n)%nat -> put l (filled pre n) = Ok (filled (pre ++ l) (n - length l)).
Proof.
  intros Hl. unfold put, filled. rewrite length_app, length_replicate.
  assert ((0 <=? Z.of_nat (length pre)) && (Z.of_nat (length pre) + Z.of_nat (length l) <=? Z.of_nat (length pre + n)) = true) as -> by (bool_to_prop; lia || done).
  rewrite Nat2Z.id, take_app_length, drop_app_add, drop_replicate, <- app_assoc, length_app. do 2 f_equal. lia.
Qed.

Lemma header_line_size h : Z.of_nat (length (line_text (header_line h))) = header_size h.
Proof. unfold line_text, header_line, header_size, crlf. rewrite !length_app. cbn [length]. lia. Qed.

Lemma put_headers_filled hs : forall pre n, (length (lines_text (map header_line hs)) <= n)%nat ->
  put_headers hs (filled pre n) = Ok (filled (pre ++ lines_text (map header_line hs)) (n - length (lines_text (map header_line hs)))).
Proof.
  induction hs as [|h hs IH]; intros pre n Hn; cbn [put_headers].
  - cbn. by rewrite app_nil_r, Nat.sub_0_r.
  - unfold lines_text in *. cbn [map concat] in *. rewrite length_app in Hn. pose proof (header_line_size h) as Hh. unfold header_size in Hh.
    rewrite put_filled by lia. run. rewrite put_filled by (cbn; lia). run. rewrite put_filled by (cbn; lia). run.
    rewrite put_filled by (cbn; lia). run. rewrite IH by (cbn; lia). f_equal. unfold line_text, header_line, crlf.
    f_equal; [by rewrite <- !app_assoc|]. rewrite !length_app. cbn [length]. lia.
Qed.

Lemma request_size_text r : get_request_size r = Z.of_nat (length (request_text r)).
Proof.
  unfold get_request_size, request_text, lines_text. cbn [map concat]. unfold crlf. rewrite length_app. unfold line_text at 1, crlf. rewrite !length_app. cbn [length].
  assert (forall hs a, foldl (fun size h => size + header_size h) a hs = a + Z.of_nat (length (concat (map line_text (map header_line hs))))) as Hf.
  { induction hs as [|h hs IH]; intros a; cbn [foldl map concat]; [cbn; lia|]. rewrite IH, length_app, <- header_line_size. lia. }
  rewrite Hf. lia.
Qed.

(** The packet of a request that fits into one is the request line, the headers and an empty line; its buffer has exactly their
    size. *)
Theorem request_written r : Z.of_nat (length (request_text r)) < 65536 ->
  create_packet r = Ok (request_text r) /\ Z.of_nat (length (request_text r)) = get_request_size r.
Proof.
  intros Hs. split; [|by rewrite request_size_text]. unfold create_packet. rewrite request_size_text, u16_id by (unfold is_u16; lia). rewrite Nat2Z.id.
  set (n := length (request_text r)). change (replicate n 0, 0) with (filled [] n).
  assert (n = (length (rq_method r) + 1 + length (uri r) + 1 + length (version r) + 2 + length (lines_text (map header_line (rq_headers r))) + 2)%nat) as Hn.
  { unfold n, request_text, lines_text. cbn [map concat]. unfold line_text at 1, crlf. rewrite !length_app. cbn [length]. lia. }
  do 6 (rewrite put_filled by (cbn [length]; lia); run). rewrite put_headers_filled by (cbn [length]; lia). run.
  rewrite put_filled by (cbn [length]; lia). run. cbn [fst filled]. f_equal.
  replace (_ - _)%nat with 0%nat by (cbn [length]; lia). cbn [replicate]. rewrite app_nil_r. unfold request_text, lines_text. cbn [map concat].
  unfold line_text at 2.
  rewrite <- !app_assoc. done.
Qed.

Lemma request_written_witness : create_packet (get_request [104]) = Ok (request_text (get_request [104])).
Proof. exact (proj1 (request_written (get_request [104]) ltac:(vm_compute; reflexivity))). Defined.

(** ** Searching in a packet *)

Lemma fetch_mid (pre suf : list Z) x : Fb.fetch (pre ++ x :: suf) (Z.of_nat (length pre)) = Ok x.
Proof. apply Fb.fetch_ok; [lia|]. rewrite Nat2Z.id. apply lookup_app_cons. Qed.

Lemma sub_mid (pre t suf : list Z) : sub (pre ++ t ++ suf) (Z.of_nat (length pre)) (Z.of_nat (length t)) = Ok t.
Proof.
  unfold sub. rewrite !length_app.
  assert ((0 <=? Z.of_nat (length pre)) && (0 <=? Z.of_nat (length t)) && (Z.of_nat (length pre) + Z.of_nat (length t) <=? Z.of_nat (length pre + (length t + length suf))) = true) as -> by (bool_to_prop; lia || done).
  by rewrite !Nat2Z.id, drop_app_length, take_app_length.
Qed.

Lemma sub_take (pre t : list Z) k : (k <= length t)%nat -> sub (pre ++ t) (Z.of_nat (length pre)) (Z.of_nat k) = Ok (take k t).
Proof. intros Hk. pose proof (sub_mid pre (take k t) (drop k t)) as E. rewrite take_drop, length_take, Nat.min_l in E by lia. exact E. Qed.

Lemma find_char_loop_ok c t : forall n pre suf, c ∉ t -> (length t < n)%nat ->
  find_char_loop n (pre ++ t ++ c :: suf) (Z.of_nat (length pre)) c = Ok (Some (Z.of_nat (length pre + length t))).
Proof.
  induction t as [|x t IH]; intros n pre suf Hc Hn; (destruct n as [|n]; [cbn in Hn; lia|]); cbn [find_char_loop app].
  - rewrite fetch_mid. run. rewrite Z.eqb_refl. do 2 f_equal. cbn. lia.
  - rewrite fetch_mid. run. apply not_elem_of_cons in Hc as [Hx Hc]. destruct (Z.eqb_spec x c); [congruence|].
    replace (pre ++ x :: t ++ c :: suf) with ((pre ++ [x]) ++ t ++ c :: suf) by (by rewrite <- app_assoc).
    replace (Z.of_nat (length pre) + 1) with (Z.of_nat (length (pre ++ [x]))) by (rewrite length_app; cbn; lia).
    rewrite IH by (done || (cbn in Hn; lia)). do 2 f_equal. rewrite length_app. cbn. lia.
Qed.

Lemma find_char_ok c t pre suf len : c ∉ t -> Z.of_nat (length t) <= len ->
  find_char (pre ++ t ++ c :: suf) (Z.of_nat (length pre)) c len = Ok (Some (Z.of_nat (length pre + length t))).
Proof. intros Hc Hl. apply find_char_loop_ok; [done|lia]. Qed.

(** Lines of a packet: not empty, and without a carriage return. *)
Definition line_ok (l : list Z) : Prop := l <> [] /\ 13 ∉ l.

(** Both searches go over a line character by character. *)
Lemma count_skip t : forall n pre suf c, 13 ∉ t -> (length t <= n)%nat ->
  count_headers_loop n (pre ++ t ++ suf) (Z.of_nat (length pre)) c =
  count_headers_loop (n - length t) ((pre ++ t) ++ suf) (Z.of_nat (length (pre ++ t))) c.
Proof.
  induction t as [|x t IH]; intros n pre suf c Hc Hn; [by rewrite app_nil_r, Nat.sub_0_r|]. destruct n as [|n]; [cbn in Hn; lia|].
  cbn [count_headers_loop app]. rewrite fetch_mid. run. apply not_elem_of_cons in Hc as [Hx Hc]. destruct (Z.eqb_spec x 13); [congruence|].
  replace (pre ++ x :: t ++ suf) with ((pre ++ [x]) ++ t ++ suf) by (by rewrite <- app_assoc).
  replace (Z.of_nat (length pre) + 1) with (Z.of_nat (length (pre ++ [x]))) by (rewrite length_app; cbn; lia).
  rewrite IH by (done || (cbn in Hn; lia)). by rewrite <- !app_assoc.
Qed.

Lemma memmem_skip needle t : forall n pre suf, head needle = Some 13 -> 13 ∉ t -> (length t <= n)%nat -> (length needle <= length suf)%nat ->
  memmem_loop n (pre ++ t ++ suf) (Z.of_nat (length pre)) needle =
  memmem_loop (n - length t) ((pre ++ t) ++ suf) (Z.of_nat (length (pre ++ t))) needle.
Proof.
  intros n pre suf Hh. revert n pre. induction t as [|x t IH]; intros n pre Hc Hn Hs; [by rewrite app_nil_r, Nat.sub_0_r|].
  destruct n as [|n]; [cbn in Hn; lia|]. cbn [memmem_loop app]. apply not_elem_of_cons in Hc as [Hx Hc].
  destruct needle as [|y needle]; [done|]. cbn in Hh. injection Hh as ->.
  rewrite sub_take by (cbn in *; rewrite length_app; lia).
  run. rewrite bool_decide_false by (cbn; congruence).
  replace (pre ++ x :: t ++ suf) with ((pre ++ [x]) ++ t ++ suf) by (by rewrite <- app_assoc).
  replace (Z.of_nat (length pre) + 1) with (Z.of_nat (length (pre ++ [x]))) by (rewrite length_app; cbn; lia).
  rewrite IH by (done || (cbn in *; lia)). by rewrite <- !app_assoc.
Qed.

Lemma fetch_nth (pre t : list Z) k x : 0 <= k -> t !! Z.to_nat k = Some x -> Fb.fetch (pre ++ t) (Z.of_nat (length pre) + k) = Ok x.
Proof. intros Hk0 Hk. apply Fb.fetch_ok; [lia|]. rewrite lookup_app_r by lia. rewrite <- Hk. f_equal. lia. Qed.

Lemma not_cr_lf : 13 ∉ [10].
Proof. by intros [= ]%list_elem_of_singleton. Qed.

(** The end of a line, with another line or an empty one behind it. *)
Lemma count_crlf n pre x suf c : x <> 13 -> (1 <= n)%nat -> count_headers_loop (S n) (pre ++ crlf ++ x :: suf) (Z.of_nat (length pre)) c =
  count_headers_loop (n - 1) ((pre ++ crlf) ++ x :: suf) (Z.of_nat (length (pre ++ crlf))) (u16 (c + 1)).
Proof.
  intros Hx Hn. cbn [count_headers_loop]. unfold crlf. cbn [app]. rewrite fetch_mid. run. rewrite Z.eqb_refl.
  rewrite (fetch_nth pre (13 :: 10 :: x :: suf) 1 10 ltac:(lia) eq_refl). run. rewrite Z.eqb_refl.
  rewrite (fetch_nth pre (13 :: 10 :: x :: suf) 2 x ltac:(lia) eq_refl). run. apply Z.eqb_neq in Hx. rewrite Hx.
  replace (pre ++ 13 :: 10 :: x :: suf) with ((pre ++ [13]) ++ [10] ++ x :: suf) by (by rewrite <- app_assoc).
  replace (Z.of_nat (length pre) + 1) with (Z.of_nat (length (pre ++ [13]))) by (rewrite length_app; cbn; lia).
  rewrite count_skip by (apply not_cr_lf || (cbn; lia)). by rewrite <- !app_assoc.
Qed.

Lemma count_end n pre suf c : count_headers_loop (S n) (pre ++ crlf ++ crlf ++ suf) (Z.of_nat (length pre)) c = Ok (u16 (c + 1)).
Proof.
  cbn [count_headers_loop]. unfold crlf. cbn [app]. rewrite fetch_mid. run. rewrite Z.eqb_refl.
  rewrite (fetch_nth pre (13 :: 10 :: 13 :: 10 :: suf) 1 10 ltac:(lia) eq_refl). run. rewrite Z.eqb_refl.
  rewrite (fetch_nth pre (13 :: 10 :: 13 :: 10 :: suf) 2 13 ltac:(lia) eq_refl). run. rewrite Z.eqb_refl.
  rewrite (fetch_nth pre (13 :: 10 :: 13 :: 10 :: suf) 3 10 ltac:(lia) eq_refl). run. by rewrite Z.eqb_refl.
Qed.

Lemma line_head l : line_ok l -> exists x t, l = x :: t /\ x <> 13.
Proof. intros [Hn H13]. destruct l as [|x t]; [done|]. exists x, t. split; [done|]. intros ->. apply H13. by left. Qed.

Lemma lines_text_cons l ls : lines_text (l :: ls) = l ++ crlf ++ lines_text ls.
Proof. unfold lines_text. cbn. unfold line_text. by rewrite <- app_assoc. Qed.

Lemma count_lines ls : forall l n pre suf c, Forall line_ok (l :: ls) -> (length (lines_text (l :: ls)) <= n)%nat -> 0 <= c -> c + Z.of_nat (length (l :: ls)) < 65536 ->
  count_headers_loop n (pre ++ lines_text (l :: ls) ++ crlf ++ suf) (Z.of_nat (length pre)) c = Ok (c + Z.of_nat (length (l :: ls))).
Proof.
  induction ls as [|l' ls IH]; intros l n pre suf c HF Hn Hc0 Hc; rewrite lines_text_cons in *; rewrite !length_app in Hn; cbn [length] in Hn, Hc;
    apply Forall_cons in HF as [[_ H13] HF]; rewrite <- !app_assoc, count_skip by (done || lia); cbn [crlf length] in Hn.
  - destruct (n - length l)%nat as [|m] eqn:Em; [lia|]. cbn [lines_text map concat app]. rewrite count_end. rewrite u16_id by (unfold is_u16; lia). done.
  - pose proof HF as HF'. apply Forall_cons in HF' as [Hl' _]. destruct (line_head l' Hl') as (x & t & E & Hx).
    destruct (n - length l)%nat as [|m] eqn:Em; [lia|]. rewrite lines_text_cons, E. cbn [app]. rewrite count_crlf by (done || lia).
    rewrite u16_id by (unfold is_u16; lia). specialize (IH l' (m - 1)%nat ((pre ++ l) ++ crlf) suf (c + 1) HF).
    rewrite lines_text_cons, E in IH. cbn [app] in IH. rewrite <- !app_assoc in *. cbn [app] in *. rewrite IH; [f_equal; cbn [length]; lia|..|lia|cbn [length]; lia].
    rewrite lines_text_cons, E in Hn. cbn [length app] in *. rewrite !length_app in *. cbn [length] in *. lia.
Qed.

Definition empty_line : list Z := [13; 10; 13; 10].

Lemma memmem_lines ls : forall l n pre suf, Forall line_ok (l :: ls) -> (length (lines_text (l :: ls)) <= S n)%nat ->
  memmem_loop n (pre ++ lines_text (l :: ls) ++ crlf ++ suf) (Z.of_nat (length pre)) empty_line =
  Ok (Some (Z.of_nat (length pre) + Z.of_nat (length (lines_text (l :: ls))) - 2)).
Proof.
  induction ls as [|l' ls IH]; intros l n pre suf HF Hn; rewrite lines_text_cons in *; rewrite !length_app in Hn;
    apply Forall_cons in HF as [[_ H13] HF]; rewrite <- !app_assoc, memmem_skip; try done; cbn [crlf length] in Hn; try lia;
    try (rewrite !length_app; cbn [length crlf empty_line]; lia).
  - destruct (n - length l)%nat as [|m] eqn:Em; [lia|]. cbn [lines_text map concat app memmem_loop].
    rewrite sub_take by (cbn; lia). run. rewrite bool_decide_true by done. rewrite !length_app. cbn. do 2 f_equal. lia.
  - pose proof HF as HF'. apply Forall_cons in HF' as [Hl' _]. destruct (line_head l' Hl') as (x & t & E & Hx).
    destruct (n - length l)%nat as [|m] eqn:Em; [lia|]. cbn [memmem_loop].
    rewrite sub_take by (rewrite lines_text_cons, !length_app; cbn [length crlf empty_line]; rewrite E; cbn; lia). run.
    rewrite bool_decide_false by (rewrite lines_text_cons, E; unfold empty_line; cbn; congruence).
    replace ((pre ++ l) ++ crlf ++ lines_text (l' :: ls) ++ crlf ++ suf) with ((pre ++ l ++ [13]) ++ [10] ++ lines_text (l' :: ls) ++ crlf ++ suf)
      by (unfold crlf; by rewrite <- !app_assoc).
    replace (Z.of_nat (length (pre ++ l)) + 1) with (Z.of_nat (length (pre ++ l ++ [13]))) by (rewrite !length_app; cbn; lia).
    rewrite lines_text_cons, !length_app in Hn. cbn [length crlf] in Hn. rewrite E in Hn. cbn [length] in Hn.
    rewrite memmem_skip; [|done|apply not_cr_lf|cbn; lia|rewrite lines_text_cons, !length_app; cbn [length crlf empty_line]; lia].
    rewrite IH; [|done|rewrite lines_text_cons, !length_app, E; cbn [length crlf]; lia].
    do 2 f_equal. rewrite !length_app. cbn [length crlf]. lia.
Qed.

(** ** Parsing a response *)

Lemma until0_id l : 0 ∉ l -> until0 l = l.
Proof. induction l as [|c l IH]; intros H0; [done|]. cbn. apply not_elem_of_cons in H0 as [Hc H0]. destruct (Z.eqb_spec c 0); [congruence|]. by rewrite IH. Qed.

Record header_ok (h : header) : Prop := {
  ho_name : name h <> []; ho_colon : 58 ∉ name h; ho_cr : 13 ∉ name h; ho_zero : 0 ∉ name h; ho_vcr : 13 ∉ value h; ho_vzero : 0 ∉ value h
}.

Lemma header_line_ok h : header_ok h -> line_ok (header_line h).
Proof.
  intros []. unfold header_line. split; [destruct (name h); done|]. rewrite !elem_of_app, !elem_of_cons, elem_of_nil. intros [?|[[?|[?|?]]|?]]; done.
Qed.

Lemma parse_headers_ok hs : forall pre suf rem, Forall header_ok hs -> Z.of_nat (length (lines_text (map header_line hs))) <= rem < 65536 ->
  parse_headers (length hs) (pre ++ lines_text (map header_line hs) ++ suf) (Z.of_nat (length pre)) rem = Ok hs.
Proof.
  induction hs as [|h hs IH]; intros pre suf rem HF Hrem; [done|]. apply Forall_cons in HF as [[] HF]. cbn [length parse_headers map] in *.
  rewrite lines_text_cons in *. unfold header_line in * at 1. set (more := lines_text (map header_line hs)) in *.
  rewrite !length_app in Hrem. cbn [length crlf] in Hrem. set (m := pre ++ _ ++ suf).
  assert (m = pre ++ name h ++ 58 :: ((32 :: value h) ++ crlf ++ more ++ suf)) as E1 by (subst m; rewrite <- !app_assoc; done).
  assert (m = (pre ++ name h ++ [58]) ++ (32 :: value h) ++ 13 :: 10 :: more ++ suf) as E2 by (subst m; rewrite <- !app_assoc; done).
  assert (m = (pre ++ name h ++ [58; 32]) ++ value h ++ crlf ++ more ++ suf) as E3 by (subst m; rewrite <- !app_assoc; done).
  assert (m = (pre ++ name h ++ [58; 32] ++ value h ++ crlf) ++ more ++ suf) as E4 by (subst m; rewrite <- !app_assoc; done).
  rewrite E1 at 1. rewrite find_char_ok by (done || lia). run.
  replace (u16 (Z.of_nat (length pre + length (name h)) - Z.of_nat (length pre))) with (Z.of_nat (length (name h)))
    by (rewrite u16_id by (unfold is_u16; lia); lia).
  rewrite E1 at 1. rewrite sub_mid. run.
  replace (Z.of_nat (length pre) + Z.of_nat (length (name h)) + 1) with (Z.of_nat (length (pre ++ name h ++ [58]))) by (rewrite !length_app; cbn; lia).
  rewrite (u16_id (rem - _)) by (unfold is_u16; lia).
  rewrite E2 at 1. rewrite find_char_ok by ((rewrite not_elem_of_cons; done) || (cbn [length]; lia)). run.
  replace (u16 (Z.of_nat (length (pre ++ name h ++ [58]) + length (32 :: value h)) - Z.of_nat (length (pre ++ name h ++ [58])))) with (Z.of_nat (length (32 :: value h)))
    by (rewrite u16_id by (unfold is_u16; cbn [length]; lia); lia).
  assert (truthy (Z.of_nat (length (name h))) = true) as -> by (unfold truthy; destruct (name h); [done|]; bool_to_prop; cbn in *; lia || done).
  rewrite E2 at 1. cbn [app]. rewrite fetch_mid. run. rewrite Z.eqb_refl.
  replace (Z.of_nat (length (pre ++ name h ++ [58])) + 1) with (Z.of_nat (length (pre ++ name h ++ [58; 32]))) by (rewrite !length_app; cbn; lia).
  replace (Z.of_nat (length (32 :: value h)) - 1) with (Z.of_nat (length (value h))) by (cbn [length]; lia).
  rewrite E3 at 1. rewrite sub_mid. run.
  replace (Z.of_nat (length (pre ++ name h ++ [58])) + Z.of_nat (length (32 :: value h)) + 2)
    with (Z.of_nat (length (pre ++ name h ++ [58; 32] ++ value h ++ crlf))) by (rewrite !length_app; cbn [length crlf]; lia).
  rewrite (u16_id (rem - _ - _)) by (unfold is_u16; cbn [length]; lia).
  rewrite E4. rewrite IH by (done || (cbn [length]; lia)). run. rewrite !until0_id by done. by destruct h.
Qed.

(** The parts of a response: the protocol, the three digits of the status, the reason and the headers. *)
Record answer := mkAnswer { an_proto : list Z; an_digits : Z * Z * Z; an_reason : list Z; an_headers : list header }.

Definition an_status (a : answer) : Z := let '(x, y, z) := an_digits a in (x - 48) * 100 + (y - 48) * 10 + z - 48.
Definition status_line (a : answer) : list Z := let '(x, y, z) := an_digits a in an_proto a ++ [32; x; y; z; 32] ++ an_reason a.
Definition answer_text (a : answer) : list Z := lines_text (status_line a :: map header_line (an_headers a)) ++ crlf.

Record answer_ok (a : answer) : Prop := {
  ao_proto : (2 <= length (an_proto a))%nat; ao_space : 32 ∉ an_proto a; ao_cr : 13 ∉ an_proto a;
  ao_digits : let '(x, y, z) := an_digits a in DIGIT x = true /\ DIGIT y = true /\ DIGIT z = true;
  ao_status : an_status a <> 0; ao_reason : 13 ∉ an_reason a; ao_headers : an_headers a <> []; ao_each : Forall header_ok (an_headers a)
}.

Lemma digit_not_cr c : DIGIT c = true -> c <> 13.
Proof. unfold DIGIT. bool_to_prop; done || lia. Qed.

Lemma status_line_ok a : answer_ok a -> line_ok (status_line a).
Proof.
  intros []. unfold status_line. destruct (an_digits a) as [[x y] z]. destruct ao_digits0 as (Hx & Hy & Hz). split; [by destruct (an_proto a)|].
  apply digit_not_cr in Hx, Hy, Hz. rewrite !elem_of_app, !elem_of_cons, elem_of_nil. intros [?|[[?|[?|[?|[?|[?|?]]]]]|?]]; done.
Qed.

Lemma lines_ok a : answer_ok a -> Forall line_ok (status_line a :: map header_line (an_headers a)).
Proof.
  intros Ha. constructor; [by apply status_line_ok|]. apply Forall_fmap. eapply Forall_impl; [apply Ha|]. intros h. apply header_line_ok.
Qed.

Lemma lines_at_least ls : (length ls <= length (lines_text ls))%nat.
Proof. induction ls as [|l ls IH]; [done|]. rewrite lines_text_cons, !length_app. cbn [length crlf]. lia. Qed.

Lemma status_code_ok pre x y z suf : DIGIT x = true -> DIGIT y = true -> DIGIT z = true ->
  parse_status_code (pre ++ x :: y :: z :: suf) (Z.of_nat (length pre)) = Ok ((x - 48) * 100 + (y - 48) * 10 + z - 48).
Proof.
  intros Hx Hy Hz. unfold parse_status_code. rewrite fetch_mid. run. rewrite Hx. cbn [negb].
  rewrite (fetch_nth pre (x :: y :: z :: suf) 1 y) by (done || lia). run. rewrite Hy. cbn [negb].
  rewrite (fetch_nth pre (x :: y :: z :: suf) 2 z) by (done || lia). run. by rewrite Hz.
Qed.

Lemma headers_counted h hs pre suf rem : Forall line_ok (map header_line (h :: hs)) -> Z.of_nat (length (lines_text (map header_line (h :: hs)))) + 2 <= rem < 65536 ->
  count_headers (pre ++ lines_text (map header_line (h :: hs)) ++ crlf ++ suf) (Z.of_nat (length pre)) rem = Ok (Z.of_nat (length (h :: hs))).
Proof.
  intros HF Hrem. pose proof (lines_at_least (map header_line (h :: hs))) as Hmany. rewrite length_map in Hmany. unfold count_headers. cbn [map] in *.
  rewrite lines_text_cons, !length_app in Hrem. cbn [length crlf] in Hrem. destruct (Z.ltb_spec rem 4); [lia|].
  rewrite (count_lines (map header_line hs)); [cbn [length]; by rewrite length_map|done| |lia|].
  - rewrite lines_text_cons, !length_app. cbn [length crlf]. lia.
  - rewrite lines_text_cons, !length_app in Hmany. cbn [length crlf] in *. rewrite length_map. lia.
Qed.

(** A response is read back as it was written, whatever the body and the bytes behind the packet are. *)
Lemma parse_answer a body rest : answer_ok a -> Z.of_nat (length (answer_text a) + length body) < 65536 ->
  parse_response (answer_text a ++ body ++ rest) (Z.of_nat (length (answer_text a) + length body)) =
  Ok (mkResponse (Live (an_proto a)) (an_status a) (an_reason a) (an_headers a) (Z.of_nat (length (an_headers a)))).
Proof.
  intros Ha Hs. pose proof (lines_ok a Ha) as Hlines. apply Forall_cons in Hlines as [_ Hlines]. destruct Ha. unfold answer_text in *.
  rewrite lines_text_cons in *. unfold status_line, an_status in *. destruct (an_digits a) as [[x y] z]. destruct ao_digits0 as (Hx & Hy & Hz).
  set (p := an_proto a) in *. set (rs := an_reason a) in *. set (hs := an_headers a) in *. set (hl := lines_text (map header_line hs)) in *.
  rewrite !length_app in Hs. cbn [length crlf] in Hs. set (size := Z.of_nat _). set (m := _ ++ body ++ rest).
  assert (size = Z.of_nat (length p) + 5 + Z.of_nat (length rs) + 2 + Z.of_nat (length hl) + 2 + Z.of_nat (length body)) as Esize
    by (subst size; rewrite !length_app; cbn [length crlf]; lia). clearbody size.
  assert (m = [] ++ p ++ 32 :: ([x; y; z; 32] ++ rs ++ crlf ++ hl ++ crlf ++ body ++ rest)) as E1 by (subst m; rewrite <- !app_assoc; done).
  assert (m = (p ++ [32]) ++ x :: y :: z :: 32 :: rs ++ crlf ++ hl ++ crlf ++ body ++ rest) as E2 by (subst m; rewrite <- !app_assoc; done).
  assert (m = (p ++ [32; x; y; z; 32]) ++ rs ++ 13 :: 10 :: hl ++ crlf ++ body ++ rest) as E3 by (subst m; rewrite <- !app_assoc; done).
  assert (m = (p ++ [32; x; y; z; 32] ++ rs ++ crlf) ++ hl ++ crlf ++ body ++ rest) as E4 by (subst m; rewrite <- !app_assoc; done). clearbody m.
  unfold parse_response. rewrite E1 at 1. change 0 with (Z.of_nat (length (@nil Z))) at 1. rewrite find_char_ok by (done || lia). run. cbn [length].
  rewrite Nat.add_0_l, (u16_id (Z.of_nat (length p))) by (unfold is_u16; lia).
  rewrite E1 at 1. pose proof (sub_mid [] p (32 :: ([x; y; z; 32] ++ rs ++ crlf ++ hl ++ crlf ++ body ++ rest))) as Es. change (Z.of_nat (length (@nil Z))) with 0 in Es. rewrite Es. run.
  rewrite (u16_id (size - _)) by (unfold is_u16; lia). destruct (Z.ltb_spec size (size - (Z.of_nat (length p) + 1) + 3)); [lia|].
  replace (Z.of_nat (length p) + 1) with (Z.of_nat (length (p ++ [32]))) by (rewrite length_app; cbn; lia).
  rewrite E2 at 1. rewrite status_code_ok by done. run. apply Z.eqb_neq in ao_status0. rewrite ao_status0. rewrite length_app. cbn [length].
  replace (Z.of_nat (length p + 1) + 4) with (Z.of_nat (length (p ++ [32; x; y; z; 32]))) by (rewrite length_app; cbn; lia).
  rewrite (u16_id (size - _ - 4)) by (unfold is_u16; lia). rewrite E3 at 1. rewrite find_char_ok by (done || lia). run.
  replace (u16 (Z.of_nat (length (p ++ [32; x; y; z; 32]) + length rs) - Z.of_nat (length (p ++ [32; x; y; z; 32])))) with (Z.of_nat (length rs))
    by (rewrite u16_id by (unfold is_u16; lia); lia).
  rewrite E3 at 1. rewrite sub_mid. run.
  replace (Z.of_nat (length (p ++ [32; x; y; z; 32])) + Z.of_nat (length rs) + 2) with (Z.of_nat (length (p ++ [32; x; y; z; 32] ++ rs ++ crlf)))
    by (rewrite !length_app; cbn [length crlf]; lia).
  rewrite (u16_id (size - _ - 4 - _)) by (unfold is_u16; lia). set (rem := size - _ - 4 - _). assert (rem = Z.of_nat (length hl) + 2 + Z.of_nat (length body)) as Erem by lia.
  destruct hs as [|h hs'] eqn:Ehs; [done|]. pose proof (lines_at_least (map header_line (h :: hs'))) as Hmany. rewrite length_map in Hmany. fold hl in Hmany.
  rewrite E4 at 1. subst hl. rewrite headers_counted by (done || lia).
  run. destruct (Z.eqb_spec (Z.of_nat (length (h :: hs'))) 65535); [lia|]. rewrite Nat2Z.id, E4.
  rewrite (parse_headers_ok (h :: hs') (p ++ [32; x; y; z; 32] ++ rs ++ crlf) (crlf ++ body ++ rest) rem) by (done || lia). done.
Qed.


(** Header names are found in any spelling. *)
Lemma same_name_lower n : forall hn, same_name n hn = bool_decide (map lower n = map lower hn).
Proof.
  induction n as [|c n IH]; intros [|d hn]; cbn; try done. rewrite IH. destruct (Z.eqb_spec (lower c) (lower d)) as [E|E].
  - apply bool_decide_ext. rewrite E. split; [by intros ->|by intros [= ?]].
  - symmetry. apply bool_decide_false. by intros [= ? _].
Qed.

(** A response of a status line and headers is read back as it was written, whatever the body and the bytes behind the packet are,
    and a header is found by its name in any spelling. *)
Theorem response_round_trip a body rest nm h : answer_ok a -> Z.of_nat (length (answer_text a) + length body) < 65536 ->
  h ∈ an_headers a -> map lower nm = map lower (name h) ->
  exists r, parse_response (answer_text a ++ body ++ rest) (Z.of_nat (length (answer_text a) + length body)) = Ok r /\
    method r = Live (an_proto a) /\ status r = an_status a /\ reason r = an_reason a /\ headers r = an_headers a /\
    exists h', get_header r nm = Ok (Some h') /\ h' ∈ an_headers a /\ map lower (name h') = map lower nm.
Proof.
  intros Ha Hs Hh En. eexists. split; [by apply parse_answer|]. repeat (split; [done|]). unfold get_header. cbn [num_headers headers]. rewrite Z.eqb_refl.
  clear - Hh En. induction (an_headers a) as [|x hs IH]; [by apply elem_of_nil in Hh|]. cbn [find_header]. rewrite same_name_lower.
  case_bool_decide as E; [exists x; split; [done|]; split; [by left|done]|]. apply elem_of_cons in Hh as [->|Hh]; [done|].
  destruct (IH Hh) as (h' & E' & Hin & ?). exists h'. injection E' as ->. split; [done|]. split; [by right|done].
Qed.

(** ** Downloads *)

Lemma read_decimal_digits ds : forall acc, Forall (fun d => 0 <= d < 10) ds -> 0 <= acc -> foldl (fun a d => a * 10 + d) acc ds < 2 ^ 32 ->
  read_decimal acc (map (fun d => 48 + d) ds) = foldl (fun a d => a * 10 + d) acc ds /\ acc <= foldl (fun a d => a * 10 + d) acc ds.
Proof.
  induction ds as [|d ds IH]; intros acc HF Ha Hv; [done|]. apply Forall_cons in HF as [Hd HF]. cbn [map read_decimal foldl] in *.
  assert (forall ds a, Forall (fun d => 0 <= d < 10) ds -> 0 <= a -> a <= foldl (fun a d => a * 10 + d) a ds) as Hmono.
  { induction ds0 as [|x ds0 IH0]; intros a HF0 Ha0; [done|]. apply Forall_cons in HF0 as [Hx HF0]. cbn. specialize (IH0 (a * 10 + x) HF0). lia. }
  specialize (Hmono ds (acc * 10 + d) HF ltac:(lia)).
  assert (Fb.to_char (48 + d) = 48 + d) as -> by (unfold Fb.to_char; rewrite Z.mod_small by lia; destruct (Z.ltb_spec (48 + d) 128); lia).
  rewrite (u32_id (acc * 10)) by (unfold is_u32; lia). replace (acc * 10 + (48 + d - 48)) with (acc * 10 + d) by lia.
  rewrite u32_id by (unfold is_u32; lia). destruct (IH (acc * 10 + d) HF ltac:(lia) Hv) as [-> ?]. split; [done|lia].
Qed.

(** A header that announces [n] bytes. *)
Definition announces (hs : list header) (n : Z) : Prop :=
  exists cl, find_header Content_Length hs = Some cl /\ value cl = map (fun d => 48 + d) (Printf.numeral Printf.digit_fuel 10 n).

Lemma announced n : 0 <= n < 2 ^ 32 -> read_decimal 0 (map (fun d => 48 + d) (Printf.numeral Printf.digit_fuel 10 n)) = n.
Proof.
  intros Hn. assert (Printf.value 10 (Printf.numeral Printf.digit_fuel 10 n) = n) as Ev
    by (apply Printf.value_numeral; [lia|change (2 ^ Z.of_nat Printf.digit_fuel) with (2 * 2 ^ 63); lia]).
  unfold Printf.value in Ev. destruct (read_decimal_digits (Printf.numeral Printf.digit_fuel 10 n) 0) as [-> _]; [apply Printf.numeral_digits; lia|lia|rewrite Ev; lia|exact Ev].
Qed.

(** The state of a transfer in which [got] of [n] bytes have arrived. *)
Definition receiving (h : http) (got : list Z) (n : Z) (st : http_state) : http :=
  mkHttp (got ++ replicate (Z.to_nat n - length got) 0) n (Z.of_nat (length got)) st (transfer h) (current_chunk_size h).

Lemma copy_body_filled got k d : (length d <= k)%nat ->
  copy_body (got ++ replicate k 0) (Z.of_nat (length got)) d = Ok ((got ++ d) ++ replicate (k - length d) 0).
Proof.
  intros Hd. unfold copy_body. rewrite length_app, length_replicate. destruct (Z.leb_spec (Z.of_nat (length got) + Z.of_nat (length d)) (Z.of_nat (length got + k))); [|lia].
  by rewrite Nat2Z.id, take_app_length, drop_app_add, drop_replicate, <- app_assoc.
Qed.

(** The search for the empty line in a whole packet. *)
Lemma end_of_headers a rest size : answer_ok a -> Z.of_nat (length (answer_text a)) <= size ->
  memmem (answer_text a ++ rest) 0 size empty_line = Ok (Some (Z.of_nat (length (answer_text a)) - 4)).
Proof.
  intros Ha Hs. unfold memmem. assert (4 <= Z.of_nat (length (answer_text a))) as H4.
  { unfold answer_text. rewrite lines_text_cons, !length_app. cbn [length crlf]. lia. }
  cbn [length empty_line]. destruct (Z.ltb_spec size (Z.of_nat 4)); [lia|]. unfold answer_text in *. rewrite <- app_assoc.
  pose proof (memmem_lines (map header_line (an_headers a)) (status_line a) (Z.to_nat (size - Z.of_nat 4 + 1)) [] rest (lines_ok a Ha)) as E.
  cbn [length app] in E. change (Z.of_nat 0) with 0 in E. rewrite length_app in *. cbn [length crlf] in *. rewrite E by lia. do 2 f_equal. lia.
Qed.

Lemma descriptor_keeps_16_bits a b0 h : answer_ok a -> Z.of_nat (length (answer_text a) + length b0) < 65536 -> state h = GET_SENT -> an_status a = HTTP_OK ->
  forall n, announces (an_headers a) n -> 0 <= n < 2 ^ 32 ->
  handle_response_descriptor (answer_text a ++ b0) (Z.of_nat (length (answer_text a) + length b0)) h =
  if u16 n <? Z.of_nat (length b0) then Fault
  else Ok (Some (receiving h b0 (u16 n) RECEIVING_RESPONSE), if bool_decide (b0 = []) then [] else [Progress (Z.of_nat (length b0) * 100 / u16 n)]).
Proof.
  intros Ha Hs Hst Hok n (cl & Hcl & Ev) Hn. unfold handle_response_descriptor.
  pose proof (parse_answer a b0 [] Ha Hs) as Ep. rewrite app_nil_r in Ep. rewrite Ep. run. cbn [method status].
  rewrite bool_decide_false by done. rewrite Hst, Hok. cbn [bool_decide]. rewrite bool_decide_true by done. change (HTTP_OK =? HTTP_OK) with true. cbn [andb negb].
  change [13; 10; 13; 10] with empty_line. rewrite end_of_headers by (done || lia). run.
  unfold body_length, get_header. cbn [num_headers headers]. rewrite Z.eqb_refl. run. rewrite Hcl. run. rewrite Ev, announced by lia. run.
  replace (Z.of_nat (length (answer_text a)) - 4 + 4) with (Z.of_nat (length (answer_text a))) by lia.
  replace (Z.of_nat (length (answer_text a) + length b0) - Z.of_nat (length (answer_text a))) with (Z.of_nat (length b0)) by lia.
  pose proof (sub_mid (answer_text a) b0 []) as Esub. rewrite app_nil_r in Esub. rewrite Esub. run.
  pose proof (u16_range n) as Hu. unfold is_u16 in Hu.
  rewrite (u16_id (Z.of_nat (length b0))) by (unfold is_u16; lia).
  destruct (Z.ltb_spec (u16 n) (Z.of_nat (length b0))) as [Hlt|Hge].
  - unfold copy_body. rewrite length_replicate. destruct (Z.leb_spec (0 + Z.of_nat (length b0)) (Z.of_nat (Z.to_nat (u16 n)))); [lia|]. done.
  - pose proof (copy_body_filled [] (Z.to_nat (u16 n)) b0 ltac:(lia)) as Ec. cbn [app length] in Ec. change (Z.of_nat 0) with 0 in Ec. rewrite Ec. run.
    unfold receiving, truthy. destruct b0 as [|x b0]; [done|]. rewrite bool_decide_false by done.
    destruct (Z.eqb_spec (Z.of_nat (length (x :: b0))) 0); [cbn in *; lia|]. cbn [negb]. unfold update_progress. destruct (Z.eqb_spec (u16 n) 0); [cbn in *; lia|]. done.
Qed.

Lemma descriptor_reads a b0 h : answer_ok a -> Z.of_nat (length (answer_text a) + length b0) < 65536 -> state h = GET_SENT -> an_status a = HTTP_OK ->
  forall n, announces (an_headers a) n -> 0 <= n < 65536 ->
  handle_response_descriptor (answer_text a ++ b0) (Z.of_nat (length (answer_text a) + length b0)) h =
  if n <? Z.of_nat (length b0) then Fault
  else Ok (Some (receiving h b0 n RECEIVING_RESPONSE), if bool_decide (b0 = []) then [] else [Progress (Z.of_nat (length b0) * 100 / n)]).
Proof. intros Ha Hs Hst Hok n Hn Hr. rewrite (descriptor_keeps_16_bits a b0 h Ha Hs Hst Hok n Hn) by lia. by rewrite u16_id. Qed.

(** A further segment. *)
Lemma continuation_ok h got n d : state h = RECEIVING_RESPONSE -> transfer h = Regular -> (0 < length d)%nat ->
  Z.of_nat (length got + length d) <= n -> n < 65536 -> exists p,
  on_data_received d (Z.of_nat (length d)) (receiving h got n RECEIVING_RESPONSE) =
  Ok (Some (receiving h (got ++ d) n (if Z.of_nat (length (got ++ d)) =? n then RESPONSE_COMPLETE else RECEIVING_RESPONSE)), [Progress p]).
Proof.
  intros Hst Htr Hd Hn Hn'. unfold on_data_received. cbn [state receiving]. unfold handle_response_continuation. cbn [buf_capacity buf_size receiving].
  destruct (Z.ltb_spec n (Z.of_nat (length got) + Z.of_nat (length d))); [lia|].
  pose proof (sub_mid [] d []) as Es. rewrite app_nil_r in Es. cbn [app length] in Es. change (Z.of_nat 0) with 0 in Es. rewrite Es. run.
  change (buf (receiving h got n RECEIVING_RESPONSE)) with (got ++ replicate (Z.to_nat n - length got) 0).
  rewrite copy_body_filled by lia. run. rewrite u16_id by (unfold is_u16; lia). unfold update_progress. destruct (Z.eqb_spec n 0); [lia|]. run.
  eexists. change (transfer (set_buf _ _ _ _)) with (transfer h). rewrite Htr, bool_decide_true by done. cbn [andb]. do 3 f_equal. unfold receiving. rewrite length_app.
  replace (Z.of_nat (length got) + Z.of_nat (length d)) with (Z.of_nat (length got + length d)) by lia.
  replace (Z.to_nat n - (length got + length d))%nat with (Z.to_nat n - length got - length d)%nat by lia.
  cbn [buf_capacity set_buf]. by destruct (_ =? n).
Qed.

(** All segments behind the first one. *)
Lemma segments_received h n bs : forall got, transfer h = Regular -> n < 65536 -> bs <> [] -> Forall (fun b => b <> []) bs ->
  Z.of_nat (length (got ++ concat bs)) = n -> exists fx, Forall (fun e => exists p, e = Progress p) fx /\
  listen_all (map Tcp.Data bs ++ [Tcp.Terminated Tcp.NoError]) (Some (receiving h got n RECEIVING_RESPONSE)) =
  Ok (None, fx ++ [Save save_path (got ++ concat bs); Deleted]).
Proof.
  induction bs as [|b bs IH]; intros got Htr Hn Hne HF Hlen; [done|]. apply Forall_cons in HF as [Hb HF]. cbn [concat] in *.
  cbn [map app listen_all listen]. run. rewrite !length_app in Hlen.
  assert (0 < length b)%nat by (destruct b; [done|cbn; lia]).
  destruct (continuation_ok (set_state h RECEIVING_RESPONSE) got n b) as (p & E); [done|done|done|lia|done|].
  change (receiving (set_state h RECEIVING_RESPONSE)) with (receiving h) in E. rewrite E. run. rewrite app_assoc.
  destruct bs as [|b' bs'].
  - cbn [concat length] in Hlen. assert (Z.of_nat (length (got ++ b)) =? n = true) as -> by (apply Z.eqb_eq; rewrite length_app; lia).
    exists [Progress p]. split; [by repeat (constructor; eauto)|]. cbn [map app concat listen_all listen]. run. unfold on_connection_terminated.
    cbn [buf_size buf_capacity state receiving buf]. rewrite length_app. replace (Z.of_nat (length got + length b) =? n) with true by (symmetry; apply Z.eqb_eq; lia).
    rewrite bool_decide_true by done. cbn [andb app]. rewrite app_nil_r. do 4 f_equal. rewrite Nat2Z.id, <- length_app. by rewrite take_app_length.
  - assert (Z.of_nat (length (got ++ b)) =? n = false) as ->.
    { apply Z.eqb_neq. rewrite length_app. apply Forall_cons in HF as [Hb' _]. cbn [concat] in Hlen. rewrite length_app in Hlen.
      assert (0 < length b')%nat by (destruct b'; [done|cbn; lia]). lia. }
    destruct (IH (got ++ b) Htr Hn ltac:(done) HF) as (fx & Hfx & El); [rewrite !length_app; lia|].
    exists (Progress p :: fx). split; [constructor; eauto|]. rewrite El. done.
Qed.

(** Claim C26: A body of announced length that the connection delivers in several segments, the first of them with the headers, is saved completely, in order, when
    the connection ends: for a response with the status 200 to a request that has been sent, not in chunks, whose first segment and whose whole body are shorter than 65536 bytes,
    with at least one segment behind the first and none of them empty.  Other responses: [single_segment_lost], [other_status_faults], [long_body_overflows]. *)
Theorem download_saved a h b0 bs : answer_ok a -> Z.of_nat (length (answer_text a) + length b0) < 65536 -> state h = GET_SENT -> transfer h = Regular ->
  an_status a = HTTP_OK -> announces (an_headers a) (Z.of_nat (length (b0 ++ concat bs))) -> Z.of_nat (length (b0 ++ concat bs)) < 65536 ->
  bs <> [] -> Forall (fun b => b <> []) bs ->
  exists fx, Forall (fun e => exists p, e = Progress p) fx /\
    listen_all (Tcp.Data (answer_text a ++ b0) :: map Tcp.Data bs ++ [Tcp.Terminated Tcp.NoError]) (Some h) =
    Ok (None, fx ++ [Save save_path (b0 ++ concat bs); Deleted]).
Proof.
  intros Ha Hs Hst Htr Hok Hann Hn Hne HF. cbn [listen_all listen]. run. unfold on_data_received. rewrite Hst, length_app.
  rewrite (descriptor_reads a b0 h Ha Hs Hst Hok _ Hann) by lia. rewrite length_app in *. destruct (Z.ltb_spec (Z.of_nat (length b0 + length (concat bs))) (Z.of_nat (length b0))); [lia|].
  run. destruct (segments_received h (Z.of_nat (length b0 + length (concat bs))) bs b0 Htr Hn Hne HF) as (fx & Hfx & El); [by rewrite length_app|]. rewrite El. run.
  eexists (_ ++ fx). split; [apply Forall_app; split; [|done]|by rewrite <- app_assoc]. case_bool_decide; [constructor|]. constructor; eauto.
Qed.

(** A body that comes with the headers in the first segment is not saved, although it is complete; one that is longer than announced
    overflows its buffer. *)
Theorem single_segment_lost a h b0 n : answer_ok a -> Z.of_nat (length (answer_text a) + length b0) < 65536 -> state h = GET_SENT ->
  an_status a = HTTP_OK -> announces (an_headers a) n -> 0 <= n < 65536 ->
  if n <? Z.of_nat (length b0) then listen (Tcp.Data (answer_text a ++ b0)) (Some h) = Fault
  else exists fx, listen_all [Tcp.Data (answer_text a ++ b0); Tcp.Terminated Tcp.NoError] (Some h) = Ok (None, fx ++ [Incomplete; Deleted]).
Proof.
  intros Ha Hs Hst Hok Hann Hn. cbn [listen_all listen]. run. unfold on_data_received. rewrite Hst, length_app.
  rewrite (descriptor_reads a b0 h Ha Hs Hst Hok _ Hann) by lia. destruct (n <? Z.of_nat (length b0)); [done|]. run.
  unfold on_connection_terminated. cbn [buf_size buf_capacity state receiving]. rewrite (bool_decide_false (RECEIVING_RESPONSE = _)) by done. rewrite andb_false_r.
  eexists. done.
Qed.

(** The announced length is kept in 16 bits: a part of the body in the first segment that is longer than what is left of it overflows the buffer, although it is
    shorter than the body. *)
Theorem long_body_overflows a h b0 n : answer_ok a -> Z.of_nat (length (answer_text a) + length b0) < 65536 -> state h = GET_SENT ->
  an_status a = HTTP_OK -> announces (an_headers a) n -> 0 <= n < 2 ^ 32 -> n mod 65536 < Z.of_nat (length b0) ->
  listen (Tcp.Data (answer_text a ++ b0)) (Some h) = Fault.
Proof.
  intros Ha Hs Hst Hok Hann Hn Hb. cbn [listen]. run. unfold on_data_received. rewrite Hst, length_app.
  rewrite (descriptor_keeps_16_bits a b0 h Ha Hs Hst Hok n Hann Hn). by rewrite (proj2 (Z.ltb_lt (u16 n) _)).
Qed.

(** A response with another status than 200 makes the client close its socket, which deletes the client, and then write to it. *)
Theorem other_status_faults a h b0 : answer_ok a -> Z.of_nat (length (answer_text a) + length b0) < 65536 -> state h = GET_SENT ->
  an_status a <> HTTP_OK -> listen (Tcp.Data (answer_text a ++ b0)) (Some h) = Fault.
Proof.
  intros Ha Hs Hst Hno. cbn [listen]. run. unfold on_data_received. rewrite Hst, length_app. unfold handle_response_descriptor.
  pose proof (parse_answer a b0 [] Ha Hs) as Ep. rewrite app_nil_r in Ep. rewrite Ep. run. cbn [method status].
  rewrite bool_decide_false by done. apply Z.eqb_neq in Hno. rewrite Hno, andb_false_r. cbn [negb].
  destruct (an_status a =? HTTP_MOVED_PERMANENTLY); [|done]. unfold get_header. cbn [num_headers headers]. rewrite Z.eqb_refl. run. by destruct (find_header _ _).
Qed.

(** Chunk lengths are read as if the letters of hexadecimal numbers came right after the digits: 1f is read as 70. *)
Theorem chunk_length_letters : read_hex u32 0 [49; 102] = 70 /\ read_hex u32 0 [49; 53] = 21.
Proof. split; reflexivity. Qed.

(** A response of 5 bytes from a small server: ["HTTP/1.1 200 OK"] with one header. *)
Definition small_answer (status : Z * Z * Z) : answer :=
  mkAnswer HTTP_1_1 status [79; 75] [mkHeader (map lower Content_Length) [53]].

Lemma small_answer_ok x : DIGIT x = true -> x <> 48 -> answer_ok (small_answer (x, 48, 48)).
Proof.
  intros Hx Hne. assert (48 < x <= 57) as Hr by (revert Hx; unfold DIGIT; bool_to_prop; done || lia).
  split; cbn [an_proto an_digits an_reason an_headers small_answer]; try done; try (refine (bool_decide_unpack _ _); vm_compute; reflexivity).
  - unfold an_status. cbn. lia.
  - repeat constructor; refine (bool_decide_unpack _ _); vm_compute; reflexivity.
Qed.

Lemma response_round_trip_witness : exists r,
  parse_response (answer_text (small_answer (50, 48, 48)) ++ [1; 2] ++ [3]) 39 = Ok r /\ status r = 200.
Proof.
  destruct (response_round_trip (small_answer (50, 48, 48)) [1; 2] [3] Content_Length (mkHeader (map lower Content_Length) [53])
    (small_answer_ok 50 eq_refl ltac:(lia)) ltac:(vm_compute; reflexivity) ltac:(by left) eq_refl) as (r & E & _ & Hs & _).
  exists r. split; [exact E|exact Hs].
Defined.

Lemma small_announces : announces (an_headers (small_answer (50, 48, 48))) 5.
Proof. eexists. split; reflexivity. Qed.

Lemma download_saved_witness : exists fx,
  listen_all [Tcp.Data (answer_text (small_answer (50, 48, 48)) ++ [1; 2]); Tcp.Data [3]; Tcp.Data [4; 5]; Tcp.Terminated Tcp.NoError] (Some (set_state new_http GET_SENT)) =
  Ok (None, fx ++ [Save save_path [1; 2; 3; 4; 5]; Deleted]).
Proof.
  destruct (download_saved (small_answer (50, 48, 48)) (set_state new_http GET_SENT) [1; 2] [[3]; [4; 5]]
    (small_answer_ok 50 eq_refl ltac:(lia)) ltac:(vm_compute; reflexivity) eq_refl eq_refl eq_refl small_announces ltac:(vm_compute; reflexivity)
    ltac:(done) ltac:(by repeat constructor)) as (fx & _ & E).
  exists fx. exact E.
Defined.

Lemma single_segment_lost_witness : exists fx,
  listen_all [Tcp.Data (answer_text (small_answer (50, 48, 48)) ++ [1; 2; 3; 4; 5]); Tcp.Terminated Tcp.NoError] (Some (set_state new_http GET_SENT)) =
  Ok (None, fx ++ [Incomplete; Deleted]).
Proof.
  exact (single_segment_lost (small_answer (50, 48, 48)) (set_state new_http GET_SENT) [1; 2; 3; 4; 5] 5
    (small_answer_ok 50 eq_refl ltac:(lia)) ltac:(vm_compute; reflexivity) eq_refl eq_refl small_announces ltac:(lia)).
Defined.

Lemma other_status_faults_witness : listen (Tcp.Data (answer_text (small_answer (52, 48, 48)) ++ [])) (Some (set_state new_http GET_SENT)) = Fault.
Proof.
  exact (other_status_faults (small_answer (52, 48, 48)) (set_state new_http GET_SENT) [] (small_answer_ok 52 eq_refl ltac:(lia))
    ltac:(vm_compute; reflexivity) eq_refl ltac:(done)).
Defined.

End Http.
