(* ===== verification/Keyboard.v ===== *)
(** * The keyboard ([core/keyboard.cpp])

    Scan codes become characters, with the shift key as state, and a character goes to the processes that wait for a key.  The
    theorems show that the table and the switch are the US layout, and that a key reaches the process that has waited longest. *)

From Stdlib Require Import String Ascii.
From stdpp Require Import base tactics numbers list sets.
From S2P Require Import Prelude Containers Scheduler.
Open Scope Z_scope.

Module Keyboard.

Definition CTRL_PRESSED : Z := 1.
Definition CTRL_RELEASED : Z := 157.
Definition SHIFT_PRESSED : Z := 2.
Definition LEFT_SHIFT_RELEASED : Z := 170.
Definition RIGHT_SHIFT_RELEASED : Z := 182.

Record kbd := mkKbd { ctrl_hold : bool; shift_hold : bool }.

Definition kbd_US : list Z :=
  [0; 27; 49; 50; 51; 52; 53; 54; 55; 56; 57; 48; 45; 61; 8;
   9; 113; 119; 101; 114; 116; 121; 117; 105; 111; 112; 91; 93; 10;
   CTRL_PRESSED; 97; 115; 100; 102; 103; 104; 106; 107; 108; 59; 39; 96; SHIFT_PRESSED; 92; 122; 120; 99; 118; 98; 110; 109;
   44; 46; 47; SHIFT_PRESSED; 42; 0; 32; 0;
   0; 0; 0; 0; 0; 0; 0; 0; 0; 0; 0; 0; 0; 0; 0; 45; 0; 0; 0; 43; 0; 0; 0; 0; 0; 0; 0; 0; 0; 0; 0] ++ replicate 38 0.

(** The cases of the switch. *)
Definition shift_switch : list (Z * Z) :=
  [(49, 33); (50, 64); (51, 35); (52, 36); (53, 37); (54, 94); (55, 38); (56, 42); (57, 40); (48, 41); (45, 95); (61, 43);
   (91, 123); (93, 125); (59, 58); (39, 34); (92, 124); (96, 126); (47, 63); (44, 60); (46, 62)].
Definition switch (c : Z) : Z := match list_find (fun p => p.1 = c) shift_switch with Some (_, p) => p.2 | None => c end.

(** The character with the shift key held. *)
Definition shifted (c : Z) : Z :=
  let c := if (97 <=? c) && (c <=? 122) then c - 32 else if (65 <=? c) && (c <=? 90) then c + 32 else c in switch c.

(** What a scan code does: the system is shut down, or the keys held change, or a character is delivered. *)
Definition handle_char (irrecoverable_error_happened : bool) (c : Z) (k : kbd) (s : Scheduler.sched) : res (kbd * Scheduler.sched) :=
  if c <? 128 then
    _ ← ensure (negb irrecoverable_error_happened);
    c ← deref (kbd_US !! Z.to_nat c);
    if c =? CTRL_PRESSED then Ok (mkKbd true (shift_hold k), s)
    else if c =? SHIFT_PRESSED then Ok (mkKbd (ctrl_hold k) true, s)
    else
      let c := if shift_hold k then shifted c else c in
      if truthy c then s ← Scheduler.wake_up_key_waiting_processes s c; Ok (k, s) else Ok (k, s)
  else if c =? CTRL_RELEASED then Ok (mkKbd false (shift_hold k), s)
  else if (c =? LEFT_SHIFT_RELEASED) || (c =? RIGHT_SHIFT_RELEASED) then Ok (mkKbd (ctrl_hold k) false, s)
  else Ok (k, s).

(** [interrupt_handler], with the byte that the data port gives. *)
Definition interrupt_handler (stop : bool) (scan_code : Z) (k : kbd) (s : Scheduler.sched) : res (kbd * Scheduler.sched) :=
  handle_char stop scan_code k s.

(** ** The US layout *)

Fixpoint codes (s : string) : list Z :=
  match s with EmptyString => [] | String a s => Z.of_N (N_of_ascii a) :: codes s end.

(** The keys from a scan code on, without and with shift. *)
Definition keys (first : nat) (plain upper : list Z) : list (nat * (Z * Z)) := zip (seq first (length plain)) (zip plain upper).
Definition layout : list (nat * (Z * Z)) :=
  keys 1 [27] [27] ++ keys 2 (codes "1234567890-=") (codes "!@#$%^&*()_+") ++ keys 14 [8; 9] [8; 9] ++
  keys 16 (codes "qwertyuiop[]") (codes "QWERTYUIOP{}") ++ keys 28 [10] [10] ++
  keys 30 (codes "asdfghjkl;'`") (codes "ASDFGHJKL:" ++ [34] ++ codes "~") ++
  keys 43 (codes "\zxcvbnm,./") (codes "|ZXCVBNM<>?") ++ keys 55 [42] [42] ++ keys 57 [32] [32] ++ keys 74 [45] [95] ++ keys 78 [43] [43].

Definition in_layout (code : nat) : option (Z * Z) := match list_find (fun p => p.1 = code) layout with Some (_, p) => Some p.2 | None => None end.

(** What the table and the switch say about a code, against the layout. *)
Definition agrees (code : nat) : bool :=
  match kbd_US !! code, in_layout code with
  | Some c, Some (p, q) => (c =? p) && (shifted c =? q) && truthy c && truthy (shifted c) && negb (c =? CTRL_PRESSED) && negb (c =? SHIFT_PRESSED)
  | Some c, None =>
      if bool_decide (code = 29%nat) then c =? CTRL_PRESSED
      else if bool_decide (code = 42%nat \/ code = 54%nat) then c =? SHIFT_PRESSED
      else (c =? 0) && (shifted c =? 0)
  | None, _ => false
  end.

Lemma table_agrees code : (code < 128)%nat -> agrees code = true.
Proof.
  intros Hc. assert (forallb agrees (seq 0 128) = true) as H by (vm_compute; reflexivity).
  rewrite forallb_forall in H. apply H, in_seq. lia.
Qed.

(** Every scan code of a key means what the US layout says: the character of the key, the one above it while a shift key is held,
    a change of the control or shift state, or nothing; and no key does anything but shut the system down after a fatal error. *)
Theorem keyboard_layout code k s : 0 <= code < 128 ->
  handle_char true code k s = Panic /\
  handle_char false code k s =
    match in_layout (Z.to_nat code) with
    | Some (p, q) => s ← Scheduler.wake_up_key_waiting_processes s (if shift_hold k then q else p); Ok (k, s)
    | None =>
        Ok (if bool_decide (Z.to_nat code = 29%nat) then mkKbd true (shift_hold k)
            else if bool_decide (Z.to_nat code = 42%nat \/ Z.to_nat code = 54%nat) then mkKbd (ctrl_hold k) true else k, s)
    end.
Proof.
  intros Hc. unfold handle_char. destruct (Z.ltb_spec code 128); [|lia]. split; [done|]. cbn [ensure negb]. run.
  pose proof (table_agrees (Z.to_nat code) ltac:(lia)) as Ha. unfold agrees in Ha. destruct (kbd_US !! Z.to_nat code) as [c|]; [|done]. run.
  destruct (in_layout (Z.to_nat code)) as [[p q]|].
  - rewrite !andb_true_iff in Ha. destruct Ha as [[[[[Hp Hq] Ht] Hts] Hctrl] Hshift]. apply Z.eqb_eq in Hp, Hq.
    rewrite negb_true_iff in Hctrl, Hshift. rewrite Hctrl, Hshift. rewrite Hp, Hq in *. destruct (shift_hold k); [by rewrite Hts|by rewrite Ht].
  - case_bool_decide as E1; [apply Z.eqb_eq in Ha; by rewrite Ha|]. case_bool_decide as E2; [apply Z.eqb_eq in Ha; by rewrite Ha|].
    rewrite andb_true_iff in Ha. destruct Ha as [Hz Hsz]. apply Z.eqb_eq in Hz, Hsz. rewrite Hsz, Hz. by destruct (shift_hold k).
Qed.

Lemma keyboard_layout_witness :
  let s := Scheduler.some_sched [3] [2; 1] in
  handle_char false 30 (mkKbd false true) s = (s ← Scheduler.wake_up_key_waiting_processes s 65; Ok (mkKbd false true, s)).
Proof. exact (proj2 (keyboard_layout 30 (mkKbd false true) (Scheduler.some_sched [3] [2; 1]) ltac:(lia))). Defined.

(** Claim C39: a key that is pressed reaches the process that has waited longest: it becomes ready with the character of the key, at the end of
    the ready queue. *)
Theorem key_reaches_reader code k s R w W P p q : 0 <= code < 128 -> in_layout (Z.to_nat code) = Some (p, q) ->
  Queue.rep Scheduler.MAX_PROCESSES (Scheduler.ready_queue s) R -> Queue.rep Scheduler.MAX_PROCESSES (Scheduler.waiting_queue s) (w :: W) ->
  Scheduler.procs s (w :: W) P -> NoDup (w :: W) -> (length R + length (w :: W) <= 32)%nat ->
  exists s' woken, interrupt_handler false code k s = Ok (k, s') /\
    Queue.rep Scheduler.MAX_PROCESSES (Scheduler.ready_queue s') (R ++ w :: woken) /\
    exists l, Scheduler.proc_at s' w = Ok (l, Scheduler.woken (if shift_hold k then q else p) (P w)).
Proof.
  intros Hc Hlay HR HW HP Hnd Hlen. set (key := if shift_hold k then q else p).
  destruct (Scheduler.wake_key_loop_spec key (Z.to_nat (Queue.getCount (Scheduler.waiting_queue s))) s 0 R (w :: W) P (w :: W)) as (s' & E & HR' & _ & HP'); [done..| |cbn [length]; lia|].
  { destruct HW as (_ & Hcount & _). unfold Queue.getCount. rewrite <- Hcount. lia. }
  assert (exists h, Z.to_nat ((Z.of_nat (length (w :: W)) - 0 + 1) / 2) = S h) as [h Eh].
  { exists (pred (Z.to_nat ((Z.of_nat (length (w :: W)) - 0 + 1) / 2))).
    assert (1 <= (Z.of_nat (length (w :: W)) - 0 + 1) / 2) by (apply Z.div_le_lower_bound; cbn [length]; lia). lia. }
  rewrite Eh in *. cbn [take] in HR'. exists s', (take h W). split; [|split; [done|]].
  - unfold interrupt_handler. assert (handle_char false code k s = (s ← Scheduler.wake_up_key_waiting_processes s key; Ok (k, s))) as ->.
    { unfold handle_char. destruct (Z.ltb_spec code 128); [|lia]. cbn [ensure negb]. run. pose proof (table_agrees (Z.to_nat code) ltac:(lia)) as Ha.
      unfold agrees in Ha. rewrite Hlay in Ha. destruct (kbd_US !! Z.to_nat code) as [c|]; [|done]. run.
      rewrite !andb_true_iff in Ha. destruct Ha as [[[[[Hp Hq] Ht] Hts] Hctrl] Hshift]. apply Z.eqb_eq in Hp, Hq. rewrite negb_true_iff in Hctrl, Hshift.
      rewrite Hctrl, Hshift. rewrite Hp, Hq in *. subst key. destruct (shift_hold k); [by rewrite Hts|by rewrite Ht]. }
    unfold Scheduler.wake_up_key_waiting_processes. by rewrite E.
  - destruct (HP' w ltac:(by left)) as [_ [l El]]. exists l. rewrite El. by rewrite decide_True by (cbn; by left).
Qed.

Lemma key_reaches_reader_witness :
  exists s' woken, interrupt_handler false 30 (mkKbd false true) (Scheduler.some_sched [3] [2; 1]) = Ok (mkKbd false true, s') /\
    Queue.rep Scheduler.MAX_PROCESSES (Scheduler.ready_queue s') ([3] ++ 2 :: woken).
Proof.
  destruct (key_reaches_reader 30 (mkKbd false true) (Scheduler.some_sched [3] [2; 1]) [3] 2 [1] Scheduler.some_processes 97 65)
    as (s' & woken & E & HR & _).
  - lia.
  - vm_compute. reflexivity.
  - apply (Scheduler.flat_queue [3]). simpl. lia.
  - apply (Scheduler.flat_queue [2; 1]). simpl. lia.
  - intros i Hi. rewrite !elem_of_cons in Hi. destruct Hi as [->|[->|Hi]]; [..|set_solver]; (split; [done|]);
      [exists 2%positive|exists 1%positive]; vm_compute; done.
  - repeat constructor; set_solver.
  - simpl. lia.
  - by exists s', woken.
Defined.

End Keyboard.
