(* ===== verification/Elf.v ===== *)
(** * ELF images ([processes/ELF.cpp], [processes/ELF.h], [processes/ELF_defines.h] and the hash of [processes/ELFTools.hxx])

    A file in memory is a list of bytes; the pointers an [ELF] object keeps into it are offsets, [None] for the null pointer, and a
    read behind its end is a fault.  The theorems show that the headers of an encoded image are read back, which images [is_valid]
    accepts, and that the two ways of looking a dynamic symbol up agree. *)

From stdpp Require Import base tactics numbers list sets.
From S2P Require Import Prelude Bytes.
Import Bytes.
Open Scope Z_scope.

Module Elf.

(** ** The structures of a file *)

Record Elf32_Ehdr := mkEhdr {
  e_ident : list Z; e_type : Z; e_machine : Z; e_version : Z; e_entry : Z; e_phoff : Z; e_shoff : Z; e_flags : Z;
  e_ehsize : Z; e_phentsize : Z; e_phnum : Z; e_shentsize : Z; e_shnum : Z; e_shstrndx : Z }.

Record Elf32_Shdr := mkShdr {
  sh_name : Z; sh_type : Z; sh_flags : Z; sh_addr : Z; sh_offset : Z; sh_size : Z; sh_link : Z; sh_info : Z; sh_addralign : Z;
  sh_entsize : Z }.

Record Elf32_Phdr := mkPhdr {
  p_type : Z; p_offset : Z; p_vaddr : Z; p_paddr : Z; p_filesz : Z; p_memsz : Z; p_flags : Z; p_align : Z }.

Record Elf32_Sym := mkSym { st_name : Z; st_value : Z; st_size : Z; st_info : Z; st_other : Z; st_shndx : Z }.

Record Elf32_Dyn := mkDyn { d_tag : Z; d_val : Z }.

Definition ET_REL : Z := 1.
Definition ET_EXEC : Z := 2.
Definition ET_DYN : Z := 3.
Definition SHT_NULL : Z := 0.
Definition SHT_PROGBITS : Z := 1.
Definition SHT_SYMTAB : Z := 2.
Definition SHT_STRTAB : Z := 3.
Definition SHT_HASH : Z := 5.
Definition SHT_DYNAMIC : Z := 6.
Definition SHT_NOBITS : Z := 8.
Definition SHT_REL : Z := 9.
Definition SHT_DYNSYM : Z := 11.
Definition SHT_INIT_ARRAY : Z := 14.
Definition SHT_FINI_ARRAY : Z := 15.
Definition SHT_GNU_HASH : Z := 1879048182.
Definition SHT_GNU_verdef : Z := 1879048189.
Definition SHT_GNU_verneed : Z := 1879048190.
Definition SHT_GNU_versym : Z := 1879048191.
Definition PT_LOAD : Z := 1.
Definition PT_DYNAMIC : Z := 2.
Definition PT_INTERP : Z := 3.
Definition PT_PHDR : Z := 6.
Definition PT_TLS : Z := 7.
Definition PT_GNU_EH_FRAME : Z := 1685382480.
Definition PT_GNU_STACK : Z := 1685382481.
Definition PF_W : Z := 2.
Definition DT_NULL : Z := 0.
Definition DT_PLTGOT : Z := 3.
Definition DT_HASH : Z := 4.
Definition STN_UNDEF : Z := 0.
Definition ELF32_ADDR_ERR : Z := 4294967295.
Definition PAGE_SIZE : Z := 4096.

(** An object of [n] bytes at offset [o] of the file. *)
Definition object {A} (f : list Z) (o n : Z) (x : A) : res A := if (0 <=? o) && (o + n <=? Z.of_nat (length f)) then Ok x else Fault.

Definition read_ehdr (f : list Z) (o : Z) : res Elf32_Ehdr :=
  object f o 52 (mkEhdr (slice f o 16) (rd16 f (o + 16)) (rd16 f (o + 18)) (rd32 f (o + 20)) (rd32 f (o + 24)) (rd32 f (o + 28))
    (rd32 f (o + 32)) (rd32 f (o + 36)) (rd16 f (o + 40)) (rd16 f (o + 42)) (rd16 f (o + 44)) (rd16 f (o + 46)) (rd16 f (o + 48))
    (rd16 f (o + 50))).
Definition read_shdr (f : list Z) (o : Z) : res Elf32_Shdr :=
  object f o 40 (mkShdr (rd32 f o) (rd32 f (o + 4)) (rd32 f (o + 8)) (rd32 f (o + 12)) (rd32 f (o + 16)) (rd32 f (o + 20))
    (rd32 f (o + 24)) (rd32 f (o + 28)) (rd32 f (o + 32)) (rd32 f (o + 36))).
Definition read_phdr (f : list Z) (o : Z) : res Elf32_Phdr :=
  object f o 32 (mkPhdr (rd32 f o) (rd32 f (o + 4)) (rd32 f (o + 8)) (rd32 f (o + 12)) (rd32 f (o + 16)) (rd32 f (o + 20))
    (rd32 f (o + 24)) (rd32 f (o + 28))).
Definition read_sym (f : list Z) (o : Z) : res Elf32_Sym :=
  object f o 16 (mkSym (rd32 f o) (rd32 f (o + 4)) (rd32 f (o + 8)) (byte f (o + 12)) (byte f (o + 13)) (rd16 f (o + 14))).
Definition read_dyn (f : list Z) (o : Z) : res Elf32_Dyn := object f o 8 (mkDyn (rd32 f o) (rd32 f (o + 4))).

(** ** The object *)

Record ELF := mkELF {
  global_hdr : Elf32_Ehdr; prog_hdrs : Z; section_hdrs : Z; dyn_table : option Z; dynsym : option Z; dynsym_hdr : option Elf32_Shdr;
  symtab : option Z; symtab_hdr : option Elf32_Shdr; interpreter_name : option Z; dynsym_strtab : option Z; strtab : option Z;
  shstrtab : option Z; runtime_got_addr : Z; hash_table_runtime_address : Z }.

Definition set_dyn_table (e : ELF) o := mkELF (global_hdr e) (prog_hdrs e) (section_hdrs e) (Some o) (dynsym e) (dynsym_hdr e) (symtab e)
  (symtab_hdr e) (interpreter_name e) (dynsym_strtab e) (strtab e) (shstrtab e) (runtime_got_addr e) (hash_table_runtime_address e).
Definition set_symtab (e : ELF) h s := mkELF (global_hdr e) (prog_hdrs e) (section_hdrs e) (dyn_table e) (dynsym e) (dynsym_hdr e)
  (Some (sh_offset h)) (Some h) (interpreter_name e) (dynsym_strtab e) (Some s) (shstrtab e) (runtime_got_addr e) (hash_table_runtime_address e).
Definition set_dynsym_hdr (e : ELF) h s := mkELF (global_hdr e) (prog_hdrs e) (section_hdrs e) (dyn_table e) (dynsym e) (Some h)
  (symtab e) (symtab_hdr e) (interpreter_name e) (Some s) (strtab e) (shstrtab e) (runtime_got_addr e) (hash_table_runtime_address e).
Definition set_names (e : ELF) interp sh dyn := mkELF (global_hdr e) (prog_hdrs e) (section_hdrs e) (dyn_table e) dyn (dynsym_hdr e)
  (symtab e) (symtab_hdr e) interp (dynsym_strtab e) (strtab e) (Some sh) (runtime_got_addr e) (hash_table_runtime_address e).
Definition set_dynamic (e : ELF) got hash := mkELF (global_hdr e) (prog_hdrs e) (section_hdrs e) (dyn_table e) (dynsym e) (dynsym_hdr e)
  (symtab e) (symtab_hdr e) (interpreter_name e) (dynsym_strtab e) (strtab e) (shstrtab e) got hash.

(** [section_hdrs[k]] and [prog_hdrs[k]]. *)
Definition section (f : list Z) (e : ELF) (k : nat) : res Elf32_Shdr := read_shdr f (section_hdrs e + 40 * Z.of_nat k).
Definition program (f : list Z) (e : ELF) (k : nat) : res Elf32_Phdr := read_phdr f (prog_hdrs e + 32 * Z.of_nat k).

(** The body of the constructor's loop over the sections. *)
Definition section_step (f : list Z) (k : nat) (e : ELF) : res ELF :=
  h ← section f e k;
  if sh_type h =? SHT_DYNAMIC then Ok (set_dyn_table e (sh_offset h))
  else if sh_type h =? SHT_SYMTAB then
    strtab_hdr ← read_shdr f (section_hdrs e + e_shentsize (global_hdr e) * sh_link h);
    Ok (set_symtab e h (sh_offset strtab_hdr))
  else if sh_type h =? SHT_DYNSYM then
    dyn_strtab_h ← section f e (Z.to_nat (sh_link h));
    Ok (set_dynsym_hdr e h (sh_offset dyn_strtab_h))
  else Ok e.

(** The search for the interpreter: [n] headers from the [k]-th on. *)
Fixpoint find_interp (f : list Z) (e : ELF) (n k : nat) : res (option Z) :=
  match n with
  | O => Ok None
  | S n => h ← program f e k; if p_type h =? PT_INTERP then Ok (Some (p_offset h)) else find_interp f e n (S k)
  end.

(** The walk over the dynamic table, up to its end mark. *)
Fixpoint dynamic_loop (fuel : nat) (f : list Z) (e : ELF) (d : Z) : res ELF :=
  match fuel with
  | O => NoFuel
  | S fuel =>
      x ← read_dyn f d;
      if d_tag x =? DT_NULL then Ok e
      else if d_tag x =? DT_PLTGOT then dynamic_loop fuel f (set_dynamic e (d_val x) (hash_table_runtime_address e)) (d + 8)
      else if d_tag x =? DT_HASH then dynamic_loop fuel f (set_dynamic e (runtime_got_addr e) (d_val x)) (d + 8)
      else dynamic_loop fuel f e (d + 8)
  end.

(** [ELF::ELF]. *)
Definition new_ELF (f : list Z) : res ELF :=
  h ← read_ehdr f 0;
  let e := mkELF h (e_phoff h) (e_shoff h) None None None None None None None None None ELF32_ADDR_ERR ELF32_ADDR_ERR in
  e ← for_loop (Z.to_nat (e_shnum h)) (section_step f) e;
  interp ← find_interp f e (Z.to_nat (e_phnum h)) 0;
  sh_strtab_h ← read_shdr f (section_hdrs e + e_shentsize h * e_shstrndx h);
  let e := set_names e interp (sh_offset sh_strtab_h) (sh_offset <$> dynsym_hdr e) in
  match dyn_table e with Some d => dynamic_loop (S (length f)) f e d | None => Ok e end.

(** ** Addresses *)

(** [get_highest_runtime_addr], [base_address], [num_pages]. *)
Definition get_highest_runtime_addr (f : list Z) (e : ELF) : res Z :=
  for_loop (Z.to_nat (e_phnum (global_hdr e))) (fun k highest_addr =>
    h ← program f e k;
    if negb (p_type h =? PT_LOAD) then Ok highest_addr
    else let high_addr := p_vaddr h +u p_memsz h in Ok (if highest_addr <? high_addr then high_addr else highest_addr)) 0.

Definition base_address (f : list Z) (e : ELF) : res Z :=
  lowest ← for_loop (Z.to_nat (e_phnum (global_hdr e))) (fun k lowest_address =>
    h ← program f e k;
    if negb (p_type h =? PT_LOAD) then Ok lowest_address
    else Ok (if p_vaddr h <? lowest_address then p_vaddr h else lowest_address)) UINT_MAX;
  Ok (Z.ldiff lowest (PAGE_SIZE - 1)).

Definition num_pages (f : list Z) (e : ELF) : res Z :=
  a ← get_highest_runtime_addr f e; Ok (Z.shiftr (a +u (PAGE_SIZE - 1)) 12).

(** ** The checks of [is_valid] *)

Inductive ELF_type := Executable | SharedObject | Relocatable.

Definition e_type_of (t : ELF_type) : Z := match t with Executable => ET_EXEC | SharedObject => ET_DYN | Relocatable => ET_REL end.

Definition supported_sections : list Z :=
  [SHT_NULL; SHT_PROGBITS; SHT_NOBITS; SHT_SYMTAB; SHT_STRTAB; SHT_DYNSYM; SHT_HASH; SHT_GNU_HASH; SHT_REL; SHT_DYNAMIC;
   SHT_INIT_ARRAY; SHT_FINI_ARRAY; SHT_GNU_versym; SHT_GNU_verneed; SHT_GNU_verdef].
Definition supported_phdr_types : list Z := [PT_LOAD; PT_INTERP; PT_TLS; PT_GNU_EH_FRAME; PT_GNU_STACK; PT_DYNAMIC; PT_PHDR].

Definition supported (l : list Z) (t : Z) : bool := bool_decide (t ∈ l).

(** Whether the types of [n] entries of a table, from the [k]-th on, are supported. *)
Fixpoint sections_supported (f : list Z) (e : ELF) (n k : nat) : res bool :=
  match n with
  | O => Ok true
  | S n => h ← section f e k; if supported supported_sections (sh_type h) then sections_supported f e n (S k) else Ok false
  end.
Fixpoint phdrs_supported (f : list Z) (e : ELF) (n k : nat) : res bool :=
  match n with
  | O => Ok true
  | S n => h ← program f e k; if supported supported_phdr_types (p_type h) then phdrs_supported f e n (S k) else Ok false
  end.

(** The pages of a segment in the array of read-only pages: [None] when a writable segment meets a marked page. *)
Fixpoint mark_pages (n : nat) (page_id : Z) (write : bool) (ro_pages : list bool) : res (option (list bool)) :=
  match n with
  | O => Ok (Some ro_pages)
  | S n =>
      b ← deref (ro_pages !! Z.to_nat page_id);
      if write then if (b : bool) then Ok None else mark_pages n (page_id + 1) write ro_pages
      else mark_pages n (page_id + 1) write (<[Z.to_nat page_id := true]> ro_pages)
  end.

Definition segment_pages (h : Elf32_Phdr) : Z := Z.shiftr (p_memsz h +u (PAGE_SIZE - 1)) 12.
Definition segment_write (h : Elf32_Phdr) : bool := truthy (Z.land (p_flags h) PF_W).

Fixpoint mark_segments (f : list Z) (e : ELF) (n k : nat) (ro_pages : list bool) : res bool :=
  match n with
  | O => Ok true
  | S n =>
      h ← program f e k;
      if negb (p_type h =? PT_LOAD) then mark_segments f e n (S k) ro_pages
      else
        r ← mark_pages (Z.to_nat (segment_pages h)) (Z.shiftr (p_vaddr h) 12) (segment_write h) ro_pages;
        match r with Some ro_pages => mark_segments f e n (S k) ro_pages | None => Ok false end
  end.

(** The magic number and the class. *)
Definition is_ELF (h : Elf32_Ehdr) : bool := bool_decide (take 4 (e_ident h) = [127; 69; 76; 70]).
Definition is_32_bits (h : Elf32_Ehdr) : bool := bool_decide (e_ident h !! 4%nat = Some 1).

Section valid.
(** [VFS::browse_to(interpreter_name, true, false)] on the state of the file system. *)
Context {S : Type} (find_file : S -> list Z -> res (bool * S)).

(** [ELF::is_valid]. *)
Definition is_valid (f : list Z) (expected_type : ELF_type) (s : S) : res (option ELF * S) :=
  e ← new_ELF f;
  if negb (is_ELF (global_hdr e)) then Ok (None, s)
  else if negb (is_32_bits (global_hdr e)) then Ok (None, s)
  else if negb (e_type (global_hdr e) =? e_type_of expected_type) then Ok (None, s)
  else
    h0 ← section f e 0;
    if negb (sh_type h0 =? SHT_NULL) then Ok (None, s)
    else
      ok ← sections_supported f e (Z.to_nat (e_shnum (global_hdr e))) 0;
      if negb ok then Ok (None, s)
      else if e_phnum (global_hdr e) =? 0 then Ok (None, s)
      else
        ok ← phdrs_supported f e (Z.to_nat (e_phnum (global_hdr e))) 0;
        if negb ok then Ok (None, s)
        else
          elf_num_pages ← num_pages f e;
          ok ← mark_segments f e (Z.to_nat (e_phnum (global_hdr e))) 0 (replicate (Z.to_nat elf_num_pages) false);
          if negb ok then Ok (None, s)
          else
            base_addr ← base_address f e;
            if base_addr =? UINT_MAX then Ok (None, s)
            else match interpreter_name e with
                 | None => Ok (Some e, s)
                 | Some name =>
                     match dyn_table e with
                     | None => Ok (None, s)
                     | Some _ =>
                         '(found, s) ← find_file s (cstr (drop (Z.to_nat name) f));
                         if negb found then Ok (None, s)
                         else if runtime_got_addr e =? ELF32_ADDR_ERR then Ok (None, s)
                         else Ok (Some e, s)
                     end
                 end.
End valid.

(** ** Symbols *)

(** [hash], on the bytes of a name. *)
Fixpoint hash_from (h : Z) (name : list Z) : Z :=
  match name with
  | [] => h
  | c :: name =>
      let h := u32 (Z.shiftl h 4) +u c in
      let g := Z.land h 4026531840 in
      let h := if truthy g then Z.lxor h (Z.shiftr g 24) else h in
      hash_from (Z.ldiff h g) name
  end.
Definition hash (name : list Z) : Z := hash_from 0 name.

(** [strcmp(&strings[o], name) == 0]: the string must end inside the file. *)
Definition same_name (f : list Z) (o : Z) (name : list Z) : res bool :=
  if (0 <=? o) && (o <=? Z.of_nat (length f)) && bool_decide (0 ∈ drop (Z.to_nat o) f)
  then Ok (bool_decide (cstr (drop (Z.to_nat o) f) = name)) else Fault.

(** The linear search of [get_dynamic_symbol] and [get_symbol]: [n] symbols from the [i]-th on; the offset of the one found. *)
Fixpoint find_symbol (f : list Z) (table strings : Z) (name : list Z) (n : nat) (i : Z) : res (option Z) :=
  match n with
  | O => Ok None
  | S n =>
      s ← read_sym f (table + 16 * i);
      same ← same_name f (strings + st_name s) name;
      if (same : bool) then Ok (Some (table + 16 * i)) else find_symbol f table strings name n (i + 1)
  end.

(** [get_symbol]. *)
Definition get_symbol (f : list Z) (e : ELF) (name : list Z) : res (option Z) :=
  h ← deref (symtab_hdr e); t ← deref (symtab e); s ← deref (strtab e);
  if sh_entsize h =? 0 then Fault
  else find_symbol f t s name (Z.to_nat (sh_size h / sh_entsize h - 1)) 1.

Section dynamic.
(** The words of the loaded image, as [Lptr] reads them. *)
Context (fetch : Z -> res Z).

(** The walk along a chain. *)
Fixpoint chain_loop (fuel : nat) (f : list Z) (table strings : Z) (name : list Z) (chain y : Z) : res (option Z) :=
  match fuel with
  | O => NoFuel
  | S fuel =>
      if y =? STN_UNDEF then Ok None
      else
        s ← read_sym f (table + 16 * y);
        same ← same_name f (strings + st_name s) name;
        if (same : bool) then Ok (Some (table + 16 * y))
        else y ← fetch (chain +u 4 * y); chain_loop fuel f table strings name chain y
  end.

(** [get_dynamic_symbol]. *)
Definition get_dynamic_symbol (fuel : nat) (f : list Z) (e : ELF) (name : list Z) (load_address : Z) : res (option Z) :=
  if hash_table_runtime_address e =? ELF32_ADDR_ERR then
    h ← deref (dynsym_hdr e); t ← deref (dynsym e); s ← deref (dynsym_strtab e);
    if sh_entsize h =? 0 then Fault
    else find_symbol f t s name (Z.to_nat (sh_size h / sh_entsize h - 1)) 1
  else
    let hash_table := load_address +u hash_table_runtime_address e in
    nbucket ← fetch hash_table;
    let buckets := hash_table +u 8 in
    let chain := buckets +u 4 * nbucket in
    if nbucket =? 0 then Fault
    else
      y ← fetch (buckets +u 4 * (hash name mod nbucket));
      if y =? STN_UNDEF then Ok None
      else t ← deref (dynsym e); s ← deref (dynsym_strtab e); chain_loop fuel f t s name chain y.
End dynamic.

(** ** Reading what was written *)

Definition enc_ehdr (h : Elf32_Ehdr) : list Z :=
  e_ident h ++ le16 (e_type h) ++ le16 (e_machine h) ++ le32 (e_version h) ++ le32 (e_entry h) ++ le32 (e_phoff h) ++
  le32 (e_shoff h) ++ le32 (e_flags h) ++ le16 (e_ehsize h) ++ le16 (e_phentsize h) ++ le16 (e_phnum h) ++ le16 (e_shentsize h) ++
  le16 (e_shnum h) ++ le16 (e_shstrndx h).
Definition enc_shdr (h : Elf32_Shdr) : list Z :=
  le32 (sh_name h) ++ le32 (sh_type h) ++ le32 (sh_flags h) ++ le32 (sh_addr h) ++ le32 (sh_offset h) ++ le32 (sh_size h) ++
  le32 (sh_link h) ++ le32 (sh_info h) ++ le32 (sh_addralign h) ++ le32 (sh_entsize h).
Definition enc_phdr (h : Elf32_Phdr) : list Z :=
  le32 (p_type h) ++ le32 (p_offset h) ++ le32 (p_vaddr h) ++ le32 (p_paddr h) ++ le32 (p_filesz h) ++ le32 (p_memsz h) ++
  le32 (p_flags h) ++ le32 (p_align h).

Definition ehdr_ok (h : Elf32_Ehdr) : Prop :=
  length (e_ident h) = 16%nat /\ is_u16 (e_type h) /\ is_u16 (e_machine h) /\ is_u32 (e_version h) /\ is_u32 (e_entry h) /\
  is_u32 (e_phoff h) /\ is_u32 (e_shoff h) /\ is_u32 (e_flags h) /\ is_u16 (e_ehsize h) /\ is_u16 (e_phentsize h) /\
  is_u16 (e_phnum h) /\ is_u16 (e_shentsize h) /\ is_u16 (e_shnum h) /\ is_u16 (e_shstrndx h).
Definition shdr_ok (h : Elf32_Shdr) : Prop :=
  is_u32 (sh_name h) /\ is_u32 (sh_type h) /\ is_u32 (sh_flags h) /\ is_u32 (sh_addr h) /\ is_u32 (sh_offset h) /\
  is_u32 (sh_size h) /\ is_u32 (sh_link h) /\ is_u32 (sh_info h) /\ is_u32 (sh_addralign h) /\ is_u32 (sh_entsize h).
Definition phdr_ok (h : Elf32_Phdr) : Prop :=
  is_u32 (p_type h) /\ is_u32 (p_offset h) /\ is_u32 (p_vaddr h) /\ is_u32 (p_paddr h) /\ is_u32 (p_filesz h) /\
  is_u32 (p_memsz h) /\ is_u32 (p_flags h) /\ is_u32 (p_align h).

(** The value of the bytes of a word. *)
Lemma le16_value v : is_u16 v -> v mod 256 + 256 * (v / 256 mod 256) = v.
Proof. unfold is_u16. intros H. rewrite (Z.mod_small (v / 256)) by (split; [apply Z.div_pos; lia|apply Z.div_lt_upper_bound; lia]). pose proof (Z.div_mod v 256). lia. Qed.

Lemma le32_value v : is_u32 v ->
  v mod 256 + 256 * (v / 256 mod 256) + 65536 * (v / 65536 mod 256 + 256 * (v / 65536 / 256 mod 256)) = v.
Proof.
  unfold is_u32. intros H. rewrite (le16_value (v / 65536)) by (split; [apply Z.div_pos; lia|apply Z.div_lt_upper_bound; lia]).
  pose proof (Z.div_mod v 256). pose proof (Z.div_mod (v / 256) 256). pose proof (Z.div_div v 256 256) as E. change (256 * 256) with 65536 in E. lia.
Qed.

Lemma byte_app l r o k : Z.of_nat (length l) = o -> 0 <= k -> byte (l ++ r) (o + k) = byte r k.
Proof. intros <- Hk. unfold byte. rewrite app_nth2 by lia. f_equal. lia. Qed.

Lemma byte_cons x l k : 0 < k -> byte (x :: l) k = byte l (k - 1).
Proof. intros Hk. unfold byte. replace (Z.to_nat k) with (S (Z.to_nat (k - 1))) by lia. done. Qed.

Lemma object_in {A} f o n (x : A) : 0 <= o -> o + n <= Z.of_nat (length f) -> object f o n x = Ok x.
Proof. intros Ho Hn. unfold object. by rewrite (proj2 (Z.leb_le _ _)), (proj2 (Z.leb_le _ _)) by lia. Qed.

Lemma object_app {A} l r o n (x : A) : Z.of_nat (length l) = o -> n <= Z.of_nat (length r) -> object (l ++ r) o n x = Ok x.
Proof. intros <- Hn. apply object_in; rewrite ?length_app; lia. Qed.

Lemma rd16_app l r o k : Z.of_nat (length l) = o -> 0 <= k -> rd16 (l ++ r) (o + k) = rd16 r k.
Proof. intros Ho Hk. unfold rd16. rewrite <- Z.add_assoc, !byte_app by (done || lia). done. Qed.
Lemma rd32_app l r o k : Z.of_nat (length l) = o -> 0 <= k -> rd32 (l ++ r) (o + k) = rd32 r k.
Proof. intros Ho Hk. unfold rd32. rewrite <- Z.add_assoc, !rd16_app by (done || lia). done. Qed.
Lemma rd16_le v r : is_u16 v -> rd16 (le16 v ++ r) 0 = v.
Proof. intros Hv. exact (le16_value v Hv). Qed.
Lemma rd32_le v r : is_u32 v -> rd32 (le32 v ++ r) 0 = v.
Proof. intros Hv. exact (le32_value v Hv). Qed.
(** A field behind a field. *)
Lemma rd32_skip32 v r k : 4 <= k -> rd32 (le32 v ++ r) k = rd32 r (k - 4).
Proof. intros Hk. replace k with (4 + (k - 4)) at 1 by lia. by apply rd32_app; [|lia]. Qed.
Lemma rd32_skip16 v r k : 2 <= k -> rd32 (le16 v ++ r) k = rd32 r (k - 2).
Proof. intros Hk. replace k with (2 + (k - 2)) at 1 by lia. by apply rd32_app; [|lia]. Qed.
Lemma rd16_skip32 v r k : 4 <= k -> rd16 (le32 v ++ r) k = rd16 r (k - 4).
Proof. intros Hk. replace k with (4 + (k - 4)) at 1 by lia. by apply rd16_app; [|lia]. Qed.
Lemma rd16_skip16 v r k : 2 <= k -> rd16 (le16 v ++ r) k = rd16 r (k - 2).
Proof. intros Hk. replace k with (2 + (k - 2)) at 1 by lia. by apply rd16_app; [|lia]. Qed.

Ltac fields := repeat first [rewrite rd32_skip32 by lia | rewrite rd32_skip16 by lia | rewrite rd16_skip32 by lia | rewrite rd16_skip16 by lia];
  cbn [Z.sub Z.add Z.opp Z.pos_sub Pos.succ Pos.pred_double Pos.add]; first [apply rd32_le | apply rd16_le]; assumption.

Lemma read_phdr_enc l p r : phdr_ok p -> read_phdr (l ++ enc_phdr p ++ r) (Z.of_nat (length l)) = Ok p.
Proof.
  intros (?&?&?&?&?&?&?&?). unfold read_phdr. rewrite object_app; [|done|].
  2: { unfold enc_phdr. rewrite !length_app, !length_le32. lia. }
  f_equal. rewrite !(rd32_app l) by (done || lia). rewrite <- (Z.add_0_r (Z.of_nat (length l))) at 1. rewrite !(rd32_app l) by (done || lia).
  destruct p; unfold enc_phdr; cbn [p_type p_offset p_vaddr p_paddr p_filesz p_memsz p_flags p_align] in *. rewrite <- !app_assoc. f_equal; fields.
Qed.

Lemma read_shdr_enc l p r : shdr_ok p -> read_shdr (l ++ enc_shdr p ++ r) (Z.of_nat (length l)) = Ok p.
Proof.
  intros (?&?&?&?&?&?&?&?&?&?). unfold read_shdr. rewrite object_app; [|done|].
  2: { unfold enc_shdr. rewrite !length_app, !length_le32. lia. }
  f_equal. rewrite !(rd32_app l) by (done || lia). rewrite <- (Z.add_0_r (Z.of_nat (length l))) at 1. rewrite !(rd32_app l) by (done || lia).
  destruct p; unfold enc_shdr; cbn [sh_name sh_type sh_flags sh_addr sh_offset sh_size sh_link sh_info sh_addralign sh_entsize] in *.
  rewrite <- !app_assoc. f_equal; fields.
Qed.

Lemma read_ehdr_enc h r : ehdr_ok h -> read_ehdr (enc_ehdr h ++ r) 0 = Ok h.
Proof.
  intros (Hl&?&?&?&?&?&?&?&?&?&?&?&?&?). unfold read_ehdr. rewrite object_in; [|done|].
  2: { unfold enc_ehdr. rewrite !length_app, Hl, !length_le32. cbn. lia. }
  f_equal. unfold enc_ehdr. destruct h; cbn [e_ident e_type e_machine e_version e_entry e_phoff e_shoff e_flags e_ehsize e_phentsize e_phnum
    e_shentsize e_shnum e_shstrndx] in *. rewrite <- !app_assoc. change (0 + ?x) with x.
  change 18 with (16 + 2). change 20 with (16 + 4). change 24 with (16 + 8). change 28 with (16 + 12). change 32 with (16 + 16).
  change 36 with (16 + 20). change 40 with (16 + 24). change 42 with (16 + 26). change 44 with (16 + 28). change 46 with (16 + 30).
  change 48 with (16 + 32). change 50 with (16 + 34). rewrite !(rd16_app e_ident0), !(rd32_app e_ident0) by lia.
  replace (rd16 (e_ident0 ++ _) 16) with (e_type0); [f_equal; try fields|].
  - unfold slice. rewrite drop_0, take_app_le, take_ge by lia. done.
  - change 16 with (16 + 0). rewrite rd16_app by lia. by rewrite rd16_le.
Qed.

(** ** Images *)

(** The file [f] holds the header [h] and the tables [phs] and [shs]. *)
Definition represents (f : list Z) (h : Elf32_Ehdr) (phs : list Elf32_Phdr) (shs : list Elf32_Shdr) : Prop :=
  read_ehdr f 0 = Ok h /\ e_phnum h = Z.of_nat (length phs) /\ e_shnum h = Z.of_nat (length shs) /\
  (forall k p, phs !! k = Some p -> read_phdr f (e_phoff h + 32 * Z.of_nat k) = Ok p) /\
  (forall k p, shs !! k = Some p -> read_shdr f (e_shoff h + 40 * Z.of_nat k) = Ok p).

(** A file with the tables behind the header. *)
Definition image (h : Elf32_Ehdr) (phs : list Elf32_Phdr) (shs : list Elf32_Shdr) (rest : list Z) : list Z :=
  enc_ehdr h ++ concat (enc_phdr <$> phs) ++ concat (enc_shdr <$> shs) ++ rest.

Lemma length_ehdr h : ehdr_ok h -> length (enc_ehdr h) = 52%nat.
Proof. intros (Hl & _). unfold enc_ehdr. rewrite !length_app, Hl, !length_le32. done. Qed.

(** Objects of one size, one behind the other. *)
Lemma table_split {A} (enc : A -> list Z) n l k x : (forall y, length (enc y) = n) -> l !! k = Some x ->
  exists pre post, concat (enc <$> l) = pre ++ enc x ++ post /\ length pre = (n * k)%nat.
Proof.
  intros Hn Hx. exists (concat (enc <$> take k l)), (concat (enc <$> drop (S k) l)). split.
  - rewrite <- (take_drop_middle l k x Hx) at 1. rewrite fmap_app, concat_app, fmap_cons. done.
  - apply lookup_lt_Some in Hx. assert (length (take k l) = k) as Hk by (rewrite length_take; lia). revert Hk. generalize (take k l).
    intros t <-. clear -Hn. induction t as [|y t IH]; cbn; [lia|]. rewrite length_app, Hn. cbn in IH. rewrite IH. lia.
Qed.

(** The header and the tables of an image are read back as they were written, whatever follows them. *)
Lemma image_represents h phs shs rest : ehdr_ok h -> Forall phdr_ok phs -> Forall shdr_ok shs ->
  e_phoff h = 52 -> e_shoff h = 52 + 32 * Z.of_nat (length phs) -> e_phnum h = Z.of_nat (length phs) -> e_shnum h = Z.of_nat (length shs) ->
  represents (image h phs shs rest) h phs shs.
Proof.
  intros Hh Hp Hs Epo Eso Epn Esn. assert (length (concat (enc_phdr <$> phs)) = (32 * length phs)%nat) as Hlen.
  { clear. induction phs as [|p phs IH]; [done|]. cbn [fmap list_fmap concat length]. rewrite length_app, IH.
    unfold enc_phdr. rewrite !length_app, !length_le32. lia. }
  split_and!; [by apply read_ehdr_enc|done|done|intros k p Hk..].
  - destruct (table_split enc_phdr 32 phs k p) as (pre & post & E & Hpre); [intros y; unfold enc_phdr; by rewrite !length_app, !length_le32|done|].
    unfold image. rewrite E, <- !app_assoc, app_assoc. replace (e_phoff h + _) with (Z.of_nat (length (enc_ehdr h ++ pre))).
    + apply read_phdr_enc. by eapply Forall_lookup.
    + rewrite length_app, (length_ehdr h Hh), Hpre. lia.
  - destruct (table_split enc_shdr 40 shs k p) as (pre & post & E & Hpre); [intros y; unfold enc_shdr; by rewrite !length_app, !length_le32|done|].
    unfold image. rewrite E, <- !app_assoc, !(app_assoc _ _ (enc_shdr p ++ _)). 
    replace (e_shoff h + _) with (Z.of_nat (length ((enc_ehdr h ++ concat (enc_phdr <$> phs)) ++ pre))).
    + rewrite !app_assoc. rewrite <- (app_assoc _ (enc_shdr p)). rewrite <- app_assoc. apply read_shdr_enc. by eapply Forall_lookup.
    + rewrite !length_app, (length_ehdr h Hh), Hpre, Hlen. lia.
Qed.

(** ** Which images are accepted *)

(** A loop over the elements of a list. *)
Lemma for_loop_list {A S} (l : list A) (body : nat -> S -> res S) (g : A -> S -> S) :
  (forall k x s, l !! k = Some x -> body k s = Ok (g x s)) -> forall s, for_loop (length l) body s = Ok (foldl (fun s x => g x s) s l).
Proof.
  intros Hb. unfold for_loop. assert (forall n s, (n <= length l)%nat -> for_from (length l - n) n body s = Ok (foldl (fun s x => g x s) s (drop n l))) as Hgo.
  { intros n. remember (length l - n)%nat as m eqn:Hm. revert n Hm. induction m as [|m IH]; intros n Hm s Hn; cbn [for_from].
    - rewrite drop_ge by lia. done.
    - destruct (lookup_lt_is_Some_2 l n) as [x Hx]; [lia|]. rewrite (Hb n x s Hx). run. rewrite IH by lia.
      rewrite (drop_S l x n Hx). done. }
  intros s. pose proof (Hgo 0%nat s ltac:(lia)) as H. by rewrite Nat.sub_0_r in H.
Qed.

Definition is_load (p : Elf32_Phdr) : bool := p_type p =? PT_LOAD.

(** The pages a segment takes, as the check counts them. *)
Definition in_pages (p : Elf32_Phdr) (i : Z) : Prop := Z.shiftr (p_vaddr p) 12 <= i < Z.shiftr (p_vaddr p) 12 + segment_pages p.

(** A page of a writable segment is also one of an earlier read-only segment. *)
Definition clash (phs : list Elf32_Phdr) : Prop :=
  exists j k p q i, (j < k)%nat /\ phs !! j = Some p /\ phs !! k = Some q /\ is_load p = true /\ is_load q = true /\
    segment_write p = false /\ segment_write q = true /\ in_pages p i /\ in_pages q i.

Definition accepted (h : Elf32_Ehdr) (t : ELF_type) (phs : list Elf32_Phdr) (shs : list Elf32_Shdr) : Prop :=
  take 5 (e_ident h) = [127; 69; 76; 70; 1] /\ e_type h = e_type_of t /\ (sh_type <$> head shs = Some SHT_NULL) /\
  Forall (fun s => sh_type s ∈ supported_sections) shs /\ phs <> [] /\ Forall (fun p => p_type p ∈ supported_phdr_types) phs /\ ~ clash phs.

(** Addresses that do not wrap around. *)
Definition fits (p : Elf32_Phdr) : Prop := 0 <= p_vaddr p /\ 0 <= p_memsz p /\ p_vaddr p + p_memsz p + PAGE_SIZE <= 4294967296.

(** The tables refer to sections that exist. *)
Definition links_ok (h : Elf32_Ehdr) (shs : list Elf32_Shdr) : Prop :=
  e_shentsize h = 40 /\ 0 <= e_shstrndx h < Z.of_nat (length shs) /\
  Forall (fun s => sh_type s = SHT_SYMTAB \/ sh_type s = SHT_DYNSYM -> 0 <= sh_link s < Z.of_nat (length shs)) shs.

(** Going through the pages of a segment. *)
Lemma mark_pages_write n : forall b ro, 0 <= b -> b + Z.of_nat n <= Z.of_nat (length ro) ->
  exists r, mark_pages n b true ro = Ok r /\
    (r = Some ro /\ (forall i, b <= i < b + Z.of_nat n -> ro !! Z.to_nat i = Some false) \/
     r = None /\ exists i, b <= i < b + Z.of_nat n /\ ro !! Z.to_nat i = Some true).
Proof.
  induction n as [|n IH]; intros b ro Hb Hn; cbn [mark_pages]; [eexists; split; [done|]; left; split; [done|lia]|].
  destruct (lookup_lt_is_Some_2 ro (Z.to_nat b)) as [x Hx]; [lia|]. rewrite Hx. run. destruct x.
  - eexists. split; [done|]. right. split; [done|]. exists b. split; [lia|done].
  - destruct (IH (b + 1) ro ltac:(lia) ltac:(lia)) as (r & -> & [[-> Hf]|[-> (i & Hi & Ht)]]); (eexists; split; [done|]); [left|right]; (split; [done|]).
    + intros i Hi. destruct (decide (i = b)) as [->|]; [done|]. apply Hf. lia.
    + exists i. split; [lia|done].
Qed.

Lemma mark_pages_read n : forall b ro, 0 <= b -> b + Z.of_nat n <= Z.of_nat (length ro) ->
  exists ro', mark_pages n b false ro = Ok (Some ro') /\ length ro' = length ro /\
    forall i, 0 <= i -> ro' !! Z.to_nat i = if decide (b <= i < b + Z.of_nat n) then Some true else ro !! Z.to_nat i.
Proof.
  induction n as [|n IH]; intros b ro Hb Hn; cbn [mark_pages].
  { exists ro. split_and!; [done..|]. intros i Hi. rewrite decide_False by lia. done. }
  destruct (lookup_lt_is_Some_2 ro (Z.to_nat b)) as [x Hx]; [lia|]. rewrite Hx. run.
  destruct (IH (b + 1) (<[Z.to_nat b:=true]> ro)) as (ro' & -> & Hl & Hro); [lia|rewrite length_insert; lia|]. exists ro'.
  rewrite length_insert in Hl. split_and!; [done..|]. intros i Hi. rewrite Hro by done. destruct (decide (i = b)) as [->|].
  - rewrite decide_False, decide_True, list_lookup_insert_eq by lia. done.
  - destruct (decide (b + 1 <= i < b + 1 + Z.of_nat n)); [by rewrite decide_True by lia|]. rewrite decide_False by lia.
    by rewrite list_lookup_insert_ne by lia.
Qed.

Lemma shiftr12 a : Z.shiftr a 12 = a / 4096.
Proof. by rewrite Z.shiftr_div_pow2 by lia. Qed.

Lemma segment_pages_fit p top : fits p -> p_vaddr p + p_memsz p <= top -> top + PAGE_SIZE <= 4294967296 ->
  0 <= Z.shiftr (p_vaddr p) 12 /\ 0 <= segment_pages p /\ Z.shiftr (p_vaddr p) 12 + segment_pages p <= Z.shiftr (top +u (PAGE_SIZE - 1)) 12.
Proof.
  unfold fits, segment_pages, PAGE_SIZE. intros (Hv & Hm & Hs) Ht Htop. rewrite !shiftr12, !u32_id by (unfold is_u32; lia).
  change (4096 - 1) with 4095. pose proof (Z.div_pos (p_vaddr p) 4096). pose proof (Z.div_pos (p_memsz p + 4095) 4096). split_and!; [lia..|].
  apply Z.div_le_lower_bound; [lia|]. pose proof (Z.mul_div_le (p_vaddr p) 4096). pose proof (Z.mul_div_le (p_memsz p + 4095) 4096). lia.
Qed.

Section accepted.
Context (f : list Z) (h : Elf32_Ehdr) (phs : list Elf32_Phdr) (shs : list Elf32_Shdr).
Context (Hrep : represents f h phs shs).

Definition about (e : ELF) : Prop := global_hdr e = h /\ prog_hdrs e = e_phoff h /\ section_hdrs e = e_shoff h.

Lemma program_at e k p : about e -> phs !! k = Some p -> program f e k = Ok p.
Proof. intros (_ & Hp & _) Hk. unfold program. rewrite Hp. by apply Hrep. Qed.

Lemma section_at e k s : about e -> shs !! k = Some s -> section f e k = Ok s.
Proof. intros (_ & _ & Hs) Hk. unfold section. rewrite Hs. by apply Hrep. Qed.

Lemma linked e i : about e -> e_shentsize h = 40 -> 0 <= i < Z.of_nat (length shs) ->
  exists s, read_shdr f (section_hdrs e + e_shentsize (global_hdr e) * i) = Ok s /\ section f e (Z.to_nat i) = Ok s.
Proof.
  intros He Hsz Hi. destruct (lookup_lt_is_Some_2 shs (Z.to_nat i)) as [s Hs]; [lia|]. exists s. rewrite (section_at e _ s He Hs). split; [|done].
  rewrite <- (section_at e _ s He Hs). unfold section. destruct He as (-> & _ & ->). rewrite Hsz. f_equal. lia.
Qed.

(** The constructor succeeds on a file without dynamic sections. *)
Lemma new_ELF_ok : links_ok h shs -> Forall (fun s => sh_type s <> SHT_DYNAMIC) shs -> Forall (fun p => p_type p <> PT_INTERP) phs ->
  exists e, new_ELF f = Ok e /\ about e /\ interpreter_name e = None.
Proof.
  intros (Hsz & Hstr & Hlinks) Hdyn Hint. destruct Hrep as (Eh & Ep & Es & _). unfold new_ELF. rewrite Eh. run.
  set (e0 := mkELF _ _ _ _ _ _ _ _ _ _ _ _ _ _).
  destruct (for_loop_inv (fun _ e => about e /\ dyn_table e = None) (Z.to_nat (e_shnum h)) (section_step f) e0) as (e & -> & He & Hd); [done| |].
  { intros i e Hi [He Hd]. destruct (lookup_lt_is_Some_2 shs i) as [s Hs]; [lia|]. unfold section_step. rewrite (section_at e i s He Hs). run.
    rewrite (proj2 (Z.eqb_neq _ _)) by (by eapply (Forall_lookup_1 _ _ _ _ Hdyn)).
    pose proof (Forall_lookup_1 _ _ _ _ Hlinks Hs) as Hl. cbn in Hl.
    destruct (Z.eqb_spec (sh_type s) SHT_SYMTAB); [|destruct (Z.eqb_spec (sh_type s) SHT_DYNSYM)].
    - destruct (linked e (sh_link s) He Hsz) as (x & -> & _); [auto|]. run. eauto.
    - destruct (linked e (sh_link s) He Hsz) as (x & _ & ->); [auto|]. run. eauto.
    - eauto. }
  run. assert (forall n k, (k + n = length phs)%nat -> find_interp f e n k = Ok None) as Hfind.
  { induction n as [|n IH]; intros k Hk; [done|]. cbn [find_interp]. destruct (lookup_lt_is_Some_2 phs k) as [p Hp]; [lia|].
    rewrite (program_at e k p He Hp). run. rewrite (proj2 (Z.eqb_neq _ _)) by (by eapply (Forall_lookup_1 _ _ _ _ Hint)). apply IH. lia. }
  rewrite Hfind by lia. run. destruct (linked e (e_shstrndx h) He Hsz Hstr) as (x & Hx & _). pose proof He as (Hg & _). rewrite Hg in Hx. rewrite Hx. run.
  cbn [dyn_table set_names]. rewrite Hd. eexists. split; [done|]. done.
Qed.

Definition highest : Z := foldl (fun a p => if is_load p then Z.max a (p_vaddr p + p_memsz p) else a) 0 phs.

Lemma highest_ge p : p ∈ phs -> is_load p = true -> p_vaddr p + p_memsz p <= highest.
Proof.
  unfold highest. generalize 0. clear. assert (forall l a, a <= foldl (fun a p => if is_load p then Z.max a (p_vaddr p + p_memsz p) else a) a l) as Hmono.
  { induction l as [|x l IH]; intros a; cbn [foldl]; [lia|]. etrans; [|apply IH]. destruct (is_load x); lia. }
  induction phs as [|x l IH]; intros a Hin Hl; [set_solver|]. cbn [foldl]. apply elem_of_cons in Hin as [->|Hin]; [|by apply IH].
  rewrite Hl. etrans; [|apply Hmono]. lia.
Qed.

Lemma highest_fits : Forall fits phs -> 0 <= highest /\ highest + PAGE_SIZE <= 4294967296.
Proof.
  assert (forall l a, Forall fits l -> 0 <= a /\ a + PAGE_SIZE <= 4294967296 ->
    let r := foldl (fun a p => if is_load p then Z.max a (p_vaddr p + p_memsz p) else a) a l in 0 <= r /\ r + PAGE_SIZE <= 4294967296) as Hgo.
  { intros l a H. revert a. induction H as [|p l Hp _ IH]; intros a Ha; cbn [foldl]; [done|]. apply IH. unfold fits in Hp. destruct (is_load p); lia. }
  intros H. apply Hgo; [done|]. unfold PAGE_SIZE. lia.
Qed.

Lemma num_pages_ok e : about e -> Forall fits phs -> num_pages f e = Ok (Z.shiftr (highest +u (PAGE_SIZE - 1)) 12).
Proof.
  intros He Hfit. unfold num_pages, get_highest_runtime_addr. pose proof He as (-> & _). destruct Hrep as (_ & -> & _). rewrite Nat2Z.id.
  rewrite (for_loop_list phs _ (fun p a => if is_load p then Z.max a (p_vaddr p + p_memsz p) else a)); [done|].
  intros k p a Hk. rewrite (program_at e k p He Hk). run. unfold is_load. destruct (p_type p =? PT_LOAD); cbn [negb]; [|done]. f_equal.
  pose proof (Forall_lookup_1 _ _ _ _ Hfit Hk) as (Hv & Hm & Hs). unfold PAGE_SIZE in Hs. rewrite u32_id by (unfold is_u32; lia).
  destruct (Z.ltb_spec a (p_vaddr p + p_memsz p)); lia.
Qed.

(** The marks after the first [k] headers. *)
Definition marks (k : nat) (ro : list bool) : Prop :=
  Z.of_nat (length ro) = Z.shiftr (highest +u (PAGE_SIZE - 1)) 12 /\
  forall i, 0 <= i < Z.of_nat (length ro) -> exists b : bool, ro !! Z.to_nat i = Some b /\
    (b = true <-> exists j p, (j < k)%nat /\ phs !! j = Some p /\ is_load p = true /\ segment_write p = false /\ in_pages p i).

Definition clash_from (n : nat) : Prop :=
  exists j k p q i, (n <= k)%nat /\ (j < k)%nat /\ phs !! j = Some p /\ phs !! k = Some q /\ is_load p = true /\ is_load q = true /\
    segment_write p = false /\ segment_write q = true /\ in_pages p i /\ in_pages q i.

Lemma mark_segments_ok e : about e -> Forall fits phs -> forall n k ro, (k + n = length phs)%nat -> marks k ro ->
  exists b, mark_segments f e n k ro = Ok b /\ (b = false <-> clash_from k).
Proof.
  intros He Hfit. induction n as [|n IH]; intros k ro Hk Hm; cbn [mark_segments].
  { exists true. split; [done|]. split; [done|]. intros (j & k' & p & q & i & ? & ? & _ & Hq & _). apply lookup_lt_Some in Hq. lia. }
  destruct (lookup_lt_is_Some_2 phs k) as [p Hp]; [lia|]. rewrite (program_at e k p He Hp). run. fold (is_load p).
  assert (clash_from (S k) -> clash_from k) as Hweak by (intros (j & k' & ? & ? & ? & ? & ?); exists j, k'; naive_solver lia).
  assert (forall q, (is_load p = false \/ segment_write p = false) -> q = false -> clash_from k -> clash_from (S k)) as Hstep.
  { intros _ Hor _ (j & k' & p' & q' & i & ? & ? & ? & Hq & ? & Hl & ? & Hw & ?). destruct (decide (k' = k)) as [->|]; [|exists j, k', p', q', i; naive_solver lia].
    rewrite Hp in Hq. simplify_eq. destruct Hor; congruence. }
  destruct (is_load p) eqn:Hl; cbn [negb].
  2: { destruct (IH (S k) ro) as (b & -> & Hb); [lia| |exists b; split; [done|]; rewrite Hb; split; [done|by apply (Hstep false); auto]].
       destruct Hm as [Hlen Hm]. split; [done|]. intros i Hi. destruct (Hm i Hi) as (b & E & Hb). exists b. split; [done|]. rewrite Hb.
       split; intros (j & p' & Hj & Hp' & ? & ?); [exists j, p'; naive_solver lia|]. destruct (decide (j = k)) as [->|]; [congruence|exists j, p'; naive_solver lia]. }
  destruct Hm as [Hlen Hm]. pose proof (highest_fits Hfit) as [Ht0 Ht].
  destruct (segment_pages_fit p highest) as (Hv & Hs & Hpages); [by eapply (Forall_lookup_1 _ _ _ _ Hfit)|apply highest_ge; [by eapply list_elem_of_lookup_2|done]|done|].
  rewrite <- Hlen in Hpages. destruct (segment_write p) eqn:Hw.
  - destruct (mark_pages_write (Z.to_nat (segment_pages p)) (Z.shiftr (p_vaddr p) 12) ro) as (r & -> & Hr); [lia..|]. rewrite Z2Nat.id in Hr by lia. run.
    destruct Hr as [[-> Hclear]|[-> (i & Hi & Htrue)]].
    + destruct (IH (S k) ro) as (b & -> & Hb); [lia| |].
      { split; [done|]. intros i Hi. destruct (Hm i Hi) as (b & E & Hb). exists b. split; [done|]. rewrite Hb.
        split; intros (j & p' & Hj & Hp' & ? & ? & ?); [exists j, p'; naive_solver lia|]. destruct (decide (j = k)) as [->|]; [congruence|exists j, p'; naive_solver lia]. }
      exists b. split; [done|]. rewrite Hb. split; [done|].
      intros (j & k' & p' & q' & i & ? & ? & Hp' & Hq & Hlp & ? & Hro & ? & Hip & Hiq). destruct (decide (k' = k)) as [->|]; [|exists j, k', p', q', i; naive_solver lia].
      rewrite Hp in Hq. simplify_eq. unfold in_pages in Hiq. specialize (Hclear i Hiq). destruct (Hm i ltac:(lia)) as (b' & E & Hb'). rewrite Hclear in E. injection E as <-.
      exfalso. assert (false = true) as []%diff_false_true. apply Hb'. exists j, p'. done.
    + exists false. split; [done|]. split; [intros _|done]. destruct (Hm i ltac:(lia)) as (b' & E & Hb'). rewrite Htrue in E. injection E as <-.
      destruct (proj1 Hb' eq_refl) as (j & p' & ? & ? & ? & ? & ?). exists j, k, p', p, i. unfold in_pages at 2. naive_solver lia.
  - destruct (mark_pages_read (Z.to_nat (segment_pages p)) (Z.shiftr (p_vaddr p) 12) ro) as (ro' & -> & Hl' & Hro'); [lia..|]. rewrite Z2Nat.id in Hro' by lia. run.
    destruct (IH (S k) ro') as (b & -> & Hb); [lia| |exists b; split; [done|]; rewrite Hb; split; [done|by apply (Hstep false); auto]].
    split; [lia|]. rewrite Hl'. intros i Hi. rewrite Hro' by lia. case_decide as Hin.
    + exists true. split; [done|]. split; [intros _|done]. exists k, p. split_and!; [lia|done..].
    + destruct (Hm i Hi) as (b' & E & Hb'). exists b'. split; [done|]. rewrite Hb'.
      split; intros (j & p' & Hj & Hp' & ? & ? & Hip); [exists j, p'; naive_solver lia|]. destruct (decide (j = k)) as [->|]; [|exists j, p'; naive_solver lia].
      rewrite Hp in Hp'. simplify_eq. done.
Qed.

Lemma sections_supported_ok e : about e -> forall n k, (k + n = length shs)%nat ->
  exists b, sections_supported f e n k = Ok b /\ (b = true <-> Forall (fun s => sh_type s ∈ supported_sections) (drop k shs)).
Proof.
  intros He. induction n as [|n IH]; intros k Hk; cbn [sections_supported]; [exists true; rewrite drop_ge by lia; done|].
  destruct (lookup_lt_is_Some_2 shs k) as [s Hs]; [lia|]. rewrite (section_at e k s He Hs). run. rewrite (drop_S shs s k Hs). setoid_rewrite Forall_cons.
  unfold supported. case_bool_decide; [|exists false; naive_solver]. destruct (IH (S k)) as (b & -> & Hb); [lia|]. exists b. naive_solver.
Qed.

Lemma phdrs_supported_ok e : about e -> forall n k, (k + n = length phs)%nat ->
  exists b, phdrs_supported f e n k = Ok b /\ (b = true <-> Forall (fun s => p_type s ∈ supported_phdr_types) (drop k phs)).
Proof.
  intros He. induction n as [|n IH]; intros k Hk; cbn [phdrs_supported]; [exists true; rewrite drop_ge by lia; done|].
  destruct (lookup_lt_is_Some_2 phs k) as [s Hs]; [lia|]. rewrite (program_at e k s He Hs). run. rewrite (drop_S phs s k Hs). setoid_rewrite Forall_cons.
  unfold supported. case_bool_decide; [|exists false; naive_solver]. destruct (IH (S k)) as (b & -> & Hb); [lia|]. exists b. naive_solver.
Qed.

(** The last check on the addresses never fails: the mask clears the bits that the error value has. *)
Lemma base_address_ok e : about e -> exists a, base_address f e = Ok a /\ a <> UINT_MAX.
Proof.
  intros He. unfold base_address. pose proof He as (-> & _). destruct Hrep as (_ & -> & _). rewrite Nat2Z.id.
  rewrite (for_loop_list phs _ (fun p a => if is_load p then if p_vaddr p <? a then p_vaddr p else a else a)).
  - run. eexists. split; [done|]. intros E. apply (f_equal (fun x => Z.testbit x 0)) in E. rewrite Z.ldiff_spec in E. unfold PAGE_SIZE, UINT_MAX in E.
    change (Z.testbit (4096 - 1) 0) with true in E. change (Z.testbit 4294967295 0) with true in E. by rewrite andb_false_r in E.
  - intros k p a Hk. rewrite (program_at e k p He Hk). run. unfold is_load. by destruct (p_type p =? PT_LOAD).
Qed.

End accepted.

Lemma ident_ok (h : Elf32_Ehdr) : is_ELF h = true -> is_32_bits h = true -> take 5 (e_ident h) = [127; 69; 76; 70; 1].
Proof.
  unfold is_ELF, is_32_bits. intros H4%bool_decide_eq_true H1%bool_decide_eq_true. rewrite (take_S_r _ _ _ H1), H4. done.
Qed.

Lemma ident_inv (h : Elf32_Ehdr) : take 5 (e_ident h) = [127; 69; 76; 70; 1] -> is_ELF h = true /\ is_32_bits h = true.
Proof.
  intros H. unfold is_ELF, is_32_bits. rewrite !bool_decide_eq_true. split.
  - replace (take 4 (e_ident h)) with (take 4 (take 5 (e_ident h))) by (by rewrite take_take). by rewrite H.
  - rewrite <- (lookup_take_lt _ 5) by lia. by rewrite H.
Qed.

Lemma clash_from_0 phs : clash_from phs 0 <-> clash phs.
Proof.
  split; intros (j & k & p & q & i & H); exists j, k, p, q, i; [apply H|]. split; [lia|done].
Qed.

(** What a loop that returns keeps. *)
Lemma for_loop_keeps {S} (P : S -> Prop) n body (s s' : S) :
  (forall k s s', P s -> body k s = Ok s' -> P s') -> P s -> for_loop n body s = Ok s' -> P s'.
Proof.
  intros Hb. unfold for_loop. generalize 0%nat. revert s. induction n as [|n IH]; intros s k Hs; cbn [for_from]; [by intros [= <-]|].
  destruct (body k s) as [s1| | |] eqn:E; run; [|done..]. apply IH. by eapply Hb.
Qed.

Lemma new_ELF_about f h e : read_ehdr f 0 = Ok h -> new_ELF f = Ok e -> about h e.
Proof.
  unfold new_ELF. intros ->. run. destruct (for_loop _ _ _) as [e1| | |] eqn:E; run; [|done..].
  apply (for_loop_keeps (about h)) in E; [| |done].
  2: { intros k e0 e0' He0. unfold section_step. destruct (section f e0 k) as [x| | |]; run; [|done..].
       destruct (_ =? _); [by intros [= <-]|]. destruct (_ =? _); [destruct (read_shdr _ _); run; [|done..]; by intros [= <-]|].
       destruct (_ =? _); [destruct (section _ _ _); run; [|done..]; by intros [= <-]|by intros [= <-]]. }
  destruct (find_interp _ _ _ _) as [i| | |]; run; [|done..]. destruct (read_shdr _ _) as [x| | |]; run; [|done..]. cbn [dyn_table set_names].
  assert (forall n e0 d, about h e0 -> dynamic_loop n f e0 d = Ok e -> about h e) as Hd.
  { induction n as [|n IH]; intros e0 d He0; cbn [dynamic_loop]; [done|]. destruct (read_dyn f d); run; [|done..].
    destruct (_ =? _); [by intros [= <-]|]. destruct (_ =? _); [by apply IH|]. destruct (_ =? _); by apply IH. }
  destruct (dyn_table e1); [by apply Hd|by intros [= <-]].
Qed.

(** What an accepted file is like. *)
Lemma is_valid_about {S} (find_file : S -> list Z -> res (bool * S)) f h t s e s' : read_ehdr f 0 = Ok h ->
  is_valid find_file f t s = Ok (Some e, s') -> about h e /\ exists n, num_pages f e = Ok n.
Proof.
  intros Hh. unfold is_valid. destruct (new_ELF f) as [e0| | |] eqn:E; run; [|done..]. apply (new_ELF_about f h) in E; [|done].
  repeat (destruct (negb _); [done|]). destruct (section _ _ _) as [h0| | |]; run; [|done..]. destruct (negb _); [done|].
  destruct (sections_supported _ _ _ _) as [b| | |]; run; [|done..]. destruct (negb _); [done|]. destruct (_ =? _); [done|].
  destruct (phdrs_supported _ _ _ _) as [b'| | |]; run; [|done..]. destruct (negb _); [done|].
  destruct (num_pages f e0) as [n| | |] eqn:En; run; [|done..]. destruct (mark_segments _ _ _ _ _) as [b2| | |]; run; [|done..].
  destruct (negb _); [done|]. destruct (base_address f e0) as [a| | |]; run; [|done..]. destruct (_ =? _); [done|].
  destruct (interpreter_name e0); [|intros [= <- <-]; eauto]. destruct (dyn_table e0); [|done].
  destruct (find_file _ _) as [[fd s1]| | |]; run; [|done..]. destruct (negb _); [done|]. destruct (_ =? _); [done|]. intros [= <- <-]. eauto.
Qed.


(** A program with a read-only segment and, on other pages, a writable one. *)
Definition prog_ehdr (n : Z) : Elf32_Ehdr :=
  mkEhdr ([127; 69; 76; 70; 1; 1; 1] ++ replicate 9 0) ET_EXEC 3 1 4096 52 (52 + 32 * n) 0 52 32 n 40 1 0.
Definition text_segment : Elf32_Phdr := mkPhdr PT_LOAD 156 4096 4096 3 3 5 4096.
Definition data_segment (vaddr : Z) : Elf32_Phdr := mkPhdr PT_LOAD 159 vaddr vaddr 2 6 6 4096.
Definition null_section : Elf32_Shdr := mkShdr 0 0 0 0 0 0 0 0 0 0.
Definition prog (phs : list Elf32_Phdr) : list Z := image (prog_ehdr (Z.of_nat (length phs))) phs [null_section] [1; 2; 3; 4; 5].
Definition no_files (s : unit) (_ : list Z) : res (bool * unit) := Ok (false, s).


(** A page that a read-only and a writable segment share is only noticed when the read-only segment comes first in the table. *)
Theorem overlap_depends_on_order :
  is_valid no_files (prog [text_segment; data_segment 4100]) Executable tt = Ok (None, tt) /\
  (e ← new_ELF (prog [data_segment 4100; text_segment]); Ok (Some e, tt)) = is_valid no_files (prog [data_segment 4100; text_segment]) Executable tt.
Proof. split; vm_compute; reflexivity. Qed.

(** ** Symbols through the hash table *)

(** The hash function of the System V ABI, with which a linker fills the table: in each step the number is multiplied by 16 and the character added, modulo
    2^32, and the four bits above the lowest 28 are taken off and added modulo 2 to bits 4 to 7. *)
Definition sysv_step (h c : Z) : Z :=
  let s := (16 * h + c) mod 2 ^ 32 in Z.lxor (s mod 2 ^ 28) (16 * (s / 2 ^ 28)).
Definition sysv_hash (name : list Z) : Z := foldl sysv_step 0 name.

(** The four highest bits of a word. *)
Lemma hash_high_bits s n : 0 <= n -> Z.testbit (Z.land s 4026531840) n = Z.testbit s n && (28 <=? n) && (n <? 32).
Proof.
  intros Hn. change 4026531840 with (Z.shiftl (Z.ones 4) 28). rewrite Z.land_spec, Z.shiftl_spec by done. destruct (Z.leb_spec 28 n).
  - rewrite Z.testbit_ones_nonneg by lia. destruct (Z.ltb_spec n 32), (Z.ltb_spec (n - 28) 4); try lia; by destruct (Z.testbit s n).
  - rewrite (Z.testbit_neg_r (Z.ones 4)) by lia. by rewrite !andb_false_r.
Qed.

Lemma hash_step s : 0 <= s < 2 ^ 32 -> let g := Z.land s 4026531840 in
  Z.ldiff (if truthy g then Z.lxor s (Z.shiftr g 24) else s) g = Z.lxor (s mod 2 ^ 28) (16 * (s / 2 ^ 28)).
Proof.
  intros Hs g. assert ((if truthy g then Z.lxor s (Z.shiftr g 24) else s) = Z.lxor s (Z.shiftr g 24)) as ->.
  { destruct (truthy g) eqn:E; [done|]. apply negb_false_iff, Z.eqb_eq in E. rewrite E. change (Z.shiftr 0 24) with 0. by rewrite Z.lxor_0_r. }
  apply Z.bits_inj'. intros n Hn. rewrite Z.ldiff_spec, !Z.lxor_spec, Z.shiftr_spec by done. unfold g. rewrite !hash_high_bits by lia.
  rewrite <- Z.shiftr_div_pow2 by lia. change 16 with (2 ^ 4). rewrite (Z.mul_comm (2 ^ 4)), <- Z.shiftl_mul_pow2, Z.shiftl_spec by lia.
  assert (Hbig : forall k, 32 <= k -> Z.testbit s k = false).
  { intros k Hk. destruct (decide (s = 0)) as [->|]; [apply Z.bits_0|]. apply Z.bits_above_log2; [lia|]. assert (Z.log2 s < 32) by (apply Z.log2_lt_pow2; lia). lia. }
  destruct (Z.ltb_spec n 28) as [Hl|Hl].
  - rewrite Z.mod_pow2_bits_low by lia. rewrite (proj2 (Z.leb_gt 28 n)), andb_false_r, andb_false_l, andb_true_r by lia. f_equal. destruct (Z.ltb_spec n 4).
    + rewrite (Z.testbit_neg_r _ (n - 4)) by lia. rewrite (proj2 (Z.leb_gt 28 (n + 24))) by lia. by rewrite andb_false_r.
    + rewrite Z.shiftr_spec by lia. replace (n - 4 + 28) with (n + 24) by lia. rewrite (proj2 (Z.leb_le 28 (n + 24))) by lia. rewrite andb_true_r.
      destruct (Z.ltb_spec (n + 24) 32); [apply andb_true_r|]. by rewrite Hbig by lia.
  - rewrite Z.mod_pow2_bits_high, Z.shiftr_spec by lia. rewrite (Hbig (n - 4 + 28)), (Hbig (n + 24)), (proj2 (Z.leb_le 28 n)) by lia. cbn [andb xorb].
    destruct (Z.ltb_spec n 32); [by destruct (Z.testbit s n)|by rewrite Hbig by lia].
Qed.

(** [hash] is the function of the ABI. *)
Lemma hash_sysv name : hash name = sysv_hash name.
Proof.
  unfold hash, sysv_hash. generalize 0. induction name as [|c name IH]; intros h; [done|]. cbn [hash_from foldl]. rewrite IH. f_equal. unfold sysv_step.
  replace (u32 (Z.shiftl h 4) +u c) with ((16 * h + c) mod 2 ^ 32).
  - apply hash_step. apply Z.mod_pos_bound. lia.
  - unfold u32. rewrite Z.shiftl_mul_pow2 by lia. change 4294967296 with (2 ^ 32). rewrite Zplus_mod_idemp_l. f_equal. lia.
Qed.

Section symbols.
Context (fetch : Z -> res Z) (f : list Z) (t s : Z).

(** The symbol table: the [i]-th symbol is called [names !! i]. *)
Definition symbols (names : list (list Z)) : Prop :=
  forall i nm, names !! i = Some nm -> exists y, read_sym f (t + 16 * Z.of_nat i) = Ok y /\
    forall x, same_name f (s + st_name y) x = Ok (bool_decide (nm = x)).

(** The indices on the chain from [y] on. *)
Inductive linked_from (chain : Z) : Z -> list nat -> Prop :=
| chain_end : linked_from chain STN_UNDEF []
| chain_next i y l : i <> O -> fetch (chain +u 4 * Z.of_nat i) = Ok y -> linked_from chain y l -> linked_from chain (Z.of_nat i) (i :: l).

(** A hash table of the symbols at [base], as the ABI asks for it: the symbols of a chain exist, and each symbol is on the chain of the bucket
    that its hash value is in. *)
Definition hash_table (base nbucket : Z) (names : list (list Z)) : Prop :=
  fetch base = Ok nbucket /\ 0 < nbucket < 4294967296 /\
  forall b, 0 <= b < nbucket -> exists y l, fetch (base +u 8 +u 4 * b) = Ok y /\ linked_from (base +u 8 +u 4 * nbucket) y l /\ NoDup l /\
    (forall i, i ∈ l -> is_Some (names !! i)) /\
    (forall i nm, i <> O -> names !! i = Some nm -> sysv_hash nm mod nbucket = b -> i ∈ l).

Lemma linked_nonzero chain y l k : linked_from chain y l -> k ∈ l -> k <> O.
Proof. intros Hl. induction Hl; [set_solver|]. intros [->|?]%elem_of_cons; auto. Qed.

Lemma find_symbol_ok names name : symbols names -> forall n i, (i + n = length names)%nat ->
  (exists k, (i <= k)%nat /\ names !! k = Some name /\ find_symbol f t s name n (Z.of_nat i) = Ok (Some (t + 16 * Z.of_nat k))) \/
  (name ∉ drop i names /\ find_symbol f t s name n (Z.of_nat i) = Ok None).
Proof.
  intros Hsym. induction n as [|n IH]; intros i Hi; cbn [find_symbol]; [right; rewrite drop_ge by lia; split; [set_solver|done]|].
  destruct (lookup_lt_is_Some_2 names i) as [nm Hnm]; [lia|]. destruct (Hsym i nm Hnm) as (y & -> & Hy). run. rewrite Hy. run.
  case_bool_decide as E; [left; exists i; subst; split_and!; [lia|done..]|].
  replace (Z.of_nat i + 1) with (Z.of_nat (S i)) by lia. destruct (IH (S i) ltac:(lia)) as [(k & ? & ? & ->)|[Hno ->]]; [left; exists k; split_and!; [lia|done..]|right].
  split; [|done]. rewrite (drop_S names nm i Hnm). apply not_elem_of_cons. done.
Qed.

Lemma chain_loop_ok names name chain : symbols names -> forall l y fuel, linked_from chain y l -> (forall i, i ∈ l -> is_Some (names !! i)) ->
  (length l < fuel)%nat ->
  (exists k, k ∈ l /\ names !! k = Some name /\ chain_loop fetch fuel f t s name chain y = Ok (Some (t + 16 * Z.of_nat k))) \/
  ((forall k, k ∈ l -> names !! k <> Some name) /\ chain_loop fetch fuel f t s name chain y = Ok None).
Proof.
  intros Hsym l y fuel Hl. revert fuel. induction Hl as [|i y l Hi Hf Hl IH]; intros fuel Hin Hfuel; destruct fuel as [|fuel]; cbn [length] in Hfuel; [lia| |lia|].
  - right. split; [set_solver|done].
  - cbn [chain_loop]. rewrite (proj2 (Z.eqb_neq _ _)) by (unfold STN_UNDEF; lia).
    destruct (Hin i ltac:(by left)) as [nm Hnm]. destruct (Hsym i nm Hnm) as (x & -> & Hx). run. rewrite Hx. run.
    case_bool_decide as E; [left; exists i; subst; split_and!; [by left|done..]|]. rewrite Hf. run.
    destruct (IH fuel) as [(k & ? & ? & ->)|[Hno ->]]; [intros j Hj; apply Hin; by right|lia|left; exists k; split_and!; [by right|done..]|right].
    split; [|done]. intros k [->|Hk]%elem_of_cons; [congruence|by apply Hno].
Qed.

(** Claim C31: In a symbol table in which no name occurs twice, with a hash table of the System V ABI ([sysv_hash]) at its address, a dynamic symbol is found through the
    hash table exactly when, and where, the search through the whole table finds it; the walk along a chain ends. *)
Theorem hash_lookup_agrees e h names name load_address nbucket fuel :
  symbols names -> NoDup (drop 1 names) -> hash_table (load_address +u hash_table_runtime_address e) nbucket names ->
  hash_table_runtime_address e <> ELF32_ADDR_ERR -> dynsym e = Some t -> dynsym_strtab e = Some s -> dynsym_hdr e = Some h ->
  sh_entsize h = 16 -> sh_size h = 16 * Z.of_nat (length names) -> names <> [] -> (length names < fuel)%nat ->
  get_dynamic_symbol fetch fuel f e name load_address =
  get_dynamic_symbol fetch fuel f (set_dynamic e (runtime_got_addr e) ELF32_ADDR_ERR) name load_address.
Proof.
  intros Hsym Hnd (Hb & Hn & Hbuckets) Hht Ht Hs Hh He Hsz Hne Hfuel. unfold get_dynamic_symbol. rewrite (proj2 (Z.eqb_neq _ _) Hht).
  cbn [hash_table_runtime_address set_dynamic dynsym_hdr dynsym dynsym_strtab]. rewrite Ht, Hs, Hh, Hb. run. rewrite He, Hsz. change (ELF32_ADDR_ERR =? ELF32_ADDR_ERR) with true. change (16 =? 0) with false. cbv iota.
  rewrite (proj2 (Z.eqb_neq nbucket 0)) by lia. replace (16 * Z.of_nat (length names) / 16) with (Z.of_nat (length names)) by (rewrite Z.mul_comm, Z.div_mul; lia).
  rewrite hash_sysv. destruct (Hbuckets (sysv_hash name mod nbucket)) as (y & l & -> & Hl & Hndl & Hin & Hall); [apply Z.mod_pos_bound; lia|]. run.
  assert (length names <> O) by (by destruct names).
  assert (length l <= length names)%nat as Hlen.
  { rewrite <- (length_seq (length names) 0). apply submseteq_length, NoDup_submseteq; [done|]. intros i Hi. apply elem_of_seq.
    destruct (Hin i Hi) as [? ?%lookup_lt_Some]. lia. }
  replace (Z.to_nat (Z.of_nat (length names) - 1)) with (length names - 1)%nat by lia.
  assert ((if y =? STN_UNDEF then Ok None else chain_loop fetch fuel f t s name (load_address +u hash_table_runtime_address e +u 8 +u 4 * nbucket) y) =
    chain_loop fetch fuel f t s name (load_address +u hash_table_runtime_address e +u 8 +u 4 * nbucket) y) as ->.
  { destruct fuel as [|fuel]; [lia|]. cbn [chain_loop]. by destruct (y =? STN_UNDEF). }
  change 1 with (Z.of_nat 1) at 1.
  destruct (find_symbol_ok names name Hsym (length names - 1) 1 ltac:(lia)) as [(k & Hk & Hkn & ->)|[Hno ->]];
    destruct (chain_loop_ok names name _ Hsym l y fuel Hl Hin ltac:(lia)) as [(k' & Hk' & Hkn' & ->)|[Hno' ->]].
  - pose proof (linked_nonzero _ _ _ _ Hl Hk').
    cut (k' = k); [by intros ->|]. cut (k' - 1 = k - 1)%nat; [lia|]. eapply (NoDup_lookup (drop 1 names) _ _ name Hnd); rewrite lookup_drop.
    + replace (1 + (k' - 1))%nat with k' by lia. done.
    + replace (1 + (k - 1))%nat with k by lia. done.
  - destruct (Hno' k); [|done]. eapply Hall; [lia|done..].
  - destruct Hno. pose proof (linked_nonzero _ _ _ _ Hl Hk').
    apply list_elem_of_lookup. exists (k' - 1)%nat. rewrite lookup_drop. by replace (1 + (k' - 1))%nat with k' by lia.
  - done.
Qed.
End symbols.

(** Two symbols in two buckets. *)
Definition two_symbols : list Z :=
  replicate 16 0 ++ le32 1 ++ replicate 12 0 ++ le32 3 ++ replicate 12 0 ++ [0; 97; 0; 98; 0].
Definition two_table (a : Z) : res Z := deref ([2; 3; 2; 1; 0; 0; 0] !! Z.to_nat ((a - 4096) / 4)).
Definition two_elf : ELF :=
  mkELF (prog_ehdr 0) 52 52 None (Some 0) (Some (mkShdr 0 SHT_DYNSYM 0 0 0 48 0 0 0 16)) None None None (Some 48) None None 0 4096.

Lemma hash_lookup_agrees_witness :
  get_dynamic_symbol two_table 4 two_symbols two_elf [98] 0 = get_dynamic_symbol two_table 4 two_symbols (set_dynamic two_elf 0 ELF32_ADDR_ERR) [98] 0 /\
  get_dynamic_symbol two_table 4 two_symbols two_elf [98] 0 = Ok (Some 32).
Proof.
  split; [|reflexivity].
  apply (hash_lookup_agrees two_table two_symbols 0 48 two_elf (mkShdr 0 SHT_DYNSYM 0 0 0 48 0 0 0 16) [[]; [97]; [98]] [98] 0 2 4); try done.
  - intros i nm Hi. destruct i as [|[|[|i]]]; simplify_eq/=; (eexists; split; [vm_compute; reflexivity|]); intros x; vm_compute; done.
  - repeat constructor; set_solver.
  - split; [done|]. split; [lia|]. intros b Hb. assert (b = 0 \/ b = 1) as [-> | ->] by lia; [exists 2, [2%nat]|exists 1, [1%nat]]; (split; [done|]).
    + split; [apply (chain_next _ _ 2 0); [done|done|apply chain_end]|]. split; [apply NoDup_singleton|]. split; [intros i ->%list_elem_of_singleton; done|].
      intros [|[|[|i]]] nm Hi Hn Hh; simplify_eq/=; set_solver.
    + split; [apply (chain_next _ _ 1 0); [done|done|apply chain_end]|]. split; [apply NoDup_singleton|]. split; [intros i ->%list_elem_of_singleton; done|].
      intros [|[|[|i]]] nm Hi Hn Hh; simplify_eq/=; set_solver.
  - vm_compute. lia.
Defined.

End Elf.
