(* ===== verification/ElfLoader.v ===== *)
(** * Making a process from a program ([processes/ELFLoader.cpp], [processes/ELFTools.hxx])

    The loader maps the segments of a program and of its interpreter into kernel pages, which it gets from [mmap] of [KernelHeap], enters the same frames into the tables of
    the new process, copies the contents through the kernel's addresses, and writes the arguments to the stack.  The theorems show
    that the process sees the bytes of its segments, zeroes behind them, and the arguments, the environment and the auxiliary vector
    where the ABI says. *)

From stdpp Require Import base tactics numbers list gmap sets.
From S2P Require Import Prelude Bytes BST MemTree PageAlloc KernelHeap Elf.
Import Bytes BST MemTree PageAlloc.
Open Scope Z_scope.

Module ElfLoader.

Abbreviation ELF := Elf.ELF.

(** ** Kernel memory *)

(** The constants of [mmap] and its errors in the libc headers. *)
Record vm_options := mkVm {
  MAP_ANON : Z; MAP_ANONYMOUS : Z; MAP_PRIVATE : Z; MAP_SHARED : Z; MAP_FIXED : Z; PROT_READ : Z; PROT_WRITE : Z; EINVAL : Z; ENOMEM : Z }.
Definition DEFAULT_U_FLAGS (o : vm_options) : Z := Z.lor (MAP_ANONYMOUS o) (MAP_PRIVATE o).
Definition DEFAULT_U_PROT (o : vm_options) : Z := Z.lor (PROT_READ o) (PROT_WRITE o).

(** [Memory::mmap] for the kernel process, on its heap tree and its memory, without [lazy_zero]; 0 when there is no room. *)
Definition kmmap (o : vm_options) (t : atree) (m : mem) (hint_ size flags_ : Z) (user : bool) : res (atree * mem * Z) :=
  '(h, w, _) ← KernelHeap.mmap (MAP_ANON o) (MAP_ANONYMOUS o) (MAP_PRIVATE o) (MAP_SHARED o) (MAP_FIXED o) (PROT_WRITE o) (EINVAL o) (ENOMEM o)
    lowest_free_pe (mkTree t m) hint_ size (DEFAULT_U_PROT o) flags_ 0 false user;
  Ok (root h, pages h, w).

(** Bytes at kernel addresses. *)
Definition fetch_byte (m : mem) (a : Z) : res Z :=
  d ← read_page m (page_tables m) (ADDR_PAGE a); deref (d !! Z.to_nat (Z.land a (PAGE_SIZE - 1))).
Definition store_byte (m : mem) (a v : Z) : res mem :=
  d ← read_page m (page_tables m) (ADDR_PAGE a);
  write_page m (page_tables m) (ADDR_PAGE a) (<[Z.to_nat (Z.land a (PAGE_SIZE - 1)) := v]> d).
Fixpoint store_bytes (m : mem) (a : Z) (bs : list Z) : res mem :=
  match bs with [] => Ok m | b :: bs => m ← store_byte m a b; store_bytes m (a + 1) bs end.

(** ** Pointers into the address space that is being built ([Lptr]) *)

Record alloc := mkLoaded { alloc_ : allocation; load_addr : Z }.

(** The load address of the runtime address [addr], in the allocation that contains it. *)
Definition covers (addr : Z) (a : alloc) : bool := (start (alloc_ a) <=? addr) && (addr <? end_ (alloc_ a)).
Definition find_alloc (allocs : list alloc) (addr : Z) : option alloc := list_find (fun a => covers addr a = true) allocs ≫= fun p => Some p.2.

Definition get_load_addr (allocs : list alloc) (addr : Z) : res Z :=
  match find_alloc allocs addr with Some a => Ok (load_addr a +u (addr - start (alloc_ a))) | None => Panic end.

(** The load address of [n] bytes from [addr] on, which the allocation must cover. *)
Definition target (allocs : list alloc) (addr n : Z) : res Z :=
  match find_alloc allocs addr with
  | Some a => if addr +u n <? end_ (alloc_ a) then Ok (load_addr a +u (addr - start (alloc_ a))) else Panic
  | None => Panic
  end.

(** [memset], [memcpy], [write] and the reading operators of [Lptr]. *)
Definition lptr_memset (m : mem) (allocs : list alloc) (addr c n : Z) : res mem :=
  a ← target allocs addr n; store_bytes m a (replicate (Z.to_nat n) c).
Definition lptr_memcpy (m : mem) (allocs : list alloc) (addr : Z) (src : list Z) : res mem :=
  a ← target allocs addr (Z.of_nat (length src)); store_bytes m a src.
Definition lptr_get (m : mem) (allocs : list alloc) (addr : Z) : res Z :=
  a ← target allocs addr 4;
  b0 ← fetch_byte m a; b1 ← fetch_byte m (a + 1); b2 ← fetch_byte m (a + 2); b3 ← fetch_byte m (a + 3);
  Ok (rd32 [b0; b1; b2; b3] 0).

(** ** The loader *)

Definition PROCESS_STACK_SIZE : Z := 524288.
Definition PROCESS_STACK_N_PAGES : Z := PROCESS_STACK_SIZE / PAGE_SIZE.
Definition PROCESS_SYSCALL_STACK_SIZE : Z := 8192.
Definition PROCESS_SYSCALL_STACK_N_PAGES : Z := PROCESS_SYSCALL_STACK_SIZE / PAGE_SIZE.
Definition PROCESS_N_STACKS_PAGES : Z := PROCESS_STACK_N_PAGES + PROCESS_SYSCALL_STACK_N_PAGES.

Definition AT_NULL : Z := 0.
Definition AT_PHDR : Z := 3.
Definition AT_PHENT : Z := 4.
Definition AT_PHNUM : Z := 5.
Definition AT_PAGESZ : Z := 6.
Definition AT_ENTRY : Z := 9.
Definition AT_SECURE : Z := 23.
Definition AT_RANDOM : Z := 25.
Definition AT_EXECFN : Z := 31.

Record stack_state := mkState { error_code : Z; eip : Z; cs : Z; eflags : Z; esp : Z; ss : Z }.

(** [ELFLoader]; [kmem] and [ktree] are the kernel's memory and heap tree, the addresses are those of the loader's two arrays. *)
Record loader := mkLoader {
  elf_dep_list : list (ELF * Z); num_pages : Z; ptables : page_table; pdt : list Z; allocations : list alloc; kmem : mem;
  tables_addr : Z; ktree : atree }.

Definition set_kmem (l : loader) (m : mem) : loader := mkLoader (elf_dep_list l) (num_pages l) (ptables l) (pdt l) (allocations l) m (tables_addr l) (ktree l).
Definition set_heap (l : loader) (t : atree) (m : mem) : loader := mkLoader (elf_dep_list l) (num_pages l) (ptables l) (pdt l) (allocations l) m (tables_addr l) t.
Definition set_ptables (l : loader) (pt : page_table) : loader := mkLoader (elf_dep_list l) (num_pages l) pt (pdt l) (allocations l) (kmem l) (tables_addr l) (ktree l).
Definition set_pdt (l : loader) (d : list Z) : loader := mkLoader (elf_dep_list l) (num_pages l) (ptables l) d (allocations l) (kmem l) (tables_addr l) (ktree l).
Definition add_alloc (l : loader) (a : alloc) : loader :=
  mkLoader (elf_dep_list l) (num_pages l) (ptables l) (pdt l) (allocations l ++ [a]) (kmem l) (tables_addr l) (ktree l).
Definition add_pages (l : loader) (n : Z) : loader :=
  mkLoader (elf_dep_list l) (num_pages l +u n) (ptables l) (pdt l) (allocations l) (kmem l) (tables_addr l) (ktree l).
Definition add_dep (l : loader) (d : ELF * Z) : loader :=
  mkLoader (elf_dep_list l ++ [d]) (num_pages l) (ptables l) (pdt l) (allocations l) (kmem l) (tables_addr l) (ktree l).

(** [ELFLoader::ELFLoader]: empty tables, an uninitialised directory. *)
Definition new_loader (t : atree) (m : mem) (tables_addr : Z) (garbage : list Z) : loader := mkLoader [] 0 (mkPT ∅ 768) garbage [] m tables_addr t.

Section loader.
Context (o : vm_options).

(** Kernel pages from [kpage] on entered into the process's tables from [page] on, where there must be nothing. *)
Definition map_pages (n : nat) (page kpage : Z) (user : Z) (l : loader) : res loader :=
  for_loop n (fun i l =>
    e ← PTE (ptables l) (page + Z.of_nat i);
    _ ← ensure (e =? 0);
    k ← PTE (page_tables (kmem l)) (kpage + Z.of_nat i);
    pt ← set_PTE (ptables l) (page + Z.of_nat i) (Z.lor k user);
    Ok (set_ptables l pt)) l.

(** The pages of a segment made read-only. *)
Definition protect_pages (n : nat) (page : Z) (l : loader) : res loader :=
  for_loop n (fun i l =>
    e ← PTE (ptables l) (page + Z.of_nat i);
    pt ← set_PTE (ptables l) (page + Z.of_nat i) (Z.ldiff e PAGE_WRITE);
    Ok (set_ptables l pt)) l.

(** A segment of [map_elf]. *)
Definition map_segment (h : Elf.Elf32_Phdr) (runtime_load_address : Z) (l : loader) : res loader :=
  let segment_num_pages := ADDR_PAGE (Elf.p_memsz h +u (PAGE_SIZE - 1)) in
  let runtime_page_id := ADDR_PAGE (runtime_load_address +u Elf.p_vaddr h) in
  '(t, m, load_addr) ← kmmap o (ktree l) (kmem l) KERNEL_VIRTUAL_BASE (u32 (segment_num_pages * PAGE_SIZE)) (Z.lor (MAP_ANON o) (MAP_PRIVATE o)) true;
  _ ← ensure (truthy load_addr);
  l ← map_pages (Z.to_nat segment_num_pages) runtime_page_id (ADDR_PAGE load_addr) PAGE_USER (set_heap l t m);
  l ← (if Elf.segment_write h then Ok l else protect_pages (Z.to_nat segment_num_pages) runtime_page_id l);
  let base := u32 (Z.shiftl runtime_page_id 12) in
  let policy := if Elf.segment_write h then DEFAULT_U_POLICY else Z.ldiff DEFAULT_U_POLICY (PROT_WRITE o) in
  Ok (add_alloc l (mkLoaded (mkAlloc base (base +u segment_num_pages * PAGE_SIZE) (mkInfo (DEFAULT_U_FLAGS o) policy) true) load_addr)).

(** [map_elf]. *)
Definition map_elf (f : list Z) (e : ELF) (runtime_load_address : Z) (l : loader) : res loader :=
  l ← for_loop (Z.to_nat (Elf.e_phnum (Elf.global_hdr e))) (fun k l =>
    h ← Elf.program f e k;
    if negb (Elf.p_type h =? Elf.PT_LOAD) then Ok l else map_segment h runtime_load_address l) l;
  n ← Elf.num_pages f e;
  Ok (add_pages l n).

(** A segment of [load_elf_code]: its bytes, then zeroes. *)
Definition load_segment (f : list Z) (h : Elf.Elf32_Phdr) (runtime_load_address : Z) (l : loader) : res loader :=
  src ← Elf.object f (Elf.p_offset h) (Elf.p_filesz h) (slice f (Elf.p_offset h) (Elf.p_filesz h));
  m ← lptr_memcpy (kmem l) (allocations l) (runtime_load_address +u Elf.p_vaddr h) src;
  if Elf.p_filesz h <? Elf.p_memsz h then
    m ← lptr_memset m (allocations l) (runtime_load_address +u (Elf.p_vaddr h +u Elf.p_filesz h)) 0 (Elf.p_memsz h - Elf.p_filesz h);
    Ok (set_kmem l m)
  else Ok (set_kmem l m).

(** [load_elf_code]. *)
Definition load_elf_code (f : list Z) (e : ELF) (runtime_load_address : Z) (l : loader) : res loader :=
  for_loop (Z.to_nat (Elf.e_phnum (Elf.global_hdr e))) (fun k l =>
    h ← Elf.program f e k;
    if negb (Elf.p_type h =? Elf.PT_LOAD) then Ok l else load_segment f h runtime_load_address l) l.

(** ** Files *)

Section files.
(** [VFS::browse_to] for a path, and the contents of a file as [open] and [read] give them ([None] when one of them fails). *)
Context {S D : Type} (browse_to : S -> list Z -> res (option D * S)) (open_read : S -> D -> res (option (list Z) * S)).

Definition find_file (s : S) (path : list Z) : res (bool * S) := '(d, s) ← browse_to s path; Ok (bool_decide (is_Some d), s).

(** [dynamic_loading], with the function that loads a buffer. *)
Definition dynamic_loading (load : list Z -> Elf.ELF_type -> loader -> S -> res (option ELF * loader * S)) (f : list Z) (e : ELF)
    (l : loader) (s : S) : res (bool * loader * S) :=
  match Elf.interpreter_name e with
  | None => Ok (true, l, s)
  | Some name =>
      '(d, s) ← browse_to s (cstr (drop (Z.to_nat name) f));
      d ← deref d;
      '(buf, s) ← open_read s d;
      match buf with
      | None => Ok (false, l, s)
      | Some buf => '(r, l, s) ← load buf Elf.SharedObject l s; Ok (bool_decide (is_Some r), l, s)
      end
  end.

(** [load_elf] of a buffer; an interpreter may name an interpreter in turn. *)
Fixpoint load_elf (fuel : nat) (f : list Z) (expected_type : Elf.ELF_type) (l : loader) (s : S) : res (option ELF * loader * S) :=
  '(r, s) ← Elf.is_valid find_file f expected_type s;
  match r with
  | None => Ok (None, l, s)
  | Some e =>
      let runtime_load_addr := u32 (num_pages l * PAGE_SIZE) in
      let l := add_dep l (e, runtime_load_addr) in
      l ← map_elf f e runtime_load_addr l;
      l ← load_elf_code f e runtime_load_addr l;
      '(ok, l, s) ← dynamic_loading (match fuel with O => fun _ _ _ _ => NoFuel | Datatypes.S fuel => load_elf fuel end) f e l s;
      Ok ((if (ok : bool) then Some e else None), l, s)
  end.

(** [load_elf] of a file. *)
Definition load_elf_file (fuel : nat) (d : D) (expected_type : Elf.ELF_type) (l : loader) (s : S) : res (option ELF * loader * S) :=
  '(buf, s) ← open_read s d;
  match buf with None => Ok (None, l, s) | Some buf => load_elf fuel buf expected_type l s end.
End files.

(** ** Stacks and directory *)

(** A stack of [n] pages at [page]. *)
Definition allocate_stack (n page size : Z) (user : bool) (policy : Z) (l : loader) : res loader :=
  '(t, m, load_addr) ← kmmap o (ktree l) (kmem l) 0 size (Z.lor (MAP_ANONYMOUS o) (MAP_PRIVATE o)) user;
  _ ← ensure (truthy load_addr);
  l ← map_pages (Z.to_nat n) page (ADDR_PAGE load_addr) 0 (set_heap l t m);
  Ok (add_alloc l (mkLoaded (mkAlloc (u32 (Z.shiftl page 12)) (u32 (Z.shiftl (page + n) 12)) (mkInfo (DEFAULT_U_FLAGS o) policy) true) load_addr)).

(** [PHYS_ADDR] with the kernel's tables. *)
Definition PHYS_ADDR (m : mem) (virt_addr : Z) : res Z :=
  e ← PTE (page_tables m) (Z.shiftr virt_addr 12); Ok (Z.lor (Z.ldiff e 1023) (Z.land virt_addr 4095)).

Definition set_directory (l : loader) (i table bits : Z) : res loader :=
  a ← PHYS_ADDR (kmem l) table;
  d ← deref (if bool_decide (Z.to_nat i < length (pdt l))%nat then Some (<[Z.to_nat i := Z.lor a bits]> (pdt l)) else None);
  Ok (set_pdt l d).

Definition USER_TABLE : Z := Z.lor (Z.lor PAGE_USER PAGE_WRITE) PAGE_PRESENT.

(** [allocate_stacks]. *)
Definition allocate_stacks (l : loader) : res loader :=
  let stack_start_page_id := 768 * PT_ENTRIES - PROCESS_STACK_N_PAGES in
  l ← allocate_stack PROCESS_STACK_N_PAGES stack_start_page_id PROCESS_STACK_SIZE true DEFAULT_U_POLICY l;
  let kstack_start_page_id := 768 * PT_ENTRIES - PROCESS_STACK_N_PAGES - PROCESS_SYSCALL_STACK_N_PAGES in
  l ← allocate_stack PROCESS_SYSCALL_STACK_N_PAGES kstack_start_page_id PROCESS_SYSCALL_STACK_SIZE false DEFAULT_K_POLICY l;
  for_loop (Z.to_nat ((PROCESS_N_STACKS_PAGES + PT_ENTRIES - 1) / PT_ENTRIES)) (fun i l =>
    set_directory l (767 - Z.of_nat i) (tables_addr l +u 4096 * (767 - Z.of_nat i)) USER_TABLE) l.

(** [setup_pdt]; [kernel_tables] is the address of the kernel's page tables. *)
Definition setup_pdt (kernel_tables : Z) (l : loader) : res loader :=
  let num_used_paged_tables := Z.to_nat ((num_pages l +u (PT_ENTRIES - 1)) / PT_ENTRIES) in
  l ← for_loop num_used_paged_tables (fun i l => set_directory l (Z.of_nat i) (tables_addr l +u 4096 * Z.of_nat i) USER_TABLE) l;
  l ← for_loop (768 - num_used_paged_tables) (fun i l =>
    d ← deref (if bool_decide (num_used_paged_tables + i < length (pdt l))%nat
               then Some (<[(num_used_paged_tables + i)%nat := 0]> (pdt l)) else None);
    Ok (set_pdt l d)) l;
  for_loop 256 (fun i l => set_directory l (768 + Z.of_nat i) (kernel_tables +u 4096 * (768 + Z.of_nat i)) (Z.lor PAGE_WRITE PAGE_PRESENT)) l.

(** ** Arguments *)

(** [write_to_stack]: the memory and the new top. *)
Definition write_to_stack (allocs : list alloc) (content : list Z) (st : mem * Z) : res (mem * Z) :=
  let stack_top := u32 (st.2 - Z.of_nat (length content)) in
  m ← lptr_memcpy st.1 allocs stack_top content; Ok (m, stack_top).

(** The contents of several calls, first to last. *)
Fixpoint write_all (allocs : list alloc) (contents : list (list Z)) (st : mem * Z) : res (mem * Z) :=
  match contents with [] => Ok st | c :: contents => st ← write_to_stack allocs c st; write_all allocs contents st end.

(** [argv[i]] with the zero behind it. *)
Definition c_string (s : list Z) : list Z := s ++ [0].

Definition auxv (type val : Z) : list Z := le32 type ++ le32 val.

(** The address of the program headers: the last [PT_PHDR] entry's. *)
Definition find_phdr (f : list Z) (e : ELF) : res Z :=
  for_loop (Z.to_nat (Elf.e_phnum (Elf.global_hdr e))) (fun k r =>
    h ← Elf.program f e k; Ok (if Elf.p_type h =? Elf.PT_PHDR then Elf.p_vaddr h else r)) Elf.ELF32_ADDR_ERR.

(** [write_auxv]; [f] is what the buffer of the program holds by then: it has been freed. *)
Definition write_auxv (f : list Z) (allocs : list alloc) (e : ELF) (argv0_runtime_addr random_runtime_addr : Z) (st : mem * Z) : res (mem * Z) :=
  st ← write_all allocs [auxv AT_NULL 0; auxv AT_PAGESZ PAGE_SIZE; auxv AT_SECURE 0; auxv AT_RANDOM random_runtime_addr] st;
  match Elf.interpreter_name e with
  | None => Ok st
  | Some _ =>
      phdr_runtime_addr ← find_phdr f e;
      _ ← ensure (negb (phdr_runtime_addr =? Elf.ELF32_ADDR_ERR));
      write_all allocs [auxv AT_PHDR phdr_runtime_addr; auxv AT_PHENT (Elf.e_phentsize (Elf.global_hdr e));
        auxv AT_PHNUM (Elf.e_phnum (Elf.global_hdr e)); auxv AT_EXECFN argv0_runtime_addr; auxv AT_ENTRY (Elf.e_entry (Elf.global_hdr e))] st
  end.

(** The pointers to strings that lie below [top], the last one first. *)
Fixpoint pointers (top : Z) (strings : list (list Z)) : list (list Z) :=
  match strings with
  | [] => []
  | s :: strings => let p := top -u Z.of_nat (length (c_string s)) in le32 p :: pointers p strings
  end.

Definition stack_end : Z := KERNEL_VIRTUAL_BASE - 4.

(** [write_args_to_stack]; [None] is a null pointer at the end of [argv], [random] the bytes made of the time stamp counter. *)
Definition write_args_to_stack (f : list Z) (e : ELF) (argv : list (option (list Z))) (envp : list (list Z)) (random : list Z) (l : loader)
    : res (mem * Z) :=
  let argv := match last argv with Some None => removelast argv | _ => argv end in
  args ← deref (mapM id argv);
  let allocs := allocations l in
  st ← write_all allocs (c_string <$> rev args) (kmem l, stack_end);
  let argv0_runtime_addr := st.2 in
  let last_envp_trailing_address := st.2 in
  st ← write_all allocs (c_string <$> rev envp) st;
  st ← write_to_stack allocs random st;
  st ← write_auxv f allocs e argv0_runtime_addr st.2 st;
  st ← write_to_stack allocs [0; 0; 0; 0] st;
  st ← write_all allocs (pointers last_envp_trailing_address (rev envp)) st;
  st ← write_to_stack allocs [0; 0; 0; 0] st;
  st ← write_all allocs (pointers stack_end (rev args)) st;
  write_to_stack allocs (le32 (Z.of_nat (length args))) st.

(** [setup_pcb]. *)
Definition setup_pcb (f : list Z) (argv : list (option (list Z))) (envp : list (list Z)) (random : list Z) (l : loader) : res (loader * stack_state) :=
  '(main_elf, _) ← deref (elf_dep_list l !! 0%nat);
  entry_point ← (match Elf.interpreter_name main_elf with
                 | Some _ => '(interp, addr) ← deref (elf_dep_list l !! 1%nat); Ok (Elf.e_entry (Elf.global_hdr interp) +u addr)
                 | None => Ok (Elf.e_entry (Elf.global_hdr main_elf))
                 end);
  '(m, sp) ← write_args_to_stack f main_elf argv envp random l;
  Ok (set_kmem l m, mkState 0 entry_point (Z.lor 24 3) 512 sp (Z.lor 32 3)).

(** [finalize_process_setup]. *)
Definition finalize_process_setup (kernel_tables : Z) (f : list Z) (argv : list (option (list Z))) (envp : list (list Z)) (random : list Z)
    (l : loader) : res (loader * stack_state) :=
  l ← setup_pdt kernel_tables l; l ← allocate_stacks l; setup_pcb f argv envp random l.

(** [build_process]: what the process is made of. *)
Definition build_process {S D : Type} browse_to open_read (fuel : nat) (d : D) (kernel_tables : Z) (stale : list Z)
    (argv : list (option (list Z))) (envp : list (list Z)) (random : list Z) (l : loader) (s : S) : res (option (loader * stack_state) * S) :=
  '(r, l, s) ← load_elf_file browse_to open_read fuel d Elf.Executable l s;
  match r with
  | None => Ok (None, s)
  | Some _ => p ← finalize_process_setup kernel_tables stale argv envp random l; Ok (Some p, s)
  end.

End loader.

(** ** Bytes of kernel pages *)

Definition data_ok (m : mem) : Prop := forall f, length (contents m f) = 4096%nat.
Definition kpresent (m : mem) (i : Z) : Prop := present (entry (page_tables m) i) = true.

(** The byte at address [a] of an address space. *)
Definition view (m : mem) (pt : page_table) (a : Z) : Z := nth (Z.to_nat (a mod 4096)) (contents m (frame_of (entry pt (a / 4096)))) 0.
Abbreviation kbyte m a := (view m (page_tables m) a).

Lemma frames_inj m i j : frames_ok m -> kpresent m i -> kpresent m j ->
  frame_of (entry (page_tables m) i) = frame_of (entry (page_tables m) j) -> i = j.
Proof. intros [_ Hok] Hi Hj E. destruct (proj1 (Hok i) Hi) as [_ <-]. destruct (proj1 (Hok j) Hj) as [_ <-]. by rewrite E. Qed.

Lemma kpresent_in m i : frames_ok m -> kpresent m i -> 0 <= i < N_PAGES.
Proof. intros [_ Hok] Hi. by destruct (proj1 (Hok i) Hi). Qed.

Lemma kernel_PTE m i : frames_ok m -> kpresent m i -> PTE (page_tables m) i = Ok (entry (page_tables m) i).
Proof. intros Hok Hi. apply PTE_in; [apply Hok|by apply (kpresent_in m)]. Qed.

Lemma contents_set m f d g : contents (set_frame_data m f d) g = if decide (f = g) then d else contents m g.
Proof. unfold contents. cbn. destruct (decide (f = g)) as [->|]; [by rewrite lookup_insert_eq|by rewrite lookup_insert_ne]. Qed.

Lemma frames_ok_set m f d : frames_ok m -> frames_ok (set_frame_data m f d).
Proof. intros H. apply (frames_ok_ext m); [done..| |done]. apply H. Qed.

(** What writing to pages keeps of the kernel's memory. *)
Inductive written (m : mem) : mem -> Prop :=
| written_refl : written m m
| written_set m' f d : written m m' -> written m (set_frame_data m' f d).

Lemma written_tables m m' : written m m' -> page_tables m' = page_tables m.
Proof. by induction 1. Qed.
Lemma written_frames m m' : written m m' -> frames_ok m -> frames_ok m'.
Proof. induction 1; [done|]. intros H1. by apply frames_ok_set, IHwritten. Qed.
#[global] Instance written_trans : Transitive written.
Proof. intros m1 m2 m3 H12 H23. induction H23; [done|by constructor]. Qed.

Lemma addr_split a : a = a / 4096 * 4096 + a mod 4096.
Proof. pose proof (Z.div_mod a 4096). lia. Qed.

Lemma fetch_byte_ok m a : frames_ok m -> data_ok m -> kpresent m (a / 4096) -> fetch_byte m a = Ok (kbyte m a).
Proof.
  intros Hok Hd Hp. unfold fetch_byte, read_page, ADDR_PAGE. rewrite shift_page, (kernel_PTE m _ Hok Hp). run. rewrite Hp. run.
  rewrite land_page. unfold view. rewrite nth_lookup. pose proof (Z.mod_pos_bound a 4096).
  destruct (lookup_lt_is_Some_2 (contents m (frame_of (entry (page_tables m) (a / 4096)))) (Z.to_nat (a mod 4096))) as [x ->]; [|done].
  rewrite Hd. lia.
Qed.

Lemma store_byte_ok m a v : frames_ok m -> data_ok m -> kpresent m (a / 4096) ->
  exists m', store_byte m a v = Ok m' /\ written m m' /\ data_ok m' /\
    forall b, kpresent m (b / 4096) -> kbyte m' b = if decide (b = a) then v else kbyte m b.
Proof.
  intros Hok Hd Hp. unfold store_byte, read_page, write_page, ADDR_PAGE. rewrite shift_page, (kernel_PTE m _ Hok Hp). run. rewrite Hp. run.
  rewrite land_page. pose proof (Z.mod_pos_bound a 4096). eexists. split; [done|]. split; [constructor; constructor|]. split.
  - intros f. rewrite contents_set. destruct (decide _); [rewrite length_insert|]; apply Hd.
  - intros b Hb. unfold view. cbn [set_frame_data page_tables]. rewrite contents_set. pose proof (Z.mod_pos_bound b 4096).
    pose proof (addr_split a). pose proof (addr_split b). destruct (decide (b = a)) as [->|Hne].
    + rewrite decide_True by done. rewrite nth_lookup, list_lookup_insert_eq; [done|]. rewrite Hd. lia.
    + destruct (decide (frame_of (entry (page_tables m) (a / 4096)) = frame_of (entry (page_tables m) (b / 4096)))) as [E|]; [|done].
      apply frames_inj in E; [|done..]. rewrite !nth_lookup, list_lookup_insert_ne by lia. by rewrite E.
Qed.

Lemma store_bytes_ok bs : forall m a, frames_ok m -> data_ok m -> (forall b, a <= b < a + Z.of_nat (length bs) -> kpresent m (b / 4096)) ->
  exists m', store_bytes m a bs = Ok m' /\ written m m' /\ data_ok m' /\
    forall b, kpresent m (b / 4096) -> kbyte m' b = if decide (a <= b < a + Z.of_nat (length bs)) then nth (Z.to_nat (b - a)) bs 0 else kbyte m b.
Proof.
  induction bs as [|c bs IH]; intros m a Hok Hd Hp; cbn [store_bytes].
  - exists m. split_and!; [done|constructor|done|]. intros b _. rewrite decide_False by (cbn [length]; lia). done.
  - cbn [length] in Hp. destruct (store_byte_ok m a c Hok Hd) as (m1 & -> & Hw1 & Hd1 & Hb1); [apply Hp; lia|]. run.
    pose proof (written_tables _ _ Hw1) as Ht. destruct (IH m1 (a + 1)) as (m2 & -> & Hw2 & Hd2 & Hb2).
    { by eapply written_frames. } { done. } { intros b Hb. unfold kpresent. rewrite Ht. apply Hp. lia. }
    exists m2. split_and!; [done|by etrans|done|]. intros b Hb. rewrite Hb2 by (unfold kpresent; by rewrite Ht). rewrite Hb1 by done.
    cbn [length]. destruct (decide (b = a)) as [->|].
    + rewrite decide_False, decide_True by lia. by rewrite Z.sub_diag.
    + destruct (decide (a + 1 <= b < a + 1 + Z.of_nat (length bs))).
      * rewrite decide_True by lia. replace (Z.to_nat (b - a)) with (S (Z.to_nat (b - (a + 1)))) by lia. done.
      * rewrite decide_False by lia. done.
Qed.

(** ** What the loader relies on: [mmap] takes new pages *)

(** Frames [F] to [F + r - 1] are free and come first. *)
Definition fresh (m : mem) (F r : Z) : Prop :=
  0 <= lowest_free_frame m <= F /\ F + r < N_PAGES /\ (forall k, lowest_free_frame m <= k < F -> page_of_frame m k <> UINT_MAX) /\
  forall k, F <= k < F + r -> page_of_frame m k = UINT_MAX /\ PageAlloc.rc m k = 0.

Lemma FRAME_USED_in m k : 0 <= k < N_PAGES -> FRAME_USED m k = Ok (negb (page_of_frame m k =? UINT_MAX)).
Proof. intros Hk. unfold FRAME_USED. by rewrite frame_index_in. Qed.

Lemma get_free_frame_fresh m F r : fresh m F r -> 0 < r -> get_free_frame m = Ok (set_lowest_free_frame m F, F).
Proof.
  intros (Hl & Hr & Hused & Hfree) H0. unfold get_free_frame.
  destruct (skip_used_spec (frame_to_page m) (FRAME_USED m) (S (size (frame_to_page m))) (lowest_free_frame m) N_PAGES) as (j & -> & Hj & Hall & Hend).
  - intros k Hk. rewrite FRAME_USED_in by lia. eexists. split; [done|]. intros Hu. unfold page_of_frame in Hu. destruct (frame_to_page m !! k); [done|]. done.
  - pose proof (above_size (frame_to_page m) (lowest_free_frame m)). lia.
  - assert (j = F) as ->; [|done]. destruct (Z.lt_trichotomy j F) as [Hlt|[->|Hgt]]; [|done|].
    + destruct Hend as [[? ?]|[Hjl Hu]]; [lia|]. rewrite FRAME_USED_in in Hu by lia. injection Hu as Hu. apply negb_false_iff, Z.eqb_eq in Hu. exfalso. apply (Hused j); [lia|done].
    + destruct (Hall F ltac:(lia)) as [_ Hu]. rewrite FRAME_USED_in in Hu by lia. destruct (Hfree F ltac:(lia)) as [E _]. rewrite E in Hu. done.
Qed.

Lemma allocate_page_fresh m i pol F r : fresh m F r -> 0 < r -> full (page_tables m) -> 0 <= i < N_PAGES -> present pol = true ->
  exists m', allocate_page m i pol = Ok m' /\ fresh m' (F + 1) (r - 1) /\
    page_tables m' = mkPT (<[i := Z.lor (FRAME_ID_ADDR F) pol]> (entries (page_tables m))) (tables (page_tables m)) /\
    lowest_free_pe m' = lowest_free_pe m /\ frame_data m' = frame_data m.
Proof.
  intros Hfr Hr Hfull Hi Hpol. unfold allocate_page. rewrite (get_free_frame_fresh m F r Hfr Hr). run. unfold allocate_page_frame.
  cbn [page_tables set_lowest_free_frame]. rewrite (set_PTE_in _ _ _ Hfull Hi). run. unfold present in Hpol. rewrite Hpol. unfold MARK_FRAME_USED.
  destruct Hfr as (Hl & Hn & Hused & Hfree). rewrite frame_index_in by lia. run. destruct (Hfree F ltac:(lia)) as [HpF HrF].
  change (PageAlloc.rc (set_frame_to_page (set_page_tables (set_lowest_free_frame m F) _) F i) F) with (PageAlloc.rc m F). rewrite HrF. cbn [truthy negb Z.eqb].
  eexists. split; [done|]. split; [|done]. unfold fresh. cbn [lowest_free_frame set_frame_rc set_frame_to_page set_page_tables set_lowest_free_frame].
  split; [lia|]. split; [lia|]. split.
  - intros k Hk. assert (k = F) as -> by lia. unfold page_of_frame. cbn. rewrite lookup_insert_eq. cbn. unfold UINT_MAX, N_PAGES, PDT_ENTRIES, PT_ENTRIES in *. lia.
  - intros k Hk. destruct (Hfree k ltac:(lia)) as [E1 E2]. unfold page_of_frame, PageAlloc.rc in *. cbn. rewrite !lookup_insert_ne by lia. done.
Qed.

Lemma allocate_pages_fresh n pol : present pol = true -> forall m i F r, fresh m F r -> Z.of_nat n <= r -> full (page_tables m) ->
  0 <= i -> i + Z.of_nat n <= N_PAGES ->
  exists m', allocate_pages n m i pol = Ok m' /\ fresh m' (F + Z.of_nat n) (r - Z.of_nat n) /\ full (page_tables m') /\
    lowest_free_pe m' = lowest_free_pe m /\ frame_data m' = frame_data m /\
    (forall k, ~ i <= k < i + Z.of_nat n -> entry (page_tables m') k = entry (page_tables m) k) /\
    (forall k, i <= k < i + Z.of_nat n -> exists g, entry (page_tables m') k = Z.lor (FRAME_ID_ADDR g) pol).
Proof.
  intros Hpol. induction n as [|n IH]; intros m i F r Hfr Hn Hfull Hi Hin; cbn [allocate_pages].
  { exists m. change (Z.of_nat 0) with 0. rewrite Z.add_0_r, Z.sub_0_r. split_and!; try done. lia. }
  destruct (allocate_page_fresh m i pol F r Hfr) as (m1 & -> & Hfr1 & Hpt & Hlow & Hfd); [lia|done|lia|done|]. run.
  destruct (IH m1 (i + 1) (F + 1) (r - 1) Hfr1) as (m2 & -> & Hfr2 & Hfull2 & Hlow2 & Hfd2 & Hold & Hnew); [lia|by rewrite Hpt|lia|lia|].
  exists m2. split; [done|]. split; [by replace (F + Z.of_nat (S n)) with (F + 1 + Z.of_nat n) by lia; replace (r - Z.of_nat (S n)) with (r - 1 - Z.of_nat n) by lia|].
  split; [done|]. split; [congruence|]. split; [congruence|].
  assert (forall k, entry (page_tables m1) k = if decide (i = k) then Z.lor (FRAME_ID_ADDR F) pol else entry (page_tables m) k) as He1 by (intros k; rewrite Hpt; apply entry_set).
  split; intros k Hk.
  - rewrite Hold, He1 by lia. by rewrite decide_False by lia.
  - destruct (decide (k = i)) as [->|]; [rewrite Hold, He1, decide_True by lia; by exists F|]. apply Hnew. lia.
Qed.

(** The policy of the pages that [mmap] asks [sbrk] for. *)
Definition map_policy (user : bool) : Z := Z.lor (Z.lor PAGE_WRITE PAGE_PRESENT) (if user then PAGE_USER else 0).

Definition sbrk_room (m : mem) (r : Z) : Prop :=
  frames_ok m /\ 0 <= r /\ (exists F, fresh m F r) /\ 0 < lowest_free_pe m /\ lowest_free_pe m + r < N_PAGES /\
  forall k, lowest_free_pe m <= k <= lowest_free_pe m + r -> ~ is_used (page_tables m) k.

Lemma map_policy_ok user : present (map_policy user) = true /\ lazy_zero (map_policy user) = false /\ Z.ldiff (map_policy user) supported_policy = 0 /\
  policy_valid (map_policy user) = true /\ Z.testbit (map_policy user) 1 = true.
Proof. by destruct user. Qed.

(** The first free pages are where the search begins. *)
Lemma contiguous_here pt n lo hi : full pt -> 0 < n -> 0 <= lo -> lo + n < N_PAGES -> (forall k, lo <= k <= lo + n -> ~ is_used pt k) ->
  is_mandatory hi = false -> ADDR_PAGE (hint hi) <= lo -> get_contiguous_pages n hi pt lo = Ok lo.
Proof.
  intros Hf Hn Hlo Hfit Hfree Hm Hh. unfold get_contiguous_pages. rewrite Hm.
  replace (Z.max lo (ADDR_PAGE (hint hi))) with lo by lia.
  assert (lo +u n = lo + n) as Hu by (apply u32_id; unfold is_u32, N_PAGES, PDT_ENTRIES, PT_ENTRIES in *; lia).
  cbn [contiguous_loop]. rewrite Hu. rewrite (proj2 (Z.ltb_ge _ _)) by lia.
  replace (lo + n) with (lo + Z.of_nat (Z.to_nat n)) by lia.
  destruct (run_free_spec pt (Z.to_nat n) lo Hf Hlo ltac:(lia)) as [(pte & -> & Hp & _ & Hx)|(_ & ? & _)]; [|lia]. run.
  destruct (Z.eqb_spec pte (lo + Z.of_nat (Z.to_nat n))); [done|]. exfalso. apply (Hfree pte); [lia|]. apply Hx. lia.
Qed.

(** The entry behind a run of used ones, with fuel for the run. *)
Lemma skip_run used P n : 0 <= n -> P + n < 4294967296 -> (forall k, P <= k < P + n -> used k = Ok true) -> used (P + n) = Ok false ->
  forall fuel, (Z.to_nat n <= fuel)%nat -> skip_used used fuel P 4294967296 = Ok (P + n).
Proof.
  intros Hn Hlim Hused Hstop fuel Hf. assert (forall fuel i, P <= i <= P + n -> (Z.to_nat (P + n - i) <= fuel)%nat -> skip_used used fuel i 4294967296 = Ok (P + n)) as Hskip.
  { clear Hf fuel. induction fuel as [|fuel IH]; intros i Hi Hfu; cbn [skip_used]; rewrite (proj2 (Z.leb_gt _ _)) by lia.
    - replace i with (P + n) by lia. rewrite Hstop. done.
    - destruct (decide (i = P + n)) as [->|]; [by rewrite Hstop|]. rewrite Hused by lia. run. cbn [negb]. apply IH; lia. }
  apply Hskip; lia.
Qed.

(** [n] used entries take up room in the table. *)
Lemma used_size pt P n : 0 <= n -> (forall k, P <= k < P + n -> is_used pt k) -> (Z.to_nat n <= size (entries pt))%nat.
Proof.
  intros Hn Hu. assert (list_to_set (C := gset Z) (seqZ P n) ⊆ dom (entries pt)) as Hsub.
  { intros k Hk. apply elem_of_list_to_set, elem_of_seqZ in Hk. apply elem_of_dom. by apply used_listed, Hu. }
  apply subseteq_size in Hsub. rewrite size_list_to_set, length_seqZ, size_dom in Hsub by apply NoDup_seqZ. lia.
Qed.

Lemma sbrk_fresh m r n user fl hi : sbrk_room m r -> 0 < n <= r -> is_mandatory hi = false -> ADDR_PAGE (hint hi) <= lowest_free_pe m -> let P := lowest_free_pe m in
  exists m1, PageAlloc.sbrk m kernel_process n (mkInfo fl (map_policy user)) hi = Ok (set_lowest_free_pe m1 (P + n), kernel_process, P * 4096) /\
    (exists F, fresh m1 F (r - n)) /\ frame_data m1 = frame_data m /\
    (forall k, ~ P <= k < P + n -> entry (page_tables m1) k = entry (page_tables m) k) /\
    (forall k, P <= k < P + n -> exists g, entry (page_tables m1) k = Z.lor (FRAME_ID_ADDR g) (map_policy user)).
Proof.
  intros (Hok & Hr & [F Hfr] & Hp & Hn & Hfree) H0 Hmand Hhint P. fold P in Hp, Hn, Hfree, Hhint. destruct (map_policy_ok user) as (Hpr & Hlz & Hsup & Hval & Hw).
  pose proof Hok as [[Hfull Hlow] _].
  destruct (allocate_pages_fresh (Z.to_nat n) (map_policy user) Hpr m P F r Hfr) as (m1 & Ha & Hfr1 & Hfull1 & Hlow1 & Hfd1 & Hold & Hnew); [lia|done|lia|lia|].
  rewrite Z2Nat.id in * by lia. exists m1. split; [|split; [by eexists|done]].
  assert (forall k, P <= k < P + n -> is_used (page_tables m1) k) as Hused.
  { intros k Hk. unfold is_used. destruct (Hnew k Hk) as [g ->]. apply used_entry_or, policy_valid_used, Hval. }
  unfold PageAlloc.sbrk, tables_of, lowest_of, with_lowest. cbn [is_kernel kernel_process policy]. fold P. destruct Hfr as (Hl & Hn' & _).
  rewrite (proj2 (Z.eqb_neq _ _)) by (unfold N_PAGES in Hn'; lia). rewrite (contiguous_here (page_tables m) n P hi Hfull) by (try done; try lia; intros k Hk; apply Hfree; lia). run.
  rewrite (proj2 (Z.eqb_neq P UINT_MAX)) by (unfold UINT_MAX, N_PAGES, PDT_ENTRIES, PT_ENTRIES in *; lia). rewrite Hsup. cbn [Z.eqb]. run.
  rewrite Hpr, Hlz. cbn [andb negb]. run. rewrite (u32_id (P + n)) by (unfold is_u32, N_PAGES, PDT_ENTRIES, PT_ENTRIES in *; lia).
  replace (P + n - P) with n by lia. rewrite Ha. run. cbn [is_kernel kernel_process]. rewrite Hlow1. fold P.
  rewrite (skip_run _ P n); [run; rewrite shiftl_page, u32_id by (unfold is_u32, N_PAGES, PDT_ENTRIES, PT_ENTRIES in *; lia); done|lia|unfold N_PAGES, PDT_ENTRIES, PT_ENTRIES in *; lia| | |].
  - intros k Hk. unfold PTE_USED. rewrite (PTE_in _ _ Hfull1) by lia. cbn. f_equal. by apply Hused.
  - unfold PTE_USED. rewrite (PTE_in _ _ Hfull1) by lia. rewrite Hold by lia. cbn. f_equal. apply not_true_iff_false. apply Hfree. lia.
  - pose proof (used_size (page_tables m1) P n ltac:(lia) Hused). lia.
Qed.

(** The constants are bits: the flags and protections that the loader passes have the ones they are made of, and not [MAP_FIXED]. *)
Record vm_ok (o : vm_options) : Prop := {
  vm_private : MAP_PRIVATE o <> 0; vm_anon : MAP_ANON o <> 0; vm_anonymous : MAP_ANONYMOUS o <> 0; vm_write : PROT_WRITE o <> 0;
  vm_fixed : Z.land (MAP_ANON o) (MAP_FIXED o) = 0 /\ Z.land (MAP_ANONYMOUS o) (MAP_FIXED o) = 0 /\ Z.land (MAP_PRIVATE o) (MAP_FIXED o) = 0
}.

(** The heap tree has no block that [mmap] would reuse: its blocks lie below the first free page, and the free ones have less than
    two pages (what is left of a block when less than its two pages were asked for). *)
Definition block_ok (lo : Z) (d : allocation) : Prop := end_ d <= lo * 4096 /\ (used d = false -> end_ d - start d < 8192).
Definition tree_ok (t : atree) (lo : Z) : Prop := wf t /\ Forall (block_ok lo) (inorder t).

(** [room t m r]: [r] more pages can be mapped. *)
Definition room (t : atree) (m : mem) (r : Z) : Prop := sbrk_room m r /\ tree_ok t (lowest_free_pe m).

(** What [mmap] takes for [n] pages: [node_physical_alloc] never asks for less than two. *)
Definition cost (n : Z) : Z := Z.max 2 n.

Lemma no_block_found t lo size hi : Forall alloc_ok (inorder t) -> Forall (block_ok lo) (inorder t) -> is_mandatory hi = false ->
  8192 <= size \/ hint hi = lo * 4096 -> find_free_block t size hi = None.
Proof.
  intros Ha Ht Hm Hor. induction t as [|l IHl d r IHr]; [done|]. cbn [inorder find_free_block] in *.
  apply Forall_app in Ha as [Hal [Hok Har]%Forall_cons]. apply Forall_app in Ht as [Hl [[Hend Hfree] Hr]%Forall_cons].
  rewrite (IHr Har Hr), (IHl Hal Hl), Hm. cbn [negb]. rewrite andb_true_r.
  assert (negb (used d) && (size <=? node_size d) && ((hint hi =? start d) || (hint hi <? start d)) = false) as ->; [|by destruct (_ <? _)].
  destruct (used d); [done|]. cbn [negb andb]. destruct Hor as [H8| ->].
  - rewrite (proj2 (Z.leb_gt _ _)); [done|]. rewrite node_size_eq by done. specialize (Hfree eq_refl). lia.
  - unfold alloc_ok in Hok. rewrite (proj2 (Z.eqb_neq (lo * 4096) _)), (proj2 (Z.ltb_ge (lo * 4096) _)) by lia. apply andb_false_r.
Qed.

(** [allocate] then takes a new block of at least two pages from [sbrk], and gives back what is left of it. *)
Lemma allocate_new t m r n user fl hi : room t m r -> 0 < n -> cost n <= r -> is_mandatory hi = false -> 2 <= n \/ hint hi = lowest_free_pe m * 4096 ->
  ADDR_PAGE (hint hi) <= lowest_free_pe m -> let P := lowest_free_pe m in
  exists t' m1, allocate (mkTree t m) (n * 4096) (mkInfo fl (map_policy user)) hi = Ok (mkTree t' (set_lowest_free_pe m1 (P + cost n)), P * 4096) /\ tree_ok t' (P + cost n) /\
    PageAlloc.sbrk m kernel_process (cost n) (mkInfo fl (map_policy user)) hi = Ok (set_lowest_free_pe m1 (P + cost n), kernel_process, P * 4096).
Proof.
  intros [Hroom [Hwf Hblk]] Hn Hc Hm Hor Hh P. destruct (sbrk_fresh m r (cost n) user fl hi Hroom ltac:(unfold cost in *; lia) Hm Hh) as (m1 & Hs & _). fold P in Hs.
  destruct Hroom as (_ & _ & _ & HP & Hfit & _). fold P in HP, Hfit. unfold N_PAGES, PDT_ENTRIES, PT_ENTRIES in Hfit.
  set (x := mkAlloc (P * 4096) ((P + cost n) * 4096) (mkInfo fl (map_policy user)) false).
  assert (alloc_ok x) as Hx by (unfold alloc_ok, x; cbn [MemTree.start MemTree.end_]; unfold cost in *; lia).
  destruct (add_disjoint t x Hwf Hx) as (A & B & Hi & Hadd & Hch). { intros d Hd. rewrite Forall_forall in Hblk. left. by apply Hblk. }
  destruct (take_block_spec (add_node compare_func t x) (add_path t x) Leaf x Leaf (n * 4096) (mkInfo fl (map_policy user)) A B) as (d1 & rest & Ht & Hc1 & _ & H1 & H2 & H3 & H4 & H5);
    [unfold wf; by rewrite Hadd|apply add_path_subtree|done|rewrite node_size_eq by done; unfold x; unfold cost in *; cbn [MemTree.start MemTree.end_]; lia|].
  exists (take_block (add_node compare_func t x) (add_path t x) x (n * 4096) (mkInfo fl (map_policy user))), m1. split_and!; [| |done].
  - unfold allocate. cbn [MemTree.policy]. destruct (map_policy_ok user) as (_ & _ & _ & -> & _). run. cbn [root]. rewrite (no_block_found t P (n * 4096) hi (proj1 Hwf) Hblk Hm) by (destruct Hor; [left; lia|by right]).
    unfold node_physical_alloc. replace (Z.max 2 (ADDR_PAGE (u32 (n * 4096 + PAGE_SIZE - 1)))) with (cost n).
    2: { unfold cost, ADDR_PAGE, PAGE_SIZE in *. rewrite shift_page, u32_id by (unfold is_u32; lia). replace (n * 4096 + 4096 - 1) with (4095 + n * 4096) by lia. rewrite Z.div_add by lia. change (4095 / 4096) with 0. lia. }
    unfold MemTree.sbrk, kernel_pages. cbn [pages root]. rewrite Hs. run. rewrite (proj2 (Z.eqb_neq (P * 4096) 0)) by lia. unfold PAGE_SIZE.
    rewrite (u32_id (cost n * 4096)), (u32_id (P * 4096 + cost n * 4096)) by (unfold is_u32, cost in *; lia). replace (P * 4096 + cost n * 4096) with ((P + cost n) * 4096) by lia. fold x. run.
    unfold node_at. cbn [root pages]. rewrite add_path_subtree. run. done.
  - split; [unfold wf; by rewrite Ht|]. rewrite Ht. rewrite Hi in Hblk. apply Forall_app in Hblk as [HA HB].
    assert (forall l, Forall (block_ok P) l -> Forall (block_ok (P + cost n)) l) as Hmono by (intros l Hl; eapply Forall_impl; [exact Hl|]; intros y [? ?]; split; [unfold cost; lia|done]).
    apply Forall_app. split; [by apply Hmono|]. constructor; [|apply Forall_app; split; [|by apply Hmono]].
    + split; [rewrite H2; unfold x, cost; cbn [MemTree.start MemTree.end_]; lia|congruence].
    + apply Forall_forall. intros y Hy. rewrite Forall_forall in H5. destruct (H5 y Hy) as [? Hy2]. unfold x in *. unfold cost in *. cbn [MemTree.start MemTree.end_] in *. split; [lia|]. intros _. lia.
Qed.

(** The first free pages, as [sbrk] maps them. *)
Lemma sbrk_takes m r n user fl hi m' : sbrk_room m r -> 0 < n <= r -> is_mandatory hi = false -> is_u32 (hint hi) -> ADDR_PAGE (hint hi) <= lowest_free_pe m -> let P := lowest_free_pe m in
  PageAlloc.sbrk m kernel_process n (mkInfo fl (map_policy user)) hi = Ok (m', kernel_process, P * 4096) ->
  sbrk_room m' (r - n) /\ lowest_free_pe m' = P + n /\ frame_data m' = frame_data m /\
  (forall i, P <= i < P + n -> present (entry (page_tables m) i) = false /\ kpresent m' i /\ Z.testbit (entry (page_tables m') i) 1 = true) /\
  (forall i, kpresent m i -> entry (page_tables m') i = entry (page_tables m) i).
Proof.
  intros Hroom H0 Hmand Hu Hh P Hsb. destruct (map_policy_ok user) as (Hpr & _ & _ & Hval & Hw).
  destruct (sbrk_fresh m r n user fl hi Hroom H0 Hmand Hh) as (m1 & Hs & Hfr & Hfd & Hold & Hnew). fold P in Hs, Hold, Hnew. rewrite Hsb in Hs. injection Hs as ->.
  destruct Hroom as (Hok & Hr & _ & Hp & Hn & Hfree). fold P in Hp, Hn, Hfree.
  assert (frames_ok (set_lowest_free_pe m1 (P + n))) as Hok' by (apply (kernel_sbrk_frames_ok m n (mkInfo fl (map_policy user)) hi _ kernel_process (P * 4096)); done || lia).
  assert (forall i, P <= i < P + n -> present (entry (page_tables m) i) = false) as Habs.
  { intros i Hi. apply not_true_iff_false. intros Hx. apply (Hfree i); [lia|]. unfold is_used. destruct Hok as [_ Hent]. destruct (proj2 (Hent i)) as [E|E]; [rewrite E in Hx; done|done]. }
  split; [|split; [done|split; [done|split]]].
  + split; [done|]. split; [lia|]. split; [exact Hfr|]. cbn [lowest_free_pe set_lowest_free_pe page_tables]. split; [lia|]. split; [lia|].
    intros k Hk. unfold is_used. rewrite Hold by lia. apply Hfree. lia.
  + intros i Hi. cbn [page_tables set_lowest_free_pe]. destruct (Hnew i Hi) as [g Hg]. unfold kpresent. cbn [page_tables set_lowest_free_pe]. rewrite Hg. split; [by apply Habs|]. split.
    * rewrite low_bit. done.
    * rewrite Z.lor_spec, Hw. apply orb_true_r.
  + intros i Hi. cbn [page_tables set_lowest_free_pe]. apply Hold. intros Hin. unfold kpresent in Hi. rewrite Habs in Hi by done. done.
Qed.

(** The flags of the two kinds of calls. *)
Definition flags_of (o : vm_options) (fl : Z) : Prop := fl = Z.lor (MAP_ANON o) (MAP_PRIVATE o) \/ fl = Z.lor (MAP_ANONYMOUS o) (MAP_PRIVATE o).

Lemma truthy_lor a b : truthy (Z.lor a b) = truthy a || truthy b.
Proof. unfold truthy. rewrite <- negb_andb. f_equal. apply eq_true_iff_eq. rewrite andb_true_iff, !Z.eqb_eq. apply Z.lor_eq_0_iff. Qed.
Lemma truthy_part a b : b <> 0 -> truthy (Z.land (Z.lor a b) b) = true.
Proof. intros Hb. replace (Z.land (Z.lor a b) b) with b by (apply Z.bits_inj'; intros k _; rewrite Z.land_spec, Z.lor_spec; by destruct (Z.testbit a k), (Z.testbit b k)). by apply negb_true_iff, Z.eqb_neq. Qed.

Lemma flags_accepted o fl : vm_ok o -> flags_of o fl ->
  truthy (Z.ldiff fl (Z.lor (Z.lor (Z.lor (MAP_ANON o) (MAP_ANONYMOUS o)) (MAP_PRIVATE o)) (MAP_FIXED o))) = false /\
  truthy (Z.lor (Z.land fl (MAP_PRIVATE o)) (Z.land fl (MAP_SHARED o))) = true /\
  truthy (Z.lor (Z.land fl (MAP_ANONYMOUS o)) (Z.land fl (MAP_ANON o))) = true /\ truthy (Z.land fl (MAP_FIXED o)) = false.
Proof.
  intros [Hp Ha Hay _ (F1 & F2 & F3)] Hfl. rewrite !truthy_lor. unfold flags_of in Hfl. split_and!.
  - apply negb_false_iff, Z.eqb_eq, Z.bits_inj'. intros k Hk. rewrite Z.ldiff_spec, !Z.lor_spec, Z.bits_0. destruct Hfl as [-> | ->]; rewrite Z.lor_spec; by repeat destruct (Z.testbit _ k).
  - apply orb_true_iff. left. destruct Hfl as [-> | ->]; by apply truthy_part.
  - apply orb_true_iff. destruct Hfl as [-> | ->]; [right|left]; rewrite Z.lor_comm; by apply truthy_part.
  - apply negb_false_iff, Z.eqb_eq. destruct Hfl as [-> | ->]; rewrite Z.land_lor_distr_l, F3; [rewrite F1|rewrite F2]; done.
Qed.

(** [mmap] as the loader calls it: pages that were not mapped before, with frames of their own, the entries of the mapped pages unchanged. *)
Lemma kmmap_ok o t m r n hint_ fl user : vm_ok o -> room t m r -> 0 < n -> cost n <= r ->
  hint_ = KERNEL_VIRTUAL_BASE \/ (hint_ = 0 /\ 2 <= n) -> flags_of o fl -> exists t' m' b,
  kmmap o t m hint_ (n * 4096) fl user = Ok (t', m', b * 4096) /\ 0 < b /\ b + n <= N_PAGES /\ room t' m' (r - cost n) /\ frame_data m' = frame_data m /\
  (forall i, b <= i < b + n -> present (entry (page_tables m) i) = false /\ kpresent m' i /\ Z.testbit (entry (page_tables m') i) 1 = true) /\
  (forall i, kpresent m i -> entry (page_tables m') i = entry (page_tables m) i).
Proof.
  intros Ho Hroom Hn Hc Hhint Hfl. pose proof Hroom as [Hsr _]. pose proof Hsr as (_ & _ & _ & HP & Hfit & _). set (P := lowest_free_pe m) in *.
  unfold N_PAGES, PDT_ENTRIES, PT_ENTRIES in Hfit. destruct (flags_accepted o fl Ho Hfl) as (G1 & G2 & G3 & G4).
  set (hi := mkHint (if hint_ =? KERNEL_VIRTUAL_BASE then P * 4096 else hint_) false).
  assert (is_u32 (hint hi) /\ ADDR_PAGE (hint hi) <= P /\ (2 <= n \/ hint hi = P * 4096)) as (Hu & Hh & Hor).
  { unfold hi, cost in *. cbn [MemTree.hint]. destruct Hhint as [-> |[-> ?]]; [rewrite Z.eqb_refl|change (0 =? KERNEL_VIRTUAL_BASE) with false; cbv iota].
    - unfold ADDR_PAGE. rewrite shift_page, Z.div_mul by lia. unfold is_u32. lia.
    - change (ADDR_PAGE 0) with 0. unfold is_u32. lia. }
  destruct (allocate_new t m r n user fl hi Hroom Hn Hc eq_refl Hor Hh) as (t' & m1 & Ha & Ht' & Hs). fold P in Ha, Ht', Hs.
  destruct (sbrk_takes m r (cost n) user fl hi _ Hsr ltac:(unfold cost in *; lia) eq_refl Hu Hh Hs) as (Hroom' & Hlow & Hfd & Hnew & Hold). fold P in Hnew.
  exists t', (set_lowest_free_pe m1 (P + cost n)), P.
  split; [|split; [lia|split; [unfold cost, N_PAGES, PDT_ENTRIES, PT_ENTRIES in *; lia|split; [exact (conj Hroom' Ht')|split; [done|split; [intros i Hi; apply Hnew; unfold cost; lia|done]]]]]].
  unfold kmmap, KernelHeap.mmap, PAGE_SIZE. rewrite G1, G2, G3. change (4096 - 1) with (Z.ones 12). rewrite !Z.land_ones by lia. change (2 ^ 12) with 4096.
  rewrite Z.mod_mul by lia. replace (hint_ mod 4096) with 0 by (destruct Hhint as [-> |[-> _]]; done). change (truthy (0 mod 4096)) with false. change (truthy 0) with false. cbn [negb orb].
  assert (truthy (Z.land (DEFAULT_U_PROT o) (PROT_WRITE o)) = true) as Hpw by (apply truthy_part, Ho).
  rewrite (proj2 (Z.eqb_neq (DEFAULT_U_PROT o) 0)) by (intros E; rewrite E in Hpw; done). rewrite Hpw, G4. cbn [pages]. fold P.
  replace (u32 (Z.shiftl P 12)) with (P * 4096) by (rewrite shiftl_page, u32_id by (unfold is_u32, cost in *; lia); done).
  fold hi. change (Z.lor (Z.lor PAGE_WRITE PAGE_PRESENT) (if user then PAGE_USER else 0)) with (map_policy user). rewrite Ha. run.
  cbn [andb]. rewrite (proj2 (Z.eqb_neq (P * 4096) 0)) by lia. run. done.
Qed.

Lemma room_frames t m r : room t m r -> frames_ok m /\ 0 <= r.
Proof. intros [(Hok & Hr & _) _]. done. Qed.

Lemma room_set t m r f d : room t m r -> room t (set_frame_data m f d) r.
Proof. intros [(Hok & Hr & [F Hfr] & Hp & Hn & Hfree) Ht]. split; [|done]. split; [by apply frames_ok_set|]. split; [done|]. split; [by exists F|]. done. Qed.

Lemma written_room t m m' r : written m m' -> room t m r -> room t m' r.
Proof. induction 1; [done|]. intros Hr. by apply room_set, IHwritten. Qed.

(** ** Entries of the process's tables *)

Definition U_PAGES : Z := 786432.

Lemma PTE_user pt i : tables pt = 768 -> 0 <= i < U_PAGES -> PTE pt i = Ok (entry pt i) /\
  forall v, set_PTE pt i v = Ok (mkPT (<[i := v]> (entries pt)) 768).
Proof.
  unfold PTE, set_PTE, U_PAGES. intros Ht Hi. rewrite Ht, Z.shiftr_div_pow2 by lia. change (2 ^ 10) with 1024.
  assert (i / 1024 < 768) by (apply Z.div_lt_upper_bound; lia). rewrite (proj2 (Z.leb_le 0 i)), (proj2 (Z.ltb_lt _ _)) by lia. done.
Qed.

(** The frame and the presence of an entry do not depend on the user and write bits. *)
Lemma frame_of_bits e e' : (forall n, 10 <= n -> Z.testbit e n = Z.testbit e' n) -> frame_of e = frame_of e'.
Proof.
  intros H. unfold frame_of. apply Z.bits_inj'. intros n Hn. rewrite !Z.shiftr_spec, !Z.ldiff_spec by lia. rewrite H by lia. done.
Qed.
Lemma user_high e n : 10 <= n -> Z.testbit (Z.lor e PAGE_USER) n = Z.testbit e n.
Proof. intros Hn. rewrite Z.lor_spec. unfold PAGE_USER. change 4 with (2 ^ 2). rewrite Z.pow2_bits_false by lia. by rewrite orb_false_r. Qed.
Lemma protect_bit e n : 0 <= n -> n <> 1 -> Z.testbit (Z.ldiff e PAGE_WRITE) n = Z.testbit e n.
Proof. intros Hn Hne. rewrite Z.ldiff_spec. unfold PAGE_WRITE. change 2 with (2 ^ 1). rewrite Z.pow2_bits_false by lia. by rewrite andb_true_r. Qed.
Lemma frame_of_user e : frame_of (Z.lor e PAGE_USER) = frame_of e.
Proof. apply frame_of_bits. apply user_high. Qed.
Lemma frame_of_protect e : frame_of (Z.ldiff e PAGE_WRITE) = frame_of e.
Proof. apply frame_of_bits. intros n Hn. apply protect_bit; lia. Qed.
Lemma present_user e u : present e = true -> present (Z.lor e u) = true.
Proof. rewrite !present_bit, Z.lor_spec. by intros ->. Qed.
Lemma present_protect e : present (Z.ldiff e PAGE_WRITE) = present e.
Proof. rewrite !present_bit. by apply protect_bit. Qed.

Section correct.
Context (o : vm_options) (Hvm : vm_ok o).

(** Pages [page] to [page + n - 1] of the process become those of the kernel from [kpage] on. *)
Lemma map_pages_ok n page kpage user l : frames_ok (kmem l) -> tables (ptables l) = 768 -> 0 <= page -> page + Z.of_nat n <= U_PAGES ->
  (forall i, 0 <= i < Z.of_nat n -> entry (ptables l) (page + i) = 0 /\ kpresent (kmem l) (kpage + i)) ->
  exists pt, map_pages n page kpage user l = Ok (set_ptables l pt) /\ tables pt = 768 /\
    forall i, entry pt i = if decide (page <= i < page + Z.of_nat n) then Z.lor (entry (page_tables (kmem l)) (kpage + (i - page))) user
                           else entry (ptables l) i.
Proof.
  intros Hok Ht Hp Hfit Hfree. unfold map_pages.
  destruct (for_loop_inv (fun k l' => exists pt, l' = set_ptables l pt /\ tables pt = 768 /\
    forall i, entry pt i = if decide (page <= i < page + Z.of_nat k) then Z.lor (entry (page_tables (kmem l)) (kpage + (i - page))) user
                           else entry (ptables l) i) n
    (fun i l => e ← PTE (ptables l) (page + Z.of_nat i); _ ← ensure (e =? 0); k ← PTE (page_tables (kmem l)) (kpage + Z.of_nat i);
      pt ← set_PTE (ptables l) (page + Z.of_nat i) (Z.lor k user); Ok (set_ptables l pt)) l) as (l' & -> & pt & -> & Htp & He).
  - exists (ptables l). split; [by destruct l|]. split; [done|]. intros i. rewrite decide_False by lia. done.
  - intros k l' Hk (pt & -> & Htp & He). destruct (Hfree (Z.of_nat k) ltac:(lia)) as [Hz Hkp]. cbn [ptables kmem set_ptables].
    destruct (PTE_user pt (page + Z.of_nat k) Htp ltac:(lia)) as [-> Hset]. run. rewrite He, decide_False, Hz by lia. run.
    rewrite (kernel_PTE _ _ Hok Hkp). run. rewrite Hset. run. eexists. split; [done|]. eexists. split; [done|]. split; [done|].
    intros i. rewrite entry_insert. change (entry (mkPT (entries pt) 768) i) with (entry pt i).
    destruct (decide (page + Z.of_nat k = i)) as [<-|Hne]; [rewrite decide_True by lia; do 3 f_equal; lia|].
    rewrite He. destruct (decide (page <= i < page + Z.of_nat k)); [by rewrite decide_True by lia|by rewrite decide_False by lia].
  - eauto.
Qed.

Lemma protect_pages_ok n page l : tables (ptables l) = 768 -> 0 <= page -> page + Z.of_nat n <= U_PAGES ->
  exists pt, protect_pages n page l = Ok (set_ptables l pt) /\ tables pt = 768 /\
    forall i, entry pt i = if decide (page <= i < page + Z.of_nat n) then Z.ldiff (entry (ptables l) i) PAGE_WRITE else entry (ptables l) i.
Proof.
  intros Ht Hp Hfit. unfold protect_pages.
  destruct (for_loop_inv (fun k l' => exists pt, l' = set_ptables l pt /\ tables pt = 768 /\
    forall i, entry pt i = if decide (page <= i < page + Z.of_nat k) then Z.ldiff (entry (ptables l) i) PAGE_WRITE else entry (ptables l) i) n
    (fun i l => e ← PTE (ptables l) (page + Z.of_nat i); pt ← set_PTE (ptables l) (page + Z.of_nat i) (Z.ldiff e PAGE_WRITE);
      Ok (set_ptables l pt)) l) as (l' & -> & pt & -> & Htp & He).
  - exists (ptables l). split; [by destruct l|]. split; [done|]. intros i. rewrite decide_False by lia. done.
  - intros k l' Hk (pt & -> & Htp & He). cbn [ptables kmem set_ptables].
    destruct (PTE_user pt (page + Z.of_nat k) Htp ltac:(lia)) as [-> Hset]. run. rewrite He, decide_False by lia. rewrite Hset. run.
    eexists. split; [done|]. eexists. split; [done|]. split; [done|].
    intros i. rewrite entry_insert. change (entry (mkPT (entries pt) 768) i) with (entry pt i).
    destruct (decide (page + Z.of_nat k = i)) as [<-|Hne]; [by rewrite decide_True by lia|].
    rewrite He. destruct (decide (page <= i < page + Z.of_nat k)); [by rewrite decide_True by lia|by rewrite decide_False by lia].
  - eauto.
Qed.

(** ** The invariant of the loader *)

(** A region of [n] pages at page [s] of the process, which are the kernel's pages from [b] on. *)
Record region := mkRegion { r_page : Z; r_len : Z; r_kpage : Z }.

Definition region_of (a : alloc) (g : region) : Prop :=
  start (alloc_ a) = r_page g * 4096 /\ end_ (alloc_ a) = (r_page g + r_len g) * 4096 /\ load_addr a = r_kpage g * 4096.

Definition region_ok (m : mem) (pt : page_table) (g : region) : Prop :=
  0 <= r_page g /\ 0 < r_len g /\ r_page g + r_len g <= U_PAGES /\ 0 < r_kpage g /\ r_kpage g + r_len g <= N_PAGES /\
  forall i, 0 <= i < r_len g -> kpresent m (r_kpage g + i) /\ present (entry pt (r_page g + i)) = true /\
    frame_of (entry pt (r_page g + i)) = frame_of (entry (page_tables m) (r_kpage g + i)).

Definition apart (a n b k : Z) : Prop := a + n <= b \/ b + k <= a.

Definition regions_apart (R : list region) : Prop :=
  forall i j g g', R !! i = Some g -> R !! j = Some g' -> i <> j ->
    apart (r_page g) (r_len g) (r_page g') (r_len g') /\ apart (r_kpage g) (r_len g) (r_kpage g') (r_len g').

Record inv (l : loader) (r : Z) (R : list region) : Prop := {
  inv_room : room (ktree l) (kmem l) r;
  inv_data : data_ok (kmem l);
  inv_tables : tables (ptables l) = 768;
  inv_allocs : Forall2 region_of (allocations l) R;
  inv_regions : Forall (region_ok (kmem l) (ptables l)) R;
  inv_apart : regions_apart R;
  inv_empty : forall i, (forall g, g ∈ R -> ~ r_page g <= i < r_page g + r_len g) -> entry (ptables l) i = 0
}.

Lemma apart_snoc R g : regions_apart R ->
  (forall g', g' ∈ R -> apart (r_page g') (r_len g') (r_page g) (r_len g) /\ apart (r_kpage g') (r_len g') (r_kpage g) (r_len g)) ->
  regions_apart (R ++ [g]).
Proof.
  intros HR Hg i j x y Hi Hj Hij. apply lookup_app_Some in Hi as [Hi|[Hli Hi]]; apply lookup_app_Some in Hj as [Hj|[Hlj Hj]].
  - by apply (HR i j).
  - apply list_lookup_singleton_Some in Hj as [_ <-]. apply Hg. by eapply list_elem_of_lookup_2.
  - apply list_lookup_singleton_Some in Hi as [_ <-]. destruct (Hg y) as [? ?]; [by eapply list_elem_of_lookup_2|]. unfold apart in *. split; lia.
  - apply list_lookup_singleton_Some in Hi as [? _]. apply list_lookup_singleton_Some in Hj as [? _]. lia.
Qed.

Lemma contents_data m m' f : frame_data m' = frame_data m -> contents m' f = contents m f.
Proof. unfold contents. by intros ->. Qed.

(** A new region: [mmap], then the entries of the process. *)
Lemma new_region l r R n page hint_ fl user bits : inv l r R -> 0 < n -> cost n <= r -> hint_ = KERNEL_VIRTUAL_BASE \/ (hint_ = 0 /\ 2 <= n) -> flags_of o fl -> 0 <= page -> page + n <= U_PAGES ->
  (forall g, g ∈ R -> apart (r_page g) (r_len g) page n) -> (forall e, present e = true -> present (Z.lor e bits) = true) ->
  (forall e, frame_of (Z.lor e bits) = frame_of e) ->
  exists t m b pt, kmmap o (ktree l) (kmem l) hint_ (n * 4096) fl user = Ok (t, m, b * 4096) /\ 0 < b /\ b + n <= N_PAGES /\ frame_data m = frame_data (kmem l) /\
    map_pages (Z.to_nat n) page b bits (set_heap l t m) = Ok (set_ptables (set_heap l t m) pt) /\
    (forall g, g ∈ R -> apart (r_kpage g) (r_len g) b n) /\
    (forall i, kpresent (kmem l) i -> entry (page_tables m) i = entry (page_tables (kmem l)) i) /\
    (forall i, b <= i < b + n -> Z.testbit (entry (page_tables m) i) 1 = true) /\
    (forall i, entry pt i = if decide (page <= i < page + n) then Z.lor (entry (page_tables m) (b + (i - page))) bits else entry (ptables l) i) /\
    forall a, region_of a (mkRegion page n b) -> inv (add_alloc (set_ptables (set_heap l t m) pt) a) (r - cost n) (R ++ [mkRegion page n b]).
Proof.
  intros [Hroom Hdata Htab Hall Hreg Hap Hemp] Hn Hc Hhint Hfl Hp Hfit Hfree Hbits Hframe. destruct (kmmap_ok o (ktree l) (kmem l) r n hint_ fl user Hvm Hroom Hn Hc Hhint Hfl) as (t & m & b & Hmap & Hb & Hbn & Hroom' & Hfd & Hnew & Hold).
  destruct (room_frames _ _ _ Hroom') as [Hok' _].
  assert (forall g, g ∈ R -> apart (r_kpage g) (r_len g) b n) as Hk.
  { intros g Hg. rewrite Forall_forall in Hreg. destruct (Hreg g Hg) as (_ & Hl & _ & _ & _ & Hpr). unfold apart.
    destruct (decide (r_kpage g + r_len g <= b \/ b + n <= r_kpage g)) as [|Hno]; [done|exfalso].
    set (i := Z.max (r_kpage g) b). destruct (Hpr (i - r_kpage g)) as [Hy _]; [lia|]. destruct (Hnew i) as [Hx _]; [lia|].
    unfold kpresent in Hy. replace (r_kpage g + (i - r_kpage g)) with i in Hy by lia. congruence. }
  destruct (map_pages_ok (Z.to_nat n) page b bits (set_heap l t m)) as (pt & Hmp & Htp & He); [done|done|done|lia| |].
  { intros i Hi. split; [|apply Hnew; lia]. apply Hemp. intros g Hg Hin. specialize (Hfree g Hg). unfold apart in Hfree. lia. }
  rewrite Z2Nat.id in He by lia. cbn [ptables kmem set_heap] in He. exists t, m, b, pt. split_and!; [done|done|done|done|done|done|done|intros i Hi; by apply Hnew|done|].
  intros a Ha. constructor; cbn [kmem ktree ptables allocations add_alloc set_ptables set_heap].
  - done.
  - intros f. rewrite (contents_data (kmem l)) by done. apply Hdata.
  - done.
  - apply Forall2_app; [done|]. constructor; [done|constructor].
  - apply Forall_app. split.
    + apply Forall_forall. intros g Hg. rewrite Forall_forall in Hreg. pose proof (Hreg g Hg) as (Hg1 & Hg2 & Hg3 & Hg4 & Hg5 & Hpr).
      specialize (Hfree g Hg). specialize (Hk g Hg). unfold apart in *. do 5 (split; [done|]). intros i Hi. destruct (Hpr i Hi) as (Hp1 & Hp2 & Hp3).
      unfold kpresent in *. rewrite Hold by done. rewrite He, decide_False by lia. done.
    + constructor; [|constructor]. unfold region_ok; cbn [r_page r_len r_kpage]. do 5 (split; [lia|]). intros i Hi. unfold kpresent. rewrite He, decide_True by lia.
      replace (b + (page + i - page)) with (b + i) by lia. destruct (Hnew (b + i)) as (_ & Hy & _); [lia|]. split_and!; [done|by apply Hbits|by apply Hframe].
  - apply apart_snoc; [done|]. intros g Hg. cbn. split; [by apply Hfree|by apply Hk].
  - intros i Hi. rewrite He. rewrite decide_False.
    + apply Hemp. intros g Hg. apply Hi. apply elem_of_app. by left.
    + apply (Hi (mkRegion page n b)). apply elem_of_app. right. by left.
Qed.

(** Changing other bits of the entries keeps the invariant. *)
Lemma inv_bits l r R pt : inv l r R -> tables pt = 768 ->
  (forall i, present (entry pt i) = present (entry (ptables l) i) /\ frame_of (entry pt i) = frame_of (entry (ptables l) i) /\
     (entry (ptables l) i = 0 -> entry pt i = 0)) -> inv (set_ptables l pt) r R.
Proof.
  intros [Hroom Hdata Htab Hall Hreg Hap Hemp] Ht Hpt. constructor; cbn [kmem ptables allocations set_ptables]; try done.
  - eapply Forall_impl; [done|]. intros g (? & ? & ? & ? & ? & Hpr). do 5 (split; [done|]). intros i Hi. destruct (Hpr i Hi) as (? & ? & ?).
    destruct (Hpt (r_page g + i)) as (-> & -> & _). done.
  - intros i Hi. by apply Hpt, Hemp.
Qed.

(** ** Segments *)

Definition seg_page (rla : Z) (p : Elf.Elf32_Phdr) : Z := (rla + Elf.p_vaddr p) / 4096.
Definition seg_len (p : Elf.Elf32_Phdr) : Z := (Elf.p_memsz p + 4095) / 4096.

(** A segment the loader can place: below the kernel, and ending before the end of its last page. *)
Definition seg_ok (rla : Z) (p : Elf.Elf32_Phdr) : Prop :=
  0 <= rla /\ 0 <= Elf.p_vaddr p /\ 0 <= Elf.p_filesz p <= Elf.p_memsz p /\ 0 < Elf.p_memsz p /\
  seg_page rla p + seg_len p <= U_PAGES /\ rla + Elf.p_vaddr p + Elf.p_memsz p < (seg_page rla p + seg_len p) * 4096.

Lemma seg_bounds rla p : seg_ok rla p ->
  0 <= seg_page rla p /\ 0 < seg_len p /\ rla + Elf.p_vaddr p + Elf.p_memsz p < 3221225472 /\ seg_page rla p * 4096 <= rla + Elf.p_vaddr p /\
  seg_len p * 4096 < 3221225472 + 4096.
Proof.
  unfold seg_ok, U_PAGES. intros (Hr & Hv & Hf & Hm & Hu & Hs). unfold seg_page, seg_len in *.
  pose proof (Z.div_pos (rla + Elf.p_vaddr p) 4096). pose proof (Z.mul_div_le (rla + Elf.p_vaddr p) 4096).
  assert (0 < (Elf.p_memsz p + 4095) / 4096) by (apply Z.div_str_pos; lia). pose proof (Z.mul_div_le (Elf.p_memsz p + 4095) 4096). lia.
Qed.

Lemma map_segment_ok l r R p rla : inv l r R -> seg_ok rla p -> cost (seg_len p) <= r ->
  (forall g, g ∈ R -> apart (r_page g) (r_len g) (seg_page rla p) (seg_len p)) ->
  exists l' b, map_segment o p rla l = Ok l' /\ inv l' (r - cost (seg_len p)) (R ++ [mkRegion (seg_page rla p) (seg_len p) b]) /\
    frame_data (kmem l') = frame_data (kmem l) /\
    (forall i, kpresent (kmem l) i -> entry (page_tables (kmem l')) i = entry (page_tables (kmem l)) i) /\
    (forall g, g ∈ R -> apart (r_kpage g) (r_len g) b (seg_len p)) /\
    (forall i, seg_page rla p <= i < seg_page rla p + seg_len p ->
       Z.testbit (entry (ptables l') i) 1 = Elf.segment_write p /\ Z.testbit (entry (ptables l') i) 2 = true) /\
    (forall i, ~ seg_page rla p <= i < seg_page rla p + seg_len p -> entry (ptables l') i = entry (ptables l) i) /\
    num_pages l' = num_pages l /\ elf_dep_list l' = elf_dep_list l /\ pdt l' = pdt l /\ tables_addr l' = tables_addr l.
Proof.
  intros Hinv Hseg Hr Hfree. pose proof (seg_bounds rla p Hseg) as (Hs0 & Hl0 & Htop & Hlow & Hsize). pose proof Hseg as (Hr0 & Hv & Hf & Hm & Hu & Hs).
  unfold U_PAGES in Hu. unfold map_segment, ADDR_PAGE, PAGE_SIZE. change (4096 - 1) with 4095.
  rewrite (u32_id (Elf.p_memsz p + 4095)), (u32_id (rla + Elf.p_vaddr p)), !shift_page, !shiftl_page by (unfold is_u32; lia). fold (seg_len p) (seg_page rla p).
  rewrite !(u32_id (seg_page rla p * 4096)), !(u32_id (seg_len p * 4096)) by (unfold is_u32; lia).
  destruct (new_region l r R (seg_len p) (seg_page rla p) KERNEL_VIRTUAL_BASE (Z.lor (MAP_ANON o) (MAP_PRIVATE o)) true PAGE_USER Hinv) as (t & m & b & pt & -> & Hb & Hbn & Hfd & Hmp & Hkap & Hold & Hwr & Hpt & Hnew);
    [done|done|by left|by left|done|done|done|intros e; apply present_user|apply frame_of_user|]. run.
  unfold truthy. rewrite (proj2 (Z.eqb_neq _ _)) by lia. cbn [negb]. run. rewrite shift_page, Z.div_mul by lia. rewrite Hmp. run.
  set (l1 := set_ptables (set_heap l t m) pt) in *. assert (tables (ptables l1) = 768) as Ht1.
  { destruct (Hnew (mkLoaded (mkAlloc (seg_page rla p * 4096) ((seg_page rla p + seg_len p) * 4096) (mkInfo 0 0) true) (b * 4096))) as [_ _ Ht _ _ _ _]; done. }
  assert (exists pt', (if Elf.segment_write p then Ok l1 else protect_pages (Z.to_nat (seg_len p)) (seg_page rla p) l1) = Ok (set_ptables l1 pt') /\
    tables pt' = 768 /\ forall i, entry pt' i = if decide (seg_page rla p <= i < seg_page rla p + seg_len p)
      then if Elf.segment_write p then entry pt i else Z.ldiff (entry pt i) PAGE_WRITE else entry pt i) as (pt' & -> & Ht' & He').
  { destruct (Elf.segment_write p).
    - exists pt. split; [done|]. split; [done|]. intros i. by destruct (decide _).
    - destruct (protect_pages_ok (Z.to_nat (seg_len p)) (seg_page rla p) l1) as (pt' & -> & ? & He); [done|done|unfold U_PAGES; lia|]. exists pt'. split; [done|]. split; [done|].
      rewrite Z2Nat.id in He by lia. exact He. }
  run. set (a := mkLoaded _ _). eexists _, b. split; [done|]. change (add_alloc (set_ptables l1 pt') a) with (set_ptables (add_alloc l1 a) pt').
  split_and!; cbn [kmem ptables num_pages elf_dep_list pdt tables_addr set_ptables add_alloc l1 set_heap]; try done.
  - apply inv_bits; [|done|].
    + apply Hnew. unfold region_of, a. cbn. rewrite u32_id by (unfold is_u32; lia). split_and!; lia.
    + intros i. cbn [ptables add_alloc l1 set_ptables]. rewrite He'. destruct (decide _); [|done]. destruct (Elf.segment_write p); [done|].
      rewrite present_protect, frame_of_protect. split_and!; [done|done|]. intros ->. done.
  - intros i Hi. rewrite He', decide_True by done. rewrite Hpt, decide_True by done. set (e := entry (page_tables m) _).
    assert (Z.testbit e 1 = true) as He1 by (apply Hwr; lia).
    assert (Z.testbit (Z.lor e PAGE_USER) 1 = true /\ Z.testbit (Z.lor e PAGE_USER) 2 = true) as [H1 H2].
    { rewrite !Z.lor_spec, He1. split; [done|]. apply orb_true_r. }
    destruct (Elf.segment_write p); [done|]. split; [by rewrite Z.ldiff_spec, H1|by rewrite protect_bit, H2 by lia].
  - intros i Hi. rewrite He', decide_False by done. rewrite Hpt, decide_False by done. done.
Qed.

(** ** Writing through the kernel's addresses *)

Definition uview (l : loader) (a : Z) : Z := view (kmem l) (ptables l) a.
Definition in_region (g : region) (a : Z) : Prop := r_page g * 4096 <= a < (r_page g + r_len g) * 4096.
Definition kaddr (g : region) (a : Z) : Z := r_kpage g * 4096 + (a - r_page g * 4096).

Lemma kaddr_page g a : kaddr g a / 4096 = r_kpage g + (a / 4096 - r_page g) /\ kaddr g a mod 4096 = a mod 4096.
Proof.
  unfold kaddr. replace (r_kpage g * 4096 + (a - r_page g * 4096)) with (a + (r_kpage g - r_page g) * 4096) by lia.
  rewrite Z.div_add, Z.mod_add by lia. split; [lia|done].
Qed.

Lemma in_region_page g a : in_region g a -> 0 <= a / 4096 - r_page g < r_len g.
Proof.
  unfold in_region. intros Ha. assert (r_page g <= a / 4096) by (apply Z.div_le_lower_bound; lia).
  assert (a / 4096 < r_page g + r_len g) by (apply Z.div_lt_upper_bound; lia). lia.
Qed.

(** What the process sees is what the kernel sees at the load address. *)
Lemma uview_kernel l g a : region_ok (kmem l) (ptables l) g -> in_region g a -> uview l a = kbyte (kmem l) (kaddr g a) /\ kpresent (kmem l) (kaddr g a / 4096).
Proof.
  intros (_ & _ & _ & _ & _ & Hpr) Ha. unfold uview, view. destruct (kaddr_page g a) as [-> ->]. destruct (Hpr _ (in_region_page g a Ha)) as (Hp & _ & Hf).
  replace (r_page g + (a / 4096 - r_page g)) with (a / 4096) in Hf by lia. rewrite Hf. done.
Qed.

Lemma inv_written l r R m' : inv l r R -> written (kmem l) m' -> data_ok m' -> inv (set_kmem l m') r R.
Proof.
  intros [Hroom Hdata Htab Hall Hreg Hap Hemp] Hw Hd. constructor; cbn [kmem ptables allocations set_kmem]; try done.
  - by eapply written_room.
  - unfold region_ok, kpresent in *. by rewrite (written_tables _ _ Hw).
Qed.

Lemma inv_region l r R g : inv l r R -> g ∈ R -> region_ok (kmem l) (ptables l) g.
Proof. intros Hinv Hg. pose proof (inv_regions _ _ _ Hinv) as H1. rewrite Forall_forall in H1. by apply H1. Qed.

(** The allocation that contains an address of a region is the region's. *)
Lemma find_region l r R g addr : inv l r R -> g ∈ R -> in_region g addr -> exists a, find_alloc (allocations l) addr = Some a /\ region_of a g.
Proof.
  intros Hinv Hg [Hlo Hhi]. apply list_elem_of_lookup in Hg as [j Hj]. pose proof (inv_allocs _ _ _ Hinv) as Hall.
  destruct (Forall2_lookup_r _ _ _ _ _ Hall Hj) as (a & Ha & Hs & He & Hl). exists a. split; [|done]. unfold find_alloc.
  destruct (list_find _ (allocations l)) as [[i x]|] eqn:E.
  - apply list_find_Some in E as (Hx & Hc & _). destruct (Forall2_lookup_l _ _ _ _ _ Hall Hx) as (g' & Hg' & Hs' & He' & _).
    unfold covers in Hc. apply andb_true_iff in Hc as [Hc1%Z.leb_le Hc2%Z.ltb_lt]. destruct (decide (i = j)) as [->|Hij].
    + rewrite Ha in Hx. by simplify_eq/=.
    + destruct (inv_apart _ _ _ Hinv i j g' g Hg' Hj Hij) as [Hap _]. unfold apart in Hap. exfalso. lia.
  - apply list_find_None in E. rewrite Forall_forall in E. destruct (E a); [by eapply list_elem_of_lookup_2|]. unfold covers.
    rewrite (proj2 (Z.leb_le _ _)), (proj2 (Z.ltb_lt _ _)) by lia. done.
Qed.

Lemma target_ok l r R g addr n : inv l r R -> g ∈ R -> 0 <= n -> r_page g * 4096 <= addr -> addr + n < (r_page g + r_len g) * 4096 ->
  target (allocations l) addr n = Ok (kaddr g addr).
Proof.
  intros Hinv Hg Hn Hlo Hhi. pose proof (inv_region _ _ _ _ Hinv Hg) as (Hg1 & Hg2 & Hg3 & Hg4 & Hg5 & _). unfold U_PAGES, N_PAGES, PDT_ENTRIES, PT_ENTRIES in *.
  destruct (find_region l r R g addr Hinv Hg) as (a & Hfind & Hs & He & Hl); [split; lia|].
  unfold target. rewrite Hfind, He, Hs, Hl, u32_id by (unfold is_u32; lia). rewrite (proj2 (Z.ltb_lt _ _)) by lia. unfold kaddr.
  rewrite u32_id by (unfold is_u32; lia). done.
Qed.

(** A segment whose contents end exactly at the end of its last page stops the kernel, although the pages cover it: the comparison is strict. *)
Theorem full_page_panics l r R f p rla g : inv l r R -> g ∈ R -> 0 <= Elf.p_offset p -> Elf.p_offset p + Elf.p_filesz p <= Z.of_nat (length f) -> 0 < Elf.p_filesz p ->
  0 <= rla + Elf.p_vaddr p -> r_page g * 4096 <= rla + Elf.p_vaddr p -> rla + Elf.p_vaddr p + Elf.p_filesz p = (r_page g + r_len g) * 4096 ->
  load_segment f p rla l = Panic.
Proof.
  intros Hinv Hg Ho Hof Hf0 Hv Hlo Hend. pose proof (inv_region _ _ _ _ Hinv Hg) as (Hg1 & Hg2 & Hg3 & _). unfold U_PAGES in Hg3.
  destruct (find_region l r R g (rla + Elf.p_vaddr p) Hinv Hg) as (a & Hfind & Hs & He & Hl); [split; lia|].
  unfold load_segment. rewrite Elf.object_in by lia. run. unfold lptr_memcpy, target. rewrite (u32_id (rla + Elf.p_vaddr p)) by (unfold is_u32; lia). rewrite Hfind, He.
  replace (Z.of_nat (length (slice f (Elf.p_offset p) (Elf.p_filesz p)))) with (Elf.p_filesz p) by (unfold slice; rewrite length_take, length_drop; lia).
  rewrite (u32_id (rla + Elf.p_vaddr p + Elf.p_filesz p)) by (unfold is_u32; lia). rewrite Hend, Z.ltb_irrefl. done.
Qed.

(** Bytes stored at the load address of a region appear at the runtime address, and nowhere else. *)
Lemma store_region l r R g addr bs : inv l r R -> g ∈ R -> r_page g * 4096 <= addr -> addr + Z.of_nat (length bs) <= (r_page g + r_len g) * 4096 ->
  exists m', store_bytes (kmem l) (kaddr g addr) bs = Ok m' /\ inv (set_kmem l m') r R /\
    forall g' a, g' ∈ R -> in_region g' a ->
      uview (set_kmem l m') a = if decide (addr <= a < addr + Z.of_nat (length bs)) then nth (Z.to_nat (a - addr)) bs 0 else uview l a.
Proof.
  intros Hinv Hg Hlo Hhi. destruct (room_frames _ _ _ (inv_room _ _ _ Hinv)) as [Hok _].
  destruct (store_bytes_ok bs (kmem l) (kaddr g addr) Hok (inv_data _ _ _ Hinv)) as (m' & -> & Hw & Hd & Hb).
  { intros b Hb. unfold kaddr in Hb. replace b with (kaddr g (b - r_kpage g * 4096 + r_page g * 4096)) by (unfold kaddr; lia).
    apply (uview_kernel l); [by eapply inv_region|]. unfold in_region. lia. }
  exists m'. split; [done|]. pose proof (inv_written _ _ _ _ Hinv Hw Hd) as Hinv'. split; [done|]. intros g' a Hg' Ha.
  destruct (uview_kernel _ g' a (inv_region _ _ _ _ Hinv' Hg') Ha) as [-> _]. destruct (uview_kernel _ g' a (inv_region _ _ _ _ Hinv Hg') Ha) as [-> Hp].
  cbn [kmem set_kmem]. rewrite Hb by done. apply list_elem_of_lookup in Hg as [j Hj]. apply list_elem_of_lookup in Hg' as [i Hi].
  unfold in_region in Ha. destruct (decide (i = j)) as [->|Hij].
  - rewrite Hj in Hi. simplify_eq. unfold kaddr. destruct (decide (addr <= a < addr + Z.of_nat (length bs))).
    + rewrite decide_True by lia. do 2 f_equal. lia.
    + rewrite decide_False by lia. done.
  - destruct (inv_apart _ _ _ Hinv i j g' g Hi Hj Hij) as [Hap Hkap]. unfold apart, kaddr in *. rewrite !decide_False by lia. done.
Qed.

Lemma lptr_memcpy_ok l r R g addr bs : inv l r R -> g ∈ R -> r_page g * 4096 <= addr -> addr + Z.of_nat (length bs) < (r_page g + r_len g) * 4096 ->
  exists m', lptr_memcpy (kmem l) (allocations l) addr bs = Ok m' /\ inv (set_kmem l m') r R /\
    forall g' a, g' ∈ R -> in_region g' a ->
      uview (set_kmem l m') a = if decide (addr <= a < addr + Z.of_nat (length bs)) then nth (Z.to_nat (a - addr)) bs 0 else uview l a.
Proof.
  intros Hinv Hg Hlo Hhi. unfold lptr_memcpy. rewrite (target_ok l r R g) by (done || lia). run. apply store_region; [done..|lia].
Qed.

(** A segment of the file, with zeroes behind it. *)
Lemma load_segment_ok l r R f p rla g : inv l r R -> seg_ok rla p -> 0 <= Elf.p_offset p -> Elf.p_offset p + Elf.p_filesz p <= Z.of_nat (length f) ->
  g ∈ R -> r_page g = seg_page rla p -> r_len g = seg_len p ->
  exists m', load_segment f p rla l = Ok (set_kmem l m') /\ inv (set_kmem l m') r R /\
    forall g' a, g' ∈ R -> in_region g' a ->
      uview (set_kmem l m') a =
        (let x := a - (rla + Elf.p_vaddr p) in
         if decide (0 <= x < Elf.p_memsz p) then if decide (x < Elf.p_filesz p) then byte f (Elf.p_offset p + x) else 0 else uview l a).
Proof.
  intros Hinv Hseg Ho Hof Hg Hgp Hgl. pose proof (seg_bounds rla p Hseg) as (Hs0 & Hl0 & Htop & Hlow & Hsize). pose proof Hseg as (Hr0 & Hv & Hf & Hm & Hu & Hs).
  unfold load_segment. rewrite Elf.object_in by lia. run. assert (length (slice f (Elf.p_offset p) (Elf.p_filesz p)) = Z.to_nat (Elf.p_filesz p)) as Hlen.
  { unfold slice. rewrite length_take, length_drop. lia. }
  rewrite (u32_id (rla + Elf.p_vaddr p)) by (unfold is_u32; lia).
  destruct (lptr_memcpy_ok l r R g (rla + Elf.p_vaddr p) (slice f (Elf.p_offset p) (Elf.p_filesz p)) Hinv Hg) as (m1 & -> & Hinv1 & Hb1); [lia|rewrite Hlen; lia|]. run.
  rewrite Hlen, Z2Nat.id in Hb1 by lia.
  assert (forall x, 0 <= x < Elf.p_filesz p -> nth (Z.to_nat x) (slice f (Elf.p_offset p) (Elf.p_filesz p)) 0 = byte f (Elf.p_offset p + x)) as Hslice.
  { intros x Hx. unfold slice, byte. rewrite !nth_lookup, lookup_take_lt, lookup_drop by lia. do 2 f_equal. lia. }
  destruct (Z.ltb_spec (Elf.p_filesz p) (Elf.p_memsz p)) as [Hlt|Hge].
  - rewrite (u32_id (Elf.p_vaddr p + Elf.p_filesz p)), u32_id by (unfold is_u32; lia). unfold lptr_memset.
    change (allocations l) with (allocations (set_kmem l m1)). rewrite (target_ok (set_kmem l m1) r R g) by (done || lia). run. change (store_bytes m1) with (store_bytes (kmem (set_kmem l m1))).
    destruct (store_region (set_kmem l m1) r R g (rla + (Elf.p_vaddr p + Elf.p_filesz p)) (replicate (Z.to_nat (Elf.p_memsz p - Elf.p_filesz p)) 0) Hinv1 Hg)
      as (m2 & -> & Hinv2 & Hb2); [lia|rewrite length_replicate; lia|]. run. exists m2. split; [done|]. split; [done|]. intros g' a Hg' Ha.
    change (set_kmem l m2) with (set_kmem (set_kmem l m1) m2). rewrite (Hb2 g' a Hg' Ha), (Hb1 g' a Hg' Ha), length_replicate. cbv zeta.
    destruct (decide (rla + (Elf.p_vaddr p + Elf.p_filesz p) <= a < rla + (Elf.p_vaddr p + Elf.p_filesz p) + Z.of_nat (Z.to_nat (Elf.p_memsz p - Elf.p_filesz p)))).
    + rewrite decide_True, decide_False by lia. rewrite nth_lookup, lookup_replicate_2 by lia. done.
    + destruct (decide (rla + Elf.p_vaddr p <= a < rla + Elf.p_vaddr p + Elf.p_filesz p)).
      * rewrite !decide_True by lia. apply Hslice. lia.
      * rewrite decide_False by lia. done.
  - exists m1. split; [done|]. split; [done|]. intros g' a Hg' Ha. rewrite (Hb1 g' a Hg' Ha). cbv zeta.
    destruct (decide (rla + Elf.p_vaddr p <= a < rla + Elf.p_vaddr p + Elf.p_filesz p)).
    + rewrite !decide_True by lia. apply Hslice. lia.
    + rewrite decide_False by lia. done.
Qed.

(** ** All segments of an image *)

Definition loads (phs : list Elf.Elf32_Phdr) : list Elf.Elf32_Phdr := filter (fun p => Elf.p_type p = Elf.PT_LOAD) phs.
Definition total (ps : list Elf.Elf32_Phdr) : Z := foldr (fun p n => cost (seg_len p) + n) 0 ps.

Definition placed (rla : Z) (p : Elf.Elf32_Phdr) (g : region) : Prop := r_page g = seg_page rla p /\ r_len g = seg_len p.

(** The permissions of the pages of a segment. *)
Definition permitted (rla : Z) (pt : page_table) (p : Elf.Elf32_Phdr) : Prop :=
  forall i, seg_page rla p <= i < seg_page rla p + seg_len p ->
    Z.testbit (entry pt i) 1 = Elf.segment_write p /\ Z.testbit (entry pt i) 2 = true.

(** The bytes of a segment. *)
Definition loaded (rla : Z) (f : list Z) (l : loader) (p : Elf.Elf32_Phdr) : Prop :=
  forall x, 0 <= x < Elf.p_memsz p ->
    uview l (rla + Elf.p_vaddr p + x) = if decide (x < Elf.p_filesz p) then byte f (Elf.p_offset p + x) else 0.

(** Segments that do not share pages. *)
Definition segments_apart (rla : Z) (ps : list Elf.Elf32_Phdr) : Prop :=
  forall i j p q, ps !! i = Some p -> ps !! j = Some q -> i <> j -> apart (seg_page rla p) (seg_len p) (seg_page rla q) (seg_len q).

Lemma total_app ps qs : total (ps ++ qs) = total ps + total qs.
Proof. induction ps as [|p ps IH]; [done|]. cbn [app total foldr] in *. fold (total (ps ++ qs)) (total ps). lia. Qed.

Lemma loads_snoc phs k p : phs !! k = Some p -> loads (take (S k) phs) = loads (take k phs) ++ (if decide (Elf.p_type p = Elf.PT_LOAD) then [p] else []).
Proof.
  intros Hp. rewrite (take_S_r _ _ _ Hp). unfold loads. rewrite filter_app. f_equal.
Qed.

Lemma loads_take_sub phs k : exists rest, loads phs = loads (take k phs) ++ rest.
Proof. exists (loads (drop k phs)). unfold loads. by rewrite <- filter_app, take_drop. Qed.

Lemma total_nonneg ps : 0 <= total ps.
Proof. induction ps as [|p ps IH]; cbn [total foldr]; [done|]. fold (total ps). unfold cost. lia. Qed.

Lemma old_view l l' g a : frame_data (kmem l') = frame_data (kmem l) -> in_region g a ->
  (forall i, r_page g <= i < r_page g + r_len g -> entry (ptables l') i = entry (ptables l) i) -> uview l' a = uview l a.
Proof.
  intros Hfd Ha He. pose proof (in_region_page g a Ha). unfold uview, view. rewrite (contents_data (kmem l)) by done. rewrite He by lia. done.
Qed.

Lemma map_elf_loop f e h phs shs rla l r R0 : Elf.represents f h phs shs -> Elf.about h e -> inv l r R0 -> Forall (seg_ok rla) (loads phs) ->
  segments_apart rla (loads phs) -> (forall g p, g ∈ R0 -> p ∈ loads phs -> apart (r_page g) (r_len g) (seg_page rla p) (seg_len p)) ->
  total (loads phs) <= r ->
  exists l' R, for_loop (Z.to_nat (Elf.e_phnum (Elf.global_hdr e))) (fun k l => h ← Elf.program f e k;
      if negb (Elf.p_type h =? Elf.PT_LOAD) then Ok l else map_segment o h rla l) l = Ok l' /\
    inv l' (r - total (loads phs)) (R0 ++ R) /\ Forall2 (placed rla) (loads phs) R /\ Forall (permitted rla (ptables l')) (loads phs) /\
    (forall g a, g ∈ R0 -> in_region g a -> uview l' a = uview l a) /\
    (forall i, (forall p, p ∈ loads phs -> ~ seg_page rla p <= i < seg_page rla p + seg_len p) -> entry (ptables l') i = entry (ptables l) i) /\
    num_pages l' = num_pages l /\ elf_dep_list l' = elf_dep_list l /\ pdt l' = pdt l /\ tables_addr l' = tables_addr l.
Proof.
  intros Hrep He Hinv Hseg Hap Hold Hr. pose proof He as (-> & _). pose proof Hrep as (_ & -> & _). rewrite Nat2Z.id.
  set (Q := fun k l' => exists R, inv l' (r - total (loads (take k phs))) (R0 ++ R) /\ Forall2 (placed rla) (loads (take k phs)) R /\
    Forall (permitted rla (ptables l')) (loads (take k phs)) /\ (forall g a, g ∈ R0 -> in_region g a -> uview l' a = uview l a) /\
    (forall i, (forall p, p ∈ loads phs -> ~ seg_page rla p <= i < seg_page rla p + seg_len p) -> entry (ptables l') i = entry (ptables l) i) /\
    num_pages l' = num_pages l /\ elf_dep_list l' = elf_dep_list l /\ pdt l' = pdt l /\ tables_addr l' = tables_addr l).
  destruct (for_loop_inv Q (length phs) (fun k l => h ← Elf.program f e k;
      if negb (Elf.p_type h =? Elf.PT_LOAD) then Ok l else map_segment o h rla l) l) as (l' & -> & R & HQ).
  - exists []. rewrite app_nil_r. change (total (loads (take 0 phs))) with 0. rewrite Z.sub_0_r. split_and!; try done; constructor.
  - intros k l1 Hk (R & Hinv1 & Hpl & Hperm & Hview & Hent & Hfields). destruct (lookup_lt_is_Some_2 phs k) as [p Hp]; [done|].
    rewrite (Elf.program_at f h phs shs Hrep e k p He Hp). run. unfold Q. rewrite (loads_snoc phs k p Hp).
    destruct (Z.eqb_spec (Elf.p_type p) Elf.PT_LOAD) as [Ht|Ht]; cbn [negb].
    2: { rewrite decide_False by done. rewrite app_nil_r. exists l1. split; [done|]. exists R. done. }
    rewrite decide_True by done. destruct (loads_take_sub phs (S k)) as [rest Hrest]. rewrite (loads_snoc phs k p Hp), decide_True in Hrest by done.
    assert (loads phs !! length (loads (take k phs)) = Some p) as Hpk by (rewrite Hrest, <- app_assoc; apply list_lookup_middle; done).
    assert (total (loads phs) = total (loads (take k phs)) + cost (seg_len p) + total rest) as Htot.
    { rewrite Hrest, !total_app. cbn [total foldr]. lia. }
    pose proof (total_nonneg rest) as Hrest0.
    destruct (map_segment_ok l1 _ _ p rla Hinv1) as (l2 & b & -> & Hinv2 & Hfd & Hke & Hkap & Hpe & Hpo & Hn & Hd & Hpd & Hta).
    { by eapply (Forall_lookup_1 _ _ _ _ Hseg). } { lia. }
    { intros g [Hg|Hg]%elem_of_app; [apply Hold; [done|by eapply list_elem_of_lookup_2]|].
      apply list_elem_of_lookup in Hg as [j Hj]. destruct (Forall2_lookup_r _ _ _ _ _ Hpl Hj) as (q & Hq & [-> ->]).
      apply (Hap j (length (loads (take k phs)))); [|done|apply lookup_lt_Some in Hq; lia].
      rewrite Hrest, <- app_assoc. rewrite lookup_app_l by (by apply lookup_lt_Some in Hq). done. }
    exists l2. split; [done|]. exists (R ++ [mkRegion (seg_page rla p) (seg_len p) b]). rewrite app_assoc. split_and!.
    + rewrite total_app. cbn [total foldr]. replace (r - (total (loads (take k phs)) + (cost (seg_len p) + 0))) with (r - total (loads (take k phs)) - cost (seg_len p)) by lia. done.
    + apply Forall2_app; [done|]. constructor; [done|constructor].
    + apply Forall_app. split; [|constructor; [done|constructor]]. apply Forall_forall. intros q Hq i Hi. rewrite Forall_forall in Hperm.
      rewrite Hpo; [by apply Hperm|]. apply list_elem_of_lookup in Hq as [j Hj].
      assert (apart (seg_page rla q) (seg_len q) (seg_page rla p) (seg_len p)) as Hapq.
      { apply (Hap j (length (loads (take k phs)))); [|done|apply lookup_lt_Some in Hj; lia].
        rewrite Hrest, <- app_assoc. rewrite lookup_app_l by (by apply lookup_lt_Some in Hj). done. }
      unfold apart in Hapq. lia.
    + intros g a Hg Ha. rewrite <- (Hview g a Hg Ha). apply (old_view l1 l2 g a); [done|done|]. intros i Hi. apply Hpo.
      assert (apart (r_page g) (r_len g) (seg_page rla p) (seg_len p)) as Hapq by (apply Hold; [done|by eapply list_elem_of_lookup_2]).
      unfold apart in Hapq. lia.
    + intros i Hi. rewrite <- Hent by done. apply Hpo. apply Hi. by eapply list_elem_of_lookup_2.
    + destruct Hfields as (? & ? & ? & ?). congruence.
    + destruct Hfields as (? & ? & ? & ?). congruence.
    + destruct Hfields as (? & ? & ? & ?). congruence.
    + destruct Hfields as (? & ? & ? & ?). congruence.
  - exists l', R. rewrite take_ge in HQ by done. destruct HQ as (? & ? & ? & ? & ? & ? & ? & ? & ?). split_and!; done.
Qed.

(** The addresses of a segment lie in its pages. *)
Lemma seg_in_region rla p g x : seg_ok rla p -> placed rla p g -> 0 <= x < Elf.p_memsz p -> in_region g (rla + Elf.p_vaddr p + x).
Proof.
  intros Hseg [Hp Hl] Hx. pose proof (seg_bounds rla p Hseg) as (_ & _ & _ & Hlow & _). destruct Hseg as (_ & _ & _ & _ & _ & Hs). unfold in_region. rewrite Hp, Hl. lia.
Qed.

Lemma load_code_loop f e h phs shs rla l r R : Elf.represents f h phs shs -> Elf.about h e -> inv l r R -> Forall (seg_ok rla) (loads phs) ->
  segments_apart rla (loads phs) -> (forall p, p ∈ loads phs -> exists g, g ∈ R /\ placed rla p g) ->
  Forall (fun p => 0 <= Elf.p_offset p /\ Elf.p_offset p + Elf.p_filesz p <= Z.of_nat (length f)) (loads phs) ->
  exists m', load_elf_code f e rla l = Ok (set_kmem l m') /\ inv (set_kmem l m') r R /\ Forall (loaded rla f (set_kmem l m')) (loads phs) /\
    forall g a, g ∈ R -> in_region g a -> (forall p, p ∈ loads phs -> ~ seg_page rla p * 4096 <= a < (seg_page rla p + seg_len p) * 4096) ->
      uview (set_kmem l m') a = uview l a.
Proof.
  intros Hrep He Hinv Hseg Hap Hpl Hfile. unfold load_elf_code. pose proof He as (-> & _). pose proof Hrep as (_ & -> & _). rewrite Nat2Z.id.
  set (Q := fun k l' => exists m', l' = set_kmem l m' /\ inv l' r R /\ Forall (loaded rla f l') (loads (take k phs)) /\
    forall g a, g ∈ R -> in_region g a -> (forall p, p ∈ loads phs -> ~ seg_page rla p * 4096 <= a < (seg_page rla p + seg_len p) * 4096) ->
      uview l' a = uview l a).
  destruct (for_loop_inv Q (length phs) (fun k l => h ← Elf.program f e k;
    if negb (Elf.p_type h =? Elf.PT_LOAD) then Ok l else load_segment f h rla l) l) as (l' & -> & m' & HQ).
  - exists (kmem l). split; [by destruct l|]. split; [done|]. split; [constructor|done].
  - intros k l1 Hk (m & -> & Hinv1 & Hl & Hv). destruct (lookup_lt_is_Some_2 phs k) as [p Hp]; [done|].
    rewrite (Elf.program_at f h phs shs Hrep e k p He Hp). run. unfold Q. rewrite (loads_snoc phs k p Hp).
    destruct (Z.eqb_spec (Elf.p_type p) Elf.PT_LOAD) as [Ht|Ht]; cbn [negb].
    2: { rewrite decide_False by done. rewrite app_nil_r. eexists. split; [done|]. exists m. done. }
    rewrite decide_True by done. destruct (loads_take_sub phs (S k)) as [rest Hrest]. rewrite (loads_snoc phs k p Hp), decide_True in Hrest by done.
    assert (loads phs !! length (loads (take k phs)) = Some p) as Hpk by (rewrite Hrest, <- app_assoc; apply list_lookup_middle; done).
    assert (p ∈ loads phs) as Hin by (by eapply list_elem_of_lookup_2). destruct (Hpl p Hin) as (g & Hg & Hgp & Hgl).
    pose proof (Forall_lookup_1 _ _ _ _ Hseg Hpk) as Hsp. destruct (Forall_lookup_1 _ _ _ _ Hfile Hpk) as [Hoff Hend].
    destruct (load_segment_ok (set_kmem l m) r R f p rla g Hinv1 Hsp Hoff Hend Hg Hgp Hgl) as (m2 & -> & Hinv2 & Hb).
    eexists. split; [done|]. exists m2. split; [done|]. split; [done|]. split.
    + apply Forall_app. split; [|constructor; [|constructor]].
      * apply Forall_forall. intros q Hq x Hx. apply list_elem_of_lookup in Hq as [j Hj].
        assert (loads phs !! j = Some q) as Hqj by (rewrite Hrest, <- app_assoc; rewrite lookup_app_l by (by apply lookup_lt_Some in Hj); done).
        assert (apart (seg_page rla q) (seg_len q) (seg_page rla p) (seg_len p)) as Hapq
          by (apply (Hap j (length (loads (take k phs)))); [done|done|apply lookup_lt_Some in Hj; lia]).
        destruct (Hpl q) as (g' & Hg' & Hq'); [by eapply list_elem_of_lookup_2|]. pose proof (Forall_lookup_1 _ _ _ _ Hseg Hqj) as Hsq.
        pose proof (seg_in_region rla q g' x Hsq Hq' Hx) as Hreg. pose proof (seg_bounds rla p Hsp) as (_ & _ & _ & Hlow & _).
        rewrite (Hb g' _ Hg' Hreg). cbv zeta. destruct Hq' as [Eq Eq']. unfold in_region in Hreg. rewrite Eq, Eq' in Hreg. unfold apart in Hapq.
        destruct Hsp as (_ & _ & _ & _ & _ & Hsp). rewrite decide_False by lia. rewrite Forall_forall in Hl.
        apply (Hl q); [by eapply list_elem_of_lookup_2|done].
      * intros x Hx. rewrite (Hb g _ Hg (seg_in_region rla p g x Hsp (conj Hgp Hgl) Hx)). cbv zeta.
        replace (rla + Elf.p_vaddr p + x - (rla + Elf.p_vaddr p)) with x by lia. by rewrite decide_True by lia.
    + intros g' a Hg' Ha Hout. rewrite (Hb g' a Hg' Ha). cbv zeta. pose proof (seg_bounds rla p Hsp) as (_ & _ & _ & Hlow & _).
      destruct Hsp as (_ & _ & _ & _ & _ & Hsp). specialize (Hout p Hin) as Hno. rewrite decide_False by lia. by apply (Hv g').
  - exists m'. rewrite take_ge in HQ by done. destruct HQ as (-> & ? & ? & ?). done.
Qed.

(** A program without an interpreter is loaded.  When its segments do not share pages, end before the end of their last page and lie below the
    kernel, and there is room for their pages, the new process sees the bytes of each segment at its address, zeroes up to its size in
    memory, can access these pages, and can write to them exactly when the segment says so. *)
Lemma program_is_loaded {S D} (browse_to : S -> list Z -> res (option D * S)) open_read fuel f h phs shs e (s s' : S) t m r ta garbage :
  Elf.represents f h phs shs -> Elf.is_valid (find_file browse_to) f Elf.Executable s = Ok (Some e, s') -> Elf.interpreter_name e = None ->
  room t m r -> data_ok m -> Forall (seg_ok 0) (loads phs) -> segments_apart 0 (loads phs) ->
  Forall (fun p => 0 <= Elf.p_offset p /\ Elf.p_offset p + Elf.p_filesz p <= Z.of_nat (length f)) (loads phs) -> total (loads phs) <= r ->
  exists l R, load_elf o browse_to open_read fuel f Elf.Executable (new_loader t m ta garbage) s = Ok (Some e, l, s') /\
    Forall (loaded 0 f l) (loads phs) /\ Forall (permitted 0 (ptables l)) (loads phs) /\
    inv l (r - total (loads phs)) R /\ Forall2 (placed 0) (loads phs) R /\ elf_dep_list l = [(e, 0)] /\
    pdt l = garbage /\ exists n, Elf.num_pages f e = Ok n /\ num_pages l = u32 n.
Proof.
  intros Hrep Hval Hint Hroom Hdata Hseg Hap Hfile Htot. pose proof Hrep as (Hh & _). destruct (Elf.is_valid_about _ f h _ _ _ _ Hh Hval) as [He [n Hn]].
  assert (inv (add_dep (new_loader t m ta garbage) (e, 0)) r []) as Hinv.
  { constructor; cbn; done. }
  destruct (map_elf_loop f e h phs shs 0 _ r [] Hrep He Hinv Hseg Hap) as (l1 & R & Hmap & Hinv1 & Hpl & Hperm & _ & _ & Hnp & Hdep & Hpdt & _); [set_solver|done|].
  cbn [app] in Hinv1. assert (inv (add_pages l1 n) (r - total (loads phs)) R) as Hinv2 by (destruct Hinv1; constructor; done).
  destruct (load_code_loop f e h phs shs 0 _ _ R Hrep He Hinv2 Hseg Hap) as (m' & Hcode & Hinv3 & Hload & _); [|done|].
  { intros p Hp. apply list_elem_of_lookup in Hp as [j Hj]. destruct (Forall2_lookup_l _ _ _ _ _ Hpl Hj) as (g & Hg & ?). exists g. split; [by eapply list_elem_of_lookup_2|done]. }
  exists (set_kmem (add_pages l1 n) m'), R. split; [|split_and!; try done; exists n; split; [done|]; cbn; by rewrite Hnp].
  - destruct fuel; cbn [load_elf]; rewrite Hval; run; cbn [num_pages new_loader]; change (u32 (0 * PAGE_SIZE)) with 0; unfold map_elf; rewrite Hmap; run; rewrite Hn; run;
      rewrite Hcode; run; unfold dynamic_loading; rewrite Hint; done.
Qed.

(** ** Arguments on the stack *)

Definition bytes_at (l : loader) (a : Z) (bs : list Z) : Prop := forall j, 0 <= j < Z.of_nat (length bs) -> uview l (a + j) = nth (Z.to_nat j) bs 0.
Definition word (l : loader) (a : Z) : Z := rd32 [uview l a; uview l (a + 1); uview l (a + 2); uview l (a + 3)] 0.

Lemma bytes_at_app l a x y : bytes_at l a (x ++ y) <-> bytes_at l a x /\ bytes_at l (a + Z.of_nat (length x)) y.
Proof.
  unfold bytes_at. rewrite length_app. split.
  - intros Hb. split; intros j Hj; [rewrite Hb, app_nth1 by lia; done|]. rewrite <- Z.add_assoc, Hb, app_nth2 by lia. f_equal. lia.
  - intros [Hx Hy] j Hj. destruct (decide (j < Z.of_nat (length x))); [rewrite Hx, app_nth1 by lia; done|].
    replace (a + j) with (a + Z.of_nat (length x) + (j - Z.of_nat (length x))) by lia. rewrite Hy, app_nth2 by lia. f_equal. lia.
Qed.

Lemma word_at l a v : is_u32 v -> bytes_at l a (le32 v) -> word l a = v.
Proof.
  intros Hv Hb. unfold word. assert (uview l a = uview l (a + 0)) as -> by (f_equal; lia). rewrite !Hb by (rewrite length_le32; lia).
  exact (Elf.le32_value v Hv).
Qed.

(** The elements of a table of words. *)
Lemma words_at l a vs i v : Forall is_u32 vs -> bytes_at l a (concat (le32 <$> vs)) -> vs !! i = Some v -> word l (a + 4 * Z.of_nat i) = v.
Proof.
  intros Hvs Hb Hi. destruct (Elf.table_split le32 4 vs i v) as (pre & post & E & Hpre); [apply length_le32|done|].
  rewrite E, !bytes_at_app in Hb. destruct Hb as (_ & Hb & _). apply word_at; [by eapply (Forall_lookup_1 _ _ _ _ Hvs)|]. by replace (a + 4 * Z.of_nat i) with (a + Z.of_nat (length pre)) by lia.
Qed.

Section stack.
Context (l : loader) (r : Z) (R : list region) (g : region) (Hg : g ∈ R).
Context (Hge : stack_end < (r_page g + r_len g) * 4096).

(** The bytes [bs] have been pushed; everything else is as before. *)
Definition pushed (m : mem) (top : Z) (bs : list Z) : Prop :=
  inv (set_kmem l m) r R /\ top + Z.of_nat (length bs) = stack_end /\ bytes_at (set_kmem l m) top bs /\
  forall g' a, g' ∈ R -> in_region g' a -> ~ top <= a < stack_end -> uview (set_kmem l m) a = uview l a.

Lemma push m top bs c : pushed m top bs -> r_page g * 4096 <= top - Z.of_nat (length c) ->
  exists m', write_to_stack (allocations l) c (m, top) = Ok (m', top - Z.of_nat (length c)) /\ pushed m' (top - Z.of_nat (length c)) (c ++ bs).
Proof.
  intros (Hinv & Htop & Hbs & Hsame) Hroom. pose proof (inv_region _ _ _ _ Hinv Hg) as (Hg1 & _ & Hg3 & _). unfold U_PAGES in Hg3.
  unfold write_to_stack. cbn [fst snd]. rewrite u32_id by (unfold is_u32; lia).
  destruct (lptr_memcpy_ok _ _ _ g (top - Z.of_nat (length c)) c Hinv Hg) as (m' & Hm & Hinv' & Hb); [lia|lia|]. cbn [kmem allocations set_kmem] in Hm. rewrite Hm. run.
  exists m'. split; [done|]. change (set_kmem (set_kmem l m) m') with (set_kmem l m') in *.
  assert (forall a, r_page g * 4096 <= a <= stack_end -> in_region g a) as Hin by (unfold in_region; lia). split; [done|]. split; [rewrite length_app; lia|]. split.
  - apply bytes_at_app. split.
    + intros j Hj. rewrite (Hb g) by (done || apply Hin; lia). rewrite decide_True by lia. f_equal. lia.
    + intros j Hj. rewrite (Hb g) by (done || apply Hin; lia). rewrite decide_False by lia. replace (top - Z.of_nat (length c) + Z.of_nat (length c) + j) with (top + j) by lia. by apply Hbs.
  - intros g' a Hg' Ha Hout. rewrite (Hb g' a Hg' Ha), decide_False by lia. apply (Hsame g'); [done|done|lia].
Qed.

Lemma push_all cs : forall m top bs, pushed m top bs -> r_page g * 4096 <= top - Z.of_nat (length (concat cs)) ->
  exists m', write_all (allocations l) cs (m, top) = Ok (m', top - Z.of_nat (length (concat cs))) /\
    pushed m' (top - Z.of_nat (length (concat cs))) (concat (rev cs) ++ bs).
Proof.
  induction cs as [|c cs IH]; intros m top bs Hp Hroom; cbn [write_all concat rev] in *.
  { exists m. change (Z.of_nat (length [])) with 0. rewrite Z.sub_0_r. done. }
  rewrite length_app in Hroom. destruct (push m top bs c Hp) as (m1 & -> & Hp1); [lia|]. run.
  destruct (IH m1 _ _ Hp1) as (m2 & -> & Hp2); [lia|]. exists m2. rewrite length_app.
  replace (top - Z.of_nat (length c) - Z.of_nat (length (concat cs))) with (top - Z.of_nat (length c + length (concat cs))) in * by lia.
  split; [done|]. rewrite concat_app. cbn [concat]. by rewrite app_nil_r, <- app_assoc.
Qed.
End stack.

(** Where the strings lie that end at [top]. *)
Fixpoint addrs (top : Z) (ss : list (list Z)) : list Z :=
  match ss with [] => [] | s :: ss => top - Z.of_nat (length (concat (c_string <$> s :: ss))) :: addrs top ss end.

Lemma length_addrs top ss : length (addrs top ss) = length ss.
Proof. induction ss; cbn [addrs length]; congruence. Qed.

Lemma addrs_lookup top ss i s : ss !! i = Some s ->
  addrs top ss !! i = Some (top - Z.of_nat (length (concat (c_string <$> drop i ss)))).
Proof. revert i. induction ss as [|x ss IH]; intros [|i] Hi; cbn in *; [done|done|done|]. by apply IH. Qed.

Lemma pointers_snoc ss s : forall top, Z.of_nat (length (concat (c_string <$> ss))) + Z.of_nat (length (c_string s)) <= top < 4294967296 ->
  pointers top (ss ++ [s]) = pointers top ss ++ [le32 (top - Z.of_nat (length (concat (c_string <$> ss))) - Z.of_nat (length (c_string s)))].
Proof.
  induction ss as [|x ss IH]; intros top Ht; cbn [app pointers].
  - cbn [fmap list_fmap concat length] in *. rewrite u32_id by (unfold is_u32; lia). do 3 f_equal. lia.
  - cbn [fmap list_fmap concat] in Ht. rewrite length_app in Ht. fold (fmap c_string ss) in Ht. rewrite u32_id by (unfold is_u32; lia). rewrite IH by lia.
    cbn [app]. do 4 f_equal. cbn [fmap list_fmap concat]. rewrite length_app. lia.
Qed.

Lemma length_concat_rev (f : list Z -> list Z) ss : length (concat (f <$> rev ss)) = length (concat (f <$> ss)).
Proof. induction ss as [|x ss IH]; [done|]. cbn [rev]. rewrite fmap_app, concat_app, length_app, IH. cbn. rewrite app_nil_r, length_app. cbn. lia. Qed.

Lemma rev_pointers top ss : Z.of_nat (length (concat (c_string <$> ss))) <= top < 4294967296 -> rev (pointers top (rev ss)) = le32 <$> addrs top ss.
Proof.
  induction ss as [|s ss IH]; intros Ht; [done|]. cbn [rev addrs]. cbn [fmap list_fmap concat] in Ht. rewrite length_app in Ht. fold (fmap c_string ss) in Ht.
  rewrite pointers_snoc by (rewrite length_concat_rev; lia). rewrite rev_app_distr. cbn [rev app fmap list_fmap]. rewrite IH by lia. f_equal.
  rewrite length_concat_rev. cbn [fmap list_fmap concat]. rewrite length_app. f_equal. lia.
Qed.

Lemma addrs_u32 top ss : 0 <= top < 4294967296 -> Z.of_nat (length (concat (c_string <$> ss))) <= top -> Forall is_u32 (addrs top ss).
Proof.
  intros Ht. induction ss as [|s ss IH]; intros Hl; cbn [addrs]; [constructor|]. constructor; [unfold is_u32; lia|]. apply IH.
  cbn [fmap list_fmap concat] in Hl. rewrite length_app in Hl. fold (fmap c_string ss) in Hl. lia.
Qed.

(** The strings themselves. *)
Lemma string_at l top ss i s : bytes_at l (top - Z.of_nat (length (concat (c_string <$> ss)))) (concat (c_string <$> ss)) -> ss !! i = Some s ->
  bytes_at l (top - Z.of_nat (length (concat (c_string <$> drop i ss)))) (c_string s).
Proof.
  intros Hb Hi. rewrite <- (take_drop i ss) in Hb. rewrite fmap_app, concat_app, length_app in Hb. rewrite bytes_at_app in Hb. destruct Hb as [_ Hb].
  replace (top - _ + _) with (top - Z.of_nat (length (concat (c_string <$> drop i ss)))) in Hb by lia.
  rewrite (drop_S ss s i Hi) in Hb |- *. cbn [fmap list_fmap concat] in Hb |- *. by apply bytes_at_app in Hb as [? _].
Qed.

(** The auxiliary vector, from its lowest address on. *)
Definition aux_vector (e : ELF) (phdr argv0 random : Z) : list (Z * Z) :=
  (match Elf.interpreter_name e with
   | None => []
   | Some _ => [(AT_ENTRY, Elf.e_entry (Elf.global_hdr e)); (AT_EXECFN, argv0); (AT_PHNUM, Elf.e_phnum (Elf.global_hdr e));
                (AT_PHENT, Elf.e_phentsize (Elf.global_hdr e)); (AT_PHDR, phdr)]
   end) ++ [(AT_RANDOM, random); (AT_SECURE, 0); (AT_PAGESZ, PAGE_SIZE); (AT_NULL, 0)].

Definition aux_bytes (av : list (Z * Z)) : list Z := concat ((fun p => auxv p.1 p.2) <$> av).

(** What is on the stack when the process starts, from its top to [stack_end]. *)
Definition strings_size (ss : list (list Z)) : Z := Z.of_nat (length (concat (c_string <$> ss))).
Definition argv0_addr (args : list (list Z)) : Z := stack_end - strings_size args.
Definition random_addr (args envp : list (list Z)) : Z := argv0_addr args - strings_size envp - 16.
Definition stack_bytes (e : ELF) (phdr : Z) (args envp : list (list Z)) (random : list Z) : list Z :=
  le32 (Z.of_nat (length args)) ++ concat (le32 <$> addrs stack_end args) ++ [0; 0; 0; 0] ++
  concat (le32 <$> addrs (argv0_addr args) envp) ++ [0; 0; 0; 0] ++
  aux_bytes (aux_vector e phdr (argv0_addr args) (random_addr args envp)) ++ random ++
  concat (c_string <$> envp) ++ concat (c_string <$> args).

(** The program headers' address is only looked up when there is an interpreter. *)
Definition phdr_known (f : list Z) (e : ELF) (phdr : Z) : Prop :=
  Elf.interpreter_name e <> None -> find_phdr f e = Ok phdr /\ phdr <> Elf.ELF32_ADDR_ERR.

Lemma length_auxv t v : length (auxv t v) = 8%nat.
Proof. unfold auxv. by rewrite length_app, !length_le32. Qed.

Lemma concat_c_strings ss : concat (rev (c_string <$> rev ss)) = concat (c_string <$> ss).
Proof. f_equal. induction ss as [|s ss IH]; [done|]. cbn [rev]. rewrite fmap_app, rev_app_distr, IH. done. Qed.

Lemma write_auxv_ok l r R g f e phdr argv0 random m top bs : g ∈ R -> stack_end < (r_page g + r_len g) * 4096 ->
  pushed l r R m top bs -> r_page g * 4096 <= top - Z.of_nat (length (aux_bytes (aux_vector e phdr argv0 random))) -> phdr_known f e phdr ->
  exists m', write_auxv f (allocations l) e argv0 random (m, top) = Ok (m', top - Z.of_nat (length (aux_bytes (aux_vector e phdr argv0 random)))) /\
    pushed l r R m' (top - Z.of_nat (length (aux_bytes (aux_vector e phdr argv0 random)))) (aux_bytes (aux_vector e phdr argv0 random) ++ bs).
Proof.
  intros Hg Hge Hp Hroom Hph. unfold write_auxv, aux_vector in *.
  set (cs := [auxv AT_NULL 0; auxv AT_PAGESZ PAGE_SIZE; auxv AT_SECURE 0; auxv AT_RANDOM random]).
  assert (length (concat cs) = 32%nat) as Hcs by done.
  assert (32 <= Z.of_nat (length (aux_bytes (aux_vector e phdr argv0 random)))) as Hlen by (unfold aux_vector; destruct (Elf.interpreter_name e); cbn; lia).
  unfold aux_vector in Hlen. destruct (push_all l r R g Hg Hge cs m top bs Hp) as (m1 & -> & Hp1); [lia|]. run. rewrite Hcs in *.
  destruct (Elf.interpreter_name e) eqn:Hint.
  - destruct (Hph) as [-> Hne]; [by rewrite Hint|]. run. rewrite (proj2 (Z.eqb_neq _ _) Hne). cbn [negb]. run.
    set (ds := [_; _; _; _; _]). assert (length (concat ds) = 40%nat) as Hds by done.
    destruct (push_all l r R g Hg Hge ds m1 _ _ Hp1) as (m2 & -> & Hp2); [rewrite Hds; cbn in Hroom; lia|]. rewrite Hds in *. exists m2.
    replace (top - Z.of_nat 32 - Z.of_nat 40) with (top - Z.of_nat 72) in * by lia. split; [done|]. exact Hp2.
  - exists m1. split; [done|]. exact Hp1.
Qed.

(** The sequence of writes leaves these bytes. *)
Lemma write_args_ok l r R g f e phdr args envp random tail : inv l r R -> g ∈ R -> stack_end < (r_page g + r_len g) * 4096 ->
  phdr_known f e phdr -> length random = 16%nat -> tail = [] \/ tail = [None] ->
  r_page g * 4096 <= stack_end - Z.of_nat (length (stack_bytes e phdr args envp random)) ->
  exists m', write_args_to_stack f e ((Some <$> args) ++ tail) envp random l = Ok (m', stack_end - Z.of_nat (length (stack_bytes e phdr args envp random))) /\
    pushed l r R m' (stack_end - Z.of_nat (length (stack_bytes e phdr args envp random))) (stack_bytes e phdr args envp random).
Proof.
  intros Hinv Hg Hge Hph Hrnd Htail Hroom. pose proof (inv_region _ _ _ _ Hinv Hg) as (Hg1 & _ & Hg3 & _). unfold U_PAGES in Hg3.
  assert (match last ((Some <$> args) ++ tail) with Some None => removelast ((Some <$> args) ++ tail) | _ => (Some <$> args) ++ tail end = Some <$> args) as Hargs.
  { destruct Htail as [-> | ->].
    - rewrite app_nil_r. rewrite fmap_last. by destruct (last args).
    - rewrite last_snoc, removelast_last. done. }
  unfold write_args_to_stack. cbv zeta. rewrite Hargs. assert (mapM id (Some <$> args) = Some args) as -> by (clear; induction args; [done|]; cbn in *; by rewrite IHargs).
  run. unfold stack_bytes in Hroom. rewrite !length_app in Hroom.
  set (A := concat (c_string <$> args)) in *. set (E := concat (c_string <$> envp)) in *.
  assert (pushed l r R (kmem l) stack_end []) as Hp0.
  { split; [by destruct l|]. split; [cbn; lia|]. split; [intros j Hj; cbn in Hj; lia|]. intros. by destruct l. }
  destruct (push_all l r R g Hg Hge (c_string <$> rev args) _ _ _ Hp0) as (m1 & Hw1 & Hp1).
  { rewrite length_concat_rev. fold A. lia. }
  rewrite length_concat_rev in Hw1, Hp1. rewrite concat_c_strings in Hp1. fold A in Hw1, Hp1. rewrite Hw1. run. cbn [snd].
  change (stack_end - Z.of_nat (length A)) with (argv0_addr args) in *. rewrite app_nil_r in Hp1.
  destruct (push_all l r R g Hg Hge (c_string <$> rev envp) _ _ _ Hp1) as (m2 & Hw2 & Hp2).
  { rewrite length_concat_rev. fold E. unfold argv0_addr, strings_size. fold A. lia. }
  rewrite length_concat_rev in Hw2, Hp2. rewrite concat_c_strings in Hp2. fold E in Hw2, Hp2. rewrite Hw2. run. cbn [snd].
  destruct (push l r R g Hg Hge _ _ _ random Hp2) as (m3 & Hw3 & Hp3). { unfold argv0_addr, strings_size. fold A. lia. }
  rewrite Hw3. run. cbn [snd]. rewrite Hrnd in Hp3 |- *. change (argv0_addr args - Z.of_nat (length E) - Z.of_nat 16) with (random_addr args envp) in *.
  destruct (write_auxv_ok l r R g f e phdr (argv0_addr args) (random_addr args envp) m3 _ _ Hg Hge Hp3) as (m4 & Hw4 & Hp4); [|done|].
  { unfold random_addr, argv0_addr, strings_size in *. fold A E in Hroom |- *. lia. }
  rewrite Hw4. run. set (X := aux_bytes _) in *. assert (Z.of_nat (length X) >= 0) by lia.
  assert (random_addr args envp = stack_end - Z.of_nat (length A) - Z.of_nat (length E) - 16) as Era by done.
  destruct (push l r R g Hg Hge _ _ _ [0; 0; 0; 0] Hp4) as (m5 & Hw5 & Hp5); [cbn [length] in *; lia|]. rewrite Hw5. run.
  assert (rev (pointers (argv0_addr args) (rev envp)) = le32 <$> addrs (argv0_addr args) envp) as Epe.
  { apply rev_pointers. fold E. unfold argv0_addr, strings_size, stack_end, KERNEL_VIRTUAL_BASE in *. fold A in Hroom |- *. lia. }
  assert (rev (pointers stack_end (rev args)) = le32 <$> addrs stack_end args) as Epa.
  { apply rev_pointers. fold A. unfold stack_end, KERNEL_VIRTUAL_BASE in *. lia. }
  assert (forall (x : list (list Z)), length (concat x) = length (concat (rev x))) as Hrev.
  { clear. induction x as [|y x IH]; [done|]. cbn [rev concat]. rewrite concat_app, !length_app, IH. cbn [concat]. rewrite app_nil_r. lia. }
  destruct (push_all l r R g Hg Hge (pointers (argv0_addr args) (rev envp)) _ _ _ Hp5) as (m6 & Hw6 & Hp6).
  { rewrite (Hrev (pointers (argv0_addr args) (rev envp))), Epe. cbn [length] in *. lia. }
  rewrite Hw6. run. rewrite Epe in Hp6. rewrite (Hrev (pointers _ _)), Epe in Hp6 |- *.
  destruct (push l r R g Hg Hge _ _ _ [0; 0; 0; 0] Hp6) as (m7 & Hw7 & Hp7); [cbn [length] in *; lia|]. rewrite Hw7. run.
  destruct (push_all l r R g Hg Hge (pointers stack_end (rev args)) _ _ _ Hp7) as (m8 & Hw8 & Hp8).
  { rewrite (Hrev (pointers stack_end (rev args))), Epa. cbn [length] in *. lia. }
  rewrite Hw8. run. rewrite Epa in Hp8. rewrite (Hrev (pointers stack_end _)), Epa in Hp8 |- *.
  destruct (push l r R g Hg Hge _ _ _ (le32 (Z.of_nat (length args))) Hp8) as (m9 & Hw9 & Hp9); [cbn [length] in *; rewrite length_le32 in *; lia|]. rewrite Hw9.
  exists m9. assert (forall x y, x = y -> pushed l r R m9 x (le32 (Z.of_nat (length args)) ++ concat (le32 <$> addrs stack_end args) ++ [0; 0; 0; 0] ++
    concat (le32 <$> addrs (argv0_addr args) envp) ++ [0; 0; 0; 0] ++ X ++ random ++ E ++ A) -> pushed l r R m9 y (stack_bytes e phdr args envp random)) as Hfin by (by intros x y ->).
  match type of Hp9 with pushed _ _ _ _ ?x _ => assert (x = stack_end - Z.of_nat (length (stack_bytes e phdr args envp random))) as Ex end.
  { unfold stack_bytes. fold A E X. rewrite !length_app, Hrnd. cbn [length]. lia. }
  rewrite Ex in *. split; [done|]. apply (Hfin _ _ eq_refl). rewrite ?app_nil_r in Hp9. done.
Qed.

(** What the ABI asks for: the count, the pointers to the arguments and a zero, those to the environment and a zero, the auxiliary vector. *)
Definition abi_stack (l : loader) (sp : Z) (args envp : list (list Z)) (av : list (Z * Z)) : Prop :=
  let n := Z.of_nat (length args) in
  let k := Z.of_nat (length envp) in
  word l sp = n /\ (forall i s, args !! i = Some s -> bytes_at l (word l (sp + 4 + 4 * Z.of_nat i)) (c_string s)) /\ word l (sp + 4 + 4 * n) = 0 /\
  (forall i s, envp !! i = Some s -> bytes_at l (word l (sp + 8 + 4 * n + 4 * Z.of_nat i)) (c_string s)) /\ word l (sp + 8 + 4 * n + 4 * k) = 0 /\
  forall i t v, av !! i = Some (t, v) -> word l (sp + 12 + 4 * n + 4 * k + 8 * Z.of_nat i) = t /\ word l (sp + 12 + 4 * n + 4 * k + 8 * Z.of_nat i + 4) = v.

Lemma length_words vs : Z.of_nat (length (concat (le32 <$> vs))) = 4 * Z.of_nat (length vs).
Proof. induction vs as [|v vs IH]; [done|]. cbn [fmap list_fmap concat length]. rewrite length_app, length_le32. fold (fmap le32 vs). lia. Qed.

Lemma word_zero l a : bytes_at l a [0; 0; 0; 0] -> word l a = 0.
Proof. intros Hb. apply word_at; [split; done|]. exact Hb. Qed.

Lemma stack_bytes_abi l e phdr args envp random : let sp := stack_end - Z.of_nat (length (stack_bytes e phdr args envp random)) in
  bytes_at l sp (stack_bytes e phdr args envp random) -> length random = 16%nat -> 0 <= sp ->
  Forall (fun p => is_u32 p.1 /\ is_u32 p.2) (aux_vector e phdr (argv0_addr args) (random_addr args envp)) ->
  abi_stack l sp args envp (aux_vector e phdr (argv0_addr args) (random_addr args envp)) /\ bytes_at l (random_addr args envp) random.
Proof.
  intros sp Hb Hrnd Hsp Hav. unfold stack_bytes in Hb. rewrite !bytes_at_app, !length_le32, !length_words, !length_addrs, Hrnd in Hb. cbn [length] in Hb.
  change (Z.of_nat 4) with 4 in Hb. change (Z.of_nat 16) with 16 in Hb.
  destruct Hb as (Hc & Ha & Hz1 & He & Hz2 & Hx & Hr & Hes & Has). set (av := aux_vector _ _ _ _) in *.
  assert (sp + 12 + 4 * Z.of_nat (length args) + 4 * Z.of_nat (length envp) + Z.of_nat (length (aux_bytes av)) = random_addr args envp) as Era.
  { subst sp. unfold stack_bytes. fold av. rewrite !length_app, !Nat2Z.inj_add, !length_words, !length_addrs, !length_le32, Hrnd. cbn [length].
    unfold random_addr, argv0_addr, strings_size. lia. }
  assert (random_addr args envp + 16 + strings_size envp = argv0_addr args) as Ee by (unfold random_addr; lia).
  assert (argv0_addr args + strings_size args = stack_end) as Ea by (unfold argv0_addr; lia).
  assert (0 <= strings_size args /\ 0 <= strings_size envp) as [Hs1 Hs2] by (unfold strings_size; lia).
  assert (stack_end < 4294967296) by done.
  unfold abi_stack. split; [split_and!|].
  - apply word_at; [|done]. unfold is_u32. lia.
  - intros i s Hi. rewrite (words_at l _ _ i _ (addrs_u32 stack_end args ltac:(lia) ltac:(unfold strings_size in *; lia)) Ha (addrs_lookup _ _ _ _ Hi)).
    apply string_at; [|done]. fold (strings_size args). change (stack_end - strings_size args) with (argv0_addr args). unfold strings_size in Ee.
    replace (argv0_addr args) with (sp + 4 + 4 * Z.of_nat (length args) + 4 + 4 * Z.of_nat (length envp) + 4 + Z.of_nat (length (aux_bytes av)) + 16 + Z.of_nat (length (concat (c_string <$> envp)))) by lia.
    exact Has.
  - apply word_zero. exact Hz1.
  - intros i s Hi. replace (sp + 8 + 4 * Z.of_nat (length args)) with (sp + 4 + 4 * Z.of_nat (length args) + 4) by lia.
    rewrite (words_at l _ _ i _ (addrs_u32 (argv0_addr args) envp ltac:(unfold argv0_addr in *; lia) ltac:(unfold strings_size in *; lia)) He (addrs_lookup _ _ _ _ Hi)).
    apply string_at; [|done]. fold (strings_size envp).
    replace (argv0_addr args - strings_size envp) with (sp + 4 + 4 * Z.of_nat (length args) + 4 + 4 * Z.of_nat (length envp) + 4 + Z.of_nat (length (aux_bytes av)) + 16) by lia. exact Hes.
  - apply word_zero. replace (sp + 8 + 4 * Z.of_nat (length args) + 4 * Z.of_nat (length envp)) with (sp + 4 + 4 * Z.of_nat (length args) + 4 + 4 * Z.of_nat (length envp)) by lia. exact Hz2.
  - intros i t v Hi. destruct (Elf.table_split (fun p => auxv p.1 p.2) 8 av i (t, v)) as (pre & post & E & Hpre); [intros y; apply length_auxv|done|].
    unfold aux_bytes in Hx. rewrite E in Hx. rewrite !bytes_at_app in Hx. destruct Hx as (_ & Hx & _). cbn [fst snd] in Hx. unfold auxv in Hx. rewrite bytes_at_app, length_le32 in Hx.
    destruct (Forall_lookup_1 _ _ _ _ Hav Hi) as [Ht Hv]. cbn [fst snd] in Ht, Hv.
    replace (sp + 12 + 4 * Z.of_nat (length args) + 4 * Z.of_nat (length envp) + 8 * Z.of_nat i) with (sp + 4 + 4 * Z.of_nat (length args) + 4 + 4 * Z.of_nat (length envp) + 4 + Z.of_nat (length pre)) by lia.
    split; apply word_at; [done|apply Hx|done|apply Hx].
  - replace (random_addr args envp) with (sp + 4 + 4 * Z.of_nat (length args) + 4 + 4 * Z.of_nat (length envp) + 4 + Z.of_nat (length (aux_bytes av))) by lia. exact Hr.
Qed.

(** The arguments reach the process.  When they fit on the stack, they are written (a null pointer at the end of [argv] is left out), and the new
    process finds at its stack pointer what the ABI asks for: the number of arguments, pointers to them and to the environment, each list
    ended by a zero, the strings behind the pointers, and the auxiliary vector, which ends with [AT_NULL]; nothing above the stack pointer's
    page range and no other region is touched. *)
Lemma arguments_on_stack l r R g f e phdr args envp random tail :
  inv l r R -> g ∈ R -> stack_end < (r_page g + r_len g) * 4096 -> phdr_known f e phdr -> length random = 16%nat -> tail = [] \/ tail = [None] ->
  Forall (fun p => is_u32 p.1 /\ is_u32 p.2) (aux_vector e phdr (argv0_addr args) (random_addr args envp)) ->
  r_page g * 4096 <= stack_end - Z.of_nat (length (stack_bytes e phdr args envp random)) ->
  exists m sp, write_args_to_stack f e ((Some <$> args) ++ tail) envp random l = Ok (m, sp) /\ r_page g * 4096 <= sp /\
    let l' := set_kmem l m in
    inv l' r R /\ abi_stack l' sp args envp (aux_vector e phdr (argv0_addr args) (random_addr args envp)) /\
    bytes_at l' (random_addr args envp) random /\
    forall g' a, g' ∈ R -> in_region g' a -> ~ sp <= a < stack_end -> uview l' a = uview l a.
Proof.
  intros Hinv Hg Hge Hph Hrnd Htail Hav Hroom. destruct (write_args_ok l r R g f e phdr args envp random tail) as (m & Hw & Hinv' & _ & Hb & Hsame); [done..|].
  pose proof (inv_region _ _ _ _ Hinv Hg) as (Hg1 & _). eexists m, _. split; [done|]. split; [done|]. cbv zeta.
  destruct (stack_bytes_abi (set_kmem l m) e phdr args envp random) as [Habi Hr]; [done|done|lia|done|]. done.
Qed.

(** ** Stacks and directory *)

Lemma frame_of_zero e : frame_of (Z.lor e 0) = frame_of e.
Proof. by rewrite Z.lor_0_r. Qed.

Lemma allocate_stack_ok l r R n page user policy : inv l r R -> 2 <= n <= r -> 0 <= page -> page + n <= U_PAGES ->
  (forall g, g ∈ R -> apart (r_page g) (r_len g) page n) ->
  exists l' b, allocate_stack o n page (n * 4096) user policy l = Ok l' /\ inv l' (r - n) (R ++ [mkRegion page n b]) /\
    (forall g a, g ∈ R -> in_region g a -> uview l' a = uview l a) /\
    (forall i, ~ page <= i < page + n -> entry (ptables l') i = entry (ptables l) i) /\
    num_pages l' = num_pages l /\ elf_dep_list l' = elf_dep_list l /\ pdt l' = pdt l /\ tables_addr l' = tables_addr l.
Proof.
  intros Hinv Hn Hp Hfit Hfree. unfold U_PAGES in Hfit.
  destruct (new_region l r R n page 0 (Z.lor (MAP_ANONYMOUS o) (MAP_PRIVATE o)) user 0 Hinv) as (t & m & b & pt & Hk & Hb & Hbn & Hfd & Hmp & Hkap & Hold & Hwr & Hpt & Hnew);
    [lia|unfold cost; lia|right; split; [done|lia]|by right|done|done|done|intros e; apply present_user|apply frame_of_zero|].
  unfold allocate_stack. rewrite Hk. run. unfold truthy. rewrite (proj2 (Z.eqb_neq _ _)) by lia. cbn [negb]. run.
  unfold ADDR_PAGE. rewrite shift_page, Z.div_mul, Hmp by lia. run. eexists _, b. split; [done|]. split; [|split; [|split; [|done]]].
  - replace (r - n) with (r - cost n) by (unfold cost; lia). apply Hnew. unfold region_of. cbn. rewrite !shiftl_page, !u32_id by (unfold is_u32; lia). done.
  - intros g a Hg Ha. apply (old_view l _ g a); [done|done|]. intros i Hi. cbn [ptables add_alloc set_ptables]. rewrite Hpt, decide_False; [done|].
    specialize (Hfree g Hg). unfold apart in Hfree. lia.
  - intros i Hi. cbn [ptables add_alloc set_ptables]. by rewrite Hpt, decide_False.
Qed.

(** The directory is the only thing that its loops change. *)
Lemma inv_pdt l r R d : inv l r R -> inv (set_pdt l d) r R.
Proof. intros []. by constructor. Qed.

Definition in_directory (d : list Z) (i : Z) : Prop := exists a, d !! Z.to_nat i = Some (Z.lor a USER_TABLE).

Lemma set_directory_ok l i table bits : frames_ok (kmem l) -> is_u32 table -> length (pdt l) = 1024%nat -> 0 <= i < 1024 ->
  exists a, set_directory l i table bits = Ok (set_pdt l (<[Z.to_nat i := Z.lor a bits]> (pdt l))).
Proof.
  intros Hok Ht Hl Hi. unfold set_directory, PHYS_ADDR. fold (ADDR_PAGE table). rewrite (PTE_in _ _ (proj1 (proj1 Hok)) (ADDR_PAGE_range table Ht)). run.
  rewrite bool_decide_true by lia. run. eexists. done.
Qed.

Lemma setup_pdt_ok l r R kt : inv l r R -> length (pdt l) = 1024%nat -> 0 <= num_pages l <= U_PAGES ->
  exists d, setup_pdt kt l = Ok (set_pdt l d) /\ length d = 1024%nat /\ forall i, 0 <= i -> i * 1024 < num_pages l -> in_directory d i.
Proof.
  intros Hinv Hl Hn. destruct (room_frames _ _ _ (inv_room _ _ _ Hinv)) as [Hok _]. unfold setup_pdt, PT_ENTRIES. change (1024 - 1) with 1023.
  rewrite u32_id by (unfold is_u32, U_PAGES in *; lia). set (k := Z.to_nat ((num_pages l + 1023) / 1024)).
  assert (Z.of_nat k = (num_pages l + 1023) / 1024) as Ek by (unfold k; rewrite Z2Nat.id; [done|apply Z.div_pos; lia]).
  assert (Z.of_nat k <= 768) as Hk by (rewrite Ek; apply Z.lt_succ_r, Z.div_lt_upper_bound; unfold U_PAGES in *; lia).
  destruct (for_loop_inv (fun i l' => exists d, l' = set_pdt l d /\ length d = 1024%nat /\ forall j, 0 <= j < Z.of_nat i -> in_directory d j) k
    (fun i l => set_directory l (Z.of_nat i) (tables_addr l +u 4096 * Z.of_nat i) USER_TABLE) l) as (l1 & -> & d1 & -> & Hl1 & Hd1).
  { exists (pdt l). split; [by destruct l|]. split; [done|lia]. }
  { intros i l' Hi (d & -> & Hd & Hj). destruct (set_directory_ok (set_pdt l d) (Z.of_nat i) (tables_addr (set_pdt l d) +u 4096 * Z.of_nat i) USER_TABLE) as [a ->];
      [done|apply u32_range|done|lia|]. eexists. split; [done|]. eexists. split; [done|]. split; [by rewrite length_insert|]. intros j Hj'. unfold in_directory. cbn [pdt set_pdt].
    destruct (decide (j = Z.of_nat i)) as [->|]; [rewrite list_lookup_insert_eq by lia; eauto|]. rewrite list_lookup_insert_ne by lia. apply Hj. lia. }
  run. destruct (for_loop_inv (fun i l' => exists d, l' = set_pdt l d /\ length d = 1024%nat /\ forall j, 0 <= j < Z.of_nat k -> in_directory d j) (768 - k)
    (fun i l => d ← deref (if bool_decide (k + i < length (pdt l))%nat then Some (<[(k + i)%nat := 0]> (pdt l)) else None); Ok (set_pdt l d)) (set_pdt l d1)) as (l2 & -> & d2 & -> & Hl2 & Hd2).
  { by exists d1. }
  { intros i l' Hi (d & -> & Hd & Hj). cbn [pdt set_pdt]. rewrite bool_decide_true by lia. run. eexists. split; [done|]. eexists. split; [done|]. split; [by rewrite length_insert|].
    intros j Hj'. unfold in_directory. rewrite list_lookup_insert_ne by lia. by apply Hj. }
  run. destruct (for_loop_inv (fun i l' => exists d, l' = set_pdt l d /\ length d = 1024%nat /\ forall j, 0 <= j < Z.of_nat k -> in_directory d j) 256
    (fun i l => set_directory l (768 + Z.of_nat i) (kt +u 4096 * (768 + Z.of_nat i)) (Z.lor PAGE_WRITE PAGE_PRESENT)) (set_pdt l d2)) as (l3 & -> & d3 & -> & Hl3 & Hd3).
  { by exists d2. }
  { intros i l' Hi (d & -> & Hd & Hj). destruct (set_directory_ok (set_pdt l d) (768 + Z.of_nat i) (kt +u 4096 * (768 + Z.of_nat i)) (Z.lor PAGE_WRITE PAGE_PRESENT)) as [a ->];
      [done|apply u32_range|done|lia|]. eexists. split; [done|]. eexists. split; [done|]. split; [by rewrite length_insert|]. intros j Hj'. unfold in_directory. cbn [pdt set_pdt].
    rewrite list_lookup_insert_ne by lia. by apply Hj. }
  exists d3. split; [done|]. split; [done|]. intros i Hi Hlt. apply Hd3. rewrite Ek. split; [done|]. apply Z.lt_le_trans with (i + 1); [lia|]. apply Z.div_le_lower_bound; lia.
Qed.

(** The two stacks at the top of the process's addresses. *)
Definition stack_region (b : Z) : region := mkRegion 786304 128 b.
Definition kstack_region (b : Z) : region := mkRegion 786302 2 b.

Lemma allocate_stacks_ok l r R : inv l r R -> 130 <= r -> length (pdt l) = 1024%nat -> (forall g, g ∈ R -> r_page g + r_len g <= 786302) ->
  exists l' b b', allocate_stacks o l = Ok l' /\ inv l' (r - 130) (R ++ [stack_region b; kstack_region b']) /\
    (forall g a, g ∈ R -> in_region g a -> uview l' a = uview l a) /\ (forall i, i < 786302 -> entry (ptables l') i = entry (ptables l) i) /\
    elf_dep_list l' = elf_dep_list l /\ length (pdt l') = 1024%nat /\ in_directory (pdt l') 767 /\
    (forall i, i <> 767 -> 0 <= i -> in_directory (pdt l) i -> in_directory (pdt l') i).
Proof.
  intros Hinv Hr Hl Hbelow. unfold allocate_stacks, PROCESS_STACK_N_PAGES, PROCESS_SYSCALL_STACK_N_PAGES, PROCESS_STACK_SIZE, PROCESS_SYSCALL_STACK_SIZE, PROCESS_N_STACKS_PAGES, PAGE_SIZE, PT_ENTRIES.
  change (768 * 1024 - 524288 / 4096 - 8192 / 4096) with 786302. change (768 * 1024 - 524288 / 4096) with 786304. change 524288 with (128 * 4096) at 2. change 8192 with (2 * 4096) at 2.
  change (524288 / 4096) with 128. change (8192 / 4096) with 2.
  destruct (allocate_stack_ok l r R 128 786304 true DEFAULT_U_POLICY Hinv) as (l1 & b & -> & Hinv1 & Hv1 & He1 & Hn1 & Hd1 & Hp1 & Ht1); [lia|lia|done| |].
  { intros g Hg. specialize (Hbelow g Hg). left. lia. }
  run. destruct (allocate_stack_ok l1 _ _ 2 786302 false DEFAULT_K_POLICY Hinv1) as (l2 & b' & -> & Hinv2 & Hv2 & He2 & Hn2 & Hd2 & Hp2 & Ht2); [lia|lia|done| |].
  { intros g [Hg|Hg]%elem_of_app; [specialize (Hbelow g Hg); left; lia|]. apply list_elem_of_singleton in Hg as ->. right. cbn. lia. }
  run. change (Z.to_nat ((PROCESS_STACK_N_PAGES + PROCESS_SYSCALL_STACK_N_PAGES + 1024 - 1) / 1024)) with 1%nat. change (Z.to_nat ((128 + 2 + 1024 - 1) / 1024)) with 1%nat. unfold for_loop. cbn [for_from]. change (767 - Z.of_nat 0) with 767.
  rewrite <- Hp1, <- Hp2 in Hl. destruct (room_frames _ _ _ (inv_room _ _ _ Hinv2)) as [Hok _].
  destruct (set_directory_ok l2 767 (tables_addr l2 +u 4096 * 767) USER_TABLE Hok ltac:(apply u32_range) Hl ltac:(lia)) as [a ->]. run.
  eexists _, b, b'. split; [done|]. rewrite <- app_assoc in Hinv2. replace (r - 128 - 2) with (r - 130) in Hinv2 by lia. split; [by apply inv_pdt|].
  split; [|split; [|split; [cbn; congruence|split; [by cbn [pdt set_pdt]; rewrite length_insert|split]]]].
  - intros g x Hg Hx. change (uview (set_pdt l2 ?d) x) with (uview l2 x). rewrite (Hv2 g x) by (done || (apply elem_of_app; by left)). by apply (Hv1 g).
  - intros i Hi. cbn [ptables set_pdt]. rewrite He2, He1 by lia. done.
  - eexists. cbn [pdt set_pdt]. rewrite list_lookup_insert_eq by (rewrite Hl; lia). done.
  - intros i Hne Hi0 [x Hx]. exists x. cbn [pdt set_pdt]. rewrite list_lookup_insert_ne by lia. by rewrite Hp2, Hp1.
Qed.

(** The pages of the program, counted from address 0. *)
Lemma num_pages_bound f e h phs shs n : Elf.represents f h phs shs -> Elf.about h e -> Forall Elf.fits phs -> Forall (seg_ok 0) (loads phs) ->
  Elf.num_pages f e = Ok n -> 0 <= n <= U_PAGES /\ forall p, p ∈ loads phs -> seg_page 0 p + seg_len p <= n.
Proof.
  intros Hrep He Hfit Hseg Hn. rewrite (Elf.num_pages_ok f h phs shs Hrep e He Hfit) in Hn. injection Hn as <-. pose proof (Elf.highest_fits phs Hfit) as [Hh0 Hh1].
  assert (Elf.highest phs <= 3221225472) as Htop.
  { assert (forall l a, Forall (seg_ok 0) (loads l) -> a <= 3221225472 ->
      foldl (fun a p => if Elf.is_load p then Z.max a (Elf.p_vaddr p + Elf.p_memsz p) else a) a l <= 3221225472) as Hgo; [|by apply Hgo].
    clear. induction l as [|p l IH]; intros a Hseg Ha; cbn [foldl]; [done|]. apply IH; [unfold loads in *; rewrite filter_cons in Hseg; destruct (decide (Elf.p_type p = Elf.PT_LOAD)); [by apply Forall_cons in Hseg as [_ ?]|done]|].
    unfold Elf.is_load. destruct (Z.eqb_spec (Elf.p_type p) Elf.PT_LOAD) as [Ht|]; [|done]. unfold loads in Hseg. rewrite filter_cons, decide_True in Hseg by done.
    apply Forall_cons in Hseg as [Hp _]. pose proof (seg_bounds 0 p Hp). lia. }
  unfold Elf.PAGE_SIZE in *. change (4096 - 1) with 4095. rewrite u32_id by (unfold is_u32; lia). rewrite shift_page. split.
  - split; [apply Z.div_pos; lia|]. apply Z.lt_succ_r, Z.div_lt_upper_bound; unfold U_PAGES; lia.
  - intros p Hp. assert (p ∈ phs /\ Elf.p_type p = Elf.PT_LOAD) as [Hin Ht] by (apply list_elem_of_filter in Hp; tauto).
    rewrite Forall_forall in Hfit, Hseg. pose proof (Hfit p Hin) as Hf. pose proof (Hseg p Hp) as (_ & Hv & _ & Hm & _).
    destruct (Elf.segment_pages_fit p (Elf.highest phs) Hf) as (_ & _ & Hle); [apply Elf.highest_ge; [done|by apply Z.eqb_eq]|unfold Elf.PAGE_SIZE; lia|].
    unfold Elf.segment_pages, Elf.PAGE_SIZE in Hle. change (4096 - 1) with 4095 in Hle. unfold Elf.fits, Elf.PAGE_SIZE in Hf. rewrite !u32_id, !shift_page in Hle by (unfold is_u32; lia). exact Hle.
Qed.

(** Everything [build_process] promises of the process. *)
Record ready (f : list Z) (e : ELF) (phs : list Elf.Elf32_Phdr) (args envp : list (list Z)) (random : list Z) (l : loader) (st : stack_state) : Prop := {
  ready_loaded : Forall (loaded 0 f l) (loads phs);
  ready_permitted : Forall (permitted 0 (ptables l)) (loads phs);
  ready_directory : forall i, (exists p, p ∈ loads phs /\ seg_page 0 p <= i < seg_page 0 p + seg_len p) \/ 786302 <= i < U_PAGES -> in_directory (pdt l) (i / 1024);
  ready_entry : eip st = Elf.e_entry (Elf.global_hdr e);
  ready_stack : abi_stack l (esp st) args envp (aux_vector e 0 (argv0_addr args) (random_addr args envp));
  ready_random : bytes_at l (random_addr args envp) random
}.

(** The last phase, on a loaded program. *)
Lemma finalize_ok l r R f e phs args envp random tail kt n stale : inv l r R -> Forall2 (placed 0) (loads phs) R -> elf_dep_list l = [(e, 0)] ->
  Elf.interpreter_name e = None -> length (pdt l) = 1024%nat -> num_pages l = n -> 0 <= n <= U_PAGES ->
  Forall (loaded 0 f l) (loads phs) -> Forall (permitted 0 (ptables l)) (loads phs) -> Forall (seg_ok 0) (loads phs) ->
  (forall p, p ∈ loads phs -> seg_page 0 p + seg_len p <= n /\ seg_page 0 p + seg_len p <= 786302) -> 130 <= r ->
  length random = 16%nat -> tail = [] \/ tail = [None] -> Z.of_nat (length (stack_bytes e 0 args envp random)) <= 524284 ->
  exists l' st, finalize_process_setup o kt stale ((Some <$> args) ++ tail) envp random l = Ok (l', st) /\ ready f e phs args envp random l' st.
Proof.
  intros Hinv Hpl Hdep Hint Hlen Hnp Hn Hload Hperm Hseg Hbel Hr Hrnd Htail Hsize.
  assert (forall p, p ∈ loads phs -> exists g, g ∈ R /\ placed 0 p g) as Hreg.
  { intros p Hp. apply list_elem_of_lookup in Hp as [j Hj]. destruct (Forall2_lookup_l _ _ _ _ _ Hpl Hj) as (g & Hg & ?). exists g. split; [by eapply list_elem_of_lookup_2|done]. }
  assert (forall g, g ∈ R -> r_page g + r_len g <= 786302) as Hlow.
  { intros g Hg. apply list_elem_of_lookup in Hg as [j Hj]. destruct (Forall2_lookup_r _ _ _ _ _ Hpl Hj) as (p & Hp & [-> ->]). apply Hbel. by eapply list_elem_of_lookup_2. }
  unfold finalize_process_setup. destruct (setup_pdt_ok l r R kt Hinv Hlen) as (d & -> & Hd & Hdir); [by rewrite Hnp|]. run.
  destruct (allocate_stacks_ok (set_pdt l d) r R (inv_pdt _ _ _ d Hinv) Hr Hd Hlow) as (l1 & b & b' & -> & Hinv1 & Hv1 & He1 & Hdep1 & Hl1 & H767 & Hdir1). run.
  set (R1 := R ++ _) in *. assert (stack_region b ∈ R1) as Hg by (apply elem_of_app; right; by left).
  destruct (arguments_on_stack l1 _ R1 (stack_region b) stale e 0 args envp random tail Hinv1 Hg) as (m & sp & Hw & Hsp & Hinv2 & Habi & Hrand & Hsame); try done.
  { unfold aux_vector. rewrite Hint. cbn [app]. repeat apply Forall_cons_2; try apply Forall_nil_2; cbn [fst snd]; split; try (split; done).
    unfold is_u32, random_addr, argv0_addr, strings_size. unfold stack_bytes in Hsize. rewrite !length_app in Hsize. unfold stack_end, KERNEL_VIRTUAL_BASE. lia. }
  { cbn [r_page stack_region]. unfold stack_end, KERNEL_VIRTUAL_BASE. lia. }
  unfold setup_pcb. cbn [elf_dep_list set_pdt] in Hdep1. rewrite Hdep1, Hdep. cbn [lookup list_lookup]. run. rewrite Hint. run. rewrite Hw. run.
  eexists _, _. split; [done|]. constructor; cbn [eip esp]; try done.
  - apply Forall_forall. intros p Hp x Hx. rewrite Forall_forall in Hload, Hseg. destruct (Hreg p Hp) as (g & Hgr & Hgp).
    pose proof (seg_in_region 0 p g x (Hseg p Hp) Hgp Hx) as Hin. rewrite (Hsame g); [|apply elem_of_app; by left|done|].
    + rewrite (Hv1 g) by done. by apply (Hload p).
    + specialize (Hlow g Hgr). unfold in_region in Hin. cbn [r_page stack_region] in Hsp. lia.
  - apply Forall_forall. intros p Hp i Hi. rewrite Forall_forall in Hperm. destruct (Hbel p Hp). cbn [ptables set_kmem]. rewrite He1 by lia. by apply (Hperm p).
  - intros i [(p & Hp & Hi)|Hi].
    + destruct (Hbel p Hp) as [Hn1 Hn2]. rewrite Forall_forall in Hseg. pose proof (seg_bounds 0 p (Hseg p Hp)) as (Hs0 & _). cbn [pdt set_kmem].
      destruct (decide (i / 1024 = 767)) as [->|]; [done|]. assert (0 <= i / 1024) by (apply Z.div_pos; lia). apply Hdir1; [done|done|]. cbn [pdt set_pdt]. apply Hdir; [done|].
      pose proof (Z.mul_div_le i 1024). lia.
    + replace (i / 1024) with 767; [done|]. unfold U_PAGES in Hi. apply Z.div_unique with (i - 767 * 1024); lia.
Qed.


End correct.

(** ** An example *)

Definition two_segments : list Elf.Elf32_Phdr := [Elf.text_segment; Elf.data_segment 8192].
Definition two_segment_file : list Z := Elf.prog two_segments.
Definition no_browse (s : unit) (_ : list Z) : res (option unit * unit) := Ok (None, s).
Definition one_file (s : unit) (_ : unit) : res (option (list Z) * unit) := Ok (Some two_segment_file, s).

(** The values of Linux. *)
Definition linux_vm : vm_options := mkVm 32 32 2 1 16 1 2 22 12.
Lemma linux_vm_ok : vm_ok linux_vm.
Proof. by split. Qed.

(** A heap with a block in use and what is left of its two pages. *)
Definition boot_tree : atree :=
  Node Leaf (mkAlloc (lowest_free_pe boot_mem * 4096 - 4096) (lowest_free_pe boot_mem * 4096 - 4000) (mkInfo 34 3) true)
    (Node Leaf (mkAlloc (lowest_free_pe boot_mem * 4096 - 4000) (lowest_free_pe boot_mem * 4096) (mkInfo 34 3) false) Leaf).

Lemma boot_sbrk : sbrk_room boot_mem 200.
Proof.
  split; [apply boot_frames_ok|]. split; [lia|]. split.
  - exists 4097. unfold fresh. cbn [lowest_free_frame boot_mem]. split; [lia|]. split; [done|]. split; [lia|]. intros k Hk.
    unfold page_of_frame, PageAlloc.rc, boot_mem. cbn [frame_to_page frame_rc]. rewrite !lookup_singleton_ne by lia. done.
  - cbn [lowest_free_pe boot_mem]. split; [lia|]. split; [done|]. intros k Hk. unfold is_used, entry, boot_mem. cbn [page_tables entries].
    rewrite lookup_singleton_ne by lia. done.
Qed.

Lemma boot_room : room boot_tree boot_mem 200.
Proof.
  split; [apply boot_sbrk|]. split; [|repeat constructor; vm_compute; congruence].
  split; repeat constructor; vm_compute; congruence.
Qed.

Lemma boot_data : data_ok boot_mem.
Proof. intros f. unfold contents, boot_mem. cbn [frame_data]. rewrite lookup_empty. cbn [default]. apply length_replicate. Qed.

Lemma two_segments_loaded : loads two_segments = two_segments.
Proof. reflexivity. Qed.

Lemma two_represents : Elf.represents two_segment_file (Elf.prog_ehdr 2) two_segments [Elf.null_section].
Proof. apply Elf.image_represents; [..|done|done|done|done]; repeat constructor; vm_compute; intuition congruence. Qed.

Lemma two_apart : segments_apart 0 two_segments.
Proof.
  assert (apart (seg_page 0 Elf.text_segment) (seg_len Elf.text_segment) (seg_page 0 (Elf.data_segment 8192)) (seg_len (Elf.data_segment 8192))) as Hap
    by (left; vm_compute; congruence).
  intros [|[|i]] [|[|j]] p q Hi Hj Hij; try discriminate; try (by destruct Hij); injection Hi as <-; injection Hj as <-; [done|]. unfold apart in *. lia.
Qed.


(** A region of one page, filled to its end. *)
Definition page_segment : Elf.Elf32_Phdr := Elf.mkPhdr Elf.PT_LOAD 0 4096 4096 4096 4096 5 4096.

Lemma full_page_panics_witness : exists l R, inv l 198 R /\ load_segment (replicate 4096 0) page_segment 0 l = Panic.
Proof.
  assert (inv (new_loader boot_tree boot_mem 3300000000 []) 200 []) as Hinv by (constructor; cbn; [apply boot_room|apply boot_data|done..]).
  destruct (new_region linux_vm linux_vm_ok (new_loader boot_tree boot_mem 3300000000 []) 200 [] 1 1 KERNEL_VIRTUAL_BASE 34 true PAGE_USER Hinv) as (t & m & b & pt & Hk & Hb & Hbn & Hfd & Hmp & Hkap & Hold & Hwr & Hpt & Hnew);
    [done|done|by left|by left|done|done|set_solver|intros e; apply present_user|apply frame_of_user|].
  specialize (Hnew (mkLoaded (mkAlloc 4096 8192 (mkInfo 34 0) true) (b * 4096)) ltac:(split_and!; done)).
  eexists _, _. split; [exact Hnew|]. apply (full_page_panics _ _ _ (replicate 4096 0) page_segment 0 (mkRegion 1 1 b) Hnew); [by left|done|by rewrite length_replicate|done..].
Defined.

End ElfLoader.
