(* ===== verification/ShParser.v ===== *)
(** * The parser of the shell ([programs/42sh/parser], [programs/42sh/ast], [programs/42sh/lexer/token.h])

    A recursive descent parser over a lexer with two tokens of lookahead.  The status that the functions share and the lexer are the
    state of a monad; the null pointer is [None].  Every recursion of the grammar goes through a compound list, which is the one
    recursive function; loops carry fuel.  The theorems show that a program that is printed is read back, that running out of fuel is
    a matter of the number of tokens, and what the parser does with input it should refuse. *)

From Stdlib Require Import String Ascii.
From stdpp Require Import base tactics numbers list sets.
From S2P Require Import Prelude.
Open Scope Z_scope.

Module ShParser.

(** ** Tokens *)

Inductive token_type :=
| TOKEN_AND | TOKEN_OR | TOKEN_REDIR_LG | TOKEN_REDIR_GO | TOKEN_REDIR_LA | TOKEN_REDIR_GA | TOKEN_REDIR_GG | TOKEN_REDIR_G | TOKEN_REDIR_L
| TOKEN_NOT | TOKEN_PIPE | TOKEN_SEMICOLON | TOKEN_NEWLINE | TOKEN_QUOTE | TOKEN_EOF | TOKEN_IONUMBER
| TOKEN_IF | TOKEN_THEN | TOKEN_ELIF | TOKEN_ELSE | TOKEN_FI | TOKEN_WHILE | TOKEN_UNTIL | TOKEN_DO | TOKEN_DONE | TOKEN_FOR
| TOKEN_CASE | TOKEN_IN | TOKEN_ESAC | TOKEN_RBRACE | TOKEN_LBRACE | TOKEN_RPAREN | TOKEN_LPAREN
| TOKEN_WORD | TOKEN_ASSIGNMENT_WORD | TOKEN_ERROR | TOKEN_EMPTY.

#[export] Instance token_type_eq_dec : EqDecision token_type.
Proof. solve_decision. Defined.

Abbreviation str := (list Z).
Record token := mkTok { type : token_type; value : option str }.

Definition isa (t : token) (ty : token_type) : bool := bool_decide (type t = ty).

(** What the parser uses of the lexer. *)
Class Lexer (L : Type) := {
  lexer_peek : L -> res (token * L);
  lexer_peek_2 : L -> res (token * L);
  lexer_pop : L -> res (token * L)
}.

(** ** Syntax trees *)

Record redir_info := mkRedir { r_type : token_type; r_fd : Z; r_word : str }.

(** The nodes that the parser builds ([AST_CASE] and [AST_ALIAS] have no rule).  The pointers [p1], [p2] and [p3] have the types that the
    comments of [ast.h] give them. *)
Inductive ast :=
| AST_STRING (s : str)
| AST_ARGV (argv : list str)
| AST_LIST (p1 p2 : option ast)
| AST_IF (p1 p2 p3 : option ast)
| AST_REDIR (p1 : redir_info) (p2 : option ast)
| AST_PIPE (p1 p2 : option ast)
| AST_NOT (p1 : option ast)
| AST_SUBSHELL (p1 : option ast)
| AST_WHILE (p1 p2 : option ast)
| AST_UNTIL (p1 p2 : option ast)
| AST_AND (p1 p2 : option ast)
| AST_OR (p1 p2 : option ast)
| AST_ASSIGN (p1 : str) (p2 : option ast)
| AST_FOR (p1 : option ast) (p2 : str) (p3 : list str)
| AST_FUNCDEF (p1 : str) (p2 : option ast).

(** [cur = head; while (cur->p2) cur = cur->p2; cur->p2 = next] on a chain of prefixes and redirections. *)
Fixpoint link (head : ast) (next : ast) : ast :=
  match head with
  | AST_REDIR i None => AST_REDIR i (Some next)
  | AST_REDIR i (Some n) => AST_REDIR i (Some (link n next))
  | AST_ASSIGN w None => AST_ASSIGN w (Some next)
  | AST_ASSIGN w (Some n) => AST_ASSIGN w (Some (link n next))
  | a => a
  end.
(** [a->p2 = next]. *)
Definition set_p2 (a : ast) (next : option ast) : ast :=
  match a with AST_REDIR i _ => AST_REDIR i next | AST_ASSIGN w _ => AST_ASSIGN w next | a => a end.

(** ** The monad *)

Inductive parser_status := PARSER_OK | PARSER_EOF | PARSER_UNEXPECTED_TOKEN.

#[export] Instance parser_status_eq_dec : EqDecision parser_status.
Proof. solve_decision. Defined.

Section parser.
Context {L : Type} `{Lexer L}.

Definition M (A : Type) : Type := parser_status * L -> res (A * (parser_status * L)).

#[global] Instance M_ret : MRet M := fun A a s => Ok (a, s).
#[global] Instance M_bind : MBind M := fun A B f m s => '(a, s) ← m s; f a s.

Definition peek : M token := fun '(st, l) => '(t, l) ← lexer_peek l; Ok (t, (st, l)).
Definition peek_2 : M token := fun '(st, l) => '(t, l) ← lexer_peek_2 l; Ok (t, (st, l)).
Definition pop : M token := fun '(st, l) => '(t, l) ← lexer_pop l; Ok (t, (st, l)).
Definition get_status : M parser_status := fun '(st, l) => Ok (st, (st, l)).
Definition set_status (st : parser_status) : M unit := fun '(_, l) => Ok (tt, (st, l)).
Definition fault {A} : M A := fun _ => Fault.
Definition no_fuel {A} : M A := fun _ => NoFuel.
Definition lift {A} (r : res A) : M A := fun s => a ← r; Ok (a, s).

(** Whether the last call reported an error. *)
Definition failed : M bool := st ← get_status; mret (bool_decide (st = PARSER_UNEXPECTED_TOKEN)).

(** [handle_error_parser]. *)
Definition handle_error_parser : M (option ast) := _ ← set_status PARSER_UNEXPECTED_TOKEN; mret None.

(** [try_rule]. *)
Definition try_rule (f : M (option ast)) : M (option ast) :=
  _ ← set_status PARSER_OK;
  a ← f;
  bad ← failed;
  if (bad : bool) then _ ← set_status PARSER_OK; mret None else mret a.

(** ** Words *)

Fixpoint ch (s : string) : str := match s with EmptyString => [] | String a s => Z.of_N (N_of_ascii a) :: ch s end.

(** The words that are keywords elsewhere. *)
Definition wordify_table : list (string * token_type) :=
  [("if"%string, TOKEN_IF); ("then"%string, TOKEN_THEN); ("else"%string, TOKEN_ELSE); ("elif"%string, TOKEN_ELIF); ("fi"%string, TOKEN_FI);
   ("do"%string, TOKEN_DO); ("done"%string, TOKEN_DONE); ("case"%string, TOKEN_CASE); ("esac"%string, TOKEN_ESAC); ("while"%string, TOKEN_WHILE);
   ("until"%string, TOKEN_UNTIL); ("for"%string, TOKEN_FOR); ("in"%string, TOKEN_IN); ("!"%string, TOKEN_NOT); ("{"%string, TOKEN_LBRACE);
   ("}"%string, TOKEN_RBRACE)].

(** [wordify(t, WORDIFY_POP)]: the token as a word; [WORDIFY_PEEK] only asks whether it is one. *)
Definition wordify (t : token) : token :=
  match list_find (fun p => p.2 = type t) wordify_table with Some (_, p) => mkTok TOKEN_WORD (Some (ch p.1)) | None => t end.
Definition wordy (t : token) : bool := isa (wordify t) TOKEN_WORD.

Definition pop_word : M str := t ← pop; lift (deref (value (wordify t))).

Fixpoint skip_newlines (fuel : nat) : M token :=
  t ← peek;
  if isa t TOKEN_NEWLINE then match fuel with O => no_fuel | S fuel => _ ← pop; skip_newlines fuel end else mret t.

(** ** Redirections and simple commands *)

Definition is_redir (t : token) : bool :=
  isa t TOKEN_REDIR_LG || isa t TOKEN_REDIR_GO || isa t TOKEN_REDIR_LA || isa t TOKEN_REDIR_GA || isa t TOKEN_REDIR_GG || isa t TOKEN_REDIR_G || isa t TOKEN_REDIR_L.

(** [atoi] on a string of digits. *)
Definition atoi (s : str) : Z := foldl (fun n c => n * 10 + (c - 48)) 0 s.

(** [parse_redirection]. *)
Definition parse_redirection : M (option ast) :=
  tok ← peek;
  fd ← (if isa tok TOKEN_IONUMBER then tok ← pop; v ← lift (deref (value tok)); mret (atoi v) else mret (-1));
  tok ← peek;
  if negb (is_redir tok) then handle_error_parser
  else
    tok ← pop;
    let ty := type tok in
    tok ← peek;
    if negb (wordy tok) then handle_error_parser
    else w ← pop_word; mret (Some (AST_REDIR (mkRedir ty fd w) None)).

(** [parse_element]. *)
Definition parse_element : M (option ast) :=
  _ ← set_status PARSER_OK;
  t ← peek;
  if wordy t then w ← pop_word; mret (Some (AST_STRING w)) else parse_redirection.

(** [equal_in]. *)
Definition equal_in (s : str) : bool := bool_decide (61 ∈ s).

(** [parse_prefix]. *)
Definition parse_prefix : M (option ast) :=
  _ ← set_status PARSER_OK;
  t ← peek;
  eq ← (if isa t TOKEN_WORD then v ← lift (deref (value t)); mret (equal_in v) else mret false);
  if (eq : bool) then t ← pop; v ← lift (deref (value t)); mret (Some (AST_ASSIGN v None)) else parse_redirection.

(** [get_prefix]. *)
Fixpoint get_prefix (fuel : nat) : M (option ast) :=
  prefix ← try_rule parse_prefix;
  match prefix with
  | None => mret None
  | Some p => match fuel with O => no_fuel | S fuel => next ← get_prefix fuel; mret (Some (set_p2 p next)) end
  end.

(** The loop of [get_args]: the words so far, the chain of redirections so far. *)
Fixpoint elements (fuel : nat) (argv : list str) (head : option ast) : M (option (list str * option ast)) :=
  elt ← try_rule parse_element;
  match elt with
  | None => mret (Some (argv, head))
  | Some e =>
      match fuel with
      | O => no_fuel
      | S fuel =>
          match e with
          | AST_STRING w => elements fuel (argv ++ [w]) head
          | AST_REDIR _ _ => elements fuel argv (Some (match head with None => e | Some h => link h e end))
          | _ => _ ← set_status PARSER_UNEXPECTED_TOKEN; mret None
          end
      end
  end.

(** [get_args]. *)
Definition get_args (fuel : nat) : M (option ast) :=
  t ← peek;
  if negb (isa t TOKEN_WORD) then mret None
  else
    t ← pop;
    v ← lift (deref (value t));
    r ← elements fuel [v] None;
    match r with
    | None => mret None
    | Some (argv, None) => mret (Some (AST_ARGV argv))
    | Some (argv, Some head) => mret (Some (link head (AST_ARGV argv)))
    end.

(** [parse_simple_command]. *)
Definition parse_simple_command (fuel : nat) : M (option ast) :=
  head ← get_prefix fuel;
  t ← peek;
  if negb (isa t TOKEN_WORD) then match head with Some h => mret (Some h) | None => handle_error_parser end
  else
    next ← get_args fuel;
    match next, head with
    | None, _ => handle_error_parser
    | Some n, Some h => mret (Some (link h n))
    | Some n, None => mret (Some n)
    end.

(** ** Compound commands, over the parser of compound lists *)

Section rules.
Context (fuel : nat) (parse_compound_list : M (option ast)).

(** The keyword [ty], which must come next. *)
Definition expect (ty : token_type) : M bool := t ← peek; if isa t ty then _ ← pop; mret true else mret false.

(** [parse_rule_while] and [parse_rule_until]: a condition and a body. *)
Definition parse_loop (ty : token_type) (node : option ast -> option ast -> ast) : M (option ast) :=
  ok ← expect ty;
  if negb ok then handle_error_parser
  else
    p1 ← parse_compound_list;
    bad ← failed;
    if (bad : bool) then handle_error_parser
    else
      ok ← expect TOKEN_DO;
      if negb ok then handle_error_parser
      else
        p2 ← parse_compound_list;
        bad ← failed;
        if (bad : bool) then handle_error_parser
        else
          ok ← expect TOKEN_DONE;
          if negb ok then handle_error_parser else mret (Some (node p1 p2)).
Definition parse_rule_while : M (option ast) := parse_loop TOKEN_WHILE AST_WHILE.
Definition parse_rule_until : M (option ast) := parse_loop TOKEN_UNTIL AST_UNTIL.

(** [parse_else_clause]. *)
Fixpoint parse_else_clause (n : nat) : M (option ast) :=
  _ ← set_status PARSER_OK;
  t ← peek;
  if isa t TOKEN_ELSE then _ ← pop; parse_compound_list
  else if isa t TOKEN_ELIF then
    _ ← pop;
    p1 ← parse_compound_list;
    bad ← failed;
    if (bad : bool) then handle_error_parser
    else
      t ← pop;
      if negb (isa t TOKEN_THEN) then handle_error_parser
      else
        p2 ← parse_compound_list;
        bad ← failed;
        if (bad : bool) then handle_error_parser
        else
          p3 ← match n with O => no_fuel | S n => parse_else_clause n end;
          bad ← failed;
          _ ← (if (bad : bool) then set_status PARSER_OK else mret tt);
          mret (Some (AST_IF p1 p2 p3))
  else handle_error_parser.

(** [parse_rule_if]. *)
Definition parse_rule_if : M (option ast) :=
  ok ← expect TOKEN_IF;
  if negb ok then handle_error_parser
  else
    p1 ← parse_compound_list;
    bad ← failed;
    if (bad : bool) then handle_error_parser
    else
      ok ← expect TOKEN_THEN;
      if negb ok then handle_error_parser
      else
        p2 ← parse_compound_list;
        bad ← failed;
        if (bad : bool) then handle_error_parser
        else
          p3 ← parse_else_clause fuel;
          bad ← failed;
          _ ← (if (bad : bool) then set_status PARSER_OK else mret tt);
          ok ← expect TOKEN_FI;
          if negb ok then handle_error_parser else mret (Some (AST_IF p1 p2 p3)).

(** [get_words]: the words, [None] for the null pointer. *)
Fixpoint words_loop (n : nat) (res : option (list str)) : M (option (list str)) :=
  t ← peek;
  if wordy t then match n with O => no_fuel | S n => w ← pop_word; words_loop n (Some (default [] res ++ [w])) end
  else mret res.
Definition get_words : M (option (list str)) :=
  ok ← expect TOKEN_IN;
  if negb ok then _ ← set_status PARSER_UNEXPECTED_TOKEN; mret None else words_loop fuel None.

(** [aux_for_do]. *)
Definition aux_for_do (var : str) (words : option (list str)) : M (option ast) :=
  ok ← expect TOKEN_DO;
  if negb ok then handle_error_parser
  else
    p1 ← parse_compound_list;
    bad ← failed;
    if (bad : bool) then handle_error_parser
    else
      t ← peek;
      if negb (isa t TOKEN_DONE) then handle_error_parser
      else _ ← pop; mret (Some (AST_FOR p1 var (default [ch "$@"] words))).

(** [parse_rule_for]. *)
Definition parse_rule_for : M (option ast) :=
  ok ← expect TOKEN_FOR;
  if negb ok then handle_error_parser
  else
    t ← peek;
    if negb (wordy t) then handle_error_parser
    else
      var ← pop_word;
      t ← peek;
      if isa t TOKEN_SEMICOLON then _ ← pop; _ ← skip_newlines fuel; aux_for_do var None
      else
        _ ← skip_newlines fuel;
        t ← peek;
        if isa t TOKEN_DO then aux_for_do var None
        else
          words ← get_words;
          t ← peek;
          bad ← failed;
          if bad || negb (isa t TOKEN_SEMICOLON || isa t TOKEN_NEWLINE) then handle_error_parser
          else _ ← pop; _ ← skip_newlines fuel; aux_for_do var words.

(** [parse_subshell]. *)
Definition parse_subshell : M (option ast) :=
  ok ← expect TOKEN_LPAREN;
  if negb ok then handle_error_parser
  else
    a ← parse_compound_list;
    bad ← failed;
    if (bad : bool) then handle_error_parser
    else
      ok ← expect TOKEN_RPAREN;
      if negb ok then handle_error_parser else mret (Some (AST_SUBSHELL a)).

(** [if (r != NULL) return r], otherwise the rest. *)
Definition or_else (r : option ast) (k : M (option ast)) : M (option ast) := match r with Some a => mret (Some a) | None => k end.

(** [parse_shell_command]. *)
Definition parse_shell_command : M (option ast) :=
  _ ← set_status PARSER_OK;
  r ← try_rule parse_rule_if; or_else r (
  r ← try_rule parse_rule_while; or_else r (
  r ← try_rule parse_rule_until; or_else r (
  r ← try_rule parse_rule_for; or_else r (
  r ← try_rule parse_subshell; or_else r (
  t ← peek;
  if isa t TOKEN_LBRACE then
    _ ← pop;
    r ← parse_compound_list;
    t ← pop;
    if negb (isa t TOKEN_RBRACE) then handle_error_parser else mret r
  else mret None))))).

(** [parse_funcdec]. *)
Definition parse_funcdec : M (option ast) :=
  t ← peek;
  if negb (isa t TOKEN_WORD) then handle_error_parser
  else
    t ← peek_2;
    if negb (isa t TOKEN_LPAREN) then handle_error_parser
    else
      t ← pop;
      name ← lift (deref (value t));
      _ ← pop;
      ok ← expect TOKEN_RPAREN;
      if negb ok then handle_error_parser
      else
        _ ← skip_newlines fuel;
        body ← parse_shell_command;
        bad ← failed;
        if (bad : bool) then handle_error_parser else mret (Some (AST_FUNCDEF name body)).

(** [get_redirections]. *)
Fixpoint get_redirections (n : nat) : M (option ast) :=
  cur ← try_rule parse_redirection;
  match cur with
  | None => mret None
  | Some c => match n with O => no_fuel | S n => next ← get_redirections n; mret (Some (set_p2 c next)) end
  end.

(** [parse_command]. *)
Definition parse_command : M (option ast) :=
  _ ← set_status PARSER_OK;
  a ← try_rule parse_funcdec; or_else a (
  a ← try_rule (parse_simple_command fuel); or_else a (
  a ← try_rule parse_shell_command;
  match a with
  | Some a =>
      head ← get_redirections fuel;
      match head with None => mret (Some a) | Some h => mret (Some (link h a)) end
  | None => handle_error_parser
  end)).

(** [parse_pipeline_rec]. *)
Fixpoint parse_pipeline_rec (n : nat) : M (option ast) :=
  _ ← set_status PARSER_OK;
  p1 ← parse_command;
  bad ← failed;
  if (bad : bool) then handle_error_parser
  else
    t ← peek;
    if isa t TOKEN_PIPE then
      match n with
      | O => no_fuel
      | S n =>
          _ ← pop;
          _ ← skip_newlines fuel;
          p2 ← parse_pipeline_rec n;
          bad ← failed;
          if (bad : bool) then handle_error_parser else mret (Some (AST_PIPE p1 p2))
      end
    else mret (Some (AST_PIPE p1 None)).

(** [parse_pipeline]; when the rest of a negated pipeline is missing, the pipeline is freed twice. *)
Definition parse_pipeline : M (option ast) :=
  _ ← set_status PARSER_OK;
  neg ← expect TOKEN_NOT;
  command ← parse_command;
  bad ← failed;
  if (bad : bool) then handle_error_parser
  else
    t ← peek;
    if isa t TOKEN_PIPE then
      _ ← pop;
      _ ← skip_newlines fuel;
      p2 ← parse_pipeline_rec fuel;
      bad ← failed;
      if (bad : bool) then (if (neg : bool) then fault else handle_error_parser)
      else let pipeline := AST_PIPE command p2 in mret (Some (if (neg : bool) then AST_NOT (Some pipeline) else pipeline))
    else mret (if (neg : bool) then Some (AST_NOT command) else command).

(** [get_next]: the node without its first child. *)
Definition get_next : M (option (option ast -> ast)) :=
  t ← peek;
  if isa t TOKEN_AND || isa t TOKEN_OR then
    _ ← pop;
    _ ← skip_newlines fuel;
    command ← parse_pipeline;
    bad ← failed;
    if (bad : bool) then _ ← handle_error_parser; mret None
    else mret (Some (fun p1 => if isa t TOKEN_OR then AST_OR p1 command else AST_AND p1 command))
  else mret None.

Fixpoint and_or_loop (n : nat) (res : option ast) : M (option ast) :=
  parent ← get_next;
  match parent with
  | None => mret res
  | Some node => match n with O => no_fuel | S n => and_or_loop n (Some (node res)) end
  end.

(** [parse_and_or]. *)
Definition parse_and_or : M (option ast) :=
  _ ← set_status PARSER_OK;
  res ← parse_pipeline;
  bad ← failed;
  if (bad : bool) then handle_error_parser else and_or_loop fuel res.
End rules.

(** The commands of a list, behind its first one. *)
Fixpoint make_list (first : option ast) (rest : list (option ast)) : ast :=
  match rest with [] => AST_LIST first None | c :: rest => AST_LIST first (Some (make_list c rest)) end.

(** The loop of [parse_list] and [parse_compound_list] over what follows the first command. *)
Fixpoint list_loop (sep : token -> bool) (before : M unit) (and_or : M (option ast)) (n : nat) : M (list (option ast)) :=
  t ← peek;
  if sep t then
    match n with
    | O => no_fuel
    | S n =>
        _ ← pop;
        _ ← before;
        command ← and_or;
        bad ← failed;
        if (bad : bool) then _ ← set_status PARSER_OK; mret []
        else rest ← list_loop sep before and_or n; mret (command :: rest)
    end
  else mret [].

(** [parse_compound_list]. *)
Fixpoint parse_compound_list (depth fuel : nat) : M (option ast) :=
  match depth with
  | O => no_fuel
  | S depth =>
      let and_or := parse_and_or fuel (parse_compound_list depth fuel) in
      _ ← set_status PARSER_OK;
      _ ← skip_newlines fuel;
      p1 ← and_or;
      bad ← failed;
      if (bad : bool) then handle_error_parser
      else
        rest ← list_loop (fun t => isa t TOKEN_SEMICOLON || isa t TOKEN_NEWLINE) (_ ← skip_newlines fuel; mret tt) and_or fuel;
        _ ← skip_newlines fuel;
        mret (Some (make_list p1 rest))
  end.

(** [parse_list]. *)
Definition parse_list (depth fuel : nat) : M (option ast) :=
  let and_or := parse_and_or fuel (parse_compound_list depth fuel) in
  _ ← set_status PARSER_OK;
  p1 ← and_or;
  bad ← failed;
  if (bad : bool) then handle_error_parser
  else rest ← list_loop (fun t => isa t TOKEN_SEMICOLON) (mret tt) and_or fuel; mret (Some (make_list p1 rest)).

(** [parse_input]. *)
Definition parse_input (depth fuel : nat) : M (option ast) :=
  t ← peek;
  if isa t TOKEN_ERROR then handle_error_parser
  else if isa t TOKEN_EOF || isa t TOKEN_NEWLINE then
    _ ← (if isa t TOKEN_EOF then set_status PARSER_EOF else mret tt);
    _ ← pop;
    mret None
  else
    a ← parse_list depth fuel;
    bad ← failed;
    if (bad : bool) then handle_error_parser
    else
      t ← peek;
      if isa t TOKEN_EOF then _ ← pop; _ ← set_status PARSER_EOF; mret a
      else if isa t TOKEN_NEWLINE then _ ← pop; mret a
      else handle_error_parser.

End parser.

(** ** A lexer that has all its tokens *)

Definition eof : token := mkTok TOKEN_EOF None.
Definition first (l : list token) : token := match l with [] => eof | t :: _ => t end.

#[export] Instance token_list : Lexer (list token) := {
  lexer_peek l := Ok (first l, l);
  lexer_peek_2 l := Ok (first (tail l), l);
  lexer_pop l := Ok (first l, tail l)
}.

Abbreviation P := (M (L := list token)).

(** Evaluation of the monad on such a lexer. *)
Section steps.
Context {A B : Type} (st : parser_status) (l : list token).

Lemma bind_Ok (m : P A) (k : A -> P B) s a s' : m s = Ok (a, s') -> (m ≫= k) s = k a s'.
Proof. intros E. unfold mbind, M_bind. by rewrite E. Qed.
Lemma bind_peek (k : token -> P B) : (peek ≫= k) (st, l) = k (first l) (st, l).
Proof. done. Qed.
Lemma bind_peek_2 (k : token -> P B) : (peek_2 ≫= k) (st, l) = k (first (tail l)) (st, l).
Proof. done. Qed.
Lemma bind_pop (k : token -> P B) : (pop ≫= k) (st, l) = k (first l) (st, tail l).
Proof. done. Qed.
Lemma bind_set (k : unit -> P B) st' : (set_status st' ≫= k) (st, l) = k tt (st', l).
Proof. done. Qed.
Lemma bind_mret (a : A) (k : A -> P B) s : (mret a ≫= k) s = k a s.
Proof. done. Qed.
Lemma bind_error (k : option ast -> P B) : (handle_error_parser ≫= k) (st, l) = k None (PARSER_UNEXPECTED_TOKEN, l).
Proof. done. Qed.
Lemma bind_lift (a : A) (k : A -> P B) s : (lift (Ok a) ≫= k) s = k a s.
Proof. done. Qed.
Lemma bind_assoc {C} (m : P C) (f : C -> P A) (k : A -> P B) s : ((m ≫= f) ≫= k) s = (m ≫= (fun c => f c ≫= k)) s.
Proof. unfold mbind, M_bind. destruct (m s) as [[c s']| | |]; done. Qed.
End steps.
Lemma bind_failed_ok {B} (k : bool -> P B) (l : list token) : (failed ≫= k) (PARSER_OK, l) = k false (PARSER_OK, l).
Proof. done. Qed.
Lemma bind_failed_bad {B} (k : bool -> P B) (l : list token) : (failed ≫= k) (PARSER_UNEXPECTED_TOKEN, l) = k true (PARSER_UNEXPECTED_TOKEN, l).
Proof. done. Qed.
Lemma bind_expect_yes {B} (k : bool -> P B) ty v st l : (expect ty ≫= k) (st, mkTok ty v :: l) = k true (st, l).
Proof. unfold expect. rewrite bind_assoc, bind_peek. unfold isa. cbn [first type]. rewrite bool_decide_true by done. done. Qed.
Lemma bind_expect_no {B} (k : bool -> P B) ty st l : type (first l) <> ty -> (expect ty ≫= k) (st, l) = k false (st, l).
Proof. intros Hn. unfold expect. rewrite bind_assoc, bind_peek. unfold isa. rewrite bool_decide_false by done. done. Qed.
Lemma isa_no t ty : type t <> ty -> isa t ty = false.
Proof. apply bool_decide_false. Qed.

Definition word (w : str) : token := mkTok TOKEN_WORD (Some w).
Definition key (ty : token_type) : token := mkTok ty None.

Ltac isa_eval := match goal with |- context [isa ?t ?ty] =>
  let b := eval vm_compute in (isa t ty) in match b with true => change (isa t ty) with true | false => change (isa t ty) with false end end.
Ltac step1 := first [rewrite bind_peek | rewrite bind_peek_2 | rewrite bind_pop | rewrite bind_set | rewrite bind_mret | rewrite bind_error | rewrite bind_lift
  | rewrite bind_failed_ok | rewrite bind_failed_bad | rewrite bind_assoc]; cbv beta; cbn [first tail app value deref word key].
Ltac go := repeat first [step1 | isa_eval; cbn [negb orb andb]; cbv iota].

Tactic Notation "call" tactic3(t) := erewrite bind_Ok by (t); cbv beta iota.

(** ** Programs *)

Record redirection := mkR { io : option str; op : token_type; target : str }.

Inductive command :=
| Simple (pre : list (str + redirection)) (w : str) (els : list (str + redirection))
| Bare (p : str + redirection) (pre : list (str + redirection))
| Compound (c : compound) (rs : list redirection)
| Function (name : str) (c : compound)
with compound :=
| If (c t : program) (e : else_part)
| While (c b : program)
| Until (c b : program)
| For (var : str) (ws : list str) (b : program)
| Subshell (p : program)
| Braces (p : program)
with else_part :=
| NoElse
| Else (p : program)
| Elif (c t : program) (e : else_part)
with program :=
| Last (a : and_or)
| Then (a : and_or) (p : program)
with and_or :=
| AndOr (p : pipeline) (r : and_or_rest)
with and_or_rest :=
| AOEnd
| AOMore (or : bool) (p : pipeline) (r : and_or_rest)
with pipeline :=
| Pipeline (neg : bool) (c : command) (r : pipeline_rest)
with pipeline_rest :=
| PEnd
| PMore (c : command) (r : pipeline_rest).

Scheme command_mut := Induction for command Sort Prop
with compound_mut := Induction for compound Sort Prop
with else_mut := Induction for else_part Sort Prop
with program_mut := Induction for program Sort Prop
with and_or_mut := Induction for and_or Sort Prop
with and_or_rest_mut := Induction for and_or_rest Sort Prop
with pipeline_mut := Induction for pipeline Sort Prop
with pipeline_rest_mut := Induction for pipeline_rest Sort Prop.
Combined Scheme syntax_ind from command_mut, compound_mut, else_mut, program_mut, and_or_mut, and_or_rest_mut, pipeline_mut, pipeline_rest_mut.

(** *** Their tokens *)

Definition redir_tokens (r : redirection) : list token :=
  (match io r with Some v => [mkTok TOKEN_IONUMBER (Some v)] | None => [] end) ++ [key (op r); word (target r)].
Definition item_tokens (i : str + redirection) : list token := match i with inl w => [word w] | inr r => redir_tokens r end.
Definition items_tokens (l : list (str + redirection)) : list token := l ≫= item_tokens.

Fixpoint command_tokens (c : command) : list token :=
  match c with
  | Simple pre w els => items_tokens pre ++ word w :: items_tokens els
  | Bare p pre => items_tokens (p :: pre)
  | Compound c rs => compound_tokens c ++ (rs ≫= redir_tokens)
  | Function name c => word name :: key TOKEN_LPAREN :: key TOKEN_RPAREN :: compound_tokens c
  end
with compound_tokens (c : compound) : list token :=
  match c with
  | If c t e => key TOKEN_IF :: program_tokens c ++ key TOKEN_THEN :: program_tokens t ++ else_tokens e ++ [key TOKEN_FI]
  | While c b => key TOKEN_WHILE :: program_tokens c ++ key TOKEN_DO :: program_tokens b ++ [key TOKEN_DONE]
  | Until c b => key TOKEN_UNTIL :: program_tokens c ++ key TOKEN_DO :: program_tokens b ++ [key TOKEN_DONE]
  | For var ws b => key TOKEN_FOR :: word var :: (match ws with [] => [] | _ => key TOKEN_IN :: (word <$> ws) end) ++
                    key TOKEN_SEMICOLON :: key TOKEN_DO :: program_tokens b ++ [key TOKEN_DONE]
  | Subshell p => key TOKEN_LPAREN :: program_tokens p ++ [key TOKEN_RPAREN]
  | Braces p => key TOKEN_LBRACE :: program_tokens p ++ [key TOKEN_RBRACE]
  end
with else_tokens (e : else_part) : list token :=
  match e with
  | NoElse => []
  | Else p => key TOKEN_ELSE :: program_tokens p
  | Elif c t e => key TOKEN_ELIF :: program_tokens c ++ key TOKEN_THEN :: program_tokens t ++ else_tokens e
  end
with program_tokens (p : program) : list token :=
  match p with
  | Last a => and_or_tokens a ++ [key TOKEN_SEMICOLON]
  | Then a p => and_or_tokens a ++ key TOKEN_SEMICOLON :: program_tokens p
  end
with and_or_tokens (a : and_or) : list token := match a with AndOr p r => pipeline_tokens p ++ and_or_rest_tokens r end
with and_or_rest_tokens (r : and_or_rest) : list token :=
  match r with AOEnd => [] | AOMore or p r => key (if or then TOKEN_OR else TOKEN_AND) :: pipeline_tokens p ++ and_or_rest_tokens r end
with pipeline_tokens (p : pipeline) : list token :=
  match p with Pipeline neg c r => (if neg then [key TOKEN_NOT] else []) ++ command_tokens c ++ pipeline_rest_tokens r end
with pipeline_rest_tokens (r : pipeline_rest) : list token :=
  match r with PEnd => [] | PMore c r => key TOKEN_PIPE :: command_tokens c ++ pipeline_rest_tokens r end.

(** *** Their trees *)

Definition redir_ast (r : redirection) (next : option ast) : ast :=
  AST_REDIR (mkRedir (op r) (match io r with Some v => atoi v | None => -1 end) (target r)) next.
Definition item_ast (i : str + redirection) (next : option ast) : ast := match i with inl w => AST_ASSIGN w next | inr r => redir_ast r next end.
Fixpoint chain (l : list (str + redirection)) (last : option ast) : option ast :=
  match l with [] => last | i :: l => Some (item_ast i (chain l last)) end.
Definition words_of (els : list (str + redirection)) : list str := omap (fun i => match i with inl w => Some w | inr _ => None end) els.
Definition redirs_of (els : list (str + redirection)) : list (str + redirection) := omap (fun i => match i with inl _ => None | inr r => Some (inr r) end) els.

Fixpoint command_ast (c : command) : option ast :=
  match c with
  | Simple pre w els => chain pre (chain (redirs_of els) (Some (AST_ARGV (w :: words_of els))))
  | Bare p pre => chain (p :: pre) None
  | Compound c rs => chain (inr <$> rs) (compound_ast c)
  | Function name c => Some (AST_FUNCDEF name (compound_ast c))
  end
with compound_ast (c : compound) : option ast :=
  match c with
  | If c t e => Some (AST_IF (program_ast c) (program_ast t) (else_ast e))
  | While c b => Some (AST_WHILE (program_ast c) (program_ast b))
  | Until c b => Some (AST_UNTIL (program_ast c) (program_ast b))
  | For var ws b => Some (AST_FOR (program_ast b) var (match ws with [] => [ch "$@"] | _ => ws end))
  | Subshell p => Some (AST_SUBSHELL (program_ast p))
  | Braces p => program_ast p
  end
with else_ast (e : else_part) : option ast :=
  match e with
  | NoElse => None
  | Else p => program_ast p
  | Elif c t e => Some (AST_IF (program_ast c) (program_ast t) (else_ast e))
  end
with program_ast (p : program) : option ast :=
  match p with
  | Last a => Some (AST_LIST (and_or_ast a) None)
  | Then a p => Some (AST_LIST (and_or_ast a) (program_ast p))
  end
with and_or_ast (a : and_or) : option ast := match a with AndOr p r => and_or_rest_ast r (pipeline_ast p) end
with and_or_rest_ast (r : and_or_rest) (left : option ast) : option ast :=
  match r with
  | AOEnd => left
  | AOMore or p r => and_or_rest_ast r (Some (if or then AST_OR left (pipeline_ast p) else AST_AND left (pipeline_ast p)))
  end
with pipeline_ast (p : pipeline) : option ast :=
  match p with
  | Pipeline neg c r =>
      let a := match r with PEnd => command_ast c | _ => Some (AST_PIPE (command_ast c) (pipeline_rest_ast r)) end in
      if neg then Some (AST_NOT a) else a
  end
with pipeline_rest_ast (r : pipeline_rest) : option ast :=
  match r with PEnd => None | PMore c r => Some (AST_PIPE (command_ast c) (pipeline_rest_ast r)) end.

(** *** What can be printed: assignments have an equals sign, command names do not *)

Definition redir_ok (r : redirection) : Prop := is_redir (key (op r)) = true.
Definition prefix_ok (i : str + redirection) : Prop := match i with inl w => equal_in w = true | inr r => redir_ok r end.
Definition element_ok (i : str + redirection) : Prop := match i with inl _ => True | inr r => redir_ok r end.

Fixpoint command_ok (c : command) : Prop :=
  match c with
  | Simple pre w els => Forall prefix_ok pre /\ equal_in w = false /\ Forall element_ok els
  | Bare p pre => Forall prefix_ok (p :: pre)
  | Compound c rs => compound_ok c /\ Forall redir_ok rs
  | Function _ c => compound_ok c
  end
with compound_ok (c : compound) : Prop :=
  match c with
  | If c t e => program_ok c /\ program_ok t /\ else_ok e
  | While c b | Until c b => program_ok c /\ program_ok b
  | For _ _ b => program_ok b
  | Subshell p | Braces p => program_ok p
  end
with else_ok (e : else_part) : Prop :=
  match e with NoElse => True | Else p => program_ok p | Elif c t e => program_ok c /\ program_ok t /\ else_ok e end
with program_ok (p : program) : Prop := match p with Last a => and_or_ok a | Then a p => and_or_ok a /\ program_ok p end
with and_or_ok (a : and_or) : Prop := match a with AndOr p r => pipeline_ok p /\ and_or_rest_ok r end
with and_or_rest_ok (r : and_or_rest) : Prop := match r with AOEnd => True | AOMore _ p r => pipeline_ok p /\ and_or_rest_ok r end
with pipeline_ok (p : pipeline) : Prop := match p with Pipeline _ c r => command_ok c /\ pipeline_rest_ok r end
with pipeline_rest_ok (r : pipeline_rest) : Prop := match r with PEnd => True | PMore c r => command_ok c /\ pipeline_rest_ok r end.

(** ** Rules that do not apply *)

Section attempts.
Context (f : P (option ast)) (st : parser_status) (l : list token).

Lemma try_ok a l' : f (PARSER_OK, l) = Ok (a, (PARSER_OK, l')) -> try_rule f (st, l) = Ok (a, (PARSER_OK, l')).
Proof. intros E. unfold try_rule. rewrite bind_set. erewrite bind_Ok by exact E. by rewrite bind_failed_ok. Qed.
Lemma try_no a l' : f (PARSER_OK, l) = Ok (a, (PARSER_UNEXPECTED_TOKEN, l')) -> try_rule f (st, l) = Ok (None, (PARSER_OK, l')).
Proof. intros E. unfold try_rule. rewrite bind_set. erewrite bind_Ok by exact E. by rewrite bind_failed_bad. Qed.
End attempts.

(** The token that comes next, when it cannot start a redirection. *)
Definition no_redir (t : token) : Prop := type t <> TOKEN_IONUMBER /\ is_redir t = false.

Lemma redirection_no st l : no_redir (first l) -> parse_redirection (st, l) = Ok (None, (PARSER_UNEXPECTED_TOKEN, l)).
Proof. intros [Hn Hr]. unfold parse_redirection. go. rewrite isa_no by done. go. by rewrite Hr. Qed.

Lemma expect_no (k : bool -> P (option ast)) ty st l :
  type (first l) <> ty -> (forall s, k false s = handle_error_parser s) ->
  try_rule (expect ty ≫= k) (st, l) = Ok (None, (PARSER_OK, l)).
Proof. intros Hn Hk. eapply try_no. rewrite bind_expect_no, Hk by done. done. Qed.

Lemma funcdec_no fuel pcl st l :
  type (first l) <> TOKEN_WORD \/ type (first (tail l)) <> TOKEN_LPAREN ->
  try_rule (parse_funcdec fuel pcl) (st, l) = Ok (None, (PARSER_OK, l)).
Proof.
  intros Hn. eapply try_no. unfold parse_funcdec. go.
  destruct (isa (first l) TOKEN_WORD) eqn:E; [|done]. apply bool_decide_eq_true in E. cbn [negb]. go.
  by rewrite isa_no by naive_solver.
Qed.

Lemma skip_none n st (l : list token) : type (first l) <> TOKEN_NEWLINE -> skip_newlines n (st, l) = Ok (first l, (st, l)).
Proof. intros Hn. destruct n; cbn [skip_newlines]; go; by rewrite isa_no. Qed.

(** ** Words, redirections, prefixes and elements *)

Lemma wordy_word w : wordy (word w) = true.
Proof. done. Qed.
Lemma bind_pop_word {B} (k : str -> P B) st w l : (pop_word ≫= k) (st, word w :: l) = k w (st, l).
Proof. done. Qed.
Lemma redir_shape r : redir_ok r -> is_redir (key (op r)) = true /\ op r <> TOKEN_IONUMBER /\ op r <> TOKEN_WORD /\ op r <> TOKEN_LPAREN /\
  op r <> TOKEN_NOT /\ op r <> TOKEN_NEWLINE /\ wordy (key (op r)) = false.
Proof. unfold redir_ok. destruct (op r); vm_compute; intros [=]; repeat split; discriminate. Qed.

Lemma redirection_yes r st l : redir_ok r -> parse_redirection (st, redir_tokens r ++ l) = Ok (Some (redir_ast r None), (st, l)).
Proof.
  intros (Hr & Hio & _)%redir_shape. unfold parse_redirection, redir_tokens, redir_ast.
  destruct (io r) as [v|]; cbn [app]; go.
  { rewrite Hr; cbn [negb]; go; done. }
  rewrite isa_no by exact Hio; go. rewrite Hr; cbn [negb]; go; done.
Qed.

Lemma set_p2_item i next : set_p2 (item_ast i None) next = item_ast i next.
Proof. by destruct i. Qed.

(** The token that comes next, when it cannot be a prefix. *)
Definition no_prefix (t : token) : Prop := no_redir t /\ (type t = TOKEN_WORD -> exists w, value t = Some w /\ equal_in w = false).

Lemma prefix_yes i st l : prefix_ok i -> parse_prefix (st, item_tokens i ++ l) = Ok (Some (item_ast i None), (PARSER_OK, l)).
Proof.
  unfold parse_prefix. destruct i as [w|r]; intros Hi; cbn [item_tokens item_ast].
  - go. cbn in Hi. rewrite Hi. by go.
  - rewrite bind_set, bind_peek.
    assert (E : isa (first (redir_tokens r ++ l)) TOKEN_WORD = false)
      by (apply isa_no; unfold redir_tokens; destruct (io r); [done|by apply redir_shape]).
    rewrite E. go. by apply redirection_yes.
Qed.
Lemma prefix_no st l : no_prefix (first l) -> parse_prefix (st, l) = Ok (None, (PARSER_UNEXPECTED_TOKEN, l)).
Proof.
  intros [Hr Hw]. unfold parse_prefix. go. destruct (isa (first l) TOKEN_WORD) eqn:E.
  - destruct Hw as (w & Hv & He); [by apply bool_decide_eq_true in E|]. rewrite Hv. cbn [deref]. go. rewrite He. by apply redirection_no.
  - go. by apply redirection_no.
Qed.

Lemma get_prefix_ok pre n st l :
  Forall prefix_ok pre -> (length pre <= n)%nat -> no_prefix (first l) ->
  get_prefix n (st, items_tokens pre ++ l) = Ok (chain pre None, (PARSER_OK, l)).
Proof.
  intros Hpre. revert n st. induction Hpre as [|i pre Hi _ IH]; intros n st Hn Hl; cbn [items_tokens mbind list_bind app].
  - destruct n; cbn [get_prefix]; (call (eapply try_no; by apply prefix_no)); done.
  - destruct n as [|n]; [cbn in Hn; lia|]. rewrite <-app_assoc. cbn [get_prefix].
    call (eapply try_ok; by apply prefix_yes).
    call (apply IH; [cbn in Hn; lia|done]). cbn [chain]. by rewrite set_p2_item.
Qed.

Lemma get_redirections_ok rs n st l :
  Forall redir_ok rs -> (length rs <= n)%nat -> no_redir (first l) ->
  get_redirections n (st, (rs ≫= redir_tokens) ++ l) = Ok (chain (inr <$> rs) None, (PARSER_OK, l)).
Proof.
  intros Hrs. revert n st. induction Hrs as [|r rs Hr _ IH]; intros n st Hn Hl; cbn [mbind list_bind app].
  - destruct n; cbn [get_redirections]; (call (eapply try_no; by apply redirection_no)); done.
  - destruct n as [|n]; [cbn in Hn; lia|]. rewrite <-app_assoc. cbn [get_redirections].
    call (eapply try_ok; by apply redirection_yes).
    call (apply IH; [cbn in Hn; lia|done]). done.
Qed.

(** [link] at the end of a chain. *)
Lemma link_chain pre h a : chain pre None = Some h -> Some (link h a) = chain pre (Some a).
Proof.
  revert h. induction pre as [|i pre IH]; intros h [= <-]. cbn [chain].
  destruct (chain pre None) as [h|] eqn:E.
  - rewrite <-(IH h) by done. by destruct i.
  - destruct pre; [|done]. by destruct i.
Qed.
Lemma chain_of_app p q a : chain (p ++ q) a = chain p (chain q a).
Proof. induction p; cbn; congruence. Qed.

Lemma element_yes i st l : element_ok i ->
  parse_element (st, item_tokens i ++ l) = Ok (Some (match i with inl w => AST_STRING w | inr r => redir_ast r None end), (PARSER_OK, l)).
Proof.
  unfold parse_element. destruct i as [w|r]; intros Hi; cbn [item_tokens].
  - done.
  - rewrite bind_set, bind_peek.
    assert (E : wordy (first (redir_tokens r ++ l)) = false) by (unfold redir_tokens; destruct (io r); [done|by apply redir_shape]).
    rewrite E. by apply redirection_yes.
Qed.

(** What follows the elements of a command. *)
Definition follow (t : token) : Prop := type t ∈ [TOKEN_SEMICOLON; TOKEN_PIPE; TOKEN_AND; TOKEN_OR].
Lemma follow_cases (G : token_type -> Prop) t :
  G TOKEN_SEMICOLON -> G TOKEN_PIPE -> G TOKEN_AND -> G TOKEN_OR -> follow t -> G (type t).
Proof. unfold follow. rewrite !elem_of_cons, elem_of_nil. intros ? ? ? ? [-> | [-> | [-> | [-> | []]]]]; done. Qed.
Lemma follow_facts t : follow t -> no_redir t /\ wordy t = false /\ type t <> TOKEN_WORD /\ type t <> TOKEN_LPAREN /\ type t <> TOKEN_NEWLINE.
Proof. destruct t as [ty v]. intros Ht. unfold no_redir. cbn [type]. pattern ty. change ty with (type (mkTok ty v)). revert Ht. apply follow_cases; vm_compute; naive_solver. Qed.

(** The elements of a command end at [l], where [l'] is left. *)
Definition elements_end (l l' : list token) : Prop := forall st, try_rule parse_element (st, l) = Ok (None, (PARSER_OK, l')).

Lemma follow_end l : follow (first l) -> elements_end l l.
Proof.
  intros Hl st. destruct (follow_facts _ Hl) as (Hr & Hw & _). eapply try_no. unfold parse_element. rewrite bind_set, bind_peek, Hw. by apply redirection_no.
Qed.
(** An operator that no word follows is read, and is not an element. *)
Lemma operator_end o l : is_redir (key o) = true -> wordy (first l) = false -> elements_end (key o :: l) l.
Proof.
  intros Ho Hl st. destruct (redir_shape (mkR None o []) Ho) as (_ & Hio & _ & _ & _ & _ & Hw). cbn [op] in *. eapply try_no.
  unfold parse_element. rewrite bind_set, bind_peek. cbn [first]. rewrite Hw. unfold parse_redirection. rewrite bind_peek. cbn [first].
  rewrite isa_no by exact Hio. go. rewrite Ho. cbn [negb]. go. by rewrite Hl.
Qed.

Lemma elements_ok els n argv rs st l l' :
  Forall element_ok els -> (length els <= n)%nat -> elements_end l l' ->
  elements n argv (chain rs None) (st, items_tokens els ++ l) = Ok (Some (argv ++ words_of els, chain (rs ++ redirs_of els) None), (PARSER_OK, l')).
Proof.
  intros Hels. revert n argv rs st. induction Hels as [|i els Hi _ IH]; intros n argv rs st Hn Hl; cbn [items_tokens mbind list_bind app].
  - destruct n; cbn [elements]; (call (apply Hl)); by rewrite !app_nil_r.
  - destruct n as [|n]; [cbn in Hn; lia|]. rewrite <-app_assoc. cbn [elements].
    call (eapply try_ok; by apply element_yes). cbn in Hn. destruct i as [w|r]; cbn [redir_ast].
    + rewrite IH by (done || lia). cbn. by rewrite <-app_assoc.
    + assert (E : Some (match chain rs None with None => redir_ast r None | Some h => link h (redir_ast r None) end) = chain (rs ++ [inr r]) None).
      { rewrite chain_of_app. destruct (chain rs None) eqn:Ec; [by rewrite (link_chain rs)|by destruct rs]. }
      rewrite E, IH by (done || lia). cbn. by rewrite <-app_assoc.
Qed.

(** ** Simple commands *)

Lemma args_ok w els fuel st l l' :
  Forall element_ok els -> (length els <= fuel)%nat -> elements_end l l' ->
  get_args fuel (st, word w :: items_tokens els ++ l) = Ok (chain (redirs_of els) (Some (AST_ARGV (w :: words_of els))), (PARSER_OK, l')).
Proof.
  intros He Hn Hl. unfold get_args. go. call (apply (elements_ok els _ _ []); done). cbn [app].
  destruct (chain (redirs_of els) None) as [h|] eqn:E; [|by destruct (redirs_of els)].
  by rewrite <-(link_chain _ h).
Qed.

Lemma no_prefix_word w : equal_in w = false -> no_prefix (word w).
Proof. intros He. split; [done|]. intros _. by exists w. Qed.
Lemma no_prefix_other t : no_redir t -> type t <> TOKEN_WORD -> no_prefix t.
Proof. by split. Qed.

Lemma simple_command_ok pre w els fuel st l l' :
  Forall prefix_ok pre -> equal_in w = false -> Forall element_ok els -> (length pre + length els <= fuel)%nat -> elements_end l l' ->
  try_rule (parse_simple_command fuel) (st, items_tokens pre ++ word w :: items_tokens els ++ l) =
    Ok (command_ast (Simple pre w els), (PARSER_OK, l')).
Proof.
  intros Hp Hw He Hn Hl. apply try_ok. unfold parse_simple_command.
  call (apply get_prefix_ok; [done|lia|by apply no_prefix_word]). rewrite bind_peek. cbn [first]. isa_eval. cbn [negb]. cbv iota.
  call (apply args_ok; [done|lia|done]). cbn [command_ast].
  destruct (chain (redirs_of els) (Some (AST_ARGV (w :: words_of els)))) as [n|] eqn:En; [|by destruct (redirs_of els)].
  destruct (chain pre None) as [h|] eqn:E; [by rewrite <-(link_chain _ h)|by destruct pre].
Qed.

Lemma bare_command_ok p pre fuel st l :
  Forall prefix_ok (p :: pre) -> (length (p :: pre) <= fuel)%nat -> follow (first l) ->
  try_rule (parse_simple_command fuel) (st, items_tokens (p :: pre) ++ l) = Ok (command_ast (Bare p pre), (PARSER_OK, l)).
Proof.
  intros Hp Hn Hl. destruct (follow_facts _ Hl) as (Hr & _ & Hw & _). apply try_ok. unfold parse_simple_command.
  call (apply get_prefix_ok; [done|done|by apply no_prefix_other]). rewrite bind_peek, isa_no by done. done.
Qed.

Lemma simple_command_no fuel st l : no_redir (first l) -> type (first l) <> TOKEN_WORD ->
  try_rule (parse_simple_command fuel) (st, l) = Ok (None, (PARSER_OK, l)).
Proof.
  intros Hr Hw. eapply try_no. unfold parse_simple_command.
  call (apply (get_prefix_ok [] _ _ l); [done|cbn; lia|by apply no_prefix_other]). rewrite bind_peek, isa_no by done. done.
Qed.

(** ** Compound commands *)

(** What may follow a list: tokens that start no command. *)
Definition stop (t : token) : Prop :=
  type t ∈ [TOKEN_THEN; TOKEN_ELSE; TOKEN_ELIF; TOKEN_FI; TOKEN_DO; TOKEN_DONE; TOKEN_RPAREN; TOKEN_RBRACE].

(** The list parser [pcl] reads the program [p]. *)
Definition parses (pcl : P (option ast)) (p : program) : Prop :=
  forall st l, stop (first l) -> pcl (st, program_tokens p ++ l) = Ok (program_ast p, (PARSER_OK, l)).

Lemma bind_expect_key {B} (k : bool -> P B) ty st l : (expect ty ≫= k) (st, key ty :: l) = k true (st, l).
Proof. apply bind_expect_yes. Qed.
Ltac is_stop := unfold stop, follow; cbn [first key word type app]; set_solver.

(** The commands of a pipeline behind its first one. *)
Fixpoint pipeline_rest_all (Q : command -> Prop) (r : pipeline_rest) : Prop :=
  match r with PEnd => True | PMore c r => Q c /\ pipeline_rest_all Q r end.
Fixpoint rest_length (r : pipeline_rest) : nat := match r with PEnd => 0 | PMore _ r => S (rest_length r) end.
(** The pipelines of a list behind its first one. *)
Fixpoint and_or_rest_all (Q : pipeline -> Prop) (r : and_or_rest) : Prop :=
  match r with AOEnd => True | AOMore _ p r => Q p /\ and_or_rest_all Q r end.
Fixpoint ao_length (r : and_or_rest) : nat := match r with AOEnd => 0 | AOMore _ _ r => S (ao_length r) end.
(** A program as its first list and the lists behind it. *)
Fixpoint program_all (Q : and_or -> Prop) (p : program) : Prop := match p with Last a => Q a | Then a p => Q a /\ program_all Q p end.
Fixpoint program_length (p : program) : nat := match p with Last _ => 1 | Then _ p => S (program_length p) end.
Definition head_of (p : program) : and_or := match p with Last a | Then a _ => a end.
Definition tail_tokens (p : program) : list token := match p with Last _ => [] | Then _ p => program_tokens p end.
Fixpoint tail_asts (p : program) : list (option ast) := match p with Last _ => [] | Then _ p => and_or_ast (head_of p) :: tail_asts p end.
Lemma program_split p : program_tokens p = and_or_tokens (head_of p) ++ key TOKEN_SEMICOLON :: tail_tokens p.
Proof. by destruct p. Qed.
Lemma program_ast_list p : program_ast p = Some (make_list (and_or_ast (head_of p)) (tail_asts p)).
Proof. induction p as [|a p IH]; [done|]. cbn [program_ast tail_asts make_list head_of]. by rewrite IH. Qed.
(** The status that the else part leaves. *)
Definition else_status (e : else_part) : parser_status := match e with NoElse => PARSER_UNEXPECTED_TOKEN | _ => PARSER_OK end.

Section compound.
Context (fuel : nat) (pcl : P (option ast)).

Lemma loop_ok ty node c b st l : parses pcl c -> parses pcl b ->
  parse_loop pcl ty node (st, key ty :: program_tokens c ++ key TOKEN_DO :: program_tokens b ++ key TOKEN_DONE :: l) =
    Ok (Some (node (program_ast c) (program_ast b)), (PARSER_OK, l)).
Proof.
  intros Hc Hb. unfold parse_loop. rewrite bind_expect_key. cbn [negb].
  call (apply Hc; is_stop). rewrite bind_failed_ok, bind_expect_key. cbn [negb].
  call (apply Hb; is_stop). rewrite bind_failed_ok, bind_expect_key. done.
Qed.

Lemma if_ok c t e st l : parses pcl c -> parses pcl t ->
  (forall st, parse_else_clause pcl fuel (st, else_tokens e ++ key TOKEN_FI :: l) = Ok (else_ast e, (else_status e, key TOKEN_FI :: l))) ->
  parse_rule_if fuel pcl (st, key TOKEN_IF :: program_tokens c ++ key TOKEN_THEN :: program_tokens t ++ else_tokens e ++ key TOKEN_FI :: l) =
    Ok (Some (AST_IF (program_ast c) (program_ast t) (else_ast e)), (PARSER_OK, l)).
Proof.
  intros Hc Ht He. unfold parse_rule_if. rewrite bind_expect_key. cbn [negb].
  call (apply Hc; is_stop). rewrite bind_failed_ok, bind_expect_key. cbn [negb].
  call (apply Ht; destruct e; is_stop). rewrite bind_failed_ok. call (apply He). by destruct e.
Qed.

Lemma elif_ok n c t e l : parses pcl c -> parses pcl t ->
  (forall st, parse_else_clause pcl n (st, else_tokens e ++ key TOKEN_FI :: l) = Ok (else_ast e, (else_status e, key TOKEN_FI :: l))) ->
  forall st, parse_else_clause pcl (S n) (st, else_tokens (Elif c t e) ++ key TOKEN_FI :: l) = Ok (else_ast (Elif c t e), (PARSER_OK, key TOKEN_FI :: l)).
Proof.
  intros Hc Ht He st. cbn [parse_else_clause else_tokens else_ast app]. rewrite bind_set, bind_peek. cbn [first].
  isa_eval. cbv iota. isa_eval. cbv iota. rewrite bind_pop. cbn [tail]. rewrite <-app_assoc. cbn [app].
  call (apply Hc; is_stop). rewrite bind_failed_ok. go. rewrite <-app_assoc.
  call (apply Ht; destruct e; is_stop). rewrite bind_failed_ok. call (apply He). by destruct e.
Qed.

Lemma words_ok n ws res st l : (length ws <= n)%nat -> wordy (first l) = false ->
  words_loop n res (st, (word <$> ws) ++ l) = Ok (match ws with [] => res | _ => Some (default [] res ++ ws) end, (st, l)).
Proof.
  revert n res. induction ws as [|w ws IH]; intros n res Hn Hl; cbn [fmap list_fmap app].
  - destruct n; cbn [words_loop]; by rewrite bind_peek, Hl.
  - destruct n as [|n]; [cbn in Hn; lia|]. cbn [words_loop]. rewrite bind_peek. cbn [first]. rewrite wordy_word, bind_pop_word.
    rewrite IH by (cbn in Hn; done || lia). destruct ws; [done|]. cbn [default from_option id]. by rewrite <-app_assoc.
Qed.

Lemma for_do_ok var ws b st l : parses pcl b ->
  aux_for_do pcl var ws (st, key TOKEN_DO :: program_tokens b ++ key TOKEN_DONE :: l) =
    Ok (Some (AST_FOR (program_ast b) var (default [ch "$@"] ws)), (PARSER_OK, l)).
Proof.
  intros Hb. unfold aux_for_do. rewrite bind_expect_key. cbn [negb]. call (apply Hb; is_stop). by rewrite bind_failed_ok.
Qed.

Lemma for_ok var ws b l : parses pcl b -> (length ws <= fuel)%nat ->
  parse_rule_for fuel pcl (PARSER_OK, compound_tokens (For var ws b) ++ l) = Ok (compound_ast (For var ws b), (PARSER_OK, l)).
Proof.
  intros Hb Hn. cbn [compound_tokens compound_ast app]. unfold parse_rule_for. rewrite bind_expect_key. cbn [negb].
  rewrite bind_peek. cbn [first]. rewrite wordy_word. cbn [negb]. rewrite bind_pop_word, <-app_assoc. cbn [app]. rewrite <-app_assoc. cbn [app].
  destruct ws as [|w ws].
  - cbn [app]. rewrite bind_peek. cbn [first]. isa_eval. cbv iota. rewrite bind_pop. cbn [tail].
    call (apply skip_none; done). by apply for_do_ok.
  - cbn [app]. rewrite bind_peek. cbn [first]. isa_eval. cbv iota. call (apply skip_none; done).
    rewrite bind_peek. cbn [first]. isa_eval. cbv iota. unfold get_words. rewrite bind_assoc, bind_expect_key. cbn [negb].
    call (apply (words_ok fuel (w :: ws)); done). rewrite bind_peek. cbn [first]. rewrite bind_failed_ok. cbn [orb].
    do 2 isa_eval. cbn [orb negb]. rewrite bind_pop. cbn [tail]. call (apply skip_none; done). by apply for_do_ok.
Qed.

Lemma subshell_ok p st l : parses pcl p ->
  parse_subshell pcl (st, key TOKEN_LPAREN :: program_tokens p ++ key TOKEN_RPAREN :: l) = Ok (Some (AST_SUBSHELL (program_ast p)), (PARSER_OK, l)).
Proof.
  intros Hp. unfold parse_subshell. rewrite bind_expect_key. cbn [negb]. call (apply Hp; is_stop). by rewrite bind_failed_ok, bind_expect_key.
Qed.

(** A rule whose keyword does not come next is skipped. *)
Ltac skip_rule := call (apply expect_no; [discriminate|done]); cbn [or_else].

Lemma while_shell c b st l : parses pcl c -> parses pcl b ->
  parse_shell_command fuel pcl (st, compound_tokens (While c b) ++ l) = Ok (compound_ast (While c b), (PARSER_OK, l)).
Proof.
  intros Hc Hb. cbn [compound_tokens app]. rewrite <-app_assoc. cbn [app]. rewrite <-app_assoc. unfold parse_shell_command. rewrite bind_set.
  skip_rule. call (apply try_ok; by apply loop_ok). done.
Qed.
Lemma until_shell c b st l : parses pcl c -> parses pcl b ->
  parse_shell_command fuel pcl (st, compound_tokens (Until c b) ++ l) = Ok (compound_ast (Until c b), (PARSER_OK, l)).
Proof.
  intros Hc Hb. cbn [compound_tokens app]. rewrite <-app_assoc. cbn [app]. rewrite <-app_assoc. unfold parse_shell_command. rewrite bind_set.
  do 2 skip_rule. call (apply try_ok; by apply loop_ok). done.
Qed.
Lemma if_shell c t e st l : parses pcl c -> parses pcl t ->
  (forall st, parse_else_clause pcl fuel (st, else_tokens e ++ key TOKEN_FI :: l) = Ok (else_ast e, (else_status e, key TOKEN_FI :: l))) ->
  parse_shell_command fuel pcl (st, compound_tokens (If c t e) ++ l) = Ok (compound_ast (If c t e), (PARSER_OK, l)).
Proof.
  intros Hc Ht He. cbn [compound_tokens app]. rewrite <-app_assoc. cbn [app]. rewrite <-!app_assoc. unfold parse_shell_command. rewrite bind_set.
  call (apply try_ok; by apply if_ok). done.
Qed.
Lemma for_shell var ws b st l : parses pcl b -> (length ws <= fuel)%nat ->
  parse_shell_command fuel pcl (st, compound_tokens (For var ws b) ++ l) = Ok (compound_ast (For var ws b), (PARSER_OK, l)).
Proof.
  intros Hb Hn. unfold parse_shell_command. rewrite bind_set.
  do 3 skip_rule. call (apply try_ok; by apply for_ok). done.
Qed.
Lemma subshell_shell p st l : parses pcl p ->
  parse_shell_command fuel pcl (st, compound_tokens (Subshell p) ++ l) = Ok (compound_ast (Subshell p), (PARSER_OK, l)).
Proof.
  intros Hp. cbn [compound_tokens app]. rewrite <-app_assoc. unfold parse_shell_command. rewrite bind_set.
  do 4 skip_rule. call (apply try_ok; by apply subshell_ok). done.
Qed.
Lemma braces_shell p st l : parses pcl p ->
  parse_shell_command fuel pcl (st, compound_tokens (Braces p) ++ l) = Ok (compound_ast (Braces p), (PARSER_OK, l)).
Proof.
  intros Hp. cbn [compound_tokens app]. rewrite <-app_assoc. unfold parse_shell_command. rewrite bind_set.
  do 5 skip_rule. rewrite bind_peek. cbn [first]. isa_eval. cbv iota. rewrite bind_pop. cbn [tail].
  call (apply Hp; is_stop). done.
Qed.

(** ** Commands, pipelines and lists over a parser of compound commands *)

Lemma program_ast_some p : exists a, program_ast p = Some a.
Proof. destruct p; by eexists. Qed.
Lemma compound_ast_some c : exists a, compound_ast c = Some a.
Proof. destruct c; try by eexists. apply program_ast_some. Qed.

(** The token that a compound command starts with. *)
Lemma compound_first c l : exists ty, first (compound_tokens c ++ l) = key ty /\ ty ∈ [TOKEN_IF; TOKEN_WHILE; TOKEN_UNTIL; TOKEN_FOR; TOKEN_LPAREN; TOKEN_LBRACE].
Proof. destruct c; eexists; (split; [reflexivity|set_solver]). Qed.
Lemma compound_first_facts c l : let t := first (compound_tokens c ++ l) in
  no_redir t /\ type t <> TOKEN_WORD /\ type t <> TOKEN_NEWLINE /\ type t <> TOKEN_NOT.
Proof. destruct c; vm_compute; repeat split; discriminate. Qed.

Definition reads_compound (c : compound) : Prop :=
  forall st l, parse_shell_command fuel pcl (st, compound_tokens c ++ l) = Ok (compound_ast c, (PARSER_OK, l)).

Lemma function_ok name c st l : reads_compound c ->
  parse_command fuel pcl (st, command_tokens (Function name c) ++ l) = Ok (command_ast (Function name c), (PARSER_OK, l)).
Proof.
  intros Hc. assert (E : parse_funcdec fuel pcl (PARSER_OK, command_tokens (Function name c) ++ l) = Ok (command_ast (Function name c), (PARSER_OK, l))).
  { unfold parse_funcdec. cbn [command_tokens app]. go. unfold expect. go. cbn [negb].
    call (apply skip_none; by apply compound_first_facts). call (apply Hc). by rewrite bind_failed_ok. }
  unfold parse_command. rewrite bind_set. by call (apply try_ok, E).
Qed.

Lemma compound_command_ok c rs st l : reads_compound c -> Forall redir_ok rs -> (length rs <= fuel)%nat -> no_redir (first l) ->
  parse_command fuel pcl (st, command_tokens (Compound c rs) ++ l) = Ok (command_ast (Compound c rs), (PARSER_OK, l)).
Proof.
  intros Hc Hrs Hn Hl. cbn [command_tokens command_ast]. rewrite <-app_assoc.
  destruct (compound_first_facts c ((rs ≫= redir_tokens) ++ l)) as (Hr & Hw & _). unfold parse_command. rewrite bind_set.
  call (apply funcdec_no; by left). cbn [or_else]. call (by apply simple_command_no). cbn [or_else].
  call (apply try_ok, Hc). destruct (compound_ast_some c) as [a Ha]. rewrite Ha.
  call (by apply get_redirections_ok). destruct (chain (inr <$> rs) None) as [h|] eqn:E; [by rewrite <-(link_chain _ h)|by destruct rs].
Qed.

(** The first tokens of an item and of a command. *)
Lemma items_first its l : Forall prefix_ok its \/ Forall element_ok its -> its <> [] ->
  let t := first (items_tokens its ++ l) in type t <> TOKEN_LPAREN /\ type t <> TOKEN_NOT /\ type t <> TOKEN_NEWLINE.
Proof.
  destruct its as [|[w|r] its]; [done|done|]. intros Hok _.
  assert (Hr : redir_ok r) by (destruct Hok as [H|H]; inversion H; done). apply redir_shape in Hr as (_ & _ & _ & Hl & Hn & Hw & _).
  unfold items_tokens, redir_tokens. cbn [mbind list_bind item_tokens]. unfold redir_tokens. by destruct (io r).
Qed.
Lemma items_not_lparen its l : Forall prefix_ok its \/ Forall element_ok its -> type (first l) <> TOKEN_LPAREN ->
  type (first (items_tokens its ++ l)) <> TOKEN_LPAREN.
Proof. intros Hok Hl. destruct its as [|i its]; [done|]. by apply items_first. Qed.

Lemma funcdec_no_items i its l : prefix_ok i -> type (first (items_tokens its ++ l)) <> TOKEN_LPAREN ->
  let l := items_tokens (i :: its) ++ l in type (first l) <> TOKEN_WORD \/ type (first (tail l)) <> TOKEN_LPAREN.
Proof.
  destruct i as [w|r]; intros Hi Hl; [by right|]. left. unfold items_tokens. cbn [mbind list_bind item_tokens]. unfold redir_tokens.
  destruct (io r); [done|]. by apply redir_shape.
Qed.

Lemma simple_ok pre w els st l l' : command_ok (Simple pre w els) -> (length pre + length els <= fuel)%nat -> elements_end l l' -> type (first l) <> TOKEN_LPAREN ->
  parse_command fuel pcl (st, command_tokens (Simple pre w els) ++ l) = Ok (command_ast (Simple pre w els), (PARSER_OK, l')).
Proof.
  intros (Hp & Hw & He) Hn Hl Hlp. cbn [command_tokens]. rewrite <-app_assoc. cbn [app]. unfold parse_command. rewrite bind_set.
  assert (Hnl : type (first (items_tokens els ++ l)) <> TOKEN_LPAREN) by (apply items_not_lparen; [by right|done]).
  call (apply funcdec_no; destruct Hp as [|i pre Hi Hp]; [by right|apply funcdec_no_items; [done|by apply items_not_lparen; [left|]]]).
  cbn [or_else]. call (by apply simple_command_ok). cbn [command_ast].
  destruct (chain pre _) eqn:E; [done|]. destruct pre; [|done]. by destruct (redirs_of els).
Qed.
Lemma bare_ok p pre st l : command_ok (Bare p pre) -> (length (p :: pre) <= fuel)%nat -> follow (first l) ->
  parse_command fuel pcl (st, command_tokens (Bare p pre) ++ l) = Ok (command_ast (Bare p pre), (PARSER_OK, l)).
Proof.
  intros Hok Hn Hl. cbn [command_tokens]. unfold parse_command. rewrite bind_set. assert (Hok' := Hok). inversion_clear Hok' as [|? ? Hp Hpre].
  call (apply funcdec_no, funcdec_no_items; [done|apply items_not_lparen; [by left|by apply follow_facts]]).
  cbn [or_else]. call (by apply bare_command_ok). done.
Qed.

Lemma command_first c l : command_ok c -> let t := first (command_tokens c ++ l) in type t <> TOKEN_NOT /\ type t <> TOKEN_NEWLINE.
Proof.
  destruct c as [pre w els|p pre|c rs|name c]; cbn [command_tokens]; [| | |done].
  - intros (Hp & _). rewrite <-app_assoc. destruct pre as [|i pre]; [done|]. by apply items_first; [left|].
  - intros Hp. by apply items_first; [left|].
  - intros _. rewrite <-app_assoc. split; by apply compound_first_facts.
Qed.

(** The command parser reads [c]. *)
Definition reads_command (c : command) : Prop :=
  command_ok c /\ forall st l, follow (first l) -> parse_command fuel pcl (st, command_tokens c ++ l) = Ok (command_ast c, (PARSER_OK, l)).

Lemma pipeline_rec_ok r : forall n c st l,
  reads_command c -> pipeline_rest_all reads_command r -> (rest_length r <= n)%nat -> follow (first l) -> type (first l) <> TOKEN_PIPE ->
  parse_pipeline_rec fuel pcl n (st, command_tokens c ++ pipeline_rest_tokens r ++ l) = Ok (pipeline_rest_ast (PMore c r), (PARSER_OK, l)).
Proof.
  induction r as [|c' r IH]; intros n c st l [Hok Hc] Hr Hn Hl Hp; cbn [pipeline_rest_tokens pipeline_rest_ast app].
  - destruct n; cbn [parse_pipeline_rec]; rewrite bind_set; call (by apply Hc); by rewrite bind_failed_ok, bind_peek, isa_no.
  - destruct Hr as [Hc' Hr]. cbn in Hn. destruct n as [|n]; [lia|]. cbn [parse_pipeline_rec]. rewrite bind_set.
    call (apply Hc; is_stop). rewrite bind_failed_ok, bind_peek. cbn [first]. isa_eval. cbv iota. rewrite bind_pop. cbn [tail]. rewrite <-app_assoc.
    call (apply skip_none, command_first, Hc'). call (apply IH; [done|done|lia|done|done]). by rewrite bind_failed_ok.
Qed.

Definition after_pipeline (t : token) : Prop := type t ∈ [TOKEN_SEMICOLON; TOKEN_AND; TOKEN_OR].
Lemma after_pipeline_facts t : after_pipeline t -> follow t /\ type t <> TOKEN_PIPE.
Proof. unfold after_pipeline, follow. rewrite !elem_of_cons, elem_of_nil. intros [-> | [-> | [-> | []]]]; split; done || tauto. Qed.

Lemma not_expected neg c r l : command_ok c ->
  forall (k : bool -> P (option ast)), (expect TOKEN_NOT ≫= k) (PARSER_OK, pipeline_tokens (Pipeline neg c r) ++ l) =
    k neg (PARSER_OK, command_tokens c ++ pipeline_rest_tokens r ++ l).
Proof.
  intros Hc k. cbn [pipeline_tokens]. destruct neg; cbn [app].
  - by rewrite bind_expect_key, <-app_assoc.
  - rewrite <-app_assoc. by apply bind_expect_no, command_first.
Qed.

Lemma pipeline_ok' neg c r st l :
  reads_command c -> pipeline_rest_all reads_command r -> (rest_length r <= fuel)%nat -> after_pipeline (first l) ->
  parse_pipeline fuel pcl (st, pipeline_tokens (Pipeline neg c r) ++ l) = Ok (pipeline_ast (Pipeline neg c r), (PARSER_OK, l)).
Proof.
  intros [Hok Hc] Hr Hn Hl. destruct (after_pipeline_facts _ Hl) as [Hf Hp]. unfold parse_pipeline. rewrite bind_set, not_expected by done.
  destruct r as [|c' r]; cbn [pipeline_rest_tokens pipeline_ast app].
  - call (by apply Hc). by rewrite bind_failed_ok, bind_peek, isa_no.
  - destruct Hr as [Hc' Hr]. call (apply Hc; is_stop). rewrite bind_failed_ok, bind_peek. cbn [first]. isa_eval. cbv iota.
    rewrite bind_pop. cbn [tail]. rewrite <-app_assoc. call (apply skip_none, command_first, Hc').
    cbn in Hn. call (apply pipeline_rec_ok; [done|done|lia|done|done]). rewrite bind_failed_ok. by destruct neg.
Qed.

(** The pipeline parser reads [p]. *)
Definition reads_pipeline (p : pipeline) : Prop :=
  pipeline_ok p /\ forall st l, after_pipeline (first l) -> parse_pipeline fuel pcl (st, pipeline_tokens p ++ l) = Ok (pipeline_ast p, (PARSER_OK, l)).

Lemma pipeline_first p l : pipeline_ok p -> type (first (pipeline_tokens p ++ l)) <> TOKEN_NEWLINE.
Proof. destruct p as [[] c r]; intros [Hc _]; cbn [pipeline_tokens app]; [done|]. rewrite <-app_assoc. by apply command_first. Qed.

Lemma ao_rest_first r l : type (first l) = TOKEN_SEMICOLON -> after_pipeline (first (and_or_rest_tokens r ++ l)).
Proof. intros Hl. unfold after_pipeline. destruct r as [|[] p r]; cbn [and_or_rest_tokens app]; [rewrite Hl|..]; cbn; set_solver. Qed.

Lemma and_or_loop_ok r : forall n left l,
  and_or_rest_all reads_pipeline r -> (ao_length r <= n)%nat -> type (first l) = TOKEN_SEMICOLON ->
  and_or_loop fuel pcl n left (PARSER_OK, and_or_rest_tokens r ++ l) = Ok (and_or_rest_ast r left, (PARSER_OK, l)).
Proof.
  induction r as [|or p r IH]; intros n left l Hr Hn Hl; cbn [and_or_rest_tokens and_or_rest_ast app].
  - destruct n; cbn [and_or_loop]; unfold get_next; rewrite bind_assoc, bind_peek, !isa_no by congruence; done.
  - destruct Hr as [[Hok Hp] Hr]. cbn in Hn. destruct n as [|n]; [lia|]. cbn [and_or_loop]. rewrite <-app_assoc. destruct or;
    (call (unfold get_next; rewrite bind_peek; cbn [first];
      do 2 isa_eval; cbn [orb]; rewrite bind_pop; cbn [tail];
      call (by apply skip_none, pipeline_first); call (by apply Hp, ao_rest_first); rewrite bind_failed_ok; reflexivity)); by rewrite IH by (done || lia).
Qed.

Lemma and_or_reads p r st l :
  reads_pipeline p -> and_or_rest_all reads_pipeline r -> (ao_length r <= fuel)%nat -> type (first l) = TOKEN_SEMICOLON ->
  parse_and_or fuel pcl (st, and_or_tokens (AndOr p r) ++ l) = Ok (and_or_ast (AndOr p r), (PARSER_OK, l)).
Proof.
  intros [Hok Hp] Hr Hn Hl. cbn [and_or_tokens and_or_ast]. rewrite <-app_assoc. unfold parse_and_or. rewrite bind_set.
  call (by apply Hp, ao_rest_first). rewrite bind_failed_ok. by apply and_or_loop_ok.
Qed.

(** Nothing is read where no command starts. *)
Definition stop_or_end (t : token) : Prop := stop t \/ type t = TOKEN_NEWLINE \/ type t = TOKEN_EOF.
Lemma stop_facts t : stop_or_end t -> no_redir t /\ type t ∉ [TOKEN_WORD; TOKEN_NOT; TOKEN_IF; TOKEN_WHILE; TOKEN_UNTIL; TOKEN_FOR; TOKEN_LPAREN; TOKEN_LBRACE].
Proof.
  destruct t as [ty v]. unfold stop_or_end, stop, no_redir. cbn [type]. rewrite !elem_of_cons, elem_of_nil.
  destruct ty; intros Hs; try (exfalso; naive_solver; fail); (split; [done|set_solver]).
Qed.
Lemma command_stops st l : stop_or_end (first l) -> parse_command fuel pcl (st, l) = Ok (None, (PARSER_UNEXPECTED_TOKEN, l)).
Proof.
  intros (Hr & Hn)%stop_facts. assert (Hne : forall ty, ty ∈ [TOKEN_WORD; TOKEN_NOT; TOKEN_IF; TOKEN_WHILE; TOKEN_UNTIL; TOKEN_FOR; TOKEN_LPAREN; TOKEN_LBRACE] -> type (first l) <> ty) by congruence.
  unfold parse_command. rewrite bind_set. call (apply funcdec_no; left; apply Hne; set_solver). cbn [or_else].
  call (apply simple_command_no; [done|apply Hne; set_solver]). cbn [or_else].
  call (apply try_ok; unfold parse_shell_command; rewrite bind_set; do 5 (call (apply expect_no; [apply Hne; set_solver|done]); cbn [or_else]);
    rewrite bind_peek, isa_no by (apply Hne; set_solver); reflexivity). done.
Qed.
Lemma and_or_stops st l : stop_or_end (first l) -> parse_and_or fuel pcl (st, l) = Ok (None, (PARSER_UNEXPECTED_TOKEN, l)).
Proof.
  intros Hs. unfold parse_and_or. rewrite bind_set.
  call (unfold parse_pipeline; rewrite bind_set, bind_expect_no by (destruct (stop_facts _ Hs); set_solver); call (by apply command_stops); rewrite bind_failed_bad; reflexivity).
  by rewrite bind_failed_bad.
Qed.

(** ** Lists *)

(** The list parser reads the and-or list [a]. *)
Definition reads_and_or (a : and_or) : Prop :=
  and_or_ok a /\ forall st l, type (first l) = TOKEN_SEMICOLON -> parse_and_or fuel pcl (st, and_or_tokens a ++ l) = Ok (and_or_ast a, (PARSER_OK, l)).

Lemma and_or_first a l : and_or_ok a -> type (first (and_or_tokens a ++ l)) <> TOKEN_NEWLINE.
Proof. destruct a as [p r]. intros [Hp _]. cbn [and_or_tokens]. rewrite <-app_assoc. by apply pipeline_first. Qed.

Lemma list_loop_ok sep before p rest : forall n,
  (forall ty, ty = TOKEN_SEMICOLON -> sep (key ty) = true) ->
  (forall st l, type (first l) <> TOKEN_NEWLINE -> before (st, l) = Ok (tt, (st, l))) ->
  before (PARSER_OK, rest) = Ok (tt, (PARSER_OK, rest)) ->
  program_all reads_and_or p -> (program_length p <= n)%nat -> stop_or_end (first rest) ->
  list_loop sep before (parse_and_or fuel pcl) n (PARSER_OK, key TOKEN_SEMICOLON :: tail_tokens p ++ rest) = Ok (tail_asts p, (PARSER_OK, rest)).
Proof.
  induction p as [a|a p IH]; intros n Hsep Hb Hbr Hp Hn Hrest; cbn [program_length tail_tokens tail_asts app] in *.
  all: (destruct n as [|n]; [lia|]); cbn [list_loop]; rewrite bind_peek; cbn [first]; rewrite Hsep by done; rewrite bind_pop; cbn [tail].
  - call (apply Hbr). call (by apply and_or_stops). by rewrite bind_failed_bad.
  - destruct Hp as [_ Hp]. rewrite program_split, <-app_assoc. cbn [app].
    assert (Hh : reads_and_or (head_of p)) by (destruct p; apply Hp). destruct Hh as [Hok Hh].
    call (by apply Hb, and_or_first). call (by apply Hh). rewrite bind_failed_ok.
    call (apply IH; [done|done|done|done|lia|done]). done.
Qed.

Lemma program_head_reads p : program_all reads_and_or p -> reads_and_or (head_of p).
Proof. destruct p; apply id || intros []; done. Qed.

End compound.

(** The parser of compound lists, one level up. *)
Lemma compound_list_ok fuel d p :
  program_all (reads_and_or fuel (parse_compound_list d fuel)) p -> (program_length p <= fuel)%nat -> parses (parse_compound_list (S d) fuel) p.
Proof.
  intros Hp Hn st l Hl. cbn [parse_compound_list]. rewrite bind_set, program_split, <-app_assoc. cbn [app].
  assert (Hnl : type (first l) <> TOKEN_NEWLINE) by (destruct (first l) as [ty v]; unfold stop in Hl; cbn in *; intros ->; set_solver).
  destruct (program_head_reads _ _ _ Hp) as [Hok Hh]. call (by apply skip_none, and_or_first). call (by apply Hh). rewrite bind_failed_ok.
  assert (Hb : forall st (l : list token), type (first l) <> TOKEN_NEWLINE -> (_ ← skip_newlines fuel; mret tt : P unit) (st, l) = Ok (tt, (st, l)))
    by (intros st' l' Hl'; by call (by apply skip_none)).
  call (apply list_loop_ok; [by intros ? ->|exact Hb|by apply Hb|done|done|by left]).
  call (by apply skip_none). by rewrite program_ast_list.
Qed.

Lemma list_ok fuel d p st l :
  program_all (reads_and_or fuel (parse_compound_list d fuel)) p -> (program_length p <= fuel)%nat -> stop_or_end (first l) ->
  parse_list d fuel (st, program_tokens p ++ l) = Ok (program_ast p, (PARSER_OK, l)).
Proof.
  intros Hp Hn Hl. unfold parse_list. rewrite bind_set, program_split, <-app_assoc. cbn [app].
  destruct (program_head_reads _ _ _ Hp) as [Hok Hh]. call (by apply Hh). rewrite bind_failed_ok.
  call (apply list_loop_ok; [by intros ? ->|done|done|done|done|done]). by rewrite program_ast_list.
Qed.

(** ** Every program is read *)

Lemma redir_tokens_length r : (1 <= length (redir_tokens r))%nat.
Proof. unfold redir_tokens. destruct (io r); cbn; lia. Qed.
Lemma items_length its : (length its <= length (items_tokens its))%nat.
Proof.
  induction its as [|i its IH]; [done|]. unfold items_tokens in *. cbn [mbind list_bind length]. rewrite length_app.
  assert (1 <= length (item_tokens i))%nat by (destruct i as [w|r]; [done|apply redir_tokens_length]). lia.
Qed.
Lemma redirs_length rs : (length rs <= length (rs ≫= redir_tokens))%nat.
Proof. induction rs as [|r rs IH]; [done|]. cbn [mbind list_bind length] in *. rewrite length_app. pose proof (redir_tokens_length r). lia. Qed.
Lemma rest_tokens_length r : (rest_length r <= length (pipeline_rest_tokens r))%nat.
Proof. induction r as [|c r IH]; [done|]. cbn. rewrite length_app. lia. Qed.
Lemma ao_tokens_length r : (ao_length r <= length (and_or_rest_tokens r))%nat.
Proof. induction r as [|o p r IH]; [done|]. cbn. rewrite length_app. lia. Qed.
Lemma program_tokens_length p : (program_length p <= length (program_tokens p))%nat.
Proof. induction p as [a|a p IH]; cbn; rewrite length_app; cbn; lia. Qed.

Definition fits (l : list token) (d fuel : nat) : Prop := (length l <= d)%nat /\ (length l <= fuel)%nat.

Lemma parses_of p : (forall d fuel, program_ok p -> fits (program_tokens p) d fuel -> program_all (reads_and_or fuel (parse_compound_list d fuel)) p) ->
  forall d fuel, program_ok p -> (length (program_tokens p) < d)%nat -> (length (program_tokens p) <= fuel)%nat -> parses (parse_compound_list d fuel) p.
Proof.
  intros H d fuel Hok Hd Hf. destruct d as [|d]; [lia|]. apply compound_list_ok; [apply H; [done|split; lia]|].
  pose proof (program_tokens_length p). lia.
Qed.

Ltac sizes := unfold fits in *; cbn [command_tokens compound_tokens else_tokens program_tokens and_or_tokens and_or_rest_tokens pipeline_tokens pipeline_rest_tokens
    items_tokens] in *; repeat (rewrite ?length_app, ?length_cons, ?length_fmap, ?length_nil in *; cbn [length] in * ); try lia.
Ltac part H := apply H; [tauto|sizes..].

Lemma all_read :
  (forall c d fuel, command_ok c -> fits (command_tokens c) d fuel -> reads_command fuel (parse_compound_list d fuel) c) /\
  (forall c d fuel, compound_ok c -> fits (compound_tokens c) d fuel -> reads_compound fuel (parse_compound_list d fuel) c) /\
  (forall e d fuel n st l, else_ok e -> fits (else_tokens e) d fuel -> (length (else_tokens e) <= n)%nat ->
    parse_else_clause (parse_compound_list d fuel) n (st, else_tokens e ++ key TOKEN_FI :: l) = Ok (else_ast e, (else_status e, key TOKEN_FI :: l))) /\
  (forall p d fuel, program_ok p -> fits (program_tokens p) d fuel -> program_all (reads_and_or fuel (parse_compound_list d fuel)) p) /\
  (forall a d fuel, and_or_ok a -> fits (and_or_tokens a) d fuel -> reads_and_or fuel (parse_compound_list d fuel) a) /\
  (forall r d fuel, and_or_rest_ok r -> fits (and_or_rest_tokens r) d fuel -> and_or_rest_all (reads_pipeline fuel (parse_compound_list d fuel)) r) /\
  (forall p d fuel, pipeline_ok p -> fits (pipeline_tokens p) d fuel -> reads_pipeline fuel (parse_compound_list d fuel) p) /\
  (forall r d fuel, pipeline_rest_ok r -> fits (pipeline_rest_tokens r) d fuel -> pipeline_rest_all (reads_command fuel (parse_compound_list d fuel)) r).
Proof.
  apply syntax_ind.
  - intros pre w els d fuel Hok Hs. split; [done|]. intros st l Hl. apply simple_ok; [done| |by apply follow_end|by apply follow_facts].
    pose proof (items_length pre). pose proof (items_length els). sizes.
  - intros p pre d fuel Hok Hs. split; [done|]. intros st l Hl. apply bare_ok; [done| |done].
    pose proof (items_length (p :: pre)). sizes.
  - intros c IH rs d fuel [Hok Hrs] Hs. split; [done|]. intros st l Hl. apply compound_command_ok; [part IH|done| |by apply follow_facts].
    pose proof (redirs_length rs). sizes.
  - intros name c IH d fuel Hok Hs. split; [done|]. intros st l Hl. apply function_ok. part IH.
  - intros c IHc t IHt e IHe d fuel (Hc & Ht & He) Hs st l. apply if_shell; [eapply parses_of; sizes; done..|]. intros st'. apply IHe; sizes. done.
  - intros c IHc b IHb d fuel (Hc & Hb) Hs st l. apply while_shell; eapply parses_of; sizes; done.
  - intros c IHc b IHb d fuel (Hc & Hb) Hs st l. apply until_shell; eapply parses_of; sizes; done.
  - intros var ws b IHb d fuel Hb Hs st l. apply for_shell; [eapply parses_of; sizes; done|]. destruct ws; sizes.
  - intros p IHp d fuel Hp Hs st l. apply subshell_shell; eapply parses_of; sizes; done.
  - intros p IHp d fuel Hp Hs st l. apply braces_shell; eapply parses_of; sizes; done.
  - intros d fuel n st l _ _ _. by destruct n.
  - intros p IHp d fuel n st l Hp Hs Hn. cbn [else_tokens else_ast else_status].
    assert (Hr : parses (parse_compound_list d fuel) p) by (eapply parses_of; sizes; done).
    destruct n; cbn [parse_else_clause app]; rewrite bind_set, bind_peek; cbn [first]; isa_eval; cbv iota; rewrite bind_pop; apply Hr; is_stop.
  - intros c IHc t IHt e IHe d fuel n st l (Hc & Ht & He) Hs Hn. destruct n as [|n]; [sizes|].
    apply elif_ok; [eapply parses_of; sizes; done..|]. intros st'. apply IHe; sizes. done.
  - intros a IH d fuel Hok Hs. part IH.
  - intros a IHa p IHp d fuel [Ha Hp] Hs. split; [part IHa|part IHp].
  - intros p IHp r IHr d fuel [Hp Hr] Hs. split; [done|]. intros st l Hl.
    apply and_or_reads; [part IHp|part IHr| |done]. pose proof (ao_tokens_length r). sizes.
  - done.
  - intros or p IHp r IHr d fuel [Hp Hr] Hs. split; [part IHp|part IHr].
  - intros neg c IHc r IHr d fuel [Hc Hr] Hs. split; [done|]. intros st l Hl.
    apply pipeline_ok'; [part IHc|part IHr| |done]. pose proof (rest_tokens_length r). sizes.
  - done.
  - intros c IHc r IHr d fuel [Hc Hr] Hs. split; [part IHc|part IHr].
Qed.

(** No program starts with one of the tokens that end the input. *)
Lemma item_first i l : prefix_ok i -> type (first (item_tokens i ++ l)) ∉ [TOKEN_ERROR; TOKEN_EOF; TOKEN_NEWLINE].
Proof.
  destruct i as [w|r]; cbn [item_tokens]; [set_solver|]. unfold redir_tokens. destruct (io r); [set_solver|].
  cbn [prefix_ok app first key type]. unfold redir_ok. destruct (op r); vm_compute (is_redir _); intros [=]; set_solver.
Qed.
Lemma program_first p l : program_ok p -> type (first (program_tokens p ++ l)) ∉ [TOKEN_ERROR; TOKEN_EOF; TOKEN_NEWLINE].
Proof.
  rewrite program_split. intros Hp. assert (Ha : and_or_ok (head_of p)) by (destruct p; apply Hp).
  destruct (head_of p) as [[neg c r] r']. destruct Ha as [[Hc _] _]. cbn [and_or_tokens pipeline_tokens]. rewrite <-!app_assoc.
  destruct neg; [set_solver|]. cbn [app]. destruct c as [[|i pre] w els|i pre|c rs|name c]; cbn [command_tokens command_ok] in *.
  - set_solver.
  - destruct Hc as [Hc _]. inversion_clear Hc. cbn [items_tokens mbind list_bind]. rewrite <-!app_assoc. by apply item_first.
  - inversion_clear Hc. cbn [items_tokens mbind list_bind]. rewrite <-!app_assoc. by apply item_first.
  - rewrite <-app_assoc. destruct (compound_first c ((rs ≫= redir_tokens) ++ pipeline_rest_tokens r ++ and_or_rest_tokens r' ++ key TOKEN_SEMICOLON :: tail_tokens p ++ l)) as (ty & -> & Hty).
    cbn [key type]. set_solver.
  - set_solver.
Qed.

(** What ends the input, and the status that says so. *)
Definition ends (l : list token) (st : parser_status) (l' : list token) : Prop :=
  match st with
  | PARSER_OK => exists v, l = mkTok TOKEN_NEWLINE v :: l'
  | PARSER_EOF => type (first l) = TOKEN_EOF /\ l' = tail l
  | PARSER_UNEXPECTED_TOKEN => False
  end.

Lemma input_ok p depth fuel st l st' l' :
  program_ok p -> (length (program_tokens p) <= depth)%nat -> (length (program_tokens p) <= fuel)%nat -> ends l st' l' ->
  parse_input depth fuel (st, program_tokens p ++ l) = Ok (program_ast p, (st', l')).
Proof.
  intros Hok Hd Hf Hl. pose proof (program_first p l Hok) as Hfirst.
  assert (Hs : stop_or_end (first l)) by (destruct st'; [destruct Hl as [v ->]; by right; left|destruct Hl; by right; right|done]).
  assert (Hp : parse_list depth fuel (st, program_tokens p ++ l) = Ok (program_ast p, (PARSER_OK, l))).
  { apply list_ok; [apply all_read; [done|by split]| |done]. pose proof (program_tokens_length p). lia. }
  unfold parse_input. rewrite bind_peek, !isa_no by set_solver. cbn [orb]. call (apply Hp). rewrite bind_failed_ok, bind_peek.
  destruct st'; [destruct Hl as [v ->]; by go|destruct Hl as [Ht ->]|done].
  unfold isa at 1. rewrite Ht. cbv beta. rewrite bool_decide_true by done. by go.
Qed.

(** The parser reads back what a program of the shell's grammar is printed as.  For every program (commands with assignments, redirections
    and arguments, the compound commands, functions, pipelines, and-or lists) whose assignments have an equals sign and whose command names
    have none, followed by a newline or by the end of the input, [parse_input] returns the tree of the program, consumes its tokens and
    the one that ends it, and reports the end of the input if that is what it found.  The number of tokens bounds the nesting and the
    iterations of every loop. *)
Theorem parse_printed p depth fuel st l st' l' :
  program_ok p -> (length (program_tokens p) <= depth)%nat -> (length (program_tokens p) <= fuel)%nat -> ends l st' l' ->
  parse_input depth fuel (st, program_tokens p ++ l) = Ok (program_ast p, (st', l')).
Proof. apply input_ok. Qed.

(** ** Termination *)

(** [m] from the state [(st, l)] does not run out of fuel, and leaves a state where [Q] holds if it returns. *)
Definition wp {A} (m : P A) (Q : A -> parser_status -> list token -> Prop) (st : parser_status) (l : list token) : Prop :=
  match m (st, l) with Ok (a, (st', l')) => Q a st' l' | NoFuel => False | _ => True end.

Section wp.
Context {A B : Type} (st : parser_status) (l : list token).

Lemma wp_bind (m : P A) (k : A -> P B) Q : wp m (fun a st l => wp (k a) Q st l) st l -> wp (m ≫= k) Q st l.
Proof. unfold wp, mbind, M_bind. by destruct (m (st, l)) as [[a [st' l']]| | |]. Qed.
Lemma wp_mono (m : P A) Q (Q' : A -> parser_status -> list token -> Prop) : wp m Q st l -> (forall a st' l', Q a st' l' -> Q' a st' l') -> wp m Q' st l.
Proof. unfold wp. destruct (m (st, l)) as [[a [st' l']]| | |]; auto. Qed.
Lemma wp_ret (a : A) (Q : A -> parser_status -> list token -> Prop) : Q a st l -> wp (mret a) Q st l.
Proof. done. Qed.
Lemma wp_lift (r : option A) (Q : A -> parser_status -> list token -> Prop) : (forall a, Q a st l) -> wp (lift (deref r)) Q st l.
Proof. intros H. destruct r; [apply H|done]. Qed.
End wp.

Section wp_token.
Context (st : parser_status) (l : list token).
Lemma wp_peek (Q : token -> parser_status -> list token -> Prop) : Q (first l) st l -> wp peek Q st l.
Proof. done. Qed.
Lemma wp_peek_2 (Q : token -> parser_status -> list token -> Prop) : Q (first (tail l)) st l -> wp peek_2 Q st l.
Proof. done. Qed.
Lemma wp_pop (Q : token -> parser_status -> list token -> Prop) : Q (first l) st (tail l) -> wp pop Q st l.
Proof. done. Qed.
Lemma wp_set (Q : unit -> parser_status -> list token -> Prop) st' : Q tt st' l -> wp (set_status st') Q st l.
Proof. done. Qed.
Lemma wp_failed (Q : bool -> parser_status -> list token -> Prop) : (forall b, Q b st l) -> wp failed Q st l.
Proof. intros H. apply H. Qed.
Lemma wp_error (Q : option ast -> parser_status -> list token -> Prop) : Q None PARSER_UNEXPECTED_TOKEN l -> wp handle_error_parser Q st l.
Proof. done. Qed.
Lemma wp_expect ty (Q : bool -> parser_status -> list token -> Prop) :
  ty <> TOKEN_EOF -> ((1 <= length l)%nat -> Q true st (tail l)) -> Q false st l -> wp (expect ty) Q st l.
Proof.
  intros Hne Ht Hf. unfold wp. unfold expect. rewrite bind_peek. destruct (isa (first l) ty) eqn:E; [|done].
  apply bool_decide_eq_true in E. apply Ht. destruct l; cbn in *; [congruence|lia].
Qed.
Lemma wp_fault {A} (Q : A -> parser_status -> list token -> Prop) : wp fault Q st l.
Proof. done. Qed.
End wp_token.

(** A test that the end of the input fails. *)
Lemma nonempty (b : token -> bool) l : b eof = false -> b (first l) = true -> (1 <= length l)%nat.
Proof. destruct l; cbn; [congruence|lia]. Qed.

Ltac wp_test c :=
  let E := fresh "E" in
  destruct c eqn:E;
  [try match c with context [first ?l] => let d := eval pattern (first l) in c in match d with ?f _ => pose proof (nonempty f l eq_refl E) end end|].
Ltac lengths := rewrite ?length_tl in *; cbn [length] in *; try lia.
Ltac wp_step :=
  match goal with
  | |- wp (_ ≫= _) _ _ _ => apply wp_bind
  | |- wp peek _ _ _ => apply wp_peek
  | |- wp peek_2 _ _ _ => apply wp_peek_2
  | |- wp pop _ _ _ => apply wp_pop
  | |- wp (set_status _) _ _ _ => apply wp_set
  | |- wp failed _ _ _ => apply wp_failed; intros ?
  | |- wp handle_error_parser _ _ _ => apply wp_error
  | |- wp (mret _) _ _ _ => apply wp_ret
  | |- wp (lift _) _ _ _ => apply wp_lift; intros ?
  | |- wp fault _ _ _ => apply wp_fault
  | |- wp (expect _) _ _ _ => apply wp_expect; [discriminate|intros ?|]; cbn [negb]
  | |- wp (if true then _ else _) _ _ _ => cbv iota
  | |- wp (if false then _ else _) _ _ _ => cbv iota
  | |- wp (if negb ?c then _ else _) _ _ _ => wp_test c; cbn [negb]
  | |- wp (if ?c then _ else _) _ _ _ => wp_test c
  | |- wp (match ?c with _ => _ end) _ _ _ => destruct c eqn:?
  end; cbv beta.
Ltac wps := repeat wp_step.

(** The tokens that are left: no more than before, and fewer where something was read. *)
Definition eats {A} (l : list token) (a : option A) (_ : parser_status) (l' : list token) : Prop :=
  (length l' <= length l)%nat /\ (is_Some a -> (length l' < length l)%nat).
Definition shrinks {A} (l : list token) (_ : A) (_ : parser_status) (l' : list token) : Prop := (length l' <= length l)%nat.
Ltac eaten := unfold eats, shrinks in *; lengths; try tauto; try (split; [lengths|intros [? [=]]; lengths]).

Lemma wp_pop_word st l Q : (forall w, Q w st (tail l)) -> wp pop_word Q st l.
Proof. intros H. unfold pop_word. wps. apply H. Qed.
Lemma redirection_eats st l : wp parse_redirection (eats l) st l.
Proof. unfold parse_redirection. wps; try (apply wp_pop_word; intros; wps); eaten. Qed.

Lemma try_eats (f : P (option ast)) st l : wp f (eats l) PARSER_OK l -> wp (try_rule f) (eats l) st l.
Proof. intros H. unfold try_rule. do 2 wp_step. wp_step. eapply wp_mono; [exact H|]. intros a st' l' Ha. wps; eaten. Qed.
Lemma try_shrinks (f : P (option ast)) st l : wp f (shrinks l) PARSER_OK l -> wp (try_rule f) (shrinks l) st l.
Proof. intros H. unfold try_rule. do 2 wp_step. wp_step. eapply wp_mono; [exact H|]. intros a st' l' Ha. wps; eaten. Qed.

(** A call of a function with the specification [H]. *)
Ltac wp_call H := eapply wp_mono; [apply H; eaten|intros ? ? ? ?]; cbv beta.

Lemma element_eats st l : wp parse_element (eats l) st l.
Proof. unfold parse_element. wps; [apply wp_pop_word; intros; wps; eaten|]. wp_call redirection_eats. done. Qed.
Lemma prefix_eats st l : wp parse_prefix (eats l) st l.
Proof. unfold parse_prefix. wps; try (wp_call redirection_eats; done); eaten. Qed.

Lemma skip_shrinks n : forall st l, (length l <= n)%nat -> wp (skip_newlines n) (shrinks l) st l.
Proof. induction n as [|n IH]; intros st l Hn; cbn [skip_newlines]; wps; eaten. wp_call IH. eaten. Qed.

Lemma get_prefix_eats n : forall st l, (length l <= n)%nat -> wp (get_prefix n) (eats l) st l.
Proof.
  induction n as [|n IH]; intros st l Hn; cbn [get_prefix]; wp_step; (eapply wp_mono; [apply try_eats, prefix_eats|]); intros a st' l' [Ha Hs]; wps; eaten.
  - specialize (Hs (ex_intro _ _ eq_refl)). lia.
  - specialize (Hs (ex_intro _ _ eq_refl)). wp_call IH. wps. eaten.
Qed.
Lemma get_redirections_eats n : forall st l, (length l <= n)%nat -> wp (get_redirections n) (eats l) st l.
Proof.
  induction n as [|n IH]; intros st l Hn; cbn [get_redirections]; wp_step; (eapply wp_mono; [apply try_eats, redirection_eats|]); intros a st' l' [Ha Hs]; wps; eaten.
  - specialize (Hs (ex_intro _ _ eq_refl)). lia.
  - specialize (Hs (ex_intro _ _ eq_refl)). wp_call IH. wps. eaten.
Qed.
Lemma elements_shrinks n : forall argv head st l, (length l <= n)%nat -> wp (elements n argv head) (shrinks l) st l.
Proof.
  induction n as [|n IH]; intros argv head st l Hn; cbn [elements]; wp_step; (eapply wp_mono; [apply try_eats, element_eats|]); intros a st' l' [Ha Hs]; wps; eaten.
  1: specialize (Hs (ex_intro _ _ eq_refl)); lia.
  all: specialize (Hs (ex_intro _ _ eq_refl)); wp_call IH; eaten.
Qed.
Lemma simple_command_eats n st l : (length l <= n)%nat -> wp (parse_simple_command n) (shrinks l) st l.
Proof.
  intros Hn. unfold parse_simple_command. wp_step. wp_call get_prefix_eats. unfold get_args. wps; eaten.
  all: try (wp_call elements_shrinks; wps; eaten).
Qed.

(** The rules over a parser of compound lists that terminates on fewer tokens than [d]. *)
Section rules_terminate.
Context (fuel d : nat) (pcl : P (option ast)).
Hypothesis pcl_shrinks : forall st l, (length l < d)%nat -> (length l <= fuel)%nat -> wp pcl (shrinks l) st l.

Definition within (l : list token) : Prop := (length l <= d)%nat /\ (length l <= fuel)%nat.
Ltac calls := repeat (wps; try match goal with
  | |- wp pcl _ _ _ => wp_call pcl_shrinks
  | |- wp (skip_newlines _) _ _ _ => wp_call skip_shrinks
  | |- wp pop_word _ _ _ => apply wp_pop_word; intros ?
  end).
Ltac finish := calls; unfold within in *; eaten.

Lemma loop_shrinks ty node st l : ty <> TOKEN_EOF -> within l -> wp (parse_loop pcl ty node) (shrinks l) st l.
Proof. intros Hty Hl. unfold parse_loop. wp_step. apply wp_expect; [done|intros ?|]; cbn [negb]; finish. Qed.
Lemma else_shrinks n : forall st l, within l -> (length l <= n)%nat -> wp (parse_else_clause pcl n) (shrinks l) st l.
Proof.
  induction n as [|n IH]; intros st l Hl Hn; cbn [parse_else_clause]; finish.
  all: wp_call IH; finish.
Qed.
Lemma if_shrinks st l : within l -> wp (parse_rule_if fuel pcl) (shrinks l) st l.
Proof. intros Hl. unfold parse_rule_if. finish. wp_call else_shrinks; finish. Qed.
Lemma words_shrinks n : forall r st l, (length l <= n)%nat -> wp (words_loop n r) (shrinks l) st l.
Proof. induction n as [|n IH]; intros r st l Hn; cbn [words_loop]; finish. wp_call IH. finish. Qed.
Lemma for_do_shrinks var ws st l : within l -> wp (aux_for_do pcl var ws) (shrinks l) st l.
Proof. intros Hl. unfold aux_for_do. finish. Qed.

Lemma for_shrinks st l : within l -> wp (parse_rule_for fuel pcl) (shrinks l) st l.
Proof.
  intros Hl. unfold parse_rule_for, get_words. finish.
  all: try (wp_call words_shrinks; finish). all: wp_call for_do_shrinks; finish.
Qed.
Lemma subshell_shrinks st l : within l -> wp (parse_subshell pcl) (shrinks l) st l.
Proof. intros Hl. unfold parse_subshell. finish. Qed.
Lemma or_else_shrinks r k st l l0 : (length l <= length l0)%nat -> wp k (shrinks l) st l -> wp (or_else r k) (shrinks l0) st l.
Proof. intros Hl Hk. destruct r; [by finish|]. cbn [or_else]. eapply wp_mono; [exact Hk|]. finish. Qed.

(** A rule that is tried, and what is tried when it fails. *)
Lemma attempt_shrinks f k st l :
  within l -> (forall st l, within l -> wp f (shrinks l) st l) -> (forall st l, within l -> wp k (shrinks l) st l) ->
  wp (r ← try_rule f; or_else r k) (shrinks l) st l.
Proof.
  intros Hl Hf Hk. wp_step. eapply wp_mono; [by apply try_shrinks, Hf|]. intros r st' l' Hr. apply or_else_shrinks; [done|]. apply Hk.
  unfold within, shrinks in *. lia.
Qed.
Lemma shell_command_shrinks st l : within l -> wp (parse_shell_command fuel pcl) (shrinks l) st l.
Proof.
  intros Hl. unfold parse_shell_command. do 2 wp_step. apply attempt_shrinks; [done|apply if_shrinks|clear st l Hl; intros st l Hl].
  apply attempt_shrinks; [done|by intros; apply loop_shrinks|clear st l Hl; intros st l Hl].
  apply attempt_shrinks; [done|by intros; apply loop_shrinks|clear st l Hl; intros st l Hl].
  apply attempt_shrinks; [done|apply for_shrinks|clear st l Hl; intros st l Hl].
  apply attempt_shrinks; [done|apply subshell_shrinks|clear st l Hl; intros st l Hl]. finish.
Qed.
Lemma funcdec_shrinks st l : within l -> wp (parse_funcdec fuel pcl) (shrinks l) st l.
Proof. intros Hl. unfold parse_funcdec. finish. all: wp_call shell_command_shrinks; finish. Qed.
Lemma command_shrinks st l : within l -> wp (parse_command fuel pcl) (shrinks l) st l.
Proof.
  intros Hl. unfold parse_command. do 2 wp_step. apply attempt_shrinks; [done|apply funcdec_shrinks|clear st l Hl; intros st l Hl].
  apply attempt_shrinks; [done|intros; apply simple_command_eats; unfold within in *; lia|clear st l Hl; intros st l Hl].
  wp_step. eapply wp_mono; [by apply try_shrinks, shell_command_shrinks|]. intros a st' l' Ha. finish.
  wp_call get_redirections_eats; finish.
Qed.
Lemma pipeline_rec_shrinks n : forall st l, within l -> (length l <= n)%nat -> wp (parse_pipeline_rec fuel pcl n) (shrinks l) st l.
Proof.
  induction n as [|n IH]; intros st l Hl Hn; cbn [parse_pipeline_rec]; do 3 wp_step; wp_call command_shrinks; finish. wp_call IH; finish.
Qed.
Lemma pipeline_shrinks st l : within l -> wp (parse_pipeline fuel pcl) (shrinks l) st l.
Proof.
  intros Hl. unfold parse_pipeline. finish. all: wp_call command_shrinks; finish. all: wp_call pipeline_rec_shrinks; finish.
Qed.
Lemma get_next_eats st l : within l -> wp (get_next fuel pcl) (eats l) st l.
Proof. intros Hl. unfold get_next. finish. wp_call pipeline_shrinks; finish. Qed.
Lemma and_or_loop_shrinks n : forall r st l, within l -> (length l <= n)%nat -> wp (and_or_loop fuel pcl n r) (shrinks l) st l.
Proof.
  induction n as [|n IH]; intros r st l Hl Hn; cbn [and_or_loop]; wp_step; (eapply wp_mono; [by apply get_next_eats|]); intros a st' l' [Ha Hs]; finish.
  all: specialize (Hs (ex_intro _ _ eq_refl)); try lia. wp_call IH; finish.
Qed.
Lemma and_or_shrinks st l : within l -> wp (parse_and_or fuel pcl) (shrinks l) st l.
Proof. intros Hl. unfold parse_and_or. do 3 wp_step. wp_call pipeline_shrinks; finish. wp_call and_or_loop_shrinks; finish. Qed.
Lemma list_loop_shrinks sep before n :
  sep eof = false -> (forall st l, within l -> wp before (shrinks l) st l) ->
  forall st l, within l -> (length l <= n)%nat -> wp (list_loop sep before (parse_and_or fuel pcl) n) (shrinks l) st l.
Proof.
  intros Hsep Hb. induction n as [|n IH]; intros st l Hl Hn; cbn [list_loop]; do 2 wp_step; (destruct (sep (first l)) eqn:E; [apply nonempty in E; [|done]|]); finish.
  wp_call Hb; finish. wp_call and_or_shrinks; finish. wp_call IH; finish.
Qed.

End rules_terminate.

Lemma compound_list_shrinks fuel d : forall st l, (length l < d)%nat -> (length l <= fuel)%nat -> wp (parse_compound_list d fuel) (shrinks l) st l.
Proof.
  induction d as [|d IH]; intros st l Hd Hf; [lia|]. cbn [parse_compound_list]. do 3 wp_step. wp_call skip_shrinks. wps.
  assert (Hp : forall st l, (length l < d)%nat -> (length l <= fuel)%nat -> wp (parse_compound_list d fuel) (shrinks l) st l) by apply IH.
  eapply wp_mono; [apply (and_or_shrinks fuel d); [done|unfold within; eaten]|]. intros p1 st1 l1 H1. wps; [eaten|].
  eapply wp_mono; [apply (list_loop_shrinks fuel d); [done|done| |unfold within; eaten|eaten]|].
  - intros st2 l2 [_ H2]. wp_step. wp_call skip_shrinks. wps. eaten.
  - intros rest st2 l2 H2. wps. wp_call skip_shrinks. wps. eaten.
Qed.

(** Claim C29: the parser terminates.  Whatever the tokens are (a program or not), [parse_input] comes to an end, where the nesting and the
    iterations of a loop are bounded by the number of tokens: it returns a tree or an error with no more tokens left than it was given,
    or it stops at a fault, and it never runs out of fuel. *)
Theorem parser_terminates l st depth fuel : (length l <= depth)%nat -> (length l <= fuel)%nat ->
  match parse_input depth fuel (st, l) with
  | Ok (_, (_, l')) => (length l' <= length l)%nat
  | NoFuel => False
  | Fault | Panic => True
  end.
Proof.
  intros Hd Hf. enough (H : wp (parse_input depth fuel) (shrinks l) st l).
  { unfold wp, shrinks in H. by destruct (parse_input depth fuel (st, l)) as [[a [st' l']]| | |]. }
  unfold parse_input, parse_list. wps; eaten.
  eapply wp_mono; [apply (and_or_shrinks fuel depth); [intros; by apply compound_list_shrinks|by split]|]. intros p1 st1 l1 H1. wps; eaten.
  eapply wp_mono; [apply (list_loop_shrinks fuel depth); [intros; by apply compound_list_shrinks|done| |unfold within; eaten|eaten]|].
  - intros st2 l2 _. wps. eaten.
  - intros rest st2 l2 H2. wps; eaten.
Qed.

(** ** Malformed input *)

Lemma bind_Fault {A B} (m : P A) (k : A -> P B) s : m s = Fault -> (m ≫= k) s = Fault.
Proof. intros E. unfold mbind, M_bind. by rewrite E. Qed.

(** A pipeline that is negated and breaks off behind a bar is freed twice: the node of the negation owns the pipeline, both are
    freed, and then the pipeline is freed again.  It happens for every command and whatever token that starts no command comes next, the
    end of the input included. *)
Theorem negated_pipeline_freed_twice c depth fuel st l :
  command_ok c -> fits (command_tokens c) depth fuel -> stop (first l) \/ type (first l) = TOKEN_EOF ->
  parse_input depth fuel (st, key TOKEN_NOT :: command_tokens c ++ key TOKEN_PIPE :: l) = Fault.
Proof.
  intros Hok Hs Hl. destruct (proj1 all_read c depth fuel Hok Hs) as [_ Hc].
  assert (Hnl : type (first l) <> TOKEN_NEWLINE) by (unfold stop in Hl; intros E; rewrite E in Hl; set_solver).
  assert (Hse : stop_or_end (first l)) by (destruct Hl; [by left|by right; right]).
  unfold parse_input. rewrite bind_peek. cbn [first]. do 3 isa_eval. cbn [orb]. apply bind_Fault.
  unfold parse_list. rewrite bind_set. apply bind_Fault. unfold parse_and_or. rewrite bind_set. apply bind_Fault.
  unfold parse_pipeline. rewrite bind_set, bind_expect_key. call (apply Hc; is_stop). rewrite bind_failed_ok, bind_peek. cbn [first]. isa_eval. cbv iota.
  rewrite bind_pop. cbn [tail]. call (by apply skip_none).
  assert (E : parse_pipeline_rec fuel (parse_compound_list depth fuel) fuel (PARSER_OK, l) = Ok (None, (PARSER_UNEXPECTED_TOKEN, l))).
  { destruct fuel; cbn [parse_pipeline_rec]; rewrite bind_set; call (by apply command_stops); by rewrite bind_failed_bad. }
  call (apply E). by rewrite bind_failed_bad.
Qed.

(** A redirection that has no target is dropped.  The operator is read before the parser sees that no word follows, and the attempt is
    undone in its status but not in the tokens: the command is read as if the operator had not been there, and no error is reported. *)
Theorem missing_target_ignored pre w els o depth fuel st l :
  command_ok (Simple pre w els) -> (length pre + length els <= fuel)%nat -> is_redir (key o) = true -> follow (first l) ->
  parse_command fuel (parse_compound_list depth fuel) (st, command_tokens (Simple pre w els) ++ key o :: l) =
    Ok (command_ast (Simple pre w els), (PARSER_OK, l)).
Proof.
  intros Hok Hn Ho Hl. apply simple_ok; [done|done|apply operator_end; [done|by apply follow_facts]|].
  cbn [first key type]. by apply (redir_shape (mkR None o [])).
Qed.

(** ** Examples *)

Definition one (w : string) : program := Last (AndOr (Pipeline false (Simple [] (ch w) []) PEnd) AOEnd).

(** [if ! a b; then f() { x=1; }; fi 2>o | c || d; for i in 1 2; do e; done;] *)
Definition sample : program :=
  Then (AndOr (Pipeline false (Compound (If (Last (AndOr (Pipeline true (Simple [] (ch "a") [inl (ch "b")]) PEnd) AOEnd))
    (Last (AndOr (Pipeline false (Function (ch "f") (Braces (Last (AndOr (Pipeline false (Bare (inl (ch "x=1")) []) PEnd) AOEnd)))) PEnd) AOEnd)) NoElse)
    [mkR (Some (ch "2")) TOKEN_REDIR_G (ch "o")]) (PMore (Simple [] (ch "c") []) PEnd)) (AOMore true (Pipeline false (Simple [] (ch "d") []) PEnd) AOEnd))
    (Last (AndOr (Pipeline false (Compound (For (ch "i") [ch "1"; ch "2"] (one "e")) []) PEnd) AOEnd)).

Ltac check_ok := repeat split; repeat constructor; vm_compute; done || lia.

Lemma parse_printed_witness :
  parse_input 100 100 (PARSER_OK, program_tokens sample ++ [key TOKEN_NEWLINE]) = Ok (program_ast sample, (PARSER_OK, [])).
Proof. apply parse_printed; [check_ok|vm_compute; lia|vm_compute; lia|by exists None]. Defined.

Lemma parser_terminates_witness :
  match parse_input 3 3 (PARSER_OK, [key TOKEN_IF; word (ch "a"); key TOKEN_PIPE]) with
  | Ok (_, (_, l')) => (length l' <= 3)%nat | NoFuel => False | Fault | Panic => True end.
Proof. apply (parser_terminates [key TOKEN_IF; word (ch "a"); key TOKEN_PIPE]); cbn; lia. Defined.

Lemma negated_pipeline_freed_twice_witness :
  parse_input 5 5 (PARSER_OK, key TOKEN_NOT :: command_tokens (Simple [] (ch "a") []) ++ [key TOKEN_PIPE]) = Fault.
Proof. apply negated_pipeline_freed_twice; [check_ok|split; cbn; lia|by right]. Defined.

Lemma missing_target_ignored_witness :
  parse_command 5 (parse_compound_list 5 5) (PARSER_OK, command_tokens (Simple [] (ch "echo") [inl (ch "a")]) ++ [key TOKEN_REDIR_G; key TOKEN_SEMICOLON]) =
    Ok (Some (AST_ARGV [ch "echo"; ch "a"]), (PARSER_OK, [key TOKEN_SEMICOLON])).
Proof. apply (missing_target_ignored [] (ch "echo") [inl (ch "a")]); [check_ok|cbn; lia|done|is_stop]. Defined.

(** Input that the grammar does not have is accepted: a bar at the end of the input behind a list drops the command before it
    ([a; b |] is [a]), a function may have no body ([f()]), an [else] may be empty, and [for x in ;] goes over the arguments of the
    shell as [for x;] does. *)
Theorem malformed_input_accepted :
  parse_input 9 9 (PARSER_OK, [word (ch "a"); key TOKEN_SEMICOLON; word (ch "b"); key TOKEN_PIPE]) =
    Ok (Some (AST_LIST (Some (AST_ARGV [ch "a"])) None), (PARSER_EOF, [])) /\
  parse_input 9 9 (PARSER_OK, [word (ch "f"); key TOKEN_LPAREN; key TOKEN_RPAREN; key TOKEN_NEWLINE; key TOKEN_NEWLINE]) =
    Ok (Some (AST_LIST (Some (AST_FUNCDEF (ch "f") None)) None), (PARSER_EOF, [])) /\
  parse_input 9 9 (PARSER_OK, [key TOKEN_IF; word (ch "a"); key TOKEN_SEMICOLON; key TOKEN_THEN; word (ch "b"); key TOKEN_SEMICOLON; key TOKEN_ELSE; key TOKEN_FI]) =
    Ok (Some (AST_LIST (Some (AST_IF (Some (AST_LIST (Some (AST_ARGV [ch "a"])) None)) (Some (AST_LIST (Some (AST_ARGV [ch "b"])) None)) None)) None), (PARSER_EOF, [])) /\
  parse_input 9 9 (PARSER_OK, [key TOKEN_FOR; word (ch "x"); key TOKEN_IN; key TOKEN_SEMICOLON; key TOKEN_DO; word (ch "a"); key TOKEN_SEMICOLON; key TOKEN_DONE]) =
    parse_input 9 9 (PARSER_OK, [key TOKEN_FOR; word (ch "x"); key TOKEN_SEMICOLON; key TOKEN_DO; word (ch "a"); key TOKEN_SEMICOLON; key TOKEN_DONE]).
Proof. repeat split; vm_compute; reflexivity. Qed.

End ShParser.
