(* ===== verification/ShTree.v ===== *)
(** * The trees of the shell's parser

    The nodes of a syntax tree have three pointers without a type ([void *]), whose types are comments of [ast.h].  The theorem shows that
    every tree that the parser builds, from any tokens and any lexer, has pointers of these types. *)

From Stdlib Require Import String.
From stdpp Require Import base tactics numbers list.
From S2P Require Import Prelude ShParser.
Open Scope Z_scope.

Module ShTree.
Import ShParser.

(** ** The types of the pointers *)

Definition is_list (a : ast) : bool := match a with AST_LIST _ _ => true | _ => false end.
Definition is_pipe (a : ast) : bool := match a with AST_PIPE _ _ => true | _ => false end.
Definition is_else (a : ast) : bool := match a with AST_LIST _ _ | AST_IF _ _ _ => true | _ => false end.

(** A node and all nodes below it have pointers as the comments say: the conditions and bodies are lists, the rest of a list is a list,
    the rest of a pipeline is a pipeline, an else part is a list or another condition, no word is left outside of an argument vector,
    which has the name of the command, a loop has words to go over. *)
Fixpoint typed (a : ast) : bool :=
  match a with
  | AST_STRING _ => false
  | AST_ARGV argv => negb (bool_decide (argv = []))
  | AST_LIST (Some p1) None => typed p1
  | AST_LIST (Some p1) (Some p2) => typed p1 && is_list p2 && typed p2
  | AST_IF (Some c) (Some t) None => is_list c && typed c && is_list t && typed t
  | AST_IF (Some c) (Some t) (Some e) => is_list c && typed c && is_list t && typed t && is_else e && typed e
  | AST_REDIR _ None => true
  | AST_REDIR _ (Some n) => typed n
  | AST_PIPE (Some c) None => typed c
  | AST_PIPE (Some c) (Some r) => typed c && is_pipe r && typed r
  | AST_NOT (Some c) => typed c
  | AST_SUBSHELL (Some c) => is_list c && typed c
  | AST_WHILE (Some c) (Some b) | AST_UNTIL (Some c) (Some b) => is_list c && typed c && is_list b && typed b
  | AST_AND (Some a) (Some b) | AST_OR (Some a) (Some b) => typed a && typed b
  | AST_ASSIGN _ None => true
  | AST_ASSIGN _ (Some n) => typed n
  | AST_FOR (Some b) _ ws => is_list b && typed b && negb (bool_decide (ws = []))
  | AST_FUNCDEF _ None => true
  | AST_FUNCDEF _ (Some b) => typed b
  | _ => false
  end.

Fixpoint typed_link (h n : ast) {struct h} : typed h = true -> typed n = true -> typed (link h n) = true.
Proof. destruct h as [| | | |i [h|]| | | | | | | |w [h|]| |]; cbn; auto. Qed.

(** ** What a parser gives *)

Section parser.
Context {L : Type} `{Lexer L}.

(** Every result of [m] from the status [st], with the status it leaves, satisfies [Q]. *)
Definition gives {A} (m : M (L := L) A) (Q : A -> parser_status -> Prop) (st : parser_status) : Prop :=
  forall l, match m (st, l) with Ok (a, (st', _)) => Q a st' | _ => True end.

Lemma gives_bind {A B} (m : M (L := L) A) (k : A -> M (L := L) B) Q st : gives m (fun a st => gives (k a) Q st) st -> gives (m ≫= k) Q st.
Proof. intros Hm l. specialize (Hm l). unfold mbind, M_bind. destruct (m (st, l)) as [[a [st' l']]| | |]; [apply Hm|done..]. Qed.
Lemma gives_mono {A} (m : M (L := L) A) Q (Q' : A -> parser_status -> Prop) st : gives m Q st -> (forall a st', Q a st' -> Q' a st') -> gives m Q' st.
Proof. intros Hm HQ l. specialize (Hm l). destruct (m (st, l)) as [[a [st' l']]| | |]; auto. Qed.
Lemma gives_ret {A} (a : A) (Q : A -> parser_status -> Prop) st : Q a st -> gives (mret a) Q st.
Proof. intros HQ l. exact HQ. Qed.
Lemma gives_lift {A} (r : option A) (Q : A -> parser_status -> Prop) st : (forall a, Q a st) -> gives (lift (deref r)) Q st.
Proof. intros HQ l. destruct r; [apply HQ|done]. Qed.
Lemma gives_peek (Q : token -> parser_status -> Prop) st : (forall t, Q t st) -> gives peek Q st.
Proof. intros HQ l. unfold peek, mbind, res_bind. destruct (lexer_peek l) as [[t l']| | |]; [apply HQ|done..]. Qed.
Lemma gives_peek_2 (Q : token -> parser_status -> Prop) st : (forall t, Q t st) -> gives peek_2 Q st.
Proof. intros HQ l. unfold peek_2, mbind, res_bind. destruct (lexer_peek_2 l) as [[t l']| | |]; [apply HQ|done..]. Qed.
Lemma gives_pop (Q : token -> parser_status -> Prop) st : (forall t, Q t st) -> gives pop Q st.
Proof. intros HQ l. unfold pop, mbind, res_bind. destruct (lexer_pop l) as [[t l']| | |]; [apply HQ|done..]. Qed.
Lemma gives_set (Q : unit -> parser_status -> Prop) st st' : Q tt st' -> gives (set_status st') Q st.
Proof. intros HQ l. exact HQ. Qed.
Lemma gives_failed (Q : bool -> parser_status -> Prop) st :
  (st = PARSER_UNEXPECTED_TOKEN -> Q true st) -> (st <> PARSER_UNEXPECTED_TOKEN -> Q false st) -> gives failed Q st.
Proof. intros Ht Hf l. destruct st; [by apply Hf|by apply Hf|by apply Ht]. Qed.
Lemma gives_error (Q : option ast -> parser_status -> Prop) st : Q None PARSER_UNEXPECTED_TOKEN -> gives handle_error_parser Q st.
Proof. intros HQ l. exact HQ. Qed.
Lemma gives_no_fuel {A} (Q : A -> parser_status -> Prop) st : gives no_fuel Q st.
Proof. done. Qed.
Lemma gives_fault {A} (Q : A -> parser_status -> Prop) st : gives fault Q st.
Proof. done. Qed.

Lemma gives_expect ty (Q : bool -> parser_status -> Prop) st : (forall b, Q b st) -> gives (expect ty) Q st.
Proof.
  intros HQ. apply gives_bind, gives_peek. intros t. destruct (isa t ty); [apply gives_bind, gives_pop; intros _|]; apply gives_ret, HQ.
Qed.
Lemma gives_pop_word (Q : str -> parser_status -> Prop) st : (forall w, Q w st) -> gives pop_word Q st.
Proof. intros HQ. apply gives_bind, gives_pop. intros t. by apply gives_lift. Qed.
Lemma gives_skip n (Q : token -> parser_status -> Prop) : forall st, (forall t, Q t st) -> gives (skip_newlines n) Q st.
Proof.
  induction n as [|n IH]; intros st HQ; cbn [skip_newlines]; apply gives_bind, gives_peek; intros t; (destruct (isa t TOKEN_NEWLINE); [|by apply gives_ret]).
  - apply gives_no_fuel.
  - apply gives_bind, gives_pop. intros _. by apply IH.
Qed.

Ltac gv_step :=
  match goal with
  | |- gives (_ ≫= _) _ _ => apply gives_bind
  | |- gives peek _ _ => apply gives_peek; intros ?
  | |- gives peek_2 _ _ => apply gives_peek_2; intros ?
  | |- gives pop _ _ => apply gives_pop; intros ?
  | |- gives (set_status _) _ _ => apply gives_set
  | |- gives failed _ _ => apply gives_failed; intros ?
  | |- gives handle_error_parser _ _ => apply gives_error
  | |- gives (mret _) _ _ => apply gives_ret
  | |- gives (lift _) _ _ => apply gives_lift; intros ?
  | |- gives fault _ _ => apply gives_fault
  | |- gives no_fuel _ _ => apply gives_no_fuel
  | |- gives (expect _) _ _ => apply gives_expect; intros []; cbn [negb]
  | |- gives pop_word _ _ => apply gives_pop_word; intros ?
  | |- gives (skip_newlines _) _ _ => apply gives_skip; intros ?
  | |- gives (if true then _ else _) _ _ => cbv iota
  | |- gives (if false then _ else _) _ _ => cbv iota
  | |- gives (if ?c then _ else _) _ _ => destruct c
  | |- gives (match ?c with _ => _ end) _ _ => destruct c
  end; cbv beta.
Ltac gvs := repeat gv_step.

(** The results: nothing, or a tree with the property [T]; unless there is an error, a tree. *)
Definition maybe (T : ast -> Prop) (a : option ast) (_ : parser_status) : Prop := forall x, a = Some x -> T x.
Definition surely (T : ast -> Prop) (a : option ast) (st : parser_status) : Prop :=
  maybe T a st /\ (st <> PARSER_UNEXPECTED_TOKEN -> is_Some a).
Definition tree (a : ast) : Prop := typed a = true.
Definition list_tree (a : ast) : Prop := is_list a = true /\ typed a = true.

Ltac gv_call H := eapply gives_mono; [apply H|intros ? ? ?]; cbv beta.
(** Facts about the result of a call, and the tree that is built of such results. *)
Ltac results :=
  unfold surely, maybe, tree, list_tree in *; repeat match goal with
  | H : _ /\ _ |- _ => destruct H
  | H : ?st <> ?x, H' : ?st <> ?x -> is_Some _ |- _ => specialize (H' H)
  | H : is_Some ?a |- _ => destruct H as [? ->]
  | H : forall x, Some ?a = Some x -> _ |- _ => specialize (H a eq_refl)
  | H : forall x, None = Some x -> _ |- _ => clear H
  end.
Ltac built := results; try done; try (split; [|by eexists]); try (intros ? [= <-]); cbn [typed is_list is_pipe is_else]; rewrite ?andb_true_iff; auto 10.

Lemma try_maybe T (f : M (L := L) (option ast)) st : gives f (maybe T) PARSER_OK -> gives (try_rule f) (maybe T) st.
Proof. intros Hf. unfold try_rule. gvs. eapply gives_mono; [exact Hf|]. intros a st' Ha. by gvs. Qed.

Ltac gv_try H := eapply gives_mono; [apply try_maybe, H|intros ? ? ?]; cbv beta.

(** *** Simple commands *)

Definition redir_node (a : ast) : Prop := exists i, a = AST_REDIR i None.
Definition prefix_node (a : ast) : Prop := redir_node a \/ exists w, a = AST_ASSIGN w None.
Definition element_node (a : ast) : Prop := redir_node a \/ exists w, a = AST_STRING w.

Lemma redirection_gives st : gives parse_redirection (maybe redir_node) st.
Proof. unfold parse_redirection. gvs; intros ? [=]; subst; by eexists. Qed.
Lemma prefix_gives st : gives parse_prefix (maybe prefix_node) st.
Proof. unfold parse_prefix. gvs; try (gv_call redirection_gives; intros x Hx; left; by auto); intros ? [=]; subst; right; by eexists. Qed.
Lemma element_gives st : gives parse_element (maybe element_node) st.
Proof. unfold parse_element. gvs; try (gv_call redirection_gives; intros x Hx; left; by auto); intros ? [=]; subst; right; by eexists. Qed.

Lemma set_p2_tree p next : prefix_node p -> (forall x, next = Some x -> tree x) -> tree (set_p2 p next).
Proof. intros [[i ->] | [w ->]] Hn; (destruct next as [n|]; [exact (Hn n eq_refl)|done]). Qed.

Lemma get_prefix_gives n : forall st, gives (get_prefix n) (maybe tree) st.
Proof.
  induction n as [|n IH]; intros st; cbn [get_prefix]; gvs; gv_try prefix_gives; gvs; try done.
  gv_call IH. gvs. results. intros ? [= <-]. by apply set_p2_tree.
Qed.
Lemma get_redirections_gives n : forall st, gives (get_redirections n) (maybe tree) st.
Proof.
  induction n as [|n IH]; intros st; cbn [get_redirections]; gvs; gv_try redirection_gives; gvs; try done.
  gv_call IH. gvs. results. intros ? [= <-]. apply set_p2_tree; [by left|done].
Qed.

Definition args_result (r : option (list str * option ast)) (_ : parser_status) : Prop :=
  forall argv head, r = Some (argv, head) -> argv <> [] /\ forall h, head = Some h -> tree h.
Lemma elements_gives n : forall argv head st, argv <> [] -> (forall h, head = Some h -> tree h) -> gives (elements n argv head) args_result st.
Proof.
  induction n as [|n IH]; intros argv head st Ha Hh; cbn [elements]; gvs; gv_try element_gives; gvs; try (intros ? ? [= <- <-]; done); try done.
  - apply IH; [by destruct argv|done].
  - apply IH; [done|]. intros h [= <-]. results. destruct H0 as [[i ->] | [w [=]]]. destruct head as [h|]; [|done]. by apply typed_link; [apply Hh|].
Qed.
Lemma args_gives fuel st : gives (get_args fuel) (maybe tree) st.
Proof.
  unfold get_args. gvs; try done. eapply gives_mono; [by apply elements_gives|]. intros r st' Hr. gvs; try done.
  all: destruct (Hr _ _ eq_refl) as [Ha Hh]; intros ? [= <-].
  - apply typed_link; [by apply Hh|]. cbn. by rewrite bool_decide_false.
  - unfold tree. cbn. by rewrite bool_decide_false.
Qed.
Lemma simple_command_gives fuel st : gives (parse_simple_command fuel) (surely tree) st.
Proof.
  unfold parse_simple_command. gvs. gv_call get_prefix_gives. gvs; try built. all: gv_call args_gives; gvs; built.
  by apply typed_link.
Qed.

(** *** Compound commands, over a parser of compound lists *)

Section rules.
Context (fuel : nat) (pcl : M (L := L) (option ast)).
Hypothesis pcl_gives : forall st, gives pcl (surely list_tree) st.

Ltac calls := repeat (gvs; try match goal with |- gives pcl _ _ => gv_call pcl_gives end); try by built.

Lemma while_gives st : gives (parse_rule_while pcl) (maybe tree) st.
Proof. unfold parse_rule_while, parse_loop. calls. Qed.
Lemma until_gives st : gives (parse_rule_until pcl) (maybe tree) st.
Proof. unfold parse_rule_until, parse_loop. calls. Qed.
Lemma subshell_gives st : gives (parse_subshell pcl) (maybe tree) st.
Proof. unfold parse_subshell. calls. Qed.
Definition else_tree (a : ast) : Prop := is_else a = true /\ typed a = true.
Lemma list_else a : list_tree a -> else_tree a.
Proof. intros [Hl Ht]. split; [by destruct a|done]. Qed.
Lemma if_tree c t e : list_tree c -> list_tree t -> (forall x, e = Some x -> else_tree x) -> tree (AST_IF (Some c) (Some t) e).
Proof.
  intros [Hc Hc'] [Ht Ht'] He. unfold tree. cbn [typed]. destruct e as [e|]; rewrite ?Hc, ?Hc', ?Ht, ?Ht'; [|done].
  destruct (He e eq_refl) as [He1 He2]. by rewrite He1, He2.
Qed.
Lemma else_gives n : forall st, gives (parse_else_clause pcl n) (maybe else_tree) st.
Proof.
  induction n as [|n IH]; intros st; cbn [parse_else_clause]; calls.
  1,2: intros x ->; apply list_else; built. gv_call IH. gvs; results; intros ? [= <-]; split; try done; by apply if_tree.
Qed.
Lemma if_gives st : gives (parse_rule_if fuel pcl) (maybe tree) st.
Proof. unfold parse_rule_if. calls. gv_call else_gives. gvs; try by built. all: results; intros ? [= <-]; by apply if_tree. Qed.
Lemma words_gives n : forall r st, r <> Some [] -> gives (words_loop n r) (fun r _ => r <> Some []) st.
Proof. induction n as [|n IH]; intros r st Hr; cbn [words_loop]; gvs; try done. apply IH. by destruct (default [] r). Qed.
Lemma for_do_gives var ws st : ws <> Some [] -> gives (aux_for_do pcl var ws) (maybe tree) st.
Proof.
  intros Hw. unfold aux_for_do. calls. results. intros ? [= <-]. cbn [typed]. repeat match goal with H : _ = true |- _ => rewrite H end. cbn [andb].
  rewrite bool_decide_false; [done|]. destruct ws as [ws|]; cbn; congruence.
Qed.
Lemma for_gives st : gives (parse_rule_for fuel pcl) (maybe tree) st.
Proof.
  unfold parse_rule_for, get_words. calls; try by apply for_do_gives.
  all: try (eapply gives_mono; [by apply words_gives|]; intros ? ? ?; cbv beta). all: calls; by apply for_do_gives.
Qed.
Lemma or_else_gives r k st (Q : option ast -> parser_status -> Prop) : (forall a, r = Some a -> Q (Some a) st) -> gives k Q st -> gives (or_else r k) Q st.
Proof. intros Hr Hk. destruct r; cbn [or_else]; [apply gives_ret; auto|done]. Qed.
Lemma attempt_gives f k st : (forall st, gives f (maybe tree) st) -> (forall st, gives k (maybe tree) st) ->
  gives (r ← try_rule f; or_else r k) (maybe tree) st.
Proof. intros Hf Hk. gvs. eapply gives_mono; [apply try_maybe, Hf|]. intros r st' Hr. apply or_else_gives; [|done]. intros a -> x [= <-]. by apply Hr. Qed.
Lemma shell_command_gives st : gives (parse_shell_command fuel pcl) (maybe tree) st.
Proof.
  unfold parse_shell_command. do 2 gv_step. repeat (apply attempt_gives; [auto using if_gives, while_gives, until_gives, for_gives, subshell_gives|intros ?]).
  calls. all: results; intros; naive_solver.
Qed.
Lemma funcdec_gives st : gives (parse_funcdec fuel pcl) (maybe tree) st.
Proof.
  unfold parse_funcdec. calls. all: gv_call shell_command_gives; gvs; try by built. all: intros ? [= <-]; results; destruct a0; built.
Qed.
Lemma command_gives st : gives (parse_command fuel pcl) (surely tree) st.
Proof.
  unfold parse_command. do 3 gv_step. gv_try funcdec_gives. apply or_else_gives; [intros; subst; by built|].
  gvs. eapply gives_mono; [apply try_maybe; eapply gives_mono; [apply simple_command_gives|by intros ? ? []]|]. intros a0 st0 Ha0. cbv beta.
  apply or_else_gives; [intros; subst; by built|]. gvs. gv_try shell_command_gives. calls.
  gv_call get_redirections_gives. gvs; built. by apply typed_link.
Qed.
Lemma pipeline_rec_gives n : forall st, gives (parse_pipeline_rec fuel pcl n) (surely (fun a => is_pipe a = true /\ typed a = true)) st.
Proof.
  induction n as [|n IH]; intros st; cbn [parse_pipeline_rec]; gvs; gv_call command_gives; calls. gv_call IH. calls.
Qed.
Lemma pipeline_gives st : gives (parse_pipeline fuel pcl) (surely tree) st.
Proof. unfold parse_pipeline. calls. all: gv_call command_gives; calls. all: gv_call pipeline_rec_gives; calls. Qed.

Definition node_result (r : option (option ast -> ast)) (_ : parser_status) : Prop := forall node a, r = Some node -> tree a -> tree (node (Some a)).
Lemma get_next_gives st : gives (get_next fuel pcl) node_result st.
Proof.
  unfold get_next. gvs; try done. gv_call pipeline_gives. gvs; try done. intros node x [= <-] Hx. results.
  destruct (isa _ _); cbn [typed]; by rewrite Hx.
Qed.
Lemma and_or_loop_gives n : forall a st, tree a -> gives (and_or_loop fuel pcl n (Some a)) (surely tree) st.
Proof.
  induction n as [|n IH]; intros a st Ha; cbn [and_or_loop]; gvs; gv_call get_next_gives; gvs; try by built.
  apply IH. by eapply (H0 _ a eq_refl).
Qed.
Lemma and_or_gives st : gives (parse_and_or fuel pcl) (surely tree) st.
Proof. unfold parse_and_or. gvs. gv_call pipeline_gives. gvs; [by built|]. results. by apply and_or_loop_gives. Qed.

Definition commands (r : list (option ast)) : Prop := Forall (fun c => exists a, c = Some a /\ tree a) r.
Lemma list_loop_gives sep before n : (forall (Q : unit -> parser_status -> Prop) st, Q tt st -> gives before Q st) ->
  forall st, gives (list_loop sep before (parse_and_or fuel pcl) n) (fun r _ => commands r) st.
Proof.
  intros Hb. induction n as [|n IH]; intros st; cbn [list_loop]; gvs; try by constructor.
  apply Hb. gv_step. gv_call and_or_gives. gvs; [by constructor|]. results. gv_call IH. gvs. constructor; [by eexists|done].
Qed.
Lemma make_list_tree a rest : tree a -> commands rest -> list_tree (make_list (Some a) rest).
Proof.
  intros Ha Hr. revert a Ha. induction Hr as [|? rest (b & -> & Hb) _ IH]; intros a Ha; cbn [make_list].
  - by split.
  - split; [done|]. destruct (IH b Hb) as [Hl Ht]. cbn [typed]. by rewrite Ha, Hl, Ht.
Qed.

End rules.

Lemma compound_list_gives fuel depth : forall st, gives (parse_compound_list depth fuel) (surely list_tree) st.
Proof.
  induction depth as [|depth IH]; intros st; cbn [parse_compound_list]; gvs. eapply gives_mono; [apply and_or_gives, IH|]. intros a0 st0 [Ha Hs]. gvs; [by built|].
  eapply gives_mono; [apply list_loop_gives; [apply IH|]|].
  - intros Q st1 HQ. by gvs.
  - intros rest st1 Hr. gvs. destruct (Hs ltac:(done)) as [a1 ->]. split; [|by eexists]. intros ? [= <-].
    apply make_list_tree; [by apply Ha|done].
Qed.
Lemma list_gives fuel depth st : gives (parse_list depth fuel) (surely list_tree) st.
Proof.
  unfold parse_list. gvs. eapply gives_mono; [apply and_or_gives, compound_list_gives|]. intros a st0 [Ha Hs]. gvs; [by built|].
  eapply gives_mono; [apply list_loop_gives; [apply compound_list_gives|]|].
  - intros Q st1 HQ. by gvs.
  - intros rest st1 Hr. gvs. destruct (Hs ltac:(done)) as [a0 ->]. split; [|by eexists]. intros ? [= <-]. apply make_list_tree; [by apply Ha|done].
Qed.

(** Claim C30: the trees of the parser are well typed.  From any tokens, over any lexer and within any bound on nesting and iterations, a tree that
    [parse_input] returns is a list, and it and every node below it have the pointers that [ast.h] says: conditions and bodies are lists,
    the rest of a pipeline is a pipeline, an else part a list or a condition, operands are there, argument vectors and the words of a
    loop are not empty, and the bare words that the parser uses inside do not occur. *)
Theorem parsed_tree_typed depth fuel st l a st' l' :
  parse_input depth fuel (st, l) = Ok (Some a, (st', l')) -> is_list a = true /\ typed a = true.
Proof.
  intros E. enough (Hg : gives (parse_input depth fuel) (maybe list_tree) st) by (specialize (Hg l); rewrite E in Hg; by apply Hg).
  unfold parse_input. gvs; try done. all: eapply gives_mono; [apply list_gives|]; intros b st0 [Hb _]; gvs; done.
Qed.
End parser.

Lemma parsed_tree_typed_witness : is_list (AST_LIST (Some (AST_ARGV [ch "a"])) None) = true /\ typed (AST_LIST (Some (AST_ARGV [ch "a"])) None) = true.
Proof.
  apply (parsed_tree_typed (L := list token) 5 5 PARSER_OK [word (ch "a"); key TOKEN_NEWLINE] _ PARSER_OK []). vm_compute. reflexivity.
Defined.

End ShTree.
