(* ===== verification/ShLexer.v ===== *)
(** * The lexer of the shell ([programs/42sh/lexer], [programs/42sh/io_backend])

    The lexer reads the input line by line, cuts tokens out of the line and keeps two of them for the parser.  A file is the bytes that
    are left of it, a line a string without its terminator: reading the terminator gives zero, reading behind it is a fault, and so is a
    pointer into a line that was replaced.  A position that was computed from an uninitialised length is [None].  The theorems show that the
    two tokens of lookahead are a view of the stream of tokens, so that the parser over the lexer is the parser over a list of tokens,
    and that the text of a program is read back as its tree. *)

From Stdlib Require Import String Ascii.
From stdpp Require Import base tactics numbers list sets.
From S2P Require Import Prelude ShParser.
Open Scope Z_scope.

Module ShLexer.
Import ShParser.

(** ** The input *)

(** A byte as a [char], which is signed. *)
Definition char_of (b : Z) : Z := if b <? 128 then b else b - 256.

(** [read_char]: the next character, -1 at the end. *)
Definition read_char (f : list Z) : Z * list Z := match f with [] => (-1, []) | b :: f => (char_of b, f) end.

(** [buf[size] = c] in an allocation of [capacity] bytes. *)
Definition put_char (capacity : Z) (buf : str) (c : Z) : res str := if Z.of_nat (length buf) <? capacity then Ok (buf ++ [c]) else Fault.

(** The loop of [io_backend_get_line]. *)
Fixpoint line_loop (fuel : nat) (capacity : Z) (buf : str) (r : Z) (f : list Z) : res (Z * str * Z * list Z) :=
  if (0 <? r) && negb (r =? 10) then
    match fuel with
    | O => NoFuel
    | S fuel =>
        buf ← put_char capacity buf r;
        let capacity := if Z.of_nat (length buf) >? capacity - 3 then capacity * 2 else capacity in
        let '(r, f) := read_char f in
        line_loop fuel capacity buf r f
    end
  else Ok (capacity, buf, r, f).

(** [io_backend_get_line]; the terminator is checked and not kept. *)
Definition io_backend_get_line (f : list Z) : res (option str * list Z) :=
  let '(r, f) := read_char f in
  if r =? -1 then Ok (None, f)
  else
    '(capacity, buf, r, f) ← line_loop (S (length f)) 1024 [] r f;
    buf ← (if r =? 10 then put_char capacity buf 10 else Ok buf);
    _ ← put_char capacity buf 0;
    if r =? -2 then Ok (None, f) else Ok (Some buf, f).

(** ** The lexer *)

Inductive lexer_status := SINGLE_QUOTE | DOUBLE_QUOTE | BACKTICK | NONE | ERROR.

#[export] Instance lexer_status_eq_dec : EqDecision lexer_status.
Proof. solve_decision. Defined.

(** Where the tokens come from: the line, the position in it, the state of the scan and the rest of the file. *)
Record source := mkSource { input : option str; pos : option nat; status : lexer_status; file : list Z }.
(** [struct lexer]: the source and the two tokens that were read ahead. *)
Record lexer := mkLexer { src : source; next : token; sur_next : token }.

Definition set_input (i : option str) (s : source) : source := mkSource i (pos s) (status s) (file s).
Definition set_pos (p : option nat) (s : source) : source := mkSource (input s) p (status s) (file s).
Definition set_lstatus (st : lexer_status) (s : source) : source := mkSource (input s) (pos s) st (file s).
Definition set_file (f : list Z) (s : source) : source := mkSource (input s) (pos s) (status s) f.

Definition EMPTY : token := mkTok TOKEN_EMPTY None.

(** [lexer_new], on the file that [io_backend_init] opened. *)
Definition lexer_new (f : list Z) : res lexer := '(line, f) ← io_backend_get_line f; Ok (mkLexer (mkSource line (Some O) NONE f) EMPTY EMPTY).

(** The character at an offset of a line. *)
Definition char_at (s : str) (i : nat) : res Z :=
  match s !! i with Some c => Ok c | None => if (i =? length s)%nat then Ok 0 else Fault end.

Definition SEPARATORS : str := ch "&|<>;()" ++ [10].
Definition WHITESPACE : str := [32; 9; 13].
Definition OPERATORS : str := ch "|&<>".

(** [strchr(set, c) != NULL]: the terminator is part of the string. *)
Definition in_set (set : str) (c : Z) : bool := bool_decide (c ∈ set) || (c =? 0).
Definition is_separator (c : Z) : bool := in_set SEPARATORS c.
Definition is_whitespace (c : Z) : bool := in_set WHITESPACE c.
Definition is_redirection (c : Z) : bool := in_set OPERATORS c.

Definition operator_table : list (str * token_type) :=
  [(ch "|", TOKEN_PIPE); (ch "!", TOKEN_NOT); (ch ";", TOKEN_SEMICOLON); ([10], TOKEN_NEWLINE); ([], TOKEN_EOF); (ch ">", TOKEN_REDIR_G);
   (ch "<", TOKEN_REDIR_L); (ch ">>", TOKEN_REDIR_GG); (ch ">&", TOKEN_REDIR_GA); (ch "<&", TOKEN_REDIR_LA); (ch ">|", TOKEN_REDIR_GO);
   (ch "<>", TOKEN_REDIR_LG); (ch "&&", TOKEN_AND); (ch "||", TOKEN_OR); (ch "(", TOKEN_LPAREN); (ch ")", TOKEN_RPAREN);
   (ch "{", TOKEN_LBRACE); (ch "}", TOKEN_RBRACE)].
Definition keyword_table : list (str * token_type) :=
  [(ch "if", TOKEN_IF); (ch "then", TOKEN_THEN); (ch "elif", TOKEN_ELIF); (ch "else", TOKEN_ELSE); (ch "fi", TOKEN_FI); (ch "while", TOKEN_WHILE);
   (ch "do", TOKEN_DO); (ch "done", TOKEN_DONE); (ch "until", TOKEN_UNTIL); (ch "for", TOKEN_FOR); (ch "in", TOKEN_IN); (ch "while", TOKEN_WHILE)].

(** The loop that all tables are searched with. *)
Fixpoint find_model (table : list (str * token_type)) (s : str) : option token_type :=
  match table with [] => None | (w, ty) :: table => if bool_decide (s = w) then Some ty else find_model table s end.

Definition is_valid_operator (s : str) : bool := if find_model operator_table s then true else false.

(** [strspn] and [strcspn] on what is left of a line. *)
Fixpoint span (p : Z -> bool) (s : str) : nat := match s with c :: s => if p c then S (span p s) else O | [] => O end.

(** What is left of the line at the position. *)
Definition rest_of (s : source) : res str :=
  line ← deref (input s); p ← deref (pos s); if (p <=? length line)%nat then Ok (drop p line) else Fault.

(** [skip_whitespaces_and_comments]. *)
Definition skip_whitespaces_and_comments (s : source) : res source :=
  r ← rest_of s;
  p ← deref (pos s);
  let size := span (fun c => bool_decide (c ∈ WHITESPACE)) r in
  let comment := match drop size r with c :: _ => c =? 35 | [] => false end in
  let size := if comment then (size + span (fun c => negb (c =? 10)%Z) (drop size r))%nat else size in
  Ok (set_pos (Some (p + size)%nat) s).

(** [get_next_line]: the next line behind the current one; whether there is one. *)
Definition get_next_line (s : source) (size : nat) : res (bool * nat * source) :=
  line ← deref (input s);
  '(next_line, f) ← io_backend_get_line (file s);
  let s := set_file f s in
  match next_line with None => Ok (false, size, s) | Some l => Ok (true, S size, set_input (Some (line ++ l)) s) end.

(** [refresh_input]: another line if this one is used up. *)
Definition refresh_input (s : source) : res (bool * source) :=
  r ← rest_of s;
  match r with
  | [] =>
      '(line, f) ← io_backend_get_line (file s);
      let s := set_pos (Some O) (set_input line (set_file f s)) in
      match line with None => Ok (false, s) | Some _ => s ← skip_whitespaces_and_comments s; Ok (true, s) end
  | _ => Ok (true, s)
  end.

(** The character at [size] behind the position: [*start], where [start] is [input + pos + size]. *)
Definition peek_char (s : source) (size : nat) : res Z := line ← deref (input s); p ← deref (pos s); char_at line (p + size).

(** The loop of [is_valid_ope]. *)
Fixpoint operator_loop (fuel : nat) (s : source) (size : nat) : res nat :=
  c ← peek_char s size;
  if negb (c =? 0) && is_redirection c then match fuel with O => NoFuel | S fuel => operator_loop fuel s (S size) end else Ok size.

(** [strndup(input + pos, size)]. *)
Definition cut (s : source) (size : nat) : res str := r ← rest_of s; Ok (take size r).

(** [is_valid_ope], which is called with the size zero. *)
Definition is_valid_ope (fuel : nat) (s : source) : res (nat * source) :=
  size ← operator_loop fuel s 1;
  w ← cut s size;
  Ok (size, if is_valid_operator w then s else set_lstatus ERROR s).

(** [read_until_char] from [size] behind the position: the new size when [c] is found, and whether the line was replaced.  The pointer
    of the caller is only moved when [c] is found, so that it dangles after a failure that replaced the line. *)
Fixpoint read_until_char (fuel : nat) (s : source) (size : nat) (c : Z) (moved : bool) : res (option nat * bool * source) :=
  match fuel with
  | O => NoFuel
  | S fuel =>
      let more (s : source) (size : nat) :=
        '(ok, size, s) ← get_next_line s size;
        if (ok : bool) then read_until_char fuel s size c true else Ok (None, moved, set_lstatus ERROR s) in
      x ← peek_char s size;
      if x =? 0 then Ok (None, moved, set_lstatus ERROR s)
      else if x =? c then Ok (Some (S size), moved, s)
      else if x =? 92 then
        y ← peek_char s (S size);
        if (y =? 39) && (y =? c) then Ok (Some (S (S size)), moved, s)
        else if y =? 10 then more s (S size)
        else read_until_char fuel s (S (S size)) c moved
      else if (x =? 39) || (x =? 34) || (x =? 96) then
        if c =? 41 then
          '(found, moved', s) ← read_until_char fuel s (S size) x false;
          match found with
          | Some size => read_until_char fuel s size c (moved || moved')
          | None => if (moved' : bool) then Fault else read_until_char fuel s size c moved
          end
        else read_until_char fuel s (S size) c moved
      else if x =? 10 then more s size
      else read_until_char fuel s (S size) c moved
  end.

(** The loop of [read_until_separator]; [None] where it returns the null pointer. *)
Fixpoint word_loop (fuel : nat) (s : source) (size : nat) : res (option nat * source) :=
  match fuel with
  | O => NoFuel
  | S fuel =>
      let quoted (s : source) (size : nat) (c : Z) :=
        '(found, moved, s) ← read_until_char fuel s (S size) c false;
        match found with
        | Some size => word_loop fuel s size
        | None => if (moved : bool) then Fault else word_loop fuel s size
        end in
      x ← peek_char s size;
      if negb (x =? 0) && negb (is_separator x) && negb (bool_decide (status s = ERROR)) then
        if is_whitespace x then Ok (Some size, s)
        else if x =? 36 then
          y ← peek_char s (S size);
          if y =? 40 then quoted s (S size) 41 else word_loop fuel s (S size)
        else if x =? 92 then
          y ← peek_char s (S size);
          if y =? 10 then
            '(ok, size, s) ← get_next_line s (S size);
            if (ok : bool) then word_loop fuel s size else Ok (None, s)
          else if negb (y =? 0) then word_loop fuel s (S (S size))
          else word_loop fuel s (S size)
        else if (x =? 39) || (x =? 34) || (x =? 96) then quoted s size x
        else word_loop fuel s (S size)
      else Ok (Some size, s)
  end.

(** [read_until_separator]. *)
Definition read_until_separator (fuel : nat) (s : source) : res (option str * source) :=
  '(size, s) ← word_loop fuel s 0;
  match size with
  | None => Ok (None, s)
  | Some size =>
      x ← peek_char s size;
      '(size, s) ← (if (size =? 0)%nat && is_separator x then is_valid_ope fuel s else Ok (size, s));
      w ← cut s size;
      Ok (Some w, s)
  end.

(** [get_next_str]. *)
Definition get_next_str (fuel : nat) (s : source) : res (option str * source) :=
  match input s with
  | None => Ok (None, s)
  | Some _ =>
      s ← skip_whitespaces_and_comments s;
      '(ok, s) ← refresh_input s;
      if (ok : bool) then read_until_separator fuel s else Ok (None, s)
  end.

Definition is_digit (c : Z) : bool := (48 <=? c) && (c <=? 57).

(** [is_IO_NUMBER]. *)
Definition is_IO_NUMBER (s : source) (w : str) : res bool :=
  let size := span is_digit w in
  if (size =? length w)%nat then c ← peek_char s size; Ok ((c =? 60) || (c =? 62)) else Ok false.

(** [change_token_type], [match_keyword] and [match_separator]: the type of the token. *)
Definition change_token_type (s : source) (w : str) : res token_type :=
  match status s with
  | ERROR => Ok TOKEN_ERROR
  | SINGLE_QUOTE | DOUBLE_QUOTE => Ok TOKEN_WORD
  | _ =>
      io ← is_IO_NUMBER s w;
      if (io : bool) then Ok TOKEN_IONUMBER
      else match find_model keyword_table w with
           | Some ty => Ok ty
           | None => Ok (default TOKEN_WORD (find_model operator_table w))
           end
  end.

(** [lexer_next_token]: the token and its length, [None] when the length is not set. *)
Definition lexer_next_token (fuel : nat) (s : source) : res (token * option nat * source) :=
  '(w, s) ← get_next_str fuel s;
  match w with
  | None => Ok (mkTok TOKEN_EOF None, None, s)
  | Some w =>
      ty ← change_token_type s w;
      Ok (mkTok ty (if bool_decide (ty = TOKEN_WORD \/ ty = TOKEN_IONUMBER) then Some w else None), Some (length w), set_lstatus NONE s)
  end.

(** The next token, with the position behind it. *)
Definition advance (fuel : nat) (s : source) : res (token * source) :=
  '(t, len, s) ← lexer_next_token fuel s;
  Ok (t, set_pos (p ← pos s; n ← len; Some (p + n)%nat) s).

Definition is_empty (t : token) : bool := isa t TOKEN_EMPTY.

(** [lexer_peek], [lexer_peek_2] and [lexer_pop] on a lexer that is there. *)
Definition peek_lexer (fuel : nat) (l : lexer) : res (token * lexer) :=
  if is_empty (next l) then '(t, s) ← advance fuel (src l); Ok (t, mkLexer s t (sur_next l)) else Ok (next l, l).
Definition peek_2_lexer (fuel : nat) (l : lexer) : res (token * lexer) :=
  if is_empty (sur_next l) then '(_, l) ← peek_lexer fuel l; '(t, s) ← advance fuel (src l); Ok (t, mkLexer s (next l) t) else Ok (sur_next l, l).
Definition pop_lexer (fuel : nat) (l : lexer) : res (token * lexer) :=
  if is_empty (next l) then '(t, s) ← advance fuel (src l); Ok (t, mkLexer s (next l) (sur_next l)) else Ok (next l, mkLexer (src l) (sur_next l) EMPTY).

Definition lexer_of (fuel : nat) : Lexer lexer := {| lexer_peek := peek_lexer fuel; lexer_peek_2 := peek_2_lexer fuel; lexer_pop := pop_lexer fuel |}.

(** ** The loop of [main]: the trees that are handed to the execution, and the status at the end *)

Fixpoint main_loop {L} `{Lexer L} (n depth fuel : nat) (s : parser_status * L) : res (list (option ast) * (parser_status * L)) :=
  if bool_decide (s.1 = PARSER_OK) then
    match n with
    | O => NoFuel
    | S n =>
        '(a, s) ← parse_input depth fuel s;
        if bool_decide (s.1 = PARSER_UNEXPECTED_TOKEN) then Ok ([], s)
        else '(trees, s) ← main_loop n depth fuel s; Ok (a :: trees, s)
    end
  else Ok ([], s).

(** ** Lines *)

(** A character that a line can have: seven bits, not zero and not the newline. *)
Definition line_char (c : Z) : Prop := 0 < c < 128 /\ c <> 10.

Lemma put_char_ok capacity buf c : Z.of_nat (length buf) < capacity -> put_char capacity buf c = Ok (buf ++ [c]).
Proof. intros Hb. unfold put_char. by rewrite (proj2 (Z.ltb_lt _ _)). Qed.
(** The loop stops at the first byte that is no character of a line. *)
Lemma line_loop_ok b f line : forall fuel capacity buf r g, (0 <? char_of b) && negb (char_of b =? 10) = false ->
  Forall line_char line -> (length line <= fuel)%nat -> Z.of_nat (length buf) <= capacity - 3 -> 1024 <= capacity -> read_char (line ++ b :: f) = (r, g) ->
  exists capacity', line_loop fuel capacity buf r g = Ok (capacity', buf ++ line, char_of b, f) /\ Z.of_nat (length (buf ++ line)) <= capacity' - 3.
Proof.
  induction line as [|c line IH]; intros fuel capacity buf r g Hb Hl Hf Hbuf Hc Hr; cbn [app read_char] in Hr; injection Hr as <- <-.
  - exists capacity. rewrite app_nil_r. destruct fuel; cbn [line_loop]; by rewrite Hb.
  - inversion_clear Hl as [|? ? [Hc1 Hc2] Hl']. assert (E : char_of c = c) by (unfold char_of; destruct (Z.ltb_spec c 128); lia). rewrite E.
    cbn [length] in Hf. destruct fuel as [|fuel]; [lia|]. cbn [line_loop].
    replace ((0 <? c) && negb (c =? 10)) with true by (destruct (Z.ltb_spec 0 c), (Z.eqb_spec c 10); done || lia).
    rewrite put_char_ok by lia. run. destruct (read_char (line ++ b :: f)) as [r' g'] eqn:Er.
    destruct (IH fuel (if Z.of_nat (length (buf ++ [c])) >? capacity - 3 then capacity * 2 else capacity) (buf ++ [c]) r' g') as (cap' & E' & Hcap'); [done|done|lia| |destruct (_ >? _); lia|done|].
    + rewrite Z.gtb_ltb, length_app. cbn [length]. destruct (Z.ltb_spec (capacity - 3) (Z.of_nat (length buf + 1))); lia.
    + exists cap'. rewrite E'. by rewrite <-app_assoc in *.
Qed.

Lemma line_read b f line : (0 <? char_of b) && negb (char_of b =? 10) = false -> Forall line_char line -> (line <> [] \/ char_of b <> -1) ->
  exists capacity r g, read_char (line ++ b :: f) = (r, g) /\ (r =? -1) = false /\
    line_loop (S (length g)) 1024 [] r g = Ok (capacity, line, char_of b, f) /\ Z.of_nat (length line) <= capacity - 3.
Proof.
  intros Hb Hl Hne. destruct (read_char (line ++ b :: f)) as [r g] eqn:Er.
  assert (Hg : length g = length (line ++ f)) by (destruct line; injection Er as <- <-; rewrite ?length_app; cbn; rewrite ?length_app; cbn; lia).
  destruct (line_loop_ok b f line (S (length g)) 1024 [] r g) as (cap & E & Hc); [done|done|rewrite Hg, length_app; lia|cbn; lia|lia|done|].
  exists cap, r, g. repeat split; [|done|done]. destruct line as [|c line]; injection Er as <- <-; [apply Z.eqb_neq; by destruct Hne|].
  inversion_clear Hl as [|? ? [Hc1 _] _]. unfold char_of. destruct (Z.ltb_spec c 128); lia.
Qed.

(** A line of seven bit characters is read whole, with its newline, whatever its length is: the buffer always has room for the
    character, the newline and the terminator. *)
Lemma get_line_ok line f : Forall line_char line -> io_backend_get_line (line ++ 10 :: f) = Ok (Some (line ++ [10]), f).
Proof.
  intros Hl. destruct (line_read 10 f line) as (cap & r & g & Er & Hr & E & Hc); [done|done|by right|].
  unfold io_backend_get_line. rewrite Er, Hr, E. run. change (char_of 10) with 10. change (10 =? 10) with true. cbv iota.
  rewrite put_char_ok by lia. run. rewrite put_char_ok by (rewrite length_app; cbn [length]; lia). done.
Qed.

(** A byte above 127 ends the line and is lost.  The characters are signed, and the loop that reads a line goes on while they are
    positive: what comes before the byte is one line, what comes behind it the next one. *)
Theorem non_ascii_splits_line line b f : Forall line_char line -> 128 <= b < 254 -> io_backend_get_line (line ++ b :: f) = Ok (Some line, f).
Proof.
  intros Hl Hb. assert (Hr : char_of b = b - 256) by (unfold char_of; destruct (Z.ltb_spec b 128); lia).
  destruct (line_read b f line) as (cap & r & g & Er & Hr1 & E & Hc); [rewrite Hr; destruct (Z.ltb_spec 0 (b - 256)); [lia|done]|done|right; lia|].
  unfold io_backend_get_line. rewrite Er, Hr1, E, Hr. run. rewrite (proj2 (Z.eqb_neq _ 10)) by lia. run. rewrite put_char_ok by lia. run.
  by rewrite (proj2 (Z.eqb_neq _ (-2))) by lia.
Qed.
Lemma non_ascii_splits_line_witness : io_backend_get_line (ch "caf" ++ [195; 169; 10]) = Ok (Some (ch "caf"), [169; 10]).
Proof. apply (non_ascii_splits_line (ch "caf") 195); [repeat constructor; cbn; lia|lia]. Defined.

(** ** The parser does not see which lexer it has *)

Section simulation.
Context {L1 L2 : Type} `{Lexer L1} `{Lexer L2} (R : L1 -> L2 -> Prop).

(** The same outcome, in related states. *)
Definition same {A S1 S2} (Q : S1 -> S2 -> Prop) (r1 : res (A * S1)) (r2 : res (A * S2)) : Prop :=
  match r1, r2 with
  | Ok (a1, s1), Ok (a2, s2) => a1 = a2 /\ Q s1 s2
  | Panic, Panic | Fault, Fault | NoFuel, NoFuel => True
  | _, _ => False
  end.

Class Related : Prop := {
  peek_same l1 l2 : R l1 l2 -> same R (lexer_peek l1) (lexer_peek l2);
  peek_2_same l1 l2 : R l1 l2 -> same R (lexer_peek_2 l1) (lexer_peek_2 l2);
  pop_same l1 l2 : R l1 l2 -> same R (lexer_pop l1) (lexer_pop l2)
}.
Context `{Related}.

(** Two parsers that do the same on related lexers. *)
Definition sim {A} (m1 : M (L := L1) A) (m2 : M (L := L2) A) : Prop :=
  forall st l1 l2, R l1 l2 -> same (fun s1 s2 => s1.1 = s2.1 /\ R s1.2 s2.2) (m1 (st, l1)) (m2 (st, l2)).

Lemma sim_bind {A B} (m1 : M (L := L1) A) m2 (k1 : A -> M (L := L1) B) k2 : sim m1 m2 -> (forall a, sim (k1 a) (k2 a)) -> sim (m1 ≫= k1) (m2 ≫= k2).
Proof.
  intros Hm Hk st l1 l2 Hl. specialize (Hm st l1 l2 Hl). unfold mbind, M_bind.
  destruct (m1 (st, l1)) as [[a1 [st1 l1']]| | |], (m2 (st, l2)) as [[a2 [st2 l2']]| | |]; try done.
  destruct Hm as [-> [Est HR]]. cbn in Est, HR. subst st2. by apply Hk.
Qed.
Lemma sim_ret {A} (a : A) : sim (mret a) (mret a).
Proof. by intros st l1 l2 Hl. Qed.
Lemma sim_token (f1 : L1 -> res (token * L1)) (f2 : L2 -> res (token * L2)) : (forall l1 l2, R l1 l2 -> same R (f1 l1) (f2 l2)) ->
  sim (fun '(st, l) => '(t, l) ← f1 l; Ok (t, (st, l))) (fun '(st, l) => '(t, l) ← f2 l; Ok (t, (st, l))).
Proof.
  intros Hf st l1 l2 Hl. specialize (Hf l1 l2 Hl). unfold mbind, res_bind.
  destruct (f1 l1) as [[t1 l1']| | |], (f2 l2) as [[t2 l2']| | |]; try done. by destruct Hf as [-> HR].
Qed.
Lemma sim_peek : sim peek peek.
Proof. apply sim_token, peek_same. Qed.
Lemma sim_peek_2 : sim peek_2 peek_2.
Proof. apply sim_token, peek_2_same. Qed.
Lemma sim_pop : sim pop pop.
Proof. apply sim_token, pop_same. Qed.
Lemma sim_set st : sim (set_status st) (set_status st).
Proof. by intros st' l1 l2 Hl. Qed.
Lemma sim_get : sim get_status get_status.
Proof. by intros st' l1 l2 Hl. Qed.
Lemma sim_fault {A} : sim (A := A) fault fault.
Proof. done. Qed.
Lemma sim_no_fuel {A} : sim (A := A) no_fuel no_fuel.
Proof. done. Qed.
Lemma sim_lift {A} (r : res A) : sim (lift r) (lift r).
Proof. intros st l1 l2 Hl. by destruct r. Qed.

Ltac sim_step :=
  match goal with
  | |- sim (_ ≫= _) (_ ≫= _) => apply sim_bind; [|intros ?]
  | |- sim peek _ => apply sim_peek
  | |- sim peek_2 _ => apply sim_peek_2
  | |- sim pop _ => apply sim_pop
  | |- sim (set_status _) _ => apply sim_set
  | |- sim get_status _ => apply sim_get
  | |- sim (mret _) _ => apply sim_ret
  | |- sim (lift _) _ => apply sim_lift
  | |- sim fault _ => apply sim_fault
  | |- sim no_fuel _ => apply sim_no_fuel
  | |- sim failed _ => unfold failed
  | |- sim handle_error_parser _ => unfold handle_error_parser
  | |- sim (expect _) _ => unfold expect
  | |- sim pop_word _ => unfold pop_word
  | |- sim (if ?c then _ else _) _ => destruct c
  | |- sim (match ?c with _ => _ end) _ => destruct c
  | H : sim ?m _ |- sim ?m _ => apply H
  | H : forall _, sim _ _ |- sim _ _ => apply H
  | H : forall _ _, sim _ _ |- sim _ _ => apply H
  end.
Ltac sims := repeat sim_step.

Lemma sim_skip n : sim (skip_newlines n) (skip_newlines n).
Proof. induction n; cbn [skip_newlines]; sims. Qed.
Lemma sim_try f1 f2 : sim f1 f2 -> sim (try_rule f1) (try_rule f2).
Proof. intros Hf. unfold try_rule. sims. Qed.
Lemma sim_redirection : sim parse_redirection parse_redirection.
Proof. unfold parse_redirection. sims. Qed.
Lemma sim_element : sim parse_element parse_element.
Proof. pose proof sim_redirection. unfold parse_element. sims. Qed.
Lemma sim_prefix : sim parse_prefix parse_prefix.
Proof. pose proof sim_redirection. unfold parse_prefix. sims. Qed.
Lemma sim_get_prefix n : sim (get_prefix n) (get_prefix n).
Proof. pose proof (sim_try _ _ sim_prefix). induction n; cbn [get_prefix]; sims. Qed.
Lemma sim_get_redirections n : sim (get_redirections n) (get_redirections n).
Proof. pose proof (sim_try _ _ sim_redirection). induction n; cbn [get_redirections]; sims. Qed.
Lemma sim_elements n : forall argv head, sim (elements n argv head) (elements n argv head).
Proof. pose proof (sim_try _ _ sim_element). induction n; intros; cbn [elements]; sims. Qed.
Lemma sim_simple_command n : sim (parse_simple_command n) (parse_simple_command n).
Proof. pose proof (sim_get_prefix n). pose proof (sim_elements n). unfold parse_simple_command, get_args. sims. Qed.

Section rules.
Context (fuel : nat) (p1 : M (L := L1) (option ast)) (p2 : M (L := L2) (option ast)).
Hypothesis pcl_sim : sim p1 p2.

Lemma sim_loop ty node : sim (parse_loop p1 ty node) (parse_loop p2 ty node).
Proof. unfold parse_loop. sims. Qed.
Lemma sim_else n : sim (parse_else_clause p1 n) (parse_else_clause p2 n).
Proof. induction n; cbn [parse_else_clause]; sims. Qed.
Lemma sim_if : sim (parse_rule_if fuel p1) (parse_rule_if fuel p2).
Proof. pose proof (sim_else fuel). unfold parse_rule_if. sims. Qed.
Lemma sim_words n : forall r, sim (words_loop n r) (words_loop n r).
Proof. induction n; intros; cbn [words_loop]; sims. Qed.
Lemma sim_for : sim (parse_rule_for fuel p1) (parse_rule_for fuel p2).
Proof. pose proof (sim_words fuel). pose proof (sim_skip fuel). unfold parse_rule_for, get_words, aux_for_do. sims. Qed.
Lemma sim_subshell : sim (parse_subshell p1) (parse_subshell p2).
Proof. unfold parse_subshell. sims. Qed.
Lemma sim_shell_command : sim (parse_shell_command fuel p1) (parse_shell_command fuel p2).
Proof.
  pose proof (sim_try _ _ sim_if). pose proof (sim_try _ _ (sim_loop TOKEN_WHILE AST_WHILE)). pose proof (sim_try _ _ (sim_loop TOKEN_UNTIL AST_UNTIL)).
  pose proof (sim_try _ _ sim_for). pose proof (sim_try _ _ sim_subshell). unfold parse_shell_command, or_else. sims.
Qed.
Lemma sim_funcdec : sim (parse_funcdec fuel p1) (parse_funcdec fuel p2).
Proof. pose proof sim_shell_command. pose proof (sim_skip fuel). unfold parse_funcdec. sims. Qed.
Lemma sim_command : sim (parse_command fuel p1) (parse_command fuel p2).
Proof.
  pose proof (sim_try _ _ sim_funcdec). pose proof (sim_try _ _ (sim_simple_command fuel)). pose proof (sim_try _ _ sim_shell_command).
  pose proof (sim_get_redirections fuel). unfold parse_command, or_else. sims.
Qed.
Lemma sim_pipeline_rec n : sim (parse_pipeline_rec fuel p1 n) (parse_pipeline_rec fuel p2 n).
Proof. pose proof sim_command. pose proof (sim_skip fuel). induction n; cbn [parse_pipeline_rec]; sims. Qed.
Lemma sim_pipeline : sim (parse_pipeline fuel p1) (parse_pipeline fuel p2).
Proof. pose proof sim_command. pose proof (sim_skip fuel). pose proof (sim_pipeline_rec fuel). unfold parse_pipeline. sims. Qed.
Lemma sim_and_or_loop n : forall r, sim (and_or_loop fuel p1 n r) (and_or_loop fuel p2 n r).
Proof. pose proof sim_pipeline. pose proof (sim_skip fuel). induction n; intros; cbn [and_or_loop]; unfold get_next; sims. Qed.
Lemma sim_and_or : sim (parse_and_or fuel p1) (parse_and_or fuel p2).
Proof. pose proof sim_pipeline. pose proof (sim_and_or_loop fuel). unfold parse_and_or. sims. Qed.
Lemma sim_list_loop sep b1 b2 n : sim b1 b2 -> sim (list_loop sep b1 (parse_and_or fuel p1) n) (list_loop sep b2 (parse_and_or fuel p2) n).
Proof. intros Hb. pose proof sim_and_or. induction n; cbn [list_loop]; sims. Qed.
End rules.

Lemma sim_compound_list fuel depth : sim (parse_compound_list depth fuel) (parse_compound_list depth fuel).
Proof.
  induction depth as [|depth IH]; cbn [parse_compound_list]; sims; try apply sim_skip; try by apply sim_and_or. apply sim_list_loop; [done|].
  sims. apply sim_skip.
Qed.
Lemma sim_input fuel depth : sim (parse_input depth fuel) (parse_input depth fuel).
Proof.
  pose proof (sim_compound_list fuel depth). unfold parse_input, parse_list. sims; try by apply sim_and_or. apply sim_list_loop; [done|]. sims.
Qed.
Lemma sim_main n fuel depth : sim (main_loop n depth fuel) (main_loop n depth fuel).
Proof.
  induction n as [|n IH]; intros st l1 l2 Hl; cbn [main_loop fst]; (destruct (bool_decide (st = PARSER_OK)); [|done]); [done|].
  pose proof (sim_input fuel depth st l1 l2 Hl) as Hi. unfold mbind, res_bind.
  destruct (parse_input depth fuel (st, l1)) as [[a1 [st1 l1']]| | |], (parse_input depth fuel (st, l2)) as [[a2 [st2 l2']]| | |]; try done.
  destruct Hi as [-> [Est HR]]. cbn in Est, HR. subst st2. cbn [fst]. destruct (bool_decide (st1 = PARSER_UNEXPECTED_TOKEN)); [done|].
  specialize (IH st1 l1' l2' HR). destruct (main_loop n depth fuel (st1, l1')) as [[? ?]| | |], (main_loop n depth fuel (st1, l2')) as [[? ?]| | |]; try done.
  by destruct IH as [-> IH].
Qed.
End simulation.

(** ** Two tokens of lookahead are a view of the stream of tokens *)

(** The tokens that a source gives, up to the end of its file. *)
Inductive yields (fuel : nat) : source -> list token -> Prop :=
| yields_closed s : input s = None -> yields fuel s []
| yields_end s s' : advance fuel s = Ok (eof, s') -> input s' = None -> yields fuel s []
| yields_token s t s' ts : advance fuel s = Ok (t, s') -> type t <> TOKEN_EMPTY -> yields fuel s' ts -> yields fuel s (t :: ts).

Lemma yields_next fuel s ts : yields fuel s ts -> exists s', advance fuel s = Ok (first ts, s') /\ is_empty (first ts) = false /\ yields fuel s' (tail ts).
Proof.
  intros [s0 Hi|s0 s' E Hi|s0 t s' ts' E Ht Hy].
  - exists (set_pos None s0). split; [|by split; [|constructor]].
    unfold advance, lexer_next_token, get_next_str. rewrite Hi. run. unfold set_pos. by destruct (pos s0).
  - exists s'. by repeat split; [|constructor].
  - exists s'. repeat split; [done|by apply isa_no|done].
Qed.

(** A lexer that has the tokens [ts] ahead: none, one or two of them in its buffer. *)
Definition holds (fuel : nat) (l : lexer) (ts : list token) : Prop :=
  (l = mkLexer (src l) EMPTY EMPTY /\ yields fuel (src l) ts) \/
  (l = mkLexer (src l) (first ts) EMPTY /\ is_empty (first ts) = false /\ yields fuel (src l) (tail ts)) \/
  (l = mkLexer (src l) (first ts) (first (tail ts)) /\ is_empty (first ts) = false /\ is_empty (first (tail ts)) = false /\ yields fuel (src l) (tail (tail ts))).

#[export] Instance holds_related fuel : @Related lexer (list token) (lexer_of fuel) token_list (holds fuel).
Proof.
  split; intros [s n sn] ts [[[= -> ->] Hy] | [([= -> ->] & Hn & Hy) | ([= -> ->] & Hn & Hsn & Hy)]]; cbn [src] in *; cbn [lexer_peek lexer_peek_2 lexer_pop lexer_of token_list];
    unfold peek_2_lexer, peek_lexer, pop_lexer; cbn [src next sur_next]; rewrite ?Hn, ?Hsn; try change (is_empty EMPTY) with true; cbv iota.
  - destruct (yields_next _ _ _ Hy) as (s' & -> & Hn & Hy'). run. split; [done|]. by right; left.
  - split; [done|]. by right; left.
  - split; [done|]. by right; right.
  - destruct (yields_next _ _ _ Hy) as (s' & -> & Hn & Hy'). run. destruct (yields_next _ _ _ Hy') as (s2 & E2 & Hn2 & Hy2). cbn [src]. rewrite E2. run.
    split; [done|]. by right; right.
  - run. destruct (yields_next _ _ _ Hy) as (s2 & E2 & Hn2 & Hy2). cbn [src]. rewrite E2. run. split; [done|]. by right; right.
  - split; [done|]. by right; right.
  - destruct (yields_next _ _ _ Hy) as (s' & -> & Hn & Hy'). run. split; [done|]. by left.
  - split; [done|]. by left.
  - split; [done|]. by right; left.
Qed.

(** ** Tokens and their text *)

(** A source whose file is not read yet, in the middle of a line. *)
Definition at_line (pre rest : str) (f : list Z) : source := mkSource (Some (pre ++ rest)) (Some (length pre)) NONE f.

Lemma rest_of_line pre rest f : rest_of (at_line pre rest f) = Ok rest.
Proof. unfold rest_of. cbn [input pos at_line]. run. rewrite (proj2 (Nat.leb_le _ _)) by (rewrite length_app; lia). by rewrite drop_app_length. Qed.
Lemma peek_line pre rest f i : peek_char (at_line pre rest f) i = char_at rest i.
Proof.
  unfold peek_char. cbn [input pos at_line]. run. unfold char_at. rewrite lookup_app_r by lia. rewrite Nat.add_sub_swap, Nat.sub_diag by lia. cbn.
  destruct (rest !! i); [done|]. rewrite length_app. destruct (Nat.eqb_spec i (length rest)), (Nat.eqb_spec (length pre + i) (length pre + length rest)); done || lia.
Qed.
Lemma char_at_app u c r : char_at (u ++ c :: r) (length u) = Ok c.
Proof. unfold char_at. by rewrite lookup_app_r, Nat.sub_diag. Qed.

(** The text that comes next is no blank and no comment. *)
Definition starts (r : str) : Prop := match r with [] => True | c :: _ => c ∉ WHITESPACE /\ c <> 35 end.
Lemma skip_line pre sp r f : Forall (.∈ WHITESPACE) sp -> starts r ->
  skip_whitespaces_and_comments (at_line pre (sp ++ r) f) = Ok (at_line (pre ++ sp) r f).
Proof.
  intros Hsp Hr. unfold skip_whitespaces_and_comments. rewrite rest_of_line. run. cbn [pos at_line].
  assert (E : span (fun c => bool_decide (c ∈ WHITESPACE)) (sp ++ r) = length sp).
  { induction Hsp as [|c sp Hc _ IH]; cbn [app span length]; [|by rewrite bool_decide_true, IH]. destruct r as [|c r]; [done|]. cbn. destruct Hr. by rewrite bool_decide_false. }
  rewrite E, drop_app_length. replace (match r with [] => false | c :: _ => c =? 35 end) with false.
  - unfold at_line, set_pos. cbn. by rewrite <-app_assoc, length_app.
  - destruct r as [|c r]; [done|]. destruct Hr. by destruct (Z.eqb_spec c 35).
Qed.

Lemma skip_nothing pre r f : starts r -> skip_whitespaces_and_comments (at_line pre r f) = Ok (at_line pre r f).
Proof. intros Hr. pose proof (skip_line pre [] r f (Forall_nil_2 _) Hr) as E. by rewrite app_nil_r in E. Qed.

(** The characters of a word that stand for themselves. *)
Definition plain (c : Z) : bool :=
  (0 <? c) && (c <? 128) && negb (is_separator c) && negb (is_whitespace c) && negb (bool_decide (c ∈ [35; 36; 92; 39; 34; 96])).
Definition stops (r : str) : Prop := match r with [] => True | c :: _ => is_separator c = true \/ is_whitespace c = true end.
Definition not_operator (r : str) : Prop := match r with [] => True | c :: _ => is_redirection c = false end.

Lemma char_at_end u : char_at u (length u) = Ok 0.
Proof. unfold char_at. rewrite lookup_ge_None_2 by lia. by rewrite Nat.eqb_refl. Qed.

Lemma word_loop_plain w : forall fuel pre u r f, Forall (fun c => plain c = true) w -> stops r -> (length w < fuel)%nat ->
  word_loop fuel (at_line pre (u ++ w ++ r) f) (length u) = Ok (Some (length u + length w)%nat, at_line pre (u ++ w ++ r) f).
Proof.
  induction w as [|c w IH]; intros fuel pre u r f Hw Hr Hf; (destruct fuel as [|fuel]; [cbn in Hf; lia|]); cbn [word_loop length app]; rewrite !peek_line.
  - rewrite Nat.add_0_r. destruct r as [|c r]; [rewrite app_nil_r; rewrite char_at_end; done|]. rewrite char_at_app. run.
    destruct Hr as [-> | Hr]; [by rewrite andb_false_r|]. rewrite Hr. by destruct (_ && _).
  - rewrite char_at_app. run. inversion_clear Hw as [|? ? Hc Hw']. unfold plain in Hc. rewrite !andb_true_iff, !negb_true_iff, bool_decide_eq_false, !elem_of_cons in Hc.
    destruct Hc as ((((Hc0 & _) & Hs) & Hws) & Hq). rewrite Hs, Hws. cbn [status at_line]. rewrite (bool_decide_false (NONE = ERROR)) by done.
    apply Z.ltb_lt in Hc0. rewrite !(proj2 (Z.eqb_neq c _)) by (lia || naive_solver). cbn [negb andb orb].
    replace (u ++ c :: w ++ r) with ((u ++ [c]) ++ w ++ r) by (by rewrite <-app_assoc).
    replace (S (length u)) with (length (u ++ [c])) by (rewrite length_app; cbn; lia). rewrite IH by (done || (cbn in Hf; lia)).
    rewrite length_app. cbn [length]. do 3 f_equal. lia.
Qed.

Lemma operator_loop_ok o : forall fuel pre u r f, Forall (.∈ OPERATORS) o -> not_operator r -> (length o <= fuel)%nat ->
  operator_loop fuel (at_line pre (u ++ o ++ r) f) (length u) = Ok (length u + length o)%nat.
Proof.
  induction o as [|c o IH]; intros fuel pre u r f Ho Hr Hf; cbn [app].
  - rewrite Nat.add_0_r. destruct fuel; cbn [operator_loop]; rewrite peek_line; (destruct r as [|c r]; [rewrite app_nil_r, char_at_end; done|]); rewrite char_at_app; run; cbn in Hr; rewrite Hr; by rewrite andb_false_r.
  - inversion_clear Ho as [|? ? Hc Ho']. cbn in Hf. destruct fuel as [|fuel]; [lia|]. cbn [operator_loop length]. rewrite peek_line, char_at_app. run.
    assert (E : negb (c =? 0) && is_redirection c = true).
    { unfold is_redirection, in_set. rewrite bool_decide_true by done. rewrite (proj2 (Z.eqb_neq c 0)); [done|]. intros ->. revert Hc. vm_compute. set_solver. }
    rewrite E. replace (u ++ c :: o ++ r) with ((u ++ [c]) ++ o ++ r) by (by rewrite <-app_assoc).
    replace (S (length u)) with (length (u ++ [c])) by (rewrite length_app; cbn; lia). rewrite IH by (done || lia). rewrite length_app. cbn [length]. f_equal. lia.
Qed.

Lemma refresh_line pre c r f : refresh_input (at_line pre (c :: r) f) = Ok (true, at_line pre (c :: r) f).
Proof. unfold refresh_input. by rewrite rest_of_line. Qed.
Lemma cut_line pre w r f : cut (at_line pre (w ++ r) f) (length w) = Ok w.
Proof. unfold cut. rewrite rest_of_line. run. by rewrite take_app_length. Qed.

Lemma plain_starts c r : plain c = true -> starts (c :: r).
Proof.
  unfold plain, is_whitespace, in_set. rewrite !andb_true_iff, !negb_true_iff, orb_false_iff, !bool_decide_eq_false, !elem_of_cons.
  intros (((_ & _) & Hw & _) & Hq). split; naive_solver.
Qed.

(** A word of plain characters is cut out of the line. *)
Lemma word_cut w fuel pre sp r f : w <> [] -> Forall (fun c => plain c = true) w -> Forall (.∈ WHITESPACE) sp -> stops r -> (length w < fuel)%nat ->
  get_next_str fuel (at_line pre (sp ++ w ++ r) f) = Ok (Some w, at_line (pre ++ sp) (w ++ r) f).
Proof.
  intros Hne Hw Hsp Hr Hf. unfold get_next_str. cbn [input at_line]. change (mkSource _ _ _ _) with (at_line pre (sp ++ w ++ r) f).
  destruct w as [|c w]; [done|]. assert (Hc : plain c = true) by by inversion Hw. rewrite skip_line by (done || by apply plain_starts). run.
  cbn [app]. rewrite refresh_line. run. unfold read_until_separator.
  pose proof (word_loop_plain (c :: w) fuel (pre ++ sp) [] r f Hw Hr Hf) as El. cbn [app length Nat.add] in El. rewrite El. run. rewrite peek_line.
  assert (E : exists x, char_at (c :: w ++ r) (S (length w)) = Ok x).
  { destruct r as [|x r]; [rewrite app_nil_r; exists 0; apply (char_at_end (c :: w))|exists x; apply (char_at_app (c :: w))]. }
  destruct E as [x ->]. run. cbn [Nat.eqb andb]. run. pose proof (cut_line (pre ++ sp) (c :: w) r f) as Ec. cbn [app length] in Ec. by rewrite Ec.
Qed.

(** So is an operator. *)
Lemma operator_cut c o fuel pre sp r f :
  is_separator c = true -> c ∉ WHITESPACE -> c <> 35 -> c <> 0 -> Forall (.∈ OPERATORS) o -> is_valid_operator (c :: o) = true -> Forall (.∈ WHITESPACE) sp ->
  not_operator r -> (length o < fuel)%nat ->
  get_next_str fuel (at_line pre (sp ++ (c :: o) ++ r) f) = Ok (Some (c :: o), at_line (pre ++ sp) ((c :: o) ++ r) f).
Proof.
  intros Hs Hw H35 H0 Ho Hv Hsp Hr Hf. unfold get_next_str. cbn [input at_line]. change (mkSource _ _ _ _) with (at_line pre (sp ++ (c :: o) ++ r) f).
  rewrite skip_line by done. run. cbn [app]. rewrite refresh_line. run. unfold read_until_separator.
  destruct fuel as [|fuel]; [lia|]. cbn [word_loop]. rewrite !peek_line. change (char_at (c :: o ++ r) 0) with (Ok c). run. rewrite Hs, andb_false_r. cbn [andb]. run.
  rewrite peek_line. change (char_at (c :: o ++ r) 0) with (Ok c). run. rewrite Hs. cbn [Nat.eqb andb]. unfold is_valid_ope.
  pose proof (operator_loop_ok o (S fuel) (pre ++ sp) [c] r f Ho Hr ltac:(lia)) as El. cbn [app length Nat.add] in El. rewrite El. run. pose proof (cut_line (pre ++ sp) (c :: o) r f) as Ec. cbn [app length] in Ec.
  rewrite Ec. run. rewrite Hv. run. by rewrite Ec.
Qed.

(** ** The text of tokens *)

Definition spelling_of (ty : token_type) : str :=
  match list_find (fun p => p.2 = ty) (keyword_table ++ operator_table) with Some (_, p) => p.1 | None => [] end.
Definition spelling (t : token) : str := match value t with Some w => w | None => spelling_of (type t) end.

(** The tokens that have a text of their own: words of plain characters that are no keywords, numbers, keywords and operators. *)
Definition plain_word (w : str) : bool :=
  negb (bool_decide (w = [])) && forallb plain w && (if find_model keyword_table w then false else true) && (if find_model operator_table w then false else true).
Definition tok_ok (t : token) : bool :=
  match type t, value t with
  | TOKEN_WORD, Some w => plain_word w
  | TOKEN_IONUMBER, Some v => negb (bool_decide (v = [])) && forallb is_digit v
  | (TOKEN_WORD | TOKEN_IONUMBER | TOKEN_EOF | TOKEN_NEWLINE | TOKEN_QUOTE | TOKEN_CASE | TOKEN_ESAC | TOKEN_ASSIGNMENT_WORD | TOKEN_ERROR | TOKEN_EMPTY), _ => false
  | _, None => true
  | _, Some _ => false
  end.

Lemma lexed w ty v fuel pre sp r f :
  get_next_str fuel (at_line pre (sp ++ w ++ r) f) = Ok (Some w, at_line (pre ++ sp) (w ++ r) f) ->
  change_token_type (at_line (pre ++ sp) (w ++ r) f) w = Ok ty -> v = (if bool_decide (ty = TOKEN_WORD \/ ty = TOKEN_IONUMBER) then Some w else None) ->
  advance fuel (at_line pre (sp ++ w ++ r) f) = Ok (mkTok ty v, at_line (pre ++ sp ++ w) r f).
Proof.
  intros E Ety ->. unfold advance, lexer_next_token. rewrite E. run. rewrite Ety. run. unfold set_pos, set_lstatus, at_line. cbn.
  by rewrite <-!app_assoc, !length_app, Nat.add_assoc.
Qed.

Lemma io_number_no pre w r f : forallb is_digit w = false -> is_IO_NUMBER (at_line pre (w ++ r) f) w = Ok false.
Proof.
  intros Hd. unfold is_IO_NUMBER. rewrite (proj2 (Nat.eqb_neq _ _)); [done|]. clear -Hd. induction w as [|c w IH]; [done|].
  cbn [forallb span length] in *. destruct (is_digit c); cbn [andb] in Hd; [|done]. specialize (IH Hd). lia.
Qed.
Lemma io_number_digits pre w c r f : forallb is_digit w = true -> is_IO_NUMBER (at_line pre (w ++ c :: r) f) w = Ok ((c =? 60) || (c =? 62)).
Proof.
  intros Hd. unfold is_IO_NUMBER. assert (E : span is_digit w = length w).
  { clear -Hd. induction w as [|x w IH]; [done|]. cbn [forallb span length] in *. apply andb_true_iff in Hd as [-> Hd]. by rewrite IH. }
  rewrite E, Nat.eqb_refl, peek_line, char_at_app. by run.
Qed.

(** What has to come behind a token: the operator behind the number of a descriptor, otherwise a blank. *)
Definition follows (t : token) (r : str) : Prop :=
  match type t with TOKEN_IONUMBER => exists c r', r = c :: r' /\ (c = 60 \/ c = 62) | _ => exists r', r = 32 :: r' end.

Definition table_type (w : str) : token_type :=
  match find_model keyword_table w with Some ty => ty | None => default TOKEN_WORD (find_model operator_table w) end.
Lemma type_of_text pre w r f b : is_IO_NUMBER (at_line pre (w ++ r) f) w = Ok b ->
  change_token_type (at_line pre (w ++ r) f) w = Ok (if b then TOKEN_IONUMBER else table_type w).
Proof. intros E. unfold change_token_type. cbn [status at_line]. change (mkSource _ _ _ _) with (at_line pre (w ++ r) f). rewrite E. run. destruct b; [done|]. unfold table_type. by destruct (find_model keyword_table w). Qed.

(** A word or a keyword, and an operator, before a blank. *)
Lemma word_lexed w v fuel pre sp r f : w <> [] -> Forall (fun c => plain c = true) w -> Forall (.∈ WHITESPACE) sp -> (length w < fuel)%nat ->
  v = (if bool_decide (table_type w = TOKEN_WORD \/ table_type w = TOKEN_IONUMBER) then Some w else None) ->
  advance fuel (at_line pre (sp ++ w ++ 32 :: r) f) = Ok (mkTok (table_type w) v, at_line (pre ++ sp ++ w) (32 :: r) f).
Proof.
  intros Hne Hw Hsp Hf Hv. apply lexed; [apply word_cut; [done..|by right|done]| |done].
  destruct (forallb is_digit w) eqn:Ed; [|by rewrite (type_of_text _ _ _ _ false) by by apply io_number_no].
  by rewrite (type_of_text _ _ _ _ false) by by rewrite io_number_digits.
Qed.
Lemma operator_lexed c o fuel pre sp r f :
  is_separator c = true -> c ∉ WHITESPACE -> c <> 35 -> c <> 0 -> Forall (.∈ OPERATORS) o -> is_valid_operator (c :: o) = true -> Forall (.∈ WHITESPACE) sp ->
  forallb is_digit (c :: o) = false -> table_type (c :: o) <> TOKEN_WORD -> table_type (c :: o) <> TOKEN_IONUMBER -> not_operator r -> (length o < fuel)%nat ->
  advance fuel (at_line pre (sp ++ (c :: o) ++ r) f) = Ok (key (table_type (c :: o)), at_line (pre ++ sp ++ c :: o) r f).
Proof.
  intros Hs Hw H35 H0 Ho Hv Hsp Hd Ht1 Ht2 Hr Hf. apply lexed; [by apply operator_cut|by rewrite (type_of_text _ _ _ _ false) by by apply io_number_no|].
  rewrite bool_decide_false; [done|]. by intros [].
Qed.

(** The keywords and operators, by their table. *)
Ltac table_case :=
  match goal with |- context [spelling ?t] => let w := eval vm_compute in (spelling t) in change (spelling t) with w;
  first [ apply (word_lexed w None); [done|apply (bool_decide_unpack _); vm_compute; exact I|done|cbn; lia|done]
        | eapply operator_lexed; [done|vm_compute; set_solver|done|done|apply (bool_decide_unpack _); vm_compute; exact I|done|done|done|done|done|done|cbn; lia] ] end.
Lemma key_lexed ty fuel pre sp r f : tok_ok (key ty) = true -> Forall (.∈ WHITESPACE) sp -> (5 < fuel)%nat ->
  advance fuel (at_line pre (sp ++ spelling (key ty) ++ 32 :: r) f) = Ok (key ty, at_line (pre ++ sp ++ spelling (key ty)) (32 :: r) f).
Proof. intros Hok Hsp Hf. destruct ty; try discriminate Hok; table_case. Qed.

Lemma digit_plain c : is_digit c = true -> plain c = true.
Proof.
  unfold is_digit. rewrite andb_true_iff, !Z.leb_le. intros Hc. assert (H : c ∈ seqZ 48 10) by (apply elem_of_seqZ; lia). revert H. vm_compute (seqZ 48 10).
  rewrite !elem_of_cons, elem_of_nil. intros H. repeat destruct H as [-> | H]; done.
Qed.
(** A token is read back from its text. *)
Lemma token_lexed t fuel pre sp r f : tok_ok t = true -> Forall (.∈ WHITESPACE) sp -> follows t r -> (length (spelling t) + 5 < fuel)%nat ->
  advance fuel (at_line pre (sp ++ spelling t ++ r) f) = Ok (t, at_line (pre ++ sp ++ spelling t) r f).
Proof.
  destruct t as [ty [w|]]; intros Hok Hsp Hr Hf.
  - cbn [spelling value] in *. destruct ty; try discriminate Hok; unfold tok_ok, plain_word in Hok; cbn [type value] in Hok; rewrite ?andb_true_iff, ?negb_true_iff, ?bool_decide_eq_false in Hok.
    + destruct Hok as [Hne Hd]. destruct Hr as (c & r' & -> & Hc). apply lexed; [apply word_cut|..]; try done.
      * apply Forall_forall. intros x Hx. rewrite forallb_forall in Hd. by apply digit_plain, Hd, list_elem_of_In.
      * by destruct Hc as [-> | ->]; left.
      * lia.
      * rewrite (type_of_text _ _ _ _ true); [done|]. rewrite io_number_digits by done. by destruct Hc as [-> | ->].
    + destruct Hok as (((Hne & Hp) & Hk) & Ho). destruct Hr as [r' ->].
      assert (E : table_type w = TOKEN_WORD) by (unfold table_type; destruct (find_model keyword_table w), (find_model operator_table w); done).
      rewrite <-E. apply word_lexed; [done| |done|lia|by rewrite E]. apply Forall_forall. intros x Hx. rewrite forallb_forall in Hp. by apply Hp, list_elem_of_In.
  - assert (Hr' : exists r', r = 32 :: r') by (destruct ty; try discriminate Hok; exact Hr). destruct Hr' as [r' ->]. apply key_lexed; [done|done|lia].
Qed.

(** The blank behind a token. *)
Definition blank (t : token) : str := if isa t TOKEN_IONUMBER then [] else [32].
Definition text (ts : list token) : str := ts ≫= (fun t => spelling t ++ blank t).

(** Tokens that can be written: each has a text, and the number of a descriptor has its operator. *)
Fixpoint writable (ts : list token) : bool :=
  match ts with
  | [] => true
  | t :: ts => tok_ok t && (if isa t TOKEN_IONUMBER then match ts with t' :: _ => is_redir t' | [] => false end else true) && writable ts
  end.

(** The lines of a file and the tokens that they give. *)
Definition script_text (lines : list (list token)) : list Z := lines ≫= (fun ts => text ts ++ [10]).
Definition script_tokens (lines : list (list token)) : list token := lines ≫= (fun ts => ts ++ [key TOKEN_NEWLINE]).

Lemma redir_spelling t : tok_ok t = true -> is_redir t = true -> exists c w, spelling t = c :: w /\ (c = 60 \/ c = 62).
Proof. destruct t as [[] [v|]]; intros Hok Hr; try discriminate Hr; try discriminate Hok; eexists _, _; (split; [reflexivity|]); auto. Qed.

Lemma follows_text t ts r : tok_ok t = true -> writable (t :: ts) = true -> follows t (blank t ++ text ts ++ r).
Proof.
  intros Hok Hw. cbn [writable] in Hw. rewrite !andb_true_iff in Hw. destruct Hw as ((_ & Hn) & Hts). unfold follows, blank, isa in *.
  destruct (bool_decide_reflect (type t = TOKEN_IONUMBER)) as [E|E].
  - rewrite E. destruct ts as [|t' ts]; [done|]. cbn [writable] in Hts. rewrite !andb_true_iff in Hts. destruct Hts as ((Hok' & _) & _).
    destruct (redir_spelling t' Hok' Hn) as (c & w & Es & Hc). exists c. unfold text. cbn [mbind list_bind app]. rewrite Es. cbn [app]. eauto.
  - cbn [app]. destruct (type t); try done; by eexists.
Qed.

Lemma newline_lexed fuel pre sp f : Forall (.∈ WHITESPACE) sp -> (1 < fuel)%nat ->
  advance fuel (at_line pre (sp ++ [10]) f) = Ok (key TOKEN_NEWLINE, at_line (pre ++ sp ++ [10]) [] f).
Proof.
  intros Hsp Hf. apply (operator_lexed 10 [] fuel pre sp [] f); try done; [vm_compute; set_solver|cbn; lia].
Qed.

(** A line of tokens. *)
Lemma line_yields fuel ts f rest : forall pre sp, writable ts = true -> Forall (.∈ WHITESPACE) sp -> (length (text ts) + 6 < fuel)%nat ->
  (forall pre, yields fuel (at_line pre [] f) rest) -> yields fuel (at_line pre (sp ++ text ts ++ [10]) f) (ts ++ key TOKEN_NEWLINE :: rest).
Proof.
  induction ts as [|t ts IH]; intros pre sp Hw Hsp Hf Hrest; cbn [app].
  - eapply yields_token; [apply newline_lexed; [done|lia]|done|apply Hrest].
  - assert (Hw' := Hw). cbn [writable] in Hw'. rewrite !andb_true_iff in Hw'. destruct Hw' as ((Hok & _) & Hts).
    assert (E : text (t :: ts) = spelling t ++ blank t ++ text ts) by (unfold text; cbn [mbind list_bind]; by rewrite <-app_assoc). rewrite E in *.
    rewrite !length_app in Hf. rewrite <-!app_assoc.
    eapply yields_token; [apply token_lexed; [done|done|by apply follows_text|lia]| |].
    + intros Ht. destruct t as [ty v]. cbn in Ht. subst ty. by destruct v.
    + apply IH; [done| |lia|done]. unfold blank. destruct (isa t TOKEN_IONUMBER); repeat constructor.
Qed.

(** A token starts with a character that is no blank and starts no comment. *)
Lemma spelling_starts t : tok_ok t = true -> spelling t <> [] /\ forall r, starts (spelling t ++ r).
Proof.
  destruct t as [ty [w|]]; intros Hok.
  - assert (Hp : w <> [] /\ forall c w', w = c :: w' -> plain c = true).
    { destruct ty; try discriminate Hok; unfold tok_ok, plain_word in Hok; cbn [type value] in Hok; rewrite ?andb_true_iff, ?negb_true_iff, ?bool_decide_eq_false in Hok.
      - destruct Hok as [Hne Hd]. split; [done|]. intros c w' ->. apply andb_true_iff in Hd as [Hd _]. by apply digit_plain.
      - destruct Hok as (((Hne & Hd) & _) & _). split; [done|]. intros c w' ->. by apply andb_true_iff in Hd as [Hd _]. }
    destruct Hp as [Hne Hp]. split; [done|]. intros r. cbn [spelling value]. destruct w as [|c w]; [done|]. apply plain_starts. by eapply Hp.
  - destruct ty; try discriminate Hok; (split; [done|]); intros r; (split; [vm_compute; set_solver|done]).
Qed.

Definition line_charb (c : Z) : bool := (0 <? c) && (c <? 128) && negb (c =? 10).
Lemma line_char_iff c : line_charb c = true <-> line_char c.
Proof. unfold line_charb, line_char. rewrite !andb_true_iff, negb_true_iff, !Z.ltb_lt, Z.eqb_neq. tauto. Qed.
Lemma plain_line c : plain c = true -> line_char c.
Proof.
  unfold plain. rewrite !andb_true_iff, !Z.ltb_lt. intros ((((H1 & H2) & Hs) & _) & _). split; [lia|]. intros ->. done.
Qed.
Lemma spelling_line t : tok_ok t = true -> Forall line_char (spelling t).
Proof.
  destruct t as [ty [w|]]; intros Hok.
  - cbn [spelling value]. apply Forall_forall. intros c Hc. apply list_elem_of_In in Hc. apply plain_line.
    destruct ty; try discriminate Hok; unfold tok_ok, plain_word in Hok; cbn [type value] in Hok; rewrite ?andb_true_iff, !forallb_forall in Hok.
    + by apply digit_plain, Hok.
    + by apply Hok.
  - apply (Forall_impl (fun c => line_charb c = true)); [|intros c; apply line_char_iff].
    destruct ty; try discriminate Hok; apply (bool_decide_unpack _); vm_compute; exact I.
Qed.

Lemma text_ok ts : writable ts = true -> Forall line_char (text ts) /\ starts (text ts ++ [10]) /\ (length ts <= length (text ts))%nat.
Proof.
  induction ts as [|t ts IH]; intros Hw.
  - split; [constructor|]. split; [|done]. split; [vm_compute; set_solver|done].
  - cbn [writable] in Hw. rewrite !andb_true_iff in Hw. destruct Hw as ((Hok & _) & Hts). destruct (IH Hts) as (Hl & _ & Hn). destruct (spelling_starts t Hok) as [Hne Hs].
    unfold text in *. cbn [mbind list_bind]. rewrite !Forall_app. repeat split.
    + by apply spelling_line.
    + unfold blank. destruct (isa t TOKEN_IONUMBER); repeat constructor; by vm_compute.
    + done.
    + rewrite <-!app_assoc. apply Hs.
    + rewrite !length_app. cbn [length]. destruct (spelling t); [done|]. cbn [length]. lia.
Qed.

(** A line that is used up is replaced by the next one. *)
Lemma advance_refresh fuel pre line f f' : starts line -> line <> [] -> io_backend_get_line f = Ok (Some line, f') ->
  advance fuel (at_line pre [] f) = advance fuel (at_line [] line f').
Proof.
  intros Hs Hne Hl. unfold advance, lexer_next_token. enough (E : get_next_str fuel (at_line pre [] f) = get_next_str fuel (at_line [] line f')) by by rewrite E.
  unfold get_next_str. cbn [input at_line]. change (mkSource (Some (pre ++ [])) _ _ f) with (at_line pre [] f). change (mkSource (Some ([] ++ line)) _ _ f') with (at_line [] line f').
  rewrite !skip_nothing by done. run. destruct line as [|c line]; [done|]. rewrite refresh_line.
  unfold refresh_input. rewrite rest_of_line. run. cbn [file at_line]. rewrite Hl. run.
  change (set_pos _ _) with (at_line [] (c :: line) f'). by rewrite skip_nothing.
Qed.

(** The lines of a file give their tokens. *)
Lemma script_yields fuel lines : Forall (fun ts => writable ts = true) lines -> (length (script_text lines) + 6 < fuel)%nat ->
  forall pre, yields fuel (at_line pre [] (script_text lines)) (script_tokens lines).
Proof.
  induction 1 as [|ts lines Hw _ IH]; intros Hf pre.
  - apply (yields_end _ _ (mkSource None None NONE [])); [|done].
    unfold advance, lexer_next_token, get_next_str. cbn [input at_line]. change (mkSource (Some _) _ _ _) with (at_line pre [] []).
    rewrite skip_nothing by done. run. unfold refresh_input. by rewrite rest_of_line.
  - destruct (text_ok ts Hw) as (Hl & Hs & _). cbn [script_text script_tokens mbind list_bind] in *. fold (script_text lines) (script_tokens lines) in *.
    rewrite !length_app in Hf. cbn [length] in Hf.
    assert (Hy : yields fuel (at_line [] (text ts ++ [10]) (script_text lines)) (ts ++ key TOKEN_NEWLINE :: script_tokens lines)).
    { apply (line_yields fuel ts (script_text lines) (script_tokens lines) [] []); [done|done|lia|]. apply IH. lia. }
    rewrite <-!app_assoc. cbn [app]. destruct (yields_next _ _ _ Hy) as (s' & Ea & Hn & Hy').
    assert (Ea' : advance fuel (at_line pre [] (text ts ++ 10 :: script_text lines)) = advance fuel (at_line [] (text ts ++ [10]) (script_text lines))).
    { apply advance_refresh; [done|by destruct (text ts)|by apply get_line_ok]. }
    rewrite Ea in Ea'. destruct (ts ++ key TOKEN_NEWLINE :: script_tokens lines) as [|t ts'] eqn:Et; [by destruct ts|].
    eapply yields_token; [exact Ea'|by apply bool_decide_eq_false in Hn|exact Hy'].
Qed.

Lemma script_holds fuel lines : Forall (fun ts => writable ts = true) lines -> (length (script_text lines) + 6 < fuel)%nat ->
  exists l, lexer_new (script_text lines) = Ok l /\ holds fuel l (script_tokens lines).
Proof.
  intros Hw Hf. unfold lexer_new. destruct Hw as [|ts lines Hts Hw].
  - eexists. split; [reflexivity|]. left. split; [done|]. by apply yields_closed.
  - destruct (text_ok ts Hts) as (Hl & _ & _). cbn [script_text script_tokens mbind list_bind] in *. fold (script_text lines) (script_tokens lines) in *.
    rewrite !length_app in Hf. cbn [length] in Hf. rewrite <-!app_assoc. cbn [app]. rewrite get_line_ok by done. eexists. split; [reflexivity|].
    left. split; [done|]. apply (line_yields fuel ts (script_text lines) (script_tokens lines) [] []); [done|done|lia|]. intros pre. apply script_yields; [done|lia].
Qed.

(** ** Scripts *)

(** A script: one program in a line. *)
Definition script (ps : list program) : list Z := script_text (program_tokens <$> ps).

Lemma main_tokens ps depth fuel : forall n, Forall program_ok ps -> (length ps < n)%nat ->
  Forall (fun p => (length (program_tokens p) <= depth)%nat /\ (length (program_tokens p) <= fuel)%nat) ps ->
  main_loop (L := list token) n depth fuel (PARSER_OK, script_tokens (program_tokens <$> ps)) = Ok ((program_ast <$> ps) ++ [None], (PARSER_EOF, [])).
Proof.
  induction ps as [|p ps IH]; intros n Hok Hn Hs; (destruct n as [|n]; [cbn in Hn; lia|]); cbn [main_loop fst]; rewrite bool_decide_true by done.
  - cbn [fmap list_fmap script_tokens mbind list_bind app]. by destruct n.
  - inversion_clear Hok as [|? ? Hp Hps]. inversion_clear Hs as [|? ? [Hd Hf] Hs'].
    assert (E : script_tokens (program_tokens <$> p :: ps) = program_tokens p ++ key TOKEN_NEWLINE :: script_tokens (program_tokens <$> ps))
      by (unfold script_tokens; cbn [fmap list_fmap mbind list_bind]; by rewrite <-app_assoc).
    rewrite E, (input_ok p depth fuel PARSER_OK _ PARSER_OK (script_tokens (program_tokens <$> ps))) by (done || by eexists). run. cbn [fst].
    rewrite bool_decide_false by done. rewrite IH by (done || (cbn in Hn; lia)). done.
Qed.

Lemma tokens_fit ps p : p ∈ ps -> Forall (fun p => writable (program_tokens p) = true) ps -> (length (program_tokens p) <= length (script ps))%nat.
Proof.
  induction ps as [|q ps IH]; intros Hp Hw; [by apply elem_of_nil in Hp|]. inversion_clear Hw as [|? ? Hq Hps].
  unfold script, script_text in *. cbn [fmap list_fmap mbind list_bind]. rewrite !length_app. apply elem_of_cons in Hp as [-> | Hp].
  - destruct (text_ok _ Hq) as (_ & _ & Hl). lia.
  - specialize (IH Hp Hps). lia.
Qed.

(** Claim C12: a script is read as the programs it consists of.  The text of a list of programs, one in a line, with a blank between the tokens,
    goes through the buffer of lines, the scanner, the two tokens of lookahead and the parser, and [main] hands exactly the trees of the
    programs to the execution, in order, before it sees the end of the file.  The words are those of plain characters that are no
    keywords, and the length of the text bounds every loop. *)
Theorem script_is_read ps n depth fuel :
  Forall program_ok ps -> Forall (fun p => writable (program_tokens p) = true) ps ->
  (length ps < n)%nat -> (length (script ps) <= depth)%nat -> (length (script ps) + 6 < fuel)%nat ->
  exists l l', lexer_new (script ps) = Ok l /\
    main_loop (H := lexer_of fuel) n depth fuel (PARSER_OK, l) = Ok ((program_ast <$> ps) ++ [None], (PARSER_EOF, l')).
Proof.
  intros Hok Hw Hn Hd Hf. destruct (script_holds fuel (program_tokens <$> ps)) as (l & El & Hl); [by apply Forall_fmap|done|].
  assert (Hm := @sim_main lexer (list token) (lexer_of fuel) token_list (holds fuel) (holds_related fuel) n fuel depth PARSER_OK l _ Hl). rewrite main_tokens in Hm; [|done|done|].
  - unfold same in Hm. destruct (main_loop (H := lexer_of fuel) n depth fuel (PARSER_OK, l)) as [[trees [st' l']]| | |] eqn:E; try done.
    destruct Hm as [-> [Est _]]. cbn in Est. subst st'. by exists l, l'.
  - apply Forall_forall. intros p Hp. pose proof (tokens_fit ps p Hp Hw). lia.
Qed.

Definition sample_script : list program :=
  [one "ls"; Last (AndOr (Pipeline false (Simple [] (ch "cat") [inl (ch "f"); inr (mkR (Some (ch "2")) TOKEN_REDIR_GG (ch "log"))]) (PMore (Simple [] (ch "wc") []) PEnd)) AOEnd); sample].
Lemma script_is_read_witness :
  exists l l', lexer_new (script sample_script) = Ok l /\
    main_loop (H := lexer_of 300) 4 300 300 (PARSER_OK, l) = Ok ((program_ast <$> sample_script) ++ [None], (PARSER_EOF, l')).
Proof. apply script_is_read; [repeat constructor; check_ok|repeat constructor; vm_compute; reflexivity|vm_compute; lia..]. Defined.

(** ** Input that the lexer does not handle *)

Section unterminated.
Context (pre : str) (f : list Z).
Definition in_line (st : lexer_status) (rest : str) : source := mkSource (Some (pre ++ rest)) (Some (length pre)) st f.

Lemma peek_in_line st rest i : peek_char (in_line st rest) i = char_at rest i.
Proof. apply (peek_line pre rest f i). Qed.

(** Characters that neither end a text in double quotes nor escape in it. *)
Definition open_char (c : Z) : Prop := 0 < c /\ c <> 34 /\ c <> 92 /\ c <> 10.

Lemma quote_not_found w : forall fuel u st, Forall open_char w ->
  read_until_char fuel (in_line st (u ++ w)) (length u) 34 false = NoFuel \/
  read_until_char fuel (in_line st (u ++ w)) (length u) 34 false = Ok (None, false, in_line ERROR (u ++ w)).
Proof.
  induction w as [|c w IH]; intros fuel u st Hw; (destruct fuel as [|fuel]; [by left|]); cbn [read_until_char]; rewrite !peek_in_line.
  - right. by rewrite app_nil_r, char_at_end.
  - rewrite char_at_app. run. apply Forall_cons in Hw as [(H0 & H34 & H92 & H10) Hw']. rewrite (proj2 (Z.eqb_neq c 0)), (proj2 (Z.eqb_neq c 34)), (proj2 (Z.eqb_neq c 92)), (proj2 (Z.eqb_neq c 10)) by lia.
    change (34 =? 41) with false. cbn [orb]. rewrite orb_false_r.
    replace (u ++ c :: w) with ((u ++ [c]) ++ w) by (by rewrite <-app_assoc). replace (S (length u)) with (length (u ++ [c])) by (rewrite length_app; cbn; lia).
    destruct (c =? 39), (c =? 96); apply (IH fuel (u ++ [c]) st); done.
Qed.

(** A text in double quotes that is not closed inside a command substitution hangs the shell.  The inner scan fails without moving the
    pointer, and the scan for the closing parenthesis starts it again, forever: no bound on the iterations is enough. *)
Theorem unterminated_quote_hangs w fuel st moved : Forall open_char w -> read_until_char fuel (in_line st (34 :: w)) 0 41 moved = NoFuel.
Proof.
  intros Hw. revert st moved. induction fuel as [|fuel IH]; intros st moved; [done|]. cbn [read_until_char]. rewrite !peek_in_line. change (char_at (34 :: w) 0) with (Ok 34). run.
  change (34 =? 0) with false. change (34 =? 41) with false. change (34 =? 92) with false. change ((34 =? 39) || (34 =? 34) || (34 =? 96)) with true. change (41 =? 41) with true. cbv iota.
  destruct (quote_not_found w fuel [34] st Hw) as [E | E]; cbn [app length] in E; rewrite E; run; [done|]. apply IH.
Qed.
End unterminated.
Lemma unterminated_quote_hangs_witness : read_until_char 1000 (in_line (ch "$(") [] NONE (34 :: ch "ab")) 0 41 false = NoFuel.
Proof. apply unterminated_quote_hangs. repeat constructor; cbn; lia. Defined.

(** A redirection directly behind a closing parenthesis is refused: the parenthesis and the operator are taken for one operator, which
    does not exist. *)
Theorem redirected_subshell_refused fuel pre o r f : o <> [] -> Forall (.∈ OPERATORS) o -> not_operator r -> (length o < fuel)%nat ->
  advance fuel (at_line pre (41 :: o ++ r) f) = Ok (key TOKEN_ERROR, at_line (pre ++ 41 :: o) r f).
Proof.
  intros Hne Ho Hr Hf. assert (E : get_next_str fuel (at_line pre (41 :: o ++ r) f) = Ok (Some (41 :: o), set_lstatus ERROR (at_line pre (41 :: o ++ r) f))).
  { unfold get_next_str. cbn [input at_line]. change (mkSource _ _ _ _) with (at_line pre (41 :: o ++ r) f). rewrite skip_nothing by (split; [vm_compute; set_solver|done]).
    run. rewrite refresh_line. run. unfold read_until_separator. destruct fuel as [|fuel]; [lia|]. cbn [word_loop]. rewrite !peek_line.
    change (char_at (41 :: o ++ r) 0) with (Ok 41). run. change (negb (is_separator 41)) with false. rewrite andb_false_r. cbn [andb]. run. rewrite peek_line.
    change (char_at (41 :: o ++ r) 0) with (Ok 41). run. change (is_separator 41) with true. cbn [Nat.eqb andb]. unfold is_valid_ope.
    pose proof (operator_loop_ok o (S fuel) pre [41] r f Ho Hr ltac:(lia)) as El. cbn [app length Nat.add] in El. rewrite El. run.
    pose proof (cut_line pre (41 :: o) r f) as Ec. cbn [app length] in Ec. rewrite Ec. run.
    destruct o as [|x o]; [done|]. change (is_valid_operator (41 :: x :: o)) with false. cbv iota. run. unfold cut in *. rewrite rest_of_line in Ec.
    change (rest_of (set_lstatus ERROR _)) with (rest_of (at_line pre (41 :: x :: o ++ r) f)). rewrite rest_of_line.
    cbn [app] in Ec. rewrite Ec. done. }
  unfold advance, lexer_next_token. rewrite E. run. unfold set_pos, set_lstatus, at_line. cbn. rewrite <-app_assoc, !length_app. done.
Qed.
Lemma redirected_subshell_refused_witness : advance 10 (at_line (ch "(a") (41 :: ch ">" ++ ch "f") []) = Ok (key TOKEN_ERROR, at_line (ch "(a" ++ 41 :: ch ">") (ch "f") []).
Proof. apply redirected_subshell_refused; [done|repeat constructor; vm_compute; set_solver|done|cbn; lia]. Defined.

(** The tokens of a file, up to its end. *)
Fixpoint tokens_of (n fuel : nat) (l : lexer) : res (list token) :=
  match n with O => NoFuel | S n => '(t, l) ← pop_lexer fuel l; if isa t TOKEN_EOF then Ok [] else ts ← tokens_of n fuel l; Ok (t :: ts) end.
Definition lex (f : list Z) : res (list token) := l ← lexer_new f; tokens_of (S (length f)) (length f + 10) l.

(** Some input that goes wrong.  A last line of blanks that no newline ends makes the scanner read behind the terminator; a text in
    quotes over two lines that is not closed leaves a pointer into the first line, which is gone; a command substitution inside
    another one ends at the first parenthesis. *)
Theorem lexer_surprises :
  lex (ch "a" ++ [10; 32]) = Fault /\
  lex (ch "echo 'a" ++ 10 :: ch "b") = Fault /\
  lex (ch "echo $(echo $(pwd))") = Ok [word (ch "echo"); word (ch "$(echo $(pwd)"); key TOKEN_RPAREN].
Proof. repeat split; vm_compute; reflexivity. Qed.

End ShLexer.
