(* ===== verification/ShRedir.v ===== *)
(** * Redirections of the shell ([programs/42sh/execution/exec_redir.cpp])

    They run on the kernel's own tables of descriptors, those of [FileTable]: every [dup], [dup2], [close], [open] and [fcntl] of the
    shell is the call that the kernel implements.  The command under a redirection ([exec_switch] on the subtree) is an argument;
    the [flush_fd] after it writes out the buffers of the C library, which touches no descriptor, and is left out.  The theorems show which file
    every descriptor designates while the command runs and after it, for any command that leaves the table as it finds it. *)

From Stdlib Require Import String.
From stdpp Require Import base tactics numbers list functions sets.
From S2P Require Import Prelude Containers FileTable ShParser.
Open Scope Z_scope.

Module ShRedir.
Import ShParser.

(** ** Calls of the shell *)

Abbreviation vfs := FileTable.vfs.
Abbreviation proc := FileTable.proc.
Abbreviation state := (vfs * proc)%type.

(** The state of the kernel is passed on; [None] is [errx], which ends the shell. *)
Definition M (A : Type) : Type := state -> res (option A * state).
#[export] Instance M_ret : MRet M := fun A a s => Ok (Some a, s).
#[export] Instance M_bind : MBind M := fun A B f m s => '(o, s) ← m s; match o with Some a => f a s | None => Ok (None, s) end.
Definition errx {A} : M A := fun s => Ok (None, s).

(** A call of the kernel: the C library turns an error into -1. *)
Definition call (f : vfs -> proc -> res (vfs * proc * FileTable.ret)) : M Z := fun s =>
  '(v, p, r) ← f s.1 s.2; Ok (Some (match r with FileTable.Val x => x | FileTable.Err _ => -1 end), (v, p)).

Definition dup (fd : Z) : M Z := call (fun v p => FileTable.dup v p fd).
Definition dup2 (oldfd newfd : Z) : M Z := call (fun v p => FileTable.dup2 v p oldfd newfd).
Definition close (fd : Z) : M unit := _ ← call (fun v p => FileTable.close v p fd); mret tt.

Definition dup_fd (fd : Z) : M Z := d ← dup fd; if d =? -1 then errx else mret d.
Definition dup2_ (oldfd newfd : Z) : M unit := r ← dup2 oldfd newfd; if r =? -1 then errx else mret tt.

Section redirections.
Context (F_GETFD F_GETFL F_SETFL F_SETFD FD_CLOEXEC O_APPEND O_NONBLOCK O_TRUNC O_CREAT O_ACCMODE O_RDONLY O_WRONLY O_RDWR : Z).
(** [VFS::open_file] on a path and flags. *)
Context (open_file : str -> Z -> vfs -> res (vfs * (option Z * option FileTable.errno))).

Definition fcntl (fd op arg : Z) : M Z := call (fun v p => FileTable.fcntl F_GETFL F_SETFL F_SETFD FD_CLOEXEC O_APPEND O_NONBLOCK v p fd op arg).
Definition open (path : str) (flags : Z) : M Z := call (fun v p => FileTable.open (open_file path flags) v p).

Definition is_fd_open_for_writing (fd : Z) : M bool :=
  flags ← fcntl fd F_GETFL 0;
  if flags =? -1 then mret false else let access_mode := Z.land flags O_ACCMODE in mret ((access_mode =? O_WRONLY) || (access_mode =? O_RDWR)).
Definition is_fd_open_for_reading (fd : Z) : M bool :=
  flags ← fcntl fd F_GETFL 0;
  if flags =? -1 then mret false else let access_mode := Z.land flags O_ACCMODE in mret ((access_mode =? O_RDONLY) || (access_mode =? O_RDWR)).

(** ** Redirections, over the command they are for *)

Definition get_default_fd (t : token_type) : M Z :=
  match t with
  | TOKEN_REDIR_GA | TOKEN_REDIR_GO | TOKEN_REDIR_GG | TOKEN_REDIR_G => mret 1
  | TOKEN_REDIR_LG | TOKEN_REDIR_LA | TOKEN_REDIR_L => mret 0
  | _ => errx
  end.
Definition get_fd (r : redir_info) : M Z := if r_fd r =? -1 then get_default_fd (r_type r) else mret (r_fd r).

Section command.
Context (command : M unit).

(** The steps that [>], [<] and [<>] share: the file is opened on a descriptor that [exec] does not pass on, the old descriptor is
    saved, the file takes its place, the command runs and the old descriptor comes back. *)
Definition replace (fd file : Z) : M Z :=
  _ ← fcntl file F_SETFD FD_CLOEXEC;
  fd_save ← dup_fd fd;
  _ ← fcntl fd_save F_SETFD FD_CLOEXEC;
  _ ← dup2_ file fd;
  _ ← close file;
  _ ← command;
  _ ← dup2_ fd_save fd;
  mret fd_save.

Definition exec_redir_output (r : redir_info) : M unit :=
  fd ← get_fd r;
  fl ← fcntl fd F_GETFL 0;
  if fl =? -1 then errx
  else
    let flags := Z.lor (Z.lor O_WRONLY O_CREAT) (if bool_decide (r_type r = TOKEN_REDIR_GG) then O_APPEND else O_TRUNC) in
    file ← open (r_word r) flags;
    fd_save ← replace fd file;
    close fd_save.

(** The descriptor that is closed at the end is the redirected one, not the saved one. *)
Definition exec_redir_input (r : redir_info) : M unit :=
  fd ← get_fd r;
  fl ← fcntl fd F_GETFL 0;
  if fl =? -1 then errx
  else
    file ← open (r_word r) O_RDONLY;
    if file =? -1 then errx
    else _ ← replace fd file; close fd.

Definition exec_int_out_redir (r : redir_info) : M unit :=
  fd ← get_fd r;
  file ← open (r_word r) O_RDONLY;
  fd_save ← replace fd file;
  close fd_save.

Definition is_number (s : str) : bool := forallb (fun c => (48 <=? c) && (c <=? 57)) s.

Definition exec_redir_duplicate (r : redir_info) : M unit :=
  fd ← get_fd r;
  if is_number (r_word r) then
    g ← fcntl fd F_GETFD 0;
    from_fd_save ← (if g =? -1 then mret (-1) else d ← dup_fd fd; _ ← fcntl d F_SETFD FD_CLOEXEC; mret d);
    let out_fd := atoi (r_word r) in
    if out_fd =? fd then close from_fd_save
    else
      ok ← (if bool_decide (r_type r = TOKEN_REDIR_GA) then is_fd_open_for_writing out_fd else is_fd_open_for_reading out_fd);
      if negb ok then errx
      else
        _ ← dup2_ out_fd fd;
        _ ← close out_fd;
        _ ← command;
        if from_fd_save =? -1 then close fd else _ ← dup2_ from_fd_save fd; close from_fd_save
  else if bool_decide (r_word r = ch "-") then close fd
  else errx.

Definition exec_redir (r : redir_info) : M unit :=
  match r_type r with
  | TOKEN_REDIR_LG => exec_int_out_redir r
  | TOKEN_REDIR_LA | TOKEN_REDIR_GA => exec_redir_duplicate r
  | TOKEN_REDIR_GG | TOKEN_REDIR_G | TOKEN_REDIR_GO => exec_redir_output r
  | TOKEN_REDIR_L => exec_redir_input r
  | _ => errx
  end.
End command.

(** ** What the calls do to the table of the process *)

(** The open file behind a descriptor. *)
Definition view (s : state) (n : nat) : option Z := match FileTable.fds s.2 !! n with Some (Some d) => Some (FileTable.sys_fd d) | _ => None end.

Section specs.
Context (ext : Z -> Z).
Definition inv (s : state) : Prop := FileTable.fd_inv ext s.1 s.2.

(** [m] from [s] returns [a], in a state where the descriptors designate [w]. *)
Definition does {A} (m : M A) (s : state) (a : A) (w : nat -> option Z) : Prop :=
  exists s', m s = Ok (Some a, s') /\ inv s' /\ forall n, view s' n = w n.

Lemma does_bind {A B} (m : M A) (k : A -> M B) s a b w w' :
  does m s a w -> (forall s', inv s' -> (forall n, view s' n = w n) -> does (k a) s' b w') -> does (m ≫= k) s b w'.
Proof. intros (s' & E & Hi & Hv) Hk. destruct (Hk s' Hi Hv) as (s2 & E2 & H2). exists s2. split; [|done]. unfold mbind, M_bind, mbind, res_bind. rewrite E. done. Qed.
Lemma does_ret {A} (a : A) s : inv s -> does (mret a) s a (view s).
Proof. intros Hi. by exists s. Qed.
Lemma does_eq {A} (m : M A) s a w w' : does m s a w -> (forall n, w n = w' n) -> does m s a w'.
Proof. intros (s' & E & Hi & Hv) Hw. exists s'. split; [done|]. split; [done|]. intros n. by rewrite Hv. Qed.

(** The cell of a descriptor. *)
Lemma view_cell s n f : view s n = Some f -> exists d, FileTable.fds s.2 !! n = Some (Some d) /\ FileTable.sys_fd d = f.
Proof. unfold view. destruct (_ !! n) as [[d|]|]; [intros [= <-]; by exists d|done..]. Qed.
Lemma view_bound s n f : inv s -> view s n = Some f -> (n < 20)%nat.
Proof.
  intros Hi (d & Hd & _)%view_cell. pose proof (FileTable.table_bound ext s.1 s.2 (Z.of_nat n) (Some d) Hi ltac:(lia)) as H. rewrite Nat2Z.id in H. specialize (H Hd). unfold FileTable.MAX_FD_PER_PROCESS in H. lia.
Qed.
Lemma view_insert (v : vfs) l low n o k : (n < length l)%nat ->
  view (v, FileTable.mkProc (<[n := o]> l) low) k = <[n := FileTable.sys_fd <$> o]> (fun i => match l !! i with Some (Some d) => Some (FileTable.sys_fd d) | _ => None end) k.
Proof.
  intros Hn. unfold view. cbn [snd FileTable.fds]. destruct (decide (k = n)) as [-> | Hne].
  - rewrite list_lookup_insert_eq, fn_lookup_insert by done. by destruct o.
  - by rewrite list_lookup_insert_ne, fn_lookup_insert_ne by done.
Qed.
Lemma inv_length s : inv s -> length (FileTable.fds s.2) = 20%nat.
Proof. intros Hi. destruct (FileTable.inv_fds _ _ _ Hi) as (Hl & _). unfold FileTable.MAX_FD_PER_PROCESS in Hl. lia. Qed.

(** A free cell there is, and the lowest one is free. *)
Lemma lowest_is_free s m : inv s -> (m < 20)%nat -> view s m = None ->
  exists k, FileTable.p_lowest s.2 = Z.of_nat k /\ (k < 20)%nat /\ FileTable.fds s.2 !! k = Some None /\ view s k = None.
Proof.
  intros Hi Hm Hv. pose proof (inv_length s Hi) as Hlen. destruct (FileTable.inv_fds _ _ _ Hi) as (_ & Hlow & Hocc & Hfree). unfold FileTable.MAX_FD_PER_PROCESS in *.
  assert (Hlt : FileTable.p_lowest s.2 < 20).
  { destruct (Z.lt_ge_cases (Z.of_nat m) (FileTable.p_lowest s.2)) as [Hl|Hl]; [|lia]. exfalso.
    destruct (Hocc (Z.of_nat m) ltac:(lia)) as [d Hd]. rewrite Nat2Z.id in Hd. unfold view in Hv. by rewrite Hd in Hv. }
  exists (Z.to_nat (FileTable.p_lowest s.2)). rewrite Z2Nat.id by lia. split; [done|]. split; [lia|]. specialize (Hfree Hlt). split; [done|]. unfold view. by rewrite Hfree.
Qed.

Lemma dup_does s n f m : inv s -> view s n = Some f -> (m < 20)%nat -> view s m = None ->
  exists k, (k < 20)%nat /\ view s k = None /\ does (dup_fd (Z.of_nat n)) s (Z.of_nat k) (<[k := Some f]> (view s)).
Proof.
  intros Hi Hn Hm Hfree. destruct (view_cell _ _ _ Hn) as (d & Hd & <-). destruct (lowest_is_free s m Hi Hm Hfree) as (k & Hk & Hk20 & Hcell & Hkv).
  assert (Hd' : FileTable.fds s.2 !! Z.to_nat (Z.of_nat n) = Some (Some d)) by by rewrite Nat2Z.id.
  destruct (FileTable.descriptor_file _ _ _ _ _ Hi (Nat2Z.is_nonneg n) Hd') as (fl & _ & Hfl & _).
  pose proof (FileTable.dup_spec ext s.1 s.2 (Z.of_nat n) d fl Hi (Nat2Z.is_nonneg n) Hd' Hfl) as Hdup. rewrite Hk in Hdup. unfold FileTable.MAX_FD_PER_PROCESS in Hdup.
  rewrite (proj2 (Z.ltb_lt _ _)) in Hdup by lia. destruct Hdup as (v' & j & E & Hi' & _). rewrite Nat2Z.id in *.
  exists k. split; [done|]. split; [done|]. eexists (v', _). split; [|split; [exact Hi'|]].
  - unfold dup_fd, dup, call, mbind, M_bind, mbind, res_bind. rewrite E. rewrite (proj2 (Z.eqb_neq _ _)) by lia. done.
  - intros i. rewrite view_insert by (rewrite inv_length by done; lia). done.
Qed.

Lemma dup2_does s n f m : inv s -> view s n = Some f -> (m < 20)%nat -> n <> m -> does (dup2_ (Z.of_nat n) (Z.of_nat m)) s tt (<[m := Some f]> (view s)).
Proof.
  intros Hi Hn Hm Hne. destruct (view_cell _ _ _ Hn) as (d & Hd & <-).
  assert (Hd' : FileTable.fds s.2 !! Z.to_nat (Z.of_nat n) = Some (Some d)) by by rewrite Nat2Z.id.
  destruct (FileTable.dup2_spec ext s.1 s.2 (Z.of_nat n) d (Z.of_nat m) Hi (Nat2Z.is_nonneg n) Hd') as (v' & j & E & Hi'); [unfold FileTable.MAX_FD_PER_PROCESS; lia|lia|].
  rewrite Nat2Z.id in *. eexists (v', _). split; [|split; [exact Hi'|]].
  - unfold dup2_, dup2, call, mbind, M_bind, mbind, res_bind. rewrite E. rewrite (proj2 (Z.eqb_neq _ _)) by lia. done.
  - intros i. rewrite view_insert by (rewrite inv_length by done; lia). done.
Qed.

Lemma close_does s n f : inv s -> view s n = Some f -> does (close (Z.of_nat n)) s tt (<[n := None]> (view s)).
Proof.
  intros Hi Hn. destruct (view_cell _ _ _ Hn) as (d & Hd & <-). pose proof (view_bound _ _ _ Hi Hn) as Hb.
  assert (Hd' : FileTable.fds s.2 !! Z.to_nat (Z.of_nat n) = Some (Some d)) by by rewrite Nat2Z.id.
  destruct (FileTable.descriptor_file _ _ _ _ _ Hi (Nat2Z.is_nonneg n) Hd') as (fl & _ & Hfl & _).
  destruct (FileTable.close_spec ext s.1 s.2 (Z.of_nat n) d fl Hi (Nat2Z.is_nonneg n) Hd' Hfl) as (v' & E & Hi' & _). rewrite Nat2Z.id in *.
  eexists (v', _). split; [|split; [exact Hi'|]].
  - unfold close, call, mbind, M_bind, mbind, res_bind. by rewrite E.
  - intros i. rewrite view_insert by (rewrite inv_length by done; lia). done.
Qed.

Lemma close_none s n : inv s -> ~ FileTable.is_open s.2 n -> does (close n) s tt (view s).
Proof. intros Hi Hn. exists s. split; [|by split]. unfold close, call, mbind, M_bind, mbind, res_bind, FileTable.close. rewrite (FileTable.proc_to_sys_fd_closed _ _ _ _ Hi Hn). by destruct s. Qed.

(** Marking a descriptor for [exec] changes no reference. *)
Lemma mark_inv v p n d b : FileTable.fd_inv ext v p -> 0 <= n -> FileTable.fds p !! Z.to_nat n = Some (Some d) ->
  FileTable.fd_inv ext v (FileTable.mkProc (<[Z.to_nat n := Some (FileTable.mkFd (FileTable.fd d) (FileTable.sys_fd d) b)]> (FileTable.fds p)) (FileTable.p_lowest p)).
Proof.
  intros Hi Hn Hd. destruct Hi as [Hfiles Hfds Hext Hheld Hrc Href Hpipe]. constructor; cbn [FileTable.fds FileTable.p_lowest]; try done.
  - by eapply FileTable.lowest_free_update.
  - intros i f Hi Hf. destruct (Hrc i f Hi Hf) as [H1 H2]. split; [done|]. rewrite H2. f_equal. rewrite (FileTable.refs_insert _ _ _ _ _ Hd).
    unfold FileTable.refers. cbn [FileTable.sys_fd]. lia.
  - intros i e Hi He. destruct (decide (i = n)) as [-> | Hne].
    + rewrite list_lookup_insert_eq in He by (by eapply lookup_lt_Some). injection He as <-. cbn. by apply (Href n d).
    + rewrite list_lookup_insert_ne in He by lia. by apply Href.
Qed.

Hypothesis setfd_op : F_SETFD <> F_GETFL /\ F_SETFD <> F_SETFL.
Hypothesis getfd_op : F_GETFD <> F_GETFL /\ F_GETFD <> F_SETFL /\ F_GETFD <> F_SETFD.

Lemma setfd_does s n f x : inv s -> view s n = Some f -> does (fcntl (Z.of_nat n) F_SETFD x) s 0 (view s).
Proof.
  intros Hi Hn. destruct (view_cell _ _ _ Hn) as (d & Hd & <-). pose proof (view_bound _ _ _ Hi Hn) as Hb. destruct s as [v p]. assert (Hi2 : FileTable.fd_inv ext v p) by exact Hi. cbn [fst snd] in *.
  assert (Hd' : FileTable.fds p !! Z.to_nat (Z.of_nat n) = Some (Some d)) by by rewrite Nat2Z.id.
  destruct (FileTable.inv_ref _ _ _ Hi _ _ (Nat2Z.is_nonneg n) Hd') as (_ & Hs & _).
  pose proof (mark_inv v p (Z.of_nat n) d (truthy (Z.land x FD_CLOEXEC)) Hi (Nat2Z.is_nonneg n) Hd') as Hi'.
  eexists (v, _). split; [|split; [exact Hi'|]].
  - unfold fcntl, call, mbind, M_bind, mbind, res_bind, FileTable.fcntl. cbn [fst snd]. rewrite (FileTable.proc_to_sys_fd_open _ _ _ _ _ Hi2 (Nat2Z.is_nonneg n) Hd'). run.
    destruct setfd_op. rewrite (proj2 (Z.eqb_neq (FileTable.sys_fd d) (-1))), (proj2 (Z.eqb_neq F_SETFD F_GETFL)), (proj2 (Z.eqb_neq F_SETFD F_SETFL)), Z.eqb_refl by lia.
    rewrite (proj2 (FileTable.cell_lookup _ _ _) (conj (Nat2Z.is_nonneg n) Hd')). run. by rewrite (FileTable.set_cell_lookup _ _ _ _ (Nat2Z.is_nonneg n) Hd').
  - intros i. rewrite Nat2Z.id, view_insert by (pose proof (inv_length _ Hi) as Hl; cbn in Hl; lia). destruct (decide (i = n)) as [-> | Hne].
    + rewrite fn_lookup_insert. unfold view. cbn [snd fmap option_fmap option_map FileTable.sys_fd]. by rewrite Hd.
    + by rewrite fn_lookup_insert_ne.
Qed.
Lemma getfd_does s n f : inv s -> view s n = Some f -> fcntl (Z.of_nat n) F_GETFD 0 s = Ok (Some (-1), s).
Proof.
  intros Hi Hn. destruct (view_cell _ _ _ Hn) as (d & Hd & <-). destruct s as [v p]. assert (Hi2 : FileTable.fd_inv ext v p) by exact Hi. cbn [fst snd] in *.
  assert (Hd' : FileTable.fds p !! Z.to_nat (Z.of_nat n) = Some (Some d)) by by rewrite Nat2Z.id.
  destruct (FileTable.inv_ref _ _ _ Hi _ _ (Nat2Z.is_nonneg n) Hd') as (_ & Hs & _).
  unfold fcntl, call, mbind, M_bind, mbind, res_bind, FileTable.fcntl. cbn [fst snd]. rewrite (FileTable.proc_to_sys_fd_open _ _ _ _ _ Hi2 (Nat2Z.is_nonneg n) Hd'). run.
  destruct getfd_op as (? & ? & ?). by rewrite (proj2 (Z.eqb_neq (FileTable.sys_fd d) (-1))), !(proj2 (Z.eqb_neq F_GETFD _)) by lia.
Qed.
Lemma getfl_does s n f fl : inv s -> view s n = Some f -> FileTable.files s.1 !! Z.to_nat f = Some (Some fl) ->
  fcntl (Z.of_nat n) F_GETFL 0 s = Ok (Some (FileTable.f_flags fl), s).
Proof.
  intros Hi Hn Hfl. destruct (view_cell _ _ _ Hn) as (d & Hd & <-). destruct s as [v p]. assert (Hi2 : FileTable.fd_inv ext v p) by exact Hi. cbn [fst snd] in *.
  assert (Hd' : FileTable.fds p !! Z.to_nat (Z.of_nat n) = Some (Some d)) by by rewrite Nat2Z.id.
  destruct (FileTable.inv_ref _ _ _ Hi _ _ (Nat2Z.is_nonneg n) Hd') as (_ & Hs & _).
  unfold fcntl, call, mbind, M_bind, mbind, res_bind, FileTable.fcntl. cbn [fst snd]. rewrite (FileTable.proc_to_sys_fd_open _ _ _ _ _ Hi2 (Nat2Z.is_nonneg n) Hd'). run.
  rewrite (proj2 (Z.eqb_neq (FileTable.sys_fd d) (-1))), Z.eqb_refl by lia. unfold FileTable.the_file. by rewrite (FileTable.file_at_spec _ _ _ Hs Hfl).
Qed.

(** The file system opens the file: a new entry [f] of the system table that no descriptor refers to yet. *)
Definition opens (path : str) (flags : Z) (s : state) (f : Z) : Prop :=
  exists v fl, open_file path flags s.1 = Ok (v, (Some f, None)) /\ FileTable.fd_inv ext v s.2 /\ 0 <= f /\
    FileTable.files v !! Z.to_nat f = Some (Some fl) /\ FileTable.f_fd fl = f.

Lemma open_does s path flags f m : inv s -> opens path flags s f -> (m < 20)%nat -> view s m = None ->
  exists k, (k < 20)%nat /\ view s k = None /\ does (open path flags) s (Z.of_nat k) (<[k := Some f]> (view s)).
Proof.
  intros Hi (v & fl & Ho & Hiv & Hf & Hfl & Hff) Hm Hfree. destruct (lowest_is_free s m Hi Hm Hfree) as (k & Hk & Hk20 & Hcell & Hkv).
  exists k. split; [done|]. split; [done|]. destruct s as [v0 p]. cbn [fst snd] in *.
  destruct (FileTable.get_free_fd_spec ext v0 p Hi) as (j & Hg & Hj & _ & _ & Hlow); [rewrite Hk; unfold FileTable.MAX_FD_PER_PROCESS; lia|]. rewrite Hk in *.
  assert (Hcell' : FileTable.fds p !! Z.to_nat (Z.of_nat k) = Some None) by by rewrite Nat2Z.id.
  pose proof (FileTable.install_inv ext v p (Z.of_nat k) f fl false j Hiv (Nat2Z.is_nonneg k) Hcell' Hf Hfl (Hlow _)) as Hi'.
  eexists (_, _). split; [|split; [exact Hi'|]].
  - unfold open, call, mbind, M_bind, mbind, res_bind, FileTable.open. cbn [fst snd]. rewrite Hg. run. rewrite (proj2 (Z.eqb_neq _ _)) by lia. rewrite Ho. run.
    unfold FileTable.the_file. rewrite (FileTable.file_at_spec _ _ _ Hf Hfl). run. rewrite Hff.
    rewrite (FileTable.install_eq v (FileTable.mkProc (FileTable.fds p) j) (Z.of_nat k) f fl false (Nat2Z.is_nonneg k) Hcell' Hf Hfl). done.
  - intros i. rewrite Nat2Z.id, view_insert by (pose proof (inv_length _ Hi) as Hl; cbn in Hl; lia). done.
Qed.

Lemma bind_eq {A B} (m : M A) (k : A -> M B) s a s' : m s = Ok (Some a, s') -> (m ≫= k) s = k a s'.
Proof. intros E. unfold mbind, M_bind, mbind, res_bind. by rewrite E. Qed.
Lemma does_step {A B} (m : M A) (k : A -> M B) s a b s' w : m s = Ok (Some a, s') -> does (k a) s' b w -> does (m ≫= k) s b w.
Proof. intros E (s2 & E2 & H2). exists s2. by rewrite (bind_eq _ _ _ _ _ E). Qed.

(** Descriptors after a sequence of calls. *)
Ltac views :=
  repeat first
    [ match goal with H : forall n, view ?s n = _ |- context [view ?s ?i] => rewrite (H i) end
    | match goal with |- context [<[_ := _]> _ _] => unfold insert at 1, fn_insert at 1 end
    | case_decide; subst ]; try done; try congruence.

(** A command that leaves the table of the shell as it finds it, where descriptor [n] designates [f]. *)
Definition keeps (command : M unit) (n : nat) (f : Z) : Prop := forall s, inv s -> view s n = Some f -> does command s tt (view s).

(** The command of [replace] runs in [t1], where descriptor [n] designates [f], and ends in [t2]; what is left is to give the descriptor back. *)
Definition ran (command : M unit) (n save : nat) (f g : Z) (w : nat -> option Z) (t1 t2 : state) : Prop :=
  inv t1 /\ (forall i, view t1 i = <[n := Some f]> (<[save := Some g]> w) i) /\ command t1 = Ok (Some tt, t2).

Lemma replace_runs command s n g k f m : inv s -> view s n = Some g -> view s k = Some f -> k <> n -> (m < 20)%nat -> view s m = None -> keeps command n f ->
  exists save t1 t2, (save < 20)%nat /\ view s save = None /\ ran command n save f g (<[k := None]> (view s)) t1 t2 /\ inv t2 /\ (forall i, view t2 i = view t1 i) /\
    replace command (Z.of_nat n) (Z.of_nat k) s = (_ ← dup2_ (Z.of_nat save) (Z.of_nat n); mret (Z.of_nat save)) t2.
Proof.
  intros Hi Hn Hk Hkn Hm Hfree Hc. destruct (setfd_does s k f FD_CLOEXEC Hi Hk) as (s1 & E1 & Hi1 & Hv1).
  destruct (dup_does s1 n g m Hi1) as (save & Hsave & Hnone & s2 & E2 & Hi2 & Hv2); [by rewrite Hv1|done|by rewrite Hv1|]. rewrite Hv1 in Hnone.
  destruct (setfd_does s2 save g FD_CLOEXEC Hi2) as (s3 & E3 & Hi3 & Hv3); [views|].
  destruct (dup2_does s3 k f n) as (s4 & E4 & Hi4 & Hv4); [done|views|exact (view_bound s n g Hi Hn)|done|].
  destruct (close_does s4 k f) as (s5 & E5 & Hi5 & Hv5); [done|views|].
  destruct (Hc s5) as (s6 & E6 & Hi6 & Hv6); [done|views|].
  exists save, s5, s6. split; [done|]. split; [done|]. split; [split; [done|split; [intros i; views|done]]|]. split; [done|]. split; [done|].
  unfold replace. by rewrite (bind_eq _ _ _ _ _ E1), (bind_eq _ _ _ _ _ E2), (bind_eq _ _ _ _ _ E3), (bind_eq _ _ _ _ _ E4), (bind_eq _ _ _ _ _ E5), (bind_eq _ _ _ _ _ E6).
Qed.

(** The descriptor that a redirection is for. *)
Definition redir_fd (r : redir_info) : option Z :=
  if r_fd r =? -1 then
    match r_type r with
    | TOKEN_REDIR_GA | TOKEN_REDIR_GO | TOKEN_REDIR_GG | TOKEN_REDIR_G => Some 1
    | TOKEN_REDIR_LG | TOKEN_REDIR_LA | TOKEN_REDIR_L => Some 0
    | _ => None
    end
  else Some (r_fd r).
Lemma get_fd_eq r fd s : redir_fd r = Some fd -> get_fd r s = Ok (Some fd, s).
Proof. unfold redir_fd, get_fd. destruct (r_fd r =? -1); [destruct (r_type r); intros [=]; subst; done|intros [= <-]; done]. Qed.

(** The flags that a file is opened with for output. *)
Definition output_flags (r : redir_info) : Z := Z.lor (Z.lor O_WRONLY O_CREAT) (if bool_decide (r_type r = TOKEN_REDIR_GG) then O_APPEND else O_TRUNC).

(** What the theorems ask for: the descriptor is open, the file can be opened, and two descriptors are free. *)
Record ready (r : redir_info) (flags : Z) (s : state) (n : nat) (g f : Z) : Prop := {
  ready_inv : inv s;
  ready_fd : redir_fd r = Some (Z.of_nat n);
  ready_open : view s n = Some g;
  ready_flags : exists fl, FileTable.files s.1 !! Z.to_nat g = Some (Some fl) /\ FileTable.f_flags fl <> -1;
  ready_file : opens (r_word r) flags s f;
  ready_room : exists m1 m2, (m1 < 20)%nat /\ (m2 < 20)%nat /\ m1 <> m2 /\ view s m1 = None /\ view s m2 = None
}.

(** The file is opened and takes the place of the descriptor while the command runs. *)
Lemma opened_and_replaced command r flags s n g f : ready r flags s n g f -> keeps command n f ->
  exists k save t1 t2, (k < 20)%nat /\ (save < 20)%nat /\ k <> save /\ view s k = None /\ view s save = None /\ ran command n save f g (view s) t1 t2 /\
    exists s1, open (r_word r) flags s = Ok (Some (Z.of_nat k), s1) /\
      replace command (Z.of_nat n) (Z.of_nat k) s1 = (_ ← dup2_ (Z.of_nat save) (Z.of_nat n); mret (Z.of_nat save)) t2 /\
      does (replace command (Z.of_nat n) (Z.of_nat k)) s1 (Z.of_nat save) (<[save := Some g]> (view s)).
Proof.
  intros [Hi _ Hn _ Ho (m1 & m2 & Hm1 & Hm2 & Hne & Hf1 & Hf2)] Hc.
  destruct (open_does s (r_word r) flags f m1 Hi Ho Hm1 Hf1) as (k & Hk & Hkn & s1 & E1 & Hi1 & Hv1).
  assert (Hroom : exists m, (m < 20)%nat /\ view s1 m = None).
  { destruct (decide (m1 = k)) as [-> | Hmk]; [exists m2|exists m1]; (split; [done|]); views. }
  destruct Hroom as (m & Hm & Hfree).
  destruct (replace_runs command s1 n g k f m Hi1) as (save & t1 & t2 & Hsave & Hnone & (Hit1 & Hvt1 & Ec) & Hit2 & Hvt2 & E); [views|views|congruence|done|done|done|].
  assert (Hks : k <> save) by (intros ->; revert Hnone; views). assert (Hsn : view s save = None) by (revert Hnone; views).
  assert (n <> save) by congruence. exists k, save, t1, t2. do 5 (split; [done|]). split; [split; [done|split; [intros i; rewrite Hvt1; views|done]]|].
  exists s1. split; [done|]. split; [done|]. destruct (dup2_does t2 save g n) as (t3 & E3 & Hit3 & Hvt3); [done|rewrite Hvt2, Hvt1; views|exact (view_bound s n g Hi Hn)|done|].
  exists t3. rewrite E, (bind_eq _ _ _ _ _ E3). split; [done|]. split; [done|]. intros i. rewrite Hvt3. unfold insert at 1, fn_insert at 1. case_decide; [subst; views|]. rewrite Hvt2, Hvt1. views.
Qed.


(** An input redirection leaves the descriptor closed.  The command runs with its descriptor on the file, but at the end the descriptor
    is closed instead of the copy that was saved: the shell has lost it, and one more descriptor is used up. *)
Theorem input_redirection_closes command r s n g f :
  r_type r = TOKEN_REDIR_L -> ready r O_RDONLY s n g f -> keeps command n f ->
  exists save, view s save = None /\ does (exec_redir command r) s tt (<[n := None]> (<[save := Some g]> (view s))).
Proof.
  intros Ht Hr Hc. destruct (opened_and_replaced command r O_RDONLY s n g f Hr Hc) as (k & save & t1 & t2 & _ & _ & _ & _ & Hsn & _ & s1 & E1 & _ & Hd).
  destruct Hr as [Hi Hfd Hn (fl & Hfl & Hflag) _ _]. exists save. split; [done|]. unfold exec_redir. rewrite Ht. unfold exec_redir_input.
  eapply does_step; [by apply get_fd_eq|]. eapply does_step; [by eapply getfl_does|].
  rewrite (proj2 (Z.eqb_neq _ _)) by done. eapply does_step; [exact E1|]. rewrite (proj2 (Z.eqb_neq _ (-1))) by lia. eapply does_bind; [exact Hd|]. intros s2 Hi2 Hv2.
  eapply does_eq; [apply (close_does s2 n g); [done|views]|]. intros i. views.
Qed.

(** A duplicating redirection loses both descriptors.  The kernel's [fcntl] does not know [F_GETFD], so that the shell takes the
    descriptor for closed and does not save it; the descriptor it is made a copy of is closed before the command runs; and at the end the copy is
    closed too.  After [2>&1] the shell has neither 1 nor 2. *)
Theorem duplicating_redirection_closes_both command r s n out g f fl :
  r_type r = TOKEN_REDIR_GA -> inv s -> redir_fd r = Some (Z.of_nat n) -> is_number (r_word r) = true -> atoi (r_word r) = Z.of_nat out -> n <> out ->
  view s n = Some g -> view s out = Some f -> FileTable.files s.1 !! Z.to_nat f = Some (Some fl) -> FileTable.f_flags fl <> -1 ->
  (Z.land (FileTable.f_flags fl) O_ACCMODE = O_WRONLY \/ Z.land (FileTable.f_flags fl) O_ACCMODE = O_RDWR) -> keeps command n f ->
  does (exec_redir command r) s tt (<[n := None]> (<[out := None]> (view s))).
Proof.
  intros Ht Hi Hfd Hw Hout Hne Hn Ho Hfl Hflag Hmode Hc. unfold exec_redir. rewrite Ht. unfold exec_redir_duplicate.
  eapply does_step; [by apply get_fd_eq|]. rewrite Hw. eapply does_step; [by eapply getfd_does|]. eapply does_step; [done|].
  rewrite Hout, (proj2 (Z.eqb_neq _ _)) by lia. rewrite Ht, bool_decide_true by done.
  eapply does_step; [unfold is_fd_open_for_writing; rewrite (bind_eq _ _ _ _ _ (getfl_does s out f fl Hi Ho Hfl)), (proj2 (Z.eqb_neq _ _)) by done; reflexivity|].
  assert (Hb : (Z.land (FileTable.f_flags fl) O_ACCMODE =? O_WRONLY) || (Z.land (FileTable.f_flags fl) O_ACCMODE =? O_RDWR) = true)
    by (apply orb_true_iff; rewrite !Z.eqb_eq; tauto). rewrite Hb. cbn [negb].
  eapply does_bind; [apply (dup2_does s out f n); [done|done|exact (view_bound s n g Hi Hn)|done]|]. intros s1 Hi1 Hv1.
  eapply does_bind; [apply (close_does s1 out f); [done|views]|]. intros s2 Hi2 Hv2.
  eapply does_bind; [apply Hc; [done|views]|]. intros s3 Hi3 Hv3. change (-1 =? -1) with true. cbv iota.
  eapply does_eq; [apply (close_does s3 n f); [done|views]|]. intros i. views.
Qed.

(** A descriptor that is redirected to itself ([1>&1]) makes the shell skip the command: the tables stay as they are whatever the
    command would have done. *)
Theorem self_redirection_skips_command command r s n g :
  r_type r = TOKEN_REDIR_GA -> inv s -> redir_fd r = Some (Z.of_nat n) -> is_number (r_word r) = true -> atoi (r_word r) = Z.of_nat n -> view s n = Some g ->
  exec_redir command r s = Ok (Some tt, s).
Proof.
  intros Ht Hi Hfd Hw Hout Hn. unfold exec_redir. rewrite Ht. unfold exec_redir_duplicate. rewrite (bind_eq _ _ _ _ _ (get_fd_eq r _ s Hfd)), Hw.
  rewrite (bind_eq _ _ _ _ _ (getfd_does s n g Hi Hn)). rewrite (bind_eq _ _ s (-1) s) by done. rewrite Hout, Z.eqb_refl.
  unfold close, call. unfold mbind, M_bind, mbind, res_bind, FileTable.close. by destruct s.
Qed.

End specs.
End redirections.

(** ** The kernel's [open_file] *)

Section kernel.
Context (ext : Z -> Z).

(** A new open file that no descriptor refers to keeps the tables consistent. *)
Lemma new_file_inv v p j fl : FileTable.fd_inv ext v p -> FileTable.lowest_free_fd v < FileTable.MAX_FD ->
  (forall x, FileTable.lowest_free (<[Z.to_nat (FileTable.lowest_free_fd v) := Some x]> (FileTable.files v)) FileTable.MAX_FD j) ->
  FileTable.f_fd fl = FileTable.lowest_free_fd v -> FileTable.rc fl = 0 -> (forall e o b, FileTable.f_kind fl <> FileTable.KPipe e o b) ->
  forall ino, FileTable.fd_inv ext (FileTable.set_files (FileTable.set_inodes (FileTable.set_lowest v j) ino) (<[Z.to_nat (FileTable.lowest_free_fd v) := Some fl]> (FileTable.files v))) p.
Proof.
  intros Hi Hlt Hlow Hfd Hrc Hkind ino. pose proof (FileTable.inv_files _ _ _ Hi) as (Hl & Hb & _ & Hnone). specialize (Hnone Hlt).
  set (i0 := FileTable.lowest_free_fd v) in *. pose proof (lookup_lt_Some _ _ _ Hnone) as Hlen.
  destruct (FileTable.free_unreferenced ext v p i0 Hi (proj1 Hb) Hnone) as [Hrefs Hext].
  constructor; cbn [FileTable.files FileTable.lowest_free_fd FileTable.set_files FileTable.set_inodes FileTable.set_lowest].
  - apply Hlow.
  - apply (FileTable.inv_fds _ _ _ Hi).
  - apply (FileTable.inv_ext _ _ _ Hi).
  - intros s Hs. destruct (FileTable.inv_held _ _ _ Hi s Hs) as [H0 Hocc]. split; [done|]. destruct (decide (s = i0)) as [-> | Hne]; [lia|].
    by apply FileTable.occupied_insert; [lia|lia|congruence|].
  - intros i f Hi0 Hf. destruct (decide (i = i0)) as [-> | Hne].
    + rewrite list_lookup_insert_eq in Hf by done. injection Hf as <-. lia.
    + rewrite list_lookup_insert_ne in Hf by lia. by apply (FileTable.inv_rc _ _ _ Hi).
  - intros i d Hi0 Hd. destruct (FileTable.inv_ref _ _ _ Hi i d Hi0 Hd) as (H1 & H2 & H3). split; [done|]. split; [done|].
    destruct (decide (FileTable.sys_fd d = i0)) as [E | Hne]; [eexists; rewrite E; by apply list_lookup_insert_eq|]. by apply FileTable.occupied_insert; [lia|lia|congruence|].
  - intros i f e o b Hi0 Hf Hk. destruct (decide (i = i0)) as [-> | Hne]; [rewrite list_lookup_insert_eq in Hf by done; injection Hf as <-; by apply Hkind in Hk|].
    rewrite list_lookup_insert_ne in Hf by lia. destruct (FileTable.inv_pipe _ _ _ Hi i f e o b Hi0 Hf Hk) as (Ho & Hoi & g & Hg & Hkg). split; [done|]. split; [done|].
    exists g. split; [|done]. rewrite list_lookup_insert_ne; [done|]. intros E. rewrite <-E in Hg. congruence.
Qed.

(** Whenever the kernel's [open_file] succeeds, it opens the file in the sense above. *)
Lemma kernel_opens `{FileTable.FileSystem} O_TRUNC O_CREAT O_WRONLY O_RDWR supported path flags (lookup touched : str -> option FileTable.found) s v f :
  inv ext s -> FileTable.open_file O_TRUNC O_CREAT O_WRONLY O_RDWR supported s.1 flags (lookup path) (touched path) = Ok (v, (Some f, None)) ->
  opens (fun path flags v => FileTable.open_file O_TRUNC O_CREAT O_WRONLY O_RDWR supported v flags (lookup path) (touched path)) ext path flags s f.
Proof.
  intros Hi E. destruct s as [v0 p]. cbn [fst snd] in *. assert (Hi2 : FileTable.fd_inv ext v0 p) by exact Hi. assert (E' := E).
  pose proof (FileTable.inv_files _ _ _ Hi2) as Hf. pose proof Hf as (Hl & Hb & _ & Hnone). revert E. unfold FileTable.open_file.
  destruct (Z.lt_ge_cases (FileTable.lowest_free_fd v0) FileTable.MAX_FD) as [Hlt|Hge].
  - destruct (FileTable.lowest_free_take _ _ _ Hf Hlt) as (j & Hj & Hj1 & _ & _ & Hj2). specialize (Hnone Hlt).
    rewrite (FileTable.vfs_get_free_fd_at v0 _ j eq_refl (conj (proj1 Hb) Hlt) Hl Hnone Hj). run. rewrite (proj2 (Z.eqb_neq _ (-1))) by lia.
    destruct (truthy _); [done|]. match goal with |- context [match ?x with inl _ => _ | inr _ => _ end] => destruct x as [d|e] end; [|done]. destruct (FileTable.is_dir d); [done|].
    unfold FileTable.open_found. set (v1 := if truthy (Z.land flags O_TRUNC) then _ else _).
    assert (E1 : FileTable.files v1 = FileTable.files v0 /\ exists ino, v1 = FileTable.set_inodes (FileTable.set_lowest v0 j) ino) by (unfold v1; destruct (truthy _); [split; [done|by eexists]|split; [done|exists (FileTable.inodes v0); by destruct v0]]).
    destruct E1 as [Hf1 [ino ->]]. match goal with |- context [match ?x with Some _ => _ | None => FileTable.leave _ _ _ end] => destruct x as [ino'|] end; [|done].
    rewrite (FileTable.put_file_spec _ _ _ None (proj1 Hb)) by exact Hnone. run. intros [= <- <-]. eexists _, _. split; [exact E'|]. split.
    + apply (new_file_inv v0 p j _ Hi2 Hlt Hj2); done.
    + split; [apply Hb|]. split; [cbn; apply list_lookup_insert_eq; by eapply lookup_lt_Some|reflexivity].
  - assert (Hv : FileTable.vfs_get_free_fd v0 = Ok (v0, -1)).
    { unfold FileTable.vfs_get_free_fd. assert (Hm : FileTable.lowest_free_fd v0 = FileTable.MAX_FD) by lia. rewrite Hm. done. }
    rewrite Hv. done.
Qed.

End kernel.

(** ** A shell with one open descriptor *)

(** [0>f] and [0<f]: descriptor 0 is on the terminal, the path [f] leads to inode 7, commands do nothing.  The numbers are those of the
    C library. *)
Definition redirected (t : token_type) (w : string) : redir_info := mkRedir t 0 (ch w).
Definition file_seven : str -> Z -> vfs -> res (vfs * (option Z * option FileTable.errno)) :=
  fun path flags v => @FileTable.open_file FileTable.memory_fs 512 64 1 2 2047 v flags ((fun _ => Some (FileTable.mkFound false 7)) path) ((fun _ => None) path).
Definition nothing : M unit := mret tt.
Definition shell : state := (FileTable.tty_vfs, FileTable.tty_proc).

Lemma shell_ready r flags v : redir_fd r = Some 0 -> file_seven (r_word r) flags FileTable.tty_vfs = Ok (v, (Some 1, None)) ->
  ready file_seven (fun _ => 0) r flags shell 0 0 1.
Proof.
  intros Hr Ho. constructor; [exact FileTable.tty_inv|done|done|by eexists|by eapply kernel_opens; [exact FileTable.tty_inv|exact Ho]|].
  exists 1%nat, 2%nat. repeat split; try lia; done.
Qed.
Lemma nothing_keeps n f : keeps (fun _ => 0) nothing n f.
Proof. intros s Hi _. by apply does_ret. Qed.

Lemma input_redirection_closes_witness :
  exists save, view shell save = None /\
    does (fun _ => 0) (exec_redir 1 3 4 2 1 1024 2048 512 64 3 0 1 2 file_seven nothing (redirected TOKEN_REDIR_L "f")) shell tt (<[0%nat := None]> (<[save := Some 0]> (view shell))).
Proof.
  eapply (input_redirection_closes 1 3 4 2 1 1024 2048 512 64 3 0 1 2 file_seven (fun _ => 0)); [lia|lia|done|eapply shell_ready; vm_compute; reflexivity|apply nothing_keeps].
Defined.
Lemma self_redirection_skips_command_witness :
  exec_redir 1 3 4 2 1 1024 2048 512 64 3 0 1 2 file_seven (errx : M unit) (redirected TOKEN_REDIR_GA "0") shell = Ok (Some tt, shell).
Proof.
  eapply (self_redirection_skips_command 1 3 4 2 1 1024 2048 512 64 3 0 1 2 file_seven (fun _ => 0)) with (n := 0%nat) (g := 0); [lia|lia|done|exact FileTable.tty_inv|done|done|done|done].
Defined.

(** Descriptor 1 is a copy of descriptor 0. *)
Definition shell2 : state := match FileTable.dup FileTable.tty_vfs FileTable.tty_proc 0 with Ok (v, p, _) => (v, p) | _ => shell end.
Lemma shell2_inv : inv (fun _ => 0) shell2.
Proof.
  pose proof (FileTable.dup_spec (fun _ => 0) FileTable.tty_vfs FileTable.tty_proc 0 (FileTable.mkFd 0 0 false) _ FileTable.tty_inv ltac:(lia) eq_refl eq_refl) as H.
  change (FileTable.p_lowest FileTable.tty_proc <? FileTable.MAX_FD_PER_PROCESS) with true in H. destruct H as (v' & j & E & Hi & _).
  unfold shell2, inv. by rewrite E.
Qed.
Lemma duplicating_redirection_closes_both_witness :
  does (fun _ => 0) (exec_redir 1 3 4 2 1 1024 2048 512 64 3 0 1 2 file_seven nothing (redirected TOKEN_REDIR_GA "1")) shell2 tt (<[0%nat := None]> (<[1%nat := None]> (view shell2))).
Proof.
  eapply (duplicating_redirection_closes_both 1 3 4 2 1 1024 2048 512 64 3 0 1 2 file_seven (fun _ => 0)) with (n := 0%nat) (out := 1%nat) (g := 0) (f := 0);
    [lia|lia|done|exact shell2_inv|done|done|done|done|vm_compute; reflexivity|vm_compute; reflexivity|vm_compute; reflexivity|done|right; vm_compute; reflexivity|apply nothing_keeps].
Defined.

End ShRedir.
