(* ===== verification/Syscalls.v ===== *)
(** * System calls, from the C library to the kernel ([core/syscalls.cpp], [mlibc-config/sysdeps/brebos], [libk/ksyscalls.cpp])

    A program leaves a number and arguments in registers and executes [int $0x80]; the dispatcher reads the registers back, calls the
    operation of the kernel, and leaves the answer in [eax].  Both sides are written by hand, one in inline assembly.  What the kernel
    does is the class [Kernel]; that it agrees with what the C library asks for is shown for every call and every kernel.  The
    descriptor tables of [FileTable] are an instance of the part of it that is about descriptors. *)

From stdpp Require Import base tactics numbers list.
From S2P Require Import Prelude Printf FileTable.
Open Scope Z_scope.

Module Syscalls.

(** ** Registers *)

Record cpu_state := mkCpu { eax : Z; ebx : Z; ecx : Z; edx : Z; esi : Z; edi : Z; ebp : Z }.
Definition set_eax (x : Z) (r : cpu_state) : cpu_state := mkCpu x (ebx r) (ecx r) (edx r) (esi r) (edi r) (ebp r).
Definition set_ebx (x : Z) (r : cpu_state) : cpu_state := mkCpu (eax r) x (ecx r) (edx r) (esi r) (edi r) (ebp r).
Definition set_ecx (x : Z) (r : cpu_state) : cpu_state := mkCpu (eax r) (ebx r) x (edx r) (esi r) (edi r) (ebp r).
Definition set_edx (x : Z) (r : cpu_state) : cpu_state := mkCpu (eax r) (ebx r) (ecx r) x (esi r) (edi r) (ebp r).
Definition set_esi (x : Z) (r : cpu_state) : cpu_state := mkCpu (eax r) (ebx r) (ecx r) (edx r) x (edi r) (ebp r).
Definition set_edi (x : Z) (r : cpu_state) : cpu_state := mkCpu (eax r) (ebx r) (ecx r) (edx r) (esi r) x (ebp r).
Definition set_ebp (x : Z) (r : cpu_state) : cpu_state := mkCpu (eax r) (ebx r) (ecx r) (edx r) (esi r) (edi r) x.

(** A register read as an [int]. *)
Abbreviation int := Printf.s32.
Definition is_int (x : Z) : Prop := -2147483648 <= x < 2147483648.
Lemma int_u32 x : int (u32 x) = int x.
Proof. unfold Printf.s32. by rewrite (u32_id (u32 x)) by apply u32_range. Qed.
Lemma u32_int x : u32 (int x) = u32 x.
Proof. unfold Printf.s32, u32. destruct (_ <? _); [by rewrite Z.mod_mod|]. rewrite <-(Z_mod_plus_full (x mod 4294967296 - 4294967296) 1), Z.sub_add. by apply Z.mod_mod. Qed.
Lemma int_id x : is_int x -> int x = x.
Proof.
  unfold is_int, Printf.s32, u32. intros Hx. destruct (Z.lt_ge_cases x 0) as [H|H].
  - rewrite <-(Z_mod_plus_full x 1), Z.mod_small by lia. rewrite (proj2 (Z.ltb_ge _ _)); lia.
  - rewrite Z.mod_small by lia. by rewrite (proj2 (Z.ltb_lt _ _)) by lia.
Qed.

(** ** What the kernel does *)

(** The operations that the handlers call, over the state [K] of the kernel and of the memory of the calling process; addresses are
    numbers.  An operation that may not come back to the process answers [None] then. *)
Class FdCalls (K : Type) := {
  proc_open : Z -> Z -> Z -> K -> res (Z * K);          (* pathname, flags, mode *)
  proc_close : Z -> K -> res (Z * K);
  proc_lseek : Z -> Z -> Z -> K -> res (Z * K);         (* fd, offset, whence *)
  proc_fcntl : Z -> Z -> Z -> K -> res (Z * K);         (* fd, op, va_list *)
  proc_dup : Z -> K -> res (Z * K);
  proc_dup2 : Z -> Z -> K -> res (Z * K);
  proc_pipe : Z -> K -> res (Z * K);                    (* pipefd *)
  proc_isatty : Z -> K -> res (Z * K)
}.

Class Kernel (K : Type) := {
  (* memory of the process *)
  proc_malloc : Z -> K -> res (Z * K);
  proc_calloc : Z -> Z -> K -> res (Z * K);
  proc_free : Z -> K -> res K;
  proc_realloc : Z -> Z -> K -> res (Z * K);
  memory_mmap : Z -> Z -> Z -> Z -> Z -> Z -> K -> res (Z * Z * K);   (* the window, the error *)
  memory_mprotect : Z -> Z -> Z -> K -> res (Z * K);
  store : Z -> list Z -> K -> res K;                    (* bytes to an address *)
  store_int : Z -> Z -> K -> res K;
  load_int : Z -> K -> res Z;
  (* files *)
  proc_read : Z -> Z -> Z -> K -> res (Z * K);          (* fd, buf, count *)
  proc_write : Z -> Z -> Z -> K -> res (Z * K);         (* fd, count, buf *)
  proc_stat : Z -> Z -> K -> res (Z * K);
  proc_fstat : Z -> Z -> K -> res (Z * K);
  proc_chdir : Z -> K -> res (Z * K);
  get_work_dir : K -> list Z;                           (* without its terminator *)
  vfs_mkdir : Z -> K -> res (bool * K);
  vfs_touch : Z -> K -> res (bool * K);
  vfs_ls : Z -> K -> res (bool * K);
  browse_to : Z -> K -> res (option (Z * Z) * K);       (* the entry, the size of its file *)
  vfs_load_file : Z -> Z -> Z -> K -> res (option (list Z) * K);   (* entry, offset, length *)
  (* processes and signals *)
  proc_get_pid : K -> Z;
  terminate_with_value : Z -> K -> res K;
  proc_fork : cpu_state -> K -> res (Z * K);
  scheduler_execve : Z -> Z -> Z -> Z -> bool -> K -> res (option Z * K);
  register_process_wait : Z -> Z -> K -> res (Z * K);
  set_waiting_key : K -> res K;
  set_process_asleep : Z -> K -> res K;
  get_process : Z -> K -> bool;
  proc_kill : Z -> Z -> K -> res (Z * K);
  register_signal_handler : Z -> Z -> K -> res (Z * K);
  signal_context_restore : K -> res (cpu_state * K);
  proc_sigaction : Z -> Z -> Z -> K -> res (Z * K);
  proc_sigprogmask : Z -> Z -> Z -> K -> res (Z * K);
  set_tls : Z -> K -> res K;                            (* tls_base and the entry of the GDT *)
  (* screen, network, debugger *)
  fb_write : Z -> K -> res K;
  fb_clear_screen : K -> res K;
  fb_lock_flushing : K -> res K;
  fb_unlock_flushing : K -> res K;
  fb_draw_rgb : Z -> Z -> Z -> K -> res K;
  fb_flush : K -> res K;
  print_info : Z -> K -> res K;
  print_unknown : Z -> K -> res K;
  http_get : Z -> Z -> Z -> K -> res K;                 (* hostname, port, uri *)
  gdb_load_elf : Z -> K -> res K;
  gdb_unload_elf : Z -> K -> res K;
  system_shutdown : K -> res K;
  SCREEN_WIDTH : Z;
  SCREEN_HEIGHT : Z;
  (* int $0x20: other processes run until this one is chosen again; meanwhile its saved [eax] may have been given a value *)
  timer_interrupt : K -> res (option (option Z) * K);
  (* back to user space, over the handlers of pending signals, which leave the registers as they were (module [Signals]) *)
  resume_user_process : K -> res (option unit * K)
}.

(** The numbers of [errno.h], and [TLS_ENTRY]. *)
Class Errno := { EFAULT : Z; ESRCH : Z; EINVAL : Z; ERANGE : Z; ENOMEM : Z; EAGAIN : Z; EIO : Z }.
Definition TLS_ENTRY : Z := 6.

(** ** The dispatcher *)

Section kernel.
Context {K : Type} `{FdCalls K} `{Kernel K} `{Errno}.

(** The saved registers of the process and the kernel are passed on; [None]: the process does not go on. *)
Definition M (A : Type) : Type := cpu_state * K -> res (option A * (cpu_state * K)).
#[export] Instance M_ret : MRet M := fun A a s => Ok (Some a, s).
#[export] Instance M_bind : MBind M := fun A B f m s => '(o, s) ← m s; match o with Some a => f a s | None => Ok (None, s) end.

Definition reg (f : cpu_state -> Z) : M Z := fun s => Ok (Some (f s.1), s).
Definition ireg (f : cpu_state -> Z) : M Z := x ← reg f; mret (int x).
Definition put (f : cpu_state -> cpu_state) : M unit := fun s => Ok (Some tt, (f s.1, s.2)).
Definition answer (x : Z) : M unit := put (set_eax (u32 x)).
Definition call {A} (f : K -> res (A * K)) : M A := fun s => '(a, k) ← f s.2; Ok (Some a, (s.1, k)).
Definition act (f : K -> res K) : M unit := fun s => k ← f s.2; Ok (Some tt, (s.1, k)).
Definition panic {A} : M A := fun _ => Panic.
Definition gone {A} : M A := fun s => Ok (None, s).
Definition timer : M unit := fun s =>
  '(o, k) ← timer_interrupt s.2;
  match o with Some (Some x) => answer x (s.1, k) | Some None => Ok (Some tt, (s.1, k)) | None => Ok (None, (s.1, k)) end.
Definition resume : M unit := fun s => '(o, k) ← resume_user_process s.2; Ok (o, (s.1, k)).

Definition get_pid : M unit := x ← call (fun k => Ok (proc_get_pid k, k)); answer x.
Definition terminate_process (ret_val : Z) : M unit := _ ← act (terminate_with_value ret_val); _ ← timer; panic.
Definition malloc : M unit := n ← reg edi; x ← call (proc_malloc n); answer x.
Definition calloc : M unit := n ← reg edi; m ← reg esi; x ← call (proc_calloc n m); answer x.
Definition free : M unit := ptr ← reg edi; act (proc_free ptr).
Definition realloc : M unit := ptr ← reg edi; n ← reg esi; x ← call (proc_realloc ptr n); answer x.
Definition get_key : M unit := _ ← act set_waiting_key; timer.

Definition wget : M unit := uri ← reg edi; hostname ← reg esi; port ← reg edx; act (http_get hostname (u16 port) uri).
Definition mkdir : M unit := path ← reg edi; b ← call (vfs_mkdir path); answer (if (b : bool) then 1 else 0).
Definition touch : M unit := path ← reg edi; b ← call (vfs_touch path); answer (if (b : bool) then 1 else 0).
Definition ls : M unit := path ← reg edi; b ← call (vfs_ls path); answer (Z.b2z b).
Definition lseek : M Z := fd ← ireg edi; offset ← ireg esi; whence ← ireg edx; call (proc_lseek fd offset whence).
Definition feh : M unit :=
  rgb ← reg edi; x ← reg esi; y ← reg edx; _ ← act (fb_draw_rgb rgb x y); _ ← act (set_process_asleep 4000); timer.
Definition get_screen_dimensions : M unit := _ ← put (set_eax (u32 SCREEN_WIDTH)); put (set_edi (u32 SCREEN_HEIGHT)).

Definition load_file : M unit :=
  path ← reg edi;
  dentry ← call (browse_to path);
  match (dentry : option (Z * Z)) with
  | None => answer 0
  | Some (d, size) =>
      f ← call (vfs_load_file d 0 size);
      match (f : option (list Z)) with
      | None => answer 0
      | Some bytes => dst ← reg esi; _ ← act (store dst (take (Z.to_nat size) bytes)); _ ← answer 1; put (set_edi (u32 size))
      end
  end.

Definition write : M Z := fd ← ireg edi; buf ← reg esi; count ← reg edx; call (proc_write fd count buf).
Definition open : M Z := pathname ← reg edi; flags ← ireg esi; mode ← reg edx; call (proc_open pathname flags mode).
Definition read : M Z := fd ← ireg edi; buf ← reg esi; len ← reg edx; if buf =? 0 then mret (- EFAULT) else call (proc_read fd buf len).
Definition close : M Z := fd ← ireg edi; call (proc_close fd).
Definition stat : M Z := pathname ← reg edi; statbuf ← reg esi; call (proc_stat pathname statbuf).
Definition fstat : M Z := fd ← ireg edi; statbuf ← reg esi; call (proc_fstat fd statbuf).
Definition kill : M Z :=
  pid ← ireg edi; signal ← ireg esi;
  found ← call (fun k => Ok (get_process pid k, k));
  if (found : bool) then call (proc_kill pid signal) else mret (- ESRCH).
Definition signal : M Z := signal ← ireg edi; handler ← reg esi; call (register_signal_handler signal handler).
Definition signal_return : M unit := r ← call signal_context_restore; put (fun _ => r).
Definition fcntl : M Z := fd ← ireg edi; op ← ireg esi; arg ← reg edx; call (proc_fcntl fd op arg).
Definition dup : M Z := fd ← ireg edi; call (proc_dup fd).
Definition dup2 : M Z := oldfd ← ireg edi; newfd ← ireg esi; call (proc_dup2 oldfd newfd).
Definition pipe : M Z := pipefd ← reg edi; call (proc_pipe pipefd).
Definition getcwd : M unit :=
  buf ← reg edi; size ← reg esi;
  if (size =? 0) || (buf =? 0) then _ ← answer 0; put (set_edi (u32 EINVAL))
  else
    wd ← call (fun k => Ok (get_work_dir k, k));
    if size <? Z.of_nat (length wd) then _ ← answer 0; put (set_edi (u32 ERANGE))
    else _ ← act (store buf (wd ++ [0])); answer buf.
Definition chdir : M Z := path ← reg edi; call (proc_chdir path).
Definition tcbset : M Z := addr ← reg edi; _ ← act (set_tls addr); mret TLS_ENTRY.
Definition isatty : M Z := fd ← ireg edi; call (proc_isatty fd).
Definition sigaction : M Z := signum ← ireg edi; act ← reg esi; old_act ← reg edx; call (proc_sigaction signum act old_act).
Definition sigprocmask : M Z := how ← ireg edi; set ← reg esi; oldset ← reg edx; call (proc_sigprogmask how set oldset).
Definition mmap : M Z :=
  hint ← reg ebx; size ← reg ecx; prot ← ireg edx; flags ← ireg esi; fd ← ireg edi; offset ← reg ebp;
  w ← call (memory_mmap hint size prot flags fd offset);
  let '(window, err) := (w : Z * Z) in if window =? 0 then mret (- err) else mret (int window).
Definition mprotect : M Z := addr ← reg ebx; len ← reg ecx; prot ← ireg edx; call (memory_mprotect addr len prot).
Definition execve (use_path_if_no_heading_slash : bool) : M Z :=
  path ← reg ebx; argc ← ireg ecx; argv ← reg edx; envp ← reg esi;
  x ← call (scheduler_execve path argc argv envp use_path_if_no_heading_slash);
  match (x : option Z) with Some x => mret x | None => gone end.
Definition wait_pid : M Z :=
  pid ← ireg edi;
  wait ← call (fun k => register_process_wait (proc_get_pid k) pid k);
  if negb (wait =? 0) then
    _ ← (if 0 <? wait then status ← reg esi; act (store_int status (int (Z.shiftl wait 8))) else mret tt);
    mret wait
  else _ ← timer; x ← reg eax; mret (int x).
Definition fork : M Z := fun s => call (proc_fork s.1) s.
Definition file_size : M unit := path ← reg edi; file ← call (browse_to path); answer (match (file : option (Z * Z)) with Some (_, n) => n | None => UINT_MAX end).

Definition result (m : M Z) : M unit := x ← m; answer x.

Definition dispatch (id : Z) : M unit :=
  match id with
  | 1 => x ← ireg edi; terminate_process x
  | 2 => s ← reg esi; act (fb_write s)
  | 3 => load ← reg edx; name ← reg esi; if truthy load then act (gdb_load_elf name) else act (gdb_unload_elf name)
  | 4 => get_key
  | 5 => get_pid
  | 6 => _ ← act system_shutdown; gone
  | 8 => malloc
  | 9 => free
  | 10 => mkdir
  | 11 => touch
  | 12 => ls
  | 13 => act fb_clear_screen
  | 14 => result wait_pid
  | 15 => wget
  | 16 => result stat
  | 17 => calloc
  | 18 => realloc
  | 19 => result tcbset
  | 20 => result (execve false)
  | 21 => feh
  | 22 => act fb_lock_flushing
  | 23 => act fb_unlock_flushing
  | 24 => get_screen_dimensions
  | 25 => load_file
  | 26 => result write
  | 28 => result fork
  | 29 => file_size
  | 30 => result open
  | 31 => result read
  | 32 => result close
  | 33 => result lseek
  | 34 => result fstat
  | 35 => result kill
  | 36 => result signal
  | 37 => signal_return
  | 38 => result fcntl
  | 39 => result dup2
  | 40 => result dup
  | 41 => result pipe
  | 42 => result (execve true)
  | 43 => getcwd
  | 44 => result chdir
  | 45 => result sigprocmask
  | 46 => result isatty
  | 47 => result sigaction
  | 48 => result mmap
  | 49 => result mprotect
  | 50 => name ← reg edx; act (gdb_unload_elf name)
  | 400 => _ ← act fb_flush; x ← reg edi; act (print_info x)
  | id => act (print_unknown id)
  end.

(** [Syscall::dispatcher]: the registers at the interrupt are those of the process. *)
Definition dispatcher : M unit := id ← reg eax; _ ← dispatch id; resume.

(** Only [eax] of the saved registers changes. *)
Definition keeps {A} (m : M A) : Prop := forall r k o r' k', m (r, k) = Ok (o, (r', k')) -> exists x, r' = set_eax x r.
Lemma eax_same r : r = set_eax (eax r) r.
Proof. by destruct r. Qed.
Lemma keeps_id {A} (m : M A) : (forall r k o r' k', m (r, k) = Ok (o, (r', k')) -> r' = r) -> keeps m.
Proof. intros Hm r k o r' k' E. apply Hm in E as ->. exists (eax r). apply eax_same. Qed.
Lemma keeps_bind {A B} (m : M A) (f : A -> M B) : keeps m -> (forall a, keeps (f a)) -> keeps (m ≫= f).
Proof.
  intros Hm Hf r k o r' k'. unfold mbind, M_bind, mbind, res_bind. destruct (m (r, k)) as [[oa [r1 k1]]| | |] eqn:E1; [|done..].
  destruct (Hm _ _ _ _ _ E1) as [x ->]. destruct oa as [a|]; [|intros [= <- <- <-]; by exists x].
  intros E2. destruct (Hf a _ _ _ _ _ E2) as [y ->]. by exists y.
Qed.
Lemma keeps_ret {A} (a : A) : keeps (mret a).
Proof. apply keeps_id. by intros r k o r' k' [= _ <- _]. Qed.
Lemma keeps_reg f : keeps (reg f).
Proof. apply keeps_id. by intros r k o r' k' [= _ <- _]. Qed.
Lemma keeps_call {A} (f : K -> res (A * K)) : keeps (call f).
Proof. apply keeps_id. intros r k o r' k'. unfold call. cbn. destruct (f k) as [[a k1]| | |]; [|done..]. by intros [= _ <- _]. Qed.
Lemma keeps_act f : keeps (act f).
Proof. apply keeps_id. intros r k o r' k'. unfold act. cbn. destruct (f k); [|done..]. by intros [= _ <- _]. Qed.
Lemma keeps_answer x : keeps (answer x).
Proof. intros r k o r' k' [= _ <- _]. by eexists. Qed.
Lemma keeps_gone {A} : keeps (gone (A := A)).
Proof. apply keeps_id. by intros r k o r' k' [= _ <- _]. Qed.
Lemma keeps_panic {A} : keeps (panic (A := A)).
Proof. by intros r k o r' k' [=]. Qed.
Lemma keeps_timer : keeps timer.
Proof.
  intros r k o r' k'. unfold timer. cbn. destruct (timer_interrupt k) as [[[[x|]|] k1]| | |]; [..|done|done|done]; cbn; intros [= _ <- _]; first [by eexists | by exists (eax r); apply eax_same].
Qed.
Lemma keeps_resume : keeps resume.
Proof. apply keeps_id. intros r k o r' k'. unfold resume. cbn. destruct (resume_user_process k) as [[a k1]| | |]; [|done..]. by intros [= _ <- _]. Qed.
Lemma keeps_fork : keeps fork.
Proof. apply keeps_id. intros r k o r' k'. unfold fork, call. cbn. destruct (proc_fork r k) as [[a k1]| | |]; [|done..]. by intros [= _ <- _]. Qed.
Create HintDb regs discriminated.
#[local] Hint Resolve keeps_bind keeps_ret keeps_reg keeps_call keeps_act keeps_answer keeps_gone keeps_panic keeps_timer keeps_resume keeps_fork : regs.
#[local] Hint Extern 2 (keeps (if ?b then _ else _)) => destruct b : regs.
#[local] Hint Extern 2 (keeps (match ?x with _ => _ end)) => destruct x : regs.
#[local] Hint Extern 3 (keeps _) => progress unfold ireg, result, terminate_process, malloc, calloc, free, realloc, get_key, get_pid, wget, mkdir, touch, ls, lseek, feh, write, open, read,
  close, stat, fstat, kill, signal, fcntl, dup, dup2, pipe, chdir, tcbset, isatty, sigaction, sigprocmask, mmap, mprotect, execve, wait_pid, file_size : regs.

(** The calls that change a second register: the dimensions of the screen, loading a file, the working directory; and the return from
    a signal handler. *)
Definition changes_more (id : Z) : bool := (id =? 24) || (id =? 25) || (id =? 37) || (id =? 43).
Lemma dispatch_keeps id : changes_more id = false -> keeps (dispatch id).
Proof.
  intros Hid. destruct id as [|p|p]; [cbn; eauto 20 with regs| |cbn; eauto 20 with regs].
  repeat first [ done | progress (cbn [dispatch]; typeclasses eauto 30 with regs nocore) | destruct p as [p|p|] ].
Qed.
Lemma dispatcher_keeps r k o r' k' : changes_more (eax r) = false -> dispatcher (r, k) = Ok (o, (r', k')) -> exists x, r' = set_eax x r.
Proof.
  intros Hid E. cut (keeps (_ ← dispatch (eax r); resume)); [|apply keeps_bind; [by apply dispatch_keeps|intros []; apply keeps_resume]].
  intros Hk. exact (Hk r k o r' k' E).
Qed.

End kernel.

(** ** The C library *)

Section libc.
Context {K : Type} `{FdCalls K} `{Kernel K} `{Errno}.
Context (O_CREAT O_TMPFILE : Z).
(** What the C library does for a call it does not support, and the copy of a [struct sigaction] on the stack, with the flag
    [SA_RESTORER] and the address of [__sig_return] put in. *)
Context (panicLogger : K -> res (option unit * K)) (with_restorer : Z -> K -> res (Z * K)).
(** The registers that the compiler does not set. *)
Context (regs : cpu_state).

Definition U (A : Type) : Type := K -> res (option A * K).
#[export] Instance U_ret : MRet U := fun A a k => Ok (Some a, k).
#[export] Instance U_bind : MBind U := fun A B f m k => '(o, k) ← m k; match o with Some a => f a k | None => Ok (None, k) end.

Definition unreachable {A} : U A := fun _ => Fault.
Definition lift {A} (f : K -> res (A * K)) : U A := fun k => '(a, k) ← f k; Ok (Some a, k).

(** [int $0x80] with these registers, and the registers afterwards. *)
Definition int80 (r : cpu_state) : U cpu_state := fun k => '(o, (r, k)) ← dispatcher (r, k); Ok (match o with Some _ => Some r | None => None end, k).

(** [cxx-syscall.h]: the highest 4095 words are errors. *)
Definition sc_error (v : Z) : Z := if 4294967296 - 4096 <? u32 v then - v else 0.
Definition sc_int_result (r : cpu_state) : Z := int (eax r).

(** The number that a call returns, and what it stores for its caller. *)
Definition checked (v : Z) : Z * option Z := let e := sc_error v in if truthy e then (e, None) else (0, Some v).
Definition unchecked (v : Z) : Z * option Z := (0, Some v).

(** The inline assembly: "D", "S" and "d" are [edi], [esi] and [edx]. *)
Definition asm0 (id : Z) : U cpu_state := int80 (set_eax id regs).
Definition asm1 (id d : Z) : U cpu_state := int80 (set_edi (u32 d) (set_eax id regs)).
Definition asm2 (id d s : Z) : U cpu_state := int80 (set_esi (u32 s) (set_edi (u32 d) (set_eax id regs))).
Definition asm3 (id d s x : Z) : U cpu_state := int80 (set_edx (u32 x) (set_esi (u32 s) (set_edi (u32 d) (set_eax id regs)))).

Definition xchg (r : cpu_state) : cpu_state := set_ebx (edi r) (set_edi (ebx r) r).
(** [do_syscall.cpp]: the first argument goes to [ebx], which the compiler must find unchanged afterwards. *)
Definition do_syscall3 (sc a1 a2 a3 : Z) : U cpu_state :=
  r ← int80 (xchg (set_edx (u32 a3) (set_ecx (u32 a2) (set_edi (u32 a1) (set_eax sc regs))))); mret (xchg r).
Definition do_syscall4 (sc a1 a2 a3 a4 : Z) : U cpu_state :=
  r ← int80 (xchg (set_esi (u32 a4) (set_edx (u32 a3) (set_ecx (u32 a2) (set_edi (u32 a1) (set_eax sc regs)))))); mret (xchg r).
Definition do_syscall6 (sc a1 a2 a3 a4 a5 a6 : Z) : U cpu_state :=
  let r := set_edi (u32 a5) (set_esi (u32 a4) (set_edx (u32 a3) (set_ecx (u32 a2) (set_eax sc regs)))) in
  r' ← int80 (set_ebx (u32 a1) (set_ebp (u32 a6) r)); mret (set_ebx (ebx r) (set_ebp (ebp r) r')).

(** [for (argv2 = argv; *argv2; argv2++, argc++)]. *)
Fixpoint count_args (fuel : nat) (argv argc : Z) (k : K) : res Z :=
  match fuel with
  | O => NoFuel
  | S fuel => w ← load_int argv k; if w =? 0 then Ok argc else count_args fuel (u32 (argv + 4)) (argc + 1) k
  end.

(** The calls of [sysdeps.cpp] that are not stubs. *)
Definition Exit (status : Z) : U (Z * option Z) := _ ← asm1 1 status; unreachable.
Definition Open (pathname flags mode : Z) : U (Z * option Z) :=
  let mode := if negb (truthy (Z.land flags O_CREAT) || truthy (Z.land flags O_TMPFILE)) then 0 else mode in
  r ← asm3 30 pathname flags mode; mret (checked (sc_int_result r)).
Definition Read (fd buf count : Z) : U (Z * option Z) := r ← asm3 31 fd buf count; mret (checked (sc_int_result r)).
Definition Write (fd buf count : Z) : U (Z * option Z) := r ← asm3 26 fd buf count; mret (checked (sc_int_result r)).
Definition Seek (fd offset whence : Z) : U (Z * option Z) := r ← asm3 33 fd (int offset) whence; mret (checked (sc_int_result r)).
Definition no_value (x : Z * option Z) : Z * option Z := (x.1, None).
Definition Close (fd : Z) : U (Z * option Z) := r ← asm1 32 fd; mret (no_value (checked (sc_int_result r))).
Definition AnonAllocate (size : Z) : U (Z * option Z) :=
  r ← asm2 17 1 size; let mem := sc_int_result r in mret (if truthy mem then 0 else ENOMEM, Some mem).
Definition AnonFree (pointer : Z) : U (Z * option Z) := _ ← asm1 9 pointer; mret (0, None).
Definition VmMap (hint size prot flags fd offset : Z) : U (Z * option Z) :=
  r ← do_syscall6 48 hint size prot flags fd offset; mret (checked (sc_int_result r)).
Definition TcbSet (pointer : Z) : U (Z * option Z) := _ ← asm1 19 pointer; mret (0, None).
Definition Execve (fuel : nat) (path argv envp : Z) : U (Z * option Z) :=
  argc ← lift (fun k => n ← count_args fuel argv 0 k; Ok (n, k));
  _ ← do_syscall4 20 path argc argv envp; mret (ENOMEM, None).
Definition Fork : U (Z * option Z) := r ← asm0 28; let pid := sc_int_result r in mret (if pid =? -1 then (EAGAIN, None) else (0, Some pid)).
Definition GetPid : U (Z * option Z) := r ← asm0 5; mret (unchecked (sc_int_result r)).
Definition Isatty (fd : Z) : U (Z * option Z) := r ← asm1 46 fd; mret (no_value (checked (sc_int_result r))).
Definition Kill (pid sig : Z) : U (Z * option Z) := r ← asm2 35 pid sig; mret (no_value (checked (sc_int_result r))).
Definition Sigaction (sig act oldact : Z) : U (Z * option Z) :=
  if act =? 0 then mret (EFAULT, None)
  else
    kact ← lift (with_restorer act);
    r ← asm3 47 sig kact oldact; mret (no_value (checked (sc_int_result r))).
Definition Sigprocmask (how set retrieve : Z) : U (Z * option Z) := r ← asm3 45 how set retrieve; mret (no_value (checked (sc_int_result r))).
Definition VmProtect (pointer size prot : Z) : U (Z * option Z) := r ← do_syscall3 49 pointer size prot; mret (no_value (checked (sc_int_result r))).
Definition unsupported (b : bool) : U unit := if b then panicLogger else mret tt.
Definition Waitpid (pid status flags ru : Z) : U (Z * option Z) :=
  _ ← unsupported (truthy ru); _ ← unsupported (truthy flags); r ← asm2 14 pid status; mret (checked (sc_int_result r)).
Definition Chdir (path : Z) : U (Z * option Z) := r ← asm1 44 path; mret (no_value (checked (sc_int_result r))).
Definition Dup (fd flags : Z) : U (Z * option Z) := _ ← unsupported (truthy flags); r ← asm1 40 fd; mret (checked (sc_int_result r)).
Definition Dup2 (fd flags newfd : Z) : U (Z * option Z) :=
  _ ← unsupported (truthy flags); r ← asm2 39 fd newfd; mret (no_value (checked (sc_int_result r))).
Definition Fcntl (fd request args : Z) : U (Z * option Z) := r ← asm3 38 fd request args; mret (checked (sc_int_result r)).
Definition GetCwd (buffer size : Z) : U (Z * option Z) := r ← asm2 43 buffer size; mret (if eax r =? 0 then (int (edi r), None) else (0, None)).
Definition Mkdir (path mode : Z) : U (Z * option Z) :=
  _ ← unsupported (negb (mode =? 511)); r ← asm1 10 path; mret (if truthy (sc_int_result r) then (0, None) else (EIO, None)).
Definition Pipe (fds flags : Z) : U (Z * option Z) := _ ← unsupported (truthy flags); r ← asm1 41 fds; mret (no_value (checked (sc_int_result r))).
Definition Pread (fd buf n off : Z) : U (Z * option Z) := _ ← unsupported (truthy off); Read fd buf n.
Definition Pwrite (fd buf n off : Z) : U (Z * option Z) := _ ← unsupported (truthy off); Write fd buf n.

(** [libk/ksyscalls.cpp] and the programs with calls of their own. *)
Definition get_keystroke : U (Z * option Z) := r ← asm0 4; mret (unchecked (Printf.s8 (eax r))).
Definition get_file_size (path : Z) : U (Z * option Z) := r ← asm1 29 path; mret (unchecked (eax r)).
Definition lock_framebuffer_flush : U (Z * option Z) := _ ← asm0 22; mret (0, None).
Definition unlock_framebuffer_flush : U (Z * option Z) := _ ← asm0 23; mret (0, None).
Definition screen_dimensions : U (Z * option Z) := r ← asm0 24; mret (eax r, Some (edi r)).
Definition shutdown : U (Z * option Z) := _ ← asm0 6; unreachable.
Definition clear_screen : U (Z * option Z) := _ ← asm0 13; mret (0, None).
Definition ls_path (path : Z) : U (Z * option Z) := r ← asm1 12 path; mret (unchecked (Z.b2z (truthy (u8 (eax r))))).
Definition wget_get (uri hostname port : Z) : U (Z * option Z) := _ ← asm3 15 uri hostname port; mret (0, None).
Definition gdb_elf (mode_is_load : bool) (name : Z) : U (Z * option Z) :=
  _ ← int80 (set_esi (u32 name) (set_edx (Z.b2z mode_is_load) (set_eax 3 regs))); mret (0, None).

(** ** What a program can rely on *)

Inductive libc_call :=
| COpen (pathname flags mode : Z) | CRead (fd buf count : Z) | CWrite (fd buf count : Z) | CSeek (fd offset whence : Z) | CClose (fd : Z)
| CAnonAllocate (size : Z) | CAnonFree (pointer : Z) | CVmMap (hint size prot flags fd offset : Z) | CVmProtect (pointer size prot : Z)
| CTcbSet (pointer : Z) | CExit (status : Z) | CExecve (fuel : nat) (path argv envp : Z) | CFork | CGetPid | CWaitpid (pid status : Z)
| CKill (pid sig : Z) | CSigaction (sig act oldact : Z) | CSigprocmask (how set retrieve : Z)
| CIsatty (fd : Z) | CDup (fd : Z) | CDup2 (fd newfd : Z) | CFcntl (fd request args : Z) | CPipe (fds : Z)
| CChdir (path : Z) | CGetCwd (buffer size : Z) | CMkdir (path : Z) | CPread (fd buf n : Z) | CPwrite (fd buf n : Z)
| CGetKeystroke | CFileSize (path : Z) | CLock | CUnlock | CScreen | CShutdown | CClear | CLs (path : Z) | CWget (uri hostname port : Z) | CGdb (load : bool) (name : Z).

(** The call of the library, with the arguments that it supports. *)
Definition libc (c : libc_call) : U (Z * option Z) :=
  match c with
  | COpen p f m => Open p f m | CRead fd b n => Read fd b n | CWrite fd b n => Write fd b n | CSeek fd o w => Seek fd o w | CClose fd => Close fd
  | CAnonAllocate n => AnonAllocate n | CAnonFree p => AnonFree p | CVmMap h n p f fd o => VmMap h n p f fd o | CVmProtect a n p => VmProtect a n p
  | CTcbSet p => TcbSet p | CExit x => Exit x | CExecve fuel p a e => Execve fuel p a e | CFork => Fork | CGetPid => GetPid | CWaitpid p st => Waitpid p st 0 0
  | CKill p x => Kill p x | CSigaction x a o => Sigaction x a o | CSigprocmask h x r => Sigprocmask h x r
  | CIsatty fd => Isatty fd | CDup fd => Dup fd 0 | CDup2 fd n => Dup2 fd 0 n | CFcntl fd q a => Fcntl fd q a | CPipe p => Pipe p 0
  | CChdir p => Chdir p | CGetCwd b n => GetCwd b n | CMkdir p => Mkdir p 511 | CPread fd b n => Pread fd b n 0 | CPwrite fd b n => Pwrite fd b n 0
  | CGetKeystroke => get_keystroke | CFileSize p => get_file_size p | CLock => lock_framebuffer_flush | CUnlock => unlock_framebuffer_flush
  | CScreen => screen_dimensions | CShutdown => shutdown | CClear => clear_screen | CLs p => ls_path p | CWget u h p => wget_get u h p | CGdb l n => gdb_elf l n
  end.

Definition ints (l : list Z) : Prop := Forall is_int l.
Definition addrs (l : list Z) : Prop := Forall is_u32 l.
(** Arguments are of their C types: [int] or pointers and sizes. *)
Definition well_typed (c : libc_call) : Prop :=
  match c with
  | COpen p f m => addrs [p; m] /\ ints [f] | CRead fd b n | CWrite fd b n | CPread fd b n | CPwrite fd b n => ints [fd] /\ addrs [b; n]
  | CSeek fd o w => ints [fd; o; w] | CClose fd | CIsatty fd | CDup fd => ints [fd] | CDup2 fd n => ints [fd; n]
  | CAnonAllocate p | CAnonFree p | CTcbSet p | CPipe p | CChdir p | CMkdir p | CFileSize p | CLs p | CGdb _ p => addrs [p]
  | CVmMap h n p f fd o => addrs [h; n; o] /\ ints [p; f; fd] | CVmProtect a n p => addrs [a; n] /\ ints [p]
  | CExit x => ints [x] | CExecve _ p a e => addrs [p; a; e]
  | CWaitpid p st => ints [p] /\ addrs [st] | CKill p x => ints [p; x]
  | CSigaction x a o => ints [x] /\ addrs [a; o] | CSigprocmask h x r => ints [h] /\ addrs [x; r]
  | CFcntl fd q a => ints [fd; q] /\ addrs [a] | CGetCwd b n => addrs [b; n]
  | CWget u h p => addrs [u; h] /\ is_u16 p
  | CFork | CGetPid | CGetKeystroke | CLock | CUnlock | CScreen | CShutdown | CClear => True
  end.

(** A result of the kernel as [errno] and a value. *)
Definition posix (x : Z) : Z * option Z := if (-4096 <? x) && (x <? 0) then (- x, None) else (0, Some x).

(** An operation of the kernel and the way back to the program. *)
Definition served {A} (f : K -> res (A * K)) : U A := fun k =>
  '(x, k) ← f k; '(o, k) ← resume_user_process k; Ok (match o with Some _ => Some x | None => None end, k).
Definition effect (f : K -> res K) : U unit := served (fun k => k ← f k; Ok (tt, k)).
Definition valued (f : K -> res (Z * K)) : U (Z * option Z) := x ← served f; mret (posix (int x)).
Definition status (f : K -> res (Z * K)) : U (Z * option Z) := x ← served f; mret (no_value (posix (int x))).
Definition done (f : K -> res K) : U (Z * option Z) := _ ← effect f; mret (0, None).
(** The process sleeps and comes back with what has been written to [eax], where its number was before. *)
Definition asleep (number : Z) (f : K -> res K) : U Z := fun k =>
  k ← f k; '(o, k) ← timer_interrupt k;
  match o with None => Ok (None, k) | Some x => served (fun k => Ok (match x with Some x => x | None => number end, k)) k end.

(** The operation of the kernel behind every call, and what its results mean.  Two things are left open, because the code does not do what it should there:
    [word], the status that [waitpid] stores for a child that has ended, as a function of its pid, and [error], what [execve] reports when the
    kernel answers (see [waited_status_is_pid] and [execve_loses_error]). *)
Definition promise (word error : Z -> Z) (c : libc_call) : U (Z * option Z) :=
  match c with
  | COpen p f m => valued (proc_open p f (if truthy (Z.land f O_CREAT) || truthy (Z.land f O_TMPFILE) then m else 0))
  | CRead fd b n | CPread fd b n => valued (fun k => if b =? 0 then Ok (- EFAULT, k) else proc_read fd b n k)
  | CWrite fd b n | CPwrite fd b n => valued (proc_write fd n b)
  | CSeek fd o w => valued (proc_lseek fd o w)
  | CClose fd => status (proc_close fd)
  | CAnonAllocate n => x ← served (proc_calloc 1 n); mret (if truthy (int x) then 0 else ENOMEM, Some (int x))
  | CAnonFree p => done (proc_free p)
  | CVmMap h n p f fd o => valued (fun k => '(w, e, k) ← memory_mmap h n p f fd o k; Ok (if w =? 0 then - e else w, k))
  | CVmProtect a n p => status (memory_mprotect a n p)
  | CTcbSet p => done (set_tls p)
  | CExit x => fun k => k ← terminate_with_value x k; '(o, k) ← timer_interrupt k; match o with None => Ok (None, k) | Some _ => Panic end
  | CExecve fuel p a e => fun k =>
      argc ← count_args fuel a 0 k; '(x, k) ← scheduler_execve p (int argc) a e false k;
      match x with None => Ok (None, k) | Some x => (_ ← effect Ok; mret (error x, None)) k end
  | CFork => x ← served (proc_fork (set_eax 28 regs)); mret (if int x =? -1 then (EAGAIN, None) else (0, Some (int x)))
  | CGetPid => x ← served (fun k => Ok (proc_get_pid k, k)); mret (0, Some (int x))
  | CWaitpid pid st => fun k =>
      '(w, k) ← register_process_wait (proc_get_pid k) pid k;
      if w =? 0 then (x ← asleep 14 Ok; mret (posix (int x))) k
      else valued (fun k => k ← (if 0 <? w then store_int st (word w) k else Ok k); Ok (w, k)) k
  | CKill p x => status (fun k => if get_process p k then proc_kill p x k else Ok (- ESRCH, k))
  | CSigaction x a o => if a =? 0 then mret (EFAULT, None) else kact ← lift (with_restorer a); status (proc_sigaction x (u32 kact) o)
  | CSigprocmask h x r => status (proc_sigprogmask h x r)
  | CIsatty fd => status (proc_isatty fd)
  | CDup fd => valued (proc_dup fd)
  | CDup2 fd n => status (proc_dup2 fd n)
  | CFcntl fd q a => valued (proc_fcntl fd q a)
  | CPipe p => status (proc_pipe p)
  | CChdir p => status (proc_chdir p)
  | CGetCwd b n =>
      e ← served (fun k =>
        if (n =? 0) || (b =? 0) then Ok (int EINVAL, k)
        else if n <=? Z.of_nat (length (get_work_dir k)) then Ok (int ERANGE, k)
        else k ← store b (get_work_dir k ++ [0]) k; Ok (0, k));
      mret (e, None)
  | CMkdir p => b ← served (vfs_mkdir p); mret (if (b : bool) then 0 else EIO, None)
  | CGetKeystroke => x ← asleep 4 set_waiting_key; mret (0, Some (Printf.s8 (u32 x)))
  | CFileSize p => o ← served (browse_to p); mret (0, Some (u32 (match (o : option (Z * Z)) with Some (_, n) => n | None => -1 end)))
  | CLock => done fb_lock_flushing
  | CUnlock => done fb_unlock_flushing
  | CScreen => _ ← effect Ok; mret (u32 SCREEN_WIDTH, Some (u32 SCREEN_HEIGHT))
  | CShutdown => fun k => k ← system_shutdown k; Ok (None, k)
  | CClear => done fb_clear_screen
  | CLs p => b ← served (vfs_ls p); mret (0, Some (Z.b2z b))
  | CWget u h p => done (http_get h p u)
  | CGdb l n => done (if l then gdb_load_elf n else gdb_unload_elf n)
  end.

(** What the code puts there. *)
#[local] Notation kept := (promise (fun w => int (Z.shiftl w 8)) (fun _ => ENOMEM)).

Lemma checked_posix x : checked (int x) = posix (int x).
Proof.
  unfold checked, sc_error, posix. pose proof (Printf.s32_range x) as Hr. set (v := int x) in *.
  assert (Hu : u32 v = if v <? 0 then v + 4294967296 else v).
  { unfold u32. destruct (Z.ltb_spec v 0); [rewrite <-(Z_mod_plus_full v 1), Z.mod_small by lia; lia|by rewrite Z.mod_small by lia]. }
  rewrite Hu. destruct (Z.ltb_spec v 0), (Z.ltb_spec (-4096) v); cbn [andb].
  - rewrite (proj2 (Z.ltb_lt _ _)) by lia. unfold truthy. by rewrite (proj2 (Z.eqb_neq _ _)) by lia.
  - by rewrite (proj2 (Z.ltb_ge _ _)) by lia.
  - by rewrite (proj2 (Z.ltb_ge _ _)) by lia.
  - lia.
Qed.

Lemma int_int x : int (int x) = int x.
Proof. by rewrite <-int_u32, u32_int, int_u32. Qed.

(** Run both sides of a call; their results are then compared case by case. *)
Ltac reduce := cbn -[Printf.s32 u32 u16 u8 Z.land Z.shiftl checked posix Z.of_nat length app truthy count_args Printf.s8 Z.eqb Z.ltb].
Ltac expand_call :=
  unfold Open, Read, Write, Seek, Close, AnonAllocate, AnonFree, VmMap, VmProtect, TcbSet, Exit, Execve, Fork, GetPid, Waitpid, Kill, Sigaction, Sigprocmask,
    Isatty, Dup, Dup2, Fcntl, Pipe, Chdir, GetCwd, Mkdir, Pread, Pwrite, get_keystroke, get_file_size, lock_framebuffer_flush, unlock_framebuffer_flush,
    screen_dimensions, shutdown, clear_screen, ls_path, wget_get, gdb_elf, unchecked, sc_int_result, unreachable, Read, Write,
    valued, status, done, effect, served, asleep, unsupported, lift, asm0, asm1, asm2, asm3, do_syscall3, do_syscall4, do_syscall6, int80, dispatcher, xchg;
  change (truthy 0) with false; change (negb (511 =? 511)) with false;
  unfold mbind, mret, U_bind, U_ret, M_bind, M_ret, res_bind, res_ret, reg; reduce.
Ltac expand_handler :=
  unfold open, read, write, lseek, close, calloc, free, mmap, mprotect, tcbset, terminate_process, execve, fork, get_pid, wait_pid, kill, sigaction, sigprocmask,
    isatty, dup, dup2, fcntl, pipe, chdir, getcwd, mkdir, get_key, file_size, get_screen_dimensions, ls, wget;
  unfold result, ireg, reg, call, act, answer, put, timer, resume, panic, gone, mbind, mret, M_bind, M_ret, res_bind, res_ret; reduce.
Ltac typed :=
  repeat match goal with
  | H : _ /\ _ |- _ => destruct H
  | H : ints _ |- _ => unfold ints in H
  | H : addrs _ |- _ => unfold addrs in H
  | H : Forall _ (_ :: _) |- _ => apply Forall_cons in H
  | H : Forall _ [] |- _ => clear H
  | H : is_u16 ?x |- _ => lazymatch goal with _ : is_u32 x |- _ => fail | _ => assert (is_u32 x) by (unfold is_u16, is_u32 in *; lia) end
  end.
Ltac convert :=
  rewrite ?int_u32, ?int_int, ?u32_int, ?checked_posix;
  repeat match goal with H : is_int ?x |- _ => rewrite (int_id x H) | H : is_u32 ?x |- _ => rewrite (u32_id x H) | H : is_u16 ?x |- _ => rewrite (u16_id x H) end;
  repeat match goal with |- context [u32 (Zpos ?p)] => change (u32 (Zpos p)) with (Zpos p) | |- context [u32 0] => change (u32 0) with 0
    | |- context [truthy 0] => change (truthy 0) with false | |- context [truthy 1] => change (truthy 1) with true end.
Ltac binds := unfold sc_int_result, mbind, mret, M_bind, M_ret, U_bind, U_ret, res_bind, res_ret; reduce.
Ltac known := repeat match goal with E : ?x = _ |- context [?x] => lazymatch type of x with res _ => rewrite E | bool => rewrite E end end.
Ltac compare :=
  known; binds; convert; known; binds; convert; try reflexivity;
  try (match goal with
    | |- context [match ?x with Ok _ => _ | Panic => _ | Fault => _ | NoFuel => _ end] =>
        lazymatch x with context [match _ with _ => _ end] => fail | Ok _ => fail | _ => let E := fresh "E" in destruct x as [[? ?]| | |] eqn:E || destruct x eqn:E end
    | |- context [let '(_, _) := ?p in _] => is_var p; destruct p
    | |- context [match ?o with Some _ => _ | None => _ end] => is_var o; destruct o
    | |- context [if ?b then _ else _] => lazymatch b with context [match _ with _ => _ end] => fail | true => fail | false => fail | negb ?c => let E := fresh "E" in destruct c eqn:E | orb ?c _ => let E := fresh "E" in destruct c eqn:E | _ => let E := fresh "E" in destruct b eqn:E end
    end; compare).
Ltac reach := expand_call; expand_handler; compare.

(** The calls with a choice between their arguments or results. *)
Lemma open_reaches p f m k : is_u32 p -> is_u32 m -> is_int f -> Open p f m k = kept (COpen p f m) k.
Proof. intros. cbn [promise]. unfold Open. destruct (truthy (Z.land f O_CREAT)), (truthy (Z.land f O_TMPFILE)); cbn [orb negb]; reach. Qed.
Lemma wait_reaches pid st k : is_int pid -> is_u32 st -> Waitpid pid st 0 0 k = kept (CWaitpid pid st) k.
Proof. intros. cbn [promise]. reach; congruence. Qed.
Lemma ls_reaches p k : is_u32 p -> ls_path p k = kept (CLs p) k.
Proof. intros. cbn [promise]. reach. by destruct b. Qed.
Lemma gdb_reaches l n k : is_u32 n -> gdb_elf l n k = kept (CGdb l n) k.
Proof. intros. cbn [promise]. destruct l; [change (Z.b2z true) with 1 | change (Z.b2z false) with 0]; reach. Qed.

(** The buffer for the working directory is not exactly as long as its path, without the terminator. *)
Definition cwd_fits (c : libc_call) (k : K) : Prop := match c with CGetCwd _ n => n <> Z.of_nat (length (get_work_dir k)) | _ => True end.

(** What [getcwd] does in every case. *)
Lemma getcwd_does b n k : is_u32 b -> is_u32 n -> GetCwd b n k = (e ← served (fun k =>
    if (n =? 0) || (b =? 0) then Ok (int EINVAL, k)
    else if n <? Z.of_nat (length (get_work_dir k)) then Ok (int ERANGE, k)
    else k ← store b (get_work_dir k ++ [0]) k; Ok (0, k)); mret (e, None)) k.
Proof. intros. typed. by reach. Qed.
Lemma getcwd_reaches b n k : is_u32 b -> is_u32 n -> n <> Z.of_nat (length (get_work_dir k)) -> GetCwd b n k = kept (CGetCwd b n) k.
Proof.
  intros Hb Hn Hk. rewrite getcwd_does by done. cbn [promise]. unfold served, mbind, U_bind, mbind, res_bind.
  replace (n <=? Z.of_nat (length (get_work_dir k))) with (n <? Z.of_nat (length (get_work_dir k))); [done|].
  destruct (Z.ltb_spec n (Z.of_nat (length (get_work_dir k)))), (Z.leb_spec n (Z.of_nat (length (get_work_dir k)))); done || lia.
Qed.

Lemma reaches c k : well_typed c -> cwd_fits c k -> libc c k = kept c k.
Proof.
  intros Hw Hcwd. destruct c; cbn [libc well_typed cwd_fits] in *; typed;
    lazymatch goal with
    | |- GetCwd _ _ _ = _ => by apply getcwd_reaches
    | |- Open _ _ _ _ = _ => by apply open_reaches
    | |- Waitpid _ _ _ _ _ = _ => by apply wait_reaches
    | |- ls_path _ _ = _ => by apply ls_reaches
    | |- gdb_elf _ _ _ = _ => by apply gdb_reaches
    | _ => cbn [promise]; by reach
    end.
Qed.

(** Claim C38: every call of the C library, of the small library of the kernel's own programs and of the programs that make their own calls
    reaches the operation of the kernel that it is for, with the arguments that it was given, for any kernel and whatever the other
    registers hold; what comes back is the error that the operation answers, or its value.  Numbers, registers, the order of arguments,
    their conversions and the encoding of errors thus agree between the inline assembly and the dispatcher.  This is for the arguments that the
    library supports: [dup], [dup2], [pipe] and [waitpid] without flags, [mkdir] with the mode 0777, [pread] and [pwrite] at the offset 0 (see
    [unsupported_arguments]).  [getcwd] is not given a buffer that has room
    for the path but not for its terminator ([getcwd_overflows]).  Not covered are the error that [execve] reports and the status that [waitpid] stores for a child that has already
    ended, which do not depend on what the kernel knows ([execve_loses_error], [waited_status_is_pid]). *)
Theorem libc_reaches_kernel : exists word error, forall c k, well_typed c -> cwd_fits c k -> libc c k = promise word error c k.
Proof. exists (fun w => int (Z.shiftl w 8)), (fun _ => ENOMEM). apply reaches. Qed.

(** With other arguments the library calls its panic logger first, and stops there if that does not come back. *)
Theorem unsupported_arguments k k' fd b n p m x st : panicLogger k = Ok (None, k') -> truthy x = true -> m <> 511 ->
  Dup fd x k = Ok (None, k') /\ Dup2 fd x n k = Ok (None, k') /\ Pipe p x k = Ok (None, k') /\ Waitpid fd st x 0 k = Ok (None, k') /\ Waitpid fd st n x k = Ok (None, k') /\
  Mkdir p m k = Ok (None, k') /\ Pread fd b n x k = Ok (None, k') /\ Pwrite fd b n x k = Ok (None, k').
Proof.
  intros Hp Hx Hm. unfold Dup, Dup2, Pipe, Waitpid, Mkdir, Pread, Pwrite, unsupported, mbind, mret, U_bind, U_ret, mbind, res_bind.
  rewrite Hx, (proj2 (Z.eqb_neq m 511) Hm). change (truthy 0) with false. cbn [negb]. by rewrite Hp.
Qed.

(** Whatever the kernel answers to [execve], the program gets [ENOMEM]. *)
Theorem execve_loses_error fuel p a e k argc x k' : is_u32 p -> is_u32 a -> is_u32 e -> count_args fuel a 0 k = Ok argc -> scheduler_execve p (int argc) a e false k = Ok (Some x, k') ->
  libc (CExecve fuel p a e) k = (_ ← effect Ok; mret (ENOMEM, None)) k'.
Proof.
  intros Hp Ha He Hn Hx. rewrite reaches by (done || (cbn [well_typed]; unfold addrs; rewrite ?Forall_cons, ?Forall_nil; tauto)). cbn [promise]. rewrite Hn. run. by rewrite Hx.
Qed.

Lemma bind_some {A B} (m : U A) (f : A -> U B) k b k' : (m ≫= f) k = Ok (Some b, k') -> exists a k1, m k = Ok (Some a, k1) /\ f a k1 = Ok (Some b, k').
Proof. unfold mbind, U_bind, mbind, res_bind. destruct (m k) as [[[a|] k1]| | |]; [|done..]. intros E. by exists a, k1. Qed.
Lemma int80_keeps r k r' k' : changes_more (eax r) = false -> int80 r k = Ok (Some r', k') -> exists x, r' = set_eax x r.
Proof.
  unfold int80, mbind, res_bind. intros Hid. destruct (dispatcher (r, k)) as [[o [r1 k1]]| | |] eqn:E; [|done..].
  apply dispatcher_keeps in E as [x ->]; [|done]. destruct o; [|done]. intros [= <- _]. by exists x.
Qed.

(** The registers of a program come back.  Around [int $0x80] the C library exchanges or overwrites [ebx] and [ebp], which the compiler
    relies on: after a call with three, four or six arguments both have the values they had, and the other registers hold the
    arguments that the assembly declares, except for the result in [eax]. *)
Theorem registers_come_back sc a1 a2 a3 a4 a5 a6 k : changes_more sc = false ->
  (forall r k', do_syscall3 sc a1 a2 a3 k = Ok (Some r, k') ->
     exists x, r = mkCpu x (ebx regs) (u32 a2) (u32 a3) (esi regs) (u32 a1) (ebp regs)) /\
  (forall r k', do_syscall4 sc a1 a2 a3 a4 k = Ok (Some r, k') ->
     exists x, r = mkCpu x (ebx regs) (u32 a2) (u32 a3) (u32 a4) (u32 a1) (ebp regs)) /\
  (forall r k', do_syscall6 sc a1 a2 a3 a4 a5 a6 k = Ok (Some r, k') ->
     exists x, r = mkCpu x (ebx regs) (u32 a2) (u32 a3) (u32 a4) (u32 a5) (ebp regs)).
Proof.
  intros Hsc.
  split_and!; intros r k' E; apply bind_some in E as (r1 & k1 & E1 & [= <- _]); apply int80_keeps in E1 as [x ->]; try done; by exists x.
Qed.

Ltac ok_args := cbn [well_typed]; unfold ints, addrs; rewrite ?Forall_cons, ?Forall_nil; tauto.

(** Counting the arguments of [execve] ends when the fuel covers them. *)
Lemma count_args_ok l k : forall argv argc, 0 <= argv -> argv + 4 * Z.of_nat (length l) < 4294967296 ->
  (forall i w, l !! i = Some w -> load_int (argv + 4 * Z.of_nat i) k = Ok w /\ w <> 0) -> load_int (argv + 4 * Z.of_nat (length l)) k = Ok 0 ->
  count_args (S (length l)) argv argc k = Ok (argc + Z.of_nat (length l)).
Proof.
  induction l as [|w l IH]; intros argv argc H0' Hb Hl Hend; cbn [length] in *.
  - cbn. rewrite Z.mul_0_r, Z.add_0_r in Hend. rewrite Hend. cbn. f_equal. lia.
  - destruct (Hl 0%nat w eq_refl) as [E Hw]. rewrite Z.mul_0_r, Z.add_0_r in E.
    change (count_args (S (S (length l))) argv argc k) with (w ← load_int argv k; if w =? 0 then Ok argc else count_args (S (length l)) (u32 (argv + 4)) (argc + 1) k).
    rewrite E. run. rewrite (proj2 (Z.eqb_neq _ _)) by done. rewrite u32_id by (unfold is_u32; lia). rewrite IH; [f_equal; lia|lia|lia| |].
    + intros i x Hi. destruct (Hl (S i) x Hi) as [Ex Hx]. split; [|done]. rewrite <-Ex. f_equal. lia.
    + rewrite <-Hend. f_equal. lia.
Qed.

(** The status that [waitpid] reports for a child that has already ended is its pid, not its exit value: whenever the kernel finds such a child,
    eight times shifted to the left its pid is written where the parent reads the exit value, also through a null pointer. *)
Theorem waited_status_is_pid pid st k w k1 : is_int pid -> is_u32 st -> register_process_wait (proc_get_pid k) pid k = Ok (w, k1) -> 0 < w < 8388608 ->
  libc (CWaitpid pid st) k = (_ ← effect (store_int st (w * 256)); mret (0, Some w)) k1.
Proof.
  intros Hp Hs E Hw. rewrite reaches by (done || ok_args). cbn [promise]. rewrite E. run. rewrite (proj2 (Z.eqb_neq _ _)), (proj2 (Z.ltb_lt _ _)) by lia.
  rewrite Z.shiftl_mul_pow2, int_id by (unfold is_int; lia). unfold valued, effect, served, mbind, mret, U_bind, U_ret, mbind, res_bind. change (2 ^ 8) with 256.
  destruct (store_int st (w * 256) k1) as [k2| | |]; [|done..]. destruct (resume_user_process k2) as [[[[]|] k3]| | |]; [|done..].
  rewrite int_id by (unfold is_int; lia). unfold posix. by rewrite (proj2 (Z.ltb_ge w 0)), andb_false_r by lia.
Qed.

(** [getcwd] writes behind the buffer when the working directory fills it: the length is compared without the terminator, so that for a path of exactly
    the given size one byte more than the size is stored, and the call succeeds. *)
Theorem getcwd_overflows buf size k : is_u32 buf -> is_u32 size -> buf <> 0 -> size <> 0 -> Z.of_nat (length (get_work_dir k)) = size ->
  libc (CGetCwd buf size) k = (_ ← effect (store buf (get_work_dir k ++ [0])); mret (0, None)) k /\ Z.of_nat (length (get_work_dir k ++ [0])) = size + 1.
Proof.
  intros Hb Hs Hb0 Hs0 Hl. split; [|rewrite length_app; cbn; lia]. cbn [libc]. rewrite getcwd_does by done. unfold effect, served, mbind, mret, U_bind, U_ret, mbind, res_bind.
  rewrite Hl, !(proj2 (Z.eqb_neq _ _)), (proj2 (Z.ltb_ge _ _)) by first [done | lia]. cbn [orb].
  destruct (store _ _ k) as [k2| | |]; [|done..]. by destruct (resume_user_process k2) as [[[[]|] k3]| | |].
Qed.

End libc.

(** ** The descriptor tables behind the calls *)

Section tables.
Context (number : FileTable.errno -> Z) (F_GETFL F_SETFL F_SETFD FD_CLOEXEC O_APPEND O_NONBLOCK : Z).
(** [VFS::open_file] on a path, flags and a mode, and the contents of the cells that a pipe gets. *)
Context (opener : Z -> Z -> Z -> FileTable.vfs -> res (FileTable.vfs * (option Z * option FileTable.errno))) (cells : list Z).

(** The tables and the words of the memory of the process. *)
Definition tables : Type := FileTable.vfs * FileTable.proc * (Z -> Z).

(** An error is returned as its negated number. *)
Definition ret_int (r : FileTable.ret) : Z := match r with FileTable.Val x => x | FileTable.Err e => - number e end.

(** The operation on the tables behind a call about descriptors. *)
Definition table_op (c : libc_call) (s : tables) : option (res (FileTable.ret * tables)) :=
  let '(v, p, m) := s in
  let plain x := Some ('(v, p, r) ← x; Ok (r, (v, p, m))) in
  match c with
  | COpen path flags mode => plain (FileTable.open (opener path flags mode) v p)
  | CClose fd => plain (FileTable.close v p fd)
  | CSeek fd offset whence => Some ('(v, r) ← FileTable.lseek v p fd offset whence; Ok (r, (v, p, m)))
  | CFcntl fd op args => plain (FileTable.fcntl F_GETFL F_SETFL F_SETFD FD_CLOEXEC O_APPEND O_NONBLOCK v p fd op (m args))
  | CDup fd => plain (FileTable.dup v p fd)
  | CDup2 oldfd newfd => plain (FileTable.dup2 v p oldfd newfd)
  | CPipe fds => Some ('(v, p, r, (a, b)) ← FileTable.pipe v p cells;
      Ok (r, (v, p, match r with FileTable.Val 0 => fun x => if x =? fds then a else if x =? fds + 4 then b else m x | _ => m end)))
  | CIsatty fd => Some (r ← FileTable.isatty v p fd; Ok (r, (v, p, m)))
  | _ => None
  end.
Definition as_int (o : option (res (FileTable.ret * tables))) : res (Z * tables) := match o with Some x => '(r, s) ← x; Ok (ret_int r, s) | None => Fault end.

#[local] Instance table_calls : FdCalls tables := {
  proc_open path flags mode s := as_int (table_op (COpen path flags mode) s);
  proc_close fd s := as_int (table_op (CClose fd) s);
  proc_lseek fd offset whence s := as_int (table_op (CSeek fd offset whence) s);
  proc_fcntl fd op args s := as_int (table_op (CFcntl fd op args) s);
  proc_dup fd s := as_int (table_op (CDup fd) s);
  proc_dup2 oldfd newfd s := as_int (table_op (CDup2 oldfd newfd) s);
  proc_pipe fds s := as_int (table_op (CPipe fds) s);
  proc_isatty fd s := as_int (table_op (CIsatty fd) s)
}.

(** What a program sees of an answer of the tables. *)
Definition outcome (c : libc_call) (r : FileTable.ret) : Z * option Z :=
  match r with
  | FileTable.Val x => (0, match c with COpen _ _ _ | CSeek _ _ _ | CFcntl _ _ _ | CDup _ => Some x | _ => None end)
  | FileTable.Err e => (number e, None)
  end.

Hypothesis number_range : forall e, 0 < number e < 4096.

Lemma posix_ret r : (forall x, r = FileTable.Val x -> 0 <= x < 2147483648) ->
  posix (int (ret_int r)) = match r with FileTable.Val x => (0, Some x) | FileTable.Err e => (number e, None) end.
Proof.
  intros Hr. destruct r as [x|e]; cbn [ret_int].
  - specialize (Hr x eq_refl). rewrite int_id by (unfold is_int; lia). unfold posix. by rewrite (proj2 (Z.ltb_ge x 0)), andb_false_r by lia.
  - pose proof (number_range e). rewrite int_id by (unfold is_int; lia). unfold posix.
    rewrite !(proj2 (Z.ltb_lt _ _)) by lia. cbn. f_equal. lia.
Qed.
Lemma valued_table `{Kernel tables} o s r s' : o = Some (Ok (r, s')) -> (forall x, r = FileTable.Val x -> 0 <= x < 2147483648) ->
  valued (fun _ => as_int o) s = served (fun _ => Ok (match r with FileTable.Val x => (0, Some x) | FileTable.Err e => (number e, None) end, s')) s.
Proof.
  intros -> Hr. unfold valued, served, mbind, mret, U_bind, U_ret, mbind, res_bind. cbn [as_int mbind res_bind].
  destruct (resume_user_process s') as [[[[]|] k3]| | |]; [|done..]. by rewrite posix_ret.
Qed.
Lemma status_table `{Kernel tables} o s r s' : o = Some (Ok (r, s')) -> (forall x, r = FileTable.Val x -> 0 <= x < 2147483648) ->
  status (fun _ => as_int o) s = served (fun _ => Ok (match r with FileTable.Val x => (0, None) | FileTable.Err e => (number e, None) end, s')) s.
Proof.
  intros -> Hr. unfold status, served, mbind, mret, U_bind, U_ret, mbind, res_bind. cbn [as_int mbind res_bind].
  destruct (resume_user_process s') as [[[[]|] k3]| | |]; [|done..]. rewrite posix_ret by done. by destruct r.
Qed.

(** Claim C36: a call about a descriptor in a program does to the descriptor tables of the kernel what the operation of [FileTable] does, and gives the program the
    value, or the error with its number: [open], [close], [lseek], [fcntl], [dup], [dup2], [pipe] and [isatty] from the C library through the dispatcher to
    the tables and back. *)
Theorem descriptor_calls_reach_tables `{Kernel tables} `{Errno} O_CREAT O_TMPFILE panicLogger with_restorer regs c s s' r :
  well_typed c -> (forall path flags mode, c = COpen path flags mode -> mode = 0 \/ truthy (Z.land flags O_CREAT) = true) ->
  table_op c s = Some (Ok (r, s')) -> (forall x, r = FileTable.Val x -> 0 <= x < 2147483648) ->
  libc O_CREAT O_TMPFILE panicLogger with_restorer regs c s = served (fun _ => Ok (outcome c r, s')) s.
Proof.
  intros Hw Hcreat Ht Hr. rewrite reaches by (done || (destruct c; try done; by destruct s as [[??]?])). destruct c; try (by destruct s as [[??]?]); cbn [promise].
  1: assert (Em : forall b, (if truthy (Z.land flags O_CREAT) || b then mode else 0) = mode) by (intros []; destruct (Hcreat _ _ _ eq_refl) as [-> | ->]; by try destruct (truthy _)).
  1: rewrite Em.
  1, 2, 5, 7: exact (valued_table _ s r s' Ht Hr).
  all: exact (status_table _ s r s' Ht Hr).
Qed.

End tables.

(** ** A process with the terminal open *)

(** Its other operations do nothing; a child with the pid 3 has ended, and the working directory is [/ab]. *)
Definition nop {A} (a : A) (k : tables) : res (A * tables) := Ok (a, k).
#[local] Instance quiet_kernel : Kernel tables := {|
  proc_malloc := fun _ => nop 0; proc_calloc := fun _ _ => nop 0; proc_free := fun _ => Ok; proc_realloc := fun _ _ => nop 0; memory_mmap := fun _ _ _ _ _ _ => nop (0, 12);
  memory_mprotect := fun _ _ _ => nop 0; store := fun _ _ => Ok; store_int := fun a x '(v, p, m) => Ok (v, p, fun i => if i =? a then x else m i); load_int := fun a '(_, _, m) => Ok (m a);
  proc_read := fun _ _ _ => nop 0; proc_write := fun _ n _ => nop n; proc_stat := fun _ _ => nop 0; proc_fstat := fun _ _ => nop 0; proc_chdir := fun _ => nop 0; get_work_dir := fun _ => [47; 97; 98];
  vfs_mkdir := fun _ => nop true; vfs_touch := fun _ => nop true; vfs_ls := fun _ => nop true; browse_to := fun _ => nop None; vfs_load_file := fun _ _ _ => nop None;
  proc_get_pid := fun _ => 1; terminate_with_value := fun _ => Ok; proc_fork := fun _ => nop 2; scheduler_execve := fun _ _ _ _ _ => nop (Some (-1)); register_process_wait := fun _ _ => nop 3;
  set_waiting_key := Ok; set_process_asleep := fun _ => Ok; get_process := fun _ _ => true; proc_kill := fun _ _ => nop 0; register_signal_handler := fun _ _ => nop 0;
  signal_context_restore := nop (mkCpu 0 0 0 0 0 0 0); proc_sigaction := fun _ _ _ => nop 0; proc_sigprogmask := fun _ _ _ => nop 0; set_tls := fun _ => Ok;
  fb_write := fun _ => Ok; fb_clear_screen := Ok; fb_lock_flushing := Ok; fb_unlock_flushing := Ok; fb_draw_rgb := fun _ _ _ => Ok; fb_flush := Ok; print_info := fun _ => Ok;
  print_unknown := fun _ => Ok; http_get := fun _ _ _ => Ok; gdb_load_elf := fun _ => Ok; gdb_unload_elf := fun _ => Ok; system_shutdown := Ok; SCREEN_WIDTH := 1024; SCREEN_HEIGHT := 768;
  timer_interrupt := nop (Some None); resume_user_process := nop (Some tt)
|}.
#[local] Instance errnos : Errno := { EFAULT := 14; ESRCH := 3; EINVAL := 22; ERANGE := 34; ENOMEM := 12; EAGAIN := 11; EIO := 5 }.
Definition errno_number (e : FileTable.errno) : Z :=
  match e with FileTable.EBADF => 9 | FileTable.EMFILE => 24 | FileTable.ENFILE => 23 | FileTable.EINVAL => 22 | FileTable.ENOTTY => 25 | FileTable.ESPIPE => 29
  | FileTable.EPIPE => 32 | FileTable.EIO => 5 | FileTable.EACCES => 13 | FileTable.ENOENT => 2 | FileTable.EISDIR => 21 end.
Definition no_file (path flags mode : Z) (v : FileTable.vfs) : res (FileTable.vfs * (option Z * option FileTable.errno)) := Ok (v, (None, Some FileTable.ENOENT)).
#[local] Instance terminal_calls : FdCalls tables := table_calls errno_number 3 4 2 1 1024 2048 no_file [].
Definition terminal : tables := (FileTable.tty_vfs, FileTable.tty_proc, fun _ => 0).
Definition some_regs : cpu_state := mkCpu 1 2 3 4 5 6 7.
Abbreviation program := (libc (K := tables) 64 4259840 (nop (Some tt)) (fun a => nop a) some_regs).

Lemma libc_reaches_kernel_witness : exists word error,
  program (CDup2 0 5) terminal = promise 64 4259840 (fun a => nop a) some_regs word error (CDup2 0 5) terminal.
Proof.
  destruct (libc_reaches_kernel (K := tables) 64 4259840 (nop (Some tt)) (fun a => nop a) some_regs) as (word & error & H). exists word, error.
  apply H; [|done]. cbn. repeat constructor; unfold is_int; lia.
Defined.
Lemma registers_come_back_witness : exists r k', do_syscall3 some_regs 49 4096 8192 3 terminal = Ok (Some r, k') /\ exists x, r = mkCpu x 2 8192 3 5 4096 7.
Proof.
  eexists _, _. split; [reflexivity|]. eapply (proj1 (registers_come_back (K := tables) some_regs 49 4096 8192 3 0 0 0 terminal eq_refl)). reflexivity.
Defined.
Lemma waited_status_is_pid_witness : program (CWaitpid (-1) 4096) terminal = (_ ← effect (store_int 4096 768); mret (0, Some 3)) terminal.
Proof. apply (waited_status_is_pid 64 4259840 _ _ some_regs (-1) 4096 terminal 3 terminal); [unfold is_int; lia|unfold is_u32; lia|reflexivity|lia]. Defined.
Lemma getcwd_overflows_witness :
  program (CGetCwd 4096 3) terminal = (_ ← effect (store 4096 [47; 97; 98; 0]); mret (0, None)) terminal /\ Z.of_nat (length [47; 97; 98; 0]) = 3 + 1.
Proof. change [47; 97; 98; 0] with (get_work_dir terminal ++ [0]). apply (getcwd_overflows 64 4259840 _ _ some_regs 4096 3 terminal); [unfold is_u32; lia|unfold is_u32; lia|lia|lia|reflexivity]. Defined.
Lemma descriptor_calls_reach_tables_witness :
  exists s', table_op 3 4 2 1 1024 2048 no_file [] (CDup 0) terminal = Some (Ok (FileTable.Val 1, s')) /\
    program (CDup 0) terminal = served (fun _ => Ok (outcome errno_number (CDup 0) (FileTable.Val 1), s')) terminal.
Proof.
  eexists. split; [reflexivity|]. eapply (descriptor_calls_reach_tables errno_number 3 4 2 1 1024 2048 no_file []).
  - intros []; cbn; lia.
  - cbn. repeat constructor; unfold is_int; lia.
  - intros ? ? ? [=].
  - reflexivity.
  - intros x [= <-]. lia.
Defined.

End Syscalls.
