(* ===== verification/ShExec.v ===== *)
(** * The execution of commands by the shell ([programs/42sh/execution], [builtins], [list_var])

    [exec_switch] and the handlers of lists, conditions, negations and loops, with the counters by which [break], [continue] and [exit] work.
    Simple commands, redirections, pipelines, subshells and definitions are an argument, and so is the expansion of words.  The
    specification is a big-step semantics in which a command ends normally, by [break n], [continue n] or [exit]. *)

From Stdlib Require Import String.
From stdpp Require Import base tactics numbers list sets.
From S2P Require Import Prelude ShParser.
Open Scope Z_scope.

Module ShExec.
Import ShParser.

(** ** Variables *)

Definition list_var : Type := list (str * str).
Fixpoint list_find (l : list_var) (name : str) : option str :=
  match l with [] => None | (n, v) :: l => if bool_decide (n = name) then Some v else list_find l name end.
Definition list_get_value (l : list_var) (name : str) : option str := list_find l name.
(** [l->value = value] on the first node with the name. *)
Fixpoint set_value (l : list_var) (name value : str) : list_var :=
  match l with [] => [] | (n, v) :: l => if bool_decide (n = name) then (n, value) :: l else (n, v) :: set_value l name value end.
Definition list_add (l : list_var) (name value : str) : list_var :=
  match list_find l name with None => (name, value) :: l | Some _ => set_value l name value end.
Fixpoint list_remove (l : list_var) (name : str) : list_var :=
  match l with [] => [] | (n, v) :: l => if bool_decide (n = name) then l else (n, v) :: list_remove l name end.

(** ** The context *)

Inductive break_kind := NO_BREAK | BREAK | CONTINUE.

Section exec.
(** The rest of the world: descriptors, programs, functions, the environment. *)
Context {W : Type}.

Record context := mkContext {
  last_rv : Z; vars : list_var; shall_exit : bool; break_type : break_kind; loop_level : Z; break_count : Z; world : W }.
Definition set_rv (x : Z) (c : context) := mkContext x (vars c) (shall_exit c) (break_type c) (loop_level c) (break_count c) (world c).
Definition set_vars (x : list_var) (c : context) := mkContext (last_rv c) x (shall_exit c) (break_type c) (loop_level c) (break_count c) (world c).
Definition set_exit (x : bool) (c : context) := mkContext (last_rv c) (vars c) x (break_type c) (loop_level c) (break_count c) (world c).
Definition set_type (x : break_kind) (c : context) := mkContext (last_rv c) (vars c) (shall_exit c) x (loop_level c) (break_count c) (world c).
Definition set_level (x : Z) (c : context) := mkContext (last_rv c) (vars c) (shall_exit c) (break_type c) x (break_count c) (world c).
Definition set_count (x : Z) (c : context) := mkContext (last_rv c) (vars c) (shall_exit c) (break_type c) (loop_level c) x (world c).

(** The expansion of words; a function of the shell with the name of the command, if there is one, with its result; what remains of
    the builtins ([echo], [unset], [cd], [pwd]) and programs, with their status; and the nodes that are not modelled here. *)
Context (expand : list str -> context -> res (list str * context)).
Context (run_fun : list str -> context -> option (res (Z * context))).
Context (run_other : list str -> context -> res (Z * context)).
Context (simple : ast -> context -> res context).

(** ** Builtins *)

Definition is_digits (s : str) : bool := forallb (fun c => (48 <=? c) && (c <=? 57)) s.
Definition loop_count (args : list str) : res Z :=
  match args !! 1%nat with None => Ok 1 | Some s => if is_digits s then Ok (atoi s) else Panic end.
Definition bi_break (args : list str) (c : context) : res (Z * context) := n ← loop_count args; Ok (0, set_type BREAK (set_count n c)).
Definition bi_continue (args : list str) (c : context) : res (Z * context) := n ← loop_count args; Ok (0, set_type CONTINUE (set_count n c)).
(** [exit_itoa]: the digits at the start. *)
Fixpoint exit_itoa (acc : Z) (s : str) : Z :=
  match s with [] => acc | c :: s => if (48 <=? c) && (c <=? 57) then exit_itoa (acc * 10 + c - 48) s else acc end.
Definition bi_exit (args : list str) (c : context) : res (Z * context) :=
  Ok (match args !! 1%nat with Some s => exit_itoa 0 s | None => last_rv c end, set_exit true c).
Definition bi_true (c : context) : res (Z * context) := Ok (0, c).
Definition bi_false (c : context) : res (Z * context) := Ok (1, c).

Definition exec_builtin (name : str) (args : list str) (c : context) : res (Z * context) :=
  if bool_decide (name = ch "exit") then bi_exit args c
  else if bool_decide (name = ch "true") then bi_true c
  else if bool_decide (name = ch "false") then bi_false c
  else if bool_decide (name = ch "break") then bi_break args c
  else if bool_decide (name = ch "continue") then bi_continue args c
  else run_other args c.

(** [exec_argv]: a function, then a builtin, then a program; a result of -1 is taken for none. *)
Definition exec_argv (argv : list str) (c : context) : res context :=
  '(args, c) ← expand argv c;
  name ← deref (head args);
  '(exit_code, c) ← (match run_fun args c with Some r => r | None => Ok (-1, c) end);
  '(exit_code, c) ← (if exit_code =? -1 then exec_builtin name args c else Ok (exit_code, c));
  Ok (set_rv exit_code c).

(** ** Control flow *)

(** The end of a round of a loop: whether the loop is left. *)
Definition after_round (c : context) : context * bool :=
  let c := set_level (loop_level c - 1) c in
  if truthy (break_count c) then
    let c := set_count (break_count c - 1) c in
    let c := if negb (truthy (loop_level c)) && truthy (break_count c) then set_count 0 c else c in
    if truthy (break_count c) then (c, true)
    else (set_type NO_BREAK c, match break_type c with BREAK => true | _ => false end)
  else (c, false).
Definition enter (c : context) : context := set_level (loop_level c + 1) c.

Definition halted (c : context) : bool := shall_exit c || truthy (break_count c).

(** The handlers of conditions and negations, given the functions they call. *)
Definition exec_if (lists switch : option ast -> context -> res context) (p1 p2 p3 : option ast) (c : context) : res context :=
  c ← lists p1 c;
  if last_rv c =? 0 then switch p2 c else match p3 with Some _ => switch p3 c | None => Ok (set_rv 0 c) end.
Definition exec_not (switch : option ast -> context -> res context) (p1 : option ast) (c : context) : res context :=
  c ← switch p1 c; Ok (set_rv (if last_rv c =? 1 then 0 else 1) c).
Definition exec_and (switch : option ast -> context -> res context) (p1 p2 : option ast) (c : context) : res context :=
  c ← switch p1 c; if last_rv c =? 0 then switch p2 c else Ok c.
Definition exec_or (switch : option ast -> context -> res context) (p1 p2 : option ast) (c : context) : res context :=
  c ← switch p1 c; if negb (last_rv c =? 0) then switch p2 c else Ok c.

Fixpoint exec_list (fuel : nat) (switch : option ast -> context -> res context) (a : option ast) (c : context) : res context :=
  match fuel with
  | O => NoFuel
  | S fuel =>
      match a with
      | None => Ok c
      | Some (AST_LIST p1 p2) => c ← switch p1 c; exec_list fuel switch p2 c
      | Some _ => Panic
      end
  end.

(** The loops. *)
Fixpoint while_loop (fuel : nat) (switch : option ast -> context -> res context) (p1 p2 : option ast) (rv : Z) (c : context) : res context :=
  match fuel with
  | O => NoFuel
  | S fuel =>
      if last_rv c =? 0 then
        c ← switch p2 (enter c);
        let rv := last_rv c in
        let '(c, stop) := after_round c in
        if (stop : bool) then Ok (set_rv rv c) else c ← switch p1 c; while_loop fuel switch p1 p2 rv c
      else Ok (set_rv rv c)
  end.
Definition exec_while (fuel : nat) (switch : option ast -> context -> res context) (p1 p2 : option ast) (c : context) : res context :=
  c ← switch p1 c; while_loop fuel switch p1 p2 0 c.
Fixpoint until_loop (fuel : nat) (switch : option ast -> context -> res context) (p1 p2 : option ast) (rv : Z) (c : context) : res context :=
  match fuel with
  | O => NoFuel
  | S fuel =>
      if negb (last_rv c =? 0) then
        c ← switch p2 (enter c);
        let '(c, stop) := after_round c in
        if (stop : bool) then Ok (set_rv rv c) else let rv := last_rv c in c ← switch p1 c; until_loop fuel switch p1 p2 rv c
      else Ok (set_rv rv c)
  end.
Definition exec_until (fuel : nat) (switch : option ast -> context -> res context) (p1 p2 : option ast) (c : context) : res context :=
  c ← switch p1 c; until_loop fuel switch p1 p2 0 c.
Fixpoint for_loop (switch : option ast -> context -> res context) (p1 : option ast) (name : str) (values : list str) (c : context) : res context :=
  match values with
  | [] => Ok c
  | v :: values =>
      let c := enter c in
      let c := set_vars (list_add (vars c) name v) c in
      c ← switch p1 c;
      let '(c, stop) := after_round c in
      if (stop : bool) then Ok c else for_loop switch p1 name values c
  end.
Definition exec_for (switch : option ast -> context -> res context) (p1 : option ast) (name : str) (words : list str) (c : context) : res context :=
  '(values, c) ← expand words c;
  c ← for_loop switch p1 name values c;
  Ok (match values with [] => set_rv 0 c | _ => c end).

Fixpoint exec_switch (fuel : nat) (a : option ast) (c : context) : res context :=
  match fuel with
  | O => NoFuel
  | S fuel =>
      match a with
      | None => Ok c
      | Some a =>
          if halted c then Ok c
          else
            match a with
            | AST_LIST _ _ => exec_list fuel (exec_switch fuel) (Some a) c
            | AST_IF p1 p2 p3 => exec_if (exec_list fuel (exec_switch fuel)) (exec_switch fuel) p1 p2 p3 c
            | AST_NOT p1 => exec_not (exec_switch fuel) p1 c
            | AST_AND p1 p2 => exec_and (exec_switch fuel) p1 p2 c
            | AST_OR p1 p2 => exec_or (exec_switch fuel) p1 p2 c
            | AST_WHILE p1 p2 => exec_while fuel (exec_switch fuel) p1 p2 c
            | AST_UNTIL p1 p2 => exec_until fuel (exec_switch fuel) p1 p2 c
            | AST_FOR p1 name words => exec_for (exec_switch fuel) p1 name words c
            | AST_ARGV argv => exec_argv argv c
            | a => simple a c
            end
      end
  end.

(** ** Specification *)

(** What commands work on, and how they end: [OBrk n] is [break] with [n + 1] loops to leave. *)
Record store := mkStore { rv : Z; vs : list_var; w : W }.
Definition with_rv (x : Z) (s : store) : store := mkStore x (vs s) (w s).
Definition assign (name v : str) (s : store) : store := mkStore (rv s) (list_add (vs s) name v) (w s).
Inductive out := ONorm | OBrk (n : nat) | OCont (n : nat) | OExit.

(** The end of a round in a loop with [l] loops around it: [None] is the next round. *)
Definition after (l : nat) (o : out) : option out :=
  match o with
  | ONorm | OExit | OCont 0 => None
  | OBrk 0 => Some ONorm
  | OBrk (S n) => Some (match l with O => ONorm | S _ => OBrk n end)
  | OCont (S n) => match l with O => None | S _ => Some (OCont n) end
  end.

(** The context of a command that has ended so, within [l] loops. *)
Definition at_ (l : nat) (o : out) (s : store) : context :=
  mkContext (rv s) (vs s) (match o with OExit => true | _ => false end) (match o with OBrk _ => BREAK | OCont _ => CONTINUE | _ => NO_BREAK end)
    (Z.of_nat l) (match o with OBrk n | OCont n => Z.of_nat n + 1 | _ => 0 end) (w s).

(** What is to be done: a node, a list, the rest of a loop. *)
Inductive task := TCmd (a : option ast) | TList (a : option ast) | TWhile (p1 p2 : option ast) (r : Z) | TUntil (p1 p2 : option ast) (r : Z)
  | TFor (p1 : option ast) (name : str) (values : list str).
Definition run (n m : nat) (t : task) (c : context) : res context :=
  match t with
  | TCmd a => exec_switch m a c | TList a => exec_list n (exec_switch m) a c
  | TWhile p1 p2 r => while_loop n (exec_switch m) p1 p2 r c | TUntil p1 p2 r => until_loop n (exec_switch m) p1 p2 r c
  | TFor p1 name values => for_loop (exec_switch m) p1 name values c
  end.

(** Nodes without control flow of their own, and chains of commands. *)
Definition leaf (a : ast) (c : context) : option (res context) :=
  match a with
  | AST_ARGV argv => Some (exec_argv argv c)
  | AST_LIST _ _ | AST_IF _ _ _ | AST_NOT _ | AST_AND _ _ | AST_OR _ _ | AST_WHILE _ _ | AST_UNTIL _ _ | AST_FOR _ _ _ => None
  | a => Some (simple a c)
  end.
Fixpoint chain_length (a : ast) : option nat :=
  match a with AST_LIST _ None => Some 1%nat | AST_LIST _ (Some b) => S <$> chain_length b | _ => None end.
Definition chained (a : option ast) : Prop := match a with None => True | Some a => is_Some (chain_length a) end.

(** The number that [break] and [continue] are given. *)
Definition count_arg (args : list str) (n : nat) : Prop :=
  match args with [] => n = 0%nat | d :: _ => is_digits d = true /\ atoi d = Z.of_nat n + 1 end.

Definition leaves (name : str) (l : nat) (argv : list str) (s : store) (args : list str) (s' : store) : Prop :=
  expand argv (at_ l ONorm s) = Ok (name :: args, at_ l ONorm s') /\ run_fun (name :: args) (at_ l ONorm s') = None.

(** The usual semantics of control structures ([usual] true), and the part of it that the shell keeps to ([usual] false).  The shell departs from the usual one in
    the places that have a condition [usual = true]: an [exit] in the condition of an [if] without [else] keeps its status only if it is 0; only the statuses 0 and 1 are negated;
    a command that is negated or a condition of a loop must not leave by [exit]; [exit] leaves the body of a [while] only with a status other than 0 and that of an [until] only
    with the status 0; [break] out of an [until] must have the status of the round before.  In both, the variable of a [for] that [exit] leaves still takes the remaining values. *)
Inductive eval (usual : bool) : nat -> task -> store -> out -> store -> Prop :=
| E_none l s : eval usual l (TCmd None) s ONorm s
| E_leaf l a s s' : leaf a (at_ l ONorm s) = Some (Ok (at_ l ONorm s')) -> eval usual l (TCmd (Some a)) s ONorm s'
| E_break l argv s args s' n : (0 < l)%nat -> leaves (ch "break") l argv s args s' -> count_arg args n -> eval usual l (TCmd (Some (AST_ARGV argv))) s (OBrk n) (with_rv 0 s')
| E_continue l argv s args s' n : (0 < l)%nat -> leaves (ch "continue") l argv s args s' -> count_arg args n -> eval usual l (TCmd (Some (AST_ARGV argv))) s (OCont n) (with_rv 0 s')
| E_exit l argv s args s' : leaves (ch "exit") l argv s args s' ->
    eval usual l (TCmd (Some (AST_ARGV argv))) s OExit (with_rv (match args with d :: _ => exit_itoa 0 d | [] => rv s' end) s')
| E_nil l s : eval usual l (TList None) s ONorm s
| E_cons l p1 p2 s s1 o s2 : eval usual l (TCmd p1) s ONorm s1 -> eval usual l (TList p2) s1 o s2 -> eval usual l (TList (Some (AST_LIST p1 p2))) s o s2
| E_cut l p1 p2 s o s1 : eval usual l (TCmd p1) s o s1 -> o <> ONorm -> chained p2 -> eval usual l (TList (Some (AST_LIST p1 p2))) s o s1
| E_list l p1 p2 s o s' : eval usual l (TList (Some (AST_LIST p1 p2))) s o s' -> eval usual l (TCmd (Some (AST_LIST p1 p2))) s o s'
| E_if_true l p1 p2 p3 s s1 o s2 : eval usual l (TList p1) s ONorm s1 -> rv s1 = 0 -> eval usual l (TCmd p2) s1 o s2 -> eval usual l (TCmd (Some (AST_IF p1 p2 p3))) s o s2
| E_if_false l p1 p2 a s s1 o s2 : eval usual l (TList p1) s ONorm s1 -> rv s1 <> 0 -> eval usual l (TCmd (Some a)) s1 o s2 -> eval usual l (TCmd (Some (AST_IF p1 p2 (Some a)))) s o s2
| E_if_none l p1 p2 s s1 : eval usual l (TList p1) s ONorm s1 -> rv s1 <> 0 -> eval usual l (TCmd (Some (AST_IF p1 p2 None))) s ONorm (with_rv 0 s1)
| E_if_cut l p1 p2 p3 s o s1 : eval usual l (TList p1) s o s1 -> o <> ONorm -> usual = true \/ rv s1 = 0 \/ p3 <> None ->
    eval usual l (TCmd (Some (AST_IF p1 p2 p3))) s o s1
| E_not l p1 s s1 : eval usual l (TCmd p1) s ONorm s1 -> usual = true \/ rv s1 = 0 \/ rv s1 = 1 ->
    eval usual l (TCmd (Some (AST_NOT p1))) s ONorm (with_rv (if rv s1 =? 0 then 1 else 0) s1)
| E_not_cut l p1 s o s1 : eval usual l (TCmd p1) s o s1 -> o <> ONorm -> usual = true -> eval usual l (TCmd (Some (AST_NOT p1))) s o s1
| E_and l p1 p2 s s1 o s2 : eval usual l (TCmd p1) s ONorm s1 -> rv s1 = 0 -> eval usual l (TCmd p2) s1 o s2 -> eval usual l (TCmd (Some (AST_AND p1 p2))) s o s2
| E_and_cut l p1 p2 s o s1 : eval usual l (TCmd p1) s o s1 -> o <> ONorm \/ rv s1 <> 0 -> eval usual l (TCmd (Some (AST_AND p1 p2))) s o s1
| E_or l p1 p2 s s1 o s2 : eval usual l (TCmd p1) s ONorm s1 -> rv s1 <> 0 -> eval usual l (TCmd p2) s1 o s2 -> eval usual l (TCmd (Some (AST_OR p1 p2))) s o s2
| E_or_cut l p1 p2 s o s1 : eval usual l (TCmd p1) s o s1 -> o <> ONorm \/ rv s1 = 0 -> eval usual l (TCmd (Some (AST_OR p1 p2))) s o s1
| E_while l p1 p2 s s1 o s2 : eval usual l (TCmd p1) s ONorm s1 -> eval usual l (TWhile p1 p2 0) s1 o s2 -> eval usual l (TCmd (Some (AST_WHILE p1 p2))) s o s2
| W_done l p1 p2 r s : rv s <> 0 -> eval usual l (TWhile p1 p2 r) s ONorm (with_rv r s)
| W_next l p1 p2 r s o1 s1 s2 o s3 : rv s = 0 -> eval usual (S l) (TCmd p2) s o1 s1 -> o1 <> OExit -> after l o1 = None ->
    eval usual l (TCmd p1) s1 ONorm s2 -> eval usual l (TWhile p1 p2 (rv s1)) s2 o s3 -> eval usual l (TWhile p1 p2 r) s o s3
| W_leave l p1 p2 r s o1 s1 o : rv s = 0 -> eval usual (S l) (TCmd p2) s o1 s1 -> after l o1 = Some o -> eval usual l (TWhile p1 p2 r) s o s1
| W_exit l p1 p2 r s s1 : rv s = 0 -> eval usual (S l) (TCmd p2) s OExit s1 -> usual = true \/ rv s1 <> 0 -> eval usual l (TWhile p1 p2 r) s OExit s1
| E_while_exit l p1 p2 s s1 : eval usual l (TCmd p1) s OExit s1 -> usual = true -> eval usual l (TCmd (Some (AST_WHILE p1 p2))) s OExit s1
| W_exit_condition l p1 p2 r s o1 s1 s2 : rv s = 0 -> eval usual (S l) (TCmd p2) s o1 s1 -> o1 <> OExit -> after l o1 = None ->
    eval usual l (TCmd p1) s1 OExit s2 -> usual = true -> eval usual l (TWhile p1 p2 r) s OExit s2
| E_until l p1 p2 s s1 o s2 : eval usual l (TCmd p1) s ONorm s1 -> eval usual l (TUntil p1 p2 0) s1 o s2 -> eval usual l (TCmd (Some (AST_UNTIL p1 p2))) s o s2
| U_done l p1 p2 r s : rv s = 0 -> eval usual l (TUntil p1 p2 r) s ONorm (with_rv r s)
| U_next l p1 p2 r s o1 s1 s2 o s3 : rv s <> 0 -> eval usual (S l) (TCmd p2) s o1 s1 -> o1 <> OExit -> after l o1 = None ->
    eval usual l (TCmd p1) s1 ONorm s2 -> eval usual l (TUntil p1 p2 (rv s1)) s2 o s3 -> eval usual l (TUntil p1 p2 r) s o s3
| U_leave l p1 p2 r s o1 s1 o : rv s <> 0 -> eval usual (S l) (TCmd p2) s o1 s1 -> after l o1 = Some o -> usual = true \/ rv s1 = r -> eval usual l (TUntil p1 p2 r) s o s1
| U_exit l p1 p2 r s s1 : rv s <> 0 -> eval usual (S l) (TCmd p2) s OExit s1 -> usual = true \/ rv s1 = 0 -> eval usual l (TUntil p1 p2 r) s OExit s1
| E_until_exit l p1 p2 s s1 : eval usual l (TCmd p1) s OExit s1 -> usual = true -> eval usual l (TCmd (Some (AST_UNTIL p1 p2))) s OExit s1
| U_exit_condition l p1 p2 r s o1 s1 s2 : rv s <> 0 -> eval usual (S l) (TCmd p2) s o1 s1 -> o1 <> OExit -> after l o1 = None ->
    eval usual l (TCmd p1) s1 OExit s2 -> usual = true -> eval usual l (TUntil p1 p2 r) s OExit s2
| E_for l p1 name words s s0 values o s1 : expand words (at_ l ONorm s) = Ok (values, at_ l ONorm s0) -> eval usual l (TFor p1 name values) s0 o s1 ->
    eval usual l (TCmd (Some (AST_FOR p1 name words))) s o (match values with [] => with_rv 0 s1 | _ => s1 end)
| F_nil l p1 name s : eval usual l (TFor p1 name []) s ONorm s
| F_next l p1 name v values s o1 s1 o s2 : eval usual (S l) (TCmd p1) (assign name v s) o1 s1 -> o1 <> OExit -> after l o1 = None ->
    eval usual l (TFor p1 name values) s1 o s2 -> eval usual l (TFor p1 name (v :: values)) s o s2
| F_leave l p1 name v values s o1 s1 o : eval usual (S l) (TCmd p1) (assign name v s) o1 s1 -> after l o1 = Some o -> eval usual l (TFor p1 name (v :: values)) s o s1
| F_exit l p1 name v values s s1 : eval usual (S l) (TCmd p1) (assign name v s) OExit s1 ->
    eval usual l (TFor p1 name (v :: values)) s OExit (foldl (fun s v => assign name v s) s1 values).

(** ** The code implements it *)

Lemma after_round_at l o s : o <> OExit ->
  after_round (at_ (S l) o s) = match after l o with None => (at_ l ONorm s, false) | Some o' => (at_ l o' s, true) end.
Proof.
  intros Ho. unfold after_round, at_. cbn -[Z.of_nat Z.add Z.sub]. rewrite Nat2Z.inj_succ.
  replace (Z.succ (Z.of_nat l) - 1) with (Z.of_nat l) by lia.
  destruct o as [|[|n]|[|n]|]; cbn -[Z.of_nat Z.add Z.sub]; [done| | | | |done].
  all: repeat match goal with |- context [Z.of_nat ?k + 1 - 1] => replace (Z.of_nat k + 1 - 1) with (Z.of_nat k) by lia end.
  all: unfold truthy; repeat match goal with |- context [Z.of_nat ?k + 1 =? 0] => rewrite (proj2 (Z.eqb_neq (Z.of_nat k + 1) 0)) by lia end.
  all: destruct l as [|l]; change (Z.of_nat 0) with 0; cbn -[Z.of_nat Z.add Z.sub].
  all: repeat (match goal with |- context [Z.of_nat (S ?k) =? 0] => rewrite (proj2 (Z.eqb_neq (Z.of_nat (S k)) 0)) by lia end; cbn -[Z.of_nat Z.add Z.sub]).
  all: try done. all: unfold set_type, set_count, set_level; cbn -[Z.of_nat Z.add Z.sub]; repeat f_equal; lia.
Qed.

Lemma after_round_exit l s : after_round (at_ (S l) OExit s) = (at_ l OExit s, false).
Proof. unfold after_round, at_. cbn -[Z.of_nat Z.add Z.sub]. unfold set_level. cbn -[Z.of_nat Z.sub]. repeat f_equal; lia. Qed.
Lemma enter_at l s : enter (at_ l ONorm s) = at_ (S l) ONorm s.
Proof. unfold enter, set_level, at_. cbn -[Z.of_nat]. f_equal; lia. Qed.
Lemma assign_at l name v s : set_vars (list_add (vars (at_ l ONorm s)) name v) (at_ l ONorm s) = at_ l ONorm (assign name v s).
Proof. done. Qed.

(** A context that is halted passes through every command and the rest of a list. *)
Lemma at_halted l o s : halted (at_ l o s) = match o with ONorm => false | _ => true end.
Proof. destruct o; try done; cbn -[Z.add Z.of_nat]; unfold truthy; by rewrite (proj2 (Z.eqb_neq _ _)) by lia. Qed.
Lemma switch_halted fuel a c : halted c = true -> exec_switch (S fuel) a c = Ok c.
Proof. intros Hc. cbn. destruct a; [by rewrite Hc|done]. Qed.
Lemma list_halted n : forall a k fuel c, chain_length a = Some n -> halted c = true -> (n < fuel)%nat -> exec_list fuel (exec_switch (S k)) (Some a) c = Ok c.
Proof.
  induction n as [n IH] using (well_founded_induction lt_wf). intros a k fuel c Hn Hc Hf. destruct a as [ | |p1 [b|]| | | | | | | | | | | | ]; try done.
  - cbn in Hn. destruct (chain_length b) as [m|] eqn:Hm; [|done]. injection Hn as <-. destruct fuel as [|fuel]; [lia|]. cbn [exec_list]. rewrite switch_halted by done. run. apply (IH m); [lia|done|done|lia].
  - injection Hn as <-. destruct fuel as [|[|fuel]]; [lia|lia|]. cbn [exec_list]. by rewrite switch_halted.
Qed.

(** The remaining values of a loop are still assigned when the shell is to exit. *)
Lemma enter_exit l s : enter (at_ l OExit s) = at_ (S l) OExit s.
Proof. unfold enter, set_level, at_. cbn -[Z.of_nat]. f_equal; lia. Qed.
Lemma for_exit l k p1 name values : forall s, for_loop (exec_switch (S k)) p1 name values (at_ l OExit s) = Ok (at_ l OExit (foldl (fun s v => assign name v s) s values)).
Proof.
  induction values as [|v values IH]; intros s; [done|]. cbn [for_loop foldl]. rewrite enter_exit. change (set_vars _ _) with (at_ (S l) OExit (assign name v s)).
  rewrite switch_halted by apply at_halted. run. rewrite after_round_exit. apply IH.
Qed.

(** The builtins that leave loops and the shell. *)
Lemma leaves_break l argv s args s' n : leaves (ch "break") l argv s args s' -> count_arg args n -> exec_argv argv (at_ l ONorm s) = Ok (at_ l (OBrk n) (with_rv 0 s')).
Proof.
  intros [E1 E2] Hn. unfold exec_argv. rewrite E1. run. rewrite E2. run. cbn [head deref]. run. change (-1 =? -1) with true. cbv iota.
  change (exec_builtin (ch "break") (ch "break" :: args) (at_ l ONorm s')) with (bi_break (ch "break" :: args) (at_ l ONorm s')).
  unfold bi_break, loop_count. destruct args as [|d args]; cbn in Hn |- *; [by subst n|]. destruct Hn as [-> ->]. done.
Qed.
Lemma leaves_continue l argv s args s' n : leaves (ch "continue") l argv s args s' -> count_arg args n -> exec_argv argv (at_ l ONorm s) = Ok (at_ l (OCont n) (with_rv 0 s')).
Proof.
  intros [E1 E2] Hn. unfold exec_argv. rewrite E1. run. rewrite E2. run. cbn [head deref]. run. change (-1 =? -1) with true. cbv iota.
  change (exec_builtin (ch "continue") (ch "continue" :: args) (at_ l ONorm s')) with (bi_continue (ch "continue" :: args) (at_ l ONorm s')).
  unfold bi_continue, loop_count. destruct args as [|d args]; cbn in Hn |- *; [by subst n|]. destruct Hn as [-> ->]. done.
Qed.
Lemma leaves_exit l argv s args s' : leaves (ch "exit") l argv s args s' ->
  exec_argv argv (at_ l ONorm s) = Ok (at_ l OExit (with_rv (match args with d :: _ => exit_itoa 0 d | [] => rv s' end) s')).
Proof.
  intros [E1 E2]. unfold exec_argv. rewrite E1. run. rewrite E2. run. cbn [head deref]. run. change (-1 =? -1) with true. cbv iota.
  change (exec_builtin (ch "exit") (ch "exit" :: args) (at_ l ONorm s')) with (bi_exit (ch "exit" :: args) (at_ l ONorm s')).
  unfold bi_exit. by destruct args.
Qed.

(** From some fuel on, for the loops and for the nodes. *)
Definition ev (P : nat -> nat -> Prop) : Prop := exists f, forall n m, (f <= n)%nat -> (f <= m)%nat -> P n m.
Lemma ev_loop (P : nat -> nat -> Prop) : ev (fun n m => P (S n) m) -> ev P.
Proof. intros [f Hf]. exists (S f). intros [|n] m Hn Hm; [lia|]. apply Hf; lia. Qed.
Lemma ev_switch (P : nat -> Prop) : ev (fun _ m => P (S m)) -> ev (fun _ m => P m).
Proof. intros [f Hf]. exists (S f). intros n [|m] Hn Hm; [lia|]. apply (Hf m m); lia. Qed.
Lemma ev_diag (P : nat -> nat -> Prop) : ev P -> ev (fun _ m => P m m).
Proof. intros [f Hf]. exists f. intros n m _ Hm. by apply Hf. Qed.
Lemma ev_all (P : nat -> nat -> Prop) : (forall n m, P n m) -> ev P.
Proof. intros HP. by exists 0%nat. Qed.
Lemma ev1 (P R : nat -> nat -> Prop) : ev P -> (forall n m, P n m -> R n m) -> ev R.
Proof. intros [f Hf] HR. exists f. intros n m Hn Hm. by apply HR, Hf. Qed.
Lemma ev2 (P Q R : nat -> nat -> Prop) : ev P -> ev Q -> (forall n m, P n m -> Q n m -> R n m) -> ev R.
Proof. intros [f Hf] [g Hg] HR. exists (f + g)%nat. intros n m Hn Hm. apply HR; [apply Hf|apply Hg]; lia. Qed.
Lemma ev3 (P Q S R : nat -> nat -> Prop) : ev P -> ev Q -> ev S -> (forall n m, P n m -> Q n m -> S n m -> R n m) -> ev R.
Proof. intros [f Hf] [g Hg] [h Hh] HR. exists (f + g + h)%nat. intros n m Hn Hm. apply HR; [apply Hf|apply Hg|apply Hh]; lia. Qed.
Lemma ev_halted l o s a : o <> ONorm -> ev (fun _ m => exec_switch m a (at_ l o s) = Ok (at_ l o s)).
Proof. intros Ho. apply (ev_switch (fun m => exec_switch m a (at_ l o s) = _)), ev_all. intros _ f. apply switch_halted. rewrite at_halted. by destruct o. Qed.
Lemma chained_halted a l o s : chained a -> o <> ONorm -> ev (fun n m => exec_list n (exec_switch m) a (at_ l o s) = Ok (at_ l o s)).
Proof.
  destruct a as [a|]; [|intros _ _; by apply ev_loop, ev_all]. intros [k Hk] Ho. exists (S k). intros n [|m] Hn Hm; [lia|]. apply (list_halted k); [done| |lia].
  rewrite at_halted. by destruct o.
Qed.

(** From some fuel on, the code ends as the specification says. *)
Definition implemented (l : nat) (t : task) (s : store) (o : out) (s' : store) : Prop := ev (fun n m => run n m t (at_ l ONorm s) = Ok (at_ l o s')).

Ltac loop := unfold implemented in *; cbn [run] in *; apply ev_loop; cbn [exec_list while_loop until_loop for_loop].
Ltac node :=
  unfold implemented in *; cbn [run] in *;
  lazymatch goal with |- ev (fun _ m => exec_switch m ?a ?c = ?r) => apply (ev_switch (fun m => exec_switch m a c = r)) end;
  cbn [exec_switch]; unfold exec_if, exec_not, exec_and, exec_or, exec_while, exec_until, exec_for; rewrite ?at_halted.

Ltac tests :=
  repeat match goal with |- context [last_rv (at_ ?l ?o ?s)] => change (last_rv (at_ l o s)) with (rv s) end;
  repeat match goal with H : rv ?s = _ |- context [rv ?s =? _] => rewrite H | H : rv ?s <> 0 |- context [rv ?s =? 0] => rewrite (proj2 (Z.eqb_neq _ _) H) end;
  cbn [negb Z.eqb Pos.eqb].
Ltac follow :=
  cbv beta in *; rewrite ?enter_at, ?assign_at; tests;
  repeat (match goal with
    | E : ?x = Ok _ |- context [?x] => rewrite E
    | |- context [after_round (at_ (S ?l) OExit ?s)] => rewrite after_round_exit
    | H : after ?l ?o = _ |- context [after_round (at_ (S ?l) ?o ?s)] => rewrite (after_round_at l o s), H by (first [done | by intros ->])
    end; run; tests); try done.
Ltac by1 := match goal with H1 : ev _ |- _ => apply (ev1 _ _ H1); intros n m ?; follow end.
Ltac node1 := node; match goal with H1 : ev _ |- _ => apply (ev1 _ _ (ev_diag _ H1)); intros n m ?; follow end.
Ltac node2 := node; match goal with H1 : ev _, H2 : ev _ |- _ => apply (ev2 _ _ _ (ev_diag _ H1) (ev_diag _ H2)); intros n m ? ?; follow end.
Ltac by2 := match goal with H1 : ev _, H2 : ev _ |- _ => apply (ev2 _ _ _ H1 H2); intros n m ? ?; follow end.
Ltac by3 := match goal with H1 : ev _, H2 : ev _, H3 : ev _ |- _ => apply (ev3 _ _ _ _ H1 H2 H3); intros n m ? ? ?; follow end.

Lemma while_exit l p1 p2 s : rv s <> 0 -> ev (fun n m => while_loop n (exec_switch m) p1 p2 (rv s) (at_ l OExit s) = Ok (at_ l OExit s)).
Proof. intros Hs. apply ev_loop, ev_all. intros n m. cbn [while_loop]. by tests. Qed.
Lemma with_rv_same r s : rv s = r -> with_rv r s = s.
Proof. intros <-. by destruct s. Qed.
Lemma until_exit l p1 p2 s : rv s = 0 -> ev (fun n m => until_loop n (exec_switch m) p1 p2 (rv s) (at_ l OExit s) = Ok (at_ l OExit s)).
Proof. intros Hs. apply ev_loop, ev_all. intros n m. cbn [until_loop]. destruct s as [x y z]. cbn in Hs. by subst x. Qed.
Lemma while_hangs l k p1 p2 : forall f r s, rv s = 0 -> while_loop f (exec_switch (S k)) p1 p2 r (at_ l OExit s) = NoFuel.
Proof.
  induction f as [|f IH]; intros r s Hs; [done|]. cbn [while_loop]. tests. rewrite enter_exit, switch_halted by apply at_halted. run. rewrite after_round_exit.
  rewrite switch_halted by apply at_halted. run. by apply IH.
Qed.
Lemma for_exits l p1 name values s : ev (fun _ m => for_loop (exec_switch m) p1 name values (at_ l OExit s) = Ok (at_ l OExit (foldl (fun s v => assign name v s) s values))).
Proof. exists 1%nat. intros _ [|m] _ Hm; [lia|]. apply for_exit. Qed.

Lemma eval_implemented l t s o s' : eval false l t s o s' -> implemented l t s o s'.
Proof.
  induction 1; try discriminate.
  - node. by apply ev_all.
  - node. apply ev_all. intros _ f. destruct a; cbn in H; try done; by injection H.
  - node. apply ev_all. intros _ f. by eapply leaves_break.
  - node. apply ev_all. intros _ f. by eapply leaves_continue.
  - node. apply ev_all. intros _ f. by eapply leaves_exit.
  - loop. by apply ev_all.
  - loop. by2.
  - pose proof (chained_halted p2 l o s1 H1 H0). loop. by2.
  - node1.
  - node2.
  - node2.
  - node1.
  - destruct (decide (rv s1 = 0)) as [E|E]; [pose proof (ev_halted l o s1 p2 H0); node2|]. destruct H1 as [?|[?|Hp]]; [done|done|]. destruct p3 as [a|]; [|done].
    pose proof (ev_halted l o s1 (Some a) H0). node2.
  - node1. destruct H0 as [E | [E | E]]; [done|rewrite E; done..].
  - node2.
  - destruct H0 as [Ho|Hr]; [pose proof (ev_halted l o s1 p2 Ho); node2; by destruct (rv s1 =? 0)|node1].
  - node2.
  - destruct H0 as [Ho|Hr]; [pose proof (ev_halted l o s1 p2 Ho); node2; by destruct (rv s1 =? 0)|node1].
  - node2.
  - loop. by apply ev_all; intros n m; follow.
  - loop. by3.
  - loop. by1.
  - destruct H1 as [?|Hr]; [done|]. pose proof (ev_halted l OExit s1 p1 ltac:(done)). pose proof (while_exit l p1 p2 s1 Hr). loop. by3.
  - node2.
  - loop. by apply ev_all; intros n m; follow.
  - loop. by3.
  - destruct H2 as [?|Hr]; [done|]. rewrite <- (with_rv_same r s1 Hr). loop. by1.
  - destruct H1 as [?|Hr]; [done|]. pose proof (ev_halted l OExit s1 p1 ltac:(done)). pose proof (until_exit l p1 p2 s1 Hr). loop. by3.
  - node1. by destruct values.
  - by apply ev_all.
  - unfold implemented in *; cbn [run for_loop] in *. by2.
  - unfold implemented in *; cbn [run for_loop] in *. by1.
  - unfold implemented in *; cbn [run for_loop] in *. pose proof (for_exits l p1 name values s1). by2.
Qed.

(** What the shell keeps to is part of the usual semantics. *)
Lemma eval_usual b l t s o s' : eval b l t s o s' -> eval true l t s o s'.
Proof.
  induction 1;
    [eapply E_none|eapply E_leaf|eapply E_break|eapply E_continue|eapply E_exit|eapply E_nil|eapply E_cons|eapply E_cut|eapply E_list|eapply E_if_true|eapply E_if_false|eapply E_if_none|eapply E_if_cut|eapply E_not|eapply E_not_cut|eapply E_and
     |eapply E_and_cut|eapply E_or|eapply E_or_cut|eapply E_while|eapply W_done|eapply W_next|eapply W_leave|eapply W_exit|eapply E_while_exit|eapply W_exit_condition|eapply E_until
     |eapply U_done|eapply U_next|eapply U_leave|eapply U_exit|eapply E_until_exit|eapply U_exit_condition|eapply E_for|eapply F_nil|eapply F_next|eapply F_leave|eapply F_exit]; eauto.
Qed.

Lemma from_some l a s o s' : implemented l (TCmd a) s o s' -> exists f, forall fuel, (f <= fuel)%nat -> exec_switch fuel a (at_ l ONorm s) = Ok (at_ l o s').
Proof. intros [f Hf]. exists f. intros fuel Hle. by apply (Hf fuel fuel). Qed.


(** A negation only knows the statuses 0 and 1: a command that ends with any other status has 1 as the status of its negation, as if it had
    succeeded. *)
Theorem negation_of_other_status l a s s1 : eval false l (TCmd a) s ONorm s1 -> rv s1 <> 0 -> rv s1 <> 1 ->
  exists f, forall fuel, (f <= fuel)%nat -> exec_switch fuel (Some (AST_NOT a)) (at_ l ONorm s) = Ok (at_ l ONorm (with_rv 1 s1)).
Proof.
  intros He H0 H1. apply eval_implemented in He. apply (from_some l (Some (AST_NOT a)) s ONorm (with_rv 1 s1)). node1. by rewrite (proj2 (Z.eqb_neq _ _) H1).
Qed.

(** The status of an [exit] in a condition is lost: when a condition ends the shell with a status other than 0 and there is no [else], the status of the shell is 0. *)
Theorem exit_in_condition_loses_status l p1 p2 s s1 : eval false l (TList p1) s OExit s1 -> rv s1 <> 0 ->
  exists f, forall fuel, (f <= fuel)%nat -> exec_switch fuel (Some (AST_IF p1 p2 None)) (at_ l ONorm s) = Ok (at_ l OExit (with_rv 0 s1)).
Proof.
  intros He H0. apply eval_implemented in He. apply (from_some l (Some (AST_IF p1 p2 None)) s OExit (with_rv 0 s1)). node1.
Qed.

End exec.

(** ** Variables *)

Lemma list_find_set l name value n : is_Some (list_find l name) -> list_find (set_value l name value) n = if bool_decide (name = n) then Some value else list_find l n.
Proof.
  induction l as [|[m v] l IH]; cbn; [by intros [? [=]]|]. intros Hn. destruct (decide (m = name)) as [-> | Hm]; [rewrite !bool_decide_true in * by done; cbn; by repeat case_bool_decide|].
  rewrite (bool_decide_false (m = name)) in * by done. cbn. destruct (decide (m = n)) as [-> | Hmn].
  - by rewrite bool_decide_true, (bool_decide_false (name = n)) by congruence.
  - rewrite !(bool_decide_false (m = n)) by done. by apply IH.
Qed.
Lemma list_find_remove l name n : NoDup l.*1 -> list_find (list_remove l name) n = if bool_decide (name = n) then None else list_find l n.
Proof.
  induction l as [|[m v] l IH]; cbn; [by case_bool_decide|]. intros [Hm Hd]%NoDup_cons. assert (Hnone : list_find l m = None).
  { clear -Hm. induction l as [|[k x] l IH]; [done|]. cbn in *. apply not_elem_of_cons in Hm as [H1 H2]. rewrite bool_decide_false by congruence. by apply IH. }
  destruct (decide (m = name)) as [-> | Hne]; [rewrite bool_decide_true by done|rewrite (bool_decide_false (m = name)) by done; cbn].
  - case_bool_decide as E; [by subst n|done].
  - rewrite IH by done. destruct (decide (m = n)) as [-> | Hmn]; [by rewrite !bool_decide_true, bool_decide_false by congruence|by rewrite !(bool_decide_false (m = n)) by done].
Qed.
Lemma set_value_names l name value : (set_value l name value).*1 = l.*1.
Proof. induction l as [|[m v] l IH]; cbn; [done|]. case_bool_decide; cbn; [done|]. by f_equal. Qed.
Lemma list_remove_names l name : list_remove l name ⊆ l /\ (NoDup l.*1 -> NoDup (list_remove l name).*1).
Proof.
  induction l as [|[m v] l [IH1 IH2]]; cbn; [done|]. case_bool_decide; cbn; [split; [set_solver|by intros [_ Hd]%NoDup_cons]|]. split; [set_solver|].
  intros [Hm Hd]%NoDup_cons. apply NoDup_cons. split; [|by apply IH2]. intros Hin. apply Hm. apply list_elem_of_fmap in Hin as (x & -> & Hx). apply list_elem_of_fmap_2. set_solver.
Qed.
Lemma list_find_none l name : list_find l name = None -> name ∉ l.*1.
Proof. induction l as [|[m v] l IH]; cbn; [set_solver|]. case_bool_decide; [done|]. intros Hn. apply not_elem_of_cons. split; [congruence|by apply IH]. Qed.

Inductive var_op := VSet (name value : str) | VUnset (name : str).
Definition do_var (l : list_var) (op : var_op) : list_var := match op with VSet n v => list_add l n v | VUnset n => list_remove l n end.
Definition value_after (ops : list var_op) (n : str) : option str :=
  foldl (fun v op => match op with VSet m x => if bool_decide (m = n) then Some x else v | VUnset m => if bool_decide (m = n) then None else v end) None ops.

Lemma do_var_ok l op : NoDup l.*1 -> NoDup (do_var l op).*1 /\
  forall n, list_find (do_var l op) n = match op with VSet m x => if bool_decide (m = n) then Some x else list_find l n | VUnset m => if bool_decide (m = n) then None else list_find l n end.
Proof.
  intros Hd. destruct op as [m x|m]; cbn [do_var].
  - unfold list_add. destruct (list_find l m) eqn:E.
    + split; [by rewrite set_value_names|]. intros n. by apply list_find_set.
    + split; [|done]. cbn. apply NoDup_cons. split; [by apply list_find_none|done].
  - split; [by apply list_remove_names|]. intros n. by apply list_find_remove.
Qed.

(** The list of variables is a map: after any sequence of assignments and [unset]s every name has the value that was assigned to it last, unless it has been unset since. *)
Theorem variables_are_a_map ops n : list_get_value (foldl do_var [] ops) n = value_after ops n.
Proof.
  cut (forall l v, NoDup l.*1 -> list_find l n = v -> list_find (foldl do_var l ops) n =
    foldl (fun v op => match op with VSet m x => if bool_decide (m = n) then Some x else v | VUnset m => if bool_decide (m = n) then None else v end) v ops).
  { intros Hc. apply Hc; [apply NoDup_nil_2|done]. }
  induction ops as [|op ops IH]; intros l v Hd Hv; [done|]. cbn. destruct (do_var_ok l op Hd) as [Hd' Hf]. apply IH; [done|]. rewrite Hf, <-Hv. by destruct op.
Qed.

(** ** [echo] *)

(** The characters behind the hyphen; [None] when one of them is no option. *)
Fixpoint option_chars (s : str) (nonewline noescape : bool) : option (bool * bool) :=
  match s with
  | [] => Some (nonewline, noescape)
  | 101 :: s => option_chars s nonewline false
  | 69 :: s => option_chars s nonewline true
  | 110 :: s => option_chars s true noescape
  | _ => None
  end.
Fixpoint get_options (args : list str) (nonewline noescape : bool) : list str * (bool * bool) :=
  match args with
  | (45 :: cur) :: rest => match option_chars cur nonewline noescape with Some (nnl, ne) => get_options rest nnl ne | None => (args, (nonewline, noescape)) end
  | _ => (args, (nonewline, noescape))
  end.
Fixpoint print_s (noescape : bool) (s : str) : list Z :=
  match s with
  | [] => []
  | c :: s =>
      if negb noescape && (c =? 92) then
        match s with
        | 110 :: s => 10 :: print_s noescape s
        | 116 :: s => 9 :: print_s noescape s
        | 92 :: s => 92 :: print_s noescape s
        | s => 92 :: print_s noescape s
        end
      else c :: print_s noescape s
  end.
Fixpoint print_args (space noescape : bool) (args : list str) : list Z :=
  match args with [] => [] | a :: args => (if space then [32] else []) ++ print_s noescape a ++ print_args true noescape args end.
(** What [echo] writes. *)
Definition bi_echo (args : list str) : list Z :=
  let '(toprint, (nonewline, noescape)) := get_options (tail args) false true in
  print_args false noescape toprint ++ (if nonewline then [] else [10]).

(** A text written so that [echo -e] prints it. *)
Definition escape (s : str) : str := s ≫= fun c => if c =? 10 then [92; 110] else if c =? 9 then [92; 116] else if c =? 92 then [92; 92] else [c].
Lemma print_escape s : print_s false (escape s) = s.
Proof.
  induction s as [|c s IH]; [done|]. unfold escape in *. cbn [mbind list_bind].
  destruct (Z.eqb_spec c 10) as [-> | H10]; [cbn; by rewrite IH|]. destruct (Z.eqb_spec c 9) as [-> | H9]; [cbn; by rewrite IH|].
  destruct (Z.eqb_spec c 92) as [-> | H92]; [cbn; by rewrite IH|]. cbn. rewrite (proj2 (Z.eqb_neq c 92)) by done. by rewrite IH.
Qed.

(** [echo -ne] prints the text that its argument is the escaped form of, for every text that does not start with a hyphen. *)
Theorem echo_prints_escaped s : hd 0 s <> 45 -> bi_echo [ch "echo"; ch "-ne"; escape s] = s.
Proof.
  intros E. destruct s as [|c s]; [done|]. cbn in E.
  assert (Hget : get_options [escape (c :: s)] true false = ([escape (c :: s)], (true, false))).
  { unfold escape. cbn [mbind list_bind]. destruct (c =? 10) eqn:E1, (c =? 9) eqn:E2, (c =? 92) eqn:E3; try done; cbn.
    all: destruct c as [|p|p]; try done; repeat (destruct p as [p|p|]; try done). }
  unfold bi_echo. cbn [tail]. change (get_options [ch "-ne"; escape (c :: s)] false true) with (get_options [escape (c :: s)] true false). rewrite Hget.
  cbn [print_args]. by rewrite print_escape, !app_nil_r.
Qed.

Lemma echo_prints_escaped_witness : bi_echo [ch "echo"; ch "-ne"; [97; 92; 110; 98; 92; 92]] = [97; 10; 98; 92].
Proof. apply (echo_prints_escaped [97; 10; 98; 92]). discriminate. Defined.

(** [echo -] prints an empty line: a hyphen alone is taken for an option. *)
Theorem echo_drops_hyphen : bi_echo [ch "echo"; ch "-"] = [10].
Proof. reflexivity. Qed.

(** ** A shell whose words are not expanded *)

Definition plain_expand (l : list str) (c : @context unit) : res (list str * @context unit) := Ok (l, c).
Definition no_fun (args : list str) (c : @context unit) : option (res (Z * @context unit)) := None.
(** A program that returns the number of its arguments. *)
Definition counting (args : list str) (c : @context unit) : res (Z * @context unit) := Ok (Z.of_nat (length args) - 1, c).
Definition nothing (a : ast) (c : @context unit) : res (@context unit) := Ok c.
Abbreviation shell_exec := (exec_switch plain_expand no_fun counting nothing).
Abbreviation shell_eval := (eval plain_expand no_fun counting nothing false).
Definition word (l : list string) : option ast := Some (AST_LIST (Some (AST_ARGV (ch <$> l))) None).
Definition start : store := mkStore 0 [] tt.

(** Claim C40: [exit 0] in the body of a [while] loop hangs the shell: the condition is no longer executed, and the status 0 that [exit] leaves is taken for its
    success, for any amount of fuel. *)
Theorem exit_in_while_hangs fuel : shell_exec fuel (Some (AST_WHILE (word ["true"%string]) (word ["exit"%string; "0"%string]))) (at_ 0 ONorm start) = NoFuel.
Proof.
  do 5 (destruct fuel as [|fuel]; [done|]).
  change (shell_exec (S (S (S (S (S fuel))))) (Some (AST_WHILE (word ["true"%string]) (word ["exit"%string; "0"%string]))) (at_ 0 ONorm start)) with
    (while_loop (S (S (S fuel))) (shell_exec (S (S (S (S fuel))))) (word ["true"%string]) (word ["exit"%string; "0"%string]) 0 (at_ 0 OExit start)).
  by apply while_hangs.
Qed.

(** [while true; do for x in a b; do break 2; done; done]. *)
Definition nested : option ast :=
  Some (AST_WHILE (word ["true"%string]) (Some (AST_LIST (Some (AST_FOR (word ["break"%string; "2"%string]) (ch "x") [ch "a"; ch "b"])) None))).
Lemma nested_eval : shell_eval 0 (TCmd nested) start ONorm (mkStore 0 [(ch "x", ch "a")] tt).
Proof.
  eapply E_while with (s1 := start).
  - apply E_list. eapply E_cons with (s1 := start); [by apply E_leaf|apply E_nil].
  - eapply W_leave with (o1 := OBrk 0); [done| |done]. eapply E_list, E_cut; [|done|done].
    eapply (E_for _ _ _ _ _ 1 _ _ _ _ _ [ch "a"; ch "b"]); [reflexivity|]. eapply F_leave with (o1 := OBrk 1); [|done].
    eapply E_list, E_cut; [|done|done]. eapply (E_break _ _ _ _ _ 2 _ _ [ch "2"] (mkStore 0 [(ch "x", ch "a")] tt)); [lia|done|done].
Qed.

Lemma negation_of_other_status_witness :
  exists f, forall fuel, (f <= fuel)%nat -> shell_exec fuel (Some (AST_NOT (Some (AST_ARGV [ch "p"; ch "a"; ch "b"])))) (at_ 0 ONorm start) = Ok (at_ 0 ONorm (mkStore 1 [] tt)).
Proof. apply (negation_of_other_status plain_expand no_fun counting nothing 0 _ start (mkStore 2 [] tt)); [by apply E_leaf|done|done]. Defined.
Lemma exit_in_condition_loses_status_witness :
  exists f, forall fuel, (f <= fuel)%nat -> shell_exec fuel (Some (AST_IF (word ["exit"%string; "3"%string]) None None)) (at_ 0 ONorm start) = Ok (at_ 0 OExit (mkStore 0 [] tt)).
Proof.
  apply (exit_in_condition_loses_status plain_expand no_fun counting nothing 0 _ None start (mkStore 3 [] tt)); [|done].
  eapply E_cut; [|done|done]. by apply (E_exit _ _ _ _ _ 0 [ch "exit"; ch "3"] start [ch "3"] start).
Defined.

End ShExec.
